(* ===== verification/_CoqProject ===== *)
-Q . S2P
Prelude.v
Sums.v
Platform.v
Ids.v
Toy.v
Reactions.v
Record.v
Chat.v
Identity.v
AuthorityData.v
AuthorityWitness.v
Authority.v
AuthorityProof.v
AuthorityInv.v
AuthorityFacts.v
Admission.v
ProofFacts.v
World.v
WitnessWire.v
Journal.v
Engine.v
Ledger.v
EngineFacts.v
WitnessInv.v
WitnessFacts.v
WitnessWorld.v
CallWire.v
CallRegistry.v
CallFacts.v
CallSafety.v
CallTheorems.v
CallEvents.v
CallEngine.v
CallEngineFacts.v
CallService.v
CallServiceTheorems.v
CallWorld.v
Attachments.v
StorageWire.v
StorageEngine.v
StorageService.v
StorageFacts.v
StorageInv.v
StorageSteps.v
StorageSafety.v
StorageTheorems.v
StorageFences.v
StorageOnce.v
StorageWorld.v
WakeWire.v
WakeRelay.v
WakeDelivery.v
WakeFacts.v
WakeChanges.v
WakeInv.v
WakeTheorems.v
WakeWorld.v
Revocations.v
HostedRoles.v
HostedState.v
HostedAccess.v
HostedFiles.v
HostedCalls.v
HostedAdmission.v
HostedService.v
HostedWitness.v
SpaceCreation.v
OwnerAdmission.v
HostGate.v
Hosting.v
HostingSpaces.v
HostedChanges.v
HostedTracks.v
HostedRuns.v
HostedInv.v
HostingFacts.v
HostingLimits.v
OwnerFacts.v
HostedWorld.v
HostingWorld.v
