(* ===== verification/Prelude.v ===== *)
(** * elo.now: the witnessed-authority trust chain and the services that rely on it

    elo.now is an end-to-end encrypted messenger whose Spaces are governed by signed
    configurations. This library models the part that decides what a device and a witness
    service trust: the signed record format, device credentials, the authority state
    machine of a Space with its recovery and witnessed admissions, portable authority
    proofs, the witness service that records admissions and owner updates, the call
    service that admits members to calls by those proofs, the storage broker that
    keeps their encrypted attachments, the wake relay that tells sleeping devices about
    messages and calls, and the hosting service that creates, runs and deletes Spaces for
    their members while their owner's devices check what it did.

    ** How the parts interact

    A byte string is parsed into a [SignedRecord]; its body decodes into a credential, a
    genesis, a configuration, an invitation or a message. [Authority::new] builds the state
    of a Space from its pinned genesis and [apply_config] extends it by one configuration
    at a time. A version-4 Space names a witness in its genesis; after the first
    configuration only configurations signed by that witness are accepted, and they carry
    either an owner's proposal or the evidence of an admission. The witness service keeps
    the proof of each Space's authority in a database, checks commands against it with the
    same [Authority] code, and answers with receipts in one signed event chain. Clients ask
    it for short freshness leases.

    The call service receives signed commands with a portable proof of the conversation's
    authority. A request is decoded under the engine's lock, verified without it, and
    executed under it again: the engine compares the proof with the fence it keeps for the
    conversation, persists the newer head, admits each command once by a receipt, and
    applies it to a copy of the call registry. Events the registry returns are published
    to the subscribers of the conversation. A clock ends what lapsed.

    The storage broker is reached the same way: a signed command with a portable proof, and
    a fresh witness lease for the head it names. Owners configure a provider for their
    Space; a member reserves an object and receives a token for one upload; the broker
    streams the ciphertext to the provider while checking its size and hash, and hands out
    tokens for downloads once the member has completed it. Maintenance deletes what was
    cancelled, failed or expired. What a client uploads is the chunked container its files
    are encrypted into.

    The wake relay knows devices only by random routes. A device registers a route by a
    signed binding of its account, proves by a challenge that the push token is its own, and
    sets the policy of the route: which scopes may alert and which senders' credentials.
    A sender's wake carries a proof signed by its device; the relay admits it under the
    policy, remembers its event, and a worker hands it to the push provider. A gate keeps
    policies, receipts, deletions and calls apart from a delivery in progress; wakes do not
    take it.

    A hosted Space lives at a service that may hold no owner's key. It is created by a signed
    command with a proof of work and the Space's first configuration. After that the service
    keeps a journal of signed intents: owners promote, demote, hand over the primary role and
    invite, newcomers apply with a contact, an owner's device approves them. The service
    replays the journal whenever it opens; an owner's device that publishes the next
    configuration of General replays it too, from the prefix its own head commits to, and
    admits only devices the intents entitle. Retired devices are in a registry that every
    Space of a host shares. Of the chats and the files of a Space the service keeps heads and
    rows. A Space with a witness takes its membership from the witness instead, and the host
    relays the requests and approvals of new devices.

    One hosting service runs many such Spaces. It reserves a directory for a creation it
    admits, under the operator's limits, signs the ticket with which the witness registers
    the new authority, and provisions the Space from its reservation. Where a witness is
    pinned, every creation and command needs a short lease of the head it relies on, and the
    newest position the host has seen is kept in a file. Owners delete Spaces, reservations
    that nobody claimed expire, accounts are erased from all Spaces by jobs that are retried,
    and a restart opens what is there and keeps the rest in quarantine.

    ** Files and the source they model

    - [Prelude]: the error monad, 64-bit arithmetic, strings, ordered maps, the shared
      lemmas, the tactics [step] and [inv_ok], and the hint database [elo].
    - [Platform]: the third-party functions (SHA-256, Ed25519, base64, serde_json, age
      recipients, URLs, XChaCha20-Poly1305 and HMAC-SHA-256) as classes, their documented
      laws as [PlatformLaws] and [CryptoLaws]; [Serde] and [JsonText] are the interfaces of
      derived serde code. [Toy] is a computable instance.
    - [Ids]: crates/elo-core/src/ids.rs. [Record], [Chat], [Reactions]: record.rs.
      [Identity]: identity.rs. Each holds its theorems too.
    - [AuthorityData]: the state and bodies of authority.rs and its submodules;
      [AuthorityWitness]: authority/witness.rs and authority/witness/durable.rs;
      [Authority]: authority.rs and authority/recovery.rs;
      [AuthorityProof]: authority/call_proof.rs, authority/checkpoint.rs and the message
      admission of authority.rs. An [Authority] value is the Rust struct field by field;
      a handler on [&mut self] returns the new state beside its result.
    - [AuthorityInv]: reachable authorities and their invariant; [AuthorityFacts],
      [Admission]: the theorems, those on messages in the former; [ProofFacts]: those on
      portable proofs, and what a verified proof gives the services.
    - [WitnessWire]: crates/elo-core/src/witness.rs and witness/registration.rs;
      [Journal]: crates/elo-witness/src/journal.rs and journal/capacity.rs;
      [Engine]: crates/elo-witness/src/engine.rs, one definition per operation and one
      transaction around them. A [Db] value is the SQLite database, one map per table; a
      transaction that fails or is dropped leaves no trace.
    - [Ledger]: the abstract specification of the service's tables, a step relation of
      single-row changes; [EngineFacts] shows that the engine refines it; [WitnessInv]
      defines the journals a service can reach and their invariant; [WitnessFacts]: the
      theorems.
    - [CallWire]: crates/elo-core/src/calls.rs and calls/delegation.rs, [Delegated] being
      the module delegation; [CallRegistry]: crates/elo-call-service/src/registry.rs, one
      definition per operation of [Registry::apply]; [CallEngine]: engine.rs and
      engine/request_limits.rs, [execute] in the parts the code takes, each a step that
      keeps the state it had reached when it fails; [CallService]: the sections of
      server.rs under the engine's lock and a step relation of everything that can happen
      between them.
    - [CallFacts], [CallSafety], [CallTheorems], [CallEvents]: the registry's invariant,
      what a step may do to a call, and its theorems; [CallEngineFacts], [CallService],
      [CallServiceTheorems]: the invariant of the engine and of every state the service
      reaches, and their theorems.
    - [Attachments]: crates/elo-core/src/attachments/model.rs and attachments/crypto.rs, the
      theorems of the container and a concrete file.
    - [StorageWire]: network addresses and their classification, and
      crates/elo-core/src/attachments/broker.rs; [StorageEngine]:
      crates/elo-storage/src/engine.rs, a [Tables] value being the database, one map per
      table, and an operation that fails leaving it as it was; [StorageService]: server.rs
      and freshness.rs, the sections under the engine's lock and a step relation of
      everything between them (requests verified, leases cached and fetched, uploads in
      flight, rounds of maintenance, restarts), with the blobs the providers hold.
    - [StorageFacts]: what each operation changes; [StorageInv]: the
      invariant of the tables; [StorageSteps], [StorageSafety]: every operation
      keeps it, and the same of the whole service, blobs included;
      [StorageTheorems], [StorageFences], [StorageOnce]: the theorems; [StorageWorld]:
      a broker that is configured, reserves, stores and completes a photo, and the theorems
      applied to it.
    - [WakeWire]: crates/elo-core/src/app/push_sender.rs and app/account_deletion.rs;
      [WakeRelay], [WakeDelivery]: crates/elo-wake/src/relay.rs and relay/ringing.rs, one
      definition per closure a handler runs on the database worker, a route carrying its rows
      of every table; the Section WakeService of [WakeDelivery]: those closures, the uses of
      the push provider and the delivery gate as one step relation (relay/database.rs runs
      one closure at a time).
    - [WakeFacts]: the limits and that every closure keeps them; [WakeChanges]: what one
      step may do to a route; [WakeInv]: the invariants that follow, of every
      state and of a route that keeps its policy; [WakeTheorems]: the theorems;
      [WakeWorld]: a phone, a friend, a stranger and a call, and the theorems applied.
    - [Revocations]: crates/elo-core/src/identity/revocations.rs, a [RevocationRegistry]
      being the directory of signed revocations and its index. [SpaceCreation]:
      app/space_host.rs.
    - [HostedRoles]: crates/elo-core/src/public_space/roles.rs; [HostedState],
      [HostedAccess], [HostedAdmission], [HostedService]: public_space.rs and
      app/space_service.rs; [HostedFiles]: public_space/attachments.rs; [HostedCalls]:
      public_space/calls.rs, public_space/notes.rs and notes.rs; [HostedWitness]:
      public_space/witnessed.rs and witnessed_relay.rs. The service is one record, its
      verified General authority beside the state it writes to disk; a handler on
      [&mut self] runs in a monad that keeps what it had changed when it fails, because the
      code does, and the caller restores what the code restores.
    - [OwnerAdmission]: crates/elo-core/src/owner_admission.rs.
    - [HostedChanges]: the abstract specification of a hosted Space, a step relation with a
      rule for every way its state changes and what the code has checked before, for the
      command the handler answers; [HostedTracks]: every handler takes only such steps;
      [HostedRuns]: requests, transfers, deletions and restarts as one relation, the
      refinement, and what a request has been checked for when its command runs (by whom it
      is signed, for which Space and when, on which state); [HostedInv]: the theorems, over
      runs from the specification and over single steps from the request handed in;
      [OwnerFacts]: the theorems about owner_admission.rs; [HostedWorld]: a Space whose owner promotes a guest, and the
      theorems applied to it.
    - [HostGate]: crates/elo-team/src/hosting/freshness.rs, with its theorems. [Hosting]:
      hosting.rs up to the creation of a Space, and hosting/registration.rs; [HostingSpaces]:
      the deletion of a Space and requests to it (hosting.rs), hosting/lifecycle.rs,
      hosting/account_deletion.rs, and one step relation of everything a host goes through.
      A [Host] is its files, one map per directory, beside what is in memory; a handler keeps
      what it changed when it fails, and a write that fails may have happened.
    - [HostingFacts]: the changes a host may make, each with what was checked before, and the
      proof that every handler makes only those; [HostingLimits]: the theorems;
      [HostingWorld]: a host that reserves, one whose Space is deleted, and the theorems
      applied to them.
    - [Sums]: sums and counts over the rows of a table, [UPDATE] and [DELETE] of many rows.
    - [World], [WitnessWorld], [CallWorld]: a concrete witnessed Space, a single-controller Space, a
      service that registers, invites, challenges, admits and removes, and a call from its
      start to the guest's removal, all evaluated, and the theorems applied to them.

    ** What the theorems show

    - Records: the frame parser accepts exactly the documented frames, signing round-trips,
      strict JSON has no duplicate keys, the timestamp check accepts exactly the canonical
      instants, message time is monotone and bounded, the identifier parser is exact.
    - Credentials: the verifier accepts exactly delegation chains of depth at most four;
      companions extend a chain by one; a device cannot revoke itself.
    - Authorities: an unforked owner-managed authority is one chain that its ancestry walk
      returns; [apply_config] has the stated effect on every branch; only the creator
      changes the managers; owner credentials and the chat kind are what the chain fixed;
      a recovered controller shares no key with a former one.
    - Admissions: a witness cannot grant anything beyond read and post admissions, each
      spends one of the uses left of the invitation an owner signed, within its time, for a
      request the candidate signed, and a removed identity needs an approval.
    - Proofs and messages: a portable proof that verifies yields a reachable authority of
      the requested Space; a message goes to exactly the readers, and every device it is
      addressed to accepts it.
    - Service: a command refines the ledger, changes its own Space only, is authorized, and
      commits at most once; nothing recorded is taken back; limits on invitation uses,
      registrations and storage hold in every reachable journal; a reachable journal opens
      and activates again; a clock failure seals the process; leases the service signs are
      accepted, and none an older position could forge; the registration work ends.
    - Calls: a registry stays well formed; only a command's sender enters or leaves; key
      epochs fix rosters, so relayed signals go between participants; a direct call rings
      for a minute; a tick leaves nothing lapsed.
    - Call service: only authentic commands run and each acts once; fences never go back,
      across restarts; live calls are under their fence's head; a refused command touches
      no other conversation; what is published tells subscribers exactly the calls, except
      after a state request that ends a call its own tick announced, which an example in
      [CallWorld] exhibits; caches and calls stay within their limits.
    - Attachments: decryption accepts exactly the containers it should, up to three
      trailing bytes that the code tolerates, and inverts encryption whatever the buffers.
    - Storage broker: every live attachment is at its provider with the announced size and
      hash and its credentials open; objects follow one life cycle, and a completed one
      stays until its deadline; only authentic commands run, each once; a token transfers
      once; fences and the witness floor never go back; the limits hold; maintenance
      removes all that is overdue and nothing else.

    - Wake relay: what reaches the push provider was proved by a sender who still has an
      account and is allowed by the rules the route has at that moment; an event is not
      delivered twice; the queue is always what the rules allow; a deleted account leaves
      nothing and cannot come back; policies never go back; unnamed senders share one alert
      in five minutes; the worker takes the first due row; tables stay within their limits
      and counters are exact. [replaced_row_alerts] in [WakeWorld] is an order of steps in
      which an unnamed sender's alert is not quiet.
    - Hosted Spaces: whatever is requested, transferred, deleted or restarted, the service
      takes only the steps of its specification. Its journal only grows; owners change only
      by signed commands of the primary owner, and at a witnessed Space only with the General
      that a synchronising request proves under the pinned witness and its lease covers; the
      General in hand and the stored proof of it change only by the publication an owner's
      device signed, such a synchronisation, or a restart from the stored proof; a request is
      let in only by an owner's decision, the open invitation whose token it carries, or a
      link to a device with access, all read from the request of that step; a deleted account
      stays out; tables stay within their limits; a stored file follows one life cycle.
    - Hosting: a lease that is accepted is never behind one the host saw; the operator's
      limits on directories, days and networks hold, and every registration ticket is counted
      first; a Space in use is never reclaimed; a deletion is the primary owner's, confirmed
      by his command to that open Space, and is final; an account's erasure completes only when every open Space has done it. A
      Space that did not open is passed over, which [unopened_space_passed_over] shows.
    - Owner admission: a device an owner's client admits was entitled by the signed journal
      that extends the prefix the client's own head commits to: every entry lawful where it
      stands, the owners and retired devices those it makes, and the invitation, decision or
      link the device rests on one of it.

    ** Bounds and fuel

    The ancestry walk runs with one step more than the stored configurations, of which
    there are at most 4096, and a theorem shows it ends within them. The recursion over delegation chains is
    on the depth bound of the code. The nonce search of the registration work takes its
    fuel as an argument, with a theorem that any fuel above a solving nonce is enough.
    Integers are [N]; saturating and checked operations are written with their 64-bit
    bounds, and database integers stay below [2^63]. A call's key epoch is unbounded where
    the code adds one to a 64-bit integer for each join, leave or lapse. [Registry::apply]
    calls itself at most once, with a join; [apply_unfold] shows that one unfolding is it.
    The loop of [decrypt_file] has one step more than the file has bytes, and each reads at
    least four. The credential chain of a creation is walked with one step more than its
    depth, as the code does. Maintenance takes 32 rows a round, and 4096 rounds empty the at most 128
    Spaces of at most 1024 objects.

    ** Assumptions

    Theorems that need it assume [PlatformLaws]: digest and signature lengths, that a
    signature verifies under its key, and the base64 round trip. Theorems about stored
    receipts, leases and providers assume that serde reads back what it wrote. Theorems
    about sealed data assume [CryptoLaws]: decryption inverts encryption, and a ciphertext
    is sixteen bytes longer. No collision freedom
    and no unforgeability is assumed.

    ** Not modelled

    Encryption (age envelopes, sealed call signals, rings and answers), the local store
    and its asynchronous commits, sealed snapshots, synchronisation between devices, the
    transports to push providers, media servers, sockets, HTTP transport, the command line
    and the desktop application. Of the storage service the providers (S3, MEGA), the probe
    of a new configuration, migrations of old tables and a provider that applies a write
    after its request was abandoned are not. Of the hosting service the
    Spaces with a profile of their own from before owner-managed Spaces, attachment transfer,
    statistics, backups and the contents of replicas are not; replicas and the provider are
    calls that may fail, a handler runs as one step between its locks, and the removal of a
    directory is all or nothing. The bytes of a hosted Space's files are in a provider's store
    outside it. File
    permissions, locks and SQLite pragmas and failures are I/O; the hosting authority the
    call server asks before each command is outside it, so its theorems hold whatever it
    answers. Where a loop over an unordered query can fail at several rows, the model fixes
    the order, so it decides only which error is reported. What a client does with the
    answers of these services, the retention rules of messages and the acceptance of records
    by a replica have no definitions here either. *)

From stdpp Require Export base tactics option list numbers strings gmap sorting.
From Stdlib Require Export Lia.

#[global] Open Scope string_scope.
#[global] Open Scope list_scope.
#[global] Open Scope N_scope.

(** ** The error monad: Rust's [Result<A, E>] and the [?] operator *)

Inductive result (E A : Type) : Type :=
| Ok (a : A)
| Err (e : E).
Arguments Ok {E A} a.
Arguments Err {E A} e.

#[global] Instance result_ret E : MRet (result E) := fun A a => Ok a.
#[global] Instance result_bind E : MBind (result E) := fun A B f m =>
  match m with Ok a => f a | Err e => Err e end.
#[global] Instance result_fmap E : FMap (result E) := fun A B f m =>
  match m with Ok a => Ok (f a) | Err e => Err e end.

(** [opt.ok_or(e)?] *)
Definition ok_or {E A} (o : option A) (e : E) : result E A :=
  match o with Some a => Ok a | None => Err e end.

(** [r.map_err(|_| e)] *)
Definition map_err {E F A} (r : result E A) (e : F) : result F A :=
  match r with Ok a => Ok a | Err _ => Err e end.

(** [if cond { return Err(e) }] *)
Definition fail_if {E} (b : bool) (e : E) : result E unit :=
  if b then Err e else Ok tt.

(** [r.ok()] and [r.is_ok()] *)
Definition to_option {E A} (r : result E A) : option A :=
  match r with Ok a => Some a | Err _ => None end.
Definition is_ok {E A} (r : result E A) : bool :=
  match r with Ok _ => true | Err _ => false end.

(** [iter.map(f).collect::<Result<Vec<_>>>()] *)
Fixpoint try_map {E A B} (f : A → result E B) (l : list A) : result E (list B) :=
  match l with
  | [] => mret []
  | x :: l => y ← f x; ys ← try_map f l; mret (y :: ys)
  end.

(** [opt.map(f).transpose()] *)
Definition transpose {E A} (o : option (result E A)) : result E (option A) :=
  match o with
  | None => mret None
  | Some (Ok a) => mret (Some a)
  | Some (Err e) => Err e
  end.

(** A [for] loop whose body may leave with [?], threading mutable locals. *)
Fixpoint try_fold {E A S} (f : S → A → result E S) (s : S) (l : list A) : result E S :=
  match l with
  | [] => mret s
  | x :: l => s' ← f s x; try_fold f s' l
  end.

Lemma bind_Ok {E A B} (m : result E A) (f : A → result E B) b :
  m ≫= f = Ok b ↔ ∃ a, m = Ok a ∧ f a = Ok b.
Proof.
  destruct m as [a|e]; cbn; split; [by eauto | | done | ].
  - by intros (? & [= <-] & ?).
  - by intros (? & ? & _).
Qed.

Lemma fmap_Ok {E A B} (m : result E A) (f : A → B) b :
  f <$> m = Ok b ↔ ∃ a, m = Ok a ∧ f a = b.
Proof.
  destruct m as [a|e]; cbn; split; [intros [= <-]; eauto | | done | ].
  - by intros (? & [= <-] & <-).
  - by intros (? & ? & _).
Qed.

Lemma fail_if_Ok {E} (b : bool) (e : E) u : fail_if b e = Ok u ↔ b = false.
Proof. destruct b, u; cbn; split; congruence. Qed.

Lemma fail_if_pass {E B} (b : bool) (e : E) (k : result E B) :
  b = false → (_ ← fail_if b e; k) = k.
Proof. by intros ->. Qed.

Lemma fail_if_stop {E B} (b : bool) (e : E) (k : unit → result E B) :
  b = true → (fail_if b e ≫= k) = Err e.
Proof. by intros ->. Qed.

Lemma bind_of_Ok {E A B} (m : result E A) a (k : A → result E B) :
  m = Ok a → (m ≫= k) = k a.
Proof. by intros ->. Qed.

Lemma ok_or_Ok {E A} (o : option A) (e : E) a : ok_or o e = Ok a ↔ o = Some a.
Proof. destruct o; cbn; split; congruence. Qed.

Lemma map_err_Ok {E F A} (r : result E A) (e : F) a : map_err r e = Ok a ↔ r = Ok a.
Proof. destruct r; cbn; split; congruence. Qed.

Lemma Ok_inj {E A} (a b : A) : @Ok E A a = Ok b → a = b.
Proof. congruence. Qed.

(** The answer of a step that succeeds. *)
Definition from_ok {E A} (d : A) (r : result E A) : A := match r with Ok a => a | Err _ => d end.
Lemma from_ok_Ok {E A} (d : A) (r : result E A) : is_ok r = true → r = Ok (from_ok d r).
Proof. by destruct r. Qed.

Lemma is_ok_true {E A} (r : result E A) : is_ok r = true ↔ ∃ a, r = Ok a.
Proof. destruct r; cbn; split; [eauto|done|done|]. by intros [? ?]. Qed.

Lemma to_option_Some {E A} (r : result E A) a : to_option r = Some a ↔ r = Ok a.
Proof. destruct r; cbn; split; congruence. Qed.

Lemma transpose_Ok {E A} (o : option (result E A)) x :
  transpose o = Ok x ↔
  match x with None => o = None | Some a => o = Some (Ok a) end.
Proof.
  unfold transpose, mret, result_ret.
  destruct o as [[?|?]|], x; split; congruence.
Qed.

Lemma try_map_Ok {E A B} (f : A → result E B) l k :
  try_map f l = Ok k ↔ Forall2 (λ x y, f x = Ok y) l k.
Proof.
  revert k. induction l as [|x l IH]; intros k; cbn.
  - split; [intros [= <-]; constructor | by inversion 1].
  - rewrite bind_Ok. split.
    + intros (y & Hy & (ys & Hys & [= <-])%bind_Ok). constructor; [done|].
      by apply IH.
    + inversion 1 as [|? y ? ys Hy Hys]; subst. exists y. split; [done|].
      apply bind_Ok. exists ys. split; [by apply IH|done].
Qed.

Lemma try_fold_app {E A S} (f : S → A → result E S) s l1 l2 :
  try_fold f s (l1 ++ l2) = (try_fold f s l1 ≫= λ s', try_fold f s' l2).
Proof.
  revert s. induction l1 as [|x l1 IH]; intros s; cbn; [done|].
  destruct (f s x); cbn; [apply IH | done].
Qed.

(** A loop invariant for [try_fold]. *)
Lemma try_fold_inv {E A S} (I : S → Prop) (f : S → A → result E S) l s s' :
  (∀ s x s', x ∈ l → I s → f s x = Ok s' → I s') →
  I s → try_fold f s l = Ok s' → I s'.
Proof.
  revert s. induction l as [|x l IH]; intros s Hstep HI; cbn.
  - by intros [= <-].
  - intros (s1 & H1 & H2)%bind_Ok.
    eapply (IH s1); eauto using list_elem_of_further, list_elem_of_here.
Qed.

(** ** Decidable tests written like the source *)

Notation "x === y" := (bool_decide (x = y)) (at level 70, no associativity).
Notation "x =/= y" := (negb (bool_decide (x = y))) (at level 70, no associativity).

Lemma bool_decide_eq_negb_false (P : Prop) `{!Decision P} :
  negb (bool_decide P) = false ↔ P.
Proof. rewrite negb_false_iff. apply bool_decide_eq_true. Qed.

(** Invert every successful step of a handler in the context. *)
Ltac inv_ok_step :=
  match goal with
  | H : (_ ≫= _) = Ok _ |- _ =>
      let x := fresh "x" in let H1 := fresh "Hx" in
      apply bind_Ok in H as (x & H1 & H)
  | H : (_ <$> _) = Ok _ |- _ =>
      let x := fresh "x" in let H1 := fresh "Hx" in
      apply fmap_Ok in H as (x & H1 & H)
  | H : fail_if _ _ = Ok _ |- _ => apply fail_if_Ok in H
  | H : ok_or _ _ = Ok _ |- _ => apply ok_or_Ok in H
  | H : map_err _ _ = Ok _ |- _ => apply map_err_Ok in H
  | H : mret ?a = @Ok ?E ?A ?b |- _ => change (@Ok E A a = Ok b) in H
  | H : Ok _ = Ok _ |- _ => apply Ok_inj in H
  | H : Err _ = Ok _ |- _ => discriminate H
  | H : _ || _ = false |- _ =>
      let H1 := fresh H in let H2 := fresh H in
      apply orb_false_iff in H as [H1 H2]
  | H : _ && _ = true |- _ =>
      let H1 := fresh H in let H2 := fresh H in
      apply andb_true_iff in H as [H1 H2]
  | H : negb _ = false |- _ => apply negb_false_iff in H
  | H : negb _ = true |- _ => apply negb_true_iff in H
  | H : bool_decide _ = true |- _ => apply bool_decide_eq_true in H
  | H : bool_decide _ = false |- _ => apply bool_decide_eq_false in H
  end.
Ltac inv_ok := repeat (inv_ok_step; try discriminate); subst.

(** [step H x Hx]: split the next successful step off a long check. *)
Ltac step H x Hx := apply bind_Ok in H as (x & Hx & H).

(** Failed comparisons, as inequalities *)
Ltac ordered := repeat match goal with
  | H : (_ <? _) = false |- _ => apply N.ltb_ge in H
  | H : (_ <=? _) = false |- _ => apply N.leb_gt in H
  end.

(** [set_field eta f s v] is the record [s] with its field [f] replaced by [v]; [eta] rebuilds
    the record from its projections. *)
Ltac set_field eta f s v :=
  let e := eval cbv delta [eta] in eta in
  let p := eval pattern f in e in
  match p with
  | ?g _ => let r := eval cbv beta in (g (λ _, v) s) in exact r
  end.

(** ** Unsigned 64-bit integers *)

Definition u64_max : N := 18446744073709551615.
Definition saturating_add (a b : N) : N := N.min (a + b) u64_max.
(** [N.sub] already stops at zero. *)
Definition saturating_sub (a b : N) : N := a - b.
Definition checked_add (a b : N) : option N :=
  if a + b <=? u64_max then Some (a + b) else None.
Definition checked_mul (a b : N) : option N :=
  if a * b <=? u64_max then Some (a * b) else None.
Definition checked_sub (a b : N) : option N :=
  if b <=? a then Some (a - b) else None.
Definition abs_diff (a b : N) : N := (a - b) + (b - a).
Definition cap64 (a : N) : N := N.min a u64_max.

Lemma saturating_add_le a b : saturating_add a b ≤ a + b.
Proof. unfold saturating_add. lia. Qed.

Lemma checked_add_Some a b c : checked_add a b = Some c ↔ c = a + b ∧ a + b ≤ u64_max.
Proof. unfold checked_add. destruct (N.leb_spec (a + b) u64_max); naive_solver lia. Qed.

Lemma checked_mul_Some a b c : checked_mul a b = Some c ↔ c = a * b ∧ a * b ≤ u64_max.
Proof. unfold checked_mul. destruct (N.leb_spec (a * b) u64_max); naive_solver lia. Qed.

Lemma checked_sub_Some a b c : checked_sub a b = Some c ↔ c = a - b ∧ b ≤ a.
Proof. unfold checked_sub. destruct (N.leb_spec b a); naive_solver lia. Qed.

(** ** Bytes and strings

    A Rust [String] is its UTF-8 bytes and a [Vec<u8>] or byte array its bytes:
    both are a [string], so [len] is [slen] and the derived [Ord] of a byte
    array is the lexicographic order of [string]. *)

Definition slen (s : string) : N := N.of_nat (String.length s).
Definition byte_of (n : N) : Ascii.ascii := Ascii.ascii_of_N n.
Definition byte_val (c : Ascii.ascii) : N := Ascii.N_of_ascii c.

Definition bytes_ltb (a b : string) : bool := String.ltb a b.

(** [items.windows(2).all(|p| p[0] < p[1])] *)
Fixpoint strictly_sorted {A} (ltb : A → A → bool) (l : list A) : bool :=
  match l with
  | [] => true
  | x :: l' =>
      match l' with
      | [] => true
      | y :: _ => ltb x y && strictly_sorted ltb l'
      end
  end.

(** [l.contains(&x)] *)
Definition contains {A} `{EqDecision A} (l : list A) (x : A) : bool :=
  bool_decide (x ∈ l).

Lemma contains_true {A} `{EqDecision A} (l : list A) x : contains l x = true ↔ x ∈ l.
Proof. apply bool_decide_eq_true. Qed.

Lemma contains_false {A} `{EqDecision A} (l : list A) x : contains l x = false ↔ x ∉ l.
Proof. apply bool_decide_eq_false. Qed.

(** [iter.find(|x| f(x))] *)
Fixpoint find_first {A} (f : A → bool) (l : list A) : option A :=
  match l with
  | [] => None
  | x :: l => if f x then Some x else find_first f l
  end.

Lemma find_first_Some {A} (f : A → bool) l x :
  find_first f l = Some x → x ∈ l ∧ f x = true.
Proof.
  induction l as [|y l IH]; cbn; [done|].
  destruct (f y) eqn:Hy.
  - intros [= ->]. split; [constructor|done].
  - intros [? ?]%IH. split; [by constructor|done].
Qed.

Lemma find_first_None {A} (f : A → bool) l :
  find_first f l = None ↔ ∀ x, x ∈ l → f x = false.
Proof.
  induction l as [|y l IH]; cbn; [set_solver|].
  destruct (f y) eqn:Hy.
  - split; [done|]. intros H. specialize (H y). rewrite Hy in H. set_solver.
  - rewrite IH. set_solver.
Qed.

Lemma existsb_true {A} (f : A → bool) l :
  existsb f l = true ↔ ∃ x, x ∈ l ∧ f x = true.
Proof. rewrite existsb_exists. by setoid_rewrite list_elem_of_In. Qed.

Lemma existsb_false {A} (f : A → bool) l :
  existsb f l = false ↔ ∀ x, x ∈ l → f x = false.
Proof.
  rewrite <-not_true_iff_false, existsb_true. split.
  - intros H x Hx. apply not_true_iff_false. naive_solver.
  - intros H (x & Hx & Hf). by rewrite (H x Hx) in Hf.
Qed.

Lemma forallb_true {A} (f : A → bool) l :
  forallb f l = true ↔ ∀ x, x ∈ l → f x = true.
Proof. rewrite forallb_forall. by setoid_rewrite list_elem_of_In. Qed.

(** ** Slices of byte strings *)

(** [s[..n]] and [s[n..]] *)
Fixpoint stake (n : nat) (s : string) : string :=
  match n, s with
  | S n, String c s => String c (stake n s)
  | _, _ => ""
  end.
Fixpoint sdrop (n : nat) (s : string) : string :=
  match n, s with
  | S n, String _ s => sdrop n s
  | _, _ => s
  end.
Definition sfirst (s : string) : option Ascii.ascii :=
  match s with "" => None | String c _ => Some c end.
Fixpoint slast (s : string) : option Ascii.ascii :=
  match s with
  | "" => None
  | String c s' => match s' with "" => Some c | _ => slast s' end
  end.

#[global] Arguments String.append !_ _ / : simpl nomatch.

Lemma string_app_length s t : String.length (s +:+ t) = (String.length s + String.length t)%nat.
Proof. induction s; cbn; [done|]. by f_equal. Qed.

Lemma slen_app s t : slen (s +:+ t) = slen s + slen t.
Proof. unfold slen. rewrite string_app_length. lia. Qed.

Lemma stake_app s t : stake (String.length s) (s +:+ t) = s.
Proof. induction s as [|c s IH]; cbn; [by destruct t|]. by rewrite IH. Qed.

Lemma sdrop_app s t : sdrop (String.length s) (s +:+ t) = t.
Proof. induction s as [|c s IH]; cbn; [by destruct t|]. done. Qed.

Lemma stake_sdrop n s : stake n s +:+ sdrop n s = s.
Proof.
  revert s. induction n as [|n IH]; intros s; cbn; [by destruct s|].
  destruct s as [|c s]; cbn; [done|]. by rewrite IH.
Qed.

Lemma stake_length n s :
  (n ≤ String.length s)%nat → String.length (stake n s) = n.
Proof.
  revert s. induction n as [|n IH]; intros [|c s]; cbn; try lia.
  intros ?. rewrite IH; lia.
Qed.

Lemma sdrop_length n s : String.length (sdrop n s) = (String.length s - n)%nat.
Proof. revert s. induction n as [|n IH]; intros [|c s]; cbn; try lia. apply IH. Qed.

Lemma sdrop_sdrop n k s : sdrop n (sdrop k s) = sdrop (k + n) s.
Proof.
  revert s. induction k as [|k IH]; intros s; cbn; [done|].
  destruct s as [|c s]; cbn; [by destruct n|]. apply IH.
Qed.

Lemma stake_all n s : (String.length s ≤ n)%nat → stake n s = s.
Proof.
  revert s. induction n as [|n IH]; intros [|c s]; cbn; try done; try lia.
  intros ?. rewrite IH; [done|lia].
Qed.

Lemma slen_of_nat s n : slen s = N.of_nat n ↔ String.length s = n.
Proof. unfold slen. lia. Qed.

Lemma string_app_assoc s t u : (s +:+ t) +:+ u = s +:+ (t +:+ u).
Proof. induction s as [|c s IH]; cbn; [done|]. by rewrite IH. Qed.

Lemma string_app_nil_r s : s +:+ "" = s.
Proof. induction s as [|c s IH]; cbn; [done|]. by rewrite IH. Qed.

Lemma string_app_inj_length s1 s2 t1 t2 :
  String.length s1 = String.length s2 → s1 +:+ t1 = s2 +:+ t2 → s1 = s2 ∧ t1 = t2.
Proof.
  revert s2. induction s1 as [|c s1 IH]; intros [|d s2]; cbn; try lia; [done|].
  intros Hl [= -> H]. destruct (IH s2) as [-> ->]; [lia|exact H|done].
Qed.

Definition concat_strings (l : list string) : string := foldr String.append "" l.

(** ** Big-endian integers: [to_be_bytes] and [from_be_bytes] *)

Fixpoint be_bytes (k : nat) (n : N) : string :=
  match k with
  | O => ""
  | S k => String (byte_of (n / 256 ^ N.of_nat k mod 256)) (be_bytes k n)
  end.
Fixpoint from_be_acc (acc : N) (s : string) : N :=
  match s with
  | "" => acc
  | String c s => from_be_acc (acc * 256 + byte_val c) s
  end.
Definition from_be (s : string) : N := from_be_acc 0 s.

Lemma byte_val_of n : n < 256 → byte_val (byte_of n) = n.
Proof. apply Ascii.N_ascii_embedding. Qed.

Lemma byte_of_val c : byte_of (byte_val c) = c.
Proof. apply Ascii.ascii_N_embedding. Qed.

Lemma byte_val_lt c : byte_val c < 256.
Proof. apply Ascii.N_ascii_bounded. Qed.

Lemma be_bytes_length k n : String.length (be_bytes k n) = k.
Proof. induction k; cbn; [done|]. by f_equal. Qed.

Lemma from_be_acc_spec acc k n :
  from_be_acc acc (be_bytes k n) = acc * 256 ^ N.of_nat k + n mod 256 ^ N.of_nat k.
Proof.
  revert acc. induction k as [|k IH]; intros acc; cbn [be_bytes from_be_acc].
  - cbn. rewrite N.mod_1_r. lia.
  - rewrite IH, byte_val_of by (apply N.mod_lt; lia).
    rewrite Nat2N.inj_succ, N.pow_succ_r'.
    assert (256 ^ N.of_nat k ≠ 0) by (apply N.pow_nonzero; lia).
    rewrite (N.mul_comm 256 (256 ^ _)), N.Div0.mod_mul_r. lia.
Qed.

Lemma from_be_bytes k n : n < 256 ^ N.of_nat k → from_be (be_bytes k n) = n.
Proof. intros H. unfold from_be. rewrite from_be_acc_spec, N.mod_small by done. lia. Qed.

Lemma from_be_acc_bytes acc s :
  be_bytes (String.length s) (from_be_acc acc s) = s.
Proof.
  revert acc. induction s as [|c s IH]; intros acc; cbn [from_be_acc String.length be_bytes].
  - done.
  - rewrite IH. f_equal.
    assert (Hacc : ∀ a, from_be_acc a s / 256 ^ N.of_nat (String.length s) = a).
    { clear. induction s as [|c s IH]; intros a; cbn [from_be_acc String.length].
      - cbn. by rewrite N.div_1_r.
      - rewrite Nat2N.inj_succ, N.pow_succ_r', (N.mul_comm 256 (256 ^ _)), <-N.Div0.div_div, IH.
        rewrite N.div_add_l, N.div_small by (apply byte_val_lt || lia). lia. }
    rewrite Hacc, (N.add_comm (acc * 256)), N.Div0.mod_add.
    rewrite N.mod_small by apply byte_val_lt. apply byte_of_val.
Qed.

Lemma from_be_acc_lt acc s :
  from_be_acc acc s < (acc + 1) * 256 ^ slen s.
Proof.
  unfold slen. revert acc. induction s as [|c s IH]; intros acc; cbn [from_be_acc String.length].
  - cbn. lia.
  - eapply N.lt_le_trans; [apply IH|]. rewrite Nat2N.inj_succ, N.pow_succ_r'.
    pose proof (byte_val_lt c). rewrite N.mul_assoc. apply N.mul_le_mono_r. lia.
Qed.

Lemma from_be_lt s : from_be s < 256 ^ slen s.
Proof. pose proof (from_be_acc_lt 0 s). unfold from_be. lia. Qed.

Lemma be_bytes_from s : be_bytes (String.length s) (from_be s) = s.
Proof. apply from_be_acc_bytes. Qed.

(** [v.len()] as a machine integer *)
Definition nlen {A} (l : list A) : N := N.of_nat (length l).

(** [items[..].contains] with a lower and upper bound: [(min..=max).contains(&n)] *)
Definition in_range (lo hi n : N) : bool := (lo <=? n) && (n <=? hi).
(** [b.is_ascii_digit() || (b'a'..=b'f').contains(&b)] *)
Definition lower_hex (c : Ascii.ascii) : bool :=
  in_range 48 57 (byte_val c) || in_range 97 102 (byte_val c).

Lemma in_range_true lo hi n : in_range lo hi n = true ↔ lo ≤ n ∧ n ≤ hi.
Proof. unfold in_range. rewrite andb_true_iff, !N.leb_le. done. Qed.

(** record.rs [sorted_unique]: length bounds and strictly ascending neighbours. *)
Definition sorted_unique {A} (ltb : A → A → bool) (l : list A) (lo hi : N) : bool :=
  in_range lo hi (nlen l) && strictly_sorted ltb l.

(** ** UTF-8 *)

(** [s.chars()]: the scalar values of a well-formed UTF-8 string. *)
Definition cont_bits (c : Ascii.ascii) : N := byte_val c mod 64.
Fixpoint chars (s : string) : list N :=
  match s with
  | "" => []
  | String a s1 =>
      let b := byte_val a in
      if b <? 128 then b :: chars s1
      else if b <? 224 then
        match s1 with
        | String c1 s2 => (b mod 32 * 64 + cont_bits c1) :: chars s2
        | "" => [b]
        end
      else if b <? 240 then
        match s1 with
        | String c1 (String c2 s3) =>
            (b mod 16 * 4096 + cont_bits c1 * 64 + cont_bits c2) :: chars s3
        | _ => [b]
        end
      else
        match s1 with
        | String c1 (String c2 (String c3 s4)) =>
            (b mod 8 * 262144 + cont_bits c1 * 4096 + cont_bits c2 * 64 + cont_bits c3)
              :: chars s4
        | _ => [b]
        end
  end.

(** [char::is_control]: Unicode general category Cc. *)
Definition is_control (c : N) : bool := (c <? 32) || in_range 127 159 c.

(** [char::is_whitespace]: the Unicode White_Space property. *)
Definition is_whitespace (c : N) : bool :=
  in_range 9 13 c || (c =? 32) || (c =? 133) || (c =? 160) || (c =? 5760)
  || in_range 8192 8202 c || (c =? 8232) || (c =? 8233) || (c =? 8239)
  || (c =? 8287) || (c =? 12288).

(** [s.trim()] on scalar values. *)
Fixpoint trim_start (l : list N) : list N :=
  match l with
  | c :: l' => if is_whitespace c then trim_start l' else l
  | [] => []
  end.
Definition trim (l : list N) : list N := rev (trim_start (rev (trim_start l))).

Example trim_example : trim (chars "  elo ") = chars "elo".
Proof. reflexivity. Qed.

(** ** Ordered collections

    A [BTreeMap] keyed by byte strings is a [gmap] whose iteration order is the
    ascending order of its keys; a [BTreeSet] turned into a vector is the sorted
    list of its elements. *)

Definition key_le {A} (p q : string * A) : Prop := String.le p.1 q.1.
#[global] Instance key_le_dec {A} : RelDecision (@key_le A).
Proof. intros p q. unfold key_le. apply _. Defined.
#[global] Instance key_le_total {A} : Total (@key_le A).
Proof. intros p q. unfold key_le. apply (total String.le). Qed.

Definition btree_list {A} (m : gmap string A) : list (string * A) :=
  merge_sort key_le (map_to_list m).
Definition btree_values {A} (m : gmap string A) : list A := (btree_list m).*2.
Definition sorted_set (l : list string) : list string :=
  merge_sort String.le (remove_dups l).
(** [v.sort()] *)
Definition sort_ids (l : list string) : list string := merge_sort String.le l.

Lemma btree_list_elem {A} (m : gmap string A) k x :
  (k, x) ∈ btree_list m ↔ m !! k = Some x.
Proof. unfold btree_list. rewrite merge_sort_Permutation. apply elem_of_map_to_list. Qed.

Lemma btree_values_elem {A} (m : gmap string A) x :
  x ∈ btree_values m ↔ ∃ k, m !! k = Some x.
Proof.
  unfold btree_values. rewrite list_elem_of_fmap. split.
  - intros ([k y] & -> & H). exists k. by apply btree_list_elem.
  - intros [k H]. exists (k, x). split; [done|]. by apply btree_list_elem.
Qed.

Lemma btree_list_NoDup {A} (m : gmap string A) : NoDup (btree_list m).*1.
Proof. unfold btree_list. rewrite merge_sort_Permutation. apply NoDup_fst_map_to_list. Qed.

Lemma sorted_set_elem (l : list string) x : x ∈ sorted_set l ↔ x ∈ l.
Proof. unfold sorted_set. by rewrite merge_sort_Permutation, elem_of_remove_dups. Qed.

Lemma sorted_set_NoDup (l : list string) : NoDup (sorted_set l).
Proof. unfold sorted_set. rewrite merge_sort_Permutation. apply NoDup_remove_dups. Qed.

Lemma sort_ids_elem (l : list string) x : x ∈ sort_ids l ↔ x ∈ l.
Proof. unfold sort_ids. by rewrite merge_sort_Permutation. Qed.

(** [iter.max_by_key(f)]: the last of the maximal elements. *)
Fixpoint max_by_key_from {A} (f : A → N) (best : A) (l : list A) : A :=
  match l with
  | [] => best
  | x :: l => max_by_key_from f (if f best <=? f x then x else best) l
  end.
Definition max_by_key {A} (f : A → N) (l : list A) : option A :=
  match l with
  | [] => None
  | x :: l => Some (max_by_key_from f x l)
  end.

Lemma max_by_key_from_spec {A} (f : A → N) l : ∀ best,
  let b := max_by_key_from f best l in
  b ∈ best :: l ∧ ∀ x, x ∈ best :: l → f x ≤ f b.
Proof.
  induction l as [|y l IH]; intros best; cbn.
  - split; [constructor|]. set_solver.
  - destruct (N.leb_spec (f best) (f y)) as [Hle|Hlt].
    + destruct (IH y) as [H1 H2]. split; [set_solver|].
      intros x [->|Hx]%elem_of_cons; [|by apply H2].
      etrans; [exact Hle|]. apply H2. constructor.
    + destruct (IH best) as [H1 H2]. split; [set_solver|].
      intros x [->|[->|Hx]%elem_of_cons]%elem_of_cons; [by apply H2; constructor| |].
      * etrans; [apply N.lt_le_incl, Hlt|]. apply H2. constructor.
      * apply H2. by constructor.
Qed.

Lemma max_by_key_Some {A} (f : A → N) l x :
  max_by_key f l = Some x → x ∈ l ∧ ∀ y, y ∈ l → f y ≤ f x.
Proof. destruct l as [|z l]; [done|]. intros [= <-]. apply max_by_key_from_spec. Qed.

Lemma max_by_key_None {A} (f : A → N) l : max_by_key f l = None ↔ l = [].
Proof. destruct l; cbn; split; congruence. Qed.

(** [iter.min_by_key(f)]: the first of the minimal elements. *)
Fixpoint min_by_key_from {A} (f : A → N) (best : A) (l : list A) : A :=
  match l with
  | [] => best
  | x :: l => min_by_key_from f (if f best <=? f x then best else x) l
  end.
Definition min_by_key {A} (f : A → N) (l : list A) : option A :=
  match l with
  | [] => None
  | x :: l => Some (min_by_key_from f x l)
  end.

Lemma min_by_key_from_elem {A} (f : A → N) l : ∀ best,
  min_by_key_from f best l ∈ best :: l.
Proof.
  induction l as [|y l IH]; intros best; cbn; [left|].
  specialize (IH (if f best <=? f y then best else y)).
  destruct (f best <=? f y); set_solver.
Qed.
Lemma min_by_key_Some {A} (f : A → N) l x : min_by_key f l = Some x → x ∈ l.
Proof. destruct l as [|z l]; [done|]. intros [= <-]. apply min_by_key_from_elem. Qed.

(** [slice.windows(2)] *)
Fixpoint windows2 {A} (l : list A) : list (A * A) :=
  match l with
  | x :: l' => match l' with y :: _ => (x, y) :: windows2 l' | [] => [] end
  | [] => []
  end.

(** [iter.find_map(f)] *)
Fixpoint find_map {A B} (f : A → option B) (l : list A) : option B :=
  match l with
  | [] => None
  | x :: l => match f x with Some y => Some y | None => find_map f l end
  end.

(** [vec.last()] *)
Definition last_opt {A} (l : list A) : option A := last l.

(** Repeated insertion into a set failed at some point:
    [iter.any(|x| !set.insert(x))]. *)
Fixpoint any_repeat {A} `{EqDecision A} (l : list A) : bool :=
  match l with
  | [] => false
  | x :: l => contains l x || any_repeat l
  end.

Lemma any_repeat_false {A} `{EqDecision A} (l : list A) : any_repeat l = false ↔ NoDup l.
Proof.
  induction l as [|x l IH]; cbn; [split; [constructor|done]|].
  rewrite orb_false_iff, contains_false, IH, NoDup_cons. done.
Qed.

(** ** Ascending lists *)

Lemma bytes_ltb_lt a b : bytes_ltb a b = true ↔ String.le a b ∧ a ≠ b.
Proof.
  unfold bytes_ltb, String.le, String.ltb, String.leb.
  destruct (String.compare a b) eqn:H; cbn.
  - apply String.compare_eq_iff in H. split; [done|]. by intros [_ []].
  - split; [|done]. intros _. split; [done|]. intros ->.
    assert (String.compare b b = Eq) as Hb; [|congruence].
    pose proof (String.compare_antisym b b). by destruct (String.compare b b).
  - split; [done|]. by intros [[] _].
Qed.

Lemma bytes_ltb_trans a b c :
  bytes_ltb a b = true → bytes_ltb b c = true → bytes_ltb a c = true.
Proof.
  rewrite !bytes_ltb_lt. intros [Hab Hn] [Hbc Hm]. split; [by trans b|].
  intros ->. apply Hn. by apply (anti_symm String.le).
Qed.

Lemma strictly_sorted_below {A} (ltb : A → A → bool) x l :
  (∀ a b c, ltb a b = true → ltb b c = true → ltb a c = true) →
  strictly_sorted ltb (x :: l) = true → ∀ y, y ∈ l → ltb x y = true.
Proof.
  intros Ht. revert x. induction l as [|z l IH]; intros x Hs y Hy; [by apply elem_of_nil in Hy|].
  cbn [strictly_sorted] in Hs. apply andb_true_iff in Hs as [Hxz Hs].
  apply elem_of_cons in Hy as [->|Hy]; [done|].
  eapply Ht; [exact Hxz|]. by apply IH.
Qed.

Lemma strictly_sorted_NoDup (l : list string) :
  strictly_sorted bytes_ltb l = true → NoDup l.
Proof.
  induction l as [|x l IH]; [constructor|]. intros Hs. apply NoDup_cons. split.
  - intros Hin. pose proof (strictly_sorted_below bytes_ltb x l bytes_ltb_trans Hs x Hin) as H.
    by apply bytes_ltb_lt in H as [_ []].
  - apply IH. destruct l as [|y l]; [done|]. cbn [strictly_sorted] in Hs.
    by apply andb_true_iff in Hs as [_ Hs].
Qed.

Lemma sorted_unique_NoDup (l : list string) lo hi :
  sorted_unique bytes_ltb l lo hi = true → NoDup l.
Proof. intros [_ H]%andb_true_iff. by apply strictly_sorted_NoDup. Qed.

(** A key that does not repeat identifies its element. *)
Lemma NoDup_fmap_eq {A B} (f : A → B) l x y :
  NoDup (f <$> l) → x ∈ l → y ∈ l → f x = f y → x = y.
Proof.
  intros Hn (i & Hi)%list_elem_of_lookup_1 (j & Hj)%list_elem_of_lookup_1 Hf.
  assert (i = j) as ->; [|congruence].
  eapply (proj1 (NoDup_alt _) Hn).
  - by apply list_lookup_fmap_Some_2.
  - rewrite Hf. by apply list_lookup_fmap_Some_2.
Qed.

Lemma filter_true {A} (f : A → bool) l x : x ∈ List.filter f l ↔ x ∈ l ∧ f x = true.
Proof. rewrite !list_elem_of_In. apply filter_In. Qed.

Lemma elem_of_mjoin_fmap {A B} (f : A → list B) l y :
  y ∈ mjoin (f <$> l) ↔ ∃ x, x ∈ l ∧ y ∈ f x.
Proof.
  rewrite list_elem_of_join. split.
  - intros (k & Hy & (x & -> & Hx)%list_elem_of_fmap). eauto.
  - intros (x & Hx & Hy). exists (f x). split; [done|]. apply list_elem_of_fmap. eauto.
Qed.

Lemma any_repeat_fmap {A B} `{EqDecision B} (f : A → B) l :
  any_repeat (f <$> l) = true → NoDup l →
  ∃ x y, x ∈ l ∧ y ∈ l ∧ x ≠ y ∧ f x = f y.
Proof.
  induction l as [|x l IH]; [done|]. cbn [fmap list_fmap any_repeat].
  intros [Hc|Hr]%orb_true_iff [Hx Hl]%NoDup_cons.
  - apply contains_true, list_elem_of_fmap in Hc as (y & Hxy & Hy).
    exists x, y. split; [constructor|]. split; [by constructor|]. split; [|done].
    intros ->. done.
  - destruct (IH Hr Hl) as (y & z & Hy & Hz & ? & ?). exists y, z.
    repeat split; try done; by constructor.
Qed.

Lemma find_first_unique {A} (f : A → string) l x :
  NoDup (f <$> l) → x ∈ l → find_first (λ y, f y === f x) l = Some x.
Proof.
  intros Hn Hx. destruct (find_first _ l) as [y|] eqn:Hf.
  - apply find_first_Some in Hf as [Hy Heq%bool_decide_eq_true].
    f_equal. by eapply NoDup_fmap_eq.
  - rewrite find_first_None in Hf. specialize (Hf x Hx).
    by apply bool_decide_eq_false in Hf.
Qed.

Lemma try_fold_unit_Forall {E A} (f : A → result E unit) l u :
  try_fold (λ _ x, f x) tt l = Ok u → ∀ x, x ∈ l → f x = Ok tt.
Proof.
  induction l as [|y l IH]; cbn; [set_solver|].
  intros ([] & Hy & Hl)%bind_Ok x [->|Hx]%elem_of_cons; [done|]. by apply IH.
Qed.

(** ** The library's hints *)

Create HintDb elo.
#[export] Hint Resolve list_elem_of_here list_elem_of_further : elo.
#[export] Hint Resolve saturating_add_le byte_val_lt from_be_lt : elo.
#[export] Hint Resolve sorted_set_NoDup btree_list_NoDup sorted_unique_NoDup : elo.
#[export] Hint Rewrite @bind_Ok @fmap_Ok @ok_or_Ok @map_err_Ok @fail_if_Ok : elo.
#[export] Hint Rewrite @contains_true @contains_false @existsb_true @forallb_true
  @filter_true @sorted_set_elem @sort_ids_elem : elo.
