(* ===== verification/Sums.v ===== *)
(** * Sums over tables

    What [SELECT sum(..)] and [SELECT count(..)] range over: finite maps whose rows are
    added, removed and rewritten. *)

From S2P Require Import Prelude.

Definition sum_over `{Countable K} {V} (f : K → V → N) (m : gmap K V) : N :=
  map_fold (λ k v n, f k v + n) 0 m.

(** [count] of the rows that satisfy a condition. *)
Definition count_over `{Countable K} {V} (p : K → V → bool) (m : gmap K V) : N :=
  sum_over (λ k v, if p k v then 1 else 0) m.

(** An [UPDATE] of every row. *)
Definition update_all `{Countable K} {V} (f : K → V → V) (m : gmap K V) : gmap K V :=
  map_imap (λ k v, Some (f k v)) m.
(** A [DELETE] of the rows that satisfy a condition. *)
Definition delete_all `{Countable K} {V} (p : K → V → bool) (m : gmap K V) : gmap K V :=
  filter (λ kv, p kv.1 kv.2 = false) m.

Section Sums.
Context `{Countable K} {V : Type}.
Implicit Types (f : K → V → N) (m : gmap K V).

Lemma sum_over_empty f : sum_over f ∅ = 0.
Proof. apply map_fold_empty. Qed.

Lemma sum_over_insert f m k v :
  m !! k = None → sum_over f (<[k := v]> m) = f k v + sum_over f m.
Proof. intros Hk. unfold sum_over. rewrite map_fold_insert_L; [done|lia|done]. Qed.

Lemma sum_over_delete f m k v :
  m !! k = Some v → sum_over f m = f k v + sum_over f (delete k m).
Proof.
  intros Hk. rewrite <-(insert_delete_id m k v Hk) at 1.
  apply sum_over_insert, lookup_delete_eq.
Qed.

Lemma sum_over_replace f m k v v' :
  m !! k = Some v → sum_over f (<[k := v']> m) + f k v = f k v' + sum_over f m.
Proof.
  intros Hk. rewrite (sum_over_delete f (<[k := v']> m) k v') by apply lookup_insert_eq.
  rewrite (sum_over_delete f m k v) by done. rewrite delete_insert_eq. lia.
Qed.

(** A table whose rows all come from another one, no bigger. *)
Lemma sum_over_le f g m m' :
  (∀ k v, m !! k = Some v → ∃ v', m' !! k = Some v' ∧ f k v ≤ g k v') →
  sum_over f m ≤ sum_over g m'.
Proof.
  revert m'. induction m as [|k v m Hk IH] using map_ind; intros m' Hm.
  - rewrite sum_over_empty. lia.
  - destruct (Hm k v) as (v' & Hv' & Hle); [apply lookup_insert_eq|].
    rewrite sum_over_insert, (sum_over_delete g m' k v') by done.
    assert (sum_over f m ≤ sum_over g (delete k m')); [|lia].
    apply IH. intros k2 v2 H2. assert (k2 ≠ k) by congruence.
    rewrite lookup_delete_ne by done. apply Hm. by rewrite lookup_insert_ne.
Qed.

Lemma sum_over_ext f g m :
  (∀ k v, m !! k = Some v → f k v = g k v) → sum_over f m = sum_over g m.
Proof.
  intros Hf. apply N.le_antisymm; apply sum_over_le; intros k v Hk; exists v;
    (split; [done|]); by rewrite Hf.
Qed.

Lemma sum_over_row f m k v : m !! k = Some v → f k v ≤ sum_over f m.
Proof. intros Hk. rewrite (sum_over_delete f m k v) by done. lia. Qed.

Lemma sum_over_zero f m : (∀ k v, m !! k = Some v → f k v = 0) → sum_over f m = 0.
Proof.
  intros Hf. induction m as [|k v m Hk IH] using map_ind; [apply sum_over_empty|].
  rewrite sum_over_insert by done. rewrite (Hf k v) by apply lookup_insert_eq.
  rewrite IH; [done|]. intros k2 v2 H2. apply Hf. rewrite lookup_insert_ne; congruence.
Qed.

Lemma sum_over_plus f g m : sum_over (λ k v, f k v + g k v) m = sum_over f m + sum_over g m.
Proof.
  induction m as [|k v m Hk IH] using map_ind; [by rewrite !sum_over_empty|].
  rewrite !sum_over_insert by done. lia.
Qed.

(** At most [n] a row. *)
Lemma sum_over_bound f m n :
  (∀ k v, m !! k = Some v → f k v ≤ n) → sum_over f m ≤ n * N.of_nat (size m).
Proof.
  induction m as [|k v m Hk IH] using map_ind; intros Hf.
  - rewrite sum_over_empty. lia.
  - rewrite sum_over_insert, map_size_insert_None by done.
    assert (Hv := Hf k v (lookup_insert_eq _ _ _)).
    assert (sum_over f m ≤ n * N.of_nat (size m)).
    { apply IH. intros k2 v2 H2. apply Hf. rewrite lookup_insert_ne; congruence. }
    nia.
Qed.

Lemma lookup_update_all (u : K → V → V) m k : update_all u m !! k = u k <$> m !! k.
Proof. unfold update_all. rewrite map_lookup_imap. by destruct (m !! k). Qed.
Lemma update_all_Some (u : K → V → V) m k v' :
  update_all u m !! k = Some v' ↔ ∃ v, m !! k = Some v ∧ u k v = v'.
Proof. rewrite lookup_update_all, fmap_Some. naive_solver. Qed.
Lemma update_all_empty (u : K → V → V) : update_all u ∅ = ∅.
Proof. apply map_eq. intros k. by rewrite lookup_update_all, lookup_empty. Qed.
Lemma update_all_insert (u : K → V → V) m k v :
  update_all u (<[k := v]> m) = <[k := u k v]> (update_all u m).
Proof.
  apply map_eq. intros j. rewrite lookup_update_all.
  destruct (decide (j = k)) as [->|Hj].
  - by rewrite !lookup_insert_eq.
  - by rewrite !lookup_insert_ne, lookup_update_all by done.
Qed.
Lemma sum_over_update_all f (u : K → V → V) m :
  sum_over f (update_all u m) = sum_over (λ k v, f k (u k v)) m.
Proof.
  induction m as [|k v m Hk IH] using map_ind.
  - by rewrite update_all_empty, !sum_over_empty.
  - rewrite update_all_insert, !sum_over_insert; [by rewrite IH|done|].
    by rewrite lookup_update_all, Hk.
Qed.
Lemma size_update_all (u : K → V → V) m : size (update_all u m) = size m.
Proof.
  induction m as [|k v m Hk IH] using map_ind; [by rewrite update_all_empty|].
  rewrite update_all_insert, !map_size_insert_None, IH; [done|done|].
  by rewrite lookup_update_all, Hk.
Qed.

Lemma delete_all_Some (p : K → V → bool) m k v :
  delete_all p m !! k = Some v ↔ m !! k = Some v ∧ p k v = false.
Proof. apply map_lookup_filter_Some. Qed.

Lemma size_le m m' :
  (∀ k v, m !! k = Some v → is_Some (m' !! k)) → (size m ≤ size m')%nat.
Proof.
  intros Hm. rewrite <-!size_dom. apply subseteq_size. intros k. rewrite !elem_of_dom.
  intros [v Hv]. eauto.
Qed.
Lemma size_delete_all (p : K → V → bool) m : (size (delete_all p m) ≤ size m)%nat.
Proof. apply size_le. intros k v [Hk _]%delete_all_Some. by exists v. Qed.
End Sums.

Lemma alter_Some `{Countable K} {V} (f : V → V) (m : gmap K V) k v :
  m !! k = Some v → alter f k m = <[k := f v]> m.
Proof.
  intros Hk. apply map_eq. intros j. destruct (decide (j = k)) as [->|Hj].
  - by rewrite lookup_alter_eq, lookup_insert_eq, Hk.
  - by rewrite lookup_alter_ne, lookup_insert_ne.
Qed.
Lemma alter_None `{Countable K} {V} (f : V → V) (m : gmap K V) k :
  m !! k = None → alter f k m = m.
Proof.
  intros Hk. apply map_eq. intros j. destruct (decide (j = k)) as [->|Hj].
  - by rewrite lookup_alter_eq, Hk.
  - by rewrite lookup_alter_ne.
Qed.
