(* ===== verification/Platform.v ===== *)
(** * What the trust chain calls outside the repository

    SHA-256, Ed25519 (ed25519-dalek), base64, serde_json, age recipients and
    URLs are third-party crates. They are the fields of the class [Platform];
    the documented behaviour that some theorems rely on is the class
    [PlatformLaws]. Everything else in the development is translated from the
    repository's own source. *)

From S2P Require Import Prelude.

(** The document tree serde_json hands to a [Visitor]: an object still carries
    duplicate keys, and a negative integer or a float is [JOther]. *)
Inductive json :=
| JNull
| JBool (b : bool)
| JU64 (n : N)
| JOther
| JStr (s : string)
| JSeq (l : list json)
| JMap (l : list (string * json)).

(** [serde_json::Value]; a number is always a non-negative integer here. *)
Inductive value :=
| VNull
| VBool (b : bool)
| VNumber (n : N)
| VString (s : string)
| VArray (l : list value)
| VObject (l : list (string * value)).

(** [value.get(key)] and the indexing [value[key]], which yields [Null] for a
    missing key or a value that is not an object. *)
Fixpoint object_get (key : string) (l : list (string * value)) : option value :=
  match l with
  | [] => None
  | (k, v) :: l => if k === key then Some v else object_get key l
  end.
Definition value_get (v : value) (key : string) : option value :=
  match v with VObject l => object_get key l | _ => None end.
Definition value_index (v : value) (key : string) : value :=
  default VNull (value_get v key).
Definition value_as_str (v : value) : option string :=
  match v with VString s => Some s | _ => None end.
Definition value_as_u64 (v : value) : option N :=
  match v with VNumber n => Some n | _ => None end.
(** [value == text] *)
Definition value_eq_str (v : value) (s : string) : bool :=
  match v with VString t => t === s | _ => false end.

(** The parts of a parsed [reqwest::Url] the source looks at. *)
Record url := {
  url_scheme : string;
  url_host : option string;
  url_username : string;
  url_password : option string;
  url_query : option string;
  url_fragment : option string;
  url_path : string;
  (** The host parses as an IP address that is a loopback address. *)
  url_loopback : bool;
}.

(** A verifying key is its 32 bytes, a signing key its 32-byte seed, and an age
    recipient its canonical text, which is how the crates compare them. *)
Class Platform := {
  sha256 : string → string;
  ed25519_valid : string → bool;
  ed25519_weak : string → bool;
  ed25519_verifying_key : string → string;
  ed25519_sign : string → string → string;
  ed25519_verify_strict : string → string → string → bool;
  base64_encode : string → string;
  base64_decode : string → option string;
  json_from_slice : string → option json;
  age_recipient_parse : string → option string;
  url_parse : string → option url;
}.

(** [VerifyingKey::from_bytes] *)
Definition vk_from_bytes `{Platform} (b : string) : option string :=
  if ed25519_valid b then Some b else None.

Class PlatformLaws (P : Platform) : Prop := {
  sha256_length b : String.length (sha256 b) = 32%nat;
  ed25519_sign_length k m : String.length (ed25519_sign k m) = 64%nat;
  ed25519_sign_verify k m :
    ed25519_verify_strict (ed25519_verifying_key k) m (ed25519_sign k m) = true;
  base64_round_trip b : base64_decode (base64_encode b) = Some b;
  base64_length b : slen (base64_encode b) ≤ (slen b + 2) / 3 * 4;
}.

(** serde's derived [Serialize] and [Deserialize] of one type of the source. *)
Class Serde (T : Type) := {
  to_vec : T → string;
  from_value : value → option T;
}.

(** serde_json's text form of one type: [to_string] or [to_vec], and [from_str]. *)
Class JsonText (T : Type) := {
  to_json : T → string;
  from_json : string → option T;
}.

(** * Symmetric cryptography of third-party crates

    The RustCrypto functions the attachment code and the storage broker call, as a class,
    with their documented behaviour as laws. *)


(** XChaCha20-Poly1305 under a 32-byte key, a 24-byte nonce and associated data, and
    HMAC-SHA-256. *)
Class Crypto := {
  aead_encrypt : string → string → string → string → option string;
  aead_decrypt : string → string → string → string → option string;
  hmac_sha256 : string → string → string;
}.

Class CryptoLaws (C : Crypto) : Prop := {
  aead_round_trip key nonce aad msg c :
    aead_encrypt key nonce aad msg = Some c → aead_decrypt key nonce aad c = Some msg;
  aead_encrypt_length key nonce aad msg c :
    aead_encrypt key nonce aad msg = Some c → slen c = slen msg + 16;
  aead_decrypt_length key nonce aad msg c :
    aead_decrypt key nonce aad c = Some msg → slen c = slen msg + 16;
  hmac_length key msg : String.length (hmac_sha256 key msg) = 32%nat;
}.
