(* ===== verification/Ids.v ===== *)
(** * Typed identifiers (crates/elo-core/src/ids.rs)

    Every identifier is a fixed-size byte array; here it is that byte string, so
    that equality and the derived [Ord] are those of the arrays. The hexadecimal
    text form is [display] and its parser [parse_hex]. *)

From S2P Require Import Prelude Platform.

Abbreviation IdentityId := string (only parsing).
Abbreviation ObjectId := string (only parsing).
Abbreviation RecordId := string (only parsing).
Abbreviation SpaceId := string (only parsing).
Abbreviation StreamId := string (only parsing).

(** The [digit] of [parse_hex]: lower-case hexadecimal only. *)
Definition digit (c : Ascii.ascii) : option N :=
  let b := byte_val c in
  if (48 <=? b) && (b <=? 57) then Some (b - 48)
  else if (97 <=? b) && (b <=? 102) then Some (b - 97 + 10)
  else None.

Fixpoint hex_pairs (value : string) : option string :=
  match value with
  | String hi (String lo rest) =>
      h ← digit hi; l ← digit lo; t ← hex_pairs rest;
      Some (String (byte_of (h * 16 + l)) t)
  | _ => Some ""
  end.

Definition parse_hex (n : nat) (value : string) : option string :=
  if slen value =? N.of_nat n * 2 then hex_pairs value else None.

(** [write!(f, "{byte:02x}")] for every byte. *)
Definition hex_char (d : N) : Ascii.ascii :=
  if d <? 10 then byte_of (48 + d) else byte_of (97 + (d - 10)).
Fixpoint display (b : string) : string :=
  match b with
  | "" => ""
  | String c b =>
      String (hex_char (byte_val c / 16)) (String (hex_char (byte_val c mod 16)) (display b))
  end.

Definition nul : string := String (byte_of 0) "".

Definition hash `{Platform} (domain bytes : string) : string := sha256 (domain +:+ bytes).
Definition identity_of_root_key `{Platform} (key : string) : IdentityId :=
  hash ("elo.now/identity/v1" +:+ nul) key.
Definition object_of_ciphertext `{Platform} (bytes : string) : ObjectId :=
  hash ("elo.now/object-id/v1" +:+ nul) bytes.
Definition record_of_bytes `{Platform} (bytes : string) : RecordId :=
  hash ("elo.now/record-id/v1" +:+ nul) bytes.

(** ** The text form is a bijection onto lower-case hexadecimal *)

Lemma digit_hex_char d : d < 16 → digit (hex_char d) = Some d.
Proof.
  intros Hd. unfold digit, hex_char.
  destruct (N.ltb_spec d 10); rewrite byte_val_of by lia.
  - rewrite !(proj2 (N.leb_le _ _)) by lia. cbn [andb]. f_equal. lia.
  - rewrite (proj2 (N.leb_gt _ 57)), andb_false_r by lia.
    rewrite !(proj2 (N.leb_le _ _)) by lia. cbn [andb]. f_equal. lia.
Qed.

Lemma digit_Some c d : digit c = Some d → d < 16 ∧ hex_char d = c.
Proof.
  unfold digit, hex_char. intros H.
  destruct (N.leb_spec 48 (byte_val c)), (N.leb_spec (byte_val c) 57); cbn in H;
    [ | destruct (N.leb_spec 97 (byte_val c)), (N.leb_spec (byte_val c) 102); try done
      | destruct (N.leb_spec 97 (byte_val c)), (N.leb_spec (byte_val c) 102); try done
      | lia ];
    injection H as <-; (split; [lia|]).
  - rewrite (proj2 (N.ltb_lt _ _)) by lia.
    replace (48 + (byte_val c - 48)) with (byte_val c) by lia. apply byte_of_val.
  - rewrite (proj2 (N.ltb_ge _ _)) by lia.
    replace (97 + (byte_val c - 97 + 10 - 10)) with (byte_val c) by lia. apply byte_of_val.
  - lia.
Qed.

Lemma display_length b : String.length (display b) = (2 * String.length b)%nat.
Proof. induction b as [|c b IH]; cbn; [done|]. rewrite IH. lia. Qed.

Lemma hex_pairs_display b : hex_pairs (display b) = Some b.
Proof.
  induction b as [|c b IH]; cbn [display hex_pairs]; [done|].
  pose proof (byte_val_lt c) as Hc.
  rewrite !digit_hex_char by (apply N.Div0.div_lt_upper_bound || apply N.mod_lt; lia).
  cbn. rewrite IH. cbn. do 2 f_equal.
  rewrite (N.mul_comm _ 16), <-N.div_mod' . apply byte_of_val.
Qed.

Lemma parse_hex_display n b : String.length b = n → parse_hex n (display b) = Some b.
Proof.
  intros Hn. unfold parse_hex, slen. rewrite display_length, Hn.
  rewrite (proj2 (N.eqb_eq _ _)) by lia. apply hex_pairs_display.
Qed.

Lemma hex_pairs_inv k : ∀ v b,
  String.length v = (2 * k)%nat → hex_pairs v = Some b → display b = v ∧ String.length b = k.
Proof.
  induction k as [|k IH]; intros v b Hl H.
  - destruct v; [|cbn in Hl; lia]. by injection H as <-.
  - destruct v as [|hi [|lo rest]]; cbn in Hl; try lia.
    cbn [hex_pairs] in H.
    destruct (digit hi) as [h|] eqn:Hh; [|done]. cbn in H.
    destruct (digit lo) as [l|] eqn:Hlo; [|done]. cbn in H.
    destruct (hex_pairs rest) as [t|] eqn:Ht; [|done]. injection H as <-.
    apply digit_Some in Hh as [Hh <-], Hlo as [Hlo <-].
    destruct (IH rest t) as [Hd Hk]; [lia|done|].
    cbn [display String.length]. rewrite byte_val_of by lia.
    rewrite N.div_add_l, N.div_small, N.add_0_r by lia.
    rewrite N.add_comm, N.Div0.mod_add, N.mod_small by lia.
    by rewrite Hd, Hk.
Qed.

Lemma parse_hex_inv n v b : parse_hex n v = Some b → display b = v ∧ String.length b = n.
Proof.
  unfold parse_hex, slen. destruct (N.eqb_spec (N.of_nat (String.length v)) (N.of_nat n * 2)); [|done].
  apply hex_pairs_inv. lia.
Qed.

Lemma display_inj a b : display a = display b → a = b.
Proof. intros H. pose proof (hex_pairs_display a) as Ha. rewrite H, hex_pairs_display in Ha. congruence. Qed.

(** The parser of an identifier accepts exactly the display form of an identifier of
    that width, and returns it. *)
Theorem parse_hex_exact n v b :
  parse_hex n v = Some b ↔ display b = v ∧ String.length b = n.
Proof.
  split; [apply parse_hex_inv|]. intros [<- Hn]. by apply parse_hex_display.
Qed.
