(* ===== verification/Toy.v ===== *)
(** * A concrete platform

    A computable stand-in for the third-party crates, used only to exhibit
    concrete inputs on which the theorems' hypotheses hold. A digest keeps 32
    bytes of what follows the domain prefix, a signature is the signer's key
    repeated, base64 is the identity, and a JSON document is any byte string in
    braces, kept whole under the key ["tag"]. *)

From S2P Require Import Prelude Platform Ids.

Module Toy.

Fixpoint zeros (n : nat) : string :=
  match n with O => "" | S n => String (byte_of 48) (zeros n) end.
Definition pad (n : nat) (s : string) : string := stake n (s +:+ zeros n).

Lemma zeros_length n : String.length (zeros n) = n.
Proof. induction n; cbn; [done|]. by f_equal. Qed.

Lemma pad_length n s : String.length (pad n s) = n.
Proof. unfold pad. apply stake_length. rewrite string_app_length, zeros_length. lia. Qed.

Definition root_key : string := pad 32 "root".

(** The version digit a document starts with, after its brace. *)
Definition version (s : string) : N :=
  match s with
  | String _ (String c _) => if byte_val c =? 50 then 2 else if byte_val c =? 52 then 4 else 1
  | _ => 1
  end.

(** A document whose third character is [g] belongs to a guest identity. *)
Definition guest_key : string := pad 32 "secondary_guest".
Definition root_of (s : string) : string :=
  match s with
  | String _ (String _ (String c _)) => if byte_val c =? 103 then guest_key else root_key
  | _ => root_key
  end.

Definition document (s : string) : json :=
  JMap [("v", JU64 (version s)); ("kind", JStr "stream.config"); ("tag", JStr s);
        ("root_public_key", JStr (display (root_of s)));
        ("nonce", JStr (display (pad 16 "stream")))].

(** The digest of a registration's work has leading zero bytes whatever the nonce. *)
Fixpoint nuls (n : nat) : string :=
  match n with O => "" | S n => String (byte_of 0) (nuls n) end.
Lemma nuls_length n : String.length (nuls n) = n.
Proof. induction n; cbn; [done|]. by f_equal. Qed.
Definition digest (b : string) : string :=
  if stake 29 b === "elo.witness.registration-work" then nuls 32 else pad 32 (sdrop 29 b).
Lemma digest_length b : String.length (digest b) = 32%nat.
Proof. unfold digest. case_decide; [apply nuls_length|apply pad_length]. Qed.

#[export] Instance platform : Platform := {|
  sha256 b := digest b;
  ed25519_valid k := bool_decide (String.length k = 32%nat);
  ed25519_weak k := false;
  ed25519_verifying_key k := k;
  ed25519_sign k m := pad 64 k;
  ed25519_verify_strict k m s := bool_decide (s = pad 64 k);
  base64_encode s := s;
  base64_decode s := Some s;
  json_from_slice s := Some (document s);
  age_recipient_parse s := Some s;
  url_parse s := Some {| url_scheme := "https"; url_host := Some s; url_username := "";
                         url_password := None; url_query := None; url_fragment := None;
                         url_path := if s === "https://space" then "/team/v1/spaces"
                                     else "/spaces/v1/create"; url_loopback := false |};
|}.

#[export] Instance platform_laws : PlatformLaws platform.
Proof.
  split; intros.
  - apply digest_length.
  - apply pad_length.
  - cbn. by apply bool_decide_eq_true.
  - done.
  - cbn. pose proof (N.div_mod' (slen b + 2) 3). pose proof (N.mod_lt (slen b + 2) 3). lia.
Qed.

(** A table-driven serde instance: a document decodes to the value its tag names. *)
Definition table {T} (print : T → string) (rows : list (string * T)) : Serde T := {|
  to_vec := print;
  from_value v :=
    match value_index v "tag" with
    | VString t => snd <$> find_first (λ r, r.1 === t) rows
    | _ => None
    end;
|}.

(** A serde instance that round-trips every value: those of the table have a document,
    every other value prints as text that is not JSON. *)
Definition exact_table {T} `{EqDecision T} (rows : list (string * T)) : Serde T := {|
  to_vec t := default "!" (fst <$> find_first (λ r, r.2 === t) rows);
  from_value v :=
    match value_index v "tag" with
    | VString t => snd <$> find_first (λ r, r.1 === t) rows
    | _ => None
    end;
|}.

End Toy.
