(* ===== verification/Reactions.v ===== *)
(** * The bundled reaction catalog (protocol/reactions.json)

    The strings are the UTF-8 bytes of the emoji, as [record::reaction_choices]
    loads them. *)

From S2P Require Import Prelude.

Definition reaction_choices : list string := [
  "👍";
  "❤️";
  "😂";
  "🎉";
  "😮";
  "😢";
  "🙏";
  "🔥";
  "👀";
  "✅";
  "🙌";
  "🤔";
  "😀";
  "😃";
  "😄";
  "😁";
  "😆";
  "😅";
  "🤣";
  "🙂";
  "🙃";
  "😉";
  "😊";
  "😇";
  "🥰";
  "😍";
  "🤩";
  "😘";
  "😋";
  "😛";
  "😜";
  "🤪";
  "😎";
  "🥳";
  "😏";
  "😌";
  "😴";
  "🤗";
  "🤭";
  "🫢";
  "🫡";
  "🤫";
  "🫠";
  "🥹";
  "🥺";
  "😭";
  "😬";
  "🙄";
  "😑";
  "😐";
  "😶";
  "😕";
  "😟";
  "😞";
  "😔";
  "😤";
  "😠";
  "🤯";
  "😱";
  "😳";
  "🥵";
  "🥶";
  "🤢";
  "🤮";
  "🤧";
  "😷";
  "🤒";
  "🤕";
  "🤖";
  "👻";
  "💀";
  "👽";
  "💩";
  "😺";
  "😸";
  "😹";
  "😻";
  "😼";
  "🙀";
  "😿";
  "😾";
  "👋";
  "🤚";
  "✋";
  "🖖";
  "👌";
  "🤌";
  "🤏";
  "✌️";
  "🤞";
  "🫰";
  "🤟";
  "🤘";
  "🤙";
  "👈";
  "👉";
  "👆";
  "👇";
  "☝️";
  "👎";
  "✊";
  "👊";
  "🤛";
  "🤜";
  "👏";
  "👐";
  "🤲";
  "🤝";
  "💪";
  "🧠";
  "💯";
  "💥";
  "💫";
  "💦";
  "💨";
  "💬";
  "🗯️";
  "💤";
  "🫶";
  "💔";
  "❣️";
  "💕";
  "💖";
  "💗";
  "💓";
  "💞";
  "💘";
  "💝";
  "🧡";
  "💛";
  "💚";
  "💙";
  "💜";
  "🖤";
  "🤍";
  "🤎";
  "🌟";
  "⭐";
  "✨";
  "☀️";
  "🌈";
  "⚡";
  "☁️";
  "🌧️";
  "❄️";
  "🌸";
  "🌻";
  "🌱";
  "🌳";
  "🍀";
  "🍕";
  "🍔";
  "🌮";
  "🍿";
  "🍩";
  "🎂";
  "☕";
  "🍵";
  "🥤";
  "🍺";
  "🥂";
  "🐶";
  "🐱";
  "🦊";
  "🐼";
  "🐸";
  "🦄";
  "🐝";
  "🦋";
  "🐙";
  "🦀";
  "🐢";
  "🎵";
  "🎶";
  "🎧";
  "🎤";
  "🎬";
  "🎮";
  "🎲";
  "⚽";
  "🏀";
  "🏆";
  "🥇";
  "🎯";
  "🚀";
  "✈️";
  "🏖️";
  "🏡";
  "💡";
  "📌";
  "📍";
  "📝";
  "📚";
  "🧪";
  "🛠️";
  "💻";
  "📱";
  "⏳";
  "⏰";
  "🔔";
  "🔒";
  "🔑";
  "🎁";
  "🎈";
  "🪄";
  "🧲";
  "🧩";
  "⚠️";
  "❌";
  "❓";
  "❗";
  "➕";
  "➖";
  "♻️"
].
