(* ===== verification/Record.v ===== *)
(** * Signed records (crates/elo-core/src/record.rs)

    Bounded ELO1 framing, strict JSON, signatures over the retained bytes, and
    the version-1 chat message schema. *)

From S2P Require Import Prelude Platform Ids Toy Reactions.

Definition MAX_RECORD : N := 1024 * 1024.
Definition MAX_CHAT_MEMBERS : N := 1000.
Definition MAX_CHAT_CREDENTIALS : N := 2000.
Definition MAX_INTEGER : N := 9007199254740991.
Definition MAX_EXPIRY_TIMESTAMP_MS : N := 8640000000000000.
Definition MAX_MESSAGE_CLOCK_SKEW_MS : N := 24 * 60 * 60 * 1000.

Inductive RecordError :=
| Framing | Json | Unsupported | Signature | AuthorityError | Random.

#[global] Instance RecordError_eq_dec : EqDecision RecordError.
Proof. solve_decision. Defined.

(** ** Lamport time *)

Definition valid_message_time_at (v now : N) : bool :=
  (v <=? MAX_INTEGER) && (v <=? saturating_add now MAX_MESSAGE_CLOCK_SKEW_MS).

(** [now] is the wall clock in milliseconds, [None] when it reads before 1970. *)
Definition current_message_time_is_valid (v : N) (now : option N) : bool :=
  match now with
  | None => false
  | Some now => valid_message_time_at v now
  end.

Definition next_message_time (highest now : N) : N :=
  let next :=
    if valid_message_time_at (saturating_add highest 1) now
    then saturating_add highest 1
    else now in
  N.min (N.max next now) MAX_INTEGER.

(** ** Strict JSON *)

Definition quote : Ascii.ascii := byte_of 34.
Definition backslash : Ascii.ascii := byte_of 92.
Definition open_brace : Ascii.ascii := byte_of 123.
Definition close_brace : Ascii.ascii := byte_of 125.
Definition open_bracket : Ascii.ascii := byte_of 91.
Definition close_bracket : Ascii.ascii := byte_of 93.
Definition minus : Ascii.ascii := byte_of 45.

(** [impl Deserialize for Strict]: duplicate keys, integers above
    [MAX_INTEGER] and non-natural numbers have no value. *)
Fixpoint strict (j : json) : option value :=
  match j with
  | JNull => Some VNull
  | JBool b => Some (VBool b)
  | JU64 n => if MAX_INTEGER <? n then None else Some (VNumber n)
  | JOther => None
  | JStr s => Some (VString s)
  | JSeq l =>
      (fix go (values : list value) (l : list json) :=
         match l with
         | [] => Some (VArray values)
         | x :: l => v ← strict x; go (values ++ [v]) l
         end) [] l
  | JMap l =>
      (fix go (values : list (string * value)) (l : list (string * json)) :=
         match l with
         | [] => Some (VObject values)
         | (key, x) :: l =>
             if contains (values.*1) key then None
             else v ← strict x; go (values ++ [(key, v)]) l
         end) [] l
  end.

(** The byte scan of [strict_json]: nesting depth outside string literals. *)
Record scan := Scan { depth : N; quoted : bool; escaped : bool }.

Definition scan_byte (s : scan) (b : Ascii.ascii) : result RecordError scan :=
  if quoted s then
    if escaped s then Ok (Scan (depth s) true false)
    else if b === backslash then Ok (Scan (depth s) true true)
    else if b === quote then Ok (Scan (depth s) false false)
    else Ok s
  else if b === quote then Ok (Scan (depth s) true (escaped s))
  else if (b === open_brace) || (b === open_bracket) then
    if 16 <? depth s + 1 then Err Json else Ok (Scan (depth s + 1) false (escaped s))
  else if (b === close_brace) || (b === close_bracket) then
    d ← ok_or (checked_sub (depth s) 1) Json;
    Ok (Scan d false (escaped s))
  else if b === minus then Err Json
  else Ok s.

Definition scan_init : scan := Scan 0 false false.

Section Records.
Context `{P : Platform}.

Definition strict_json (body : string) (maximum : N) : result RecordError value :=
  _ ← fail_if ((saturating_sub maximum 72 <? slen body)
               || negb (sfirst body === Some open_brace)
               || negb (slast body === Some close_brace)) Json;
  _ ← try_fold scan_byte scan_init (String.list_ascii_of_string body);
  ok_or (json_from_slice body ≫= strict) Json.

(** ** ELO1 framing *)

Record SignedRecord := { sr_bytes : string; sr_body : value }.

Definition v2_kinds : list string :=
  ["device.credential"; "device.revoked"; "space.genesis"; "stream.config";
   "space.create"; "witness.approval"; "witness.challenge"; "witness.admission"].
Definition v34_kinds : list string := ["space.genesis"; "stream.config"].

Definition supported (body : value) : bool :=
  let v := value_get body "v" ≫= value_as_u64 in
  let kind := value_get body "kind" ≫= value_as_str in
  let kind_in l := match kind with Some k => contains l k | None => false end in
  (v === Some 1)
  || ((v === Some 2) && kind_in v2_kinds)
  || (((v === Some 3) || (v === Some 4)) && kind_in v34_kinds).

Definition parse_bounded (bytes : string) (maximum : N) : result RecordError SignedRecord :=
  _ ← fail_if (negb (in_range 72 maximum (slen bytes))
               || negb (stake 4 bytes === "ELO1")) Framing;
  let length := from_be (stake 4 (sdrop 4 bytes)) in
  _ ← fail_if (length =/= slen bytes - 72) Framing;
  body ← strict_json (stake (N.to_nat length) (sdrop 8 bytes)) maximum;
  _ ← fail_if (negb (supported body)) Unsupported;
  mret {| sr_bytes := bytes; sr_body := body |}.

Definition parse (bytes : string) : result RecordError SignedRecord :=
  parse_bounded bytes MAX_RECORD.

Definition SIGN_DOMAIN : string := "elo.now/signed-record/v1" +:+ nul.

Definition sign_bounded (body key : string) (maximum : N) : result RecordError SignedRecord :=
  _ ← strict_json body maximum;
  _ ← fail_if (4294967295 <? slen body) Framing;
  parse_bounded ("ELO1" +:+ be_bytes 4 (slen body) +:+ body
                 +:+ ed25519_sign key (SIGN_DOMAIN +:+ body)) maximum.

Definition sign (body key : string) : result RecordError SignedRecord :=
  sign_bounded body key MAX_RECORD.

Definition body_bytes (r : SignedRecord) : string :=
  stake (String.length (sr_bytes r) - 64 - 8) (sdrop 8 (sr_bytes r)).

Definition verify_signature (r : SignedRecord) (key : string) : result RecordError unit :=
  let signature := sdrop (String.length (sr_bytes r) - 64) (sr_bytes r) in
  if ed25519_verify_strict key (SIGN_DOMAIN +:+ body_bytes r) signature
  then Ok tt else Err Signature.

Definition record_id (r : SignedRecord) : RecordId := record_of_bytes (sr_bytes r).

Definition decode {T} `{Serde T} (r : SignedRecord) : result RecordError T :=
  ok_or (from_value (sr_body r)) Json.

Definition hex (n : nat) (v : string) : result RecordError string :=
  ok_or (parse_hex n v) Json.

Definition encode_hex (bytes : string) : string := display bytes.

(** [random_hex::<N>()]: [entropy] is what getrandom delivers, [None] on failure. *)
Definition random_hex (entropy : option string) : result RecordError string :=
  encode_hex <$> ok_or entropy Random.

End Records.

(** * Correctness of framing, strict JSON and record time *)


(** ** ELO1 framing *)

Section Framing.
Context `{P : Platform}.

(** The exact byte layout of a record. *)
Definition frame (body signature : string) : string :=
  "ELO1" +:+ be_bytes 4 (slen body) +:+ body +:+ signature.

Lemma frame_length body signature :
  String.length (frame body signature) = (8 + String.length body + String.length signature)%nat.
Proof. unfold frame. rewrite !string_app_length, be_bytes_length. cbn. lia. Qed.

Lemma frame_slen body signature :
  slen (frame body signature) = 8 + slen body + slen signature.
Proof. unfold slen. rewrite frame_length. lia. Qed.

Lemma frame_body body signature :
  stake (String.length body) (sdrop 8 (frame body signature)) = body.
Proof.
  unfold frame. change 8%nat with (4 + 4)%nat. rewrite <-(sdrop_sdrop 4 4).
  change 4%nat with (String.length "ELO1") at 2. rewrite sdrop_app.
  rewrite <-(be_bytes_length 4 (slen body)) at 1. rewrite sdrop_app. apply stake_app.
Qed.

Lemma frame_length_field body signature :
  stake 4 (sdrop 4 (frame body signature)) = be_bytes 4 (slen body).
Proof.
  unfold frame. change 4%nat with (String.length "ELO1") at 2. rewrite sdrop_app.
  rewrite <-(be_bytes_length 4 (slen body)) at 1. apply stake_app.
Qed.

Lemma frame_signature body signature :
  sdrop (8 + String.length body) (frame body signature) = signature.
Proof.
  unfold frame. rewrite <-!string_app_assoc.
  replace (8 + String.length body)%nat
    with (String.length (("ELO1" +:+ be_bytes 4 (slen body)) +:+ body))
    by (rewrite !string_app_length, be_bytes_length; cbn; lia).
  apply sdrop_app.
Qed.

(** A parsed byte string is a frame. *)
Lemma unframe bytes :
  72 ≤ slen bytes → stake 4 bytes = "ELO1" →
  from_be (stake 4 (sdrop 4 bytes)) = slen bytes - 72 →
  ∃ body signature, bytes = frame body signature ∧ String.length signature = 64%nat ∧
    slen body = slen bytes - 72.
Proof.
  intros Hlen Hmagic Hfield.
  set (n := N.to_nat (slen bytes - 72)).
  assert (Hn : (8 + n + 64 = String.length bytes)%nat) by (unfold n, slen in *; lia).
  exists (stake n (sdrop 8 bytes)), (sdrop n (sdrop 8 bytes)).
  assert (Hb : String.length (stake n (sdrop 8 bytes)) = n).
  { apply stake_length. rewrite sdrop_length. lia. }
  split; [|split].
  - unfold frame. rewrite stake_sdrop.
    replace (slen (stake n (sdrop 8 bytes))) with (from_be (stake 4 (sdrop 4 bytes)))
      by (rewrite Hfield; unfold slen at 2; rewrite Hb; unfold n; lia).
    rewrite <-Hmagic at 1.
    assert (Hf : be_bytes 4 (from_be (stake 4 (sdrop 4 bytes))) = stake 4 (sdrop 4 bytes)).
    { rewrite <-(be_bytes_from (stake 4 (sdrop 4 bytes))) at 2.
      rewrite stake_length; [done|]. rewrite sdrop_length. lia. }
    rewrite Hf. replace (sdrop 8 bytes) with (sdrop 4 (sdrop 4 bytes)) by apply sdrop_sdrop.
    by rewrite !stake_sdrop.
  - rewrite !sdrop_length. lia.
  - unfold slen at 1. rewrite Hb. unfold n. lia.
Qed.

Lemma body_bytes_frame body signature v :
  String.length signature = 64%nat →
  body_bytes {| sr_bytes := frame body signature; sr_body := v |} = body.
Proof.
  intros Hs. unfold body_bytes. cbn [sr_bytes]. rewrite frame_length, Hs.
  replace (8 + String.length body + 64 - 64 - 8)%nat with (String.length body) by lia.
  apply frame_body.
Qed.

Lemma parse_bounded_frame body signature m v :
  String.length signature = 64%nat → slen body < 4294967296 →
  slen (frame body signature) ≤ m → strict_json body m = Ok v → supported v = true →
  parse_bounded (frame body signature) m
    = Ok {| sr_bytes := frame body signature; sr_body := v |}.
Proof.
  intros Hs Hb Hm Hj Hv. unfold parse_bounded.
  assert (slen signature = 64) by (unfold slen; lia).
  rewrite frame_slen in Hm |- *.
  rewrite fail_if_pass; [|rewrite (proj2 (in_range_true _ _ _)) by lia; reflexivity].
  rewrite frame_length_field, from_be_bytes by (cbn; lia).
  rewrite fail_if_pass; [|rewrite bool_decide_true by lia; reflexivity].
  replace (N.to_nat (slen body)) with (String.length body) by (unfold slen; lia).
  rewrite frame_body, (bind_of_Ok _ v) by done.
  by rewrite fail_if_pass by (by rewrite Hv).
Qed.

Lemma parse_bounded_Ok bytes m r :
  parse_bounded bytes m = Ok r →
  sr_bytes r = bytes ∧ supported (sr_body r) = true ∧ slen bytes ≤ m ∧
  ∃ body signature, bytes = frame body signature ∧ String.length signature = 64%nat ∧
    slen body < 4294967296 ∧ strict_json body m = Ok (sr_body r).
Proof.
  unfold parse_bounded. intros H. inv_ok.
  apply in_range_true in Hx3 as [Hlo Hhi].
  destruct (unframe bytes Hlo Hx4 Hx0) as (body & signature & -> & Hs & Hl).
  cbn [sr_bytes sr_body]. split_and!; [done..|].
  exists body, signature.
  assert (Hb : slen body < 4294967296).
  { rewrite Hl, <-Hx0. eapply N.lt_le_trans; [apply from_be_lt|].
    unfold slen. rewrite stake_length; [done|]. rewrite sdrop_length, frame_length. lia. }
  split_and!; [done..|].
  rewrite frame_length_field, from_be_bytes in Hx1 by (cbn; lia).
  replace (N.to_nat (slen body)) with (String.length body) in Hx1 by (unfold slen; lia).
  by rewrite frame_body in Hx1.
Qed.

(** The ELO1 parser accepts exactly the frames: magic, 32-bit big-endian body
    length, body, 64-byte signature and nothing else, within the size bound, whose
    body is strict JSON of a supported version and kind; the record keeps the bytes
    it was given. *)
Theorem parse_bounded_exact bytes m r :
  parse_bounded bytes m = Ok r ↔
  sr_bytes r = bytes ∧ supported (sr_body r) = true ∧ slen bytes ≤ m ∧
  ∃ body signature,
    bytes = "ELO1" +:+ be_bytes 4 (slen body) +:+ body +:+ signature ∧
    String.length signature = 64%nat ∧ slen body < 4294967296 ∧
    strict_json body m = Ok (sr_body r).
Proof.
  split; [apply parse_bounded_Ok|].
  intros (Hbytes & Hsup & Hm & body & signature & -> & Hs & Hb & Hj).
  destruct r as [rb v]; cbn [sr_bytes sr_body] in *; subst rb.
  by apply parse_bounded_frame.
Qed.

Lemma verify_signature_frame body signature v key :
  String.length signature = 64%nat →
  ed25519_verify_strict key (SIGN_DOMAIN +:+ body) signature = true →
  verify_signature {| sr_bytes := frame body signature; sr_body := v |} key = Ok tt.
Proof.
  intros Hs Hv. unfold verify_signature. rewrite body_bytes_frame by done. cbn [sr_bytes].
  rewrite frame_length, Hs.
  replace (8 + String.length body + 64 - 64)%nat with (8 + String.length body)%nat by lia.
  by rewrite frame_signature, Hv.
Qed.

Lemma sign_bounded_Ok {L : PlatformLaws P} body key m r :
  sign_bounded body key m = Ok r →
  sr_bytes r = frame body (ed25519_sign key (SIGN_DOMAIN +:+ body)) ∧
  strict_json body m = Ok (sr_body r) ∧ parse_bounded (sr_bytes r) m = Ok r ∧
  body_bytes r = body ∧ verify_signature r (ed25519_verifying_key key) = Ok tt.
Proof.
  unfold sign_bounded. intros H. inv_ok.
  assert (Hs : String.length (ed25519_sign key (SIGN_DOMAIN +:+ body)) = 64%nat)
    by apply ed25519_sign_length.
  change ("ELO1" +:+ _) with (frame body (ed25519_sign key (SIGN_DOMAIN +:+ body))) in H.
  pose proof H as Hp. apply parse_bounded_Ok in Hp as (Hb & _ & _ & body' & s' & Hf & Hs' & _ & Hj).
  unfold frame in Hf. apply string_app_inj_length in Hf as [_ Hf]; [|done].
  apply string_app_inj_length in Hf as [_ Hf]; [|by rewrite !be_bytes_length].
  assert (Hl : String.length body = String.length body').
  { apply (f_equal String.length) in Hf. rewrite !string_app_length, Hs, Hs' in Hf. lia. }
  apply string_app_inj_length in Hf as [<- <-]; [|done].
  destruct r as [rb v]. cbn [sr_bytes sr_body] in *. subst rb.
  split_and!; try done.
  - by apply body_bytes_frame.
  - apply verify_signature_frame; [done|]. apply ed25519_sign_verify.
Qed.

(** What a device signs, everyone verifies: signing a body yields the frame of
    exactly that body, which parses back to the same record and whose signature
    verifies under the signer's public key. *)
Theorem sign_round_trip {L : PlatformLaws P} body key m r
  (Hsign : sign_bounded body key m = Ok r) :
  parse_bounded (sr_bytes r) m = Ok r ∧ body_bytes r = body ∧
  verify_signature r (ed25519_verifying_key key) = Ok tt.
Proof. destruct (sign_bounded_Ok _ _ _ _ Hsign) as (_ & _ & ? & ? & ?). done. Qed.

End Framing.

Section SignWitness.
#[local] Existing Instances Toy.platform Toy.platform_laws.

Lemma sign_round_trip_witness :
  let r := {| sr_bytes := "ELO1" +:+ be_bytes 4 5 +:+ "{elo}" +:+ Toy.pad 64 "key";
              sr_body := VObject [("v", VNumber 1); ("kind", VString "stream.config");
                                  ("tag", VString "{elo}");
                                  ("root_public_key", VString (display Toy.root_key));
                                  ("nonce", VString (display (Toy.pad 16 "stream")))] |} in
  sign_bounded "{elo}" "key" 1000 = Ok r ∧ parse_bounded (sr_bytes r) 1000 = Ok r ∧
  body_bytes r = "{elo}" ∧ verify_signature r "key" = Ok tt.
Proof.
  intros r. assert (H : sign_bounded "{elo}" "key" 1000 = Ok r) by (vm_compute; reflexivity).
  split; [exact H|]. exact (sign_round_trip _ _ _ _ H).
Defined.

End SignWitness.

(** ** Strict JSON *)

(** No duplicate key at any depth and every number within the integer range. *)
Fixpoint value_wf (v : value) : Prop :=
  match v with
  | VNull | VBool _ | VString _ => True
  | VNumber n => n ≤ MAX_INTEGER
  | VArray l => (fix all (l : list value) : Prop :=
      match l with [] => True | v :: l => value_wf v ∧ all l end) l
  | VObject l => NoDup (l.*1) ∧ (fix all (l : list (string * value)) : Prop :=
      match l with [] => True | (_, v) :: l => value_wf v ∧ all l end) l
  end.

Lemma value_wf_array l : value_wf (VArray l) ↔ ∀ v, v ∈ l → value_wf v.
Proof. cbn. induction l as [|v l IH]; [set_solver|]. rewrite IH. set_solver. Qed.

Lemma value_wf_object l :
  value_wf (VObject l) ↔ NoDup (l.*1) ∧ ∀ k v, (k, v) ∈ l → value_wf v.
Proof.
  cbn. apply and_iff_compat_l. induction l as [|[k v] l IH]; [set_solver|].
  rewrite IH. split.
  - intros [? ?] k' v' [ [= -> ->] | ?]%elem_of_cons; eauto.
  - intros H. split; [apply (H k); constructor|]. intros k' v' ?. apply (H k'). by constructor.
Qed.

Fixpoint strict_wf_aux (j : json) : ∀ v, strict j = Some v → value_wf v.
Proof.
  destruct j as [|b|n| |s|l|l]; cbn [strict]; intros v H.
  - by injection H as <-.
  - by injection H as <-.
  - destruct (N.ltb_spec MAX_INTEGER n); [done|]. by injection H as <-.
  - done.
  - by injection H as <-.
  - assert (Hgen : ∀ acc w,
      (∀ v, v ∈ acc → value_wf v) →
      (fix go (values : list value) (l : list json) :=
         match l with
         | [] => Some (VArray values)
         | x :: l => v ← strict x; go (values ++ [v]) l
         end) acc l = Some w → value_wf w).
    { clear H v. induction l as [|x l IH]; intros acc w Hacc H.
      - injection H as <-. by apply value_wf_array.
      - destruct (strict x) as [v|] eqn:Hx; [|done]. cbn in H.
        eapply IH; [|exact H]. intros u [? | ->%list_elem_of_singleton]%elem_of_app; eauto. }
    eapply Hgen; [|exact H]. set_solver.
  - assert (Hgen : ∀ acc w,
      NoDup (acc.*1) → (∀ k v, (k, v) ∈ acc → value_wf v) →
      (fix go (values : list (string * value)) (l : list (string * json)) :=
         match l with
         | [] => Some (VObject values)
         | (key, x) :: l =>
             if contains (values.*1) key then None
             else v ← strict x; go (values ++ [(key, v)]) l
         end) acc l = Some w → value_wf w).
    { clear H v. induction l as [|[k x] l IH]; intros acc w Hnd Hacc H.
      - injection H as <-. by apply value_wf_object.
      - destruct (contains (acc.*1) k) eqn:Hk; [done|]. apply contains_false in Hk.
        destruct (strict x) as [v|] eqn:Hx; [|done]. cbn in H.
        eapply IH; [| |exact H].
        + rewrite fmap_app, NoDup_app. cbn. split_and!; [done| |apply NoDup_singleton].
          set_solver.
        + intros k' u [? | [= -> ->]%list_elem_of_singleton]%elem_of_app; eauto. }
    eapply Hgen; [| |exact H]; [constructor|set_solver].
Qed.

(** A value the strict deserializer produces has no duplicate key at any depth
    and no number above 2^53-1; a document with either is refused. *)
Theorem strict_no_duplicates j : from_option value_wf True (strict j).
Proof. destruct (strict j) eqn:H; cbn; [|done]. by eapply strict_wf_aux. Qed.

(** ** Lamport time *)

(** The next message time never leaves the wire integer range, never lags the
    wall clock, is itself acceptable at that clock, and is strictly later than every
    time already seen unless the clock-skew bound forbids it. *)
Theorem next_message_time_spec highest now (Hnow : now ≤ MAX_INTEGER) :
  let next := next_message_time highest now in
  now ≤ next ∧ valid_message_time_at next now = true ∧
  (valid_message_time_at (highest + 1) now = true → highest < next).
Proof.
  unfold next_message_time, valid_message_time_at, saturating_add, u64_max,
    MAX_INTEGER, MAX_MESSAGE_CLOCK_SKEW_MS in *. cbv zeta.
  repeat match goal with |- context [N.min ?a ?b] =>
    destruct (N.min_spec a b) as [[? ->]|[? ->]]; try lia end;
  rewrite ?andb_true_iff, ?N.leb_le;
  repeat case_match; rewrite ?andb_true_iff, ?andb_false_iff, ?N.leb_le, ?N.leb_gt in *;
  split_and!; intros; try lia.
Qed.

Lemma next_message_time_spec_witness :
  1000 ≤ MAX_INTEGER ∧ next_message_time 5000 1000 = 5001 ∧ 1000 ≤ next_message_time 5000 1000.
Proof.
  assert (H : 1000 ≤ MAX_INTEGER) by (vm_compute; discriminate).
  split; [exact H|]. split; [reflexivity|]. apply (next_message_time_spec 5000 1000 H).
Defined.
