(* ===== verification/Chat.v ===== *)
(** * Chat messages (crates/elo-core/src/record.rs, the schema part)

    The version-1 chat message, its actions and locators, and the semantic
    validation applied to every decoded message. *)

From S2P Require Import Prelude Platform Ids Reactions Record.

Inductive MessageAction :=
| Reaction (target : RecordId) (emoji : string) (active : bool)
| Pin (target : RecordId) (active : bool)
| Delete (target : RecordId)
| Edit (target : RecordId) (text : string) (mentions : list IdentityId)
| Expiry (target : RecordId) (hours : option N).

Record TextPayload := {
  text : string;
  mentions : list IdentityId;
  expires_at_ms : option N;
  sender_name : option string;
  thread_root : option RecordId;
  action : option MessageAction;
}.

Record MessageAccess := { request_key : string; accept_secret : option string }.

Record MessageLocator := {
  message_record_id : RecordId;
  body_object_id : ObjectId;
  locator_nonce : string;
  request_secret : string;
}.

Record ChatMessage := {
  chat_v : N;
  chat_kind_ : string;
  chat_nonce : string;
  chat_space_id : SpaceId;
  chat_stream_id : StreamId;
  issuer_identity : IdentityId;
  issuer_credential : RecordId;
  chat_config_id : RecordId;
  audience : list IdentityId;
  recipient_credentials : list RecordId;
  logical_time : N;
  created_at : string;
  parents : list RecordId;
  payload : TextPayload;
  locator : option MessageLocator;
  access : option MessageAccess;
}.

Definition action_target (a : MessageAction) : RecordId :=
  match a with
  | Reaction target _ _ | Pin target _ | Delete target
  | Expiry target _ | Edit target _ _ => target
  end.

Definition valid_mentions (ms : list IdentityId) : bool :=
  (nlen ms <=? 32) && strictly_sorted bytes_ltb ms.

Definition action_valid (a : MessageAction) : bool :=
  match a with
  | Reaction _ emoji _ => contains reaction_choices emoji
  | Pin _ _ | Delete _ => true
  | Edit _ t ms => negb (trim (chars t) === []) && (slen t <=? 16384) && valid_mentions ms
  | Expiry _ hours => match hours with None => true | Some h => contains [1; 12; 24] h end
  end.

Definition unsafe_display_character (c : N) : bool :=
  is_control c || (c =? 173) || (c =? 1564) || (c =? 6158) || in_range 8203 8207 c
  || in_range 8234 8238 c || in_range 8288 8303 c || (c =? 65279).

Definition valid_display_name (name : string) : bool :=
  negb (name === "") && (slen name <=? 120) && (trim (chars name) === chars name)
  && negb (existsb unsafe_display_character (chars name)).

(** ** Timestamps *)

Definition is_ascii_digit (c : Ascii.ascii) : bool := in_range 48 57 (byte_val c).

(** [s[a..z].parse::<u32>()] of a slice already known to be digits. *)
Definition decimal (s : string) : N :=
  fold_left (λ acc c, acc * 10 + (byte_val c - 48)) (String.list_ascii_of_string s) 0.
Definition slice (a z : nat) (s : string) : string := stake (z - a) (sdrop a s).

Definition expected_at (i : nat) : option Ascii.ascii :=
  match i with
  | 4%nat | 7%nat => Some minus
  | 10%nat => Some (byte_of 84)
  | 13%nat | 16%nat => Some (byte_of 58)
  | 19%nat => Some (byte_of 90)
  | _ => None
  end.
Definition timestamp_char_ok (i : nat) (c : Ascii.ascii) : bool :=
  match expected_at i with
  | Some e => e === c
  | None => is_ascii_digit c
  end.
Fixpoint timestamp_chars_ok (i : nat) (s : string) : bool :=
  match s with
  | "" => true
  | String c s => timestamp_char_ok i c && timestamp_chars_ok (S i) s
  end.

Definition is_multiple_of (a b : N) : bool := a mod b =? 0.
Definition days_in_month (y m : N) : N :=
  if contains [1; 3; 5; 7; 8; 10; 12] m then 31
  else if contains [4; 6; 9; 11] m then 30
  else if m =? 2 then
    if is_multiple_of y 4 && (negb (is_multiple_of y 100) || is_multiple_of y 400)
    then 29 else 28
  else 0.

Definition valid_timestamp (s : string) : bool :=
  if negb (slen s =? 20) then false
  else if negb (timestamp_chars_ok 0 s) then false
  else
    let n a z := decimal (slice a z s) in
    let y := n 0%nat 4%nat in
    let m := n 5%nat 7%nat in
    let d := n 8%nat 10%nat in
    (0 <? y) && (0 <? d) && (d <=? days_in_month y m)
    && (n 11%nat 13%nat <? 24) && (n 14%nat 16%nat <? 60) && (n 17%nat 19%nat <? 60).

(** ** Message validation *)

Section Chat.
Context `{P : Platform}.

(** retention_access.rs [valid_key] *)
Definition valid_key (key : string) : bool :=
  match to_option (hex 32 key) ≫= vk_from_bytes with
  | Some k => negb (ed25519_weak k)
  | None => false
  end.

(** [parents.iter().enumerate().any(|(i, p)| parents[..i].contains(p))] *)
Fixpoint has_repeat {A} `{EqDecision A} (seen l : list A) : bool :=
  match l with
  | [] => false
  | x :: l => contains seen x || has_repeat (seen ++ [x]) l
  end.

(** The [match (kind, action, locator)] of [validate]: true is a rejection. *)
Definition payload_rejected (c : ChatMessage) : bool :=
  let p := payload c in
  if chat_kind_ c === "chat.message" then
    match action p, locator c with
    | None, None => negb (in_range 1 16384 (slen (text p)))
    | _, _ => true
    end
  else if chat_kind_ c === "chat.private-settings" then
    match action p, locator c with
    | None, None =>
        negb (in_range 1 16384 (slen (text p)))
        || (audience c =/= [issuer_identity c])
        || bool_decide (is_Some (sender_name p))
        || bool_decide (is_Some (thread_root p))
        || bool_decide (is_Some (expires_at_ms p))
        || (parents c =/= [])
    | _, _ => true
    end
  else if chat_kind_ c === "chat.action" then
    match action p, locator c with
    | Some act, None =>
        (text p =/= "") || bool_decide (is_Some (thread_root p)) || negb (action_valid act)
    | _, _ => true
    end
  else if chat_kind_ c === "chat.locator" then
    match action p, locator c with
    | None, Some l =>
        (text p =/= "") || bool_decide (is_Some (sender_name p))
        || negb (is_ok (hex 16 (locator_nonce l)))
        || ((request_secret l =/= "") && negb (is_ok (hex 32 (request_secret l))))
    | _, _ => true
    end
  else true.

Definition access_rejected (c : ChatMessage) : bool :=
  match access c with
  | None => false
  | Some a =>
      (chat_kind_ c =/= "chat.message")
      || negb (valid_key (request_key a))
      || match accept_secret a with
         | None => false
         | Some seed => negb (is_ok (hex 32 seed)) || negb (nlen (audience c) =? 2)
         end
  end.

Definition expiry_rejected (c : ChatMessage) : bool :=
  match expires_at_ms (payload c) with
  | None => false
  | Some e => (e =? 0) || (MAX_EXPIRY_TIMESTAMP_MS <? e) || (chat_kind_ c === "chat.action")
  end.

Definition validate (c : ChatMessage) : result RecordError unit :=
  _ ← fail_if (negb (chat_v c =? 1)
               || negb (contains ["chat.message"; "chat.action"; "chat.locator";
                                  "chat.private-settings"] (chat_kind_ c))) Unsupported;
  _ ← hex 16 (chat_nonce c);
  _ ← fail_if (expiry_rejected c) Json;
  _ ← fail_if
    (negb (valid_mentions (mentions (payload c)))
     || existsb (λ id, negb (contains (audience c) id)) (mentions (payload c))
     || ((chat_kind_ c =/= "chat.message") && (mentions (payload c) =/= []))
     || match action (payload c) with
        | Some (Edit _ _ ms) => existsb (λ id, negb (contains (audience c) id)) ms
        | _ => false
        end
     || negb (sorted_unique bytes_ltb (audience c) 1 MAX_CHAT_MEMBERS)
     || negb (sorted_unique bytes_ltb (recipient_credentials c) 1 MAX_CHAT_CREDENTIALS)
     || (16 <? nlen (parents c))
     || has_repeat [] (parents c)
     || (MAX_INTEGER <? logical_time c)
     || payload_rejected c
     || match sender_name (payload c) with
        | None => false
        | Some name => negb (valid_display_name name)
        end
     || negb (valid_timestamp (created_at c))) Json;
  fail_if (access_rejected c) Json.

Context {SC : Serde ChatMessage}.

(** [SignedRecord::chat] *)
Definition chat (r : SignedRecord) : result RecordError ChatMessage :=
  _ ← fail_if (MAX_RECORD <? slen (sr_bytes r)) Framing;
  c ← decode r;
  _ ← validate c;
  mret c.

(** [ChatMessage::sign] *)
Definition chat_sign (c : ChatMessage) (key : string) : result RecordError SignedRecord :=
  _ ← validate c;
  sign (to_vec c) key.

End Chat.

(** * Correctness of the chat schema

    Timestamps are exactly the canonical UTC instants of the Gregorian calendar, and a
    message that validates respects every bound of the schema. *)


(** ** Decimal fields *)

(** The last [k] decimal digits of [n], most significant first. *)
Fixpoint digits (k : nat) (n : N) : string :=
  match k with
  | O => ""
  | S k => String (byte_of (48 + n / 10 ^ N.of_nat k mod 10)) (digits k n)
  end.

Definition all_digits (s : string) : bool :=
  forallb is_ascii_digit (String.list_ascii_of_string s).

Lemma decimal_acc s acc :
  fold_left (λ acc c, acc * 10 + (byte_val c - 48)) (String.list_ascii_of_string s) acc
  = acc * 10 ^ slen s + decimal s.
Proof.
  unfold decimal, slen. revert acc. induction s as [|c s IH]; intros acc.
  - cbn. lia.
  - cbn [String.list_ascii_of_string fold_left String.length].
    rewrite IH, (IH (0 * 10 + (byte_val c - 48))), Nat2N.inj_succ, N.pow_succ_r'. lia.
Qed.

Lemma decimal_cons c s :
  decimal (String c s) = (byte_val c - 48) * 10 ^ slen s + decimal s.
Proof. unfold decimal at 1. cbn [String.list_ascii_of_string fold_left]. by rewrite decimal_acc. Qed.

Lemma decimal_lt s : all_digits s = true → decimal s < 10 ^ slen s.
Proof.
  unfold all_digits. induction s as [|c s IH]; intros Hs; [done|].
  cbn [String.list_ascii_of_string forallb] in Hs. apply andb_true_iff in Hs as [Hc Hs].
  apply in_range_true in Hc. specialize (IH Hs). rewrite decimal_cons. unfold slen in *.
  cbn [String.length]. rewrite Nat2N.inj_succ, N.pow_succ_r'. nia.
Qed.

Lemma digits_decimal s : all_digits s = true → digits (String.length s) (decimal s) = s.
Proof.
  assert (∀ a, all_digits s = true →
    digits (String.length s) (a * 10 ^ slen s + decimal s) = s) as H.
  { induction s as [|c s IH]; intros a Hs; [done|].
    unfold all_digits in Hs. cbn [String.list_ascii_of_string forallb] in Hs.
    apply andb_true_iff in Hs as [Hc Hs]. cbn [String.length digits].
    pose proof (decimal_lt s Hs) as Hlt. apply in_range_true in Hc.
    rewrite decimal_cons. unfold slen in *. cbn [String.length].
    rewrite Nat2N.inj_succ, N.pow_succ_r'.
    set (p := 10 ^ N.of_nat (String.length s)) in *.
    replace (a * (10 * p) + ((byte_val c - 48) * p + decimal s))
      with ((a * 10 + (byte_val c - 48)) * p + decimal s) by lia.
    rewrite IH by done. f_equal.
    assert (p ≠ 0) by (apply N.pow_nonzero; lia).
    rewrite N.div_add_l, (N.div_small (decimal s)) by done.
    rewrite N.add_0_r, (N.add_comm (a * 10)), N.Div0.mod_add, N.mod_small by lia.
    replace (48 + (byte_val c - 48)) with (byte_val c) by lia. apply byte_of_val. }
  intros Hs. pose proof (H 0 Hs) as E. by rewrite N.mul_0_l, N.add_0_l in E.
Qed.

Lemma digits_length k n : String.length (digits k n) = k.
Proof. induction k; cbn; [done|]. by f_equal. Qed.

Lemma digit_is_digit d : d < 10 → is_ascii_digit (byte_of (48 + d)) = true.
Proof. intros Hd. unfold is_ascii_digit. rewrite byte_val_of by lia. apply in_range_true. lia. Qed.

Lemma decimal_digits k n : decimal (digits k n) = n mod 10 ^ N.of_nat k.
Proof.
  induction k as [|k IH]; [cbn; by rewrite N.mod_1_r|].
  cbn [digits]. rewrite decimal_cons, IH. unfold slen. rewrite digits_length.
  assert (n / 10 ^ N.of_nat k mod 10 < 10) by (apply N.mod_lt; lia).
  rewrite byte_val_of by lia. rewrite Nat2N.inj_succ, N.pow_succ_r'.
  rewrite (N.mul_comm 10 (10 ^ _)), N.Div0.mod_mul_r.
  set (q := n / 10 ^ N.of_nat k mod 10) in *. replace (48 + q - 48) with q by lia.
  by rewrite N.mul_comm, N.add_comm.
Qed.

Lemma decimal_digits_small k n : n < 10 ^ N.of_nat k → decimal (digits k n) = n.
Proof. intros H. rewrite decimal_digits. by apply N.mod_small. Qed.

(** ** Timestamps *)

Definition iso_instant (y mo d h mi s : N) : string :=
  digits 4 y +:+ "-" +:+ digits 2 mo +:+ "-" +:+ digits 2 d +:+ "T"
  +:+ digits 2 h +:+ ":" +:+ digits 2 mi +:+ ":" +:+ digits 2 s +:+ "Z".

(** Days of a month by the Gregorian rule. *)
Definition leap (y : N) : Prop := y mod 4 = 0 ∧ (y mod 100 ≠ 0 ∨ y mod 400 = 0).
#[global] Instance leap_dec y : Decision (leap y).
Proof. unfold leap. apply _. Defined.
Definition month_days (y mo : N) : N :=
  nth (N.to_nat mo - 1)
    [31; if decide (leap y) then 29 else 28; 31; 30; 31; 30; 31; 31; 30; 31; 30; 31] 0.

Lemma leap_rule y :
  (is_multiple_of y 4 && (negb (is_multiple_of y 100) || is_multiple_of y 400))
  = bool_decide (leap y).
Proof.
  apply eq_true_iff_eq. rewrite bool_decide_eq_true. unfold is_multiple_of, leap.
  by rewrite andb_true_iff, orb_true_iff, negb_true_iff, !N.eqb_eq, N.eqb_neq.
Qed.

Lemma days_in_month_spec y mo :
  days_in_month y mo = if in_range 1 12 mo then month_days y mo else 0.
Proof.
  unfold days_in_month. rewrite leap_rule. rewrite <-(N2Nat.id mo).
  generalize (N.to_nat mo). intros n.
  do 13 (destruct n as [|n];
    [cbn; try reflexivity; by rewrite <-decide_bool_decide|]).
  rewrite !(proj2 (contains_false _ _)) by set_solver by lia.
  rewrite (proj2 (N.eqb_neq _ _)) by lia.
  unfold in_range. rewrite (proj2 (N.leb_gt _ 12)) by lia. by rewrite andb_false_r.
Qed.

Lemma slen_twenty s :
  slen s = 20 → ∃ c0 c1 c2 c3 c4 c5 c6 c7 c8 c9 d0 d1 d2 d3 d4 d5 d6 d7 d8 d9,
    s = String c0 (String c1 (String c2 (String c3 (String c4 (String c5 (String c6 (String c7
      (String c8 (String c9 (String d0 (String d1 (String d2 (String d3 (String d4 (String d5
      (String d6 (String d7 (String d8 (String d9 ""))))))))))))))))))).
Proof.
  intros H%(slen_of_nat _ 20).
  do 20 (destruct s as [|? s]; [discriminate H|injection H as H]).
  destruct s; [eauto 30|discriminate H].
Qed.

Lemma month_days_le y mo : month_days y mo ≤ 31.
Proof.
  unfold month_days. destruct (N.to_nat mo - 1)%nat as [|n]; [cbn; lia|].
  do 11 (destruct n as [|n]; [cbn; try lia; destruct (decide _); lia|]).
  cbn. destruct n; lia.
Qed.

(** The conditions on the fields of a timestamp. *)
Lemma timestamp_fields y mo d :
  0 < d ∧ d ≤ days_in_month y mo ↔ 1 ≤ mo ≤ 12 ∧ 1 ≤ d ≤ month_days y mo.
Proof.
  rewrite days_in_month_spec.
  destruct (in_range 1 12 mo) eqn:Hr.
  - apply in_range_true in Hr. lia.
  - apply not_true_iff_false in Hr. rewrite in_range_true in Hr. lia.
Qed.

(** The numeric fields the check reads. *)
Definition field (a z : nat) (s : string) : N := decimal (slice a z s).

Lemma digit_field n k : is_ascii_digit (byte_of (48 + n / 10 ^ N.of_nat k mod 10)) = true.
Proof. apply digit_is_digit, N.mod_lt. lia. Qed.

Lemma iso_chars_ok y mo d h mi se : timestamp_chars_ok 0 (iso_instant y mo d h mi se) = true.
Proof.
  unfold iso_instant. cbn [digits String.append timestamp_chars_ok].
  unfold timestamp_char_ok. cbn [expected_at]. by rewrite !digit_field.
Qed.

Lemma iso_slen y mo d h mi se : slen (iso_instant y mo d h mi se) = 20.
Proof. reflexivity. Qed.

Lemma iso_fields y mo d h mi se (s := iso_instant y mo d h mi se) :
  y < 10000 → mo < 100 → d < 100 → h < 100 → mi < 100 → se < 100 →
  field 0 4 s = y ∧ field 5 7 s = mo ∧ field 8 10 s = d
  ∧ field 11 13 s = h ∧ field 14 16 s = mi ∧ field 17 19 s = se.
Proof.
  intros. unfold field.
  change (slice 0 4 s) with (digits 4 y). change (slice 5 7 s) with (digits 2 mo).
  change (slice 8 10 s) with (digits 2 d). change (slice 11 13 s) with (digits 2 h).
  change (slice 14 16 s) with (digits 2 mi). change (slice 17 19 s) with (digits 2 se).
  by rewrite !decimal_digits_small.
Qed.

Lemma two_digits a b :
  is_ascii_digit a = true → is_ascii_digit b = true →
  digits 2 (decimal (String a (String b ""))) = String a (String b "").
Proof.
  intros Ha Hb. apply (digits_decimal (String a (String b ""))).
  unfold all_digits. cbn. by rewrite Ha, Hb.
Qed.

Lemma shape_iso s :
  slen s = 20 → timestamp_chars_ok 0 s = true →
  s = iso_instant (field 0 4 s) (field 5 7 s) (field 8 10 s)
        (field 11 13 s) (field 14 16 s) (field 17 19 s)
  ∧ field 0 4 s < 10000.
Proof.
  intros (c0 & c1 & c2 & c3 & c4 & c5 & c6 & c7 & c8 & c9 & d0 & d1 & d2 & d3 & d4 & d5 & d6
    & d7 & d8 & d9 & ->)%slen_twenty H.
  cbn [timestamp_chars_ok] in H.
  repeat (apply andb_true_iff in H as [? H]). clear H.
  unfold timestamp_char_ok in *. cbn [expected_at] in *.
  unfold field. cbn [slice Nat.sub sdrop stake].
  assert (all_digits (String c0 (String c1 (String c2 (String c3 "")))) = true) as Hy.
  { unfold all_digits. cbn. by rewrite !andb_true_iff. }
  split; [|apply (decimal_lt _ Hy)].
  unfold iso_instant.
  pose proof (digits_decimal _ Hy) as Ey. cbn [String.length] in Ey. rewrite Ey.
  rewrite !two_digits by done.
  by repeat match goal with H : (_ === _) = true |- _ => apply bool_decide_eq_true in H as <- end.
Qed.

(** The timestamp check accepts exactly the twenty-byte UTC instants
    [YYYY-MM-DDThh:mm:ssZ] of the Gregorian calendar, years 1 to 9999, leap days
    included and leap seconds excluded. *)
Theorem valid_timestamp_exact s :
  valid_timestamp s = true ↔
  ∃ y mo d h mi se, 1 ≤ y ≤ 9999 ∧ 1 ≤ mo ≤ 12 ∧ 1 ≤ d ≤ month_days y mo
    ∧ h < 24 ∧ mi < 60 ∧ se < 60 ∧ s = iso_instant y mo d h mi se.
Proof.
  unfold valid_timestamp. fold (field 0 4 s) (field 5 7 s) (field 8 10 s)
    (field 11 13 s) (field 14 16 s) (field 17 19 s). split.
  - destruct (N.eqb_spec (slen s) 20) as [Hl|Hl]; [|done].
    destruct (timestamp_chars_ok 0 s) eqn:Hc; [|done]. cbn [negb].
    destruct (shape_iso s Hl Hc) as [Hs Hy].
    rewrite !andb_true_iff, !N.ltb_lt, N.leb_le. intros [[[[[? Hd0] Hd1] ?] ?] ?].
    destruct (proj1 (timestamp_fields _ _ _) (conj Hd0 Hd1)) as [? ?].
    exists (field 0 4 s), (field 5 7 s), (field 8 10 s), (field 11 13 s), (field 14 16 s),
      (field 17 19 s). repeat (split; [done || lia|]). exact Hs.
  - intros (y & mo & d & h & mi & se & Hy & Hmo & Hd & Hh & Hmi & Hse & ->).
    pose proof (month_days_le y mo).
    destruct (iso_fields y mo d h mi se) as (-> & -> & -> & -> & -> & ->); [lia..|].
    rewrite iso_slen, iso_chars_ok. cbn [N.eqb Pos.eqb negb].
    destruct (proj2 (timestamp_fields y mo d) (conj Hmo Hd)) as [? ?].
    rewrite !andb_true_iff, !N.ltb_lt, N.leb_le. repeat split; lia.
Qed.
