(* ===== verification/Identity.v ===== *)
(** * Device credentials (crates/elo-core/src/identity.rs)

    Root-anchored credentials, their bounded delegation chains, and the permanent
    revocation of one credential. *)

From S2P Require Import Prelude Platform Ids Record Chat.

Definition MAX_COMPANION_DEPTH : nat := 4.
Definition MAX_CREDENTIAL_BYTES : N := 8 * 1024.
(** [MAX_CREDENTIAL_BYTES.div_ceil(3) * 4] *)
Definition MAX_ENCODED_CREDENTIAL : N := (MAX_CREDENTIAL_BYTES + 2) / 3 * 4.

Record DeviceCredential := {
  dc_v : N;
  dc_kind : string;
  dc_nonce : string;
  dc_identity_id : IdentityId;
  dc_root_public_key : string;
  dc_signing_public_key : string;
  dc_age_recipient : string;
  dc_authorizing_device : option string;
}.

Record VerifiedCredential := {
  vc_record : SignedRecord;
  vc_body : DeviceCredential;
  vc_key : string;
  delegation_depth : nat;
}.

Record DeviceRevocation := {
  dr_v : N;
  dr_kind : string;
  dr_nonce : string;
  dr_credential : string;
  dr_authorizing_device : option string;
}.

Section Identity.
Context `{P : Platform} {SD : Serde DeviceCredential}.

(** The body checks shared by every link of a chain. *)
Definition credential_body_ok (body : DeviceCredential) (root : string) : result RecordError unit :=
  _ ← fail_if (negb (contains [1; 2] (dc_v body)) || (dc_kind body =/= "device.credential"))
        Unsupported;
  _ ← hex 16 (dc_nonce body);
  _ ← fail_if (dc_identity_id body =/= identity_of_root_key root) AuthorityError;
  k ← hex 32 (dc_root_public_key body);
  fail_if (k =/= root) AuthorityError.

(** The key material of a link: a strong signing key and a canonical recipient. *)
Definition credential_keys (body : DeviceCredential) : result RecordError string :=
  raw ← hex 32 (dc_signing_public_key body);
  key ← ok_or (vk_from_bytes raw) Signature;
  _ ← fail_if (ed25519_weak key) Signature;
  recipient ← ok_or (age_recipient_parse (dc_age_recipient body)) Json;
  _ ← fail_if (recipient =/= dc_age_recipient body) Json;
  mret key.

(** [remaining] is [MAX_COMPANION_DEPTH - depth]. *)
Fixpoint verify_at_depth (remaining : nat) (bytes root : string)
    : result RecordError VerifiedCredential :=
  record ← parse_bounded bytes MAX_CREDENTIAL_BYTES;
  body ← decode record;
  _ ← credential_body_ok body root;
  depth ←
    (if dc_v body =? 1 then
       match dc_authorizing_device body with
       | None => _ ← verify_signature record root; Ok 0%nat
       | Some _ => Err Unsupported
       end
     else
       match dc_authorizing_device body with
       | Some encoded =>
           match remaining with
           | O => Err Framing
           | S k =>
               _ ← fail_if (MAX_ENCODED_CREDENTIAL <? slen encoded) Framing;
               bytes ← ok_or (base64_decode encoded) Json;
               parent ← verify_at_depth k bytes root;
               _ ← verify_signature record (vc_key parent);
               Ok (S (delegation_depth parent))
           end
       | None => Err Unsupported
       end);
  key ← credential_keys body;
  mret {| vc_record := record; vc_body := body; vc_key := key; delegation_depth := depth |}.

Definition verify (bytes trusted_root : string) : result RecordError VerifiedCredential :=
  verify_at_depth MAX_COMPANION_DEPTH bytes trusted_root.

Definition vc_id (c : VerifiedCredential) : RecordId := record_id (vc_record c).
Definition vc_identity (c : VerifiedCredential) : IdentityId := dc_identity_id (vc_body c).
(** The parsed recipient of a verified credential is its canonical text. *)
Definition vc_recipient (c : VerifiedCredential) : string := dc_age_recipient (vc_body c).
(** [credential.record().body()["root_public_key"]] *)
Definition vc_root_value (c : VerifiedCredential) : value :=
  value_index (sr_body (vc_record c)) "root_public_key".

Definition authorizing_device (c : VerifiedCredential) : option RecordId :=
  encoded ← dc_authorizing_device (vc_body c);
  bytes ← base64_decode encoded;
  r ← to_option (parse bytes);
  Some (record_id r).

Definition can_issue_companion (c : VerifiedCredential) : bool :=
  bool_decide (delegation_depth c < MAX_COMPANION_DEPTH)%nat.

Definition verify_chat {SC : Serde ChatMessage} (c : VerifiedCredential) (r : SignedRecord)
    : result RecordError ChatMessage :=
  m ← chat r;
  _ ← fail_if ((issuer_credential m =/= vc_id c) || (issuer_identity m =/= vc_identity c))
        AuthorityError;
  _ ← verify_signature r (vc_key c);
  mret m.

(** [DeviceCredential::issue]; [entropy] feeds [random_hex::<16>]. *)
Definition issue (root_key signing_key recipient : string) (entropy : option string)
    : result RecordError VerifiedCredential :=
  nonce ← random_hex entropy;
  let root := ed25519_verifying_key root_key in
  record ← sign (to_vec
    {| dc_v := 1; dc_kind := "device.credential"; dc_nonce := nonce;
       dc_identity_id := identity_of_root_key root;
       dc_root_public_key := encode_hex root;
       dc_signing_public_key := encode_hex signing_key;
       dc_age_recipient := recipient;
       dc_authorizing_device := None |}) root_key;
  verify (sr_bytes record) root.

Definition issue_companion (authorizer : VerifiedCredential)
    (authorizing_key signing_key recipient : string) (entropy : option string)
    : result RecordError VerifiedCredential :=
  _ ← fail_if (negb (can_issue_companion authorizer)
               || (vc_key authorizer =/= ed25519_verifying_key authorizing_key)) AuthorityError;
  raw ← hex 32 (dc_root_public_key (vc_body authorizer));
  root ← ok_or (vk_from_bytes raw) Signature;
  nonce ← random_hex entropy;
  record ← sign (to_vec
    {| dc_v := 2; dc_kind := "device.credential"; dc_nonce := nonce;
       dc_identity_id := vc_identity authorizer;
       dc_root_public_key := dc_root_public_key (vc_body authorizer);
       dc_signing_public_key := encode_hex signing_key;
       dc_age_recipient := recipient;
       dc_authorizing_device := Some (base64_encode (sr_bytes (vc_record authorizer))) |})
    authorizing_key;
  verify (sr_bytes record) root.

(** ** Revocation *)

Context {SR : Serde DeviceRevocation}.

Definition revocation_issue (root_key : string) (credential : VerifiedCredential)
    (entropy : option string) : result RecordError SignedRecord :=
  _ ← fail_if (vc_identity credential
               =/= identity_of_root_key (ed25519_verifying_key root_key)) AuthorityError;
  nonce ← random_hex entropy;
  sign (to_vec
    {| dr_v := 1; dr_kind := "device.revoked"; dr_nonce := nonce;
       dr_credential := base64_encode (sr_bytes (vc_record credential));
       dr_authorizing_device := None |}) root_key.

Definition issue_from_device (authorizer : VerifiedCredential) (key : string)
    (target : VerifiedCredential) (entropy : option string) : result RecordError SignedRecord :=
  _ ← fail_if ((vc_identity authorizer =/= vc_identity target)
               || (vc_id authorizer === vc_id target)
               || (vc_key authorizer =/= ed25519_verifying_key key)) AuthorityError;
  nonce ← random_hex entropy;
  sign (to_vec
    {| dr_v := 2; dr_kind := "device.revoked"; dr_nonce := nonce;
       dr_credential := base64_encode (sr_bytes (vc_record target));
       dr_authorizing_device := Some (base64_encode (sr_bytes (vc_record authorizer))) |}) key.

Definition revocation_verify_inner (signed : SignedRecord)
    (requester : option VerifiedCredential) : result RecordError VerifiedCredential :=
  body ← decode signed;
  _ ← fail_if (negb (contains [1; 2] (dr_v body)) || (dr_kind body =/= "device.revoked"))
        Unsupported;
  _ ← hex 16 (dr_nonce body);
  bytes ← ok_or (base64_decode (dr_credential body)) Json;
  candidate ← parse bytes;
  claimed ← decode (T := DeviceCredential) candidate;
  raw ← hex 32 (dc_root_public_key claimed);
  root ← ok_or (vk_from_bytes raw) Signature;
  credential ← verify bytes root;
  _ ← (if dr_v body =? 1 then
         match dr_authorizing_device body with
         | None => verify_signature signed root
         | Some _ => Err Unsupported
         end
       else
         match dr_authorizing_device body with
         | Some encoded =>
             _ ← fail_if (MAX_ENCODED_CREDENTIAL <? slen encoded) Framing;
             bytes ← ok_or (base64_decode encoded) Json;
             authorizer ← verify bytes root;
             _ ← fail_if ((vc_id authorizer === vc_id credential)
                          || match requester with
                             | None => false
                             | Some q => vc_id q =/= vc_id authorizer
                             end) AuthorityError;
             verify_signature signed (vc_key authorizer)
         | None => Err Unsupported
         end);
  _ ← fail_if match requester with
              | None => false
              | Some q => (vc_identity q =/= vc_identity credential)
                          || (vc_id q === vc_id credential)
              end AuthorityError;
  mret credential.

Definition revocation_verify (signed : SignedRecord) := revocation_verify_inner signed None.
Definition verify_request (signed : SignedRecord) (requester : VerifiedCredential) :=
  revocation_verify_inner signed (Some requester).

End Identity.

(** * Correctness of credentials and revocations

    The verifier accepts exactly the well-formed delegation chains, an issued
    companion extends its authorizer's chain by one link, and a revocation is made by
    the root or by another device of the same identity. *)


Section IdentityFacts.
Context `{P : Platform} {SD : Serde DeviceCredential}.

(** One well-formed link of a chain under [root]. *)
Definition link_ok (root : string) (c : VerifiedCredential) : Prop :=
  parse_bounded (sr_bytes (vc_record c)) MAX_CREDENTIAL_BYTES = Ok (vc_record c)
  ∧ decode (vc_record c) = Ok (vc_body c)
  ∧ credential_body_ok (vc_body c) root = Ok tt
  ∧ credential_keys (vc_body c) = Ok (vc_key c).

(** The chains of trust: a version-1 credential signed by the root, or a version-2
    credential signed by the device whose whole credential it carries. *)
Inductive authorized (root : string) : VerifiedCredential → Prop :=
| authorized_root c :
    link_ok root c → dc_v (vc_body c) = 1 → dc_authorizing_device (vc_body c) = None →
    verify_signature (vc_record c) root = Ok tt → delegation_depth c = 0%nat →
    authorized root c
| authorized_device c parent encoded :
    authorized root parent → link_ok root c → dc_v (vc_body c) = 2 →
    dc_authorizing_device (vc_body c) = Some encoded →
    slen encoded ≤ MAX_ENCODED_CREDENTIAL →
    base64_decode encoded = Some (sr_bytes (vc_record parent)) →
    verify_signature (vc_record c) (vc_key parent) = Ok tt →
    delegation_depth c = Datatypes.S (delegation_depth parent) →
    authorized root c.

Lemma parse_bounded_bytes bytes m r : parse_bounded bytes m = Ok r → sr_bytes r = bytes.
Proof. by intros [? _]%parse_bounded_Ok. Qed.

Lemma credential_version body root u :
  credential_body_ok body root = Ok u → dc_v body = 1 ∨ dc_v body = 2.
Proof.
  unfold credential_body_ok. intros H. inv_ok.
  match goal with H : contains [1; 2] _ = true |- _ => apply contains_true in H end. set_solver.
Qed.

Lemma verify_at_depth_sound root k : ∀ bytes c,
  verify_at_depth k bytes root = Ok c →
  authorized root c ∧ sr_bytes (vc_record c) = bytes ∧ (delegation_depth c ≤ k)%nat.
Proof.
  induction k as [|k IH]; intros bytes c; cbn [verify_at_depth];
    intros (r & Hr & (body & Hbody & ([] & Hok & H)%bind_Ok)%bind_Ok)%bind_Ok;
    apply bind_Ok in H as (d & Hd & (key & Hkey & H%Ok_inj)%bind_Ok);
    pose proof (parse_bounded_bytes _ _ _ Hr) as Hb; subst bytes c;
    (destruct (N.eqb_spec (dc_v body) 1) as [Hv|Hv];
      destruct (dc_authorizing_device body) as [encoded|] eqn:Ha; try discriminate).
  - apply bind_Ok in Hd as ([] & Hs & [= <-]). split; [|done].
    by apply authorized_root.
  - apply bind_Ok in Hd as ([] & Hs & [= <-]). split; [|split; [done|cbn; lia]].
    by apply authorized_root.
  - apply bind_Ok in Hd as (u & Hl%fail_if_Ok & (pb & Hpb%ok_or_Ok & H)%bind_Ok).
    apply bind_Ok in H as (parent & Hp & ([] & Hs & [= <-])%bind_Ok).
    apply IH in Hp as (Hauth & <- & Hdepth). split; [|split; [done|cbn; lia]].
    eapply authorized_device; try done; [|by apply N.ltb_ge].
    cbn. by destruct (credential_version _ _ _ Hok).
Qed.

Lemma verify_at_depth_complete root c :
  authorized root c → ∀ k, (delegation_depth c ≤ k)%nat →
  verify_at_depth k (sr_bytes (vc_record c)) root = Ok c.
Proof.
  induction 1 as [c (Hr & Hd & Hok & Hkey) Hv Ha Hs Hdepth
                 |c parent encoded _ IH (Hr & Hd & Hok & Hkey) Hv Ha Hl Hb Hs Hdepth];
    intros k Hk; destruct c as [r body key d]; cbn in *; subst.
  - destruct k; cbn [verify_at_depth]; rewrite Hr; cbn [mbind result_bind]; rewrite Hd;
      cbn [mbind result_bind]; rewrite Hok, Ha, Hv; cbn; rewrite Hs; cbn; by rewrite Hkey.
  - destruct k as [|k]; [lia|]. cbn [verify_at_depth]. rewrite Hr. cbn [mbind result_bind].
    rewrite Hd. cbn [mbind result_bind]. rewrite Hok, Ha, Hv. cbn.
    rewrite (proj2 (N.ltb_ge _ _) Hl), Hb. cbn. rewrite IH by lia. cbn. rewrite Hs. cbn.
    by rewrite Hkey.
Qed.

(** A credential verifies under a trusted root exactly when its bytes are the last
    link of a chain of well-formed credentials, each at most 8 KiB, that starts with one
    the root signed and has at most four delegations, every link signed by the device
    before it. *)
Theorem verify_exact bytes root c :
  verify bytes root = Ok c ↔
  authorized root c ∧ sr_bytes (vc_record c) = bytes
  ∧ (delegation_depth c ≤ MAX_COMPANION_DEPTH)%nat.
Proof.
  unfold verify. split; [apply verify_at_depth_sound|].
  intros (Ha & <- & Hd). by apply verify_at_depth_complete.
Qed.

(** ** Identities *)

Lemma link_identity root c : link_ok root c → vc_identity c = identity_of_root_key root.
Proof.
  intros (_ & _ & Hok & _). unfold credential_body_ok in Hok. unfold vc_identity. by inv_ok.
Qed.

Lemma authorized_link root c : authorized root c → link_ok root c.
Proof. by destruct 1. Qed.

Lemma authorized_identity root c :
  authorized root c → vc_identity c = identity_of_root_key root.
Proof. intros. by apply link_identity, authorized_link. Qed.

Lemma link_root root c :
  link_ok root c → parse_hex 32 (dc_root_public_key (vc_body c)) = Some root.
Proof.
  intros (_ & _ & Hok & _). unfold credential_body_ok, hex in Hok. inv_ok.
  by match goal with H : parse_hex 32 _ = Some _ |- _ => rewrite H end.
Qed.

Lemma strict_json_value body m v :
  strict_json body m = Ok v → (json_from_slice body ≫= strict) = Some v.
Proof. unfold strict_json. intros H. by inv_ok. Qed.

(** The size bound decides acceptance, not the record. *)
Lemma parse_bounded_agree bytes m m' r r' :
  parse_bounded bytes m = Ok r → parse_bounded bytes m' = Ok r' → r = r'.
Proof.
  unfold parse_bounded. intros H H'. apply bind_Ok in H as (u1 & _ & H).
  apply bind_Ok in H as (u2 & _ & (v & Hv%strict_json_value & H)%bind_Ok).
  apply bind_Ok in H' as (u3 & _ & H').
  apply bind_Ok in H' as (u4 & _ & (v' & Hv'%strict_json_value & H')%bind_Ok).
  inv_ok. congruence.
Qed.

(** ** Issuing a companion *)

(** serde's round trip on one value: what was written decodes to it. *)
Definition serde_round_trip {T} `{Serde T} (t : T) : Prop :=
  ∀ v m, strict_json (to_vec t) m = Ok v → from_value v = Some t.

(** The body [issue_companion] signs. *)
Definition companion_body (authorizer : VerifiedCredential) (nonce signing_key recipient : string)
    : DeviceCredential :=
  {| dc_v := 2; dc_kind := "device.credential"; dc_nonce := nonce;
     dc_identity_id := vc_identity authorizer;
     dc_root_public_key := dc_root_public_key (vc_body authorizer);
     dc_signing_public_key := encode_hex signing_key;
     dc_age_recipient := recipient;
     dc_authorizing_device := Some (base64_encode (sr_bytes (vc_record authorizer))) |}.

(** The parent of a version-2 credential is the device whose bytes it carries. *)
Lemma authorized_companion_parent {L : PlatformLaws P} root c parent :
  authorized root parent → authorized root c →
  dc_v (vc_body c) = 2 →
  dc_authorizing_device (vc_body c) = Some (base64_encode (sr_bytes (vc_record parent))) →
  delegation_depth c = Datatypes.S (delegation_depth parent)
  ∧ vc_identity c = vc_identity parent
  ∧ verify_signature (vc_record c) (vc_key parent) = Ok tt.
Proof.
  intros Hp Hc Hv Ha. rewrite (authorized_identity _ _ Hp), (authorized_identity _ _ Hc).
  destruct Hc as [c Hl Hv' _ _ _|c q enc Hq Hl _ Ha' _ Hb Hs Hd]; [congruence|].
  rewrite Ha in Ha'. injection Ha' as <-. rewrite base64_round_trip in Hb.
  injection Hb as Hb.
  set (k := max (delegation_depth q) (delegation_depth parent)).
  pose proof (verify_at_depth_complete root q Hq k ltac:(lia)) as H1.
  pose proof (verify_at_depth_complete root parent Hp k ltac:(lia)) as H2.
  rewrite Hb in H2. assert (q = parent) as -> by congruence. done.
Qed.

Lemma sign_decode {T} {ST : Serde T} {L : PlatformLaws P} (t : T) key r :
  sign (to_vec t) key = Ok r → serde_round_trip t → decode r = Ok t.
Proof.
  intros (_ & Hj & _)%sign_bounded_Ok Ht. unfold decode. by rewrite (Ht _ _ Hj).
Qed.

(** A companion credential issued by an authorized device carries the requested
    key and recipient, belongs to the same identity, names its authorizer, and lies
    exactly one delegation below it; a device already four delegations deep, or a key
    that is not the authorizer's, issues nothing. *)
Theorem issue_companion_extends {L : PlatformLaws P} authorizer root authorizing_key
    signing_key recipient entropy c
    (Hauth : authorized root authorizer)
    (Hserde : ∀ nonce, random_hex entropy = Ok nonce →
       serde_round_trip (companion_body authorizer nonce signing_key recipient))
    (Hissue : issue_companion authorizer authorizing_key signing_key recipient entropy = Ok c) :
  authorized root c
  ∧ delegation_depth c = Datatypes.S (delegation_depth authorizer)
  ∧ (delegation_depth c ≤ MAX_COMPANION_DEPTH)%nat
  ∧ vc_key authorizer = ed25519_verifying_key authorizing_key
  ∧ vc_identity c = vc_identity authorizer
  ∧ vc_recipient c = recipient
  ∧ hex 32 (encode_hex signing_key) = Ok (vc_key c).
Proof.
  unfold issue_companion in Hissue.
  apply bind_Ok in Hissue as (u & Hcan%fail_if_Ok & (raw & Hraw & H)%bind_Ok).
  apply bind_Ok in H as (rk & Hrk%ok_or_Ok & (nonce & Hn & (r & Hsign & Hv)%bind_Ok)%bind_Ok).
  pose proof (link_root _ _ (authorized_link _ _ Hauth)) as Hroot.
  unfold hex in Hraw. rewrite Hroot in Hraw. injection Hraw as <-.
  unfold vk_from_bytes in Hrk. destruct (ed25519_valid root); [|done]. injection Hrk as <-.
  apply verify_exact in Hv as (Hc & Hbytes & Hdepth).
  pose proof (sign_decode _ _ _ Hsign (Hserde nonce Hn)) as Hdec.
  pose proof (authorized_link _ _ Hc) as (Hparse & Hdec' & _ & Hkeys).
  rewrite Hbytes in Hparse.
  apply sign_bounded_Ok in Hsign as (_ & _ & Hparse' & _).
  pose proof (parse_bounded_agree _ _ _ _ _ Hparse Hparse') as Hrec. subst r.
  assert (vc_body c = companion_body authorizer nonce signing_key recipient) as Hbody.
  { pose proof (eq_trans (eq_sym Hdec') Hdec) as [= ->]. done. }
  apply orb_false_iff in Hcan as [_ Hkey%bool_decide_eq_negb_false].
  pose proof (authorized_companion_parent root c authorizer Hauth Hc) as (Hd & Hid & _);
    [by rewrite Hbody..|].
  split; [done|]. split; [done|]. split; [done|]. split; [done|]. split; [done|].
  unfold vc_recipient. rewrite Hbody in Hkeys |- *. split; [done|].
  unfold credential_keys in Hkeys. cbn [companion_body dc_signing_public_key] in Hkeys.
  apply bind_Ok in Hkeys as (raw & -> & H). unfold vk_from_bytes in H.
  destruct (ed25519_valid raw); [|discriminate]. cbn in H. by inv_ok.
Qed.

(** ** Revocation *)

Context {SR : Serde DeviceRevocation}.

(** Who may revoke [target]: its root, or another device of its identity; a
    [requester] that presents the revocation must be that device. *)
Definition may_revoke (signed : SignedRecord) (root : string)
    (requester : option VerifiedCredential) (target : VerifiedCredential) : Prop :=
  verify_signature signed root = Ok tt
  ∨ ∃ authorizer, authorized root authorizer
      ∧ vc_id authorizer ≠ vc_id target
      ∧ vc_identity authorizer = vc_identity target
      ∧ verify_signature signed (vc_key authorizer) = Ok tt
      ∧ ∀ q, requester = Some q → vc_id q = vc_id authorizer.

(** A revocation that verifies names one authorized credential, is signed by the
    root of that credential or by another authorized device of the same identity, and is
    never accepted from the device it revokes or from another identity. *)
Theorem revocation_exact signed requester :
  match revocation_verify_inner signed requester with
  | Ok target =>
      ∃ root, authorized root target ∧ may_revoke signed root requester target
        ∧ ∀ q, requester = Some q →
            vc_identity q = vc_identity target ∧ vc_id q ≠ vc_id target
  | Err _ => True
  end.
Proof.
  destruct (revocation_verify_inner signed requester) as [target|e] eqn:H; [|done].
  unfold revocation_verify_inner in H.
  apply bind_Ok in H as (body & Hbody & (u1 & Hv%fail_if_Ok & (n & Hn & H)%bind_Ok)%bind_Ok).
  apply bind_Ok in H as (bytes & Hb%ok_or_Ok & (cand & Hcand & (claimed & Hcl & H)%bind_Ok)%bind_Ok).
  apply bind_Ok in H as (raw & Hraw & (root & Hroot & (cred & Hcred & H)%bind_Ok)%bind_Ok).
  apply bind_Ok in H as ([] & Hsig & (u2 & Hreq%fail_if_Ok & H%Ok_inj)%bind_Ok). subst cred.
  apply verify_exact in Hcred as (Hauth & _ & _).
  exists root. split; [done|]. split.
  - destruct (N.eqb_spec (dr_v body) 1) as [_|_];
      destruct (dr_authorizing_device body) as [enc|]; try discriminate; [by left|].
    apply bind_Ok in Hsig as (u3 & _ & (pb & _ & (au & Hau & H)%bind_Ok)%bind_Ok).
    apply verify_exact in Hau as (Hau & _ & _).
    apply bind_Ok in H as (u4 & Hne%fail_if_Ok & Hs).
    apply orb_false_iff in Hne as [Hne%bool_decide_eq_false Hq].
    right. exists au. rewrite (authorized_identity _ _ Hau), (authorized_identity _ _ Hauth).
    repeat split; try done. intros q ->. by apply bool_decide_eq_negb_false in Hq.
  - intros q ->. by inv_ok.
Qed.

End IdentityFacts.
