(* ===== verification/AuthorityData.v ===== *)
(** * Authority data (crates/elo-core/src/authority.rs and its submodules)

    The records signed into a Space's authority, the in-memory [Authority], its
    read accessors, and the walks along the configuration chain. *)

From S2P Require Import Prelude Platform Ids Record Chat Identity.

Record Owner := { ow_identity_id : IdentityId; ow_root_public_key : string }.

Record WitnessPin := { wp_url : string; wp_public_key : string; wp_key_generation : N }.
#[global] Instance WitnessPin_eq_dec : EqDecision WitnessPin.
Proof. solve_decision. Defined.

Record SpaceGenesis := {
  sg_v : N;
  sg_kind : string;
  sg_nonce : string;
  sg_issuer_identity : IdentityId;
  sg_owners : list Owner;
  sg_controller_credential_id : RecordId;
  sg_witness : option WitnessPin;
}.

Inductive Capability := Read | Post | ShareHistory | Manage | Replicate.
#[global] Instance Capability_eq_dec : EqDecision Capability.
Proof. solve_decision. Defined.
(** The derived [Ord] is the order of the constructors. *)
Definition capability_index (c : Capability) : N :=
  match c with Read => 0 | Post => 1 | ShareHistory => 2 | Manage => 3 | Replicate => 4 end.
Definition capability_ltb (a b : Capability) : bool := capability_index a <? capability_index b.

Record Member := {
  m_identity_id : IdentityId;
  m_identity_type : string;
  m_root_public_key : string;
  m_capabilities : list Capability;
  m_credential_ids : list RecordId;
  m_external : bool;
}.
#[global] Instance Member_eq_dec : EqDecision Member.
Proof. solve_decision. Defined.

Record ConfigAction := {
  ca_operation : string;
  ca_actor_identity : IdentityId;
  ca_request_record_id : option RecordId;
}.
#[global] Instance ConfigAction_eq_dec : EqDecision ConfigAction.
Proof. solve_decision. Defined.

Inductive ChatKind := KChat | KDirect.
#[global] Instance ChatKind_eq_dec : EqDecision ChatKind.
Proof. solve_decision. Defined.

(** ** Witness evidence (authority/witness.rs, authority/witness/durable.rs) *)

Record WitnessAdmissionEvidence := {
  ae_policy : string;
  ae_challenge : string;
  ae_device_intent : string;
  ae_invitation_intent : string;
  ae_contact : string;
  ae_approval : option string;
  ae_admitted_at_ms : N;
}.
#[global] Instance WitnessAdmissionEvidence_eq_dec : EqDecision WitnessAdmissionEvidence.
Proof. solve_decision. Defined.

Record WitnessJoinRequestEvidence := {
  jr_policy : string;
  jr_device_request : string;
  jr_invitation_request : string;
  jr_contact : string;
}.
#[global] Instance WitnessJoinRequestEvidence_eq_dec : EqDecision WitnessJoinRequestEvidence.
Proof. solve_decision. Defined.

Record WitnessAdmissionEvidenceV2 := {
  a2_request : WitnessJoinRequestEvidence;
  a2_challenge : string;
  a2_device_intent : string;
  a2_invitation_intent : string;
  a2_approval : option string;
  a2_admitted_at_ms : N;
}.
#[global] Instance WitnessAdmissionEvidenceV2_eq_dec : EqDecision WitnessAdmissionEvidenceV2.
Proof. solve_decision. Defined.

Inductive WitnessConfigEvidence :=
| OwnerProposal (proposal : string)
| AdmissionEv (evidence : WitnessAdmissionEvidence)
| AdmissionEvV2 (evidence : WitnessAdmissionEvidenceV2).
#[global] Instance WitnessConfigEvidence_eq_dec : EqDecision WitnessConfigEvidence.
Proof. solve_decision. Defined.

Record StreamConfig := {
  sc_v : N;
  sc_kind : string;
  sc_nonce : string;
  sc_space_id : SpaceId;
  sc_stream_id : StreamId;
  sc_sequence : N;
  sc_previous_config_id : option RecordId;
  sc_controller_credential_id : RecordId;
  sc_members : list Member;
  sc_owner_credential_ids : list RecordId;
  sc_action : ConfigAction;
  sc_chat_kind : option ChatKind;
  sc_recovery : option string;
  sc_witness_evidence : option WitnessConfigEvidence;
}.
#[global] Instance StreamConfig_eq_dec : EqDecision StreamConfig.
Proof. solve_decision. Defined.

Record ControllerRecovery := {
  cr_v : N;
  cr_kind : string;
  cr_nonce : string;
  cr_space_id : SpaceId;
  cr_sequence : N;
  cr_previous_recovery_id : option RecordId;
  cr_previous_controller_credential_id : RecordId;
  cr_controller_credential_id : RecordId;
}.

Record Checkpoint := {
  cp_v : N;
  cp_kind : string;
  cp_space_id : SpaceId;
  cp_stream_id : StreamId;
  cp_controller_credential_id : RecordId;
  cp_config_id : RecordId;
  cp_sequence : N;
  cp_ancestry : list RecordId;
  cp_recovery : list string;
}.
#[global] Instance Checkpoint_eq_dec : EqDecision Checkpoint.
Proof. solve_decision. Defined.

Record CheckpointEvidence := { ce_ancestry : list RecordId; ce_recovery : list SignedRecord }.

Inductive ConfigAdmission := Applied | Historical | AlreadyPresent | WaitingForProof | Forked.
#[global] Instance ConfigAdmission_eq_dec : EqDecision ConfigAdmission.
Proof. solve_decision. Defined.

Inductive Admission := Accepted | AdmWaitingForProof | QuarantinedStale | AdmForked.
#[global] Instance Admission_eq_dec : EqDecision Admission.
Proof. solve_decision. Defined.

Record Authority := {
  genesis : SignedRecord;
  gbody : SpaceGenesis;
  stream : StreamId;
  credentials : gmap RecordId VerifiedCredential;
  configs : gmap RecordId (SignedRecord * StreamConfig);
  head : option RecordId;
  forked : bool;
  persisted_snapshot : option ObjectId;
  checkpoint_evidence : option CheckpointEvidence;
  cached_checkpoint : option SignedRecord;
}.

(** serde instances of every signed schema of the authority. *)
Class AuthoritySerde := {
  serde_credential :: Serde DeviceCredential;
  serde_genesis :: Serde SpaceGenesis;
  serde_config :: Serde StreamConfig;
  serde_recovery :: Serde ControllerRecovery;
  serde_checkpoint :: Serde Checkpoint;
  serde_chat :: Serde ChatMessage;
}.

(** ** Field updates: the assignments [self.field = value] of the source *)

Definition set_credentials (a : Authority) (c : gmap RecordId VerifiedCredential) : Authority :=
  {| genesis := genesis a; gbody := gbody a; stream := stream a; credentials := c;
     configs := configs a; head := head a; forked := forked a;
     persisted_snapshot := persisted_snapshot a;
     checkpoint_evidence := checkpoint_evidence a; cached_checkpoint := cached_checkpoint a |}.
Definition set_configs (a : Authority) (c : gmap RecordId (SignedRecord * StreamConfig)) : Authority :=
  {| genesis := genesis a; gbody := gbody a; stream := stream a; credentials := credentials a;
     configs := c; head := head a; forked := forked a;
     persisted_snapshot := persisted_snapshot a;
     checkpoint_evidence := checkpoint_evidence a; cached_checkpoint := cached_checkpoint a |}.
Definition set_head (a : Authority) (h : option RecordId) (f : bool) : Authority :=
  {| genesis := genesis a; gbody := gbody a; stream := stream a; credentials := credentials a;
     configs := configs a; head := h; forked := f;
     persisted_snapshot := persisted_snapshot a;
     checkpoint_evidence := checkpoint_evidence a; cached_checkpoint := cached_checkpoint a |}.
Definition set_checkpoint (a : Authority) (e : option CheckpointEvidence)
    (c : option SignedRecord) : Authority :=
  {| genesis := genesis a; gbody := gbody a; stream := stream a; credentials := credentials a;
     configs := configs a; head := head a; forked := forked a;
     persisted_snapshot := persisted_snapshot a;
     checkpoint_evidence := e; cached_checkpoint := c |}.

Section Accessors.
Context `{P : Platform} {S : AuthoritySerde}.

(** The genesis record ID re-read as a Space ID of the same width. *)
Definition space (a : Authority) : SpaceId :=
  let id := record_id (genesis a) in default id (parse_hex 32 (display id)).

Definition head_config (a : Authority) : result RecordError StreamConfig :=
  ok_or (id ← head a; snd <$> configs a !! id) AuthorityError.
Definition is_owner_managed (a : Authority) : bool := contains [2; 4] (sg_v (gbody a)).
Definition primary_owner_identity (a : Authority) : result RecordError IdentityId :=
  _ ← fail_if (negb (is_owner_managed a)) AuthorityError;
  mret (sg_issuer_identity (gbody a)).
Definition can_manage (a : Authority) (credential : RecordId) : bool :=
  negb (forked a) &&
  match head_config a with
  | Ok h =>
      if is_owner_managed a then contains (sc_owner_credential_ids h) credential
      else sc_controller_credential_id h === credential
  | Err _ => false
  end.
Definition credential (a : Authority) (id : RecordId) : result RecordError VerifiedCredential :=
  ok_or (credentials a !! id) AuthorityError.
Definition config_record (a : Authority) (id : RecordId) : result RecordError SignedRecord :=
  ok_or (fst <$> configs a !! id) AuthorityError.
Definition config (a : Authority) (id : RecordId) : result RecordError StreamConfig :=
  ok_or (snd <$> configs a !! id) AuthorityError.
(** [&self.credentials[&id]] panics without the credential; [None] here. *)
Definition controller_id (a : Authority) : RecordId :=
  match head_config a with
  | Ok c => sc_controller_credential_id c
  | Err _ => sg_controller_credential_id (gbody a)
  end.
Definition controller (a : Authority) : option VerifiedCredential :=
  credentials a !! controller_id a.
Definition initial_controller (a : Authority) : option VerifiedCredential :=
  credentials a !! sg_controller_credential_id (gbody a).
Definition add_credential (a : Authority) (c : VerifiedCredential) : Authority :=
  set_credentials a (<[vc_id c := c]> (credentials a)).
Definition witness_pin (a : Authority) : option WitnessPin := sg_witness (gbody a).
Definition has_membership_approval (a : Authority) (proof : RecordId) : bool :=
  existsb (λ rc, (ca_operation (sc_action rc.2) === "invite.approved")
                 && (ca_request_record_id (sc_action rc.2) === Some proof))
    (btree_values (configs a)).

Definition has_capability (m : Member) (cap : Capability) : bool := contains (m_capabilities m) cap.

(** authority.rs [has] *)
Definition has (a : Authority) (cfg : RecordId) (identity : IdentityId) (cap : Capability) : bool :=
  match config a cfg with
  | Ok c => existsb (λ m, (m_identity_id m === identity) && has_capability m cap) (sc_members c)
  | Err _ => false
  end.

(** The loop [while let Some(id) = cursor { ..; cursor = config.previous }]
    collecting the visited configurations, newest first. [None] is a walk the
    given fuel does not finish. *)
Fixpoint walk (fuel : nat) (a : Authority) (cursor : option RecordId)
    : option (result RecordError (list (RecordId * StreamConfig))) :=
  match cursor with
  | None => Some (mret [])
  | Some id =>
      match fuel with
      | O => None
      | Datatypes.S fuel =>
          match config a id with
          | Err e => Some (Err e)
          | Ok c =>
              match walk fuel a (sc_previous_config_id c) with
              | None => None
              | Some rest => Some (cons (id, c) <$> rest)
              end
          end
      end
  end.

(** One more than the number of stored configurations always suffices on a
    well-formed authority ([AuthorityInv.ancestry_terminates]). *)
Definition walk_fuel (a : Authority) : nat := Datatypes.S (size (configs a)).
Definition ancestry_from (a : Authority) (cursor : option RecordId)
    : result RecordError (list (RecordId * StreamConfig)) :=
  default (Err AuthorityError) (walk (walk_fuel a) a cursor).
(** authority/witness.rs [witness_ancestry] *)
Definition witness_ancestry (a : Authority) := ancestry_from a (head a).

(** authority/recovery.rs [embedded] *)
Definition embedded (c : StreamConfig) : result RecordError (option SignedRecord) :=
  transpose ((λ s,
    _ ← fail_if (8192 <? slen s) Framing;
    b ← ok_or (base64_decode s) Json;
    parse b) <$> sc_recovery c).

(** authority/witness.rs [decode]: a bounded base64 record. *)
Definition decode_b64 (s : string) : result RecordError SignedRecord :=
  _ ← fail_if ((MAX_RECORD + 2) / 3 * 4 <? slen s) Framing;
  b ← ok_or (base64_decode s) Json;
  parse b.

(** authority/witness.rs [public_key] *)
Definition public_key (s : string) : result RecordError string :=
  raw ← hex 32 s;
  key ← ok_or (vk_from_bytes raw) Signature;
  _ ← fail_if (ed25519_weak key) Signature;
  mret key.

(** [WitnessPin::key] and [WitnessPin::validate] *)
Definition pin_key (p : WitnessPin) : result RecordError string := public_key (wp_public_key p).
Definition pin_validate (p : WitnessPin) : result RecordError unit :=
  u ← ok_or (url_parse (wp_url p)) AuthorityError;
  _ ← fail_if ((2048 <? slen (wp_url p))
               || negb (trim (chars (wp_url p)) === chars (wp_url p))
               || existsb is_control (chars (wp_url p))
               || (url_scheme u =/= "https")
               || negb (bool_decide (is_Some (url_host u)))
               || (url_username u =/= "")
               || bool_decide (is_Some (url_password u))
               || bool_decide (is_Some (url_query u))
               || bool_decide (is_Some (url_fragment u))
               || (wp_key_generation p =? 0)
               || (MAX_INTEGER <? wp_key_generation p)) AuthorityError;
  _ ← pin_key p;
  mret tt.

End Accessors.
