(* ===== verification/AuthorityWitness.v ===== *)
(** * Witnessed membership (crates/elo-core/src/authority/witness.rs, witness/durable.rs)

    The evidence a version-4 authority demands for every configuration after the
    first: an owner's proposal, or an admission backed by an invitation policy,
    a witness challenge, the candidate's intent and an optional owner approval. *)

From S2P Require Import Prelude Platform Ids Record Chat Identity AuthorityData.

Definition MAX_CHALLENGE_MS : N := 120000.
Definition MAX_REQUEST_MS : N := 24 * 60 * 60 * 1000.

Record WitnessInvitationPolicy := {
  ip_v : N; ip_kind : string; ip_nonce : string;
  ip_space_id : SpaceId; ip_stream_id : StreamId;
  ip_authority_head : RecordId; ip_issuer_credential_id : RecordId;
  ip_invitation_public_key : string;
  ip_not_before_ms : N; ip_expires_at_ms : N;
  ip_require_approval : bool; ip_max_uses : N; ip_witness_key_generation : N;
}.

Record WitnessChallenge := {
  wc_v : N; wc_kind : string; wc_nonce : string; wc_client_nonce : string;
  wc_space_id : SpaceId; wc_stream_id : StreamId;
  wc_policy_id : RecordId; wc_credential_id : RecordId;
  wc_issued_at_ms : N; wc_expires_at_ms : N; wc_witness_key_generation : N;
}.

Record WitnessAdmissionIntent := {
  ai_v : N; ai_kind : string; ai_nonce : string;
  ai_space_id : SpaceId; ai_stream_id : StreamId;
  ai_policy_id : RecordId; ai_challenge_id : RecordId;
  ai_credential_id : RecordId; ai_contact_id : RecordId;
}.

Record WitnessApproval := {
  wa_v : N; wa_kind : string; wa_nonce : string;
  wa_space_id : SpaceId; wa_stream_id : StreamId;
  wa_authority_head : RecordId; wa_issuer_credential_id : RecordId;
  wa_intent_id : RecordId; wa_readmission : bool;
}.

Record WitnessJoinRequest := {
  wj_v : N; wj_kind : string; wj_nonce : string;
  wj_space_id : SpaceId; wj_stream_id : StreamId;
  wj_policy_id : RecordId; wj_credential_id : RecordId; wj_contact_id : RecordId;
  wj_issued_at_ms : N; wj_expires_at_ms : N; wj_witness_key_generation : N;
}.

Record WitnessApprovalV2 := {
  w2_v : N; w2_kind : string; w2_nonce : string;
  w2_space_id : SpaceId; w2_stream_id : StreamId;
  w2_authority_head : RecordId; w2_issuer_credential_id : RecordId;
  w2_request_id : RecordId; w2_readmission : bool; w2_expires_at_ms : N;
}.

Record WitnessChallengeV2 := {
  c2_v : N; c2_kind : string; c2_nonce : string; c2_client_nonce : string;
  c2_space_id : SpaceId; c2_stream_id : StreamId;
  c2_policy_id : RecordId; c2_credential_id : RecordId;
  c2_request_id : RecordId; c2_authority_head : RecordId;
  c2_issued_at_ms : N; c2_expires_at_ms : N; c2_witness_key_generation : N;
}.

Record WitnessAdmissionIntentV2 := {
  i2_v : N; i2_kind : string; i2_nonce : string;
  i2_space_id : SpaceId; i2_stream_id : StreamId;
  i2_policy_id : RecordId; i2_request_id : RecordId; i2_challenge_id : RecordId;
  i2_credential_id : RecordId; i2_contact_id : RecordId;
}.

(** invite/shared.rs [WakeRoute] and [Contact] *)
Record WakeRoute := {
  wr_endpoint : string; wr_id : string; wr_notify_key : string;
  wr_scope_key : string; wr_since : N;
}.
Record Contact := {
  ct_wake : option WakeRoute;
  ct_v : N; ct_kind : string; ct_nonce : string;
  ct_issuer_identity : IdentityId; ct_issuer_credential : RecordId;
  ct_name : string; ct_expires_at : N;
}.

Class WitnessSerde := {
  serde_policy :: Serde WitnessInvitationPolicy;
  serde_challenge :: Serde WitnessChallenge;
  serde_intent :: Serde WitnessAdmissionIntent;
  serde_approval :: Serde WitnessApproval;
  serde_join_request :: Serde WitnessJoinRequest;
  serde_approval_v2 :: Serde WitnessApprovalV2;
  serde_challenge_v2 :: Serde WitnessChallengeV2;
  serde_intent_v2 :: Serde WitnessAdmissionIntentV2;
  serde_contact :: Serde Contact;
}.

Record AdmissionApproval := {
  aa_signed : SignedRecord;
  aa_issuer : RecordId;
  aa_head : RecordId;
  aa_readmission : bool;
}.

Record ValidatedAdmission := {
  va_candidate : VerifiedCredential;
  va_policy : WitnessInvitationPolicy;
  va_policy_id : RecordId;
  va_challenge_nonce : string;
  va_request_id : RecordId;
  va_config_nonce : string;
  va_admitted_at_ms : N;
  va_approval : option AdmissionApproval;
  va_evidence : WitnessConfigEvidence;
}.

(** invite/shared.rs [name_valid] *)
Definition name_valid (name : string) : bool :=
  negb (trim (chars name) === []) && (slen name <=? 120)
  && negb (existsb is_control (chars name)).

Section Witness.
Context `{P : Platform} {S : AuthoritySerde} {W : WitnessSerde}.

(** invite/shared.rs [verify_contact] *)
Definition verify_contact (signed : SignedRecord) (candidate : VerifiedCredential) (now : N)
    : result RecordError Contact :=
  _ ← verify_signature signed (vc_key candidate);
  card ← decode signed;
  _ ← hex 16 (ct_nonce card);
  _ ← fail_if (negb (ct_v card =? 1)
               || (ct_kind card =/= "identity.contact")
               || (ct_issuer_identity card =/= vc_identity candidate)
               || (ct_issuer_credential card =/= vc_id candidate)
               || negb (name_valid (ct_name card))
               || (ct_expires_at card <=? now)) AuthorityError;
  mret card.

(** The loop of [witness_owner_at] over the ancestry, newest first. *)
Fixpoint owner_since (credential head : RecordId) (l : list (RecordId * StreamConfig))
    : result RecordError unit :=
  match l with
  | [] => Err AuthorityError
  | (id, c) :: l =>
      _ ← fail_if (negb (contains (sc_owner_credential_ids c) credential)) AuthorityError;
      if id === head then Ok tt else owner_since credential head l
  end.

Definition witness_owner_at (a : Authority) (credential head : RecordId) : result RecordError unit :=
  _ ← fail_if (forked a || negb (bool_decide (is_Some (witness_pin a)))
               || negb (can_manage a credential)) AuthorityError;
  l ← witness_ancestry a;
  owner_since credential head l.

Definition verify_witness_invitation (a : Authority) (signed : SignedRecord) (now_ms : N)
    : result RecordError WitnessInvitationPolicy :=
  pin ← ok_or (witness_pin a) AuthorityError;
  policy ← decode signed;
  _ ← hex 16 (ip_nonce policy);
  _ ← public_key (ip_invitation_public_key policy);
  _ ← fail_if (negb (ip_v policy =? 1)
               || (ip_kind policy =/= "witness.invitation")
               || (ip_space_id policy =/= space a)
               || (ip_stream_id policy =/= stream a)
               || negb (ip_witness_key_generation policy =? wp_key_generation pin)
               || (ip_max_uses policy =? 0)
               || (MAX_INTEGER <? ip_max_uses policy)
               || (ip_expires_at_ms policy <=? ip_not_before_ms policy)
               || (MAX_INTEGER <? ip_expires_at_ms policy)
               || (now_ms <? ip_not_before_ms policy)
               || (ip_expires_at_ms policy <=? now_ms)) AuthorityError;
  _ ← witness_owner_at a (ip_issuer_credential_id policy) (ip_authority_head policy);
  issuer ← credential a (ip_issuer_credential_id policy);
  _ ← verify_signature signed (vc_key issuer);
  mret policy.

(** ** The admission proper: [finish_witness_admission] *)

Definition member_of (c : StreamConfig) (identity : IdentityId) : option Member :=
  find_first (λ m, m_identity_id m === identity) (sc_members c).

(** The pair of neighbours [(newer, older)] retires a credential of [identity]. *)
Definition removal_in (identity : IdentityId)
    (pair : (RecordId * StreamConfig) * (RecordId * StreamConfig)) : option N :=
  previous ← member_of pair.2.2 identity;
  let current := member_of pair.1.2 identity in
  if existsb (λ id, match current with
                    | None => true
                    | Some m => negb (contains (m_credential_ids m) id)
                    end) (m_credential_ids previous)
  then Some (sc_sequence pair.1.2) else None.

(** Sequence of the newest configuration that dropped a credential of [identity]. *)
Definition last_removal (identity : IdentityId) (ancestry : list (RecordId * StreamConfig))
    : option N :=
  find_map (removal_in identity) (windows2 ancestry).

(** What an admitted configuration's own evidence says about its admission. *)
Definition prior_admission (c : StreamConfig)
    : result RecordError (option (N * RecordId * string * RecordId)) :=
  match sc_witness_evidence c with
  | Some (AdmissionEv prior) =>
      chr ← decode_b64 (ae_challenge prior);
      ch ← decode (T := WitnessChallenge) chr;
      pol ← decode_b64 (ae_policy prior);
      int ← decode_b64 (ae_device_intent prior);
      mret (Some (ae_admitted_at_ms prior, record_id pol, wc_nonce ch, record_id int))
  | Some (AdmissionEvV2 prior) =>
      chr ← decode_b64 (a2_challenge prior);
      ch ← decode (T := WitnessChallengeV2) chr;
      pol ← decode_b64 (jr_policy (a2_request prior));
      req ← decode_b64 (jr_device_request (a2_request prior));
      mret (Some (a2_admitted_at_ms prior, record_id pol, c2_nonce ch, record_id req))
  | _ => mret None
  end.

(** A credential or key that was ever a member cannot be admitted again. *)
Definition fresh_credential (a : Authority) (candidate : VerifiedCredential) (c : StreamConfig)
    : result RecordError unit :=
  try_fold (λ _ id,
    previous ← credential a id;
    fail_if ((id === vc_id candidate) || (vc_key previous === vc_key candidate)
             || (vc_recipient previous === vc_recipient candidate)) AuthorityError)
    tt (mjoin (m_credential_ids <$> sc_members c)).

(** The loop over the ancestry: freshness, monotone time, no replayed nonce or
    request; returns how often the policy was used. *)
Definition count_uses (a : Authority) (v : ValidatedAdmission)
    (ancestry : list (RecordId * StreamConfig)) : result RecordError N :=
  try_fold (λ uses '(_, c),
    _ ← fresh_credential a (va_candidate v) c;
    prior ← prior_admission c;
    match prior with
    | None => mret uses
    | Some (time, policy, nonce, request) =>
        _ ← fail_if ((va_admitted_at_ms v <? time) || (nonce === va_challenge_nonce v)
                     || (request === va_request_id v)) AuthorityError;
        mret (if policy === va_policy_id v then uses + 1 else uses)
    end) 0 ancestry.

Definition check_approval (a : Authority) (v : ValidatedAdmission) (removal : option N)
    : result RecordError unit :=
  let readmission := bool_decide (is_Some removal) in
  match va_approval v with
  | Some ap =>
      _ ← (if readmission then
             _ ← fail_if (negb (aa_readmission ap)) AuthorityError;
             h ← config a (aa_head ap);
             r ← ok_or removal AuthorityError;
             fail_if (sc_sequence h <? r) AuthorityError
           else Ok tt);
      _ ← witness_owner_at a (aa_issuer ap) (aa_head ap);
      issuer ← credential a (aa_issuer ap);
      verify_signature (aa_signed ap) (vc_key issuer)
  | None => fail_if (ip_require_approval (va_policy v) || readmission) AuthorityError
  end.

(** The member list with the candidate's credential added. *)
Definition push_credential (m : Member) (id : RecordId) : Member :=
  {| m_identity_id := m_identity_id m; m_identity_type := m_identity_type m;
     m_root_public_key := m_root_public_key m; m_capabilities := m_capabilities m;
     m_credential_ids := sort_ids (m_credential_ids m ++ [id]); m_external := m_external m |}.

Fixpoint update_first {A} (f : A → bool) (g : A → A) (l : list A) : list A :=
  match l with
  | [] => []
  | x :: l => if f x then g x :: l else x :: update_first f g l
  end.

Definition member_key_le (m n : Member) : Prop := String.le (m_identity_id m) (m_identity_id n).
#[export] Instance member_key_le_dec : RelDecision member_key_le.
Proof. intros m n. unfold member_key_le. apply _. Defined.

Definition admit_member (members : list Member) (candidate : VerifiedCredential)
    : result RecordError (list Member) :=
  let identity := vc_identity candidate in
  match find_first (λ m, m_identity_id m === identity) members with
  | Some _ =>
      mret (update_first (λ m, m_identity_id m === identity)
              (λ m, push_credential m (vc_id candidate)) members)
  | None =>
      root ← ok_or (value_as_str (vc_root_value candidate)) AuthorityError;
      mret (merge_sort member_key_le
        (members ++ [{| m_identity_id := identity; m_identity_type := "HUMAN";
                        m_root_public_key := root; m_capabilities := [Read; Post];
                        m_credential_ids := [vc_id candidate]; m_external := true |}]))
  end.

Definition finish_witness_admission (a : Authority) (v : ValidatedAdmission)
    : result RecordError StreamConfig :=
  parent ← head_config a;
  let candidate := va_candidate v in
  let current_member := member_of parent (vc_identity candidate) in
  _ ← fail_if match current_member with
              | None => false
              | Some m => (m_identity_type m =/= "HUMAN")
                          || (m_capabilities m =/= [Read; Post])
                          || contains (m_credential_ids m) (vc_id candidate)
              end AuthorityError;
  _ ← fail_if match current_member, authorizing_device candidate with
              | Some _, Some authorizer =>
                  negb (existsb (λ m, (m_identity_id m === vc_identity candidate)
                                      && contains (m_credential_ids m) authorizer)
                          (sc_members parent))
              | _, _ => false
              end AuthorityError;
  ancestry ← witness_ancestry a;
  uses ← count_uses a v ancestry;
  _ ← fail_if (ip_max_uses (va_policy v) <=? uses) AuthorityError;
  _ ← check_approval a v (last_removal (vc_identity candidate) ancestry);
  members ← admit_member (sc_members parent) candidate;
  sequence ← ok_or (checked_add (sc_sequence parent) 1) AuthorityError;
  actor ← credential a (sc_controller_credential_id parent);
  mret {| sc_v := sc_v parent; sc_kind := sc_kind parent; sc_nonce := va_config_nonce v;
          sc_space_id := sc_space_id parent; sc_stream_id := sc_stream_id parent;
          sc_sequence := sequence; sc_previous_config_id := head a;
          sc_controller_credential_id := sc_controller_credential_id parent;
          sc_members := members;
          sc_owner_credential_ids := sc_owner_credential_ids parent;
          sc_action := {| ca_operation := "invite.approved";
                          ca_actor_identity := vc_identity actor;
                          ca_request_record_id := Some (va_request_id v) |};
          sc_chat_kind := sc_chat_kind parent; sc_recovery := sc_recovery parent;
          sc_witness_evidence := Some (va_evidence v) |}.

(** [&intent.nonce[..32]] of a nonce already known to be 64 hexadecimal digits. *)
Definition nonce_prefix (nonce : string) : string := stake 32 nonce.

(** ** Version-1 admission: [witness_admission_config] *)

Definition witness_admission_config (a : Authority) (evidence : WitnessAdmissionEvidence)
    : result RecordError StreamConfig :=
  let at_ms := ae_admitted_at_ms evidence in
  _ ← fail_if (forked a || (MAX_INTEGER <? at_ms)) AuthorityError;
  pin ← ok_or (witness_pin a) AuthorityError;
  policy_record ← decode_b64 (ae_policy evidence);
  policy ← verify_witness_invitation a policy_record at_ms;
  challenge_record ← decode_b64 (ae_challenge evidence);
  wkey ← pin_key pin;
  _ ← verify_signature challenge_record wkey;
  challenge ← decode (T := WitnessChallenge) challenge_record;
  _ ← hex 32 (wc_nonce challenge);
  _ ← hex 32 (wc_client_nonce challenge);
  _ ← fail_if (negb (wc_v challenge =? 1)
               || (wc_kind challenge =/= "witness.challenge")
               || (wc_space_id challenge =/= space a)
               || (wc_stream_id challenge =/= stream a)
               || (wc_policy_id challenge =/= record_id policy_record)
               || negb (wc_witness_key_generation challenge =? wp_key_generation pin)
               || (wc_expires_at_ms challenge <=? wc_issued_at_ms challenge)
               || (MAX_INTEGER <? wc_expires_at_ms challenge)
               || (MAX_CHALLENGE_MS <? wc_expires_at_ms challenge - wc_issued_at_ms challenge)
               || (at_ms <? wc_issued_at_ms challenge)
               || (wc_expires_at_ms challenge <=? at_ms)) AuthorityError;
  device_record ← decode_b64 (ae_device_intent evidence);
  invitation_record ← decode_b64 (ae_invitation_intent evidence);
  _ ← fail_if (body_bytes device_record =/= body_bytes invitation_record) AuthorityError;
  intent ← decode (T := WitnessAdmissionIntent) device_record;
  _ ← hex 32 (ai_nonce intent);
  candidate ← credential a (ai_credential_id intent);
  _ ← verify_signature device_record (vc_key candidate);
  ikey ← public_key (ip_invitation_public_key policy);
  _ ← verify_signature invitation_record ikey;
  contact ← decode_b64 (ae_contact evidence);
  _ ← verify_contact contact candidate (at_ms / 1000);
  _ ← fail_if (negb (ai_v intent =? 1)
               || (ai_kind intent =/= "witness.admission")
               || (ai_space_id intent =/= space a)
               || (ai_stream_id intent =/= stream a)
               || (ai_policy_id intent =/= record_id policy_record)
               || (ai_challenge_id intent =/= record_id challenge_record)
               || (ai_credential_id intent =/= wc_credential_id challenge)
               || (ai_contact_id intent =/= record_id contact)) AuthorityError;
  approval ←
    match ae_approval evidence with
    | Some encoded =>
        signed ← decode_b64 encoded;
        body ← decode (T := WitnessApproval) signed;
        _ ← hex 16 (wa_nonce body);
        _ ← fail_if (negb (wa_v body =? 1)
                     || (wa_kind body =/= "witness.approval")
                     || (wa_space_id body =/= space a)
                     || (wa_stream_id body =/= stream a)
                     || (wa_intent_id body =/= record_id device_record)) AuthorityError;
        mret (Some {| aa_signed := signed; aa_issuer := wa_issuer_credential_id body;
                      aa_head := wa_authority_head body; aa_readmission := wa_readmission body |})
    | None => mret None
    end;
  finish_witness_admission a
    {| va_candidate := candidate; va_policy := policy; va_policy_id := record_id policy_record;
       va_challenge_nonce := wc_nonce challenge; va_request_id := record_id device_record;
       va_config_nonce := nonce_prefix (ai_nonce intent); va_admitted_at_ms := at_ms;
       va_approval := approval; va_evidence := AdmissionEv evidence |}.

(** ** Durable requests and version-2 admission (witness/durable.rs) *)

Definition verify_witness_join_request (a : Authority) (evidence : WitnessJoinRequestEvidence)
    (candidate : VerifiedCredential) (now_ms : N) : result RecordError WitnessJoinRequest :=
  pin ← ok_or (witness_pin a) AuthorityError;
  policy_record ← decode_b64 (jr_policy evidence);
  policy ← verify_witness_invitation a policy_record now_ms;
  device ← decode_b64 (jr_device_request evidence);
  invitation ← decode_b64 (jr_invitation_request evidence);
  _ ← fail_if (body_bytes device =/= body_bytes invitation) AuthorityError;
  _ ← verify_signature device (vc_key candidate);
  ikey ← public_key (ip_invitation_public_key policy);
  _ ← verify_signature invitation ikey;
  request ← decode (T := WitnessJoinRequest) device;
  _ ← hex 32 (wj_nonce request);
  contact_record ← decode_b64 (jr_contact evidence);
  contact ← verify_contact contact_record candidate (now_ms / 1000);
  _ ← fail_if (negb (wj_v request =? 1)
               || (wj_kind request =/= "witness.join_request")
               || (wj_space_id request =/= space a)
               || (wj_stream_id request =/= stream a)
               || (wj_policy_id request =/= record_id policy_record)
               || (wj_credential_id request =/= vc_id candidate)
               || (wj_contact_id request =/= record_id contact_record)
               || negb (wj_witness_key_generation request =? wp_key_generation pin)
               || (wj_issued_at_ms request <? ip_not_before_ms policy)
               || (saturating_add now_ms 5000 <? wj_issued_at_ms request)
               || (wj_expires_at_ms request <=? wj_issued_at_ms request)
               || (MAX_REQUEST_MS <? wj_expires_at_ms request - wj_issued_at_ms request)
               || (ip_expires_at_ms policy <? wj_expires_at_ms request)) AuthorityError;
  deadline ← ok_or (checked_mul (ct_expires_at contact) 1000) AuthorityError;
  _ ← fail_if ((deadline <? wj_expires_at_ms request)
               || (wj_expires_at_ms request <=? now_ms)) AuthorityError;
  mret request.

(** authority/checkpoint.rs [proves_config_at] *)
Definition proves_config_at (a : Authority) (id : RecordId) (sequence : N) : bool :=
  match config a id with Ok c => sc_sequence c =? sequence | Err _ => false end
  || match checkpoint_evidence a with
     | None => false
     | Some p =>
         match checked_sub sequence 1 with
         | None => false
         | Some n => (ce_ancestry p !! N.to_nat n) === Some id
         end
     end.

Definition witness_admission_config_v2 (a : Authority) (evidence : WitnessAdmissionEvidenceV2)
    : result RecordError StreamConfig :=
  let at_ms := a2_admitted_at_ms evidence in
  _ ← fail_if (forked a || (MAX_INTEGER <? at_ms)) AuthorityError;
  device_record ← decode_b64 (a2_device_intent evidence);
  invitation_record ← decode_b64 (a2_invitation_intent evidence);
  _ ← fail_if (body_bytes device_record =/= body_bytes invitation_record) AuthorityError;
  intent ← decode (T := WitnessAdmissionIntentV2) device_record;
  _ ← hex 32 (i2_nonce intent);
  candidate ← credential a (i2_credential_id intent);
  request ← verify_witness_join_request a (a2_request evidence) candidate at_ms;
  request_record ← decode_b64 (jr_device_request (a2_request evidence));
  let request_id := record_id request_record in
  policy_record ← decode_b64 (jr_policy (a2_request evidence));
  policy ← verify_witness_invitation a policy_record at_ms;
  _ ← verify_signature device_record (vc_key candidate);
  ikey ← public_key (ip_invitation_public_key policy);
  _ ← verify_signature invitation_record ikey;
  pin ← ok_or (witness_pin a) AuthorityError;
  challenge_record ← decode_b64 (a2_challenge evidence);
  wkey ← pin_key pin;
  _ ← verify_signature challenge_record wkey;
  challenge ← decode (T := WitnessChallengeV2) challenge_record;
  _ ← hex 32 (c2_nonce challenge);
  _ ← hex 32 (c2_client_nonce challenge);
  challenge_head ← config a (c2_authority_head challenge);
  _ ← fail_if (negb (c2_v challenge =? 2)
               || (c2_kind challenge =/= "witness.challenge")
               || (c2_space_id challenge =/= space a)
               || (c2_stream_id challenge =/= stream a)
               || (c2_policy_id challenge =/= wj_policy_id request)
               || (c2_credential_id challenge =/= wj_credential_id request)
               || (c2_request_id challenge =/= request_id)
               || negb (proves_config_at a (c2_authority_head challenge)
                          (sc_sequence challenge_head))
               || negb (c2_witness_key_generation challenge =? wp_key_generation pin)
               || (c2_issued_at_ms challenge <? saturating_sub (wj_issued_at_ms request) 5000)
               || (c2_expires_at_ms challenge <=? c2_issued_at_ms challenge)
               || (wj_expires_at_ms request <? c2_expires_at_ms challenge)
               || (MAX_CHALLENGE_MS <? c2_expires_at_ms challenge - c2_issued_at_ms challenge)
               || (at_ms <? c2_issued_at_ms challenge)
               || (c2_expires_at_ms challenge <=? at_ms)
               || negb (i2_v intent =? 2)
               || (i2_kind intent =/= "witness.admission")
               || (i2_space_id intent =/= space a)
               || (i2_stream_id intent =/= stream a)
               || (i2_policy_id intent =/= wj_policy_id request)
               || (i2_request_id intent =/= request_id)
               || (i2_challenge_id intent =/= record_id challenge_record)
               || (i2_credential_id intent =/= wj_credential_id request)
               || (i2_contact_id intent =/= wj_contact_id request)) AuthorityError;
  approval ←
    match a2_approval evidence with
    | Some encoded =>
        signed ← decode_b64 encoded;
        body ← decode (T := WitnessApprovalV2) signed;
        _ ← hex 16 (w2_nonce body);
        _ ← fail_if (negb (w2_v body =? 2)
                     || (w2_kind body =/= "witness.approval")
                     || (w2_space_id body =/= space a)
                     || (w2_stream_id body =/= stream a)
                     || (w2_request_id body =/= request_id)
                     || (wj_expires_at_ms request <? w2_expires_at_ms body)
                     || (w2_expires_at_ms body <=? at_ms)) AuthorityError;
        mret (Some {| aa_signed := signed; aa_issuer := w2_issuer_credential_id body;
                      aa_head := w2_authority_head body; aa_readmission := w2_readmission body |})
    | None => mret None
    end;
  finish_witness_admission a
    {| va_candidate := candidate; va_policy := policy; va_policy_id := record_id policy_record;
       va_challenge_nonce := c2_nonce challenge; va_request_id := request_id;
       va_config_nonce := nonce_prefix (i2_nonce intent); va_admitted_at_ms := at_ms;
       va_approval := approval; va_evidence := AdmissionEvV2 evidence |}.

(** ** [validate_witness_transition] *)

Definition without_evidence (c : StreamConfig) : StreamConfig :=
  {| sc_v := sc_v c; sc_kind := sc_kind c; sc_nonce := sc_nonce c;
     sc_space_id := sc_space_id c; sc_stream_id := sc_stream_id c;
     sc_sequence := sc_sequence c; sc_previous_config_id := sc_previous_config_id c;
     sc_controller_credential_id := sc_controller_credential_id c;
     sc_members := sc_members c; sc_owner_credential_ids := sc_owner_credential_ids c;
     sc_action := sc_action c; sc_chat_kind := sc_chat_kind c;
     sc_recovery := sc_recovery c; sc_witness_evidence := None |}.

(** [same_config] compares the two JSON values; serde's derived encoding is
    injective, so this is equality of the configurations. *)
Definition same_config (l r : StreamConfig) : bool := l === r.

Definition validate_witness_transition (a : Authority) (c : StreamConfig)
    : result RecordError unit :=
  previous ← ok_or (sc_previous_config_id c) AuthorityError;
  let prior := set_head a (Some previous) (forked a) in
  parent ← head_config prior;
  _ ← fail_if (bool_decide (is_Some (sc_recovery c))
               || (ca_operation (sc_action c) === "controller.recovered")) AuthorityError;
  evidence ← ok_or (sc_witness_evidence c) AuthorityError;
  match evidence with
  | OwnerProposal proposal =>
      signed ← decode_b64 proposal;
      proposed ← decode (T := StreamConfig) signed;
      _ ← fail_if (bool_decide (is_Some (sc_witness_evidence proposed))
                   || negb (same_config (without_evidence c) proposed)
                   || negb (contains (sc_owner_credential_ids parent)
                              (sc_controller_credential_id c))) AuthorityError;
      signer ← credential a (sc_controller_credential_id c);
      verify_signature signed (vc_key signer)
  | AdmissionEvV2 ev =>
      _ ← fail_if (sc_controller_credential_id c =/= sc_controller_credential_id parent)
            AuthorityError;
      expected ← witness_admission_config_v2 prior ev;
      fail_if (negb (same_config c expected)) AuthorityError
  | AdmissionEv ev =>
      _ ← fail_if (sc_controller_credential_id c =/= sc_controller_credential_id parent)
            AuthorityError;
      expected ← witness_admission_config prior ev;
      fail_if (negb (same_config c expected)) AuthorityError
  end.

End Witness.
