(* ===== verification/Authority.v ===== *)
(** * The authority state machine (crates/elo-core/src/authority.rs, authority/recovery.rs)

    Construction from a pinned genesis, the validation of a configuration and of
    the transition it makes, the choice of the head, and [apply_config], which
    composes them; then the operations that prepare a configuration. *)

From S2P Require Import Prelude Platform Ids Record Chat Identity AuthorityData AuthorityWitness.

Section Authority.
Context `{P : Platform} {S : AuthoritySerde} {W : WitnessSerde}.

(** ** [Authority::new] *)

Definition genesis_signature_ok (g : SignedRecord) (body : SpaceGenesis)
    (pinned_root : string) (ctrl : VerifiedCredential) : result RecordError unit :=
  if sg_v body =? 1 then verify_signature g pinned_root
  else if contains [2; 3; 4] (sg_v body) then
    _ ← fail_if ((vc_identity ctrl =/= identity_of_root_key pinned_root)
                 || negb (value_eq_str (vc_root_value ctrl) (encode_hex pinned_root)))
          AuthorityError;
    verify_signature g (vc_key ctrl)
  else Err AuthorityError.

Definition genesis_witness_ok (body : SpaceGenesis) : result RecordError unit :=
  match sg_witness body with
  | Some pin => if sg_v body =? 4 then pin_validate pin else Err AuthorityError
  | None => fail_if (negb (contains [1; 2; 3] (sg_v body))) AuthorityError
  end.

Definition owner_ok (o : Owner) : result RecordError unit :=
  raw ← hex 32 (ow_root_public_key o);
  key ← ok_or (vk_from_bytes raw) Signature;
  fail_if (ed25519_weak key || (identity_of_root_key key =/= ow_identity_id o)) AuthorityError.

Definition new (genesis_bytes : string) (pinned_space : SpaceId) (pinned_root : string)
    (ctrl : VerifiedCredential) (stream : StreamId) : result RecordError Authority :=
  g ← parse genesis_bytes;
  _ ← fail_if (display (record_id g) =/= display pinned_space) AuthorityError;
  body ← decode (T := SpaceGenesis) g;
  _ ← genesis_signature_ok g body pinned_root ctrl;
  _ ← hex 16 (sg_nonce body);
  _ ← genesis_witness_ok body;
  _ ← fail_if ((sg_kind body =/= "space.genesis")
               || ((sg_v body =? 3) && negb (nlen (sg_owners body) =? 1))
               || (sg_issuer_identity body =/= identity_of_root_key pinned_root)
               || (sg_controller_credential_id body =/= vc_id ctrl)
               || negb (sorted_unique bytes_ltb (ow_identity_id <$> sg_owners body) 1 16))
        AuthorityError;
  _ ← try_fold (λ _ o, owner_ok o) tt (sg_owners body);
  owner ← ok_or (find_first (λ o, ow_identity_id o === vc_identity ctrl) (sg_owners body))
            AuthorityError;
  _ ← fail_if (negb (value_eq_str (vc_root_value ctrl) (ow_root_public_key owner))
               || negb (existsb (λ o, ow_identity_id o === sg_issuer_identity body)
                          (sg_owners body))) AuthorityError;
  mret {| genesis := g; gbody := body; stream := stream;
          credentials := {[ vc_id ctrl := ctrl ]}; configs := ∅; head := None;
          forked := false; persisted_snapshot := None;
          checkpoint_evidence := None; cached_checkpoint := None |}.

(** ** [validate_config] *)

Definition operations : list string :=
  ["create"; "replace"; "invite.approved"; "member.removed"; "device.removed";
   "device.updated"; "controller.recovered"].

Definition header_ok (a : Authority) (c : StreamConfig) : result RecordError unit :=
  _ ← hex 16 (sc_nonce c);
  _ ← fail_if (negb (sc_v c =? sg_v (gbody a))
               || (sc_kind c =/= "stream.config")
               || (sc_space_id c =/= space a)
               || (sc_stream_id c =/= stream a)
               || (sc_sequence c =? 0)
               || (MAX_INTEGER <? sc_sequence c)
               || negb (Bool.eqb (sc_sequence c =? 1)
                          (bool_decide (sc_previous_config_id c = None)))
               || negb (Bool.eqb (bool_decide (is_Some (sc_witness_evidence c)))
                          (bool_decide (is_Some (witness_pin a)) && (1 <? sc_sequence c))))
        AuthorityError;
  signer ← credential a (sc_controller_credential_id c);
  fail_if ((ca_actor_identity (sc_action c) =/= vc_identity signer)
           || negb (contains operations (ca_operation (sc_action c)))) AuthorityError.

(** The sets threaded through the member loop: credentials, keys, recipients. *)
Definition member_sets : Type := gset string * gset string * gset string.

Definition credential_step (a : Authority) (m : Member) (s : member_sets) (id : RecordId)
    : result RecordError member_sets :=
  let '(all, keys, recipients) := s in
  c ← credential a id;
  _ ← fail_if ((vc_identity c =/= m_identity_id m)
               || negb (value_eq_str (vc_root_value c) (m_root_public_key m))
               || bool_decide (id ∈ all)
               || bool_decide (vc_key c ∈ keys)
               || bool_decide (vc_recipient c ∈ recipients)) AuthorityError;
  mret ({[id]} ∪ all, {[vc_key c]} ∪ keys, {[vc_recipient c]} ∪ recipients).

Definition member_step (a : Authority) (s : member_sets) (m : Member)
    : result RecordError member_sets :=
  _ ← fail_if (negb (contains ["HUMAN"; "SERVICE"; "DEVICE"] (m_identity_type m))
               || negb (sorted_unique bytes_ltb (m_credential_ids m) 1 32)
               || negb (sorted_unique capability_ltb (m_capabilities m) 1 5)
               || (has_capability m ShareHistory && negb (has_capability m Read)))
        AuthorityError;
  root ← hex 32 (m_root_public_key m);
  _ ← fail_if (identity_of_root_key root =/= m_identity_id m) AuthorityError;
  try_fold (credential_step a m) s (m_credential_ids m).

Definition owner_members (a : Authority) (c : StreamConfig) : result RecordError (list Member) :=
  if is_owner_managed a && (1 <? sc_sequence c) then
    mret (List.filter (λ m, has_capability m Manage) (sc_members c))
  else
    try_map (λ o, ok_or (find_first (λ m, (m_identity_id m === ow_identity_id o)
                                          && (m_root_public_key m === ow_root_public_key o))
                           (sc_members c)) AuthorityError) (sg_owners (gbody a)).

Definition owners_rejected (a : Authority) (c : StreamConfig) (owners : list Member) : bool :=
  (owners === [])
  || (is_owner_managed a
      && negb (existsb (λ m, m_identity_id m === sg_issuer_identity (gbody a)) owners))
  || (is_owner_managed a && (sc_sequence c =? 1)
      && existsb (λ m, has_capability m Manage
                       && negb (existsb (λ o, ow_identity_id o === m_identity_id m)
                                  (sg_owners (gbody a)))) (sc_members c)).

Definition owner_step (ids : list RecordId) (m : Member) : result RecordError (list RecordId) :=
  _ ← fail_if ((m_identity_type m =/= "HUMAN")
               || negb (forallb (has_capability m) [Read; Post; ShareHistory; Manage]))
        AuthorityError;
  mret (ids ++ m_credential_ids m).

Definition owners_ok (a : Authority) (c : StreamConfig) : result RecordError unit :=
  owners ← owner_members a c;
  _ ← fail_if (owners_rejected a c owners) AuthorityError;
  ids ← try_fold owner_step [] owners;
  fail_if ((sc_owner_credential_ids c =/= sorted_set ids)
           || ((negb (is_owner_managed a) || (sc_sequence c =? 1))
               && negb (contains (sc_owner_credential_ids c) (sc_controller_credential_id c))))
    AuthorityError.

Definition validate_config (a : Authority) (c : StreamConfig) : result RecordError unit :=
  _ ← header_ok a c;
  _ ← fail_if (negb (sorted_unique bytes_ltb (m_identity_id <$> sc_members c) 1 MAX_CHAT_MEMBERS))
        AuthorityError;
  sets ← try_fold (member_step a) (∅, ∅, ∅) (sc_members c);
  _ ← fail_if (MAX_CHAT_CREDENTIALS <? N.of_nat (size sets.1.1)) AuthorityError;
  owners_ok a c.

(** ** Controller recovery and the transition check (authority/recovery.rs) *)

Definition chain_at (a : Authority) (id : option RecordId)
    : result RecordError (list SignedRecord) :=
  match checkpoint_evidence a with
  | Some proof => if id === head a then mret (ce_recovery proof) else Err AuthorityError
  | None =>
      path ← ancestry_from a id;
      certs ← try_map (λ p, embedded p.2) path;
      mret (rev (omap (λ o, o) certs))
  end.

(** [BTreeMap::insert] on a map keyed by (sequence, record id). *)
Fixpoint insert_recovery (k : N * RecordId) (r : SignedRecord)
    (l : list (N * RecordId * SignedRecord)) : list (N * RecordId * SignedRecord) :=
  match l with
  | [] => [(k, r)]
  | (k', r') :: l' =>
      if k === k' then (k, r) :: l'
      else if (k.1 <? k'.1) || ((k.1 =? k'.1) && bytes_ltb k.2 k'.2)
      then (k, r) :: l
      else (k', r') :: insert_recovery k r l'
  end.

Definition recovery_records (a : Authority) : result RecordError (list SignedRecord) :=
  match checkpoint_evidence a with
  | Some proof => mret (ce_recovery proof)
  | None =>
      records ← try_fold (λ acc '(_, c),
        r ← embedded c;
        match r with
        | None => mret acc
        | Some r =>
            b ← decode (T := ControllerRecovery) r;
            mret (insert_recovery (cr_sequence b, record_id r) r acc)
        end) [] (btree_values (configs a));
      mret (records.*2)
  end.

Definition owner_devices (a : Authority) (members : list Member) : list RecordId :=
  sorted_set (mjoin (m_credential_ids <$>
    List.filter (λ m, existsb (λ o, ow_identity_id o === m_identity_id m) (sg_owners (gbody a)))
      members)).

(** Identities holding MANAGE, as a set. *)
Definition managers (c : StreamConfig) : gset string :=
  list_to_set (m_identity_id <$> List.filter (λ m, has_capability m Manage) (sc_members c)).

(** The creator's devices and the owner set change only on the creator's own
    authorization: the first block of [validate_controller_transition]. *)
Definition primary_guard (a : Authority) (c parent : StreamConfig) : result RecordError unit :=
  primary ← primary_owner_identity a;
  if (managers parent =/= managers c) || (member_of parent primary =/= member_of c primary) then
    signer ← credential a (sc_controller_credential_id c);
    fail_if ((vc_identity signer =/= primary)
             || negb (contains (sc_owner_credential_ids parent) (sc_controller_credential_id c)))
      AuthorityError
  else Ok tt.

Definition owner_managed_transition (a : Authority) (c : StreamConfig)
    (parent : option StreamConfig) : result RecordError unit :=
  fail_if (bool_decide (is_Some (sc_recovery c))
           || (ca_operation (sc_action c) === "controller.recovered")
           || negb match parent with
                   | None => sc_controller_credential_id c
                             === sg_controller_credential_id (gbody a)
                   | Some prior => contains (sc_owner_credential_ids prior)
                                     (sc_controller_credential_id c)
                   end) AuthorityError.

Definition set_credential_ids (m : Member) (ids : list RecordId) : Member :=
  {| m_identity_id := m_identity_id m; m_identity_type := m_identity_type m;
     m_root_public_key := m_root_public_key m; m_capabilities := m_capabilities m;
     m_credential_ids := ids; m_external := m_external m |}.

(** Every device of [identity] replaced by [fresh]. *)
Definition replace_devices (identity : IdentityId) (fresh : RecordId) (members : list Member)
    : list Member :=
  (λ m, if m_identity_id m === identity then set_credential_ids m [fresh] else m) <$> members.

(** The root key of a credential's record, with the panicking lookup of the
    source's [initial_controller] as an error. *)
Definition controller_root (initial : VerifiedCredential) : result RecordError string :=
  s ← ok_or (value_as_str (vc_root_value initial)) AuthorityError;
  raw ← hex 32 s;
  ok_or (vk_from_bytes raw) AuthorityError.

(** Keys of old generations cannot return, except the exact still-active device. *)
Definition fresh_keys (a : Authority) (fresh : VerifiedCredential) (already_active : bool)
    (path : list (RecordId * StreamConfig)) : result RecordError unit :=
  try_fold (λ _ '(_, c),
    ctrl ← credential a (sc_controller_credential_id c);
    _ ← fail_if ((vc_key ctrl === vc_key fresh) || (vc_recipient ctrl === vc_recipient fresh))
          AuthorityError;
    try_fold (λ _ id,
      old ← credential a id;
      fail_if (((vc_key old === vc_key fresh) || (vc_recipient old === vc_recipient fresh))
               && (negb already_active || (vc_id old =/= vc_id fresh))) AuthorityError)
      tt (mjoin (m_credential_ids <$> sc_members c))) tt path.

Definition recovery_transition (a : Authority) (c : StreamConfig) (parent : option StreamConfig)
    (prior_controller : RecordId) (r : SignedRecord) : result RecordError unit :=
  parent ← ok_or parent AuthorityError;
  b ← decode (T := ControllerRecovery) r;
  chain ← chain_at a (sc_previous_config_id c);
  initial ← ok_or (initial_controller a) AuthorityError;
  root ← controller_root initial;
  _ ← verify_signature r root;
  _ ← hex 16 (cr_nonce b);
  fresh ← credential a (sc_controller_credential_id c);
  _ ← fail_if (negb (cr_v b =? 1)
               || (cr_kind b =/= "space.controller.recovered")
               || (cr_space_id b =/= space a)
               || negb (cr_sequence b =? nlen chain + 1)
               || (64 <? cr_sequence b)
               || (cr_previous_recovery_id b =/= (record_id <$> last_opt chain))
               || (cr_previous_controller_credential_id b =/= prior_controller)
               || (cr_controller_credential_id b =/= vc_id fresh)
               || (vc_id fresh === prior_controller)
               || (vc_identity fresh =/= vc_identity initial)
               || (value_as_str (vc_root_value fresh) =/= value_as_str (vc_root_value initial))
               || (ca_operation (sc_action c) =/= "controller.recovered")
               || (ca_request_record_id (sc_action c) =/= Some (record_id r))) AuthorityError;
  let expected := replace_devices (vc_identity initial) (vc_id fresh) (sc_members parent) in
  _ ← fail_if ((sc_members c =/= expected)
               || (sc_owner_credential_ids c =/= owner_devices a expected)) AuthorityError;
  let already_active :=
    existsb (λ m, (m_identity_id m === vc_identity initial)
                  && contains (m_credential_ids m) (vc_id fresh)) (sc_members parent) in
  path ← ancestry_from a (sc_previous_config_id c);
  fresh_keys a fresh already_active path.

Definition single_controller_transition (a : Authority) (c : StreamConfig)
    (parent : option StreamConfig) : result RecordError unit :=
  let prior_controller :=
    match parent with
    | Some p => sc_controller_credential_id p
    | None => sg_controller_credential_id (gbody a)
    end in
  cert ← embedded c;
  match cert with
  | None =>
      fail_if ((ca_operation (sc_action c) === "controller.recovered")
               || (sc_controller_credential_id c =/= prior_controller)) AuthorityError
  | Some r => recovery_transition a c parent prior_controller r
  end.

Definition validate_controller_transition (a : Authority) (c : StreamConfig)
    : result RecordError unit :=
  parent ← transpose (config a <$> sc_previous_config_id c);
  _ ← match parent with
      | Some p => if is_owner_managed a then primary_guard a c p else Ok tt
      | None => Ok tt
      end;
  if bool_decide (is_Some (witness_pin a)) && (1 <? sc_sequence c)
  then validate_witness_transition a c
  else if is_owner_managed a then owner_managed_transition a c parent
  else single_controller_transition a c parent.

(** ** [select_controller_head] *)

Definition sequence_of (p : RecordId * (SignedRecord * StreamConfig)) : N := sc_sequence p.2.2.
Definition best_head (l : list (RecordId * (SignedRecord * StreamConfig))) : option RecordId :=
  fst <$> max_by_key sequence_of l.
Definition parents_of (l : list (RecordId * (SignedRecord * StreamConfig)))
    : list (option RecordId) :=
  (λ p, sc_previous_config_id p.2.2) <$> l.

(** The generation chain: two certificates after the same predecessor fork it;
    otherwise the last certificate names the current controller. *)
Definition current_controller (a : Authority) (certificates : list SignedRecord)
    : result RecordError (option RecordId) :=
  s ← try_fold (λ '(children, current) r,
        match current with
        | None => mret (children, None)
        | Some _ =>
            b ← decode (T := ControllerRecovery) r;
            if contains children (cr_previous_recovery_id b) then mret (children, None)
            else mret (children ++ [cr_previous_recovery_id b],
                       Some (cr_controller_credential_id b))
        end) ([], Some (sg_controller_credential_id (gbody a))) certificates;
  mret s.2.

Definition select_controller_head (a : Authority) : result RecordError Authority :=
  let all := btree_list (configs a) in
  if is_owner_managed a then
    if any_repeat (parents_of all) then mret (set_head a (head a) true)
    else mret (set_head a (best_head all) false)
  else
    certificates ← recovery_records a;
    current ← current_controller a certificates;
    match current with
    | None => mret (set_head a (head a) true)
    | Some current =>
        let active := List.filter
          (λ p, sc_controller_credential_id p.2.2 === current) all in
        if any_repeat (parents_of active)
           || (1 <? nlen (List.filter (λ p, bool_decide (is_Some (sc_recovery p.2.2))) active))
        then mret (set_head a (head a) true)
        else mret (set_head a (best_head active) false)
    end.

(** ** [apply_config] *)

Definition config_signature_ok (a : Authority) (record : SignedRecord) (c : StreamConfig)
    : result RecordError unit :=
  match witness_pin a with
  | Some pin =>
      if 1 <? sc_sequence c then
        key ← pin_key pin; verify_signature record key
      else
        signer ← credential a (sc_controller_credential_id c);
        verify_signature record (vc_key signer)
  | None =>
      signer ← credential a (sc_controller_credential_id c);
      verify_signature record (vc_key signer)
  end.

(** The parent's sequence, or [None] when the parent is not stored yet. *)
Definition prior_sequence (a : Authority) (c : StreamConfig) : result RecordError (option N) :=
  match sc_previous_config_id c with
  | None => mret (Some 0)
  | Some id =>
      match configs a !! id with
      | None => mret None
      | Some (_, p) =>
          _ ← fail_if (bool_decide (is_Some (sc_chat_kind p))
                       && (sc_chat_kind c =/= sc_chat_kind p)) AuthorityError;
          mret (Some (sc_sequence p))
      end
  end.

(** The checks before the insertion: an early return, or the decoded configuration. *)
Definition check_config (a : Authority) (record : SignedRecord)
    : result RecordError (ConfigAdmission + StreamConfig) :=
  _ ← fail_if (bool_decide (is_Some (checkpoint_evidence a))) AuthorityError;
  if bool_decide (is_Some (configs a !! record_id record)) then mret (inl AlreadyPresent)
  else
    c ← decode (T := StreamConfig) record;
    _ ← config_signature_ok a record c;
    _ ← validate_config a c;
    prior ← prior_sequence a c;
    match prior with
    | None => mret (inl WaitingForProof)
    | Some prior_seq =>
        _ ← fail_if (negb (sc_sequence c =? prior_seq + 1)) AuthorityError;
        _ ← validate_controller_transition a c;
        _ ← fail_if (4096 <=? N.of_nat (size (configs a))) AuthorityError;
        mret (inr c)
    end.

(** The whole handler on [&mut self]: the authority after the call and its result.
    The insertion stays even when the selection of the head fails. *)
Definition apply_config (a : Authority) (record : SignedRecord)
    : Authority * result RecordError ConfigAdmission :=
  match check_config a record with
  | Err e => (a, Err e)
  | Ok (inl admission) => (a, Ok admission)
  | Ok (inr c) =>
      let id := record_id record in
      let inserted := set_configs a (<[id := (record, c)]> (configs a)) in
      match select_controller_head inserted with
      | Err e => (inserted, Err e)
      | Ok a' => (a', Ok (if forked a' then Forked
                          else if head a' === Some id then Applied else Historical))
      end
  end.

(** ** Preparing configurations *)

Definition config_sign (c : StreamConfig) (key : string) : result RecordError SignedRecord :=
  sign (to_vec c) key.

(** [trial.apply_config(signed)? != Applied] *)
Definition require_applied (a : Authority) (signed : SignedRecord)
    : result RecordError SignedRecord :=
  admission ← (apply_config a signed).2;
  _ ← fail_if (admission =/= Applied) AuthorityError;
  mret signed.

Definition require_witness_signer (a : Authority) (witness_key : string)
    : result RecordError unit :=
  _ ← fail_if (forked a) AuthorityError;
  pin ← ok_or (witness_pin a) AuthorityError;
  key ← pin_key pin;
  fail_if (key =/= ed25519_verifying_key witness_key) AuthorityError.

Definition with_evidence (c : StreamConfig) (e : WitnessConfigEvidence) : StreamConfig :=
  {| sc_v := sc_v c; sc_kind := sc_kind c; sc_nonce := sc_nonce c;
     sc_space_id := sc_space_id c; sc_stream_id := sc_stream_id c;
     sc_sequence := sc_sequence c; sc_previous_config_id := sc_previous_config_id c;
     sc_controller_credential_id := sc_controller_credential_id c;
     sc_members := sc_members c; sc_owner_credential_ids := sc_owner_credential_ids c;
     sc_action := sc_action c; sc_chat_kind := sc_chat_kind c;
     sc_recovery := sc_recovery c; sc_witness_evidence := Some e |}.

Definition prepare_witness_owner_config (a : Authority) (proposal : SignedRecord)
    (witness_key : string) : result RecordError SignedRecord :=
  _ ← require_witness_signer a witness_key;
  c ← decode (T := StreamConfig) proposal;
  _ ← fail_if (bool_decide (is_Some (sc_witness_evidence c))) AuthorityError;
  signed ← config_sign
    (with_evidence c (OwnerProposal (base64_encode (sr_bytes proposal)))) witness_key;
  require_applied a signed.

Definition prepare_witness_admission (a : Authority) (evidence : WitnessAdmissionEvidence)
    (witness_key : string) : result RecordError SignedRecord :=
  _ ← require_witness_signer a witness_key;
  c ← witness_admission_config a evidence;
  signed ← config_sign c witness_key;
  require_applied a signed.

Definition prepare_witness_admission_v2 (a : Authority) (evidence : WitnessAdmissionEvidenceV2)
    (witness_key : string) : result RecordError SignedRecord :=
  _ ← require_witness_signer a witness_key;
  c ← witness_admission_config_v2 a evidence;
  signed ← config_sign c witness_key;
  require_applied a signed.

End Authority.
