(* ===== verification/AuthorityProof.v ===== *)
(** * Proofs of authority and message admission

    Compact checkpoints (authority/checkpoint.rs), portable membership proofs
    (authority/call_proof.rs), controller recovery by its root
    (authority/recovery.rs), and what the authority says about a chat message
    (authority.rs). *)

From S2P Require Import Prelude Platform Ids Record Chat Identity AuthorityData AuthorityWitness Authority.

Definition MAX_PROOF_BYTES : N := 8 * 1024 * 1024.

Record CallAuthorityProof := {
  pf_v : N;
  pf_genesis : string;
  pf_credentials : list string;
  pf_configs : list string;
  pf_checkpoint : option string;
}.

Section Proofs.
Context `{P : Platform} {S : AuthoritySerde} {W : WitnessSerde}.

(** ** Controller recovery *)

Definition controller_recovery_chain (a : Authority) : result RecordError (list SignedRecord) :=
  chain_at a (head a).

Definition recovery_id (a : Authority) : option RecordId :=
  match chain_at a (head a) with
  | Ok chain => record_id <$> last_opt chain
  | Err _ => None
  end.

(** The loop of [verify_controller_export]: position, predecessor, controller and
    the controllers already seen. *)
Definition export_step (a : Authority) (root : string)
    (s : N * option RecordId * RecordId * gset string) (r : SignedRecord)
    : result RecordError (N * option RecordId * RecordId * gset string) :=
  let '(i, previous, ctrl, seen) := s in
  _ ← verify_signature r root;
  b ← decode (T := ControllerRecovery) r;
  _ ← hex 16 (cr_nonce b);
  _ ← fail_if (negb (cr_v b =? 1)
               || (cr_kind b =/= "space.controller.recovered")
               || (cr_space_id b =/= space a)
               || negb (cr_sequence b =? i + 1)
               || (cr_previous_recovery_id b =/= previous)
               || (cr_previous_controller_credential_id b =/= ctrl)
               || bool_decide (cr_controller_credential_id b ∈ seen)) AuthorityError;
  mret (i + 1, Some (record_id r), cr_controller_credential_id b,
        {[cr_controller_credential_id b]} ∪ seen).

Definition verify_controller_export (a : Authority) (chain : list SignedRecord)
    (current : VerifiedCredential) : result RecordError unit :=
  _ ← fail_if (is_owner_managed a) AuthorityError;
  initial ← ok_or (initial_controller a) AuthorityError;
  root ← controller_root initial;
  _ ← fail_if ((64 <? nlen chain)
               || (vc_identity current =/= vc_identity initial)
               || (value_as_str (vc_root_value current) =/= value_as_str (vc_root_value initial)))
        AuthorityError;
  s ← try_fold (export_step a root) (0, None, vc_id initial, {[vc_id initial]}) chain;
  fail_if (s.1.2 =/= vc_id current) AuthorityError.

(** [controller_ready_with]: no two certificates after the same predecessor in any
    peer's proof, and this authority follows the newest generation. *)
Definition ready_step (s : option (list (option RecordId * RecordId) * (N * RecordId)))
    (r : SignedRecord) : option (list (option RecordId * RecordId) * (N * RecordId)) :=
  '(children, latest) ← s;
  b ← to_option (decode (T := ControllerRecovery) r);
  let prev := cr_previous_recovery_id b in
  match find_first (λ p, p.1 === prev) children with
  | Some (_, old) => if old =/= record_id r then None else
      Some (children, if latest.1 <? cr_sequence b
                      then (cr_sequence b, cr_controller_credential_id b) else latest)
  | None =>
      Some ((prev, record_id r) :: children,
            if latest.1 <? cr_sequence b
            then (cr_sequence b, cr_controller_credential_id b) else latest)
  end.

Definition controller_ready_with (a : Authority) (peers : list Authority) : bool :=
  if is_owner_managed a then negb (forked a)
  else
    match initial_controller a, controller a with
    | Some initial, Some ctrl =>
        let peers := List.filter (λ p, space p === space a) (peers ++ [a]) in
        match foldl (λ s p, s ← s; rs ← to_option (recovery_records p);
                            foldl ready_step (Some s) rs)
                    (Some ([], (0, vc_id initial))) peers with
        | Some (_, latest) => negb (forked a) && (vc_id ctrl === latest.2)
        | None => false
        end
    | _, _ => false
    end.

Definition sign_recovery (a : Authority) (fresh : VerifiedCredential) (root : string)
    (entropy : option string) : result RecordError SignedRecord :=
  initial ← ok_or (initial_controller a) AuthorityError;
  _ ← fail_if (is_owner_managed a || bool_decide (is_Some (checkpoint_evidence a)) || forked a
               || (vc_identity initial =/= identity_of_root_key (ed25519_verifying_key root))
               || (vc_identity fresh =/= vc_identity initial)) AuthorityError;
  chain ← chain_at a (head a);
  nonce ← random_hex entropy;
  ctrl ← ok_or (controller a) AuthorityError;
  sign (to_vec
    {| cr_v := 1; cr_kind := "space.controller.recovered"; cr_nonce := nonce;
       cr_space_id := space a; cr_sequence := nlen chain + 1;
       cr_previous_recovery_id := record_id <$> last_opt chain;
       cr_previous_controller_credential_id := vc_id ctrl;
       cr_controller_credential_id := vc_id fresh |}) root.

Definition prepare_recovery (a : Authority) (certificate : SignedRecord) (key : string)
    (entropy : option string) : result RecordError SignedRecord :=
  _ ← fail_if (is_owner_managed a) AuthorityError;
  cert ← decode (T := ControllerRecovery) certificate;
  c ← head_config a;
  nonce ← random_hex entropy;
  initial ← ok_or (initial_controller a) AuthorityError;
  let members := replace_devices (vc_identity initial) (cr_controller_credential_id cert)
                   (sc_members c) in
  r ← config_sign
    {| sc_v := sc_v c; sc_kind := sc_kind c; sc_nonce := nonce;
       sc_space_id := sc_space_id c; sc_stream_id := sc_stream_id c;
       sc_sequence := sc_sequence c + 1; sc_previous_config_id := head a;
       sc_controller_credential_id := cr_controller_credential_id cert;
       sc_members := members; sc_owner_credential_ids := owner_devices a members;
       sc_action := {| ca_operation := "controller.recovered";
                       ca_actor_identity := vc_identity initial;
                       ca_request_record_id := Some (record_id certificate) |};
       sc_chat_kind := sc_chat_kind c;
       sc_recovery := Some (base64_encode (sr_bytes certificate));
       sc_witness_evidence := sc_witness_evidence c |} key;
  require_applied a r.

(** ** Checkpoints *)

Definition current_checkpoint (a : Authority) : option SignedRecord :=
  if is_owner_managed a then None
  else
    r ← cached_checkpoint a;
    if negb (forked a)
       && match decode (T := Checkpoint) r with
          | Ok p => Some (cp_config_id p) === head a
          | Err _ => false
          end
    then Some r else None.

Definition sign_checkpoint_body (a : Authority) : result RecordError Checkpoint :=
  path ← ancestry_from a (head a);
  c ← head_config a;
  ctrl ← ok_or (controller a) AuthorityError;
  id ← ok_or (head a) AuthorityError;
  chain ← controller_recovery_chain a;
  mret {| cp_v := 1; cp_kind := "stream.checkpoint"; cp_space_id := space a;
          cp_stream_id := stream a; cp_controller_credential_id := vc_id ctrl;
          cp_config_id := id; cp_sequence := sc_sequence c;
          cp_ancestry := rev (path.*1);
          cp_recovery := (λ r, base64_encode (sr_bytes r)) <$> chain |}.

Definition accept_cached_checkpoint (a : Authority) (record : SignedRecord)
    : result RecordError Authority :=
  body ← decode (T := Checkpoint) record;
  expected ← ok_or (head a) AuthorityError;
  _ ← fail_if (is_owner_managed a || forked a || (cp_config_id body =/= expected)) AuthorityError;
  c ← head_config a;
  _ ← fail_if (negb (cp_sequence body =? sc_sequence c)) AuthorityError;
  ctrl ← ok_or (controller a) AuthorityError;
  _ ← verify_signature record (vc_key ctrl);
  actual ← sign_checkpoint_body a;
  _ ← fail_if (body =/= actual) AuthorityError;
  mret (set_checkpoint a (checkpoint_evidence a) (Some record)).

Definition proves_config_ancestor (a : Authority) (id : RecordId) : bool :=
  bool_decide (is_Some (configs a !! id))
  || match checkpoint_evidence a with
     | None => false
     | Some p => contains (ce_ancestry p) id
     end.

Definition proves_recovery_ancestor (a : Authority) (floor : option RecordId) : bool :=
  match floor with
  | None => true
  | Some id =>
      match controller_recovery_chain a with
      | Ok chain => existsb (λ r, record_id r === id) chain
      | Err _ => false
      end
  end.

Definition sign_checkpoint (a : Authority) (key : string) : result RecordError SignedRecord :=
  ctrl ← ok_or (controller a) AuthorityError;
  _ ← fail_if (is_owner_managed a || forked a || bool_decide (is_Some (checkpoint_evidence a))
               || (vc_key ctrl =/= ed25519_verifying_key key)) AuthorityError;
  body ← sign_checkpoint_body a;
  sign (to_vec body) key.

(** The certificate inside a checkpointed configuration must close the chain. *)
Definition checkpoint_recovery_ok (c : StreamConfig) (chain : list SignedRecord)
    : result RecordError unit :=
  match sc_recovery c with
  | Some encoded =>
      b ← ok_or (base64_decode encoded) Json;
      certificate ← parse b;
      fail_if (((record_id <$> last_opt chain) =/= Some (record_id certificate))
               || (ca_operation (sc_action c) =/= "controller.recovered")
               || (ca_request_record_id (sc_action c) =/= Some (record_id certificate)))
        AuthorityError
  | None => fail_if (ca_operation (sc_action c) === "controller.recovered") AuthorityError
  end.

Definition load_checkpoint (a : Authority) (signed cfg : SignedRecord)
    : result RecordError Authority :=
  _ ← fail_if (is_owner_managed a || bool_decide (is_Some (head a))
               || bool_decide (is_Some (checkpoint_evidence a))) AuthorityError;
  c ← decode (T := StreamConfig) cfg;
  body ← decode (T := Checkpoint) signed;
  ctrl ← credential a (cp_controller_credential_id body);
  _ ← verify_signature signed (vc_key ctrl);
  _ ← verify_signature cfg (vc_key ctrl);
  _ ← validate_config a c;
  _ ← fail_if (negb (cp_v body =? 1)
               || (cp_kind body =/= "stream.checkpoint")
               || (cp_space_id body =/= space a)
               || (cp_stream_id body =/= stream a)
               || (cp_config_id body =/= record_id cfg)
               || negb (cp_sequence body =? sc_sequence c)
               || (cp_controller_credential_id body =/= sc_controller_credential_id c)
               || (cp_ancestry body === [])
               || (4096 <? nlen (cp_ancestry body))
               || negb (nlen (cp_ancestry body) =? sc_sequence c)
               || (last_opt (cp_ancestry body) =/= Some (record_id cfg))
               || any_repeat (cp_ancestry body)
               || (sc_previous_config_id c =/= rev (cp_ancestry body) !! 1%nat)
               || (64 <? nlen (cp_recovery body))) AuthorityError;
  chain ← try_map (λ encoded, b ← ok_or (base64_decode encoded) Json; parse b)
            (cp_recovery body);
  _ ← verify_controller_export a chain ctrl;
  _ ← checkpoint_recovery_ok c chain;
  mret (set_head (set_checkpoint
          (set_configs a (<[record_id cfg := (cfg, c)]> (configs a)))
          (Some {| ce_ancestry := cp_ancestry body; ce_recovery := chain |})
          (cached_checkpoint a)) (Some (record_id cfg)) (forked a)).

(** ** Portable proofs *)

Definition check_size (p : CallAuthorityProof) : result RecordError unit :=
  let total := fold_left (λ n s, n + slen s) (pf_credentials p ++ pf_configs p) 0 in
  fail_if (negb (((pf_v p =? 1) && bool_decide (pf_checkpoint p = None))
                 || ((pf_v p =? 2) && bool_decide (is_Some (pf_checkpoint p))))
           || ((pf_v p =? 2) && negb (nlen (pf_configs p) =? 1))
           || (8192 <? nlen (pf_credentials p))
           || (4096 <? nlen (pf_configs p))
           || (pf_configs p === [])
           || (MAX_PROOF_BYTES <? saturating_add
                 (saturating_add (slen (pf_genesis p))
                    match pf_checkpoint p with Some s => slen s | None => 0 end) total))
    AuthorityError.

Definition checkpoint_proof (a : Authority) (signed : SignedRecord)
    : result RecordError CallAuthorityProof :=
  h ← head_config a;
  initial ← ok_or (initial_controller a) AuthorityError;
  ctrl ← ok_or (controller a) AuthorityError;
  let ids := sorted_set (mjoin (m_credential_ids <$> sc_members h)
                         ++ [vc_id initial; vc_id ctrl]) in
  creds ← try_map (λ id, c ← credential a id;
                         mret (base64_encode (sr_bytes (vc_record c)))) ids;
  id ← ok_or (head a) AuthorityError;
  cfg ← config_record a id;
  let proof := {| pf_v := 2; pf_genesis := base64_encode (sr_bytes (genesis a));
                  pf_credentials := creds; pf_configs := [base64_encode (sr_bytes cfg)];
                  pf_checkpoint := Some (base64_encode (sr_bytes signed)) |} in
  _ ← check_size proof;
  mret proof.

(** [configs.sort_by_key(|(r, c)| (c.sequence, r.id()))] *)
Definition by_sequence (p q : SignedRecord * StreamConfig) : Prop :=
  sc_sequence p.2 < sc_sequence q.2
  ∨ (sc_sequence p.2 = sc_sequence q.2 ∧ String.le (record_id p.1) (record_id q.1)).
#[local] Instance by_sequence_dec : RelDecision by_sequence.
Proof. intros p q. unfold by_sequence. apply _. Defined.
Definition sorted_configs (a : Authority) : list (SignedRecord * StreamConfig) :=
  merge_sort by_sequence (btree_values (configs a)).

Definition call_proof (a : Authority) : result RecordError CallAuthorityProof :=
  match current_checkpoint a with
  | Some checkpoint =>
      _ ← fail_if (forked a) AuthorityError;
      checkpoint_proof a checkpoint
  | None =>
      _ ← fail_if (forked a) AuthorityError;
      let proof :=
        {| pf_v := 1; pf_checkpoint := None;
           pf_genesis := base64_encode (sr_bytes (genesis a));
           pf_credentials := (λ c, base64_encode (sr_bytes (vc_record c)))
                               <$> btree_values (credentials a);
           pf_configs := (λ p, base64_encode (sr_bytes p.1)) <$> sorted_configs a |} in
      _ ← check_size proof;
      mret proof
  end.

Definition call_proof_signed (a : Authority) (key : string)
    : result RecordError CallAuthorityProof :=
  match controller a with
  | None => Err AuthorityError
  | Some ctrl =>
      if is_owner_managed a || (vc_key ctrl =/= ed25519_verifying_key key) then call_proof a
      else signed ← sign_checkpoint a key; checkpoint_proof a signed
  end.

(** A credential of the proof, verified against the root it names. *)
Definition verify_encoded_credential (bytes : string) : result RecordError VerifiedCredential :=
  record ← parse bytes;
  s ← ok_or (value_as_str (value_index (sr_body record) "root_public_key")) Json;
  raw ← hex 32 s;
  root ← ok_or (vk_from_bytes raw) Signature;
  verify bytes root.

Fixpoint find_credential (id : RecordId) (l : list string)
    : result RecordError VerifiedCredential :=
  match l with
  | [] => Err AuthorityError
  | encoded :: l =>
      bytes ← ok_or (base64_decode encoded) Json;
      if record_of_bytes bytes =/= id then find_credential id l
      else verify_encoded_credential bytes
  end.

Definition proof_credential (p : CallAuthorityProof) (id : RecordId)
    : result RecordError VerifiedCredential :=
  _ ← check_size p;
  find_credential id (pf_credentials p).

Definition decode_proof_record (s : string) : result RecordError SignedRecord :=
  b ← ok_or (base64_decode s) Json; parse b.

(** Every configuration of an ordinary proof must extend the authority. *)
Definition replay_config (a : Authority) (encoded : string) : result RecordError Authority :=
  r ← decode_proof_record encoded;
  admission ← (apply_config a r).2;
  match admission with
  | Applied | Historical => mret (apply_config a r).1
  | _ => Err AuthorityError
  end.

Definition collect_credential (m : gmap RecordId VerifiedCredential) (encoded : string)
    : result RecordError (gmap RecordId VerifiedCredential) :=
  bytes ← ok_or (base64_decode encoded) Json;
  c ← verify_encoded_credential bytes;
  _ ← fail_if (bool_decide (is_Some (m !! vc_id c))) AuthorityError;
  mret (<[vc_id c := c]> m).

Definition verify_with_witness (p : CallAuthorityProof) (sp : SpaceId) (st : StreamId)
    (pin : option WitnessPin) : result RecordError Authority :=
  _ ← check_size p;
  g ← decode_proof_record (pf_genesis p);
  body ← decode (T := SpaceGenesis) g;
  _ ← fail_if ((sg_witness body =/= pin)
               || negb (Bool.eqb (sg_v body =? 4) (bool_decide (is_Some pin)))) AuthorityError;
  owner ← ok_or (find_first (λ o, ow_identity_id o === sg_issuer_identity body)
                   (sg_owners body)) AuthorityError;
  raw ← hex 32 (ow_root_public_key owner);
  root ← ok_or (vk_from_bytes raw) Signature;
  creds ← try_fold collect_credential ∅ (pf_credentials p);
  ctrl ← ok_or (creds !! sg_controller_credential_id body) AuthorityError;
  a ← new (sr_bytes g) sp root ctrl st;
  let a := foldl add_credential a (btree_values creds) in
  match pf_checkpoint p with
  | Some checkpoint =>
      signed ← decode_proof_record checkpoint;
      cfg ← (encoded ← ok_or (pf_configs p !! 0%nat) AuthorityError;
             decode_proof_record encoded);
      load_checkpoint a signed cfg
  | None =>
      a ← try_fold replay_config a (pf_configs p);
      _ ← fail_if (forked a) AuthorityError;
      _ ← head_config a;
      mret a
  end.

Definition proof_verify (p : CallAuthorityProof) (sp : SpaceId) (st : StreamId) :=
  verify_with_witness p sp st None.
Definition verify_witnessed (p : CallAuthorityProof) (sp : SpaceId) (st : StreamId)
    (pin : WitnessPin) : result RecordError Authority :=
  _ ← pin_validate pin;
  verify_with_witness p sp st (Some pin).

(** ** Chat messages under an authority *)

Definition expected_recipients (a : Authority) (cfg author : RecordId)
    : result RecordError (list IdentityId * list RecordId) :=
  c ← config a cfg;
  author ← credential a author;
  _ ← fail_if (negb (existsb (λ m, (m_identity_id m === vc_identity author)
                                   && contains (m_credential_ids m) (vc_id author))
                       (sc_members c))) AuthorityError;
  let readers := m_identity_id <$> List.filter (λ m, has_capability m Read) (sc_members c) in
  let ids := mjoin (m_credential_ids <$>
               List.filter (λ m, contains readers (m_identity_id m)) (sc_members c)) in
  mret (readers, sorted_set (ids ++ [vc_id author])).

Definition direct_human_peer (a : Authority) (m : ChatMessage) : option IdentityId :=
  c ← to_option (config a (chat_config_id m));
  if negb (sc_chat_kind c === Some KDirect) || negb (nlen (audience m) =? 2) then None
  else
    let humans := m_identity_id <$>
      List.filter (λ m, (m_identity_type m === "HUMAN") && has_capability m Read)
        (sc_members c) in
    if (nlen humans =? 2) && forallb (contains (audience m)) humans
    then find_first (λ id, id =/= issuer_identity m) humans
    else None.

(** [now] is the wall clock read by [current_message_time_is_valid]. *)
Definition verify_historical (a : Authority) (r : SignedRecord) (now : option N)
    : result RecordError ChatMessage :=
  m ← chat r;
  _ ← fail_if (match access m with
               | Some acc => bool_decide (is_Some (accept_secret acc))
               | None => false
               end && bool_decide (direct_human_peer a m = None)) AuthorityError;
  _ ← fail_if (negb (current_message_time_is_valid (logical_time m) now)) AuthorityError;
  _ ← fail_if ((chat_space_id m =/= space a) || (chat_stream_id m =/= stream a)) AuthorityError;
  author ← credential a (issuer_credential m);
  _ ← verify_chat author r;
  '(aud, recipients) ← expected_recipients a (chat_config_id m) (issuer_credential m);
  _ ← fail_if (negb (has a (chat_config_id m) (issuer_identity m) Post)
               || (audience m =/= aud)
               || (recipient_credentials m =/= recipients)) AuthorityError;
  mret m.

Definition admission (a : Authority) (r : SignedRecord) (recipient : RecordId)
    (already_accepted : bool) (now : option N) : result RecordError Admission :=
  m ← chat r;
  _ ← fail_if ((chat_space_id m =/= space a) || (chat_stream_id m =/= stream a)) AuthorityError;
  if negb (bool_decide (is_Some (configs a !! chat_config_id m))) then mret AdmWaitingForProof
  else
    _ ← verify_historical a r now;
    _ ← fail_if (negb (contains (recipient_credentials m) recipient)) AuthorityError;
    if already_accepted then mret Accepted
    else if forked a then mret AdmForked
    else if negb (Some (chat_config_id m) === head a) then mret QuarantinedStale
    else mret Accepted.

(** [ChatAuthority::verify] *)
Definition verify_message (a : Authority) (r : SignedRecord) (recipient : RecordId)
    (now : option N) : result RecordError ChatMessage :=
  adm ← admission a r recipient false now;
  _ ← fail_if (adm =/= Accepted) AuthorityError;
  chat r.

Definition address_chat (a : Authority) (m : ChatMessage) (cfg : RecordId)
    (own : VerifiedCredential) (aud : list IdentityId) (recipients : list RecordId)
    : ChatMessage :=
  {| chat_v := chat_v m; chat_kind_ := chat_kind_ m; chat_nonce := chat_nonce m;
     chat_space_id := space a; chat_stream_id := stream a;
     issuer_identity := vc_identity own; issuer_credential := issuer_credential m;
     chat_config_id := cfg; audience := aud; recipient_credentials := recipients;
     logical_time := logical_time m; created_at := created_at m; parents := parents m;
     payload := payload m; locator := locator m; access := access m |}.

Definition prepare_chat (a : Authority) (m : ChatMessage) (key : string) (now : option N)
    : result RecordError SignedRecord :=
  _ ← fail_if (forked a) AuthorityError;
  id ← ok_or (head a) AuthorityError;
  own ← credential a (issuer_credential m);
  _ ← fail_if (vc_key own =/= ed25519_verifying_key key) AuthorityError;
  '(aud, recipients) ← expected_recipients a id (vc_id own);
  r ← chat_sign (address_chat a m id own aud recipients) key;
  _ ← verify_message a r (vc_id own) now;
  mret r.

End Proofs.
