(* ===== verification/AuthorityInv.v ===== *)
(** * The authority invariant

    Which authorities the crate can hold ([reachable]), the invariant of their
    stored configurations ([chain_ok]), and the walks along their ancestry. *)

From S2P Require Import Prelude Platform Ids Record Chat Identity AuthorityData AuthorityWitness Authority AuthorityProof.

(** Name the body of the loop in the goal. *)
Ltac set_step body :=
  match goal with |- context [try_fold ?f _ _] => set (body := f) end.

Section Invariant.
Context `{P : Platform} {S : AuthoritySerde} {W : WitnessSerde}.

Abbreviation store := (gmap string (SignedRecord * StreamConfig)) (only parsing).

(** A configuration hangs from its stored parent, one later in sequence. *)
Definition parent_ok (m : store) (c : StreamConfig) : Prop :=
  match sc_previous_config_id c with
  | None => sc_sequence c = 1
  | Some p => ∃ r q, m !! p = Some (r, q) ∧ sc_sequence c = sc_sequence q + 1
                     ∧ (is_Some (sc_chat_kind q) → sc_chat_kind c = sc_chat_kind q)
  end.

(** The recovery certificate of a configuration, if any, is well formed. *)
Definition recovery_ok (c : StreamConfig) : Prop :=
  ∃ o, embedded c = Ok o ∧
       ∀ r, o = Some r → ∃ b, decode (T := ControllerRecovery) r = Ok b.

Record config_ok (a : Authority) (id : RecordId) (r : SignedRecord) (c : StreamConfig) : Prop := {
  config_id_ok : record_id r = id;
  config_decodes : decode r = Ok c;
  config_parent : parent_ok (configs a) c;
  config_recovery : is_owner_managed a = false → recovery_ok c;
  config_members : NoDup (m_identity_id <$> sc_members c);
  config_owners : owners_ok a c = Ok tt;
}.

Record chain_ok (a : Authority) : Prop := {
  chain_configs : ∀ id r c, configs a !! id = Some (r, c) → config_ok a id r c;
  chain_size : N.of_nat (size (configs a)) ≤ 4096;
  chain_pin : is_Some (witness_pin a) → is_owner_managed a = true;
  chain_complete : checkpoint_evidence a = None;
  chain_selected : select_controller_head a = Ok a;
}.

Inductive reachable : Authority → Prop :=
| reach_new bytes pinned root ctrl stream a :
    new bytes pinned root ctrl stream = Ok a → reachable a
| reach_credential a c : reachable a → reachable (add_credential a c)
| reach_config a r : reachable a → reachable (apply_config a r).1
| reach_checkpoint a r a' :
    reachable a → accept_cached_checkpoint a r = Ok a' → reachable a'.

(** ** Selecting the head *)

Lemma select_idempotent a a' :
  select_controller_head a = Ok a' → select_controller_head a' = Ok a'.
Proof.
  unfold select_controller_head. destruct (is_owner_managed a) eqn:Hm.
  - destruct (any_repeat _) eqn:Hr; intros [= <-].
    + change (is_owner_managed (set_head a _ _)) with (is_owner_managed a).
      cbn [configs set_head]. by rewrite Hm, Hr.
    + change (is_owner_managed (set_head a _ _)) with (is_owner_managed a).
      cbn [configs set_head]. by rewrite Hm, Hr.
  - intros (certs & Hcerts & (cur & Hcur & H)%bind_Ok)%bind_Ok.
    assert (∃ h f, a' = set_head a h f) as (h & f & ->).
    { destruct cur; [destruct (_ || _)|]; injection H as <-; eauto. }
    change (is_owner_managed (set_head a h f)) with (is_owner_managed a).
    change (recovery_records (set_head a h f)) with (recovery_records a).
    change (current_controller (set_head a h f)) with (current_controller a).
    cbn [configs set_head]. rewrite Hm, Hcerts. cbn. rewrite Hcur. cbn.
    destruct cur as [cur|]; [|by injection H as <- <-].
    destruct (_ || _); by injection H as <- <-.
Qed.

Lemma select_frame a a' :
  select_controller_head a = Ok a' → ∃ h f, a' = set_head a h f.
Proof.
  unfold select_controller_head. destruct (is_owner_managed a).
  - destruct (any_repeat _); intros [= <-]; eauto.
  - intros (certs & _ & (cur & _ & H)%bind_Ok)%bind_Ok.
    destruct cur; [destruct (_ || _)|]; injection H as <-; eauto.
Qed.

Lemma insert_recovery_elem k r l x :
  x ∈ (insert_recovery k r l).*2 → x = r ∨ x ∈ l.*2.
Proof.
  induction l as [|[k' r'] l IH]; cbn [insert_recovery]; [cbn; set_solver|].
  destruct (k === k'); [cbn; set_solver|].
  destruct (_ || _); cbn; [set_solver|].
  intros [->|Hx]%elem_of_cons; set_solver.
Qed.

Lemma recovery_records_ok a :
  checkpoint_evidence a = None →
  (∀ id r c, configs a !! id = Some (r, c) → recovery_ok c) →
  ∃ l, recovery_records a = Ok l ∧
       ∀ r, r ∈ l → ∃ b, decode (T := ControllerRecovery) r = Ok b.
Proof.
  intros Hcp Hall. unfold recovery_records. rewrite Hcp.
  assert (∀ rc, rc ∈ btree_values (configs a) → recovery_ok rc.2) as Hrec.
  { intros [r c] [k Hk]%btree_values_elem. by eapply Hall. }
  generalize dependent (btree_values (configs a)). intros l Hrec.
  set_step body.
  assert (∀ acc : list (N * RecordId * SignedRecord),
    (∀ r, r ∈ acc.*2 → ∃ b, decode (T := ControllerRecovery) r = Ok b) →
    ∃ recs, try_fold body acc l = Ok recs ∧
            ∀ r, r ∈ recs.*2 → ∃ b, decode (T := ControllerRecovery) r = Ok b) as Hfold.
  { induction l as [|[r c] l IH]; intros acc Hacc; cbn; [by eauto|].
    destruct (Hrec (r, c)) as (o & Ho & Hd); [constructor|]. cbn in Ho, Hd.
    rewrite Ho. cbn. destruct o as [cert|].
    - destruct (Hd cert) as [b Hb]; [done|]. rewrite Hb. cbn.
      apply IH; [set_solver|].
      intros x [->|Hx]%insert_recovery_elem; eauto.
    - cbn. apply IH; [set_solver|done]. }
  destruct (Hfold []) as (recs & -> & Hok); [cbn; set_solver|]. cbn. eauto.
Qed.

Lemma current_controller_ok a l :
  (∀ r, r ∈ l → ∃ b, decode (T := ControllerRecovery) r = Ok b) →
  ∃ c, current_controller a l = Ok c.
Proof.
  intros Hl. unfold current_controller.
  set_step body.
  assert (∀ s, ∃ s', try_fold body s l = Ok s') as Hfold.
  { induction l as [|r l IH]; intros s; cbn; [by eauto|].
    destruct (Hl r) as [b Hb]; [constructor|].
    assert (∃ s1, body s r = Ok s1) as [s1 Hs1].
    { unfold body. destruct s as [ch [cur|]]; [|by eauto].
      rewrite Hb. cbn. destruct (contains _ _); eauto. }
    rewrite Hs1. cbn. apply IH. set_solver. }
  destruct (Hfold ([], Some (sg_controller_credential_id (gbody a)))) as [s ->].
  cbn. eauto.
Qed.

(** The selection cannot fail over well-formed recovery certificates. *)
Lemma select_total a :
  checkpoint_evidence a = None →
  (is_owner_managed a = false → ∀ id r c, configs a !! id = Some (r, c) → recovery_ok c) →
  ∃ a', select_controller_head a = Ok a'.
Proof.
  intros Hcp Hall. unfold select_controller_head. destruct (is_owner_managed a).
  - destruct (any_repeat _); eauto.
  - destruct (recovery_records_ok a Hcp) as (l & -> & Hl); [by apply Hall|]. cbn.
    destruct (current_controller_ok a l Hl) as [c ->]. cbn.
    destruct c as [c|]; [destruct (_ || _)|]; eauto.
Qed.

(** ** One accepted configuration *)

(** What [check_config] has established when it lets a configuration in. *)
Record accepted (a : Authority) (record : SignedRecord) (c : StreamConfig) : Prop := {
  acc_live : checkpoint_evidence a = None;
  acc_new : configs a !! record_id record = None;
  acc_decodes : decode record = Ok c;
  acc_signed : config_signature_ok a record c = Ok tt;
  acc_valid : validate_config a c = Ok tt;
  acc_parent : parent_ok (configs a) c;
  acc_transition : validate_controller_transition a c = Ok tt;
  acc_room : N.of_nat (size (configs a)) < 4096;
}.

Lemma prior_sequence_parent a c s :
  prior_sequence a c = Ok (Some s) → sc_sequence c = s + 1 → parent_ok (configs a) c.
Proof.
  unfold prior_sequence, parent_ok.
  destruct (sc_previous_config_id c) as [p|]; [|intros [= <-]; lia].
  destruct (configs a !! p) as [[r q]|] eqn:Hp; [|done].
  intros (u & Hk%fail_if_Ok & [= <-])%bind_Ok Hs. exists r, q. split; [done|]. split; [done|].
  intros Hc. rewrite bool_decide_eq_true_2 in Hk by done. cbn in Hk.
  by apply bool_decide_eq_negb_false in Hk.
Qed.

Lemma check_config_accepted a record c :
  check_config a record = Ok (inr c) ↔ accepted a record c.
Proof.
  unfold check_config. split.
  - intros (u & Hcp%fail_if_Ok & H)%bind_Ok.
    destruct (bool_decide _) eqn:Hin in H; [done|].
    apply bool_decide_eq_false in Hcp, Hin.
    apply eq_None_not_Some in Hcp, Hin.
    inv_ok. destruct u, x0, x1. rename x into c'.
    destruct x2 as [s|]; [|done]. inv_ok.
    injection H as ->. destruct x0.
    split; try done.
    + eapply prior_sequence_parent; [done|]. by apply N.eqb_eq.
    + by apply N.leb_gt.
  - intros [Hcp Hin Hd Hs Hv Hp Ht Hr]. rewrite Hcp, Hin. cbn. rewrite Hd. cbn.
    rewrite Hs. cbn. rewrite Hv. cbn.
    assert (∃ s, prior_sequence a c = Ok (Some s) ∧ sc_sequence c = s + 1) as (s & -> & Hseq).
    { unfold prior_sequence, parent_ok in *.
      destruct (sc_previous_config_id c) as [p|]; [|by exists 0].
      destruct Hp as (r & q & -> & Hq & Hk). exists (sc_sequence q).
      rewrite fail_if_pass; [done|]. rewrite andb_false_iff, bool_decide_eq_negb_false.
      destruct (bool_decide _) eqn:Hb; [|by left].
      right. apply Hk. by apply bool_decide_eq_true in Hb. }
    cbn. rewrite Hseq, N.eqb_refl. cbn. rewrite Ht. cbn.
    rewrite (proj2 (N.leb_gt _ _)) by done. done.
Qed.

Lemma validate_config_owners a c : validate_config a c = Ok tt → owners_ok a c = Ok tt.
Proof. unfold validate_config. intros H. by inv_ok. Qed.

Lemma validate_config_members a c :
  validate_config a c = Ok tt → NoDup (m_identity_id <$> sc_members c).
Proof.
  unfold validate_config. intros H. inv_ok. eauto with elo.
Qed.

(** A transition of a single-controller authority carries a readable certificate. *)
Lemma transition_recovery a c :
  is_owner_managed a = false → witness_pin a = None →
  validate_controller_transition a c = Ok tt → recovery_ok c.
Proof.
  intros Hm Hpin. unfold validate_controller_transition. rewrite Hm, Hpin. cbn.
  intros (parent & _ & (u & _ & H)%bind_Ok)%bind_Ok.
  unfold single_controller_transition in H. apply bind_Ok in H as (o & Ho & H).
  exists o. split; [done|]. intros r ->. unfold recovery_transition in H.
  inv_ok. eauto.
Qed.

(** ** Preservation *)

(** [apply_config] either leaves the authority alone or inserts an accepted
    configuration and selects the head. *)
Lemma apply_config_cases a record :
  chain_ok a →
  (apply_config a record).1 = a
  ∨ ∃ c a', accepted a record c
      ∧ select_controller_head
          (set_configs a (<[record_id record := (record, c)]> (configs a))) = Ok a'
      ∧ apply_config a record =
          (a', Ok (if forked a' then Forked
                   else if head a' === Some (record_id record) then Applied else Historical)).
Proof.
  intros Hok. unfold apply_config.
  destruct (check_config a record) as [[adm|c]|e] eqn:Hc; [by left | | by left].
  apply check_config_accepted in Hc. right. exists c.
  set (ins := set_configs a _).
  destruct (select_total ins) as [a' Ha'].
  - exact (acc_live _ _ _ Hc).
  - intros Hm id r q. unfold ins. cbn [configs set_configs].
    rewrite lookup_insert_Some. intros [[_ [= <- <-]]|[_ Hq]].
    + assert (witness_pin a = None) as Hpin.
      { apply eq_None_not_Some. intros Hs. pose proof (chain_pin a Hok Hs) as Ht.
        change (is_owner_managed ins) with (is_owner_managed a) in Hm. congruence. }
      apply (transition_recovery a); [exact Hm|exact Hpin|exact (acc_transition _ _ _ Hc)].
    + eapply config_recovery; [by eapply chain_configs|exact Hm].
  - exists a'. rewrite Ha'. done.
Qed.

Lemma parent_ok_mono (m m' : store) c : m ⊆ m' → parent_ok m c → parent_ok m' c.
Proof.
  unfold parent_ok. intros Hm. destruct (sc_previous_config_id c); [|done].
  intros (r & q & Hq & ?). exists r, q. split; [by eapply lookup_weaken|done].
Qed.

Lemma accepted_config_ok a record c :
  chain_ok a → accepted a record c →
  is_owner_managed a = false → recovery_ok c.
Proof.
  intros Hok Hc Hm. eapply transition_recovery; [done| |by eapply acc_transition].
  apply eq_None_not_Some. intros Hs%(chain_pin _ Hok). congruence.
Qed.

Lemma apply_config_chain a record : chain_ok a → chain_ok (apply_config a record).1.
Proof.
  intros Hok. destruct (apply_config_cases a record Hok) as [->|(c & a' & Hc & Hsel & ->)];
    [done|]. cbn [fst].
  pose proof (select_frame _ _ Hsel) as (h & f & Ha').
  split.
  - intros id r q. rewrite Ha'. cbn [configs set_head set_configs].
    intros [[<- [= <- <-]]|[Hne Hq]]%lookup_insert_Some.
    + split; [done|by eapply acc_decodes| | | |].
      * eapply parent_ok_mono; [|by eapply acc_parent].
        cbn. apply insert_subseteq. by eapply acc_new.
      * by apply (accepted_config_ok a record).
      * by eapply validate_config_members, acc_valid.
      * apply validate_config_owners, (acc_valid _ _ _ Hc).
    + destruct (chain_configs a Hok _ _ _ Hq) as [H1 H2 H3 H4 H5 H6]. split; try done.
      eapply parent_ok_mono; [|done]. cbn. apply insert_subseteq. by eapply acc_new.
  - rewrite Ha'. cbn [configs set_head set_configs].
    rewrite map_size_insert_None by (by eapply acc_new).
    pose proof (acc_room _ _ _ Hc). lia.
  - rewrite Ha'. apply (chain_pin a Hok).
  - rewrite Ha'. apply (chain_complete a Hok).
  - by eapply select_idempotent.
Qed.

Lemma set_head_same a h f :
  @Ok RecordError _ (set_head a h f) = Ok a ↔ h = head a ∧ f = forked a.
Proof. destruct a. cbn. split; [by intros [= -> ->]|by intros [-> ->]]. Qed.

Lemma config_ok_frame a a' id r c :
  gbody a' = gbody a → configs a' = configs a → config_ok a id r c → config_ok a' id r c.
Proof.
  intros Hg Hc [H1 H2 H3 H4 H5 H6]. split; [done|done|by rewrite Hc| |done|].
  - unfold is_owner_managed in *. by rewrite Hg.
  - revert H6. unfold owners_ok, owner_members, owners_rejected, is_owner_managed.
    by rewrite Hg.
Qed.

(** The invariant does not look at credentials, genesis bytes or cached records. *)
Lemma chain_ok_frame a a' :
  gbody a' = gbody a → configs a' = configs a → head a' = head a → forked a' = forked a →
  checkpoint_evidence a' = checkpoint_evidence a → chain_ok a → chain_ok a'.
Proof.
  intros Hg Hc Hh Hf Hcp [H1 H2 H3 H4 H5].
  split; [|by rewrite Hc| |by rewrite Hcp|].
  - intros id r q Hq. rewrite Hc in Hq. eapply config_ok_frame; eauto.
  - unfold witness_pin, is_owner_managed in *. by rewrite Hg.
  - revert H5. unfold select_controller_head, is_owner_managed, recovery_records,
      current_controller, mret, result_ret. rewrite Hg, Hc, Hcp, Hh.
    destruct (contains [2; 4] _).
    + destruct (any_repeat _); rewrite !set_head_same; by rewrite Hh, Hf.
    + rewrite !bind_Ok. intros (certs & -> & H). exists certs. split; [done|]. revert H.
      rewrite !bind_Ok. intros (cur & -> & H). exists cur. split; [done|]. revert H.
      destruct cur as [cur|]; [destruct (_ || _)|]; rewrite !set_head_same; by rewrite Hh, Hf.
Qed.

Lemma genesis_pin_managed body u :
  genesis_witness_ok body = Ok u → is_Some (sg_witness body) →
  contains [2; 4] (sg_v body) = true.
Proof.
  unfold genesis_witness_ok. intros H [pin Hp]. rewrite Hp in H.
  destruct (N.eqb_spec (sg_v body) 4) as [->|]; [done|discriminate].
Qed.

Lemma new_chain bytes pinned root ctrl st a :
  new bytes pinned root ctrl st = Ok a → chain_ok a.
Proof.
  unfold new. intros H. inv_ok. split; [done|done| |done|].
  - by eapply genesis_pin_managed.
  - unfold select_controller_head. cbn.
    destruct (is_owner_managed _); done.
Qed.

(** Every authority the crate can build satisfies the invariant. *)
Lemma reachable_chain a : reachable a → chain_ok a.
Proof.
  induction 1 as [bytes pinned root ctrl st a Hnew|a c _ IH|a r _ IH|a r a' _ IH Ha'].
  - by eapply new_chain.
  - by eapply (chain_ok_frame a).
  - by apply apply_config_chain.
  - unfold accept_cached_checkpoint in Ha'. inv_ok. by eapply (chain_ok_frame a).
Qed.

(** ** Walks along the ancestry *)

Lemma walk_fuel_mono n k a cursor l :
  (n ≤ k)%nat → walk n a cursor = Some l → walk k a cursor = Some l.
Proof.
  revert k cursor l. induction n as [|n IH]; intros [|k] [id|] l Hle; cbn; try done; try lia.
  destruct (config a id) as [c|e]; [|done].
  destruct (walk n a (sc_previous_config_id c)) as [rest|] eqn:Hw; [|done].
  intros [= <-]. by rewrite (IH k _ _ ltac:(lia) Hw).
Qed.

(** [lineage a cursor l]: [l] lists the stored ancestors from [cursor], newest first. *)
Inductive lineage (a : Authority) : option RecordId → list (RecordId * StreamConfig) → Prop :=
| lineage_end : lineage a None []
| lineage_step id r c l :
    configs a !! id = Some (r, c) →
    lineage a (sc_previous_config_id c) l → lineage a (Some id) ((id, c) :: l).

Lemma config_lookup a id r c : configs a !! id = Some (r, c) → config a id = Ok c.
Proof. unfold config. by intros ->. Qed.

Lemma lineage_walk a cursor l :
  lineage a cursor l → walk (length l) a cursor = Some (Ok l).
Proof.
  induction 1 as [|id r c l Hid _ IH]; cbn; [done|].
  by rewrite (config_lookup _ _ _ _ Hid), IH.
Qed.

Lemma lineage_unique a cursor l l' : lineage a cursor l → lineage a cursor l' → l = l'.
Proof.
  intros H. revert l'. induction H as [|id r c l Hid _ IH]; inversion 1; subst; [done|].
  simplify_eq. f_equal. by apply IH.
Qed.

Lemma lineage_lookup a cursor l id c :
  lineage a cursor l → (id, c) ∈ l → ∃ r, configs a !! id = Some (r, c).
Proof.
  induction 1 as [|id' r c' l Hid _ IH]; [set_solver|].
  intros [[= -> ->]|?]%elem_of_cons; eauto.
Qed.

Lemma lineage_sequence a cursor l :
  lineage a cursor l → chain_ok a →
  ∀ i id c, l !! i = Some (id, c) → sc_sequence c + N.of_nat i = nlen l.
Proof.
  intros H Hok. unfold nlen. induction H as [|id r c l Hid Hl IH]; [done|].
  intros [|i] id' c' Hi; cbn in Hi.
  - injection Hi as <- <-.
    pose proof (config_parent _ _ _ _ (chain_configs _ Hok _ _ _ Hid)) as Hp.
    unfold parent_ok in Hp.
    inversion Hl as [Hn|id1 r1 c1 l1 Hid1 Hl1 Hn]; subst; rewrite <-Hn in Hp; cbn [length].
    + lia.
    + destruct Hp as (r2 & q & Hq & -> & _). simplify_eq.
      specialize (IH 0%nat _ _ eq_refl). cbn [length] in *. lia.
  - specialize (IH _ _ _ Hi). cbn [length]. lia.
Qed.

Lemma lineage_NoDup a cursor l : lineage a cursor l → chain_ok a → NoDup l.*1.
Proof.
  intros H Hok. apply NoDup_alt. intros i j id Hi Hj.
  apply list_lookup_fmap_Some in Hi as ([id1 c1] & -> & Hi).
  apply list_lookup_fmap_Some in Hj as ([id2 c2] & Heq & Hj). cbn in Heq. subst id2.
  pose proof (lineage_sequence _ _ _ H Hok _ _ _ Hi).
  pose proof (lineage_sequence _ _ _ H Hok _ _ _ Hj).
  destruct (lineage_lookup _ _ _ _ _ H (list_elem_of_lookup_2 _ _ _ Hi)) as [r1 Hr1].
  destruct (lineage_lookup _ _ _ _ _ H (list_elem_of_lookup_2 _ _ _ Hj)) as [r2 Hr2].
  simplify_eq. lia.
Qed.

(** Distinct stored identifiers: a lineage is no longer than the store. *)
Lemma lineage_length a cursor l :
  lineage a cursor l → chain_ok a → (length l ≤ size (configs a))%nat.
Proof.
  intros H Hok. rewrite <-size_dom, <-(length_fmap fst).
  rewrite <-(size_list_to_set (C := gset string)) by (by eapply lineage_NoDup).
  apply subseteq_size. intros id. rewrite elem_of_list_to_set, list_elem_of_fmap.
  intros ([id' c] & -> & Hin). apply elem_of_dom.
  destruct (lineage_lookup _ _ _ _ _ H Hin) as [r Hr]. by exists (r, c).
Qed.

Lemma lineage_exists a :
  chain_ok a → ∀ n id r c, configs a !! id = Some (r, c) → sc_sequence c = N.of_nat n →
  ∃ l, lineage a (Some id) l.
Proof.
  intros Hok n. induction n as [|n IH]; intros id r c Hid Hs;
    pose proof (config_parent _ _ _ _ (chain_configs _ Hok _ _ _ Hid)) as Hp;
    unfold parent_ok in Hp; destruct (sc_previous_config_id c) as [p|] eqn:Hc.
  - destruct Hp as (? & ? & _ & ? & _). lia.
  - lia.
  - destruct Hp as (r' & q & Hq & Hseq & _).
    destruct (IH p r' q Hq) as [l Hl]; [lia|].
    exists ((id, c) :: l). econstructor; [done|]. by rewrite Hc.
  - exists [(id, c)]. econstructor; [done|]. rewrite Hc. apply lineage_end.
Qed.

(** The fuel of [ancestry_from] reaches the first configuration. *)
Lemma ancestry_lineage a id r c :
  chain_ok a → configs a !! id = Some (r, c) →
  ∃ l, ancestry_from a (Some id) = Ok l ∧ lineage a (Some id) l.
Proof.
  intros Hok Hid.
  destruct (lineage_exists a Hok (N.to_nat (sc_sequence c)) id r c Hid ltac:(lia)) as [l Hl].
  exists l. split; [|done]. unfold ancestry_from.
  rewrite (walk_fuel_mono (length l) (walk_fuel a) a (Some id) (Ok l)); [done| |by apply lineage_walk].
  pose proof (lineage_length _ _ _ Hl Hok). unfold walk_fuel. lia.
Qed.

Lemma ancestry_from_lineage a cursor l :
  chain_ok a → ancestry_from a cursor = Ok l → lineage a cursor l.
Proof.
  intros Hok. destruct cursor as [id|]; [|cbn; intros [= <-]; constructor].
  intros Ha. destruct (configs a !! id) as [[r c]|] eqn:Hid.
  - destruct (ancestry_lineage a id r c Hok Hid) as (l' & Hl' & Hlin). congruence.
  - unfold ancestry_from, walk_fuel in Ha. cbn in Ha. unfold config in Ha.
    rewrite Hid in Ha. done.
Qed.

End Invariant.
