(* ===== verification/AuthorityFacts.v ===== *)
(** * Correctness of the authority state machine

    Atomicity of [apply_config], termination of the ancestry walks, the single
    chain of an unforked owner-managed authority, and the protection of its
    creator. *)

From S2P Require Import Prelude Platform Ids Record Chat Identity AuthorityData AuthorityWitness Authority AuthorityProof AuthorityInv.

Section Facts.
Context `{P : Platform} {S : AuthoritySerde} {W : WitnessSerde}.

(** ** Lineages *)

Lemma lineage_next a cursor l :
  lineage a cursor l →
  ∀ i id c, l !! i = Some (id, c) → sc_previous_config_id c = fst <$> l !! Datatypes.S i.
Proof.
  induction 1 as [|id r c l Hid Hl IH]; [done|].
  intros [|i] id' c' Hi; cbn in Hi |- *; [|by apply IH in Hi].
  injection Hi as <- <-. by inversion Hl.
Qed.

Lemma lineage_head a id l : lineage a (Some id) l → ∃ c, l !! 0%nat = Some (id, c).
Proof. inversion 1; subst. eauto. Qed.

(** ** The owner-managed chain *)

Abbreviation previous_of a id q :=
  (∃ r c, configs a !! id = Some (r, c) ∧ sc_previous_config_id c = q) (only parsing).

Lemma owner_managed_select a :
  chain_ok a → is_owner_managed a = true →
  if any_repeat (parents_of (btree_list (configs a))) then forked a = true
  else forked a = false ∧ head a = best_head (btree_list (configs a)).
Proof.
  intros Hok Hm. pose proof (chain_selected a Hok) as Hs.
  unfold select_controller_head, mret, result_ret in Hs. rewrite Hm in Hs.
  destruct (any_repeat _); apply set_head_same in Hs; naive_solver.
Qed.

(** No two stored configurations share a parent. *)
Definition unshared (a : Authority) : Prop :=
  ∀ id1 id2 r1 r2 c1 c2,
    configs a !! id1 = Some (r1, c1) → configs a !! id2 = Some (r2, c2) →
    sc_previous_config_id c1 = sc_previous_config_id c2 → id1 = id2.

Lemma any_repeat_unshared a :
  any_repeat (parents_of (btree_list (configs a))) = false ↔ unshared a.
Proof.
  rewrite any_repeat_false. unfold parents_of, unshared. split.
  - intros Hn id1 id2 r1 r2 c1 c2 H1 H2 Heq.
    apply btree_list_elem in H1, H2.
    by pose proof (NoDup_fmap_eq _ _ _ _ Hn H1 H2 Heq) as [= -> -> ->].
  - intros Hu. apply NoDup_fmap_2_strong.
    + intros [id1 [r1 c1]] [id2 [r2 c2]] H1 H2 Heq. apply btree_list_elem in H1, H2.
      cbn in Heq. pose proof (Hu _ _ _ _ _ _ H1 H2 Heq) as ->. congruence.
    + eapply NoDup_fmap_1, btree_list_NoDup.
Qed.

Lemma owner_managed_forked a :
  chain_ok a → is_owner_managed a = true → forked a = false ↔ unshared a.
Proof.
  intros Hok Hm. rewrite <-any_repeat_unshared.
  pose proof (owner_managed_select a Hok Hm) as Hs.
  destruct (any_repeat _); [split; congruence|]. by destruct Hs.
Qed.

(** The head of an unforked authority is a configuration of maximal sequence. *)
Lemma owner_managed_head a :
  chain_ok a → is_owner_managed a = true → forked a = false →
  match head a with
  | None => configs a = ∅
  | Some h => ∃ rh ch, configs a !! h = Some (rh, ch)
      ∧ ∀ id r c, configs a !! id = Some (r, c) → sc_sequence c ≤ sc_sequence ch
  end.
Proof.
  intros Hok Hm Hf. pose proof (owner_managed_select a Hok Hm) as Hs.
  destruct (any_repeat _); [congruence|]. destruct Hs as [_ ->]. unfold best_head.
  destruct (max_by_key sequence_of (btree_list (configs a))) as [[h [rh ch]]|] eqn:Hb; cbn.
  - apply max_by_key_Some in Hb as [Hin Hmax]. apply btree_list_elem in Hin.
    exists rh, ch. split; [done|]. intros id r c Hid%btree_list_elem.
    apply (Hmax _ Hid).
  - apply max_by_key_None in Hb. apply map_eq. intros id. rewrite lookup_empty.
    destruct (configs a !! id) as [rc|] eqn:Hid; [|done].
    apply btree_list_elem in Hid. rewrite Hb in Hid. by apply elem_of_nil in Hid.
Qed.

(** With unshared parents every stored configuration lies on the lineage. *)
Lemma unshared_on_lineage a h l :
  chain_ok a → unshared a → lineage a (Some h) l →
  ∀ n id r c, sc_sequence c = N.of_nat n → configs a !! id = Some (r, c) →
  sc_sequence c ≤ nlen l → (id, c) ∈ l.
Proof.
  intros Hok Hu Hl n. induction n as [n IH] using lt_wf_ind. intros id r c Hn Hid Hle.
  pose proof (config_parent _ _ _ _ (chain_configs _ Hok _ _ _ Hid)) as Hp.
  assert (1 ≤ sc_sequence c) as Hpos.
  { unfold parent_ok in Hp. destruct (sc_previous_config_id c); [|lia].
    destruct Hp as (? & ? & _ & ? & _). lia. }
  set (i := (length l - n)%nat).
  destruct (lookup_lt_is_Some_2 l i) as [[id' c'] Hi]; [unfold nlen, i in *; lia|].
  pose proof (lineage_sequence _ _ _ Hl Hok _ _ _ Hi) as Hseq.
  destruct (lineage_lookup _ _ _ _ _ Hl (list_elem_of_lookup_2 _ _ _ Hi)) as [r' Hid'].
  assert (id' = id) as ->; [|simplify_eq; by eapply list_elem_of_lookup_2].
  eapply Hu; [exact Hid'|exact Hid|].
  rewrite (lineage_next _ _ _ Hl _ _ _ Hi). unfold parent_ok in Hp.
  destruct (sc_previous_config_id c) as [p|] eqn:Hprev.
  - destruct Hp as (rp & q & Hq & Hsq & _).
    assert ((p, q) ∈ l) as Hin.
    { eapply (IH (n - 1)%nat); [lia| |exact Hq|lia]. lia. }
    apply list_elem_of_lookup_1 in Hin as [j Hj].
    pose proof (lineage_sequence _ _ _ Hl Hok _ _ _ Hj).
    assert (j = Datatypes.S i) as ->; [unfold nlen, i in *; lia|]. by rewrite Hj.
  - rewrite lookup_ge_None_2; [done|]. unfold nlen, i in *. lia.
Qed.

(** C1. An owner-managed authority is forked exactly when two of its stored
    configurations name the same parent; otherwise the ancestry of the head is one
    chain that contains every stored configuration. *)
Theorem owner_managed_single_chain a (Ha : reachable a) (Hm : is_owner_managed a = true) :
  (forked a = true ↔
     ∃ id1 id2 r1 r2 c1 c2, id1 ≠ id2
       ∧ configs a !! id1 = Some (r1, c1) ∧ configs a !! id2 = Some (r2, c2)
       ∧ sc_previous_config_id c1 = sc_previous_config_id c2)
  ∧ (forked a = false →
     ∃ l, witness_ancestry a = Ok l ∧ NoDup l.*1
       ∧ ∀ id c, (id, c) ∈ l ↔ ∃ r, configs a !! id = Some (r, c)).
Proof.
  pose proof (reachable_chain a Ha) as Hok. split.
  - pose proof (owner_managed_forked a Hok Hm) as Hf. split.
    + intros Ht. pose proof (owner_managed_select a Hok Hm) as Hs.
      destruct (any_repeat _) eqn:Hr; [|destruct Hs; congruence].
      apply any_repeat_fmap in Hr as ([id1 [r1 c1]] & [id2 [r2 c2]] & H1 & H2 & Hne & Heq);
        [|eapply NoDup_fmap_1, btree_list_NoDup].
      apply btree_list_elem in H1, H2. exists id1, id2, r1, r2, c1, c2.
      repeat split; try done. intros ->. congruence.
    + intros (id1 & id2 & r1 & r2 & c1 & c2 & Hne & H1 & H2 & Heq).
      apply not_false_iff_true. rewrite Hf. intros Hu. apply Hne. by eapply Hu.
  - intros Hf. pose proof (owner_managed_head a Hok Hm Hf) as Hh. unfold witness_ancestry.
    destruct (head a) as [h|].
    + destruct Hh as (rh & ch & Hch & Hmax).
      destruct (ancestry_lineage a h rh ch Hok Hch) as (l & -> & Hl).
      exists l. split; [done|]. split; [by eapply lineage_NoDup|]. intros id c. split.
      * by eapply lineage_lookup.
      * intros [r Hid]. eapply (unshared_on_lineage a h l) with (n := N.to_nat (sc_sequence c));
          [done|by apply owner_managed_forked|done|lia|done|].
        destruct (lineage_head _ _ _ Hl) as [c' Hc'].
        pose proof (lineage_sequence _ _ _ Hl Hok _ _ _ Hc').
        destruct (lineage_lookup _ _ _ _ _ Hl (list_elem_of_lookup_2 _ _ _ Hc')) as [r' Hr'].
        simplify_eq. pose proof (Hmax _ _ _ Hid). lia.
    + exists []. split; [done|]. split; [constructor|]. intros id c. rewrite Hh. split.
      * by intros ?%elem_of_nil.
      * intros [r Hr]. by rewrite lookup_empty in Hr.
Qed.

(** ** Owners *)

Definition full_owner (m : Member) : Prop :=
  m_identity_type m = "HUMAN"
  ∧ ∀ cap, cap ∈ [Read; Post; ShareHistory; Manage] → cap ∈ m_capabilities m.

Lemma owner_fold owners : ∀ ids0 ids,
  try_fold owner_step ids0 owners = Ok ids →
  ids = ids0 ++ mjoin (m_credential_ids <$> owners) ∧ ∀ m, m ∈ owners → full_owner m.
Proof.
  induction owners as [|m l IH]; intros ids0 ids.
  - intros [= <-]. cbn. rewrite app_nil_r. split; [done|set_solver].
  - cbn [try_fold]. intros (k & Hk & Hl)%bind_Ok. apply IH in Hl as [-> Hl].
    unfold owner_step in Hk. inv_ok. split; [cbn; by rewrite app_assoc|].
    intros m' [->|Hm']%elem_of_cons; [|by apply Hl]. split; [done|].
    intros cap Hcap. apply contains_true.
    match goal with H : forallb _ _ = true |- _ => by apply (proj1 (forallb_true _ _) H) end.
Qed.

(** The owner members of an accepted configuration. *)
Lemma owners_ok_inv a c u :
  owners_ok a c = Ok u →
  ∃ owners, owner_members a c = Ok owners ∧ owners_rejected a c owners = false
    ∧ (∀ m, m ∈ owners → full_owner m)
    ∧ sc_owner_credential_ids c = sorted_set (mjoin (m_credential_ids <$> owners))
    ∧ (is_owner_managed a = false ∨ sc_sequence c = 1 →
       sc_controller_credential_id c ∈ sc_owner_credential_ids c).
Proof.
  unfold owners_ok. intros (owners & Ho & (k & Hr%fail_if_Ok & H)%bind_Ok)%bind_Ok.
  apply bind_Ok in H as (ids & Hids & H%fail_if_Ok).
  apply owner_fold in Hids as [-> Hfull]. cbn in H.
  apply orb_false_iff in H as [He Hctl]. apply bool_decide_eq_negb_false in He.
  exists owners. repeat split; try done; [by apply Hfull..|].
  intros Hor. apply andb_false_iff in Hctl as [Hf|Hin].
  - apply orb_false_iff in Hf as [Hm Hs]. apply negb_false_iff in Hm.
    apply N.eqb_neq in Hs. destruct Hor; congruence.
  - by apply contains_true, negb_false_iff.
Qed.

(** In an owner-managed authority the owners are the members with MANAGE. *)
Lemma owner_members_manage a c owners m :
  is_owner_managed a = true → NoDup (m_identity_id <$> sc_members c) → 1 ≤ sc_sequence c →
  owner_members a c = Ok owners → owners_rejected a c owners = false →
  (∀ m, m ∈ owners → full_owner m) →
  m ∈ owners ↔ m ∈ sc_members c ∧ Manage ∈ m_capabilities m.
Proof.
  intros Hm Hn Hpos Ho Hr Hfull. unfold owner_members in Ho. rewrite Hm in Ho. cbn [andb] in Ho.
  destruct (1 <? sc_sequence c) eqn:Hs.
  - injection Ho as <-. rewrite filter_true. unfold has_capability. by rewrite contains_true.
  - apply try_map_Ok in Ho. split.
    + intros Hin. split; [|apply (Hfull m Hin); set_solver].
      apply list_elem_of_lookup_1 in Hin as [i Hi].
      destruct (Forall2_lookup_r _ _ _ _ _ Ho Hi) as (o & _ & Hf%ok_or_Ok).
      by apply find_first_Some in Hf as [? _].
    + intros [Hin Hman]. unfold owners_rejected in Hr.
      apply orb_false_iff in Hr as [_ Hr]. rewrite Hm in Hr. cbn [andb] in Hr.
      apply N.ltb_ge in Hs. assert (sc_sequence c = 1) as H1 by lia.
      rewrite H1 in Hr. cbn [andb N.eqb Pos.eqb] in Hr.
      pose proof (proj1 (existsb_false _ _) Hr m Hin) as Hm1.
      cbn in Hm1. unfold has_capability in Hm1. rewrite (proj2 (contains_true _ _) Hman) in Hm1.
      cbn in Hm1. apply negb_false_iff, existsb_true in Hm1 as (o & Ho1 & Heq).
      apply bool_decide_eq_true in Heq.
      apply list_elem_of_lookup_1 in Ho1 as [i Hi].
      destruct (Forall2_lookup_l _ _ _ _ _ Ho Hi) as (m' & Hm' & Hf%ok_or_Ok).
      apply find_first_Some in Hf as [Hin' [Hid%bool_decide_eq_true _]%andb_true_iff].
      assert (m' = m) as <-.
      { eapply NoDup_fmap_eq; [exact Hn|done|done|]. congruence. }
      by eapply list_elem_of_lookup_2.
Qed.

Lemma parent_ok_positive m c : parent_ok m c → 1 ≤ sc_sequence c.
Proof.
  unfold parent_ok. destruct (sc_previous_config_id c); [|lia].
  intros (? & ? & _ & ? & _). lia.
Qed.

(** In a stored configuration of an owner-managed authority, the owner credentials
    are those of the members with MANAGE, and the creator is one of them. *)
Lemma stored_owners a id r c :
  chain_ok a → is_owner_managed a = true → configs a !! id = Some (r, c) →
  (∀ cred, cred ∈ sc_owner_credential_ids c ↔
     ∃ m, m ∈ sc_members c ∧ Manage ∈ m_capabilities m ∧ cred ∈ m_credential_ids m)
  ∧ ∃ m, m ∈ sc_members c ∧ m_identity_id m = sg_issuer_identity (gbody a) ∧ full_owner m.
Proof.
  intros Hok Hm Hid. destruct (chain_configs _ Hok _ _ _ Hid) as [_ _ Hp _ Hn Ho].
  destruct (owners_ok_inv _ _ _ Ho) as (owners & Hom & Hr & Hfull & -> & _).
  assert (∀ m, m ∈ owners ↔ m ∈ sc_members c ∧ Manage ∈ m_capabilities m) as Heq.
  { intros m. eapply owner_members_manage; try done. by eapply parent_ok_positive. }
  split.
  - intros cred. rewrite sorted_set_elem, elem_of_mjoin_fmap. split.
    + intros (m & [? ?]%Heq & ?). eauto.
    + intros (m & ? & ? & ?). exists m. split; [|done]. by apply Heq.
  - unfold owners_rejected in Hr. apply orb_false_iff in Hr as [Hr _].
    apply orb_false_iff in Hr as [_ Hr]. rewrite Hm in Hr. cbn [andb] in Hr.
    apply negb_false_iff, existsb_true in Hr as (m & Hin & Hid'%bool_decide_eq_true).
    exists m. split; [by apply Heq in Hin as [? _]|]. split; [done|by apply Hfull].
Qed.

(** ** Properties *)

(** [apply_config] on an authority the crate can reach either accepts a fully
    checked configuration, which it stores under its record ID without touching the
    credentials, or leaves the authority exactly as it was. *)
Theorem apply_config_spec a record (Ha : reachable a) :
  let out := apply_config a record in
  (∀ c, accepted a record c →
     configs out.1 = <[record_id record := (record, c)]> (configs a)
     ∧ credentials out.1 = credentials a
     ∧ out.2 = Ok (if forked out.1 then Forked
                   else if head out.1 === Some (record_id record) then Applied
                   else Historical))
  ∧ ((∀ c, ¬ accepted a record c) →
     out.1 = a ∧ match out.2 with
                 | Err _ | Ok AlreadyPresent | Ok WaitingForProof => True
                 | _ => False
                 end).
Proof.
  pose proof (reachable_chain a Ha) as Hok. split.
  - intros c Hc. destruct (apply_config_cases a record Hok) as [Hsame|(c' & a' & Hc' & Hsel & ->)].
    + exfalso. revert Hsame. unfold apply_config.
      rewrite (proj2 (check_config_accepted a record c) Hc).
      destruct (select_controller_head _) as [a'|] eqn:Hs.
      * apply select_frame in Hs as (h & f & ->). cbn. intros Heq.
        apply (f_equal configs) in Heq. cbn in Heq.
        pose proof (acc_new _ _ _ Hc) as Hn. rewrite <-Heq, lookup_insert_eq in Hn. done.
      * cbn. intros Heq. apply (f_equal configs) in Heq. cbn in Heq.
        pose proof (acc_new _ _ _ Hc) as Hn. rewrite <-Heq, lookup_insert_eq in Hn. done.
    + assert (c' = c) as ->.
      { pose proof (acc_decodes _ _ _ Hc). pose proof (acc_decodes _ _ _ Hc'). congruence. }
      apply select_frame in Hsel as (h & f & ->). done.
  - intros Hno. unfold apply_config.
    destruct (check_config a record) as [[adm|c]|e] eqn:Hc; [|by destruct (Hno c); apply check_config_accepted|done].
    split; [done|]. cbn. unfold check_config in Hc. inv_ok.
    destruct (bool_decide (is_Some _)) in Hc; [by injection Hc as <-|]. inv_ok.
    match goal with H : context [match ?o with Some _ => _ | None => _ end] |- _ => destruct o end;
      [by inv_ok|]. by injection Hc as <-.
Qed.

(** C38. From every stored configuration the walk to its ancestors ends within the
    fuel the model gives it, after exactly as many steps as the configuration's
    sequence number (at most 4096), visiting stored configurations linked parent to
    parent and numbered downwards to 1. *)
Theorem ancestry_terminates a id r c (Ha : reachable a) (Hid : configs a !! id = Some (r, c)) :
  ∃ l, ancestry_from a (Some id) = Ok l
    ∧ nlen l = sc_sequence c ∧ nlen l ≤ 4096 ∧ l !! 0%nat = Some (id, c)
    ∧ ∀ i id' c', l !! i = Some (id', c') →
        (∃ r', configs a !! id' = Some (r', c'))
        ∧ sc_sequence c' + N.of_nat i = sc_sequence c
        ∧ sc_previous_config_id c' = fst <$> l !! Datatypes.S i.
Proof.
  pose proof (reachable_chain a Ha) as Hok.
  destruct (ancestry_lineage a id r c Hok Hid) as (l & Hl & Hlin). exists l.
  destruct (lineage_head _ _ _ Hlin) as [c0 Hc0].
  destruct (lineage_lookup _ _ _ _ _ Hlin (list_elem_of_lookup_2 _ _ _ Hc0)) as [r0 Hr0].
  simplify_eq. pose proof (lineage_sequence _ _ _ Hlin Hok _ _ _ Hc0) as Hs0.
  pose proof (lineage_length _ _ _ Hlin Hok). pose proof (chain_size _ Hok).
  split; [done|]. split; [lia|]. split; [unfold nlen; lia|]. split; [done|].
  intros i id' c' Hi. split; [|split].
  - eapply lineage_lookup; [done|]. by eapply list_elem_of_lookup_2.
  - pose proof (lineage_sequence _ _ _ Hlin Hok _ _ _ Hi). lia.
  - by apply (lineage_next a (Some id) l Hlin i id').
Qed.

(** In every stored configuration of an owner-managed authority the credentials
    allowed to manage are exactly those of the members holding MANAGE, and the Space's
    creator is always among those members with every owner capability. *)
Theorem owner_credentials_exact a id r c (Ha : reachable a) (Hm : is_owner_managed a = true)
    (Hid : configs a !! id = Some (r, c)) :
  (∀ cred, cred ∈ sc_owner_credential_ids c ↔
     ∃ m, m ∈ sc_members c ∧ Manage ∈ m_capabilities m ∧ cred ∈ m_credential_ids m)
  ∧ ∃ m, m ∈ sc_members c ∧ m_identity_id m = sg_issuer_identity (gbody a)
      ∧ m_identity_type m = "HUMAN"
      ∧ ∀ cap, cap ∈ [Read; Post; ShareHistory; Manage] → cap ∈ m_capabilities m.
Proof.
  destruct (stored_owners a id r c (reachable_chain a Ha) Hm Hid) as [H1 (m & ? & ? & ? & ?)].
  split; [exact H1|]. exists m. by repeat split.
Qed.

(** A chat's kind never changes once a configuration has fixed it: every
    configuration that descends from it carries the same kind. *)
Theorem chat_kind_fixed a id r c k (Ha : reachable a) (Hid : configs a !! id = Some (r, c)) :
  match ancestry_from a (Some id) with
  | Ok l => (∃ id' c', (id', c') ∈ l ∧ sc_chat_kind c' = Some k) → sc_chat_kind c = Some k
  | Err _ => False
  end.
Proof.
  pose proof (reachable_chain a Ha) as Hok.
  destruct (ancestry_lineage a id r c Hok Hid) as (l & -> & Hlin).
  intros (id' & c' & Hin & Hk). revert c r id Hid Hlin Hin.
  induction l as [|[i q] l IH]; intros c r id Hid Hlin Hin; [by apply elem_of_nil in Hin|].
  inversion Hlin as [|? r1 ? ? Hi Hl]; subst. simplify_eq.
  apply elem_of_cons in Hin as [[= -> ->]|Hin]; [done|].
  pose proof (config_parent _ _ _ _ (chain_configs _ Hok _ _ _ Hid)) as Hp.
  unfold parent_ok in Hp. destruct (sc_previous_config_id _) as [p|] eqn:Hprev.
  - destruct Hp as (rp & cp & Hcp & _ & Hkind).
    pose proof (IH _ _ _ Hcp Hl Hin) as Hpk. rewrite Hkind; [done|]. rewrite Hpk. by eexists.
  - inversion Hl; subst. by apply elem_of_nil in Hin.
Qed.

End Facts.

(** * Correctness of message admission

    To whom a message is addressed, when a device accepts one, and that a message
    prepared by a member is accepted by every device it addresses. *)


Section MessageFacts.
Context `{P : Platform} {S : AuthoritySerde} {W : WitnessSerde}.

Lemma config_Ok a id c : config a id = Ok c ↔ ∃ r, configs a !! id = Some (r, c).
Proof.
  unfold config. rewrite ok_or_Ok. split.
  - intros ([r q] & Hl & ->)%fmap_Some. eauto.
  - by intros (r & ->).
Qed.

(** The author's credential belongs to a member of the configuration. *)
Definition active_in (c : StreamConfig) (own : VerifiedCredential) : Prop :=
  ∃ m, m ∈ sc_members c ∧ m_identity_id m = vc_identity own ∧ vc_id own ∈ m_credential_ids m.

Definition readers (c : StreamConfig) : list Member :=
  List.filter (λ m, has_capability m Read) (sc_members c).

(** The devices a message under [c] by [own] is encrypted to. *)
Definition addressed (c : StreamConfig) (own : VerifiedCredential) (id : RecordId) : Prop :=
  (∃ m, m ∈ sc_members c ∧ Read ∈ m_capabilities m ∧ id ∈ m_credential_ids m) ∨ id = vc_id own.

Lemma readers_members (c : StreamConfig) m :
  NoDup (m_identity_id <$> sc_members c) → m ∈ sc_members c →
  contains (m_identity_id <$> readers c) (m_identity_id m) = true ↔ Read ∈ m_capabilities m.
Proof.
  intros Hn Hm. unfold readers. rewrite contains_true, list_elem_of_fmap. split.
  - intros (m' & Heq & [Hm' Hc%contains_true]%filter_true).
    by rewrite (NoDup_fmap_eq _ _ _ _ Hn Hm Hm' Heq).
  - intros Hc. exists m. split; [done|]. apply filter_true. split; [done|].
    by apply contains_true.
Qed.

Lemma expected_recipients_inv a cfg author aud recs :
  chain_ok a → expected_recipients a cfg author = Ok (aud, recs) →
  ∃ c own, config a cfg = Ok c ∧ credentials a !! author = Some own ∧ active_in c own
    ∧ aud = m_identity_id <$> readers c ∧ NoDup recs
    ∧ ∀ id, id ∈ recs ↔ addressed c own id.
Proof.
  intros Hok. unfold expected_recipients.
  intros (c & Hc & (own & Hown%ok_or_Ok & (u & Hact%fail_if_Ok & H%Ok_inj)%bind_Ok)%bind_Ok)%bind_Ok.
  injection H as <- <-. exists c, own.
  apply negb_false_iff, existsb_true in Hact as (m & Hm & [Hid Hin]%andb_true_iff).
  apply bool_decide_eq_true in Hid. apply contains_true in Hin.
  split; [done|]. split; [done|]. split; [by exists m|]. split; [done|].
  split; [apply sorted_set_NoDup|]. intros id.
  apply config_Ok in Hc as [r Hr].
  pose proof (config_members _ _ _ _ (chain_configs _ Hok _ _ _ Hr)) as Hn.
  rewrite sorted_set_elem, elem_of_app, list_elem_of_singleton, elem_of_mjoin_fmap.
  unfold addressed. apply or_iff_compat_r. split.
  - intros (m' & [Hm' Hc']%filter_true & Hid'). exists m'. split; [done|]. split; [|done].
    by apply (readers_members c m' Hn Hm').
  - intros (m' & Hm' & Hc' & Hid'). exists m'. split; [|done]. apply filter_true.
    split; [done|]. by apply (readers_members c m' Hn Hm').
Qed.

(** A message is addressed to exactly the devices of the members who may READ, plus
    the author's own device, each once; its audience is those members' identities; and
    only a device that is a member's current credential can address one. *)
Theorem expected_recipients_exact a cfg author aud recs (Ha : reachable a)
    (He : expected_recipients a cfg author = Ok (aud, recs)) :
  ∃ r c own, configs a !! cfg = Some (r, c) ∧ credentials a !! author = Some own
    ∧ (∃ m, m ∈ sc_members c ∧ m_identity_id m = vc_identity own
            ∧ vc_id own ∈ m_credential_ids m)
    ∧ NoDup recs
    ∧ (∀ id, id ∈ recs ↔
         (∃ m, m ∈ sc_members c ∧ Read ∈ m_capabilities m ∧ id ∈ m_credential_ids m)
         ∨ id = vc_id own)
    ∧ ∀ i, i ∈ aud ↔ ∃ m, m ∈ sc_members c ∧ Read ∈ m_capabilities m ∧ m_identity_id m = i.
Proof.
  destruct (expected_recipients_inv a cfg author aud recs (reachable_chain a Ha) He)
    as (c & own & [r Hr]%config_Ok & Hown & Hact & -> & Hn & Hrecs).
  exists r, c, own. repeat (split; [done|]). intros i. unfold readers.
  rewrite list_elem_of_fmap. setoid_rewrite filter_true.
  unfold has_capability. setoid_rewrite contains_true. naive_solver.
Qed.

(** ** Acceptance *)

(** A message that the authority's history supports. *)
Record supported_message (a : Authority) (r : SignedRecord) (now : option N)
    (m : ChatMessage) (c : StreamConfig) (own : VerifiedCredential) : Prop := {
  sm_chat : chat r = Ok m;
  sm_here : chat_space_id m = space a ∧ chat_stream_id m = stream a;
  sm_time : current_message_time_is_valid (logical_time m) now = true;
  sm_config : config a (chat_config_id m) = Ok c;
  sm_author : credentials a !! issuer_credential m = Some own;
  sm_signed : issuer_credential m = vc_id own ∧ issuer_identity m = vc_identity own
              ∧ verify_signature r (vc_key own) = Ok tt;
  sm_post : has a (chat_config_id m) (issuer_identity m) Post = true;
  sm_addressed : expected_recipients a (chat_config_id m) (issuer_credential m)
                 = Ok (audience m, recipient_credentials m);
  sm_secret : (∃ acc, access m = Some acc ∧ is_Some (accept_secret acc)) →
              is_Some (direct_human_peer a m);
}.

Lemma verify_historical_iff a r now m :
  verify_historical a r now = Ok m ↔ ∃ c own, supported_message a r now m c own.
Proof.
  unfold verify_historical. split.
  - intros (m' & Hm & (u1 & Hsec%fail_if_Ok & (u2 & Ht%fail_if_Ok & H)%bind_Ok)%bind_Ok)%bind_Ok.
    apply bind_Ok in H as (u3 & Hh%fail_if_Ok & (own & Hown%ok_or_Ok & (m2 & Hvc & H)%bind_Ok)%bind_Ok).
    apply bind_Ok in H as ([aud recs] & He & (u4 & Hf%fail_if_Ok & H%Ok_inj)%bind_Ok). subst m'.
    unfold verify_chat in Hvc. rewrite Hm in Hvc. cbn in Hvc.
    apply bind_Ok in Hvc as (u5 & Hid%fail_if_Ok & ([] & Hsg & _)%bind_Ok).
    inv_ok.
    assert (∃ c, config a (chat_config_id m) = Ok c) as [c Hc].
    { unfold expected_recipients in He. apply bind_Ok in He as (c & Hc & _). eauto. }
    exists c, own. split; try done.
    intros (acc & Hacc & Hs). rewrite Hacc in Hsec.
    rewrite bool_decide_eq_true_2 in Hsec by done. cbn in Hsec.
    apply bool_decide_eq_false in Hsec. by destruct (direct_human_peer a m).
  - intros (c & own & [H1 [H2 H3] H4 H5 H6 (H7 & H8 & H9) H10 H11 H12]).
    rewrite H1. cbn. rewrite fail_if_pass; cycle 1.
    { destruct (access m) as [acc|]; [|done]. destruct (accept_secret acc) as [s|] eqn:Hs; [|done].
      destruct H12 as [peer Hp]; [exists acc; split; [done|by rewrite Hs; eexists]|].
      by rewrite Hp. }
    rewrite H4. cbn. rewrite H2, H3, !bool_decide_eq_true_2 by done. cbn.
    unfold credential. rewrite H6. cbn. unfold verify_chat. rewrite H1. cbn.
    rewrite H7, H8, !bool_decide_eq_true_2 by done. cbn. rewrite H9. cbn.
    rewrite <-H7, H11, <-H8, H10. cbn. rewrite !bool_decide_eq_true_2 by done. done.
Qed.

(** A device newly accepts a message exactly when the authority is not forked, the
    message names the current head, its author is an active member device with POST that
    signed it, it is addressed to exactly the head's readers, and the device is one of
    them. *)
Theorem admission_accepted_exact a r recipient now :
  admission a r recipient false now = Ok Accepted ↔
  ∃ m c own, supported_message a r now m c own
    ∧ forked a = false ∧ head a = Some (chat_config_id m)
    ∧ recipient ∈ recipient_credentials m.
Proof.
  unfold admission. split.
  - intros (m & Hm & (u & _ & H)%bind_Ok)%bind_Ok.
    destruct (negb (bool_decide _)); [discriminate|].
    apply bind_Ok in H as (m' & Hv & (u2 & Hr%fail_if_Ok & H)%bind_Ok).
    destruct (forked a) eqn:Hf; [discriminate|].
    destruct (negb (Some _ === _)) eqn:Hh; [discriminate|].
    apply negb_false_iff, contains_true in Hr.
    apply bool_decide_eq_negb_false in Hh.
    apply verify_historical_iff in Hv as (c & own & Hs).
    pose proof (sm_chat _ _ _ _ _ _ Hs) as Hm'. assert (m' = m) as -> by congruence.
    by exists m, c, own.
  - intros (m & c & own & Hs & Hf & Hh & Hr).
    pose proof Hs as Hs'. destruct Hs as [H1 [H2 H3] H4 H5 H6 H7 H10 H11 H12].
    rewrite H1. cbn. rewrite fail_if_pass by (by rewrite H2, H3, !bool_decide_eq_true_2).
    apply config_Ok in H5 as [rc Hc]. rewrite Hc. cbn.
    rewrite (proj2 (verify_historical_iff a r now m)) by eauto. cbn.
    rewrite (proj2 (contains_true _ _) Hr). cbn. rewrite Hf, Hh.
    by rewrite bool_decide_eq_true_2.
Qed.

(** A message a member device prepares is accepted by every device it is addressed
    to, not only by the author's own. *)
Theorem prepared_accepted_by_all a m key now r id
    (Hprep : prepare_chat a m key now = Ok r)
    (Hid : ∃ c, chat r = Ok c ∧ id ∈ recipient_credentials c) :
  admission a r id false now = Ok Accepted.
Proof.
  unfold prepare_chat in Hprep.
  apply bind_Ok in Hprep as (u1 & _ & (h & _ & (own & _ & H)%bind_Ok)%bind_Ok).
  apply bind_Ok in H as (u2 & _ & ([aud recs] & _ & (r' & _ & H)%bind_Ok)%bind_Ok).
  apply bind_Ok in H as (m' & Hv & H%Ok_inj). subst r'.
  unfold verify_message in Hv. apply bind_Ok in Hv as (adm & Hadm & (u3 & He%fail_if_Ok & _)%bind_Ok).
  apply bool_decide_eq_negb_false in He. subst adm. revert Hadm. unfold admission.
  destruct Hid as (c & Hc & Hid). rewrite Hc. cbn.
  intros (u4 & -> & H)%bind_Ok. cbn. destruct (negb _) in H |- *; [done|].
  apply bind_Ok in H as (m2 & Hh & (u5 & _ & H)%bind_Ok). rewrite Hh. cbn.
  by rewrite (proj2 (contains_true _ _) Hid).
Qed.

End MessageFacts.
