(* ===== verification/Admission.v ===== *)
(** * What a witness may change

    The specification of a witnessed admission: the only member entry that differs
    is the candidate's, with the capabilities READ and POST; everything else a
    configuration says about control stays as the owners left it. *)

From S2P Require Import Prelude Platform Ids Record Chat Identity AuthorityData AuthorityWitness Authority AuthorityProof AuthorityInv AuthorityFacts.

Section Admission.
Context `{P : Platform} {S : AuthoritySerde} {W : WitnessSerde}.

(** The candidate's entry after the admission. *)
Definition admitted_member (parent : StreamConfig) (candidate : VerifiedCredential)
    (root : string) : Member :=
  match member_of parent (vc_identity candidate) with
  | Some m => push_credential m (vc_id candidate)
  | None => {| m_identity_id := vc_identity candidate; m_identity_type := "HUMAN";
               m_root_public_key := root; m_capabilities := [Read; Post];
               m_credential_ids := [vc_id candidate]; m_external := true |}
  end.

Record admits (parent c : StreamConfig) (candidate : VerifiedCredential) (root : string)
    : Prop := {
  adm_members m : m ∈ sc_members c ↔
    (m ∈ sc_members parent ∧ m_identity_id m ≠ vc_identity candidate)
    ∨ m = admitted_member parent candidate root;
  adm_capabilities : m_capabilities (admitted_member parent candidate root) = [Read; Post];
  adm_type : m_identity_type (admitted_member parent candidate root) = "HUMAN";
  adm_fresh : ∀ m, m ∈ sc_members parent → vc_id candidate ∉ m_credential_ids m;
  adm_owners : sc_owner_credential_ids c = sc_owner_credential_ids parent;
  adm_controller : sc_controller_credential_id c = sc_controller_credential_id parent;
  adm_chat_kind : sc_chat_kind c = sc_chat_kind parent;
  adm_recovery : sc_recovery c = sc_recovery parent;
  adm_sequence : sc_sequence c = sc_sequence parent + 1;
}.

Lemma update_first_elem {A} (f : A → string) (g : A → A) k l x m :
  NoDup (f <$> l) → (∀ y, f (g y) = f y) →
  find_first (λ y, f y === k) l = Some m →
  x ∈ update_first (λ y, f y === k) g l ↔ (x ∈ l ∧ f x ≠ k) ∨ x = g m.
Proof.
  intros Hn Hg. induction l as [|y l IH]; [done|]. cbn [find_first update_first].
  apply NoDup_cons in Hn as [Hy Hn].
  destruct (bool_decide_reflect (f y = k)) as [Hk|Hk].
  - intros [= ->]. rewrite !elem_of_cons. split.
    + intros [ -> | Hx]; [by right|]. left. split; [by right|].
      intros Hfx. apply Hy. rewrite Hk, <-Hfx. by apply list_elem_of_fmap_2.
    + intros [[[ -> | Hx] Hne] | ->]; [done|by right|by left].
  - intros Hf. rewrite !elem_of_cons, IH by done. split.
    + intros [ -> | [[Hx Hne] | ->]]; [left; by split; [left|]|left; by split; [right|]|by right].
    + intros [[[ -> | Hx] Hne] | ->]; [by left|right; by left|right; by right].
Qed.

Lemma admit_member_elem parent candidate members :
  NoDup (m_identity_id <$> sc_members parent) →
  admit_member (sc_members parent) candidate = Ok members →
  ∃ root, ∀ m, m ∈ members ↔
    (m ∈ sc_members parent ∧ m_identity_id m ≠ vc_identity candidate)
    ∨ m = admitted_member parent candidate root.
Proof.
  intros Hn. unfold admit_member, admitted_member, member_of.
  destruct (find_first _ _) as [m0|] eqn:Hf.
  - intros [= <-]. exists "". intros m.
    by apply (update_first_elem m_identity_id (λ m, push_credential m (vc_id candidate))).
  - intros (root & _ & [= <-])%bind_Ok. exists root. intros m.
    rewrite merge_sort_Permutation, elem_of_app, list_elem_of_singleton. split.
    + intros [Hm| ->]; [left|by right]. split; [done|].
      apply (proj1 (find_first_None _ _) Hf) in Hm. by apply bool_decide_eq_false in Hm.
    + intros [[Hm _]| ->]; [by left|by right].
Qed.

(** ** What the loop over the ancestry establishes *)

(** How often the ancestry already used a policy. *)
Definition uses_policy (policy : RecordId) (c : StreamConfig) : bool :=
  match prior_admission c with
  | Ok (Some (_, p, _, _)) => p === policy
  | _ => false
  end.
Definition policy_uses (policy : RecordId) (l : list (RecordId * StreamConfig)) : N :=
  nlen (List.filter (λ p, uses_policy policy p.2) l).

(** An earlier configuration of the ancestry is compatible with the admission. *)
Record precedes (a : Authority) (v : ValidatedAdmission) (c : StreamConfig) : Prop := {
  pre_fresh : ∀ m id, m ∈ sc_members c → id ∈ m_credential_ids m →
    ∃ old, credentials a !! id = Some old ∧ id ≠ vc_id (va_candidate v)
      ∧ vc_key old ≠ vc_key (va_candidate v)
      ∧ vc_recipient old ≠ vc_recipient (va_candidate v);
  pre_evidence : ∃ o, prior_admission c = Ok o ∧
    ∀ time policy nonce request, o = Some (time, policy, nonce, request) →
      time ≤ va_admitted_at_ms v ∧ nonce ≠ va_challenge_nonce v
      ∧ request ≠ va_request_id v;
}.

Lemma fresh_credential_Ok a candidate c u :
  fresh_credential a candidate c = Ok u →
  ∀ m id, m ∈ sc_members c → id ∈ m_credential_ids m →
    ∃ old, credentials a !! id = Some old ∧ id ≠ vc_id candidate
      ∧ vc_key old ≠ vc_key candidate ∧ vc_recipient old ≠ vc_recipient candidate.
Proof.
  unfold fresh_credential. intros H m id Hm Hid.
  apply (try_fold_unit_Forall _ _ _) with (x := id) in H.
  - apply bind_Ok in H as (old & Hold%ok_or_Ok & H). exists old. split; [exact Hold|].
    by inv_ok.
  - apply elem_of_mjoin_fmap. eauto.
Qed.

Lemma count_uses_from a v l : ∀ n u,
  try_fold (λ uses '(_, c),
    _ ← fresh_credential a (va_candidate v) c;
    prior ← prior_admission c;
    match prior with
    | None => mret uses
    | Some (time, policy, nonce, request) =>
        _ ← fail_if ((va_admitted_at_ms v <? time) || (nonce === va_challenge_nonce v)
                     || (request === va_request_id v)) AuthorityError;
        mret (if policy === va_policy_id v then uses + 1 else uses)
    end) n l = Ok u →
  u = n + policy_uses (va_policy_id v) l ∧ ∀ p, p ∈ l → precedes a v p.2.
Proof.
  induction l as [|[id c] l IH]; intros n u.
  - intros [= <-]. unfold policy_uses, nlen. cbn. split; [lia|set_solver].
  - cbn [try_fold]. intros (k & Hk & Hl)%bind_Ok.
    apply bind_Ok in Hk as ([] & Hfresh & Hk).
    apply bind_Ok in Hk as (o & Ho & Hk).
    apply IH in Hl as [-> Hl].
    assert (precedes a v c ∧ k = if uses_policy (va_policy_id v) c then n + 1 else n)
      as [Hc ->].
    { unfold uses_policy. rewrite Ho. destruct o as [[[[time p] nonce] req]|].
      - inv_ok. split; [|by destruct (p === _)]. split.
        + by eapply fresh_credential_Ok.
        + eexists; split; [exact Ho|]. intros ? ? ? ? [= <- <- <- <-].
          match goal with H : (_ <? _) = false |- _ => apply N.ltb_ge in H end. done.
      - injection Hk as <-. split; [|done]. split.
        + by eapply fresh_credential_Ok.
        + eexists; split; [exact Ho|]. done. }
    split.
    + unfold policy_uses, nlen. cbn [List.filter snd].
      destruct (uses_policy _ c); cbn [length]; lia.
    + intros p [ -> | Hp]%elem_of_cons; [exact Hc|by apply Hl].
Qed.

Lemma count_uses_Ok a v l u :
  count_uses a v l = Ok u →
  u = policy_uses (va_policy_id v) l ∧ ∀ p, p ∈ l → precedes a v p.2.
Proof. intros H. by apply count_uses_from in H. Qed.

(** ** The admission as a whole *)

Definition members_distinct (a : Authority) : Prop :=
  ∀ id r c, configs a !! id = Some (r, c) → NoDup (m_identity_id <$> sc_members c).

Lemma chain_members_distinct a : chain_ok a → members_distinct a.
Proof. intros Hok id r c Hid. eapply config_members. by eapply chain_configs. Qed.

Lemma head_config_lookup a c :
  head_config a = Ok c ↔ ∃ h r, head a = Some h ∧ configs a !! h = Some (r, c).
Proof.
  unfold head_config. rewrite ok_or_Ok. destruct (head a) as [h|]; cbn.
  - split.
    + intros ([r q] & Hl & ->)%fmap_Some. eauto.
    + intros (h' & r & [= <-] & Hl). by rewrite Hl.
  - split; [done|]. by intros (? & ? & ? & ?).
Qed.

(** Everything [finish_witness_admission] has checked and built. *)
Record finished (a : Authority) (v : ValidatedAdmission) (c parent : StreamConfig)
    (root : string) (l : list (RecordId * StreamConfig)) : Prop := {
  fin_parent : head_config a = Ok parent;
  fin_ancestry : witness_ancestry a = Ok l;
  fin_admits : admits parent c (va_candidate v) root;
  fin_previous : sc_previous_config_id c = head a;
  fin_evidence : sc_witness_evidence c = Some (va_evidence v);
  fin_uses : policy_uses (va_policy_id v) l < ip_max_uses (va_policy v);
  fin_precedes : ∀ p, p ∈ l → precedes a v p.2;
  fin_approval : check_approval a v (last_removal (vc_identity (va_candidate v)) l) = Ok tt;
}.

Lemma admitted_member_role parent candidate root :
  match member_of parent (vc_identity candidate) with
  | None => false
  | Some m => (m_identity_type m =/= "HUMAN") || (m_capabilities m =/= [Read; Post])
              || contains (m_credential_ids m) (vc_id candidate)
  end = false →
  m_capabilities (admitted_member parent candidate root) = [Read; Post]
  ∧ m_identity_type (admitted_member parent candidate root) = "HUMAN".
Proof. unfold admitted_member. destruct (member_of _ _); intros H; by inv_ok. Qed.

(** The parent opens its own ancestry. *)
Lemma ancestry_parent a parent l :
  head_config a = Ok parent → witness_ancestry a = Ok l → ∃ h, (h, parent) ∈ l.
Proof.
  rewrite head_config_lookup. intros (h & r & Hh & Hid) Hl.
  unfold witness_ancestry, ancestry_from, walk_fuel in Hl. rewrite Hh in Hl.
  cbn [walk] in Hl. rewrite (config_lookup _ _ _ _ Hid) in Hl.
  destruct (walk _ _ _) as [rest|]; cbn in Hl; [|done].
  apply fmap_Ok in Hl as (k & _ & <-). exists h. constructor.
Qed.

Lemma finish_finished a v c :
  members_distinct a → finish_witness_admission a v = Ok c →
  ∃ parent root l, finished a v c parent root l.
Proof.
  intros Hd. unfold finish_witness_admission.
  intros (parent & Hp & (u1 & Hrole%fail_if_Ok & H)%bind_Ok)%bind_Ok.
  apply bind_Ok in H as (u2 & _ & (l & Hl & (uses & Hu & H)%bind_Ok)%bind_Ok).
  apply bind_Ok in H as (u3 & Hmax%fail_if_Ok & ([] & Hap & H)%bind_Ok).
  apply bind_Ok in H as (members & Hm & (sq & Hsq & (actor & _ & H)%bind_Ok)%bind_Ok).
  apply ok_or_Ok, checked_add_Some in Hsq as [-> _]. apply Ok_inj in H.
  apply count_uses_Ok in Hu as [-> Hpre].
  destruct (head_config_lookup a parent) as [Hhc _]. destruct (Hhc Hp) as (h & r & Hh & Hid).
  destruct (admit_member_elem parent (va_candidate v) members (Hd _ _ _ Hid) Hm)
    as [root Hroot].
  destruct (ancestry_parent a parent l Hp Hl) as [h' Hin].
  destruct (admitted_member_role parent (va_candidate v) root Hrole) as [Hcap Hty].
  exists parent, root, l. subst c. split; try done.
  - split; try done. cbn. intros m Hmm Hc.
    destruct (pre_fresh _ _ _ (Hpre _ Hin) m _ Hmm Hc) as (old & _ & Hne & _). done.
  - by apply N.leb_gt.
Qed.

(** ** Adjacent configurations that drop a credential *)

Definition drops (identity : IdentityId) (older newer : StreamConfig) : Prop :=
  ∃ m id, member_of older identity = Some m ∧ id ∈ m_credential_ids m
    ∧ ∀ m', member_of newer identity = Some m' → id ∉ m_credential_ids m'.

Lemma windows2_lookup {A} (l : list A) i x y :
  l !! i = Some x → l !! Datatypes.S i = Some y → windows2 l !! i = Some (x, y).
Proof.
  revert i. induction l as [|z l IH]; intros i; [done|].
  destruct l as [|w l]; [by destruct i|]. destruct i as [|i].
  - by intros [= <-] [= <-].
  - intros H1 H2. cbn [windows2]. by apply (IH i).
Qed.

Lemma windows2_lookup_inv {A} (l : list A) i x y :
  windows2 l !! i = Some (x, y) → l !! i = Some x ∧ l !! Datatypes.S i = Some y.
Proof.
  revert i. induction l as [|z l IH]; intros i; [done|].
  destruct l as [|w l]; [done|]. destruct i as [|i].
  - by intros [= <- <-].
  - intros H1. cbn [windows2] in H1. by apply (IH i).
Qed.

Lemma find_map_first {A B} (f : A → option B) l j x :
  l !! j = Some x → is_Some (f x) →
  ∃ i z y, (i ≤ j)%nat ∧ l !! i = Some z ∧ f z = Some y ∧ find_map f l = Some y.
Proof.
  revert j. induction l as [|w l IH]; intros j Hj Hx; [done|]. cbn [find_map].
  destruct (f w) as [y|] eqn:Hw.
  - exists 0%nat, w, y. split; [lia|done].
  - destruct j as [|j]; [cbn in Hj; destruct Hx; congruence|].
    destruct (IH j Hj Hx) as (i & z & y & ? & ? & ? & ?).
    exists (Datatypes.S i), z, y. split; [lia|done].
Qed.

Lemma last_removal_recent a cursor l identity i newer older :
  chain_ok a → lineage a cursor l →
  l !! i = Some newer → l !! Datatypes.S i = Some older → drops identity older.2 newer.2 →
  ∃ s, last_removal identity l = Some s ∧ sc_sequence newer.2 ≤ s.
Proof.
  intros Hok Hl Hn Ho (m & id & Hm & Hid & Hgone). unfold last_removal.
  destruct (find_map_first (removal_in identity) (windows2 l) i (newer, older))
    as (k & [n1 o1] & s & Hk & Hw & Hs & ->).
  - by apply windows2_lookup.
  - unfold removal_in. cbn [fst snd]. rewrite Hm. cbn. rewrite (proj2 (existsb_true _ _)); [by eexists|].
    exists id. split; [done|]. destruct (member_of newer.2 identity) as [m'|]; [|done].
    apply negb_true_iff, contains_false. by apply Hgone.
  - exists s. split; [done|]. apply windows2_lookup_inv in Hw as [Hw _].
    unfold removal_in in Hs. cbn [fst snd] in Hs.
    destruct (member_of o1.2 identity); [|done]. cbn in Hs.
    destruct (existsb _ _); [|done]. injection Hs as <-.
    destruct newer as [n c], n1 as [n1 c1].
    pose proof (lineage_sequence _ _ _ Hl Hok _ _ _ Hn).
    pose proof (lineage_sequence _ _ _ Hl Hok _ _ _ Hw). cbn. lia.
Qed.

(** ** Owners in continuous standing *)

Lemma owner_since_Ok credential h l u :
  owner_since credential h l = Ok u →
  ∃ l1 c l2, l = l1 ++ (h, c) :: l2
    ∧ ∀ p, p ∈ l1 ++ [(h, c)] → credential ∈ sc_owner_credential_ids p.2.
Proof.
  induction l as [|[id c] l IH]; [done|]. cbn [owner_since].
  intros (k & Hc%fail_if_Ok & H)%bind_Ok. inv_ok. apply contains_true in Hc.
  destruct (bool_decide_reflect (id = h)) as [->|Hne].
  - exists [], c, l. split; [done|]. by intros p ->%list_elem_of_singleton.
  - destruct (IH H) as (l1 & c' & l2 & -> & Hall).
    exists ((id, c) :: l1), c', l2. split; [done|].
    intros p [ -> | Hp]%elem_of_cons; [exact Hc|by apply Hall].
Qed.

(** The credential is an owner's now and has been since configuration [h]. *)
Definition owner_standing (a : Authority) (cred h : RecordId) : Prop :=
  forked a = false ∧ can_manage a cred = true
  ∧ ∃ l1 c l2, witness_ancestry a = Ok (l1 ++ (h, c) :: l2)
    ∧ ∀ p, p ∈ l1 ++ [(h, c)] → cred ∈ sc_owner_credential_ids p.2.

Lemma witness_owner_at_standing a cred h u :
  witness_owner_at a cred h = Ok u → owner_standing a cred h.
Proof.
  unfold witness_owner_at. intros (k & Hf%fail_if_Ok & (l & Hl & Ho)%bind_Ok)%bind_Ok.
  apply owner_since_Ok in Ho as (l1 & c & l2 & -> & Hall). inv_ok.
  split; [done|]. split; [done|]. eauto.
Qed.

End Admission.

(** * Correctness of witnessed changes

    The witness orders configurations but cannot grant anything: an admission adds
    one member device under an owner's invitation, and every other change carries an
    owner's own signature, the creator's where the creator is concerned. *)


Section AdmissionFacts.
Context `{P : Platform} {S : AuthoritySerde} {W : WitnessSerde}.

(** ** From the evidence to the admission *)

Lemma admission_v1_finish a ev c :
  witness_admission_config a ev = Ok c →
  ∃ v policy_record, finish_witness_admission a v = Ok c
    ∧ va_evidence v = AdmissionEv ev ∧ va_admitted_at_ms v = ae_admitted_at_ms ev
    ∧ decode_b64 (ae_policy ev) = Ok policy_record
    ∧ va_policy_id v = record_id policy_record
    ∧ verify_witness_invitation a policy_record (ae_admitted_at_ms ev) = Ok (va_policy v)
    ∧ ∃ id, credentials a !! id = Some (va_candidate v).
Proof.
  unfold witness_admission_config. intros H.
  step H u1 H1. step H pin Hpin. step H prec Hprec. step H policy Hpolicy.
  step H crec Hcrec. step H wkey Hwkey. step H u2 H2. step H ch Hch.
  step H n1 Hn1. step H n2 Hn2. step H u3 H3. step H drec Hdrec. step H irec Hirec.
  step H u4 H4. step H intent Hintent. step H n3 Hn3. step H cand Hcand.
  step H u5 H5. step H ikey Hikey. step H u6 H6. step H contact Hcontact.
  step H u7 H7. step H u8 H8. step H approval Happroval.
  eexists _, prec. split; [exact H|]. cbn. apply ok_or_Ok in Hcand. eauto 10.
Qed.

Lemma admission_v2_finish a ev c :
  witness_admission_config_v2 a ev = Ok c →
  ∃ v policy_record, finish_witness_admission a v = Ok c
    ∧ va_evidence v = AdmissionEvV2 ev ∧ va_admitted_at_ms v = a2_admitted_at_ms ev
    ∧ decode_b64 (jr_policy (a2_request ev)) = Ok policy_record
    ∧ va_policy_id v = record_id policy_record
    ∧ verify_witness_invitation a policy_record (a2_admitted_at_ms ev) = Ok (va_policy v)
    ∧ ∃ id, credentials a !! id = Some (va_candidate v).
Proof.
  unfold witness_admission_config_v2. intros H.
  step H u1 H1. step H drec Hdrec. step H irec Hirec. step H u2 H2.
  step H intent Hintent. step H n3 Hn3. step H cand Hcand. step H req Hreq.
  step H rrec Hrrec. step H prec Hprec. step H policy Hpolicy. step H u3 H3.
  step H ikey Hikey. step H u4 H4. step H pin Hpin. step H crec Hcrec.
  step H wkey Hwkey. step H u5 H5. step H ch Hch. step H n1 Hn1. step H n2 Hn2.
  step H chead Hchead. step H u6 H6. step H approval Happroval.
  eexists _, prec. split; [exact H|]. cbn. apply ok_or_Ok in Hcand. eauto 10.
Qed.

(** The authority as the transition check sees it: its head is the parent. *)
Lemma members_distinct_prior a p :
  members_distinct a → members_distinct (set_head a p (forked a)).
Proof. done. Qed.

(** An owner's original proposal beneath the witness signature. *)
Definition owner_proposed (a : Authority) (c parent : StreamConfig) : Prop :=
  ∃ proposal signed signer,
    sc_witness_evidence c = Some (OwnerProposal proposal)
    ∧ decode_b64 proposal = Ok signed
    ∧ decode (T := StreamConfig) signed = Ok (without_evidence c)
    ∧ sc_controller_credential_id c ∈ sc_owner_credential_ids parent
    ∧ credentials a !! sc_controller_credential_id c = Some signer
    ∧ verify_signature signed (vc_key signer) = Ok tt.

Lemma witness_transition_cases a c p rp parent u :
  members_distinct a → sc_previous_config_id c = Some p →
  configs a !! p = Some (rp, parent) → validate_witness_transition a c = Ok u →
  owner_proposed a c parent
  ∨ ∃ v root l, finished (set_head a (Some p) (forked a)) v c parent root l.
Proof.
  intros Hd Hp Hid. unfold validate_witness_transition. rewrite Hp. cbn [ok_or].
  intros H. step H prev Hprev. injection Hprev as <-. step H par Hpar.
  assert (par = parent) as ->.
  { apply head_config_lookup in Hpar as (h & r & [= <-] & Hl). cbn in Hl. congruence. }
  step H u1 H1. step H ev Hev. apply ok_or_Ok in Hev.
  destruct ev as [proposal|ev|ev].
  - left. step H signed Hs. step H proposed Hpr. step H u2 H2. step H signer Hsg.
    unfold same_config in *. inv_ok. exists proposal, signed, signer. destruct u.
    repeat split; try done; [by apply contains_true|by apply ok_or_Ok in Hsg].
  - right. step H u2 H2. step H expected Hexp. inv_ok. unfold same_config in *. inv_ok.
    apply admission_v1_finish in Hexp as (v & prec & Hf & _).
    destruct (finish_finished _ _ _ (members_distinct_prior a (Some p) Hd) Hf)
      as (parent' & root & l & Hfin).
    assert (parent' = parent) as ->; [|by eauto].
    pose proof (fin_parent _ _ _ _ _ _ Hfin). congruence.
  - right. step H u2 H2. step H expected Hexp. inv_ok. unfold same_config in *. inv_ok.
    apply admission_v2_finish in Hexp as (v & prec & Hf & _).
    destruct (finish_finished _ _ _ (members_distinct_prior a (Some p) Hd) Hf)
      as (parent' & root & l & Hfin).
    assert (parent' = parent) as ->; [|by eauto].
    pose proof (fin_parent _ _ _ _ _ _ Hfin). congruence.
Qed.

(** ** Accepted successors *)

Lemma header_sequence a c u p :
  header_ok a c = Ok u → sc_previous_config_id c = Some p → 1 < sc_sequence c.
Proof.
  unfold header_ok. intros H Hp. inv_ok. rewrite Hp in *.
  repeat match goal with H : (_ =? _) = false |- _ => apply N.eqb_neq in H end.
  match goal with H : Bool.eqb _ (bool_decide (Some p = None)) = true |- _ =>
    rewrite bool_decide_eq_false_2 in H by done; apply eqb_prop, N.eqb_neq in H end. lia.
Qed.

Lemma accepted_transition a record c p rp parent :
  accepted a record c → sc_previous_config_id c = Some p →
  configs a !! p = Some (rp, parent) →
  1 < sc_sequence c
  ∧ (is_owner_managed a = true → primary_guard a c parent = Ok tt)
  ∧ (is_Some (witness_pin a) → validate_witness_transition a c = Ok tt)
  ∧ (witness_pin a = None → is_owner_managed a = true →
     owner_managed_transition a c (Some parent) = Ok tt).
Proof.
  intros Hc Hp Hid.
  assert (1 < sc_sequence c) as Hseq.
  { pose proof (acc_valid _ _ _ Hc) as Hv. unfold validate_config in Hv.
    apply bind_Ok in Hv as (u & Hh & _). by eapply header_sequence. }
  split; [done|]. pose proof (acc_transition _ _ _ Hc) as Ht.
  unfold validate_controller_transition in Ht. rewrite Hp in Ht. cbn in Ht.
  rewrite (config_lookup _ _ _ _ Hid) in Ht. cbn in Ht.
  apply bind_Ok in Ht as ([] & Hg & Ht). rewrite (proj2 (N.ltb_lt _ _) Hseq), andb_true_r in Ht.
  split; [|split].
  - intros Hm. by rewrite Hm in Hg.
  - intros Hpin. by rewrite bool_decide_eq_true_2 in Ht.
  - intros Hpin Hm. by rewrite Hpin, Hm in Ht.
Qed.

Lemma accepted_witness_signed a record c p :
  accepted a record c → sc_previous_config_id c = Some p → 
  match witness_pin a with
  | Some pin => ∃ key, pin_key pin = Ok key ∧ verify_signature record key = Ok tt
  | None => ∃ signer, credentials a !! sc_controller_credential_id c = Some signer
                      ∧ verify_signature record (vc_key signer) = Ok tt
  end.
Proof.
  intros Hc Hp. pose proof (acc_signed _ _ _ Hc) as Hs. unfold config_signature_ok in Hs.
  pose proof (acc_valid _ _ _ Hc) as Hv. unfold validate_config in Hv.
  apply bind_Ok in Hv as (u & Hh & _). pose proof (header_sequence _ _ _ _ Hh Hp) as Hseq.
  destruct (witness_pin a) as [pin|].
  - rewrite (proj2 (N.ltb_lt _ _) Hseq) in Hs. apply bind_Ok in Hs as (key & ? & ?). eauto.
  - apply bind_Ok in Hs as (signer & Hs%ok_or_Ok & ?). eauto.
Qed.

(** C19. After the first configuration a witnessed authority accepts only records the
    pinned witness signed, and what they change is either an owner's own signed proposal
    or the admission of a single candidate: one member entry whose capabilities are READ
    and POST, with the owners, the controller, the chat kind and all other members
    unchanged. *)
Theorem witness_grants_nothing a record c p rp parent
    (Ha : reachable a) (Hpin : is_Some (witness_pin a)) (Hc : accepted a record c)
    (Hp : sc_previous_config_id c = Some p) (Hid : configs a !! p = Some (rp, parent)) :
  (∃ pin key, witness_pin a = Some pin ∧ pin_key pin = Ok key
              ∧ verify_signature record key = Ok tt)
  ∧ (owner_proposed a c parent ∨ ∃ candidate root, admits parent c candidate root).
Proof.
  pose proof (accepted_witness_signed _ _ _ _ Hc Hp) as Hs.
  destruct (accepted_transition _ _ _ _ _ _ Hc Hp Hid) as (_ & _ & Hw & _).
  destruct Hpin as [pin Hpin]. split.
  - rewrite Hpin in Hs. destruct Hs as (key & ? & ?). eauto.
  - pose proof (chain_members_distinct a (reachable_chain a Ha)) as Hd.
    destruct (witness_transition_cases a c p rp parent tt Hd Hp Hid (Hw ltac:(by exists pin)))
      as [?|(v & root & l & Hfin)]; [by left|]. right.
    eexists _, root. by eapply fin_admits.
Qed.

(** ** The creator *)

Lemma admits_managers parent c candidate root :
  admits parent c candidate root → 
  NoDup (m_identity_id <$> sc_members parent) →
  ∀ m, Manage ∈ m_capabilities m → 
    (m ∈ sc_members parent → m_identity_id m ≠ vc_identity candidate) ∧
    (m ∈ sc_members c ↔ m ∈ sc_members parent).
Proof.
  intros Hadm Hn m Hman.
  assert (m ∈ sc_members parent → m_identity_id m ≠ vc_identity candidate) as Hne.
  { intros Hin Heq. pose proof (adm_capabilities _ _ _ _ Hadm) as Hcap.
    unfold admitted_member, member_of in Hcap. rewrite <-Heq in Hcap.
    rewrite (find_first_unique m_identity_id _ m Hn Hin) in Hcap. cbn in Hcap.
    rewrite Hcap in Hman. set_solver. }
  split; [done|]. rewrite (adm_members _ _ _ _ Hadm). split.
  - intros [[? _]| ->]; [done|]. rewrite (adm_capabilities _ _ _ _ Hadm) in Hman. set_solver.
  - intros Hin. left. split; [done|]. by apply Hne.
Qed.

Lemma managers_elem c id :
  id ∈ managers c ↔ ∃ m, m ∈ sc_members c ∧ Manage ∈ m_capabilities m ∧ m_identity_id m = id.
Proof.
  unfold managers. rewrite elem_of_list_to_set, list_elem_of_fmap.
  setoid_rewrite filter_true. unfold has_capability. setoid_rewrite contains_true.
  naive_solver.
Qed.

Lemma member_of_unique c m :
  NoDup (m_identity_id <$> sc_members c) → m ∈ sc_members c →
  member_of c (m_identity_id m) = Some m.
Proof. apply (find_first_unique m_identity_id). Qed.

(** An admission leaves the managers and the creator's entry alone. *)
Lemma admits_control a p rp parent c candidate root :
  chain_ok a → is_owner_managed a = true → configs a !! p = Some (rp, parent) →
  NoDup (m_identity_id <$> sc_members c) → admits parent c candidate root →
  managers parent = managers c
  ∧ member_of parent (sg_issuer_identity (gbody a)) = member_of c (sg_issuer_identity (gbody a)).
Proof.
  intros Hok Hm Hid Hn Hadm.
  pose proof (config_members _ _ _ _ (chain_configs _ Hok _ _ _ Hid)) as Hnp.
  pose proof (admits_managers _ _ _ _ Hadm Hnp) as Hman. split.
  - apply set_eq. intros id. rewrite !managers_elem. split.
    + intros (m & ? & Hc & ?). exists m. split; [by apply Hman|done].
    + intros (m & ? & Hc & ?). exists m. split; [by apply Hman|done].
  - destruct (stored_owners a p rp parent Hok Hm Hid) as [_ (m & Hin & <- & _ & Hcaps)].
    assert (Manage ∈ m_capabilities m) as Hc by (apply Hcaps; set_solver).
    rewrite !member_of_unique; try done. by apply Hman.
Qed.

Lemma primary_guard_Ok a c parent u :
  is_owner_managed a = true → primary_guard a c parent = Ok u →
  (managers parent = managers c
   ∧ member_of parent (sg_issuer_identity (gbody a)) = member_of c (sg_issuer_identity (gbody a)))
  ∨ ∃ signer, credentials a !! sc_controller_credential_id c = Some signer
      ∧ vc_identity signer = sg_issuer_identity (gbody a)
      ∧ sc_controller_credential_id c ∈ sc_owner_credential_ids parent.
Proof.
  intros Hm. unfold primary_guard, primary_owner_identity. rewrite Hm. cbn.
  destruct (_ || _) eqn:Hcond; intros H.
  - right. inv_ok. exists x. split; [by apply ok_or_Ok in Hx|].
    split; [done|]. by apply contains_true.
  - left. by inv_ok.
Qed.

(** C12. The creator of an owner-managed Space cannot be locked out: a configuration that
    changes who may manage, or the creator's own member entry, is accepted only when the
    creator signed it with a device that was an owner in the parent configuration, in a
    witnessed Space beneath the witness signature. *)
Theorem creator_keeps_control a record c p rp parent
    (Ha : reachable a) (Hm : is_owner_managed a = true) (Hc : accepted a record c)
    (Hp : sc_previous_config_id c = Some p) (Hid : configs a !! p = Some (rp, parent)) :
  (managers parent = managers c
   ∧ member_of parent (sg_issuer_identity (gbody a)) = member_of c (sg_issuer_identity (gbody a)))
  ∨ ∃ signer, credentials a !! sc_controller_credential_id c = Some signer
      ∧ vc_identity signer = sg_issuer_identity (gbody a)
      ∧ sc_controller_credential_id c ∈ sc_owner_credential_ids parent
      ∧ match witness_pin a with
        | None => verify_signature record (vc_key signer) = Ok tt
        | Some _ => owner_proposed a c parent
        end.
Proof.
  pose proof (reachable_chain a Ha) as Hok.
  destruct (accepted_transition _ _ _ _ _ _ Hc Hp Hid) as (_ & Hg & Hw & _).
  pose proof (accepted_witness_signed _ _ _ _ Hc Hp) as Hs.
  destruct (primary_guard_Ok _ _ _ _ Hm (Hg Hm)) as [?|(signer & Hsig & Hcre & Hown)];
    [by left|].
  destruct (witness_pin a) as [pin|].
  - destruct (witness_transition_cases a c p rp parent tt (chain_members_distinct a Hok)
                Hp Hid (Hw ltac:(by eexists))) as [Hprop|(v & root & l & Hfin)].
    + right. eauto.
    + left. eapply (admits_control a p rp); try done; [|by eapply fin_admits].
      by eapply validate_config_members, acc_valid.
  - right. destruct Hs as (signer' & Hs' & Hv). simplify_eq. eauto.
Qed.

(** ** Invitations *)

(** The policy record that a configuration's evidence of an admission carries. *)
Definition policy_evidence (c : StreamConfig) : option string :=
  match sc_witness_evidence c with
  | Some (AdmissionEv e) => Some (ae_policy e)
  | Some (AdmissionEvV2 e) => Some (jr_policy (a2_request e))
  | _ => None
  end.
(** The configuration admitted someone under the invitation with this id. *)
Definition invited_by (id : RecordId) (c : StreamConfig) : bool :=
  match policy_evidence c with
  | Some encoded => match decode_b64 encoded with Ok r => record_id r === id | Err _ => false end
  | None => false
  end.
(** How many configurations did. *)
Definition times_used (id : RecordId) (l : list (RecordId * StreamConfig)) : N :=
  nlen (List.filter (λ p, invited_by id p.2) l).

(** When a configuration admitted someone, and the nonce of the challenge and the id of the
    request it was for. *)
Inductive admitted_with (c : StreamConfig) : N → string → RecordId → Prop :=
| admitted_v1 e chr ch dev :
    sc_witness_evidence c = Some (AdmissionEv e) →
    decode_b64 (ae_challenge e) = Ok chr → decode (T := WitnessChallenge) chr = Ok ch →
    decode_b64 (ae_device_intent e) = Ok dev →
    admitted_with c (ae_admitted_at_ms e) (wc_nonce ch) (record_id dev)
| admitted_v2 e chr ch dev :
    sc_witness_evidence c = Some (AdmissionEvV2 e) →
    decode_b64 (a2_challenge e) = Ok chr → decode (T := WitnessChallengeV2) chr = Ok ch →
    decode_b64 (jr_device_request (a2_request e)) = Ok dev →
    admitted_with c (a2_admitted_at_ms e) (c2_nonce ch) (record_id dev).

(** The invitation [signed] is open at [t]: its policy is for this conversation and witness
    key, within its dates, and signed by an owner in standing. *)
Record open_invitation (a : Authority) (signed : SignedRecord)
    (policy : WitnessInvitationPolicy) (t : N) : Prop := {
  oi_decoded : decode signed = Ok policy;
  oi_kind : ip_v policy = 1 ∧ ip_kind policy = "witness.invitation";
  oi_place : ip_space_id policy = space a ∧ ip_stream_id policy = stream a;
  oi_witness : ∃ pin, witness_pin a = Some pin
                 ∧ ip_witness_key_generation policy = wp_key_generation pin;
  oi_dates : ip_not_before_ms policy ≤ t < ip_expires_at_ms policy;
  oi_owner : owner_standing a (ip_issuer_credential_id policy) (ip_authority_head policy);
  oi_signed : ∃ issuer, credentials a !! ip_issuer_credential_id policy = Some issuer
                ∧ verify_signature signed (vc_key issuer) = Ok tt;
}.

(** The evidence holds the candidate's own request under that invitation, signed by the
    candidate's device and with the invitation's key, in answer to the witness's challenge. *)
Record requested (a : Authority) (ev : WitnessAdmissionEvidence) (signed : SignedRecord)
    (policy : WitnessInvitationPolicy) (candidate : VerifiedCredential) (nonce : string)
    (request : RecordId) : Prop := {
  rq_challenge : ∃ pin key chr ch, witness_pin a = Some pin ∧ pin_key pin = Ok key
    ∧ decode_b64 (ae_challenge ev) = Ok chr ∧ verify_signature chr key = Ok tt
    ∧ decode (T := WitnessChallenge) chr = Ok ch ∧ wc_nonce ch = nonce
    ∧ wc_policy_id ch = record_id signed
    ∧ wc_issued_at_ms ch ≤ ae_admitted_at_ms ev < wc_expires_at_ms ch;
  rq_intent : ∃ dev inv intent key, decode_b64 (ae_device_intent ev) = Ok dev
    ∧ decode_b64 (ae_invitation_intent ev) = Ok inv ∧ body_bytes dev = body_bytes inv
    ∧ decode (T := WitnessAdmissionIntent) dev = Ok intent ∧ record_id dev = request
    ∧ credentials a !! ai_credential_id intent = Some candidate
    ∧ verify_signature dev (vc_key candidate) = Ok tt
    ∧ public_key (ip_invitation_public_key policy) = Ok key ∧ verify_signature inv key = Ok tt
    ∧ ai_space_id intent = space a ∧ ai_stream_id intent = stream a
    ∧ ai_policy_id intent = record_id signed;
}.

(** An owner in standing signed an approval of that request. *)
Definition approved_by_owner (a : Authority) (ev : WitnessAdmissionEvidence) (request : RecordId)
    : Prop :=
  ∃ encoded signed body issuer, ae_approval ev = Some encoded ∧ decode_b64 encoded = Ok signed
    ∧ decode (T := WitnessApproval) signed = Ok body ∧ wa_intent_id body = request
    ∧ owner_standing a (wa_issuer_credential_id body) (wa_authority_head body)
    ∧ credentials a !! wa_issuer_credential_id body = Some issuer
    ∧ verify_signature signed (vc_key issuer) = Ok tt.

Lemma prior_invited c o id : prior_admission c = Ok o → uses_policy id c = invited_by id c.
Proof.
  unfold uses_policy, invited_by, policy_evidence. intros H. rewrite H. unfold prior_admission in H.
  destruct (sc_witness_evidence c) as [[| |]|]; try (by apply Ok_inj in H as <-).
  all: step H r1 H1; step H r2 H2; step H r3 H3; step H r4 H4; apply Ok_inj in H as <-.
  all: by rewrite H3.
Qed.

Lemma prior_admitted_with c o t n r :
  prior_admission c = Ok o → admitted_with c t n r → ∃ policy, o = Some (t, policy, n, r).
Proof.
  intros H [e chr ch dev He H1 H2 H3|e chr ch dev He H1 H2 H3]; unfold prior_admission in H;
    rewrite He in H; step H r1 Hr1; step H r2 Hr2; step H r3 Hr3; step H r4 Hr4;
    apply Ok_inj in H as <-; eexists; repeat f_equal; congruence.
Qed.

Lemma times_used_uses a v l id :
  (∀ p, p ∈ l → precedes a v p.2) → policy_uses id l = times_used id l.
Proof.
  intros H. unfold policy_uses, times_used. f_equal.
  apply List.filter_ext_in. intros p Hp%list_elem_of_In.
  destruct (pre_evidence _ _ _ (H p Hp)) as (o & Ho & _). by eapply prior_invited.
Qed.

Lemma verify_invitation_open a signed t policy :
  verify_witness_invitation a signed t = Ok policy → open_invitation a signed policy t.
Proof.
  unfold verify_witness_invitation. intros H. step H pin Hpin. step H q Hq. step H n Hn.
  step H k Hk. step H u1 H1. step H u2 H2. step H issuer Hiss. step H u3 H3.
  apply Ok_inj in H. subst q. destruct u3. apply ok_or_Ok in Hiss, Hpin. inv_ok. ordered.
  repeat match goal with H : (_ =? _) = true |- _ => apply N.eqb_eq in H end.
  split; try done; [by eexists|by eapply witness_owner_at_standing|by eauto].
Qed.

Lemma approval_of_owner a v n ap :
  check_approval a v n = Ok tt → va_approval v = Some ap →
  owner_standing a (aa_issuer ap) (aa_head ap)
  ∧ ∃ issuer, credentials a !! aa_issuer ap = Some issuer
      ∧ verify_signature (aa_signed ap) (vc_key issuer) = Ok tt.
Proof.
  unfold check_approval. intros H E. rewrite E in H. step H u1 H1. step H u2 H2. step H issuer Hi.
  apply ok_or_Ok in Hi. split; [by eapply witness_owner_at_standing|by eauto].
Qed.

(** Everything [witness_admission_config] has checked before the admission proper. *)
Lemma admission_v1_requested a ev c :
  witness_admission_config a ev = Ok c →
  ∃ v signed, finish_witness_admission a v = Ok c
    ∧ va_evidence v = AdmissionEv ev ∧ va_admitted_at_ms v = ae_admitted_at_ms ev
    ∧ decode_b64 (ae_policy ev) = Ok signed ∧ va_policy_id v = record_id signed
    ∧ open_invitation a signed (va_policy v) (ae_admitted_at_ms ev)
    ∧ requested a ev signed (va_policy v) (va_candidate v) (va_challenge_nonce v) (va_request_id v)
    ∧ (∀ l, check_approval a v (last_removal (vc_identity (va_candidate v)) l) = Ok tt →
       ip_require_approval (va_policy v) = true → approved_by_owner a ev (va_request_id v)).
Proof.
  unfold witness_admission_config. intros H.
  step H u1 H1. step H pin Hpin. step H prec Hprec. step H policy Hpolicy.
  step H crec Hcrec. step H wkey Hwkey. step H u2 H2. step H ch Hch.
  step H n1 Hn1. step H n2 Hn2. step H u3 H3. step H drec Hdrec. step H irec Hirec.
  step H u4 H4. step H intent Hintent. step H n3 Hn3. step H cand Hcand.
  step H u5 H5. step H ikey Hikey. step H u6 H6. step H contact Hcontact.
  step H u7 H7. step H u8 H8. step H approval Happroval. destruct u2, u5, u6.
  eexists _, prec. split; [exact H|]. cbn. apply ok_or_Ok in Hcand, Hpin.
  apply verify_invitation_open in Hpolicy. inv_ok. ordered.
  split_and!; try done.
  - split.
    + exists pin, wkey, crec, ch. by split_and!.
    + exists drec, irec, intent, ikey. by split_and!.
  - intros l Hap Hreq. destruct (ae_approval ev) as [encoded|] eqn:Henc.
    + step Happroval sg Hsg. step Happroval bd Hbd. step Happroval n4 Hn4. step Happroval u9 Hbody.
      apply Ok_inj in Happroval. subst approval.
      destruct (approval_of_owner _ _ _ _ Hap eq_refl) as (Hst & issuer & Hi & Hsig).
      inv_ok. by exists encoded, sg, bd, issuer.
    + apply Ok_inj in Happroval. subst approval. unfold check_approval in Hap. cbn in Hap.
      by rewrite Hreq in Hap.
Qed.

(** C34. An admission spends one use of an invitation. The policy record in its evidence is an
    invitation for this conversation that a standing owner signed and that is open at the
    admission time; the candidate asked under it, with its own key and the invitation's,
    in answer to the witness's challenge, and an owner approved the request where the
    invitation demands it. The configurations of the chain used the invitation fewer times
    than its limit, and with the new one, which admits this candidate and nobody else, once
    more; none of them is younger or was for the same challenge or request, and none held
    the candidate's credential, signing key or recipient. *)
Theorem admission_uses_invitation a ev c (Ha : reachable a)
    (Hadm : witness_admission_config a ev = Ok c) :
  ∃ signed policy candidate nonce request l parent root,
    decode_b64 (ae_policy ev) = Ok signed
    ∧ open_invitation a signed policy (ae_admitted_at_ms ev)
    ∧ requested a ev signed policy candidate nonce request
    ∧ (ip_require_approval policy = true → approved_by_owner a ev request)
    ∧ witness_ancestry a = Ok l
    ∧ times_used (record_id signed) l < ip_max_uses policy
    ∧ (∀ id, times_used (record_id signed) ((id, c) :: l) = times_used (record_id signed) l + 1)
    ∧ head_config a = Ok parent ∧ admits parent c candidate root
    ∧ (∀ p t n r, p ∈ l → admitted_with p.2 t n r →
         t ≤ ae_admitted_at_ms ev ∧ n ≠ nonce ∧ r ≠ request)
    ∧ (∀ p m id, p ∈ l → m ∈ sc_members p.2 → id ∈ m_credential_ids m →
         ∃ old, credentials a !! id = Some old ∧ id ≠ vc_id candidate
           ∧ vc_key old ≠ vc_key candidate ∧ vc_recipient old ≠ vc_recipient candidate).
Proof.
  destruct (admission_v1_requested a ev c Hadm)
    as (v & signed & Hf & He & Ht & Hprec & Hpid & Hopen & Hreq & Happ).
  destruct (finish_finished a v c (chain_members_distinct a (reachable_chain a Ha)) Hf)
    as (parent & root & l & Hfin).
  pose proof (fin_precedes _ _ _ _ _ _ Hfin) as Hpre. pose proof (fin_uses _ _ _ _ _ _ Hfin) as Hu.
  rewrite (times_used_uses a v l _ Hpre), Hpid in Hu.
  exists signed, (va_policy v), (va_candidate v), (va_challenge_nonce v), (va_request_id v), l.
  exists parent, root. split_and!; try done.
  - by eapply Happ, fin_approval.
  - by eapply fin_ancestry.
  - intros id. unfold times_used, nlen. cbn [List.filter snd].
    assert (invited_by (record_id signed) c = true) as ->; [|cbn [length]; lia].
    unfold invited_by, policy_evidence. rewrite (fin_evidence _ _ _ _ _ _ Hfin), He, Hprec.
    by apply bool_decide_eq_true.
  - by eapply fin_parent.
  - by eapply fin_admits.
  - intros p t n r Hp Hw. destruct (pre_evidence _ _ _ (Hpre p Hp)) as (o & Ho & Hall).
    destruct (prior_admitted_with _ _ _ _ _ Ho Hw) as [policy ->]. rewrite <-Ht. by eapply Hall.
  - intros p m id Hp. by apply (pre_fresh _ _ _ (Hpre p Hp)).
Qed.

(** Removal outlives readmission: when the ancestry contains a configuration that
    retired a credential of the candidate's identity, the admission carries an approval
    marked as a readmission, signed by a standing owner, that refers to a configuration
    no older than the removal. *)
Theorem readmission_needs_approval a v c l i newer older (Ha : reachable a)
    (Hadm : finish_witness_admission a v = Ok c) (Hl : witness_ancestry a = Ok l)
    (Hn : l !! i = Some newer) (Ho : l !! Datatypes.S i = Some older)
    (Hd : drops (vc_identity (va_candidate v)) older.2 newer.2) :
  ∃ ap issuer h, va_approval v = Some ap ∧ aa_readmission ap = true
    ∧ config a (aa_head ap) = Ok h ∧ sc_sequence newer.2 ≤ sc_sequence h
    ∧ owner_standing a (aa_issuer ap) (aa_head ap)
    ∧ credentials a !! aa_issuer ap = Some issuer
    ∧ verify_signature (aa_signed ap) (vc_key issuer) = Ok tt.
Proof.
  pose proof (reachable_chain a Ha) as Hok.
  destruct (finish_finished a v c (chain_members_distinct a Hok) Hadm)
    as (parent & root & l' & Hfin).
  pose proof (fin_ancestry _ _ _ _ _ _ Hfin) as Hl'. assert (l' = l) as -> by congruence.
  pose proof (ancestry_from_lineage a (head a) l Hok Hl) as Hlin.
  destruct (last_removal_recent a (head a) l _ i newer older Hok Hlin Hn Ho Hd) as (s & Hs & Hle).
  pose proof (fin_approval _ _ _ _ _ _ Hfin) as Hap. unfold check_approval in Hap.
  rewrite Hs in Hap. cbn in Hap. destruct (va_approval v) as [ap|].
  - step Hap u1 H1. step Hap u2 H2. step Hap issuer Hiss. step H1 u3 H3. step H1 h Hh.
    exists ap, issuer, h. apply ok_or_Ok in Hiss. inv_ok.
    match goal with H : (_ <? _) = false |- _ => apply N.ltb_ge in H; rename H into Hseq end.
    repeat split; try done; [lia|by eapply witness_owner_at_standing..].
  - inv_ok.
Qed.

End AdmissionFacts.
