(* ===== verification/ProofFacts.v ===== *)
(** * Correctness of recovery and of portable proofs

    A recovered controller shares no key with any former one, and an authority rebuilt
    from a portable proof is one the crate can reach, for exactly the Space, stream and
    witness the caller asked for. *)

From S2P Require Import Prelude Platform Ids Record Chat Identity AuthorityData AuthorityWitness Authority AuthorityProof AuthorityInv AuthorityFacts Admission.

Section ProofFacts.
Context `{P : Platform} {S : AuthoritySerde} {W : WitnessSerde}.

(** ** Controller recovery *)

(** The fresh controller shares neither key nor recipient with a former one. *)
Definition fenced (a : Authority) (fresh : VerifiedCredential) (c : StreamConfig) : Prop :=
  ∃ old, credentials a !! sc_controller_credential_id c = Some old
         ∧ vc_key old ≠ vc_key fresh ∧ vc_recipient old ≠ vc_recipient fresh.

Lemma fresh_keys_fenced a fresh active path u :
  fresh_keys a fresh active path = Ok u → ∀ p, p ∈ path → fenced a fresh p.2.
Proof.
  unfold fresh_keys. induction path as [|[id c] path IH]; [set_solver|].
  cbn [try_fold]. intros ([] & Hc & Hp)%bind_Ok p [->|Hin]%elem_of_cons; [|by apply IH].
  apply bind_Ok in Hc as (old & Hold%ok_or_Ok & (k & Hk%fail_if_Ok & _)%bind_Ok).
  exists old. split; [exact Hold|]. by inv_ok.
Qed.

(** In a single-controller Space the controller changes only through a certificate
    of the creator's root: it names the new device of the same identity, continues the
    recovery chain by one (64 at most), replaces exactly the creator's devices in the
    member list, and the new controller's keys differ from those of every controller in
    the history it extends. *)
Theorem recovery_fences a record c p rp parent
    (Ha : reachable a) (Hm : is_owner_managed a = false) (Hc : accepted a record c)
    (Hp : sc_previous_config_id c = Some p) (Hid : configs a !! p = Some (rp, parent))
    (Hchange : sc_controller_credential_id c ≠ sc_controller_credential_id parent) :
  ∃ cert b initial root fresh chain,
    embedded c = Ok (Some cert) ∧ decode cert = Ok b
    ∧ initial_controller a = Some initial ∧ controller_root initial = Ok root
    ∧ verify_signature cert root = Ok tt
    ∧ credentials a !! sc_controller_credential_id c = Some fresh
    ∧ cr_controller_credential_id b = vc_id fresh
    ∧ vc_identity fresh = vc_identity initial
    ∧ chain_at a (Some p) = Ok chain ∧ cr_sequence b = nlen chain + 1 ∧ cr_sequence b ≤ 64
    ∧ sc_members c = replace_devices (vc_identity initial) (vc_id fresh) (sc_members parent)
    ∧ ∃ l, ancestry_from a (Some p) = Ok l ∧ ∀ q, q ∈ l → fenced a fresh q.2.
Proof.
  pose proof (reachable_chain a Ha) as Hok.
  assert (witness_pin a = None) as Hpin.
  { apply eq_None_not_Some. intros Hs%(chain_pin _ Hok). congruence. }
  pose proof (acc_transition _ _ _ Hc) as Ht.
  unfold validate_controller_transition in Ht. rewrite Hp, Hm, Hpin in Ht. cbn in Ht.
  rewrite (config_lookup _ _ _ _ Hid) in Ht. cbn in Ht.
  unfold single_controller_transition in Ht. step Ht o Ho.
  destruct o as [cert|]; [|by inv_ok].
  unfold recovery_transition in Ht. step Ht par Hpar. injection Hpar as <-.
  step Ht b Hb. step Ht chain Hchain. step Ht initial Hinit. step Ht root Hroot.
  step Ht u1 Hsig. step Ht n Hn. step Ht fr Hfresh. step Ht u2 H2. step Ht u3 H3.
  step Ht path Hpath. rewrite Hp in Hchain, Hpath.
  exists cert, b, initial, root, fr, chain.
  apply ok_or_Ok in Hinit, Hfresh. destruct u1.
  pose proof (fresh_keys_fenced _ _ _ _ _ Ht) as Hf. inv_ok.
  repeat match goal with H : (_ <? _) = false |- _ => apply N.ltb_ge in H
                       | H : (_ =? _) = true |- _ => apply N.eqb_eq in H end.
  repeat (split; [done|]). eauto.
Qed.

(** ** Portable proofs *)

Lemma apply_config_frame a r :
  genesis (apply_config a r).1 = genesis a ∧ gbody (apply_config a r).1 = gbody a
  ∧ stream (apply_config a r).1 = stream a.
Proof.
  unfold apply_config. destruct (check_config a r) as [[adm|c]|e]; try done.
  destruct (select_controller_head _) as [a'|] eqn:Hs; [|done].
  apply select_frame in Hs as (h & f & ->). done.
Qed.

Lemma replay_frame l a a' :
  reachable a → try_fold replay_config a l = Ok a' →
  reachable a' ∧ genesis a' = genesis a ∧ gbody a' = gbody a ∧ stream a' = stream a.
Proof.
  intros Ha Hl. refine (try_fold_inv (λ a', reachable a' ∧ genesis a' = genesis a
    ∧ gbody a' = gbody a ∧ stream a' = stream a) replay_config l a a' _ _ Hl); [|done].
  intros s x s' _ (Hs & H1 & H2 & H3) Hx. unfold replay_config in Hx.
  apply bind_Ok in Hx as (r & _ & (adm & _ & Hx)%bind_Ok).
  destruct (apply_config_frame s r) as (F1 & F2 & F3).
  assert (s' = (apply_config s r).1) as -> by (destruct adm; by inv_ok).
  split; [by apply reach_config|]. rewrite F1, F2, F3. done.
Qed.

Lemma add_credentials_reachable a l : reachable a → reachable (foldl add_credential a l).
Proof. revert a. induction l; cbn; [done|]. eauto using reachable. Qed.

Lemma add_credentials_frame a l :
  genesis (foldl add_credential a l) = genesis a ∧ gbody (foldl add_credential a l) = gbody a
  ∧ stream (foldl add_credential a l) = stream a ∧ forked (foldl add_credential a l) = forked a.
Proof. revert a. induction l as [|c l IH]; intros a; cbn; [done|]. apply (IH (add_credential a c)). Qed.

Lemma space_genesis {L : PlatformLaws P} a : space a = record_id (genesis a).
Proof.
  unfold space. rewrite parse_hex_display; [done|]. apply sha256_length.
Qed.

Lemma new_frame {L : PlatformLaws P} bytes sp root ctrl st a :
  new bytes sp root ctrl st = Ok a →
  record_id (genesis a) = sp ∧ stream a = st ∧ forked a = false
  ∧ parse bytes = Ok (genesis a) ∧ decode (genesis a) = Ok (gbody a).
Proof.
  unfold new. intros H. inv_ok. cbn.
  by match goal with H : display _ = display _ |- _ => apply display_inj in H end.
Qed.

Lemma load_checkpoint_inv a signed cfg a' :
  load_checkpoint a signed cfg = Ok a' →
  is_owner_managed a = false
  ∧ ∃ c e, decode cfg = Ok c ∧ validate_config a c = Ok tt
      ∧ nlen (ce_ancestry e) = sc_sequence c
      ∧ last_opt (ce_ancestry e) = Some (record_id cfg) ∧ NoDup (ce_ancestry e)
      ∧ a' = set_head (set_checkpoint
               (set_configs a (<[record_id cfg := (cfg, c)]> (configs a)))
               (Some e) (cached_checkpoint a)) (Some (record_id cfg)) (forked a).
Proof.
  unfold load_checkpoint. intros H. step H u1 H1. step H c Hc. step H body Hbody.
  step H ctrl Hctrl. step H u2 H2. step H u3 H3. step H u4 H4. step H u5 H5.
  step H chain Hchain. step H u6 H6. step H u7 H7. inv_ok. destruct u4.
  repeat match goal with H : (_ =? _) = true |- _ => apply N.eqb_eq in H end.
  split; [done|].
  eexists _, {| ce_ancestry := _; ce_recovery := _ |}.
  split; [done|]. split; [done|]. cbn [ce_ancestry].
  split; [|split; [|split; [|reflexivity]]]; try done. by apply any_repeat_false.
Qed.

(** What every successful proof verification establishes. *)
Lemma verify_with_witness_sound {L : PlatformLaws P} p sp st pin a
    (Hv : verify_with_witness p sp st pin = Ok a) :
  space a = sp ∧ stream a = st ∧ witness_pin a = pin
  ∧ (sg_v (gbody a) = 4 ↔ is_Some pin)
  ∧ forked a = false ∧ (∃ c, head_config a = Ok c)
  ∧ match pf_checkpoint p with
    | None => reachable a
    | Some _ => is_owner_managed a = false
                ∧ ∀ r, apply_config a r = (a, Err AuthorityError)
    end.
Proof.
  unfold verify_with_witness in Hv. step Hv u1 H1. step Hv g Hg. step Hv body Hbody.
  step Hv u2 H2. step Hv owner Ho. step Hv raw Hraw. step Hv root Hroot.
  step Hv creds Hcreds. step Hv ctrl Hctrl. step Hv a0 Hnew.
  pose proof (new_frame _ _ _ _ _ _ Hnew) as (Hsp & Hst & Hf & Hparse & Hdec).
  assert (genesis a0 = g) as Hgen.
  { unfold decode_proof_record in Hg. apply bind_Ok in Hg as (b & _ & Hg).
    assert (sr_bytes g = b) as Hb by (by apply parse_bounded_Ok in Hg as [? _]).
    rewrite Hb in Hparse. congruence. }
  rewrite Hgen in Hdec. assert (gbody a0 = body) as Hbo by congruence.
  set (a1 := foldl add_credential a0 (btree_values creds)) in *.
  pose proof (add_credentials_frame a0 (btree_values creds)) as (G1 & G2 & G3 & G4).
  fold a1 in G1, G2, G3, G4.
  assert (∀ a', genesis a' = genesis a1 → gbody a' = gbody a1 → stream a' = stream a1 →
    space a' = sp ∧ stream a' = st ∧ witness_pin a' = pin
    ∧ (sg_v (gbody a') = 4 ↔ is_Some pin)) as Hall.
  { intros a' E1 E2 E3. rewrite space_genesis. unfold witness_pin.
    rewrite E1, E2, E3, G1, G2, G3, Hbo. apply fail_if_Ok, orb_false_iff in H2 as [H2 H2'].
    apply bool_decide_eq_negb_false in H2. apply negb_false_iff, eqb_prop in H2'.
    split; [done|]. split; [done|]. split; [done|]. rewrite <-N.eqb_eq, H2'.
    apply bool_decide_eq_true. }
  destruct (pf_checkpoint p) as [cp|].
  - step Hv signed Hsigned. step Hv cfg Hcfg.
    apply load_checkpoint_inv in Hv as (Hm & c & e & Hc & _ & _ & _ & _ & ->).
    destruct (Hall (set_head (set_checkpoint
               (set_configs a1 (<[record_id cfg := (cfg, c)]> (configs a1)))
               (Some e) (cached_checkpoint a1)) (Some (record_id cfg)) (forked a1)))
      as (A1 & A2 & A3 & A4); [done..|].
    split; [exact A1|]. split; [exact A2|]. split; [exact A3|]. split; [exact A4|].
    split; [cbn; congruence|]. split; [|split; [exact Hm|done]].
    exists c. unfold head_config. cbn. by rewrite lookup_insert_eq.
  - step Hv a2 Hr. step Hv u3 H3. step Hv hc Hh. apply Ok_inj in Hv. subst a2.
    apply replay_frame in Hr as (Hreach & E1 & E2 & E3);
      [|eapply add_credentials_reachable, reach_new; exact Hnew].
    destruct (Hall a E1 E2 E3) as (A1 & A2 & A3 & A4).
    repeat (split; [done|]). split; [by apply fail_if_Ok in H3|]. split; [|done].
    by exists hc.
Qed.

(** C39. A portable proof that verifies yields an unforked authority with a head, for
    exactly the Space, stream and witness pin the caller asked for; version-4 Spaces never
    verify without their pin. A full proof yields an authority the crate could have
    reached record by record; a compact checkpoint, which only single-controller Spaces
    may use, yields one that admits no further configuration. *)
Theorem verified_proof {L : PlatformLaws P} p sp st pin a
    (Hv : verify_with_witness p sp st pin = Ok a) :
  space a = sp ∧ stream a = st ∧ witness_pin a = pin
  ∧ (sg_v (gbody a) = 4 ↔ is_Some pin)
  ∧ forked a = false ∧ (∃ c, head_config a = Ok c)
  ∧ match pf_checkpoint p with
    | None => reachable a
    | Some _ => is_owner_managed a = false
                ∧ ∀ r, apply_config a r = (a, Err AuthorityError)
    end.
Proof. by apply verify_with_witness_sound with (p := p). Qed.

End ProofFacts.

(** * Verified membership proofs

    What a service learns from a portable proof it has verified: the Space and stream, the
    head, and that the head of an owner-managed conversation is its newest configuration. *)


Section Verified.
Context `{P : Platform} {S : AuthoritySerde} {W : WitnessSerde}.
Context {L : PlatformLaws P}.

(** An authority a portable proof of this Space and stream verifies to. *)
Definition verified_as (sp : SpaceId) (st : StreamId) (a : Authority) : Prop :=
  ∃ proof pin, verify_with_witness proof sp st pin = Ok a.

Lemma verified_head sp st a : verified_as sp st a →
  ∃ h c, head a = Some h ∧ head_config a = Ok c ∧ String.length h = 32%nat
         ∧ 1 ≤ sc_sequence c ∧ forked a = false.
Proof.
  intros (p & pin & Hv).
  assert (∀ r, String.length (record_id r) = 32%nat) as Hlen by (intros; apply sha256_length).
  pose proof (verify_with_witness_sound _ _ _ _ _ Hv) as (_ & _ & _ & _ & Hf & [c Hc] & Hcase).
  unfold head_config in Hc. apply ok_or_Ok in Hc.
  destruct (head a) as [h|] eqn:Hh; [|done]. cbn in Hc.
  apply fmap_Some in Hc as ([r c'] & Hr & ->). cbn.
  exists h, c'. unfold head_config. rewrite Hh. cbn. rewrite Hr. split; [done|]. split; [done|].
  destruct (pf_checkpoint p) as [cp|] eqn:Hcp.
  - clear Hcase. unfold verify_with_witness in Hv. step Hv u1 H1. step Hv g Hg.
    step Hv body Hbody. step Hv u2 H2. step Hv owner Ho. step Hv raw Hraw. step Hv root Hroot.
    step Hv creds Hcreds. step Hv ctrl Hctrl. step Hv a0 Hnew. rewrite Hcp in Hv.
    step Hv signed Hsigned. step Hv cfg Hcfg.
    apply load_checkpoint_inv in Hv as (_ & c0 & e & _ & _ & Hlen0 & Hlast & _ & ->).
    cbn in Hh, Hr. injection Hh as <-. rewrite lookup_insert_eq in Hr. injection Hr as <- <-.
    split; [apply Hlen|]. split; [|done].
    destruct (ce_ancestry e); [done|]. unfold nlen in Hlen0. cbn in Hlen0. lia.
  - pose proof (chain_configs _ (reachable_chain _ Hcase) _ _ _ Hr) as Hok.
    split; [rewrite <-(config_id_ok _ _ _ _ Hok); apply Hlen|]. split; [|done].
    pose proof (config_parent _ _ _ _ Hok) as Hp. unfold parent_ok in Hp.
    destruct (sc_previous_config_id c'); [|lia]. destruct Hp as (? & ? & _ & -> & _). lia.
Qed.

Lemma verified_scope sp st a : verified_as sp st a → space a = sp ∧ stream a = st.
Proof.
  intros (p & pin & Hv).
  by pose proof (verify_with_witness_sound _ _ _ _ _ Hv) as (? & ? & _).
Qed.

Lemma recovery_id_length a id : recovery_id a = Some id → String.length id = 32%nat.
Proof.
  unfold recovery_id. destruct (chain_at a (head a)); [|done].
  intros (r & _ & ->)%fmap_Some. apply sha256_length.
Qed.

(** In an owner-managed conversation the head is newer than any other configuration the
    authority proves. *)
Lemma owner_managed_newer sp st a id seq h c :
  verified_as sp st a → is_owner_managed a = true → head a = Some h → head_config a = Ok c →
  proves_config_at a id seq = true → id ≠ h → seq < sc_sequence c.
Proof.
  intros (p & pin & Hv) Hm Hh Hc Hp Hne.
  pose proof (verify_with_witness_sound _ _ _ _ _ Hv) as (_ & _ & _ & _ & Hf & _ & Hcase).
  destruct (pf_checkpoint p); [destruct Hcase; congruence|].
  pose proof (reachable_chain _ Hcase) as Hok.
  unfold proves_config_at in Hp. rewrite (chain_complete _ Hok), orb_false_r in Hp.
  unfold config in Hp. destruct (configs a !! id) as [[r q]|] eqn:Hq; [|done]. cbn in Hp.
  apply N.eqb_eq in Hp as <-. unfold head_config in Hc. rewrite Hh in Hc. cbn in Hc.
  apply ok_or_Ok, fmap_Some in Hc as ([r' c'] & Hc' & ->). cbn.
  pose proof (owner_managed_head a Hok Hm Hf) as Hmax. rewrite Hh in Hmax.
  destruct Hmax as (rh & ch & Hch & Hmax). simplify_eq. pose proof (Hmax _ _ _ Hq) as Hle.
  destruct (decide (sc_sequence q = sc_sequence c')) as [He|]; [|lia].
  destruct Hne. destruct (ancestry_lineage a h _ c' Hok Hc') as (l & _ & Hl).
  assert ((id, q) ∈ l) as Hin.
  { eapply (unshared_on_lineage a h l) with (n := N.to_nat (sc_sequence q));
      [done|by apply owner_managed_forked|done|lia|done|].
    destruct (lineage_head _ _ _ Hl) as [c0 Hc0].
    pose proof (lineage_sequence _ _ _ Hl Hok _ _ _ Hc0).
    destruct (lineage_lookup _ _ _ _ _ Hl (list_elem_of_lookup_2 _ _ _ Hc0)) as [r0 Hr0].
    simplify_eq. lia. }
  apply list_elem_of_lookup_1 in Hin as [i Hi].
  destruct (lineage_head _ _ _ Hl) as [c0 Hc0].
  pose proof (lineage_sequence _ _ _ Hl Hok _ _ _ Hc0).
  pose proof (lineage_sequence _ _ _ Hl Hok _ _ _ Hi).
  destruct (lineage_lookup _ _ _ _ _ Hl (list_elem_of_lookup_2 _ _ _ Hc0)) as [r0 Hr0].
  simplify_eq. assert (i = 0%nat) as -> by lia. rewrite Hi in Hc0. congruence.
Qed.
End Verified.
