(* ===== verification/World.v ===== *)
(** * A concrete Space

    A witnessed Space and a single-controller Space over the concrete platform, with an
    owner, a guest, an invitation and a message, evaluated through the definitions of the
    development. They exhibit inputs on which the hypotheses of the theorems hold. *)

From S2P Require Import Prelude Platform Ids Toy Record Chat Identity AuthorityData AuthorityWitness Authority AuthorityProof AuthorityInv AuthorityFacts Admission ProofFacts.

Module World.
#[local] Existing Instances Toy.platform Toy.platform_laws.

(** Keys: the owner's root and devices, the guest, the invitation and the witness. *)
Definition device_key : string := Toy.pad 32 "device".
Definition spare_key : string := Toy.pad 32 "spare".
Definition guest_device : string := Toy.pad 32 "guest".
Definition second_device : string := Toy.pad 32 "second".
Definition invite_key : string := Toy.pad 32 "invite".
Definition witness_key : string := Toy.pad 32 "witness".
Definition nonce16 : string := display (Toy.pad 16 "n").
Definition nonce32 (s : string) : string := display (Toy.pad 32 s).
Definition owner_id : string := identity_of_root_key Toy.root_key.
Definition guest_id : string := identity_of_root_key Toy.guest_key.
Definition stream_id : string := Toy.pad 16 "stream".

(** A record: its document text signed by a key. *)
Definition rec (text key : string) : SignedRecord :=
  {| sr_bytes := frame text (Toy.pad 64 key);
     sr_body := default VNull (strict (Toy.document text)) |}.
Definition rid (text key : string) : RecordId := record_id (rec text key).

(** ** Credentials *)

Definition credential_body (root key recipient : string) : DeviceCredential :=
  {| dc_v := 1; dc_kind := "device.credential"; dc_nonce := nonce16;
     dc_identity_id := identity_of_root_key root; dc_root_public_key := display root;
     dc_signing_public_key := display key; dc_age_recipient := recipient;
     dc_authorizing_device := None |}.
Definition companion : DeviceCredential :=
  {| dc_v := 2; dc_kind := "device.credential"; dc_nonce := nonce16;
     dc_identity_id := owner_id; dc_root_public_key := display Toy.root_key;
     dc_signing_public_key := display spare_key; dc_age_recipient := "age-companion";
     dc_authorizing_device := Some (sr_bytes (rec "{1c}" Toy.root_key)) |}.

#[export] Instance credentials_serde : Serde DeviceCredential :=
  Toy.table (λ c, if dc_v c =? 2 then "{2c}" else "{1c}")
    [("{1c}", credential_body Toy.root_key device_key "age-owner");
     ("{1d}", credential_body Toy.root_key spare_key "age-spare");
     ("{1g}", credential_body Toy.guest_key guest_device "age-guest");
     ("{1g2}", credential_body Toy.guest_key second_device "age-second");
     ("{2c}", companion)].

Definition dummy_credential : VerifiedCredential :=
  {| vc_record := rec "{}" ""; vc_body := companion; vc_key := ""; delegation_depth := 0 |}.
Definition credential_of (text root : string) : VerifiedCredential :=
  from_ok dummy_credential (verify (sr_bytes (rec text root)) root).
Definition owner_device : VerifiedCredential := credential_of "{1c}" Toy.root_key.
Definition spare_device : VerifiedCredential := credential_of "{1d}" Toy.root_key.
Definition guest : VerifiedCredential := credential_of "{1g}" Toy.guest_key.
Definition second : VerifiedCredential := credential_of "{1g2}" Toy.guest_key.

Example owner_device_verifies :
  verify (sr_bytes (rec "{1c}" Toy.root_key)) Toy.root_key = Ok owner_device.
Proof. vm_compute. reflexivity. Qed.

(** ** Genesis: version 4 with a witness, versions 1 and 2 without *)

Definition pin : WitnessPin :=
  {| wp_url := "https://witness"; wp_public_key := display witness_key; wp_key_generation := 1 |}.
Definition genesis_body (v : N) (witness : option WitnessPin) : SpaceGenesis :=
  {| sg_v := v; sg_kind := "space.genesis"; sg_nonce := display (Toy.pad 16 "stream");
     sg_issuer_identity := owner_id;
     sg_owners := [{| ow_identity_id := owner_id; ow_root_public_key := display Toy.root_key |}];
     sg_controller_credential_id := vc_id owner_device; sg_witness := witness |}.
Definition genesis4 : SignedRecord := rec "{4s}" device_key.
Definition genesis1 : SignedRecord := rec "{1s}" Toy.root_key.
Definition genesis2 : SignedRecord := rec "{2s}" device_key.
#[export] Instance genesis_serde : Serde SpaceGenesis :=
  Toy.table (λ _, "{4s}") [("{4s}", genesis_body 4 (Some pin)); ("{1s}", genesis_body 1 None);
     ("{2s}", genesis_body 2 None)].

(** ** Configurations *)

Definition owner_member (credential : RecordId) : Member :=
  {| m_identity_id := owner_id; m_identity_type := "HUMAN";
     m_root_public_key := display Toy.root_key;
     m_capabilities := [Read; Post; ShareHistory; Manage];
     m_credential_ids := [credential]; m_external := false |}.
Definition guest_member : Member :=
  {| m_identity_id := guest_id; m_identity_type := "HUMAN";
     m_root_public_key := display Toy.guest_key; m_capabilities := [Read; Post];
     m_credential_ids := [vc_id guest]; m_external := true |}.

Definition first_config (v : N) (space : SpaceId) : StreamConfig :=
  {| sc_v := v; sc_kind := "stream.config"; sc_nonce := nonce16; sc_space_id := space;
     sc_stream_id := stream_id; sc_sequence := 1; sc_previous_config_id := None;
     sc_controller_credential_id := vc_id owner_device;
     sc_members := [owner_member (vc_id owner_device)];
     sc_owner_credential_ids := [vc_id owner_device];
     sc_action := {| ca_operation := "create"; ca_actor_identity := owner_id;
                     ca_request_record_id := None |};
     sc_chat_kind := Some KChat; sc_recovery := None; sc_witness_evidence := None |}.

Definition config4 : SignedRecord := rec "{4k}" device_key.
Definition config1 : SignedRecord := rec "{1k}" device_key.
Definition config2 : SignedRecord := rec "{2k}" device_key.

(** The evidence of the guest's admission. *)
Definition evidence : WitnessAdmissionEvidence :=
  {| ae_policy := sr_bytes (rec "{1p}" device_key);
     ae_challenge := sr_bytes (rec "{1h}" witness_key);
     ae_device_intent := sr_bytes (rec "{1i}" guest_device);
     ae_invitation_intent := sr_bytes (rec "{1i}" invite_key);
     ae_contact := sr_bytes (rec "{1t}" guest_device);
     ae_approval := None; ae_admitted_at_ms := 5000 |}.

Definition admitted_config : StreamConfig :=
  {| sc_v := 4; sc_kind := "stream.config"; sc_nonce := stake 32 (nonce32 "i");
     sc_space_id := record_id genesis4; sc_stream_id := stream_id; sc_sequence := 2;
     sc_previous_config_id := Some (record_id config4);
     sc_controller_credential_id := vc_id owner_device;
     sc_members := [owner_member (vc_id owner_device); guest_member];
     sc_owner_credential_ids := [vc_id owner_device];
     sc_action := {| ca_operation := "invite.approved"; ca_actor_identity := owner_id;
                     ca_request_record_id := Some (rid "{1i}" guest_device) |};
     sc_chat_kind := Some KChat; sc_recovery := None;
     sc_witness_evidence := Some (AdmissionEv evidence) |}.
Definition config4b : SignedRecord := rec "{4a}" witness_key.

(** The guest's removal, proposed by the owner beneath the witness signature. *)
Definition removed_config (evidence : option WitnessConfigEvidence) : StreamConfig :=
  {| sc_v := 4; sc_kind := "stream.config"; sc_nonce := nonce16;
     sc_space_id := record_id genesis4; sc_stream_id := stream_id; sc_sequence := 3;
     sc_previous_config_id := Some (record_id config4b);
     sc_controller_credential_id := vc_id owner_device;
     sc_members := [owner_member (vc_id owner_device)];
     sc_owner_credential_ids := [vc_id owner_device];
     sc_action := {| ca_operation := "member.removed"; ca_actor_identity := owner_id;
                     ca_request_record_id := None |};
     sc_chat_kind := Some KChat; sc_recovery := None; sc_witness_evidence := evidence |}.
Definition proposal : SignedRecord := rec "{4q}" device_key.
Definition config4c : SignedRecord := rec "{4r}" witness_key.

(** The recovery of the single controller onto the spare device. *)
Definition certificate : SignedRecord := rec "{1q}" Toy.root_key.
Definition recovered_config : StreamConfig :=
  {| sc_v := 1; sc_kind := "stream.config"; sc_nonce := nonce16;
     sc_space_id := record_id genesis1; sc_stream_id := stream_id; sc_sequence := 2;
     sc_previous_config_id := Some (record_id config1);
     sc_controller_credential_id := vc_id spare_device;
     sc_members := [owner_member (vc_id spare_device)];
     sc_owner_credential_ids := [vc_id spare_device];
     sc_action := {| ca_operation := "controller.recovered"; ca_actor_identity := owner_id;
                     ca_request_record_id := Some (record_id certificate) |};
     sc_chat_kind := Some KChat; sc_recovery := Some (sr_bytes certificate);
     sc_witness_evidence := None |}.
Definition config1b : SignedRecord := rec "{1r}" spare_key.

#[export] Instance config_serde : Serde StreamConfig :=
  Toy.table (λ c, if sc_sequence c =? 2 then "{4a}" else if sc_sequence c =? 3 then "{4r}" else "{4k}")
    [("{4k}", first_config 4 (record_id genesis4)); ("{1k}", first_config 1 (record_id genesis1));
     ("{2k}", first_config 2 (record_id genesis2));
     ("{4a}", admitted_config); ("{4q}", removed_config None);
     ("{4r}", removed_config (Some (OwnerProposal (sr_bytes proposal)))); ("{1r}", recovered_config)].
#[export] Instance recovery_serde : Serde ControllerRecovery :=
  Toy.table (λ _, "{1q}")
    [("{1q}", {| cr_v := 1; cr_kind := "space.controller.recovered"; cr_nonce := nonce16;
                 cr_space_id := record_id genesis1; cr_sequence := 1;
                 cr_previous_recovery_id := None;
                 cr_previous_controller_credential_id := vc_id owner_device;
                 cr_controller_credential_id := vc_id spare_device |})].
#[export] Instance checkpoint_serde : Serde Checkpoint := Toy.table (λ _, "{}") [].

(** ** A message of the owner *)

Definition message : ChatMessage :=
  {| chat_v := 1; chat_kind_ := "chat.message"; chat_nonce := nonce16;
     chat_space_id := record_id genesis4; chat_stream_id := stream_id;
     issuer_identity := owner_id; issuer_credential := vc_id owner_device;
     chat_config_id := record_id config4b; audience := [owner_id; guest_id];
     recipient_credentials := [vc_id owner_device; vc_id guest];
     logical_time := 7; created_at := "2024-02-29T10:20:30Z"; parents := [];
     payload := {| text := "hello"; mentions := []; expires_at_ms := None;
                   sender_name := None; thread_root := None; action := None |};
     locator := None; access := None |}.
#[export] Instance chat_serde : Serde ChatMessage := Toy.table (λ _, "{1m}") [("{1m}", message)].

#[export] Instance authority_serde : AuthoritySerde := {|
  serde_credential := credentials_serde; serde_genesis := genesis_serde;
  serde_config := config_serde; serde_recovery := recovery_serde;
  serde_checkpoint := checkpoint_serde; serde_chat := chat_serde |}.

Definition policy : WitnessInvitationPolicy :=
  {| ip_v := 1; ip_kind := "witness.invitation"; ip_nonce := nonce16;
     ip_space_id := record_id genesis4; ip_stream_id := stream_id;
     ip_authority_head := record_id config4; ip_issuer_credential_id := vc_id owner_device;
     ip_invitation_public_key := display invite_key;
     ip_not_before_ms := 1000; ip_expires_at_ms := 100000;
     ip_require_approval := false; ip_max_uses := 2; ip_witness_key_generation := 1 |}.
#[export] Instance policy_serde : Serde WitnessInvitationPolicy :=
  Toy.table (λ _, "{1p}") [("{1p}", policy)].
#[export] Instance challenge_serde : Serde WitnessChallenge :=
  Toy.table (λ _, "{1h}")
    [("{1h}", {| wc_v := 1; wc_kind := "witness.challenge"; wc_nonce := nonce32 "h";
                 wc_client_nonce := nonce32 "c"; wc_space_id := record_id genesis4;
                 wc_stream_id := stream_id; wc_policy_id := rid "{1p}" device_key;
                 wc_credential_id := vc_id guest; wc_issued_at_ms := 4000;
                 wc_expires_at_ms := 9000; wc_witness_key_generation := 1 |})].
#[export] Instance intent_serde : Serde WitnessAdmissionIntent :=
  Toy.table (λ _, "{1i}")
    [("{1i}", {| ai_v := 1; ai_kind := "witness.admission"; ai_nonce := nonce32 "i";
                 ai_space_id := record_id genesis4; ai_stream_id := stream_id;
                 ai_policy_id := rid "{1p}" device_key;
                 ai_challenge_id := rid "{1h}" witness_key;
                 ai_credential_id := vc_id guest; ai_contact_id := rid "{1t}" guest_device |})].
#[export] Instance contact_serde : Serde Contact :=
  Toy.table (λ _, "{1t}")
    [("{1t}", {| ct_wake := None; ct_v := 1; ct_kind := "identity.contact"; ct_nonce := nonce16;
                 ct_issuer_identity := guest_id; ct_issuer_credential := vc_id guest;
                 ct_name := "Guest"; ct_expires_at := 1000 |})].
#[export] Instance witness_serde : WitnessSerde := {|
  serde_policy := policy_serde; serde_challenge := challenge_serde;
  serde_intent := intent_serde; serde_contact := contact_serde;
  serde_approval := Toy.table (λ _, "{}") []; serde_approval_v2 := Toy.table (λ _, "{}") [];
  serde_join_request := Toy.table (λ _, "{}") [];
  serde_challenge_v2 := Toy.table (λ _, "{}") []; serde_intent_v2 := Toy.table (λ _, "{}") [] |}.

(** ** The authorities, step by step *)

Definition no_authority : Authority :=
  {| genesis := genesis4; gbody := genesis_body 4 None; stream := ""; credentials := ∅;
     configs := ∅; head := None; forked := true; persisted_snapshot := None;
     checkpoint_evidence := None; cached_checkpoint := None |}.
Definition new4 : result RecordError Authority :=
  new (sr_bytes genesis4) (record_id genesis4) Toy.root_key owner_device stream_id.
Definition new1 : result RecordError Authority :=
  new (sr_bytes genesis1) (record_id genesis1) Toy.root_key owner_device stream_id.
Definition with_guest : Authority := add_credential (from_ok no_authority new4) guest.
Definition opened : Authority := (apply_config with_guest config4).1.
Definition joined : Authority := (apply_config opened config4b).1.
Definition removed : Authority :=
  add_credential (apply_config joined config4c).1 second.
Definition with_spare : Authority := add_credential (from_ok no_authority new1) spare_device.
Definition single : Authority := (apply_config with_spare config1).1.
Definition recovered : Authority := (apply_config single config1b).1.
(** A Space its owners manage, as it is created. *)
Definition new2 : result RecordError Authority :=
  new (sr_bytes genesis2) (record_id genesis2) Toy.root_key owner_device stream_id.
Definition created : Authority := (apply_config (from_ok no_authority new2) config2).1.

Example opened_applied : (apply_config with_guest config4).2 = Ok Applied.
Proof. vm_compute. reflexivity. Qed.
Example joined_applied : (apply_config opened config4b).2 = Ok Applied.
Proof. vm_compute. reflexivity. Qed.
Example removed_applied : (apply_config joined config4c).2 = Ok Applied.
Proof. vm_compute. reflexivity. Qed.
Example single_applied : (apply_config with_spare config1).2 = Ok Applied.
Proof. vm_compute. reflexivity. Qed.
Example recovered_applied : (apply_config single config1b).2 = Ok Applied.
Proof. vm_compute. reflexivity. Qed.


(** ** Facts about the steps, evaluated *)

Lemma new4_Ok : new4 = Ok (from_ok no_authority new4).
Proof. vm_compute. reflexivity. Qed.
Lemma new1_Ok : new1 = Ok (from_ok no_authority new1).
Proof. vm_compute. reflexivity. Qed.
Lemma guest_reachable : reachable with_guest.
Proof. apply reach_credential. eapply reach_new. exact new4_Ok. Qed.
Lemma opened_reachable : reachable opened.
Proof. apply reach_config, guest_reachable. Qed.
Lemma joined_reachable : reachable joined.
Proof. apply reach_config, opened_reachable. Qed.
Lemma removed_reachable : reachable removed.
Proof. apply reach_credential, reach_config, joined_reachable. Qed.
Lemma single_reachable : reachable single.
Proof. apply reach_config, reach_credential. eapply reach_new. exact new1_Ok. Qed.

Lemma opened_accepts : accepted opened config4b admitted_config.
Proof. apply check_config_accepted. vm_compute. reflexivity. Qed.
Lemma single_accepts : accepted single config1b recovered_config.
Proof. apply check_config_accepted. vm_compute. reflexivity. Qed.
Lemma opened_stores : configs opened !! record_id config4 = Some (config4, first_config 4 (record_id genesis4)).
Proof. vm_compute. reflexivity. Qed.
Lemma joined_stores : configs joined !! record_id config4b = Some (config4b, admitted_config).
Proof. vm_compute. reflexivity. Qed.
Lemma single_stores : configs single !! record_id config1 = Some (config1, first_config 1 (record_id genesis1)).
Proof. vm_compute. reflexivity. Qed.

End World.

(** * The theorems at work

    The theorems about authorities, admissions, messages and proofs applied to the
    concrete Spaces of [World]. *)


Section Examples.
#[local] Existing Instances Toy.platform Toy.platform_laws.
Import World.

(** The two configurations of the joined Space form its one chain. *)
Lemma owner_managed_single_chain_witness :
  forked joined = false
  ∧ ∃ l, witness_ancestry joined = Ok l ∧ NoDup l.*1 ∧ (record_id config4, first_config 4 (record_id genesis4)) ∈ l.
Proof.
  assert (Hf : forked joined = false) by (vm_compute; reflexivity).
  split; [exact Hf|].
  destruct (owner_managed_single_chain joined joined_reachable eq_refl) as [_ H].
  destruct (H Hf) as (l & Hl & Hn & Hall). exists l. split; [exact Hl|]. split; [exact Hn|].
  apply Hall. exists config4. vm_compute. reflexivity.
Defined.

Lemma apply_config_spec_witness :
  configs (apply_config opened config4b).1
    = <[record_id config4b := (config4b, admitted_config)]> (configs opened)
  ∧ credentials (apply_config opened config4b).1 = credentials opened.
Proof.
  destruct (apply_config_spec opened config4b opened_reachable) as [H _].
  destruct (H admitted_config opened_accepts) as (H1 & H2 & _). split; assumption.
Defined.

Lemma ancestry_terminates_witness :
  ∃ l, ancestry_from joined (Some (record_id config4b)) = Ok l ∧ nlen l = 2.
Proof.
  destruct (ancestry_terminates joined _ _ _ joined_reachable joined_stores)
    as (l & H1 & H2 & _). exists l. split; [exact H1|exact H2].
Defined.

Lemma owner_credentials_exact_witness :
  ∃ m, m ∈ sc_members admitted_config ∧ m_identity_id m = sg_issuer_identity (gbody joined)
       ∧ m_identity_type m = "HUMAN".
Proof.
  destruct (owner_credentials_exact joined _ _ _ joined_reachable eq_refl joined_stores)
    as [_ (m & H1 & H2 & H3 & _)].
  exists m. split; [exact H1|]. split; [exact H2|exact H3].
Defined.

Lemma chat_kind_fixed_witness :
  match ancestry_from joined (Some (record_id config4b)) with
  | Ok l => (∃ id' c', (id', c') ∈ l ∧ sc_chat_kind c' = Some KChat)
            → sc_chat_kind admitted_config = Some KChat
  | Err _ => False
  end.
Proof. exact (chat_kind_fixed joined _ _ _ KChat joined_reachable joined_stores). Defined.

Lemma opened_pinned : is_Some (witness_pin opened).
Proof. exists pin. vm_compute. reflexivity. Qed.

Lemma witness_grants_nothing_witness :
  owner_proposed opened admitted_config (first_config 4 (record_id genesis4))
  ∨ ∃ candidate root, admits (first_config 4 (record_id genesis4)) admitted_config candidate root.
Proof.
  exact (proj2 (witness_grants_nothing opened config4b admitted_config _ _ _
    opened_reachable opened_pinned opened_accepts eq_refl opened_stores)).
Defined.

Lemma creator_keeps_control_witness :
  let parent := first_config 4 (record_id genesis4) in
  (managers parent = managers admitted_config
   ∧ member_of parent owner_id = member_of admitted_config owner_id)
  ∨ ∃ signer, credentials opened !! sc_controller_credential_id admitted_config = Some signer
      ∧ vc_identity signer = owner_id.
Proof.
  destruct (creator_keeps_control opened config4b admitted_config _ _ _
    opened_reachable eq_refl opened_accepts eq_refl opened_stores)
    as [H|(signer & H1 & H2 & _)]; [left; exact H|right].
  exists signer. split; [exact H1|exact H2].
Defined.

Lemma admission_uses_invitation_witness :
  witness_admission_config opened evidence = Ok admitted_config
  ∧ ∃ signed p l, decode_b64 (ae_policy evidence) = Ok signed
      ∧ open_invitation opened signed p (ae_admitted_at_ms evidence)
      ∧ times_used (record_id signed) l < ip_max_uses p
      ∧ times_used (record_id signed) ((record_id config4b, admitted_config) :: l)
        = times_used (record_id signed) l + 1.
Proof.
  assert (H : witness_admission_config opened evidence = Ok admitted_config)
    by (vm_compute; reflexivity).
  split; [exact H|].
  destruct (admission_uses_invitation opened evidence admitted_config opened_reachable H)
    as (signed & p & candidate & nonce & request & l & parent & root & H1 & H2 & _ & _ & _ & H3 & H4 & _).
  exists signed, p, l. split; [exact H1|]. split; [exact H2|]. split; [exact H3|]. apply H4.
Defined.

(** The removed guest returns on a second device, with the owner's approval. *)
Definition readmission : ValidatedAdmission :=
  {| va_candidate := second;
     va_policy := policy;
     va_policy_id := rid "{1p}" device_key; va_challenge_nonce := nonce32 "second";
     va_request_id := rid "{1j}" second_device; va_config_nonce := nonce16;
     va_admitted_at_ms := 8000;
     va_approval := Some {| aa_signed := rec "{1a}" device_key; aa_issuer := vc_id owner_device;
                            aa_head := record_id config4c; aa_readmission := true |};
     va_evidence := AdmissionEv evidence |}.
Lemma readmission_needs_approval_witness :
  is_ok (finish_witness_admission removed readmission) = true
  ∧ ∃ ap, va_approval readmission = Some ap ∧ aa_readmission ap = true.
Proof.
  set (c := from_ok admitted_config (finish_witness_admission removed readmission)).
  set (l := from_ok [] (witness_ancestry removed)).
  assert (Hc : finish_witness_admission removed readmission = Ok c) by (vm_compute; reflexivity).
  assert (Hl : witness_ancestry removed = Ok l) by (vm_compute; reflexivity).
  split; [rewrite Hc; reflexivity|].
  assert (Hd : drops (vc_identity (va_candidate readmission)) admitted_config
                 (removed_config (Some (OwnerProposal (sr_bytes proposal))))).
  { exists guest_member, (vc_id guest). split; [vm_compute; reflexivity|].
    split; [constructor|]. intros m' Hm. vm_compute in Hm. discriminate. }
  destruct (readmission_needs_approval removed readmission c l 0
    (record_id config4c, removed_config (Some (OwnerProposal (sr_bytes proposal))))
    (record_id config4b, admitted_config) removed_reachable Hc Hl)
    as (ap & _ & _ & H1 & H2 & _); [vm_compute; reflexivity..|exact Hd|].
  exists ap. split; [exact H1|exact H2].
Defined.

Lemma companion_round_trip : serde_round_trip companion.
Proof.
  intros v m H. apply strict_json_value in H. change (to_vec companion) with "{2c}" in H.
  vm_compute in H. injection H as <-. vm_compute. reflexivity.
Qed.

(** The owner pairs a second device. *)
Lemma issue_companion_extends_witness :
  ∃ c, issue_companion owner_device device_key spare_key "age-companion"
         (Some (Toy.pad 16 "n")) = Ok c
    ∧ delegation_depth c = 1%nat ∧ vc_recipient c = "age-companion".
Proof.
  set (c := from_ok dummy_credential (issue_companion owner_device device_key spare_key
    "age-companion" (Some (Toy.pad 16 "n")))).
  assert (H : issue_companion owner_device device_key spare_key "age-companion"
    (Some (Toy.pad 16 "n")) = Ok c) by (vm_compute; reflexivity).
  exists c. split; [exact H|].
  assert (Hauth : authorized Toy.root_key owner_device).
  { apply (proj1 (verify_exact (sr_bytes (rec "{1c}" Toy.root_key)) Toy.root_key owner_device)).
    exact owner_device_verifies. }
  destruct (issue_companion_extends owner_device Toy.root_key device_key spare_key
    "age-companion" (Some (Toy.pad 16 "n")) c Hauth) as (_ & H1 & _ & _ & _ & H2 & _).
  - intros nonce Hn. vm_compute in Hn. injection Hn as <-. exact companion_round_trip.
  - exact H.
  - split; [exact H1|exact H2].
Defined.

Lemma expected_recipients_exact_witness :
  NoDup [vc_id owner_device; vc_id guest]
  ∧ ∀ i, i ∈ [owner_id; guest_id] ↔
      ∃ m, m ∈ sc_members admitted_config ∧ Read ∈ m_capabilities m ∧ m_identity_id m = i.
Proof.
  assert (H : expected_recipients joined (record_id config4b) (vc_id owner_device)
    = Ok ([owner_id; guest_id], [vc_id owner_device; vc_id guest])) by (vm_compute; reflexivity).
  destruct (expected_recipients_exact joined _ _ _ _ joined_reachable H)
    as (r & c & own & Hc & _ & _ & Hn & _ & Ha).
  assert (c = admitted_config) as -> by (rewrite joined_stores in Hc; congruence).
  split; [exact Hn|exact Ha].
Defined.

(** The owner's message reaches the guest's device. *)
Definition sent : SignedRecord := rec "{1m}" device_key.
Lemma prepared_accepted_by_all_witness :
  prepare_chat joined message device_key (Some 1000) = Ok sent
  ∧ admission joined sent (vc_id guest) false (Some 1000) = Ok Accepted.
Proof.
  assert (H : prepare_chat joined message device_key (Some 1000) = Ok sent)
    by (vm_compute; reflexivity).
  split; [exact H|].
  apply (prepared_accepted_by_all joined message device_key (Some 1000) sent (vc_id guest) H).
  exists message. split; [vm_compute; reflexivity|].
  apply contains_true. vm_compute. reflexivity.
Defined.

Lemma recovery_fences_witness :
  ∃ cert fr, embedded recovered_config = Ok (Some cert)
    ∧ credentials single !! vc_id spare_device = Some fr
    ∧ ∃ l, ancestry_from single (Some (record_id config1)) = Ok l
        ∧ ∀ q, q ∈ l → fenced single fr q.2.
Proof.
  assert (Hne : sc_controller_credential_id recovered_config
    ≠ sc_controller_credential_id (first_config 1 (record_id genesis1)))
    by (vm_compute; discriminate).
  destruct (recovery_fences single config1b recovered_config _ _ _ single_reachable eq_refl
    single_accepts eq_refl single_stores Hne)
    as (cert & b & initial & root & fr & chain & H1 & _ & _ & _ & _ & H2 & _ & _ & _ & _ & _ & _ & H3).
  exists cert, fr. split; [exact H1|]. split; [exact H2|exact H3].
Defined.

(** The joined Space exported and verified again. *)
Definition exported : CallAuthorityProof :=
  {| pf_v := 1; pf_genesis := sr_bytes genesis4;
     pf_credentials := [sr_bytes (rec "{1c}" Toy.root_key); sr_bytes (rec "{1g}" Toy.guest_key)];
     pf_configs := [sr_bytes config4; sr_bytes config4b]; pf_checkpoint := None |}.
Lemma exported_call_proof : call_proof joined = Ok exported.
Proof. vm_compute. reflexivity. Qed.
Lemma verified_proof_witness :
  ∃ a, verify_with_witness exported (record_id genesis4) stream_id (Some pin) = Ok a
    ∧ space a = record_id genesis4 ∧ witness_pin a = Some pin ∧ reachable a.
Proof.
  set (a := from_ok no_authority
    (verify_with_witness exported (record_id genesis4) stream_id (Some pin))).
  assert (H : verify_with_witness exported (record_id genesis4) stream_id (Some pin) = Ok a)
    by (vm_compute; reflexivity).
  exists a. split; [exact H|].
  destruct (verified_proof exported (record_id genesis4) stream_id (Some pin) a H)
    as (H1 & _ & H2 & _ & _ & _ & H3).
  split; [exact H1|]. split; [exact H2|exact H3].
Defined.

End Examples.
