(* ===== verification/WitnessWire.v ===== *)
(** * The witness protocol (crates/elo-core/src/witness.rs, witness/registration.rs)

    Requests, signed commands, receipts and freshness leases; the proof of work of a
    registration; the client's freshness check; and the hosting operator's tickets. *)

From S2P Require Import Prelude Platform Ids Record Chat Identity AuthorityData AuthorityWitness Authority AuthorityProof.

Inductive Operation :=
| Register
| RegisterInvitation (policy : string)
| RevokeInvitation (policy_id : RecordId)
| ChallengeOp (policy_id : RecordId) (credential client_nonce : string)
| Admit (credential : string) (evidence : WitnessAdmissionEvidence)
| ChallengeV2Op (credential : string) (request : WitnessJoinRequestEvidence)
    (client_nonce : string)
| AdmitV2 (credential : string) (evidence : WitnessAdmissionEvidenceV2)
| OwnerUpdate (proposal : string) (credentials : list string)
| ReadOp.

Record Request := {
  rq_command : string;
  rq_invitation_signature : option string;
  rq_proof : option CallAuthorityProof;
  rq_registration_work : option N;
  rq_registration_ticket : option string;
}.

Record Command := {
  cm_v : N; cm_kind : string; cm_nonce : string; cm_audience : string;
  cm_space_id : SpaceId; cm_stream_id : StreamId;
  cm_credential_id : RecordId; cm_authority_head : RecordId;
  cm_issued_at_ms : N; cm_expires_at_ms : N; cm_operation : Operation;
}.

Record HeadRequest := { hr_space_id : SpaceId; hr_stream_id : StreamId; hr_nonce : string }.

Record Response := {
  rs_receipt : option string;
  rs_proof : option CallAuthorityProof;
  rs_challenge : option string;
}.

Record Position := { po_sequence : N; po_record_id : option RecordId }.
#[global] Instance Position_eq_dec : EqDecision Position.
Proof. solve_decision. Defined.

Record Receipt := {
  rc_v : N; rc_kind : string; rc_audience : string; rc_sequence : N;
  rc_previous : option RecordId; rc_request_id : RecordId; rc_space_id : SpaceId;
  rc_authority_head : RecordId; rc_state_digest : string; rc_accepted_at_ms : N;
  rc_event : string; rc_witness_key_generation : N;
}.
#[global] Instance Receipt_eq_dec : EqDecision Receipt.
Proof. solve_decision. Defined.

Record NoopAcknowledgement := {
  na_v : N; na_kind : string; na_audience : string; na_request_id : RecordId;
  na_space_id : SpaceId; na_stream_id : StreamId; na_authority_head : RecordId;
  na_event : string; na_position : Position; na_issued_at_ms : N; na_expires_at_ms : N;
  na_witness_key_generation : N;
}.

Record Freshness := {
  fr_v : N; fr_kind : string; fr_audience : string; fr_nonce : string;
  fr_space_id : SpaceId; fr_stream_id : StreamId; fr_authority_head : RecordId;
  fr_position : Position; fr_issued_at_ms : N; fr_expires_at_ms : N;
  fr_witness_key_generation : N;
}.

(** An [Instant] is its distance in milliseconds from an arbitrary origin. *)
Record VerifiedFreshness := { vf_body : Freshness; vf_requested_at : N }.

Record RegistrationHost := { rh_host : string; rh_public_key : string }.

Record RegistrationTicket := {
  rt_v : N; rt_kind : string; rt_audience : string; rt_witness_public_key : string;
  rt_witness_key_generation : N; rt_host : string; rt_space_id : SpaceId;
  rt_stream_id : StreamId; rt_authority_head : RecordId; rt_creator_identity : IdentityId;
  rt_credential_id : RecordId; rt_issued_at_ms : N; rt_expires_at_ms : N;
  rt_reservation_id : string;
}.

(** serde instances of the protocol's signed bodies and texts. *)
Class ProtocolSerde := {
  serde_command :: Serde Command;
  serde_receipt :: Serde Receipt;
  serde_noop :: Serde NoopAcknowledgement;
  serde_freshness :: Serde Freshness;
  serde_ticket :: Serde RegistrationTicket;
  json_response :: JsonText Response;
  json_proof :: JsonText CallAuthorityProof;
  json_pin :: JsonText WitnessPin;
}.

Definition MAX_TICKET_BYTES : N := 8192.
Definition MAX_TICKET_LIFETIME_MS : N := 600000.

Section Wire.
Context `{P : Platform} {S : AuthoritySerde} {W : WitnessSerde} {X : ProtocolSerde}.

(** ** Registration work *)

(** The bytes hashed before the nonce. *)
Definition registration_work_prefix (r : Request) : result RecordError string :=
  proof ← ok_or (rq_proof r) AuthorityError;
  _ ← fail_if ((16384 <? slen (rq_command r))
               || negb (pf_v proof =? 1)
               || bool_decide (is_Some (pf_checkpoint proof))
               || negb (nlen (pf_configs proof) =? 1)
               || negb (nlen (pf_credentials proof) =? 1)
               || (65536 <? slen (pf_genesis proof) + slen (default "" (pf_configs proof !! 0%nat))
                            + slen (default "" (pf_credentials proof !! 0%nat)))) Framing;
  mret (("elo.witness.registration-work.v1" +:+ nul)
        +:+ sha256 (rq_command r) +:+ sha256 (to_json proof)).

Definition byte_at (i : nat) (s : string) : N :=
  match String.get i s with Some c => byte_val c | None => 0 end.

(** Twenty leading zero bits of the digest. *)
Definition work_done (prefix : string) (nonce : N) : bool :=
  let digest := sha256 (prefix +:+ be_bytes 8 nonce) in
  (byte_at 0 digest =? 0) && (byte_at 1 digest =? 0)
  && (N.land (byte_at 2 digest) 240 =? 0).

Definition verify_registration_work (r : Request) : result RecordError unit :=
  nonce ← ok_or (rq_registration_work r) AuthorityError;
  _ ← fail_if (MAX_INTEGER <? nonce) AuthorityError;
  prefix ← registration_work_prefix r;
  fail_if (negb (work_done prefix nonce)) AuthorityError.

Definition set_work (r : Request) (nonce : N) : Request :=
  {| rq_command := rq_command r; rq_invitation_signature := rq_invitation_signature r;
     rq_proof := rq_proof r; rq_registration_work := Some nonce;
     rq_registration_ticket := rq_registration_ticket r |}.

(** The search loop [for nonce in 0..=MAX_INTEGER]; [None] is a loop the fuel does not
    finish. *)
Fixpoint search_work (fuel : nat) (prefix : string) (nonce : N) : option (result RecordError N) :=
  match fuel with
  | O => None
  | Datatypes.S fuel =>
      if MAX_INTEGER <? nonce then Some (Err AuthorityError)
      else if work_done prefix nonce then Some (Ok nonce)
      else search_work fuel prefix (nonce + 1)
  end.
Definition solve_registration_work (fuel : nat) (r : Request) : option (result RecordError Request) :=
  match registration_work_prefix r with
  | Err e => Some (Err e)
  | Ok prefix =>
      match search_work fuel prefix 0 with
      | None => None
      | Some (Err e) => Some (Err e)
      | Some (Ok nonce) => Some (Ok (set_work r nonce))
      end
  end.

(** ** Freshness *)

Definition freshness_is_valid (f : VerifiedFreshness) (instant now_ms : N) : bool :=
  (instant - vf_requested_at f <? 30000)
  && (saturating_sub (fr_issued_at_ms (vf_body f)) 5000 <=? now_ms)
  && (now_ms <? fr_expires_at_ms (vf_body f)).

(** Below the retained position, or beside it at the same sequence. *)
Definition behind_floor (body : Freshness) (floor : option Position) : bool :=
  match floor with
  | None => false
  | Some floor =>
      (po_sequence (fr_position body) <? po_sequence floor)
      || ((po_sequence (fr_position body) =? po_sequence floor)
          && (po_record_id (fr_position body) =/= po_record_id floor))
  end.

(** [instant] is the monotonic clock when [is_valid] reads it. *)
Definition verify_freshness (pin : WitnessPin) (request : HeadRequest) (encoded : string)
    (requested_at instant now_ms : N) (floor : option Position)
    : result RecordError VerifiedFreshness :=
  _ ← pin_validate pin;
  _ ← hex 32 (hr_nonce request);
  _ ← fail_if (16384 <? slen encoded) Framing;
  b ← ok_or (base64_decode encoded) Json;
  signed ← parse b;
  key ← pin_key pin;
  _ ← verify_signature signed key;
  body ← decode (T := Freshness) signed;
  _ ← fail_if (negb (fr_v body =? 1)
               || (fr_kind body =/= "witness.freshness")
               || (fr_audience body =/= wp_url pin)
               || negb (fr_witness_key_generation body =? wp_key_generation pin)
               || (fr_nonce body =/= hr_nonce request)
               || (fr_space_id body =/= hr_space_id request)
               || (fr_stream_id body =/= hr_stream_id request)
               || (po_sequence (fr_position body) =? 0)
               || bool_decide (po_record_id (fr_position body) = None)
               || (fr_expires_at_ms body <=? fr_issued_at_ms body)
               || (30000 <? fr_expires_at_ms body - fr_issued_at_ms body)
               || (saturating_add now_ms 5000 <? fr_issued_at_ms body)
               || behind_floor body floor) AuthorityError;
  let f := {| vf_body := body; vf_requested_at := requested_at |} in
  _ ← fail_if (negb (freshness_is_valid f instant now_ms)) AuthorityError;
  mret f.

(** ** Hosting tickets *)

(** app/space_host.rs [validate_host] with loopback allowed; every failure is the
    caller's [RecordError::Authority]. *)
Definition validate_host (value : string) : result RecordError unit :=
  url ← ok_or (url_parse value) AuthorityError;
  fail_if (negb (bool_decide (is_Some (url_host url)))
           || (url_username url =/= "")
           || bool_decide (is_Some (url_password url))
           || bool_decide (is_Some (url_query url))
           || bool_decide (is_Some (url_fragment url))
           || (url_path url =/= "/spaces/v1/create")
           || negb ((url_scheme url === "https")
                    || (url_loopback url && (url_scheme url === "http")))) AuthorityError.

Definition host_validate (h : RegistrationHost) : result RecordError unit :=
  _ ← fail_if (2048 <? slen (rh_host h)) Framing;
  _ ← validate_host (rh_host h);
  raw ← hex 32 (rh_public_key h);
  _ ← ok_or (vk_from_bytes raw) Signature;
  mret tt.

Definition ticket_validate (t : RegistrationTicket) : result RecordError unit :=
  _ ← fail_if (2048 <? slen (rt_host t)) Framing;
  _ ← validate_host (rt_host t);
  _ ← pin_validate {| wp_url := rt_audience t; wp_public_key := rt_witness_public_key t;
                      wp_key_generation := rt_witness_key_generation t |};
  _ ← hex 32 (rt_reservation_id t);
  fail_if (negb (rt_v t =? 1)
           || (rt_kind t =/= "witness.registration_ticket")
           || (rt_expires_at_ms t <=? rt_issued_at_ms t)
           || (MAX_INTEGER <? rt_expires_at_ms t)
           || (MAX_TICKET_LIFETIME_MS <? rt_expires_at_ms t - rt_issued_at_ms t)) AuthorityError.

Definition ticket_sign (t : RegistrationTicket) (key : string) : result RecordError SignedRecord :=
  _ ← ticket_validate t;
  sign_bounded (to_vec t) key MAX_TICKET_BYTES.

Definition ticket_parse (encoded : string)
    : result RecordError (RegistrationTicket * SignedRecord) :=
  _ ← fail_if (MAX_TICKET_BYTES * 2 <? slen encoded) Framing;
  bytes ← ok_or (base64_decode encoded) Framing;
  signed ← parse_bounded bytes MAX_TICKET_BYTES;
  body ← decode (T := RegistrationTicket) signed;
  _ ← ticket_validate body;
  mret (body, signed).

End Wire.
