(* ===== verification/Journal.v ===== *)
(** * The witness journal (crates/elo-witness/src/journal.rs, journal/capacity.rs)

    The database tables, the signed append-only event chain over them, the digest that
    binds each Space's materialized rows to its newest receipt, the per-Space budgets,
    and the journal that stays sealed until it is activated against an external anchor. *)

From S2P Require Import Prelude Platform Ids Record Chat Identity AuthorityData AuthorityWitness Authority AuthorityProof WitnessWire.

(** lib.rs [Error]; a [RecordError] becomes [Unauthorized], a database error
    [Unavailable]. *)
Inductive Error :=
| Invalid | Unauthorized | Conflict | Limit | Missing | RecoveryRequired | Unavailable.
#[global] Instance Error_eq_dec : EqDecision Error.
Proof. solve_decision. Defined.

Definition lift {A} (r : result RecordError A) : result Error A := map_err r Unauthorized.

(** ** Tables

    Identifiers are stored as their text ([display]). Integers are the non-negative
    values the service writes; all of them stay below [2^63], so SQLite's signed columns
    hold them unchanged. *)

Record EventRow := {
  ev_sequence : N; ev_record_id : string; ev_receipt : string;
  ev_request_id : string; ev_response : string; ev_space : string;
}.
Record SpaceRow := { sp_stream : string; sp_proof : string }.
Record PolicyRow := { pl_space : string; pl_record : string; pl_revoked : bool; pl_uses : N }.
Record ChallengeRow := {
  ch_space : string; ch_policy : string; ch_credential : string; ch_record : string;
  ch_expires : N; ch_intent : option string;
}.
Record NonceRow := { nr_request : string; nr_expires : N }.

(** [events] is in ascending order of its primary key. The unique index on consumed "v2:"
    requests never fires: the only update that writes one counts them first, in the same
    transaction. *)
Record Db := {
  metadata : option string;
  events : list EventRow;
  spaces : gmap string SpaceRow;
  policies : gmap string PolicyRow;
  challenges : gmap string ChallengeRow;
  tombstones : gmap (string * string) string;
  command_nonces : gmap (string * string) NonceRow;
  registration_limits : gmap (string * N) N;
}.

Definition set_events (d : Db) (x : list EventRow) : Db :=
  {| metadata := metadata d; events := x; spaces := spaces d; policies := policies d;
     challenges := challenges d; tombstones := tombstones d;
     command_nonces := command_nonces d; registration_limits := registration_limits d |}.
Definition set_spaces (d : Db) (x : gmap string SpaceRow) : Db :=
  {| metadata := metadata d; events := events d; spaces := x; policies := policies d;
     challenges := challenges d; tombstones := tombstones d;
     command_nonces := command_nonces d; registration_limits := registration_limits d |}.
Definition set_policies (d : Db) (x : gmap string PolicyRow) : Db :=
  {| metadata := metadata d; events := events d; spaces := spaces d; policies := x;
     challenges := challenges d; tombstones := tombstones d;
     command_nonces := command_nonces d; registration_limits := registration_limits d |}.
Definition set_challenges (d : Db) (x : gmap string ChallengeRow) : Db :=
  {| metadata := metadata d; events := events d; spaces := spaces d; policies := policies d;
     challenges := x; tombstones := tombstones d;
     command_nonces := command_nonces d; registration_limits := registration_limits d |}.
Definition set_tombstones (d : Db) (x : gmap (string * string) string) : Db :=
  {| metadata := metadata d; events := events d; spaces := spaces d; policies := policies d;
     challenges := challenges d; tombstones := x;
     command_nonces := command_nonces d; registration_limits := registration_limits d |}.
Definition set_nonces (d : Db) (x : gmap (string * string) NonceRow) : Db :=
  {| metadata := metadata d; events := events d; spaces := spaces d; policies := policies d;
     challenges := challenges d; tombstones := tombstones d;
     command_nonces := x; registration_limits := registration_limits d |}.
Definition set_limits (d : Db) (x : gmap (string * N) N) : Db :=
  {| metadata := metadata d; events := events d; spaces := spaces d; policies := policies d;
     challenges := challenges d; tombstones := tombstones d;
     command_nonces := command_nonces d; registration_limits := x |}.
Definition set_metadata (d : Db) (x : option string) : Db :=
  {| metadata := x; events := events d; spaces := spaces d; policies := policies d;
     challenges := challenges d; tombstones := tombstones d;
     command_nonces := command_nonces d; registration_limits := registration_limits d |}.

(** [INSERT INTO] a table with this primary key. *)
Definition insert_row {K A} `{Countable K} (k : K) (x : A) (m : gmap K A)
    : result Error (gmap K A) :=
  match m !! k with Some _ => Err Unavailable | None => Ok (<[k := x]> m) end.
(** [INSERT OR IGNORE INTO] *)
Definition insert_or_ignore {K A} `{Countable K} (k : K) (x : A) (m : gmap K A) : gmap K A :=
  match m !! k with Some _ => m | None => <[k := x]> m end.

Definition MAX_EVENTS : N := 1000000.
Definition MAX_SPACES : N := 128.
Definition NORMAL_EVENTS : N := 3072.
Definition RESERVED_EVENTS : N := 4096.
Definition NORMAL_BYTES : N := 3 * 1024 * 1024.
Definition RESERVED_BYTES : N := 4 * 1024 * 1024.

Record Activation := {
  at_startup_nonce : string; at_expected_position : Position; at_public_key : string;
  at_key_generation : N; at_expires_at_ms : N;
}.
Record Startup := {
  su_startup_nonce : string; su_observed_position : Position; su_public_key : string;
  su_key_generation : N;
}.

(** [monotonic] is the [Instant] of the anchor, in milliseconds from an arbitrary origin. *)
Record Journal := {
  db : Db;
  jkey : string;
  pin : WitnessPin;
  registration_hosts : list RegistrationHost;
  startup_nonce : string;
  active : bool;
  clock_failed : bool;
  last_clock : N;
  anchor_wall : N;
  monotonic : N;
}.

Definition set_db (j : Journal) (d : Db) : Journal :=
  {| db := d; jkey := jkey j; pin := pin j; registration_hosts := registration_hosts j;
     startup_nonce := startup_nonce j; active := active j; clock_failed := clock_failed j;
     last_clock := last_clock j; anchor_wall := anchor_wall j; monotonic := monotonic j |}.
Definition set_clock (j : Journal) (a f : bool) (last anchor mono : N) : Journal :=
  {| db := db j; jkey := jkey j; pin := pin j; registration_hosts := registration_hosts j;
     startup_nonce := startup_nonce j; active := a; clock_failed := f;
     last_clock := last; anchor_wall := anchor; monotonic := mono |}.
Definition set_hosts (j : Journal) (h : list RegistrationHost) : Journal :=
  {| db := db j; jkey := jkey j; pin := pin j; registration_hosts := h;
     startup_nonce := startup_nonce j; active := active j; clock_failed := clock_failed j;
     last_clock := last_clock j; anchor_wall := anchor_wall j; monotonic := monotonic j |}.

Section Journal.
Context `{P : Platform} {S : AuthoritySerde} {W : WitnessSerde} {X : ProtocolSerde}.

(** journal.rs [decode] *)
Definition jdecode (encoded : string) : result Error SignedRecord :=
  _ ← fail_if (MAX_RECORD * 2 <? slen encoded) Invalid;
  b ← ok_or (base64_decode encoded) Invalid;
  lift (parse b).

(** engine.rs [hex32] *)
Definition hex32 (value : string) : result Error string := ok_or (parse_hex 32 value) Invalid.

(** ** Position and digest *)

Definition position (d : Db) : result Error Position :=
  match last (events d) with
  | None => mret {| po_sequence := 0; po_record_id := None |}
  | Some e =>
      id ← ok_or (parse_hex 32 (ev_record_id e)) Unavailable;
      mret {| po_sequence := ev_sequence e; po_record_id := Some id |}
  end.

(** SQL values as the digest types them. *)
Inductive SqlValue := SqlNull | SqlInteger (n : N) | SqlText (s : string).
Definition byte (n : N) : string := String (byte_of n) "".
Definition hash_value (v : SqlValue) : string :=
  match v with
  | SqlNull => byte 0
  | SqlInteger n => byte 1 +:+ be_bytes 8 n
  | SqlText s => byte 2 +:+ be_bytes 8 (slen s) +:+ s
  end.
Definition hash_row (row : list SqlValue) : string :=
  byte 1 +:+ concat_strings (hash_value <$> row).
Definition hash_table (name : string) (rows : list (list SqlValue)) : string :=
  byte 0 +:+ be_bytes 8 (slen name) +:+ name +:+ concat_strings (hash_row <$> rows) +:+ byte 2.

Definition sql_opt (o : option string) : SqlValue :=
  match o with Some s => SqlText s | None => SqlNull end.

(** The four queries of the digest, each ordered by its key. *)
Definition space_rows (d : Db) (space : string) : list (list SqlValue) :=
  match spaces d !! space with
  | Some r => [[SqlText space; SqlText (sp_stream r); SqlText (sp_proof r)]]
  | None => []
  end.
Definition policies_of (d : Db) (space : string) : list (string * PolicyRow) :=
  btree_list (filter (λ kr, pl_space kr.2 = space) (policies d)).
Definition policy_rows (d : Db) (space : string) : list (list SqlValue) :=
  (λ kr, [SqlText (pl_space kr.2); SqlText kr.1; SqlText (pl_record kr.2);
          SqlInteger (if pl_revoked kr.2 then 1 else 0); SqlInteger (pl_uses kr.2)])
  <$> policies_of d space.
Definition challenges_of (d : Db) (space : string) : list (string * ChallengeRow) :=
  btree_list (filter (λ kr, ch_space kr.2 = space) (challenges d)).
Definition challenge_rows (d : Db) (space : string) : list (list SqlValue) :=
  (λ kr, [SqlText kr.1; SqlText (ch_space kr.2); SqlText (ch_policy kr.2);
          SqlText (ch_credential kr.2); SqlText (ch_record kr.2);
          SqlInteger (ch_expires kr.2); sql_opt (ch_intent kr.2)])
  <$> challenges_of d space.
Definition tombstones_of (d : Db) (space : string) : list (string * string) :=
  merge_sort key_le ((λ kr, (kr.1.2, kr.2)) <$>
    map_to_list (filter (λ kr, kr.1.1 = space) (tombstones d))).
Definition tombstone_rows (d : Db) (space : string) : list (list SqlValue) :=
  (λ ci, [SqlText space; SqlText ci.1; SqlText ci.2]) <$> tombstones_of d space.

Definition state_digest (d : Db) (space : SpaceId) : string :=
  display (sha256 (
    ("elo.now/witness/materialized-state/v1" +:+ nul) +:+ space
    +:+ hash_table "spaces" (space_rows d (display space))
    +:+ hash_table "policies" (policy_rows d (display space))
    +:+ hash_table "challenges" (challenge_rows d (display space))
    +:+ hash_table "tombstones" (tombstone_rows d (display space)))).

(** The newest event of a Space. *)
Definition last_event (d : Db) (space : string) : option EventRow :=
  last (List.filter (λ e, ev_space e === space) (events d)).

Definition verify_materialized_space (d : Db) (space : SpaceId) (p : WitnessPin)
    : result Error Receipt :=
  e ← ok_or (last_event d (display space)) RecoveryRequired;
  signed ← jdecode (ev_receipt e);
  key ← lift (pin_key p);
  _ ← lift (verify_signature signed key);
  receipt ← lift (decode (T := Receipt) signed);
  _ ← fail_if (negb (rc_v receipt =? 1)
               || (rc_kind receipt =/= "witness.receipt")
               || (rc_audience receipt =/= wp_url p)
               || (rc_space_id receipt =/= space)
               || negb (rc_witness_key_generation receipt =? wp_key_generation p)
               || (ev_sequence e =? 0)
               || negb (rc_sequence receipt =? ev_sequence e)
               || (ev_record_id e =/= display (record_id signed))
               || (rc_state_digest receipt =/= state_digest d space)) RecoveryRequired;
  mret receipt.

(** Every Space named by any table. *)
Definition known_spaces (d : Db) : list string :=
  remove_dups ((map_to_list (spaces d)).*1
    ++ ((λ kr, pl_space kr.2) <$> map_to_list (policies d))
    ++ ((λ kr, ch_space kr.2) <$> map_to_list (challenges d))
    ++ ((λ kr, kr.1.1) <$> map_to_list (tombstones d))
    ++ (ev_space <$> events d)).

Definition verify_materialized (d : Db) (p : WitnessPin) : result Error unit :=
  let l := known_spaces d in
  _ ← fail_if (128 <? nlen l) RecoveryRequired;
  try_fold (λ _ space,
    id ← ok_or (parse_hex 32 space) RecoveryRequired;
    _ ← verify_materialized_space d id p;
    mret tt) tt l.

(** ** Opening *)

(** The loop over [events]: sequence, previous record and time so far. *)
Definition open_step (key : string) (p : WitnessPin) (s : N * option RecordId * N) (e : EventRow)
    : result Error (N * option RecordId * N) :=
  let '(sequence, previous, time) := s in
  record ← jdecode (ev_receipt e);
  _ ← lift (verify_signature record (ed25519_verifying_key key));
  body ← lift (decode (T := Receipt) record);
  let sequence := sequence + 1 in
  _ ← fail_if ((MAX_EVENTS <? sequence)
               || negb (ev_sequence e =? sequence)
               || (ev_record_id e =/= display (record_id record))
               || (ev_request_id e =/= display (rc_request_id body))
               || (ev_space e =/= display (rc_space_id body))
               || negb (rc_v body =? 1)
               || (rc_kind body =/= "witness.receipt")
               || (rc_audience body =/= wp_url p)
               || negb (rc_sequence body =? sequence)
               || (rc_previous body =/= previous)
               || (rc_accepted_at_ms body <? time)
               || negb (rc_witness_key_generation body =? wp_key_generation p))
        RecoveryRequired;
  mret (sequence, Some (record_id record), rc_accepted_at_ms body).

Definition check_events (key : string) (p : WitnessPin) (l : list EventRow)
    : result Error (N * option RecordId * N) :=
  try_fold (open_step key p) (0, None, 0) l.

(** The checks of [Journal::open] before it writes the pin. *)
Definition open_allowed (d : Db) (key : string) (p : WitnessPin) : result Error unit :=
  _ ← lift (pin_validate p);
  _ ← fail_if ((encode_hex (ed25519_verifying_key key) =/= wp_public_key p)
               || (wp_key_generation p =? 0)) Invalid;
  fail_if match metadata d with Some old => old =/= to_json p | None => false end
    RecoveryRequired.

(** The event chain, the clock and the materialized rows. [nonce] is the startup nonce
    drawn, [instant] the monotonic clock. *)
Definition open_verified (d : Db) (key : string) (p : WitnessPin) (now instant : N)
    (nonce : option string) : result Error Journal :=
  s ← check_events key p (events d);
  _ ← fail_if (now <? s.2) RecoveryRequired;
  _ ← verify_materialized d p;
  startup ← lift (random_hex nonce);
  mret {| db := d; jkey := key; pin := p; registration_hosts := []; startup_nonce := startup;
          active := false; clock_failed := false; last_clock := now; anchor_wall := now;
          monotonic := instant |}.

(** [Journal::open] from the point where the key is read: the database it leaves, and the
    journal. *)
Definition open (d : Db) (key : string) (p : WitnessPin) (now instant : N) (nonce : option string)
    : Db * result Error Journal :=
  match open_allowed d key p with
  | Err e => (d, Err e)
  | Ok _ =>
      let d := set_metadata d (Some (to_json p)) in
      (d, open_verified d key p now instant nonce)
  end.

Definition set_registration_hosts (j : Journal) (hosts : list RegistrationHost)
    : result Error Journal :=
  _ ← fail_if (16 <? nlen hosts) Invalid;
  _ ← try_fold (λ origins h,
        _ ← lift (host_validate h);
        _ ← fail_if (contains origins (rh_host h)) Invalid;
        mret (rh_host h :: origins)) [] hosts;
  mret (set_hosts j hosts).

Definition startup (j : Journal) : result Error Startup :=
  p ← position (db j);
  mret {| su_startup_nonce := startup_nonce j; su_observed_position := p;
          su_public_key := wp_public_key (pin j);
          su_key_generation := wp_key_generation (pin j) |}.

(** ** Activation and the clock *)

Definition activate (j : Journal) (act : Activation) (now instant : N) : result Error Journal :=
  let refused := active j || clock_failed j || (now <? last_clock j)
                 || (at_startup_nonce act =/= startup_nonce j)
                 || (at_public_key act =/= wp_public_key (pin j))
                 || negb (at_key_generation act =? wp_key_generation (pin j)) in
  _ ← fail_if refused RecoveryRequired;
  p ← position (db j);
  _ ← fail_if ((at_expected_position act =/= p)
               || (at_expires_at_ms act <? now)
               || (saturating_add now 600000 <? at_expires_at_ms act)) RecoveryRequired;
  _ ← verify_materialized (db j) (pin j);
  mret (set_clock j true (clock_failed j) now now instant).

(** [guard] mutates the journal even when it refuses. *)
Definition guard (j : Journal) (now instant : N) : Journal * result Error unit :=
  if (MAX_INTEGER <? now) || negb (active j) then (j, Err RecoveryRequired)
  else
    let elapsed := cap64 (instant - monotonic j) in
    let wall := saturating_sub now (anchor_wall j) in
    if (now <? last_clock j) || (5000 <? abs_diff wall elapsed) then
      (set_clock j false true (last_clock j) (anchor_wall j) (monotonic j), Err RecoveryRequired)
    else (set_clock j (active j) (clock_failed j) now (anchor_wall j) (monotonic j), Ok tt).

Definition ready (j : Journal) (now instant : N) : Journal * bool :=
  let out := guard j now instant in (out.1, is_ok out.2).

(** ** Budgets (journal/capacity.rs) *)

Record Usage := { us_events : N; us_bytes : N }.
Definition sum_of (l : list N) : N := foldr N.add 0 l.
Definition usage (d : Db) (space : string) : Usage :=
  let own := List.filter (λ e, ev_space e === space) (events d) in
  {| us_events := nlen own;
     us_bytes :=
       sum_of ((λ e, slen (ev_receipt e) + slen (ev_response e) + 1024) <$> own)
       + (match spaces d !! space with Some r => slen (sp_proof r) + 512 | None => 0 end
          + sum_of ((λ kr, slen (pl_record kr.2) + 512) <$> policies_of d space)
          + sum_of ((λ kr, slen (ch_record kr.2)
                           + match ch_intent kr.2 with Some i => slen i | None => 0 end + 512)
                    <$> challenges_of d space)
          + sum_of ((λ _, 512) <$> tombstones_of d space)) |}.

Definition enforce (d : Db) (space : SpaceId) (security_reduction : bool) : result Error unit :=
  let u := usage d (display space) in
  let limit := if security_reduction then (RESERVED_EVENTS, RESERVED_BYTES)
               else (NORMAL_EVENTS, NORMAL_BYTES) in
  fail_if ((limit.1 <? us_events u) || (limit.2 <? us_bytes u)) Limit.

Definition reserve_space (d : Db) : result Error unit :=
  let l := (map_to_list (spaces d)).*1 in
  _ ← fail_if (MAX_SPACES <=? nlen l) Limit;
  let total := fold_left (λ acc space,
    let u := usage d space in
    (saturating_add acc.1 (N.max (us_events u) RESERVED_EVENTS),
     saturating_add acc.2 (N.max (us_bytes u) RESERVED_BYTES)))
    l (RESERVED_EVENTS, RESERVED_BYTES) in
  fail_if ((MAX_EVENTS <? total.1) || (MAX_SPACES * RESERVED_BYTES <? total.2)) Limit.

(** ** Appending *)

Definition replay (d : Db) (request : RecordId) : result Error (option Response) :=
  match find_first (λ e, ev_request_id e === display request) (events d) with
  | None => mret None
  | Some e => r ← ok_or (from_json (ev_response e)) Unavailable; mret (Some r)
  end.

Record Event := {
  et_request : RecordId; et_space : SpaceId; et_head : RecordId; et_name : string; et_now : N;
}.

(** [INSERT INTO events] with its primary key and unique columns. *)
Definition insert_event (d : Db) (e : EventRow) : result Error Db :=
  _ ← fail_if (existsb (λ o, (ev_sequence o =? ev_sequence e)
                             || (ev_record_id o === ev_record_id e)
                             || (ev_request_id o === ev_request_id e)) (events d)) Unavailable;
  mret (set_events d (events d ++ [e])).

Definition receipt_body (d : Db) (p : WitnessPin) (tip : Position) (e : Event) : Receipt :=
  {| rc_v := 1; rc_kind := "witness.receipt"; rc_audience := wp_url p;
     rc_sequence := po_sequence tip + 1; rc_previous := po_record_id tip;
     rc_request_id := et_request e; rc_space_id := et_space e;
     rc_authority_head := et_head e; rc_state_digest := state_digest d (et_space e);
     rc_accepted_at_ms := et_now e; rc_event := et_name e;
     rc_witness_key_generation := wp_key_generation p |}.

Definition append_with_budget (d : Db) (key : string) (p : WitnessPin) (e : Event)
    (response : Response) (security_reduction : bool) : result Error (Db * Response) :=
  tip ← position d;
  _ ← fail_if (MAX_EVENTS <=? po_sequence tip) Limit;
  let body := receipt_body d p tip e in
  record ← lift (sign (to_vec body) key);
  let encoded := base64_encode (sr_bytes record) in
  let response := {| rs_receipt := Some encoded; rs_proof := rs_proof response;
                     rs_challenge := rs_challenge response |} in
  d ← insert_event d
    {| ev_sequence := rc_sequence body; ev_record_id := display (record_id record);
       ev_receipt := encoded; ev_request_id := display (et_request e);
       ev_response := to_json response; ev_space := display (et_space e) |};
  _ ← enforce d (et_space e) security_reduction;
  mret (d, response).

End Journal.
