(* ===== verification/Engine.v ===== *)
(** * The witness engine (crates/elo-witness/src/engine.rs)

    The handler of signed commands: request checks, loading the witnessed authority,
    permissions, replay, and one transaction per command with a branch per operation. *)

From S2P Require Import Prelude Platform Ids Record Chat Identity AuthorityData AuthorityWitness Authority AuthorityProof WitnessWire Journal.

Inductive IpAddr := V4 (octets : string) | V6 (octets : string).

(** [Ipv6Addr::to_ipv4_mapped] *)
Definition v4_mapped_prefix : string :=
  concat_strings (replicate 10 (byte 0)) +:+ byte 255 +:+ byte 255.
Definition to_ipv4_mapped (octets : string) : option string :=
  if stake 12 octets === v4_mapped_prefix then Some (sdrop 12 octets) else None.

Section Engine.
Context `{P : Platform} {S : AuthoritySerde} {W : WitnessSerde} {X : ProtocolSerde}.

Definition registration_network (ip : IpAddr) (day : N) : string :=
  let prefix :=
    match ip with
    | V4 o => o
    | V6 o => match to_ipv4_mapped o with Some v4 => v4 | None => stake 8 o end
    end in
  encode_hex (sha256 (("elo.witness.registration-network.v1" +:+ nul)
                      +:+ be_bytes 8 day +:+ prefix)).

(** ** Loading and saving an authority *)

Definition load (d : Db) (space : SpaceId) (stream : StreamId) (p : WitnessPin)
    : result Error Authority :=
  row ← ok_or (spaces d !! display space) Missing;
  _ ← fail_if (sp_stream row =/= display stream) Missing;
  _ ← fail_if (9 * 1024 * 1024 <? slen (sp_proof row)) Unavailable;
  proof ← ok_or (from_json (T := CallAuthorityProof) (sp_proof row)) Unavailable;
  receipt ← verify_materialized_space d space p;
  authority ← lift (verify_witnessed proof space stream p);
  _ ← fail_if (head authority =/= Some (rc_authority_head receipt)) RecoveryRequired;
  mret authority.

(** The upsert keeps the stream of an existing row. *)
Definition save (d : Db) (a : Authority) : result Error Db :=
  proof ← lift (call_proof a);
  let key := display (space a) in
  mret (set_spaces d (<[key :=
    {| sp_stream := match spaces d !! key with Some r => sp_stream r
                    | None => display (stream a) end;
       sp_proof := to_json proof |}]> (spaces d))).

Definition require_read (a : Authority) (cred : RecordId) : result Error unit :=
  h ← lift (head_config a);
  fail_if (negb (existsb (λ m, contains (m_credential_ids m) cred && has_capability m Read)
                   (sc_members h))) Unauthorized.

Definition members (a : Authority) : result Error (list (string * string)) :=
  h ← lift (head_config a);
  mret (mjoin ((λ m, (λ id, (display id, display (m_identity_id m))) <$> m_credential_ids m)
               <$> sc_members h)).

Definition grants (a : Authority) : result Error (list (string * string * Capability)) :=
  h ← lift (head_config a);
  mret (mjoin ((λ m, mjoin ((λ id, (λ c, (display (m_identity_id m), display id, c))
                                     <$> m_capabilities m) <$> m_credential_ids m))
               <$> sc_members h)).

(** A registered policy that is still open, with its stored text. *)
Definition policy (d : Db) (a : Authority) (id : RecordId) (now : N)
    : result Error (string * WitnessInvitationPolicy) :=
  row ← ok_or (policies d !! display id) Missing;
  _ ← fail_if (pl_space row =/= display (space a)) Missing;
  record ← jdecode (pl_record row);
  body ← lift (verify_witness_invitation a record now);
  _ ← fail_if (pl_revoked row || (ip_max_uses body <=? pl_uses row)) Unauthorized;
  mret (pl_record row, body).

Definition verify_credential (encoded : string) : result Error VerifiedCredential :=
  signed ← jdecode encoded;
  body ← lift (decode (T := DeviceCredential) signed);
  raw ← hex32 (dc_root_public_key body);
  root ← ok_or (vk_from_bytes raw) Invalid;
  lift (verify (sr_bytes signed) root).

(** ** [head]: a nonce-bound freshness lease *)

Definition freshness_body (j : Journal) (r : HeadRequest) (h : RecordId) (p : Position) (now : N)
    (expires : N) : Freshness :=
  {| fr_v := 1; fr_kind := "witness.freshness"; fr_audience := wp_url (pin j);
     fr_nonce := hr_nonce r; fr_space_id := hr_space_id r; fr_stream_id := hr_stream_id r;
     fr_authority_head := h; fr_position := p; fr_issued_at_ms := now;
     fr_expires_at_ms := expires; fr_witness_key_generation := wp_key_generation (pin j) |}.

Definition head_response (j : Journal) (r : HeadRequest) (now : N) : result Error string :=
  _ ← hex32 (hr_nonce r);
  a ← load (db j) (hr_space_id r) (hr_stream_id r) (pin j);
  h ← ok_or (head a) Missing;
  p ← position (db j);
  expires ← ok_or (checked_add now 30000) Invalid;
  signed ← lift (sign (to_vec (freshness_body j r h p now expires)) (jkey j));
  mret (base64_encode (sr_bytes signed)).

Definition engine_head (j : Journal) (r : HeadRequest) (now instant : N)
    : Journal * result Error string :=
  let '(j, g) := guard j now instant in
  (j, _ ← g; head_response j r now).

(** ** Checks before the transaction *)

Definition operation_candidate (o : Operation) : option string :=
  match o with
  | ChallengeOp _ c _ | Admit c _ | ChallengeV2Op c _ _ | AdmitV2 c _ => Some c
  | _ => None
  end.
Definition is_register (o : Operation) : bool :=
  match o with Register => true | _ => false end.
Definition is_admit (o : Operation) : bool :=
  match o with Admit _ _ | AdmitV2 _ _ => true | _ => false end.
(** Operations only an owner device may submit. *)
Definition is_managed (o : Operation) : bool :=
  match o with
  | Register | RegisterInvitation _ | RevokeInvitation _ | OwnerUpdate _ _ => true
  | _ => false
  end.

Definition command_ok (j : Journal) (c : Command) (now : N) : result Error unit :=
  _ ← hex32 (cm_nonce c);
  fail_if (negb (cm_v c =? 1)
           || (cm_kind c =/= "witness.command")
           || (cm_audience c =/= wp_url (pin j))
           || (cm_expires_at_ms c <=? now)
           || (saturating_add now 5000 <? cm_issued_at_ms c)
           || (cm_expires_at_ms c <=? cm_issued_at_ms c)
           || (60000 <? cm_expires_at_ms c - cm_issued_at_ms c)) Invalid.

Definition work_ok (r : Request) (c : Command) : result Error unit :=
  if is_register (cm_operation c) then lift (verify_registration_work r)
  else fail_if (bool_decide (is_Some (rq_registration_work r))
                || bool_decide (is_Some (rq_registration_ticket r))) Invalid.

Definition registered (d : Db) (space : SpaceId) : bool := contains (known_spaces d) (display space).

(** The authority a command runs against. *)
Definition command_authority (j : Journal) (r : Request) (c : Command) : result Error Authority :=
  if is_register (cm_operation c) then
    proof ← ok_or (rq_proof r) Invalid;
    a ← lift (verify_witnessed proof (cm_space_id c) (cm_stream_id c) (pin j));
    h ← lift (head_config a);
    _ ← fail_if (negb (sc_sequence h =? 1)
                 || (sc_chat_kind h =/= Some KChat)
                 || (value_as_str (value_index (sr_body (genesis a)) "nonce")
                     =/= Some (display (cm_stream_id c)))) Invalid;
    if registered (db j) (cm_space_id c)
    then load (db j) (cm_space_id c) (cm_stream_id c) (pin j)
    else mret a
  else
    _ ← fail_if (bool_decide (is_Some (rq_proof r))) Invalid;
    load (db j) (cm_space_id c) (cm_stream_id c) (pin j).

Definition command_signer (a : Authority) (c : Command) (candidate : option VerifiedCredential)
    : result Error VerifiedCredential :=
  signer ← match candidate with
           | Some candidate => mret candidate
           | None => lift (credential a (cm_credential_id c))
           end;
  _ ← fail_if (vc_id signer =/= cm_credential_id c) Unauthorized;
  mret signer.

Definition permission_ok (a : Authority) (c : Command) : result Error unit :=
  _ ← (if bool_decide (is_Some (operation_candidate (cm_operation c))) then Ok tt
       else require_read a (cm_credential_id c));
  fail_if (is_managed (cm_operation c) && negb (can_manage a (cm_credential_id c))) Unauthorized.

Definition verify_registration_ticket (encoded : string) (hosts : list RegistrationHost)
    (p : WitnessPin) (c : Command) (creator : IdentityId) (now : N) : result Error unit :=
  '(ticket, signed) ← lift (ticket_parse encoded);
  host ← ok_or (find_first (λ h, rh_host h === rt_host ticket) hosts) Unauthorized;
  raw ← hex32 (rh_public_key host);
  key ← ok_or (vk_from_bytes raw) Invalid;
  _ ← lift (verify_signature signed key);
  fail_if ((rt_audience ticket =/= wp_url p)
           || (rt_witness_public_key ticket =/= wp_public_key p)
           || negb (rt_witness_key_generation ticket =? wp_key_generation p)
           || (rt_space_id ticket =/= cm_space_id c)
           || (rt_stream_id ticket =/= cm_stream_id c)
           || (rt_authority_head ticket =/= cm_authority_head c)
           || (rt_creator_identity ticket =/= creator)
           || (rt_credential_id ticket =/= cm_credential_id c)
           || (saturating_add now 5000 <? rt_issued_at_ms ticket)
           || (rt_expires_at_ms ticket <=? now)) Unauthorized.

Definition noop (d : Db) (key : string) (p : WitnessPin) (signed : SignedRecord) (c : Command)
    (event : string) (now : N) : result Error Response :=
  pos ← position d;
  record ← lift (sign (to_vec
    {| na_v := 1; na_kind := "witness.noop"; na_audience := wp_url p;
       na_request_id := record_id signed; na_space_id := cm_space_id c;
       na_stream_id := cm_stream_id c; na_authority_head := cm_authority_head c;
       na_event := event; na_position := pos; na_issued_at_ms := now;
       na_expires_at_ms := cm_expires_at_ms c;
       na_witness_key_generation := wp_key_generation p |}) key);
  mret {| rs_receipt := Some (base64_encode (sr_bytes record)); rs_proof := None;
          rs_challenge := None |}.

(** ** The operations inside the transaction *)

(** What a branch of the operation match leaves: an early acknowledgement, or the
    updated database, authority and response, the event name and its budget class. *)
Inductive outcome :=
| Acknowledged (response : Response)
| Changed (d : Db) (a : Authority) (response : Response) (event : string) (reduction : bool).

Definition no_response : Response :=
  {| rs_receipt := None; rs_proof := None; rs_challenge := None |}.

(** Expired command nonces and abandoned challenges. *)
Definition prune (d : Db) (space : SpaceId) (now : N) : Db :=
  let d := set_nonces d
    (filter (λ kr, saturating_sub now 600000 ≤ nr_expires kr.2) (command_nonces d)) in
  set_challenges d (filter (λ kr, ¬ (ch_space kr.2 = display space
      ∧ ch_expires kr.2 < saturating_sub now 600000 ∧ ch_intent kr.2 = None)) (challenges d)).

(** The rows of [registration_limits] of one day. *)
Definition day_total (d : Db) (day : N) : N :=
  sum_of ((λ kr, kr.2) <$> map_to_list (filter (λ kr, kr.1.2 = day) (registration_limits d))).

Definition do_register (d : Db) (c : Command) (a : Authority) (ip : IpAddr) (now : N)
    : result Error outcome :=
  _ ← fail_if (bool_decide (is_Some (spaces d !! display (cm_space_id c)))) Conflict;
  _ ← reserve_space d;
  let day := now / 86400000 in
  let network := registration_network ip day in
  let count := default 0 (registration_limits d !! (network, day)) in
  let global := day_total d day in
  _ ← fail_if ((4 <=? count) || (32 <=? global)) Limit;
  let d := set_limits d (filter (λ kr, day ≤ kr.1.2)
             (<[(network, day) := count + 1]> (registration_limits d))) in
  d ← save d a;
  mret (Changed d a no_response "space.registered" false).

Definition do_register_invitation (j : Journal) (d : Db) (signed : SignedRecord) (c : Command)
    (a : Authority) (text : string) (now : N) : result Error outcome :=
  record ← jdecode text;
  body ← lift (verify_witness_invitation a record now);
  _ ← fail_if (ip_issuer_credential_id body =/= cm_credential_id c) Unauthorized;
  let id := display (record_id record) in
  let row := policies d !! id in
  match row with
  | Some row =>
      if pl_space row === display (cm_space_id c) then
        _ ← fail_if ((pl_record row =/= text) || pl_revoked row) Unauthorized;
        Acknowledged <$> noop d (jkey j) (pin j) signed c "invitation.registered" now
      else
        _ ← fail_if (4096 <=? nlen (policies_of d (display (cm_space_id c)))) Limit;
        mret (Changed d a no_response "invitation.registered" false)
  | None =>
      _ ← fail_if (4096 <=? nlen (policies_of d (display (cm_space_id c)))) Limit;
      mret (Changed (set_policies d (insert_or_ignore id
              {| pl_space := display (cm_space_id c); pl_record := text; pl_revoked := false;
                 pl_uses := 0 |} (policies d))) a no_response "invitation.registered" false)
  end.

Definition revoke_row (r : PolicyRow) : PolicyRow :=
  {| pl_space := pl_space r; pl_record := pl_record r; pl_revoked := true; pl_uses := pl_uses r |}.

Definition do_revoke_invitation (j : Journal) (d : Db) (signed : SignedRecord) (c : Command)
    (a : Authority) (policy_id : RecordId) (now : N) : result Error outcome :=
  row ← ok_or (policies d !! display policy_id) Missing;
  _ ← fail_if (pl_space row =/= display (cm_space_id c)) Missing;
  if pl_revoked row then
    Acknowledged <$> noop d (jkey j) (pin j) signed c "invitation.revoked" now
  else
    mret (Changed (set_policies d (<[display policy_id := revoke_row row]> (policies d)))
            a no_response "invitation.revoked" true).

(** The invitation key countersigns this exact command. *)
Definition possession_ok (r : Request) (signed : SignedRecord) (body : WitnessInvitationPolicy)
    : result Error unit :=
  text ← ok_or (rq_invitation_signature r) Unauthorized;
  possession ← jdecode text;
  _ ← fail_if (body_bytes possession =/= body_bytes signed) Unauthorized;
  raw ← hex32 (ip_invitation_public_key body);
  key ← ok_or (vk_from_bytes raw) Invalid;
  lift (verify_signature possession key).

(** Open, unconsumed challenges of a Space. *)
Definition open_challenges (d : Db) (space : string) (now : N) : N :=
  nlen (List.filter (λ kr, (now <=? ch_expires kr.2) && bool_decide (ch_intent kr.2 = None))
          (challenges_of d space)).
Definition consumed_requests (d : Db) (space intent : string) : N :=
  nlen (List.filter (λ kr, ch_intent kr.2 === Some intent) (challenges_of d space)).

Definition do_challenge (j : Journal) (d : Db) (r : Request) (signed : SignedRecord)
    (c : Command) (a : Authority) (policy_id : RecordId) (client_nonce : string) (now : N)
    (entropy : option string) : result Error outcome :=
  _ ← hex32 client_nonce;
  '(_, body) ← policy d a policy_id now;
  _ ← possession_ok r signed body;
  _ ← fail_if (256 <=? open_challenges d (display (cm_space_id c)) now) Limit;
  nonce ← lift (random_hex entropy);
  let challenge :=
    {| wc_v := 1; wc_kind := "witness.challenge"; wc_nonce := nonce;
       wc_client_nonce := client_nonce; wc_space_id := cm_space_id c;
       wc_stream_id := cm_stream_id c; wc_policy_id := policy_id;
       wc_credential_id := cm_credential_id c; wc_issued_at_ms := now;
       wc_expires_at_ms := saturating_add now 120000;
       wc_witness_key_generation := wp_key_generation (pin j) |} in
  record ← lift (sign (to_vec challenge) (jkey j));
  let encoded := base64_encode (sr_bytes record) in
  rows ← insert_row (display (record_id record))
    {| ch_space := display (cm_space_id c); ch_policy := display policy_id;
       ch_credential := display (cm_credential_id c); ch_record := encoded;
       ch_expires := wc_expires_at_ms challenge; ch_intent := None |} (challenges d);
  mret (Changed (set_challenges d rows) a
          {| rs_receipt := None; rs_proof := None; rs_challenge := Some encoded |}
          "invitation.challenged" false).

Definition do_challenge_v2 (j : Journal) (d : Db) (r : Request) (signed : SignedRecord)
    (c : Command) (a : Authority) (candidate : VerifiedCredential)
    (join : WitnessJoinRequestEvidence) (client_nonce : string) (now : N)
    (entropy : option string) : result Error outcome :=
  _ ← hex32 client_nonce;
  body ← lift (verify_witness_join_request a join candidate now);
  '(stored, policy_body) ← policy d a (wj_policy_id body) now;
  _ ← fail_if (stored =/= jr_policy join) Unauthorized;
  _ ← possession_ok r signed policy_body;
  request ← jdecode (jr_device_request join);
  let request_id := record_id request in
  let consumption := "v2:" +:+ display request_id in
  _ ← fail_if (negb (consumed_requests d (display (cm_space_id c)) consumption =? 0)) Conflict;
  _ ← fail_if (256 <=? open_challenges d (display (cm_space_id c)) now) Limit;
  nonce ← lift (random_hex entropy);
  h ← ok_or (head a) Missing;
  let challenge :=
    {| c2_v := 2; c2_kind := "witness.challenge"; c2_nonce := nonce;
       c2_client_nonce := client_nonce; c2_space_id := cm_space_id c;
       c2_stream_id := cm_stream_id c; c2_policy_id := wj_policy_id body;
       c2_credential_id := cm_credential_id c; c2_request_id := request_id;
       c2_authority_head := h; c2_issued_at_ms := now;
       c2_expires_at_ms := N.min (saturating_add now 120000) (wj_expires_at_ms body);
       c2_witness_key_generation := wp_key_generation (pin j) |} in
  record ← lift (sign (to_vec challenge) (jkey j));
  let encoded := base64_encode (sr_bytes record) in
  rows ← insert_row (display (record_id record))
    {| ch_space := display (cm_space_id c); ch_policy := display (wj_policy_id body);
       ch_credential := display (cm_credential_id c); ch_record := encoded;
       ch_expires := c2_expires_at_ms challenge; ch_intent := None |} (challenges d);
  mret (Changed (set_challenges d rows) a
          {| rs_receipt := None; rs_proof := None; rs_challenge := Some encoded |}
          "invitation.challenged_v2" false).

(** The stored challenge of this Space and credential, unexpired. *)
Definition find_challenge (d : Db) (c : Command) (id : RecordId) (now : N)
    : result Error ChallengeRow :=
  row ← ok_or (challenges d !! display id) Unauthorized;
  _ ← fail_if ((ch_space row =/= display (cm_space_id c))
               || (ch_credential row =/= display (cm_credential_id c))
               || (ch_expires row <? now)) Unauthorized;
  mret row.

(** A retired credential or identity of this Space. *)
Definition is_removed (d : Db) (c : Command) (candidate : VerifiedCredential) : bool :=
  existsb (λ kr, (kr.1.1 === display (cm_space_id c))
                 && ((kr.1.2 === display (vc_id candidate))
                     || (kr.2 === display (vc_identity candidate))))
    (map_to_list (tombstones d)).

Definition consume_row (intent : string) (r : ChallengeRow) : ChallengeRow :=
  {| ch_space := ch_space r; ch_policy := ch_policy r; ch_credential := ch_credential r;
     ch_record := ch_record r; ch_expires := ch_expires r; ch_intent := Some intent |}.
(** [UPDATE challenges SET intent=?1 WHERE id=?2 AND intent IS NULL]: rows changed. *)
Definition consume_challenge (d : Db) (id intent : string) : Db * N :=
  match challenges d !! id with
  | Some r => if bool_decide (ch_intent r = None)
              then (set_challenges d (<[id := consume_row intent r]> (challenges d)), 1)
              else (d, 0)
  | None => (d, 0)
  end.

Definition use_row (r : PolicyRow) : PolicyRow :=
  {| pl_space := pl_space r; pl_record := pl_record r; pl_revoked := pl_revoked r;
     pl_uses := pl_uses r + 1 |}.
(** [UPDATE policies SET uses=uses+1 WHERE] the rows [ok] selects among [id]. *)
Definition use_policy (d : Db) (id : string) (ok : PolicyRow → bool) : Db * N :=
  match policies d !! id with
  | Some r => if ok r then (set_policies d (<[id := use_row r]> (policies d)), 1) else (d, 0)
  | None => (d, 0)
  end.

(** Sign the admission and make it the Space's authority. *)
Definition adopt (d : Db) (a : Authority) (config : SignedRecord) : result Error (Db * Authority) :=
  _ ← lift (apply_config a config).2;
  let a := (apply_config a config).1 in
  d ← save d a;
  mret (d, a).

Definition admitted_at (ev : WitnessAdmissionEvidence) (now : N) : WitnessAdmissionEvidence :=
  {| ae_policy := ae_policy ev; ae_challenge := ae_challenge ev;
     ae_device_intent := ae_device_intent ev; ae_invitation_intent := ae_invitation_intent ev;
     ae_contact := ae_contact ev; ae_approval := ae_approval ev; ae_admitted_at_ms := now |}.
Definition admitted_at_v2 (ev : WitnessAdmissionEvidenceV2) (now : N) : WitnessAdmissionEvidenceV2 :=
  {| a2_request := a2_request ev; a2_challenge := a2_challenge ev;
     a2_device_intent := a2_device_intent ev; a2_invitation_intent := a2_invitation_intent ev;
     a2_approval := a2_approval ev; a2_admitted_at_ms := now |}.

Definition do_admit (j : Journal) (d : Db) (c : Command) (a : Authority)
    (candidate : VerifiedCredential) (ev : WitnessAdmissionEvidence) (now : N)
    : result Error outcome :=
  intent_record ← jdecode (ae_device_intent ev);
  intent ← lift (decode (T := WitnessAdmissionIntent) intent_record);
  '(stored, _) ← policy d a (ai_policy_id intent) now;
  _ ← fail_if ((stored =/= ae_policy ev)
               || (ai_credential_id intent =/= cm_credential_id c)) Unauthorized;
  row ← find_challenge d c (ai_challenge_id intent) now;
  _ ← fail_if ((ch_record row =/= ae_challenge ev)
               || bool_decide (is_Some (ch_intent row))) Conflict;
  _ ← (if is_removed d c candidate then
         text ← ok_or (ae_approval ev) Unauthorized;
         signed ← jdecode text;
         approval ← lift (decode (T := WitnessApproval) signed);
         fail_if (negb (wa_readmission approval)) Unauthorized
       else Ok tt);
  let a := add_credential a candidate in
  config ← lift (prepare_witness_admission a (admitted_at ev now) (jkey j));
  '(d, a) ← adopt d a config;
  let '(d, _) := consume_challenge d (display (ai_challenge_id intent))
                   (display (record_id intent_record)) in
  let '(d, _) := use_policy d (display (ai_policy_id intent)) (λ _, true) in
  mret (Changed d a no_response "device.admitted" false).

Definition do_admit_v2 (j : Journal) (d : Db) (c : Command) (a : Authority)
    (candidate : VerifiedCredential) (ev : WitnessAdmissionEvidenceV2) (now : N)
    : result Error outcome :=
  intent_record ← jdecode (a2_device_intent ev);
  intent ← lift (decode (T := WitnessAdmissionIntentV2) intent_record);
  '(stored, _) ← policy d a (i2_policy_id intent) now;
  _ ← fail_if ((stored =/= jr_policy (a2_request ev))
               || (i2_credential_id intent =/= cm_credential_id c)) Unauthorized;
  request ← jdecode (jr_device_request (a2_request ev));
  let request_id := record_id request in
  let consumption := "v2:" +:+ display request_id in
  _ ← fail_if (negb (consumed_requests d (display (cm_space_id c)) consumption =? 0)) Conflict;
  row ← find_challenge d c (i2_challenge_id intent) now;
  _ ← fail_if ((ch_record row =/= a2_challenge ev)
               || bool_decide (is_Some (ch_intent row))) Conflict;
  challenge ← jdecode (ch_record row);
  body ← lift (decode (T := WitnessChallengeV2) challenge);
  _ ← fail_if ((c2_authority_head body =/= cm_authority_head c)
               || (c2_request_id body =/= request_id)) Unauthorized;
  _ ← (if is_removed d c candidate then
         text ← ok_or (a2_approval ev) Unauthorized;
         signed ← jdecode text;
         approval ← lift (decode (T := WitnessApprovalV2) signed);
         fail_if (negb (w2_readmission approval)) Unauthorized
       else Ok tt);
  let a := add_credential a candidate in
  config ← lift (prepare_witness_admission_v2 a (admitted_at_v2 ev now) (jkey j));
  '(d, a) ← adopt d a config;
  let '(d, n) := consume_challenge d (display (i2_challenge_id intent)) consumption in
  _ ← fail_if (negb (n =? 1)) Conflict;
  let '(d, n) := use_policy d (display (i2_policy_id intent))
    (λ r, (pl_space r === display (cm_space_id c)) && negb (pl_revoked r)) in
  _ ← fail_if (negb (n =? 1)) Conflict;
  mret (Changed d a no_response "device.admitted_v2" false).

(** [a.is_subset(&b)] on sets given as lists. *)
Definition is_subset {A} `{EqDecision A} (a b : list A) : bool := forallb (contains b) a.
Definition same_set {A} `{EqDecision A} (a b : list A) : bool := is_subset a b && is_subset b a.

Definition do_owner_update (j : Journal) (d : Db) (c : Command) (a : Authority)
    (proposal : string) (creds : list string) : result Error outcome :=
  _ ← fail_if (64 <? nlen creds) Limit;
  before ← members a;
  before_grants ← grants a;
  before_head ← lift (head_config a);
  a ← try_fold (λ a text, cred ← verify_credential text; mret (add_credential a cred)) a creds;
  proposal ← jdecode proposal;
  config ← lift (prepare_witness_owner_config a proposal (jkey j));
  _ ← lift (apply_config a config).2;
  let a := (apply_config a config).1 in
  after ← members a;
  after_grants ← grants a;
  after_head ← lift (head_config a);
  let before_owners := sc_owner_credential_ids before_head in
  let after_owners := sc_owner_credential_ids after_head in
  let reduction := is_subset after_grants before_grants
                   && is_subset after_owners before_owners
                   && (negb (same_set after_grants before_grants)
                       || negb (same_set after_owners before_owners)) in
  let removed := List.filter (λ m, negb (contains after m)) before in
  let d := foldl (λ d m, set_tombstones d
             (insert_or_ignore (display (cm_space_id c), m.1) m.2 (tombstones d))) d removed in
  d ← save d a;
  mret (Changed d a no_response "authority.updated" reduction).

Definition run_operation (j : Journal) (d : Db) (r : Request) (signed : SignedRecord)
    (c : Command) (a : Authority) (candidate : option VerifiedCredential) (ip : IpAddr)
    (now : N) (entropy : option string) : result Error outcome :=
  match cm_operation c with
  | Register => do_register d c a ip now
  | RegisterInvitation text => do_register_invitation j d signed c a text now
  | RevokeInvitation id => do_revoke_invitation j d signed c a id now
  | ChallengeOp id _ nonce => do_challenge j d r signed c a id nonce now entropy
  | ChallengeV2Op _ join nonce =>
      candidate ← ok_or candidate Invalid;
      do_challenge_v2 j d r signed c a candidate join nonce now entropy
  | Admit _ ev => candidate ← ok_or candidate Invalid; do_admit j d c a candidate ev now
  | AdmitV2 _ ev => candidate ← ok_or candidate Invalid; do_admit_v2 j d c a candidate ev now
  | OwnerUpdate proposal creds => do_owner_update j d c a proposal creds
  | ReadOp => Err Unavailable
  end.

(** The transaction: [None] is one that ends without a commit. *)
Definition transact (j : Journal) (r : Request) (signed : SignedRecord) (c : Command)
    (a : Authority) (candidate : option VerifiedCredential) (ip : IpAddr) (now : N)
    (entropy : option string) : result Error (option Db * Response) :=
  let d := prune (db j) (cm_space_id c) now in
  let nonce_key := (display (cm_credential_id c), cm_nonce c) in
  _ ← fail_if (bool_decide (is_Some (command_nonces d !! nonce_key))) Conflict;
  out ← run_operation j d r signed c a candidate ip now entropy;
  match out with
  | Acknowledged response => mret (None, response)
  | Changed d a response event reduction =>
      nonces ← insert_row nonce_key
        {| nr_request := display (record_id signed); nr_expires := cm_expires_at_ms c |}
        (command_nonces d);
      h ← ok_or (head a) Missing;
      '(d, response) ← append_with_budget (set_nonces d nonces) (jkey j) (pin j)
        {| et_request := record_id signed; et_space := cm_space_id c; et_head := h;
           et_name := event; et_now := now |} response reduction;
      mret (Some d, response)
  end.

(** [apply] after [guard]: the database to commit, if any, and the response. *)
Definition apply_inner (j : Journal) (r : Request) (ip : IpAddr) (now : N)
    (entropy : option string) : result Error (option Db * Response) :=
  signed ← jdecode (rq_command r);
  c ← lift (decode (T := Command) signed);
  _ ← command_ok j c now;
  _ ← work_ok r c;
  a ← command_authority j r c;
  candidate ← (match operation_candidate (cm_operation c) with
               | Some text => Some <$> verify_credential text
               | None => mret None
               end);
  signer ← command_signer a c candidate;
  _ ← lift (verify_signature signed (vc_key signer));
  _ ← permission_ok a c;
  match cm_operation c with
  | ReadOp =>
      proof ← lift (call_proof a);
      mret (None, {| rs_receipt := None; rs_proof := Some proof; rs_challenge := None |})
  | _ =>
      _ ← (if is_register (cm_operation c) && negb (registered (db j) (cm_space_id c)) then
             ticket ← ok_or (rq_registration_ticket r) Unauthorized;
             verify_registration_ticket ticket (registration_hosts j) (pin j) c
               (vc_identity signer) now
           else Ok tt);
      replayed ← replay (db j) (record_id signed);
      match replayed with
      | Some response =>
          _ ← (if is_admit (cm_operation c) then require_read a (cm_credential_id c) else Ok tt);
          mret (None, response)
      | None =>
          _ ← fail_if (is_managed (cm_operation c) && (head a =/= Some (cm_authority_head c)))
                Conflict;
          transact j r signed c a candidate ip now entropy
      end
  end.

(** [Engine::apply] on [&mut self]. *)
Definition apply (j : Journal) (r : Request) (ip : IpAddr) (now instant : N)
    (entropy : option string) : Journal * result Error Response :=
  let '(j, g) := guard j now instant in
  match g with
  | Err e => (j, Err e)
  | Ok _ =>
      match apply_inner j r ip now entropy with
      | Err e => (j, Err e)
      | Ok (None, response) => (j, Ok response)
      | Ok (Some d, response) => (set_db j d, Ok response)
      end
  end.

End Engine.
