(* ===== verification/Ledger.v ===== *)
(** * The ledger a witness keeps

    An abstract specification of the service's tables: the single-row changes a command
    may make, and what they preserve. The engine refines it (EngineFacts.v). *)

From S2P Require Import Prelude Platform Ids Record Chat Identity AuthorityData AuthorityWitness Authority AuthorityProof WitnessWire Journal Engine.

Section Ledger.
Context `{P : Platform} {S : AuthoritySerde} {W : WitnessSerde} {X : ProtocolSerde}.

(** The use limit an owner signed into a stored policy. *)
Definition policy_limit (row : PolicyRow) : option N :=
  r ← to_option (jdecode (pl_record row));
  body ← to_option (decode (T := WitnessInvitationPolicy) r);
  Some (ip_max_uses body).

(** The change a registration makes to the daily counters. *)
Definition count_registration (m : gmap (string * N) N) (network : string) (day : N)
    : gmap (string * N) N :=
  filter (λ kr, day ≤ kr.1.2) (<[(network, day) := default 0 (m !! (network, day)) + 1]> m).

(** One change of one row, on behalf of Space [s]. *)
Inductive ledger_step (s : string) : Db → Db → Prop :=
| step_space d row :
    is_Some (spaces d !! s) ∨ N.of_nat (size (spaces d)) < MAX_SPACES →
    ledger_step s d (set_spaces d (<[s := row]> (spaces d)))
| step_limit d network day :
    default 0 (registration_limits d !! (network, day)) < 4 → day_total d day < 32 →
    ledger_step s d (set_limits d (count_registration (registration_limits d) network day))
| step_policy d id row :
    policies d !! id = None → pl_space row = s → pl_revoked row = false → pl_uses row = 0 →
    is_Some (policy_limit row) →
    ledger_step s d (set_policies d (<[id := row]> (policies d)))
| step_revoke d id row :
    policies d !! id = Some row → pl_space row = s →
    ledger_step s d (set_policies d (<[id := revoke_row row]> (policies d)))
| step_use d id row n :
    policies d !! id = Some row → pl_space row = s → pl_revoked row = false →
    policy_limit row = Some n → pl_uses row < n →
    ledger_step s d (set_policies d (<[id := use_row row]> (policies d)))
| step_challenge d id row :
    challenges d !! id = None → ch_space row = s → ch_intent row = None →
    ledger_step s d (set_challenges d (<[id := row]> (challenges d)))
| step_consume d id row intent :
    challenges d !! id = Some row → ch_space row = s → ch_intent row = None →
    ledger_step s d (set_challenges d (<[id := consume_row intent row]> (challenges d)))
| step_tombstone d cred identity :
    tombstones d !! (s, cred) = None →
    ledger_step s d (set_tombstones d (<[(s, cred) := identity]> (tombstones d)))
| step_abandon d keep :
    (∀ id row, challenges d !! id = Some row → ¬ keep (id, row) = true →
       ch_space row = s ∧ ch_intent row = None) →
    ledger_step s d (set_challenges d (filter (λ kr, keep kr = true) (challenges d)))
| step_nonces d m : ledger_step s d (set_nonces d m).

Definition ledger_run (s : string) : Db → Db → Prop := rtc (ledger_step s).

(** ** Isolation: other Spaces' rows do not change *)

Definition same_space (d d' : Db) (k : string) : Prop :=
  spaces d' !! k = spaces d !! k ∧ policies_of d' k = policies_of d k
  ∧ challenges_of d' k = challenges_of d k ∧ tombstones_of d' k = tombstones_of d k.

#[export] Instance same_space_refl k : Reflexive (λ d d', same_space d d' k).
Proof. by intros d. Qed.
#[export] Instance same_space_trans k : Transitive (λ d d', same_space d d' k).
Proof. intros d1 d2 d3 (?&?&?&?) (?&?&?&?). repeat split; congruence. Qed.

Lemma filter_insert_out {A} (Q : string * A → Prop) `{!∀ x, Decision (Q x)} (m : gmap string A) i x :
  ¬ Q (i, x) → (∀ y, m !! i = Some y → ¬ Q (i, y)) → filter Q (<[i := x]> m) = filter Q m.
Proof.
  intros Hx Hy. apply map_eq. intros j. apply option_eq. intros z.
  rewrite !map_lookup_filter_Some. destruct (decide (i = j)) as [->|Hne].
  - rewrite lookup_insert_eq. split; [by intros [[= ->] ?]|]. intros [Hm Hq].
    by destruct (Hy z Hm).
  - by rewrite lookup_insert_ne.
Qed.

Lemma ledger_step_isolated s d d' k : ledger_step s d d' → k ≠ s → same_space d d' k.
Proof.
  intros Hstep Hk. destruct Hstep; try (by repeat split); repeat split; try done; cbn.
  - by rewrite lookup_insert_ne.
  - unfold policies_of. cbn. f_equal. apply filter_insert_out; cbn; congruence.
  - unfold policies_of. cbn. f_equal. apply filter_insert_out; cbn; [congruence|].
    intros y Hy. simplify_eq. done.
  - unfold policies_of. cbn. f_equal. apply filter_insert_out; cbn; [congruence|].
    intros y Hy. simplify_eq. done.
  - unfold challenges_of. cbn. f_equal. apply filter_insert_out; cbn; congruence.
  - unfold challenges_of. cbn. f_equal. apply filter_insert_out; cbn; [congruence|].
    intros y Hy. simplify_eq. done.
  - unfold tombstones_of. cbn. do 3 f_equal. apply map_eq. intros j. apply option_eq. intros z.
    rewrite !map_lookup_filter_Some. destruct (decide ((s, cred) = j)) as [<-|Hne].
    + rewrite lookup_insert_eq. cbn. split; intros [? ?]; congruence.
    + by rewrite lookup_insert_ne.
  - unfold challenges_of. cbn. f_equal. apply map_eq. intros j. apply option_eq. intros z.
    rewrite !map_lookup_filter_Some. cbn. split; [by intros [[? ?] ?]|]. intros [Hz Hs].
    split; [|done]. split; [done|]. destruct (keep (j, z)) eqn:Hkeep; [done|].
    destruct (H j z Hz) as [? _]; [by rewrite Hkeep|congruence].
Qed.

Lemma ledger_run_isolated s d d' k : ledger_run s d d' → k ≠ s → same_space d d' k.
Proof.
  intros Hrun Hk. induction Hrun as [d|d1 d2 d3 Hstep _ IH]; [by repeat split|].
  eapply (same_space_trans k _ d2); [by eapply ledger_step_isolated|exact IH].
Qed.

(** ** What never goes back *)

(** A policy row keeps its Space and text, is never revived and never forgets a use. *)
Definition policy_le (r r' : PolicyRow) : Prop :=
  pl_space r' = pl_space r ∧ pl_record r' = pl_record r ∧ pl_uses r ≤ pl_uses r'
  ∧ (pl_revoked r = true → pl_revoked r' = true)
  ∧ (pl_revoked r = true → pl_uses r' = pl_uses r).

#[export] Instance policy_le_preorder : PreOrder policy_le.
Proof.
  split; [by repeat split|]. intros r1 r2 r3 (?&?&?&Hr&Hu) (?&?&?&Hr'&Hu').
  repeat split; try congruence; [lia|by intros ?%Hr%Hr'|].
  intros Hrev. rewrite Hu'; auto.
Qed.

Record ledger_le (d d' : Db) : Prop := {
  le_policies : ∀ id r, policies d !! id = Some r →
    ∃ r', policies d' !! id = Some r' ∧ policy_le r r';
  le_consumed : ∀ id r i, challenges d !! id = Some r → ch_intent r = Some i →
    challenges d' !! id = Some r;
  le_tombstones : tombstones d ⊆ tombstones d';
  le_events : events d' = events d;
}.

#[export] Instance ledger_le_preorder : PreOrder ledger_le.
Proof.
  split.
  - intros d. split; [|done|done|done]. intros id r Hr. by exists r.
  - intros d1 d2 d3 [P1 C1 T1 E1] [P2 C2 T2 E2]. split.
    + intros id r (r' & Hr' & ?)%P1. destruct (P2 id r' Hr') as (r'' & ? & ?).
      exists r''. split; [done|]. by trans r'.
    + intros id r i Hr Hi. by eapply C2; [by eapply C1|].
    + by trans (tombstones d2).
    + congruence.
Qed.

Lemma ledger_step_le s d d' : ledger_step s d d' → ledger_le d d'.
Proof.
  intros Hstep. assert (∀ m : Db, policies m = policies d → ∀ id r, policies d !! id = Some r →
    ∃ r', policies m !! id = Some r' ∧ policy_le r r') as Hsame.
  { intros m Hm id r Hr. exists r. by rewrite Hm. }
  destruct Hstep; split; try done; try (by apply Hsame); cbn.
  - intros id' r Hr. exists r. rewrite lookup_insert_ne; [done|congruence].
  - intros id' r Hr. destruct (decide (id = id')) as [<-|Hne].
    + rewrite lookup_insert_eq. simplify_eq. eexists; split; [done|].
      repeat split; cbn; try done; lia.
    + rewrite lookup_insert_ne by done. by exists r.
  - intros id' r Hr. destruct (decide (id = id')) as [<-|Hne].
    + rewrite lookup_insert_eq. simplify_eq. eexists; split; [done|].
      repeat split; cbn; try congruence; lia.
    + rewrite lookup_insert_ne by done. by exists r.
  - intros id' r i Hr Hi. rewrite lookup_insert_ne; [done|congruence].
  - intros id' r i Hr Hi. rewrite lookup_insert_ne; [done|]. intros ->. congruence.
  - by apply insert_subseteq.
  - intros id' r i Hr Hi. apply map_lookup_filter_Some. split; [done|].
    destruct (keep (id', r)) eqn:Hk; [done|].
    destruct (H id' r Hr) as [_ ?]; [by rewrite Hk|congruence].
Qed.

Lemma ledger_run_le s d d' : ledger_run s d d' → ledger_le d d'.
Proof.
  induction 1 as [d|d1 d2 d3 Hstep _ IH]; [done|].
  trans d2; [by eapply ledger_step_le|done].
Qed.

(** ** What stays bounded *)

Lemma sum_of_perm l l' : l ≡ₚ l' → sum_of l = sum_of l'.
Proof. unfold sum_of. induction 1; cbn [foldr] in *; lia. Qed.

Definition total {K} `{Countable K} (m : gmap K N) : N := sum_of ((λ kr, kr.2) <$> map_to_list m).

Lemma total_insert {K} `{Countable K} (m : gmap K N) k x :
  total (<[k := x]> m) + default 0 (m !! k) = x + total m.
Proof.
  assert (∀ (m : gmap K N) k x, m !! k = None → total (<[k := x]> m) = x + total m) as Hnew.
  { intros m' k' x' Hk. unfold total.
    by rewrite (sum_of_perm _ _ (fmap_Permutation _ _ _ (map_to_list_insert _ _ _ Hk))). }
  destruct (m !! k) as [y|] eqn:Hk; cbn [default from_option id].
  - rewrite <-insert_delete_eq, <-(insert_delete_id m k y Hk) at 1.
    rewrite <-(insert_delete_id m k y Hk) at 2.
    rewrite delete_insert_eq, delete_delete_eq, !Hnew by apply lookup_delete_eq. lia.
  - rewrite Hnew by done. lia.
Qed.

(** Registrations per network and day, and per day. *)
Definition limits_within (d : Db) : Prop :=
  (∀ k n, registration_limits d !! k = Some n → n ≤ 4) ∧ (∀ day, day_total d day ≤ 32).

(** No policy is used more often than its owner signed. *)
Definition policies_within (d : Db) : Prop :=
  ∀ id row, policies d !! id = Some row → ∃ n, policy_limit row = Some n ∧ pl_uses row ≤ n.

Lemma count_registration_within d network day :
  limits_within d → default 0 (registration_limits d !! (network, day)) < 4 →
  day_total d day < 32 →
  limits_within (set_limits d (count_registration (registration_limits d) network day)).
Proof.
  intros [Hk Hd] Hc Ht. unfold count_registration. split; cbn [registration_limits set_limits].
  - intros k n [Hn _]%map_lookup_filter_Some. destruct (decide ((network, day) = k)) as [<-|].
    + rewrite lookup_insert_eq in Hn. injection Hn as <-. lia.
    + rewrite lookup_insert_ne in Hn by done. eauto.
  - intros day'. specialize (Hd day'). unfold day_total in *. cbn [registration_limits set_limits].
    set (m := registration_limits d) in *. destruct (decide (day' < day)).
    + assert (filter (λ kr, kr.1.2 = day') (filter (λ kr, day ≤ kr.1.2)
        (<[(network, day):=default 0 (m !! (network, day)) + 1]> m)) = ∅) as ->; [|done].
      apply map_empty. intros i. apply map_lookup_filter_None. right. intros x
        [_ ?]%map_lookup_filter_Some ?. cbn in *. lia.
    + assert (filter (λ kr, kr.1.2 = day') (filter (λ kr, day ≤ kr.1.2)
        (<[(network, day):=default 0 (m !! (network, day)) + 1]> m))
        = filter (λ kr, kr.1.2 = day') (<[(network, day):=default 0 (m !! (network, day)) + 1]> m))
        as ->.
      { apply map_eq. intros i. apply option_eq. intros x. rewrite !map_lookup_filter_Some. cbn.
        intuition lia. }
      destruct (decide (day' = day)) as [->|].
      * rewrite map_filter_insert_True by done.
        pose proof (total_insert (filter (λ kr, kr.1.2 = day) m) (network, day)
                      (default 0 (m !! (network, day)) + 1)) as Htot.
        assert (filter (λ kr : string * N * N, kr.1.2 = day) m !! (network, day)
                = m !! (network, day)) as E.
        { apply option_eq. intros x. rewrite map_lookup_filter_Some. cbn. intuition. }
        rewrite E in Htot. unfold total in Htot. lia.
      * rewrite map_filter_insert_False by (cbn; congruence).
        assert (filter (λ kr : string * N * N, kr.1.2 = day') (delete (network, day) m)
                = filter (λ kr, kr.1.2 = day') m) as ->; [|done].
        apply map_eq. intros i. apply option_eq. intros x. rewrite !map_lookup_filter_Some. cbn.
        destruct (decide ((network, day) = i)) as [<-|].
        -- rewrite lookup_delete_eq. cbn. split; intros [? ?]; congruence.
        -- by rewrite lookup_delete_ne.
Qed.

Lemma ledger_step_limits s d d' : ledger_step s d d' → limits_within d → limits_within d'.
Proof. destruct 1; try done. intros Hd. by apply count_registration_within. Qed.

Lemma ledger_step_policies s d d' : ledger_step s d d' → policies_within d → policies_within d'.
Proof.
  intros Hstep Hd. destruct Hstep; try done; intros id' row' Hr; cbn in Hr;
    (destruct (decide (id = id')) as [<-|]; [|rewrite lookup_insert_ne in Hr by done; eauto]);
    rewrite lookup_insert_eq in Hr; injection Hr as <-.
  - match goal with H : is_Some (policy_limit _) |- _ => destruct H as [n Hn] end.
    exists n. split; [done|]. lia.
  - destruct (Hd id row) as (n & Hn & ?); [done|]. by exists n.
  - exists n. split; [done|]. cbn. lia.
Qed.

Lemma ledger_run_within s d d' :
  ledger_run s d d' → limits_within d → policies_within d → limits_within d' ∧ policies_within d'.
Proof.
  induction 1 as [|d1 d2 d3 Hstep _ IH]; [done|]. intros.
  apply IH; [by eapply ledger_step_limits|by eapply ledger_step_policies].
Qed.

(** At most 128 Spaces. *)
Lemma ledger_run_size s d d' :
  ledger_run s d d' → N.of_nat (size (spaces d)) ≤ MAX_SPACES →
  N.of_nat (size (spaces d')) ≤ MAX_SPACES.
Proof.
  induction 1 as [|d1 d2 d3 Hstep _ IH]; [done|]. intros Hd. apply IH.
  destruct Hstep as [d row [Hs|Hs]| | | | | | | | |]; try done; cbn.
  - rewrite map_size_insert. by destruct Hs as [? ->].
  - rewrite map_size_insert. destruct (spaces d !! s); unfold id; lia.
Qed.

End Ledger.
