(* ===== verification/EngineFacts.v ===== *)
(** * The witness engine refines the ledger

    Every command the engine executes is a sequence of ledger changes of the one Space it
    names, which carries the ledger's guarantees (Ledger.v) over to the service. *)

From S2P Require Import Prelude Platform Ids Record Chat Identity AuthorityData AuthorityWitness Authority AuthorityProof AuthorityInv ProofFacts WitnessWire Journal Engine Ledger.

Section EngineFacts.
Context `{P : Platform} {S : AuthoritySerde} {W : WitnessSerde} {X : ProtocolSerde}.

Lemma lift_Ok {A} (r : result RecordError A) a : lift r = Ok a ↔ r = Ok a.
Proof. apply map_err_Ok. Qed.

(** ** The authority a command runs against *)

Lemma apply_config_space a r : space (apply_config a r).1 = space a.
Proof. unfold space. by destruct (apply_config_frame a r) as [-> _]. Qed.

Lemma add_credential_space a c : space (add_credential a c) = space a.
Proof. done. Qed.

Lemma verify_witnessed_space {L : PlatformLaws P} p sp st wp a :
  verify_witnessed p sp st wp = Ok a → space a = sp.
Proof.
  unfold verify_witnessed. intros (u & _ & H)%bind_Ok.
  by apply verify_with_witness_sound in H as [-> _].
Qed.

Lemma load_space {L : PlatformLaws P} d sp st p a :
  load d sp st p = Ok a → space a = sp ∧ is_Some (spaces d !! display sp).
Proof.
  unfold load. intros H. inv_ok. split; [|eauto].
  repeat match goal with H : lift _ = Ok _ |- _ => apply lift_Ok in H end.
  by eapply verify_witnessed_space.
Qed.

(** The command's Space is the authority's, and unless it registers it is stored. *)
Definition runs_in (d : Db) (c : Command) (a : Authority) : Prop :=
  space a = cm_space_id c
  ∧ (cm_operation c ≠ Register → is_Some (spaces d !! display (cm_space_id c))).

Lemma command_authority_runs {L : PlatformLaws P} j r c a :
  command_authority j r c = Ok a → runs_in (db j) c a.
Proof.
  unfold command_authority, runs_in. destruct (cm_operation c) eqn:Hop; cbn [is_register];
    intros H; try (apply bind_Ok in H as (u & _ & H); apply load_space in H as [? ?]; by split).
  step H proof Hp. step H a0 Ha. step H h Hh. step H u Hu.
  apply lift_Ok, verify_witnessed_space in Ha. split; [|done].
  destruct (registered _ _); [by apply load_space in H as [? _]|]. by inv_ok.
Qed.

(** ** Each operation is a run of the ledger *)

Lemma run_one s d d' : ledger_step s d d' → ledger_run s d d'.
Proof. apply rtc_once. Qed.

(** [step_abandon] for a decidable predicate. *)
Lemma abandon_run s d (Q : string * ChallengeRow → Prop) `{!∀ x, Decision (Q x)} :
  (∀ id row, challenges d !! id = Some row → ¬ Q (id, row) →
     ch_space row = s ∧ ch_intent row = None) →
  ledger_run s d (set_challenges d (filter Q (challenges d))).
Proof.
  intros HQ.
  assert (filter Q (challenges d) = filter (λ kr, bool_decide (Q kr) = true) (challenges d)) as ->.
  { apply map_filter_ext. intros i x _. by rewrite bool_decide_eq_true. }
  apply run_one, step_abandon. intros id row Hid. rewrite bool_decide_eq_true. by apply HQ.
Qed.

Lemma prune_run d sp now : ledger_run (display sp) d (prune d sp now).
Proof.
  unfold prune. eapply rtc_l; [apply step_nonces|]. apply abandon_run.
  intros id row _ Hk. cbn in Hk.
  destruct (decide (ch_space row = display sp ∧ ch_expires row < saturating_sub now 600000
                    ∧ ch_intent row = None)) as [(?&_&?)|]; [done|tauto].
Qed.

Lemma save_run d a d' s :
  save d a = Ok d' → s = display (space a) →
  is_Some (spaces d !! s) ∨ N.of_nat (size (spaces d)) < MAX_SPACES →
  ledger_run s d d'.
Proof.
  unfold save. intros H -> Hs. inv_ok. by apply run_one, step_space.
Qed.

Lemma save_keeps d a d' :
  save d a = Ok d' → policies d' = policies d ∧ challenges d' = challenges d
  ∧ tombstones d' = tombstones d ∧ registration_limits d' = registration_limits d.
Proof. unfold save. intros H. by inv_ok. Qed.

Lemma reserve_space_room d u :
  reserve_space d = Ok u → N.of_nat (size (spaces d)) < MAX_SPACES.
Proof.
  unfold reserve_space. intros (x & Hx%fail_if_Ok & _)%bind_Ok.
  apply N.leb_gt in Hx. unfold nlen in Hx. by rewrite length_fmap, length_map_to_list in Hx.
Qed.

(** The policy a challenge or an admission spends. *)
Lemma policy_open d a id now text body :
  policy d a id now = Ok (text, body) →
  ∃ row, policies d !! display id = Some row ∧ pl_space row = display (space a)
    ∧ pl_record row = text ∧ pl_revoked row = false
    ∧ policy_limit row = Some (ip_max_uses body) ∧ pl_uses row < ip_max_uses body.
Proof.
  unfold policy. intros H. step H row Hrow. step H u Hu. step H record Hr. step H b Hb.
  step H u' Hu'. inv_ok. simplify_eq. exists row. split; [done|].
  match goal with H : pl_space _ = _ |- _ => rename H into Hsp end.
  split; [done|]. split; [done|]. split; [done|].
  match goal with H : (_ <=? _) = false |- _ => apply N.leb_gt in H end.
  split; [|done]. unfold policy_limit. rewrite Hr. cbn.
  apply lift_Ok in Hb. unfold verify_witness_invitation in Hb.
  step Hb pn Hpn. step Hb pol Hpol. rewrite Hpol. cbn.
  assert (pol = body) as -> by (by inv_ok). done.
Qed.

Lemma register_run d c a ip now d' a' resp ev red :
  space a = cm_space_id c →
  do_register d c a ip now = Ok (Changed d' a' resp ev red) →
  ledger_run (display (cm_space_id c)) d d' ∧ a' = a
  ∧ is_Some (spaces d' !! display (cm_space_id c)).
Proof.
  intros Hsp H. unfold do_register in H. step H u1 H1. step H u2 H2. step H u3 H3.
  step H d1 Hsave. apply Ok_inj in H. simplify_eq.
  apply fail_if_Ok, orb_false_iff in H3 as [Hc%N.leb_gt Hd%N.leb_gt].
  apply reserve_space_room in H2. split; [|split; [done|]].
  - eapply rtc_l; [by apply step_limit|].
    eapply save_run; [exact Hsave|by rewrite Hsp|by right].
  - unfold save in Hsave. inv_ok. cbn. rewrite Hsp, lookup_insert_eq. eauto.
Qed.

Lemma register_invitation_run j d signed c a text now d' a' resp ev red :
  do_register_invitation j d signed c a text now = Ok (Changed d' a' resp ev red) →
  ledger_run (display (cm_space_id c)) d d' ∧ a' = a.
Proof.
  intros H. unfold do_register_invitation in H. step H record Hr. step H body Hb. step H u1 H1.
  destruct (policies d !! display (record_id record)) as [row|] eqn:Hrow.
  - case_decide as Heq.
    + step H u2 H2. by apply fmap_Ok in H as (x & _ & ?).
    + step H u2 H2. apply Ok_inj in H. simplify_eq. by split.
  - step H u2 H2. apply Ok_inj in H. simplify_eq. split; [|done].
    unfold insert_or_ignore. rewrite Hrow. apply run_one, step_policy; [done..|].
    unfold policy_limit. cbn. rewrite Hr. cbn.
    apply lift_Ok in Hb. unfold verify_witness_invitation in Hb.
    step Hb pn Hpn. step Hb pol Hpol. rewrite Hpol. by eexists.
Qed.

Lemma revoke_invitation_run j d signed c a id now d' a' resp ev red :
  do_revoke_invitation j d signed c a id now = Ok (Changed d' a' resp ev red) →
  ledger_run (display (cm_space_id c)) d d' ∧ a' = a.
Proof.
  intros H. unfold do_revoke_invitation in H. step H row Hrow. step H u1 H1.
  apply ok_or_Ok in Hrow. apply fail_if_Ok in H1.
  destruct (pl_revoked row); [by apply fmap_Ok in H as (x & _ & ?)|].
  apply Ok_inj in H. simplify_eq. split; [|done]. apply run_one, step_revoke; [done|by inv_ok].
Qed.

(** Both kinds of challenge insert one unconsumed row of the Space. *)
Lemma challenge_row_run {d id row rows s} :
  insert_row id row (challenges d) = Ok rows → ch_space row = s → ch_intent row = None →
  ledger_run s d (set_challenges d rows).
Proof.
  unfold insert_row. destruct (challenges d !! id) eqn:Hid; [done|].
  intros [= <-] ? ?. by apply run_one, step_challenge.
Qed.

Lemma challenge_run j d r signed c a id n now ent d' a' resp ev red :
  do_challenge j d r signed c a id n now ent = Ok (Changed d' a' resp ev red) →
  ledger_run (display (cm_space_id c)) d d' ∧ a' = a.
Proof.
  intros H. unfold do_challenge in H. step H u1 H1. step H pb Hpb. destruct pb as [text body].
  step H u2 H2. step H u3 H3. step H nonce Hn. step H record Hr. step H rows Hrows.
  apply Ok_inj in H. simplify_eq. split; [|done]. by eapply challenge_row_run.
Qed.

Lemma challenge_v2_run j d r signed c a cand join n now ent d' a' resp ev red :
  do_challenge_v2 j d r signed c a cand join n now ent = Ok (Changed d' a' resp ev red) →
  ledger_run (display (cm_space_id c)) d d' ∧ a' = a.
Proof.
  intros H. unfold do_challenge_v2 in H. step H u1 H1. step H body Hb. step H pb Hpb.
  destruct pb as [text pbody]. step H u2 H2. step H u3 H3. step H request Hq. step H u4 H4.
  step H u5 H5. step H nonce Hn. step H h Hh. step H record Hr. step H rows Hrows.
  apply Ok_inj in H. simplify_eq. split; [|done]. by eapply challenge_row_run.
Qed.

(** ** Admissions *)

Lemma find_challenge_Some d c id now row :
  find_challenge d c id now = Ok row →
  challenges d !! display id = Some row ∧ ch_space row = display (cm_space_id c).
Proof. unfold find_challenge. intros H. by inv_ok. Qed.

Lemma adopt_run d a config d' a' s :
  adopt d a config = Ok (d', a') → s = display (space a) → is_Some (spaces d !! s) →
  ledger_run s d d' ∧ space a' = space a ∧ policies d' = policies d
  ∧ challenges d' = challenges d.
Proof.
  unfold adopt. intros H Hs Hrow. step H u1 H1. step H d1 Hsave. apply Ok_inj in H.
  simplify_eq. pose proof (save_keeps _ _ _ Hsave) as (? & ? & _).
  split; [|by rewrite apply_config_space].
  eapply save_run; [exact Hsave|by rewrite apply_config_space|by left].
Qed.

(** The two updates that end an admission: the challenge row consumed and a policy use
    counted. *)
Lemma spend_run d s cid intent crow pid ok prow n :
  challenges d !! cid = Some crow → ch_space crow = s → ch_intent crow = None →
  policies d !! pid = Some prow → pl_space prow = s → pl_revoked prow = false →
  policy_limit prow = Some n → pl_uses prow < n → ok prow = true →
  let d1 := (consume_challenge d cid intent).1 in
  (consume_challenge d cid intent).2 = 1 ∧ (use_policy d1 pid ok).2 = 1
  ∧ ledger_run s d (use_policy d1 pid ok).1.
Proof.
  intros Hc Hcs Hci Hp Hps Hpr Hpl Hpu Hok d1. subst d1.
  unfold consume_challenge. rewrite Hc, bool_decide_eq_true_2 by done. cbn [fst snd].
  unfold use_policy. cbn [policies set_challenges]. rewrite Hp, Hok. cbn [fst snd].
  split; [done|]. split; [done|].
  eapply rtc_l; [by eapply step_consume|]. eapply run_one.
  by eapply (step_use _ (set_challenges d _)).
Qed.

Lemma use_policy_any d pid ok :
  policies d !! pid = None ∨ (∃ r, policies d !! pid = Some r ∧ ok r = false) →
  use_policy d pid ok = (d, 0).
Proof. unfold use_policy. intros [->|(r & -> & ->)]; done. Qed.

Lemma admit_run j d c a cand ev now d' a' resp e red :
  runs_in d c a → cm_operation c ≠ Register →
  do_admit j d c a cand ev now = Ok (Changed d' a' resp e red) →
  ledger_run (display (cm_space_id c)) d d' ∧ space a' = space a.
Proof.
  intros [Hsp Hrow] Hop H. specialize (Hrow Hop). unfold do_admit in H.
  step H ir Hir. step H intent Hi. step H pb Hpb. destruct pb as [text body]. step H u1 H1.
  step H row Hch. step H u2 H2. step H u3 H3. step H cfg Hcfg. step H da Had.
  destruct da as [d1 a1].
  apply policy_open in Hpb as (prow & Hp & Hps & _ & Hrev & Hlim & Huse).
  apply find_challenge_Some in Hch as [Hc Hcs].
  apply fail_if_Ok, orb_false_iff in H2 as [_ H2%bool_decide_eq_false].
  rewrite <-eq_None_not_Some in H2.
  apply adopt_run with (s := display (cm_space_id c)) in Had as (Hrun & Hsa & E1 & E2);
    [|by rewrite add_credential_space, Hsp|done].
  rewrite add_credential_space in Hsa. rewrite <-E1 in Hp. rewrite <-E2 in Hc.
  rewrite Hsp in Hps.
  destruct (spend_run d1 _ _ (display (record_id ir)) _ _ (λ _, true) _ _ Hc Hcs H2 Hp Hps Hrev
              Hlim Huse eq_refl) as (_ & _ & Hspend).
  destruct (consume_challenge d1 _ _) as [d2 k2]. cbn [fst snd] in *.
  destruct (use_policy d2 _ _) as [d3 k3]. cbn [fst snd] in *.
  apply Ok_inj in H. simplify_eq. split; [by etrans|done].
Qed.

Lemma admit_v2_run j d c a cand ev now d' a' resp e red :
  runs_in d c a → cm_operation c ≠ Register →
  do_admit_v2 j d c a cand ev now = Ok (Changed d' a' resp e red) →
  ledger_run (display (cm_space_id c)) d d' ∧ space a' = space a.
Proof.
  intros [Hsp Hrow] Hop H. specialize (Hrow Hop). unfold do_admit_v2 in H.
  step H ir Hir. step H intent Hi. step H pb Hpb. destruct pb as [text body]. step H u1 H1.
  step H request Hq. step H u4 H4. step H row Hch. step H u2 H2. step H chal Hchal.
  step H cb Hcb. step H u5 H5. step H u3 H3. step H cfg Hcfg. step H da Had.
  destruct da as [d1 a1].
  apply policy_open in Hpb as (prow & Hp & Hps & _ & Hrev & Hlim & Huse).
  apply find_challenge_Some in Hch as [Hc Hcs].
  apply fail_if_Ok, orb_false_iff in H2 as [_ H2%bool_decide_eq_false].
  rewrite <-eq_None_not_Some in H2.
  apply adopt_run with (s := display (cm_space_id c)) in Had as (Hrun & Hsa & E1 & E2);
    [|by rewrite add_credential_space, Hsp|done].
  rewrite add_credential_space in Hsa. rewrite <-E1 in Hp. rewrite <-E2 in Hc.
  rewrite Hsp in Hps.
  destruct (spend_run d1 _ _ ("v2:" +:+ display (record_id request)) _ _
              (λ r, (pl_space r === display (cm_space_id c)) && negb (pl_revoked r))
              _ _ Hc Hcs H2 Hp Hps Hrev Hlim Huse) as (_ & _ & Hspend).
  { rewrite Hps, Hrev. by rewrite bool_decide_eq_true_2. }
  destruct (consume_challenge d1 _ _) as [d2 k2]. cbn [fst snd] in *.
  step H u6 H6. destruct (use_policy d2 _ _) as [d3 k3]. cbn [fst snd] in *. step H u7 H7.
  apply Ok_inj in H. simplify_eq. split; [by etrans|done].
Qed.

(** ** Owner updates *)

Lemma add_credentials_space creds a a' :
  try_fold (λ a text, cred ← verify_credential text; mret (add_credential a cred)) a creds = Ok a' →
  space a' = space a.
Proof.
  intros H. refine (try_fold_inv (λ a', space a' = space a) _ _ _ _ _ _ H); [|done].
  intros s x s' _ Hs Hx. by inv_ok.
Qed.

Lemma tombstones_run s l d :
  ledger_run s d (foldl (λ d m, set_tombstones d
    (insert_or_ignore (s, m.1) m.2 (tombstones d))) d l)
  ∧ spaces (foldl (λ d m, set_tombstones d
    (insert_or_ignore (s, m.1) m.2 (tombstones d))) d l) = spaces d.
Proof.
  revert d. induction l as [|[cred id] l IH]; intros d; cbn [foldl]; [done|].
  destruct (IH (set_tombstones d (insert_or_ignore (s, cred) id (tombstones d)))) as [IH1 IH2].
  cbn [fst snd]. split; [|by rewrite IH2]. etrans; [|exact IH1].
  unfold insert_or_ignore. destruct (tombstones d !! (s, cred)) eqn:Hk.
  - assert (set_tombstones d (tombstones d) = d) as -> by (by destruct d). done.
  - by apply run_one, step_tombstone.
Qed.

Lemma owner_update_run j d c a proposal creds d' a' resp e red :
  runs_in d c a → cm_operation c ≠ Register →
  do_owner_update j d c a proposal creds = Ok (Changed d' a' resp e red) →
  ledger_run (display (cm_space_id c)) d d' ∧ space a' = space a.
Proof.
  intros [Hsp Hrow] Hop H. specialize (Hrow Hop). unfold do_owner_update in H.
  step H u1 H1. step H before Hb. step H bg Hbg. step H bh Hbh. step H a1 Ha1.
  apply add_credentials_space in Ha1.
  step H pr Hpr. step H cfg Hcfg. step H adm Hadm. step H after Haf. step H ag Hag.
  step H ah Hah. step H d1 Hsave. apply Ok_inj in H. simplify_eq.
  pose proof (tombstones_run (display (cm_space_id c))
                (List.filter (λ m, negb (contains after m)) before) d) as [Hrun Hspaces].
  split; [|by rewrite apply_config_space].
  etrans; [exact Hrun|]. eapply save_run; [exact Hsave| |].
  - by rewrite apply_config_space, Ha1, Hsp.
  - left. by rewrite Hspaces.
Qed.

Lemma ledger_run_spaces s d d' k :
  ledger_run s d d' → is_Some (spaces d !! k) → is_Some (spaces d' !! k).
Proof.
  induction 1 as [|d1 d2 d3 Hstep _ IH]; [done|]. intros Hk. apply IH.
  destruct Hstep; cbn; try done. destruct (decide (s = k)) as [->|].
  - rewrite lookup_insert_eq. eauto.
  - by rewrite lookup_insert_ne.
Qed.

Lemma run_operation_run j d r signed c a cand ip now ent d' a' resp e red :
  runs_in d c a →
  run_operation j d r signed c a cand ip now ent = Ok (Changed d' a' resp e red) →
  ledger_run (display (cm_space_id c)) d d' ∧ space a' = space a
  ∧ is_Some (spaces d' !! display (cm_space_id c)).
Proof.
  intros Hin H. unfold run_operation in H.
  enough ((ledger_run (display (cm_space_id c)) d d' ∧ space a' = space a)
          ∧ (cm_operation c = Register → is_Some (spaces d' !! display (cm_space_id c))))
    as [[Hrun Hsp] Hreg].
  { split; [done|]. split; [done|]. destruct (decide (is_register (cm_operation c) = true)) as [Hr|Hr].
    - apply Hreg. by destruct (cm_operation c).
    - eapply ledger_run_spaces; [exact Hrun|]. apply Hin. intros Hop. by rewrite Hop in Hr. }
  destruct (cm_operation c) eqn:Hop; (split; [|try done]).
  1,2: apply register_run in H as (? & -> & ?); [done|apply Hin].
  - by apply register_invitation_run in H as [? ->].
  - by apply revoke_invitation_run in H as [? ->].
  - by apply challenge_run in H as [? ->].
  - step H cd Hcd. apply admit_run in H; [done|done|congruence].
  - step H cd Hcd. by apply challenge_v2_run in H as [? ->].
  - step H cd Hcd. apply admit_v2_run in H; [done|done|congruence].
  - apply owner_update_run in H; [done|done|congruence].
  - done.
Qed.

(** ** The transaction *)

(** A signed command that passed every check before the transaction. *)
Record command_admitted (j : Journal) (r : Request) (now : N) (signed : SignedRecord)
    (c : Command) (a : Authority) (candidate : option VerifiedCredential)
    (signer : VerifiedCredential) : Prop := {
  adm_signed : jdecode (rq_command r) = Ok signed;
  adm_command : decode (T := Command) signed = Ok c;
  adm_ok : command_ok j c now = Ok tt;
  adm_work : work_ok r c = Ok tt;
  adm_authority : command_authority j r c = Ok a;
  adm_candidate : match operation_candidate (cm_operation c) with
                  | Some text => ∃ cred, verify_credential text = Ok cred ∧ candidate = Some cred
                  | None => candidate = None
                  end;
  adm_signer : command_signer a c candidate = Ok signer;
  adm_signature : verify_signature signed (vc_key signer) = Ok tt;
  adm_permission : permission_ok a c = Ok tt;
  adm_new : replay (db j) (record_id signed) = Ok None;
  adm_head : is_managed (cm_operation c) = true → head a = Some (cm_authority_head c);
  adm_ticket : is_register (cm_operation c) = true → registered (db j) (cm_space_id c) = false →
    ∃ ticket, rq_registration_ticket r = Some ticket
      ∧ verify_registration_ticket ticket (registration_hosts j) (pin j) c
          (vc_identity signer) now = Ok tt;
}.

(** The rows a command leaves, and the event appended after them. *)
Inductive commits (j : Journal) (r : Request) (signed : SignedRecord) (c : Command)
    (a : Authority) (candidate : option VerifiedCredential) (ip : IpAddr) (now : N)
    (entropy : option string) : Db → Response → Prop :=
| commits_intro d a' resp event red nonces e d' out :
    command_nonces (prune (db j) (cm_space_id c) now)
      !! (display (cm_credential_id c), cm_nonce c) = None →
    run_operation j (prune (db j) (cm_space_id c) now) r signed c a candidate ip now entropy
      = Ok (Changed d a' resp event red) →
    head a' = Some (et_head e) → et_request e = record_id signed →
    et_space e = cm_space_id c → et_name e = event → et_now e = now →
    append_with_budget (set_nonces d nonces) (jkey j) (pin j) e resp red = Ok (d', out) →
    commits j r signed c a candidate ip now entropy d' out.

Lemma transact_commits j r signed c a cand ip now ent d' out :
  transact j r signed c a cand ip now ent = Ok (Some d', out) →
  commits j r signed c a cand ip now ent d' out.
Proof.
  unfold transact. intros H. step H u1 H1. step H o Ho. destruct o as [|d a' resp event red]; [done|].
  step H nonces Hn. step H h Hh. step H dr Happ. destruct dr as [d2 r2]. apply Ok_inj in H.
  simplify_eq. apply fail_if_Ok, bool_decide_eq_false, eq_None_not_Some in H1.
  apply ok_or_Ok in Hh. by eapply commits_intro; [done|exact Ho| .. |exact Happ].
Qed.

(** [apply] either leaves every table as it was, or commits one admitted command. *)
Lemma apply_inv j r ip now instant ent :
  let j1 := (guard j now instant).1 in
  (apply j r ip now instant ent).1 = j1
  ∨ ∃ signed c a cand signer d' out,
      (guard j now instant).2 = Ok tt
      ∧ command_admitted j1 r now signed c a cand signer
      ∧ commits j1 r signed c a cand ip now ent d' out
      ∧ apply j r ip now instant ent = (set_db j1 d', Ok out).
Proof.
  intros j1. subst j1. unfold apply. destruct (guard j now instant) as [j1 g]. cbn [fst snd].
  destruct g as [[]|e]; [|by left].
  destruct (apply_inner j1 r ip now ent) as [[[d'|] out]|e] eqn:H; [|by left..].
  right. unfold apply_inner in H. step H signed Hs. step H c Hc. step H u1 H1. step H u2 H2.
  step H a Ha. step H cand Hcand. step H signer Hsg. step H u3 H3. step H u4 H4.
  exists signed, c, a, cand, signer, d', out. destruct u1, u2, u3, u4.
  apply lift_Ok in Hc. apply lift_Ok in H3.
  assert (match operation_candidate (cm_operation c) with
          | Some text => ∃ cred, verify_credential text = Ok cred ∧ cand = Some cred
          | None => cand = None
          end) as Hcand'.
  { destruct (operation_candidate _); [|by injection Hcand].
    apply fmap_Ok in Hcand as (x & ? & <-). eauto. }
  destruct (is_register (cm_operation c) && negb (registered (db j1) (cm_space_id c))) eqn:Hreg;
    destruct (cm_operation c) eqn:Hop; try discriminate Hreg;
    try (by apply bind_Ok in H as (? & ? & ?)); cbn [is_managed is_admit andb] in H.
  all: step H u5 H5; step H rep Hrep; destruct rep as [resp|]; [by step H u6 H6|];
    step H u6 H6; apply transact_commits in H.
  all: split; [done|]; split; [|done]; split; try done; rewrite ?Hop; try done;
    try (intros _; apply fail_if_Ok, bool_decide_eq_negb_false in H6; by symmetry).
  all: intros _ Hf.
  - step H5 ticket Ht. apply ok_or_Ok in Ht. destruct u5. eauto.
  - cbn [is_register andb] in Hreg. by rewrite Hf in Hreg.
Qed.

Lemma commits_run j r signed c a cand ip now ent d' out :
  runs_in (db j) c a → commits j r signed c a cand ip now ent d' out →
  ∃ d e resp red, ledger_run (display (cm_space_id c)) (db j) d
    ∧ is_Some (spaces d !! display (cm_space_id c)) ∧ space a = cm_space_id c
    ∧ et_space e = cm_space_id c ∧ et_request e = record_id signed ∧ et_now e = now
    ∧ append_with_budget d (jkey j) (pin j) e resp red = Ok (d', out).
Proof.
  intros [Hsp Hst] H. destruct H as [d a' resp event red nonces e d' out Hn Hop Hh Hr Hs Hname Ht Happ].
  apply run_operation_run in Hop as (Hrun & Ha' & Hstored); [|by split].
  exists (set_nonces d nonces), e, resp, red. repeat (split; [|done || (split; [done|])]); try done.
  etrans; [apply prune_run|]. etrans; [exact Hrun|]. apply run_one, step_nonces.
Qed.

(** ** What an append does *)

Definition event_row (d : Db) (p : WitnessPin) (tip : Position) (e : Event)
    (record : SignedRecord) (response : Response) : EventRow :=
  {| ev_sequence := po_sequence tip + 1; ev_record_id := display (record_id record);
     ev_receipt := base64_encode (sr_bytes record); ev_request_id := display (et_request e);
     ev_response := to_json response; ev_space := display (et_space e) |}.

Lemma append_inv d key p e resp red d' out :
  append_with_budget d key p e resp red = Ok (d', out) →
  ∃ tip record,
    position d = Ok tip ∧ po_sequence tip < MAX_EVENTS
    ∧ sign (to_vec (receipt_body d p tip e)) key = Ok record
    ∧ out = {| rs_receipt := Some (base64_encode (sr_bytes record)); rs_proof := rs_proof resp;
               rs_challenge := rs_challenge resp |}
    ∧ d' = set_events d (events d ++ [event_row d p tip e record out])
    ∧ (∀ o, o ∈ events d → ev_request_id o ≠ display (et_request e))
    ∧ enforce d' (et_space e) red = Ok tt.
Proof.
  unfold append_with_budget. intros H. step H tip Htip. step H u1 H1. step H record Hr.
  step H d1 Hd1. step H u2 H2. apply Ok_inj in H. destruct u2. simplify_eq.
  unfold insert_event in Hd1. step Hd1 u3 H3. apply Ok_inj in Hd1. subst d'.
  exists tip, record. apply lift_Ok in Hr. apply fail_if_Ok, N.leb_gt in H1.
  repeat (split; [done|]). split; [|done]. intros o Ho Heq.
  apply fail_if_Ok in H3. rewrite existsb_false in H3. specialize (H3 o Ho).
  inv_ok. cbn in *. done.
Qed.

End EngineFacts.
