(* ===== verification/WitnessInv.v ===== *)
(** * A served journal

    The states a witness service can reach from an empty database, and the invariant every
    one of them satisfies: the startup check of a later process never refuses it. *)

From S2P Require Import Prelude Platform Ids Record Chat Identity AuthorityData AuthorityWitness Authority AuthorityProof AuthorityInv ProofFacts WitnessWire Journal Engine Ledger EngineFacts.

Section WitnessInv.
Context `{P : Platform} {S : AuthoritySerde} {W : WitnessSerde} {X : ProtocolSerde}.

Definition empty_db : Db :=
  {| metadata := None; events := []; spaces := ∅; policies := ∅; challenges := ∅;
     tombstones := ∅; command_nonces := ∅; registration_limits := ∅ |}.

(** What the process can do next; the reopening of the same database by a later process
    included. *)
Inductive transition (j : Journal) : Journal → Prop :=
| tr_apply r ip now instant ent : transition j (apply j r ip now instant ent).1
| tr_head r now instant : transition j (engine_head j r now instant).1
| tr_ready now instant : transition j (ready j now instant).1
| tr_activate act now instant j' : activate j act now instant = Ok j' → transition j j'
| tr_hosts hosts j' : set_registration_hosts j hosts = Ok j' → transition j j'
| tr_reopen now instant nonce j' :
    (open (db j) (jkey j) (pin j) now instant nonce).2 = Ok j' → transition j j'.

(** A journal some process holds after starting on an empty database. *)
Inductive served : Journal → Prop :=
| served_open key p now instant nonce j :
    (open empty_db key p now instant nonce).2 = Ok j → served j
| served_step j j' : served j → transition j j' → served j'.

(** ** The invariant *)

(** The startup check of one Space succeeds. *)
Definition space_verifies (d : Db) (p : WitnessPin) (k : string) : Prop :=
  ∃ id receipt, parse_hex 32 k = Some id ∧ verify_materialized_space d id p = Ok receipt.

(** The event chain verifies up to its newest position. *)
Definition chain_verifies (d : Db) (key : string) (p : WitnessPin) (clock : N) : Prop :=
  ∃ tip t, position d = Ok tip
    ∧ check_events key p (events d) = Ok (po_sequence tip, po_record_id tip, t) ∧ t ≤ clock
    ∧ po_sequence tip = nlen (events d).

Definition usage_within (u : Usage) : Prop :=
  us_events u ≤ RESERVED_EVENTS ∧ us_bytes u ≤ RESERVED_BYTES.

Record sound (j : Journal) : Prop := {
  snd_pin : pin_validate (pin j) = Ok tt;
  snd_key : encode_hex (ed25519_verifying_key (jkey j)) = wp_public_key (pin j);
  snd_metadata : metadata (db j) = Some (to_json (pin j));
  snd_chain : chain_verifies (db j) (jkey j) (pin j) (last_clock j);
  snd_requests : NoDup (ev_request_id <$> events (db j));
  snd_spaces : ∀ k, k ∈ known_spaces (db j) →
    is_Some (spaces (db j) !! k) ∧ space_verifies (db j) (pin j) k;
  snd_size : N.of_nat (size (spaces (db j))) ≤ MAX_SPACES;
  snd_limits : limits_within (db j);
  snd_policies : policies_within (db j);
  snd_usage : ∀ k, usage_within (usage (db j) k);
}.

(** ** Rows by Space *)

Definition own_events (d : Db) (k : string) : list EventRow :=
  List.filter (λ e, ev_space e === k) (events d).

Lemma known_spaces_elem d k :
  k ∈ known_spaces d ↔
  is_Some (spaces d !! k) ∨ policies_of d k ≠ [] ∨ challenges_of d k ≠ []
  ∨ tombstones_of d k ≠ [] ∨ own_events d k ≠ [].
Proof.
  assert (∀ A (l : list A), l ≠ [] ↔ ∃ x, x ∈ l) as Hne.
  { intros A [|x l]; split; try done; [by intros [? ?%not_elem_of_nil]|]. exists x. left. }
  unfold known_spaces. rewrite elem_of_remove_dups, !elem_of_app, !Hne.
  rewrite !list_elem_of_fmap. repeat f_equiv.
  - unfold is_Some. split.
    + intros ([k' r] & -> & ?%elem_of_map_to_list). by exists r.
    + intros [r Hr]. exists (k, r). split; [done|]. by apply elem_of_map_to_list.
  - destruct a as [id r]. unfold policies_of. rewrite btree_list_elem.
    rewrite map_lookup_filter_Some, elem_of_map_to_list. cbn. intuition.
  - destruct a as [id r]. unfold challenges_of. rewrite btree_list_elem.
    rewrite map_lookup_filter_Some, elem_of_map_to_list. cbn. intuition.
  - split.
    + intros ([[s c] i] & Hk & Hin%elem_of_map_to_list). cbn in Hk. subst s. exists (c, i).
      unfold tombstones_of. rewrite merge_sort_Permutation, list_elem_of_fmap.
      exists ((k, c), i). split; [done|]. by apply elem_of_map_to_list, map_lookup_filter_Some.
    + intros [ci Hci]. unfold tombstones_of in Hci.
      rewrite merge_sort_Permutation, list_elem_of_fmap in Hci.
      destruct Hci as ([[s c] i] & -> & [Hin Hs]%elem_of_map_to_list%map_lookup_filter_Some).
      exists ((s, c), i). split; [done|]. by apply elem_of_map_to_list.
  - unfold own_events. rewrite filter_true, bool_decide_eq_true. intuition.
Qed.

(** A Space's digest and newest receipt, and its usage, depend on its own rows only. *)
Lemma same_space_digest d d' id p :
  same_space d d' (display id) → own_events d' (display id) = own_events d (display id) →
  verify_materialized_space d' id p = verify_materialized_space d id p.
Proof.
  intros (H1 & H2 & H3 & H4) He. unfold verify_materialized_space, last_event.
  unfold own_events in He. rewrite He. unfold state_digest, space_rows, policy_rows,
    challenge_rows, tombstone_rows. by rewrite H1, H2, H3, H4.
Qed.

Lemma same_space_usage d d' k :
  same_space d d' k → own_events d' k = own_events d k → usage d' k = usage d k.
Proof.
  intros (H1 & H2 & H3 & H4) He. unfold usage. unfold own_events in He.
  by rewrite He, H1, H2, H3, H4.
Qed.

Lemma same_space_known d d' k :
  same_space d d' k → own_events d' k = own_events d k → k ∈ known_spaces d' ↔ k ∈ known_spaces d.
Proof. intros (H1 & H2 & H3 & H4) He. by rewrite !known_spaces_elem, He, H1, H2, H3, H4. Qed.

(** ** Receipts read back *)

Lemma jdecode_sign {L : PlatformLaws P} body key record :
  sign body key = Ok record → jdecode (base64_encode (sr_bytes record)) = Ok record.
Proof.
  intros (_ & _ & Hparse & _ & _)%sign_bounded_Ok. unfold jdecode.
  pose proof (base64_length (sr_bytes record)) as Hl.
  assert (slen (sr_bytes record) ≤ MAX_RECORD) as Hm
    by (by apply parse_bounded_Ok in Hparse as (_ & _ & ? & _)).
  rewrite fail_if_pass.
  - rewrite base64_round_trip. cbn. unfold lift, parse. by rewrite Hparse.
  - apply N.ltb_ge. assert ((slen (sr_bytes record) + 2) / 3 ≤ (MAX_RECORD + 2) / 3)
      by (apply N.Div0.div_le_mono; lia).
    change ((MAX_RECORD + 2) / 3) with 349526 in *. change (MAX_RECORD * 2) with 2097152. lia.
Qed.

Lemma record_id_length {L : PlatformLaws P} r : String.length (record_id r) = 32%nat.
Proof. apply sha256_length. Qed.

Context {L : PlatformLaws P} (Hreceipt : ∀ r : Receipt, serde_round_trip r).

Lemma pin_key_of j :
  pin_validate (pin j) = Ok tt → encode_hex (ed25519_verifying_key (jkey j)) = wp_public_key (pin j) →
  pin_key (pin j) = Ok (ed25519_verifying_key (jkey j)).
Proof.
  unfold pin_validate. intros H Hk. step H u Hu. step H u1 H1. step H key Hkey.
  rewrite Hkey. f_equal. unfold pin_key, public_key in Hkey.
  step Hkey raw Hraw. step Hkey k2 Hk2. step Hkey u2 H2.
  unfold hex in Hraw. apply ok_or_Ok, parse_hex_inv in Hraw as [Hd _].
  rewrite <-Hk in Hd. apply display_inj in Hd. subst raw.
  apply ok_or_Ok in Hk2. unfold vk_from_bytes in Hk2.
  destruct (ed25519_valid _); [|done]. simplify_eq; by inv_ok.
Qed.

(** The receipt of an append extends the chain. *)
Lemma append_chain d key p e record out tip t :
  position d = Ok tip → check_events key p (events d) = Ok (po_sequence tip, po_record_id tip, t) →
  po_sequence tip < MAX_EVENTS → t ≤ et_now e →
  sign (to_vec (receipt_body d p tip e)) key = Ok record →
  let d' := set_events d (events d ++ [event_row d p tip e record out]) in
  let tip' := {| po_sequence := po_sequence tip + 1; po_record_id := Some (record_id record) |} in
  position d' = Ok tip'
  ∧ check_events key p (events d') = Ok (po_sequence tip', po_record_id tip', et_now e).
Proof.
  intros Htip Hchain Hmax Ht Hsign d' tip'. split.
  - unfold position, d'. cbn. rewrite last_snoc. cbn.
    by rewrite parse_hex_display by apply record_id_length.
  - unfold check_events, d'. cbn [events set_events]. rewrite try_fold_app.
    unfold check_events in Hchain. rewrite Hchain. cbn [try_fold mbind].
    unfold open_step at 1. cbn [ev_receipt event_row].
    rewrite (jdecode_sign _ _ _ Hsign). cbn.
    pose proof (sign_bounded_Ok _ _ _ _ Hsign) as (_ & _ & _ & _ & ->). cbn.
    rewrite (sign_decode _ _ _ Hsign) by apply Hreceipt. cbn.
    rewrite fail_if_pass; [done|].
    rewrite !N.eqb_refl, !bool_decide_eq_true_2 by done. cbn.
    assert ((MAX_EVENTS <? po_sequence tip + 1) = false) as -> by (apply N.ltb_ge; lia).
    by assert ((et_now e <? t) = false) as -> by (apply N.ltb_ge; lia).
Qed.

(** The appended receipt matches its Space's rows. *)
Lemma append_materialized d key p e record out tip :
  pin_key p = Ok (ed25519_verifying_key key) →
  sign (to_vec (receipt_body d p tip e)) key = Ok record →
  let d' := set_events d (events d ++ [event_row d p tip e record out]) in
  verify_materialized_space d' (et_space e) p = Ok (receipt_body d p tip e).
Proof.
  intros Hpin Hsign d'. unfold verify_materialized_space.
  assert (last_event d' (display (et_space e)) = Some (event_row d p tip e record out)) as ->.
  { unfold last_event, d'. cbn [events set_events]. rewrite List.filter_app. cbn.
    rewrite bool_decide_eq_true_2 by done. apply last_snoc. }
  cbn. rewrite (jdecode_sign _ _ _ Hsign), Hpin. cbn.
  pose proof (sign_bounded_Ok _ _ _ _ Hsign) as (_ & _ & _ & _ & ->). cbn.
  rewrite (sign_decode _ _ _ Hsign) by apply Hreceipt. cbn.
  rewrite fail_if_pass; [done|].
  rewrite !N.eqb_refl, !bool_decide_eq_true_2 by done. cbn.
  by assert ((po_sequence tip + 1 =? 0) = false) as -> by (apply N.eqb_neq; lia).
Qed.

(** ** A commit keeps the journal sound *)

Lemma append_isolated d row k :
  ev_space row ≠ k →
  same_space d (set_events d (events d ++ [row])) k
  ∧ own_events (set_events d (events d ++ [row])) k = own_events d k.
Proof.
  intros Hk. split; [by repeat split|]. unfold own_events. cbn.
  rewrite List.filter_app. cbn. by rewrite bool_decide_eq_false_2, app_nil_r.
Qed.

Lemma run_events s d d' : ledger_run s d d' → events d' = events d.
Proof. intros H. by apply ledger_run_le, le_events in H. Qed.

(** A commit changes the rows of its own Space only. *)
Lemma commits_isolated j r signed c a cand ip now ent d' out k :
  runs_in (db j) c a → commits j r signed c a cand ip now ent d' out →
  k ≠ display (cm_space_id c) →
  same_space (db j) d' k ∧ own_events d' k = own_events (db j) k.
Proof.
  intros Hin Hc Hk. apply commits_run in Hc as (d & e & resp & red & Hrun & _ & _ & He & _ & _ & Happ);
    [|done].
  apply append_inv in Happ as (tip & record & _ & _ & _ & _ & -> & _ & _).
  destruct (append_isolated d (event_row d (pin j) tip e record out) k) as [H1 H2];
    [cbn; congruence|].
  split; [by eapply (same_space_trans k _ d); [eapply ledger_run_isolated|]|].
  rewrite H2. unfold own_events. by rewrite (run_events _ _ _ Hrun).
Qed.

Lemma enforce_within d sp red u : enforce d sp red = Ok u → usage_within (usage d (display sp)).
Proof.
  unfold enforce. intros [H1%N.ltb_ge H2%N.ltb_ge]%fail_if_Ok%orb_false_iff.
  unfold usage_within. revert H1 H2. destruct red; cbn; unfold NORMAL_EVENTS, RESERVED_EVENTS,
    NORMAL_BYTES, RESERVED_BYTES; lia.
Qed.

Lemma run_metadata s d d' : ledger_run s d d' → metadata d' = metadata d.
Proof. induction 1 as [|d1 d2 d3 Hstep _ IH]; [done|]. rewrite IH. by destruct Hstep. Qed.

(** The startup check of a Space outlives every change of other Spaces. *)
Lemma other_space_sound j d' k :
  sound j → same_space (db j) d' k → own_events d' k = own_events (db j) k →
  k ∈ known_spaces d' → is_Some (spaces d' !! k) ∧ space_verifies d' (pin j) k.
Proof.
  intros Hj Hs Ho Hk. apply (same_space_known _ _ _ Hs Ho) in Hk.
  destruct (snd_spaces _ Hj k Hk) as [Hrow (id & rc & Hid & Hv)].
  split; [by destruct Hs as [-> _]|]. exists id, rc. split; [done|].
  apply parse_hex_inv in Hid as [<- _]. by rewrite (same_space_digest _ _ _ _ Hs Ho).
Qed.

Lemma sound_commit j r signed c a cand ip now ent d' out :
  sound j → last_clock j = now → runs_in (db j) c a →
  commits j r signed c a cand ip now ent d' out → sound (set_db j d').
Proof.
  intros Hj Hnow Hin Hc.
  assert (∀ k, k ≠ display (cm_space_id c) →
    same_space (db j) d' k ∧ own_events d' k = own_events (db j) k) as Hother
    by (intros; by eapply commits_isolated).
  apply commits_run in Hc as (d & e & resp & red & Hrun & Hstored & Hsp & He & Hreq & Het & Happ);
    [|done].
  apply append_inv in Happ as (tip & record & Htip & Hmax & Hsign & -> & Hd' & Hfresh & Henf).
  destruct (snd_chain _ Hj) as (tip0 & t & Htip0 & Hchain & Ht & Hlen).
  assert (tip0 = tip) as ->.
  { unfold position in Htip, Htip0. rewrite (run_events _ _ _ Hrun) in Htip. congruence. }
  rewrite <-(run_events _ _ _ Hrun) in Hchain, Hlen.
  pose proof (pin_key_of j (snd_pin _ Hj) (snd_key _ Hj)) as Hpin.
  assert (display (cm_space_id c) = display (et_space e)) as Hse by congruence.
  pose proof (append_materialized d _ _ e record
    {| rs_receipt := Some (base64_encode (sr_bytes record)); rs_proof := rs_proof resp;
       rs_challenge := rs_challenge resp |} tip Hpin Hsign) as Hmat.
  cbv zeta in Hmat. rewrite <-Hd' in Hmat.
  destruct (ledger_run_within _ _ _ Hrun (snd_limits _ Hj) (snd_policies _ Hj)) as [Hlim Hpol].
  split; cbn [pin jkey db set_db last_clock]; try apply Hj.
  - rewrite Hd'. cbn. rewrite (run_metadata _ _ _ Hrun). apply Hj.
  - destruct (append_chain d _ (pin j) e record
      {| rs_receipt := Some (base64_encode (sr_bytes record)); rs_proof := rs_proof resp;
         rs_challenge := rs_challenge resp |} tip t Htip Hchain Hmax) as [H1 H2]; [lia|done|].
    cbv zeta in H1, H2. rewrite <-Hd' in H1, H2. eexists _, _.
    split; [exact H1|]. split; [exact H2|]. split; [lia|]. rewrite Hd'. unfold nlen in *. cbn.
    rewrite length_app. cbn. lia.
  - rewrite Hd'. cbn. rewrite fmap_app. apply NoDup_app. cbn.
    split; [rewrite (run_events _ _ _ Hrun); apply Hj|]. split; [|apply NoDup_singleton].
    intros x (o & -> & Ho)%list_elem_of_fmap Hx%list_elem_of_singleton. by apply (Hfresh o).
  - intros k Hk. destruct (decide (k = display (cm_space_id c))) as [->|Hne].
    + split; [by rewrite Hd'|]. exists (et_space e). eexists. rewrite Hse. split; [|exact Hmat].
      apply parse_hex_display. rewrite He, <-Hsp, space_genesis. apply record_id_length.
    + destruct (Hother k Hne). by apply other_space_sound.
  - rewrite Hd'. cbn. by eapply ledger_run_size, Hj.
  - by rewrite Hd'.
  - by rewrite Hd'.
  - intros k. destruct (decide (k = display (cm_space_id c))) as [->|Hne].
    + rewrite Hse. by eapply enforce_within.
    + destruct (Hother k Hne) as [Hs Ho]. rewrite (same_space_usage _ _ _ Hs Ho). apply Hj.
Qed.

(** ** Every transition keeps it *)

(** [guard] touches only the activation and the clock. *)
Lemma guard_frame j now instant :
  ∃ a f last, (guard j now instant).1 = set_clock j a f last (anchor_wall j) (monotonic j)
    ∧ last_clock j ≤ last ∧ ((guard j now instant).2 = Ok tt → last = now).
Proof.
  unfold guard. destruct (_ || _).
  - exists (active j), (clock_failed j), (last_clock j). by destruct j.
  - destruct (N.ltb_spec now (last_clock j)); cbn [orb].
    { exists false, true, (last_clock j). done. }
    destruct (5000 <? _).
    + exists false, true, (last_clock j). done.
    + exists (active j), (clock_failed j), now. done.
Qed.

Lemma sound_clock j a f last anchor mono :
  last_clock j ≤ last → sound j → sound (set_clock j a f last anchor mono).
Proof.
  intros Hl [H1 H2 H3 (tip & t & ? & ? & ? & ?)]. split; cbn; try done.
  exists tip, t. repeat (split; [done|]). split; [lia|done].
Qed.

Lemma sound_guard j now instant : sound j → sound (guard j now instant).1.
Proof.
  intros Hj. destruct (guard_frame j now instant) as (a & f & last & -> & Hl & _).
  by apply sound_clock.
Qed.

Lemma guard_db j now instant : db (guard j now instant).1 = db j.
Proof. by destruct (guard_frame j now instant) as (a & f & last & -> & _). Qed.

Lemma open_inv d key p now instant nonce j :
  (open d key p now instant nonce).2 = Ok j →
  pin_validate p = Ok tt ∧ encode_hex (ed25519_verifying_key key) = wp_public_key p
  ∧ (∃ s, check_events key p (events d) = Ok s ∧ s.2 ≤ now)
  ∧ verify_materialized (set_metadata d (Some (to_json p))) p = Ok tt
  ∧ db j = set_metadata d (Some (to_json p)) ∧ jkey j = key ∧ pin j = p ∧ last_clock j = now
  ∧ active j = false ∧ clock_failed j = false.
Proof.
  unfold open. destruct (open_allowed d key p) as [u|] eqn:Hok; [|done]. cbn [snd].
  unfold open_allowed in Hok. step Hok u1 H1. step Hok u2 H2. intros H. unfold open_verified in H.
  step H s Hs. step H u4 H4. step H u5 H5. step H st Hst. apply Ok_inj in H. subst j.
  destruct u1, u5. apply lift_Ok in H1. apply fail_if_Ok, orb_false_iff in H2 as [H2 _].
  apply bool_decide_eq_negb_false in H2. apply fail_if_Ok, N.ltb_ge in H4.
  repeat (split; [by eauto|]). done.
Qed.

Lemma open_sound d key p now instant nonce j :
  (open d key p now instant nonce).2 = Ok j → (∃ j0, sound j0 ∧ db j0 = d ∧ jkey j0 = key ∧ pin j0 = p)
    ∨ d = empty_db → sound j.
Proof.
  intros (H1 & H2 & (s & Hs & Ht) & Hm & Hdb & Hk & Hp & Hc & _)%open_inv Hd.
  destruct j as [d' k' p' hosts nonce' a f last anchor mono]. cbn in *. subst.
  destruct Hd as [(j0 & Hj & <- & <- & <-)| ->]; split; cbn; try done; try apply Hj.
  - destruct (snd_chain _ Hj) as (tip & t & Htip & Hch & _ & Hlen). exists tip, t.
    repeat (split; [done|]). split; [|done]. rewrite Hch in Hs. by injection Hs as <-.
  - exists {| po_sequence := 0; po_record_id := None |}, 0. cbn. split; [done|]. split; [done|].
    split; [lia|done].
  - constructor.
  - intros k Hk. by apply not_elem_of_nil in Hk.
Qed.

Lemma sound_transition j j' : sound j → transition j j' → sound j'.
Proof.
  intros Hj Htr. destruct Htr as [r ip now instant ent|r now instant|now instant|act now instant j' H
    |hosts j' H|now instant nonce j' H].
  - destruct (apply_inv j r ip now instant ent) as [->|Hc]; [by apply sound_guard|].
    destruct Hc as (signed & c & a & cand & signer & d' & out & Hg & Hadm & Hcom & ->). cbn [fst].
    eapply sound_commit; [by apply sound_guard| | |exact Hcom].
    + destruct (guard_frame j now instant) as (a' & f & last & -> & _ & Hlast). by apply Hlast.
    + by eapply command_authority_runs, adm_authority.
  - unfold engine_head. pose proof (sound_guard j now instant Hj) as H. by destruct (guard _ _ _).
  - by apply sound_guard.
  - unfold activate in H. step H u1 H1. step H p Hp. step H u2 H2. step H u3 H3.
    apply Ok_inj in H. subst j'. apply sound_clock; [|done]. inv_ok.
    by match goal with H : (_ <? last_clock j) = false |- _ => apply N.ltb_ge in H end.
  - unfold set_registration_hosts in H. step H u1 H1. step H u2 H2. apply Ok_inj in H. subst j'.
    destruct Hj. by split.
  - eapply open_sound; [exact H|]. left. by exists j.
Qed.

Lemma served_sound j : served j → sound j.
Proof.
  induction 1 as [key p now instant nonce j H|j j' _ IH Htr].
  - eapply open_sound; [exact H|by right].
  - by eapply sound_transition.
Qed.

End WitnessInv.
