(* ===== verification/WitnessFacts.v ===== *)
(** * Correctness of the witness service

    The engine's commands refine the ledger, concern one Space each, are authorized and
    commit at most once; what the journal records is never taken back; and every journal
    a service can reach opens and activates again. *)

From S2P Require Import Prelude Platform Ids Record Chat Identity AuthorityData AuthorityWitness Authority AuthorityProof AuthorityInv ProofFacts WitnessWire Journal Engine Ledger EngineFacts WitnessInv.

Section WitnessFacts.
Context `{P : Platform} {S : AuthoritySerde} {W : WitnessSerde} {X : ProtocolSerde}.
Context {L : PlatformLaws P}.

(** ** What the journal records is never taken back *)

Record history_le (d d' : Db) : Prop := {
  hist_policies : ∀ id r, policies d !! id = Some r →
    ∃ r', policies d' !! id = Some r' ∧ policy_le r r';
  hist_consumed : ∀ id r i, challenges d !! id = Some r → ch_intent r = Some i →
    challenges d' !! id = Some r;
  hist_tombstones : tombstones d ⊆ tombstones d';
  hist_events : events d `prefix_of` events d';
}.

#[export] Instance history_le_preorder : PreOrder history_le.
Proof.
  split.
  - intros d. split; [|done|done|done]. intros id r Hr. by exists r.
  - intros d1 d2 d3 [P1 C1 T1 E1] [P2 C2 T2 E2]. split.
    + intros id r (r' & Hr' & ?)%P1. destruct (P2 id r' Hr') as (r'' & ? & ?).
      exists r''. split; [done|]. by trans r'.
    + intros id r i Hr Hi. by eapply C2; [by eapply C1|].
    + by trans (tombstones d2).
    + by trans (events d2).
Qed.

Lemma ledger_run_history s d d' : ledger_run s d d' → history_le d d'.
Proof. intros H%ledger_run_le. split; [apply H..|]. by rewrite (le_events _ _ H). Qed.

Lemma transition_history j j' : transition j j' → history_le (db j) (db j').
Proof.
  destruct 1 as [r ip now instant ent|r now instant|now instant|act now instant j' H
    |hosts j' H|now instant nonce j' H].
  - destruct (apply_inv j r ip now instant ent) as [->|Hc]; [by rewrite guard_db|].
    destruct Hc as (signed & c & a & cand & signer & d' & out & Hg & Hadm & Hcom & ->). cbn.
    apply commits_run in Hcom as (d & e & resp & red & Hrun & _ & _ & _ & _ & _ & Happ);
      [|by eapply command_authority_runs, adm_authority].
    apply append_inv in Happ as (tip & record & _ & _ & _ & _ & -> & _ & _).
    rewrite guard_db in Hrun. etrans; [by eapply ledger_run_history|].
    split; cbn; [|done|done|by apply prefix_app_r]. intros id r' Hr. by exists r'.
  - unfold engine_head. pose proof (guard_db j now instant) as H. destruct (guard _ _ _). cbn in *.
    by rewrite H.
  - unfold ready. cbn. by rewrite guard_db.
  - unfold activate in H. step H u1 H1. step H p Hp. step H u2 H2. step H u3 H3.
    apply Ok_inj in H. subst j'. cbn. reflexivity.
  - unfold set_registration_hosts in H. step H u1 H1. step H u2 H2. apply Ok_inj in H. subst j'. cbn. reflexivity.
  - apply open_inv in H as (_ & _ & _ & _ & -> & _). split; cbn; [|done..]. intros id r Hr. by exists r.
Qed.

Lemma transitions_history j j' : rtc transition j j' → history_le (db j) (db j').
Proof.
  induction 1 as [j|j1 j2 j3 Htr _ IH]; [done|]. by etrans; [apply transition_history|].
Qed.

(** Whatever the service does next, nothing it recorded is taken back: a policy keeps
    its Space and text, is never revived and never forgets a use, and a revoked one gains
    no further use; a consumed challenge stays consumed by the same request; a tombstone
    stays; and the events of the earlier journal are the first events of the later one. *)
Theorem history_only_grows j j' (Hrun : rtc transition j j') : history_le (db j) (db j').
Proof. by apply transitions_history. Qed.

(** C25. A command either leaves every table of the database as it was, or performs ledger
    changes of the one Space it names and appends a single event for that Space and that
    request, and only then reports success. *)
Theorem apply_refines_ledger j r ip now instant ent :
  db (apply j r ip now instant ent).1 = db j
  ∨ ∃ signed c d row out,
      jdecode (rq_command r) = Ok signed ∧ decode (T := Command) signed = Ok c
      ∧ ledger_run (display (cm_space_id c)) (db j) d
      ∧ db (apply j r ip now instant ent).1 = set_events d (events (db j) ++ [row])
      ∧ ev_space row = display (cm_space_id c)
      ∧ ev_request_id row = display (record_id signed)
      ∧ (apply j r ip now instant ent).2 = Ok out.
Proof.
  destruct (apply_inv j r ip now instant ent) as [->|Hc]; [left; apply guard_db|right].
  destruct Hc as (signed & c & a & cand & signer & d' & out & Hg & Hadm & Hcom & ->). cbn [fst snd].
  apply commits_run in Hcom as (d & e & resp & red & Hrun & _ & _ & He & Hr & _ & Happ);
    [|by eapply command_authority_runs, adm_authority].
  apply append_inv in Happ as (tip & record & _ & _ & _ & _ & -> & _ & _).
  rewrite guard_db in Hrun. rewrite <-(run_events _ _ _ Hrun).
  exists signed, c, d. eexists _, out. split; [apply Hadm|]. split; [apply Hadm|].
  split; [done|]. split; [by cbn|]. cbn. by rewrite He, Hr.
Qed.

(** A command of one Space leaves every other Space's authority, policies, challenges,
    tombstones, events, receipts' digest and storage usage exactly as they were. *)
Theorem apply_isolates_spaces j r ip now instant ent other
  (Hother : ∀ signed c, jdecode (rq_command r) = Ok signed → decode (T := Command) signed = Ok c →
     cm_space_id c ≠ other) :
  let j' := (apply j r ip now instant ent).1 in
  same_space (db j) (db j') (display other)
  ∧ own_events (db j') (display other) = own_events (db j) (display other)
  ∧ verify_materialized_space (db j') other (pin j) = verify_materialized_space (db j) other (pin j)
  ∧ usage (db j') (display other) = usage (db j) (display other).
Proof.
  intros j'.
  assert (same_space (db j) (db j') (display other)
    ∧ own_events (db j') (display other) = own_events (db j) (display other)) as [Hs He].
  { subst j'. destruct (apply_inv j r ip now instant ent) as [->|Hc]; [by rewrite guard_db|].
    destruct Hc as (signed & c & a & cand & signer & d' & out & Hg & Hadm & Hcom & ->).
    cbn [fst db set_db]. rewrite <-(guard_db j now instant).
    eapply commits_isolated; [by eapply command_authority_runs, adm_authority|exact Hcom|].
    intros Heq%display_inj. by eapply Hother; [apply Hadm..|]. }
  split; [done|]. split; [done|].
  split; [by apply same_space_digest|by apply same_space_usage].
Qed.

(** A request commits at most once: when its identifier has an event in the journal,
    no later application of the same signed command changes the database again, whatever
    happened in between. *)
Theorem request_commits_once j j' r signed e ip now instant ent
  (Hrun : rtc transition j j') (Hsigned : jdecode (rq_command r) = Ok signed)
  (He : e ∈ events (db j)) (Hid : ev_request_id e = display (record_id signed)) :
  db (apply j' r ip now instant ent).1 = db j'.
Proof.
  destruct (apply_inv j' r ip now instant ent) as [->|Hc]; [apply guard_db|].
  destruct Hc as (signed' & c & a & cand & signer & d' & out & Hg & Hadm & _ & _). exfalso.
  assert (signed' = signed) as -> by (pose proof (adm_signed _ _ _ _ _ _ _ _ Hadm); congruence).
  pose proof (adm_new _ _ _ _ _ _ _ _ Hadm) as Hnew. rewrite guard_db in Hnew.
  apply transitions_history, hist_events in Hrun as [l Hl].
  unfold replay in Hnew. destruct (find_first _ _) as [o|] eqn:Hf; [by inv_ok|].
  rewrite find_first_None in Hf. specialize (Hf e).
  rewrite bool_decide_eq_false in Hf. apply Hf; [|done].
  rewrite Hl. set_solver.
Qed.

Lemma command_authority_source j r c a :
  command_authority j r c = Ok a →
  load (db j) (cm_space_id c) (cm_stream_id c) (pin j) = Ok a
  ∨ cm_operation c = Register ∧ ∃ proof, rq_proof r = Some proof
    ∧ verify_witnessed proof (cm_space_id c) (cm_stream_id c) (pin j) = Ok a.
Proof.
  unfold command_authority. destruct (cm_operation c); cbn [is_register]; intros H;
    try (left; by apply bind_Ok in H as (u & _ & H)).
  step H proof Hp. step H a0 Ha. step H h Hh. step H u Hu. apply lift_Ok in Ha.
  destruct (registered _ _); [by left|]. right. split; [done|]. apply Ok_inj in H. subst a0.
  apply ok_or_Ok in Hp. by exists proof.
Qed.

(** C30. Only an authorized command changes the database. It is in date, addressed to this
    witness and signed by the device it names; unless it is a guest's challenge or
    admission, that device is an active reader of the Space; and a registration, an
    invitation, a revocation or an owner update comes from an owner device and was made
    against the current configuration. *)
Theorem commit_authorized j r ip now instant ent
  (Hchange : db (apply j r ip now instant ent).1 ≠ db j) :
  ∃ signed c a signer,
    jdecode (rq_command r) = Ok signed ∧ decode (T := Command) signed = Ok c
    ∧ verify_signature signed (vc_key signer) = Ok tt ∧ vc_id signer = cm_credential_id c
    ∧ cm_audience c = wp_url (pin j) ∧ now < cm_expires_at_ms c
    ∧ cm_expires_at_ms c ≤ cm_issued_at_ms c + 60000
    ∧ (load (db j) (cm_space_id c) (cm_stream_id c) (pin j) = Ok a
       ∨ cm_operation c = Register ∧ ∃ proof, rq_proof r = Some proof
         ∧ verify_witnessed proof (cm_space_id c) (cm_stream_id c) (pin j) = Ok a)
    ∧ space a = cm_space_id c ∧ active j = true
    ∧ match operation_candidate (cm_operation c) with
      | Some text => verify_credential text = Ok signer
      | None => credential a (cm_credential_id c) = Ok signer
                ∧ ∃ h m, head_config a = Ok h ∧ m ∈ sc_members h
                    ∧ cm_credential_id c ∈ m_credential_ids m ∧ has_capability m Read = true
      end
    ∧ (is_managed (cm_operation c) = true →
         can_manage a (cm_credential_id c) = true ∧ head a = Some (cm_authority_head c)).
Proof.
  destruct (apply_inv j r ip now instant ent) as [Hg|Hc]; [by rewrite Hg, guard_db in Hchange|].
  clear Hchange.
  destruct Hc as (signed & c & a & cand & signer & d' & out & Hg & Hadm & _ & _).
  pose proof (command_authority_runs _ _ _ _ (adm_authority _ _ _ _ _ _ _ _ Hadm)) as [Hsp _].
  destruct Hadm as [H1 H2 H3 H4 H5 H6 H7 H8 H9 H10 H11 _].
  exists signed, c, a, signer. split; [done|]. split; [done|]. split; [done|].
  unfold command_signer in H7. step H7 sg Hsg. step H7 u Hu. apply Ok_inj in H7. subst sg.
  apply fail_if_Ok, bool_decide_eq_negb_false in Hu. split; [done|].
  destruct (guard_frame j now instant) as (a' & f & last & Hj & _ & _).
  rewrite Hj in H5. apply command_authority_source in H5. cbn in H5.
  unfold command_ok in H3. step H3 v Hv. rewrite Hj in H3.
  unfold permission_ok in H9. step H9 u4 Hr.
  split; [by inv_ok|]. split; [inv_ok; by apply N.leb_gt|].
  split; [inv_ok; repeat match goal with H : (_ <? _) = false |- _ => apply N.ltb_ge in H end; lia|].
  split; [done|]. split; [done|]. split.
  { unfold guard in Hg. destruct (active j); [done|]. by rewrite orb_true_r in Hg. }
  split.
  - destruct (operation_candidate (cm_operation c)).
    + destruct H6 as (cred & Hc & ->). apply Ok_inj in Hsg. by subst.
    + subst cand. apply lift_Ok in Hsg. split; [done|]. cbn in Hr. unfold require_read in Hr.
      step Hr h Hh. apply lift_Ok in Hh. apply fail_if_Ok, negb_false_iff in Hr.
      rewrite existsb_true in Hr. destruct Hr as (m & Hm & [Hc Hcap]%andb_true_iff).
      exists h, m. by rewrite contains_true in Hc.
  - intros Hm. split; [|by apply H11]. rewrite Hm in H9.
    apply fail_if_Ok in H9. by apply negb_false_iff in H9.
Qed.

(** ** The clock *)

(** When an active journal meets a clock that runs backwards, or that departs from the
    monotonic clock by more than five seconds since activation, it stops for good: the
    command is refused, and from then on every command is refused without a change to the
    database and every activation fails, until a new process opens the database. *)
Theorem clock_failure_seals j now instant
  (Hactive : active j = true) (Hnow : now ≤ MAX_INTEGER)
  (Hclock : now < last_clock j
            ∨ 5000 < abs_diff (now - anchor_wall j) (cap64 (instant - monotonic j))) :
  ∀ r ip ent,
  let failed := (apply j r ip now instant ent).1 in
  (apply j r ip now instant ent).2 = Err RecoveryRequired ∧ db failed = db j
  ∧ ∀ now' instant',
      (∀ r' ip' ent', apply failed r' ip' now' instant' ent' = (failed, Err RecoveryRequired))
      ∧ ∀ act, activate failed act now' instant' = Err RecoveryRequired.
Proof.
  intros r ip ent failed.
  assert (guard j now instant = (set_clock j false true (last_clock j) (anchor_wall j) (monotonic j),
                                 Err RecoveryRequired)) as Hg.
  { unfold guard, saturating_sub. rewrite Hactive. cbn [negb].
    rewrite orb_false_r, (proj2 (N.ltb_ge _ _)) by done.
    destruct (N.ltb_spec now (last_clock j)); [done|]. cbn [orb].
    rewrite (proj2 (N.ltb_lt _ _)); [done|]. lia. }
  assert (failed = set_clock j false true (last_clock j) (anchor_wall j) (monotonic j)) as ->.
  { subst failed. unfold apply. by rewrite Hg. }
  split; [unfold apply; by rewrite Hg|]. split; [done|]. intros now' instant'. split; [|done].
  intros r' ip' ent'. unfold apply, guard. cbn [active set_clock negb].
  by rewrite orb_true_r.
Qed.

(** ** Readmission *)

Lemma is_removed_true d c cand :
  is_removed d c cand = true ↔
  ∃ cred identity, tombstones d !! (display (cm_space_id c), cred) = Some identity
    ∧ (cred = display (vc_id cand) ∨ identity = display (vc_identity cand)).
Proof.
  unfold is_removed. rewrite existsb_true. split.
  - intros ([[s cred] identity] & Hin%elem_of_map_to_list & [Hs Hor]%andb_true_iff). cbn in *.
    apply bool_decide_eq_true in Hs. subst s. exists cred, identity. split; [done|].
    apply orb_true_iff in Hor. by rewrite !bool_decide_eq_true in Hor.
  - intros (cred & identity & Hin & Hor). exists ((display (cm_space_id c), cred), identity).
    split; [by apply elem_of_map_to_list|]. cbn. rewrite bool_decide_eq_true_2 by done.
    apply orb_true_iff. by rewrite !bool_decide_eq_true.
Qed.

(** The approval a guest's admission evidence carries, when it grants readmission. *)
Definition approves_readmission (o : Operation) : Prop :=
  match o with
  | Admit _ ev => ∃ text signed approval, ae_approval ev = Some text ∧ jdecode text = Ok signed
      ∧ decode (T := WitnessApproval) signed = Ok approval ∧ wa_readmission approval = true
  | AdmitV2 _ ev => ∃ text signed approval, a2_approval ev = Some text ∧ jdecode text = Ok signed
      ∧ decode (T := WitnessApprovalV2) signed = Ok approval ∧ w2_readmission approval = true
  | _ => False
  end.

Lemma run_admit_approved j d r signed c a cand ip now ent out :
  is_admit (cm_operation c) = true → is_removed d c cand = true →
  run_operation j d r signed c a (Some cand) ip now ent = Ok out →
  approves_readmission (cm_operation c).
Proof.
  intros Hadm Hrem H. unfold run_operation in H.
  destruct (cm_operation c) as [| | | |credential ev| |credential ev| |]; try done;
    cbn in H; [unfold do_admit in H|unfold do_admit_v2 in H].
  - step H ir Hir. step H intent Hi. step H pb Hpb. destruct pb as [text body]. step H u1 H1.
    step H row Hch. step H u2 H2. rewrite Hrem in H. step H u3 H3.
    step H3 txt Ht. step H3 sg Hsg. step H3 grant Hgr. apply lift_Ok in Hgr.
    apply ok_or_Ok in Ht. apply fail_if_Ok, negb_false_iff in H3. by exists txt, sg, grant.
  - step H ir Hir. step H intent Hi. step H pb Hpb. destruct pb as [text body]. step H u1 H1.
    step H request Hq. step H u4 H4. step H row Hch. step H u2 H2. step H chal Hchal.
    step H cb Hcb. step H u5 H5. rewrite Hrem in H. step H u3 H3.
    step H3 txt Ht. step H3 sg Hsg. step H3 grant Hgr. apply lift_Ok in Hgr.
    apply ok_or_Ok in Ht. apply fail_if_Ok, negb_false_iff in H3. by exists txt, sg, grant.
Qed.

(** Once a device or identity was retired from a Space, an admission of it whose evidence
    carries no approval granting readmission never changes the database, at any later
    time. *)
Theorem retired_needs_readmission j j' r ip now instant ent signed c text cand cred identity
  (Hrun : rtc transition j j')
  (Hretired : tombstones (db j) !! (display (cm_space_id c), cred) = Some identity)
  (Hsigned : jdecode (rq_command r) = Ok signed) (Hc : decode (T := Command) signed = Ok c)
  (Hadmit : is_admit (cm_operation c) = true)
  (Htext : operation_candidate (cm_operation c) = Some text)
  (Hcand : verify_credential text = Ok cand)
  (Hsame : cred = display (vc_id cand) ∨ identity = display (vc_identity cand))
  (Hnone : ¬ approves_readmission (cm_operation c)) :
  db (apply j' r ip now instant ent).1 = db j'.
Proof.
  destruct (apply_inv j' r ip now instant ent) as [->|Hi]; [apply guard_db|]. destruct Hnone.
  destruct Hi as (signed' & c' & a & cand' & signer & d' & out & _ & Hadm & Hcom & _).
  assert (signed' = signed) as -> by (pose proof (adm_signed _ _ _ _ _ _ _ _ Hadm); congruence).
  assert (c' = c) as -> by (pose proof (adm_command _ _ _ _ _ _ _ _ Hadm); congruence).
  pose proof (adm_candidate _ _ _ _ _ _ _ _ Hadm) as Hk. rewrite Htext in Hk.
  destruct Hk as (k & Hk & ->). assert (k = cand) as -> by congruence.
  destruct Hcom as [d a' resp event red nonces e d' out _ Hop _ _ _ _ _ _].
  eapply run_admit_approved; [done| |exact Hop]. apply is_removed_true.
  exists cred, identity. split; [|done]. unfold prune. cbn. rewrite guard_db.
  apply transitions_history, hist_tombstones in Hrun. by eapply lookup_weaken.
Qed.

(** ** Durable join requests *)

(** The join request a command of the second version spends. *)
Definition join_request (o : Operation) : option string :=
  match o with
  | ChallengeV2Op _ join _ => Some (jr_device_request join)
  | AdmitV2 _ ev => Some (jr_device_request (a2_request ev))
  | _ => None
  end.
Definition consumption (request : SignedRecord) : string := "v2:" +:+ display (record_id request).

Lemma consumed_requests_pos d space intent id row :
  challenges d !! id = Some row → ch_space row = space → ch_intent row = Some intent →
  consumed_requests d space intent ≠ 0.
Proof.
  intros Hid Hs Hi H. unfold consumed_requests, nlen in H.
  assert ((id, row) ∈ List.filter (λ kr, ch_intent kr.2 === Some intent) (challenges_of d space))
    as Hin.
  { apply filter_true. rewrite bool_decide_eq_true. split; [|done].
    apply btree_list_elem, map_lookup_filter_Some. done. }
  destruct (List.filter _ _); [by apply not_elem_of_nil in Hin|done].
Qed.

Lemma run_spent_request j d r signed c a cand ip now ent out text request :
  join_request (cm_operation c) = Some text → jdecode text = Ok request →
  run_operation j d r signed c a cand ip now ent = Ok out →
  consumed_requests d (display (cm_space_id c)) (consumption request) = 0.
Proof.
  intros Hj Hreq H. unfold run_operation in H.
  destruct (cm_operation c) as [| | | | |credential join n|credential ev| |]; try done;
    cbn in Hj; injection Hj as <-; step H cd Hcd;
    [unfold do_challenge_v2 in H|unfold do_admit_v2 in H].
  - step H u1 H1. step H body Hb. step H pb Hpb. destruct pb as [stored pbody]. step H u2 H2.
    step H u3 H3. step H q Hq. step H u4 H4. assert (q = request) as -> by congruence.
    by apply fail_if_Ok, negb_false_iff, N.eqb_eq in H4.
  - step H ir Hir. step H intent Hi. step H pb Hpb. destruct pb as [stored pbody]. step H u1 H1.
    step H q Hq. step H u4 H4. assert (q = request) as -> by congruence.
    by apply fail_if_Ok, negb_false_iff, N.eqb_eq in H4.
Qed.

(** A durable join request is spent once: when a consumed challenge of the Space bears
    its identifier, no later challenge or admission for the same request changes the
    database, whatever fresh nonces and challenges it brings. *)
Theorem durable_request_spent_once j j' r ip now instant ent signed c text request id row
  (Hrun : rtc transition j j')
  (Hrow : challenges (db j) !! id = Some row) (Hspace : ch_space row = display (cm_space_id c))
  (Hspent : ch_intent row = Some (consumption request))
  (Hsigned : jdecode (rq_command r) = Ok signed) (Hc : decode (T := Command) signed = Ok c)
  (Htext : join_request (cm_operation c) = Some text) (Hreq : jdecode text = Ok request) :
  db (apply j' r ip now instant ent).1 = db j'.
Proof.
  destruct (apply_inv j' r ip now instant ent) as [->|Hi]; [apply guard_db|]. exfalso.
  destruct Hi as (signed' & c' & a & cand & signer & d' & out & _ & Hadm & Hcom & _).
  assert (signed' = signed) as -> by (pose proof (adm_signed _ _ _ _ _ _ _ _ Hadm); congruence).
  assert (c' = c) as -> by (pose proof (adm_command _ _ _ _ _ _ _ _ Hadm); congruence).
  destruct Hcom as [d a' resp event red nonces e d' out _ Hop _ _ _ _ _ _].
  apply run_spent_request with (text := text) (request := request) in Hop; [|done..].
  revert Hop. eapply consumed_requests_pos; [|exact Hspace|exact Hspent].
  apply transitions_history in Hrun.
  assert (history_le (db j) (prune (db (guard j' now instant).1) (cm_space_id c) now)) as Hle.
  { etrans; [exact Hrun|]. rewrite guard_db. eapply ledger_run_history, prune_run. }
  by eapply hist_consumed.
Qed.

(** ** The security reserve *)

(** Fewer grants or owners, and none new. *)
Definition reduces (a a' : Authority) : Prop :=
  ∃ g g' h h', grants a = Ok g ∧ grants a' = Ok g' ∧ head_config a = Ok h ∧ head_config a' = Ok h'
    ∧ g' ⊆ g ∧ sc_owner_credential_ids h' ⊆ sc_owner_credential_ids h
    ∧ (¬ g ⊆ g' ∨ ¬ sc_owner_credential_ids h ⊆ sc_owner_credential_ids h').

(** The database holds the proof of this authority. *)
Definition stored_as (d : Db) (a : Authority) : Prop :=
  ∃ proof row, call_proof a = Ok proof ∧ spaces d !! display (space a) = Some row
    ∧ sp_proof row = to_json proof.

Lemma save_stored d a d' : save d a = Ok d' → stored_as d' a.
Proof.
  unfold save. intros H. step H proof Hp. apply Ok_inj in H. subst d'. apply lift_Ok in Hp.
  exists proof. eexists. split; [done|]. cbn. by rewrite lookup_insert_eq.
Qed.

Lemma is_subset_true {A} `{EqDecision A} (l k : list A) : is_subset l k = true ↔ l ⊆ k.
Proof.
  unfold is_subset. rewrite forallb_true. split; intros H x Hx.
  - by apply contains_true, H.
  - by apply contains_true, H.
Qed.

Lemma same_set_false {A} `{EqDecision A} (l k : list A) :
  l ⊆ k → negb (same_set l k) = true → ¬ k ⊆ l.
Proof.
  unfold same_set. intros H1 H2 H3. rewrite <-!is_subset_true in H1, H3.
  by rewrite H1, H3 in H2.
Qed.

(** Walk to the end of a handler that never reports a reduction. *)
Ltac unreduced H :=
  repeat match type of H with
  | _ ≫= _ = Ok _ => apply bind_Ok in H as (? & ? & H)
  | _ <$> _ = Ok _ => apply fmap_Ok in H as (? & ? & H)
  | context [let '(_, _) := ?x in _] => destruct x
  | context [match policies ?d !! ?k with _ => _ end] => destruct (policies d !! k)
  | context [if ?b then _ else _] => destruct b
  end.

Lemma run_reduction j d r signed c a cand ip now ent d' a' resp e :
  run_operation j d r signed c a cand ip now ent = Ok (Changed d' a' resp e true) →
  (∃ id, cm_operation c = RevokeInvitation id)
  ∨ (∃ proposal creds, cm_operation c = OwnerUpdate proposal creds) ∧ reduces a a' ∧ stored_as d' a'.
Proof.
  unfold run_operation. intros H.
  destruct (cm_operation c) as [|text|id|pid cred n|cred ev|cred join n|cred ev|proposal creds|].
  - unfold do_register in H. by unreduced H.
  - unfold do_register_invitation in H. by unreduced H.
  - left. eauto.
  - unfold do_challenge in H. by unreduced H.
  - step H cd Hcd. unfold do_admit in H. by unreduced H.
  - step H cd Hcd. unfold do_challenge_v2 in H. by unreduced H.
  - step H cd Hcd. unfold do_admit_v2 in H. by unreduced H.
  - right. split; [eauto|]. unfold do_owner_update in H.
    step H u1 H1. step H before Hb. step H bg Hbg. step H bh Hbh. step H a1 Ha1.
    step H pr Hpr. step H cfg Hcfg. step H adm Hadm. step H after Haf. step H ag Hag.
    step H ah Hah. step H d1 Hsave. apply Ok_inj in H.
    injection H as <- <- _ _ Hred. apply save_stored in Hsave. split; [|done]. apply lift_Ok in Hbh. apply lift_Ok in Hah.
    apply andb_true_iff in Hred as [[Hg Ho]%andb_true_iff Hor].
    apply is_subset_true in Hg, Ho.
    exists bg, ag, bh, ah. repeat (split; [done|]).
    apply orb_true_iff in Hor as [Hn|Hn]; [left|right]; by eapply same_set_false.
  - done.
Qed.

(** Only security reductions reach into the reserve. After any command that changes the
    database its Space is within 3072 events and 3 MiB, or within 4096 events and 4 MiB and
    the command revoked an invitation or was an owner update after which the stored
    authority has fewer grants or owners than before and no new ones. *)
Theorem reserve_for_reductions j r ip now instant ent
  (Hchange : db (apply j r ip now instant ent).1 ≠ db j) :
  ∃ signed c, jdecode (rq_command r) = Ok signed ∧ decode (T := Command) signed = Ok c
  ∧ let d' := db (apply j r ip now instant ent).1 in
    let u := usage d' (display (cm_space_id c)) in
    (us_events u ≤ 3072 ∧ us_bytes u ≤ 3145728)
    ∨ us_events u ≤ 4096 ∧ us_bytes u ≤ 4194304
      ∧ ((∃ id, cm_operation c = RevokeInvitation id)
         ∨ (∃ proposal creds, cm_operation c = OwnerUpdate proposal creds)
           ∧ ∃ a a', load (db j) (cm_space_id c) (cm_stream_id c) (pin j) = Ok a
             ∧ reduces a a' ∧ stored_as d' a').
Proof.
  destruct (apply_inv j r ip now instant ent) as [Hg|Hc]; [by rewrite Hg, guard_db in Hchange|].
  clear Hchange.
  destruct Hc as (signed & c & a & cand & signer & d' & out & Hg & Hadm & Hcom & ->). cbn [fst].
  exists signed, c. split; [apply Hadm|]. split; [apply Hadm|]. cbn [db set_db].
  destruct Hcom as [d a' resp event red nonces e d' out _ Hop _ _ Hs _ _ Happ].
  apply append_inv in Happ as (tip & record & _ & _ & _ & _ & Hd' & _ & Henf).
  unfold enforce in Henf. rewrite Hs in Henf.
  apply fail_if_Ok, orb_false_iff in Henf as [H1%N.ltb_ge H2%N.ltb_ge].
  destruct red; [right|by left]. split; [exact H1|]. split; [exact H2|].
  apply run_reduction in Hop as [Hrev|(Hupd & Hred & Hst)]; [by left|right]. split; [done|].
  exists a, a'. destruct (guard_frame j now instant) as (b & f & last & Hj & _ & _).
  pose proof (adm_authority _ _ _ _ _ _ _ _ Hadm) as Ha. rewrite Hj in Ha.
  apply command_authority_source in Ha. cbn in Ha.
  destruct Ha as [Ha|[Hreg _]]; [|destruct Hupd as (? & ? & Hupd); congruence].
  split; [done|]. split; [done|]. by subst d'.
Qed.

End WitnessFacts.

(** * What a served journal guarantees

    Restart, activation, limits and storage of every journal a service can reach, the
    freshness leases it signs against the floor a client keeps, and the registration
    proof of work. *)


Section Served.
Context `{P : Platform} {S : AuthoritySerde} {W : WitnessSerde} {X : ProtocolSerde}.
Context {L : PlatformLaws P} (Hreceipt : ∀ r : Receipt, serde_round_trip r).

(** ** Restart *)

Lemma known_spaces_size j : sound j → nlen (known_spaces (db j)) ≤ MAX_SPACES.
Proof.
  intros Hj. etrans; [|apply Hj]. unfold nlen. rewrite <-size_dom.
  rewrite <-(size_list_to_set (C := gset string)) by apply NoDup_remove_dups.
  enough (size (list_to_set (C := gset string) (known_spaces (db j)))
          ≤ size (dom (spaces (db j))))%nat by lia.
  apply subseteq_size. intros k [Hk _]%elem_of_list_to_set%(snd_spaces _ Hj).
  by apply elem_of_dom.
Qed.

Lemma sound_materialized j : sound j → verify_materialized (db j) (pin j) = Ok tt.
Proof.
  intros Hj. unfold verify_materialized.
  rewrite fail_if_pass by (apply N.ltb_ge, known_spaces_size, Hj).
  assert (∀ k, k ∈ known_spaces (db j) → space_verifies (db j) (pin j) k) as Hall
    by (intros k Hk; by apply (snd_spaces _ Hj)).
  induction (known_spaces (db j)) as [|k l IH]; [done|]. cbn [try_fold].
  destruct (Hall k) as (id & rc & Hid & Hv); [left|].
  rewrite Hid. cbn. rewrite Hv. apply IH. intros k' Hk'. apply Hall. by right.
Qed.

Lemma set_metadata_same j : sound j → set_metadata (db j) (Some (to_json (pin j))) = db j.
Proof. intros Hj. unfold set_metadata. rewrite <-(snd_metadata _ Hj). by destruct (db j). Qed.

(** C32. Every journal the service can reach opens again with the same database at any later
    time, its startup report names its newest position, and the operator's activation for
    exactly that report succeeds and makes it ready. *)
Theorem journal_reopens j now instant entropy
  (Hj : served j) (Hnow : last_clock j ≤ now) :
  ∃ j', open (db j) (jkey j) (pin j) now instant (Some entropy) = (db j, Ok j') ∧ db j' = db j
  ∧ ∃ su, startup j' = Ok su
    ∧ ∀ now' instant' expires, now ≤ now' ≤ expires → expires ≤ now' + 600000 →
        expires ≤ MAX_INTEGER →
        ∃ j'', activate j' {| at_startup_nonce := su_startup_nonce su;
                              at_expected_position := su_observed_position su;
                              at_public_key := su_public_key su;
                              at_key_generation := su_key_generation su;
                              at_expires_at_ms := expires |} now' instant' = Ok j''
               ∧ (ready j'' now' instant').2 = true.
Proof.
  apply served_sound in Hj; [|done].
  destruct (snd_chain _ Hj) as (tip & t & Htip & Hchain & Ht & _).
  pose proof (snd_pin _ Hj) as Hpin. pose proof Hpin as Hgen.
  unfold pin_validate in Hgen. step Hgen u Hu. step Hgen u1 H1.
  assert ((wp_key_generation (pin j) =? 0) = false) as Hg by (by inv_ok). clear Hgen H1.
  eexists. split; [|split].
  - unfold open. assert (open_allowed (db j) (jkey j) (pin j) = Ok tt) as ->.
    { unfold open_allowed. rewrite Hpin. cbn [lift map_err mbind result_bind].
      rewrite fail_if_pass by (rewrite Hg, bool_decide_eq_true_2 by apply Hj; done).
      rewrite (snd_metadata _ Hj). by rewrite bool_decide_eq_true_2. }
    cbv zeta. rewrite set_metadata_same by done. f_equal. unfold open_verified.
    rewrite Hchain. cbn [mbind result_bind snd]. rewrite fail_if_pass by (apply N.ltb_ge; lia).
    rewrite sound_materialized by done. reflexivity.
  - done.
  - cbn. unfold startup. cbn. rewrite Htip. eexists. split; [reflexivity|]. cbn.
    intros now' instant' expires [Hle1 Hle2] Hle3 Hmax. unfold activate. cbn.
    rewrite fail_if_pass.
    2:{ rewrite !bool_decide_eq_true_2, N.eqb_refl by done.
        by rewrite (proj2 (N.ltb_ge _ _)) by lia. }
    rewrite Htip. cbn. rewrite fail_if_pass.
    2:{ rewrite bool_decide_eq_true_2 by done. rewrite !(proj2 (N.ltb_ge _ _)); [done| |lia].
        unfold saturating_add, u64_max. unfold MAX_INTEGER in Hmax. lia. }
    rewrite sound_materialized by done. eexists. split; [reflexivity|].
    unfold ready, guard. cbn. unfold abs_diff, saturating_sub, cap64.
    rewrite !N.sub_diag. rewrite (proj2 (N.ltb_ge _ _)) by lia.
    rewrite (proj2 (N.ltb_ge now' now')) by lia. done.
Qed.

(** ** Limits *)

(** In every journal the service can reach, no invitation policy was used more often
    than the limit its owner signed. *)
Theorem policy_uses_bounded j id row (Hj : served j) (Hrow : policies (db j) !! id = Some row) :
  ∃ n, policy_limit row = Some n ∧ pl_uses row ≤ n.
Proof. apply served_sound in Hj; [|done]. by apply (snd_policies _ Hj id). Qed.

(** At most four Spaces are registered from one network on one day, at most thirty-two
    on one day from all networks, and at most 128 in all. *)
Theorem registrations_bounded j network day (Hj : served j) :
  default 0 (registration_limits (db j) !! (network, day)) ≤ 4
  ∧ day_total (db j) day ≤ 32 ∧ N.of_nat (size (spaces (db j))) ≤ 128.
Proof.
  apply served_sound in Hj; [|done]. destruct (snd_limits _ Hj) as [Hk Hd].
  split; [|split; [apply Hd|apply Hj]].
  destruct (_ !! _) eqn:Hl; [by eapply Hk|cbn; lia].
Qed.

(** ** Storage *)

Lemma length_by_key {A} (key : A → string) (l : list A) ks m :
  (∀ x, x ∈ l → key x ∈ ks) → (∀ k, nlen (List.filter (λ x, key x === k) l) ≤ m) →
  nlen l ≤ nlen ks * m.
Proof.
  revert l. induction ks as [|k ks IH]; intros l Hin Hm.
  - destruct l as [|x l]; [unfold nlen; cbn; lia|]. specialize (Hin x). set_solver.
  - assert (nlen l = nlen (List.filter (λ x, key x === k) l)
                     + nlen (List.filter (λ x, negb (key x === k)) l)) as ->.
    { unfold nlen. clear. induction l as [|x l IH]; [done|]. cbn.
      destruct (bool_decide _); cbn; lia. }
    assert (nlen (List.filter (λ x, negb (key x === k)) l) ≤ nlen ks * m).
    { apply IH.
      - intros x [Hx Hk]%filter_true. apply negb_true_iff, bool_decide_eq_false in Hk.
        by apply Hin, elem_of_cons in Hx as [|].
      - intros k'. etrans; [|apply (Hm k')]. unfold nlen. clear.
        induction l as [|x l IH]; [done|]. cbn.
        destruct (bool_decide (key x = k)); cbn; destruct (bool_decide (key x = k')); cbn; lia. }
    specialize (Hm k). unfold nlen in *. cbn [length]. lia.
Qed.

(** Every Space stays within 4096 events and 4 MiB, so the whole journal holds at most
    524,288 events and its own limit of a million can never refuse a command. *)
Theorem storage_bounded j space (Hj : served j) :
  us_events (usage (db j) space) ≤ 4096 ∧ us_bytes (usage (db j) space) ≤ 4194304
  ∧ nlen (events (db j)) ≤ 524288 ∧ nlen (events (db j)) < MAX_EVENTS.
Proof.
  apply served_sound in Hj; [|done]. destruct (snd_usage _ Hj space) as [H1 H2].
  split; [exact H1|]. split; [exact H2|].
  enough (nlen (events (db j)) ≤ 524288) by (unfold MAX_EVENTS; lia).
  etrans; [apply (length_by_key ev_space _ (known_spaces (db j)) RESERVED_EVENTS)|].
  - intros e He. apply known_spaces_elem. do 4 right. intros Hnil.
    assert (e ∈ own_events (db j) (ev_space e)) as Hin.
    { unfold own_events. rewrite filter_true. by rewrite bool_decide_eq_true. }
    rewrite Hnil in Hin. by apply not_elem_of_nil in Hin.
  - intros k. by destruct (snd_usage _ Hj k) as [? _].
  - pose proof (known_spaces_size j Hj). unfold MAX_SPACES, RESERVED_EVENTS in *. lia.
Qed.

(** The reservation sum of [reserve_space] when every Space is within its reserve. *)
Lemma reserve_fold d l (Hu : ∀ k, usage_within (usage d k)) : ∀ acc,
  let total := fold_left (λ acc space,
    let u := usage d space in
    (saturating_add acc.1 (N.max (us_events u) RESERVED_EVENTS),
     saturating_add acc.2 (N.max (us_bytes u) RESERVED_BYTES))) l acc in
  total.1 ≤ acc.1 + nlen l * RESERVED_EVENTS ∧ total.2 ≤ acc.2 + nlen l * RESERVED_BYTES.
Proof.
  induction l as [|k l IH]; intros acc; cbn [fold_left]; [unfold nlen; cbn; lia|].
  cbv zeta in IH |- *. edestruct IH as [H1 H2]. destruct (Hu k) as [H3 H4].
  rewrite (N.max_r _ _ H3), (N.max_r _ _ H4) in *.
  split; (etrans; [eassumption|]); cbn [fst snd]; unfold nlen; cbn [length];
    pose proof (saturating_add_le acc.1 RESERVED_EVENTS);
    pose proof (saturating_add_le acc.2 RESERVED_BYTES); lia.
Qed.

(** In every journal the service can reach, a new Space finds room exactly when fewer
    than 128 are registered: the event and byte reservations never refuse it earlier. *)
Theorem reserve_space_exact j (Hj : served j) :
  reserve_space (db j) = Ok tt ↔ N.of_nat (size (spaces (db j))) < 128.
Proof.
  apply served_sound in Hj; [|done]. split.
  - intros H. by apply reserve_space_room in H.
  - intros Hsize. unfold reserve_space.
    assert (nlen (map_to_list (spaces (db j))).*1 = N.of_nat (size (spaces (db j)))) as Hlen
      by (unfold nlen; by rewrite length_fmap, length_map_to_list).
    rewrite fail_if_pass by (rewrite Hlen; apply N.leb_gt, Hsize).
    pose proof (reserve_fold (db j) (map_to_list (spaces (db j))).*1 (snd_usage _ Hj)
                  (RESERVED_EVENTS, RESERVED_BYTES)) as [H1 H2].
    cbn [fst snd] in *. apply fail_if_Ok, orb_false_iff. rewrite Hlen in *.
    unfold MAX_EVENTS, MAX_SPACES, RESERVED_EVENTS, RESERVED_BYTES in *.
    split; apply N.ltb_ge; lia.
Qed.

End Served.

Section Freshness.
Context `{P : Platform} {S : AuthoritySerde} {W : WitnessSerde} {X : ProtocolSerde}.

(** ** Freshness leases *)

(** A lease the client accepts was signed by the pinned witness for exactly this
    request, names a recorded position no older than the one the client retained (and the
    very same record at the same sequence), is in date on the client's clock with at most
    five seconds of skew, and reached it within thirty seconds of the request. *)
Theorem freshness_no_rollback p request encoded requested_at instant now floor f
  (Hv : verify_freshness p request encoded requested_at instant now floor = Ok f) :
  let body := vf_body f in
  (∃ bytes signed key, base64_decode encoded = Some bytes ∧ parse bytes = Ok signed
     ∧ pin_key p = Ok key ∧ verify_signature signed key = Ok tt ∧ decode signed = Ok body)
  ∧ fr_nonce body = hr_nonce request ∧ fr_space_id body = hr_space_id request
  ∧ fr_stream_id body = hr_stream_id request ∧ fr_audience body = wp_url p
  ∧ is_Some (po_record_id (fr_position body)) ∧ 0 < po_sequence (fr_position body)
  ∧ match floor with
    | Some fl => po_sequence fl < po_sequence (fr_position body) ∨ fr_position body = fl
    | None => True
    end
  ∧ now < fr_expires_at_ms body ∧ fr_expires_at_ms body ≤ fr_issued_at_ms body + 30000
  ∧ fr_issued_at_ms body ≤ now + 5000 ∧ instant < requested_at + 30000.
Proof.
  unfold verify_freshness in Hv. step Hv u1 H1. step Hv nn Hn. step Hv u2 H2. step Hv b Hb.
  step Hv signed Hs. step Hv key Hk. step Hv u3 H3. step Hv body Hbody. step Hv u4 H4.
  step Hv u5 H5. apply Ok_inj in Hv. subst f. cbn [vf_body]. destruct u3.
  apply fail_if_Ok, negb_false_iff in H5. unfold freshness_is_valid in H5.
  cbn [vf_body vf_requested_at] in H5.
  apply andb_true_iff in H5 as [[H5%N.ltb_lt _]%andb_true_iff H6%N.ltb_lt].
  split; [exists b, signed, key; by apply ok_or_Ok in Hb|].
  apply fail_if_Ok in H4. unfold behind_floor in H4. inv_ok.
  repeat match goal with H : (_ <=? _) = false |- _ => apply N.leb_gt in H
                       | H : (_ <? _) = false |- _ => apply N.ltb_ge in H
                       | H : (_ =? _) = false |- _ => apply N.eqb_neq in H end.
  repeat (split; [done|]). split; [by apply not_eq_None_Some|]. split; [lia|]. split.
  - destruct floor as [fl|]; [|done]. inv_ok.
    match goal with H : (_ <? _) = false |- _ => apply N.ltb_ge in H end.
    destruct (N.eqb_spec (po_sequence (fr_position body)) (po_sequence fl)); [right|left; lia].
    cbn [andb] in *. inv_ok. destruct (fr_position body), fl; cbn in *. by subst.
  - split; [done|]. split; [lia|]. split; [|lia].
    pose proof (saturating_add_le now 5000). lia.
Qed.

Context {L : PlatformLaws P} (Hreceipt : ∀ r : Receipt, serde_round_trip r).

(** Positions only move forward, and never to another record at the same sequence. *)
Lemma positions_advance j0 j fl tip :
  served j0 → rtc transition j0 j → position (db j0) = Ok fl → position (db j) = Ok tip →
  po_sequence fl < po_sequence tip ∨ tip = fl.
Proof.
  intros H0 Hrun Hfl Htip.
  assert (served j) as Hj.
  { clear Hfl Htip. induction Hrun; [done|]. eauto using served_step. }
  apply served_sound in H0, Hj; [|done..].
  destruct (snd_chain _ H0) as (fl' & _ & Hfl' & _ & _ & Hl0).
  destruct (snd_chain _ Hj) as (tip' & _ & Htip' & _ & _ & Hl).
  assert (fl' = fl) as -> by congruence. assert (tip' = tip) as -> by congruence.
  apply transitions_history, hist_events in Hrun as [l El].
  destruct l as [|e l].
  - right. rewrite app_nil_r in El. unfold position in Hfl, Htip. rewrite El in Htip. congruence.
  - left. rewrite Hl0, Hl, El. unfold nlen. rewrite length_app. cbn. lia.
Qed.

(** A stored Space has an event, so the journal has a position. *)
Lemma load_position d sp st p a tip :
  load d sp st p = Ok a → position d = Ok tip → po_sequence tip = nlen (events d) →
  is_Some (po_record_id tip) ∧ 0 < po_sequence tip.
Proof.
  unfold load. intros H Htip Hlen. step H row Hrow. step H u1 H1. step H u2 H2. step H pr Hpr.
  step H rc Hrc. unfold verify_materialized_space in Hrc. step Hrc e He.
  apply ok_or_Ok in He. unfold last_event in He.
  destruct (events d) as [|e' l _] eqn:Hev using rev_ind; [done|].
  split; [|rewrite Hlen; unfold nlen; rewrite length_app; cbn; lia].
  unfold position in Htip. rewrite Hev, last_snoc in Htip. step Htip rid Hrid.
  apply Ok_inj in Htip. subst tip. by eexists.
Qed.

(** A lease signed by the service is accepted by a client with the same pin that asked
    for it, retains any position it saw in an earlier state of this journal, runs within
    five seconds behind and thirty seconds ahead of the service's clock, and received the
    answer within thirty seconds. *)
Theorem head_lease_accepted j request now instant encoded floor requested_at received client_now
  (Hfresh : ∀ f : Freshness, serde_round_trip f)
  (Hj : served j) (Hok : (engine_head j request now instant).2 = Ok encoded)
  (Hsize : slen encoded ≤ 16384)
  (Hfloor : ∀ fl, floor = Some fl →
     ∃ j0, served j0 ∧ rtc transition j0 j ∧ position (db j0) = Ok fl)
  (Htime : requested_at ≤ received < requested_at + 30000)
  (Hskew : now ≤ client_now + 5000 ∧ client_now < now + 30000) :
  ∃ f, verify_freshness (pin j) request encoded requested_at received client_now floor = Ok f
    ∧ position (db j) = Ok (fr_position (vf_body f))
    ∧ fr_expires_at_ms (vf_body f) = now + 30000.
Proof.
  pose proof (served_sound Hreceipt j Hj) as Hs. unfold engine_head in Hok.
  destruct (guard_frame j now instant) as (a & f & last & Hg & _ & _).
  destruct (guard j now instant) as [j1 g] eqn:Hguard. cbn [fst] in Hg. subst j1. cbn [snd] in Hok.
  step Hok u Hu. assert (now ≤ MAX_INTEGER) as Hnow.
  { subst g. unfold guard in Hguard. destruct (N.ltb_spec MAX_INTEGER now); [|done].
    cbn [orb] in Hguard. congruence. }
  unfold head_response in Hok. step Hok raw Hraw. step Hok au Hau. step Hok h Hh.
  step Hok tip Htip. step Hok expires Hexp. step Hok signed Hsign. apply Ok_inj in Hok.
  cbn [db jkey pin set_clock] in *. apply ok_or_Ok, checked_add_Some in Hexp as [-> _].
  apply lift_Ok in Hsign. pose proof (sign_bounded_Ok _ _ _ _ Hsign) as (_ & _ & Hparse & _ & Hsig).
  pose proof (sign_decode _ _ _ Hsign (Hfresh _)) as Hdec.
  destruct (snd_chain _ Hs) as (tip' & _ & Htip' & _ & _ & Hlen).
  assert (tip' = tip) as -> by congruence.
  destruct (load_position _ _ _ _ _ _ Hau Htip Hlen) as [Hrec Hpos].
  set (body := freshness_body _ _ _ _ _ _) in *.
  exists {| vf_body := body; vf_requested_at := requested_at |}. split; [|by split].
  unfold verify_freshness. rewrite (snd_pin _ Hs). cbn [mbind result_bind].
  unfold hex32 in Hraw. apply ok_or_Ok in Hraw. unfold hex. rewrite Hraw. cbn.
  rewrite fail_if_pass by (apply N.ltb_ge; lia).
  subst encoded. rewrite base64_round_trip. cbn. unfold parse. rewrite Hparse. cbn.
  rewrite (pin_key_of j (snd_pin _ Hs) (snd_key _ Hs)). cbn. rewrite Hsig. cbn.
  rewrite Hdec. cbn. rewrite fail_if_pass.
  - rewrite fail_if_pass; [reflexivity|]. apply negb_false_iff. unfold freshness_is_valid. cbn.
    rewrite !andb_true_iff, !N.ltb_lt, N.leb_le. unfold saturating_sub. lia.
  - rewrite !N.eqb_refl, !bool_decide_eq_true_2 by done. cbn.
    rewrite (proj2 (N.eqb_neq (po_sequence tip) 0)) by lia.
    rewrite bool_decide_eq_false_2 by (by apply not_eq_None_Some). cbn.
    rewrite (proj2 (N.leb_gt (now + 30000) now)), !(proj2 (N.ltb_ge _ _)); try lia.
    + cbn. destruct floor as [fl|]; [|done]. destruct (Hfloor fl eq_refl) as (j0 & H0 & Hrun & Hp0).
      unfold behind_floor. cbn.
      destruct (positions_advance _ _ _ _ H0 Hrun Hp0 Htip) as [Hlt| ->].
      * rewrite (proj2 (N.ltb_ge _ _)), (proj2 (N.eqb_neq _ _)) by lia. done.
      * rewrite N.ltb_irrefl, bool_decide_eq_true_2 by done. cbn. by rewrite andb_false_r.
    + unfold saturating_add, u64_max. unfold MAX_INTEGER in Hnow. lia.
Qed.

End Freshness.

Section Work.
Context `{P : Platform} {S : AuthoritySerde} {W : WitnessSerde} {X : ProtocolSerde}.

(** ** Registration work *)

Lemma search_work_spec prefix k : ∀ fuel n,
  n ≤ k → k ≤ MAX_INTEGER → work_done prefix k = true → (N.to_nat (k - n) < fuel)%nat →
  ∃ m, search_work fuel prefix n = Some (Ok m) ∧ m ≤ k ∧ work_done prefix m = true
    ∧ ∀ i, n ≤ i < m → work_done prefix i = false.
Proof.
  induction fuel as [|fuel IH]; intros n Hn Hk Hw Hf; [lia|]. cbn [search_work].
  rewrite (proj2 (N.ltb_ge _ _)) by lia. destruct (work_done prefix n) eqn:Hd.
  - exists n. repeat split; try done. intros i ?. lia.
  - assert (n ≠ k) by congruence. destruct (IH (n + 1)) as (m & Hm & ? & ? & Hbelow); try lia; [done|].
    exists m. repeat split; try done. intros i Hi. destruct (decide (i = n)) as [->|]; [done|].
    apply Hbelow. lia.
Qed.

Lemma registration_work_prefix_set r n :
  registration_work_prefix (set_work r n) = registration_work_prefix r.
Proof. done. Qed.

(** Whenever some nonce in range solves the work of a request, the solver ends, sets the
    least such nonce, and the witness accepts the request's work; the other fields of the
    request stay as they were. *)
Theorem registration_work_solved r prefix k fuel
  (Hprefix : registration_work_prefix r = Ok prefix) (Hk : k ≤ MAX_INTEGER)
  (Hwork : work_done prefix k = true) (Hfuel : (N.to_nat k < fuel)%nat) :
  ∃ n, solve_registration_work fuel r = Some (Ok (set_work r n))
    ∧ n ≤ k ∧ verify_registration_work (set_work r n) = Ok tt
    ∧ ∀ i, i < n → verify_registration_work (set_work r i) = Err AuthorityError.
Proof.
  destruct (search_work_spec prefix k fuel 0) as (n & Hn & Hle & Hd & Hbelow); try done; try lia.
  exists n. unfold solve_registration_work. rewrite Hprefix, Hn. split; [done|]. split; [done|].
  unfold verify_registration_work. cbn [rq_registration_work set_work ok_or mbind result_bind].
  split; [|intros i Hi]; rewrite registration_work_prefix_set, Hprefix.
  - rewrite fail_if_pass by (apply N.ltb_ge; lia). cbn. by rewrite Hd.
  - rewrite fail_if_pass by (apply N.ltb_ge; lia). cbn. by rewrite Hbelow by lia.
Qed.

End Work.
