(* ===== verification/WitnessWorld.v ===== *)
(** * A concrete witness service

    A service over the concrete platform: it opens on an empty database, is activated,
    registers the Space of [World], registers the owner's invitation, challenges the guest,
    admits it and later removes it. Every step is evaluated through the definitions of the
    engine. *)

From S2P Require Import Prelude Platform Ids Toy Record Chat Identity AuthorityData AuthorityWitness Authority AuthorityProof AuthorityInv World WitnessWire Journal Engine Ledger EngineFacts WitnessInv WitnessFacts.

Module Service.
#[local] Existing Instances Toy.platform Toy.platform_laws.
Import World.

Definition space_id : SpaceId := record_id genesis4.
Definition host_key : string := Toy.pad 32 "host".
Definition host : RegistrationHost :=
  {| rh_host := "https://host/spaces/v1/create"; rh_public_key := display host_key |}.

(** ** Commands *)

Definition command (nonce credential head : string) (issued : N) (o : Operation) : Command :=
  {| cm_v := 1; cm_kind := "witness.command"; cm_nonce := nonce32 nonce;
     cm_audience := wp_url pin; cm_space_id := space_id; cm_stream_id := stream_id;
     cm_credential_id := credential; cm_authority_head := head; cm_issued_at_ms := issued;
     cm_expires_at_ms := issued + 60000; cm_operation := o |}.
Definition guest_text : string := sr_bytes (rec "{1g}" Toy.guest_key).
(** Evidence naming a durable join request. *)
Definition evidence_v2 : WitnessAdmissionEvidenceV2 :=
  {| a2_request := {| jr_policy := sr_bytes (rec "{1p}" device_key);
                      jr_device_request := sr_bytes (rec "{1x}" guest_device);
                      jr_invitation_request := sr_bytes (rec "{1x}" invite_key);
                      jr_contact := sr_bytes (rec "{1t}" guest_device) |};
     a2_challenge := sr_bytes (rec "{1h}" witness_key);
     a2_device_intent := sr_bytes (rec "{1i}" guest_device);
     a2_invitation_intent := sr_bytes (rec "{1i}" invite_key);
     a2_approval := None; a2_admitted_at_ms := 6600 |}.
#[export] Instance command_serde : Serde Command :=
  Toy.table (λ _, "{1ca}")
    [("{1ca}", command "a" (vc_id owner_device) (record_id config4) 1000 Register);
     ("{1cb}", command "b" (vc_id owner_device) (record_id config4) 2000
                 (RegisterInvitation (sr_bytes (rec "{1p}" device_key))));
     ("{1cc}", command "c" (vc_id guest) (record_id config4) 3000
                 (ChallengeOp (rid "{1p}" device_key) guest_text (nonce32 "c")));
     ("{1cd}", command "d" (vc_id guest) (record_id config4) 4000 (Admit guest_text evidence));
     ("{1ce}", command "e" (vc_id owner_device) (record_id config4b) 5000
                 (OwnerUpdate (sr_bytes proposal) []));
     ("{1cf}", command "f" (vc_id guest) (record_id config4b) 6500 (AdmitV2 guest_text evidence_v2))].

(** ** The authority proofs the service stores *)

Definition no_proof : CallAuthorityProof :=
  {| pf_v := 0; pf_checkpoint := None; pf_genesis := ""; pf_credentials := []; pf_configs := [] |}.
Definition authority1 : Authority := (apply_config (from_ok no_authority new4) config4).1.
Definition authority2 : Authority := (apply_config (add_credential authority1 guest) config4b).1.
Definition authority3 : Authority := (apply_config authority2 config4c).1.
Definition proof1 : CallAuthorityProof := from_ok no_proof (call_proof authority1).
Definition proof2 : CallAuthorityProof := from_ok no_proof (call_proof authority2).
Definition proof3 : CallAuthorityProof := from_ok no_proof (call_proof authority3).
#[export] Instance proof_json : JsonText CallAuthorityProof := {|
  to_json p := if length (pf_configs p) =? 1 then "P1"
               else if length (pf_configs p) =? 2 then "P2" else "P3";
  from_json s := if s === "P1" then Some proof1 else if s === "P2" then Some proof2
                 else if s === "P3" then Some proof3 else None |}%nat.

(** ** Receipts, the lease and the hosting ticket *)

Definition event_id (text key : string) : RecordId := rid text key.
Definition receipt (sequence : N) (previous : option RecordId) (request head : RecordId)
    (now : N) (event : string) : Receipt :=
  {| rc_v := 1; rc_kind := "witness.receipt"; rc_audience := wp_url pin; rc_sequence := sequence;
     rc_previous := previous; rc_request_id := request; rc_space_id := space_id;
     rc_authority_head := head; rc_state_digest := state_digest empty_db space_id;
     rc_accepted_at_ms := now; rc_event := event; rc_witness_key_generation := 1 |}.
Definition entry (text : string) : RecordId := rid text witness_key.
#[export] Instance receipt_serde : Serde Receipt :=
  Toy.exact_table
    [("{1ra}", receipt 1 None (rid "{1ca}" device_key) (record_id config4) 1500 "space.registered");
     ("{1rb}", receipt 2 (Some (entry "{1ra}")) (rid "{1cb}" device_key) (record_id config4) 2500
                 "invitation.registered");
     ("{1rc}", receipt 3 (Some (entry "{1rb}")) (rid "{1cc}" guest_device) (record_id config4) 3500
                 "invitation.challenged");
     ("{1rd}", receipt 4 (Some (entry "{1rc}")) (rid "{1cd}" guest_device) (record_id config4b) 5000
                 "device.admitted");
     ("{1re}", receipt 5 (Some (entry "{1rd}")) (rid "{1ce}" device_key) (record_id config4c) 6000
                 "authority.updated")].
Definition lease : Freshness :=
  {| fr_v := 1; fr_kind := "witness.freshness"; fr_audience := wp_url pin;
     fr_nonce := nonce32 "f"; fr_space_id := space_id; fr_stream_id := stream_id;
     fr_authority_head := record_id config4c;
     fr_position := {| po_sequence := 5; po_record_id := Some (entry "{1re}") |};
     fr_issued_at_ms := 7000; fr_expires_at_ms := 37000; fr_witness_key_generation := 1 |}.
#[export] Instance Freshness_eq_dec : EqDecision Freshness.
Proof. solve_decision. Defined.
Definition ticket : RegistrationTicket :=
  {| rt_v := 1; rt_kind := "witness.registration_ticket"; rt_audience := wp_url pin;
     rt_witness_public_key := wp_public_key pin; rt_witness_key_generation := 1;
     rt_host := rh_host host; rt_space_id := space_id; rt_stream_id := stream_id;
     rt_authority_head := record_id config4; rt_creator_identity := owner_id;
     rt_credential_id := vc_id owner_device; rt_issued_at_ms := 1000; rt_expires_at_ms := 9000;
     rt_reservation_id := nonce32 "reservation" |}.
#[export] Instance protocol_serde : ProtocolSerde := {|
  serde_command := command_serde; serde_receipt := receipt_serde;
  serde_noop := Toy.table (λ _, "{1no}") [];
  serde_freshness := Toy.exact_table [("{1fr}", lease)];
  serde_ticket := Toy.table (λ _, "{1ti}") [("{1ti}", ticket)];
  json_response := {| to_json _ := "response"; from_json _ := Some no_response |};
  json_proof := proof_json;
  json_pin := {| to_json p := wp_url p; from_json _ := Some pin |} |}.

(** ** The service, step by step *)

Definition request (text key : string) : Request :=
  {| rq_command := sr_bytes (rec text key); rq_invitation_signature := None; rq_proof := None;
     rq_registration_work := None; rq_registration_ticket := None |}.
Definition register : Request :=
  {| rq_command := sr_bytes (rec "{1ca}" device_key); rq_invitation_signature := None;
     rq_proof := Some proof1; rq_registration_work := Some 0;
     rq_registration_ticket := Some (sr_bytes (rec "{1ti}" host_key)) |}.
Definition challenge : Request :=
  {| rq_command := sr_bytes (rec "{1cc}" guest_device);
     rq_invitation_signature := Some (sr_bytes (rec "{1cc}" invite_key)); rq_proof := None;
     rq_registration_work := None; rq_registration_ticket := None |}.

Definition no_journal : Journal :=
  {| db := empty_db; jkey := ""; Journal.pin := pin; registration_hosts := []; startup_nonce := "";
     active := false; clock_failed := false; last_clock := 0; anchor_wall := 0; monotonic := 0 |}.
Definition entropy : string := Toy.pad 32 "entropy".
Definition ip : IpAddr := V4 "abcd".
Definition opened_journal : result Error Journal :=
  (open empty_db witness_key World.pin 1000 0 (Some entropy)).2.
Definition hosted : result Error Journal :=
  set_registration_hosts (from_ok no_journal opened_journal) [host].
Definition activation : Activation :=
  {| at_startup_nonce := display entropy;
     at_expected_position := {| po_sequence := 0; po_record_id := None |};
     at_public_key := wp_public_key World.pin; at_key_generation := 1; at_expires_at_ms := 2000 |}.
Definition activated : result Error Journal := activate (from_ok no_journal hosted) activation 1000 0.
Definition start : Journal := from_ok no_journal activated.

Definition step1 := apply start register ip 1500 500 None.
Definition step2 := apply step1.1 (request "{1cb}" device_key) ip 2500 1500 None.
Definition step3 := apply step2.1 challenge ip 3500 2500 (Some entropy).
Definition step4 := apply step3.1 (request "{1cd}" guest_device) ip 5000 4000 None.
Definition step5 := apply step4.1 (request "{1ce}" device_key) ip 6000 5000 None.

(** A journal whose Space holds a challenge that a durable request consumed. *)
Definition spent_row : ChallengeRow :=
  {| ch_space := display space_id; ch_policy := display (rid "{1p}" device_key);
     ch_credential := display (vc_id guest); ch_record := ""; ch_expires := 9000;
     ch_intent := Some ("v2:" +:+ display (rid "{1x}" guest_device)) |}.
Definition spent : Journal :=
  set_db step4.1 (set_challenges (db step4.1) (<["spent" := spent_row]> (challenges (db step4.1)))).

End Service.

(** * The service theorems at work

    The theorems about the witness service applied to the concrete service of
    [WitnessWorld], which registers a Space, an invitation and a challenge, admits the
    guest and removes it again. *)


Section ServiceExamples.
#[local] Existing Instances Toy.platform Toy.platform_laws.
Import World Service.

(** ** The hypotheses hold *)

Lemma toy_tag s m v : strict_json s m = Ok v → value_index v "tag" = VString s.
Proof.
  unfold strict_json. intros H. step H u1 H1. step H st Hst. apply ok_or_Ok in H.
  change (json_from_slice s) with (Some (Toy.document s)) in H. cbn [mbind option_bind] in H.
  unfold Toy.document in H. cbn in H.
  destruct (MAX_INTEGER <? Toy.version s); [done|]. by injection H as <-.
Qed.

Lemma toy_not_json m v : strict_json "!" m = Ok v → False.
Proof. unfold strict_json. cbn. rewrite orb_true_r. done. Qed.

Lemma exact_table_round_trip {T} `{EqDecision T} (rows : list (string * T)) :
  NoDup rows.*1 → ∀ t, @serde_round_trip Toy.platform T (Toy.exact_table rows) t.
Proof.
  intros Hnd t v m H. cbn [to_vec from_value Toy.exact_table] in *.
  destruct (find_first (λ r, r.2 === t) rows) as [[s t']|] eqn:Hf; cbn in H;
    [|by apply toy_not_json in H].
  apply find_first_Some in Hf as (Hin & Ht). apply bool_decide_eq_true in Ht. cbn in Ht.
  apply toy_tag in H. rewrite H.
  change (snd <$> find_first (λ r, r.1 === (s, t').1) rows = Some t).
  rewrite (find_first_unique fst) by done. cbn. by rewrite Ht.
Qed.

Lemma receipts : ∀ r : Receipt, @serde_round_trip Toy.platform Receipt (@serde_receipt protocol_serde) r.
Proof. apply exact_table_round_trip. apply any_repeat_false. vm_compute. reflexivity. Qed.
Lemma leases : ∀ f : Freshness, @serde_round_trip Toy.platform Freshness (@serde_freshness protocol_serde) f.
Proof. apply exact_table_round_trip. apply any_repeat_false. vm_compute. reflexivity. Qed.

Lemma opened_Ok : opened_journal = Ok (from_ok no_journal opened_journal).
Proof. vm_compute. reflexivity. Qed.
Lemma hosted_Ok : set_registration_hosts (from_ok no_journal opened_journal) [host]
  = Ok (from_ok no_journal hosted).
Proof. vm_compute. reflexivity. Qed.
Lemma activated_Ok : activate (from_ok no_journal hosted) activation 1000 0 = Ok start.
Proof. vm_compute. reflexivity. Qed.

Lemma start_served : served start.
Proof.
  eapply served_step; [|eapply tr_activate; exact activated_Ok].
  eapply served_step; [|eapply tr_hosts; exact hosted_Ok].
  eapply served_open. exact opened_Ok.
Qed.
Lemma step2_from_1 : rtc transition step1.1 step2.1.
Proof. apply rtc_once. apply tr_apply. Qed.
Lemma step5_from_2 : rtc transition step2.1 step5.1.
Proof.
  refine (rtc_l _ _ step3.1 _ (tr_apply step2.1 challenge ip 3500 2500 (Some entropy)) _).
  refine (rtc_l _ _ step4.1 _ (tr_apply step3.1 (request "{1cd}" guest_device) ip 5000 4000 None) _).
  exact (rtc_once _ _ (tr_apply step4.1 (request "{1ce}" device_key) ip 6000 5000 None)).
Qed.
Lemma step2_served : served step2.1.
Proof. eapply served_step, tr_apply. eapply served_step, tr_apply. exact start_served. Qed.
Lemma step5_served : served step5.1.
Proof. do 3 (eapply served_step; [|apply tr_apply]). exact step2_served. Qed.

(** ** The theorems *)

(** The invitation registered in the second step is still there, used once, after the
    fifth. *)
Lemma history_only_grows_witness : history_le (db step2.1) (db step5.1).
Proof. exact (history_only_grows _ _ step5_from_2). Defined.

Lemma apply_refines_ledger_witness :
  db step4.1 = db step3.1
  ∨ ∃ signed c d row out,
      jdecode (rq_command (request "{1cd}" guest_device)) = Ok signed ∧ decode signed = Ok c
      ∧ ledger_run (display (cm_space_id c)) (db step3.1) d
      ∧ db step4.1 = set_events d (events (db step3.1) ++ [row])
      ∧ ev_space row = display (cm_space_id c)
      ∧ ev_request_id row = display (record_id signed) ∧ step4.2 = Ok out.
Proof. exact (apply_refines_ledger step3.1 (request "{1cd}" guest_device) ip 5000 4000 None). Defined.

Lemma apply_isolates_spaces_witness :
  same_space (db start) (db step1.1) (display (Toy.pad 32 "other")).
Proof.
  refine (proj1 (apply_isolates_spaces start register ip 1500 500 None (Toy.pad 32 "other") _)).
  intros signed c Hs Hc.
  assert (Hd : jdecode (rq_command register) = Ok (rec "{1ca}" device_key))
    by (vm_compute; reflexivity).
  rewrite Hs in Hd. apply Ok_inj in Hd. rewrite Hd in Hc.
  assert (c = command "a" (vc_id owner_device) (record_id config4) 1000 Register) as ->
    by (apply (@Ok_inj RecordError); rewrite <-Hc; vm_compute; reflexivity).
  vm_compute. intros Heq. discriminate Heq.
Defined.

(** The registration sent a second time. *)
Lemma request_commits_once_witness : db (apply step5.1 register ip 7000 6000 None).1 = db step5.1.
Proof.
  refine (request_commits_once step2.1 step5.1 register (rec "{1ca}" device_key)
            (from_option id {| ev_sequence := 0; ev_record_id := ""; ev_receipt := "";
               ev_request_id := ""; ev_response := ""; ev_space := "" |} (events (db step2.1) !! 0%nat))
            ip 7000 6000 None step5_from_2 _ _ _).
  - vm_compute. reflexivity.
  - apply (list_elem_of_lookup_2 _ 0). vm_compute. reflexivity.
  - vm_compute. reflexivity.
Defined.

Lemma commit_authorized_witness :
  ∃ signed c a signer, jdecode (rq_command register) = Ok signed ∧ decode (T := Command) signed = Ok c
    ∧ verify_signature signed (vc_key signer) = Ok tt ∧ space a = cm_space_id c.
Proof.
  destruct (commit_authorized start register ip 1500 500 None) as
    (signed & c & a & signer & H1 & H2 & H3 & _ & _ & _ & _ & _ & H4 & _).
  - intros Heq. apply (f_equal (λ d, length (events d))) in Heq. vm_compute in Heq. discriminate Heq.
  - exists signed, c, a, signer. split; [exact H1|]. split; [exact H2|]. split; [exact H3|exact H4].
Defined.

(** The wall clock falls back from 6000 to 5999. *)
Lemma clock_failure_seals_witness :
  (apply step5.1 register ip 5999 6000 None).2 = Err RecoveryRequired.
Proof.
  refine (proj1 (clock_failure_seals step5.1 5999 6000 _ _ _ register ip None)).
  - vm_compute. reflexivity.
  - vm_compute. discriminate.
  - left. vm_compute. reflexivity.
Defined.

(** The removed guest tries its admission again. *)
Lemma retired_needs_readmission_witness :
  db (apply step5.1 (request "{1cd}" guest_device) ip 6500 5500 None).1 = db step5.1.
Proof.
  refine (retired_needs_readmission step5.1 step5.1 (request "{1cd}" guest_device) ip 6500 5500 None
    (rec "{1cd}" guest_device)
    (command "d" (vc_id guest) (record_id config4) 4000 (Admit guest_text evidence))
    guest_text guest (display (vc_id guest)) (display guest_id) (rtc_refl _ _) _ _ _ eq_refl eq_refl _ _ _).
  - vm_compute. reflexivity.
  - vm_compute. reflexivity.
  - vm_compute. reflexivity.
  - vm_compute. reflexivity.
  - left. reflexivity.
  - intros (text & _ & _ & H & _). discriminate H.
Defined.

Lemma durable_request_spent_once_witness :
  db (apply spent (request "{1cf}" guest_device) ip 6600 5600 None).1 = db spent.
Proof.
  refine (durable_request_spent_once spent spent (request "{1cf}" guest_device) ip 6600 5600 None
    (rec "{1cf}" guest_device)
    (command "f" (vc_id guest) (record_id config4b) 6500 (AdmitV2 guest_text evidence_v2))
    (sr_bytes (rec "{1x}" guest_device)) (rec "{1x}" guest_device) "spent" spent_row
    (rtc_refl _ _) _ eq_refl eq_refl _ _ eq_refl _).
  - vm_compute. reflexivity.
  - vm_compute. reflexivity.
  - vm_compute. reflexivity.
  - vm_compute. reflexivity.
Defined.

(** The removal of the guest is a reduction, the registration is not. *)
Lemma reserve_for_reductions_witness :
  ∃ signed c, jdecode (rq_command (request "{1ce}" device_key)) = Ok signed
    ∧ decode (T := Command) signed = Ok c
    ∧ us_events (usage (db step5.1) (display (cm_space_id c))) ≤ 4096.
Proof.
  destruct (reserve_for_reductions step4.1 (request "{1ce}" device_key) ip 6000 5000 None)
    as (signed & c & H1 & H2 & H).
  - intros Heq. apply (f_equal (λ d, length (events d))) in Heq. vm_compute in Heq. discriminate Heq.
  - exists signed, c. split; [exact H1|]. split; [exact H2|]. cbv zeta in H.
    destruct H as [[H _]|[H _]]; [exact (N.le_trans _ 3072 4096 H ltac:(discriminate))|exact H].
Defined.

Lemma journal_reopens_witness :
  ∃ j', open (db step5.1) (jkey step5.1) (Journal.pin step5.1) 9000 0 (Some entropy)
          = (db step5.1, Ok j')
        ∧ db j' = db step5.1.
Proof.
  destruct (journal_reopens receipts step5.1 9000 0 entropy step5_served) as (j' & H1 & H2 & _).
  - vm_compute. discriminate.
  - exists j'. split; [exact H1|exact H2].
Defined.

Lemma policy_uses_bounded_witness :
  ∃ row n, policies (db step5.1) !! display (rid "{1p}" device_key) = Some row
           ∧ pl_uses row = 1 ∧ policy_limit row = Some n ∧ pl_uses row ≤ n.
Proof.
  destruct (policies (db step5.1) !! display (rid "{1p}" device_key)) as [row|] eqn:Hrow;
    [|vm_compute in Hrow; discriminate Hrow].
  destruct (policy_uses_bounded receipts step5.1 _ row step5_served Hrow) as (n & H1 & H2).
  exists row, n. split; [reflexivity|]. split; [|split; [exact H1|exact H2]].
  vm_compute in Hrow. injection Hrow as <-. reflexivity.
Defined.

Lemma registrations_bounded_witness :
  day_total (db step5.1) 0 = 1 ∧ day_total (db step5.1) 0 ≤ 32.
Proof.
  split; [vm_compute; reflexivity|].
  exact (proj1 (proj2 (registrations_bounded receipts step5.1 "" 0 step5_served))).
Defined.

Lemma storage_bounded_witness :
  us_events (usage (db step5.1) (display space_id)) = 5
  ∧ us_events (usage (db step5.1) (display space_id)) ≤ 4096.
Proof.
  split; [vm_compute; reflexivity|].
  exact (proj1 (storage_bounded receipts step5.1 (display space_id) step5_served)).
Defined.

Lemma reserve_space_exact_witness : reserve_space (db step5.1) = Ok tt.
Proof.
  apply (reserve_space_exact receipts step5.1 step5_served). vm_compute. reflexivity.
Defined.

(** ** Freshness *)

Definition head_request : HeadRequest :=
  {| hr_space_id := space_id; hr_stream_id := stream_id; hr_nonce := nonce32 "f" |}.
Definition leased : string := sr_bytes (rec "{1fr}" witness_key).
Definition floor : Position := from_ok {| po_sequence := 0; po_record_id := None |} (position (db step2.1)).

Lemma leased_verifies :
  verify_freshness World.pin head_request leased 100 200 8000 (Some floor)
    = Ok {| vf_body := lease; vf_requested_at := 100 |}.
Proof. vm_compute. reflexivity. Qed.

Lemma freshness_no_rollback_witness :
  po_sequence floor = 2 ∧ (po_sequence floor < po_sequence (fr_position lease) ∨ fr_position lease = floor).
Proof.
  split; [vm_compute; reflexivity|].
  pose proof (freshness_no_rollback _ _ _ _ _ _ _ _ leased_verifies) as H. cbv zeta in H.
  exact (proj1 (proj2 (proj2 (proj2 (proj2 (proj2 (proj2 (proj2 H)))))))).
Defined.

Lemma head_lease_accepted_witness :
  ∃ f, verify_freshness World.pin head_request leased 100 200 8000 (Some floor) = Ok f
       ∧ fr_expires_at_ms (vf_body f) = 37000.
Proof.
  destruct (head_lease_accepted receipts step5.1 head_request 7000 6000 leased (Some floor) 100 200 8000
              leases step5_served) as (f & H1 & _ & H2).
  - vm_compute. reflexivity.
  - vm_compute. discriminate.
  - intros fl Hfl. pose proof (inj Some _ _ Hfl) as <-. exists step2.1.
    split; [exact step2_served|]. split; [exact step5_from_2|]. vm_compute. reflexivity.
  - split; [vm_compute; discriminate|vm_compute; reflexivity].
  - split; [vm_compute; discriminate|vm_compute; reflexivity].
  - exists f. split; [exact H1|exact H2].
Defined.

Lemma registration_work_solved_witness :
  ∃ n, n ≤ 3 ∧ verify_registration_work (set_work register n) = Ok tt.
Proof.
  destruct (registration_work_solved register (from_ok "" (registration_work_prefix register)) 3 10)
    as (n & _ & H1 & H2 & _).
  - vm_compute. reflexivity.
  - vm_compute. discriminate.
  - vm_compute. reflexivity.
  - vm_compute. repeat constructor.
  - exists n. split; [exact H1|exact H2].
Defined.

End ServiceExamples.
