(* ===== verification/CallWire.v ===== *)
(** * Call control records (crates/elo-core/src/calls.rs, calls/delegation.rs)

    The signed commands a member's device sends to the call service, who may send them, and
    the short-lived delegations that let a call-only key speak for a device. *)

From S2P Require Import Prelude Platform Ids Record Chat Identity AuthorityData.

Definition COMMAND_TTL : N := 60.
Definition RING_TTL : N := 60.
Definition MAX_SIGNAL_BYTES : N := 64 * 1024.

Record CallScope := { cs_space_id : SpaceId; cs_stream_id : StreamId }.
#[global] Instance CallScope_eq_dec : EqDecision CallScope.
Proof. solve_decision. Defined.

Inductive CallKind := Direct | Group.
#[global] Instance CallKind_eq_dec : EqDecision CallKind.
Proof. solve_decision. Defined.

Inductive InitialMedia := Audio | Video.
#[global] Instance InitialMedia_eq_dec : EqDecision InitialMedia.
Proof. solve_decision. Defined.

Record MediaState := { audio_muted : bool; video_published : bool; screen_published : bool }.
#[global] Instance MediaState_eq_dec : EqDecision MediaState.
Proof. solve_decision. Defined.

Inductive Operation :=
| Subscribe
| Start (kind : CallKind) (initial_media : InitialMedia)
| Join (call_id : string) (invitation_id : option string)
| Leave (call_id : string)
| Decline (call_id invitation_id : string)
| Cancel (call_id : string)
| End (call_id : string)
| Invite (call_id : string) (to : IdentityId)
| Heartbeat (call_id : string)
| ConnectMedia (call_id : string)
| Media (call_id : string) (state : MediaState)
| SignalOp (call_id : string) (epoch : N) (to : RecordId) (ciphertext : string).
#[global] Instance Operation_eq_dec : EqDecision Operation.
Proof. solve_decision. Defined.

(** [Operation::call_id] *)
Definition operation_call_id (o : Operation) : option string :=
  match o with
  | Subscribe | Start _ _ => None
  | Join id _ | Leave id | Decline id _ | Cancel id | End id | Invite id _
  | Heartbeat id | ConnectMedia id | Media id _ | SignalOp id _ _ _ => Some id
  end.

Definition is_start (o : Operation) : bool := match o with Start _ _ => true | _ => false end.
Definition is_join (o : Operation) : bool := match o with Join _ _ => true | _ => false end.

Record Command := {
  cc_v : N; cc_kind : string; cc_audience : string; cc_hosting_space_id : SpaceId;
  cc_scope : CallScope; cc_config_id : RecordId; cc_credential_id : RecordId;
  cc_nonce : string; cc_issued_at : N; cc_expires_at : N; cc_operation : Operation;
}.
#[global] Instance Command_eq_dec : EqDecision Command.
Proof. solve_decision. Defined.

Definition MAX_DELEGATION_TTL : N := 24 * 60 * 60.
Definition MAX_CERTIFICATE : N := 8192.
Definition MAX_SECRET : N := 16 * 1024.

Record Delegation := {
  dl_v : N; dl_kind : string; dl_audience : string; dl_hosting_space_id : SpaceId;
  dl_scope : CallScope; dl_config_id : RecordId; dl_issuer_credential : RecordId;
  dl_signing_public_key : string; dl_age_recipient : string;
  dl_issued_at : N; dl_expires_at : N;
}.
#[global] Instance Delegation_eq_dec : EqDecision Delegation.
Proof. solve_decision. Defined.

Record VerifiedDelegation := {
  vd_body : Delegation; vd_certificate : SignedRecord; vd_key : string; vd_recipient : string;
}.

(** The exported bundle of a delegate's keys. *)
Record Secret := {
  se_v : N; se_certificate : string; se_signing_key : string; se_age_identity : string;
}.

(** A delegate in memory: its signing seed and its age identity in text form. *)
Record CallDelegate := {
  cd_signing : string; cd_age : string; cd_certificate : SignedRecord; cd_body : Delegation;
}.

Class CallSerde := {
  serde_call_command :: Serde Command;
  serde_delegation :: Serde Delegation;
}.

(** age's x25519 identities: parsing one from text, which yields its canonical text, and
    the recipient that belongs to it. *)
Class AgeIdentities := {
  age_identity_parse : string → option string;
  age_to_public : string → string;
}.

Section Calls.
Context `{P : Platform} {S : AuthoritySerde} {C : CallSerde}.

Definition signal_ok (epoch : N) (ciphertext : string) : result RecordError unit :=
  _ ← fail_if ((epoch =? 0) || (MAX_SIGNAL_BYTES * 2 <? slen ciphertext)) Framing;
  bytes ← ok_or (base64_decode ciphertext) Json;
  fail_if ((bytes === "") || (MAX_SIGNAL_BYTES + 4096 <? slen bytes)) Framing.

(** [Operation::validate] *)
Definition operation_validate (o : Operation) : result RecordError unit :=
  _ ← match operation_call_id o with
      | Some id => _ ← hex 16 id; Ok tt
      | None => Ok tt
      end;
  _ ← match o with
      | Decline _ invitation_id | Join _ (Some invitation_id) => _ ← hex 16 invitation_id; Ok tt
      | _ => Ok tt
      end;
  match o with
  | SignalOp _ epoch _ ciphertext => signal_ok epoch ciphertext
  | _ => Ok tt
  end.

Definition check_time (issued expires now : N) : result RecordError unit :=
  fail_if ((saturating_add now 15 <? issued)
           || (expires <=? now)
           || (expires <=? issued)
           || (saturating_add issued COMMAND_TTL <? expires)) AuthorityError.

Definition admits_device (device : VerifiedCredential) (id : RecordId) (m : Member) : bool :=
  (m_identity_id m === vc_identity device)
  && contains (m_credential_ids m) id
  && has_capability m Post
  && has_capability m Read.

Definition require_member (a : Authority) (id : RecordId) : result RecordError IdentityId :=
  _ ← fail_if (forked a) AuthorityError;
  h ← head_config a;
  device ← credential a id;
  _ ← fail_if (negb (existsb (admits_device device id) (sc_members h))) AuthorityError;
  mret (vc_identity device).

Definition scope_of (a : Authority) : CallScope :=
  {| cs_space_id := space a; cs_stream_id := stream a |}.

(** The session is its credential and signing key; [entropy] feeds [random_hex::<16>]. *)
Definition sign_command (a : Authority) (own : VerifiedCredential) (key : string)
    (hosting : SpaceId) (aud : string) (o : Operation) (now : N) (entropy : option string)
    : result RecordError SignedRecord :=
  _ ← require_member a (vc_id own);
  _ ← operation_validate o;
  _ ← fail_if ((aud === "") || (2048 <? slen aud) || existsb is_control (chars aud))
        AuthorityError;
  id ← ok_or (head a) AuthorityError;
  nonce ← random_hex entropy;
  sign (to_vec
    {| cc_v := 1; cc_kind := "call.command"; cc_audience := aud; cc_hosting_space_id := hosting;
       cc_scope := scope_of a; cc_config_id := id; cc_credential_id := vc_id own;
       cc_nonce := nonce; cc_issued_at := now; cc_expires_at := saturating_add now COMMAND_TTL;
       cc_operation := o |}) key.

Definition verify_command_authorship (cred : VerifiedCredential) (signed : SignedRecord)
    (aud : string) (now : N) : result RecordError Command :=
  command ← decode signed;
  _ ← fail_if (negb (cc_v command =? 1)
               || (cc_kind command =/= "call.command")
               || (cc_audience command =/= aud)
               || (cc_credential_id command =/= vc_id cred)) AuthorityError;
  _ ← hex 16 (cc_nonce command);
  _ ← check_time (cc_issued_at command) (cc_expires_at command) now;
  _ ← verify_signature signed (vc_key cred);
  _ ← operation_validate (cc_operation command);
  mret command.

(** A signal's recipient must itself be a member. *)
Definition recipient_ok (a : Authority) (o : Operation) : result RecordError unit :=
  match o with
  | SignalOp _ _ to _ => _ ← require_member a to; Ok tt
  | _ => Ok tt
  end.

Definition verify_command (a : Authority) (signed : SignedRecord) (aud : string) (now : N)
    : result RecordError Command :=
  command ← decode signed;
  _ ← fail_if (negb (cc_v command =? 1)
               || (cc_kind command =/= "call.command")
               || (cc_audience command =/= aud)
               || (cs_space_id (cc_scope command) =/= space a)
               || (cs_stream_id (cc_scope command) =/= stream a)
               || (Some (cc_config_id command) =/= head a)) AuthorityError;
  _ ← hex 16 (cc_nonce command);
  _ ← check_time (cc_issued_at command) (cc_expires_at command) now;
  _ ← require_member a (cc_credential_id command);
  device ← credential a (cc_credential_id command);
  _ ← verify_signature signed (vc_key device);
  _ ← operation_validate (cc_operation command);
  _ ← recipient_ok a (cc_operation command);
  mret command.

End Calls.

(** ** Delegations (calls/delegation.rs) *)

Module Delegated.
Section Delegated.
Context `{P : Platform} {S : AuthoritySerde} {C : CallSerde}.

Definition verify_authorship (cred : VerifiedCredential) (certificate : SignedRecord)
    (aud : string) (now : N) : result RecordError VerifiedDelegation :=
  _ ← fail_if (MAX_CERTIFICATE <? slen (sr_bytes certificate)) Framing;
  body ← decode (T := Delegation) certificate;
  _ ← fail_if (negb (dl_v body =? 1)
               || (dl_kind body =/= "call.delegation")
               || (dl_audience body =/= aud)
               || (dl_issuer_credential body =/= vc_id cred)
               || (saturating_add now 15 <? dl_issued_at body)
               || (dl_expires_at body <=? now)
               || (dl_expires_at body <=? dl_issued_at body)
               || (saturating_add (dl_issued_at body) MAX_DELEGATION_TTL <? dl_expires_at body))
        AuthorityError;
  _ ← verify_signature certificate (vc_key cred);
  raw ← hex 32 (dl_signing_public_key body);
  key ← ok_or (vk_from_bytes raw) Signature;
  recipient ← ok_or (age_recipient_parse (dl_age_recipient body)) Json;
  mret {| vd_body := body; vd_certificate := certificate; vd_key := key;
          vd_recipient := recipient |}.

Definition verify (a : Authority) (certificate : SignedRecord) (hosting : SpaceId)
    (aud : string) (now : N) : result RecordError VerifiedDelegation :=
  body ← decode (T := Delegation) certificate;
  _ ← require_member a (dl_issuer_credential body);
  device ← credential a (dl_issuer_credential body);
  verified ← verify_authorship device certificate aud now;
  _ ← fail_if ((dl_hosting_space_id (vd_body verified) =/= hosting)
               || (cs_space_id (dl_scope (vd_body verified)) =/= space a)
               || (cs_stream_id (dl_scope (vd_body verified)) =/= stream a)
               || (Some (dl_config_id (vd_body verified)) =/= head a)) AuthorityError;
  mret verified.

Definition decode_certificate (encoded : string) : result RecordError SignedRecord :=
  _ ← fail_if (MAX_CERTIFICATE * 2 <? slen encoded) Framing;
  bytes ← ok_or (base64_decode encoded) Json;
  _ ← fail_if (MAX_CERTIFICATE <? slen bytes) Framing;
  parse bytes.

(** The command a delegate's key signed must repeat its certificate. *)
Definition verify_command_authorship (cred : VerifiedCredential)
    (command certificate : SignedRecord) (aud : string) (now : N)
    : result RecordError Command :=
  verified ← verify_authorship cred certificate aud now;
  body ← decode (T := Command) command;
  _ ← fail_if (negb (cc_v body =? 1)
               || (cc_kind body =/= "call.command")
               || (cc_audience body =/= aud)
               || (cc_credential_id body =/= dl_issuer_credential (vd_body verified))
               || (cc_hosting_space_id body =/= dl_hosting_space_id (vd_body verified))
               || (cc_scope body =/= dl_scope (vd_body verified))
               || (cc_config_id body =/= dl_config_id (vd_body verified))
               || (dl_expires_at (vd_body verified) <? cc_expires_at body)
               || is_start (cc_operation body)) AuthorityError;
  _ ← hex 16 (cc_nonce body);
  _ ← check_time (cc_issued_at body) (cc_expires_at body) now;
  _ ← operation_validate (cc_operation body);
  _ ← verify_signature command (vd_key verified);
  mret body.

Definition verify_command (a : Authority) (command certificate : SignedRecord) (aud : string)
    (now : N) : result RecordError Command :=
  unverified ← decode (T := Command) command;
  verified ← verify a certificate (cc_hosting_space_id unverified) aud now;
  device ← credential a (dl_issuer_credential (vd_body verified));
  body ← verify_command_authorship device command certificate aud now;
  _ ← recipient_ok a (cc_operation body);
  mret body.

(** ** The delegate's own side *)

Context {A : AgeIdentities} {J : JsonText Secret}.

(** [signing] is the generated seed, [age] the generated identity. *)
Definition create (a : Authority) (own : VerifiedCredential) (own_key : string)
    (hosting : SpaceId) (aud : string) (now : N) (signing : result RecordError string)
    (age : string) : result RecordError CallDelegate :=
  _ ← require_member a (vc_id own);
  u ← ok_or (url_parse aud) AuthorityError;
  _ ← fail_if ((url_scheme u =/= "https")
               || bool_decide (url_host u = None)
               || (url_username u =/= "")
               || bool_decide (is_Some (url_password u))
               || bool_decide (is_Some (url_query u))
               || bool_decide (is_Some (url_fragment u))
               || (2048 <? slen aud)) AuthorityError;
  signing ← signing;
  id ← ok_or (head a) AuthorityError;
  let body :=
    {| dl_v := 1; dl_kind := "call.delegation"; dl_audience := aud;
       dl_hosting_space_id := hosting; dl_scope := scope_of a; dl_config_id := id;
       dl_issuer_credential := vc_id own;
       dl_signing_public_key := encode_hex (ed25519_verifying_key signing);
       dl_age_recipient := age_to_public age; dl_issued_at := now;
       dl_expires_at := saturating_add now MAX_DELEGATION_TTL |} in
  certificate ← sign (to_vec body) own_key;
  mret {| cd_signing := signing; cd_age := age; cd_certificate := certificate;
          cd_body := body |}.

Definition export (d : CallDelegate) : string :=
  to_json {| se_v := 1; se_certificate := base64_encode (sr_bytes (cd_certificate d));
             se_signing_key := base64_encode (cd_signing d); se_age_identity := cd_age d |}.

(** [CallDelegate::import] *)
Definition import_ (bytes : string) (a : Authority) (hosting : SpaceId) (aud : string) (now : N)
    : result RecordError CallDelegate :=
  _ ← fail_if (MAX_SECRET <? slen bytes) Framing;
  secret ← ok_or (from_json (T := Secret) bytes) Json;
  _ ← fail_if (negb (se_v secret =? 1)) Unsupported;
  certificate ← decode_certificate (se_certificate secret);
  verified ← verify a certificate hosting aud now;
  seed ← ok_or (base64_decode (se_signing_key secret)) Json;
  _ ← fail_if (negb (slen seed =? 32)) Framing;
  age ← ok_or (age_identity_parse (se_age_identity secret)) Json;
  _ ← fail_if ((ed25519_verifying_key seed =/= vd_key verified)
               || (age_to_public age =/= vd_recipient verified)) AuthorityError;
  mret {| cd_signing := seed; cd_age := age; cd_certificate := certificate;
          cd_body := vd_body verified |}.

(** [CallDelegate::sign_command] *)
Definition sign_command (d : CallDelegate) (a : Authority) (o : Operation) (now : N)
    (entropy : option string) : result RecordError SignedRecord :=
  let body := cd_body d in
  _ ← verify a (cd_certificate d) (dl_hosting_space_id body) (dl_audience body) now;
  _ ← fail_if (is_start o) AuthorityError;
  _ ← operation_validate o;
  nonce ← random_hex entropy;
  sign (to_vec
    {| cc_v := 1; cc_kind := "call.command"; cc_audience := dl_audience body;
       cc_hosting_space_id := dl_hosting_space_id body; cc_scope := dl_scope body;
       cc_config_id := dl_config_id body; cc_credential_id := dl_issuer_credential body;
       cc_nonce := nonce; cc_issued_at := now;
       cc_expires_at := N.min (saturating_add now COMMAND_TTL) (dl_expires_at body);
       cc_operation := o |}) (cd_signing d).

End Delegated.
End Delegated.
