(* ===== verification/CallRegistry.v ===== *)
(** * The call registry (crates/elo-call-service/src/registry.rs)

    The state machine of live calls: at most one call per hosted conversation, its
    participants, invitations, media and key epoch, and how it starts, rings, is answered,
    ends and expires. Access and signatures are checked before it by the engine. *)

From S2P Require Import Prelude Platform Ids Record Chat Identity AuthorityData CallWire.

Record Scope := { hosting_space_id : SpaceId; conversation : CallScope }.
#[global] Instance Scope_eq_dec : EqDecision Scope.
Proof. solve_decision. Defined.
#[global] Instance Scope_countable : Countable Scope.
Proof.
  refine (inj_countable'
    (λ s, (hosting_space_id s, cs_space_id (conversation s), cs_stream_id (conversation s)))
    (λ t, {| hosting_space_id := t.1.1;
             conversation := {| cs_space_id := t.1.2; cs_stream_id := t.2 |} |}) _).
  by intros [? []].
Defined.

(** [impl From<&Command> for Scope] *)
Definition command_scope (c : Command) : Scope :=
  {| hosting_space_id := cc_hosting_space_id c; conversation := cc_scope c |}.

(** The derived order: field by field. *)
Definition string_leb (a b : string) : bool := bool_decide (String.le a b).
Definition scope_le (s t : Scope) : Prop :=
  (if hosting_space_id s === hosting_space_id t then
     if cs_space_id (conversation s) === cs_space_id (conversation t) then
       string_leb (cs_stream_id (conversation s)) (cs_stream_id (conversation t))
     else string_leb (cs_space_id (conversation s)) (cs_space_id (conversation t))
   else string_leb (hosting_space_id s) (hosting_space_id t)) = true.
#[global] Instance scope_le_dec : RelDecision scope_le.
Proof. intros s t. unfold scope_le. apply _. Defined.

Record Limits := {
  lm_participants : N; lm_cameras : N; lm_screens : N; lm_participant_ttl : N;
  lm_empty_grace : N; lm_max_duration : N; lm_rooms : N;
}.
(** [Limits::default] *)
Definition default_limits : Limits :=
  {| lm_participants := 25; lm_cameras := 12; lm_screens := 1; lm_participant_ttl := 30;
     lm_empty_grace := 15; lm_max_duration := 12 * 3600; lm_rooms := 1024 |}.

Record Participant := {
  pa_identity_id : IdentityId; pa_credential_id : RecordId; pa_media : MediaState;
  pa_ready : bool; pa_delegation : option string; pa_last_seen : N;
  pa_delegation_expires_at : option N; pa_accepted_invitation_id : option string;
}.

Inductive Phase := Ringing | Active.
#[global] Instance Phase_eq_dec : EqDecision Phase.
Proof. solve_decision. Defined.

Record Invitation := {
  iv_invitation_id : string; iv_invited_by : IdentityId; iv_expires_at : N;
}.

Inductive EndReason :=
| EndCancelled | EndDeclined | EndEnded | EndUnanswered | EndExpired | EndUnauthorized.
#[global] Instance EndReason_eq_dec : EqDecision EndReason.
Proof. solve_decision. Defined.

Record ActiveCall := {
  ac_call_id : string; ac_scope : Scope; ac_kind : CallKind; ac_initial_media : InitialMedia;
  ac_started_at : N; ac_started_by : IdentityId; ac_phase : Phase; ac_ring_expires_at : N;
  ac_answered_at : option N; ac_invitations : gmap IdentityId Invitation; ac_ready : bool;
  ac_ready_at : option N; ac_config_id : RecordId;
  ac_participants : gmap IdentityId Participant; ac_key_epoch : N; ac_empty_since : option N;
}.

Inductive CallError :=
| Unauthorized | Ended | AlreadyJoined | Full | MediaLimit | Unavailable | Invalid.
#[global] Instance CallError_eq_dec : EqDecision CallError.
Proof. solve_decision. Defined.

Inductive Event :=
| PresenceEvent (call : ActiveCall)
| EndedEvent (scope : Scope) (call_id : string) (reason : EndReason)
| SignalEvent (scope : Scope) (call_id : string) (epoch : N) (from to : RecordId)
    (ciphertext : string).

Record Registry := { limits : Limits; rooms : gmap Scope ActiveCall }.

Definition set_rooms (r : Registry) (m : gmap Scope ActiveCall) : Registry :=
  {| limits := limits r; rooms := m |}.

(** ** Assignments to the fields of a call and of a participant *)

Definition set_participants (c : ActiveCall) (m : gmap IdentityId Participant) (epoch : N)
    : ActiveCall :=
  {| ac_call_id := ac_call_id c; ac_scope := ac_scope c; ac_kind := ac_kind c;
     ac_initial_media := ac_initial_media c; ac_started_at := ac_started_at c;
     ac_started_by := ac_started_by c; ac_phase := ac_phase c;
     ac_ring_expires_at := ac_ring_expires_at c; ac_answered_at := ac_answered_at c;
     ac_invitations := ac_invitations c; ac_ready := ac_ready c; ac_ready_at := ac_ready_at c;
     ac_config_id := ac_config_id c; ac_participants := m; ac_key_epoch := epoch;
     ac_empty_since := ac_empty_since c |}.
Definition set_ringing (c : ActiveCall) (phase : Phase) (answered : option N)
    (m : gmap IdentityId Invitation) : ActiveCall :=
  {| ac_call_id := ac_call_id c; ac_scope := ac_scope c; ac_kind := ac_kind c;
     ac_initial_media := ac_initial_media c; ac_started_at := ac_started_at c;
     ac_started_by := ac_started_by c; ac_phase := phase;
     ac_ring_expires_at := ac_ring_expires_at c; ac_answered_at := answered;
     ac_invitations := m; ac_ready := ac_ready c; ac_ready_at := ac_ready_at c;
     ac_config_id := ac_config_id c; ac_participants := ac_participants c;
     ac_key_epoch := ac_key_epoch c; ac_empty_since := ac_empty_since c |}.
Definition set_invitations (c : ActiveCall) (m : gmap IdentityId Invitation) : ActiveCall :=
  set_ringing c (ac_phase c) (ac_answered_at c) m.
Definition set_empty_since (c : ActiveCall) (since : option N) : ActiveCall :=
  {| ac_call_id := ac_call_id c; ac_scope := ac_scope c; ac_kind := ac_kind c;
     ac_initial_media := ac_initial_media c; ac_started_at := ac_started_at c;
     ac_started_by := ac_started_by c; ac_phase := ac_phase c;
     ac_ring_expires_at := ac_ring_expires_at c; ac_answered_at := ac_answered_at c;
     ac_invitations := ac_invitations c; ac_ready := ac_ready c; ac_ready_at := ac_ready_at c;
     ac_config_id := ac_config_id c; ac_participants := ac_participants c;
     ac_key_epoch := ac_key_epoch c; ac_empty_since := since |}.
Definition set_ready (c : ActiveCall) (ready : bool) (ready_at : option N) : ActiveCall :=
  {| ac_call_id := ac_call_id c; ac_scope := ac_scope c; ac_kind := ac_kind c;
     ac_initial_media := ac_initial_media c; ac_started_at := ac_started_at c;
     ac_started_by := ac_started_by c; ac_phase := ac_phase c;
     ac_ring_expires_at := ac_ring_expires_at c; ac_answered_at := ac_answered_at c;
     ac_invitations := ac_invitations c; ac_ready := ready; ac_ready_at := ready_at;
     ac_config_id := ac_config_id c; ac_participants := ac_participants c;
     ac_key_epoch := ac_key_epoch c; ac_empty_since := ac_empty_since c |}.

Definition set_last_seen (p : Participant) (now : N) : Participant :=
  {| pa_identity_id := pa_identity_id p; pa_credential_id := pa_credential_id p;
     pa_media := pa_media p; pa_ready := pa_ready p; pa_delegation := pa_delegation p;
     pa_last_seen := now; pa_delegation_expires_at := pa_delegation_expires_at p;
     pa_accepted_invitation_id := pa_accepted_invitation_id p |}.
Definition set_accepted (p : Participant) (id : option string) : Participant :=
  {| pa_identity_id := pa_identity_id p; pa_credential_id := pa_credential_id p;
     pa_media := pa_media p; pa_ready := pa_ready p; pa_delegation := pa_delegation p;
     pa_last_seen := pa_last_seen p; pa_delegation_expires_at := pa_delegation_expires_at p;
     pa_accepted_invitation_id := id |}.
Definition set_delegation (p : Participant) (d : option string) (expires : option N)
    : Participant :=
  {| pa_identity_id := pa_identity_id p; pa_credential_id := pa_credential_id p;
     pa_media := pa_media p; pa_ready := pa_ready p; pa_delegation := d;
     pa_last_seen := pa_last_seen p; pa_delegation_expires_at := expires;
     pa_accepted_invitation_id := pa_accepted_invitation_id p |}.
Definition set_media (p : Participant) (m : MediaState) (now : N) : Participant :=
  {| pa_identity_id := pa_identity_id p; pa_credential_id := pa_credential_id p;
     pa_media := m; pa_ready := true; pa_delegation := pa_delegation p;
     pa_last_seen := now; pa_delegation_expires_at := pa_delegation_expires_at p;
     pa_accepted_invitation_id := pa_accepted_invitation_id p |}.

(** ** Construction and lookups *)

Definition new (l : Limits) : result CallError Registry :=
  _ ← fail_if (negb (in_range 2 1000 (lm_participants l))
               || (lm_participants l <? lm_cameras l)
               || (lm_participants l <? lm_screens l)
               || (lm_participant_ttl l <? 10)
               || (lm_empty_grace l =? 0)
               || (lm_max_duration l =? 0)
               || (lm_rooms l =? 0)) Invalid;
  mret {| limits := l; rooms := ∅ |}.

Definition presence (r : Registry) (s : Scope) : option ActiveCall := rooms r !! s.

(** The key and entry of the first participant with this credential. *)
Definition by_credential (c : ActiveCall) (cred : RecordId) : option (IdentityId * Participant) :=
  find_first (λ kp, pa_credential_id kp.2 === cred) (btree_list (ac_participants c)).

Definition ensure_free (r : Registry) (cred : RecordId) (s : Scope) : result CallError unit :=
  fail_if (existsb (λ sr, (sr.1 =/= s)
                          && existsb (λ kp, pa_credential_id kp.2 === cred)
                               (map_to_list (ac_participants sr.2)))
             (map_to_list (rooms r))) AlreadyJoined.

Definition participant (c : ActiveCall) (identity : IdentityId) (cred : RecordId)
    : result CallError Participant :=
  p ← ok_or (ac_participants c !! identity) Unauthorized;
  if pa_credential_id p === cred then Ok p else Err Unauthorized.

Definition end_with_reason (r : Registry) (s : Scope) (reason : EndReason)
    : Registry * option Event :=
  match rooms r !! s with
  | Some room => (set_rooms r (delete s (rooms r)), Some (EndedEvent s (ac_call_id room) reason))
  | None => (r, None)
  end.
Definition end_ (r : Registry) (s : Scope) : Registry * option Event :=
  end_with_reason r s EndUnauthorized.

(** [Ok(vec![self.end_with_reason(scope, reason).ok_or(CallError::Ended)?])] *)
Definition ending (r : Registry) (s : Scope) (reason : EndReason)
    : result CallError (Registry * list Event) :=
  let (r', e) := end_with_reason r s reason in
  e ← ok_or e Ended; mret (r', [e]).

Definition new_participant (identity : IdentityId) (cred : RecordId) (now : N) : Participant :=
  {| pa_identity_id := identity; pa_credential_id := cred;
     pa_media := {| audio_muted := true; video_published := false; screen_published := false |};
     pa_ready := false; pa_delegation := None; pa_last_seen := now;
     pa_delegation_expires_at := None; pa_accepted_invitation_id := None |}.

Definition new_invitation (id : string) (by_ : IdentityId) (now : N) : Invitation :=
  {| iv_invitation_id := id; iv_invited_by := by_;
     iv_expires_at := saturating_add now RING_TTL |}.

Definition with_operation (c : Command) (o : Operation) : Command :=
  {| cc_v := cc_v c; cc_kind := cc_kind c; cc_audience := cc_audience c;
     cc_hosting_space_id := cc_hosting_space_id c; cc_scope := cc_scope c;
     cc_config_id := cc_config_id c; cc_credential_id := cc_credential_id c;
     cc_nonce := cc_nonce c; cc_issued_at := cc_issued_at c; cc_expires_at := cc_expires_at c;
     cc_operation := o |}.

(** ** Commands inside a call

    What a handler leaves of its call: an update announced to everyone, an update nobody is
    told about, an event for one recipient, or the end of the call. Every error is returned
    before the handler's first assignment, so an error leaves the registry as it was. *)

Inductive Outcome :=
| Announce (call : ActiveCall)
| Silent (call : ActiveCall)
| Emit (event : Event)
| Finish (reason : EndReason).

Section Registry.
Context `{P : Platform} {S : AuthoritySerde}.

(** An invitation named by a join must be pending, or be the one already accepted. *)
Definition join_invitation_ok (call : ActiveCall) (identity : IdentityId) (cred : RecordId)
    (now : N) (invitation_id : option string) : result CallError unit :=
  match invitation_id with
  | None => Ok tt
  | Some expected =>
      let pending :=
        match ac_invitations call !! identity with
        | Some i => (iv_invitation_id i === expected) && (now <? iv_expires_at i)
        | None => false
        end in
      let joined :=
        match ac_participants call !! identity with
        | Some p => (pa_credential_id p === cred)
                    && (pa_accepted_invitation_id p === Some expected)
        | None => false
        end in
      fail_if (negb pending && negb joined) Ended
  end.

Definition admit_participant (l : Limits) (call : ActiveCall) (identity : IdentityId)
    (cred : RecordId) (now : N) : result CallError ActiveCall :=
  match ac_participants call !! identity with
  | Some joined =>
      _ ← fail_if (pa_credential_id joined =/= cred) AlreadyJoined;
      mret (set_participants call
              (<[identity := set_last_seen joined now]> (ac_participants call))
              (ac_key_epoch call))
  | None =>
      _ ← fail_if (lm_participants l <=? N.of_nat (size (ac_participants call))) Full;
      mret (set_participants call
              (<[identity := new_participant identity cred now]> (ac_participants call))
              (ac_key_epoch call + 1))
  end.

Definition accept_invitation (call : ActiveCall) (identity : IdentityId)
    (invitation_id : option string) : ActiveCall :=
  match invitation_id with
  | None => call
  | Some _ =>
      set_participants call
        (alter (λ p, set_accepted p invitation_id) identity (ac_participants call))
        (ac_key_epoch call)
  end.

(** The other person's join answers a direct call. *)
Definition answer (call : ActiveCall) (identity : IdentityId) (now : N) : ActiveCall :=
  if (ac_kind call === Direct) && (identity =/= ac_started_by call) then
    set_ringing call Active (Some (default now (ac_answered_at call))) ∅
  else call.

Definition do_join (l : Limits) (call : ActiveCall) (identity : IdentityId) (cred : RecordId)
    (now : N) (invitation_id : option string) : result CallError Outcome :=
  _ ← join_invitation_ok call identity cred now invitation_id;
  call ← admit_participant l call identity cred now;
  let call := accept_invitation call identity invitation_id in
  let call := set_invitations call (delete identity (ac_invitations call)) in
  mret (Announce (set_empty_since (answer call identity now) None)).

Definition do_decline (call : ActiveCall) (identity : IdentityId) (invitation_id : string)
    : result CallError Outcome :=
  _ ← fail_if match ac_invitations call !! identity with
              | Some i => iv_invitation_id i =/= invitation_id
              | None => false
              end Ended;
  if ac_kind call === Direct then
    _ ← fail_if ((ac_phase call =/= Ringing)
                 || (identity === ac_started_by call)
                 || bool_decide (is_Some (ac_participants call !! identity))) Invalid;
    mret (Finish EndDeclined)
  else mret (Announce (set_invitations call (delete identity (ac_invitations call)))).

Definition do_cancel (call : ActiveCall) (identity : IdentityId) (cred : RecordId)
    : result CallError Outcome :=
  _ ← fail_if ((ac_kind call =/= Direct)
               || (ac_phase call =/= Ringing)
               || (identity =/= ac_started_by call)) Invalid;
  _ ← participant call identity cred;
  mret (Finish EndCancelled).

Definition do_end (call : ActiveCall) (identity : IdentityId) (cred : RecordId)
    : result CallError Outcome :=
  _ ← fail_if (ac_kind call =/= Direct) Invalid;
  _ ← participant call identity cred;
  mret (Finish EndEnded).

(** [draw] is what [random_hex] is given. *)
Definition do_invite (a : Authority) (call : ActiveCall) (identity : IdentityId)
    (cred : RecordId) (to : IdentityId) (now : N) (draw : option string)
    : result CallError Outcome :=
  _ ← fail_if ((ac_kind call =/= Group)
               || (to === identity)
               || bool_decide (is_Some (ac_participants call !! to))) Invalid;
  _ ← participant call identity cred;
  h ← map_err (head_config a) Unauthorized;
  m ← ok_or (find_first (λ m, m_identity_id m === to) (sc_members h)) Unauthorized;
  _ ← fail_if (negb (existsb (λ id, is_ok (require_member a id)) (m_credential_ids m)))
        Unauthorized;
  let ringing := match ac_invitations call !! to with
                 | Some i => now <? iv_expires_at i
                 | None => false
                 end in
  if ringing then mret (Announce call)
  else
    id ← map_err (random_hex draw) Unavailable;
    mret (Announce (set_invitations call
            (<[to := new_invitation id identity now]> (ac_invitations call)))).

Definition do_leave (call : ActiveCall) (identity : IdentityId) (cred : RecordId)
    : result CallError Outcome :=
  _ ← participant call identity cred;
  if ac_kind call === Direct then mret (Finish EndEnded)
  else
    let left_ := delete identity (ac_participants call) in
    if left_ === ∅ then mret (Finish EndEnded)
    else mret (Announce (set_participants call left_ (ac_key_epoch call + 1))).

Definition do_heartbeat (call : ActiveCall) (identity : IdentityId) (cred : RecordId) (now : N)
    : result CallError Outcome :=
  p ← participant call identity cred;
  mret (Silent (set_participants call
          (<[identity := set_last_seen p now]> (ac_participants call)) (ac_key_epoch call))).

(** How many others publish what [f] looks at. *)
Definition others_publishing (call : ActiveCall) (identity : IdentityId)
    (f : MediaState → bool) : N :=
  N.of_nat (size (filter (λ kp, pa_identity_id kp.2 ≠ identity ∧ f (pa_media kp.2) = true)
                    (ac_participants call))).

Definition do_media (l : Limits) (call : ActiveCall) (identity : IdentityId) (cred : RecordId)
    (state : MediaState) (now : N) : result CallError Outcome :=
  p ← participant call identity cred;
  _ ← fail_if ((video_published state
                && (lm_cameras l <=? others_publishing call identity video_published))
               || (screen_published state
                   && (lm_screens l <=? others_publishing call identity screen_published)))
        MediaLimit;
  let call := set_participants call
                (<[identity := set_media p state now]> (ac_participants call))
                (ac_key_epoch call) in
  mret (Announce (if (identity === ac_started_by call) && negb (ac_ready call)
                  then set_ready call true (Some now) else call)).

Definition do_signal (call : ActiveCall) (s : Scope) (identity : IdentityId) (cred : RecordId)
    (epoch : N) (to : RecordId) (ciphertext : string) : result CallError Outcome :=
  _ ← participant call identity cred;
  _ ← fail_if (negb (epoch =? ac_key_epoch call)
               || (to === cred)
               || negb (existsb (λ kp, pa_credential_id kp.2 === to)
                          (map_to_list (ac_participants call)))) Unauthorized;
  mret (Emit (SignalEvent s (ac_call_id call) (ac_key_epoch call) cred to ciphertext)).

(** The match on the operation of a command that is neither [Subscribe] nor [Start]. *)
Definition call_operation (l : Limits) (a : Authority) (call : ActiveCall) (s : Scope)
    (identity : IdentityId) (c : Command) (now : N) (draw : option string)
    : result CallError Outcome :=
  let cred := cc_credential_id c in
  match cc_operation c with
  | Join _ invitation_id => do_join l call identity cred now invitation_id
  | Decline _ invitation_id => do_decline call identity invitation_id
  | Cancel _ => do_cancel call identity cred
  | End _ => do_end call identity cred
  | Invite _ to => do_invite a call identity cred to now draw
  | Leave _ => do_leave call identity cred
  | Heartbeat _ | ConnectMedia _ => do_heartbeat call identity cred now
  | Media _ state => do_media l call identity cred state now
  | SignalOp _ epoch to ciphertext => do_signal call s identity cred epoch to ciphertext
  | Subscribe | Start _ _ => Err Invalid
  end.

Definition finish (r : Registry) (s : Scope) (o : Outcome)
    : result CallError (Registry * list Event) :=
  match o with
  | Announce call => mret (set_rooms r (<[s := call]> (rooms r)), [PresenceEvent call])
  | Silent call => mret (set_rooms r (<[s := call]> (rooms r)), [])
  | Emit e => mret (r, [e])
  | Finish reason => ending r s reason
  end.

Definition in_call (r : Registry) (a : Authority) (s : Scope) (identity : IdentityId)
    (c : Command) (now : N) (draw : option string)
    : result CallError (Registry * list Event) :=
  _ ← (if is_join (cc_operation c) then ensure_free r (cc_credential_id c) s else Ok tt);
  call ← ok_or (rooms r !! s) Ended;
  _ ← fail_if (operation_call_id (cc_operation c) =/= Some (ac_call_id call)) Ended;
  _ ← fail_if (ac_config_id call =/= cc_config_id c) Unauthorized;
  o ← call_operation (limits r) a call s identity c now draw;
  finish r s o.

(** ** Starting a call *)

Definition expected_kind (h : StreamConfig) : CallKind :=
  if sc_chat_kind h === Some KDirect then Direct else Group.

(** The invitation of the other member of a direct chat. *)
Definition direct_invitations (h : StreamConfig) (kind : CallKind) (identity : IdentityId)
    (now : N) (draw : option string) : result CallError (gmap IdentityId Invitation) :=
  if kind === Direct then
    m ← ok_or (find_first (λ m, m_identity_id m =/= identity) (sc_members h)) Invalid;
    id ← map_err (random_hex draw) Unavailable;
    mret {[ m_identity_id m := new_invitation id identity now ]}
  else mret ∅.

Definition new_call (s : Scope) (kind : CallKind) (media : InitialMedia)
    (identity : IdentityId) (cfg cred : RecordId) (now : N) (call_id : string)
    (invitations : gmap IdentityId Invitation) : ActiveCall :=
  {| ac_call_id := call_id; ac_scope := s; ac_kind := kind; ac_initial_media := media;
     ac_started_at := now; ac_started_by := identity;
     ac_phase := if kind === Direct then Ringing else Active;
     ac_ring_expires_at := saturating_add now RING_TTL; ac_answered_at := None;
     ac_invitations := invitations; ac_ready := false; ac_ready_at := None;
     ac_config_id := cfg; ac_participants := {[ identity := new_participant identity cred now ]};
     ac_key_epoch := 1; ac_empty_since := None |}.

(** [draws] are the two draws of [random_hex]: the call's identifier and the invitation's. *)
Definition start_new (r : Registry) (h : StreamConfig) (s : Scope) (kind : CallKind)
    (media : InitialMedia) (identity : IdentityId) (c : Command) (now : N)
    (draws : option string * option string) : result CallError (Registry * list Event) :=
  _ ← fail_if (lm_rooms (limits r) <=? N.of_nat (size (rooms r))) Unavailable;
  _ ← ensure_free r (cc_credential_id c) s;
  call_id ← map_err (random_hex draws.1) Unavailable;
  invitations ← direct_invitations h kind identity now draws.2;
  finish r s (Announce (new_call s kind media identity (cc_config_id c) (cc_credential_id c)
                          now call_id invitations)).

(** ** [Registry::apply] *)

Definition admit_command (a : Authority) (c : Command) : result CallError IdentityId :=
  identity ← map_err (require_member a (cc_credential_id c)) Unauthorized;
  _ ← fail_if ((space a =/= cs_space_id (cc_scope c))
               || (stream a =/= cs_stream_id (cc_scope c))
               || (head a =/= Some (cc_config_id c))) Unauthorized;
  mret identity.

(** A direct call nobody answered in time. *)
Definition ring_over (call : ActiveCall) (now : N) : bool :=
  (ac_kind call === Direct) && (ac_phase call === Ringing) && (ac_ring_expires_at call <=? now).

(** The body of [apply]; [again] is its recursive call. *)
Definition apply_step (again : Command → result CallError (Registry * list Event))
    (r : Registry) (a : Authority) (c : Command) (now : N)
    (draws : option string * option string) : result CallError (Registry * list Event) :=
  identity ← admit_command a c;
  let s := command_scope c in
  if match rooms r !! s with Some call => ring_over call now | None => false end then
    ending r s EndUnanswered
  else
    match cc_operation c with
    | Subscribe =>
        mret (r, match rooms r !! s with Some call => [PresenceEvent call] | None => [] end)
    | Start kind media =>
        h ← map_err (head_config a) Unauthorized;
        let expected := expected_kind h in
        _ ← fail_if ((kind =/= expected)
                     || ((expected === Direct) && negb (nlen (sc_members h) =? 2))) Invalid;
        match rooms r !! s with
        | Some call => again (with_operation c (Join (ac_call_id call) None))
        | None => start_new r h s kind media identity c now draws
        end
    | _ => in_call r a s identity c now draws.1
    end.

(** The recursive call carries a [Join], which never recurses: see [apply_unfold]. *)
Definition apply (r : Registry) (a : Authority) (c : Command) (now : N)
    (draws : option string * option string) : result CallError (Registry * list Event) :=
  apply_step (λ join, apply_step (λ _, Err Invalid) r a join now draws) r a c now draws.

(** ** [Registry::apply_with_delegation] *)

(** Operations a device may send itself after its call was adopted by a delegate. *)
Definition own_control (o : Operation) : bool :=
  match o with End _ | Cancel _ | Leave _ | Media _ _ | Invite _ _ => true | _ => false end.
Definition transport_free (o : Operation) : bool :=
  match o with Subscribe | Decline _ _ => true | _ => false end.

Definition delegation_ok (r : Registry) (c : Command) (delegation : option string)
    : result CallError unit :=
  match rooms r !! command_scope c ≫= λ call, by_credential call (cc_credential_id c) with
  | None => Ok tt
  | Some (_, p) =>
      fail_if ((pa_delegation p =/= delegation)
               && negb (transport_free (cc_operation c))
               && negb (bool_decide (delegation = None) && own_control (cc_operation c)))
        AlreadyJoined
  end.

Context {C : CallSerde}.

Definition delegation_expiry (a : Authority) (c : Command) (now : N)
    (delegation : option string) : result CallError (option N) :=
  transpose ((λ encoded,
    signed ← map_err (Delegated.decode_certificate encoded) Unauthorized;
    verified ← map_err (Delegated.verify a signed (cc_hosting_space_id c) (cc_audience c) now)
                 Unauthorized;
    mret (dl_expires_at (vd_body verified))) <$> delegation).

(** The participant of a started or joined call is bound to the delegation that spoke. *)
Definition bind_delegation (r : Registry) (s : Scope) (cred : RecordId)
    (delegation : option string) (expires : option N) : Registry :=
  match rooms r !! s with
  | None => r
  | Some call =>
      match by_credential call cred with
      | None => r
      | Some (who, p) =>
          set_rooms r (<[s := set_participants call
            (<[who := set_delegation p delegation expires]> (ac_participants call))
            (ac_key_epoch call)]> (rooms r))
      end
  end.

(** Presence events are rewritten to the room as it is now. *)
Definition refresh_event (r : Registry) (s : Scope) (e : Event) : Event :=
  match e, rooms r !! s with
  | PresenceEvent _, Some current => PresenceEvent current
  | _, _ => e
  end.

Definition apply_with_delegation (r : Registry) (a : Authority) (c : Command) (now : N)
    (delegation : option string) (draws : option string * option string)
    : result CallError (Registry * list Event) :=
  let s := command_scope c in
  _ ← delegation_ok r c delegation;
  expires ← delegation_expiry a c now delegation;
  applied ← apply r a c now draws;
  if is_start (cc_operation c) || is_join (cc_operation c) then
    let r := bind_delegation applied.1 s (cc_credential_id c) delegation expires in
    mret (r, map (refresh_event r s) applied.2)
  else mret applied.

End Registry.

(** ** Changes of membership *)

Definition option_list {A} (o : option A) : list A :=
  match o with Some x => [x] | None => [] end.

Definition configuration_changed (r : Registry) (s : Scope) (head : RecordId)
    : Registry * list Event :=
  match rooms r !! s with
  | Some room =>
      if ac_config_id room =/= head then
        let (r', e) := end_ r s in (r', option_list e)
      else (r, [])
  | None => (r, [])
  end.

(** Ending the rooms of a list of scopes, one after the other. *)
Fixpoint end_all (r : Registry) (l : list (Scope * EndReason)) : Registry * list Event :=
  match l with
  | [] => (r, [])
  | (s, reason) :: l =>
      let (r, e) := end_with_reason r s reason in
      let (r, es) := end_all r l in (r, option_list e ++ es)
  end.

(** The rooms in key order. *)
Definition entry_le {A} (p q : Scope * A) : Prop := scope_le p.1 q.1.
#[global] Instance entry_le_dec {A} : RelDecision (@entry_le A).
Proof. intros p q. unfold entry_le. apply _. Defined.
Definition scope_list {A} (m : gmap Scope A) : list (Scope * A) :=
  merge_sort entry_le (map_to_list m).
Definition room_list (r : Registry) : list (Scope * ActiveCall) := scope_list (rooms r).

Definition revoke_space (r : Registry) (sp : SpaceId) : Registry * list Event :=
  end_all r ((λ s, (s, EndUnauthorized))
    <$> List.filter (λ s, hosting_space_id s === sp) (room_list r).*1).

Definition revoke_member (r : Registry) (s : Scope) (identity : IdentityId)
    : Registry * list Event :=
  match rooms r !! s with
  | Some room =>
      if bool_decide (is_Some (ac_participants room !! identity)) then
        let (r', e) := end_ r s in (r', option_list e)
      else (r, [])
  | None => (r, [])
  end.

(** ** The clock *)

Definition still_present (l : Limits) (now : N) (p : Participant) : bool :=
  (saturating_sub now (pa_last_seen p) <? lm_participant_ttl l)
  && match pa_delegation_expires_at p with None => true | Some expires => now <? expires end.

(** [room.participants.retain], [room.invitations.retain] and the epoch. *)
Definition prune_room (l : Limits) (now : N) (room : ActiveCall) : ActiveCall :=
  let ps := filter (λ kp, still_present l now kp.2 = true) (ac_participants room) in
  let room' := set_participants room ps
                 (if bool_decide (size ps = size (ac_participants room)) then ac_key_epoch room
                  else ac_key_epoch room + 1) in
  set_invitations room'
    (filter (λ ki, (now <? iv_expires_at ki.2) = true) (ac_invitations room)).

(** One iteration of [tick]: the room as it stays, the reason it ends for, and whether its
    presence is announced. *)
Definition tick_room (l : Limits) (now : N) (room : ActiveCall)
    : ActiveCall * option EndReason * bool :=
  let pruned := prune_room l now room in
  let dropped := negb (bool_decide
                   (size (ac_participants pruned) = size (ac_participants room))) in
  let lapsed := negb (bool_decide
                  (size (ac_invitations pruned) = size (ac_invitations room))) in
  if ring_over pruned now then (pruned, Some EndUnanswered, false)
  else if (ac_kind pruned === Direct) && dropped then (pruned, Some EndExpired, false)
  else
    let pruned := if ac_participants pruned === ∅
                  then set_empty_since pruned (Some (default now (ac_empty_since pruned)))
                  else pruned in
    if (lm_max_duration l <=? saturating_sub now (ac_started_at pruned))
       || match ac_empty_since pruned with
          | Some since => lm_empty_grace l <=? saturating_sub now since
          | None => false
          end
    then (pruned, Some EndExpired, false)
    else (pruned, None, dropped || lapsed).

Definition tick_presence (l : Limits) (now : N) (room : ActiveCall) : option Event :=
  if (tick_room l now room).2 then Some (PresenceEvent (tick_room l now room).1.1) else None.
Definition tick_end (l : Limits) (now : N) (sr : Scope * ActiveCall)
    : option (Scope * EndReason) :=
  (λ reason, (sr.1, reason)) <$> (tick_room l now sr.2).1.2.

Definition tick (r : Registry) (now : N) : Registry * list Event :=
  let l := limits r in
  let ended := omap (tick_end l now) (room_list r) in
  let events := omap (λ sr, tick_presence l now sr.2) (room_list r) in
  let r := set_rooms r ((λ room, (tick_room l now room).1.1) <$> rooms r) in
  let (r, es) := end_all r ended in (r, events ++ es).
