(* ===== verification/CallFacts.v ===== *)
(** * What the call registry guarantees: shared lemmas

    The ways a command can change one call, the invariant of a well-formed registry, and
    what each handler does to a call's roster and key epoch. *)

From S2P Require Import Prelude Platform Ids Record Chat Identity AuthorityData CallWire CallRegistry.

(** The credential of every participant, and what each publishes. *)
Definition roster (c : ActiveCall) : gmap IdentityId RecordId :=
  pa_credential_id <$> ac_participants c.
Definition medias (c : ActiveCall) : gmap IdentityId MediaState :=
  pa_media <$> ac_participants c.
Definition publishing (m : gmap IdentityId MediaState) (f : MediaState → bool) : N :=
  N.of_nat (size (filter (λ km, f km.2 = true) m)).

Lemma disjoint_join {A B} (m : gmap IdentityId A) (k : gmap IdentityId B) id x :
  dom m ## dom k → dom (delete id m) ## dom (<[id := x]> k).
Proof. rewrite dom_delete, dom_insert. set_solver. Qed.

(** ** A well-formed call and registry *)

Record call_wf (l : Limits) (s : Scope) (c : ActiveCall) : Prop := {
  cw_scope : ac_scope c = s;
  cw_keys : ∀ id p, ac_participants c !! id = Some p → pa_identity_id p = id;
  cw_size : N.of_nat (size (roster c)) ≤ lm_participants l;
  cw_cameras : publishing (medias c) video_published ≤ lm_cameras l;
  cw_screens : publishing (medias c) screen_published ≤ lm_screens l;
  cw_disjoint : dom (ac_invitations c) ## dom (roster c);
  cw_epoch : 1 ≤ ac_key_epoch c;
  cw_ready : ac_ready c = true ↔ is_Some (ac_ready_at c);
  cw_group : ac_kind c = Group → ac_phase c = Active ∧ ac_answered_at c = None;
  cw_ringing : ac_kind c = Direct → ac_phase c = Ringing →
    ac_answered_at c = None ∧ dom (roster c) ⊆ {[ac_started_by c]};
  cw_answered : ac_kind c = Direct → ac_phase c = Active →
    ac_invitations c = ∅ ∧ ∃ t, ac_answered_at c = Some t ∧ t < ac_ring_expires_at c;
}.

Definition limits_ok (l : Limits) : Prop := is_ok (new l) = true.

Record registry_wf (r : Registry) : Prop := {
  rw_limits : limits_ok (limits r);
  rw_rooms : N.of_nat (size (rooms r)) ≤ lm_rooms (limits r);
  rw_calls : ∀ s c, rooms r !! s = Some c → call_wf (limits r) s c;
  rw_free : ∀ s t c d id id' cred, rooms r !! s = Some c → rooms r !! t = Some d →
    roster c !! id = Some cred → roster d !! id' = Some cred → s = t;
}.

(** ** What a step may do to a call that goes on *)

Record same_call (c c' : ActiveCall) : Prop := {
  sc_call_id : ac_call_id c' = ac_call_id c;
  sc_scope_ : ac_scope c' = ac_scope c;
  sc_call_kind : ac_kind c' = ac_kind c;
  sc_initial : ac_initial_media c' = ac_initial_media c;
  sc_started : ac_started_at c' = ac_started_at c;
  sc_started_by : ac_started_by c' = ac_started_by c;
  sc_ring : ac_ring_expires_at c' = ac_ring_expires_at c;
  sc_config : ac_config_id c' = ac_config_id c;
}.
#[global] Instance same_call_preorder : PreOrder same_call.
Proof. split; [by split|]. intros x y z [] []. split; congruence. Qed.

Definition is_leave (o : Operation) : bool := match o with Leave _ => true | _ => false end.

(** The roster of a command's call: kept with its epoch, joined by the sender of a join, or
    left by the sender, the last two in a new epoch. *)
Inductive roster_step (op : Operation) (identity : IdentityId) (cred : RecordId) (c c' : ActiveCall) : Prop :=
| roster_keep : roster c' = roster c → ac_key_epoch c' = ac_key_epoch c →
    roster_step op identity cred c c'
| roster_join : is_join op = true → roster c !! identity = None →
    roster c' = <[identity := cred]> (roster c) →
    ac_key_epoch c' = ac_key_epoch c + 1 → roster_step op identity cred c c'
| roster_leave : is_leave op = true → roster c !! identity = Some cred → roster c' = delete identity (roster c) →
    ac_key_epoch c' = ac_key_epoch c + 1 → roster_step op identity cred c c'.

Lemma roster_step_ext op identity cred c c1 c2 :
  roster_step op identity cred c c1 → roster c2 = roster c1 → ac_key_epoch c2 = ac_key_epoch c1 →
  roster_step op identity cred c c2.
Proof.
  intros [] Hr He; [apply roster_keep|apply roster_join|apply roster_leave]; congruence.
Qed.

(** ** Rosters and media under the updates of a participant *)

Lemma publishing_insert m id x f :
  publishing (<[id := x]> m) f ≤ publishing (delete id m) f + (if f x then 1 else 0).
Proof.
  unfold publishing. rewrite <-insert_delete_eq. set (m' := delete id m).
  assert (m' !! id = None) as Hid by apply lookup_delete_eq.
  destruct (f x) eqn:Hf.
  - rewrite map_filter_insert_True by done. rewrite map_size_insert_None; [lia|].
    apply map_lookup_filter_None. by left.
  - rewrite map_filter_insert_False by (cbn; congruence). rewrite delete_id by done. lia.
Qed.

Lemma publishing_subseteq m m' f : m ⊆ m' → publishing m f ≤ publishing m' f.
Proof.
  intros H. unfold publishing.
  pose proof (map_subseteq_size _ _ (map_filter_subseteq_mono (λ km, f km.2 = true) _ _ H)). lia.
Qed.

Lemma others_publishing_spec c id f
  (Hkeys : ∀ id p, ac_participants c !! id = Some p → pa_identity_id p = id) :
  others_publishing c id f = publishing (delete id (medias c)) f.
Proof.
  unfold others_publishing, publishing, medias. f_equal.
  rewrite <-(map_size_fmap pa_media). f_equal. apply map_eq. intros k.
  apply option_eq. intros m.
  rewrite lookup_fmap_Some, map_lookup_filter_Some. cbn.
  setoid_rewrite map_lookup_filter_Some. rewrite lookup_delete_Some, lookup_fmap_Some. cbn.
  split.
  - intros (p & <- & Hp & Hne & Hf). rewrite (Hkeys _ _ Hp) in Hne. naive_solver.
  - intros [[Hne (p & <- & Hp)] Hf]. exists p. rewrite (Hkeys _ _ Hp). naive_solver.
Qed.

Lemma roster_lookup c id p : ac_participants c !! id = Some p →
  roster c !! id = Some (pa_credential_id p).
Proof. intros H. unfold roster. by rewrite lookup_fmap, H. Qed.

Lemma medias_lookup c id p : ac_participants c !! id = Some p →
  medias c !! id = Some (pa_media p).
Proof. intros H. unfold medias. by rewrite lookup_fmap, H. Qed.

(** Replacing a participant by one with the same credential keeps the roster. *)
Lemma roster_same c id p p' epoch : ac_participants c !! id = Some p →
  pa_credential_id p' = pa_credential_id p →
  roster (set_participants c (<[id := p']> (ac_participants c)) epoch) = roster c.
Proof.
  intros Hp Hc. unfold roster. cbn. rewrite fmap_insert, Hc. apply insert_id.
  by apply roster_lookup.
Qed.

Lemma medias_same c id p p' epoch : ac_participants c !! id = Some p →
  pa_media p' = pa_media p →
  medias (set_participants c (<[id := p']> (ac_participants c)) epoch) = medias c.
Proof.
  intros Hp Hc. unfold medias. cbn. rewrite fmap_insert, Hc. apply insert_id.
  by apply medias_lookup.
Qed.

Lemma participant_Ok c id cred p :
  participant c id cred = Ok p ↔ ac_participants c !! id = Some p ∧ pa_credential_id p = cred.
Proof.
  unfold participant. rewrite bind_Ok. setoid_rewrite ok_or_Ok. split.
  - intros (q & Hq & H). case_bool_decide; [|done]. by apply Ok_inj in H as <-.
  - intros [Hp <-]. exists p. split; [done|]. by rewrite bool_decide_eq_true_2.
Qed.

(** A participant replaced by one of the same identity and credential. *)
Lemma call_wf_update l s c id p p' :
  call_wf l s c → ac_participants c !! id = Some p →
  pa_identity_id p' = pa_identity_id p → pa_credential_id p' = pa_credential_id p →
  (∀ f lim, publishing (medias c) f ≤ lim →
     f = video_published ∧ lim = lm_cameras l ∨ f = screen_published ∧ lim = lm_screens l →
     publishing (<[id := pa_media p']> (medias c)) f ≤ lim) →
  call_wf l s (set_participants c (<[id := p']> (ac_participants c)) (ac_key_epoch c)).
Proof.
  intros H Hp Hi Hc Hpub. pose proof (roster_same c id p p' (ac_key_epoch c) Hp Hc) as Hr.
  assert (medias (set_participants c (<[id := p']> (ac_participants c)) (ac_key_epoch c))
          = <[id := pa_media p']> (medias c)) as Hm by (unfold medias; cbn; apply fmap_insert).
  split; rewrite ?Hr, ?Hm; cbn; try apply H.
  - intros id' q. rewrite lookup_insert. case_decide; [intros [= <-]|apply H].
    subst id'. by rewrite Hi, (cw_keys _ _ _ H _ _ Hp).
  - apply Hpub; [apply H|]. by left.
  - apply Hpub; [apply H|]. by right.
Qed.

Section Handlers.
Context `{P : Platform} {S : AuthoritySerde}.
Implicit Types (c call : ActiveCall) (identity : IdentityId) (cred : RecordId).

(** ** Joining *)

Definition muted : MediaState :=
  {| audio_muted := true; video_published := false; screen_published := false |}.

(** The sender is a participant in the same epoch, or becomes one in the next. *)
Definition seated (l : Limits) c identity cred (p : Participant) (epoch : N) : Prop :=
  pa_identity_id p = identity ∧ pa_credential_id p = cred ∧
  ((∃ q, ac_participants c !! identity = Some q ∧ pa_identity_id q = identity
         ∧ pa_credential_id q = cred ∧ pa_media p = pa_media q ∧ epoch = ac_key_epoch c)
   ∨ (ac_participants c !! identity = None ∧ pa_media p = muted ∧ epoch = ac_key_epoch c + 1
      ∧ N.of_nat (size (ac_participants c)) < lm_participants l)).

Lemma do_join_shape l s c identity cred now inv o :
  call_wf l s c → do_join l c identity cred now inv = Ok o →
  ∃ p epoch, seated l c identity cred p epoch
  ∧ o = Announce (set_empty_since (answer
          (set_invitations (set_participants c (<[identity := p]> (ac_participants c)) epoch)
             (delete identity (ac_invitations c))) identity now) None).
Proof.
  intros Hwf H. unfold do_join in H. step H u Hi. step H c1 Ha. apply Ok_inj in H as <-.
  assert (∃ p epoch, seated l c identity cred p epoch
    ∧ c1 = set_participants c (<[identity := p]> (ac_participants c)) epoch) as (p & e & Hp & ->).
  { unfold admit_participant in Ha. destruct (ac_participants c !! identity) as [q|] eqn:Hq.
    - step Ha v Hv. apply Ok_inj in Ha as <-. inv_ok.
      eexists _, _. split; [|done]. pose proof (cw_keys _ _ _ Hwf _ _ Hq).
      split; [done|]. split; [done|]. left. by exists q.
    - step Ha v Hv. apply Ok_inj in Ha as <-. apply fail_if_Ok, N.leb_gt in Hv.
      eexists _, _. split; [|done]. split; [done|]. split; [done|]. by right. }
  destruct inv as [inv|]; [|by exists p, e].
  exists (set_accepted p (Some inv)), e. split; [exact Hp|].
  do 4 f_equal. unfold accept_invitation, set_participants. cbn. f_equal.
  apply map_eq. intros k. rewrite lookup_alter, !lookup_insert.
  repeat case_decide; subst; done.
Qed.

Lemma seated_roster l c op identity cred p epoch :
  is_join op = true → seated l c identity cred p epoch →
  roster_step op identity cred c
    (set_participants c (<[identity := p]> (ac_participants c)) epoch).
Proof.
  intros Hj (Hi & Hc & [(q & Hq & _ & Hqc & _ & ->)|(Hn & _ & -> & _)]).
  - apply roster_keep; [|done]. eapply roster_same; [exact Hq|congruence].
  - apply roster_join; [done| |by unfold roster; cbn; rewrite fmap_insert, Hc|done].
    unfold roster. by rewrite lookup_fmap, Hn.
Qed.

Lemma seated_wf l s c identity cred p epoch now invs :
  call_wf l s c → ring_over c now = false → seated l c identity cred p epoch →
  invs = delete identity (ac_invitations c) →
  call_wf l s (set_empty_since (answer
    (set_invitations (set_participants c (<[identity := p]> (ac_participants c)) epoch) invs)
    identity now) None).
Proof.
  intros H Hring (Hi & Hc & Hseat) ->.
  set (c1 := set_participants c (<[identity := p]> (ac_participants c)) epoch).
  assert (roster c1 = <[identity := cred]> (roster c)) as Hr
    by (unfold roster; cbn; by rewrite fmap_insert, Hc).
  assert (medias c1 = <[identity := pa_media p]> (medias c)) as Hm
    by (unfold medias; cbn; by rewrite fmap_insert).
  assert (N.of_nat (size (roster c1)) ≤ lm_participants l
    ∧ (∀ f, f muted = false → publishing (medias c1) f ≤ publishing (medias c) f)
    ∧ 1 ≤ epoch) as (Hsize & Hpub & Hepoch).
  { rewrite Hr, Hm. pose proof (cw_epoch _ _ _ H). destruct Hseat as
      [(q & Hq & _ & Hqc & Hqm & ->)|(Hn & -> & -> & Hlt)].
    - rewrite <-Hqc, insert_id by by apply roster_lookup.
      rewrite Hqm, insert_id by by apply medias_lookup. split; [apply H|]. done.
    - split; [|split; [|lia]].
      + rewrite map_size_insert_None by (unfold roster; by rewrite lookup_fmap, Hn).
        unfold roster. rewrite map_size_fmap. lia.
      + intros f Hf. etrans; [apply publishing_insert|]. rewrite Hf, N.add_0_r.
        apply publishing_subseteq, delete_subseteq. }
  assert (dom (delete identity (ac_invitations c)) ## dom (roster c1)) as Hdis.
  { rewrite Hr. apply disjoint_join, H. }
  assert (∀ id q, ac_participants c1 !! id = Some q → pa_identity_id q = id) as Hkeys.
  { cbn. intros id q. rewrite lookup_insert. case_decide; [intros [= <-]; congruence|apply H]. }
  unfold answer. cbn.
  destruct (decide (ac_kind c = Direct ∧ identity ≠ ac_started_by c)) as [[Hk Hid]|Hno].
  - rewrite !bool_decide_eq_true_2, bool_decide_eq_false_2 by done. cbn.
    split; try done; cbn; try apply H; try lia; try congruence.
    + exact (N.le_trans _ _ _ (Hpub video_published eq_refl) (cw_cameras _ _ _ H)).
    + exact (N.le_trans _ _ _ (Hpub screen_published eq_refl) (cw_screens _ _ _ H)).
    + intros _ _. split; [done|]. eexists. split; [reflexivity|].
      destruct (ac_phase c) eqn:Hph.
      * destruct (cw_ringing _ _ _ H Hk Hph) as [-> _]. cbn.
        unfold ring_over in Hring. rewrite Hk, Hph in Hring. cbn in Hring.
        by apply N.leb_gt in Hring.
      * destruct (cw_answered _ _ _ H Hk Hph) as [_ (t & -> & Ht)]. done.
  - assert ((ac_kind c === Direct) && (identity =/= ac_started_by c) = false) as ->.
    { apply not_true_iff_false. intros Ht. apply Hno. inv_ok. done. }
    split; try done; cbn; try apply H; try lia.
    + exact (N.le_trans _ _ _ (Hpub video_published eq_refl) (cw_cameras _ _ _ H)).
    + exact (N.le_trans _ _ _ (Hpub screen_published eq_refl) (cw_screens _ _ _ H)).
    + intros Hk Hph. destruct (cw_ringing _ _ _ H Hk Hph) as [Ha Hd]. split; [done|].
      fold c1. change (dom (roster c1) ⊆ {[ac_started_by c]}). rewrite Hr, dom_insert.
      assert (identity = ac_started_by c) as ->.
      { destruct (decide (identity = ac_started_by c)); [done|]. by destruct Hno. }
      by apply union_least.
    + intros Hk Hph. destruct (cw_answered _ _ _ H Hk Hph) as [-> Ha].
      by rewrite delete_empty.
Qed.

(** ** The other handlers *)

(** What a handler's outcome says of its call. *)
Definition outcome_ok (l : Limits) (s : Scope) (op : Operation) identity cred c (o : Outcome) : Prop :=
  match o with
  | Announce c' => same_call c c' ∧ call_wf l s c' ∧ roster_step op identity cred c c'
  | Silent c' =>
      same_call c c' ∧ call_wf l s c' ∧ roster c' = roster c
      ∧ ac_key_epoch c' = ac_key_epoch c
  | Emit e => True
  | Finish _ => True
  end.

Lemma do_join_ok l s op c identity cred now inv o :
  is_join op = true → call_wf l s c → ring_over c now = false → do_join l c identity cred now inv = Ok o →
  outcome_ok l s op identity cred c o.
Proof.
  intros Hj H Hring Ho. apply (do_join_shape _ s) in Ho as (p & e & Hp & ->); [|done].
  split; [|split].
  - unfold answer. case_match; by split.
  - by apply seated_wf with (cred := cred).
  - apply (seated_roster _ _ op) in Hp; [|done]. eapply roster_step_ext; [exact Hp| |].
    all: unfold answer; by case_match.
Qed.

Lemma wf_set_invitations l s c m :
  call_wf l s c → ac_kind c = Group → dom m ## dom (roster c) →
  call_wf l s (set_invitations c m).
Proof. intros H Hk Hm. split; try done; cbn; try apply H. congruence. Qed.

Lemma do_decline_ok l s op c identity cred inv o :
  call_wf l s c → do_decline c identity inv = Ok o → outcome_ok l s op identity cred c o.
Proof.
  intros H Ho. unfold do_decline in Ho. step Ho u Hu. case_bool_decide as Hk.
  - step Ho v Hv. by apply Ok_inj in Ho as <-.
  - apply Ok_inj in Ho as <-. assert (ac_kind c = Group) as Hg by (by destruct (ac_kind c)).
    split; [done|]. split; [|by apply roster_keep].
    apply wf_set_invitations; [done..|]. pose proof (cw_disjoint _ _ _ H) as Hd.
    rewrite dom_delete. clear -Hd. set_solver.
Qed.

Lemma do_invite_ok a l s op c identity cred to now draw o :
  call_wf l s c → do_invite a c identity cred to now draw = Ok o →
  outcome_ok l s op identity cred c o.
Proof.
  intros H Ho. unfold do_invite in Ho. step Ho u Hu. step Ho q Hq. step Ho h Hh.
  step Ho m Hm. step Ho v Hv.
  assert (ac_kind c = Group) as Hk by (by inv_ok).
  assert (ac_participants c !! to = None) as Hto.
  { inv_ok. by apply eq_None_not_Some. }
  case_match.
  - apply Ok_inj in Ho as <-. split; [done|]. split; [done|]. by apply roster_keep.
  - step Ho inv Hinv. apply Ok_inj in Ho as <-. split; [done|]. split; [|by apply roster_keep].
    apply wf_set_invitations; [done..|]. rewrite dom_insert.
    pose proof (cw_disjoint _ _ _ H) as Hd. assert (to ∉ dom (roster c)) as Hn.
    { apply not_elem_of_dom. unfold roster. by rewrite lookup_fmap, Hto. }
    clear -Hd Hn. set_solver.
Qed.

Lemma do_leave_ok l s op c identity cred o :
  is_leave op = true → call_wf l s c → do_leave c identity cred = Ok o → outcome_ok l s op identity cred c o.
Proof.
  intros Hl H Ho. unfold do_leave in Ho. step Ho q Hq. apply participant_Ok in Hq as [Hq Hc].
  case_bool_decide as Hk; [by apply Ok_inj in Ho as <-|]. cbv zeta in Ho.
  case_bool_decide as He; [by apply Ok_inj in Ho as <-|]. apply Ok_inj in Ho as <-.
  assert (ac_kind c = Group) as Hg by (by destruct (ac_kind c)).
  set (c' := set_participants c _ _).
  assert (roster c' = delete identity (roster c)) as Hr by (unfold roster; cbn; apply fmap_delete).
  assert (medias c' = delete identity (medias c)) as Hm by (unfold medias; cbn; apply fmap_delete).
  pose proof (delete_subseteq (medias c) identity) as Hsub.
  split; [done|]. split.
  - split; rewrite ?Hr, ?Hm; try done; cbn; try apply H; try lia; try congruence.
    + intros id p [_ Hp]%lookup_delete_Some. by apply (cw_keys _ _ _ H).
    + etrans; [|apply (cw_size _ _ _ H)].
      pose proof (map_subseteq_size _ _ (delete_subseteq (roster c) identity)). lia.
    + etrans; [by apply publishing_subseteq|apply H].
    + etrans; [by apply publishing_subseteq|apply H].
    + pose proof (cw_disjoint _ _ _ H) as Hd. rewrite dom_delete. clear -Hd. set_solver.
  - apply roster_leave; [done| |done|done]. rewrite <-Hc. by apply roster_lookup.
Qed.

Lemma do_heartbeat_ok l s op c identity cred now o :
  call_wf l s c → do_heartbeat c identity cred now = Ok o → outcome_ok l s op identity cred c o.
Proof.
  intros H Ho. unfold do_heartbeat in Ho. step Ho q Hq. apply participant_Ok in Hq as [Hq Hc].
  apply Ok_inj in Ho as <-. split; [done|]. split; [|split; [|done]].
  - apply (call_wf_update _ _ _ _ q); try done.
    intros f lim Hf _. cbn. by rewrite insert_id by by apply medias_lookup.
  - by apply (roster_same _ _ q).
Qed.

Lemma media_limit_ok c identity state f lim :
  (∀ id p, ac_participants c !! id = Some p → pa_identity_id p = id) →
  publishing (medias c) f ≤ lim →
  f state && (lim <=? others_publishing c identity f) = false →
  publishing (<[identity := state]> (medias c)) f ≤ lim.
Proof.
  intros Hkeys Hle Hlim. rewrite others_publishing_spec in Hlim by done.
  etrans; [apply publishing_insert|].
  pose proof (publishing_subseteq _ _ f (delete_subseteq (medias c) identity)).
  destruct (f state); cbn in Hlim; [apply N.leb_gt in Hlim; lia|lia].
Qed.

Lemma do_media_ok l s op c identity cred state now o :
  call_wf l s c → do_media l c identity cred state now = Ok o →
  outcome_ok l s op identity cred c o.
Proof.
  intros H Ho. unfold do_media in Ho. step Ho q Hq. apply participant_Ok in Hq as [Hq Hc].
  step Ho u Hu. apply fail_if_Ok, orb_false_iff in Hu as [Hv Hs]. apply Ok_inj in Ho as <-.
  set (c1 := set_participants c _ _). pose proof (cw_keys _ _ _ H) as Hkeys.
  assert (call_wf l s c1) as Hwf.
  { apply (call_wf_update _ _ _ _ q); try done. intros f lim Hf [[-> ->]|[-> ->]]; cbn;
      by apply media_limit_ok. }
  assert (roster c1 = roster c) as Hr by (by apply (roster_same _ _ q)).
  case_match; (split; [done|]); (split; [|by apply roster_keep]); [|done].
  split; try done; cbn; try apply Hwf.
Qed.

Lemma call_operation_ok l a c s identity cmd now draw o :
  call_wf l s c → ring_over c now = false →
  call_operation l a c s identity cmd now draw = Ok o →
  outcome_ok l s (cc_operation cmd) identity (cc_credential_id cmd) c o.
Proof.
  intros H Hring. unfold call_operation. destruct (cc_operation cmd); try done.
  - by apply do_join_ok.
  - by apply do_leave_ok.
  - by apply do_decline_ok.
  - unfold do_cancel. intros Ho. step Ho u Hu. step Ho q Hq. by apply Ok_inj in Ho as <-.
  - unfold do_end. intros Ho. step Ho u Hu. step Ho q Hq. by apply Ok_inj in Ho as <-.
  - by apply do_invite_ok.
  - by apply do_heartbeat_ok.
  - by apply do_heartbeat_ok.
  - by apply do_media_ok.
  - unfold do_signal. intros Ho. step Ho u Hu. step Ho q Hq. by apply Ok_inj in Ho as <-.
Qed.

End Handlers.

(** ** Commands on the registry *)

Section Commands.
Context `{P : Platform} {S : AuthoritySerde}.

(** [apply] is the fixed point of its body: the recursive call is [apply] itself. *)
Lemma apply_unfold r a cmd now draws :
  apply r a cmd now draws = apply_step (λ join, apply r a join now draws) r a cmd now draws.
Proof.
  unfold apply, apply_step at 1 3. destruct (admit_command a cmd) as [who|e]; [|done].
  cbn [mbind result_bind]. cbv zeta. case_match; [done|].
  destruct (cc_operation cmd); try done.
Qed.

(** The command an existing call sees. *)
Definition as_join (call : ActiveCall) (cmd : Command) : Command :=
  if is_start (cc_operation cmd) then with_operation cmd (Join (ac_call_id call) None) else cmd.

(** What an accepted command did. *)
Inductive applied (r : Registry) (a : Authority) (cmd : Command) (identity : IdentityId)
    (now : N) (draws : option string * option string) : Registry → list Event → Prop :=
| applied_over call :
    rooms r !! command_scope cmd = Some call → ring_over call now = true →
    applied r a cmd identity now draws
      (set_rooms r (delete (command_scope cmd) (rooms r)))
      [EndedEvent (command_scope cmd) (ac_call_id call) EndUnanswered]
| applied_subscribe :
    cc_operation cmd = Subscribe →
    match rooms r !! command_scope cmd with Some c => ring_over c now | None => false end = false →
    applied r a cmd identity now draws r
      match rooms r !! command_scope cmd with Some call => [PresenceEvent call] | None => [] end
| applied_started h kind media call_id invs :
    cc_operation cmd = Start kind media → rooms r !! command_scope cmd = None →
    head_config a = Ok h → kind = expected_kind h →
    (kind = Direct → nlen (sc_members h) = 2) →
    N.of_nat (size (rooms r)) < lm_rooms (limits r) →
    ensure_free r (cc_credential_id cmd) (command_scope cmd) = Ok tt →
    random_hex draws.1 = Ok call_id →
    direct_invitations h kind identity now draws.2 = Ok invs →
    let call := new_call (command_scope cmd) kind media identity (cc_config_id cmd)
                  (cc_credential_id cmd) now call_id invs in
    applied r a cmd identity now draws
      (set_rooms r (<[command_scope cmd := call]> (rooms r))) [PresenceEvent call]
| applied_in call o r' events :
    rooms r !! command_scope cmd = Some call → ring_over call now = false →
    ac_config_id call = cc_config_id cmd →
    operation_call_id (cc_operation (as_join call cmd)) = Some (ac_call_id call) →
    (is_join (cc_operation (as_join call cmd)) = true →
     ensure_free r (cc_credential_id cmd) (command_scope cmd) = Ok tt) →
    call_operation (limits r) a call (command_scope cmd) identity (as_join call cmd) now draws.1
      = Ok o →
    finish r (command_scope cmd) o = Ok (r', events) →
    applied r a cmd identity now draws r' events.

Lemma in_call_Ok r a s identity cmd now draw r' ev :
  in_call r a s identity cmd now draw = Ok (r', ev) →
  ∃ call o, rooms r !! s = Some call ∧ ac_config_id call = cc_config_id cmd
  ∧ operation_call_id (cc_operation cmd) = Some (ac_call_id call)
  ∧ (is_join (cc_operation cmd) = true → ensure_free r (cc_credential_id cmd) s = Ok tt)
  ∧ call_operation (limits r) a call s identity cmd now draw = Ok o
  ∧ finish r s o = Ok (r', ev).
Proof.
  intros H. unfold in_call in H. step H u Hu. step H call Hc. apply ok_or_Ok in Hc.
  step H v Hv. step H w Hw. step H o Ho. exists call, o. split_and!; try done.
  - by inv_ok.
  - by inv_ok.
  - intros Hj. rewrite Hj in Hu. by destruct u.
Qed.

Lemma apply_Ok r a cmd now draws r' ev :
  apply r a cmd now draws = Ok (r', ev) →
  ∃ identity, admit_command a cmd = Ok identity ∧ applied r a cmd identity now draws r' ev.
Proof.
  intros H. unfold apply in H. unfold apply_step at 1 in H. step H who Hid.
  exists who. split; [done|]. cbv zeta in H.
  destruct (rooms r !! command_scope cmd) as [call|] eqn:Hroom.
  - destruct (ring_over call now) eqn:Hring.
    { unfold ending, end_with_reason in H. rewrite Hroom in H. cbn in H.
      apply Ok_inj in H. injection H as <- <-. by apply applied_over. }
    assert (∀ cmd', cmd' = as_join call cmd →
      in_call r a (command_scope cmd) who cmd' now draws.1 = Ok (r', ev) →
      applied r a cmd who now draws r' ev) as Hin.
    { intros cmd' -> (call' & o & Hc & Hcfg & Hop & Hfree & Ho & Hf)%in_call_Ok.
      rewrite Hroom in Hc. injection Hc as <-.
      apply (applied_in _ _ _ _ _ _ call o); try done.
      - rewrite Hcfg. unfold as_join. by destruct (is_start (cc_operation cmd)).
      - intros Hj. specialize (Hfree Hj). revert Hfree. unfold as_join.
        by destruct (is_start (cc_operation cmd)). }
    destruct (cc_operation cmd) eqn:Hop; try (eapply Hin; [|exact H]; unfold as_join; by rewrite Hop).
    + apply Ok_inj in H. injection H as <- <-.
      pose proof (applied_subscribe r a cmd who now draws Hop) as Hs. rewrite Hroom in Hs. auto.
    + step H h Hh. step H u Hu. unfold apply_step in H.
      change (admit_command a (with_operation cmd (Join (ac_call_id call) None)))
        with (admit_command a cmd) in H. rewrite Hid in H. cbn [mbind result_bind] in H.
      change (command_scope (with_operation cmd (Join (ac_call_id call) None)))
        with (command_scope cmd) in H. rewrite Hroom, Hring in H. cbv zeta in H.
      cbn [with_operation cc_operation] in H.
      eapply Hin; [|exact H]. unfold as_join. by rewrite Hop.
  - destruct (cc_operation cmd) eqn:Hop;
      try (apply in_call_Ok in H as (? & ? & Hc & _); by rewrite Hroom in Hc).
    + apply Ok_inj in H. injection H as <- <-.
      pose proof (applied_subscribe r a cmd who now draws Hop) as Hs. rewrite Hroom in Hs. auto.
    + step H h Hh. step H u Hu. unfold start_new in H. step H v Hv. step H w Hw.
      step H cid Hci. step H invs Hinv. apply Ok_inj in H. injection H as <- <-.
      apply map_err_Ok in Hh, Hci. apply fail_if_Ok, N.leb_gt in Hv. destruct w.
      apply fail_if_Ok, orb_false_iff in Hu as [Hk Hd].
      apply bool_decide_eq_negb_false in Hk.
      apply (applied_started _ _ _ _ _ _ h); try done.
      intros ->. rewrite <-Hk, bool_decide_eq_true_2 in Hd by done. cbn in Hd.
      by apply negb_false_iff, N.eqb_eq in Hd.
Qed.
End Commands.
