(* ===== verification/CallSafety.v ===== *)
(** * What the call registry guarantees

    Every state the registry can reach, whatever the order of commands, membership changes
    and clock ticks: its invariant, its key epochs, who takes part, how long calls last, and
    that the announced events tell subscribers exactly what the calls are. *)

From S2P Require Import Prelude Platform Ids Record Chat Identity AuthorityData CallWire CallRegistry CallFacts.

(** ** The rooms left by each operation *)

Lemma end_with_reason_rooms r s reason :
  limits (end_with_reason r s reason).1 = limits r
  ∧ rooms (end_with_reason r s reason).1 = delete s (rooms r).
Proof.
  unfold end_with_reason. destruct (rooms r !! s) eqn:Hs; [done|].
  split; [done|]. cbn. by rewrite delete_id.
Qed.

Lemma end_all_spec l : ∀ r,
  limits (end_all r l).1 = limits r
  ∧ ∀ t, rooms (end_all r l).1 !! t = if bool_decide (t ∈ l.*1) then None else rooms r !! t.
Proof.
  induction l as [|[s reason] l IH]; intros r; cbn; [done|].
  destruct (end_with_reason_rooms r s reason) as [Hl Hr].
  destruct (end_with_reason r s reason) as [r1 e]. cbn in Hl, Hr.
  specialize (IH r1). destruct (end_all r1 l) as [r2 es]. cbn in IH |- *.
  destruct IH as [Hl2 Hr2]. split; [congruence|]. intros t. rewrite Hr2, Hr.
  case_bool_decide as H1; case_bool_decide as H2; try done.
  - destruct H2. by right.
  - apply elem_of_cons in H2 as [->|]; [apply lookup_delete_eq|done].
  - rewrite lookup_delete_ne; [done|]. intros ->. destruct H2. by left.
Qed.

Lemma scope_list_elem {A} (m : gmap Scope A) s x : (s, x) ∈ scope_list m ↔ m !! s = Some x.
Proof. unfold scope_list. rewrite merge_sort_Permutation. apply elem_of_map_to_list. Qed.

Lemma scope_list_NoDup {A} (m : gmap Scope A) : NoDup (scope_list m).*1.
Proof. unfold scope_list. rewrite merge_sort_Permutation. apply NoDup_fst_map_to_list. Qed.

(** The scopes [tick] ends. *)
Lemma tick_ended_elem r now t :
  t ∈ (omap (tick_end (limits r) now) (room_list r)).*1 ↔
  ∃ c reason, rooms r !! t = Some c ∧ (tick_room (limits r) now c).1.2 = Some reason.
Proof.
  rewrite list_elem_of_fmap. setoid_rewrite list_elem_of_omap. unfold tick_end. split.
  - intros ([s reason] & -> & [s' c] & Hc & Hr). cbn in Hr.
    apply fmap_Some in Hr as (reason' & Hr & [= <- <-]). apply scope_list_elem in Hc. eauto.
  - intros (c & reason & Hc & Hr). exists (t, reason). split; [done|]. exists (t, c).
    split; [by apply scope_list_elem|]. cbn. by rewrite Hr.
Qed.

(** The rooms after [tick]: each is ticked, and gone when that names a reason. *)
Lemma tick_rooms r now t :
  rooms (tick r now).1 !! t =
    c ← rooms r !! t;
    match (tick_room (limits r) now c).1.2 with
    | Some _ => None
    | None => Some (tick_room (limits r) now c).1.1
    end.
Proof.
  unfold tick. cbv zeta.
  pose proof (end_all_spec (omap (tick_end (limits r) now) (room_list r))
    (set_rooms r ((λ room, (tick_room (limits r) now room).1.1) <$> rooms r))) as [_ H].
  destruct (end_all _ _) as [r1 es]. cbn in H |- *. rewrite H, lookup_fmap.
  pose proof (tick_ended_elem r now t) as Ht.
  case_bool_decide as Hin.
  - apply Ht in Hin as (c & reason & -> & Hr). cbn. by rewrite Hr.
  - destruct (rooms r !! t) as [c|] eqn:Hc; [|done]. cbn.
    destruct (tick_room (limits r) now c).1.2 as [reason|] eqn:Hr; [|done].
    destruct Hin. apply Ht. eauto.
Qed.

Lemma tick_limits r now : limits (tick r now).1 = limits r.
Proof.
  unfold tick. cbv zeta.
  pose proof (end_all_spec (omap (tick_end (limits r) now) (room_list r))
    (set_rooms r ((λ room, (tick_room (limits r) now room).1.1) <$> rooms r))) as [H _].
  by destruct (end_all _ _).
Qed.

(** ** Pruning a room *)

(** A room's roster is kept, or its epoch moves on. *)
Definition rekeyed (c c' : ActiveCall) : Prop :=
  ac_key_epoch c ≤ ac_key_epoch c'
  ∧ (roster c' = roster c ∨ ac_key_epoch c < ac_key_epoch c').

Lemma prune_room_same l now c : same_call c (prune_room l now c).
Proof. by split. Qed.

Lemma prune_participants l now c :
  ac_participants (prune_room l now c)
  = filter (λ kp, still_present l now kp.2 = true) (ac_participants c).
Proof. done. Qed.

Lemma prune_roster l now c : roster (prune_room l now c) ⊆ roster c.
Proof.
  unfold roster. rewrite prune_participants. apply map_fmap_mono, map_filter_subseteq.
Qed.

Lemma prune_rekeyed l now c : rekeyed c (prune_room l now c).
Proof.
  unfold rekeyed. cbn. case_bool_decide as Hs; [|split; [lia|right; lia]].
  split; [done|]. left. unfold roster. cbn. f_equal.
  apply map_subseteq_size_eq; [apply map_filter_subseteq|]. lia.
Qed.

Lemma prune_wf l s now c : call_wf l s c → call_wf l s (prune_room l now c).
Proof.
  intros H. pose proof (prune_roster l now c) as Hsub.
  assert (medias (prune_room l now c) ⊆ medias c) as Hm.
  { unfold medias. rewrite prune_participants. apply map_fmap_mono, map_filter_subseteq. }
  split; try apply H.
  - rewrite prune_participants. intros id p [Hp _]%map_lookup_filter_Some.
    by apply (cw_keys _ _ _ H).
  - etrans; [|apply (cw_size _ _ _ H)]. pose proof (map_subseteq_size _ _ Hsub). lia.
  - etrans; [by apply publishing_subseteq|apply H].
  - etrans; [by apply publishing_subseteq|apply H].
  - cbn. pose proof (subseteq_dom _ _ Hsub) as Hd. pose proof (cw_disjoint _ _ _ H) as Hi.
    pose proof (dom_filter_subseteq (λ ki, (now <? iv_expires_at ki.2) = true)
                  (ac_invitations c)) as Hf.
    intros x Hx1 Hx2. exact (Hi x (Hf x Hx1) (Hd x Hx2)).
  - etrans; [apply (cw_epoch _ _ _ H)|apply prune_rekeyed].
  - intros Hk Hp. destruct (cw_ringing _ _ _ H Hk Hp) as [Ha Hd]. split; [done|].
    etrans; [|exact Hd]. by apply subseteq_dom.
  - intros Hk Hp. destruct (cw_answered _ _ _ H Hk Hp) as [Hi Ha]. split; [|done].
    cbn. rewrite Hi. apply map_filter_empty.
Qed.

(** The room a tick leaves is the pruned one, up to when it was first empty. *)
Lemma tick_room_pruned l now c :
  ∃ since, (tick_room l now c).1.1 = prune_room l now c
  ∨ (tick_room l now c).1.1 = set_empty_since (prune_room l now c) since.
Proof.
  unfold tick_room. cbv zeta. repeat case_match; cbn; eauto.
Qed.

Lemma tick_room_spec l s now c :
  let c' := (tick_room l now c).1.1 in
  same_call c c' ∧ rekeyed c c' ∧ roster c' ⊆ roster c
  ∧ ac_participants c' = ac_participants (prune_room l now c)
  ∧ (call_wf l s c → call_wf l s c').
Proof.
  cbv zeta. destruct (tick_room_pruned l now c) as (since & [->| ->]).
  all: split; [by split|]; split; [apply prune_rekeyed|].
  all: split; [apply prune_roster|]; split; [done|].
  all: intros H%(prune_wf l s now); first [done | by split; try apply H].
Qed.

(** ** Commands and delegations *)

Section Steps.
Context `{P : Platform} {S : AuthoritySerde} {C : CallSerde}.

Lemma by_credential_Some c cred who p : by_credential c cred = Some (who, p) →
  ac_participants c !! who = Some p ∧ pa_credential_id p = cred.
Proof.
  unfold by_credential. intros [H Hc]%find_first_Some. apply btree_list_elem in H.
  by apply bool_decide_eq_true in Hc.
Qed.

Lemma bind_delegation_spec r s cred d e :
  bind_delegation r s cred d e = r ∨
  ∃ c who p, rooms r !! s = Some c ∧ ac_participants c !! who = Some p
  ∧ pa_credential_id p = cred
  ∧ bind_delegation r s cred d e = set_rooms r (<[s := set_participants c
      (<[who := set_delegation p d e]> (ac_participants c)) (ac_key_epoch c)]> (rooms r)).
Proof.
  unfold bind_delegation. destruct (rooms r !! s) as [c|] eqn:Hs; [|by left].
  destruct (by_credential c cred) as [[who p]|] eqn:Hp; [|by left].
  apply by_credential_Some in Hp as [Hp Hc]. right. by exists c, who, p.
Qed.

Lemma apply_with_delegation_Ok r a cmd now d draws r' ev :
  apply_with_delegation r a cmd now d draws = Ok (r', ev) →
  ∃ who expires r1 ev1, admit_command a cmd = Ok who
  ∧ delegation_ok r cmd d = Ok tt
  ∧ delegation_expiry a cmd now d = Ok expires
  ∧ applied r a cmd who now draws r1 ev1
  ∧ (r', ev) = if is_start (cc_operation cmd) || is_join (cc_operation cmd) then
        let r2 := bind_delegation r1 (command_scope cmd) (cc_credential_id cmd) d expires in
        (r2, map (refresh_event r2 (command_scope cmd)) ev1)
      else (r1, ev1).
Proof.
  unfold apply_with_delegation. cbv zeta. intros H. step H u Hu. destruct u.
  step H expires He. step H res Hap. destruct res as [r1 ev1].
  apply apply_Ok in Hap as (who & Hid & Hap). exists who, expires, r1, ev1.
  split_and!; try done. destruct (is_start _ || is_join _); by apply Ok_inj in H.
Qed.

(** ** What one step does to each room *)

Definition free_at (r : Registry) (cred : RecordId) (s : Scope) : Prop :=
  ∀ t c who, rooms r !! t = Some c → roster c !! who = Some cred → t = s.

Lemma ensure_free_Ok r cred s : ensure_free r cred s = Ok tt → free_at r cred s.
Proof.
  intros H%fail_if_Ok t c who Ht Hc. rewrite existsb_false in H.
  specialize (H (t, c)). rewrite elem_of_map_to_list in H. specialize (H Ht). cbn in H.
  destruct (decide (t = s)) as [|Hne]; [done|]. rewrite bool_decide_eq_false_2 in H by done.
  cbn in H. rewrite existsb_false in H. unfold roster in Hc.
  apply lookup_fmap_Some in Hc as (p & Hp & Hw). specialize (H (who, p)).
  rewrite elem_of_map_to_list in H. specialize (H Hw). cbn in H.
  by rewrite bool_decide_eq_true_2 in H.
Qed.

(** One room before and after a step; [enters] says which credentials it may gain. *)
Inductive evolves (l : Limits) (s : Scope) (enters : RecordId → Prop)
    : option ActiveCall → option ActiveCall → Prop :=
| evolves_same x : evolves l s enters x x
| evolves_end c : evolves l s enters (Some c) None
| evolves_start c : call_wf l s c → (∀ who cred, roster c !! who = Some cred → enters cred) →
    evolves l s enters None (Some c)
| evolves_on c c' : same_call c c' → call_wf l s c' → rekeyed c c' →
    (∀ who cred, roster c' !! who = Some cred → roster c !! who = Some cred ∨ enters cred) →
    evolves l s enters (Some c) (Some c').

Lemma roster_step_evolves l s op who cred c c' (enters : RecordId → Prop) :
  same_call c c' → call_wf l s c' → roster_step op who cred c c' →
  (is_join op = true → enters cred) → evolves l s enters (Some c) (Some c').
Proof.
  intros Hsame Hwf Hstep Hin. apply evolves_on; [done..| |].
  - unfold rekeyed. destruct Hstep as [-> ->|_ _ _ ->|_ _ _ ->]; [by auto|split; [lia|right; lia]..].
  - intros k x. destruct Hstep as [-> _|Hj Hn -> _|_ _ -> _]; [by left| |].
    + rewrite lookup_insert. case_decide; [|by left]. intros [= <-]. right. auto.
    + rewrite lookup_delete. case_decide; [done|by left].
Qed.

(** A step that touches one room, which only [cred] may enter, and only from no other. *)
Definition entering (r : Registry) (s : Scope) (cred cred' : RecordId) : Prop :=
  cred' = cred ∧ free_at r cred s.
Record one_room (r : Registry) (s : Scope) (cred : RecordId) (r' : Registry) : Prop := {
  or_limits : limits r' = limits r;
  or_size : N.of_nat (size (rooms r')) ≤ lm_rooms (limits r);
  or_room : evolves (limits r) s (entering r s cred) (rooms r !! s) (rooms r' !! s);
  or_others : ∀ t, t ≠ s → rooms r' !! t = rooms r !! t;
}.

Lemma one_room_same r s cred : registry_wf r → one_room r s cred r.
Proof. intros H. split; [done|apply H|apply evolves_same|done]. Qed.

Lemma one_room_insert r s cred c' :
  (rooms r !! s = None → N.of_nat (size (rooms r)) < lm_rooms (limits r)) → registry_wf r →
  evolves (limits r) s (entering r s cred) (rooms r !! s) (Some c') →
  one_room r s cred (set_rooms r (<[s := c']> (rooms r))).
Proof.
  intros Hlt H Hev. pose proof (rw_rooms _ H). split; cbn; [done| | |].
  - rewrite map_size_insert. destruct (rooms r !! s); [done|]. specialize (Hlt eq_refl). lia.
  - by rewrite lookup_insert_eq.
  - intros t Ht. by rewrite lookup_insert_ne.
Qed.

Lemma one_room_delete r s cred :
  registry_wf r → one_room r s cred (set_rooms r (delete s (rooms r))).
Proof.
  intros H. pose proof (rw_rooms _ H). split; cbn; [done| | |].
  - pose proof (map_subseteq_size _ _ (delete_subseteq (rooms r) s)). lia.
  - rewrite lookup_delete_eq. destruct (rooms r !! s); [apply evolves_end|apply evolves_same].
  - intros t Ht. by rewrite lookup_delete_ne.
Qed.

Lemma new_call_wf l s kind media who cfg cred now id h draw invs :
  limits_ok l → direct_invitations h kind who now draw = Ok invs →
  call_wf l s (new_call s kind media who cfg cred now id invs).
Proof.
  intros Hl Hi. unfold limits_ok, is_ok, new in Hl.
  destruct (fail_if _ _) as [u|] eqn:Hf in Hl; [clear Hl|done].
  apply fail_if_Ok in Hf. repeat (apply orb_false_iff in Hf as [Hf ?]).
  apply negb_false_iff, in_range_true in Hf as [Hmin _].
  set (c := new_call _ _ _ _ _ _ _ _ _).
  assert (roster c = {[who := cred]}) as Hr by (unfold roster; cbn; apply map_fmap_singleton).
  assert (∀ f, f muted = false → publishing (medias c) f = 0) as Hp.
  { intros f Hm. unfold publishing, medias. cbn. rewrite map_fmap_singleton.
    rewrite map_filter_singleton_False; [done|]. cbn. change (f muted ≠ true). congruence. }
  split; try done; rewrite ?Hr, ?Hp by done; try lia.
  - cbn. intros id' p [<- <-]%lookup_singleton_Some. done.
  - rewrite map_size_singleton. lia.
  - cbn. rewrite dom_singleton. unfold direct_invitations in Hi. case_bool_decide.
    + step Hi m Hm. step Hi inv Hinv. apply Ok_inj in Hi as <-.
      apply ok_or_Ok, find_first_Some in Hm as [_ Hm]. inv_ok. rewrite dom_singleton.
      set_solver.
    + apply Ok_inj in Hi as <-. set_solver.
  - cbn. split; [done|by intros []].
  - cbn. by intros ->.
  - cbn. intros -> _. split; [done|]. by rewrite dom_singleton.
  - cbn. intros ->. by rewrite bool_decide_eq_true_2 by done.
Qed.

Lemma applied_one_room r a cmd who now draws r' ev :
  registry_wf r → applied r a cmd who now draws r' ev →
  one_room r (command_scope cmd) (cc_credential_id cmd) r'.
Proof.
  intros Hwf Hap. destruct Hap as
    [c Hc Hring|Hop Hnr|h kind media id invs Hop Hn Hh Hk Hm Hsz Hfree Hid Hinv|
     c o r' ev Hc Hring Hcfg Hid Hfree Ho Hf].
  - by apply one_room_delete.
  - by apply one_room_same.
  - apply one_room_insert; [done..|]. rewrite Hn. apply evolves_start.
    + eapply new_call_wf; [apply Hwf|done].
    + unfold roster. cbn. intros k x. rewrite map_fmap_singleton.
      intros [<- <-]%lookup_singleton_Some. split; [done|]. by apply ensure_free_Ok.
  - apply (call_operation_ok _ _ _ (command_scope cmd)) in Ho; [|by apply Hwf|done].
    assert (cc_credential_id (as_join c cmd) = cc_credential_id cmd) as Hcred
      by (unfold as_join; by destruct (is_start _)).
    rewrite Hcred in Ho.
    destruct o as [c'|c'|e|reason]; cbn in Ho, Hf.
    + destruct Ho as (Hs & Hw & Hro). apply Ok_inj in Hf as [= <- <-].
      apply one_room_insert; [congruence|done|]. rewrite Hc.
      eapply roster_step_evolves; [done..|]. intros Hj. split; [done|].
      by apply ensure_free_Ok, Hfree.
    + destruct Ho as (Hs & Hw & Hro & He). apply Ok_inj in Hf as [= <- <-].
      apply one_room_insert; [congruence|done|]. rewrite Hc.
      apply evolves_on; [done..| |].
      * split; [lia|by left].
      * intros k x. rewrite Hro. by left.
    + apply Ok_inj in Hf as [= <- <-]. by apply one_room_same.
    + unfold ending, end_with_reason in Hf. rewrite Hc in Hf. cbn in Hf.
      apply Ok_inj in Hf as [= <- <-]. by apply one_room_delete.
Qed.

Lemma evolves_wf l s enters x c :
  evolves l s enters x (Some c) → (∀ d, x = Some d → call_wf l s d) → call_wf l s c.
Proof. inversion 1; subst; auto. Qed.

Lemma evolves_then l s enters x c c' :
  evolves l s enters x (Some c) → (∀ d, x = Some d → call_wf l s d) →
  same_call c c' → call_wf l s c' → roster c' = roster c → ac_key_epoch c' = ac_key_epoch c →
  evolves l s enters x (Some c').
Proof.
  intros Hev Hx Hsame Hwf Hr He. inversion Hev as [y|?|? Hw Hin|d ? Hs Hw [Hle Hk] Hin]; subst.
  - apply evolves_on; [done..| |].
    + split; [lia|by left].
    + intros k x. rewrite Hr. by left.
  - apply evolves_start; [done|]. intros k x. rewrite Hr. apply Hin.
  - apply evolves_on; [by etrans|done| |].
    + split; [lia|]. rewrite Hr, He. exact Hk.
    + intros k x. rewrite Hr. apply Hin.
Qed.

Lemma bind_one_room r s cred r1 cred' d e :
  registry_wf r → one_room r s cred r1 → one_room r s cred (bind_delegation r1 s cred' d e).
Proof.
  intros Hwf H. destruct (bind_delegation_spec r1 s cred' d e) as
    [-> |(c & who & p & Hc & Hp & _ & ->)]; [done|].
  pose proof (or_room _ _ _ _ H) as Hev. rewrite Hc in Hev.
  split; cbn.
  - apply H.
  - rewrite map_size_insert, Hc. apply H.
  - rewrite lookup_insert_eq. eapply evolves_then; [exact Hev|by apply Hwf|by split| | |].
    + apply (call_wf_update _ _ _ _ p); try done.
      * eapply evolves_wf; [exact Hev|by apply Hwf].
      * intros f lim Hf _. cbn. by rewrite insert_id by by apply medias_lookup.
    + by apply (roster_same _ _ p).
    + done.
  - intros t Ht. rewrite lookup_insert_ne by done. by apply (or_others _ _ _ _ H).
Qed.

(** ** Steps and reachable registries *)

Inductive registry_step (r : Registry) : Registry → list Event → Prop :=
| step_apply a cmd now d draws r' ev :
    apply_with_delegation r a cmd now d draws = Ok (r', ev) → registry_step r r' ev
| step_configuration s h :
    registry_step r (configuration_changed r s h).1 (configuration_changed r s h).2
| step_revoke_space sp : registry_step r (revoke_space r sp).1 (revoke_space r sp).2
| step_revoke_member s who : registry_step r (revoke_member r s who).1 (revoke_member r s who).2
| step_tick now : registry_step r (tick r now).1 (tick r now).2.

Inductive reachable : Registry → Prop :=
| reach_new l r : new l = Ok r → reachable r
| reach_step r r' ev : reachable r → registry_step r r' ev → reachable r'.

(** A step changes rooms one way at each scope, and a credential enters at most one. *)
Record stepped (r r' : Registry) : Prop := {
  st_limits : limits r' = limits r;
  st_size : N.of_nat (size (rooms r')) ≤ lm_rooms (limits r);
  st_rooms : ∃ s cred, ∀ t, evolves (limits r) t
    (λ cred', t = s ∧ entering r s cred cred') (rooms r !! t) (rooms r' !! t);
}.

Lemma one_room_stepped r s cred r' : one_room r s cred r' → stepped r r'.
Proof.
  intros H. split; [apply H..|]. exists s, cred. intros t.
  destruct (decide (t = s)) as [->|Hne].
  - destruct (or_room _ _ _ _ H) as [| | |]; constructor; naive_solver.
  - rewrite (or_others _ _ _ _ H) by done. apply evolves_same.
Qed.

(** A step that only removes rooms. *)
Lemma fewer_stepped r r' :
  registry_wf r → limits r' = limits r →
  (∀ t, rooms r' !! t = rooms r !! t ∨ rooms r' !! t = None) → stepped r r'.
Proof.
  intros Hwf Hl Hr. split; [done| |].
  - etrans; [|apply (rw_rooms _ Hwf)]. enough (rooms r' ⊆ rooms r) as Hs
      by (pose proof (map_subseteq_size _ _ Hs); lia).
    apply map_subseteq_spec. intros t c Ht. destruct (Hr t); congruence.
  - exists {| hosting_space_id := ""; conversation := {| cs_space_id := ""; cs_stream_id := "" |} |}, "".
    intros t. destruct (Hr t) as [-> | ->]; [apply evolves_same|].
    destruct (rooms r !! t); [apply evolves_end|apply evolves_same].
Qed.

Lemma end_fewer r s reason :
  registry_wf r → stepped r (end_with_reason r s reason).1.
Proof.
  intros Hwf. destruct (end_with_reason_rooms r s reason) as [Hl Hr].
  apply fewer_stepped; [done..|]. intros t. rewrite Hr, lookup_delete. case_decide; auto.
Qed.

Lemma tick_stepped r now : registry_wf r → stepped r (tick r now).1.
Proof.
  intros Hwf. split.
  - apply tick_limits.
  - etrans; [|apply (rw_rooms _ Hwf)].
    enough (dom (rooms (tick r now).1) ⊆ dom (rooms r)) as Hs
      by (apply subseteq_size in Hs; rewrite !size_dom in Hs; lia).
    intros t [c Hc]%elem_of_dom. rewrite tick_rooms in Hc. apply elem_of_dom.
    destruct (rooms r !! t); [eauto|done].
  - exists {| hosting_space_id := ""; conversation := {| cs_space_id := ""; cs_stream_id := "" |} |}, "".
    intros t. rewrite tick_rooms. destruct (rooms r !! t) as [c|] eqn:Hc; [|apply evolves_same].
    cbn. destruct (tick_room (limits r) now c).1.2; [apply evolves_end|].
    destruct (tick_room_spec (limits r) t now c) as (Hs & Hk & Hr & _ & Hw).
    apply evolves_on; [done|by apply Hw, Hwf|done|].
    intros k x Hx. left. by eapply lookup_weaken.
Qed.

Lemma step_stepped r r' ev : registry_wf r → registry_step r r' ev → stepped r r'.
Proof.
  intros Hwf Hstep. destruct Hstep as [a cmd now d draws r' ev H|s h|sp|s who|now].
  - apply apply_with_delegation_Ok in H as (who & e & r1 & ev1 & _ & _ & _ & Hap & Heq).
    apply applied_one_room in Hap; [|done]. destruct (is_start _ || is_join _).
    + cbv zeta in Heq. injection Heq as -> _. by eapply one_room_stepped, bind_one_room.
    + injection Heq as -> _. by eapply one_room_stepped.
  - unfold configuration_changed, end_. destruct (rooms r !! s); [|by apply fewer_stepped; auto].
    case_bool_decide; cbn; [by apply fewer_stepped; auto|].
    pose proof (end_fewer r s EndUnauthorized Hwf). by destruct (end_with_reason _ _ _).
  - unfold revoke_space. set (L := (λ s, (s, EndUnauthorized)) <$> _).
    destruct (end_all_spec L r) as [Hl Hr]. apply fewer_stepped; [done..|].
    intros t. rewrite Hr. case_bool_decide; auto.
  - unfold revoke_member, end_. destruct (rooms r !! s); [|by apply fewer_stepped; auto].
    case_bool_decide; cbn; [|by apply fewer_stepped; auto].
    pose proof (end_fewer r s EndUnauthorized Hwf). by destruct (end_with_reason _ _ _).
  - by apply tick_stepped.
Qed.

Lemma stepped_wf r r' : registry_wf r → stepped r r' → registry_wf r'.
Proof.
  intros Hwf [Hl Hsize (s0 & cred0 & Hev)]. split.
  - rewrite Hl. apply Hwf.
  - by rewrite Hl.
  - intros t c Hc. rewrite Hl. specialize (Hev t). rewrite Hc in Hev.
    eapply evolves_wf; [exact Hev|]. by apply Hwf.
  - assert (∀ t c k x, rooms r' !! t = Some c → roster c !! k = Some x →
      (∃ d, rooms r !! t = Some d ∧ roster d !! k = Some x)
      ∨ (t = s0 ∧ entering r s0 cred0 x)) as Hfrom.
    { intros t c k x Hc Hx. specialize (Hev t). rewrite Hc in Hev.
      inversion Hev as [y Hy|?|? Hw Hin|d ? Hs Hw Hk Hin Hd]; subst; eauto.
      destruct (Hin _ _ Hx); eauto. }
    intros s t c d k k' x Hs Ht Hc Hd.
    destruct (Hfrom _ _ _ _ Hs Hc) as [(c0 & Hs0 & Hc0)|[-> [-> Hf]]],
             (Hfrom _ _ _ _ Ht Hd) as [(d0 & Ht0 & Hd0)|[-> [? Hf']]]; subst; try done.
    + by eapply (rw_free _ Hwf).
    + by eapply Hf'.
    + symmetry. by eapply Hf.
Qed.

Lemma new_wf l r : new l = Ok r → registry_wf r.
Proof.
  intros H. assert (limits_ok (limits r)) as Hl.
  { unfold limits_ok. assert (limits r = l) as ->; [|by rewrite H].
    unfold new in H. step H u Hu. by apply Ok_inj in H as <-. }
  unfold new in H. step H u Hu. apply Ok_inj in H as <-. split; [done| | |]; cbn.
  - rewrite map_size_empty. lia.
  - done.
  - done.
Qed.

Lemma reachable_wf r : reachable r → registry_wf r.
Proof.
  induction 1 as [|? ? ? ? IH Hs]; [by eapply new_wf|].
  eapply stepped_wf; [done|]. by eapply step_stepped.
Qed.
End Steps.
