(* ===== verification/CallTheorems.v ===== *)
(** * Theorems about calls

    Key epochs and signals, who enters a call, how a direct call rings, how long anything
    lasts, and what revocation ends. *)

From S2P Require Import Prelude Platform Ids Record Chat Identity AuthorityData CallWire CallRegistry CallFacts CallSafety.

Section Theorems.
Context `{P : Platform} {S : AuthoritySerde} {C : CallSerde}.

(** C37. Every registry the service can reach is well formed, whatever the order of commands,
    membership changes and clock ticks: each room is kept under its own conversation, holds
    at most the configured participants, cameras and screens, invites nobody who takes part,
    is answered before its ring ends, and no device takes part in two calls. *)
Theorem calls_well_formed r (Hr : reachable r) : registry_wf r.
Proof. by apply reachable_wf. Qed.

(** ** A call from one state to a later one *)

Inductive call_run (s : Scope) (r : Registry) (c : ActiveCall) : Registry → ActiveCall → Prop :=
| run_here : rooms r !! s = Some c → call_run s r c r c
| run_on r1 c1 r2 ev c2 : call_run s r c r1 c1 → registry_step r1 r2 ev →
    rooms r2 !! s = Some c2 → call_run s r c r2 c2.

Lemma step_same_call r r' ev s c c' :
  registry_wf r → registry_step r r' ev → rooms r !! s = Some c → rooms r' !! s = Some c' →
  same_call c c' ∧ rekeyed c c'.
Proof.
  intros Hwf Hs Hc Hc'. apply step_stepped in Hs as [_ _ (s0 & cred & Hev)]; [|done].
  specialize (Hev s). rewrite Hc, Hc' in Hev.
  inversion Hev as [y Hy|?|?|? ? H1 _ H2]; subst; [|done].
  split; [done|]. split; [done|by left].
Qed.

Lemma call_run_facts s r c r' c' :
  reachable r → call_run s r c r' c' →
  reachable r' ∧ rooms r' !! s = Some c' ∧ same_call c c'
  ∧ ac_key_epoch c ≤ ac_key_epoch c'
  ∧ (ac_key_epoch c' = ac_key_epoch c → roster c' = roster c).
Proof.
  intros Hr. induction 1 as [Hc|r1 c1 r2 ev c2 _ IH Hs Hc2]; [done|].
  destruct IH as (Hr1 & Hc1 & Hsame & Hle & Heq). split; [by eapply reach_step|].
  destruct (step_same_call _ _ _ _ _ _ (reachable_wf _ Hr1) Hs Hc1 Hc2) as [Hs2 [Hle2 Hk]].
  split; [done|]. split; [by etrans|]. split; [lia|]. intros He.
  destruct Hk as [->|Hlt]; [|lia]. apply Heq. lia.
Qed.

Lemma call_operation_emit l a c s who cmd now draw e :
  call_operation l a c s who cmd now draw = Ok (Emit e) →
  ∃ id epoch to cipher, cc_operation cmd = SignalOp id epoch to cipher
  ∧ do_signal c s who (cc_credential_id cmd) epoch to cipher = Ok (Emit e).
Proof.
  unfold call_operation. intros H. destruct (cc_operation cmd); try done; [..|by eauto 6].
  - unfold do_join in H. step H x Hx. by step H y Hy.
  - unfold do_leave in H. step H x Hx. repeat case_match; by apply Ok_inj in H.
  - unfold do_decline in H. step H x Hx. case_match; [step H y Hy|]; by apply Ok_inj in H.
  - unfold do_cancel in H. step H x Hx. step H y Hy. by apply Ok_inj in H.
  - unfold do_end in H. step H x Hx. step H y Hy. by apply Ok_inj in H.
  - unfold do_invite in H. step H x Hx. step H y Hy. step H h Hh. step H m Hm. step H v Hv.
    case_match; [|step H w Hw]; by apply Ok_inj in H.
  - unfold do_heartbeat in H. step H x Hx. by apply Ok_inj in H.
  - unfold do_heartbeat in H. step H x Hx. by apply Ok_inj in H.
  - unfold do_media in H. step H x Hx. step H y Hy. by apply Ok_inj in H.
Qed.

(** A relayed signal names its call's epoch and two participants. *)
Lemma signal_spec r a cmd now d draws r' ev s id epoch from to cipher :
  apply_with_delegation r a cmd now d draws = Ok (r', ev) →
  SignalEvent s id epoch from to cipher ∈ ev →
  r' = r ∧ from = cc_credential_id cmd ∧ to ≠ from ∧
  ∃ c who who', rooms r !! s = Some c ∧ id = ac_call_id c ∧ epoch = ac_key_epoch c
  ∧ require_member a from = Ok who ∧ head a = Some (ac_config_id c)
  ∧ roster c !! who = Some from ∧ roster c !! who' = Some to.
Proof.
  intros H Hin. apply apply_with_delegation_Ok in H as (who & e & r1 & ev1 & Hid & _ & _ & Hap & Heq).
  assert (SignalEvent s id epoch from to cipher ∈ ev1) as Hin1.
  { destruct (is_start _ || is_join _); [|by injection Heq as _ ->].
    cbv zeta in Heq. injection Heq as _ ->. apply list_elem_of_fmap in Hin as (x & Hx & Hin).
    unfold refresh_event in Hx. repeat case_match; by simplify_eq. }
  unfold admit_command in Hid. step Hid who' Hmem. step Hid u Hu. apply Ok_inj in Hid as ->.
  apply map_err_Ok in Hmem.
  assert (head a = Some (cc_config_id cmd)) as Hhead by (inv_ok; done).
  destruct Hap as [c Hc Hring|Hop Hnr|h kind media cid invs Hop Hn Hh Hk Hm Hsz Hfree Hcid Hinv|
    c o r1 ev1 Hc Hring Hcfg Hcall Hfree Ho Hf].
  - by apply list_elem_of_singleton in Hin1.
  - case_match; [by apply list_elem_of_singleton in Hin1|by apply not_elem_of_nil in Hin1].
  - by apply list_elem_of_singleton in Hin1.
  - destruct o as [c'|c'|e0|reason]; cbn in Hf.
    + apply Ok_inj in Hf as [= <- <-]. by apply list_elem_of_singleton in Hin1.
    + apply Ok_inj in Hf as [= <- <-]. by apply not_elem_of_nil in Hin1.
    + apply Ok_inj in Hf as [= <- <-]. apply list_elem_of_singleton in Hin1 as <-.
      apply call_operation_emit in Ho as (sid & ep & t & ci & Hop & Ho).
      assert (as_join c cmd = cmd) as Hj
        by (unfold as_join in *; by destruct (is_start (cc_operation cmd))).
      rewrite Hj in Hop, Ho. unfold do_signal in Ho. step Ho p Hp. step Ho v Hv.
      apply Ok_inj in Ho. injection Ho as <- <- <- <- <- <-.
      apply participant_Ok in Hp as [Hp Hpc].
      apply fail_if_Ok in Hv. apply orb_false_iff in Hv as [Hv Hto].
      apply orb_false_iff in Hv as [_ Hne]. apply bool_decide_eq_false in Hne.
      apply negb_false_iff, existsb_true in Hto as ([w q] & Hq & Hqc).
      apply elem_of_map_to_list in Hq. cbn in Hqc. apply bool_decide_eq_true in Hqc.
      rewrite Hop in Heq. cbn in Heq. injection Heq as -> _.
      split; [done|]. split; [done|]. split; [done|]. exists c, who, w.
      split; [done|]. split; [done|]. split; [done|]. split; [done|].
      split; [congruence|]. split; [rewrite <-Hpc|rewrite <-Hqc]; by apply roster_lookup.
    + unfold ending, end_with_reason in Hf. rewrite Hc in Hf. cbn in Hf.
      apply Ok_inj in Hf as [= <- <-]. by apply list_elem_of_singleton in Hin1.
Qed.

(** C31. Key epochs fix rosters: while a call lives, its epoch never goes back and any change
    of who takes part moves it on, so a signal the service relays under the epoch of an
    earlier moment comes from and goes to devices that took part at that moment. *)
Theorem epoch_fixes_roster s r c r' c' (Hr : reachable r) (Hrun : call_run s r c r' c') :
  same_call c c' ∧ ac_key_epoch c ≤ ac_key_epoch c'
  ∧ (ac_key_epoch c' = ac_key_epoch c → roster c' = roster c)
  ∧ ∀ a cmd now d draws r2 ev id from to cipher,
      apply_with_delegation r' a cmd now d draws = Ok (r2, ev) →
      SignalEvent s id (ac_key_epoch c) from to cipher ∈ ev →
      r2 = r' ∧ id = ac_call_id c ∧ from ≠ to
      ∧ ∃ who who', roster c !! who = Some from ∧ roster c !! who' = Some to
                    ∧ require_member a from = Ok who.
Proof.
  destruct (call_run_facts _ _ _ _ _ Hr Hrun) as (Hr' & Hc' & Hsame & Hle & Heq).
  split; [done|]. split; [done|]. split; [done|].
  intros a cmd now d draws r2 ev id from to cipher H Hin.
  destruct (signal_spec _ _ _ _ _ _ _ _ _ _ _ _ _ _ H Hin)
    as (-> & -> & Hne & c0 & who & who' & Hc0 & -> & He & Hm & _ & H1 & H2).
  rewrite Hc' in Hc0. injection Hc0 as <-. rewrite <-Heq by done.
  split; [done|]. split; [apply Hsame|]. split; [done|]. by exists who, who'.
Qed.

(** ** Who enters and leaves a call *)

Lemma bind_rooms r s cred d e t :
  match rooms r !! t, rooms (bind_delegation r s cred d e) !! t with
  | Some c, Some c' => same_call c c' ∧ roster c' = roster c
  | None, None => True
  | _, _ => False
  end.
Proof.
  destruct (bind_delegation_spec r s cred d e) as [-> |(c & who & p & Hc & Hp & _ & ->)].
  - by destruct (rooms r !! t).
  - cbn. destruct (decide (s = t)) as [<-|Hne].
    + rewrite lookup_insert_eq, Hc. split; [by split|]. by apply (roster_same _ _ p).
    + rewrite lookup_insert_ne by done. by destruct (rooms r !! t).
Qed.

(** An accepted command seats or unseats its sender only. *)
Definition sender_moves (a : Authority) (cmd : Command) (r r' : Registry) : Prop :=
  ∀ c', rooms r' !! command_scope cmd = Some c' →
  ∃ who, require_member a (cc_credential_id cmd) = Ok who ∧
  let before := match rooms r !! command_scope cmd with Some c => roster c | None => ∅ end in
  roster c' = before
  ∨ (roster c' = <[who := cc_credential_id cmd]> before
     ∧ is_start (cc_operation cmd) || is_join (cc_operation cmd) = true
     ∧ head a = Some (ac_config_id c'))
  ∨ (roster c' = delete who before ∧ cc_operation cmd = Leave (ac_call_id c')).

Lemma applied_sender_moves r a cmd who now draws r' ev :
  registry_wf r → admit_command a cmd = Ok who → applied r a cmd who now draws r' ev →
  sender_moves a cmd r r'.
Proof.
  intros Hwf Hid Hap c' Hc'. unfold admit_command in Hid. step Hid who' Hm. step Hid u Hu.
  apply Ok_inj in Hid as ->. apply map_err_Ok in Hm.
  assert (head a = Some (cc_config_id cmd)) as Hhead by (inv_ok; done). clear Hu.
  exists who. split; [done|]. cbv zeta.
  destruct Hap as [c Hc Hring|Hop Hnr|h kind media cid invs Hop Hn Hh Hk Hmm Hsz Hfree Hcid Hinv|
    c o r1 ev1 Hc Hring Hcfg Hcall Hfree Ho Hf].
  - cbn in Hc'. by rewrite lookup_delete_eq in Hc'.
  - left. by rewrite Hc'.
  - right. left. cbn in Hc'. rewrite lookup_insert_eq in Hc'. injection Hc' as <-.
    rewrite Hn, Hop. split; [|done]. unfold roster. cbn. by rewrite map_fmap_singleton.
  - rewrite Hc. pose proof Ho as Ho'.
    apply (call_operation_ok _ _ _ (command_scope cmd)) in Ho; [|by apply Hwf|done].
    destruct o as [c1|c1|e0|reason]; cbn in Ho, Hf.
    + apply Ok_inj in Hf as [= <- <-]. cbn in Hc'. rewrite lookup_insert_eq in Hc'.
      injection Hc' as <-. destruct Ho as (Hs & _ & Hro).
      assert (cc_credential_id (as_join c cmd) = cc_credential_id cmd) as Hcred
        by (unfold as_join; by destruct (is_start _)).
      rewrite Hcred in Hro. destruct Hro as [Hr _|Hj _ Hr _|Hl _ Hr _]; [by left| |].
      * right. left. split; [done|]. split; [|by rewrite (sc_config _ _ Hs), Hcfg].
        unfold as_join in Hj. destruct (is_start _); [done|]. exact Hj.
      * right. right. split; [done|]. rewrite (sc_call_id _ _ Hs).
        assert (as_join c cmd = cmd) as Hop
          by (unfold as_join in *; by destruct (is_start (cc_operation cmd))).
        rewrite Hop in Hcall, Hl. destruct (cc_operation cmd); try done. by injection Hcall as ->.
    + apply Ok_inj in Hf as [= <- <-]. cbn in Hc'. rewrite lookup_insert_eq in Hc'.
      injection Hc' as <-. left. apply Ho.
    + apply Ok_inj in Hf as [= <- <-]. rewrite Hc in Hc'. injection Hc' as <-. by left.
    + unfold ending, end_with_reason in Hf. rewrite Hc in Hf. cbn in Hf.
      apply Ok_inj in Hf as [= <- <-]. cbn in Hc'. by rewrite lookup_delete_eq in Hc'.
Qed.

(** Only its sender moves: an accepted command changes no conversation but its own, and
    there it leaves the roster as it was, seats the sending device under its own identity,
    or lets it leave. Seating needs a start or a join by a device that the newest
    configuration lists with POST and READ, and a call of exactly that configuration; the
    device then takes part in no other call. *)
Theorem call_entry_authorized r a cmd now d draws r' ev
  (Hr : reachable r) (H : apply_with_delegation r a cmd now d draws = Ok (r', ev)) :
  space a = cs_space_id (conversation (command_scope cmd))
  ∧ stream a = cs_stream_id (conversation (command_scope cmd))
  ∧ (∀ t, t ≠ command_scope cmd → rooms r' !! t = rooms r !! t)
  ∧ sender_moves a cmd r r'
  ∧ ∀ t c c' k k' x, rooms r' !! command_scope cmd = Some c → rooms r' !! t = Some c' →
      roster c !! k = Some x → roster c' !! k' = Some x → t = command_scope cmd.
Proof.
  pose proof (reachable_wf _ Hr) as Hwf.
  assert (registry_wf r') as Hwf'
    by (apply reachable_wf; eapply reach_step; [done|by eapply step_apply]).
  apply apply_with_delegation_Ok in H as (who & e & r1 & ev1 & Hid & _ & _ & Hap & Heq).
  pose proof Hid as Hid'. unfold admit_command in Hid'. step Hid' w Hw. step Hid' u Hu.
  assert (space a = cs_space_id (cc_scope cmd) ∧ stream a = cs_stream_id (cc_scope cmd))
    as [Hsp Hst] by (clear Heq; inv_ok; done).
  pose proof (applied_one_room _ _ _ _ _ _ _ _ Hwf Hap) as Hone.
  apply (applied_sender_moves _ _ _ _ _ _ _ _ Hwf Hid) in Hap.
  split; [done|]. split; [done|]. split_and!.
  - destruct (is_start _ || is_join _).
    + cbv zeta in Heq. injection Heq as -> _.
      intros t Ht. by apply (or_others _ _ _ _ (bind_one_room _ _ _ _ _ _ _ Hwf Hone)).
    + injection Heq as -> _. apply Hone.
  - destruct (is_start _ || is_join _) eqn:Hsj; [|by injection Heq as -> _].
    cbv zeta in Heq. injection Heq as -> _. intros c' Hc'.
    pose proof (bind_rooms r1 (command_scope cmd) (cc_credential_id cmd) d e
      (command_scope cmd)) as Hb. rewrite Hc' in Hb.
    destruct (rooms r1 !! command_scope cmd) as [c|] eqn:Hc; [|done]. destruct Hb as [Hs Hro].
    destruct (Hap c Hc) as (who' & Hm & Hcases). exists who'. split; [done|].
    cbv zeta in *. rewrite Hro, (sc_config _ _ Hs), (sc_call_id _ _ Hs). exact Hcases.
  - intros t c c' k k' x Hc Hc' Hx Hx'. by eapply (rw_free _ Hwf' _ _ _ _ _ _ _ Hc' Hc).
Qed.

(** ** How a direct call rings *)

(** The other person's join answers a direct call; nothing else changes its phase. *)
Definition answered_by (who : IdentityId) (cred : RecordId) (op : Operation) (now : N)
    (c c' : ActiveCall) : Prop :=
  ac_kind c = Direct ∧ who ≠ ac_started_by c ∧ is_start op || is_join op = true ∧ ac_phase c' = Active
  ∧ ac_answered_at c' = Some (default now (ac_answered_at c)) ∧ ac_invitations c' = ∅
  ∧ roster c' !! who = Some cred.
Definition same_phase (c c' : ActiveCall) : Prop :=
  ac_phase c' = ac_phase c ∧ ac_answered_at c' = ac_answered_at c.

Lemma call_operation_phase l a c s who cmd now draw o c' :
  call_wf l s c → call_operation l a c s who cmd now draw = Ok o →
  o = Announce c' ∨ o = Silent c' →
  same_phase c c' ∨ answered_by who (cc_credential_id cmd) (cc_operation cmd) now c c'.
Proof.
  intros Hwf H Hc'. unfold call_operation in H. destruct (cc_operation cmd) eqn:Hop; try done.
  - apply (do_join_shape _ s) in H as (p & e & Hp & ->); [|done].
    destruct Hc' as [[= <-]|?]; [|done]. unfold answer. case_match eqn:Hcase; [|by left].
    cbn in Hcase. inv_ok. right. split_and!; try done.
    unfold roster. cbn. rewrite fmap_insert, lookup_insert_eq. f_equal. apply Hp.
  - unfold do_leave in H. step H x Hx. repeat case_match; apply Ok_inj in H as <-;
      destruct Hc'; simplify_eq; by left.
  - unfold do_decline in H. step H x Hx. case_match; [step H y Hy|]; apply Ok_inj in H as <-;
      destruct Hc'; simplify_eq; by left.
  - unfold do_cancel in H. step H x Hx. step H y Hy. apply Ok_inj in H as <-;
      destruct Hc'; simplify_eq; by left.
  - unfold do_end in H. step H x Hx. step H y Hy. apply Ok_inj in H as <-;
      destruct Hc'; simplify_eq; by left.
  - unfold do_invite in H. step H x Hx. step H y Hy. step H h Hh. step H m Hm. step H v Hv.
    case_match; [|step H w Hw]; apply Ok_inj in H as <-;
      destruct Hc'; simplify_eq; by left.
  - unfold do_heartbeat in H. step H x Hx. apply Ok_inj in H as <-;
      destruct Hc'; simplify_eq; by left.
  - unfold do_heartbeat in H. step H x Hx. apply Ok_inj in H as <-;
      destruct Hc'; simplify_eq; by left.
  - unfold do_media in H. step H x Hx. step H y Hy. apply Ok_inj in H as <-.
    destruct Hc' as [[= <-]|?]; [|done]. left. by case_match.
  - unfold do_signal in H. step H x Hx. step H y Hy. apply Ok_inj in H as <-;
      destruct Hc'; simplify_eq; by left.
Qed.

Lemma bind_delegation_phase r s cred d e t c' :
  rooms (bind_delegation r s cred d e) !! t = Some c' →
  ∃ c, rooms r !! t = Some c ∧ same_phase c c' ∧ ac_invitations c' = ac_invitations c
  ∧ roster c' = roster c ∧ same_call c c'.
Proof.
  destruct (bind_delegation_spec r s cred d e) as [-> |(c & who & p & Hc & Hp & _ & ->)].
  - intros H. by exists c'.
  - cbn. rewrite lookup_insert. case_decide as Hst; [|by exists c'].
    intros [= <-]. subst t. exists c. split; [done|]. split; [by split|]. split; [done|].
    split; [|by split]. by apply (roster_same _ _ p).
Qed.

Lemma end_all_event l : ∀ r s reason c,
  NoDup l.*1 → (s, reason) ∈ l → rooms r !! s = Some c →
  EndedEvent s (ac_call_id c) reason ∈ (end_all r l).2.
Proof.
  induction l as [|[t reason'] l IH]; intros r s reason c Hnd Hin Hc; cbn; [by apply not_elem_of_nil in Hin|].
  apply NoDup_cons in Hnd as [Hni Hnd].
  destruct (end_with_reason_rooms r t reason') as [_ Hrooms].
  destruct (end_with_reason r t reason') as [r1 e] eqn:He. cbn in Hrooms.
  destruct (end_all r1 l) as [r2 es] eqn:Hes. apply elem_of_cons in Hin as [[= <- <-]|Hin].
  - unfold end_with_reason in He. rewrite Hc in He. injection He as <- <-. cbn. left.
  - apply elem_of_app. right. change es with (r2, es).2. rewrite <-Hes.
    apply (IH r1 s reason c Hnd Hin). rewrite Hrooms, lookup_delete_ne; [done|].
    intros ->. apply Hni, list_elem_of_fmap. by exists (s, reason).
Qed.

Lemma omap_fst_NoDup {A} (f : Scope * A → option (Scope * EndReason)) l :
  (∀ x y, f x = Some y → y.1 = x.1) → NoDup l.*1 → NoDup (omap f l).*1.
Proof.
  intros Hf. induction l as [|x l IH]; cbn; intros Hnd; [constructor|].
  apply NoDup_cons in Hnd as [Hni Hnd]. destruct (f x) as [y|] eqn:Hy; [|by apply IH].
  cbn. apply NoDup_cons. split; [|by apply IH]. rewrite (Hf _ _ Hy).
  intros (z & Hz & Hin)%list_elem_of_fmap. apply list_elem_of_omap in Hin as (w & Hw & Hwz).
  apply Hni, list_elem_of_fmap. exists w. rewrite Hz. split; [|done]. by apply Hf.
Qed.

Lemma tick_end_fst l now x y : tick_end l now x = Some y → y.1 = x.1.
Proof. unfold tick_end. intros (reason & _ & H)%fmap_Some. by subst. Qed.

(** A room [tick] ends is announced with its reason. *)
Lemma tick_ends r now s c reason :
  rooms r !! s = Some c → (tick_room (limits r) now c).1.2 = Some reason →
  rooms (tick r now).1 !! s = None
  ∧ EndedEvent s (ac_call_id c) reason ∈ (tick r now).2.
Proof.
  intros Hc Hr. split; [by rewrite tick_rooms, Hc; cbn; rewrite Hr|].
  unfold tick. cbv zeta. set (r1 := set_rooms r _). set (L := omap (tick_end _ _) _).
  pose proof (end_all_event L r1 s reason (tick_room (limits r) now c).1.1) as Hin.
  destruct (end_all r1 L) as [r2 es]. cbn in Hin |- *. apply elem_of_app. right.
  rewrite <-(sc_call_id c (tick_room (limits r) now c).1.1)
    by apply (tick_room_spec (limits r) s now c).
  apply Hin.
  - apply omap_fst_NoDup; [apply tick_end_fst|apply scope_list_NoDup].
  - apply list_elem_of_omap. exists (s, c). split; [by apply scope_list_elem|].
    unfold tick_end. cbn. by rewrite Hr.
  - subst r1. cbn. by rewrite lookup_fmap, Hc.
Qed.

(** A command on a ringing direct call: nothing but its end once the ring is over, and a
    change of phase only by the other person's join. *)
Lemma direct_applied r a cmd who now draws r' ev c :
  registry_wf r → rooms r !! command_scope cmd = Some c →
  ac_kind c = Direct → ac_phase c = Ringing → applied r a cmd who now draws r' ev →
  if ac_ring_expires_at c <=? now
  then rooms r' !! command_scope cmd = None
       ∧ ev = [EndedEvent (command_scope cmd) (ac_call_id c) EndUnanswered]
  else ∀ c', rooms r' !! command_scope cmd = Some c' → same_call c c' ∧
       (same_phase c c'
        ∨ answered_by who (cc_credential_id cmd) (cc_operation cmd) now c c').
Proof.
  intros Hwf Hc Hk Hp Hap.
  assert (ring_over c now = (ac_ring_expires_at c <=? now)) as Hover
    by (unfold ring_over; by rewrite Hk, Hp).
  rewrite <-Hover.
  destruct Hap as [c0 Hc0 Hring|Hop Hnr|h kind media cid invs Hop Hn Hh Hkk Hmm Hsz Hfree Hcid Hinv|
    c0 o r1 ev1 Hc0 Hring Hcfg Hcall Hfree Ho Hf]; try (rewrite Hc in Hc0; injection Hc0 as <-).
  - rewrite Hring. cbn. by rewrite lookup_delete_eq.
  - rewrite Hc in Hnr. rewrite Hnr. intros c' Hc'. rewrite Hc in Hc'. injection Hc' as <-.
    split; [done|by left].
  - congruence.
  - rewrite Hring. intros c' Hc'.
    assert (cc_credential_id (as_join c cmd) = cc_credential_id cmd) as Hcred
      by (unfold as_join; by destruct (is_start _)).
    pose proof (call_operation_ok _ _ _ (command_scope cmd) _ _ _ _ _ (rw_calls _ Hwf _ _ Hc)
      Hring Ho) as Hok.
    assert (∀ c1, o = Announce c1 ∨ o = Silent c1 → same_phase c c1
      ∨ answered_by who (cc_credential_id cmd) (cc_operation cmd) now c c1) as Hph.
    { intros c1 Hc1. destruct (call_operation_phase _ _ _ (command_scope cmd) _ _ _ _ _ _
        (rw_calls _ Hwf _ _ Hc) Ho Hc1) as [?|(H1 & H2 & H3 & H4)]; [by left|].
      right. rewrite Hcred in H4. split; [done|]. split; [done|]. split; [|done].
      revert H3. unfold as_join. destruct (is_start (cc_operation cmd)) eqn:E; [done|].
      by rewrite E. }
    destruct o as [c1|c1|e0|reason]; cbn in Hok, Hf.
    + apply Ok_inj in Hf as [= <- <-]. cbn in Hc'. rewrite lookup_insert_eq in Hc'.
      injection Hc' as <-. split; [apply Hok|]. apply Hph. by left.
    + apply Ok_inj in Hf as [= <- <-]. cbn in Hc'. rewrite lookup_insert_eq in Hc'.
      injection Hc' as <-. split; [apply Hok|]. apply Hph. by right.
    + apply Ok_inj in Hf as [= <- <-]. rewrite Hc in Hc'. injection Hc' as <-.
      split; [done|by left].
    + unfold ending, end_with_reason in Hf. rewrite Hc in Hf. cbn in Hf.
      apply Ok_inj in Hf as [= <- <-]. cbn in Hc'. by rewrite lookup_delete_eq in Hc'.
Qed.

(** A direct call rings for its sixty seconds and no longer: while it rings at most its
    caller takes part; the other member's join before the ring ends, and nothing else,
    answers it at that instant and withdraws the invitation; once the ring is over the next
    accepted command of its conversation or the next clock tick ends it as unanswered. *)
Theorem direct_call_rings r s c (Hr : reachable r) (Hc : rooms r !! s = Some c)
  (Hk : ac_kind c = Direct) (Hp : ac_phase c = Ringing) :
  dom (roster c) ⊆ {[ac_started_by c]}
  ∧ (∀ a cmd now d draws r' ev, command_scope cmd = s →
       apply_with_delegation r a cmd now d draws = Ok (r', ev) →
       if ac_ring_expires_at c <=? now
       then rooms r' !! s = None ∧ ev = [EndedEvent s (ac_call_id c) EndUnanswered]
       else ∀ c', rooms r' !! s = Some c' → same_call c c' ∧
            (ac_phase c' = Ringing
             ∨ ∃ who, answered_by who (cc_credential_id cmd) (cc_operation cmd) now c c'
                      ∧ ac_answered_at c' = Some now))
  ∧ (∀ now, ac_ring_expires_at c ≤ now →
       rooms (tick r now).1 !! s = None
       ∧ EndedEvent s (ac_call_id c) EndUnanswered ∈ (tick r now).2)
  ∧ ∀ now c', rooms (tick r now).1 !! s = Some c' → same_call c c' ∧ ac_phase c' = Ringing.
Proof.
  pose proof (reachable_wf _ Hr) as Hwf. pose proof (rw_calls _ Hwf _ _ Hc) as Hcw.
  destruct (cw_ringing _ _ _ Hcw Hk Hp) as [Hna Hdom]. split; [done|]. split; [|split].
  - intros a cmd now d draws r' ev <- H.
    assert (ring_over c now = (ac_ring_expires_at c <=? now)) as Hover
      by (unfold ring_over; by rewrite Hk, Hp).
    apply apply_with_delegation_Ok in H as (who & e & r1 & ev1 & Hid & _ & _ & Hap & Heq).
    pose proof (direct_applied r a cmd who now draws r1 ev1 c Hwf Hc Hk Hp Hap) as Hd.
    destruct (ac_ring_expires_at c <=? now).
    + destruct Hd as [Hn ->]. destruct (is_start _ || is_join _); [|by injection Heq as -> ->].
      cbv zeta in Heq. injection Heq as -> ->.
      unfold bind_delegation. by rewrite Hn.
    + intros c' Hc'. assert (∃ c1, rooms r1 !! command_scope cmd = Some c1 ∧ same_phase c1 c'
        ∧ ac_invitations c' = ac_invitations c1 ∧ roster c' = roster c1 ∧ same_call c1 c')
        as (c1 & Hc1 & [Hph Han] & Hin & Hro & Hs).
      { destruct (is_start _ || is_join _); [|injection Heq as -> _; by exists c'].
        cbv zeta in Heq. injection Heq as -> _. by apply bind_delegation_phase in Hc'. }
      destruct (Hd _ Hc1) as [Hs1 Hcase]. split; [by etrans|].
      destruct Hcase as [[Hph1 _]|(H1 & H2 & H3 & H4 & H5 & H6 & H7)]; [left; congruence|].
      right. exists who. rewrite Hna in H5. cbn in H5. split; [|congruence].
      split_and!; try congruence. by rewrite Han, H5, Hna.
  - intros now Hnow. apply tick_ends; [done|]. unfold tick_room. cbv zeta.
    assert (ring_over (prune_room (limits r) now c) now = true) as ->; [|done].
    unfold ring_over. cbn. rewrite Hk, Hp. by apply N.leb_le.
  - intros now c' Hc'. rewrite tick_rooms, Hc in Hc'. cbn in Hc'.
    destruct (tick_room (limits r) now c).1.2; [done|]. injection Hc' as <-.
    split; [apply (tick_room_spec (limits r) s now c)|].
    by destruct (tick_room_pruned (limits r) now c) as (since & [-> | ->]).
Qed.
End Theorems.
