(* ===== verification/CallEvents.v ===== *)
(** * Clock ticks and announced events

    What a tick leaves behind, and that a subscriber who only replays the announced events
    holds the same calls as the registry. *)

From S2P Require Import Prelude Platform Ids Record Chat Identity AuthorityData CallWire CallRegistry CallFacts CallSafety CallTheorems.

(** ** What a tick leaves *)

Lemma filter_same_size {A} (P : string * A → Prop) `{∀ x, Decision (P x)} (m : gmap string A) :
  size (filter P m) = size m → filter P m = m.
Proof. intros H1. apply map_subseteq_size_eq; [apply map_filter_subseteq|]. lia. Qed.

Lemma filter_filter_id {A} (P : string * A → Prop) `{∀ x, Decision (P x)} (m : gmap string A) :
  filter P (filter P m) = filter P m.
Proof. rewrite map_filter_filter. apply map_filter_ext. naive_solver. Qed.

Lemma prune_prune l now c : prune_room l now (prune_room l now c) = prune_room l now c.
Proof.
  unfold prune_room at 1. cbv zeta. cbn [ac_participants ac_invitations prune_room
    set_invitations set_ringing set_participants].
  rewrite !filter_filter_id, bool_decide_eq_true_2 by done. done.
Qed.

Lemma prune_empty_since l now c since :
  prune_room l now (set_empty_since c since) = set_empty_since (prune_room l now c) since.
Proof. done. Qed.

Lemma omap_none {A B} (f : A → option B) l : (∀ x, x ∈ l → f x = None) → omap f l = [].
Proof.
  induction l as [|x l IH]; intros Hf; [done|]. cbn. rewrite Hf by left.
  apply IH. intros y Hy. apply Hf. by right.
Qed.

Record settled (l : Limits) (now : N) (c : ActiveCall) : Prop := {
  se_participants : ∀ who p, ac_participants c !! who = Some p →
    saturating_sub now (pa_last_seen p) < lm_participant_ttl l
    ∧ ∀ expires, pa_delegation_expires_at p = Some expires → now < expires;
  se_invitations : ∀ who i, ac_invitations c !! who = Some i → now < iv_expires_at i;
  se_duration : saturating_sub now (ac_started_at c) < lm_max_duration l;
  se_ringing : ac_kind c = Direct → ac_phase c = Ringing → now < ac_ring_expires_at c;
  se_empty : roster c = ∅ →
    ∃ since, ac_empty_since c = Some since ∧ saturating_sub now since < lm_empty_grace l;
}.

Lemma tick_room_settled l now c :
  (tick_room l now c).1.2 = None →
  settled l now (tick_room l now c).1.1
  ∧ tick_room l now (tick_room l now c).1.1 = ((tick_room l now c).1.1, None, false).
Proof.
  unfold tick_room at 1. cbv zeta. set (p := prune_room l now c).
  destruct (ring_over p now) eqn:Hring; [done|].
  case_match eqn:Hdrop; [done|].
  set (q := if ac_participants p === ∅ then _ else p).
  case_match eqn:Hend; [done|]. intros _.
  assert ((tick_room l now c).1.1 = q) as Hq.
  { unfold tick_room. cbv zeta. fold p. rewrite Hring, Hdrop. fold q. by rewrite Hend. }
  rewrite Hq. apply orb_false_iff in Hend as [Hdur Hgrace].
  assert (ac_participants q = ac_participants p ∧ ac_invitations q = ac_invitations p
    ∧ prune_room l now q = q ∧ ac_started_at q = ac_started_at p
    ∧ ring_over q now = ring_over p now
    ∧ (ac_participants q = ∅ → is_Some (ac_empty_since q))) as (Hps & Hiv & Hpr & Hst & Hro & Hem).
  { subst q. case_bool_decide as He; split_and!; try done.
    - rewrite prune_empty_since. unfold p. by rewrite prune_prune.
    - apply prune_prune. }
  clearbody q. split.
  - split.
    + intros who x. rewrite Hps. intros [_ Hx]%map_lookup_filter_Some. cbn in Hx.
      unfold still_present in Hx. apply andb_true_iff in Hx as [Hx1 Hx2].
      apply N.ltb_lt in Hx1. split; [done|]. intros e He. rewrite He in Hx2.
      by apply N.ltb_lt.
    + intros who i. rewrite Hiv. intros [_ Hi]%map_lookup_filter_Some. by apply N.ltb_lt.
    + by apply N.leb_gt.
    + intros Hk Hp. rewrite <-Hro in Hring. unfold ring_over in Hring. rewrite Hk, Hp in Hring.
      by apply N.leb_gt.
    + intros He. destruct Hem as [since Hs].
      { unfold roster in He. by apply fmap_empty_inv in He. }
      rewrite Hs in Hgrace. exists since. split; [done|]. by apply N.leb_gt.
  - unfold tick_room. cbv zeta. rewrite Hpr, Hro, Hring.
    rewrite (bool_decide_eq_true_2 (size (ac_participants q) = size (ac_participants q))) by done.
    rewrite (bool_decide_eq_true_2 (size (ac_invitations q) = size (ac_invitations q))) by done.
    cbn [negb]. rewrite andb_false_r.
    assert ((if ac_participants q === ∅
      then set_empty_since q (Some (default now (ac_empty_since q))) else q) = q) as ->.
    { clear Hdrop. case_bool_decide as He; [|done]. destruct (Hem He) as [since Hs]. rewrite Hs. cbn.
      clear -Hs. destruct q. cbn in *. by subst. }
    rewrite Hdur. cbn [orb]. by rewrite Hgrace.
Qed.

Section Events.
Context `{P : Platform} {S : AuthoritySerde} {C : CallSerde}.

Lemma tick_kept r now s c : rooms (tick r now).1 !! s = Some c →
  settled (limits r) now c ∧ tick_room (limits r) now c = (c, None, false).
Proof.
  intros Hc. rewrite tick_rooms in Hc. destruct (rooms r !! s) as [c0|]; [|done].
  cbn in Hc. destruct (tick_room (limits r) now c0).1.2 eqn:He; [done|]. injection Hc as <-.
  by apply tick_room_settled.
Qed.

(** A tick leaves only current calls: everyone still in a call was heard from within the
    configured lifetime under an unexpired delegation, every invitation is still open, no
    ring is over, no call exceeds the longest duration or stays empty beyond its grace;
    ticking again at the same instant changes and announces nothing. *)
Theorem tick_settles r now (Hr : reachable r) :
  (∀ s c, rooms (tick r now).1 !! s = Some c → settled (limits r) now c)
  ∧ tick (tick r now).1 now = ((tick r now).1, []).
Proof.
  pose proof (tick_kept r now) as Hall.
  split; [intros s c Hc; by apply (Hall s)|].
  set (r1 := (tick r now).1) in *. pose proof (tick_limits r now) as Hl. fold r1 in Hl.
  unfold tick. cbv zeta. rewrite Hl.
  assert (∀ x, x ∈ room_list r1 → tick_end (limits r) now x = None
    ∧ tick_presence (limits r) now x.2 = None) as Hq.
  { intros [s c] Hx%scope_list_elem. destruct (Hall s c Hx) as [_ Ht].
    unfold tick_end, tick_presence. cbn. by rewrite Ht. }
  rewrite !omap_none by (intros x Hx; by apply Hq). cbn.
  f_equal. destruct r1 as [l m] eqn:Er. unfold set_rooms. cbn in Hl |- *. f_equal.
  apply map_eq. intros s. rewrite lookup_fmap. destruct (m !! s) as [c|] eqn:Hc; [|done].
  cbn. f_equal. by destruct (Hall s c Hc) as [_ ->].
Qed.

(** ** A subscriber's picture

    What is serialized of a call: everything but when a participant was last seen, when its
    delegation ends, which invitation it accepted, and since when the call is empty. *)

Definition public_participant (p : Participant) : Participant :=
  set_last_seen (set_accepted (set_delegation p (pa_delegation p) None) None) 0.
Definition public_call (c : ActiveCall) : ActiveCall :=
  set_empty_since (set_participants c (public_participant <$> ac_participants c)
                     (ac_key_epoch c)) None.
Definition picture (r : Registry) : gmap Scope ActiveCall := public_call <$> rooms r.

Definition observe (m : gmap Scope ActiveCall) (e : Event) : gmap Scope ActiveCall :=
  match e with
  | PresenceEvent c => <[ac_scope c := public_call c]> m
  | EndedEvent s _ _ => delete s m
  | SignalEvent _ _ _ _ _ _ => m
  end.
Definition observe_all (m : gmap Scope ActiveCall) (l : list Event) : gmap Scope ActiveCall :=
  foldl observe m l.

Lemma picture_insert r s c :
  picture (set_rooms r (<[s := c]> (rooms r))) = <[s := public_call c]> (picture r).
Proof. unfold picture. cbn. apply fmap_insert. Qed.
Lemma picture_delete r s : picture (set_rooms r (delete s (rooms r))) = delete s (picture r).
Proof. unfold picture. cbn. apply fmap_delete. Qed.
Lemma picture_lookup r s c : rooms r !! s = Some c → picture r !! s = Some (public_call c).
Proof. intros H. unfold picture. by rewrite lookup_fmap, H. Qed.

Lemma public_same_participant c who p p' :
  ac_participants c !! who = Some p → public_participant p' = public_participant p →
  public_call (set_participants c (<[who := p']> (ac_participants c)) (ac_key_epoch c))
  = public_call c.
Proof.
  intros Hp Hq. unfold public_call, set_empty_since, set_participants. cbn. f_equal.
  rewrite fmap_insert, Hq. apply insert_id. by rewrite lookup_fmap, Hp.
Qed.

Lemma call_operation_silent l a c s who cmd now draw c' :
  call_operation l a c s who cmd now draw = Ok (Silent c') → public_call c' = public_call c.
Proof.
  unfold call_operation. intros H. destruct (cc_operation cmd); try done.
  - unfold do_join in H. step H x Hx. by step H y Hy.
  - unfold do_leave in H. step H x Hx. repeat case_match; by apply Ok_inj in H.
  - unfold do_decline in H. step H x Hx. case_match; [step H y Hy|]; by apply Ok_inj in H.
  - unfold do_cancel in H. step H x Hx. step H y Hy. by apply Ok_inj in H.
  - unfold do_end in H. step H x Hx. step H y Hy. by apply Ok_inj in H.
  - unfold do_invite in H. step H x Hx. step H y Hy. step H h Hh. step H m Hm. step H v Hv.
    case_match; [|step H w Hw]; by apply Ok_inj in H.
  - unfold do_heartbeat in H. step H p Hp. apply participant_Ok in Hp as [Hp _].
    apply Ok_inj in H as [= <-]. by apply (public_same_participant _ _ p).
  - unfold do_heartbeat in H. step H p Hp. apply participant_Ok in Hp as [Hp _].
    apply Ok_inj in H as [= <-]. by apply (public_same_participant _ _ p).
  - unfold do_media in H. step H x Hx. step H y Hy. by apply Ok_inj in H.
  - unfold do_signal in H. step H x Hx. step H y Hy. by apply Ok_inj in H.
Qed.

Lemma emit_is_signal l a c s who cmd now draw e :
  call_operation l a c s who cmd now draw = Ok (Emit e) →
  ∃ t id epoch from to cipher, e = SignalEvent t id epoch from to cipher.
Proof.
  intros (id & ep & to & ci & _ & H)%call_operation_emit. unfold do_signal in H.
  step H x Hx. step H y Hy. apply Ok_inj in H. injection H as <-. by eauto 7.
Qed.

(** A join is always announced. *)
Lemma join_announced l a c s who cmd now draw o :
  is_join (cc_operation cmd) = true → call_operation l a c s who cmd now draw = Ok o →
  ∃ c', o = Announce c'.
Proof.
  unfold call_operation. destruct (cc_operation cmd); try done. intros _ H.
  unfold do_join in H. step H x Hx. step H y Hy. apply Ok_inj in H as <-. eauto.
Qed.

Lemma applied_observed r a cmd who now draws r' ev :
  registry_wf r → applied r a cmd who now draws r' ev →
  observe_all (picture r) ev = picture r'
  ∧ ((∃ c, rooms r' !! command_scope cmd = Some c ∧ ev = [PresenceEvent c])
     ∨ ((∀ c, PresenceEvent c ∉ ev) ∧
        (rooms r' !! command_scope cmd = None
         ∨ is_start (cc_operation cmd) || is_join (cc_operation cmd) = false))).
Proof.
  intros Hwf Hap. pose proof (applied_one_room _ _ _ _ _ _ _ _ Hwf Hap) as Hone.
  destruct Hap as [c Hc Hring|Hop Hnr|h kind media cid invs Hop Hn Hh Hk Hm Hsz Hfree Hcid Hinv|
    c o r1 ev1 Hc Hring Hcfg Hcall Hfree Ho Hf].
  - split; [by rewrite picture_delete|]. right. split; [by intros c' ?%list_elem_of_singleton|].
    left. apply lookup_delete_eq.
  - destruct (rooms r !! command_scope cmd) as [c|] eqn:Hc.
    + split; [|left; by exists c]. cbn. rewrite (cw_scope _ _ _ (rw_calls _ Hwf _ _ Hc)).
      apply insert_id. by apply picture_lookup.
    + split; [done|]. right. split; [|by left]. intros c. apply not_elem_of_nil.
  - split; [by rewrite picture_insert|]. left. eexists. cbn. by rewrite lookup_insert_eq.
  - assert ((∃ c', o = Announce c') ∨ is_start (cc_operation cmd) || is_join (cc_operation cmd) = false)
      as Hj.
    { destruct (is_join (cc_operation (as_join c cmd))) eqn:E.
      - left. by eapply join_announced.
      - right. revert E. unfold as_join. by destruct (is_start (cc_operation cmd)). }
    destruct o as [c'|c'|e|reason]; cbn in Hf.
    + apply Ok_inj in Hf as [= <- <-]. pose proof (or_room _ _ _ _ Hone) as Hev. cbn in Hev.
      rewrite lookup_insert_eq in Hev. split.
      * rewrite picture_insert. cbn.
        by rewrite (cw_scope _ _ _ (evolves_wf _ _ _ _ _ Hev (rw_calls _ Hwf _))).
      * left. exists c'. cbn. by rewrite lookup_insert_eq.
    + apply Ok_inj in Hf as [= <- <-]. split.
      * rewrite picture_insert, (call_operation_silent _ _ _ _ _ _ _ _ _ Ho). cbn.
        symmetry. apply insert_id. by apply picture_lookup.
      * right. split; [intros c0; apply not_elem_of_nil|]. by destruct Hj as [[? ?]|?]; [|right].
    + apply Ok_inj in Hf as [= <- <-].
      apply emit_is_signal in Ho as (t & id & ep & from & to & ci & ->). split; [done|].
      right. split; [by intros c0 ?%list_elem_of_singleton|].
      by destruct Hj as [[? ?]|?]; [|right].
    + unfold ending, end_with_reason in Hf. rewrite Hc in Hf. cbn in Hf.
      apply Ok_inj in Hf as [= <- <-]. split; [by rewrite picture_delete|].
      right. split; [by intros c0 ?%list_elem_of_singleton|]. left. apply lookup_delete_eq.
Qed.

Lemma refresh_quiet r s l : (∀ c, PresenceEvent c ∉ l) → map (refresh_event r s) l = l.
Proof.
  induction l as [|e l IH]; intros H; [done|]. cbn. rewrite IH by set_solver.
  f_equal. unfold refresh_event. destruct e; try done. destruct (H call). left.
Qed.

Lemma refreshed_observed r r1 ev1 s cred d e :
  registry_wf r → one_room r s cred r1 → observe_all (picture r) ev1 = picture r1 →
  ((∃ c, rooms r1 !! s = Some c ∧ ev1 = [PresenceEvent c]) ∨ (rooms r1 !! s = None
     ∧ ∀ c, PresenceEvent c ∉ ev1)) →
  let r2 := bind_delegation r1 s cred d e in
  observe_all (picture r) (map (refresh_event r2 s) ev1) = picture r2.
Proof.
  intros Hwf Hone Hob Hev. cbv zeta. destruct Hev as [(c & Hc & ->)|[Hn Hq]].
  - destruct (bind_delegation_spec r1 s cred d e) as [Hb|(c0 & who & p & Hc0 & Hp & _ & Hb)];
      rewrite Hb.
    + cbn. by rewrite Hc.
    + rewrite Hc in Hc0. injection Hc0 as <-.
      rewrite picture_insert, <-Hob. cbn. rewrite lookup_insert_eq. cbn.
      pose proof (or_room _ _ _ _ Hone) as He. rewrite Hc in He.
      rewrite (cw_scope _ _ _ (evolves_wf _ _ _ _ _ He (rw_calls _ Hwf _))).
      by rewrite insert_insert_eq.
  - rewrite refresh_quiet by done. unfold bind_delegation. by rewrite Hn.
Qed.

(** ** Endings and ticks *)

Lemma end_all_observed l : ∀ r m,
  NoDup l.*1 → (∀ t, t ∈ l.*1 → is_Some (rooms r !! t)) →
  (∀ t, t ∉ l.*1 → m !! t = picture r !! t) →
  observe_all m (end_all r l).2 = picture (end_all r l).1.
Proof.
  induction l as [|[s reason] l IH]; intros r m Hnd Hex Hm; cbn.
  - apply map_eq. intros t. apply Hm, not_elem_of_nil.
  - apply NoDup_cons in Hnd as [Hni Hnd]. destruct (Hex s) as [c Hc]; [left|].
    unfold end_with_reason. rewrite Hc. set (r1 := set_rooms r (delete s (rooms r))).
    specialize (IH r1 (delete s m) Hnd). destruct (end_all r1 l) as [r2 es]. apply IH.
    + intros t Ht. cbn. rewrite lookup_delete_ne; [apply Hex; by right|]. by intros ->.
    + intros t Ht. subst r1. rewrite picture_delete, !lookup_delete.
      case_decide; [done|]. apply Hm. cbn. rewrite not_elem_of_cons. naive_solver.
Qed.

Lemma presence_unseen l now L : ∀ m t,
  (∀ s c, (s, c) ∈ L → call_wf l s c) →
  (∀ c, (t, c) ∈ L → (tick_room l now c).2 = false) →
  observe_all m (omap (λ sr, tick_presence l now sr.2) L) !! t = m !! t.
Proof.
  induction L as [|[s c] L IH]; intros m t Hw Hq; [done|]. cbn. unfold tick_presence at 1.
  destruct (tick_room l now c).2 eqn:Hf.
  - cbn. rewrite IH by set_solver.
    destruct (tick_room_spec l s now c) as (Hs & _).
    rewrite (sc_scope_ _ _ Hs), (cw_scope l s c) by (apply Hw; left).
    rewrite lookup_insert_ne; [done|]. intros ->. specialize (Hq c). rewrite Hf in Hq.
    by discriminate Hq; left.
  - apply IH; set_solver.
Qed.

Lemma presence_seen l now L : ∀ m t c,
  NoDup L.*1 → (∀ s c, (s, c) ∈ L → call_wf l s c) →
  (t, c) ∈ L → (tick_room l now c).2 = true →
  observe_all m (omap (λ sr, tick_presence l now sr.2) L) !! t
  = Some (public_call (tick_room l now c).1.1).
Proof.
  induction L as [|[s d] L IH]; intros m t c Hnd Hw Hin Hf; [by apply not_elem_of_nil in Hin|].
  apply NoDup_cons in Hnd as [Hni Hnd]. apply elem_of_cons in Hin as [[= -> ->]|Hin].
  - cbn. unfold tick_presence at 1. rewrite Hf. cbn. rewrite presence_unseen.
    + destruct (tick_room_spec l s now d) as (Hs & _).
      rewrite (sc_scope_ _ _ Hs), (cw_scope l s d) by (apply Hw; left). apply lookup_insert_eq.
    + intros s' c' Hc'. apply Hw. by right.
    + intros c' Hc'. destruct Hni. apply list_elem_of_fmap. by exists (s, c').
  - cbn. destruct (tick_presence l now d); cbn; eapply IH; try done;
      intros s' c' Hc'; apply Hw; by right.
Qed.

(** A room that neither ended nor is announced looks as before. *)
Lemma tick_room_quiet l now c :
  (tick_room l now c).1.2 = None → (tick_room l now c).2 = false →
  public_call (tick_room l now c).1.1 = public_call c.
Proof.
  intros He Hq. assert (prune_room l now c = c) as Hp.
  { unfold tick_room in He, Hq. cbv zeta in He, Hq.
    destruct (ring_over _ _); [done|]. destruct (_ && _) eqn:Ha; [done|].
    destruct (_ || _) eqn:Hb in He; [done|]. rewrite Hb in Hq. cbn in Hq.
    apply orb_false_iff in Hq as [Hq1 Hq2].
    apply negb_false_iff, bool_decide_eq_true in Hq1, Hq2. unfold prune_room in *. cbn in Hq1, Hq2.
    apply filter_same_size in Hq1, Hq2. cbv zeta. rewrite Hq1, bool_decide_eq_true_2 by done.
    unfold set_invitations, set_ringing, set_participants. cbn. rewrite Hq2. by destruct c. }
  destruct (tick_room_pruned l now c) as (since & [-> | ->]); by rewrite Hp.
Qed.

Lemma tick_observed r now :
  registry_wf r → observe_all (picture r) (tick r now).2 = picture (tick r now).1.
Proof.
  intros Hwf. assert (∀ s c, (s, c) ∈ room_list r → call_wf (limits r) s c) as Hw
    by (intros s c Hc%scope_list_elem; by apply Hwf).
  unfold tick. cbv zeta. set (L := omap (tick_end (limits r) now) (room_list r)).
  set (r1 := set_rooms r _).
  pose proof (tick_ended_elem r now) as HL. fold L in HL.
  pose proof (end_all_observed L r1
    (observe_all (picture r) (omap (λ sr, tick_presence (limits r) now sr.2) (room_list r)))) as H.
  destruct (end_all r1 L) as [r2 es]. cbn [fst snd] in H |- *. unfold observe_all.
  rewrite foldl_app. apply H; clear H.
  - apply omap_fst_NoDup; [apply tick_end_fst|apply scope_list_NoDup].
  - intros t (c & reason & Hc & _)%HL. subst r1. cbn. rewrite lookup_fmap, Hc. by eexists.
  - intros t Ht. assert (picture r1 !! t = (λ c, public_call (tick_room (limits r) now c).1.1) <$> (rooms r !! t)) as ->
      by (unfold picture, r1; cbn; by rewrite !lookup_fmap, <-option_fmap_compose).
    destruct (rooms r !! t) as [c|] eqn:Hc; cbn.
    + destruct (tick_room (limits r) now c).1.2 as [reason|] eqn:He;
        [destruct Ht; apply HL; eauto|].
      destruct (tick_room (limits r) now c).2 eqn:Hf.
      * by apply presence_seen; [apply scope_list_NoDup|done|apply scope_list_elem|].
      * rewrite presence_unseen; [|done|].
        -- rewrite tick_room_quiet by done. by apply picture_lookup.
        -- intros c' Hc'%scope_list_elem. congruence.
    + rewrite presence_unseen; [|done|].
      * unfold picture. by rewrite lookup_fmap, Hc.
      * intros c' Hc'%scope_list_elem. congruence.
Qed.

Lemma end_observed r s reason :
  observe_all (picture r) (option_list (end_with_reason r s reason).2)
  = picture (end_with_reason r s reason).1.
Proof.
  unfold end_with_reason. destruct (rooms r !! s); [|done].
  exact (eq_sym (picture_delete r s)).
Qed.

(** The events of a step, replayed on the picture of the calls before it, give the picture of
    the calls after it. *)
Lemma step_observed r r' ev :
  reachable r → registry_step r r' ev → observe_all (picture r) ev = picture r'.
Proof.
  intros Hr Hs. pose proof (reachable_wf _ Hr) as Hwf.
  destruct Hs as [a cmd now d draws r' ev H|s h|sp|s who|now].
  - apply apply_with_delegation_Ok in H as (who & e & r1 & ev1 & _ & _ & _ & Hap & Heq).
    pose proof (applied_one_room _ _ _ _ _ _ _ _ Hwf Hap) as Hone.
    destruct (applied_observed _ _ _ _ _ _ _ _ Hwf Hap) as [Hob Hev].
    destruct (is_start _ || is_join _) eqn:Hsj; [|by injection Heq as -> ->].
    cbv zeta in Heq. injection Heq as -> ->. apply refreshed_observed; [done..|].
    destruct Hev as [?|[? [?|?]]]; [by left|by right|congruence].
  - unfold configuration_changed, end_. destruct (rooms r !! s); [|done].
    case_bool_decide; cbn; [done|]. pose proof (end_observed r s EndUnauthorized).
    by destruct (end_with_reason _ _ _).
  - unfold revoke_space. apply end_all_observed.
    + rewrite <-list_fmap_compose. cbn. rewrite list_fmap_id.
      apply NoDup_ListNoDup, List.NoDup_filter, NoDup_ListNoDup, scope_list_NoDup.
    + intros t. rewrite <-list_fmap_compose. cbn. rewrite list_fmap_id.
      intros [Ht _]%filter_true.
      apply list_elem_of_fmap in Ht as ([t' c] & -> & Hc).
      apply scope_list_elem in Hc. by exists c.
    + done.
  - unfold revoke_member, end_. destruct (rooms r !! s); [|done].
    case_bool_decide; cbn; [|done]. pose proof (end_observed r s EndUnauthorized).
    by destruct (end_with_reason _ _ _).
  - by apply tick_observed.
Qed.
End Events.
