(* ===== verification/CallEngine.v ===== *)
(** * The call service's engine (crates/elo-call-service/src/engine.rs, engine/request_limits.rs)

    What stands between a signed request and the call registry: decoding and verifying it
    against a membership proof, the persistent fences that keep a conversation's authority
    from rolling back, and the receipts that admit each command once. *)

From S2P Require Import Prelude Platform Ids Record Chat Identity AuthorityData AuthorityWitness Authority AuthorityProof CallWire CallRegistry.

Definition MAX_SCOPES : N := 4096.
Definition MAX_CACHED_PROOFS : N := 64 * 1024 * 1024.
Definition MAX_FRAME : N := 9 * 1024 * 1024.

(** ** Bounded collections (request_limits.rs) *)

(** The [visit_seq] of [Strings<N>]: an element is [None] where it is not a string. *)
Fixpoint visit_strings (n : N) (values : list string) (input : list (option string))
    : option (list string) :=
  match input with
  | [] => Some values
  | None :: _ => None
  | Some value :: input =>
      if nlen values =? n then None else visit_strings n (values ++ [value]) input
  end.
Definition strings (n : N) (input : list (option string)) : option (list string) :=
  visit_strings n [] input.

(** A proof as serde sees it before its collections are bounded. *)
Record RawProof := {
  rp_v : N; rp_genesis : string; rp_credentials : list (option string);
  rp_configs : list (option string); rp_checkpoint : option string;
}.
Definition bounded_proof (p : RawProof) : option CallAuthorityProof :=
  credentials ← strings 8192 (rp_credentials p);
  configs ← strings 4096 (rp_configs p);
  Some {| pf_v := rp_v p; pf_genesis := rp_genesis p; pf_credentials := credentials;
          pf_configs := configs; pf_checkpoint := rp_checkpoint p |}.

(** ** Requests *)

Record Request := {
  rq_command : string; rq_proof : option CallAuthorityProof; rq_delegation : option string;
}.

Record Preparation := {
  pr_request : Request; pr_signed : SignedRecord; pr_scope : Scope; pr_audience : string;
  pr_cached : option Authority; pr_witness : option WitnessPin;
}.

Record DelegationLease := { ls_config_id : RecordId; ls_expires_at : N }.
Definition permits (l : DelegationLease) (head : RecordId) (now : N) : bool :=
  (ls_config_id l === head) && (now <? ls_expires_at l).

Record Prepared := {
  pp_command : Command; pp_identity : IdentityId; pp_request_id : RecordId;
  pp_authority : Authority; pp_proof : option CallAuthorityProof;
  pp_delegation : option string; pp_delegation_lease : option DelegationLease;
}.

Record Applied := {
  ap_request_id : RecordId; ap_scope : Scope; ap_call : option ActiveCall;
  ap_events : list Event; ap_duplicate : bool;
}.

Record Fence := {
  fe_head : RecordId; fe_recovery : option RecordId; fe_sequence : N;
  fe_authority : option Authority; fe_proof_bytes : N; fe_last_used : N; fe_blocked : bool;
}.

(** ** Tables: identifiers are stored as their text. *)

Record FenceRow := {
  fw_head : string; fw_sequence : N; fw_blocked : bool; fw_recovery : option string;
}.
Record ReceiptRow := { rw_request_id : string; rw_expires : N }.

Record Engine := {
  db_fences : gmap string FenceRow;
  db_receipts : gmap (string * string) ReceiptRow;
  en_audience : string;
  en_witness : option WitnessPin;
  fences : gmap Scope Fence;
  pending : list Event;
  registry : Registry;
}.

Definition set_db_fences (e : Engine) (x : gmap string FenceRow) : Engine :=
  {| db_fences := x; db_receipts := db_receipts e; en_audience := en_audience e;
     en_witness := en_witness e; fences := fences e; pending := pending e;
     registry := registry e |}.
Definition set_db_receipts (e : Engine) (x : gmap (string * string) ReceiptRow) : Engine :=
  {| db_fences := db_fences e; db_receipts := x; en_audience := en_audience e;
     en_witness := en_witness e; fences := fences e; pending := pending e;
     registry := registry e |}.
Definition set_fences (e : Engine) (x : gmap Scope Fence) : Engine :=
  {| db_fences := db_fences e; db_receipts := db_receipts e; en_audience := en_audience e;
     en_witness := en_witness e; fences := x; pending := pending e; registry := registry e |}.
Definition set_registry (e : Engine) (r : Registry) (events : list Event) : Engine :=
  {| db_fences := db_fences e; db_receipts := db_receipts e; en_audience := en_audience e;
     en_witness := en_witness e; fences := fences e; pending := events; registry := r |}.

Definition use_fence (f : Fence) (a : option Authority) (bytes now : N) : Fence :=
  {| fe_head := fe_head f; fe_recovery := fe_recovery f; fe_sequence := fe_sequence f;
     fe_authority := a; fe_proof_bytes := bytes; fe_last_used := now;
     fe_blocked := fe_blocked f |}.
Definition block_fence (f : Fence) : Fence :=
  {| fe_head := fe_head f; fe_recovery := fe_recovery f; fe_sequence := fe_sequence f;
     fe_authority := fe_authority f; fe_proof_bytes := fe_proof_bytes f;
     fe_last_used := fe_last_used f; fe_blocked := true |}.
Definition block_row (w : FenceRow) : FenceRow :=
  {| fw_head := fw_head w; fw_sequence := fw_sequence w; fw_blocked := true;
     fw_recovery := fw_recovery w |}.

(** ** Engine steps: a state and an early return

    An error keeps the state its step had reached. *)

Definition step (A : Type) : Type := Engine → Engine * result CallError A.
#[global] Instance step_ret : MRet step := λ A x e, (e, Ok x).
#[global] Instance step_bind : MBind step := λ A B f m e,
  match m e with
  | (e', Ok x) => f x e'
  | (e', Err err) => (e', Err err)
  end.
Definition lift {A} (r : result CallError A) : step A := λ e, (e, r).
Definition gets {A} (f : Engine → A) : step A := λ e, (e, Ok (f e)).

Section CallEngine.
Context `{P : Platform} {S : AuthoritySerde} {W : WitnessSerde} {C : CallSerde}.

(** [i64::try_from] of an unsigned integer *)
Definition to_i64 (n : N) : result CallError N :=
  if n <? 9223372036854775808 then Ok n else Err Invalid.

(** ** Preparing a request *)

Definition request_credential (p : Preparation) (id : RecordId)
    : result CallError VerifiedCredential :=
  match rq_proof (pr_request p) with
  | Some proof => map_err (proof_credential proof id) Unauthorized
  | None =>
      a ← ok_or (pr_cached p) Unauthorized;
      map_err (credential a id) Unauthorized
  end.

Definition authenticate (p : Preparation) (now : N) : result CallError (Command * IdentityId) :=
  claimed ← map_err (decode (T := Command) (pr_signed p)) Invalid;
  cred ← request_credential p (cc_credential_id claimed);
  command ←
    match rq_delegation (pr_request p) with
    | Some encoded =>
        certificate ← map_err (Delegated.decode_certificate encoded) Unauthorized;
        map_err (Delegated.verify_command_authorship cred (pr_signed p) certificate
                   (pr_audience p) now) Unauthorized
    | None =>
        map_err (verify_command_authorship cred (pr_signed p) (pr_audience p) now) Unauthorized
    end;
  mret (command, vc_identity cred).

(** The authority a request is judged by: its own proof, verified without or with the
    operator's witness, or the cached one. *)
Definition request_authority (p : Preparation) : result CallError Authority :=
  match rq_proof (pr_request p) with
  | Some proof =>
      let sp := cs_space_id (conversation (pr_scope p)) in
      let st := cs_stream_id (conversation (pr_scope p)) in
      match proof_verify proof sp st with
      | Ok a => Ok a
      | Err _ =>
          match pr_witness p with
          | Some pin => map_err (verify_witnessed proof sp st pin) Unauthorized
          | None => Err Unauthorized
          end
      end
  | None => ok_or (pr_cached p) Unauthorized
  end.

(** The command of a request, and the lease of the delegation that signed it. *)
Definition request_command (p : Preparation) (a : Authority) (now : N)
    : result CallError (Command * option DelegationLease) :=
  match rq_delegation (pr_request p) with
  | Some encoded =>
      certificate ← map_err (Delegated.decode_certificate encoded) Unauthorized;
      verified ← map_err (Delegated.verify a certificate (hosting_space_id (pr_scope p))
                            (pr_audience p) now) Unauthorized;
      command ← map_err (Delegated.verify_command a (pr_signed p) certificate
                           (pr_audience p) now) Unauthorized;
      mret (command, Some {| ls_config_id := dl_config_id (vd_body verified);
                             ls_expires_at := dl_expires_at (vd_body verified) |})
  | None =>
      command ← map_err (verify_command a (pr_signed p) (pr_audience p) now) Unauthorized;
      mret (command, None)
  end.

Definition verify (p : Preparation) (now : N) : result CallError Prepared :=
  a ← request_authority p;
  cl ← request_command p a now;
  who ← map_err (require_member a (cc_credential_id cl.1)) Unauthorized;
  mret {| pp_command := cl.1; pp_identity := who; pp_request_id := record_id (pr_signed p);
          pp_authority := a; pp_proof := rq_proof (pr_request p);
          pp_delegation := rq_delegation (pr_request p); pp_delegation_lease := cl.2 |}.

(** ** Fences *)

Definition scope_key (s : Scope) : string :=
  display (hosting_space_id s) +:+ ":" +:+ display (cs_space_id (conversation s))
  +:+ ":" +:+ display (cs_stream_id (conversation s)).

Definition parse_row (w : FenceRow) : result CallError Fence :=
  _ ← fail_if (fw_sequence w =? 0) Unavailable;
  h ← ok_or (parse_hex 32 (fw_head w)) Unavailable;
  recovery ← match fw_recovery w with
             | None => mret None
             | Some s => id ← ok_or (parse_hex 32 s) Unavailable; mret (Some id)
             end;
  mret {| fe_head := h; fe_recovery := recovery; fe_sequence := fw_sequence w;
          fe_authority := None; fe_proof_bytes := 0; fe_last_used := 0;
          fe_blocked := fw_blocked w |}.

Definition stored_fence (e : Engine) (s : Scope) : result CallError (option Fence) :=
  transpose (parse_row <$> db_fences e !! scope_key s).

Definition blocked_fence (o : option Fence) : bool :=
  match o with Some f => fe_blocked f | None => false end.

Definition preparation (e : Engine) (request : Request) (device : option RecordId)
    : result CallError Preparation :=
  _ ← fail_if (192 * 1024 <? slen (rq_command request)) Invalid;
  bytes ← ok_or (base64_decode (rq_command request)) Invalid;
  signed ← map_err (parse bytes) Invalid;
  unverified ← map_err (decode (T := Command) signed) Invalid;
  _ ← fail_if match device with
              | Some d => d =/= cc_credential_id unverified
              | None => false
              end Unauthorized;
  let s := command_scope unverified in
  _ ← fail_if (blocked_fence (fences e !! s)) Unauthorized;
  stored ← stored_fence e s;
  _ ← fail_if (blocked_fence stored) Unauthorized;
  mret {| pr_request := request; pr_signed := signed; pr_scope := s;
          pr_audience := en_audience e; pr_cached := fences e !! s ≫= fe_authority;
          pr_witness := en_witness e |}.

Definition prepare (e : Engine) (request : Request) (device : option RecordId) (now : N)
    : result CallError Prepared :=
  p ← preparation e request device; verify p now.

End CallEngine.

(** ** [Engine::execute] *)

Section Execute.
Context `{P : Platform} {S : AuthoritySerde} {W : WitnessSerde} {C : CallSerde}.

(** The cached fence that may make room: idle, and the longest unused. *)
Definition idle_fence (e : Engine) (now : N) : option Scope :=
  fst <$> min_by_key (λ kf : Scope * Fence, fe_last_used kf.2)
    (List.filter (λ kf, bool_decide (presence (registry e) kf.1 = None)
                        && (120 <=? saturating_sub now (fe_last_used kf.2)))
       (scope_list (fences e))).

Definition make_room (now : N) : step unit := λ e,
  if MAX_SCOPES <=? N.of_nat (size (fences e)) then
    match idle_fence e now with
    | Some idle => (set_fences e (delete idle (fences e)), Ok tt)
    | None => (e, Err Unavailable)
    end
  else (e, Ok tt).

Definition load_stored (s : Scope) : step unit := λ e,
  match stored_fence e s with
  | Err err => (e, Err err)
  | Ok None => (e, Ok tt)
  | Ok (Some f) => (set_fences e (<[s := f]> (fences e)), Ok tt)
  end.

Definition load_fence (s : Scope) (now : N) : step unit := λ e,
  if bool_decide (is_Some (fences e !! s)) then (e, Ok tt)
  else (_ ← make_room now; load_stored s) e.

(** The bytes the proof cache would hold for this conversation and for the others. *)
Definition proof_size (p : CallAuthorityProof) : N :=
  slen (pf_genesis p) + match pf_checkpoint p with Some s => slen s | None => 0 end
  + foldr (λ s n, slen s + n) 0 (pf_credentials p ++ pf_configs p).
Definition proof_bytes (e : Engine) (s : Scope) (proof : option CallAuthorityProof) : N :=
  match proof with
  | Some p => proof_size p
  | None => match fences e !! s with Some f => fe_proof_bytes f | None => 0 end
  end.
Definition other_bytes (e : Engine) (s : Scope) : N :=
  map_fold (λ k f n, (if k === s then 0 else fe_proof_bytes f) + n) 0 (fences e).

Definition proof_budget (s : Scope) (proof : option CallAuthorityProof) : step N := λ e,
  let bytes := proof_bytes e s proof in
  if MAX_CACHED_PROOFS <? saturating_add bytes (other_bytes e s) then (e, Err Unavailable)
  else (e, Ok bytes).

(** A proof that neither continues the fence nor is older blocks the conversation. *)
Definition block (s : Scope) (cfg : RecordId) : step bool := λ e,
  let e := set_db_fences e (alter block_row (scope_key s) (db_fences e)) in
  let e := set_fences e (alter block_fence s (fences e)) in
  let (r, events) := configuration_changed (registry e) s cfg in
  (set_registry e r (pending e ++ events), Err Unauthorized).

(** Whether the fence moves; [Err] where the authority is not a successor of it. *)
Definition check_fence (s : Scope) (c : Command) (a : Authority) : step bool := λ e,
  match fences e !! s with
  | Some old =>
      if fe_blocked old then (e, Err Unauthorized)
      else if negb (proves_recovery_ancestor a (fe_recovery old)) then (e, Err Unauthorized)
      else if fe_head old === cc_config_id c then (e, Ok false)
      else if proves_config_at a (fe_head old) (fe_sequence old) then (e, Ok true)
      else
        match head_config a with
        | Err _ => (e, Err Unauthorized)
        | Ok h =>
            if sc_sequence h <? fe_sequence old then (e, Err Unauthorized)
            else block s (cc_config_id c) e
        end
  | None =>
      if MAX_SCOPES <=? N.of_nat (size (fences e)) then (e, Err Unavailable) else (e, Ok true)
  end.

Definition touch_fence (s : Scope) (a : Authority) (bytes now : N) : step unit := λ e,
  match fences e !! s with
  | None => (e, Err Unauthorized)
  | Some f => (set_fences e (<[s := use_fence f (Some a) bytes now]> (fences e)), Ok tt)
  end.

Definition receipt_key (c : Command) : string * string :=
  (display (cc_credential_id c), cc_nonce c).

(** The receipt of an earlier command with this credential and nonce. *)
Definition replayed (c : Command) (request_id : RecordId) (e : Engine)
    : result CallError bool :=
  match db_receipts e !! receipt_key c with
  | None => Ok false
  | Some w => if rw_request_id w === display request_id then Ok true else Err Unauthorized
  end.

Definition save_fence (s : Scope) (c : Command) (a : Authority)
    (proof : option CallAuthorityProof) (bytes now : N) : step unit := λ e,
  match
    _ ← ok_or proof Unauthorized;
    h ← map_err (head_config a) Unauthorized;
    seq ← to_i64 (sc_sequence h);
    mret seq
  with
  | Err err => (e, Err err)
  | Ok seq =>
      let row := {| fw_head := display (cc_config_id c); fw_sequence := seq;
                    fw_blocked := match db_fences e !! scope_key s with
                                  | Some w => fw_blocked w | None => false end;
                    fw_recovery := display <$> recovery_id a |} in
      let e := set_db_fences e (<[scope_key s := row]> (db_fences e)) in
      let e := set_fences e (<[s :=
        {| fe_head := cc_config_id c; fe_recovery := recovery_id a; fe_sequence := seq;
           fe_authority := Some a; fe_proof_bytes := bytes; fe_last_used := now;
           fe_blocked := false |}]> (fences e)) in
      let (r, events) := configuration_changed (registry e) s (cc_config_id c) in
      (set_registry e r (pending e ++ events), Ok tt)
  end.

(** [DELETE FROM receipts WHERE expires<=?1] *)
Definition purge_receipts (m : gmap (string * string) ReceiptRow) (now : N)
    : gmap (string * string) ReceiptRow :=
  filter (λ kw, now < rw_expires kw.2) m.

Definition insert_receipt (m : gmap (string * string) ReceiptRow) (c : Command)
    (request_id : RecordId) (expires : N) : result CallError (gmap (string * string) ReceiptRow) :=
  match m !! receipt_key c with
  | Some _ => Err Unavailable
  | None => Ok (<[receipt_key c :=
                   {| rw_request_id := display request_id; rw_expires := expires |}]> m)
  end.

(** The operation on a copy of the registry, kept only with its receipt. *)
Definition run_command (c : Command) (a : Authority) (delegation : option string)
    (request_id : RecordId) (now : N) (draws : option string * option string)
    : step (list Event) := λ e,
  match
    applied ← apply_with_delegation (registry e) a c now delegation draws;
    at_ ← to_i64 now;
    expires ← to_i64 (cc_expires_at c);
    receipts ← insert_receipt (purge_receipts (db_receipts e) at_) c request_id expires;
    mret (applied, receipts)
  with
  | Err err => (e, Err err)
  | Ok (applied, receipts) =>
      (set_registry (set_db_receipts e receipts) applied.1 (pending e), Ok applied.2)
  end.

Definition applied_answer (request_id : RecordId) (s : Scope) (events : list Event)
    (duplicate : bool) (e : Engine) : Applied :=
  {| ap_request_id := request_id; ap_scope := s; ap_call := presence (registry e) s;
     ap_events := events; ap_duplicate := duplicate |}.

Definition execute (p : Prepared) (now : N) (draws : option string * option string)
    : step Applied :=
  let c := pp_command p in
  let a := pp_authority p in
  let s := command_scope c in
  _ ← lift (fail_if (cc_expires_at c <=? now) Unauthorized);
  _ ← load_fence s now;
  bytes ← proof_budget s (pp_proof p);
  changed ← check_fence s c a;
  _ ← (if changed : bool then mret tt else touch_fence s a bytes now);
  duplicate ← gets (replayed c (pp_request_id p));
  duplicate ← lift duplicate;
  if duplicate : bool then gets (applied_answer (pp_request_id p) s [] true)
  else
    _ ← (if changed : bool then save_fence s c a (pp_proof p) bytes now else mret tt);
    events ← run_command c a (pp_delegation p) (pp_request_id p) now draws;
    gets (applied_answer (pp_request_id p) s events false).

(** ** The other operations *)

Definition open_with_witness (db : gmap string FenceRow * gmap (string * string) ReceiptRow)
    (aud : string) (l : Limits) (witness : option WitnessPin) : option Engine :=
  _ ← match witness with None => Some tt | Some pin => to_option (pin_validate pin) end;
  r ← to_option (new l);
  Some {| db_fences := db.1; db_receipts := db.2; en_audience := aud; en_witness := witness;
          fences := ∅; pending := []; registry := r |}.

Definition authorized (e : Engine) (s : Scope) (cred : RecordId) : bool :=
  match fences e !! s with
  | Some f => negb (fe_blocked f)
              && match fe_authority f with
                 | Some a => is_ok (require_member a cred)
                 | None => false
                 end
  | None => false
  end.

Definition authorized_head (e : Engine) (s : Scope) (cred : RecordId) (now : N)
    : Engine * option RecordId :=
  if negb (authorized e s cred) then (e, None)
  else
    match fences e !! s with
    | None => (e, None)
    | Some f =>
        (set_fences e (<[s := use_fence f (fe_authority f) (fe_proof_bytes f) now]> (fences e)),
         Some (fe_head f))
    end.

Definition take_events (e : Engine) : Engine * list Event :=
  (set_registry e (registry e) [], pending e).

(** An idle fence without a call forgets its proof. *)
Definition rest_fence (r : Registry) (now : N) (s : Scope) (f : Fence) : Fence :=
  if (120 <=? saturating_sub now (fe_last_used f)) && bool_decide (presence r s = None)
  then use_fence f None 0 (fe_last_used f) else f.

Definition maintain (now : N) : step (list Event) := λ e,
  match to_i64 now with
  | Err err => (e, Err err)
  | Ok at_ =>
      let e := set_db_receipts e (purge_receipts (db_receipts e) at_) in
      let (r, events) := tick (registry e) now in
      let e := set_registry e r (pending e) in
      (set_fences e (map_imap (λ s f, Some (rest_fence r now s f)) (fences e)), Ok events)
  end.

End Execute.
