(* ===== verification/CallEngineFacts.v ===== *)
(** * The call engine: shared lemmas

    The keys of conversations, what a verified membership proof gives, the size of the proof
    cache, the engine's invariant, and what each part of a command's execution leaves. *)

From S2P Require Import Prelude Platform Ids Record Chat Identity AuthorityData AuthorityWitness Authority AuthorityProof AuthorityInv AuthorityFacts ProofFacts CallWire CallRegistry CallFacts CallSafety CallEngine.

(** ** Keys of conversations *)

Lemma hex_char_colon d : d < 16 → hex_char d ≠ Ascii.ascii_of_N 58.
Proof.
  intros Hd H. pose proof (digit_hex_char d Hd) as Hg. rewrite H in Hg.
  by vm_compute in Hg.
Qed.

Lemma display_colon_inj a : ∀ b x y,
  display a +:+ String (Ascii.ascii_of_N 58) x = display b +:+ String (Ascii.ascii_of_N 58) y →
  a = b ∧ x = y.
Proof.
  assert (∀ c, byte_val c / 16 < 16 ∧ byte_val c mod 16 < 16) as Hlt.
  { intros c. pose proof (byte_val_lt c). split; [apply N.Div0.div_lt_upper_bound|apply N.mod_lt]; lia. }
  induction a as [|c a IH]; intros [|d b] x y; cbn [display String.append].
  - by intros [= ->].
  - intros [= H _]. destruct (hex_char_colon _ (proj1 (Hlt d))). done.
  - intros [= H _]. destruct (hex_char_colon _ (proj1 (Hlt c))). done.
  - intros [= H1 H2 H]. apply IH in H as [-> ->]. split; [|done]. f_equal.
    pose proof (digit_hex_char _ (proj1 (Hlt c))) as D1.
    pose proof (digit_hex_char _ (proj2 (Hlt c))) as D2.
    rewrite H1, digit_hex_char in D1 by apply Hlt. rewrite H2, digit_hex_char in D2 by apply Hlt.
    rewrite <-(byte_of_val c), <-(byte_of_val d). f_equal.
    rewrite (N.div_mod' (byte_val c) 16), (N.div_mod' (byte_val d) 16). congruence.
Qed.

Lemma scope_key_inj s t : scope_key s = scope_key t → s = t.
Proof.
  unfold scope_key. intros H. change ":" with (String (Ascii.ascii_of_N 58) "") in H.
  cbn [String.append] in H. apply display_colon_inj in H as [H1 H].
  apply display_colon_inj in H as [H2 H3%display_inj].
  destruct s as [h [sp st]], t as [h' [sp' st']]. cbn in *. congruence.
Qed.

(** ** Verified membership proofs *)

Section Verified.
Context `{P : Platform} {S : AuthoritySerde} {W : WitnessSerde}.

(** An authority a portable proof of this conversation verifies to. *)
Definition verified_for (s : Scope) (a : Authority) : Prop :=
  verified_as (cs_space_id (conversation s)) (cs_stream_id (conversation s)) a.
End Verified.

(** ** The size of the proof cache *)

Definition cached_bytes (m : gmap Scope Fence) : N :=
  map_fold (λ _ f n, fe_proof_bytes f + n) 0 m.

Lemma cached_bytes_insert m s f : m !! s = None →
  cached_bytes (<[s := f]> m) = fe_proof_bytes f + cached_bytes m.
Proof. intros H. unfold cached_bytes. rewrite map_fold_insert_L; [done|lia|done]. Qed.

Lemma cached_bytes_put m s f :
  cached_bytes (<[s := f]> m) = fe_proof_bytes f + cached_bytes (delete s m).
Proof. rewrite <-insert_delete_eq. apply cached_bytes_insert, lookup_delete_eq. Qed.

Lemma cached_bytes_get m s f : m !! s = Some f →
  cached_bytes m = fe_proof_bytes f + cached_bytes (delete s m).
Proof. intros H. rewrite <-(insert_id m s f) at 1 by done. apply cached_bytes_put. Qed.

Lemma cached_bytes_le m' : ∀ m,
  (∀ s f', m' !! s = Some f' → ∃ f, m !! s = Some f ∧ fe_proof_bytes f' ≤ fe_proof_bytes f) →
  cached_bytes m' ≤ cached_bytes m.
Proof.
  induction m' as [|s f' m' Hn IH] using map_ind; intros m Hm.
  - unfold cached_bytes at 1. rewrite map_fold_empty. lia.
  - destruct (Hm s f') as (f & Hf & Hle); [apply lookup_insert_eq|].
    rewrite cached_bytes_insert, (cached_bytes_get m s f) by done.
    enough (cached_bytes m' ≤ cached_bytes (delete s m)) by lia.
    apply IH. intros t g Hg. destruct (decide (t = s)) as [->|Hne]; [congruence|].
    rewrite lookup_delete_ne by done. apply Hm. by rewrite lookup_insert_ne.
Qed.

Lemma cached_bytes_delete m s : cached_bytes (delete s m) ≤ cached_bytes m.
Proof. apply cached_bytes_le. intros t f [_ H]%lookup_delete_Some. eauto. Qed.

Lemma other_bytes_spec e s : other_bytes e s = cached_bytes (delete s (fences e)).
Proof.
  unfold other_bytes. generalize (fences e). intros m.
  induction m as [|k f m Hn IH] using map_ind.
  - rewrite delete_empty. unfold cached_bytes. by rewrite !map_fold_empty.
  - rewrite map_fold_insert_L, IH; [|intros; repeat case_bool_decide; lia|done].
    case_bool_decide as Hk.
    + subst k. by rewrite delete_insert_eq.
    + rewrite delete_insert_ne by done. rewrite cached_bytes_insert; [done|].
      by rewrite lookup_delete_ne.
Qed.

(** ** The engine's invariant *)

Section Invariant.
Context `{P : Platform} {S : AuthoritySerde} {W : WitnessSerde} {C : CallSerde}.
Context {L : PlatformLaws P}.

(** A cached fence says what its row says. *)
Definition fence_of (w : FenceRow) (f : Fence) : Prop :=
  ∃ f0, parse_row w = Ok f0 ∧ fe_head f0 = fe_head f ∧ fe_recovery f0 = fe_recovery f
        ∧ fe_sequence f0 = fe_sequence f ∧ fe_blocked f0 = fe_blocked f.

Record engine_wf (e : Engine) : Prop := {
  ew_registry : CallSafety.reachable (registry e);
  ew_fences : ∀ s f, fences e !! s = Some f →
    ∃ w, db_fences e !! scope_key s = Some w ∧ fence_of w f;
  ew_cached : ∀ s f a, fences e !! s = Some f → fe_authority f = Some a →
    verified_for s a ∧ head a = Some (fe_head f);
  ew_rooms : ∀ s c, rooms (registry e) !! s = Some c →
    ∃ f, fences e !! s = Some f ∧ fe_head f = ac_config_id c ∧ fe_blocked f = false;
  ew_count : N.of_nat (size (fences e)) ≤ MAX_SCOPES;
  ew_bytes : cached_bytes (fences e) ≤ MAX_CACHED_PROOFS;
}.

Lemma parse_row_fence w f : parse_row w = Ok f → fence_of w f ∧ fe_authority f = None
  ∧ fe_proof_bytes f = 0.
Proof.
  intros H. split; [by exists f|]. unfold parse_row in H. step H u Hu. step H h Hh.
  step H r Hr. by apply Ok_inj in H as <-.
Qed.

(** Replacing the cache by one whose fences agree with the rows. *)
Lemma wf_set_fences e m :
  engine_wf e →
  (∀ s f, m !! s = Some f →
     (∃ w, db_fences e !! scope_key s = Some w ∧ fence_of w f)
     ∧ ∀ a, fe_authority f = Some a → verified_for s a ∧ head a = Some (fe_head f)) →
  (∀ s c f, rooms (registry e) !! s = Some c → fences e !! s = Some f →
     ∃ f', m !! s = Some f' ∧ fe_head f' = fe_head f ∧ fe_blocked f' = fe_blocked f) →
  N.of_nat (size m) ≤ MAX_SCOPES → cached_bytes m ≤ MAX_CACHED_PROOFS →
  engine_wf (set_fences e m).
Proof.
  intros H Hm Hrooms Hsize Hbytes. split; cbn; try done.
  - apply H.
  - intros s f Hf. by apply Hm.
  - intros s f a Hf Ha. by apply (Hm s f).
  - intros s c Hc. destruct (ew_rooms _ H _ _ Hc) as (f & Hf & Hh & Hb).
    destruct (Hrooms s c f Hc Hf) as (f' & Hf' & Hh' & Hb'). exists f'.
    split; [done|]. split; congruence.
Qed.

(** A fence of an existing row, with another use. *)
Lemma wf_use_fence e s f a bytes now :
  engine_wf e → fences e !! s = Some f →
  (∀ x, a = Some x → verified_for s x ∧ head x = Some (fe_head f)) →
  bytes + cached_bytes (delete s (fences e)) ≤ MAX_CACHED_PROOFS →
  engine_wf (set_fences e (<[s := use_fence f a bytes now]> (fences e))).
Proof.
  intros H Hf Ha Hb. apply wf_set_fences; [done| | | |].
  - intros t g. rewrite lookup_insert. case_decide as Hst.
    + subst t. intros [= <-]. split; [apply (ew_fences _ H _ _ Hf)|exact Ha].
    + intros Hg. split; [by apply (ew_fences _ H)|]. intros x. by apply (ew_cached _ H).
  - intros t c g Hc Hg. rewrite lookup_insert. case_decide as Hst; [|by exists g].
    subst t. simplify_eq. by eexists.
  - rewrite map_size_insert, Hf. apply H.
  - by rewrite cached_bytes_put.
Qed.

(** ** Loading a fence *)

Lemma idle_fence_Some e now s : idle_fence e now = Some s →
  presence (registry e) s = None ∧ is_Some (fences e !! s).
Proof.
  unfold idle_fence. intros ([k f] & Hm & ->)%fmap_Some. cbn.
  apply min_by_key_Some, filter_true in Hm as [Hin Hc]. apply scope_list_elem in Hin.
  apply andb_true_iff in Hc as [Hc _]. apply bool_decide_eq_true in Hc. cbn in Hc. eauto.
Qed.

Lemma make_room_wf now e e1 r : engine_wf e → make_room now e = (e1, r) →
  engine_wf e1 ∧ e1 = set_fences e (fences e1) ∧ fences e1 ⊆ fences e
  ∧ (r = Ok tt → N.of_nat (size (fences e1)) < MAX_SCOPES).
Proof.
  intros H. unfold make_room. destruct (N.leb_spec MAX_SCOPES (N.of_nat (size (fences e)))) as [Hle|Hlt].
  - destruct (idle_fence e now) as [s|] eqn:Hi; intros [= <- <-].
    + apply idle_fence_Some in Hi as [Hp [f Hf]]. cbn.
      assert (size (delete s (fences e)) = pred (size (fences e))) as Hs
        by (by rewrite map_size_delete, Hf).
      pose proof (ew_count _ H). split; [|split; [done|split; [apply delete_subseteq|]]].
      * apply wf_set_fences; [done| | |lia|].
        -- intros t g [_ Hg]%lookup_delete_Some. split; [by apply (ew_fences _ H)|].
           intros x. by apply (ew_cached _ H).
        -- intros t c g Hc Hg. exists g. split; [|done]. apply lookup_delete_Some.
           split; [|done]. intros ->. unfold presence in Hp. congruence.
        -- etrans; [apply cached_bytes_delete|apply H].
      * intros _. assert (MAX_SCOPES ≠ 0) by done. lia.
    + split; [done|]. split; [by destruct e|]. split; [done|]. discriminate.
  - intros [= <- <-]. split; [done|]. split; [by destruct e|]. by split.
Qed.

(** What loading leaves: the same tables, and a cache that lost at most an idle fence and
    gained at most this conversation's row. *)
Definition loaded (s : Scope) (e e1 : Engine) : Prop :=
  engine_wf e1 ∧ e1 = set_fences e (fences e1)
  ∧ (∀ f, fences e !! s = Some f → fences e1 !! s = Some f)
  ∧ (fences e !! s = None → ∀ f, fences e1 !! s = Some f →
       ∃ w, db_fences e !! scope_key s = Some w ∧ parse_row w = Ok f).

Lemma load_fence_wf s now e e1 r : engine_wf e → load_fence s now e = (e1, r) →
  loaded s e e1
  ∧ (r = Ok tt → fences e1 !! s = None →
       db_fences e !! scope_key s = None ∧ N.of_nat (size (fences e1)) < MAX_SCOPES).
Proof.
  intros H. unfold load_fence. case_bool_decide as Hin.
  { intros [= <- <-]. split; [|intros _ Hn; rewrite Hn in Hin; by destruct Hin].
    split; [done|]. split; [by destruct e|]. split; [done|]. intros Hn. rewrite Hn in Hin.
    by destruct Hin. }
  apply eq_None_not_Some in Hin. unfold mbind, step_bind.
  destruct (make_room now e) as [e2 r2] eqn:Hr. pose proof (make_room_wf _ _ _ _ H Hr) as
    (H2 & He2 & Hsub & Hlt).
  assert (fences e2 !! s = None) as Hn2 by (by eapply lookup_weaken_None).
  destruct r2 as [[]|err].
  - specialize (Hlt eq_refl). unfold load_stored.
    destruct (stored_fence e2 s) as [[f|]|err] eqn:Hst; intros [= <- <-].
    + unfold stored_fence in Hst. apply transpose_Ok in Hst.
      assert (∃ w, db_fences e2 !! scope_key s = Some w ∧ parse_row w = Ok f) as (w & Hw & Hp)
        by (by apply fmap_Some in Hst as (w & Hw & Hp); eauto).
      destruct (parse_row_fence _ _ Hp) as (Hfo & Hna & Hb).
      split; [|cbn; rewrite lookup_insert_eq; discriminate].
      split; [|split; [|split]]; cbn.
      * apply wf_set_fences; [done| | | |].
        -- intros t g. rewrite lookup_insert. case_decide as Hts.
           ++ subst t. intros [= <-]. split; [eauto|]. rewrite Hna. discriminate.
           ++ intros Hg. split; [by apply (ew_fences _ H2)|]. intros x. by apply (ew_cached _ H2).
        -- intros t c g Hc Hg. rewrite lookup_insert_ne by congruence. by exists g.
        -- rewrite map_size_insert, Hn2. lia.
        -- rewrite cached_bytes_insert, Hb by done. apply H2.
      * by rewrite He2.
      * rewrite Hin. discriminate.
      * intros _ g. rewrite lookup_insert_eq. intros [= <-]. exists w. split; [|done].
        rewrite He2 in Hw. exact Hw.
    + split; [split; [done|split; [done|split; [|]]]|].
      * rewrite Hin. discriminate.
      * intros _ g Hg. congruence.
      * intros _ _. split; [|done]. unfold stored_fence in Hst. apply transpose_Ok in Hst.
        rewrite He2 in Hst. cbn in Hst. by destruct (db_fences e !! scope_key s).
    + split; [split; [done|split; [done|split; [|]]]|discriminate].
      * rewrite Hin. discriminate.
      * intros _ g Hg. congruence.
  - intros [= <- <-]. split; [split; [done|split; [done|split; [|]]]|discriminate].
    + rewrite Hin. discriminate.
    + intros _ g Hg. congruence.
Qed.

(** ** Blocking and saving a fence *)

Lemma configuration_changed_rooms r s h t :
  rooms (configuration_changed r s h).1 !! t =
    if decide (t = s) then
      c ← rooms r !! s; if ac_config_id c =/= h then None else Some c
    else rooms r !! t.
Proof.
  unfold configuration_changed, end_, end_with_reason.
  destruct (rooms r !! s) as [c|] eqn:Hs; [|case_decide; subst; cbn; congruence].
  cbn. destruct (ac_config_id c =/= h) eqn:Hc; cbn.
  - rewrite lookup_delete. destruct (decide (s = t)), (decide (t = s)); congruence.
  - destruct (decide (t = s)); congruence.
Qed.

Lemma configuration_changed_reachable r s h :
  CallSafety.reachable r → CallSafety.reachable (configuration_changed r s h).1.
Proof. intros H. eapply reach_step; [done|apply step_configuration]. Qed.

Lemma fence_of_block w f : fence_of w f → fence_of (block_row w) (block_fence f).
Proof.
  intros (f0 & Hp & H1 & H2 & H3 & _). exists (block_fence f0). split; [|done].
  unfold parse_row in *. cbn. step Hp u Hu. step Hp h Hh. step Hp r Hr.
  apply Ok_inj in Hp as <-. rewrite Hu. cbn. rewrite Hh. cbn. by rewrite Hr.
Qed.

Lemma block_wf s cfg old e :
  engine_wf e → fences e !! s = Some old → fe_head old ≠ cfg → engine_wf (block s cfg e).1.
Proof.
  intros H Hold Hne. unfold block. cbv zeta.
  destruct (configuration_changed _ s cfg) as [r events] eqn:Hcc. cbn [fst].
  change (registry (set_fences (set_db_fences e (alter block_row (scope_key s) (db_fences e)))
    (alter block_fence s (fences (set_db_fences e (alter block_row (scope_key s) (db_fences e)))))))
    with (registry e) in Hcc.
  assert (r = (configuration_changed (registry e) s cfg).1) as -> by (by rewrite Hcc). clear Hcc.
  split; cbn.
  - apply configuration_changed_reachable, H.
  - intros t f. rewrite lookup_alter. case_decide as Hst.
    + subst t. rewrite Hold. intros [= <-]. destruct (ew_fences _ H _ _ Hold) as (w & Hw & Hf).
      exists (block_row w). rewrite lookup_alter, decide_True, Hw by done.
      split; [done|]. by apply fence_of_block.
    + intros Hf. destruct (ew_fences _ H _ _ Hf) as (w & Hw & Hfo). exists w.
      rewrite lookup_alter_ne; [done|]. intros E%scope_key_inj. congruence.
  - intros t f a. rewrite lookup_alter. case_decide as Hst; [|apply H].
    subst t. rewrite Hold. intros [= <-] Ha. exact (ew_cached _ H s old a Hold Ha).
  - intros t c. rewrite configuration_changed_rooms. case_decide as Hts.
    + subst t. destruct (rooms (registry e) !! s) as [c0|] eqn:Hc0; [|done]. cbn.
      destruct (ew_rooms _ H _ _ Hc0) as (f & Hf & Hh & _). simplify_eq.
      rewrite bool_decide_eq_false_2 by congruence. done.
    + intros Hc. destruct (ew_rooms _ H _ _ Hc) as (f & Hf & Hh & Hb). exists f.
      rewrite lookup_alter_ne by done. done.
  - rewrite <-size_dom, dom_alter_L, size_dom. apply H.
  - etrans; [|apply (ew_bytes _ H)]. apply cached_bytes_le. intros t f.
    rewrite lookup_alter. case_decide as Hst; [|eauto]. subst t. rewrite Hold. intros [= <-].
    by exists old.
Qed.

Definition row_blocked (e : Engine) (s : Scope) : bool :=
  match db_fences e !! scope_key s with Some w => fw_blocked w | None => false end.

Lemma save_fence_wf s c a proof bytes now e e1 r :
  engine_wf e → verified_for s a → head a = Some (cc_config_id c) →
  row_blocked e s = false →
  (fences e !! s = None → N.of_nat (size (fences e)) < MAX_SCOPES) →
  bytes + cached_bytes (delete s (fences e)) ≤ MAX_CACHED_PROOFS →
  save_fence s c a proof bytes now e = (e1, r) → engine_wf e1.
Proof.
  intros H Hv Hh Hnb Hroom Hbytes. unfold save_fence.
  destruct (_ ← ok_or proof Unauthorized; _) as [seq|err] eqn:Hchecks; [|by intros [= <- <-]].
  cbv zeta. fold (row_blocked e s). rewrite Hnb.
  set (row := {| fw_head := _ |}). set (f := {| fe_head := _ |}).
  destruct (configuration_changed _ s _) as [r2 events] eqn:Hcc. intros [= <- <-].
  change (configuration_changed (registry e) s (cc_config_id c) = (r2, events)) in Hcc.
  assert (r2 = (configuration_changed (registry e) s (cc_config_id c)).1) as -> by (by rewrite Hcc).
  clear Hcc. destruct (verified_head _ _ _ Hv) as (h0 & hc & Hh0 & Hhc & Hlen & Hseq & _).
  rewrite Hh in Hh0. injection Hh0 as <-.
  step Hchecks pf Hpf. step Hchecks h Hhd. step Hchecks seq' Hi. apply Ok_inj in Hchecks as ->.
  apply map_err_Ok in Hhd. rewrite Hhc in Hhd. apply Ok_inj in Hhd as <-.
  assert (seq = sc_sequence hc) as ->.
  { unfold to_i64 in Hi. case_match; [|done]. by apply Ok_inj in Hi. }
  assert (fence_of row f) as Hrow.
  { exists {| fe_head := cc_config_id c; fe_recovery := recovery_id a;
              fe_sequence := sc_sequence hc; fe_authority := None; fe_proof_bytes := 0;
              fe_last_used := 0; fe_blocked := false |}. split; [|done].
    unfold parse_row. cbn. rewrite (proj2 (N.eqb_neq _ _)) by lia. cbn.
    rewrite parse_hex_display by done. cbn.
    destruct (recovery_id a) as [id|] eqn:Hre; cbn; [|done].
    by rewrite parse_hex_display by (by eapply recovery_id_length). }
  split; cbn.
  - apply configuration_changed_reachable, H.
  - intros t g. rewrite lookup_insert. case_decide as Hst.
    + subst t. intros [= <-]. exists row. by rewrite lookup_insert_eq.
    + intros Hg. destruct (ew_fences _ H _ _ Hg) as (w & Hw & Hfo). exists w.
      rewrite lookup_insert_ne; [done|]. intros E%scope_key_inj. congruence.
  - intros t g x. rewrite lookup_insert. case_decide as Hst; [|apply H].
    subst t. intros [= <-]. cbn. intros [= <-]. done.
  - intros t c0. rewrite configuration_changed_rooms. case_decide as Hts.
    + subst t. destruct (rooms (registry e) !! s) as [c1|] eqn:Hc1; [|done]. cbn.
      case_bool_decide as Hcfg; [|done]. cbn. intros [= <-]. exists f.
      by rewrite lookup_insert_eq.
    + intros Hc. destruct (ew_rooms _ H _ _ Hc) as (g & Hg & Hgh & Hb). exists g.
      rewrite lookup_insert_ne by done. done.
  - rewrite map_size_insert. pose proof (ew_count _ H).
    destruct (fences e !! s); [done|]. specialize (Hroom eq_refl). lia.
  - by rewrite cached_bytes_put.
Qed.

(** ** Running a command *)

(** The configuration of the command's own room after it. *)
Lemma applied_config r a cmd who now draws r' ev c' :
  registry_wf r → applied r a cmd who now draws r' ev →
  rooms r' !! command_scope cmd = Some c' →
  ac_config_id c' = cc_config_id cmd
  ∨ ∃ c, rooms r !! command_scope cmd = Some c ∧ ac_config_id c' = ac_config_id c.
Proof.
  intros Hwf Hap Hc'. pose proof (applied_one_room _ _ _ _ _ _ _ _ Hwf Hap) as Hone.
  destruct (rooms r !! command_scope cmd) as [c|] eqn:Hc.
  - right. exists c. split; [done|]. pose proof (or_room _ _ _ _ Hone) as Hev.
    rewrite Hc, Hc' in Hev. by inversion Hev as [| | |? ? Hs]; subst; [|apply Hs].
  - left. destruct Hap as
      [c Hc0 Hring|Hop Hnr|h kind media cid invs Hop Hn Hh Hk Hm Hsz Hfree Hcid Hinv|
       c o r1 ev1 Hc0 Hring Hcfg Hcall Hfree Ho Hf]; try congruence.
    cbn in Hc'. rewrite lookup_insert_eq in Hc'. by injection Hc' as <-.
Qed.

Lemma apply_with_delegation_config r a cmd now d draws r' ev c' :
  registry_wf r → apply_with_delegation r a cmd now d draws = Ok (r', ev) →
  (∀ t, t ≠ command_scope cmd → rooms r' !! t = rooms r !! t)
  ∧ (rooms r' !! command_scope cmd = Some c' →
     ac_config_id c' = cc_config_id cmd
     ∨ ∃ c, rooms r !! command_scope cmd = Some c ∧ ac_config_id c' = ac_config_id c).
Proof.
  intros Hwf H. apply apply_with_delegation_Ok in H as (who & e & r1 & ev1 & _ & _ & _ & Hap & Heq).
  pose proof (applied_one_room _ _ _ _ _ _ _ _ Hwf Hap) as Hone.
  destruct (is_start _ || is_join _).
  - cbv zeta in Heq. injection Heq as -> _. split.
    + intros t Ht. by apply (or_others _ _ _ _ (bind_one_room _ _ _ _ _ _ _ Hwf Hone)).
    + intros Hc'. destruct (bind_delegation_spec r1 (command_scope cmd) (cc_credential_id cmd) d e)
        as [Hb|(c1 & w & p & Hc1 & _ & _ & Hb)]; rewrite Hb in Hc'.
      * by eapply applied_config.
      * cbn in Hc'. rewrite lookup_insert_eq in Hc'. injection Hc' as <-. cbn.
        by eapply applied_config.
  - injection Heq as -> _. split; [apply Hone|]. intros Hc'. by eapply applied_config.
Qed.

Lemma run_command_wf c a d request now draws e e1 r f :
  engine_wf e → fences e !! command_scope c = Some f → fe_head f = cc_config_id c →
  fe_blocked f = false →
  run_command c a d request now draws e = (e1, r) → engine_wf e1.
Proof.
  intros H Hf Hh Hb. unfold run_command.
  destruct (applied ← apply_with_delegation _ _ _ _ _ _; _) as [[[r1 ev] receipts]|err] eqn:Hrun;
    [|by intros [= <- <-]].
  intros [= <- <-]. step Hrun res Hap. destruct res as [r2 ev2].
  step Hrun at_ Hat. step Hrun expires Hex. step Hrun rc Hrc. apply Ok_inj in Hrun as [= -> -> ->].
  pose proof (reachable_wf _ (ew_registry _ H)) as Hwf.
  split; cbn; try apply H.
  - eapply reach_step; [apply H|by eapply step_apply].
  - intros t c' Hc'.
    destruct (apply_with_delegation_config _ _ _ _ _ _ _ _ c' Hwf Hap) as [Hot Hcfg].
    destruct (decide (t = command_scope c)) as [->|Hne].
    + exists f. destruct (Hcfg Hc') as [Hc|(c0 & Hc0 & Hcc)]; [split_and!; congruence|].
      destruct (ew_rooms _ H _ _ Hc0) as (f' & Hf' & Hh' & _). split_and!; congruence.
    + rewrite Hot in Hc' by done. by apply (ew_rooms _ H).
Qed.

(** ** Executing a prepared request *)

(** A request whose authority was verified for its conversation and whose command names that
    authority's head. *)
Record honest (q : Prepared) : Prop := {
  hn_verified : verified_for (command_scope (pp_command q)) (pp_authority q);
  hn_head : head (pp_authority q) = Some (cc_config_id (pp_command q));
  hn_member : require_member (pp_authority q) (cc_credential_id (pp_command q))
              = Ok (pp_identity q);
}.

(** The fence of a conversation, if it has one, accepts an authority: it is not blocked, the
    authority holds its recovery, and has its head as head ([moved = false]) or proves it. *)
Definition continues (o : option Fence) (q : Prepared) (moved : bool) : Prop :=
  match o with
  | None => moved = true
  | Some old =>
      fe_blocked old = false
      ∧ proves_recovery_ancestor (pp_authority q) (fe_recovery old) = true
      ∧ if moved then fe_head old ≠ cc_config_id (pp_command q)
                      ∧ proves_config_at (pp_authority q) (fe_head old) (fe_sequence old) = true
        else fe_head old = cc_config_id (pp_command q)
  end.

(** The fence a conversation has, cached or stored. *)
Definition has_fence (e : Engine) (s : Scope) (o : option Fence) : Prop :=
  match o with
  | None => db_fences e !! scope_key s = None
  | Some f => ∃ w, db_fences e !! scope_key s = Some w ∧ fence_of w f
  end.

(** The engine once the fence is settled: touched where the head stays, saved where it moves. *)
Inductive settled_fence (q : Prepared) (now : N) (e : Engine) : bool → Engine → Prop :=
| settled_same e1 old bytes :
    loaded (command_scope (pp_command q)) e e1 →
    fences e1 !! command_scope (pp_command q) = Some old →
    continues (Some old) q false →
    bytes + cached_bytes (delete (command_scope (pp_command q)) (fences e1)) ≤ MAX_CACHED_PROOFS →
    settled_fence q now e false
      (set_fences e1 (<[command_scope (pp_command q) :=
         use_fence old (Some (pp_authority q)) bytes now]> (fences e1)))
| settled_moved e1 e2 bytes :
    loaded (command_scope (pp_command q)) e e1 →
    has_fence e (command_scope (pp_command q)) (fences e1 !! command_scope (pp_command q)) →
    continues (fences e1 !! command_scope (pp_command q)) q true →
    bytes + cached_bytes (delete (command_scope (pp_command q)) (fences e1)) ≤ MAX_CACHED_PROOFS →
    (fences e1 !! command_scope (pp_command q) = None →
     N.of_nat (size (fences e1)) < MAX_SCOPES) →
    save_fence (command_scope (pp_command q)) (pp_command q) (pp_authority q) (pp_proof q)
      bytes now e1 = (e2, Ok tt) →
    settled_fence q now e true e2.

Inductive executed (q : Prepared) (now : N) (draws : option string * option string)
    (e : Engine) : Engine → result CallError Applied → Prop :=
| executed_refused m err : engine_wf (set_fences e m) → executed q now draws e (set_fences e m) (Err err)
| executed_blocked e1 old err :
    loaded (command_scope (pp_command q)) e e1 →
    fences e1 !! command_scope (pp_command q) = Some old → fe_blocked old = false →
    fe_head old ≠ cc_config_id (pp_command q) →
    proves_config_at (pp_authority q) (fe_head old) (fe_sequence old) = false →
    executed q now draws e
      (block (command_scope (pp_command q)) (cc_config_id (pp_command q)) e1).1 (Err err)
| executed_duplicate m w :
    engine_wf (set_fences e m) → row_blocked e (command_scope (pp_command q)) = false →
    db_receipts e !! receipt_key (pp_command q) = Some w →
    rw_request_id w = display (pp_request_id q) →
    executed q now draws e (set_fences e m)
      (Ok (applied_answer (pp_request_id q) (command_scope (pp_command q)) [] true
             (set_fences e m)))
| executed_failed moved e1 err :
    settled_fence q now e moved e1 →
    db_receipts e !! receipt_key (pp_command q) = None →
    executed q now draws e e1 (Err err)
| executed_applied moved e1 e2 events :
    settled_fence q now e moved e1 →
    db_receipts e !! receipt_key (pp_command q) = None → now < cc_expires_at (pp_command q) →
    run_command (pp_command q) (pp_authority q) (pp_delegation q) (pp_request_id q) now draws e1
      = (e2, Ok events) →
    executed q now draws e e2
      (Ok (applied_answer (pp_request_id q) (command_scope (pp_command q)) events false e2)).

Lemma fence_of_blocked w f : fence_of w f → fw_blocked w = fe_blocked f.
Proof.
  intros (f0 & Hp & _ & _ & _ & Hb). unfold parse_row in Hp. step Hp u Hu. step Hp h Hh.
  step Hp r Hr. apply Ok_inj in Hp as <-. exact Hb.
Qed.

Lemma continues_row e s o q moved :
  has_fence e s o → continues o q moved → row_blocked e s = false.
Proof.
  unfold row_blocked. destruct o as [old|]; cbn.
  - intros (w & -> & Hf%fence_of_blocked) [Hb _]. congruence.
  - by intros -> _.
Qed.

Lemma save_fence_err s c a proof bytes now e e1 err :
  save_fence s c a proof bytes now e = (e1, Err err) → e1 = e.
Proof.
  unfold save_fence. destruct (_ ← ok_or proof Unauthorized; _); [|by intros [= <- <-]].
  cbv zeta. by destruct (configuration_changed _ _ _).
Qed.

Lemma run_command_err c a d request now draws e e1 err :
  run_command c a d request now draws e = (e1, Err err) → e1 = e.
Proof.
  unfold run_command. destruct (applied ← apply_with_delegation _ _ _ _ _ _; _) as [[]|];
    [done|by intros [= <- <-]].
Qed.

Lemma set_fences_self e : set_fences e (fences e) = e.
Proof. by destruct e. Qed.

Lemma settled_fence_wf q now e moved e1 :
  engine_wf e → honest q → settled_fence q now e moved e1 →
  engine_wf e1 ∧ db_receipts e1 = db_receipts e
  ∧ ∃ f, fences e1 !! command_scope (pp_command q) = Some f
         ∧ fe_head f = cc_config_id (pp_command q) ∧ fe_blocked f = false
         ∧ fe_authority f = Some (pp_authority q).
Proof.
  intros Hwf Hq Hset. destruct Hset as [e1 old bytes Hl Hold (Hb & Hr & Hh) Hbytes|
    e1 e2 bytes Hl Hhas Hc Hbytes Hroom Hs].
  - pose proof (proj1 (proj2 Hl)) as He. split; [|split].
    + apply wf_use_fence; [apply Hl|done| |done].
      intros x [= <-]. split; [apply Hq|]. rewrite Hh. apply Hq.
    + cbn. by rewrite He.
    + eexists. cbn. rewrite lookup_insert_eq. split; [done|]. by split_and!.
  - split; [|split].
    + refine (save_fence_wf _ _ _ _ _ _ _ _ _ (proj1 Hl) (hn_verified _ Hq) (hn_head _ Hq)
        _ Hroom Hbytes Hs).
      assert (row_blocked e1 (command_scope (pp_command q)) = row_blocked e (command_scope (pp_command q)))
        as -> by (unfold row_blocked; by rewrite (proj1 (proj2 Hl))).
      exact (continues_row _ _ _ _ _ Hhas Hc).
    + unfold save_fence in Hs. destruct (_ ← ok_or _ _; _) as [seq|]; [|done].
      cbv zeta in Hs. destruct (configuration_changed _ _ _). injection Hs as <-.
      cbn. by rewrite (proj1 (proj2 Hl)).
    + unfold save_fence in Hs. destruct (_ ← ok_or _ _; _) as [seq|]; [|done].
      cbv zeta in Hs. destruct (configuration_changed _ _ _). injection Hs as <-.
      eexists. cbn. rewrite lookup_insert_eq. done.
Qed.

(** The part of [execute] after its fence is found to continue. *)
Definition after_fence (q : Prepared) (bytes now : N) (draws : option string * option string)
    (changed : bool) : step Applied :=
  let c := pp_command q in
  let s := command_scope c in
  _ ← (if changed then mret tt else touch_fence s (pp_authority q) bytes now);
  duplicate ← gets (replayed c (pp_request_id q));
  duplicate ← lift duplicate;
  if duplicate : bool then gets (applied_answer (pp_request_id q) s [] true)
  else
    _ ← (if changed then save_fence s c (pp_authority q) (pp_proof q) bytes now else mret tt);
    events ← run_command c (pp_authority q) (pp_delegation q) (pp_request_id q) now draws;
    gets (applied_answer (pp_request_id q) s events false).

Lemma after_fence_cases q bytes now draws changed e e1 e2 r :
  engine_wf e → honest q → loaded (command_scope (pp_command q)) e e1 →
  has_fence e (command_scope (pp_command q)) (fences e1 !! command_scope (pp_command q)) →
  continues (fences e1 !! command_scope (pp_command q)) q changed →
  now < cc_expires_at (pp_command q) →
  bytes + cached_bytes (delete (command_scope (pp_command q)) (fences e1)) ≤ MAX_CACHED_PROOFS →
  (fences e1 !! command_scope (pp_command q) = None →
   N.of_nat (size (fences e1)) < MAX_SCOPES) →
  after_fence q bytes now draws changed e1 = (e2, r) →
  executed q now draws e e2 r.
Proof.
  intros Hwf Hq Hl Hhas Hc Hnow Hbytes Hroom. pose proof (proj1 (proj2 Hl)) as He1.
  assert (engine_wf (set_fences e (fences e1))) as Hwf1 by (rewrite <-He1; apply Hl).
  pose proof (continues_row _ _ _ _ _ Hhas Hc) as Hrow.
  unfold after_fence. cbv zeta. destruct changed.
  - unfold mbind, step_bind, mret, step_ret, gets, lift. cbn.
    unfold replayed. assert (db_receipts e1 = db_receipts e) as -> by (by rewrite He1).
    destruct (db_receipts e !! receipt_key (pp_command q)) as [w|] eqn:Hw.
    + case_bool_decide as Hid; intros [= <- <-]; rewrite He1; [|by apply executed_refused].
      by eapply executed_duplicate.
    + destruct (save_fence _ _ _ _ _ _ _) as [e3 [[]|err]] eqn:Hs.
      * assert (settled_fence q now e true e3) as Hset by (by eapply settled_moved).
        destruct (run_command _ _ _ _ _ _ _) as [e4 [ev|err]] eqn:Hr; intros [= <- <-].
        -- by eapply executed_applied.
        -- apply run_command_err in Hr as ->. by eapply executed_failed.
      * apply save_fence_err in Hs as ->. intros [= <- <-]. rewrite He1. by apply executed_refused.
  - unfold continues in Hc.
    destruct (fences e1 !! command_scope (pp_command q)) as [old|] eqn:Hold; [|done].
    assert (settled_fence q now e false (set_fences e1 (<[command_scope (pp_command q) :=
         use_fence old (Some (pp_authority q)) bytes now]> (fences e1)))) as Hset
      by (by eapply settled_same).
    unfold mbind, step_bind, mret, step_ret, gets, lift, touch_fence. rewrite Hold. cbn.
    unfold replayed. cbn. assert (db_receipts e1 = db_receipts e) as -> by (by rewrite He1).
    set (e3 := set_fences e1 _) in *.
    assert (e3 = set_fences e (fences e3)) as He3 by (subst e3; by rewrite He1).
    assert (engine_wf (set_fences e (fences e3))) as Hwf3.
    { rewrite <-He3. by apply (settled_fence_wf _ _ _ _ _ Hwf Hq) in Hset as [? _]. }
    destruct (db_receipts e !! receipt_key (pp_command q)) as [w|] eqn:Hw.
    + case_bool_decide as Hid; intros [= <- <-]; [|rewrite He3; by apply executed_refused].
      rewrite He3. by eapply executed_duplicate.
    + destruct (run_command _ _ _ _ _ _ _) as [e4 [ev|err]] eqn:Hr; intros [= <- <-].
      * by eapply executed_applied.
      * apply run_command_err in Hr as ->. by eapply executed_failed.
Qed.

Lemma saturating_budget a b m : m < u64_max → saturating_add a b ≤ m → a + b ≤ m.
Proof. unfold saturating_add. lia. Qed.

Lemma loaded_has_fence s e e1 :
  loaded s e e1 → (fences e1 !! s = None → db_fences e !! scope_key s = None) →
  has_fence e s (fences e1 !! s).
Proof.
  intros (Hwf & He & _ & _) Hn. unfold has_fence.
  destruct (fences e1 !! s) as [f|] eqn:Hf; [|by apply Hn].
  destruct (ew_fences _ Hwf _ _ Hf) as (w & Hw & Hfo). exists w. split; [|done].
  rewrite He in Hw. exact Hw.
Qed.

Lemma execute_cases q now draws e e1 r :
  engine_wf e → honest q → execute q now draws e = (e1, r) → executed q now draws e e1 r.
Proof.
  intros Hwf Hq. set (s := command_scope (pp_command q)). intros H.
  assert (execute q now draws e =
    (_ ← lift (fail_if (cc_expires_at (pp_command q) <=? now) Unauthorized);
     _ ← load_fence s now;
     bytes ← proof_budget s (pp_proof q);
     changed ← check_fence s (pp_command q) (pp_authority q);
     after_fence q bytes now draws changed) e) as Heq by done.
  rewrite Heq in H. clear Heq. revert H. unfold mbind at 1, step_bind at 1, lift at 1.
  destruct (cc_expires_at (pp_command q) <=? now) eqn:Hexp; cbn [fail_if].
  { intros [= <- <-]. rewrite <-(set_fences_self e) at 2. apply executed_refused.
    by rewrite set_fences_self. }
  apply N.leb_gt in Hexp. unfold mbind at 1, step_bind at 1.
  destruct (load_fence s now e) as [e2 r2] eqn:Hload.
  destruct (load_fence_wf _ _ _ _ _ Hwf Hload) as [Hl Hnone].
  pose proof (proj1 (proj2 Hl)) as He2.
  assert (engine_wf (set_fences e (fences e2))) as Hwf2 by (rewrite <-He2; apply Hl).
  destruct r2 as [[]|err]; [|intros [= <- <-]; rewrite He2; by apply executed_refused].
  specialize (Hnone eq_refl). pose proof (loaded_has_fence _ _ _ Hl (λ Hn, proj1 (Hnone Hn))) as Hhas.
  unfold mbind at 1, step_bind at 1, proof_budget.
  set (bytes := proof_bytes e2 s (pp_proof q)). rewrite other_bytes_spec.
  destruct (MAX_CACHED_PROOFS <? _) eqn:Hbudget.
  { intros [= <- <-]. rewrite He2. by apply executed_refused. }
  apply N.ltb_ge, saturating_budget in Hbudget; [|done].
  unfold mbind at 1, step_bind at 1. unfold check_fence.
  pose proof (after_fence_cases q bytes now draws) as Hafter.
  destruct (fences e2 !! s) as [old|] eqn:Hold.
  - destruct (fe_blocked old) eqn:Hb; [intros [= <- <-]; rewrite He2; by apply executed_refused|].
    destruct (proves_recovery_ancestor (pp_authority q) (fe_recovery old)) eqn:Hr; cbn [negb];
      [|intros [= <- <-]; rewrite He2; by apply executed_refused].
    assert (∀ changed, continues (fences e2 !! s) q changed →
      after_fence q bytes now draws changed e2 = (e1, r) → executed q now draws e e1 r) as Hgo.
    { intros changed Hc. apply Hafter; try done; fold s; rewrite ?Hold; done. }
    rewrite Hold in Hgo. case_bool_decide as Hh.
    { apply Hgo. by split_and!. }
    destruct (proves_config_at _ _ _) eqn:Hp.
    { apply Hgo. by split_and!. }
    destruct (head_config (pp_authority q)) as [h|err] eqn:Hhc;
      [|intros [= <- <-]; rewrite He2; by apply executed_refused].
    destruct (sc_sequence h <? fe_sequence old);
      [intros [= <- <-]; rewrite He2; by apply executed_refused|].
    assert (∃ err, (block s (cc_config_id (pp_command q)) e2).2 = Err err) as [err Herr].
    { unfold block. cbv zeta. destruct (configuration_changed _ _ _). by eexists. }
    destruct (block s (cc_config_id (pp_command q)) e2) as [e3 r3] eqn:Hblk. cbn in Herr.
    subst r3. intros [= <- <-].
    change e3 with (e3, Err err : result CallError bool).1. rewrite <-Hblk.
    by eapply executed_blocked.
  - destruct (Hnone eq_refl) as [Hdb Hsize]. rewrite (proj2 (N.leb_gt _ _)) by done.
    apply Hafter; try done; fold s; rewrite ?Hold; try done.
Qed.

(** Every execution keeps the invariant. *)
Lemma execute_wf q now draws e e1 r :
  engine_wf e → honest q → execute q now draws e = (e1, r) → engine_wf e1.
Proof.
  intros Hwf Hq H. destruct (execute_cases _ _ _ _ _ _ Hwf Hq H) as
    [m err Hm|e1 old err Hl Hold Hb Hne Hp|m w Hm Hrow Hw Hid|moved e1 err Hset Hno|
     moved e1 e2 events Hset Hr Hnow Hrun]; [done| |done| |].
  - eapply block_wf; [apply Hl|done..].
  - by eapply settled_fence_wf.
  - destruct (settled_fence_wf _ _ _ _ _ Hwf Hq Hset) as (Hwf1 & _ & f & Hf & Hh & Hbl & _).
    by eapply run_command_wf.
Qed.
End Invariant.
