(* ===== verification/CallService.v ===== *)
(** * The call service around its engine (crates/elo-call-service/src/server.rs)

    Where the server takes the engine's lock, and everything that can happen between: many
    requests are received, verified off the lock, and executed in any order, while clients
    disconnect, admissions lapse, the clock maintains, and the process restarts. *)

From S2P Require Import Prelude Platform Ids Record Chat Identity AuthorityData AuthorityWitness Authority AuthorityProof AuthorityInv AuthorityFacts ProofFacts CallWire CallRegistry CallFacts CallSafety CallTheorems CallEngine CallEngineFacts.

Section CallService.
Context `{P : Platform} {S : AuthoritySerde} {W : WitnessSerde} {C : CallSerde}.

Definition run_registry (e : Engine) (f : Registry → Registry * list Event)
    : Engine * list Event :=
  let (r, events) := f (registry e) in (set_registry e r (pending e), events).

(** A command of a connection, under the lock: its outcome and the events published before
    those of the outcome. *)
Definition command_section (q : Prepared) (now : N) (draws : option string * option string)
    (e : Engine) : Engine * (result CallError Applied * list Event) :=
  let (e, outcome) := execute q now draws e in
  let (e, events) := take_events e in (e, (outcome, events)).

(** [current_state] under the lock, from [engine.lock()] to [drop(engine)]: the clock is read
    twice. *)
Definition state_section (q : Prepared) (now now' : N) (draws : option string * option string)
    (e : Engine) : Engine * (result CallError Applied * list Event) :=
  let (e, expired) := run_registry e (λ r, tick r now) in
  let (e, outcome) := execute q now' draws e in
  let (e, events) := take_events e in (e, (outcome, events ++ expired)).

(** [Service::maintain] under its first lock *)
Definition maintain_section (now : N) (e : Engine) : Engine * list Event :=
  match maintain now e with
  | (e, Ok events) => (e, events)
  | (e, Err _) => run_registry e (λ r, tick r u64_max)
  end.

(** ** The service as it runs *)

Record Service := {
  sv_engine : Engine;
  sv_jobs : list Preparation;
  sv_ready : list Prepared;
}.
Definition with_engine (w : Service) (e : Engine) : Service :=
  {| sv_engine := e; sv_jobs := sv_jobs w; sv_ready := sv_ready w |}.

(** One critical section or one job off the lock, begun at [t] and over by [t']. A prepared
    request may be executed any number of times. *)
Inductive service_step (t t' : N) (w : Service) : Service → Prop :=
| service_receive request device p :
    preparation (sv_engine w) request device = Ok p →
    service_step t t' w
      {| sv_engine := sv_engine w; sv_jobs := p :: sv_jobs w; sv_ready := sv_ready w |}
| service_verify p q now :
    p ∈ sv_jobs w → verify p now = Ok q →
    service_step t t' w
      {| sv_engine := sv_engine w; sv_jobs := sv_jobs w; sv_ready := q :: sv_ready w |}
| service_command q draws :
    q ∈ sv_ready w →
    service_step t t' w (with_engine w (command_section q t draws (sv_engine w)).1)
| service_state q draws :
    q ∈ sv_ready w → cc_operation (pp_command q) = Subscribe →
    service_step t t' w (with_engine w (state_section q t t' draws (sv_engine w)).1)
| service_maintain :
    service_step t t' w (with_engine w (maintain_section t (sv_engine w)).1)
| service_close :
    service_step t t' w
      (with_engine w (run_registry (sv_engine w) (λ r, tick r u64_max)).1)
| service_revoke s who :
    service_step t t' w
      (with_engine w (run_registry (sv_engine w) (λ r, revoke_member r s who)).1)
| service_head s cred :
    service_step t t' w (with_engine w (authorized_head (sv_engine w) s cred t).1)
| service_restart aud l witness e :
    open_with_witness (db_fences (sv_engine w), db_receipts (sv_engine w)) aud l witness
      = Some e →
    service_step t t' w {| sv_engine := e; sv_jobs := []; sv_ready := [] |}.

(** A run under a clock that never goes back. *)
Inductive service_run (t0 : N) (w0 : Service) : N → Service → Prop :=
| run_start : service_run t0 w0 t0 w0
| run_next t w t1 t2 w' :
    service_run t0 w0 t w → t ≤ t1 → t1 ≤ t2 → service_step t1 t2 w w' →
    service_run t0 w0 t2 w'.

(** A service opened on an empty database. *)
Definition fresh_service (aud : string) (l : Limits) (witness : option WitnessPin)
    : option Service :=
  e ← open_with_witness (∅, ∅) aud l witness;
  Some {| sv_engine := e; sv_jobs := []; sv_ready := [] |}.

Inductive served : N → Service → Prop :=
| served_run aud l witness w0 t0 t w :
    fresh_service aud l witness = Some w0 → service_run t0 w0 t w → served t w.

End CallService.

(** * The call service's invariant

    Every state the service can reach keeps the engine's invariant, whatever requests are
    prepared, verified and executed, and in whatever order. *)


Section Service.
Context `{P : Platform} {S : AuthoritySerde} {W : WitnessSerde} {C : CallSerde}.
Context {L : PlatformLaws P}.

(** ** Requests on their way *)

Record job_ok (p : Preparation) : Prop := {
  jo_scope : ∃ c, decode (T := Command) (pr_signed p) = Ok c ∧ pr_scope p = command_scope c;
  jo_cached : ∀ a, pr_cached p = Some a → verified_for (pr_scope p) a;
}.

Lemma preparation_ok e request device p :
  engine_wf e → preparation e request device = Ok p → job_ok p.
Proof.
  intros H Hp. unfold preparation in Hp. step Hp u1 H1. step Hp bytes Hb. step Hp signed Hs.
  step Hp c Hc. step Hp u2 H2. cbv zeta in Hp. step Hp u3 H3. step Hp stored Hst. step Hp u4 H4.
  apply Ok_inj in Hp as <-. split; cbn.
  - exists c. split; [by apply map_err_Ok in Hc|done].
  - intros a Ha. apply bind_Some in Ha as (f & Hf & Ha). by apply (ew_cached _ H _ f).
Qed.

Lemma request_authority_verified p a :
  job_ok p → request_authority p = Ok a → verified_for (pr_scope p) a.
Proof.
  intros [_ Hc] H. unfold request_authority in H. destruct (rq_proof (pr_request p)) as [proof|].
  - cbv zeta in H. destruct (proof_verify _ _ _) as [a'|] eqn:Hv.
    + apply Ok_inj in H as ->. by exists proof, None.
    + destruct (pr_witness p) as [pin|]; [|done]. apply map_err_Ok in H.
      unfold verify_witnessed in H. step H u Hu. by exists proof, (Some pin).
  - apply ok_or_Ok in H. by apply Hc.
Qed.

(** A command that verifies is what its record says, under the authority's head. *)
Lemma verify_command_spec a signed aud now c :
  verify_command a signed aud now = Ok c →
  decode (T := Command) signed = Ok c ∧ Some (cc_config_id c) = head a.
Proof.
  unfold verify_command. intros H. step H c' Hc. step H u1 H1.
  apply fail_if_Ok, orb_false_iff in H1 as [_ H1]. apply bool_decide_eq_negb_false in H1.
  step H x2 H2. step H x3 H3. step H x4 H4. step H x5 H5. step H x6 H6. step H x7 H7.
  step H x8 H8. by apply Ok_inj in H as ->.
Qed.

Lemma verify_authorship_body cred certificate aud now v :
  Delegated.verify_authorship cred certificate aud now = Ok v →
  decode (T := Delegation) certificate = Ok (vd_body v).
Proof.
  unfold Delegated.verify_authorship. intros H. step H u H0. step H body Hb. step H x1 H1.
  step H x2 H2. step H x3 H3. step H x4 H4. step H x5 H5. by apply Ok_inj in H as <-.
Qed.

Lemma delegated_command_spec a signed certificate aud now c :
  Delegated.verify_command a signed certificate aud now = Ok c →
  decode (T := Command) signed = Ok c ∧ Some (cc_config_id c) = head a.
Proof.
  unfold Delegated.verify_command. intros H. step H un Hun. step H v Hv. step H dev Hdev.
  step H body Hbody. step H x Hx. apply Ok_inj in H as <-.
  unfold Delegated.verify_command_authorship in Hbody. step Hbody v2 Hv2. step Hbody b Hb.
  step Hbody y Hy. apply fail_if_Ok in Hy. step Hbody x1 H1. step Hbody x2 H2.
  step Hbody x3 H3. step Hbody x4 H4. apply Ok_inj in Hbody as ->. split; [done|].
  unfold Delegated.verify in Hv. step Hv d Hd. step Hv x5 H5. step Hv dev2 Hdev2.
  step Hv v3 Hv3. step Hv x6 H6. apply Ok_inj in Hv as ->.
  apply verify_authorship_body in Hv2, Hv3.
  assert (vd_body v2 = vd_body v) as E by congruence. rewrite E in Hy.
  inv_ok. congruence.
Qed.

Lemma verify_ok p now q :
  job_ok p → verify p now = Ok q →
  honest q ∧ decode (T := Command) (pr_signed p) = Ok (pp_command q)
  ∧ pp_request_id q = record_id (pr_signed p).
Proof.
  intros Hp H. unfold verify in H. step H a Ha. step H cl Hcl. step H who Hwho.
  apply Ok_inj in H as <-. apply map_err_Ok in Hwho.
  assert (decode (T := Command) (pr_signed p) = Ok cl.1 ∧ Some (cc_config_id cl.1) = head a)
    as [Hdec Hhead].
  { unfold request_command in Hcl. destruct (rq_delegation (pr_request p)).
    - step Hcl certificate Hce. step Hcl v Hv. step Hcl c Hc. apply Ok_inj in Hcl as <-.
      apply map_err_Ok in Hc. by apply delegated_command_spec in Hc.
    - step Hcl c Hc. apply Ok_inj in Hcl as <-. apply map_err_Ok in Hc.
      by apply verify_command_spec in Hc. }
  split; [|done]. split; cbn; [|done|done].
  destruct (jo_scope _ Hp) as (c & Hc & Hs). rewrite Hc in Hdec. apply Ok_inj in Hdec as <-.
  rewrite <-Hs. by apply request_authority_verified.
Qed.

(** ** The other operations keep the invariant *)

(** A registry change that starts no call and keeps configurations. *)
Lemma wf_registry e r events :
  engine_wf e → CallSafety.reachable r →
  (∀ s c', rooms r !! s = Some c' →
     ∃ c, rooms (registry e) !! s = Some c ∧ ac_config_id c' = ac_config_id c) →
  engine_wf (set_registry e r events).
Proof.
  intros H Hr Hrooms. split; cbn; try apply H; [done|].
  intros s c' Hc'. destruct (Hrooms _ _ Hc') as (c & Hc & ->). by apply (ew_rooms _ H).
Qed.

Lemma tick_keeps r now s c' : rooms (tick r now).1 !! s = Some c' →
  ∃ c, rooms r !! s = Some c ∧ ac_config_id c' = ac_config_id c.
Proof.
  rewrite tick_rooms. destruct (rooms r !! s) as [c|]; [|done]. cbn.
  destruct (tick_room _ _ _).1.2; [done|]. intros [= <-]. exists c. split; [done|].
  apply (tick_room_spec (limits r) s now c).
Qed.

Lemma run_tick_wf e now : engine_wf e → engine_wf (run_registry e (λ r, tick r now)).1.
Proof.
  intros H. unfold run_registry. pose proof (tick_keeps (registry e) now) as Hk.
  pose proof (step_tick (registry e) now) as Hs.
  destruct (tick (registry e) now) as [r events]. apply wf_registry; [done| |done].
  eapply reach_step; [apply H|exact Hs].
Qed.

Lemma run_revoke_wf e s who :
  engine_wf e → engine_wf (run_registry e (λ r, revoke_member r s who)).1.
Proof.
  intros H. unfold run_registry. pose proof (step_revoke_member (registry e) s who) as Hs.
  assert (∀ t c', rooms (revoke_member (registry e) s who).1 !! t = Some c' →
    ∃ c, rooms (registry e) !! t = Some c ∧ ac_config_id c' = ac_config_id c) as Hk.
  { intros t c'. unfold revoke_member, end_, end_with_reason.
    destruct (rooms (registry e) !! s) eqn:Hc; [|cbn; eauto].
    case_bool_decide; cbn; [|eauto]. rewrite lookup_delete. case_decide; [done|eauto]. }
  destruct (revoke_member (registry e) s who) as [r events]. apply wf_registry; [done| |done].
  eapply reach_step; [apply H|exact Hs].
Qed.

Lemma take_events_wf e : engine_wf e → engine_wf (take_events e).1.
Proof. intros H. apply wf_registry; [done|apply H|eauto]. Qed.

Lemma receipts_wf e m : engine_wf e → engine_wf (set_db_receipts e m).
Proof. intros H. split; cbn; apply H. Qed.

Lemma authorized_head_wf e s cred now :
  engine_wf e → engine_wf (authorized_head e s cred now).1.
Proof.
  intros H. unfold authorized_head. destruct (authorized e s cred); cbn; [|done].
  destruct (fences e !! s) as [f|] eqn:Hf; [|done]. cbn.
  apply wf_use_fence; [done|done| |].
  - intros x. by apply (ew_cached _ H).
  - rewrite <-cached_bytes_get by done. apply H.
Qed.

Lemma maintain_wf now e : engine_wf e → engine_wf (maintain now e).1.
Proof.
  intros H. unfold maintain. destruct (to_i64 now) as [at_|]; [|done]. cbv zeta.
  apply (receipts_wf _ (purge_receipts (db_receipts e) at_)) in H as H1.
  set (e1 := set_db_receipts e _) in *. pose proof (run_tick_wf e1 now H1) as H2.
  unfold run_registry in H2. change (registry e1) with (registry e) in H2 |- *.
  destruct (tick (registry e) now) as [r events]. cbn [fst] in H2 |- *.
  set (e2 := set_registry e1 r (pending e1)) in *.
  apply wf_set_fences; [done| | | |].
  - intros s g. rewrite map_lookup_imap. intros (f & Hf & [= <-])%bind_Some.
    destruct (ew_fences _ H2 _ _ Hf) as (w & Hw & Hfo). unfold rest_fence.
    case_match; cbn; (split; [by exists w|]); [done|]. intros a. by apply (ew_cached _ H2).
  - intros s c f Hc Hf. exists (rest_fence r now s f). rewrite map_lookup_imap, Hf.
    split; [done|]. unfold rest_fence. by case_match.
  - etrans; [|apply (ew_count _ H2)]. rewrite <-!size_dom.
    enough (dom (map_imap (λ s f, Some (rest_fence r now s f)) (fences e2)) ⊆ dom (fences e2))
      as Hd by (apply subseteq_size in Hd; lia).
    intros s [g Hg]%elem_of_dom. rewrite map_lookup_imap in Hg.
    apply bind_Some in Hg as (f & Hf & _). apply elem_of_dom. eauto.
  - etrans; [|apply (ew_bytes _ H2)]. apply cached_bytes_le. intros s g.
    rewrite map_lookup_imap. intros (f & Hf & [= <-])%bind_Some. exists f. split; [done|].
    unfold rest_fence. case_match; cbn; lia.
Qed.

Lemma maintain_section_wf now e : engine_wf e → engine_wf (maintain_section now e).1.
Proof.
  intros H. unfold maintain_section. pose proof (maintain_wf now e H) as Hm.
  destruct (maintain now e) as [e1 [ev|err]]; [done|]. by apply run_tick_wf.
Qed.

Lemma open_wf db aud l witness e :
  open_with_witness db aud l witness = Some e → engine_wf e ∧ pending e = [].
Proof.
  unfold open_with_witness. intros ([] & _ & (r & Hr & [= <-])%bind_Some)%bind_Some.
  apply to_option_Some in Hr. split; [|done]. split; cbn; try done.
  - by eapply reach_new.
  - intros s c Hc. unfold new in Hr. step Hr u Hu. by apply Ok_inj in Hr as <-.
Qed.

(** ** The service *)

Record service_wf (w : Service) : Prop := {
  sw_engine : engine_wf (sv_engine w);
  sw_pending : pending (sv_engine w) = [];
  sw_jobs : ∀ p, p ∈ sv_jobs w → job_ok p;
  sw_ready : ∀ q, q ∈ sv_ready w → honest q;
}.

Lemma command_section_wf q now draws e :
  engine_wf e → honest q →
  engine_wf (command_section q now draws e).1 ∧ pending (command_section q now draws e).1 = [].
Proof.
  intros He Hq. unfold command_section. destruct (execute q now draws e) as [e1 r] eqn:Hx.
  apply execute_wf in Hx; [|done..]. split; [|done]. exact (take_events_wf e1 Hx).
Qed.

Lemma state_section_wf q now now' draws e :
  engine_wf e → honest q →
  engine_wf (state_section q now now' draws e).1
  ∧ pending (state_section q now now' draws e).1 = [].
Proof.
  intros He Hq. unfold state_section. pose proof (run_tick_wf e now He) as Ht.
  destruct (run_registry e _) as [e0 expired].
  destruct (execute q now' draws e0) as [e1 r] eqn:Hx.
  apply execute_wf in Hx; [|done..]. split; [|done]. exact (take_events_wf e1 Hx).
Qed.

Lemma maintain_section_pending now e : pending (maintain_section now e).1 = pending e.
Proof.
  unfold maintain_section, maintain. destruct (to_i64 now); cbv zeta.
  - by destruct (tick (registry _) now).
  - unfold run_registry. by destruct (tick (registry e) u64_max).
Qed.

Lemma authorized_head_pending e s cred now :
  pending (authorized_head e s cred now).1 = pending e.
Proof. unfold authorized_head. by repeat case_match. Qed.

Lemma run_registry_pending e f : pending (run_registry e f).1 = pending e.
Proof. unfold run_registry. by destruct (f (registry e)). Qed.

Lemma service_step_wf t t' w w' : service_wf w → service_step t t' w w' → service_wf w'.
Proof.
  intros [He Hp Hj Hr] Hs.
  assert (∀ e, engine_wf e → pending e = [] → service_wf (with_engine w e)) as Hwith
    by (intros e ? ?; by split).
  destruct Hs as [request device p Hprep|p q now Hin Hv|q draws Hin|q draws Hin _| | |s who|s cred|
    aud l witness e Ho].
  - split; cbn; try done. intros p' [->|?]%elem_of_cons; [by eapply preparation_ok|by apply Hj].
  - split; cbn; try done. intros q' [->|?]%elem_of_cons; [|by apply Hr].
    by apply (verify_ok _ _ _ (Hj _ Hin)) in Hv as [? _].
  - apply Hwith; by apply command_section_wf; [|apply Hr].
  - apply Hwith; by apply state_section_wf; [|apply Hr].
  - apply Hwith; [by apply maintain_section_wf|by rewrite maintain_section_pending].
  - apply Hwith; [by apply run_tick_wf|by rewrite run_registry_pending].
  - apply Hwith; [by apply run_revoke_wf|by rewrite run_registry_pending].
  - apply Hwith; [by apply authorized_head_wf|by rewrite authorized_head_pending].
  - apply open_wf in Ho as [? ?]. split; cbn; try done; intros x []%not_elem_of_nil.
Qed.

Lemma service_run_wf t0 w0 t w : service_wf w0 → service_run t0 w0 t w → service_wf w.
Proof. intros H. induction 1; [done|]. by eapply service_step_wf. Qed.

Lemma served_wf t w : served t w → service_wf w.
Proof.
  intros [aud l witness w0 t0 t1 w1 Hf Hrun]. eapply service_run_wf; [|done].
  unfold fresh_service in Hf. apply bind_Some in Hf as (e & He & [= <-]).
  apply open_wf in He as [? ?]. split; cbn; try done; intros x []%not_elem_of_nil.
Qed.
End Service.
