(* ===== verification/CallServiceTheorems.v ===== *)
(** * Theorems about the call service

    What every run of the service keeps, restarts included: its bounds, the fences that only
    move forward, the calls that stay on their fence, a command's single application, what a
    refused command leaves, and the events that tell subscribers all of it. *)

From S2P Require Import Prelude Platform Ids Record Chat Identity AuthorityData AuthorityWitness Authority AuthorityProof AuthorityInv AuthorityFacts ProofFacts CallWire CallRegistry CallFacts CallSafety CallTheorems CallEvents CallEngine CallEngineFacts CallService.

Section Theorems.
Context `{P : Platform} {S : AuthoritySerde} {W : WitnessSerde} {C : CallSerde}.
Context {L : PlatformLaws P}.

(** ** Requests *)

(** The record of a command is signed by the device's key. *)
Definition signed_by_device (device : VerifiedCredential) (p : Preparation) : Prop :=
  verify_signature (pr_signed p) (vc_key device) = Ok tt.

(** The record of a command is signed by a key the device delegated, for this service,
    conversation and head, for at most a day that is not over, and never to start a call. *)
Definition signed_by_delegate (device : VerifiedCredential) (p : Preparation) (c : Command)
    (encoded : string) (now : N) : Prop :=
  ∃ certificate body key, Delegated.decode_certificate encoded = Ok certificate
    ∧ verify_signature certificate (vc_key device) = Ok tt
    ∧ decode (T := Delegation) certificate = Ok body
    ∧ hex 32 (dl_signing_public_key body) = Ok key
    ∧ verify_signature (pr_signed p) key = Ok tt
    ∧ dl_audience body = pr_audience p ∧ dl_issuer_credential body = vc_id device
    ∧ dl_hosting_space_id body = cc_hosting_space_id c ∧ dl_scope body = cc_scope c
    ∧ dl_config_id body = cc_config_id c
    ∧ now < dl_expires_at body ∧ cc_expires_at c ≤ dl_expires_at body
    ∧ dl_expires_at body ≤ dl_issued_at body + 24 * 60 * 60
    ∧ is_start (cc_operation c) = false.

Lemma check_time_Ok issued expires now : check_time issued expires now = Ok tt →
  issued ≤ now + 15 ∧ now < expires ∧ expires ≤ issued + 60.
Proof.
  intros H%fail_if_Ok. repeat apply orb_false_iff in H as [H ?].
  ordered. unfold saturating_add, COMMAND_TTL in *. lia.
Qed.

Lemma device_signed a p now c :
  verify_command a (pr_signed p) (pr_audience p) now = Ok c →
  cc_audience c = pr_audience p
  ∧ check_time (cc_issued_at c) (cc_expires_at c) now = Ok tt
  ∧ ∃ device, credential a (cc_credential_id c) = Ok device ∧ signed_by_device device p.
Proof.
  unfold verify_command. intros H. step H c' Hc. step H u1 H1. step H x2 H2. step H x3 H3.
  step H who H4. step H device H5. step H x6 H6. step H x7 H7. step H x8 H8.
  apply Ok_inj in H as ->. destruct x3, x6. inv_ok. split_and!; try done. by exists device.
Qed.

Lemma delegate_signed a p certificate encoded now c :
  Delegated.decode_certificate encoded = Ok certificate →
  Delegated.verify_command a (pr_signed p) certificate (pr_audience p) now = Ok c →
  cc_audience c = pr_audience p
  ∧ check_time (cc_issued_at c) (cc_expires_at c) now = Ok tt
  ∧ ∃ device, credential a (cc_credential_id c) = Ok device
              ∧ signed_by_delegate device p c encoded now.
Proof.
  intros Hcert. unfold Delegated.verify_command. intros H. step H un Hun. step H v Hv.
  step H device Hdev. step H body Hbody. step H x Hx. apply Ok_inj in H as <-.
  unfold Delegated.verify_command_authorship in Hbody. step Hbody v2 Hv2. step Hbody b Hb.
  step Hbody y Hy. step Hbody x1 H1. step Hbody x2 H2. step Hbody x3 H3. step Hbody x4 H4.
  apply Ok_inj in Hbody as ->. destruct x2, x4.
  unfold Delegated.verify in Hv. step Hv d Hd. step Hv x5 H5. step Hv dev2 Hdev2.
  step Hv v3 Hv3. step Hv x6 H6. apply Ok_inj in Hv as ->.
  pose proof (verify_authorship_body _ _ _ _ _ Hv3) as Hd3.
  unfold Delegated.verify_authorship in Hv2. step Hv2 z0 Hz0. step Hv2 dl Hdl. step Hv2 z1 Hz1.
  step Hv2 z2 Hz2. step Hv2 raw Hraw. step Hv2 key Hkey. step Hv2 re Hre.
  apply Ok_inj in Hv2 as <-. cbn in *. destruct z2.
  assert (vd_body v = dl) as Eb by congruence. rewrite Eb in Hdev.
  inv_ok. unfold vk_from_bytes in Hkey.
  split; [done|]. split; [done|]. exists device. split; [congruence|].
  exists certificate, (vd_body v), raw.
  assert (key = raw) as -> by (revert Hkey; case_match; [by intros [= <-]|done]).
  ordered. split_and!; try done; try congruence.
  - unfold saturating_add, MAX_DELEGATION_TTL in *. lia.
Qed.

(** Only authentic commands run. A request that is verified carries the very command its
    record decodes to, addressed to this service and not expired, made by a posting member
    under the head of a verified authority of the conversation it names, and signed with the
    key of that member's own device, or with a key that device delegated to this service for
    this conversation and head, which has not expired and may not start calls. *)
Theorem prepared_request_authentic e request bound p now q
    (He : engine_wf e) (Hp : preparation e request bound = Ok p) (Hv : verify p now = Ok q) :
  let c := pp_command q in
  decode (T := Command) (pr_signed p) = Ok c ∧ pp_request_id q = record_id (pr_signed p)
  ∧ cc_audience c = en_audience e
  ∧ cc_issued_at c ≤ now + 15 ∧ now < cc_expires_at c ∧ cc_expires_at c ≤ cc_issued_at c + 60
  ∧ verified_for (command_scope c) (pp_authority q)
  ∧ head (pp_authority q) = Some (cc_config_id c)
  ∧ require_member (pp_authority q) (cc_credential_id c) = Ok (pp_identity q)
  ∧ ∃ device, credential (pp_authority q) (cc_credential_id c) = Ok device
      ∧ match rq_delegation request with
        | None => signed_by_device device p
        | Some encoded => signed_by_delegate device p c encoded now
        end.
Proof.
  pose proof (preparation_ok _ _ _ _ He Hp) as Hj.
  destruct (verify_ok _ _ _ Hj Hv) as (Hh & Hdec & Hid). cbv zeta.
  assert (pr_audience p = en_audience e ∧ pr_request p = request) as [Haud Hreq].
  { unfold preparation in Hp. step Hp u1 H1. step Hp bytes Hb. step Hp signed Hs.
    step Hp c Hc. step Hp u2 H2. cbv zeta in Hp. step Hp u3 H3. step Hp stored Hst.
    step Hp u4 H4. by apply Ok_inj in Hp as <-. }
  assert (cc_audience (pp_command q) = pr_audience p
    ∧ check_time (cc_issued_at (pp_command q)) (cc_expires_at (pp_command q)) now = Ok tt
    ∧ ∃ device, credential (pp_authority q) (cc_credential_id (pp_command q)) = Ok device
      ∧ match rq_delegation request with
        | None => signed_by_device device p
        | Some encoded => signed_by_delegate device p (pp_command q) encoded now
        end) as (Ha & Ht%check_time_Ok & Hd).
  { unfold verify in Hv. step Hv a Hau. step Hv cl Hcl. step Hv who Hwho.
    apply Ok_inj in Hv as <-. cbn [pp_command pp_authority]. unfold request_command in Hcl.
    rewrite Hreq in Hcl. destruct (rq_delegation request) as [encoded|].
    - step Hcl certificate Hce. step Hcl v Hv. step Hcl c Hc. apply Ok_inj in Hcl as <-.
      apply map_err_Ok in Hce, Hc. by eapply delegate_signed.
    - step Hcl c Hc. apply Ok_inj in Hcl as <-. apply map_err_Ok in Hc. by apply device_signed. }
  split_and!; try done; try apply Ht; try apply Hh. congruence.
Qed.

(** ** Bounds *)

(** However it is used, the service holds at most 4096 conversations' fences and 64 MiB
    of membership proofs, at most one call per cached fence and as many as its limits allow,
    and no call has more participants, cameras or shared screens than configured. *)
Theorem call_service_bounded t w (Hs : served t w) :
  N.of_nat (size (fences (sv_engine w))) ≤ 4096
  ∧ cached_bytes (fences (sv_engine w)) ≤ 64 * 1024 * 1024
  ∧ dom (rooms (registry (sv_engine w))) ⊆ dom (fences (sv_engine w))
  ∧ N.of_nat (size (rooms (registry (sv_engine w)))) ≤ lm_rooms (limits (registry (sv_engine w)))
  ∧ ∀ s c, rooms (registry (sv_engine w)) !! s = Some c →
      N.of_nat (size (ac_participants c)) ≤ lm_participants (limits (registry (sv_engine w)))
      ∧ publishing (medias c) video_published ≤ lm_cameras (limits (registry (sv_engine w)))
      ∧ publishing (medias c) screen_published ≤ lm_screens (limits (registry (sv_engine w))).
Proof.
  apply served_wf, sw_engine in Hs. pose proof (reachable_wf _ (ew_registry _ Hs)) as Hr.
  split; [apply Hs|]. split; [apply Hs|]. split; [|split; [apply Hr|]].
  - intros s [c Hc]%elem_of_dom. destruct (ew_rooms _ Hs _ _ Hc) as (f & Hf & _).
    apply elem_of_dom. eauto.
  - intros s c Hc. pose proof (rw_calls _ Hr _ _ Hc) as Hwf.
    split; [|split; apply Hwf]. pose proof (cw_size _ _ _ Hwf) as Hsz.
    unfold roster in Hsz. by rewrite map_size_fmap in Hsz.
Qed.

(** ** Fences *)

(** How a conversation's row may change. *)
Inductive row_step (s : Scope) (w : FenceRow) : FenceRow → Prop :=
| row_kept : row_step s w w
| row_blocks : fw_blocked w = false → row_step s w (block_row w)
| row_moves f a h c :
    fw_blocked w = false → parse_row w = Ok f → verified_for s a →
    proves_recovery_ancestor a (fe_recovery f) = true →
    proves_config_at a (fe_head f) (fe_sequence f) = true →
    head a = Some h → h ≠ fe_head f → head_config a = Ok c →
    (is_owner_managed a = true → fe_sequence f < sc_sequence c) →
    row_step s w {| fw_head := display h; fw_sequence := sc_sequence c; fw_blocked := false;
                    fw_recovery := display <$> recovery_id a |}.

Definition rows_step (e e' : Engine) : Prop :=
  ∀ s w, db_fences e !! scope_key s = Some w →
    ∃ w', db_fences e' !! scope_key s = Some w' ∧ row_step s w w'.

Lemma rows_same e e' : db_fences e' = db_fences e → rows_step e e'.
Proof. intros H s w Hw. exists w. rewrite H. split; [done|apply row_kept]. Qed.

Lemma to_i64_Ok n m : to_i64 n = Ok m → m = n.
Proof. unfold to_i64. case_match; [|done]. by intros <-%Ok_inj. Qed.

Lemma save_fence_Ok s c a proof bytes now e e1 :
  save_fence s c a proof bytes now e = (e1, Ok tt) →
  ∃ h, head_config a = Ok h
    ∧ db_fences e1 = <[scope_key s :=
        {| fw_head := display (cc_config_id c); fw_sequence := sc_sequence h;
           fw_blocked := row_blocked e s; fw_recovery := display <$> recovery_id a |}]> (db_fences e)
    ∧ registry e1 = (configuration_changed (registry e) s (cc_config_id c)).1
    ∧ pending e1 = pending e ++ (configuration_changed (registry e) s (cc_config_id c)).2
    ∧ db_receipts e1 = db_receipts e.
Proof.
  unfold save_fence. destruct (_ ← ok_or proof Unauthorized; _) as [seq|] eqn:Hc; [|done].
  step Hc u Hu. step Hc h Hh. step Hc seq' Hi. apply Ok_inj in Hc as ->.
  apply map_err_Ok in Hh. apply to_i64_Ok in Hi as ->. cbv zeta. intros H. exists h.
  split; [done|]. destruct (configuration_changed (registry e) s (cc_config_id c)) as [r ev] eqn:Hcc.
  unfold set_fences, set_db_fences in H. cbn in H. rewrite Hcc in H.
  injection H as <-. by split_and!.
Qed.

Lemma run_command_fences c a d request now draws e :
  db_fences (run_command c a d request now draws e).1 = db_fences e
  ∧ fences (run_command c a d request now draws e).1 = fences e
  ∧ pending (run_command c a d request now draws e).1 = pending e.
Proof. unfold run_command. by destruct (applied ← _; _) as [[]|]. Qed.

Lemma settled_unblocked q now e moved e1 :
  engine_wf e → settled_fence q now e moved e1 →
  row_blocked e (command_scope (pp_command q)) = false.
Proof.
  intros He [e0 old bytes Hl Hold Hc Hb|e0 e2 bytes Hl Hhas Hc Hb Hroom Hs];
    [|by eapply continues_row].
  destruct (ew_fences _ (proj1 Hl) _ _ Hold) as (w & Hw & Hf).
  rewrite (proj1 (proj2 Hl)) in Hw. eapply (continues_row _ _ (Some old)); [|exact Hc].
  by exists w.
Qed.

Lemma settled_rows q now e moved e1 :
  engine_wf e → honest q → settled_fence q now e moved e1 → rows_step e e1.
Proof.
  intros He Hq [e0 old bytes Hl Hold Hc Hb|e0 e2 bytes Hl Hhas Hc Hb Hroom Hs].
  { apply rows_same. cbn. by rewrite (proj1 (proj2 Hl)). }
  pose proof (continues_row _ _ _ _ _ Hhas Hc) as Hrow.
  apply save_fence_Ok in Hs as (c & Hhc & Hdb & _).
  rewrite (proj1 (proj2 Hl)) in Hdb. cbn [db_fences set_fences] in Hdb.
  intros s w Hw. rewrite Hdb, lookup_insert.
  case_decide as E; [|exists w; split; [done|apply row_kept]].
  apply scope_key_inj in E. subst s. eexists. split; [done|].
  assert (row_blocked (set_fences e (fences e0)) (command_scope (pp_command q)) = false)
    as -> by exact Hrow.
  destruct (fences e0 !! command_scope (pp_command q)) as [old|]; [|by unfold has_fence in Hhas; congruence].
  destruct Hhas as (w' & Hw' & f0 & Hp & Eh & Er & Es & Eb). simplify_eq.
  destruct Hc as (Hbl & Hrec & Hne & Hpc). rewrite <-Eh in Hne, Hpc. rewrite <-Es in Hpc.
  rewrite <-Er in Hrec. apply row_moves with f0; try done; [|apply Hq|apply Hq|].
  - unfold row_blocked in Hrow. by rewrite Hw' in Hrow.
  - intros Hm. eapply owner_managed_newer; [apply Hq|done|apply Hq|done|done|done].
Qed.

(** A command touches the row of its own conversation only. *)
Lemma execute_other_rows q now draws e e1 r u :
  engine_wf e → honest q → execute q now draws e = (e1, r) → u ≠ command_scope (pp_command q) →
  db_fences e1 !! scope_key u = db_fences e !! scope_key u.
Proof.
  intros He Hq Hx Hu. set (s := command_scope (pp_command q)) in *.
  assert (scope_key s ≠ scope_key u) as Hk by (by intros E%scope_key_inj).
  assert (∀ moved e0, settled_fence q now e moved e0 →
    db_fences e0 !! scope_key u = db_fences e !! scope_key u) as Hset.
  { intros moved e0 [e2 old bytes Hl Hold Hc Hb|e2 e3 bytes Hl Hhas Hc Hb Hroom Hs].
    - cbn [db_fences set_fences]. by rewrite (proj1 (proj2 Hl)).
    - apply save_fence_Ok in Hs as (c & Hhc & -> & _). fold s. rewrite lookup_insert_ne by done.
      by rewrite (proj1 (proj2 Hl)). }
  destruct (execute_cases _ _ _ _ _ _ He Hq Hx) as
    [m err Hm|e0 old err Hl Hold Hb Hne Hp|m w Hm Hrow Hw Hid|moved e0 err Hs Hno|
     moved e0 e2 events Hs Hr Hnow Hrun]; [done| |done|by eapply Hset|].
  - fold s. unfold block. cbv zeta. destruct (configuration_changed _ s _). cbn [fst].
    cbn [db_fences set_registry set_fences set_db_fences]. rewrite lookup_alter_ne by done.
    by rewrite (proj1 (proj2 Hl)).
  - pose proof (run_command_fences (pp_command q) (pp_authority q) (pp_delegation q)
      (pp_request_id q) now draws e0) as [E _]. rewrite Hrun in E. cbn [fst] in E. rewrite E.
    by eapply Hset.
Qed.

Lemma execute_rows q now draws e e1 r :
  engine_wf e → honest q → execute q now draws e = (e1, r) → rows_step e e1.
Proof.
  intros He Hq H. destruct (execute_cases _ _ _ _ _ _ He Hq H) as
    [m err Hm|e1 old err Hl Hold Hb Hne Hp|m w Hm Hrow Hw Hid|moved e1 err Hset Hno|
     moved e1 e2 events Hset Hr Hnow Hrun].
  - by apply rows_same.
  - assert (db_fences (block (command_scope (pp_command q)) (cc_config_id (pp_command q)) e1).1
      = alter block_row (scope_key (command_scope (pp_command q))) (db_fences e)) as E.
    { unfold block. cbv zeta. destruct (configuration_changed _ _ _). cbn.
      by rewrite (proj1 (proj2 Hl)). }
    intros s w Hw. rewrite E, lookup_alter. case_decide as Hk.
    + rewrite Hk, Hw. eexists. split; [done|]. apply row_blocks.
      apply scope_key_inj in Hk as <-. destruct Hl as (Hwf & He1 & _).
      destruct (ew_fences _ Hwf _ _ Hold) as (w' & Hw' & Hf%fence_of_blocked).
      rewrite He1 in Hw'. cbn [db_fences set_fences] in Hw'. congruence.
    + exists w. split; [done|apply row_kept].
  - by apply rows_same.
  - by eapply settled_rows.
  - intros s w Hw. destruct (settled_rows _ _ _ _ _ He Hq Hset s w Hw) as (w' & Hw' & Hst).
    exists w'. split; [|done].
    pose proof (run_command_fences (pp_command q) (pp_authority q) (pp_delegation q)
      (pp_request_id q) now draws e1) as [E _]. rewrite Hrun in E. cbn in E. by rewrite E.
Qed.
(** Every step keeps rows, or moves them as a command does. *)
Lemma service_step_rows t t' w w' :
  service_wf w → service_step t t' w w' → rows_step (sv_engine w) (sv_engine w').
Proof.
  intros Hwf Hs. pose proof (sw_engine _ Hwf) as He.
  destruct Hs as [request device p Hprep|p q now Hin Hv|q draws Hin|q draws Hin _| | |s who|s cred|
    aud l witness e Ho]; cbn; try by apply rows_same.
  - unfold command_section. destruct (execute q t draws _) as [e1 r] eqn:Hx.
    apply execute_rows in Hx; [done|done|by apply (sw_ready _ Hwf)].
  - unfold state_section. pose proof (run_tick_wf _ t He) as Ht.
    destruct (run_registry _ _) as [e0 ev] eqn:He0.
    destruct (execute q t' draws e0) as [e1 r] eqn:Hx.
    apply execute_rows in Hx; [|done|by apply (sw_ready _ Hwf)].
    unfold run_registry in He0. destruct (tick _ _). by injection He0 as <- _.
  - apply rows_same. unfold maintain_section, maintain. destruct (to_i64 t); cbv zeta.
    + by destruct (tick _ _).
    + unfold run_registry. by destruct (tick _ _).
  - apply rows_same. unfold run_registry. by destruct (tick _ _).
  - apply rows_same. unfold run_registry. by destruct (revoke_member _ _ _).
  - apply rows_same. unfold authorized_head. by repeat case_match.
  - apply rows_same. unfold open_with_witness in Ho.
    by apply bind_Some in Ho as ([] & _ & (r & _ & [= <-])%bind_Some).
Qed.

Lemma row_step_blocked s w w' : row_step s w w' → fw_blocked w = true → w' = w.
Proof. intros []; congruence. Qed.

Lemma service_run_rows t0 w0 t w s r :
  service_wf w0 → service_run t0 w0 t w → db_fences (sv_engine w0) !! scope_key s = Some r →
  ∃ r', db_fences (sv_engine w) !! scope_key s = Some r' ∧ rtc (row_step s) r r'.
Proof.
  intros Hwf Hrun Hr. induction Hrun as [|t w t1 t2 w' Hrun IH H1 H2 Hs]; [by exists r|].
  destruct IH as (r1 & Hr1 & Hst).
  destruct (service_step_rows _ _ _ _ (service_run_wf _ _ _ _ Hwf Hrun) Hs s r1 Hr1) as (r2 & Hr2 & H).
  exists r2. split; [done|]. by eapply rtc_r.
Qed.

(** C4. A conversation's stored fence never goes back, whatever runs and across restarts: its
    row is never lost, it changes only by being blocked or by moving to the head of a
    verified authority that proves the old head at its place in history and holds its
    recovery (and is newer where the Space is owner-managed), and a blocked conversation is
    blocked forever: no request for it ever runs or changes a call. *)
Theorem fence_never_rolls_back t w t' w' s r
    (Hs : served t w) (Hrun : service_run t w t' w')
    (Hr : db_fences (sv_engine w) !! scope_key s = Some r) :
  (∃ r', db_fences (sv_engine w') !! scope_key s = Some r' ∧ rtc (row_step s) r r')
  ∧ (fw_blocked r = true →
     db_fences (sv_engine w') !! scope_key s = Some r
     ∧ rooms (registry (sv_engine w')) !! s = None
     ∧ ∀ q now draws, q ∈ sv_ready w' → command_scope (pp_command q) = s →
         ∃ err, (execute q now draws (sv_engine w')).2 = Err err
                ∧ registry (execute q now draws (sv_engine w')).1 = registry (sv_engine w')).
Proof.
  apply served_wf in Hs. pose proof (service_run_wf _ _ _ _ Hs Hrun) as Hwf'.
  destruct (service_run_rows _ _ _ _ _ _ Hs Hrun Hr) as (r' & Hr' & Hst).
  split; [by exists r'|]. intros Hb.
  assert (r' = r) as ->.
  { clear Hr Hr'. induction Hst as [|x y z Hxy Hyz IH]; [done|].
    apply row_step_blocked in Hxy as ->; [|done]. by apply IH. }
  split; [done|]. pose proof (sw_engine _ Hwf') as He.
  assert (row_blocked (sv_engine w') s = true) as Hrb by (unfold row_blocked; by rewrite Hr').
  split.
  - apply eq_None_not_Some. intros [c Hc]. destruct (ew_rooms _ He _ _ Hc) as (f & Hf & _ & Hfb).
    destruct (ew_fences _ He _ _ Hf) as (w1 & Hw1 & Hf1%fence_of_blocked). congruence.
  - intros q now draws Hq <-. pose proof (sw_ready _ Hwf' _ Hq) as Hh.
    destruct (execute q now draws (sv_engine w')) as [e1 res] eqn:Hx.
    destruct (execute_cases _ _ _ _ _ _ He Hh Hx) as
      [m err Hm|e1 old err Hl Hold Hbl Hne Hp|m x Hm Hrow Hw Hid|moved e1 err Hset Hno|
       moved e1 e2 events Hset Hno Hnow Hx']; cbn; [by exists err| |congruence| |].
    + destruct Hl as (Hwf1 & He1 & _).
      destruct (ew_fences _ Hwf1 _ _ Hold) as (w1 & Hw1 & Hf1%fence_of_blocked).
      rewrite He1 in Hw1. cbn [db_fences set_fences] in Hw1. congruence.
    + apply (settled_unblocked _ _ _ _ _ He) in Hset. congruence.
    + apply (settled_unblocked _ _ _ _ _ He) in Hset. congruence.
Qed.
(** Every live call is under its conversation's current fence: the fence is cached,
    unblocked, stored with the same head, and that head is the call's configuration; whoever
    the service authorizes is a member under a verified authority of that conversation with
    that very head. *)
Theorem live_calls_current t w (Hs : served t w) :
  (∀ s c, rooms (registry (sv_engine w)) !! s = Some c →
     ∃ f r, fences (sv_engine w) !! s = Some f ∧ fe_blocked f = false
       ∧ fe_head f = ac_config_id c
       ∧ db_fences (sv_engine w) !! scope_key s = Some r ∧ fw_blocked r = false
       ∧ parse_hex 32 (fw_head r) = Some (ac_config_id c))
  ∧ ∀ s cred now e h, authorized_head (sv_engine w) s cred now = (e, Some h) →
     ∃ a who, verified_for s a ∧ head a = Some h ∧ require_member a cred = Ok who
       ∧ rooms (registry e) = rooms (registry (sv_engine w))
       ∧ ∀ c, rooms (registry e) !! s = Some c → ac_config_id c = h.
Proof.
  apply served_wf, sw_engine in Hs. split.
  - intros s c Hc. destruct (ew_rooms _ Hs _ _ Hc) as (f & Hf & Hh & Hb).
    destruct (ew_fences _ Hs _ _ Hf) as (r & Hr & Hfo). exists f, r.
    rewrite (fence_of_blocked _ _ Hfo). split_and!; try done.
    destruct Hfo as (f0 & Hp & Hh0 & _). unfold parse_row in Hp. step Hp u Hu. step Hp h Hhex.
    step Hp re Hre. apply Ok_inj in Hp as <-. apply ok_or_Ok in Hhex. cbn in Hh0. congruence.
  - intros s cred now e h H. unfold authorized_head in H.
    destruct (authorized (sv_engine w) s cred) eqn:Ha; [|done]. cbn [negb] in H.
    unfold authorized in Ha. destruct (fences (sv_engine w) !! s) as [f|] eqn:Hf; [|done].
    apply andb_true_iff in Ha as [Hb Ha].
    destruct (fe_authority f) as [a|] eqn:Hau; [|done].
    destruct (ew_cached _ Hs _ _ _ Hf Hau) as [Hv Hh].
    destruct (require_member a cred) as [who|] eqn:Hm; [|done].
    injection H as <- <-. exists a, who. cbn [registry set_fences]. split_and!; try done.
    intros c Hc. destruct (ew_rooms _ Hs _ _ Hc) as (f' & Hf' & Hh' & _). congruence.
Qed.

(** ** Commands *)

(** The registry when a conversation's head moved, with its event pending. *)
Definition head_moved (e e' : Engine) (s : Scope) (h : RecordId) : Prop :=
  registry e' = (configuration_changed (registry e) s h).1
  ∧ pending e' = pending e ++ (configuration_changed (registry e) s h).2.

Lemma settled_registry q now e moved e1 :
  settled_fence q now e moved e1 →
  db_receipts e1 = db_receipts e
  ∧ if moved then head_moved e e1 (command_scope (pp_command q)) (cc_config_id (pp_command q))
    else registry e1 = registry e ∧ pending e1 = pending e.
Proof.
  intros [e0 old bytes Hl Hold Hc Hb|e0 e2 bytes Hl Hhas Hc Hb Hroom Hs].
  - cbn [registry pending db_receipts set_fences]. by rewrite (proj1 (proj2 Hl)).
  - apply save_fence_Ok in Hs as (c & _ & _ & Hr & Hp & Hd).
    rewrite (proj1 (proj2 Hl)) in Hr, Hp, Hd. done.
Qed.

Lemma block_registry s cfg e : head_moved e (block s cfg e).1 s cfg
  ∧ db_receipts (block s cfg e).1 = db_receipts e.
Proof.
  unfold head_moved, block. cbv zeta. cbn [registry set_fences set_db_fences pending].
  by destruct (configuration_changed _ _ _).
Qed.

Lemma execute_err q now draws e e1 err :
  engine_wf e → honest q → execute q now draws e = (e1, Err err) →
  db_receipts e1 = db_receipts e
  ∧ ((registry e1 = registry e ∧ pending e1 = pending e)
     ∨ head_moved e e1 (command_scope (pp_command q)) (cc_config_id (pp_command q))).
Proof.
  intros He Hq Hx. remember (Err err) as r eqn:Hr.
  destruct (execute_cases _ _ _ _ _ _ He Hq Hx) as
    [m err' Hm|e0 old err' Hl Hold Hb Hne Hp|m x Hm Hrow Hw Hid|moved e0 err' Hset Hno|
     moved e0 e2 events Hset Hno Hnow Hrun]; try done.
  - split; [done|by left].
  - destruct (block_registry (command_scope (pp_command q)) (cc_config_id (pp_command q)) e0)
      as [[H1 H2] H3]. unfold head_moved. rewrite H1, H2, H3, (proj1 (proj2 Hl)).
    split; [done|by right].
  - apply settled_registry in Hset as [Hd Hm]. split; [done|]. destruct moved; auto.
Qed.

(** C33. A refused command leaves everything but its own conversation's fence as it was: no
    receipt is written, every other conversation keeps its fence and its call, no call is
    started, entered or left, and its own conversation's call is either untouched or, where
    the request proved another head, ended with its announcement pending. *)
Theorem rejected_command_keeps_calls t w q now draws e err
    (Hs : served t w) (Hq : q ∈ sv_ready w)
    (Hx : execute q now draws (sv_engine w) = (e, Err err)) :
  let s := command_scope (pp_command q) in
  db_receipts e = db_receipts (sv_engine w)
  ∧ (∀ u, u ≠ s → db_fences e !! scope_key u = db_fences (sv_engine w) !! scope_key u
                  ∧ rooms (registry e) !! u = rooms (registry (sv_engine w)) !! u)
  ∧ ((rooms (registry e) !! s = rooms (registry (sv_engine w)) !! s ∧ pending e = [])
     ∨ ∃ c, rooms (registry (sv_engine w)) !! s = Some c
         ∧ ac_config_id c ≠ cc_config_id (pp_command q) ∧ rooms (registry e) !! s = None
         ∧ pending e = [EndedEvent s (ac_call_id c) EndUnauthorized]).
Proof.
  apply served_wf in Hs. pose proof (sw_engine _ Hs) as He. pose proof (sw_ready _ Hs _ Hq) as Hh.
  pose proof (sw_pending _ Hs) as Hp. cbv zeta.
  destruct (execute_err _ _ _ _ _ _ He Hh Hx) as [Hd Hcase]. split; [done|]. split.
  - intros u Hu. split.
    + by eapply execute_other_rows.
    + destruct Hcase as [[-> _]|[-> _]]; [done|].
      by rewrite configuration_changed_rooms, decide_False by done.
  - destruct Hcase as [[-> ->]|[-> ->]]; [by left|]. rewrite Hp.
    rewrite configuration_changed_rooms, decide_True by done. cbn [app].
    unfold configuration_changed, end_, end_with_reason.
    destruct (rooms (registry (sv_engine w)) !! _) as [c|] eqn:Hc; [|by left].
    cbn [mbind option_bind]. case_bool_decide as Hcfg; cbn; [by left|]. right. by exists c.
Qed.
(** The receipt of a command is on record, or the command has expired. *)
Definition receipted (now : N) (e : Engine) (q : Prepared) : Prop :=
  now < cc_expires_at (pp_command q) →
  db_receipts e !! receipt_key (pp_command q)
    = Some {| rw_request_id := display (pp_request_id q);
              rw_expires := cc_expires_at (pp_command q) |}.

Lemma receipted_later t t' e q : t ≤ t' → receipted t e q → receipted t' e q.
Proof. intros Ht H Hq. apply H. lia. Qed.

Lemma receipted_same t e e' q :
  db_receipts e' = db_receipts e → receipted t e q → receipted t e' q.
Proof. intros E H. unfold receipted. by rewrite E. Qed.

Lemma purge_receipted now m (k : string * string) r :
  m !! k = Some r → now < rw_expires r → purge_receipts m now !! k = Some r.
Proof. intros Hk Hr. by apply map_lookup_filter_Some. Qed.

Lemma run_command_receipt c a d request now draws e e1 events :
  run_command c a d request now draws e = (e1, Ok events) →
  db_receipts e1 = <[receipt_key c := {| rw_request_id := display request;
                       rw_expires := cc_expires_at c |}]> (purge_receipts (db_receipts e) now)
  ∧ purge_receipts (db_receipts e) now !! receipt_key c = None
  ∧ apply_with_delegation (registry e) a c now d draws = Ok (registry e1, events).
Proof.
  unfold run_command. destruct (applied ← _; _) as [[[r ev] receipts]|] eqn:H; [|done].
  intros [= <- <-]. step H res Hap. destruct res as [r' ev']. step H at_ Hat. step H until Hex.
  step H rc Hrc. apply Ok_inj in H as [= -> -> ->]. apply to_i64_Ok in Hat as ->.
  apply to_i64_Ok in Hex as ->. unfold insert_receipt in Hrc.
  destruct (purge_receipts _ _ !! _) eqn:Hn; [done|]. by apply Ok_inj in Hrc as <-.
Qed.

Lemma execute_receipted q' q now draws e e1 r :
  engine_wf e → honest q' → execute q' now draws e = (e1, r) →
  receipted now e q → receipted now e1 q.
Proof.
  intros He Hq Hx Hre Hnow. specialize (Hre Hnow).
  destruct (execute_cases _ _ _ _ _ _ He Hq Hx) as
    [m err Hm|e0 old err Hl Hold Hb Hne Hp|m w Hm Hrow Hw Hid|moved e0 err Hs Hno|
     moved e0 e2 events Hs Hno Hlt Hrun]; try done.
  - by rewrite (proj2 (block_registry _ _ _)), (proj1 (proj2 Hl)).
  - by rewrite (proj1 (settled_registry _ _ _ _ _ Hs)).
  - apply run_command_receipt in Hrun as (-> & Hn & _).
    rewrite (proj1 (settled_registry _ _ _ _ _ Hs)) in Hn |- *.
    pose proof (purge_receipted now _ _ _ Hre Hnow) as Hk.
    rewrite lookup_insert_ne; [done|]. intros E. rewrite E in Hn. congruence.
Qed.

Lemma service_step_receipted t t' w w' q :
  service_wf w → t ≤ t' → service_step t t' w w' →
  receipted t (sv_engine w) q → receipted t' (sv_engine w') q.
Proof.
  intros Hwf Ht Hs Hre. pose proof (sw_engine _ Hwf) as He.
  destruct Hs as [request device p Hprep|p q' now Hin Hv|q' draws Hin|q' draws Hin _| | |s who|s cred|
    aud l witness e Ho]; cbn [sv_engine with_engine]; try by eapply receipted_later.
  - unfold command_section. destruct (execute q' t draws _) as [e1 r] eqn:Hx.
    apply (execute_receipted _ q) in Hx; [|done|by apply (sw_ready _ Hwf)|done].
    by eapply receipted_later.
  - unfold state_section. pose proof (run_tick_wf _ t He) as Hte.
    assert (db_receipts (run_registry (sv_engine w) (λ r, tick r t)).1 = db_receipts (sv_engine w))
      as Hd by (unfold run_registry; by destruct (tick _ _)).
    destruct (run_registry _ _) as [e0 ev].
    destruct (execute q' t' draws e0) as [e1 r] eqn:Hx.
    apply (execute_receipted _ q) in Hx; [done|done|by apply (sw_ready _ Hwf)|].
    apply (receipted_same _ _ e0 _ Hd). by eapply receipted_later.
  - intros Hnow. specialize (Hre ltac:(lia)). unfold maintain_section, maintain.
    destruct (to_i64 t) as [at_|] eqn:Hat; cbv zeta.
    + apply to_i64_Ok in Hat as ->. destruct (tick _ _). apply purge_receipted; [done|].
      cbn [rw_expires]. lia.
    + unfold run_registry. by destruct (tick _ _).
  - eapply receipted_later; [done|]. unfold run_registry. by destruct (tick _ _).
  - eapply receipted_later; [done|]. unfold run_registry. by destruct (revoke_member _ _ _).
  - eapply receipted_later; [done|]. unfold authorized_head. by repeat case_match.
  - eapply receipted_later; [done|]. unfold open_with_witness in Ho.
    by apply bind_Some in Ho as ([] & _ & (r & _ & [= <-])%bind_Some).
Qed.

Lemma service_run_time t0 w0 t w : service_run t0 w0 t w → t0 ≤ t.
Proof. induction 1; lia. Qed.

Lemma service_run_receipted t0 w0 t w q :
  service_wf w0 → service_run t0 w0 t w →
  receipted t0 (sv_engine w0) q → receipted t (sv_engine w) q.
Proof.
  intros Hwf Hrun Hre. induction Hrun as [|t w t1 t2 w' Hrun IH H1 H2 Hs]; [done|].
  eapply service_step_receipted; [by eapply service_run_wf|exact H2|done|].
  by eapply receipted_later.
Qed.

(** C20. A command acts once: after it was applied, no later execution of the same command,
    whether retried, raced or replayed, before or after any other requests, maintenance and
    restarts, acts again. A retry that is accepted is reported as a duplicate and leaves
    every call as it is; otherwise it is refused; and no receipt changes either way. *)
Theorem command_applies_once t w q draws e answer t' w' q' now draws' e' r
    (Hs : served t w) (Hq : q ∈ sv_ready w)
    (Hx : execute q t draws (sv_engine w) = (e, Ok answer)) (Hnew : ap_duplicate answer = false)
    (Hrun : service_run t (with_engine w (command_section q t draws (sv_engine w)).1) t' w')
    (Hq' : q' ∈ sv_ready w') (Hsame : pp_command q' = pp_command q) (Hnow : t' ≤ now)
    (Hx' : execute q' now draws' (sv_engine w') = (e', r)) :
  db_receipts e' = db_receipts (sv_engine w')
  ∧ match r with
    | Ok again => ap_duplicate again = true ∧ ap_events again = []
                  ∧ registry e' = registry (sv_engine w')
                  ∧ pp_request_id q' = pp_request_id q
    | Err _ => registry e' = registry (sv_engine w')
               ∨ registry e' = (configuration_changed (registry (sv_engine w'))
                                  (command_scope (pp_command q)) (cc_config_id (pp_command q))).1
    end.
Proof.
  apply served_wf in Hs.
  assert (service_step t t w (with_engine w (command_section q t draws (sv_engine w)).1))
    as Hstep by by constructor.
  pose proof (service_step_wf _ _ _ _ Hs Hstep) as Hwf1.
  assert (receipted t (command_section q t draws (sv_engine w)).1 q) as Hre.
  { unfold command_section. rewrite Hx. remember (Ok answer) as res eqn:Hres.
    destruct (execute_cases _ _ _ _ _ _ (sw_engine _ Hs) (sw_ready _ Hs _ Hq) Hx) as
      [| |m x Hm Hrow Hw Hid| |moved e0 e2 events Hset Hno Hlt Hrc]; try done;
      injection Hres as <-; [done|].
    apply run_command_receipt in Hrc as (Hd & _ & _). intros _. cbn.
    rewrite Hd. by rewrite lookup_insert_eq. }
  pose proof (service_run_receipted _ _ _ _ q Hwf1 Hrun Hre) as Hre'.
  pose proof (service_run_wf _ _ _ _ Hwf1 Hrun) as Hwf'. clear Hre Hrun Hstep Hx Hnew Hwf1.
  pose proof (sw_engine _ Hwf') as He'. pose proof (sw_ready _ Hwf' _ Hq') as Hh'.
  destruct r as [again|err].
  - remember (Ok again) as res eqn:Hres.
    destruct (execute_cases _ _ _ _ _ _ He' Hh' Hx') as
      [| |m x Hm Hrow Hw Hid| |moved e0 e2 events Hset Hno Hlt Hrc]; try done; subst.
    + injection Hres as <-. split; [done|]. split_and!; try done.
      assert (now < cc_expires_at (pp_command q)) as Hlt.
      { destruct (N.lt_ge_cases now (cc_expires_at (pp_command q))) as [|Hge]; [done|].
        unfold execute in Hx'. unfold mbind at 1, step_bind at 1, lift at 1 in Hx'.
        rewrite Hsame in Hx'. by rewrite (proj2 (N.leb_le _ _) Hge) in Hx'. }
      rewrite Hsame, Hre' in Hw by lia. injection Hw as <-.
      cbn [rw_request_id] in Hid. by apply display_inj in Hid.
    + rewrite Hsame in *. rewrite Hre' in Hno by lia. done.
  - destruct (execute_err _ _ _ _ _ _ He' Hh' Hx') as [Hd Hcase]. split; [done|].
    rewrite Hsame in Hcase. destruct Hcase as [[? _]|[? _]]; auto.
Qed.
(** ** What subscribers are told *)

(** The events of an outcome, published after those the engine had pending. *)
Definition outcome_events (r : result CallError Applied) : list Event :=
  match r with Ok answer => ap_events answer | Err _ => [] end.

Lemma observe_app m l k : observe_all m (l ++ k) = observe_all (observe_all m l) k.
Proof. apply foldl_app. Qed.

Lemma head_moved_observed e e1 s h :
  engine_wf e → head_moved e e1 s h →
  ∃ ev, pending e1 = pending e ++ ev ∧ observe_all (picture (registry e)) ev = picture (registry e1).
Proof.
  intros He [Hr Hp]. eexists. split; [exact Hp|]. rewrite Hr.
  apply step_observed; [apply He|apply step_configuration].
Qed.

Lemma settled_observed q now e moved e1 :
  engine_wf e → settled_fence q now e moved e1 →
  ∃ ev, pending e1 = pending e ++ ev ∧ observe_all (picture (registry e)) ev = picture (registry e1).
Proof.
  intros He Hs. apply settled_registry in Hs as [_ Hm]. destruct moved.
  - by eapply head_moved_observed.
  - destruct Hm as [-> ->]. exists []. by rewrite app_nil_r.
Qed.

Lemma execute_observed q now draws e e1 r :
  engine_wf e → honest q → execute q now draws e = (e1, r) →
  ∃ ev, pending e1 = pending e ++ ev
    ∧ observe_all (picture (registry e)) (ev ++ outcome_events r) = picture (registry e1).
Proof.
  intros He Hq Hx. destruct r as [answer|err].
  - remember (Ok answer) as res eqn:Hres.
    destruct (execute_cases _ _ _ _ _ _ He Hq Hx) as
      [| |m x Hm Hrow Hw Hid| |moved e0 e2 events Hset Hno Hlt Hrc]; try done;
      injection Hres as <-.
    + exists []. by rewrite app_nil_r.
    + destruct (settled_observed _ _ _ _ _ He Hset) as (ev & Hp & Hob).
      pose proof (settled_fence_wf _ _ _ _ _ He Hq Hset) as [Hwf0 _].
      pose proof (run_command_fences (pp_command q) (pp_authority q) (pp_delegation q)
        (pp_request_id q) now draws e0) as (_ & _ & Hpe). rewrite Hrc in Hpe. cbn [fst] in Hpe.
      exists ev. split; [congruence|]. rewrite observe_app, Hob.
      apply step_observed; [apply Hwf0|]. eapply step_apply.
      by apply run_command_receipt in Hrc as (_ & _ & Hap).
  - destruct (execute_err _ _ _ _ _ _ He Hq Hx) as [_ [[-> ->]|Hm]].
    + exists []. by rewrite app_nil_r.
    + destruct (head_moved_observed _ _ _ _ He Hm) as (ev & Hp & Hob). exists ev.
      by rewrite app_nil_r.
Qed.

Lemma run_registry_observed e f :
  engine_wf e → registry_step (registry e) (f (registry e)).1 (f (registry e)).2 →
  observe_all (picture (registry e)) (run_registry e f).2 = picture (registry (run_registry e f).1).
Proof.
  intros He Hs. apply step_observed in Hs; [|apply He]. unfold run_registry.
  by destruct (f (registry e)).
Qed.

Lemma maintain_observed e now :
  engine_wf e →
  observe_all (picture (registry e)) (maintain_section now e).2
  = picture (registry (maintain_section now e).1).
Proof.
  intros He. unfold maintain_section, maintain. destruct (to_i64 now) as [at_|]; cbv zeta.
  - pose proof (step_observed _ _ _ (ew_registry _ He) (step_tick (registry e) now)) as Hob.
    change (registry (set_db_receipts e (purge_receipts (db_receipts e) at_))) with (registry e).
    by destruct (tick (registry e) now).
  - apply (run_registry_observed e (λ r, tick r u64_max)); [done|apply step_tick].
Qed.

Lemma configuration_changed_sub r s h t c :
  rooms (configuration_changed r s h).1 !! t = Some c → rooms r !! t = Some c.
Proof.
  unfold configuration_changed, end_, end_with_reason.
  destruct (rooms r !! s) eqn:Hs; [|done]. case_bool_decide; [done|]. cbn.
  by intros [_ ?]%lookup_delete_Some.
Qed.

Lemma settled_sub q now e moved e1 t c :
  settled_fence q now e moved e1 →
  rooms (registry e1) !! t = Some c → rooms (registry e) !! t = Some c.
Proof.
  intros [_ Hm]%settled_registry. destruct moved.
  - destruct Hm as [-> _]. apply configuration_changed_sub.
  - by destruct Hm as [-> _].
Qed.

(** No ring is over where a tick of the same time has passed. *)
Lemma tick_rings r now s c : rooms (tick r now).1 !! s = Some c → ring_over c now = false.
Proof.
  intros [Hse _]%tick_kept. unfold ring_over.
  destruct (decide (ac_kind c = Direct)) as [Hk|Hk]; [|by rewrite (bool_decide_eq_false_2 _ Hk)].
  destruct (decide (ac_phase c = Ringing)) as [Hph|Hph];
    [|by rewrite (bool_decide_eq_false_2 _ Hph), andb_false_r].
  rewrite (proj2 (N.leb_gt _ _)) by (by apply (se_ringing _ _ _ Hse)). apply andb_false_r.
Qed.

(** A state request at one time reads: beyond a moved head, its execution changes no call. *)
Lemma subscribe_reads q now draws e e1 r :
  engine_wf e → honest q → cc_operation (pp_command q) = Subscribe →
  (∀ s c, rooms (registry e) !! s = Some c → ring_over c now = false) →
  execute q now draws e = (e1, r) →
  ∃ moved, pending e1 = pending e ++ moved
    ∧ observe_all (picture (registry e)) moved = picture (registry e1).
Proof.
  intros He Hq Hop Hring Hx. destruct r as [answer|err].
  - remember (Ok answer) as res eqn:Hres.
    destruct (execute_cases _ _ _ _ _ _ He Hq Hx) as
      [| |m x Hm Hrow Hw Hid| |moved e2 e3 events Hset Hno Hlt Hrc]; try done.
    { exists []. by rewrite app_nil_r. }
    pose proof (run_command_fences (pp_command q) (pp_authority q) (pp_delegation q)
      (pp_request_id q) now draws e2) as (_ & _ & Hpe). rewrite Hrc in Hpe. cbn [fst] in Hpe.
    destruct (settled_observed _ _ _ _ _ He Hset) as (ev & Hp & Hob).
    exists ev. split; [congruence|]. rewrite Hob. f_equal.
    apply run_command_receipt in Hrc as (_ & _ & Hap).
    apply apply_with_delegation_Ok in Hap as (who & ex & r1 & ev1 & _ & _ & _ & Hap & Heq).
    rewrite Hop in Heq. cbn in Heq. injection Heq as -> _.
    destruct Hap as [c Hc Hro|Hop' Hnr|h kind media cid invs Hop'|c o r2 ev2 Hc Hro Hcfg Hcall]; try done.
    + apply (settled_sub _ _ _ _ _ _ _ Hset), Hring in Hc. congruence.
    + congruence.
    + unfold as_join in Hcall. rewrite Hop in Hcall. cbn in Hcall. by rewrite Hop in Hcall.
  - apply execute_observed in Hx as (ev & Hp & Hob); [|done..]. exists ev. split; [done|].
    by rewrite app_nil_r in Hob.
Qed.

(** What a state request does to calls: its tick's events, then the pending ones of its
    execution, then those of its outcome. *)
Lemma state_observed q now now' draws e e' r ev :
  engine_wf e → pending e = [] → honest q → cc_operation (pp_command q) = Subscribe →
  state_section q now now' draws e = (e', (r, ev)) →
  ∃ moved, ev = moved ++ (tick (registry e) now).2
    ∧ observe_all (picture (registry e)) ((tick (registry e) now).2 ++ moved ++ outcome_events r)
      = picture (registry e')
    ∧ (now' = now →
       observe_all (picture (registry e)) ((tick (registry e) now).2 ++ moved)
       = picture (registry e')).
Proof.
  intros He Hp Hq Hop Hst. unfold state_section in Hst. pose proof (run_tick_wf e now He) as He0.
  pose proof (step_observed _ _ _ (ew_registry _ He) (step_tick (registry e) now)) as Htick.
  pose proof (tick_rings (registry e) now) as Hring.
  unfold run_registry in Hst, He0. destruct (tick (registry e) now) as [r0 expired].
  cbn [fst snd] in *. set (e0 := set_registry e r0 (pending e)) in *.
  destruct (execute q now' draws e0) as [e1 r1] eqn:Hx.
  unfold take_events in Hst. injection Hst as <- <- <-.
  pose proof (execute_observed _ _ _ _ _ _ He0 Hq Hx) as (moved & Hpe & Hob).
  assert (pending e0 = []) as E0 by exact Hp. rewrite E0 in Hpe. cbn [app] in Hpe.
  exists moved. split; [by rewrite Hpe|]. split.
  - rewrite observe_app, Htick. exact Hob.
  - intros ->. destruct (subscribe_reads _ _ _ _ _ _ He0 Hq Hop Hring Hx) as (moved' & Hpe' & Hob').
    rewrite E0 in Hpe'. cbn [app] in Hpe'. assert (moved' = moved) as -> by congruence.
    rewrite observe_app, Htick. exact Hob'.
Qed.

(** C13. Subscribers are told exactly what happens to calls: the events a command's section
    publishes, in its order, turn the picture of the calls before it into the picture after
    it, whether the command is applied, refused, or moves its conversation's head on the way;
    and so do the events published at maintenance, at shutdown and when a member loses
    admission. A state request is the exception: with the clock read at [now] and [now'], it
    is the events of its tick, then the pending ones of its execution, then those of its outcome
    that give the picture after it (without the outcome's if the readings are the same),
    while it publishes the pending ones before the tick's and those of the outcome not at
    all; its published events give the picture after it when the readings are the same and the
    tick or the move of the head has no event. *)
Theorem published_events_rebuild_calls t w (Hs : served t w) :
  let e := sv_engine w in
  (∀ q now draws e' r ev, q ∈ sv_ready w → command_section q now draws e = (e', (r, ev)) →
     observe_all (picture (registry e)) (ev ++ outcome_events r) = picture (registry e'))
  ∧ (∀ now e' ev, maintain_section now e = (e', ev) →
     observe_all (picture (registry e)) ev = picture (registry e'))
  ∧ (∀ e' ev, run_registry e (λ r, tick r u64_max) = (e', ev) →
     observe_all (picture (registry e)) ev = picture (registry e'))
  ∧ (∀ s who e' ev, run_registry e (λ r, revoke_member r s who) = (e', ev) →
     observe_all (picture (registry e)) ev = picture (registry e'))
  ∧ (∀ q now now' draws e' r ev, q ∈ sv_ready w → cc_operation (pp_command q) = Subscribe →
     state_section q now now' draws e = (e', (r, ev)) →
     let expired := (tick (registry e) now).2 in
     ∃ moved, ev = moved ++ expired
       ∧ observe_all (picture (registry e)) (expired ++ moved ++ outcome_events r)
         = picture (registry e')
       ∧ (now' = now →
          observe_all (picture (registry e)) (expired ++ moved) = picture (registry e')
          ∧ (moved = [] ∨ expired = [] →
             observe_all (picture (registry e)) ev = picture (registry e')))).
Proof.
  apply served_wf in Hs. pose proof (sw_engine _ Hs) as He. pose proof (sw_pending _ Hs) as Hp.
  cbv zeta. split; [|split; [|split; [|split]]].
  - intros q now draws e' r ev Hq Hc. unfold command_section in Hc.
    destruct (execute q now draws _) as [e1 r1] eqn:Hx.
    apply execute_observed in Hx as (ev1 & Hp1 & Hob); [|done|by apply (sw_ready _ Hs)].
    injection Hc as <- <- <-. rewrite Hp1, Hp. exact Hob.
  - intros now e' ev Hm. pose proof (maintain_observed _ now He) as H. by rewrite Hm in H.
  - intros e' ev Hm. pose proof (run_registry_observed _ (λ r, tick r u64_max) He
      (step_tick _ _)) as H. by rewrite Hm in H.
  - intros s who e' ev Hm. pose proof (run_registry_observed _ (λ r, revoke_member r s who) He
      (step_revoke_member _ _ _)) as H. by rewrite Hm in H.
  - intros q now now' draws e' r ev Hq Hop Hst.
    destruct (state_observed _ _ _ _ _ _ _ _ He Hp (sw_ready _ Hs q Hq) Hop Hst)
      as (moved & -> & Hall & Hsame).
    exists moved. split; [done|]. split; [exact Hall|]. intros Hn. split; [by apply Hsame|].
    intros [->|Hex].
    + specialize (Hsame Hn). by rewrite app_nil_r in Hsame.
    + specialize (Hsame Hn). rewrite Hex in Hsame |- *. by rewrite app_nil_r.
Qed.
End Theorems.
