(* ===== verification/CallWorld.v ===== *)
(** * A concrete call

    The Space of [World] holds a call over the concrete platform: the owner starts it, the
    guest joins, sends a signal and shares its screen, and the guest's removal ends it.
    Every step is evaluated through the definitions of the engine and the registry. *)

From S2P Require Import Prelude Platform Ids Toy Record Chat Identity AuthorityData AuthorityWitness Authority AuthorityProof World CallWire CallRegistry CallFacts CallSafety CallTheorems CallEvents CallEngine CallEngineFacts CallService CallServiceTheorems.

Module Calls.
#[local] Existing Instances Toy.platform Toy.platform_laws.
Import World.

Definition hosting : SpaceId := Toy.pad 32 "hosting".
Definition audience : string := "https://calls".
Definition scope : Scope :=
  {| hosting_space_id := hosting;
     conversation := {| cs_space_id := record_id genesis4; cs_stream_id := stream_id |} |}.
Definition call_id : string := display (Toy.pad 16 "call").
Definition draws : option string * option string :=
  (Some (Toy.pad 16 "call"), Some (Toy.pad 16 "invitation")).

Definition call_command (nonce : string) (cred head : RecordId) (issued : N) (o : Operation)
    : Command :=
  {| cc_v := 1; cc_kind := "call.command"; cc_audience := audience;
     cc_hosting_space_id := hosting; cc_scope := conversation scope; cc_config_id := head;
     cc_credential_id := cred; cc_nonce := display (Toy.pad 16 nonce); cc_issued_at := issued;
     cc_expires_at := issued + 60; cc_operation := o |}.

(** A key the guest delegates its call to. *)
Definition call_key : string := Toy.pad 32 "callkey".
Definition delegation : Delegation :=
  {| dl_v := 1; dl_kind := "call.delegation"; dl_audience := audience;
     dl_hosting_space_id := hosting; dl_scope := conversation scope;
     dl_config_id := record_id config4b; dl_issuer_credential := vc_id guest;
     dl_signing_public_key := display call_key; dl_age_recipient := "age-call";
     dl_issued_at := 90; dl_expires_at := 200 |}.

Definition screen : MediaState :=
  {| audio_muted := false; video_published := false; screen_published := true |}.
Definition started_by_owner : Command :=
  call_command "a" (vc_id owner_device) (record_id config4b) 100 (Start Group Audio).
Definition joined_by_guest : Command :=
  call_command "b" (vc_id guest) (record_id config4b) 105 (Join call_id None).
Definition signal_of_guest : Command :=
  call_command "c" (vc_id guest) (record_id config4b) 106
    (SignalOp call_id 2 (vc_id owner_device) "sealed").
Definition screen_of_guest : Command :=
  call_command "d" (vc_id guest) (record_id config4b) 107 (Media call_id screen).
Definition state_after_removal : Command :=
  call_command "e" (vc_id owner_device) (record_id config4c) 135 Subscribe.
Definition stale_state : Command :=
  call_command "f" (vc_id guest) (record_id config4b) 136 Subscribe.

#[export] Instance call_serde : CallSerde := {|
  serde_call_command := Toy.exact_table
    [("{1va}", started_by_owner); ("{1vb}", joined_by_guest); ("{1vc}", signal_of_guest);
     ("{1vd}", screen_of_guest); ("{1ve}", state_after_removal); ("{1vf}", stale_state)];
  serde_delegation := Toy.exact_table [("{1vg}", delegation)] |}.

(** ** The registry alone *)

Definition no_limits : Limits :=
  {| lm_participants := 0; lm_cameras := 0; lm_screens := 0; lm_participant_ttl := 0;
     lm_empty_grace := 0; lm_max_duration := 0; lm_rooms := 0 |}.
Definition no_registry : Registry := {| limits := no_limits; rooms := ∅ |}.
Definition registry0 : Registry := from_ok no_registry (CallRegistry.new default_limits).
Definition then_ (r : Registry) (a : Authority) (c : Command) (now : N) : Registry :=
  (from_ok (r, []) (apply_with_delegation r a c now None draws)).1.
Definition events_of (r : Registry) (a : Authority) (c : Command) (now : N) : list Event :=
  (from_ok (r, []) (apply_with_delegation r a c now None draws)).2.
Definition registry1 : Registry := then_ registry0 joined started_by_owner 101.
Definition registry2 : Registry := then_ registry1 joined joined_by_guest 106.

Lemma then_Ok r a c now :
  is_ok (apply_with_delegation r a c now None draws) = true →
  apply_with_delegation r a c now None draws = Ok (then_ r a c now, events_of r a c now).
Proof.
  intros H. unfold then_, events_of. rewrite <-surjective_pairing. by apply from_ok_Ok.
Qed.
Lemma registry0_new : CallRegistry.new default_limits = Ok registry0.
Proof. reflexivity. Qed.
Lemma registry1_started : apply_with_delegation registry0 joined started_by_owner 101 None draws
  = Ok (registry1, events_of registry0 joined started_by_owner 101).
Proof. apply then_Ok. vm_compute. reflexivity. Qed.
Lemma registry2_joined : apply_with_delegation registry1 joined joined_by_guest 106 None draws
  = Ok (registry2, events_of registry1 joined joined_by_guest 106).
Proof. apply then_Ok. vm_compute. reflexivity. Qed.

(** The same conversation as a direct chat. *)
Definition direct_config : StreamConfig :=
  {| sc_v := 4; sc_kind := "stream.config"; sc_nonce := sc_nonce admitted_config;
     sc_space_id := sc_space_id admitted_config; sc_stream_id := stream_id; sc_sequence := 2;
     sc_previous_config_id := sc_previous_config_id admitted_config;
     sc_controller_credential_id := vc_id owner_device;
     sc_members := sc_members admitted_config; sc_owner_credential_ids := [vc_id owner_device];
     sc_action := sc_action admitted_config; sc_chat_kind := Some KDirect; sc_recovery := None;
     sc_witness_evidence := sc_witness_evidence admitted_config |}.
Definition direct : Authority :=
  {| genesis := genesis joined; gbody := gbody joined; stream := stream joined;
     credentials := credentials joined;
     configs := <[record_id config4b := (config4b, direct_config)]> (configs joined);
     head := head joined; forked := false; persisted_snapshot := None;
     checkpoint_evidence := None; cached_checkpoint := None |}.
Definition ring : Command :=
  call_command "a" (vc_id owner_device) (record_id config4b) 100 (Start Direct Audio).
Definition ringing : Registry := then_ registry0 direct ring 101.
Lemma ringing_started : apply_with_delegation registry0 direct ring 101 None draws
  = Ok (ringing, events_of registry0 direct ring 101).
Proof. apply then_Ok. vm_compute. reflexivity. Qed.

(** ** The service *)

Definition no_engine : Engine :=
  {| db_fences := ∅; db_receipts := ∅; en_audience := ""; en_witness := None; fences := ∅;
     pending := []; registry := no_registry |}.
Definition no_service : Service := {| sv_engine := no_engine; sv_jobs := []; sv_ready := [] |}.
Definition service0 : Service := default no_service (fresh_service audience default_limits (Some pin)).

Definition no_call_proof : CallAuthorityProof :=
  {| pf_v := 0; pf_checkpoint := None; pf_genesis := ""; pf_credentials := []; pf_configs := [] |}.
Definition proof_of (a : Authority) : CallAuthorityProof := from_ok no_call_proof (call_proof a).
Definition after_removal : Authority := (apply_config joined config4c).1.

Definition request (text key : string) (proof : option CallAuthorityProof) (d : option string)
    : Request :=
  {| rq_command := sr_bytes (rec text key); rq_proof := proof; rq_delegation := d |}.
Definition start_request : Request := request "{1va}" device_key (Some (proof_of joined)) None.
Definition join_request : Request := request "{1vb}" guest_device None None.
Definition removal_request : Request :=
  request "{1ve}" device_key (Some (proof_of after_removal)) None.
Definition stale_request : Request :=
  request "{1vf}" guest_device (Some (proof_of joined)) None.
Definition delegated_request : Request :=
  request "{1vd}" call_key (Some (proof_of joined)) (Some (sr_bytes (rec "{1vg}" guest_device))).

Definition no_preparation : Preparation :=
  {| pr_request := start_request; pr_signed := genesis4; pr_scope := scope; pr_audience := "";
     pr_cached := None; pr_witness := None |}.
Definition no_prepared : Prepared :=
  {| pp_command := ring; pp_identity := ""; pp_request_id := ""; pp_authority := no_authority;
     pp_proof := None; pp_delegation := None; pp_delegation_lease := None |}.

(** A request received and verified; what it became, executed. *)
Definition job_of (w : Service) (r : Request) : Preparation :=
  from_ok no_preparation (preparation (sv_engine w) r None).
Definition prepared_of (w : Service) (r : Request) (now : N) : Prepared :=
  from_ok no_prepared (verify (job_of w r) now).
Definition received (w : Service) (r : Request) (now : N) : Service :=
  {| sv_engine := sv_engine w; sv_jobs := job_of w r :: sv_jobs w;
     sv_ready := prepared_of w r now :: sv_ready w |}.
Definition commanded (w : Service) (r : Request) (now : N) : Service :=
  with_engine w (command_section (prepared_of w r now) now draws (sv_engine w)).1.

Definition service1 : Service := received service0 start_request 101.
Definition service2 : Service := commanded service1 start_request 101.
Definition service3 : Service := received service2 join_request 106.
Definition service4 : Service := commanded service3 join_request 106.
Definition service5 : Service := received service4 stale_request 133.
Definition service6 : Service := received service5 removal_request 133.
Definition service7 : Service := commanded service6 removal_request 133.

(** ** The run is one of the service *)

Lemma received_run t0 w0 t w r now :
  service_run t0 w0 t w → t ≤ now →
  preparation (sv_engine w) r None = Ok (job_of w r) →
  verify (job_of w r) now = Ok (prepared_of w r now) →
  service_run t0 w0 now (received w r now).
Proof.
  intros Hrun Ht Hp Hv.
  eapply run_next; [eapply run_next; [exact Hrun|exact Ht|reflexivity|]|reflexivity|reflexivity|].
  - by apply (service_receive now now w r None).
  - apply (service_verify now now
      {| sv_engine := sv_engine w; sv_jobs := job_of w r :: sv_jobs w; sv_ready := sv_ready w |}
      (job_of w r) _ now); [left|exact Hv].
Qed.

Lemma commanded_run t0 w0 w r now :
  service_run t0 w0 now (received w r now) →
  service_run t0 w0 now (commanded (received w r now) r now).
Proof.
  intros Hrun. eapply run_next; [exact Hrun|reflexivity|reflexivity|]. unfold commanded.
  change (prepared_of (received w r now) r now) with (prepared_of w r now).
  constructor. left.
Qed.

Lemma service0_fresh : fresh_service audience default_limits (Some pin) = Some service0.
Proof. reflexivity. Qed.

Lemma start_prepared : preparation (sv_engine service0) start_request None
  = Ok (job_of service0 start_request).
Proof. apply from_ok_Ok. vm_compute. reflexivity. Qed.
Lemma start_verified : verify (job_of service0 start_request) 101
  = Ok (prepared_of service0 start_request 101).
Proof. apply from_ok_Ok. vm_compute. reflexivity. Qed.
Lemma join_prepared : preparation (sv_engine service2) join_request None
  = Ok (job_of service2 join_request).
Proof. apply from_ok_Ok. vm_compute. reflexivity. Qed.
Lemma join_verified : verify (job_of service2 join_request) 106
  = Ok (prepared_of service2 join_request 106).
Proof. apply from_ok_Ok. vm_compute. reflexivity. Qed.
Lemma stale_prepared : preparation (sv_engine service4) stale_request None
  = Ok (job_of service4 stale_request).
Proof. apply from_ok_Ok. vm_compute. reflexivity. Qed.
Lemma stale_verified : verify (job_of service4 stale_request) 133
  = Ok (prepared_of service4 stale_request 133).
Proof. apply from_ok_Ok. vm_compute. reflexivity. Qed.
Lemma removal_prepared : preparation (sv_engine service5) removal_request None
  = Ok (job_of service5 removal_request).
Proof. apply from_ok_Ok. vm_compute. reflexivity. Qed.
Lemma removal_verified : verify (job_of service5 removal_request) 133
  = Ok (prepared_of service5 removal_request 133).
Proof. apply from_ok_Ok. vm_compute. reflexivity. Qed.

End Calls.

(** * The theorems about calls at concrete inputs

    The hypotheses of the theorems of [CallTheorems], [CallEvents] and [CallServiceTheorems]
    hold in the runs of [CallWorld]; and a state request whose events come in the wrong
    order. *)


Section CallExamples.
#[local] Existing Instances Toy.platform Toy.platform_laws.
Import World Calls.

(** ** The registry *)

Lemma registry0_reachable : CallSafety.reachable registry0.
Proof. eapply CallSafety.reach_new. exact registry0_new. Qed.
Lemma registry1_reachable : CallSafety.reachable registry1.
Proof. eapply reach_step; [exact registry0_reachable|]. eapply step_apply. exact registry1_started. Qed.
Lemma registry2_reachable : CallSafety.reachable registry2.
Proof. eapply reach_step; [exact registry1_reachable|]. eapply step_apply. exact registry2_joined. Qed.
Lemma ringing_reachable : CallSafety.reachable ringing.
Proof. eapply reach_step; [exact registry0_reachable|]. eapply step_apply. exact ringing_started. Qed.

Definition call_in (r : Registry) : ActiveCall :=
  default (new_call scope Group Audio "" "" "" 0 "" ∅) (rooms r !! scope).
Lemma call_in_lookup r : bool_decide (is_Some (rooms r !! scope)) = true →
  rooms r !! scope = Some (call_in r).
Proof. intros [c Hc]%bool_decide_eq_true. unfold call_in. by rewrite Hc. Qed.

Lemma calls_well_formed_witness : registry_wf registry2.
Proof. apply (calls_well_formed registry2). exact registry2_reachable. Defined.

Lemma epoch_fixes_roster_witness :
  CallTheorems.call_run scope registry1 (call_in registry1) registry2 (call_in registry2)
  ∧ ac_key_epoch (call_in registry1) ≤ ac_key_epoch (call_in registry2).
Proof.
  assert (Hrun : CallTheorems.call_run scope registry1 (call_in registry1) registry2 (call_in registry2)).
  { eapply run_on.
    - apply run_here. apply call_in_lookup. vm_compute. reflexivity.
    - eapply step_apply. exact registry2_joined.
    - apply call_in_lookup. vm_compute. reflexivity. }
  split; [exact Hrun|].
  destruct (epoch_fixes_roster scope registry1 (call_in registry1) registry2 (call_in registry2)
    registry1_reachable Hrun) as (_ & H & _). exact H.
Defined.

Lemma call_entry_authorized_witness : sender_moves joined joined_by_guest registry1 registry2.
Proof.
  destruct (call_entry_authorized registry1 joined joined_by_guest 106 None draws registry2
    (events_of registry1 joined joined_by_guest 106) registry1_reachable registry2_joined)
    as (_ & _ & _ & H & _). exact H.
Defined.

Lemma direct_call_rings_witness :
  rooms (tick ringing 161).1 !! scope = None.
Proof.
  destruct (direct_call_rings ringing scope (call_in ringing) ringing_reachable
    (call_in_lookup ringing ltac:(vm_compute; reflexivity)) ltac:(vm_compute; reflexivity)
    ltac:(vm_compute; reflexivity)) as (_ & _ & H & _).
  apply (H 161). vm_compute. discriminate.
Defined.

Lemma tick_settles_witness : tick (tick registry2 133).1 133 = ((tick registry2 133).1, []).
Proof. destruct (tick_settles registry2 133 registry2_reachable) as [_ H]. exact H. Defined.

(** ** The service *)

Lemma run2 : service_run 101 service0 101 service2.
Proof.
  apply commanded_run.
  apply (received_run _ _ 101); [apply run_start|reflexivity|exact start_prepared|exact start_verified].
Qed.
Lemma run4 : service_run 101 service0 106 service4.
Proof.
  apply commanded_run.
  apply (received_run _ _ 101); [exact run2|done|exact join_prepared|exact join_verified].
Qed.
Lemma run6 : service_run 101 service0 133 service6.
Proof.
  apply (received_run _ _ 133); [|reflexivity|exact removal_prepared|exact removal_verified].
  apply (received_run _ _ 106); [exact run4|done|exact stale_prepared|exact stale_verified].
Qed.
Lemma run7 : service_run 101 service0 133 service7.
Proof. apply commanded_run. exact run6. Qed.

Lemma served_at t w : service_run 101 service0 t w → served t w.
Proof. intros H. eapply served_run; [exact service0_fresh|exact H]. Qed.
Lemma served4 : served 106 service4.
Proof. apply served_at, run4. Qed.
Lemma served7 : served 133 service7.
Proof. apply served_at, run7. Qed.

Lemma prepared_request_authentic_witness :
  signed_by_delegate guest (job_of service4 delegated_request) screen_of_guest
    (sr_bytes (rec "{1vg}" guest_device)) 110.
Proof.
  assert (Hp : preparation (sv_engine service4) delegated_request None
    = Ok (job_of service4 delegated_request)) by (apply from_ok_Ok; vm_compute; reflexivity).
  assert (Hv : verify (job_of service4 delegated_request) 110
    = Ok (prepared_of service4 delegated_request 110)) by (apply from_ok_Ok; vm_compute; reflexivity).
  destruct (prepared_request_authentic (sv_engine service4) delegated_request None
    (job_of service4 delegated_request) 110 (prepared_of service4 delegated_request 110)
    (sw_engine _ (served_wf _ _ served4)) Hp Hv)
    as (_ & _ & _ & _ & _ & _ & _ & _ & _ & device & Hd & Hs).
  assert (Hg : credential (pp_authority (prepared_of service4 delegated_request 110))
    (cc_credential_id (pp_command (prepared_of service4 delegated_request 110))) = Ok guest)
    by (vm_compute; reflexivity).
  rewrite Hg in Hd. apply Ok_inj in Hd as <-.
  assert (Hc : pp_command (prepared_of service4 delegated_request 110) = screen_of_guest)
    by (vm_compute; reflexivity).
  rewrite Hc in Hs. exact Hs.
Defined.

Lemma call_service_bounded_witness : N.of_nat (size (fences (sv_engine service4))) ≤ 4096.
Proof. destruct (call_service_bounded 106 service4 served4) as [H _]. exact H. Defined.

Lemma live_calls_current_witness :
  rooms (registry (sv_engine service4)) !! scope = Some (call_in (registry (sv_engine service4)))
  ∧ ∃ f r, fences (sv_engine service4) !! scope = Some f ∧ fe_blocked f = false
      ∧ fe_head f = ac_config_id (call_in (registry (sv_engine service4)))
      ∧ db_fences (sv_engine service4) !! scope_key scope = Some r ∧ fw_blocked r = false
      ∧ parse_hex 32 (fw_head r) = Some (ac_config_id (call_in (registry (sv_engine service4)))).
Proof.
  assert (Hc : rooms (registry (sv_engine service4)) !! scope
    = Some (call_in (registry (sv_engine service4))))
    by (apply call_in_lookup; vm_compute; reflexivity).
  split; [exact Hc|].
  destruct (live_calls_current 106 service4 served4) as [H _]. exact (H _ _ Hc).
Defined.

(** The owner's new proof moves the fence. *)
Definition row_in (w : Service) : FenceRow :=
  default {| fw_head := ""; fw_sequence := 0; fw_blocked := false; fw_recovery := None |}
    (db_fences (sv_engine w) !! scope_key scope).
Lemma row_in_lookup w : bool_decide (is_Some (db_fences (sv_engine w) !! scope_key scope)) = true →
  db_fences (sv_engine w) !! scope_key scope = Some (row_in w).
Proof. intros [c Hc]%bool_decide_eq_true. unfold row_in. by rewrite Hc. Qed.

Lemma run_4_to_7 : service_run 106 service4 133 service7.
Proof.
  apply commanded_run.
  apply (received_run _ _ 133); [|reflexivity|exact removal_prepared|exact removal_verified].
  apply (received_run _ _ 106); [apply run_start|done|exact stale_prepared|exact stale_verified].
Qed.

Lemma fence_never_rolls_back_witness :
  fw_sequence (row_in service4) = 2 ∧ fw_sequence (row_in service7) = 3
  ∧ ∃ r, db_fences (sv_engine service7) !! scope_key scope = Some r
         ∧ rtc (row_step scope) (row_in service4) r.
Proof.
  split; [vm_compute; reflexivity|]. split; [vm_compute; reflexivity|].
  destruct (fence_never_rolls_back 106 service4 133 service7 scope (row_in service4) served4
    run_4_to_7 (row_in_lookup service4 ltac:(vm_compute; reflexivity))) as [H _]. exact H.
Defined.

(** The guest's removal is followed by its own request under the old proof. *)
Definition stale : Prepared := prepared_of service4 stale_request 133.
Lemma stale_ready : stale ∈ sv_ready service7.
Proof. right. left. Qed.

Lemma rejected_command_keeps_calls_witness :
  (execute stale 134 draws (sv_engine service7)).2 = Err Unauthorized
  ∧ db_receipts (execute stale 134 draws (sv_engine service7)).1 = db_receipts (sv_engine service7).
Proof.
  assert (He : (execute stale 134 draws (sv_engine service7)).2 = Err Unauthorized)
    by (vm_compute; reflexivity).
  split; [exact He|].
  destruct (rejected_command_keeps_calls 133 service7 stale 134 draws
    (execute stale 134 draws (sv_engine service7)).1 Unauthorized served7 stale_ready
    ltac:(rewrite <-He; apply surjective_pairing)) as [H _]. exact H.
Defined.

(** The owner's start, executed a second time. *)
Definition start : Prepared := prepared_of service0 start_request 101.
Definition started : Engine * result CallError Applied := execute start 101 draws (sv_engine service1).
Definition again : Engine * result CallError Applied := execute start 107 draws (sv_engine service4).
Definition no_answer : Applied :=
  {| ap_request_id := ""; ap_scope := scope; ap_call := None; ap_events := []; ap_duplicate := false |}.

Lemma run1 : service_run 101 service0 101 service1.
Proof.
  apply (received_run _ _ 101); [apply run_start|reflexivity|exact start_prepared|exact start_verified].
Qed.
Lemma run_2_to_4 : service_run 101 service2 106 service4.
Proof.
  apply commanded_run.
  apply (received_run _ _ 101); [apply run_start|done|exact join_prepared|exact join_verified].
Qed.

Lemma command_applies_once_witness :
  is_ok again.2 = true ∧ registry again.1 = registry (sv_engine service4).
Proof.
  assert (H1 : execute start 101 draws (sv_engine service1)
    = (started.1, Ok (from_ok no_answer started.2))).
  { unfold started. rewrite <-(from_ok_Ok no_answer) by (vm_compute; reflexivity).
    apply surjective_pairing. }
  assert (Hok : is_ok again.2 = true) by (vm_compute; reflexivity). split; [exact Hok|].
  assert (H2 : execute start 107 draws (sv_engine service4)
    = (again.1, Ok (from_ok no_answer again.2))).
  { unfold again. rewrite <-(from_ok_Ok no_answer) by exact Hok. apply surjective_pairing. }
  destruct (command_applies_once 101 service1 start draws started.1 (from_ok no_answer started.2)
    106 service4 start 107 draws again.1 (Ok (from_ok no_answer again.2))
    (served_at _ _ run1) ltac:(left) H1 ltac:(vm_compute; reflexivity) run_2_to_4
    ltac:(right; left) eq_refl ltac:(done) H2) as (_ & _ & _ & H & _). exact H.
Defined.

Lemma published_events_rebuild_calls_witness :
  observe_all (picture (registry (sv_engine service4))) (maintain_section 133 (sv_engine service4)).2
  = picture (registry (maintain_section 133 (sv_engine service4)).1).
Proof.
  destruct (published_events_rebuild_calls 106 service4 served4) as (_ & H & _).
  apply (H 133). apply surjective_pairing.
Defined.

(** ** A state request out of order

    The owner's lease lapses and the guest's removal reaches the service with the same state
    request. The tick announces the call without the owner, the new head ends it, and the
    announcement is published after the end: subscribers keep a call that is over. *)
Lemma state_events_misordered :
  let q := prepared_of service5 removal_request 133 in
  let after := state_section q 133 133 draws (sv_engine service6) in
  q ∈ sv_ready service6 ∧ cc_operation (pp_command q) = Subscribe
  ∧ is_ok after.2.1 = true
  ∧ rooms (registry after.1) !! scope = None
  ∧ is_Some (observe_all (picture (registry (sv_engine service6))) after.2.2 !! scope).
Proof.
  split; [left|]. split; [vm_compute; reflexivity|]. split; [vm_compute; reflexivity|].
  split; [vm_compute; reflexivity|].
  apply (bool_decide_eq_true_1 _). vm_compute. reflexivity.
Qed.
End CallExamples.
