(* ===== verification/Attachments.v ===== *)
(** * Attachments (crates/elo-core/src/attachments/model.rs, attachments/crypto.rs)

    The limits and metadata of attachments, and the chunked container their files are
    encrypted into. A file is the byte string it holds; what [read] returns, one buffer
    after the other, is an argument of [encrypt_file]. *)

From S2P Require Import Prelude Platform Ids Toy Record Chat.

(** ** Metadata (model.rs) *)

Definition MAX_ATTACHMENT_FILE_SIZE : N := 5 * 1024 * 1024.
Definition MAX_SPACE_ATTACHMENT_STORAGE : N := 50000000.
Definition ATTACHMENT_CHUNK_BYTES : N := 1024 * 1024.

Inductive AttachmentRetention := Hours (hours : N).
#[global] Instance AttachmentRetention_eq_dec : EqDecision AttachmentRetention.
Proof. solve_decision. Defined.

(** The retention of a stored policy, old forms included. *)
Inductive StoredRetention := StoredNever | StoredDays (days : N) | StoredHours (hours : N).
Definition retention_choice (h : N) : bool := (h =? 1) || (h =? 12) || (h =? 24).
Definition read_retention (s : StoredRetention) : option AttachmentRetention :=
  match s with
  | StoredHours h => if retention_choice h then Some (Hours h) else None
  | StoredNever => Some (Hours 1)
  | StoredDays d => if 1 <=? d then Some (Hours 1) else None
  end.

Record AttachmentPolicy := {
  at_enabled : bool; at_max_file_bytes : N; at_max_space_bytes : N;
  at_retention : AttachmentRetention;
}.
Definition default_policy : AttachmentPolicy :=
  {| at_enabled := true; at_max_file_bytes := MAX_ATTACHMENT_FILE_SIZE;
     at_max_space_bytes := MAX_SPACE_ATTACHMENT_STORAGE; at_retention := Hours 1 |}.

Definition policy_validate (p : AttachmentPolicy) : result string unit :=
  fail_if (negb (at_max_file_bytes p =? MAX_ATTACHMENT_FILE_SIZE)
           || negb (at_max_space_bytes p =? MAX_SPACE_ATTACHMENT_STORAGE)
           || negb (match at_retention p with Hours h => retention_choice h end))
    "Invalid attachment policy.".
Definition policy_expires_at (p : AttachmentPolicy) (created_at_ms : N) : option N :=
  match at_retention p with
  | Hours h => ms ← checked_mul h 3600000; checked_add created_at_ms ms
  end.

Record AttachmentEncryption := {
  ae_algorithm : string; ae_key : string; ae_nonce_prefix : string; ae_chunk_bytes : N;
  ae_ciphertext_sha256 : string;
}.
Record AttachmentDescriptor := {
  ad_id : string; ad_name : string; ad_mime : string; ad_plaintext_size : N;
  ad_encrypted_size : N; ad_created_at_ms : N; ad_expires_at_ms : option N;
  ad_object_id : string; ad_external_storage : option string;
  ad_encryption : AttachmentEncryption;
}.

(** ** The container (crypto.rs) *)

Definition MAGIC : string := "ELOATT01".
Definition HEADER_BYTES : N := 8 + 8 + 4.
Definition TAG_BYTES : N := 16.

Definition div_ceil (a b : N) : N := (a + b - 1) / b.
Definition encrypted_size (plaintext_size : N) : N :=
  HEADER_BYTES + plaintext_size + div_ceil plaintext_size ATTACHMENT_CHUNK_BYTES * (4 + TAG_BYTES).

Record EncryptionPlan := { ep_key : string; ep_nonce_prefix : string; ep_plaintext_size : N }.
Record EncryptionResult := { er_encrypted_size : N; er_ciphertext_sha256 : string }.

(** [key] and [prefix] are what [getrandom] filled, if it did. *)
Definition plan (plaintext_size : N) (key prefix : option string)
    : result string EncryptionPlan :=
  _ ← fail_if (MAX_ATTACHMENT_FILE_SIZE <? plaintext_size) "Attachment files cannot exceed 5 MB.";
  key ← ok_or key "Could not create an attachment key.";
  prefix ← ok_or prefix "Could not create an attachment nonce.";
  mret {| ep_key := key; ep_nonce_prefix := prefix; ep_plaintext_size := plaintext_size |}.

Definition nonce (prefix : string) (index : N) : string := prefix +:+ be_bytes 8 index.
Definition aad (index plaintext_size : N) : string := be_bytes 8 index +:+ be_bytes 8 plaintext_size.
Definition header (plaintext_size : N) : string :=
  MAGIC +:+ be_bytes 8 plaintext_size +:+ be_bytes 4 ATTACHMENT_CHUNK_BYTES.

Section Container.
Context `{P : Platform} {C : Crypto}.

(** [AttachmentDescriptor::validate] *)
Definition is_ascii_graphic (c : Ascii.ascii) : bool := in_range 33 126 (byte_val c).
Definition unsafe_name_character (c : N) : bool :=
  unsafe_display_character c || (c =? 47) || (c =? 92).
Definition descriptor_validate (d : AttachmentDescriptor) : result string unit :=
  _ ← fail_if match ad_external_storage d with
              | Some v => (2048 <? slen v) || existsb is_control (chars v)
              | None => false
              end "Invalid attachment storage service.";
  _ ← fail_if ((ad_name d === "")
               || (255 <? slen (ad_name d))
               || (ad_name d === ".")
               || (ad_name d === "..")
               || existsb unsafe_name_character (chars (ad_name d))
               || (ad_mime d === "")
               || (127 <? slen (ad_mime d))
               || negb (contains (String.list_ascii_of_string (ad_mime d)) (Ascii.ascii_of_N 47))
               || negb (forallb is_ascii_graphic (String.list_ascii_of_string (ad_mime d)))
               || (MAX_ATTACHMENT_FILE_SIZE <? ad_plaintext_size d)
               || negb (ad_encrypted_size d =? encrypted_size (ad_plaintext_size d))
               || (ae_algorithm (ad_encryption d) =/= "xchacha20-poly1305-chunks-v1")
               || negb (ae_chunk_bytes (ad_encryption d) =? ATTACHMENT_CHUNK_BYTES)
               || negb (is_ok (hex 32 (ae_ciphertext_sha256 (ad_encryption d)))))
        "Invalid attachment descriptor.";
  key ← ok_or (base64_decode (ae_key (ad_encryption d))) "Invalid attachment key.";
  prefix ← ok_or (base64_decode (ae_nonce_prefix (ad_encryption d))) "Invalid attachment nonce.";
  fail_if (negb (slen key =? 32) || negb (slen prefix =? 16))
    "Invalid attachment encryption metadata.".

(** The loop of [encrypt_file] over what [read] returns: the frames it writes, and the
    plaintext bytes it read. *)
Fixpoint encrypt_chunks (p : EncryptionPlan) (index : N) (reads : list string)
    : result string (string * N) :=
  match reads with
  | [] | "" :: _ => Ok ("", 0)
  | buffer :: reads =>
      encrypted ← ok_or (aead_encrypt (ep_key p) (nonce (ep_nonce_prefix p) index)
                           (aad index (ep_plaintext_size p)) buffer)
                    "Could not encrypt the attachment.";
      _ ← fail_if (2 ^ 32 <=? slen encrypted) "out of range";
      rest ← encrypt_chunks p (index + 1) reads;
      mret (be_bytes 4 (slen encrypted) +:+ encrypted +:+ rest.1, slen buffer + rest.2)
  end.

(** The metadata of the file at a path. *)
Record FileMeta := { fm_file : bool; fm_symlink : bool; fm_len : N }.

(** The output file and the result. *)
Definition encrypt_file (meta : FileMeta) (reads : list string) (p : EncryptionPlan)
    : result string (string * EncryptionResult) :=
  _ ← fail_if (negb (fm_file meta)
               || fm_symlink meta
               || negb (fm_len meta =? ep_plaintext_size p)
               || (MAX_ATTACHMENT_FILE_SIZE <? fm_len meta))
        "The selected attachment changed or is too large.";
  _ ← fail_if (negb (slen (ep_key p) =? 32)) "Could not initialize attachment encryption.";
  chunks ← encrypt_chunks p 0 reads;
  _ ← fail_if (negb (chunks.2 =? ep_plaintext_size p))
        "The selected attachment changed while it was encrypted.";
  let written := header (ep_plaintext_size p) +:+ chunks.1 in
  mret (written, {| er_encrypted_size := encrypted_size (ep_plaintext_size p);
                    er_ciphertext_sha256 := encode_hex (sha256 written) |}).

(** [reader.read_exact]: [None] at an early end of the file. *)
Definition read_exact (n : N) (input : string) : option (string * string) :=
  if n <=? slen input then Some (stake (N.to_nat n) input, sdrop (N.to_nat n) input) else None.

(** The loop of [decrypt_file]: what it wrote and what it hashed. Every iteration reads more
    than the file's bytes can supply forever, so the fuel is their number. *)
Fixpoint decrypt_chunks (fuel : nat) (key prefix : string) (expected index done : N)
    (input : string) : result string (string * string) :=
  match fuel with
  | O => Err "out of fuel"
  | S fuel =>
      match read_exact 4 input with
      | None => if done =? expected then Ok ("", "") else Err "unexpected end of file"
      | Some (length_, input) =>
          let length := from_be length_ in
          _ ← fail_if (negb (in_range 16 (ATTACHMENT_CHUNK_BYTES + 16) length))
                "Invalid attachment chunk.";
          er ← ok_or (read_exact length input) "unexpected end of file";
          plain ← ok_or (aead_decrypt key (nonce prefix index) (aad index expected) er.1)
                    "Attachment authentication failed.";
          _ ← fail_if (expected <? done + slen plain) "Attachment size mismatch.";
          rest ← decrypt_chunks fuel key prefix expected (index + 1) (done + slen plain) er.2;
          mret (plain +:+ rest.1, length_ +:+ er.1 +:+ rest.2)
      end
  end.

Definition decrypt_file (input key_b64 nonce_prefix_b64 : string) (expected_plaintext : N)
    (expected_ciphertext_hash : string) : result string string :=
  key ← ok_or (base64_decode key_b64) "base64";
  _ ← fail_if (negb (slen key =? 32)) "Invalid attachment key.";
  prefix ← ok_or (base64_decode nonce_prefix_b64) "base64";
  _ ← fail_if (negb (slen prefix =? 16)) "Invalid attachment nonce.";
  hi ← ok_or (read_exact HEADER_BYTES input) "unexpected end of file";
  let h := hi.1 in
  _ ← fail_if ((stake 8 h =/= MAGIC)
               || negb (from_be (stake 8 (sdrop 8 h)) =? expected_plaintext)
               || negb (from_be (sdrop 16 h) =? ATTACHMENT_CHUNK_BYTES))
        "Invalid attachment container.";
  chunks ← decrypt_chunks (S (String.length input)) key prefix expected_plaintext 0 0 hi.2;
  _ ← fail_if (negb (slen chunks.1 =? expected_plaintext)
               || (encode_hex (sha256 (h +:+ chunks.2)) =/= expected_ciphertext_hash))
        "Attachment integrity check failed.";
  mret chunks.1.

End Container.

(** * Theorems about attachments

    The container round-trips, the decryption accepts exactly the containers whose chunks
    authenticate in order, and the announced size is the written size. *)


(** ** Frames *)

Definition frame_of (c : string) : string := be_bytes 4 (slen c) +:+ c.
Definition frames (cs : list string) : string := concat_strings (frame_of <$> cs).

Lemma frames_cons c cs : frames (c :: cs) = be_bytes 4 (slen c) +:+ (c +:+ frames cs).
Proof.
  change (frames (c :: cs)) with (frame_of c +:+ frames cs). unfold frame_of.
  apply string_app_assoc.
Qed.

Lemma read_exact_app n s t : slen s = n → read_exact n (s +:+ t) = Some (s, t).
Proof.
  intros <-. unfold read_exact. rewrite slen_app, (proj2 (N.leb_le _ _)) by lia.
  unfold slen. rewrite Nat2N.id. by rewrite stake_app, sdrop_app.
Qed.

Lemma read_exact_Some n s a b : read_exact n s = Some (a, b) ↔ s = a +:+ b ∧ slen a = n.
Proof.
  split; [|intros [-> H]; by apply read_exact_app].
  unfold read_exact. destruct (N.leb_spec n (slen s)) as [Hle|]; [|done]. intros [= <- <-].
  split; [by rewrite stake_sdrop|]. unfold slen in *. rewrite stake_length; lia.
Qed.

Lemma read_exact_None n s : read_exact n s = None ↔ slen s < n.
Proof. unfold read_exact. destruct (N.leb_spec n (slen s)); split; try done; lia. Qed.

Lemma be_bytes_slen k n : slen (be_bytes k n) = N.of_nat k.
Proof. unfold slen. by rewrite be_bytes_length. Qed.

Lemma be_bytes_4 s : slen s = 4 → be_bytes 4 (from_be s) = s.
Proof.
  intros H. rewrite <-(be_bytes_from s) at 2. apply (slen_of_nat _ 4) in H. by rewrite H.
Qed.

(** The buffers a file was read in: up to the first empty one. *)
Fixpoint until_empty (reads : list string) : list string :=
  match reads with
  | [] | "" :: _ => []
  | b :: reads => b :: until_empty reads
  end.

Section Container.
Context `{P : Platform} {C : Crypto}.

(** Chunks that authenticate one after the other, and what they hold, independent of the
    definitions above: the nonce of a chunk is the prefix of 16 bytes and its index as 8
    bytes, what it is bound to are its index and the size of the file, 8 bytes each. *)
Inductive opened (key prefix : string) (size : N) : N → list string → string → Prop :=
| opened_nil i : opened key prefix size i [] ""
| opened_cons i c cs m rest :
    16 ≤ slen c ≤ 1024 * 1024 + 16 →
    aead_decrypt key (prefix +:+ be_bytes 8 i) (be_bytes 8 i +:+ be_bytes 8 size) c = Some m →
    opened key prefix size (i + 1) cs rest →
    opened key prefix size i (c :: cs) (m +:+ rest).

Lemma decrypt_chunks_sound key prefix expected fuel : ∀ index read input plain hashed,
  decrypt_chunks fuel key prefix expected index read input = Ok (plain, hashed) →
  ∃ cs tail, input = frames cs +:+ tail ∧ slen tail < 4 ∧ hashed = frames cs
             ∧ opened key prefix expected index cs plain ∧ read + slen plain = expected.
Proof.
  induction fuel as [|fuel IH]; intros index read input plain hashed H; [done|].
  cbn [decrypt_chunks] in H. destruct (read_exact 4 input) as [[l rest]|] eqn:Hl.
  - cbv zeta in H. step H u Hu. step H er Her. step H m Hm. step H v Hv. step H r Hr.
    apply Ok_inj in H as [= <- <-]. destruct er as [c rest']. destruct r as [plain' hashed'].
    cbn [fst snd] in *. apply ok_or_Ok in Her, Hm.
    apply fail_if_Ok, negb_false_iff, in_range_true in Hu. apply fail_if_Ok, N.ltb_ge in Hv.
    apply read_exact_Some in Hl as [-> Hl]. apply read_exact_Some in Her as [-> Hc].
    apply IH in Hr as (cs & tail & -> & Ht & -> & Ho & Hd).
    exists (c :: cs), tail. rewrite frames_cons, Hc, be_bytes_4 by done.
    rewrite !string_app_assoc. split; [done|]. split; [done|]. split; [done|]. split.
    + apply opened_cons; [unfold ATTACHMENT_CHUNK_BYTES in Hu; lia|done|done].
    + rewrite slen_app. lia.
  - destruct (N.eqb_spec read expected) as [->|]; [|done]. apply Ok_inj in H as [= <- <-].
    apply read_exact_None in Hl. exists [], input. split; [done|]. split; [done|].
    split; [done|]. split; [constructor|]. change (slen "") with 0. lia.
Qed.

Lemma decrypt_chunks_complete key prefix expected cs plain index :
  opened key prefix expected index cs plain → ∀ fuel read tail,
  slen tail < 4 → read + slen plain = expected →
  (String.length (frames cs +:+ tail) < fuel)%nat →
  decrypt_chunks fuel key prefix expected index read (frames cs +:+ tail)
  = Ok (plain, frames cs).
Proof.
  induction 1 as [i|i c cs m rest Hc Hm Ho IH]; intros fuel read tail Ht Hd Hf.
  - destruct fuel as [|fuel]; [lia|]. cbn [decrypt_chunks].
    change (frames [] +:+ tail) with tail. rewrite (proj2 (read_exact_None _ _)) by done.
    change (slen "") with 0 in Hd. by rewrite (proj2 (N.eqb_eq _ _)) by lia.
  - destruct fuel as [|fuel]; [lia|]. cbn [decrypt_chunks]. rewrite frames_cons in Hf |- *.
    rewrite !string_app_assoc in Hf |- *.
    rewrite read_exact_app by apply be_bytes_slen. cbv zeta.
    assert (from_be (be_bytes 4 (slen c)) = slen c) as ->.
    { apply from_be_bytes. assert (1024 * 1024 + 16 < 256 ^ N.of_nat 4) by done. lia. }
    rewrite fail_if_pass
      by (apply negb_false_iff, in_range_true; unfold ATTACHMENT_CHUNK_BYTES; lia).
    rewrite read_exact_app by done. cbn [ok_or mbind result_bind fst snd].
    unfold nonce, aad. rewrite Hm. cbn [ok_or mbind result_bind].
    rewrite slen_app in Hd. rewrite fail_if_pass by (apply N.ltb_ge; lia).
    rewrite IH; [done|done|lia|].
    revert Hf. rewrite !string_app_length, be_bytes_length. lia.
Qed.
Lemma header_slen size : slen (header size) = HEADER_BYTES.
Proof. unfold header. rewrite !slen_app, !be_bytes_slen. done. Qed.

Lemma header_parts size : size < 2 ^ 64 →
  stake 8 (header size) = MAGIC ∧ from_be (stake 8 (sdrop 8 (header size))) = size
  ∧ from_be (sdrop 16 (header size)) = ATTACHMENT_CHUNK_BYTES.
Proof.
  intros Hs. unfold header.
  assert (sdrop 8 (MAGIC +:+ (be_bytes 8 size +:+ be_bytes 4 ATTACHMENT_CHUNK_BYTES))
    = be_bytes 8 size +:+ be_bytes 4 ATTACHMENT_CHUNK_BYTES) as E
    by apply (sdrop_app MAGIC).
  split; [apply (stake_app MAGIC)|]. rewrite E. split.
  - pose proof (stake_app (be_bytes 8 size) (be_bytes 4 ATTACHMENT_CHUNK_BYTES)) as H.
    rewrite be_bytes_length in H. rewrite H. by apply from_be_bytes.
  - rewrite <-(sdrop_sdrop 8 8), E.
    pose proof (sdrop_app (be_bytes 8 size) (be_bytes 4 ATTACHMENT_CHUNK_BYTES)) as H.
    rewrite be_bytes_length in H. rewrite H. done.
Qed.

Lemma header_exact h size :
  slen h = HEADER_BYTES → stake 8 h = MAGIC → from_be (stake 8 (sdrop 8 h)) = size →
  from_be (sdrop 16 h) = ATTACHMENT_CHUNK_BYTES → h = header size ∧ size < 2 ^ 64.
Proof.
  intros Hl Hm Hs Hc. apply (slen_of_nat _ 20) in Hl.
  assert (String.length (stake 8 (sdrop 8 h)) = 8%nat) as H8
    by (rewrite stake_length; [done|rewrite sdrop_length; lia]).
  split.
  - rewrite <-(stake_sdrop 8 h), Hm. unfold header. f_equal.
    rewrite <-(stake_sdrop 8 (sdrop 8 h)). f_equal.
    + rewrite <-(be_bytes_from (stake 8 (sdrop 8 h))), H8, Hs. done.
    + rewrite sdrop_sdrop. rewrite <-(be_bytes_from (sdrop (8 + 8) h)).
      change (8 + 8)%nat with 16%nat. by rewrite Hc, sdrop_length, Hl.
  - pose proof (from_be_lt (stake 8 (sdrop 8 h))) as Hlt. rewrite Hs in Hlt.
    unfold slen in Hlt. by rewrite H8 in Hlt.
Qed.

(** The container of a file: its magic, its size and the size of a chunk, and then every
    chunk behind its length. *)
Definition container (size : N) (cs : list string) : string :=
  ("ELOATT01" +:+ be_bytes 8 size +:+ be_bytes 4 (1024 * 1024)) +:+ frames cs.

(** What makes [decrypt_file] accept: the container, its chunks and its hash. *)
Definition intact (input key_b64 prefix_b64 : string) (size : N) (hash out : string) : Prop :=
  ∃ key pre cs tail,
    base64_decode key_b64 = Some key ∧ slen key = 32
    ∧ base64_decode prefix_b64 = Some pre ∧ slen pre = 16
    ∧ size < 2 ^ 64 ∧ input = container size cs +:+ tail ∧ slen tail < 4
    ∧ opened key pre size 0 cs out ∧ slen out = size
    ∧ encode_hex (sha256 (container size cs)) = hash.

Lemma container_header size cs : container size cs = header size +:+ frames cs.
Proof. done. Qed.

Lemma decrypt_file_intact input key_b64 prefix_b64 size hash out :
  decrypt_file input key_b64 prefix_b64 size hash = Ok out →
  intact input key_b64 prefix_b64 size hash out.
Proof.
  unfold decrypt_file. intros H. step H key Hk. step H u1 H1. step H pre Hp. step H u2 H2.
  step H hi Hhi. cbv zeta in H. step H u3 H3. step H r Hr. step H u4 H4. apply Ok_inj in H as <-.
  destruct hi as [h rest], r as [plain hashed]. cbn [fst snd] in *. inv_ok.
  apply read_exact_Some in Hhi as [-> Hl].
  apply decrypt_chunks_sound in Hr as (cs & tail & -> & Ht & -> & Ho & Hd).
  repeat match goal with H : (_ =? _) = true |- _ => apply N.eqb_eq in H end.
  destruct (header_exact h (slen plain)) as [-> Hlt]; try done; [congruence|].
  exists key, pre, cs, tail. rewrite container_header, string_app_assoc.
  split_and!; try done; congruence.
Qed.

Lemma intact_decrypt_file input key_b64 prefix_b64 size hash out :
  intact input key_b64 prefix_b64 size hash out →
  decrypt_file input key_b64 prefix_b64 size hash = Ok out.
Proof.
  intros (key & pre & cs & tail & Hk & Hk32 & Hp & Hp16 & Hs & -> & Ht & Ho & Hout & <-).
  rewrite container_header, string_app_assoc. unfold decrypt_file.
  rewrite Hk. cbn [ok_or mbind result_bind].
  rewrite fail_if_pass by (by rewrite (proj2 (N.eqb_eq _ _))).
  rewrite Hp. cbn [ok_or mbind result_bind].
  rewrite fail_if_pass by (by rewrite (proj2 (N.eqb_eq _ _))).
  rewrite read_exact_app by apply header_slen. cbn [ok_or mbind result_bind fst snd].
  destruct (header_parts size Hs) as (-> & -> & ->). rewrite !N.eqb_refl.
  rewrite (bool_decide_eq_true_2 (MAGIC = MAGIC)) by done. cbn [negb orb fail_if mbind result_bind].
  rewrite (decrypt_chunks_complete _ _ _ cs out 0 Ho); [|done|lia|].
  - cbn [mbind result_bind fst snd]. rewrite Hout, N.eqb_refl.
    rewrite bool_decide_eq_true_2 by done. done.
  - unfold header. rewrite !string_app_length. lia.
Qed.

(** C35. An attachment decrypts exactly when its file begins with a container: the header
    with the expected size, then chunks that authenticate one after the other, each under
    the key, the nonce made of the prefix and the chunk's index, and associated data made of
    the index and the file's size; the chunks hold exactly the expected number of bytes, which
    are what is returned, and the hash of the container is the expected one. What follows the
    container in the file, if anything, is at most three bytes, and neither a tag nor the
    hash nor the size covers them: the hash is not that of the whole file. *)
Theorem decrypt_file_exact input key_b64 prefix_b64 size hash out :
  decrypt_file input key_b64 prefix_b64 size hash = Ok out ↔
  intact input key_b64 prefix_b64 size hash out.
Proof. split; [apply decrypt_file_intact|apply intact_decrypt_file]. Qed.

(** ** Encryption *)

Lemma opened_size key prefix size `{!CryptoLaws C} i cs m :
  opened key prefix size i cs m → slen (frames cs) = slen m + nlen cs * 20.
Proof.
  induction 1 as [i|i c cs m rest Hc Hm Ho IH]; [done|].
  rewrite frames_cons, !slen_app, be_bytes_slen, IH.
  rewrite (aead_decrypt_length _ _ _ _ _ Hm). unfold nlen. cbn [length]. lia.
Qed.

Lemma encrypt_chunks_opened `{!CryptoLaws C} p reads : ∀ i out n,
  (∀ b, b ∈ reads → slen b ≤ ATTACHMENT_CHUNK_BYTES) →
  encrypt_chunks p i reads = Ok (out, n) →
  ∃ cs, out = frames cs ∧ length cs = length (until_empty reads)
    ∧ n = slen (concat_strings (until_empty reads))
    ∧ opened (ep_key p) (ep_nonce_prefix p) (ep_plaintext_size p) i cs
        (concat_strings (until_empty reads)).
Proof.
  induction reads as [|b reads IH]; intros i out n Hb H.
  - apply Ok_inj in H as [= <- <-]. exists []. split_and!; try done. constructor.
  - destruct b as [|a b].
    + apply Ok_inj in H as [= <- <-]. exists []. split_and!; try done. constructor.
    + set (buffer := String a b) in *. change (encrypt_chunks p i (buffer :: reads)) with
        (encrypted ← ok_or (aead_encrypt (ep_key p) (nonce (ep_nonce_prefix p) i)
                           (aad i (ep_plaintext_size p)) buffer)
                    "Could not encrypt the attachment.";
         _ ← fail_if (2 ^ 32 <=? slen encrypted) "out of range";
         rest ← encrypt_chunks p (i + 1) reads;
         mret (be_bytes 4 (slen encrypted) +:+ encrypted +:+ rest.1, slen buffer + rest.2)) in H.
      step H c Hc. step H u Hu. step H r Hr. apply Ok_inj in H as [= <- <-].
      destruct r as [out' n']. apply ok_or_Ok in Hc.
      apply IH in Hr as (cs & -> & Hl & -> & Ho); [|intros x Hx; apply Hb; by right].
      exists (c :: cs). cbn [fst snd]. rewrite frames_cons.
      change (until_empty (buffer :: reads)) with (buffer :: until_empty reads).
      change (concat_strings (buffer :: until_empty reads))
        with (buffer +:+ concat_strings (until_empty reads)).
      split; [done|]. split; [cbn [length]; by rewrite Hl|]. split; [by rewrite slen_app|].
      pose proof (aead_encrypt_length _ _ _ _ _ Hc). pose proof (Hb buffer ltac:(left)).
      apply opened_cons; [unfold ATTACHMENT_CHUNK_BYTES in *; lia|by apply aead_round_trip|done].
Qed.

(** A file of this many buffers, of which all but the last are full. *)
Lemma full_buffers l : (∀ b, b ∈ l → b ≠ "") →
  (∀ b, b ∈ removelast l → slen b = ATTACHMENT_CHUNK_BYTES) →
  (∀ b, b ∈ l → slen b ≤ ATTACHMENT_CHUNK_BYTES) →
  nlen l = div_ceil (slen (concat_strings l)) ATTACHMENT_CHUNK_BYTES.
Proof.
  unfold div_ceil. intros Hne Hf Hle.
  assert (∀ k, (∀ b, b ∈ k → slen b = ATTACHMENT_CHUNK_BYTES) → ∀ x,
    slen (concat_strings (k ++ [x])) = nlen k * ATTACHMENT_CHUNK_BYTES + slen x) as Hsum.
  { induction k as [|b k IH]; intros Hk x.
    - cbn [app]. change (concat_strings [x]) with (x +:+ ""). by rewrite string_app_nil_r.
    - cbn [app]. change (concat_strings (b :: (k ++ [x]))) with (b +:+ concat_strings (k ++ [x])).
      rewrite slen_app, IH by (intros; apply Hk; by right). rewrite (Hk b) by left.
      unfold nlen. cbn [length]. lia. }
  destruct l as [|b l] using rev_ind; [done|]. clear IHl.
  rewrite List.removelast_last in Hf. rewrite Hsum by done.
  assert (1 ≤ slen b ≤ ATTACHMENT_CHUNK_BYTES) as [H1 H2].
  { split; [|apply Hle, elem_of_app; right; left].
    assert (b ≠ "") as Hb by (apply Hne, elem_of_app; right; left). destruct b; [done|].
    unfold slen. cbn [String.length]. lia. }
  unfold nlen. rewrite length_app. cbn [length].
  replace (N.of_nat (length l) * ATTACHMENT_CHUNK_BYTES + slen b + ATTACHMENT_CHUNK_BYTES - 1)
    with (slen b - 1 + (N.of_nat (length l) + 1) * ATTACHMENT_CHUNK_BYTES) by lia.
  rewrite N.div_add by done. rewrite N.div_small by lia. lia.
Qed.

Lemma until_empty_elem reads b : b ∈ until_empty reads → b ∈ reads ∧ b ≠ "".
Proof.
  induction reads as [|x reads IH]; [by intros []%not_elem_of_nil|].
  destruct x as [|a x]; [by intros []%not_elem_of_nil|].
  intros [->|H]%elem_of_cons; [by split; [left|]|].
  destruct (IH H). split; [by right|done].
Qed.

(** C40. An encrypted attachment decrypts to the file: with the key and nonce of its plan, the
    container written over whatever buffers the file was read in decrypts to their
    contents under the returned hash; and it has the returned size when every buffer but
    the last was full. *)
Theorem attachment_round_trip `{!PlatformLaws P} `{!CryptoLaws C} meta reads p out r
    (He : encrypt_file meta reads p = Ok (out, r))
    (Hp : slen (ep_nonce_prefix p) = 16)
    (Hb : ∀ b, b ∈ reads → slen b ≤ ATTACHMENT_CHUNK_BYTES) :
  decrypt_file out (base64_encode (ep_key p)) (base64_encode (ep_nonce_prefix p))
    (ep_plaintext_size p) (er_ciphertext_sha256 r) = Ok (concat_strings (until_empty reads))
  ∧ slen (concat_strings (until_empty reads)) = ep_plaintext_size p
  ∧ ((∀ b, b ∈ removelast (until_empty reads) → slen b = ATTACHMENT_CHUNK_BYTES) →
     slen out = er_encrypted_size r).
Proof.
  unfold encrypt_file in He. step He u1 H1. step He u2 H2. step He ch Hch. step He u3 H3.
  cbv zeta in He. apply Ok_inj, pair_eq in He as [<- <-]. destruct ch as [o n].
  apply (encrypt_chunks_opened p reads 0 o n Hb) in Hch as (cs & -> & Hl & -> & Ho).
  cbn [fst snd er_ciphertext_sha256 er_encrypted_size] in *.
  apply fail_if_Ok, negb_false_iff, N.eqb_eq in H3. apply fail_if_Ok, negb_false_iff, N.eqb_eq in H2.
  assert (ep_plaintext_size p ≤ MAX_ATTACHMENT_FILE_SIZE) as Hmax.
  { apply fail_if_Ok in H1. repeat (apply orb_false_iff in H1 as [H1 ?]).
    match goal with H : negb (_ =? _) = false |- _ => apply negb_false_iff, N.eqb_eq in H end.
    ordered. lia. }
  split; [|split; [done|]].
  - apply intact_decrypt_file. exists (ep_key p), (ep_nonce_prefix p), cs, "".
    rewrite !base64_round_trip, string_app_nil_r, container_header. split_and!; try done.
    eapply N.le_lt_trans; [exact Hmax|done].
  - intros Hfull. rewrite slen_app, header_slen, (opened_size _ _ _ _ _ _ Ho), H3.
    unfold encrypted_size. rewrite <-H3, <-full_buffers.
    + unfold nlen. rewrite Hl. unfold TAG_BYTES. lia.
    + intros b Hin. by destruct (until_empty_elem _ _ Hin).
    + done.
    + intros b Hin. apply Hb. by destruct (until_empty_elem _ _ Hin).
Qed.
End Container.

(** * Attachments: a concrete instance

    An authenticated encryption that satisfies the laws, and the theorems about attachments
    at it. *)


#[local] Existing Instances Toy.platform Toy.platform_laws.

(** A tag of the associated data before the message. *)
Definition toy_open (ad c : string) : option string :=
  if (16 <=? slen c) && (stake 16 c === Toy.pad 16 ad) then Some (sdrop 16 c) else None.
#[export] Instance toy_crypto : Crypto := {|
  aead_encrypt key nonce aad msg := Some (Toy.pad 16 aad +:+ msg);
  aead_decrypt key nonce aad c := toy_open aad c;
  hmac_sha256 key msg := Toy.pad 32 (key +:+ msg);
|}.

Lemma tag_slen ad : slen (Toy.pad 16 ad) = 16.
Proof. unfold slen. by rewrite Toy.pad_length. Qed.

#[export] Instance toy_crypto_laws : CryptoLaws toy_crypto.
Proof.
  split.
  - intros key nonce aad msg c [= <-]. cbn [aead_decrypt toy_crypto]. unfold toy_open.
    rewrite slen_app, tag_slen, (proj2 (N.leb_le _ _)) by lia.
    pose proof (stake_app (Toy.pad 16 aad) msg) as Hs. rewrite Toy.pad_length in Hs.
    pose proof (sdrop_app (Toy.pad 16 aad) msg) as Hd. rewrite Toy.pad_length in Hd.
    by rewrite Hs, Hd, bool_decide_eq_true_2.
  - intros key nonce aad msg c [= <-]. rewrite slen_app, tag_slen. lia.
  - intros key nonce aad msg c. cbn [aead_decrypt toy_crypto]. unfold toy_open.
    destruct (N.leb_spec 16 (slen c)); [|done]. case_bool_decide; [|done].
    cbn [andb]. intros Hm. apply Some_inj in Hm as <-. unfold slen in *.
    rewrite sdrop_length. lia.
  - intros key msg. apply Toy.pad_length.
Qed.

(** A file of nine bytes, read as two buffers. *)
Definition toy_plan : EncryptionPlan :=
  {| ep_key := Toy.pad 32 "key"; ep_nonce_prefix := Toy.pad 16 "nonce"; ep_plaintext_size := 9 |}.
Definition toy_meta : FileMeta := {| fm_file := true; fm_symlink := false; fm_len := 9 |}.
Definition toy_reads : list string := ["photo"; "data"; ""; "more"].
Definition toy_encrypted : string * EncryptionResult :=
  from_ok ("", {| er_encrypted_size := 0; er_ciphertext_sha256 := "" |})
    (encrypt_file toy_meta toy_reads toy_plan).

Lemma attachment_round_trip_witness :
  decrypt_file toy_encrypted.1 (Toy.pad 32 "key") (Toy.pad 16 "nonce") 9
    (er_ciphertext_sha256 toy_encrypted.2) = Ok "photodata".
Proof.
  destruct (attachment_round_trip toy_meta toy_reads toy_plan toy_encrypted.1 toy_encrypted.2)
    as (H & _).
  - unfold toy_encrypted. vm_compute. reflexivity.
  - reflexivity.
  - intros b Hb. repeat (apply elem_of_cons in Hb as [->|Hb]; [by vm_compute|]).
    by apply not_elem_of_nil in Hb.
  - exact H.
Defined.
