(* ===== verification/StorageWire.v ===== *)
(** * Storage broker requests (crates/elo-core/src/attachments/broker.rs)

    The signed commands a member's device sends to the attachment broker, who may send them,
    and the proof of work that registers a Space. *)

From stdpp Require Import pretty.
From S2P Require Import Prelude Platform Ids Record Chat Identity AuthorityData AuthorityProof Attachments.

Definition COMMAND_TTL : N := 60.
Definition CONFIGURE_TTL : N := 180.
Definition TRANSFER_TTL : N := 120.
Definition MAX_REQUEST_BYTES : N := 9 * 1024 * 1024.

Abbreviation AttachmentObjectId := string (only parsing).

Inductive ProviderConfig :=
| MegaFolder (folder_link write_auth : string)
| S3Compatible (endpoint region bucket access_key secret_key : string).
#[global] Instance ProviderConfig_eq_dec : EqDecision ProviderConfig.
Proof. solve_decision. Defined.
#[global] Instance ProviderConfig_countable : Countable ProviderConfig.
Proof.
  refine (inj_countable' (λ p, match p with MegaFolder a b => inl (a, b)
                               | S3Compatible a b c d e => inr (a, b, c, (d, e)) end)
    (λ x, match x with inl (a, b) => MegaFolder a b
                     | inr (a, b, c, (d, e)) => S3Compatible a b c d e end) _).
  by intros [].
Defined.

(** [ProviderConfig::name] and [ProviderConfig::validate] *)
Definition provider_name (p : ProviderConfig) : string :=
  match p with MegaFolder _ _ => "mega_folder" | S3Compatible _ _ _ _ _ => "s3_compatible" end.
Definition provider_values (p : ProviderConfig) : list string :=
  match p with MegaFolder a b => [a; b] | S3Compatible a b c d e => [a; b; c; d; e] end.
Definition provider_validate (p : ProviderConfig) : result RecordError unit :=
  fail_if (existsb (λ v, (v === "") || (4096 <? slen v) || existsb is_control (chars v))
             (provider_values p)) Json.

Inductive Operation :=
| Status
| Configure (expected_revision : N) (provider : ProviderConfig) (retention_hours : N)
| ConfigureManaged (expected_revision retention_hours : N)
| Policy (expected_revision retention_hours : N)
| Disable (expected_revision : N)
| Reserve (object_id : AttachmentObjectId) (encrypted_size : N) (ciphertext_sha256 : string)
| Complete (object_id : AttachmentObjectId)
| Download (object_id : AttachmentObjectId)
| Cancel (object_id : AttachmentObjectId).
#[global] Instance Operation_eq_dec : EqDecision Operation.
Proof. solve_decision. Defined.

(** The [matches!] the code asks of an operation. *)
Definition is_configuration (o : Operation) : bool :=
  match o with Configure _ _ _ | ConfigureManaged _ _ => true | _ => false end.
Definition is_registration (o : Operation) : bool :=
  match o with Configure 0 _ _ | ConfigureManaged 0 _ => true | _ => false end.
Definition owner_only (o : Operation) : bool :=
  match o with
  | Configure _ _ _ | ConfigureManaged _ _ | Policy _ _ | Disable _ => true
  | _ => false
  end.
Definition writes (o : Operation) : bool :=
  match o with Status | Download _ => false | _ => true end.
Definition is_status (o : Operation) : bool := match o with Status => true | _ => false end.

(** [Operation::ttl] and [Operation::validate] *)
Definition operation_ttl (o : Operation) : N :=
  if is_configuration o then CONFIGURE_TTL else COMMAND_TTL.
Definition operation_validate (o : Operation) : result RecordError unit :=
  match o with
  | Configure revision provider hours =>
      _ ← fail_if ((MAX_INTEGER <=? revision) || negb (retention_choice hours)) Json;
      provider_validate provider
  | ConfigureManaged revision hours | Policy revision hours =>
      fail_if ((MAX_INTEGER <=? revision) || negb (retention_choice hours)) Json
  | Reserve _ size sha =>
      _ ← hex 32 sha;
      fail_if ((size =? 0) || (encrypted_size MAX_ATTACHMENT_FILE_SIZE <? size)) Json
  | _ => Ok tt
  end.

Record Request := { rq_command : string; rq_proof : CallAuthorityProof }.

Record Command := {
  sm_v : N; sm_kind : string; sm_audience : string; sm_space_id : SpaceId;
  sm_stream_id : StreamId; sm_config_id : RecordId; sm_credential_id : RecordId;
  sm_nonce : string; sm_work : string; sm_issued_at : N; sm_expires_at : N;
  sm_operation : Operation;
}.

Record StorageStatus := {
  ss_configured : bool; ss_enabled : bool; ss_provider : option string; ss_revision : N;
  ss_used_bytes : N; ss_max_space_bytes : N; ss_max_file_bytes : N;
  ss_retention_hours : option N;
}.

Inductive Response :=
| RStatus (status : StorageStatus)
| RTransfer (object_id : AttachmentObjectId) (url token : string)
    (expires_at object_expires_at_ms : N)
| RComplete (object_id : AttachmentObjectId)
| RCancelled (object_id : AttachmentObjectId).

Class StorageSerde := {
  serde_storage_command :: Serde Command;
  json_provider :: JsonText ProviderConfig;
  json_storage_response :: JsonText Response;
}.

(** serde_json reads back what it wrote of the values the broker keeps. *)
Class StorageSerdeLaws (B : StorageSerde) : Prop := {
  provider_round_trip p : from_json (to_json p) = Some (p : ProviderConfig);
  response_round_trip r : from_json (to_json r) = Some (r : Response);
}.

Section Broker.
Context `{P : Platform} {S : AuthoritySerde} {B : StorageSerde}.

Definition admits_device (device : VerifiedCredential) (id : RecordId) (write : bool)
    (m : Member) : bool :=
  (m_identity_id m === vc_identity device)
  && contains (m_credential_ids m) id
  && has_capability m Read
  && (negb write || has_capability m Post).

Definition require_member (a : Authority) (id : RecordId) (write : bool)
    : result RecordError unit :=
  _ ← fail_if (negb (is_owner_managed a) || forked a) AuthorityError;
  g ← decode (T := SpaceGenesis) (genesis a);
  h ← (if sg_nonce g =/= display (stream a) then Err AuthorityError else head_config a);
  _ ← fail_if (sc_chat_kind h =/= Some KChat) AuthorityError;
  device ← credential a id;
  fail_if (negb (existsb (admits_device device id write) (sc_members h))) AuthorityError.

Definition set_work (c : Command) (work : string) : Command :=
  {| sm_v := sm_v c; sm_kind := sm_kind c; sm_audience := sm_audience c;
     sm_space_id := sm_space_id c; sm_stream_id := sm_stream_id c;
     sm_config_id := sm_config_id c; sm_credential_id := sm_credential_id c;
     sm_nonce := sm_nonce c; sm_work := work; sm_issued_at := sm_issued_at c;
     sm_expires_at := sm_expires_at c; sm_operation := sm_operation c |}.

Definition work_base (c : Command) : string :=
  sha256 ("elo.now/storage-registration/v1" +:+ nul +:+ to_vec (set_work c "")).
Definition byte_at (i : nat) (s : string) : N := default 0 (byte_val <$> String.get i s).
Definition valid_work (base : string) (nonce : N) : bool :=
  let out := sha256 (base +:+ be_bytes 8 nonce) in
  (byte_at 0 out =? 0) && (byte_at 1 out =? 0) && (byte_at 2 out <? 16).

(** The search loop [for nonce in 0..u64::MAX], which leaves the work empty when it finds
    nothing; [None] is a loop the fuel does not finish. *)
Fixpoint search_work (fuel : nat) (base : string) (nonce : N) : option string :=
  if u64_max <=? nonce then Some ""
  else
    match fuel with
    | O => None
    | Datatypes.S fuel =>
        if valid_work base nonce then Some (encode_hex (be_bytes 8 nonce))
        else search_work fuel base (nonce + 1)
    end.
Definition solve_work (fuel : nat) (c : Command) : option Command :=
  if is_registration (sm_operation c) then set_work c <$> search_work fuel (work_base c) 0
  else Some c.

(** The command [sign_command] signs, before its work. *)
Definition new_command (a : Authority) (own : VerifiedCredential) (aud : string)
    (o : Operation) (now : N) (entropy : option string) : result RecordError Command :=
  _ ← require_member a (vc_id own) (writes o);
  _ ← fail_if ((aud === "") || (2048 <? slen aud) || existsb is_control (chars aud))
        AuthorityError;
  _ ← operation_validate o;
  id ← ok_or (head a) AuthorityError;
  nonce ← random_hex entropy;
  mret {| sm_v := 1; sm_kind := "storage.command"; sm_audience := aud; sm_space_id := space a;
          sm_stream_id := stream a; sm_config_id := id; sm_credential_id := vc_id own;
          sm_nonce := nonce; sm_work := ""; sm_issued_at := now;
          sm_expires_at := saturating_add now (operation_ttl o); sm_operation := o |}.

(** [key] is the session's signing key. *)
Definition sign_command (fuel : nat) (a : Authority) (own : VerifiedCredential) (key aud : string)
    (o : Operation) (now : N) (entropy : option string) : option (result RecordError SignedRecord) :=
  match new_command a own aud o now entropy with
  | Err e => Some (Err e)
  | Ok c => (λ c, sign (to_vec c) key) <$> solve_work fuel c
  end.

Definition work_ok (c : Command) : result RecordError unit :=
  if is_registration (sm_operation c) then
    work ← hex 8 (sm_work c);
    fail_if (negb (valid_work (work_base c) (from_be work))) AuthorityError
  else fail_if (sm_work c =/= "") Json.

Definition verify_command (a : Authority) (signed : SignedRecord) (aud : string) (now : N)
    : result RecordError Command :=
  command ← decode (T := Command) signed;
  _ ← fail_if (negb (sm_v command =? 1)
               || (sm_kind command =/= "storage.command")
               || (sm_audience command =/= aud)
               || (sm_space_id command =/= space a)
               || (sm_stream_id command =/= stream a)
               || (Some (sm_config_id command) =/= head a)
               || (saturating_add now 15 <? sm_issued_at command)
               || (sm_expires_at command <=? now)
               || (sm_expires_at command <=? sm_issued_at command)
               || (saturating_add (sm_issued_at command) (operation_ttl (sm_operation command))
                   <? sm_expires_at command)) AuthorityError;
  _ ← hex 16 (sm_nonce command);
  _ ← require_member a (sm_credential_id command) (writes (sm_operation command));
  device ← credential a (sm_credential_id command);
  _ ← verify_signature signed (vc_key device);
  _ ← fail_if (owner_only (sm_operation command)
               && negb (can_manage a (sm_credential_id command))) AuthorityError;
  _ ← operation_validate (sm_operation command);
  _ ← work_ok command;
  mret command.

End Broker.

(** * Network addresses

    [std::net::IpAddr] as far as the services use it, and the two judgements the storage
    service makes of an address: the network a request is counted against
    (crates/elo-storage/src/server.rs) and whether an address is on the public Internet
    (crates/elo-storage/src/storage.rs). *)


(** Four octets, or eight 16-bit segments. *)
Inductive IpAddr :=
| V4 (a b c d : N)
| V6 (s0 s1 s2 s3 s4 s5 s6 s7 : N).
#[global] Instance IpAddr_eq_dec : EqDecision IpAddr.
Proof. solve_decision. Defined.
#[global] Instance IpAddr_countable : Countable IpAddr.
Proof.
  refine (inj_countable' (λ ip, match ip with V4 a b c d => inl (a, b, c, d)
                                | V6 a b c d e f g h => inr (a, b, c, d, (e, f, g, h)) end)
    (λ x, match x with inl (a, b, c, d) => V4 a b c d
                     | inr (a, b, c, d, (e, f, g, h)) => V6 a b c d e f g h end) _).
  by intros [].
Defined.

(** ** The standard library's classification and text form *)

(** [Ipv6Addr::to_ipv4_mapped] *)
Definition to_ipv4_mapped (ip : IpAddr) : option IpAddr :=
  match ip with
  | V6 a b c d e f x y =>
      if [a; b; c; d; e; f] === [0; 0; 0; 0; 0; 65535]
      then Some (V4 (x / 256) (x mod 256) (y / 256) (y mod 256)) else None
  | V4 _ _ _ _ => None
  end.

Definition is_private (a b : N) : bool :=
  (a =? 10) || ((a =? 172) && in_range 16 31 b) || ((a =? 192) && (b =? 168)).
Definition is_loopback (ip : IpAddr) : bool :=
  match ip with V4 a _ _ _ => a =? 127 | V6 _ _ _ _ _ _ _ _ => ip === V6 0 0 0 0 0 0 0 1 end.
Definition is_documentation (a b c : N) : bool :=
  ((a =? 192) && (b =? 0) && (c =? 2)) || ((a =? 198) && (b =? 51) && (c =? 100))
  || ((a =? 203) && (b =? 0) && (c =? 113)).

(** The zero run [::] stands for: its start and length, the first of the longest. *)
Fixpoint zero_run (i : nat) (current longest : nat * nat) (l : list N) : nat * nat :=
  match l with
  | [] => longest
  | s :: l =>
      if s =? 0 then
        let current := if Nat.eqb current.2 0 then (i, 1%nat) else (current.1, S current.2) in
        zero_run (S i) current (if Nat.ltb longest.2 current.2 then current else longest) l
      else zero_run (S i) (0%nat, 0%nat) longest l
  end.

Definition hex_digit (n : N) : Ascii.ascii := byte_of (if n <? 10 then 48 + n else 87 + n).
(** [{:x}] of a 16-bit integer *)
Definition hex16 (n : N) : string :=
  let d i := hex_digit (N.land (N.shiftr n (4 * i)) 15) in
  if n <? 16 then String (d 0) ""
  else if n <? 256 then String (d 1) (String (d 0) "")
  else if n <? 4096 then String (d 2) (String (d 1) (String (d 0) ""))
  else String (d 3) (String (d 2) (String (d 1) (String (d 0) ""))).
Definition join_segments (l : list N) : string := String.concat ":" (hex16 <$> l).

(** [impl Display for IpAddr] *)
Definition v4_text (a b c d : N) : string :=
  String.concat "." (pretty <$> [a; b; c; d]).
Definition ip_text (ip : IpAddr) : string :=
  match ip with
  | V4 a b c d => v4_text a b c d
  | V6 a b c d e f g h =>
      match to_ipv4_mapped ip with
      | Some (V4 a b c d) => "::ffff:" +:+ v4_text a b c d
      | _ =>
          let l := [a; b; c; d; e; f; g; h] in
          let z := zero_run 0 (0, 0)%nat (0, 0)%nat l in
          if Nat.ltb 1 z.2 then
            join_segments (firstn z.1 l) +:+ "::" +:+ join_segments (skipn (z.1 + z.2) l)
          else join_segments l
      end
  end.

(** ** The service's judgements *)

Definition source_network (ip : IpAddr) : IpAddr :=
  match ip with
  | V4 _ _ _ _ => ip
  | V6 a b c d _ _ _ _ =>
      match to_ipv4_mapped ip with
      | Some ip => ip
      | None => V6 a b c d 0 0 0 0
      end
  end.

Definition public_ip (ip : IpAddr) : bool :=
  match ip with
  | V4 a b c d =>
      negb (is_private a b)
      && negb (is_loopback ip)
      && negb ((a =? 169) && (b =? 254))
      && negb (in_range 224 239 a)
      && (ip =/= V4 0 0 0 0)
      && (ip =/= V4 255 255 255 255)
      && negb (is_documentation a b c)
      && negb (a =? 0)
      && (a <? 224)
      && negb ((a =? 100) && in_range 64 127 b)
      && negb ((a =? 198) && ((b =? 18) || (b =? 19)))
      && negb ((a =? 192) && (b =? 0))
      && negb ((a =? 192) && (b =? 88) && (c =? 99))
  | V6 s0 s1 _ _ _ _ _ _ =>
      (N.land s0 57344 =? 8192)
      && negb (s0 =? 8194)
      && negb ((s0 =? 8193) && ((s1 <=? 511) || (s1 =? 3512)))
      && negb (s0 =? 16383)
  end.

(** The cases of the source's own test. *)
Example public_addresses :
  forallb (negb ∘ public_ip)
    [V4 127 0 0 1; V4 169 254 169 254; V4 10 0 0 1; V4 100 100 1 1; V4 192 0 2 1; V4 198 18 1 1;
     V6 0 0 0 0 0 0 0 1; V6 0 0 0 0 0 65535 2056 2056; V6 8194 32512 1 0 0 0 0 0;
     V6 8193 3512 0 0 0 0 0 1] = true
  ∧ forallb public_ip [V4 8 8 8 8; V4 1 1 1 1; V6 9734 18176 18176 0 0 0 0 4369] = true.
Proof. by vm_compute. Qed.

Example address_texts :
  ip_text <$> [V4 127 0 0 1; V6 0 0 0 0 0 0 0 1; V6 0 0 0 0 0 65535 2056 2056;
               V6 8193 3512 0 0 1 0 0 1; V6 0 0 0 0 0 0 0 0; V6 9734 18176 18176 0 0 0 0 4369]
  = ["127.0.0.1"; "::1"; "::ffff:8.8.8.8"; "2001:db8::1:0:0:1"; "::"; "2606:4700:4700::1111"].
Proof. by vm_compute. Qed.
