(* ===== verification/StorageEngine.v ===== *)
(** * The storage broker's engine (crates/elo-storage/src/engine.rs, lib.rs)

    What the broker keeps in its database and every operation on it: verified requests, the
    durable authority fence, settings and sealed provider generations, the objects of a
    Space and their life cycle, transfer tokens, receipts, and the witness floor. *)

From stdpp Require Import pretty.
From S2P Require Import Prelude Sums Platform Ids Record Chat Identity AuthorityData AuthorityWitness Authority AuthorityProof WitnessWire Attachments StorageWire.

Inductive Error :=
| Invalid | Unauthorized | Conflict | NotConfigured | Limit | Missing | Unavailable.
#[global] Instance Error_eq_dec : EqDecision Error.
Proof. solve_decision. Defined.
(** [From<RecordError>] *)
Definition authorized_or {A} (r : result RecordError A) : result Error A := map_err r Unauthorized.

Record Verified := { ve_command : Command; ve_authority : Authority; ve_request_id : RecordId }.

(** ** Tables: identifiers are stored as their text. *)

Record HeadRow := { hd_stream : string; hd_head : string; hd_sequence : N }.
Record SettingsRow := {
  st_revision : N; st_provider : option string; st_enabled : bool;
  st_provider_revision : N; st_retention_hours : option N;
}.
Record Object := {
  ob_space : string; ob_object : string; ob_revision : N; ob_creator : string;
  ob_size : N; ob_hash : string; ob_expires : N; ob_state : string;
}.
Record ObjectRow := { or_object : Object; or_busy_until : N }.
Record TokenRow := {
  tk_space : string; tk_object : string; tk_head : string; tk_action : string; tk_expires : N;
}.
Record ReceiptRow := {
  rr_request : string; rr_response : string; rr_expires : N; rr_created : N;
}.
Record FloorRow := { fl_pin : string; fl_sequence : N; fl_record : option string }.

Record Tables := {
  t_heads : gmap string HeadRow;
  t_settings : gmap string SettingsRow;
  t_providers : gmap (string * N) string;
  t_objects : gmap (string * string) ObjectRow;
  t_tokens : gmap string TokenRow;
  t_receipts : gmap (string * string) ReceiptRow;
  t_registrations : gmap (string * N) N;
  t_witness_floor : option FloorRow;
}.
Definition no_tables : Tables :=
  {| t_heads := ∅; t_settings := ∅; t_providers := ∅; t_objects := ∅; t_tokens := ∅;
     t_receipts := ∅; t_registrations := ∅; t_witness_floor := None |}.

Definition set_heads (t : Tables) (x : gmap string HeadRow) : Tables :=
  {| t_heads := x; t_settings := t_settings t; t_providers := t_providers t;
     t_objects := t_objects t; t_tokens := t_tokens t; t_receipts := t_receipts t;
     t_registrations := t_registrations t; t_witness_floor := t_witness_floor t |}.
Definition set_settings (t : Tables) (x : gmap string SettingsRow) : Tables :=
  {| t_heads := t_heads t; t_settings := x; t_providers := t_providers t;
     t_objects := t_objects t; t_tokens := t_tokens t; t_receipts := t_receipts t;
     t_registrations := t_registrations t; t_witness_floor := t_witness_floor t |}.
Definition set_providers (t : Tables) (x : gmap (string * N) string) : Tables :=
  {| t_heads := t_heads t; t_settings := t_settings t; t_providers := x;
     t_objects := t_objects t; t_tokens := t_tokens t; t_receipts := t_receipts t;
     t_registrations := t_registrations t; t_witness_floor := t_witness_floor t |}.
Definition set_objects (t : Tables) (x : gmap (string * string) ObjectRow) : Tables :=
  {| t_heads := t_heads t; t_settings := t_settings t; t_providers := t_providers t;
     t_objects := x; t_tokens := t_tokens t; t_receipts := t_receipts t;
     t_registrations := t_registrations t; t_witness_floor := t_witness_floor t |}.
Definition set_tokens (t : Tables) (x : gmap string TokenRow) : Tables :=
  {| t_heads := t_heads t; t_settings := t_settings t; t_providers := t_providers t;
     t_objects := t_objects t; t_tokens := x; t_receipts := t_receipts t;
     t_registrations := t_registrations t; t_witness_floor := t_witness_floor t |}.
Definition set_receipts (t : Tables) (x : gmap (string * string) ReceiptRow) : Tables :=
  {| t_heads := t_heads t; t_settings := t_settings t; t_providers := t_providers t;
     t_objects := t_objects t; t_tokens := t_tokens t; t_receipts := x;
     t_registrations := t_registrations t; t_witness_floor := t_witness_floor t |}.
Definition set_registrations (t : Tables) (x : gmap (string * N) N) : Tables :=
  {| t_heads := t_heads t; t_settings := t_settings t; t_providers := t_providers t;
     t_objects := t_objects t; t_tokens := t_tokens t; t_receipts := t_receipts t;
     t_registrations := x; t_witness_floor := t_witness_floor t |}.
Definition set_floor (t : Tables) (x : option FloorRow) : Tables :=
  {| t_heads := t_heads t; t_settings := t_settings t; t_providers := t_providers t;
     t_objects := t_objects t; t_tokens := t_tokens t; t_receipts := t_receipts t;
     t_registrations := t_registrations t; t_witness_floor := x |}.

Definition set_state (o : Object) (state : string) : Object :=
  {| ob_space := ob_space o; ob_object := ob_object o; ob_revision := ob_revision o;
     ob_creator := ob_creator o; ob_size := ob_size o; ob_hash := ob_hash o;
     ob_expires := ob_expires o; ob_state := state |}.
Definition row_state (r : ObjectRow) : string := ob_state (or_object r).
Definition set_row_state (state : string) (r : ObjectRow) : ObjectRow :=
  {| or_object := set_state (or_object r) state; or_busy_until := or_busy_until r |}.

(** An [INSERT] without a conflict clause. *)
Definition sql_insert `{Countable K} {V} (k : K) (v : V) (m : gmap K V) : result Error (gmap K V) :=
  match m !! k with None => Ok (<[k := v]> m) | Some _ => Err Unavailable end.

(** [integer]: [i64::try_from] of an unsigned integer *)
Definition integer (n : N) : result Error N :=
  if n <? 9223372036854775808 then Ok n else Err Invalid.
(** The product of two [u64] in a release build. *)
Definition wrapping_mul (a b : N) : N := (a * b) mod 2 ^ 64.
Definition saturating_mul (a b : N) : N := N.min (a * b) u64_max.

(** The objects of a Space. *)
Definition in_space {V} (space : string) (kv : (string * string) * V) : Prop := kv.1.1 = space.
#[global] Instance in_space_dec {V} s (kv : (string * string) * V) : Decision (in_space s kv).
Proof. unfold in_space. apply _. Defined.
Definition space_objects (t : Tables) (space : string) : gmap (string * string) ObjectRow :=
  filter (in_space space) (t_objects t).
Definition stored_bytes (t : Tables) (space : string) : N :=
  sum_over (λ _ r, ob_size (or_object r)) (space_objects t space).
(** [SELECT coalesce(sum(size),0)]: SQLite reports an integer overflow. *)
Definition used_bytes (t : Tables) (space : string) : result Error N :=
  let n := stored_bytes t space in
  if n <? 9223372036854775808 then Ok n else Err Unavailable.

Definition read_object (t : Tables) (space object : string) : result Error Object :=
  ok_or (or_object <$> t_objects t !! (space, object)) Missing.

Record Engine := {
  en_db : Tables; en_key : string; en_audience : string; en_max_spaces : N;
}.
Definition with_db (e : Engine) (t : Tables) : Engine :=
  {| en_db := t; en_key := en_key e; en_audience := en_audience e;
     en_max_spaces := en_max_spaces e |}.

(** [Engine::open] on an existing database: interrupted uploads are to be deleted. *)
Definition interrupt (r : ObjectRow) : ObjectRow :=
  if row_state r === "uploading" then set_row_state "deleting" r else r.
Definition open (t : Tables) (key aud : string) (max_spaces : N) : result Error Engine :=
  _ ← fail_if ((max_spaces =? 0) || (128 <? max_spaces)) Invalid;
  _ ← fail_if (negb (slen key =? 32)) Invalid;
  mret {| en_db := set_objects t (interrupt <$> t_objects t);
          en_key := key; en_audience := aud; en_max_spaces := max_spaces |}.

Section StorageEngine.
Context `{P : Platform} {S : AuthoritySerde} {W : WitnessSerde} {X : ProtocolSerde}.
Context `{C : Crypto} {B : StorageSerde}.

(** ** Requests *)

(** [Verified::verify] with the operator's pin *)
Definition verify (request : Request) (aud : string) (now : N) (pin : WitnessPin)
    : result Error Verified :=
  _ ← fail_if (MAX_RECORD * 2 <? slen (rq_command request)) Invalid;
  bytes ← ok_or (base64_decode (rq_command request)) Invalid;
  signed ← authorized_or (parse bytes);
  command ← authorized_or (decode (T := Command) signed);
  cred ← authorized_or (proof_credential (rq_proof request) (sm_credential_id command));
  _ ← authorized_or (verify_signature signed (vc_key cred));
  a ← authorized_or (verify_witnessed (rq_proof request) (sm_space_id command)
                       (sm_stream_id command) pin);
  command ← authorized_or (verify_command a signed aud now);
  mret {| ve_command := command; ve_authority := a; ve_request_id := record_id signed |}.

(** ** The witness floor *)

Definition pin_witness (e : Engine) (pin : WitnessPin) : result Error Engine :=
  _ ← authorized_or (pin_validate pin);
  let text := to_json pin in
  match t_witness_floor (en_db e) with
  | Some f => if fl_pin f =/= text then Err Conflict else Ok e
  | None => Ok (with_db e (set_floor (en_db e)
              (Some {| fl_pin := text; fl_sequence := 0; fl_record := None |})))
  end.

Definition witness_position (e : Engine) : result Error (option Position) :=
  match t_witness_floor (en_db e) with
  | Some f =>
      if fl_sequence f =? 0 then Ok None
      else
        text ← ok_or (fl_record f) Unavailable;
        record ← ok_or (parse_hex 32 text) Unavailable;
        mret (Some {| po_sequence := fl_sequence f; po_record_id := Some record |})
  | None => Ok None
  end.

(** [instant] is the monotonic clock. *)
Definition check_witness (e : Engine) (f : VerifiedFreshness) (instant now_ms : N)
    : result Error unit :=
  _ ← fail_if (negb (freshness_is_valid f instant now_ms)) Unauthorized;
  floor ← witness_position e;
  fail_if (behind_floor (vf_body f) floor) Unauthorized.

Definition observe_witness (e : Engine) (f : VerifiedFreshness) (instant now_ms : N)
    : result Error Engine :=
  _ ← check_witness e f instant now_ms;
  sequence ← integer (po_sequence (fr_position (vf_body f)));
  record ← ok_or (po_record_id (fr_position (vf_body f))) Unauthorized;
  floor ← ok_or (t_witness_floor (en_db e)) Unavailable;
  mret (with_db e (set_floor (en_db e)
    (Some {| fl_pin := fl_pin floor; fl_sequence := sequence;
             fl_record := Some (display record) |}))).

(** ** Admitting a command *)

(** The fence of a Space: its stream, and a head the proof contains. *)
Definition fence_ok (row : HeadRow) (v : Verified) : result Error unit :=
  let c := ve_command v in
  head ← ok_or (parse_hex 32 (hd_head row)) Unavailable;
  fail_if ((hd_stream row =/= display (sm_stream_id c))
           || ((sm_config_id c =/= head)
               && negb (proves_config_at (ve_authority v) head (hd_sequence row)))) Unauthorized.

Definition authorize (e : Engine) (v : Verified) (now : N) : result Error unit :=
  let c := ve_command v in
  _ ← fail_if (sm_expires_at c <=? now) Unauthorized;
  _ ← match t_heads (en_db e) !! display (sm_space_id c) with
      | Some row => fence_ok row v
      | None =>
          if is_status (sm_operation c) then Ok tt
          else if is_registration (sm_operation c) then
            fail_if (en_max_spaces e <=? N.of_nat (size (t_heads (en_db e)))) Limit
          else Err NotConfigured
      end;
  fail_if (owner_only (sm_operation c) && negb (can_manage (ve_authority v) (sm_credential_id c)))
    Unauthorized.

Definition token (e : Engine) (request : RecordId) : string :=
  encode_hex (hmac_sha256 (en_key e) ("elo.now/storage-transfer/v1" +:+ nul +:+ request)).
Definition hash (s : string) : string := encode_hex (sha256 s).
Definition ip_hash (ip : IpAddr) : string := hash ("elo.now/storage-admission/v1/" +:+ ip_text ip).

Definition receipt_key (c : Command) : string * string :=
  (display (sm_credential_id c), sm_nonce c).
Definition with_token (r : Response) (token : string) : Response :=
  match r with RTransfer id url _ x y => RTransfer id url token x y | _ => r end.

Definition replay (e : Engine) (v : Verified) : result Error (option Response) :=
  match t_receipts (en_db e) !! receipt_key (ve_command v) with
  | Some row =>
      if rr_request row === display (ve_request_id v) then
        response ← ok_or (from_json (T := Response) (rr_response row)) Unavailable;
        mret (Some (with_token response (token e (ve_request_id v))))
      else Err Unauthorized
  | None => Ok None
  end.

(** The receipts of a credential since an instant. *)
Definition recent_receipt (who : string) (since : N) (kv : (string * string) * ReceiptRow) : Prop :=
  kv.1.1 = who ∧ since < rr_created kv.2.
#[global] Instance recent_receipt_dec who n kv : Decision (recent_receipt who n kv).
Proof. unfold recent_receipt. apply _. Defined.
Definition recent (t : Tables) (who : string) (since : N) : N :=
  N.of_nat (size (filter (recent_receipt who since) (t_receipts t))).

(** The revision an operation expects. *)
Definition expected_revision (o : Operation) : option N :=
  match o with
  | Configure r _ _ | ConfigureManaged r _ | Policy r _ | Disable r => Some r
  | _ => None
  end.

Definition status_from (t : Tables) (space : string) : result Error StorageStatus :=
  let row := default {| st_revision := 0; st_provider := None; st_enabled := false;
                        st_provider_revision := 0; st_retention_hours := None |}
               (t_settings t !! space) in
  used ← used_bytes t space;
  mret {| ss_configured := bool_decide (is_Some (st_provider row));
          ss_enabled := st_enabled row && bool_decide (is_Some (st_retention_hours row));
          ss_provider := st_provider row; ss_revision := st_revision row; ss_used_bytes := used;
          ss_max_space_bytes := MAX_SPACE_ATTACHMENT_STORAGE;
          ss_max_file_bytes := MAX_ATTACHMENT_FILE_SIZE;
          ss_retention_hours := st_retention_hours row |}.
Definition status (e : Engine) (space : SpaceId) : result Error StorageStatus :=
  status_from (en_db e) (display space).

(** Registrations of a day, from one address or from all. *)
Definition registrations_of (t : Tables) (ip : string) (day : N) : N :=
  default 0 (t_registrations t !! (ip, day)).
Definition registrations_on (t : Tables) (day : N) : N :=
  sum_over (λ k n, if k.2 =? day then n else 0) (t_registrations t).

Definition revision_ok (e : Engine) (c : Command) (ip : IpAddr) (now : N) : result Error unit :=
  match expected_revision (sm_operation c) with
  | None => Ok tt
  | Some r =>
      s ← status e (sm_space_id c);
      _ ← fail_if (negb (ss_revision s =? r)) Conflict;
      if is_registration (sm_operation c) then
        day ← integer (now / 86400);
        fail_if ((4 <=? registrations_of (en_db e) (ip_hash ip) day)
                 || (32 <=? registrations_on (en_db e) day)) Limit
      else Ok tt
  end.

Definition preflight (e : Engine) (v : Verified) (ip : IpAddr) (now : N)
    : result Error (option Response) :=
  _ ← authorize e v now;
  _ ← authorized_or (operation_validate (sm_operation (ve_command v)));
  previous ← replay e v;
  match previous with
  | Some response => Ok (Some response)
  | None =>
      let c := ve_command v in
      since ← integer (saturating_sub now 60);
      _ ← fail_if (60 <=? recent (en_db e) (display (sm_credential_id c)) since) Limit;
      _ ← revision_ok e c ip now;
      mret None
  end.

(** ** Provider secrets *)

Definition secret_aad (space : string) (revision : N) : string :=
  "elo.now/storage-secret/v1/" +:+ space +:+ "/" +:+ pretty revision.

(** [draw] is the 24-byte nonce [getrandom] filled, if it did. *)
Definition seal (e : Engine) (space : string) (revision : N) (provider : ProviderConfig)
    (draw : option string) : result Error string :=
  nonce ← ok_or draw Unavailable;
  sealed ← ok_or (aead_encrypt (en_key e) nonce (secret_aad space revision) (to_json provider))
             Unavailable;
  mret (nonce +:+ sealed).

Definition provider (e : Engine) (space : string) (revision : N) : result Error ProviderConfig :=
  revision' ← integer revision;
  secret ← ok_or (t_providers (en_db e) !! (space, revision')) Unavailable;
  _ ← fail_if (slen secret <? 40) Unavailable;
  plain ← ok_or (aead_decrypt (en_key e) (stake 24 secret) (secret_aad space revision)
                   (sdrop 24 secret)) Unavailable;
  ok_or (from_json (T := ProviderConfig) plain) Unavailable.

(** ** Commands, inside the transaction *)

Record Configuration := { cf_revision : N; cf_provider : ProviderConfig; cf_hours : N }.
Definition configuration (c : Command) (managed : option ProviderConfig)
    : result Error (option Configuration) :=
  match sm_operation c with
  | Configure r p h => Ok (Some {| cf_revision := r; cf_provider := p; cf_hours := h |})
  | ConfigureManaged r h =>
      p ← ok_or managed Unauthorized;
      mret (Some {| cf_revision := r; cf_provider := p; cf_hours := h |})
  | _ => Ok None
  end.

(** Provider generations of a Space. *)
Definition of_space {V} (space : string) (kv : (string * N) * V) : Prop := kv.1.1 = space.
#[global] Instance of_space_dec {V} s (kv : (string * N) * V) : Decision (of_space s kv).
Proof. unfold of_space. apply _. Defined.
Definition generations (t : Tables) (space : string) : N :=
  N.of_nat (size (filter (of_space space) (t_providers t))).

Definition status_response (t : Tables) (space : string) : result Error (Tables * Response) :=
  s ← status_from t space; mret (t, RStatus s).

Definition register (t : Tables) (ip : IpAddr) (now : N) : result Error Tables :=
  day ← integer (now / 86400);
  mret (set_registrations t
    (<[(ip_hash ip, day) := registrations_of t (ip_hash ip) day + 1]> (t_registrations t))).

Definition do_configure (space : string) (cf : Configuration) (secret : string) (ip : IpAddr)
    (now : N) (t : Tables) : result Error (Tables * Response) :=
  let revision := cf_revision cf + 1 in
  _ ← fail_if (32 <=? generations t space) Limit;
  rev ← integer revision;
  ps ← sql_insert (space, rev) secret (t_providers t);
  let t := set_providers t ps in
  let t := set_settings t (<[space :=
    {| st_revision := rev; st_provider := Some (provider_name (cf_provider cf));
       st_enabled := true; st_provider_revision := rev;
       st_retention_hours := Some (cf_hours cf) |}]> (t_settings t)) in
  t ← (if cf_revision cf =? 0 then register t ip now else Ok t);
  status_response t space.

Definition set_policy (hours : N) (s : SettingsRow) : SettingsRow :=
  {| st_revision := st_revision s + 1; st_provider := st_provider s; st_enabled := st_enabled s;
     st_provider_revision := st_provider_revision s; st_retention_hours := Some hours |}.
Definition set_disabled (s : SettingsRow) : SettingsRow :=
  {| st_revision := st_revision s + 1; st_provider := st_provider s; st_enabled := false;
     st_provider_revision := st_provider_revision s;
     st_retention_hours := st_retention_hours s |}.

Definition do_policy (space : string) (expected hours : N) (t : Tables)
    : result Error (Tables * Response) :=
  _ ← fail_if (expected =? 0) NotConfigured;
  status_response (set_settings t (alter (set_policy hours) space (t_settings t))) space.

Definition upload_token_of (space : string) (kv : string * TokenRow) : Prop :=
  tk_space kv.2 = space ∧ tk_action kv.2 = "upload".
#[global] Instance upload_token_of_dec s kv : Decision (upload_token_of s kv).
Proof. unfold upload_token_of. apply _. Defined.

Definition do_disable (space : string) (expected : N) (t : Tables)
    : result Error (Tables * Response) :=
  _ ← fail_if (expected =? 0) NotConfigured;
  let t := set_settings t (alter set_disabled space (t_settings t)) in
  let t := set_tokens t (filter (λ kv, ¬ upload_token_of space kv) (t_tokens t)) in
  status_response t space.

(** [SELECT provider_revision,retention_hours FROM settings WHERE enabled=1 ...] *)
Definition reservable (t : Tables) (space : string) : result Error (N * N) :=
  match t_settings t !! space with
  | Some {| st_enabled := true; st_provider_revision := r; st_retention_hours := Some h |} =>
      if retention_choice h then Ok (r, h) else Err NotConfigured
  | _ => Err NotConfigured
  end.
Definition expiry_ms (now hours : N) : option N :=
  s ← checked_mul hours 3600;
  s ← checked_add now s;
  ms ← checked_mul s 1000;
  if ms <=? MAX_EXPIRY_TIMESTAMP_MS then Some ms else None.

Definition grant (tok : string) (row : TokenRow) (t : Tables) : result Error Tables :=
  x ← integer (tk_expires row);
  ts ← sql_insert (hash tok) row (t_tokens t);
  mret (set_tokens t ts).
Definition transfer (aud id tok : string) (expires expires_ms : N) : Response :=
  RTransfer id (aud +:+ "/objects/" +:+ display id) tok expires expires_ms.

Definition do_reserve (space aud tok : string) (c : Command) (id : AttachmentObjectId)
    (size_ : N) (sha : string) (now : N) (t : Tables) : result Error (Tables * Response) :=
  rh ← reservable t space;
  expires_at_ms ← ok_or (expiry_ms now rh.2) Invalid;
  used ← used_bytes t space;
  _ ← fail_if ((MAX_SPACE_ATTACHMENT_STORAGE <? saturating_add used size_)
               || (1024 <=? N.of_nat (size (space_objects t space)))) Limit;
  _ ← fail_if (bool_decide (is_Some (t_objects t !! (space, display id)))) Conflict;
  revision ← integer rh.1;
  bytes ← integer size_;
  until ← integer expires_at_ms;
  let row := {| ob_space := space; ob_object := display id; ob_revision := revision;
                ob_creator := display (sm_credential_id c); ob_size := bytes; ob_hash := sha;
                ob_expires := until; ob_state := "pending" |} in
  os ← sql_insert (space, display id) {| or_object := row; or_busy_until := 0 |} (t_objects t);
  let t := set_objects t os in
  let expires := N.min (saturating_add now TRANSFER_TTL) (expires_at_ms / 1000) in
  t ← grant tok {| tk_space := space; tk_object := display id;
                   tk_head := display (sm_config_id c); tk_action := "upload";
                   tk_expires := expires |} t;
  mret (t, transfer aud id tok expires expires_at_ms).

Definition set_object_state (t : Tables) (space object state : string) : Tables :=
  set_objects t (alter (set_row_state state) (space, object) (t_objects t)).

Definition do_complete (space : string) (c : Command) (id : AttachmentObjectId) (now : N)
    (t : Tables) : result Error (Tables * Response) :=
  object ← read_object t space (display id);
  _ ← fail_if ((ob_creator object =/= display (sm_credential_id c))
               || (ob_expires object <=? wrapping_mul now 1000)) Unauthorized;
  _ ← fail_if ((ob_state object =/= "uploaded") && (ob_state object =/= "complete")) Conflict;
  mret (set_object_state t space (display id) "complete", RComplete id).

Definition do_download (space aud tok : string) (c : Command) (id : AttachmentObjectId) (now : N)
    (t : Tables) : result Error (Tables * Response) :=
  object ← read_object t space (display id);
  _ ← fail_if ((ob_state object =/= "complete")
               || (ob_expires object <=? wrapping_mul now 1000)) Missing;
  let expires := N.min (saturating_add now TRANSFER_TTL) (ob_expires object / 1000) in
  t ← grant tok {| tk_space := space; tk_object := display id;
                   tk_head := display (sm_config_id c); tk_action := "download";
                   tk_expires := expires |} t;
  mret (t, transfer aud id tok expires (ob_expires object)).

Definition token_for (space object : string) (kv : string * TokenRow) : Prop :=
  tk_space kv.2 = space ∧ tk_object kv.2 = object.
#[global] Instance token_for_dec s o kv : Decision (token_for s o kv).
Proof. unfold token_for. apply _. Defined.
Definition drop_tokens (t : Tables) (space object : string) : Tables :=
  set_tokens t (filter (λ kv, ¬ token_for space object kv) (t_tokens t)).

Definition do_cancel (space : string) (c : Command) (a : Authority) (id : AttachmentObjectId)
    (t : Tables) : result Error (Tables * Response) :=
  object ← read_object t space (display id);
  _ ← fail_if ((ob_creator object =/= display (sm_credential_id c))
               && negb (can_manage a (sm_credential_id c))) Unauthorized;
  _ ← fail_if ((ob_state object === "uploading") || (ob_state object === "complete")) Conflict;
  mret (drop_tokens (set_object_state t space (display id) "deleting") space (display id),
        RCancelled id).

Definition run_operation (v : Verified) (aud tok : string)
    (config : option (Configuration * string)) (ip : IpAddr) (now : N) (t : Tables)
    : result Error (Tables * Response) :=
  let c := ve_command v in
  let space := display (sm_space_id c) in
  match sm_operation c with
  | Status => status_response t space
  | Configure _ _ _ | ConfigureManaged _ _ =>
      cs ← ok_or config Invalid;
      do_configure space cs.1 cs.2 ip now t
  | Policy expected hours => do_policy space expected hours t
  | Disable expected => do_disable space expected t
  | Reserve id bytes sha => do_reserve space aud tok c id bytes sha now t
  | Complete id => do_complete space c id now t
  | Download id => do_download space aud tok c id now t
  | Cancel id => do_cancel space c (ve_authority v) id t
  end.

(** The durable fence moves with every command of a known Space, and with the
    configuration that registers one. *)
Definition advance_head (v : Verified) (t : Tables) : result Error Tables :=
  let c := ve_command v in
  let space := display (sm_space_id c) in
  let old := t_heads t !! space in
  if bool_decide (is_Some old) || is_configuration (sm_operation c) then
    h ← authorized_or (head_config (ve_authority v));
    sequence ← integer (sc_sequence h);
    let stream_ := match old with Some r => hd_stream r | None => display (sm_stream_id c) end in
    mret (set_heads t (<[space := {| hd_stream := stream_;
                                     hd_head := display (sm_config_id c);
                                     hd_sequence := sequence |}]> (t_heads t)))
  else Ok t.

Definition keep_receipt (v : Verified) (response : Response) (now : N) (t : Tables)
    : result Error Tables :=
  let c := ve_command v in
  expires ← integer (sm_expires_at c);
  created ← integer now;
  rs ← sql_insert (receipt_key c)
         {| rr_request := display (ve_request_id v);
            rr_response := to_json (with_token response ""); rr_expires := expires;
            rr_created := created |} (t_receipts t);
  mret (set_receipts t rs).

(** [validate] and [seal] of a configuration. *)
Definition sealed_configuration (e : Engine) (c : Command) (managed : option ProviderConfig)
    (draw : option string) : result Error (option (Configuration * string)) :=
  config ← configuration c managed;
  match config with
  | None => Ok None
  | Some cf =>
      _ ← authorized_or (provider_validate (cf_provider cf));
      secret ← seal e (display (sm_space_id c)) (cf_revision cf + 1) (cf_provider cf) draw;
      mret (Some (cf, secret))
  end.

Definition apply_with_managed (v : Verified) (ip : IpAddr) (now : N)
    (managed : option ProviderConfig) (draw : option string) (e : Engine)
    : result Error (Engine * Response) :=
  replayed ← preflight e v ip now;
  match replayed with
  | Some response => Ok (e, response)
  | None =>
      config ← sealed_configuration e (ve_command v) managed draw;
      let tok := token e (ve_request_id v) in
      tr ← run_operation v (en_audience e) tok config ip now (en_db e);
      t ← advance_head v tr.1;
      t ← keep_receipt v tr.2 now t;
      mret (with_db e t, tr.2)
  end.

(** ** Transfers *)

Definition well_formed_token (tok : string) : bool :=
  (slen tok =? 64) && forallb lower_hex (String.list_ascii_of_string tok).

(** [tokens t JOIN heads h]: the live token and the fence it was issued under. *)
Definition live_token (t : Tables) (object tok action : string) (now : N)
    : result Error (TokenRow * HeadRow) :=
  n ← integer now;
  row ← ok_or (t_tokens t !! hash tok) Unauthorized;
  h ← ok_or (t_heads t !! tk_space row) Unauthorized;
  _ ← fail_if ((hd_head h =/= tk_head row)
               || (tk_object row =/= object)
               || (tk_action row =/= action)
               || (tk_expires row <=? n)) Unauthorized;
  mret (row, h).

Definition token_target (e : Engine) (object : AttachmentObjectId) (tok action : string) (now : N)
    : result Error (SpaceId * StreamId * RecordId) :=
  _ ← fail_if (negb (well_formed_token tok)) Unauthorized;
  th ← live_token (en_db e) (display object) tok action now;
  space_ ← ok_or (parse_hex 32 (tk_space th.1)) Unavailable;
  stream_ ← ok_or (parse_hex 16 (hd_stream th.2)) Unavailable;
  head_ ← ok_or (parse_hex 32 (tk_head th.1)) Unavailable;
  mret (space_, stream_, head_).

Definition begin_upload (until : N) (r : ObjectRow) : ObjectRow :=
  {| or_object := set_state (or_object r) "uploading"; or_busy_until := until |}.

Definition claim (object : AttachmentObjectId) (tok action : string) (now : N) (e : Engine)
    : result Error (Engine * Object) :=
  _ ← token_target e object tok action now;
  th ← live_token (en_db e) (display object) tok action now;
  let space := tk_space th.1 in
  row ← read_object (en_db e) space (display object);
  _ ← fail_if ((ob_expires row <=? wrapping_mul now 1000)
               || ((action === "upload") && (ob_state row =/= "pending"))
               || ((action === "download") && (ob_state row =/= "complete"))) Missing;
  t ← (if action === "upload" then
         until ← integer (saturating_add now 100);
         mret (set_objects (en_db e) (alter (begin_upload until) (space, display object)
                                        (t_objects (en_db e))))
       else Ok (en_db e));
  mret (with_db e (set_tokens t (delete (hash tok) (t_tokens t))), row).

Definition finish_upload (success : bool) (r : ObjectRow) : ObjectRow :=
  if row_state r === "uploading" then
    {| or_object := set_state (or_object r) (if success then "uploaded" else "deleting");
       or_busy_until := if success then 0 else or_busy_until r |}
  else r.
Definition uploaded (object : Object) (success : bool) (e : Engine) : Engine :=
  with_db e (set_objects (en_db e)
    (alter (finish_upload success) (ob_space object, ob_object object) (t_objects (en_db e)))).

(** ** Maintenance *)

Definition due (now_ms now : N) (r : ObjectRow) : bool :=
  (row_state r =/= "uploading") && (or_busy_until r <=? now)
  && ((row_state r === "deleting") || (ob_expires (or_object r) <=? now_ms)).

(** [rows] is the table in the order SQLite scans it. *)
Definition garbage (rows : list ObjectRow) (now : N) : result Error (list Object) :=
  ms ← integer (saturating_mul now 1000);
  n ← integer now;
  mret (or_object <$> take 32 (List.filter (due ms n) rows)).

Definition deleted (object : Object) (e : Engine) : Engine :=
  let t := drop_tokens (en_db e) (ob_space object) (ob_object object) in
  let k := (ob_space object, ob_object object) in
  with_db e (set_objects t
    (match t_objects t !! k with
     | Some r => if row_state r =/= "uploading" then delete k (t_objects t) else t_objects t
     | None => t_objects t
     end)).

(** A provider generation that an object or the enabled settings still use. *)
Definition object_uses (t : Tables) (k : string * N) : bool :=
  bool_decide (map_Exists (λ (o : string * string) r, o.1 = k.1 ∧ ob_revision (or_object r) = k.2)
                 (t_objects t)).
Definition settings_use (t : Tables) (k : string * N) : bool :=
  match t_settings t !! k.1 with
  | Some s => (st_provider_revision s =? k.2) && st_enabled s
  | None => false
  end.
Definition provider_used (t : Tables) (k : string * N) : bool := object_uses t k || settings_use t k.

Definition prune_receipts (since : N) (t : Tables) : Tables :=
  set_receipts t (filter (λ kv, since ≤ rr_expires kv.2) (t_receipts t)).
Definition prune_tokens (now : N) (t : Tables) : Tables :=
  set_tokens t (filter (λ kv, now < tk_expires kv.2) (t_tokens t)).
Definition prune_registrations (day : N) (t : Tables) : Tables :=
  set_registrations t (filter (λ kv, day ≤ kv.1.2) (t_registrations t)).
Definition prune_providers (t : Tables) : Tables :=
  set_providers t (filter (λ kv, provider_used t kv.1 = true) (t_providers t)).

(** Four statements of their own; a failing conversion stops before its own. *)
Definition prune (now : N) (e : Engine) : Engine * result Error unit :=
  match integer (saturating_sub now 60) with
  | Err x => (e, Err x)
  | Ok since =>
      let e := with_db e (prune_receipts since (en_db e)) in
      match integer now, integer (now / 86400) with
      | Ok n, Ok day =>
          (with_db e (prune_providers (prune_registrations day (prune_tokens n (en_db e)))), Ok tt)
      | Ok n, Err x => (with_db e (prune_tokens n (en_db e)), Err x)
      | Err x, _ => (e, Err x)
      end
  end.

End StorageEngine.
