(* ===== verification/StorageService.v ===== *)
(** * The storage service around its engine (crates/elo-storage/src/server.rs, freshness.rs)

    What the server admits, where it takes the engine's lock, and everything that can happen
    between: requests verified off the lock, witness leases, uploads that stream to the
    provider, maintenance, and restarts. The provider is the set of blobs it holds. *)

From S2P Require Import Prelude Platform Ids Record Chat Identity AuthorityData AuthorityWitness Authority AuthorityProof WitnessWire Attachments StorageWire StorageEngine.

(** ** Admission by source *)

Definition COMMANDS_PER_SOURCE : N := 2.
Definition MAX_COMMAND_SOURCES : N := 4096.

(** [CommandSources::acquire], and the drop of the permit it returns. *)
Definition acquire (ip : IpAddr) (active : gmap IpAddr N) : result Error (gmap IpAddr N) :=
  let network := source_network ip in
  let n := default 0 (active !! network) in
  _ ← fail_if ((COMMANDS_PER_SOURCE <=? n)
               || ((MAX_COMMAND_SOURCES <=? N.of_nat (size active))
                   && bool_decide (active !! network = None))) Limit;
  mret (<[network := n + 1]> active).
Definition release (ip : IpAddr) (active : gmap IpAddr N) : gmap IpAddr N :=
  let network := source_network ip in
  match active !! network with
  | Some n => if n - 1 =? 0 then delete network active else <[network := n - 1]> active
  | None => active
  end.

(** [Service::rate]: a window's start and its count. *)
Definition in_window (now : N) (kv : IpAddr * (N * N)) : Prop := saturating_sub now kv.2.1 < 60.
#[global] Instance in_window_dec now kv : Decision (in_window now kv).
Proof. unfold in_window. apply _. Defined.
Definition rate (ip : IpAddr) (now : N) (rates : gmap IpAddr (N * N))
    : gmap IpAddr (N * N) * result Error unit :=
  let ip := source_network ip in
  let rates := filter (in_window now) rates in
  if (4096 <=? N.of_nat (size rates)) && bool_decide (rates !! ip = None) then (rates, Err Limit)
  else
    let w := default (now, 0) (rates !! ip) in
    if 120 <=? w.2 then (<[ip := w]> rates, Err Limit)
    else (<[ip := (w.1, w.2 + 1)]> rates, Ok tt).

(** [Service::source_ip]; [header] is [x-real-ip], parsed. *)
Definition source_ip (trusted_loopback_proxy : bool) (peer : IpAddr) (header : option IpAddr)
    : result Error IpAddr :=
  if trusted_loopback_proxy && is_loopback peer then ok_or header Invalid else Ok peer.

Record ManagedStorage := { ms_provider : ProviderConfig; ms_allowed_owners : list IdentityId }.
Definition managed_ok (m : ManagedStorage) : result Error unit :=
  _ ← authorized_or (provider_validate (ms_provider m));
  fail_if (1024 <? nlen (ms_allowed_owners m)) Invalid.

(** ** Transfer streams *)

(** The body wrapper of [upload]: the bytes seen, those it passed on and hashed, and whether
    it failed on too many. *)
Fixpoint forward (expected seen : N) (chunks : list string) : N * string * bool :=
  match chunks with
  | [] => (seen, "", false)
  | c :: chunks =>
      let seen := saturating_add seen (slen c) in
      if expected <? seen then (seen, "", true)
      else let r := forward expected seen chunks in (r.1.1, c +:+ r.1.2, r.2)
  end.

(** The body of [download]: what the client receives, up to the first error; [None] is a
    provider error or a timeout. *)
Fixpoint deliver (expected seen : N) (stream : list (option string)) : list (result string string) :=
  match stream with
  | [] => if seen =? expected then [] else [Err "Attachment ended early."]
  | None :: _ => [Err "Attachment stream failed."]
  | Some c :: stream =>
      let next := saturating_add seen (slen c) in
      if expected <? next then [Err "Attachment size mismatch."]
      else Ok c :: deliver expected next stream
  end.

(** ** Scopes, cached leases and the provider's blobs *)

Abbreviation Scope := (SpaceId * StreamId)%type (only parsing).
Abbreviation Cache := (gmap Scope VerifiedFreshness) (only parsing).
Abbreviation Blobs := (gmap (ProviderConfig * (string * string)) string) (only parsing).

Section StorageService.
Context `{P : Platform} {S : AuthoritySerde} {W : WitnessSerde} {X : ProtocolSerde}.
Context `{C : Crypto} {B : StorageSerde}.

(** [ManagedStorage::for_command] and its use in [command] *)
Definition for_command (m : ManagedStorage) (v : Verified) : result Error ProviderConfig :=
  let id := sm_credential_id (ve_command v) in
  device ← authorized_or (credential (ve_authority v) id);
  _ ← fail_if (negb (can_manage (ve_authority v) id)
               || negb (contains (ms_allowed_owners m) (vc_identity device))) Unauthorized;
  mret (ms_provider m).
Definition managed_for (m : option ManagedStorage) (v : Verified)
    : result Error (option ProviderConfig) :=
  match sm_operation (ve_command v) with
  | ConfigureManaged _ _ => m ← ok_or m Unauthorized; p ← for_command m v; mret (Some p)
  | _ => Ok None
  end.

(** [valid] of an upload: exactly the announced bytes, with the announced hash. *)
Definition upload_valid (o : Object) (r : N * string * bool) : bool :=
  negb r.2 && (r.1.1 =? ob_size o) && (encode_hex (sha256 r.1.2) === ob_hash o).

(** ** Witness leases (freshness.rs) *)

Definition scope_le (p q : Scope * VerifiedFreshness) : Prop :=
  String.le (p.1.1 +:+ p.1.2) (q.1.1 +:+ q.1.2).
#[global] Instance scope_le_dec p q : Decision (scope_le p q).
Proof. unfold scope_le. apply _. Defined.

(** The cached lease, while it names the head and the engine accepts it. *)
Definition cached_lease (cache : Cache) (e : Engine) (scope : Scope) (head_ : RecordId)
    (instant now_ms : N) : option VerifiedFreshness :=
  f ← cache !! scope;
  if (fr_authority_head (vf_body f) === head_) && is_ok (check_witness e f instant now_ms)
  then Some f else None.

(** [pop_first] of the least scope, when the cache is full. *)
Definition make_room (cache : Cache) (scope : Scope) : Cache :=
  if (128 <=? N.of_nat (size cache)) && bool_decide (cache !! scope = None) then
    match merge_sort scope_le (map_to_list cache) with
    | kv :: _ => delete kv.1 cache
    | [] => cache
    end
  else cache.
Definition cache_lease (cache : Cache) (scope : Scope) (f : VerifiedFreshness)
    (instant now_ms : N) : Cache :=
  let cache := filter (λ kv, freshness_is_valid kv.2 instant now_ms = true) cache in
  <[scope := f]> (make_room cache scope).

(** What [require] does with the witness's answer: the engine observes its position, the
    cache keeps it, and it must name the head. *)
Definition fetched_lease (pin : WitnessPin) (r : HeadRequest) (encoded : string)
    (requested_at : N) (floor : option Position) (head_ : RecordId) (instant now_ms : N)
    (cache : Cache) (e : Engine) : Cache * Engine * result Error VerifiedFreshness :=
  match authorized_or (verify_freshness pin r encoded requested_at instant now_ms floor) with
  | Err x => (cache, e, Err x)
  | Ok f =>
      match observe_witness e f instant now_ms with
      | Err x => (cache, e, Err x)
      | Ok e =>
          let cache := cache_lease cache (hr_space_id r, hr_stream_id r) f instant now_ms in
          (cache, e, if fr_authority_head (vf_body f) === head_ then Ok f else Err Unauthorized)
      end
  end.

(** ** Critical sections *)

(** The end of [command]: the lease is checked and the command applied under one lock. *)
Definition apply_section (f : VerifiedFreshness) (v : Verified) (ip : IpAddr)
    (managed : option ProviderConfig) (draw : option string) (instant now_ms now_ms' : N)
    (e : Engine) : result Error (Engine * Response) :=
  _ ← check_witness e f instant now_ms;
  apply_with_managed v ip (now_ms' / 1000) managed draw e.

(** The end of [Service::claim]: [target] is what the token named before the lease. *)
Definition claim_section (target : SpaceId * StreamId * RecordId) (f : VerifiedFreshness)
    (object : AttachmentObjectId) (tok action : string) (instant now_ms now_ms' : N)
    (e : Engine) : result Error (Engine * Object) :=
  _ ← check_witness e f instant now_ms;
  again ← token_target e object tok action (now_ms' / 1000);
  _ ← fail_if (again =/= target) Unauthorized;
  claim object tok action (now_ms' / 1000) e.

(** [Service::new] on an opened engine, and [with_managed_storage] *)
Definition start (t : Tables) (key aud : string) (max_spaces : N) (pin : WitnessPin)
    (managed : option ManagedStorage) : result Error Engine :=
  e ← open t key aud max_spaces;
  _ ← authorized_or (pin_validate pin);
  e ← pin_witness e pin;
  _ ← match managed with Some m => managed_ok m | None => Ok tt end;
  mret e.

(** [Service::maintain] without interruption: which of the listed blobs the provider
    deleted is the argument [delete_ok]. *)
Definition maintain_object (delete_ok : Object → bool) (e : Engine) (o : Object) : Engine :=
  if is_ok (provider e (ob_space o) (ob_revision o)) && delete_ok o then deleted o e else e.
Definition maintain (rows : list ObjectRow) (delete_ok : Object → bool) (now : N) (e : Engine)
    : Engine :=
  match garbage rows now with
  | Err _ => e
  | Ok os => (prune now (fold_left (maintain_object delete_ok) os e)).1
  end.

(** ** The service as it runs *)

(** An upload between its claim and the end of its handler: the provider opened for it, and
    whether its put has succeeded with a valid body. *)
Record Upload := {
  up_object : Object; up_provider : option ProviderConfig; up_stored : bool;
}.
Definition object_key (o : Object) : string * string := (ob_space o, ob_object o).

Record World := {
  wo_engine : Engine;
  wo_pin : WitnessPin;
  wo_managed : option ManagedStorage;
  wo_verified : list Verified;
  wo_cache : Cache;
  wo_leases : list (Scope * RecordId * VerifiedFreshness);
  wo_uploads : list Upload;
  (** The objects this round of maintenance has still to delete; the flag of the first is
      set once the provider has deleted its blob. *)
  wo_garbage : list (Object * bool);
  wo_blobs : Blobs;
}.
Definition upd_engine (w : World) (e : Engine) : World :=
  {| wo_engine := e; wo_pin := wo_pin w; wo_managed := wo_managed w;
     wo_verified := wo_verified w; wo_cache := wo_cache w; wo_leases := wo_leases w;
     wo_uploads := wo_uploads w; wo_garbage := wo_garbage w; wo_blobs := wo_blobs w |}.
Definition upd_uploads (w : World) (e : Engine) (us : list Upload) (bs : Blobs) : World :=
  {| wo_engine := e; wo_pin := wo_pin w; wo_managed := wo_managed w;
     wo_verified := wo_verified w; wo_cache := wo_cache w; wo_leases := wo_leases w;
     wo_uploads := us; wo_garbage := wo_garbage w; wo_blobs := bs |}.
Definition upd_garbage (w : World) (e : Engine) (g : list (Object * bool)) (bs : Blobs) : World :=
  {| wo_engine := e; wo_pin := wo_pin w; wo_managed := wo_managed w;
     wo_verified := wo_verified w; wo_cache := wo_cache w; wo_leases := wo_leases w;
     wo_uploads := wo_uploads w; wo_garbage := g; wo_blobs := bs |}.
Definition upd_leases (w : World) (e : Engine) (cache : Cache)
    (ls : list (Scope * RecordId * VerifiedFreshness)) : World :=
  {| wo_engine := e; wo_pin := wo_pin w; wo_managed := wo_managed w;
     wo_verified := wo_verified w; wo_cache := cache; wo_leases := ls;
     wo_uploads := wo_uploads w; wo_garbage := wo_garbage w; wo_blobs := wo_blobs w |}.
Definition upd_verified (w : World) (v : Verified) : World :=
  {| wo_engine := wo_engine w; wo_pin := wo_pin w; wo_managed := wo_managed w;
     wo_verified := v :: wo_verified w; wo_cache := wo_cache w; wo_leases := wo_leases w;
     wo_uploads := wo_uploads w; wo_garbage := wo_garbage w; wo_blobs := wo_blobs w |}.

Definition blob_key (p : ProviderConfig) (o : Object) : ProviderConfig * (string * string) :=
  (p, object_key o).
(** A write whose outcome is unknown, or a delete. *)
Definition set_blob (k : ProviderConfig * (string * string)) (b : option string) (bs : Blobs)
    : Blobs := partial_alter (λ _, b) k bs.

Definition add_lease (r : result Error VerifiedFreshness) (scope : Scope) (head_ : RecordId)
    (ls : list (Scope * RecordId * VerifiedFreshness)) :=
  match r with Ok f => (scope, head_, f) :: ls | Err _ => ls end.

Definition command_scope (v : Verified) : Scope * RecordId :=
  let c := ve_command v in (sm_space_id c, sm_stream_id c, sm_config_id c).

(** One critical section or one action of a handler, begun at [t] and over by [t'], both in
    milliseconds. Instants are arbitrary. *)
Inductive storage_step (t t' : N) (w : World) : World → Prop :=
| storage_receive request v :
    verify request (en_audience (wo_engine w)) (t / 1000) (wo_pin w) = Ok v →
    storage_step t t' w (upd_verified w v)
| storage_cached scope head_ f instant :
    cached_lease (wo_cache w) (wo_engine w) scope head_ instant t = Some f →
    storage_step t t' w
      (upd_leases w (wo_engine w) (wo_cache w) ((scope, head_, f) :: wo_leases w))
| storage_fetched r encoded requested_at floor head_ instant :
    let res := fetched_lease (wo_pin w) r encoded requested_at floor head_ instant t
                 (wo_cache w) (wo_engine w) in
    storage_step t t' w
      (upd_leases w res.1.2 res.1.1
         (add_lease res.2 (hr_space_id r, hr_stream_id r) head_ (wo_leases w)))
| storage_apply v f ip managed draw instant e r :
    v ∈ wo_verified w → (command_scope v, f) ∈ wo_leases w →
    managed_for (wo_managed w) v = Ok managed →
    (∀ d, draw = Some d → slen d = 24) →
    apply_section f v ip managed draw instant t t' (wo_engine w) = Ok (e, r) →
    storage_step t t' w (upd_engine w e)
| storage_download target f object tok instant e o :
    (target, f) ∈ wo_leases w →
    claim_section target f object tok "download" instant t t' (wo_engine w) = Ok (e, o) →
    storage_step t t' w (upd_engine w e)
| storage_upload target f object tok instant e o :
    (target, f) ∈ wo_leases w → nlen (wo_uploads w) < 8 →
    claim_section target f object tok "upload" instant t t' (wo_engine w) = Ok (e, o) →
    storage_step t t' w
      (upd_uploads w e ({| up_object := o; up_provider := None; up_stored := false |}
                          :: wo_uploads w) (wo_blobs w))
| storage_open us1 us2 o p :
    wo_uploads w = us1 ++ {| up_object := o; up_provider := None; up_stored := false |} :: us2 →
    provider (wo_engine w) (ob_space o) (ob_revision o) = Ok p →
    storage_step t t' w
      (upd_uploads w (wo_engine w)
         (us1 ++ {| up_object := o; up_provider := Some p; up_stored := false |} :: us2)
         (wo_blobs w))
| storage_put us1 us2 o p chunks :
    wo_uploads w = us1 ++ {| up_object := o; up_provider := Some p; up_stored := false |} :: us2 →
    let r := forward (ob_size o) 0 chunks in
    upload_valid o r = true →
    storage_step t t' w
      (upd_uploads w (wo_engine w)
         (us1 ++ {| up_object := o; up_provider := Some p; up_stored := true |} :: us2)
         (set_blob (blob_key p o) (Some r.1.2) (wo_blobs w)))
| storage_uploaded us1 us2 o p :
    wo_uploads w = us1 ++ {| up_object := o; up_provider := Some p; up_stored := true |} :: us2 →
    storage_step t t' w
      (upd_uploads w (uploaded o true (wo_engine w)) (us1 ++ us2) (wo_blobs w))
| storage_failed us1 us2 u bs :
    wo_uploads w = us1 ++ u :: us2 →
    match up_provider u with
    | Some p => ∃ b, bs = set_blob (blob_key p (up_object u)) b (wo_blobs w)
    | None => bs = wo_blobs w
    end →
    storage_step t t' w
      (upd_uploads w (uploaded (up_object u) false (wo_engine w)) (us1 ++ us2) bs)
| storage_garbage rows os :
    wo_garbage w = [] → rows ≡ₚ (map_to_list (t_objects (en_db (wo_engine w)))).*2 →
    garbage rows (t / 1000) = Ok os →
    storage_step t t' w
      (upd_garbage w (wo_engine w) ((λ o, (o, false)) <$> os) (wo_blobs w))
| storage_delete o p g :
    wo_garbage w = (o, false) :: g →
    provider (wo_engine w) (ob_space o) (ob_revision o) = Ok p →
    storage_step t t' w
      (upd_garbage w (wo_engine w) ((o, true) :: g)
         (set_blob (blob_key p o) None (wo_blobs w)))
| storage_deleted o g :
    wo_garbage w = (o, true) :: g →
    storage_step t t' w (upd_garbage w (deleted o (wo_engine w)) g (wo_blobs w))
| storage_skip o c g bs :
    wo_garbage w = (o, c) :: g →
    (bs = wo_blobs w
     ∨ ∃ p, provider (wo_engine w) (ob_space o) (ob_revision o) = Ok p
            ∧ bs = set_blob (blob_key p o) None (wo_blobs w)) →
    storage_step t t' w (upd_garbage w (wo_engine w) g bs)
| storage_break :
    storage_step t t' w (upd_garbage w (wo_engine w) [] (wo_blobs w))
| storage_prune :
    wo_garbage w = [] →
    storage_step t t' w (upd_engine w (prune (t / 1000) (wo_engine w)).1)
| storage_restart aud max_spaces pin managed e :
    start (en_db (wo_engine w)) (en_key (wo_engine w)) aud max_spaces pin managed = Ok e →
    storage_step t t' w
      {| wo_engine := e; wo_pin := pin; wo_managed := managed; wo_verified := [];
         wo_cache := ∅; wo_leases := []; wo_uploads := []; wo_garbage := [];
         wo_blobs := wo_blobs w |}.

(** A run under a clock that never goes back. *)
Inductive storage_run (t0 : N) (w0 : World) : N → World → Prop :=
| srun_start : storage_run t0 w0 t0 w0
| srun_next t w t1 t2 w' :
    storage_run t0 w0 t w → t ≤ t1 → t1 ≤ t2 → t2 ≤ u64_max → storage_step t1 t2 w w' →
    storage_run t0 w0 t2 w'.

(** A service started on an empty database. *)
Definition fresh_world (key aud : string) (max_spaces : N) (pin : WitnessPin)
    (managed : option ManagedStorage) (blobs : Blobs) : result Error World :=
  e ← start no_tables key aud max_spaces pin managed;
  mret {| wo_engine := e; wo_pin := pin; wo_managed := managed; wo_verified := [];
          wo_cache := ∅; wo_leases := []; wo_uploads := []; wo_garbage := [];
          wo_blobs := blobs |}.

Inductive serving : N → World → Prop :=
| serving_run key aud max_spaces pin managed blobs w0 t0 t w :
    fresh_world key aud max_spaces pin managed blobs = Ok w0 → t0 ≤ u64_max →
    storage_run t0 w0 t w → serving t w.

End StorageService.
