(* ===== verification/StorageFacts.v ===== *)
(** * Facts about the storage engine

    What every operation of the engine does to its tables, and the invariants they keep. *)

From S2P Require Import Prelude Sums Platform Ids Record Chat Identity AuthorityData AuthorityWitness Authority AuthorityProof WitnessWire Attachments StorageWire StorageEngine.

Lemma integer_Ok n x : integer n = Ok x ↔ x = n ∧ n < 9223372036854775808.
Proof. unfold integer. destruct (N.ltb_spec n 9223372036854775808); naive_solver lia. Qed.
Lemma sql_insert_Ok `{Countable K} {V} (k : K) (v : V) m m' :
  sql_insert k v m = Ok m' ↔ m !! k = None ∧ m' = <[k := v]> m.
Proof. unfold sql_insert. destruct (m !! k); naive_solver. Qed.
Lemma authorized_or_Ok {A} (r : result RecordError A) a : authorized_or r = Ok a ↔ r = Ok a.
Proof. apply map_err_Ok. Qed.

(** ** Rows *)

Definition states : list string := ["pending"; "uploading"; "uploaded"; "complete"; "deleting"].

(** Everything but the state and the grace period. *)
Definition same_object (r r' : ObjectRow) : Prop :=
  or_object r' = set_state (or_object r) (row_state r').

Record row_wf (k : string * string) (r : ObjectRow) : Prop := {
  rw_key : k = (ob_space (or_object r), ob_object (or_object r));
  rw_state : row_state r ∈ states;
  rw_size : 1 ≤ ob_size (or_object r) ≤ encrypted_size MAX_ATTACHMENT_FILE_SIZE;
}.

(** The life of an object. *)
Inductive state_edge : string → string → Prop :=
| edge_claim : state_edge "pending" "uploading"
| edge_uploaded : state_edge "uploading" "uploaded"
| edge_failed : state_edge "uploading" "deleting"
| edge_complete : state_edge "uploaded" "complete"
| edge_completed : state_edge "complete" "complete"
| edge_cancel s : s ∈ ["pending"; "uploaded"; "deleting"] → state_edge s "deleting".

(** Gone for good: to be deleted, or past its deadline. *)
Definition over (now : N) (r : ObjectRow) : Prop :=
  row_state r = "deleting" ∨ row_state r ≠ "uploading" ∧ ob_expires (or_object r) ≤ now.

Abbreviation Objects := (gmap (string * string) ObjectRow) (only parsing).
Definition objects_in (m : Objects) (space : string) : Objects := filter (in_space space) m.
Definition bytes_in (m : Objects) (space : string) : N :=
  sum_over (λ _ r, ob_size (or_object r)) (objects_in m space).

(** What one step may do to the objects at [now] milliseconds. *)
Inductive objects_step (now : N) (m : Objects) : Objects → Prop :=
| objects_keep : objects_step now m m
| objects_reserve k r :
    m !! k = None → row_wf k r → row_state r = "pending" →
    bytes_in m k.1 + ob_size (or_object r) ≤ MAX_SPACE_ATTACHMENT_STORAGE →
    (size (objects_in m k.1) < 1024)%nat →
    objects_step now m (<[k := r]> m)
| objects_move k r r' :
    m !! k = Some r → same_object r r' → state_edge (row_state r) (row_state r') →
    (row_state r' = "uploading" → now < ob_expires (or_object r)) →
    objects_step now m (<[k := r']> m)
| objects_remove k r :
    m !! k = Some r → over now r → objects_step now m (delete k m)
| objects_interrupt : objects_step now m (interrupt <$> m).

Lemma same_object_refl r : same_object r r.
Proof. unfold same_object. by destruct r as [[] ?]. Qed.
Lemma same_object_trans r1 r2 r3 : same_object r1 r2 → same_object r2 r3 → same_object r1 r3.
Proof. unfold same_object. intros H1 H2. rewrite H2, H1. by destruct r1 as [[] ?]. Qed.

Lemma same_object_fields r r' : same_object r r' →
  ob_space (or_object r') = ob_space (or_object r)
  ∧ ob_object (or_object r') = ob_object (or_object r)
  ∧ ob_revision (or_object r') = ob_revision (or_object r)
  ∧ ob_size (or_object r') = ob_size (or_object r)
  ∧ ob_hash (or_object r') = ob_hash (or_object r)
  ∧ ob_expires (or_object r') = ob_expires (or_object r).
Proof. unfold same_object. intros ->. done. Qed.

Lemma state_edge_states s s' : state_edge s s' → s' ∈ states.
Proof. unfold states. intros []; set_solver. Qed.

Lemma row_wf_same k r r' :
  row_wf k r → same_object r r' → row_state r' ∈ states → row_wf k r'.
Proof.
  intros [H1 H2 H3] Hs Hst. destruct (same_object_fields _ _ Hs) as (E1 & E2 & E3 & E4 & E5 & E6).
  split; [by rewrite E1, E2|done|by rewrite E4].
Qed.

Lemma interrupt_same r : same_object r (interrupt r).
Proof.
  unfold interrupt. case_bool_decide; [|apply same_object_refl]. by destruct r as [[] ?].
Qed.
Lemma interrupt_state r :
  row_state (interrupt r) = if row_state r === "uploading" then "deleting" else row_state r.
Proof. unfold interrupt. by case_bool_decide. Qed.

(** ** One object under a step *)

Inductive object_step (now : N) : option ObjectRow → option ObjectRow → Prop :=
| object_same x : object_step now x x
| object_reserved k r : row_wf k r → row_state r = "pending" → object_step now None (Some r)
| object_moved r r' :
    same_object r r' → state_edge (row_state r) (row_state r') →
    (row_state r' = "uploading" → now < ob_expires (or_object r)) →
    object_step now (Some r) (Some r')
| object_removed r : over now r → object_step now (Some r) None.

Lemma objects_step_at now m m' k : objects_step now m m' → object_step now (m !! k) (m' !! k).
Proof.
  intros [|k2 r Hk Hwf Hst _ _|k2 r r' Hk Hs He Hc|k2 r Hk Ho|].
  - constructor.
  - destruct (decide (k2 = k)) as [->|]; [|rewrite lookup_insert_ne by done; constructor].
    rewrite lookup_insert_eq, Hk. by eapply object_reserved.
  - destruct (decide (k2 = k)) as [->|]; [|rewrite lookup_insert_ne by done; constructor].
    rewrite lookup_insert_eq, Hk. by apply object_moved.
  - destruct (decide (k2 = k)) as [->|]; [|rewrite lookup_delete_ne by done; constructor].
    rewrite lookup_delete_eq, Hk. by apply object_removed.
  - rewrite lookup_fmap. destruct (m !! k) as [r|] eqn:Hr; cbn [fmap option_fmap option_map];
      [|constructor].
    destruct (decide (row_state r = "uploading")) as [Hu|Hu].
    + apply object_moved; [apply interrupt_same| |]; rewrite interrupt_state;
        rewrite bool_decide_eq_true_2 by done; [rewrite Hu; constructor|done].
    + unfold interrupt. rewrite bool_decide_eq_false_2 by done. constructor.
Qed.

(** Objects only shrink, except where one is reserved. *)
Lemma shrink_bytes (m m' : Objects) s :
  (∀ k r', m' !! k = Some r' → ∃ r, m !! k = Some r ∧ same_object r r') →
  bytes_in m' s ≤ bytes_in m s ∧ (size (objects_in m' s) ≤ size (objects_in m s))%nat.
Proof.
  intros Hm.
  assert (∀ k r', objects_in m' s !! k = Some r' →
          ∃ r, objects_in m s !! k = Some r ∧ same_object r r') as Hin.
  { intros k r' [H1 H2]%map_lookup_filter_Some. destruct (Hm k r' H1) as (r & Hr & Hs).
    exists r. split; [|done]. by apply map_lookup_filter_Some. }
  split.
  - apply sum_over_le. intros k r' Hk. destruct (Hin k r' Hk) as (r & Hr & Hs).
    exists r. split; [done|]. destruct (same_object_fields _ _ Hs) as (_ & _ & _ & -> & _). lia.
  - apply size_le. intros k r' Hk. destruct (Hin k r' Hk) as (r & Hr & _). eauto.
Qed.

Lemma not_reserve_shrinks now m m' :
  objects_step now m m' →
  (∀ k r', m' !! k = Some r' → ∃ r, m !! k = Some r ∧ same_object r r')
  ∨ ∃ k r, m !! k = None ∧ row_wf k r ∧ row_state r = "pending" ∧ m' = <[k := r]> m
      ∧ bytes_in m k.1 + ob_size (or_object r) ≤ MAX_SPACE_ATTACHMENT_STORAGE
      ∧ (size (objects_in m k.1) < 1024)%nat.
Proof.
  intros H. pose proof (λ k, objects_step_at now m m' k H) as Hat.
  destruct H as [|k r Hk Hwf Hst Hb Hc|k2 r2 r2' Hk2 Hs2 He2 Hc2|k2 r2 Hk2 Ho2|]; [| |left|left|left].
  - left. intros k r' Hk. exists r'. split; [done|apply same_object_refl].
  - right. exists k, r. done.
  - intros k r' Hk. destruct (decide (k2 = k)) as [->|Hne].
    + rewrite lookup_insert_eq in Hk. injection Hk as <-. eauto.
    + rewrite lookup_insert_ne in Hk by done. exists r'. split; [done|apply same_object_refl].
  - intros k r' Hk. apply lookup_delete_Some in Hk as [_ Hk].
    exists r'. split; [done|apply same_object_refl].
  - intros k r' Hk. rewrite lookup_fmap in Hk. apply fmap_Some in Hk as (r & Hr & ->).
    exists r. split; [done|apply interrupt_same].
Qed.

(** ** Invariants of the tables *)

Section StorageFacts.
Context `{P : Platform} {S : AuthoritySerde} {W : WitnessSerde} {X : ProtocolSerde}.
Context `{C : Crypto} {B : StorageSerde}.

(** A sealed provider generation opens to a provider. *)
Definition opens (key space : string) (rev : N) (secret : string) (p : ProviderConfig) : Prop :=
  40 ≤ slen secret ∧ ∃ plain,
    aead_decrypt key (stake 24 secret) (secret_aad space rev) (sdrop 24 secret) = Some plain
    ∧ from_json plain = Some p.

(** What a token's object must look like. *)
Definition token_state (action state : string) : Prop :=
  action = "upload" ∧ state = "pending" ∨ action = "download" ∧ state = "complete".
Definition token_key (r : TokenRow) : string * string := (tk_space r, tk_object r).

Record objects_wf (m : Objects) : Prop := {
  ow_rows k r : m !! k = Some r → row_wf k r;
  ow_quota s : bytes_in m s ≤ MAX_SPACE_ATTACHMENT_STORAGE
               ∧ (size (objects_in m s) ≤ 1024)%nat;
}.

Record providers_wf (key : string) (t : Tables) : Prop := {
  pw_generations s : generations t s ≤ 32;
  pw_secrets k x : t_providers t !! k = Some x →
    k.2 < 9223372036854775808 ∧ ∃ p, opens key k.1 k.2 x p;
  pw_objects k r : t_objects t !! k = Some r →
    is_Some (t_providers t !! (k.1, ob_revision (or_object r)));
  pw_settings s r : t_settings t !! s = Some r → st_enabled r = true →
    is_Some (t_providers t !! (s, st_provider_revision r));
}.

Record tokens_wf (tokens : gmap string TokenRow) (m : Objects) : Prop := {
  kw_object h r : tokens !! h = Some r →
    ∃ o, m !! token_key r = Some o ∧ token_state (tk_action r) (row_state o);
  kw_upload h h' r r' : tokens !! h = Some r → tokens !! h' = Some r' →
    tk_action r = "upload" → tk_action r' = "upload" → token_key r = token_key r' → h = h';
}.

Record tables_wf (key : string) (t : Tables) : Prop := {
  tw_objects : objects_wf (t_objects t);
  tw_providers : providers_wf key t;
  tw_tokens : tokens_wf (t_tokens t) (t_objects t);
}.

Lemma objects_in_insert (m : Objects) k r s :
  m !! k = None →
  objects_in (<[k := r]> m) s = if decide (k.1 = s) then <[k := r]> (objects_in m s) else objects_in m s.
Proof.
  intros Hk. unfold objects_in. case_decide as Hs.
  - by rewrite map_filter_insert_True.
  - by rewrite map_filter_insert_False, delete_id.
Qed.

Lemma objects_wf_step now m m' : objects_step now m m' → objects_wf m → objects_wf m'.
Proof.
  intros Hstep [Hr Hq]. split.
  - intros k r' Hk. pose proof (objects_step_at now m m' k Hstep) as Hat. rewrite Hk in Hat.
    inversion Hat as [x Hx Hx'|k2 r Hwf Hst|r r2 Hs He Hc Heq1 Heq2|]; subst.
    + apply Hr. congruence.
    + destruct (not_reserve_shrinks _ _ _ Hstep) as [Hsh|(k3 & r3 & Hn & Hwf3 & _ & -> & _)].
      * destruct (Hsh k r' Hk) as (r & Hr2 & _). congruence.
      * destruct (decide (k3 = k)) as [->|Hne]; [by rewrite lookup_insert_eq in Hk; simplify_eq|].
        rewrite lookup_insert_ne in Hk by done. congruence.
    + eapply row_wf_same; [by apply Hr|done|by eapply state_edge_states].
  - intros s. destruct (not_reserve_shrinks _ _ _ Hstep) as [Hsh|(k & r & Hn & _ & _ & -> & Hb & Hc)].
    + destruct (shrink_bytes m m' s Hsh). destruct (Hq s). lia.
    + destruct (Hq s) as [Hq1 Hq2]. unfold bytes_in in *. rewrite !objects_in_insert by done.
      case_decide as Hks; [subst s|done].
      assert (objects_in m k.1 !! k = None) as Hn2 by (by apply map_lookup_filter_None; left).
      rewrite sum_over_insert, map_size_insert_None by done. lia.
Qed.

(** The providers an operation needs remain. *)
Lemma providers_wf_grow key t t' :
  providers_wf key t →
  (∀ s, generations t' s ≤ 32) →
  (∀ k x, t_providers t' !! k = Some x →
     t_providers t !! k = Some x ∨ k.2 < 9223372036854775808 ∧ ∃ p, opens key k.1 k.2 x p) →
  (∀ k r', t_objects t' !! k = Some r' →
     is_Some (t_providers t' !! (k.1, ob_revision (or_object r')))) →
  (∀ s r', t_settings t' !! s = Some r' → st_enabled r' = true →
     is_Some (t_providers t' !! (s, st_provider_revision r'))) →
  providers_wf key t'.
Proof.
  intros [H1 H2 H3 H4] Hg Hp Ho Hs. split; [done| |done|done].
  intros k x Hk. destruct (Hp k x Hk) as [Hold|Hnew]; [by apply H2|done].
Qed.

(** Providers stay, objects shrink or use the enabled settings' provider. *)
Lemma providers_wf_keep key t t' :
  providers_wf key t → t_providers t' = t_providers t →
  (∀ k r', t_objects t' !! k = Some r' →
     (∃ r, t_objects t !! k = Some r ∧ ob_revision (or_object r') = ob_revision (or_object r))
     ∨ is_Some (t_providers t !! (k.1, ob_revision (or_object r')))) →
  (∀ s r', t_settings t' !! s = Some r' → st_enabled r' = true →
     ∃ r, t_settings t !! s = Some r ∧ st_enabled r = true
          ∧ st_provider_revision r' = st_provider_revision r) →
  providers_wf key t'.
Proof.
  intros Hwf Hp Ho Hs. apply (providers_wf_grow key t t' Hwf).
  - intros s. unfold generations. rewrite Hp. apply (pw_generations _ _ Hwf).
  - intros k x. rewrite Hp. by left.
  - intros k r' Hk. rewrite Hp. destruct (Ho k r' Hk) as [(r & Hr & ->)|H]; [|done].
    by eapply pw_objects.
  - intros s r' Hk He. rewrite Hp. destruct (Hs s r' Hk He) as (r & Hr & Hen & ->).
    by eapply pw_settings.
Qed.
End StorageFacts.

(** * What the storage engine's operations do

    Each operation of a command, exactly: when it succeeds, and the tables it leaves. *)


Section StorageEngineFacts.
Context `{P : Platform} {S : AuthoritySerde} {W : WitnessSerde} {X : ProtocolSerde}.
Context `{C : Crypto} {B : StorageSerde}.

Lemma used_bytes_Ok t s n :
  used_bytes t s = Ok n ↔ n = stored_bytes t s ∧ stored_bytes t s < 9223372036854775808.
Proof.
  unfold used_bytes. cbv zeta. destruct (N.ltb_spec (stored_bytes t s) 9223372036854775808);
    naive_solver lia.
Qed.

Lemma status_response_Ok t s t' r : status_response t s = Ok (t', r) → t' = t.
Proof. unfold status_response. intros H. step H x Hx. by apply Ok_inj, pair_eq in H as [<- _]. Qed.

Lemma reservable_Ok t space rev hours :
  reservable t space = Ok (rev, hours) ↔
  ∃ s, t_settings t !! space = Some s ∧ st_enabled s = true ∧ st_provider_revision s = rev
       ∧ st_retention_hours s = Some hours ∧ retention_choice hours = true.
Proof.
  unfold reservable. destruct (t_settings t !! space) as [[r0 p0 [] rev0 [h|]]|]; cbn.
  1: destruct (retention_choice h) eqn:Hh.
  all: split; [try done; try (intros [= -> ->]; eauto 10)|intros (s & Hs & He & Hr & Hh' & Hc)];
    try done; simplify_eq/=; congruence.
Qed.

Lemma expiry_ms_Some now hours ms :
  expiry_ms now hours = Some ms ↔
  ms = (now + hours * 3600) * 1000 ∧ ms ≤ MAX_EXPIRY_TIMESTAMP_MS.
Proof.
  unfold expiry_ms. split.
  - intros (a & Ha & H)%bind_Some. apply bind_Some in H as (b & Hb & H).
    apply bind_Some in H as (c & Hc & H).
    apply checked_mul_Some in Ha as [-> _]. apply checked_add_Some in Hb as [-> _].
    apply checked_mul_Some in Hc as [-> _].
    destruct (N.leb_spec ((now + hours * 3600) * 1000) MAX_EXPIRY_TIMESTAMP_MS); naive_solver.
  - intros [-> Hle]. assert (MAX_EXPIRY_TIMESTAMP_MS ≤ u64_max) by done.
    rewrite (proj2 (checked_mul_Some hours 3600 (hours * 3600))) by (split; [done|lia]).
    cbn [mbind option_bind].
    rewrite (proj2 (checked_add_Some now _ (now + hours * 3600))) by (split; [done|lia]).
    cbn [mbind option_bind].
    rewrite (proj2 (checked_mul_Some _ 1000 ((now + hours * 3600) * 1000))) by (split; [done|lia]).
    cbn [mbind option_bind]. by rewrite (proj2 (N.leb_le _ _)).
Qed.

Lemma grant_Ok tok row t t' :
  grant tok row t = Ok t' ↔
  tk_expires row < 9223372036854775808 ∧ t_tokens t !! hash tok = None
  ∧ t' = set_tokens t (<[hash tok := row]> (t_tokens t)).
Proof.
  unfold grant. split.
  - intros H. step H x Hx. step H ts Hts. apply Ok_inj in H as <-.
    apply integer_Ok in Hx as [_ Hx]. by apply sql_insert_Ok in Hts as [Hn ->].
  - intros (Hx & Hn & ->). rewrite (proj2 (integer_Ok _ _)) by done. cbn [mbind result_bind].
    by erewrite (proj2 (sql_insert_Ok _ _ _ _)) by (split; [exact Hn|reflexivity]).
Qed.

(** The object and the token a reservation adds. *)
Definition reserved_object (space : string) (c : Command) (id : AttachmentObjectId) (rev size_ : N)
    (sha : string) (ms : N) : ObjectRow :=
  {| or_object := {| ob_space := space; ob_object := display id; ob_revision := rev;
       ob_creator := display (sm_credential_id c); ob_size := size_; ob_hash := sha;
       ob_expires := ms; ob_state := "pending" |}; or_busy_until := 0 |}.
Definition token_expiry (now ms : N) : N := N.min (saturating_add now TRANSFER_TTL) (ms / 1000).
Definition token_row (space : string) (c : Command) (id : AttachmentObjectId) (action : string)
    (expires : N) : TokenRow :=
  {| tk_space := space; tk_object := display id; tk_head := display (sm_config_id c);
     tk_action := action; tk_expires := expires |}.

Lemma token_expiry_small now ms :
  ms ≤ MAX_EXPIRY_TIMESTAMP_MS → token_expiry now ms < 9223372036854775808.
Proof.
  intros H. unfold token_expiry.
  assert (ms / 1000 ≤ ms) by (apply N.Div0.div_le_upper_bound; lia).
  assert (MAX_EXPIRY_TIMESTAMP_MS < 9223372036854775808) by done. lia.
Qed.

Lemma do_reserve_Ok space aud tok c id size_ sha now t t' r :
  do_reserve space aud tok c id size_ sha now t = Ok (t', r) ↔
  ∃ rev hours ms,
    reservable t space = Ok (rev, hours) ∧ rev < 9223372036854775808
    ∧ expiry_ms now hours = Some ms
    ∧ stored_bytes t space + size_ ≤ MAX_SPACE_ATTACHMENT_STORAGE
    ∧ (size (space_objects t space) < 1024)%nat
    ∧ t_objects t !! (space, display id) = None
    ∧ t_tokens t !! hash tok = None
    ∧ t' = set_tokens (set_objects t (<[(space, display id) :=
             reserved_object space c id rev size_ sha ms]> (t_objects t)))
             (<[hash tok := token_row space c id "upload" (token_expiry now ms)]> (t_tokens t))
    ∧ r = transfer aud id tok (token_expiry now ms) ms.
Proof.
  unfold do_reserve. split.
  - intros H. step H rh Hrh. step H ms Hms. step H used Hused. step H u1 Hroom. step H u2 Hnew.
    step H rv Hrev. step H bytes Hbytes. step H until Huntil. cbv zeta in H. step H os Hos.
    step H t2 Ht2. apply Ok_inj, pair_eq in H as [<- <-]. destruct rh as [rev0 hours].
    cbn [fst snd] in *. apply ok_or_Ok in Hms. apply used_bytes_Ok in Hused as [-> _].
    apply fail_if_Ok, orb_false_iff in Hroom as [H1 H2]. ordered.
    apply fail_if_Ok, bool_decide_eq_false, eq_None_not_Some in Hnew.
    apply integer_Ok in Hrev as [-> Hrev], Hbytes as [-> _], Huntil as [-> _].
    apply sql_insert_Ok in Hos as [_ ->]. apply grant_Ok in Ht2 as (_ & Htok & ->).
    exists rev0, hours, ms. split_and!; try done; [|lia].
    revert H1. unfold saturating_add. assert (MAX_SPACE_ATTACHMENT_STORAGE < u64_max) by done. lia.
  - intros (rev & hours & ms & Hrh & Hrev & Hms & Hroom & Hcount & Hnew & Htok & -> & ->).
    assert (MAX_SPACE_ATTACHMENT_STORAGE < 9223372036854775808) as Hmax by done.
    assert (ms ≤ MAX_EXPIRY_TIMESTAMP_MS) as Hle by (by apply expiry_ms_Some in Hms as [_ ?]).
    assert (MAX_EXPIRY_TIMESTAMP_MS < 9223372036854775808) as Hmax2 by done.
    rewrite Hrh. cbn [mbind result_bind fst snd]. rewrite Hms. cbn [ok_or mbind result_bind].
    rewrite (proj2 (used_bytes_Ok _ _ (stored_bytes t space))) by (split; [done|lia]).
    cbn [mbind result_bind]. rewrite fail_if_pass.
    2:{ apply orb_false_iff. split; [apply N.ltb_ge; unfold saturating_add; lia|].
        apply N.leb_gt. lia. }
    rewrite fail_if_pass by (by rewrite Hnew).
    rewrite (proj2 (integer_Ok rev rev)) by done. cbn [mbind result_bind].
    rewrite (proj2 (integer_Ok size_ size_)) by (split; [done|lia]). cbn [mbind result_bind].
    rewrite (proj2 (integer_Ok ms ms)) by (split; [done|lia]). cbn [mbind result_bind].
    erewrite (proj2 (sql_insert_Ok _ _ _ _)) by (split; [exact Hnew|reflexivity]).
    cbn [mbind result_bind].
    erewrite (proj2 (grant_Ok _ _ _ _)); [done|].
    split; [by apply token_expiry_small|]. done.
Qed.

Lemma read_object_Ok t space object o :
  read_object t space object = Ok o ↔
  ∃ r, t_objects t !! (space, object) = Some r ∧ or_object r = o.
Proof.
  unfold read_object. rewrite ok_or_Ok. destruct (t_objects t !! (space, object)); naive_solver.
Qed.

Lemma do_complete_Ok space c id now t t' r :
  do_complete space c id now t = Ok (t', r) ↔
  ∃ o, t_objects t !! (space, display id) = Some o
    ∧ ob_creator (or_object o) = display (sm_credential_id c)
    ∧ wrapping_mul now 1000 < ob_expires (or_object o)
    ∧ (row_state o = "uploaded" ∨ row_state o = "complete")
    ∧ t' = set_objects t (<[(space, display id) := set_row_state "complete" o]> (t_objects t))
    ∧ r = RComplete id.
Proof.
  unfold do_complete. split.
  - intros H. step H o Ho. step H u1 H1. step H u2 H2. apply Ok_inj, pair_eq in H as [<- <-].
    apply read_object_Ok in Ho as (r0 & Hr0 & <-). exists r0.
    apply fail_if_Ok, orb_false_iff in H1 as [Hc He]. ordered.
    apply bool_decide_eq_negb_false in Hc. apply fail_if_Ok, andb_false_iff in H2.
    rewrite !bool_decide_eq_negb_false in H2.
    unfold set_object_state. rewrite (alter_Some _ _ _ _ Hr0). done.
  - intros (o & Ho & Hc & He & Hs & -> & ->).
    rewrite (proj2 (read_object_Ok _ _ _ (or_object o))) by eauto. cbn [mbind result_bind].
    rewrite fail_if_pass.
    2:{ apply orb_false_iff. split; [by apply bool_decide_eq_negb_false|by apply N.leb_gt]. }
    rewrite fail_if_pass.
    2:{ apply andb_false_iff. by rewrite !bool_decide_eq_negb_false. }
    unfold set_object_state. by rewrite (alter_Some _ _ _ _ Ho).
Qed.

Lemma do_download_Ok space aud tok c id now t t' r :
  do_download space aud tok c id now t = Ok (t', r) →
  ∃ o, t_objects t !! (space, display id) = Some o ∧ row_state o = "complete"
    ∧ wrapping_mul now 1000 < ob_expires (or_object o)
    ∧ t_tokens t !! hash tok = None
    ∧ t' = set_tokens t (<[hash tok := token_row space c id "download"
                             (token_expiry now (ob_expires (or_object o)))]> (t_tokens t))
    ∧ r = transfer aud id tok (token_expiry now (ob_expires (or_object o)))
            (ob_expires (or_object o)).
Proof.
  unfold do_download. intros H. step H o Ho. step H u1 H1. cbv zeta in H. step H t2 Ht2.
  apply Ok_inj, pair_eq in H as [<- <-]. apply read_object_Ok in Ho as (r0 & Hr0 & <-). exists r0.
  apply fail_if_Ok, orb_false_iff in H1 as [Hc He]. ordered.
  apply bool_decide_eq_negb_false in Hc. apply grant_Ok in Ht2 as (_ & Hn & ->). done.
Qed.

Lemma do_cancel_Ok space c a id t t' r :
  do_cancel space c a id t = Ok (t', r) →
  ∃ o, t_objects t !! (space, display id) = Some o
    ∧ (ob_creator (or_object o) = display (sm_credential_id c)
       ∨ can_manage a (sm_credential_id c) = true)
    ∧ row_state o ≠ "uploading" ∧ row_state o ≠ "complete"
    ∧ t' = drop_tokens (set_objects t (<[(space, display id) := set_row_state "deleting" o]>
                          (t_objects t))) space (display id)
    ∧ r = RCancelled id.
Proof.
  unfold do_cancel. intros H. step H o Ho. step H u1 H1. step H u2 H2.
  apply Ok_inj, pair_eq in H as [<- <-]. apply read_object_Ok in Ho as (r0 & Hr0 & <-). exists r0.
  apply fail_if_Ok, andb_false_iff in H1. rewrite bool_decide_eq_negb_false, negb_false_iff in H1.
  apply fail_if_Ok, orb_false_iff in H2 as [Hu Hc].
  apply bool_decide_eq_false in Hu, Hc.
  unfold set_object_state. rewrite (alter_Some _ _ _ _ Hr0). done.
Qed.

Lemma register_Ok t ip now t' :
  register t ip now = Ok t' → ∃ x, t' = set_registrations t x.
Proof. unfold register. intros H. step H d Hd. apply Ok_inj in H as <-. eauto. Qed.

Lemma do_configure_Ok space cf secret ip now t t' r :
  do_configure space cf secret ip now t = Ok (t', r) →
  generations t space < 32 ∧ cf_revision cf + 1 < 9223372036854775808
  ∧ t_providers t !! (space, cf_revision cf + 1) = None
  ∧ ∃ t2, t2 = set_settings
         (set_providers t (<[(space, cf_revision cf + 1) := secret]> (t_providers t)))
         (<[space := {| st_revision := cf_revision cf + 1;
                        st_provider := Some (provider_name (cf_provider cf));
                        st_enabled := true; st_provider_revision := cf_revision cf + 1;
                        st_retention_hours := Some (cf_hours cf) |}]> (t_settings t))
     ∧ (t' = t2 ∨ ∃ x, t' = set_registrations t2 x).
Proof.
  unfold do_configure. cbv zeta. intros H. step H u1 H1. step H rv Hrev. step H ps Hps.
  step H t2 Ht2. apply status_response_Ok in H as ->. apply fail_if_Ok in H1. ordered.
  apply integer_Ok in Hrev as [-> Hrev]. apply sql_insert_Ok in Hps as [Hn ->].
  split; [done|]. split; [done|]. split; [done|]. eexists. split; [done|].
  destruct (cf_revision cf =? 0).
  - apply register_Ok in Ht2 as (x & ->). eauto.
  - apply Ok_inj in Ht2 as <-. by left.
Qed.

Lemma do_policy_Ok space expected hours t t' r :
  do_policy space expected hours t = Ok (t', r) →
  expected ≠ 0 ∧ t' = set_settings t (alter (set_policy hours) space (t_settings t)).
Proof.
  unfold do_policy. intros H. step H u1 H1. apply status_response_Ok in H as ->.
  apply fail_if_Ok, N.eqb_neq in H1. done.
Qed.

Lemma do_disable_Ok space expected t t' r :
  do_disable space expected t = Ok (t', r) →
  expected ≠ 0
  ∧ t' = set_tokens (set_settings t (alter set_disabled space (t_settings t)))
           (filter (λ kv, ¬ upload_token_of space kv) (t_tokens t)).
Proof.
  unfold do_disable. intros H. step H u1 H1. apply status_response_Ok in H as ->.
  apply fail_if_Ok, N.eqb_neq in H1. done.
Qed.

Lemma live_token_Ok t object tok action now row h :
  live_token t object tok action now = Ok (row, h) ↔
  now < 9223372036854775808 ∧ t_tokens t !! hash tok = Some row
  ∧ t_heads t !! tk_space row = Some h ∧ hd_head h = tk_head row ∧ tk_object row = object
  ∧ tk_action row = action ∧ now < tk_expires row.
Proof.
  unfold live_token. split.
  - intros H. step H n Hn. step H row' Hrow. step H h' Hh. step H u1 H1.
    apply Ok_inj, pair_eq in H as [<- <-]. apply integer_Ok in Hn as [-> Hn].
    apply ok_or_Ok in Hrow, Hh. apply fail_if_Ok in H1. rewrite !orb_false_iff in H1.
    destruct H1 as (((H1 & H2) & H3) & H4). ordered.
    apply bool_decide_eq_negb_false in H1, H2, H3. done.
  - intros (Hn & Hrow & Hh & Hhead & Ho & Ha & He).
    rewrite (proj2 (integer_Ok now now)) by done. cbn [mbind result_bind].
    rewrite Hrow. cbn [ok_or mbind result_bind]. rewrite Hh. cbn [ok_or mbind result_bind].
    rewrite fail_if_pass; [done|]. rewrite !orb_false_iff, !bool_decide_eq_negb_false.
    split_and!; try done. by apply N.leb_gt.
Qed.

(** A claim, exactly. *)
Lemma claim_Ok object tok action now e e' o :
  claim object tok action now e = Ok (e', o) →
  ∃ row h r, live_token (en_db e) (display object) tok action now = Ok (row, h)
    ∧ t_objects (en_db e) !! token_key row = Some r ∧ o = or_object r
    ∧ wrapping_mul now 1000 < ob_expires o
    ∧ (action = "upload" → row_state r = "pending")
    ∧ (action = "download" → row_state r = "complete")
    ∧ en_db e' = set_tokens (if action === "upload" then set_objects (en_db e)
          (<[token_key row := begin_upload (saturating_add now 100) r]> (t_objects (en_db e)))
        else en_db e) (delete (hash tok) (t_tokens (en_db e)))
    ∧ e' = with_db e (en_db e').
Proof.
  unfold claim. intros H. step H x Hx. step H th Hth. destruct th as [row h]. cbv zeta in H.
  step H o' Ho. step H u1 H1. step H t Ht. apply Ok_inj, pair_eq in H as [<- <-].
  cbn [fst snd] in *. pose proof Hth as (_ & _ & _ & _ & Hobj & _)%live_token_Ok.
  apply read_object_Ok in Ho as (r & Hr & <-). exists row, h, r.
  apply fail_if_Ok in H1. rewrite !orb_false_iff, !andb_false_iff in H1.
  destruct H1 as ((He & Hu) & Hd). ordered.
  assert (token_key row = (tk_space row, display object)) as Hk by (unfold token_key; by rewrite Hobj).
  rewrite Hk. split_and!; try done.
  - intros ->. destruct Hu as [Hu|Hu]; [done|]. exact (proj1 (bool_decide_eq_negb_false _) Hu).
  - intros ->. destruct Hd as [Hd|Hd]; [done|]. exact (proj1 (bool_decide_eq_negb_false _) Hd).
  - destruct (bool_decide (action = "upload")); [|by apply Ok_inj in Ht as <-].
    step Ht u Hu2. apply Ok_inj in Ht as <-. apply integer_Ok in Hu2 as [-> _].
    by rewrite (alter_Some _ _ _ _ Hr).
Qed.
End StorageEngineFacts.
