(* ===== verification/StorageInv.v ===== *)
(** * Invariants of the storage engine

    Every operation keeps the tables well formed and moves objects only along their life
    cycle. *)

From S2P Require Import Prelude Sums Platform Ids Record Chat Identity AuthorityData AuthorityWitness Authority AuthorityProof WitnessWire Attachments StorageWire StorageEngine StorageFacts.

Section StorageInv.
Context `{P : Platform} {S : AuthoritySerde} {W : WitnessSerde} {X : ProtocolSerde}.
Context `{C : Crypto} {B : StorageSerde} {CL : CryptoLaws C} {BL : StorageSerdeLaws B}.

(** ** Tokens *)

Lemma tokens_wf_sub (toks toks' : gmap string TokenRow) (m m' : Objects) :
  tokens_wf toks m →
  (∀ h r, toks' !! h = Some r → toks !! h = Some r) →
  (∀ h r o, toks' !! h = Some r → m !! token_key r = Some o →
     token_state (tk_action r) (row_state o) →
     ∃ o', m' !! token_key r = Some o' ∧ token_state (tk_action r) (row_state o')) →
  tokens_wf toks' m'.
Proof.
  intros [Ho Hu] Hsub Hm. split.
  - intros h r Hr. destruct (Ho h r (Hsub h r Hr)) as (o & Hk & Hs). eauto.
  - intros h h' r r' Hr Hr'. eapply Hu; eauto.
Qed.

Lemma tokens_wf_insert (toks : gmap string TokenRow) (m : Objects) h r o :
  tokens_wf toks m → toks !! h = None → m !! token_key r = Some o →
  token_state (tk_action r) (row_state o) →
  (tk_action r = "upload" → ∀ h2 r2, toks !! h2 = Some r2 → token_key r2 ≠ token_key r) →
  tokens_wf (<[h := r]> toks) m.
Proof.
  intros [Ho Hu] Hh Hm Hs Hfresh. split.
  - intros h2 r2 H2. apply lookup_insert_Some in H2 as [[<- <-]|[_ H2]]; eauto.
  - intros h1 h2 r1 r2 H1 H2 A1 A2 Hk.
    apply lookup_insert_Some in H1 as [[<- <-]|[Hn1 H1]];
      apply lookup_insert_Some in H2 as [[<- <-]|[Hn2 H2]]; [done| | |by eapply Hu].
    + exfalso. by eapply Hfresh.
    + exfalso. by eapply Hfresh.
Qed.

Lemma token_state_exclusive a s s' :
  token_state a s → s' ≠ "pending" → s' ≠ "complete" → s = s' → False.
Proof. intros [[_ ->]|[_ ->]] H1 H2 <-; done. Qed.

(** Moving an object none of whose tokens remain, or whose state stays. *)
Lemma tokens_wf_move (toks toks' : gmap string TokenRow) (m : Objects) k r r' :
  tokens_wf toks m → m !! k = Some r →
  (∀ h x, toks' !! h = Some x → toks !! h = Some x) →
  (∀ h x, toks' !! h = Some x → token_key x = k → token_state (tk_action x) (row_state r')) →
  tokens_wf toks' (<[k := r']> m).
Proof.
  intros Hwf Hk Hsub Ht. eapply tokens_wf_sub; [done..|].
  intros h x o Hx Ho Hs. destruct (decide (token_key x = k)) as [Hkx|Hkx].
  - exists r'. rewrite Hkx, lookup_insert_eq. split; [done|]. by eapply Ht.
  - exists o. by rewrite lookup_insert_ne.
Qed.

Lemma no_token (toks : gmap string TokenRow) (m : Objects) k r :
  tokens_wf toks m → m !! k = Some r → row_state r ≠ "pending" → row_state r ≠ "complete" →
  ∀ h x, toks !! h = Some x → token_key x ≠ k.
Proof.
  intros [Ho _] Hk H1 H2 h x Hx <-. destruct (Ho h x Hx) as (o & Ho2 & Hs).
  assert (o = r) as -> by congruence. by eapply token_state_exclusive.
Qed.

(** ** Providers *)

Lemma providers_wf_move key t toks k r r' :
  providers_wf key t → t_objects t !! k = Some r → same_object r r' →
  providers_wf key (set_tokens (set_objects t (<[k := r']> (t_objects t))) toks).
Proof.
  intros Hwf Hk Hs. apply (providers_wf_keep key t); [done|done| |].
  - cbn [t_objects set_tokens set_objects]. intros k2 r2 H2.
    apply lookup_insert_Some in H2 as [[<- <-]|[_ H2]]; [|eauto].
    left. exists r. split; [done|]. by destruct (same_object_fields _ _ Hs) as (_ & _ & -> & _).
  - cbn [t_settings set_tokens set_objects]. eauto.
Qed.

(** A table that only its tokens change in. *)
Lemma providers_wf_tokens key t toks :
  providers_wf key t → providers_wf key (set_tokens t toks).
Proof. intros Hwf. apply (providers_wf_keep key t); [done|done| |]; cbn; eauto. Qed.

(** Settings that keep their generation, and are enabled only where they were. *)
Lemma providers_wf_settings key t f space toks :
  (∀ s, st_provider_revision (f s) = st_provider_revision s) →
  (∀ s, st_enabled (f s) = true → st_enabled s = true) →
  providers_wf key t →
  providers_wf key (set_tokens (set_settings t (alter f space (t_settings t))) toks).
Proof.
  intros Hrev Hen Hwf. apply (providers_wf_keep key t); [done|done|cbn; eauto|].
  cbn [t_settings set_settings set_tokens]. intros s r' Hr He.
  apply lookup_alter_Some in Hr as [(-> & r & Hr & ->)|[_ Hr]]; [|eauto].
  exists r. split; [done|]. split; [by apply Hen|done].
Qed.

Lemma providers_wf_configure key t space rev secret p s x :
  providers_wf key t → generations t space < 32 → rev < 9223372036854775808 →
  opens key space rev secret p → st_provider_revision s = rev →
  t_providers t !! (space, rev) = None →
  t_objects x = t_objects t →
  t_providers x = <[(space, rev) := secret]> (t_providers t) →
  t_settings x = <[space := s]> (t_settings t) →
  providers_wf key x.
Proof.
  intros Hwf Hg Hr Ho Hs Hn E1 E2 E3. apply (providers_wf_grow key t x Hwf).
  - intros sp. unfold generations. rewrite E2. destruct (decide (space = sp)) as [<-|Hne].
    + rewrite map_filter_insert_True by done. rewrite map_size_insert_None.
      * unfold generations in Hg. lia.
      * apply map_lookup_filter_None. by left.
    + rewrite map_filter_insert_False by done. rewrite delete_id by done.
      apply (pw_generations _ _ Hwf).
  - intros k y. rewrite E2. intros H. apply lookup_insert_Some in H as [[<- <-]|[_ H]].
    + right. split; [done|]. eauto.
    + by left.
  - intros k r'. rewrite E1, E2. intros Hk. apply (pw_objects _ _ Hwf) in Hk.
    rewrite lookup_insert_is_Some. destruct (decide ((space, rev) = (k.1, ob_revision (or_object r'))));
      [by left|by right].
  - intros sp r'. rewrite E2, E3, lookup_insert_is_Some.
    intros H He. apply lookup_insert_Some in H as [[<- <-]|[_ H]].
    + left. by rewrite Hs.
    + apply (pw_settings _ _ Hwf) in H; [|done].
      destruct (decide ((space, rev) = (sp, st_provider_revision r'))); [by left|by right].
Qed.

(** ** Commands *)

(** What the configuration handed to a command must be. *)
Definition config_ok (key space : string) (config : option (Configuration * string)) : Prop :=
  ∀ cf secret, config = Some (cf, secret) →
    opens key space (cf_revision cf + 1) secret (cf_provider cf).

(** The tables a command's operation does not write. *)
Definition same_rest (t t' : Tables) : Prop :=
  t_heads t' = t_heads t ∧ t_receipts t' = t_receipts t
  ∧ t_witness_floor t' = t_witness_floor t.

Definition keeps (key : string) (now_ms : N) (t t' : Tables) : Prop :=
  tables_wf key t' ∧ objects_step now_ms (t_objects t) (t_objects t') ∧ same_rest t t'.

Lemma keeps_refl key now t : tables_wf key t → keeps key now t t.
Proof. intros H. split; [done|]. split; [constructor|done]. Qed.

Lemma reserve_keeps key now_ms space aud tok c id size_ sha now t t' r :
  tables_wf key t → operation_validate (Reserve id size_ sha) = Ok tt →
  do_reserve space aud tok c id size_ sha now t = Ok (t', r) → keeps key now_ms t t'.
Proof.
  intros [Hwo Hwp Hwt] Hval (rv & hours & ms & Hres & Hrv & Hms & Hroom & Hcount & Hnew & Htok & -> & _)%do_reserve_Ok.
  cbn [operation_validate] in Hval. step Hval x Hx. apply fail_if_Ok, orb_false_iff in Hval as [H0 H1].
  apply N.eqb_neq in H0. ordered.
  assert (row_wf (space, display id) (reserved_object space c id rv size_ sha ms)) as Hrow.
  { split; [done|by left|]. cbn [or_object reserved_object ob_size]. lia. }
  assert (objects_step now_ms (t_objects t)
            (<[(space, display id) := reserved_object space c id rv size_ sha ms]> (t_objects t))) as Hstep
    by (apply objects_reserve; [done|done|done|exact Hroom|exact Hcount]).
  split; [split|split; [exact Hstep|done]].
  - exact (objects_wf_step _ _ _ Hstep Hwo).
  - apply providers_wf_tokens. apply (providers_wf_keep key t); [done|done| |cbn; eauto].
    cbn [t_objects set_objects]. intros k r' Hk.
    apply lookup_insert_Some in Hk as [[<- <-]|[_ Hk]]; [right|eauto].
    apply reservable_Ok in Hres as (s & Hs & He & <- & _). by eapply pw_settings.
  - cbn [t_tokens t_objects set_tokens set_objects]. eapply tokens_wf_insert.
    + eapply tokens_wf_sub; [exact Hwt|done|]. intros h x2 o _ Ho Hst. exists o.
      split; [|done]. rewrite lookup_insert_ne; [done|]. intros E. congruence.
    + done.
    + unfold token_key. cbn [tk_space tk_object token_row]. apply lookup_insert_eq.
    + by left.
    + intros _ h2 r2 H2 Hk. destruct (kw_object _ _ Hwt h2 r2 H2) as (o & Ho & _).
      unfold token_key in Hk. cbn [tk_space tk_object token_row] in Hk.
      unfold token_key in Ho. congruence.
Qed.

Lemma move_keeps key now_ms t toks k r r' t' :
  tables_wf key t → t_objects t !! k = Some r → same_object r r' →
  state_edge (row_state r) (row_state r') →
  (row_state r' = "uploading" → now_ms < ob_expires (or_object r)) →
  t' = set_tokens (set_objects t (<[k := r']> (t_objects t))) toks →
  (∀ h x, toks !! h = Some x → t_tokens t !! h = Some x) →
  (∀ h x, toks !! h = Some x → token_key x = k → token_state (tk_action x) (row_state r')) →
  keeps key now_ms t t'.
Proof.
  intros [Hwo Hwp Hwt] Hk Hs He Hc -> Hsub Ht.
  assert (objects_step now_ms (t_objects t) (<[k := r']> (t_objects t))) as Hstep
    by (by eapply objects_move).
  split; [split|split; [exact Hstep|done]].
  - exact (objects_wf_step _ _ _ Hstep Hwo).
  - by eapply providers_wf_move.
  - by eapply tokens_wf_move.
Qed.

Lemma set_row_state_same s r : same_object r (set_row_state s r).
Proof. done. Qed.

Lemma set_tokens_same t m : set_tokens (set_objects t m) (t_tokens t) = set_objects t m.
Proof. done. Qed.

Lemma complete_keeps key now_ms space c id now t t' r :
  tables_wf key t → do_complete space c id now t = Ok (t', r) → keeps key now_ms t t'.
Proof.
  intros Hwf (o & Ho & _ & _ & Hs & -> & _)%do_complete_Ok.
  eapply (move_keeps _ _ _ (t_tokens t) _ o (set_row_state "complete" o)); [done|exact Ho|apply set_row_state_same| |cbn; discriminate|
    reflexivity|done|].
  - change (row_state (set_row_state "complete" o)) with "complete".
    destruct Hs as [-> | ->]; constructor.
  - intros h x Hx Hk. change (row_state (set_row_state "complete" o)) with "complete".
    destruct (kw_object _ _ (tw_tokens _ _ Hwf) h x Hx) as (o' & Ho' & Hst).
    rewrite Hk, Ho in Ho'. injection Ho' as <-.
    destruct Hs as [Hs|Hs]; rewrite Hs in Hst; [|done]. by destruct Hst as [[_ ?]|[_ ?]].
Qed.

Lemma drop_tokens_sub t space object h x :
  t_tokens (drop_tokens t space object) !! h = Some x →
  t_tokens t !! h = Some x ∧ token_key x ≠ (space, object).
Proof.
  intros [H1 H2]%map_lookup_filter_Some. split; [done|]. intros E. apply H2.
  unfold token_for. unfold token_key in E. cbn [snd]. by injection E.
Qed.

Lemma cancel_keeps key now_ms space c a id t t' r :
  tables_wf key t → do_cancel space c a id t = Ok (t', r) → keeps key now_ms t t'.
Proof.
  intros Hwf (o & Ho & _ & Hu & Hc & -> & _)%do_cancel_Ok.
  eapply (move_keeps _ _ _ _ _ o (set_row_state "deleting" o));
    [done|exact Ho|apply set_row_state_same| |cbn; discriminate|reflexivity| |].
  - change (row_state (set_row_state "deleting" o)) with "deleting". apply edge_cancel.
    pose proof (rw_state _ _ (ow_rows _ (tw_objects _ _ Hwf) _ _ Ho)) as Hst.
    unfold states in Hst. clear -Hst Hu Hc. set_solver.
  - intros h x Hx. by apply drop_tokens_sub in Hx as [? _].
  - intros h x Hx Hk. by apply drop_tokens_sub in Hx as [_ ?].
Qed.

Lemma download_keeps key now_ms space aud tok c id now t t' r :
  tables_wf key t → do_download space aud tok c id now t = Ok (t', r) → keeps key now_ms t t'.
Proof.
  intros [Hwo Hwp Hwt] (o & Ho & Hs & _ & Hn & -> & _)%do_download_Ok.
  split; [split|split; [constructor|done]]; [done|by apply providers_wf_tokens|].
  eapply tokens_wf_insert; [exact Hwt|done|exact Ho| |done]. rewrite Hs. by right.
Qed.

Lemma tables_wf_same key t x :
  tables_wf key t → t_objects x = t_objects t → t_providers x = t_providers t →
  t_settings x = t_settings t → t_tokens x = t_tokens t → tables_wf key x.
Proof.
  intros [Hwo Hwp Hwt] E1 E2 E3 E4. split; [by rewrite E1| |by rewrite E1, E4].
  apply (providers_wf_keep key t); [done|done|rewrite E1; eauto|rewrite E3; eauto].
Qed.

Lemma configure_keeps key now_ms space cf secret ip now t t' r :
  tables_wf key t → opens key space (cf_revision cf + 1) secret (cf_provider cf) →
  do_configure space cf secret ip now t = Ok (t', r) → keeps key now_ms t t'.
Proof.
  intros [Hwo Hwp Hwt] Ho (Hg & Hrv & Hn & t2 & -> & Hor)%do_configure_Ok.
  set (t2 := set_settings _ _) in Hor.
  assert (tables_wf key t2) as H2.
  { split; [done| |done].
    eapply (providers_wf_configure key t space _ secret _ _ t2 Hwp Hg Hrv Ho); [|done|done..].
    reflexivity. }
  destruct Hor as [->|(x & ->)]; (split; [|split; [constructor|done]]); [done|].
  by apply (tables_wf_same key t2).
Qed.

Lemma run_operation_keeps key now_ms v aud tok config ip now t t' r :
  tables_wf key t → config_ok key (display (sm_space_id (ve_command v))) config →
  operation_validate (sm_operation (ve_command v)) = Ok tt →
  run_operation v aud tok config ip now t = Ok (t', r) → keeps key now_ms t t'.
Proof.
  intros Hwf Hcf Hval H. unfold run_operation in H.
  assert (∀ cs, ok_or config Invalid = Ok cs →
    do_configure (display (sm_space_id (ve_command v))) cs.1 cs.2 ip now t = Ok (t', r) →
    keeps key now_ms t t') as Hconf.
  { intros [cf secret] ->%ok_or_Ok Hd. eapply configure_keeps; [done|by apply Hcf|exact Hd]. }
  destruct (sm_operation (ve_command v)) eqn:Hop.
  - apply status_response_Ok in H as ->. by apply keeps_refl.
  - step H cs Hcs. by eapply Hconf.
  - step H cs Hcs. by eapply Hconf.
  - apply do_policy_Ok in H as [_ ->]. destruct Hwf as [Hwo Hwp Hwt].
    split; [split|split; [constructor|done]]; try done.
    by apply (providers_wf_settings key t (set_policy retention_hours) _ (t_tokens t)).
  - apply do_disable_Ok in H as [_ ->]. destruct Hwf as [Hwo Hwp Hwt].
    split; [split|split; [constructor|done]]; [done| |].
    + by apply providers_wf_settings.
    + eapply tokens_wf_sub; [exact Hwt| |eauto].
      intros h x Hx. by apply map_lookup_filter_Some in Hx as [? _].
  - by eapply reserve_keeps.
  - by eapply complete_keeps.
  - by eapply download_keeps.
  - by eapply cancel_keeps.
Qed.
End StorageInv.
