(* ===== verification/StorageSteps.v ===== *)
(** * The storage engine's steps

    A whole command, a claim, the end of an upload and maintenance: what each leaves of the
    engine. *)

From S2P Require Import Prelude Sums Platform Ids Record Chat Identity AuthorityData AuthorityWitness Authority AuthorityProof ProofFacts WitnessWire Attachments StorageWire StorageEngine StorageService StorageFacts StorageInv.

Section StorageSteps.
Context `{P : Platform} {S : AuthoritySerde} {W : WitnessSerde} {X : ProtocolSerde}.
Context `{C : Crypto} {B : StorageSerde} {L : PlatformLaws P} {CL : CryptoLaws C} {BL : StorageSerdeLaws B}.

(** ** Commands *)

Lemma seal_opens e space rev p draw secret :
  (∀ d, draw = Some d → slen d = 24) →
  seal e space rev p draw = Ok secret → opens (en_key e) space rev secret p.
Proof.
  intros Hd H. unfold seal in H. step H d Hdraw. step H x Hx. apply Ok_inj in H as <-.
  apply ok_or_Ok in Hdraw, Hx. specialize (Hd d Hdraw).
  assert (String.length d = 24%nat) as Hd24 by (apply (slen_of_nat _ 24) in Hd; done).
  pose proof (stake_app d x) as Hs. pose proof (sdrop_app d x) as Hdr. rewrite Hd24 in Hs, Hdr.
  split.
  - rewrite slen_app, Hd. pose proof (aead_encrypt_length _ _ _ _ _ Hx). lia.
  - rewrite Hs, Hdr. exists (to_json p). split; [by apply aead_round_trip|].
    apply provider_round_trip.
Qed.

Lemma sealed_configuration_ok e c managed draw config :
  (∀ d, draw = Some d → slen d = 24) →
  sealed_configuration e c managed draw = Ok config →
  config_ok (en_key e) (display (sm_space_id c)) config.
Proof.
  intros Hd H cf secret ->. unfold sealed_configuration in H. step H cfg Hcfg.
  destruct cfg as [cf'|]; [|done]. step H u Hu. step H s Hs. apply Ok_inj in H as [= <- <-].
  by eapply seal_opens.
Qed.

(** A successful command: a replay, or one run of its operation with its receipt. *)
Inductive applied (v : Verified) (ip : IpAddr) (now : N) (managed : option ProviderConfig)
    (draw : option string) (e e' : Engine) (r : Response) : Prop :=
| applied_replay :
    e' = e → preflight e v ip now = Ok (Some r) →
    applied v ip now managed draw e e' r
| applied_run config t1 t2 t3 :
    preflight e v ip now = Ok None →
    sealed_configuration e (ve_command v) managed draw = Ok config →
    run_operation v (en_audience e) (token e (ve_request_id v)) config ip now (en_db e) = Ok (t1, r) →
    advance_head v t1 = Ok t2 → keep_receipt v r now t2 = Ok t3 → e' = with_db e t3 →
    applied v ip now managed draw e e' r.

Lemma apply_with_managed_Ok v ip now managed draw e e' r :
  apply_with_managed v ip now managed draw e = Ok (e', r) →
  applied v ip now managed draw e e' r.
Proof.
  unfold apply_with_managed. intros H. step H x Hx. destruct x as [r0|].
  - apply Ok_inj, pair_eq in H as [<- <-]. by apply applied_replay.
  - step H cfg Hcf. cbv zeta in H. step H tr Htr. step H t2 Ht2. step H t3 Ht3.
    apply Ok_inj, pair_eq in H as [<- <-]. destruct tr as [t1 r1]. by eapply applied_run.
Qed.

Lemma preflight_Ok e v ip now x :
  preflight e v ip now = Ok x →
  authorize e v now = Ok tt ∧ operation_validate (sm_operation (ve_command v)) = Ok tt
  ∧ match x with
    | Some r => replay e v = Ok (Some r)
    | None =>
        replay e v = Ok None ∧ revision_ok e (ve_command v) ip now = Ok tt
        ∧ recent (en_db e) (display (sm_credential_id (ve_command v))) (saturating_sub now 60) < 60
    end.
Proof.
  unfold preflight. intros H. step H u1 H1. step H u2 H2. step H y Hy.
  destruct u1, u2. apply authorized_or_Ok in H2. split; [done|]. split; [done|].
  destruct y as [r|].
  - by apply Ok_inj in H as <-.
  - step H n Hn. step H u3 H3. step H u4 H4. apply Ok_inj in H as <-. destruct u4.
    apply integer_Ok in Hn as [-> _]. apply fail_if_Ok in H3. ordered. done.
Qed.

(** The new fence row of a command. *)
Lemma advance_head_Ok v t t' :
  advance_head v t = Ok t' →
  let c := ve_command v in
  let space := display (sm_space_id c) in
  t_heads t !! space = None ∧ is_configuration (sm_operation c) = false ∧ t' = t
  ∨ (is_Some (t_heads t !! space) ∨ is_configuration (sm_operation c) = true)
    ∧ ∃ h, head_config (ve_authority v) = Ok h
       ∧ t' = set_heads t (<[space :=
           {| hd_stream := match t_heads t !! space with
                           | Some r => hd_stream r
                           | None => display (sm_stream_id c) end;
              hd_head := display (sm_config_id c);
              hd_sequence := sc_sequence h |}]> (t_heads t)).
Proof.
  cbv zeta. unfold advance_head. cbv zeta. intros H.
  destruct (bool_decide _ || is_configuration _) eqn:Hk.
  - right. step H h Hh. step H q Hq. apply Ok_inj in H as <-. apply authorized_or_Ok in Hh.
    apply integer_Ok in Hq as [-> _]. split; [|by exists h].
    apply orb_true_iff in Hk as [Hk|Hk]; [left|by right]. by apply bool_decide_eq_true in Hk.
  - left. apply Ok_inj in H as <-. apply orb_false_iff in Hk as [Hk1 Hk2].
    apply bool_decide_eq_false, eq_None_not_Some in Hk1. done.
Qed.

Definition receipt_of (v : Verified) (r : Response) (now : N) : ReceiptRow :=
  {| rr_request := display (ve_request_id v); rr_response := to_json (with_token r "");
     rr_expires := sm_expires_at (ve_command v); rr_created := now |}.

Lemma keep_receipt_Ok v r now t t' :
  keep_receipt v r now t = Ok t' →
  t_receipts t !! receipt_key (ve_command v) = None
  ∧ t' = set_receipts t (<[receipt_key (ve_command v) := receipt_of v r now]> (t_receipts t)).
Proof.
  unfold keep_receipt. cbv zeta. intros H. step H x Hx. step H y Hy. step H rs Hrs.
  apply Ok_inj in H as <-. apply integer_Ok in Hx as [-> _], Hy as [-> _].
  by apply sql_insert_Ok in Hrs as [Hn ->].
Qed.

(** ** The engine's invariant *)

Record engine_wf (e : Engine) : Prop := {
  en_tables : tables_wf (en_key e) (en_db e);
  en_spaces : (size (t_heads (en_db e)) ≤ 128)%nat;
  en_max : en_max_spaces e ≤ 128;
  en_known k : is_Some (t_providers (en_db e) !! k) → is_Some (t_heads (en_db e) !! k.1);
}.

(** What a step changes besides the fences, the receipts and the witness floor. *)
Record engine_step (now_ms : N) (e e' : Engine) : Prop := {
  es_wf : engine_wf e';
  es_objects : objects_step now_ms (t_objects (en_db e)) (t_objects (en_db e'));
  es_key : en_key e' = en_key e;
}.

(** Only a configuration adds a provider generation. *)
Lemma run_operation_providers v aud tok config ip now t t' r :
  run_operation v aud tok config ip now t = Ok (t', r) →
  t_providers t' = t_providers t
  ∨ is_configuration (sm_operation (ve_command v)) = true
    ∧ ∃ rv x, t_providers t' = <[(display (sm_space_id (ve_command v)), rv) := x]> (t_providers t).
Proof.
  unfold run_operation. intros H.
  assert (∀ cs, do_configure (display (sm_space_id (ve_command v))) cs.1 cs.2 ip now t
      = Ok (t', r) → ∃ rv x, t_providers t' = <[(display (sm_space_id (ve_command v)), rv) := x]>
                                                (t_providers t)) as Hconf.
  { intros cs (_ & _ & _ & t2 & -> & Hor)%do_configure_Ok.
    exists (cf_revision cs.1 + 1), cs.2. destruct Hor as [->|(x & ->)]; done. }
  destruct (sm_operation (ve_command v)) eqn:Hoper.
  - left. by apply status_response_Ok in H as ->.
  - right. step H cs Hcs. split; [done|]. by apply (Hconf cs).
  - right. step H cs Hcs. split; [done|]. by apply (Hconf cs).
  - left. by apply do_policy_Ok in H as [_ ->].
  - left. by apply do_disable_Ok in H as [_ ->].
  - left. by apply do_reserve_Ok in H as (? & ? & ? & _ & _ & _ & _ & _ & _ & _ & -> & _).
  - left. by apply do_complete_Ok in H as (? & _ & _ & _ & _ & -> & _).
  - left. by apply do_download_Ok in H as (? & _ & _ & _ & _ & -> & _).
  - left. by apply do_cancel_Ok in H as (? & _ & _ & _ & _ & -> & _).
Qed.

Lemma applied_engine_step now_ms v ip now managed draw e e' r :
  engine_wf e → (∀ d, draw = Some d → slen d = 24) →
  applied v ip now managed draw e e' r → engine_step now_ms e e'.
Proof.
  intros [Hwf Hsp Hmax Hkn] Hd [-> Hp|config t1 t2 t3 Hp Hcf Hop Hadv Hrec ->].
  { split; [done|constructor|done]. }
  apply preflight_Ok in Hp as (Hauth & Hval & Hfree).
  apply sealed_configuration_ok in Hcf; [|done].
  pose proof (run_operation_keeps _ now_ms _ _ _ _ _ _ _ _ _ Hwf Hcf Hval Hop) as (Hwf1 & Hstep & Hh & Hr & Hf).
  assert (∀ k, is_Some (t_providers t1 !! k) → is_Some (t_heads t1 !! k.1)
            ∨ k.1 = display (sm_space_id (ve_command v))
              ∧ is_configuration (sm_operation (ve_command v)) = true) as Hkn1.
  { intros k Hk. rewrite Hh.
    destruct (run_operation_providers _ _ _ _ _ _ _ _ _ Hop) as [E|(Hic & rv & x & E)];
      rewrite E in Hk; [left; by apply Hkn|].
    rewrite lookup_insert_is_Some in Hk. destruct Hk as [<-|[_ Hk]]; [by right|left; by apply Hkn]. }
  apply keep_receipt_Ok in Hrec as [_ ->].
  apply advance_head_Ok in Hadv as [(Hn & Hnc & ->)|(Hor & h & Hhc & ->)].
  - split; [split| |]; cbn [en_db with_db set_receipts t_heads t_providers t_objects en_key en_max_spaces].
    + by apply (tables_wf_same (en_key e) t1).
    + by rewrite Hh.
    + done.
    + intros k Hk. destruct (Hkn1 k Hk) as [?|[_ ?]]; [done|congruence].
    + exact Hstep.
    + done.
  - split; [split| |]; cbn [en_db with_db set_receipts set_heads t_heads t_providers t_objects en_key en_max_spaces].
    + by apply (tables_wf_same (en_key e) t1).
    + destruct (t_heads t1 !! display (sm_space_id (ve_command v))) as [row|] eqn:Hrow.
      * rewrite map_size_insert_Some by eauto. by rewrite Hh.
      * rewrite map_size_insert_None by done. rewrite Hh in Hrow |- *.
        destruct Hor as [[? ?]|Hic]; [done|].
        unfold authorize in Hauth. step Hauth u1 H1. step Hauth u2 H2. rewrite Hrow in H2.
        destruct (is_status _) eqn:Hs; [by destruct (sm_operation (ve_command v))|].
        destruct (is_registration _); [|done]. apply fail_if_Ok in H2. ordered. lia.
    + done.
    + intros k Hk. rewrite lookup_insert_is_Some.
      destruct (decide (display (sm_space_id (ve_command v)) = k.1)); [by left|right].
      split; [done|]. destruct (Hkn1 k Hk) as [?|[? _]]; [done|congruence].
    + exact Hstep.
    + done.
Qed.

(** Steps that leave the fences and the providers, or fewer of them. *)
Lemma engine_step_keeps now_ms e e' :
  engine_wf e → keeps (en_key e) now_ms (en_db e) (en_db e') →
  t_providers (en_db e') = t_providers (en_db e) → e' = with_db e (en_db e') →
  engine_step now_ms e e'.
Proof.
  intros [Hwf Hsp Hmax Hkn] (Hwf' & Hstep & Hh & _) Hp ->. cbn [en_db with_db] in *.
  split; [split| |]; [done|by cbn; rewrite Hh|done|cbn; rewrite Hh, Hp; exact Hkn|done|done].
Qed.

(** ** Transfers and maintenance *)

Lemma claim_engine_step object tok action now e e' o :
  engine_wf e → claim object tok action now e = Ok (e', o) →
  engine_step (wrapping_mul now 1000) e e'.
Proof.
  intros Hwf (row & h & r & Hlive & Hr & -> & He & Hu & Hd & Hdb & Hwith)%claim_Ok.
  pose proof (en_tables _ Hwf) as Ht.
  assert (∀ h2 x, delete (hash tok) (t_tokens (en_db e)) !! h2 = Some x →
            h2 ≠ hash tok ∧ t_tokens (en_db e) !! h2 = Some x) as Hsub.
  { intros h2 x Hx. apply lookup_delete_Some in Hx as [??]. done. }
  apply live_token_Ok in Hlive as (_ & Hrow & _ & _ & _ & Hact & _).
  apply engine_step_keeps; [done| |by rewrite Hdb; case_bool_decide|done].
  rewrite Hdb. case_bool_decide as Hup.
  - eapply (move_keeps _ _ _ (delete (hash tok) (t_tokens (en_db e))) _ r
              (begin_upload (saturating_add now 100) r)); [done|exact Hr|done| |done|done| |].
    + rewrite (Hu Hup). constructor.
    + intros h2 x Hx. by apply Hsub in Hx as [_ ?].
    + intros h2 x [Hne Hx]%Hsub Hk. exfalso.
      destruct (kw_object _ _ (tw_tokens _ _ Ht) h2 x Hx) as (o & Ho & Hst).
      rewrite Hk, Hr in Ho. injection Ho as <-. rewrite (Hu Hup) in Hst.
      destruct Hst as [[Ha _]|[_ ?]]; [|done]. apply Hne.
      eapply (kw_upload _ _ (tw_tokens _ _ Ht) h2 (hash tok) x row); [done..| | |done]; congruence.
  - destruct Ht as [Hwo Hwp Hwt]. split; [split|split; [constructor|done]];
      [done|by apply providers_wf_tokens|].
    eapply tokens_wf_sub; [exact Hwt| |eauto]. intros h2 x Hx. by apply Hsub in Hx as [_ ?].
Qed.

Lemma uploaded_engine_step now_ms o success e r :
  engine_wf e → t_objects (en_db e) !! (ob_space o, ob_object o) = Some r →
  row_state r = "uploading" → engine_step now_ms e (uploaded o success e).
Proof.
  intros Hwf Hr Hs. unfold uploaded. rewrite (alter_Some _ _ _ _ Hr).
  assert (finish_upload success r =
    {| or_object := set_state (or_object r) (if success then "uploaded" else "deleting");
       or_busy_until := if success then 0 else or_busy_until r |}) as E
    by (unfold finish_upload; by rewrite bool_decide_eq_true_2).
  apply engine_step_keeps; [done| |done|done]. cbn [en_db with_db].
  eapply (move_keeps _ _ _ (t_tokens (en_db e)) _ r (finish_upload success r));
    [by apply en_tables|exact Hr|by rewrite E| | |reflexivity|done|].
  - rewrite E, Hs. destruct success; constructor.
  - rewrite E. by destruct success.
  - intros h x Hx Hk. exfalso.
    eapply (no_token _ _ _ r (tw_tokens _ _ (en_tables _ Hwf)) Hr); [..|exact Hx|exact Hk];
      by rewrite Hs.
Qed.

Lemma deleted_engine_step now_ms o e r :
  engine_wf e → t_objects (en_db e) !! (ob_space o, ob_object o) = Some r →
  over now_ms r → row_state r ≠ "uploading" → engine_step now_ms e (deleted o e)
  ∧ t_objects (en_db (deleted o e)) = delete (ob_space o, ob_object o) (t_objects (en_db e)).
Proof.
  intros Hwf Hr Ho Hs. pose proof (en_tables _ Hwf) as [Hwo Hwp Hwt].
  assert (en_db (deleted o e) = set_objects (drop_tokens (en_db e) (ob_space o) (ob_object o))
            (delete (ob_space o, ob_object o) (t_objects (en_db e)))) as E.
  { unfold deleted. cbv zeta. cbn [en_db with_db].
    change (t_objects (drop_tokens _ _ _)) with (t_objects (en_db e)). rewrite Hr.
    by rewrite (bool_decide_eq_false_2 (row_state r = "uploading")). }
  split; [|by rewrite E]. apply engine_step_keeps; [done| |by rewrite E|done].
  rewrite E. split; [split|split; [by eapply objects_remove|done]].
  - eapply objects_wf_step; [|done]. by eapply (objects_remove now_ms).
  - apply (providers_wf_keep (en_key e) (en_db e)); [done|done| |cbn; eauto].
    cbn [t_objects set_objects]. intros k r' Hk. apply lookup_delete_Some in Hk as [_ Hk]. eauto.
  - cbn [t_tokens t_objects set_objects]. eapply tokens_wf_sub; [exact Hwt| |].
    + intros h x Hx. by apply drop_tokens_sub in Hx as [? _].
    + intros h x r2 Hx Hr2 Hst. apply drop_tokens_sub in Hx as [_ Hne].
      exists r2. by rewrite lookup_delete_ne.
Qed.

(** Maintenance keeps what objects and settings use. *)
Lemma prune_tables now e e' x :
  prune now e = (e', x) →
  en_db e' = en_db e
  ∨ ∃ ts rs gs ps,
    en_db e' = set_providers (set_registrations (set_tokens (set_receipts (en_db e) rs) ts) gs) ps
    ∧ rs = filter (λ kv, now - 60 ≤ rr_expires kv.2) (t_receipts (en_db e))
    ∧ (∀ h r, ts !! h = Some r → t_tokens (en_db e) !! h = Some r)
    ∧ (∀ k y, ps !! k = Some y → t_providers (en_db e) !! k = Some y)
    ∧ ∀ k y, t_providers (en_db e) !! k = Some y → provider_used (en_db e) k = true → ps !! k = Some y.
Proof.
  unfold prune. destruct (integer (saturating_sub now 60)) as [since|] eqn:Hs;
    intros H; [|injection H as <- _; by left].
  apply integer_Ok in Hs as [-> _]. right. exists (t_tokens (en_db e')).
  exists (filter (λ kv, now - 60 ≤ rr_expires kv.2) (t_receipts (en_db e))).
  exists (t_registrations (en_db e')), (t_providers (en_db e')).
  destruct (integer now) as [n|].
  2:{ injection H as <- _. split_and!; try done. }
  assert (∀ h r, t_tokens (prune_tokens n (prune_receipts (saturating_sub now 60) (en_db e))) !! h = Some r →
            t_tokens (en_db e) !! h = Some r) as Ht.
  { intros h r Hr. by apply map_lookup_filter_Some in Hr as [? _]. }
  destruct (integer (now / 86400)) as [day|]; injection H as <- _; split_and!; try done.
  - intros k y Hy. by apply map_lookup_filter_Some in Hy as [? _].
  - intros k y Hy Hu. by apply map_lookup_filter_Some.
Qed.

Lemma object_uses_true t k r :
  t_objects t !! k = Some r → object_uses t (k.1, ob_revision (or_object r)) = true.
Proof. intros Hk. apply bool_decide_eq_true. exists k, r. done. Qed.
Lemma settings_use_true t s r :
  t_settings t !! s = Some r → st_enabled r = true →
  settings_use t (s, st_provider_revision r) = true.
Proof. intros Hs He. unfold settings_use. cbn [fst snd]. by rewrite Hs, N.eqb_refl. Qed.

Lemma generations_le t t' s :
  (∀ k y, t_providers t' !! k = Some y → t_providers t !! k = Some y) →
  generations t' s ≤ generations t s.
Proof.
  intros Hps. unfold generations.
  enough (size (filter (of_space s) (t_providers t')) ≤ size (filter (of_space s) (t_providers t)))%nat
    by lia.
  apply size_le. intros k y Hk. apply map_lookup_filter_Some in Hk as [Hk Hk2]. exists y.
  apply map_lookup_filter_Some. split; [by apply Hps|done].
Qed.

Lemma prune_engine_step now_ms now e :
  engine_wf e → engine_step now_ms e (prune now e).1.
Proof.
  intros Hwf. destruct (prune now e) as [e' x] eqn:Hp. cbn [fst].
  assert (e' = with_db e (en_db e')) as Hwith.
  { revert Hp. unfold prune. destruct e as [t0 k0 a0 m0].
    destruct (integer (saturating_sub now 60)), (integer now), (integer (now / 86400));
      intros [= <- _]; done. }
  pose proof Hwf as [[Hwo Hwp Hwt] Hsp Hmax Hkn].
  destruct (prune_tables _ _ _ _ Hp) as [E|(ts & rs & gs & ps & E & _ & Hts & Hps & Huse)].
  { rewrite Hwith, E. split; [by destruct e|constructor|done]. }
  rewrite Hwith, E. split; [split| |]; cbn [en_db with_db en_key en_max_spaces]; try done.
  - split; [done| |].
    + apply (providers_wf_grow (en_key e) (en_db e)); [done| | | |].
      * intros s. etrans; [|apply (pw_generations _ _ Hwp s)]. by apply generations_le.
      * intros k y Hk. left. by apply Hps.
      * intros k r Hk. destruct (pw_objects _ _ Hwp k r Hk) as [y Hy]. exists y.
        apply Huse; [done|]. unfold provider_used. by rewrite (object_uses_true (en_db e) _ _ Hk).
      * intros s r Hs He. destruct (pw_settings _ _ Hwp s r Hs He) as [y Hy]. exists y.
        apply Huse; [done|]. unfold provider_used. by rewrite (settings_use_true (en_db e) _ _ Hs), orb_true_r.
    + eapply tokens_wf_sub; [exact Hwt|done|eauto].
  - intros k [y Hy]. apply Hkn. exists y. by apply Hps.
  - constructor.
Qed.

(** ** Opening and the witness *)

Lemma tables_wf_interrupt key t :
  tables_wf key t → tables_wf key (set_objects t (interrupt <$> t_objects t)).
Proof.
  intros [Hwo Hwp Hwt]. split.
  - exact (objects_wf_step 0 _ _ (objects_interrupt 0 (t_objects t)) Hwo).
  - apply (providers_wf_keep key t); [done|done| |cbn; eauto]. cbn [t_objects set_objects].
    intros k r' Hk. rewrite lookup_fmap in Hk. apply fmap_Some in Hk as (r & Hr & ->).
    left. exists r. split; [done|]. unfold interrupt. by case_bool_decide.
  - cbn [t_tokens t_objects set_objects]. eapply tokens_wf_sub; [exact Hwt|done|].
    intros h r o Hr Ho Hst. exists (interrupt o). rewrite lookup_fmap, Ho. split; [done|].
    rewrite interrupt_state. case_bool_decide as Hu; [|done].
    exfalso. rewrite Hu in Hst. by destruct Hst as [[_ ?]|[_ ?]].
Qed.

Lemma pin_witness_Ok e pin e' :
  pin_witness e pin = Ok e' →
  e' = with_db e (set_floor (en_db e) (t_witness_floor (en_db e')))
  ∧ (∀ f, t_witness_floor (en_db e) = Some f → t_witness_floor (en_db e') = Some f)
  ∧ ∃ f, t_witness_floor (en_db e') = Some f ∧ fl_pin f = to_json pin.
Proof.
  unfold pin_witness. intros H. step H u Hu. cbv zeta in H.
  destruct (t_witness_floor (en_db e)) as [f|] eqn:Hf.
  - destruct (fl_pin f =/= to_json pin) eqn:Hpin; [done|]. apply Ok_inj in H as <-.
    apply bool_decide_eq_negb_false in Hpin. rewrite Hf. split; [|split; [by intros ? [= <-]|eauto]].
    rewrite <-Hf. by destruct e as [[] ???].
  - apply Ok_inj in H as <-. split; [done|]. split; [done|]. eexists. done.
Qed.

Lemma start_Ok t key aud max_spaces pin managed e :
  start t key aud max_spaces pin managed = Ok e →
  1 ≤ max_spaces ≤ 128 ∧ en_key e = key ∧ en_max_spaces e = max_spaces ∧ en_audience e = aud
  ∧ en_db e = set_floor (set_objects t (interrupt <$> t_objects t)) (t_witness_floor (en_db e))
  ∧ (∀ f, t_witness_floor t = Some f → t_witness_floor (en_db e) = Some f)
  ∧ ∃ f, t_witness_floor (en_db e) = Some f ∧ fl_pin f = to_json pin.
Proof.
  unfold start, open. intros H. step H e1 H1. step H u Hu. step H e2 H2. step H u2 Hu2.
  apply Ok_inj in H as <-. step H1 u3 H3. step H1 u4 H4. apply Ok_inj in H1 as <-.
  apply fail_if_Ok, orb_false_iff in H3 as [H3 H3']. apply N.eqb_neq in H3. ordered.
  apply pin_witness_Ok in H2 as (E & Hold & Hnew). rewrite E. cbn.
  split; [lia|]. split; [done|]. split; [done|]. split; [done|].
  split; [by rewrite E|]. split; [exact Hold|exact Hnew].
Qed.

Lemma start_engine_step now_ms e aud max_spaces pin managed e' :
  engine_wf e → start (en_db e) (en_key e) aud max_spaces pin managed = Ok e' →
  engine_step now_ms e e'.
Proof.
  intros [Hwf Hsp Hmax Hkn] (Hm & Hkey & Hms & _ & Hdb & _)%start_Ok.
  split; [split| |exact Hkey].
  - rewrite Hkey, Hdb.
    apply (tables_wf_same (en_key e) (set_objects (en_db e) (interrupt <$> t_objects (en_db e))));
      [by apply tables_wf_interrupt|reflexivity..].
  - rewrite Hdb. exact Hsp.
  - rewrite Hms. lia.
  - rewrite Hdb. exact Hkn.
  - rewrite Hdb. apply objects_interrupt.
Qed.

Lemma no_tables_wf key : tables_wf key no_tables.
Proof.
  split; split; cbn [no_tables t_objects t_providers t_settings t_tokens].
  - intros k r H. by rewrite lookup_empty in H.
  - intros s. unfold bytes_in, objects_in. rewrite map_filter_empty, sum_over_empty, map_size_empty.
    split; [done|lia].
  - intros s. unfold generations. cbn. by rewrite map_filter_empty, map_size_empty.
  - intros k x H. by rewrite lookup_empty in H.
  - intros k r H. by rewrite lookup_empty in H.
  - intros s r H. by rewrite lookup_empty in H.
  - intros h r H. by rewrite lookup_empty in H.
  - intros h h' r r' H. by rewrite lookup_empty in H.
Qed.

Lemma fresh_engine_wf key aud max_spaces pin managed e :
  start no_tables key aud max_spaces pin managed = Ok e → engine_wf e.
Proof.
  intros (Hm & Hkey & Hms & _ & Hdb & _)%start_Ok.
  assert (set_objects no_tables (interrupt <$> t_objects no_tables) = no_tables) as E
    by (unfold no_tables, set_objects; cbn; by rewrite fmap_empty).
  rewrite E in Hdb. split; [rewrite Hdb|rewrite Hdb|rewrite Hms|rewrite Hdb]; cbn.
  - apply (tables_wf_same _ no_tables); [apply no_tables_wf|reflexivity..].
  - rewrite map_size_empty. lia.
  - lia.
  - intros k [x Hx]. by rewrite lookup_empty in Hx.
Qed.

Lemma observe_witness_Ok e f instant now_ms e' :
  observe_witness e f instant now_ms = Ok e' →
  check_witness e f instant now_ms = Ok tt
  ∧ ∃ fl rec, t_witness_floor (en_db e) = Some fl
     ∧ po_record_id (fr_position (vf_body f)) = Some rec
     ∧ e' = with_db e (set_floor (en_db e)
         (Some {| fl_pin := fl_pin fl; fl_sequence := po_sequence (fr_position (vf_body f));
                  fl_record := Some (display rec) |})).
Proof.
  unfold observe_witness. intros H. step H u Hu. step H q Hq. step H rc Hrc. step H fl Hfl.
  apply Ok_inj in H as <-. destruct u. apply integer_Ok in Hq as [-> _]. apply ok_or_Ok in Hrc, Hfl.
  split; [done|]. eauto.
Qed.

Lemma floor_engine_step now_ms e x :
  engine_wf e → engine_step now_ms e (with_db e (set_floor (en_db e) x)).
Proof.
  intros [Hwf Hsp Hmax Hkn].
  split; [split; [|exact Hsp|exact Hmax|exact Hkn]|constructor|reflexivity].
  apply (tables_wf_same (en_key e) (en_db e)); [exact Hwf|reflexivity..].
Qed.

End StorageSteps.

(** * The storage service: its invariant

    What holds in every state of the running service, and that every step keeps it. *)


(** Whole seconds, as deadlines in milliseconds are compared to them. *)
Definition tick (t : N) : N := t / 1000 * 1000.

Lemma tick_mono t t' : t ≤ t' → tick t ≤ tick t'.
Proof. intros H. unfold tick. pose proof (N.Div0.div_le_mono t t' 1000 H). lia. Qed.
Lemma tick_le t : tick t ≤ t.
Proof. unfold tick. pose proof (N.Div0.mul_div_le t 1000). lia. Qed.
Lemma wrapping_tick t : t ≤ u64_max → wrapping_mul (t / 1000) 1000 = tick t.
Proof.
  intros H. unfold wrapping_mul. apply N.mod_small. pose proof (tick_le t).
  assert (u64_max < 2 ^ 64) by done. unfold tick in *. lia.
Qed.
Lemma saturating_tick t : t ≤ u64_max → saturating_mul (t / 1000) 1000 = tick t.
Proof. intros H. unfold saturating_mul. pose proof (tick_le t). unfold tick in *. lia. Qed.

Lemma over_mono now now' r : now ≤ now' → over now r → over now' r.
Proof. intros H [|[]]; [by left|right]. split; [done|lia]. Qed.
Lemma over_not_uploading now r : over now r → row_state r ≠ "uploading".
Proof. by intros [->|[? _]]. Qed.

Section StorageWorld.
Context `{P : Platform} {S : AuthoritySerde} {W : WitnessSerde} {X : ProtocolSerde}.
Context `{C : Crypto} {B : StorageSerde} {L : PlatformLaws P} {CL : CryptoLaws C} {BL : StorageSerdeLaws B}.

Lemma provider_Ok e space rev p :
  provider e space rev = Ok p ↔
  rev < 9223372036854775808
  ∧ ∃ x, t_providers (en_db e) !! (space, rev) = Some x ∧ opens (en_key e) space rev x p.
Proof.
  unfold provider, opens. split.
  - intros H. step H rv Hrv. step H x Hx. step H u Hu. step H pl Hpl. apply ok_or_Ok in H, Hpl, Hx.
    apply integer_Ok in Hrv as [-> Hrv]. apply fail_if_Ok in Hu. ordered. eauto 10.
  - intros (Hr & x & Hx & Hl & pl & Hpl & Hp).
    rewrite (proj2 (integer_Ok rev rev)) by done. cbn [mbind result_bind].
    rewrite Hx. cbn [ok_or mbind result_bind]. rewrite fail_if_pass by (by apply N.ltb_ge).
    rewrite Hpl. cbn [ok_or mbind result_bind]. by rewrite Hp.
Qed.

(** The blob of an object is at its provider, with its size and hash. *)
Definition intact (bs : Blobs) (e : Engine) (o : Object) : Prop :=
  ∃ p b, provider e (ob_space o) (ob_revision o) = Ok p ∧ bs !! blob_key p o = Some b
         ∧ slen b = ob_size o ∧ encode_hex (sha256 b) = ob_hash o.

(** An upload's object is the row it claimed, which waits for it. *)
Definition upload_ok (w : World) (u : Upload) : Prop :=
  ∃ r, t_objects (en_db (wo_engine w)) !! object_key (up_object u) = Some r
    ∧ row_state r = "uploading" ∧ up_object u = set_state (or_object r) (ob_state (up_object u))
    ∧ (∀ p, up_provider u = Some p →
        provider (wo_engine w) (ob_space (up_object u)) (ob_revision (up_object u)) = Ok p)
    ∧ (up_stored u = true → intact (wo_blobs w) (wo_engine w) (up_object u)).

Definition garbage_ok (t : N) (w : World) (o : Object) : Prop :=
  ∃ r, t_objects (en_db (wo_engine w)) !! object_key o = Some r
    ∧ over (tick t) r ∧ o = set_state (or_object r) (ob_state o).

Record world_wf (t : N) (w : World) : Prop := {
  ww_engine : engine_wf (wo_engine w);
  ww_uploads u : u ∈ wo_uploads w → upload_ok w u;
  ww_upload_keys : NoDup ((λ u, object_key (up_object u)) <$> wo_uploads w);
  ww_slots : nlen (wo_uploads w) ≤ 8;
  ww_garbage g : g ∈ wo_garbage w → garbage_ok t w g.1;
  ww_garbage_keys : NoDup ((λ g, object_key g.1) <$> wo_garbage w);
  ww_blobs k r : t_objects (en_db (wo_engine w)) !! k = Some r →
    row_state r = "uploaded" ∨ row_state r = "complete" → tick t < ob_expires (or_object r) →
    intact (wo_blobs w) (wo_engine w) (or_object r);
}.

Lemma world_wf_later t t' w : t ≤ t' → world_wf t w → world_wf t' w.
Proof.
  intros Ht%tick_mono [H1 H2 H3 H4 H5 H6 H7]. split; try done.
  - intros g Hg. destruct (H5 g Hg) as (r & Hr & Ho & E). exists r. split; [done|].
    split; [by eapply over_mono|done].
  - intros k r Hk Hs Hd. apply (H7 k); [done..|lia].
Qed.

(** ** Steps that touch no upload and delete nothing *)

Record quiet_step (now_ms : N) (e e' : Engine) : Prop := {
  qs_step : engine_step now_ms e e';
  qs_uploading k r : t_objects (en_db e) !! k = Some r → row_state r = "uploading" →
    t_objects (en_db e') !! k = Some r;
  qs_alive k : is_Some (t_objects (en_db e) !! k) → is_Some (t_objects (en_db e') !! k);
  qs_providers k x : t_providers (en_db e) !! k = Some x → provider_used (en_db e) k = true →
    t_providers (en_db e') !! k = Some x;
}.

(** The provider of an object stays. *)
Lemma provider_stays e e' k r p :
  en_key e' = en_key e →
  (∀ k x, t_providers (en_db e) !! k = Some x → provider_used (en_db e) k = true →
     t_providers (en_db e') !! k = Some x) →
  t_objects (en_db e) !! k = Some r → row_wf k r →
  provider e (ob_space (or_object r)) (ob_revision (or_object r)) = Ok p →
  provider e' (ob_space (or_object r)) (ob_revision (or_object r)) = Ok p.
Proof.
  intros Hkey Hp Hr Hwf (Hlt & x & Hx & Ho)%provider_Ok. apply provider_Ok. split; [done|].
  exists x. rewrite Hkey. split; [|done]. apply Hp; [done|]. unfold provider_used.
  pose proof (object_uses_true _ _ _ Hr) as Hu. rewrite (rw_key _ _ Hwf) in Hu. cbn [fst] in Hu.
  by rewrite Hu.
Qed.

Lemma intact_stays bs e e' k r :
  en_key e' = en_key e →
  (∀ k x, t_providers (en_db e) !! k = Some x → provider_used (en_db e) k = true →
     t_providers (en_db e') !! k = Some x) →
  t_objects (en_db e) !! k = Some r → row_wf k r →
  intact bs e (or_object r) → intact bs e' (or_object r).
Proof.
  intros Hkey Hp Hr Hwf (p & b & Hpr & Hb). exists p, b. split; [|done].
  by eapply (provider_stays e).
Qed.

(** What a row's object needs does not look at its state. *)
Lemma intact_state bs e o s : intact bs e (set_state o s) ↔ intact bs e o.
Proof. done. Qed.
Lemma intact_same bs e r r' :
  same_object r r' → intact bs e (or_object r') ↔ intact bs e (or_object r).
Proof. intros ->. apply intact_state. Qed.

Lemma row_at t w k r :
  world_wf t w → t_objects (en_db (wo_engine w)) !! k = Some r → row_wf k r.
Proof. intros Hw. apply (ow_rows _ (tw_objects _ _ (en_tables _ (ww_engine _ _ Hw)))). Qed.

Lemma upload_row t w u r :
  world_wf t w → t_objects (en_db (wo_engine w)) !! object_key (up_object u) = Some r →
  up_object u = set_state (or_object r) (ob_state (up_object u)) →
  object_key (up_object u) = object_key (or_object r).
Proof. by intros _ _ ->. Qed.

(** An object that is over stays so. *)
Lemma over_step now r x :
  object_step now (Some r) x → over now r → is_Some x →
  ∃ r', x = Some r' ∧ over now r' ∧ same_object r r'.
Proof.
  intros Hstep Ho Hx.
  inversion Hstep as [y Hy Hy'|k2 r0 Hwf Hst|r0 r' Hs He Hc Heq1 Heq2|]; subst.
  - exists r. split; [done|]. split; [done|apply same_object_refl].
  - exists r'. split; [done|]. split; [|done].
    destruct (same_object_fields _ _ Hs) as (_ & _ & _ & _ & _ & Hexp).
    unfold over. rewrite Hexp. destruct Ho as [Hd|[Hn Hle]].
    + rewrite Hd in He. inversion He. by left.
    + destruct (decide (row_state r' = "uploading")) as [Hu|Hu]; [|by right].
      specialize (Hc Hu). lia.
  - by destruct Hx.
Qed.

(** A row that is now uploaded or complete already was, unless an upload ended. *)
Lemma settled_step now x r' :
  object_step now x (Some r') →
  row_state r' = "uploaded" ∨ row_state r' = "complete" →
  (∀ r, x = Some r → row_state r = "uploading" → r' = r) →
  ∃ r, x = Some r ∧ same_object r r' ∧ (row_state r = "uploaded" ∨ row_state r = "complete").
Proof.
  intros Hstep Hs Hq.
  inversion Hstep as [y Hy Hy'|k2 r0 Hwf Hst|r r0 Hso He Hc Heq1 Heq2|]; subst.
  - exists r'. split; [done|]. split; [apply same_object_refl|done].
  - destruct Hs as [Hs|Hs]; congruence.
  - exists r. split; [done|]. split; [done|].
    inversion He as [E1 E2|E1 E2|E1 E2|E1 E2|E1 E2|s Hin E1 E2]; rewrite <-E2 in Hs.
    + by destruct Hs.
    + rewrite (Hq r eq_refl (eq_sym E1)) in E2. congruence.
    + by destruct Hs.
    + by left.
    + by right.
    + by destruct Hs.
Qed.

Lemma quiet_world t w e' :
  world_wf t w → quiet_step (tick t) (wo_engine w) e' → world_wf t (upd_engine w e').
Proof.
  intros Hw [[Hwf Hobj Hkey] Hup Halive Hprov].
  pose proof (λ k, objects_step_at _ _ _ k Hobj) as Hat.
  pose proof Hw as [H1 H2 H3 H4 H5 H6 H7]. split; try done.
  - intros u Hu. destruct (H2 u Hu) as (r & Hr & Hs & E & Hpr & Hst). exists r.
    cbn [wo_engine upd_engine wo_blobs]. split; [by apply Hup|]. split; [done|]. split; [done|].
    split.
    + intros p Hp. specialize (Hpr p Hp). rewrite E in Hpr |- *.
      by apply (provider_stays (wo_engine w) e' _ r p Hkey Hprov Hr (row_at _ _ _ _ Hw Hr)).
    + intros Hsto. specialize (Hst Hsto). rewrite E in Hst |- *. apply intact_state in Hst.
      apply intact_state.
      by apply (intact_stays _ (wo_engine w) e' _ r Hkey Hprov Hr (row_at _ _ _ _ Hw Hr)).
  - intros g Hg. destruct (H5 g Hg) as (r & Hr & Ho & E).
    specialize (Hat (object_key g.1)). rewrite Hr in Hat.
    destruct (over_step _ _ _ Hat Ho) as (r' & Hr' & Ho' & Hs); [by apply Halive; rewrite Hr|].
    exists r'. split; [done|]. split; [done|]. rewrite E at 1. by rewrite Hs.
  - intros k r' Hk Hs Hd. cbn [wo_engine upd_engine wo_blobs] in *.
    specialize (Hat k). rewrite Hk in Hat.
    destruct (settled_step _ _ _ Hat Hs) as (r & Hr & Hso & Hsr).
    { intros r Hr Hu. pose proof (Hup k r Hr Hu). congruence. }
    apply (intact_same _ _ _ _ Hso).
    destruct (same_object_fields _ _ Hso) as (_ & _ & _ & _ & _ & Hexp). rewrite Hexp in Hd.
    apply (intact_stays _ (wo_engine w) e' k r Hkey Hprov Hr (row_at _ _ _ _ Hw Hr)).
    by apply (H7 k).
Qed.

(** ** The engine's quiet steps *)

Definition quiet_objects (m m' : Objects) : Prop :=
  (∀ k r, m !! k = Some r → row_state r = "uploading" → m' !! k = Some r)
  ∧ ∀ k, is_Some (m !! k) → is_Some (m' !! k).

Lemma quiet_refl m : quiet_objects m m.
Proof. done. Qed.
Lemma quiet_insert (m : Objects) k r' :
  (∀ r, m !! k = Some r → row_state r ≠ "uploading") → quiet_objects m (<[k := r']> m).
Proof.
  intros Hk. split.
  - intros k2 r H2 Hu. rewrite lookup_insert_ne; [done|]. intros <-. by apply (Hk r).
  - intros k2 H2. rewrite lookup_insert_is_Some. destruct (decide (k = k2)); [by left|by right].
Qed.

Lemma run_operation_quiet v aud tok config ip now t t' r :
  run_operation v aud tok config ip now t = Ok (t', r) →
  quiet_objects (t_objects t) (t_objects t')
  ∧ ∀ k x, t_providers t !! k = Some x → t_providers t' !! k = Some x.
Proof.
  unfold run_operation. intros H.
  assert (∀ cs, do_configure (display (sm_space_id (ve_command v))) cs.1 cs.2 ip now t
      = Ok (t', r) → t_objects t' = t_objects t
        ∧ ∀ k x, t_providers t !! k = Some x → t_providers t' !! k = Some x) as Hconf.
  { intros cs (_ & _ & Hn & t2 & -> & Hor)%do_configure_Ok.
    assert (∀ k x, t_providers t !! k = Some x →
      <[(display (sm_space_id (ve_command v)), cf_revision cs.1 + 1) := cs.2]> (t_providers t) !! k
        = Some x) as Hk.
    { intros k x Hk. rewrite lookup_insert_ne; [done|]. intros <-. congruence. }
    destruct Hor as [->|(y & ->)]; done. }
  destruct (sm_operation (ve_command v)) eqn:Hoper.
  - by apply status_response_Ok in H as ->.
  - step H cs Hcs. by destruct (Hconf cs H) as [-> ?].
  - step H cs Hcs. by destruct (Hconf cs H) as [-> ?].
  - by apply do_policy_Ok in H as [_ ->].
  - by apply do_disable_Ok in H as [_ ->].
  - apply do_reserve_Ok in H as (? & ? & ? & _ & _ & _ & _ & _ & Hn & _ & -> & _).
    split; [|done]. apply quiet_insert. intros r0 Hr0. congruence.
  - apply do_complete_Ok in H as (o & Ho & _ & _ & Hs & -> & _).
    split; [|done]. apply quiet_insert. intros r0 Hr0. assert (r0 = o) as -> by congruence.
    by destruct Hs as [-> | ->].
  - by apply do_download_Ok in H as (? & _ & _ & _ & _ & -> & _).
  - apply do_cancel_Ok in H as (o & Ho & _ & Hs & _ & -> & _).
    split; [|done]. apply quiet_insert. intros r0 Hr0. by assert (r0 = o) as -> by congruence.
Qed.

Lemma advance_head_same v t t' :
  advance_head v t = Ok t' → t_objects t' = t_objects t ∧ t_providers t' = t_providers t.
Proof. by intros [(_ & _ & ->)|(_ & h & _ & ->)]%advance_head_Ok. Qed.

Lemma applied_quiet now_ms v ip now managed draw e e' r :
  engine_wf e → (∀ d, draw = Some d → slen d = 24) →
  applied v ip now managed draw e e' r → quiet_step now_ms e e'.
Proof.
  intros Hwf Hd Ha. pose proof (applied_engine_step now_ms _ _ _ _ _ _ _ _ Hwf Hd Ha) as Hstep.
  destruct Ha as [-> _|config t1 t2 t3 _ _ Hop Hadv Hrec ->]; [by split|].
  destruct (run_operation_quiet _ _ _ _ _ _ _ _ _ Hop) as [[Hup Hal] Hpr].
  apply keep_receipt_Ok in Hrec as [_ ->]. destruct (advance_head_same _ _ _ Hadv) as [E1 E2].
  split; [done|..]; cbn [en_db with_db set_receipts t_objects t_providers]; rewrite ?E1, ?E2; eauto.
Qed.

Lemma claim_quiet object tok action now e e' o :
  engine_wf e → claim object tok action now e = Ok (e', o) →
  quiet_step (wrapping_mul now 1000) e e'.
Proof.
  intros Hwf Hc. pose proof (claim_engine_step _ _ _ _ _ _ _ Hwf Hc) as Hstep.
  apply claim_Ok in Hc as (row & h & r & _ & Hr & -> & _ & Hu & _ & Hdb & _).
  assert (quiet_objects (t_objects (en_db e)) (t_objects (en_db e'))) as [Hq1 Hq2].
  { rewrite Hdb. case_bool_decide as Ha; [|apply quiet_refl]. apply quiet_insert.
    intros r0 Hr0. assert (r0 = r) as -> by congruence. by rewrite (Hu Ha). }
  split; [done..|]. intros k x Hk _. rewrite Hdb. by case_bool_decide.
Qed.

Lemma floor_quiet now_ms e x :
  engine_wf e → quiet_step now_ms e (with_db e (set_floor (en_db e) x)).
Proof. intros Hwf. split; [by apply floor_engine_step|done..]. Qed.

Lemma prune_quiet now_ms now e : engine_wf e → quiet_step now_ms e (prune now e).1.
Proof.
  intros Hwf. pose proof (prune_engine_step now_ms now e Hwf) as Hstep.
  destruct (prune now e) as [e' x] eqn:Hp. cbn [fst] in *.
  destruct (prune_tables _ _ _ _ Hp) as [E|(ts & rs & gs & ps & E & _ & _ & _ & Huse)].
  - split; [done|..]; by rewrite E.
  - split; [done|..]; rewrite E; done.
Qed.

Lemma fetched_engine pin r encoded requested_at floor head_ instant now_ms cache e :
  let res := fetched_lease pin r encoded requested_at floor head_ instant now_ms cache e in
  res.1.2 = e
  ∨ ∃ f, observe_witness e f instant now_ms = Ok res.1.2.
Proof.
  cbv zeta. unfold fetched_lease.
  destruct (authorized_or _) as [f|]; [|by left].
  destruct (observe_witness e f instant now_ms) as [e'|] eqn:Ho; [|by left].
  cbn [fst snd]. right. by exists f.
Qed.
End StorageWorld.
