(* ===== verification/StorageSafety.v ===== *)
(** * The storage service keeps its invariant

    Every step of the running service, uploads, maintenance and restarts included, keeps the
    invariant, so it holds in every reachable state. *)

From S2P Require Import Prelude Sums Platform Ids Record Chat Identity AuthorityData AuthorityWitness Authority AuthorityProof ProofFacts WitnessWire Attachments StorageWire StorageEngine StorageService StorageFacts StorageInv StorageSteps.

Section StorageSafety.
Context `{P : Platform} {S : AuthoritySerde} {W : WitnessSerde} {X : ProtocolSerde}.
Context `{C : Crypto} {B : StorageSerde} {L : PlatformLaws P} {CL : CryptoLaws C} {BL : StorageSerdeLaws B}.

Lemma world_wf_same t w w' :
  wo_engine w' = wo_engine w → wo_uploads w' = wo_uploads w → wo_garbage w' = wo_garbage w →
  wo_blobs w' = wo_blobs w → world_wf t w → world_wf t w'.
Proof.
  intros E1 E2 E3 E4 [H1 H2 H3 H4 H5 H6 H7].
  split; rewrite ?E1, ?E2, ?E3, ?E4; try done.
  - intros u Hu. unfold upload_ok. rewrite E1, E4. by apply H2.
  - intros g Hg. unfold garbage_ok. rewrite E1. by apply H5.
Qed.

(** ** Blobs *)

Lemma intact_other bs e p o b o' :
  object_key o ≠ object_key o' → intact bs e o' → intact (set_blob (blob_key p o) b bs) e o'.
Proof.
  intros Hne (p' & b' & Hp & Hb & Hr). exists p', b'. split; [done|]. split; [|done].
  unfold set_blob. rewrite lookup_partial_alter_ne; [done|]. unfold blob_key. congruence.
Qed.

Lemma row_object_key t w k r :
  world_wf t w → t_objects (en_db (wo_engine w)) !! k = Some r → object_key (or_object r) = k.
Proof. intros Hw Hr. by rewrite (rw_key _ _ (row_at _ _ _ _ Hw Hr)). Qed.

(** A blob of the object of this key may change; the others stay. *)
Definition blobs_change (k : string * string) (bs bs' : Blobs) : Prop :=
  bs' = bs ∨ ∃ p o b, object_key o = k ∧ bs' = set_blob (blob_key p o) b bs.

Lemma blobs_change_other k bs bs' e o :
  blobs_change k bs bs' → object_key o ≠ k → intact bs e o → intact bs' e o.
Proof.
  intros [->|(p & o2 & b & Hk & ->)] Hne Hi; [done|]. apply intact_other; [congruence|done].
Qed.

(** ** Uploads *)

Lemma upload_keys_split us1 u us2 x :
  NoDup ((λ u, object_key (up_object u)) <$> (us1 ++ u :: us2)) →
  x ∈ us1 ++ us2 → object_key (up_object x) ≠ object_key (up_object u).
Proof.
  rewrite fmap_app, fmap_cons. intros Hn Hx Hk.
  rewrite NoDup_app in Hn. destruct Hn as (_ & Hd & Hn). apply NoDup_cons in Hn as [Hn _].
  apply elem_of_app in Hx as [Hx|Hx].
  - apply (Hd (object_key (up_object u))); [|by left]. rewrite <-Hk.
    apply list_elem_of_fmap. by exists x.
  - apply Hn. rewrite <-Hk. apply list_elem_of_fmap. by exists x.
Qed.

Lemma upload_stays w w' u k :
  upload_ok w u → wo_engine w' = wo_engine w → blobs_change k (wo_blobs w) (wo_blobs w') →
  object_key (up_object u) ≠ k → upload_ok w' u.
Proof.
  intros (r & Hr & Hs & E & Hp & Hst) E1 Hb Hne. exists r. rewrite E1.
  split; [done|]. split; [done|]. split; [done|]. split; [done|].
  intros Hsto. by eapply blobs_change_other; [| |apply Hst].
Qed.

(** A new upload has claimed its row. *)
Lemma add_upload t w u :
  world_wf t w → upload_ok w u → nlen (wo_uploads w) < 8 →
  (∀ x, x ∈ wo_uploads w → object_key (up_object x) ≠ object_key (up_object u)) →
  world_wf t (upd_uploads w (wo_engine w) (u :: wo_uploads w) (wo_blobs w)).
Proof.
  intros [H1 H2 H3 H4 H5 H6 H7] Hu Hn Hne. split; try done.
  - cbn [wo_uploads upd_uploads]. intros x [->|Hx]%elem_of_cons; [exact Hu|by apply H2].
  - cbn [wo_uploads upd_uploads]. rewrite fmap_cons. apply NoDup_cons. split; [|done].
    intros (x & Hk & Hx)%list_elem_of_fmap. by apply (Hne x).
  - cbn [wo_uploads upd_uploads]. unfold nlen in *. cbn [length]. lia.
Qed.

(** An upload moves on: its provider is opened or its blob written. *)
Lemma change_upload t w us1 u us2 u' bs :
  world_wf t w → wo_uploads w = us1 ++ u :: us2 → up_object u' = up_object u →
  blobs_change (object_key (up_object u)) (wo_blobs w) bs →
  (∀ p, up_provider u' = Some p →
     provider (wo_engine w) (ob_space (up_object u)) (ob_revision (up_object u)) = Ok p) →
  (up_stored u' = true → intact bs (wo_engine w) (up_object u)) →
  world_wf t (upd_uploads w (wo_engine w) (us1 ++ u' :: us2) bs).
Proof.
  intros Hw E Ho Hb Hp Hst. pose proof Hw as [H1 H2 H3 H4 H5 H6 H7].
  assert (∀ x, x ∈ us1 ++ us2 → object_key (up_object x) ≠ object_key (up_object u)) as Hne.
  { intros x. apply upload_keys_split. by rewrite <-E. }
  destruct (H2 u) as (r & Hr & Hs & Eu & _ & _); [rewrite E; apply elem_of_app; right; left|].
  split; cbn [upd_uploads wo_engine wo_uploads wo_garbage wo_blobs]; try done.
  - intros x Hx. assert (x = u' ∨ x ∈ us1 ++ us2) as [->|Hx'].
    { rewrite elem_of_app, elem_of_cons in Hx. rewrite elem_of_app. tauto. }
    + exists r. cbn [wo_engine upd_uploads wo_blobs]. rewrite Ho. done.
    + assert (x ∈ wo_uploads w) as Hxw.
      { rewrite E, elem_of_app, elem_of_cons. rewrite elem_of_app in Hx'. tauto. }
      apply (upload_stays w _ x (object_key (up_object u))); [|done|exact Hb|by apply Hne].
      by apply H2.
  - rewrite E in H3. rewrite fmap_app, fmap_cons in H3 |- *. by rewrite Ho.
  - rewrite E in H4. unfold nlen in *. rewrite length_app in H4 |- *. done.
  - intros k r' Hk Hs' Hd. eapply blobs_change_other; [exact Hb| |by apply (H7 k)].
    rewrite (row_object_key _ _ _ _ Hw Hk). intros ->. rewrite Hr in Hk. injection Hk as <-.
    rewrite Hs in Hs'. by destruct Hs'.
Qed.

Lemma uploaded_objects o success e r :
  t_objects (en_db e) !! object_key o = Some r → row_state r = "uploading" →
  t_objects (en_db (uploaded o success e))
  = <[object_key o := finish_upload success r]> (t_objects (en_db e)).
Proof. intros Hr Hs. unfold uploaded. cbn. by rewrite (alter_Some _ _ _ _ Hr). Qed.

(** The end of an upload: its row is uploaded, with its blob, or to be deleted. *)
Lemma end_upload t w us1 u us2 success bs :
  world_wf t w → wo_uploads w = us1 ++ u :: us2 →
  blobs_change (object_key (up_object u)) (wo_blobs w) bs →
  (success = true → intact bs (wo_engine w) (up_object u)) →
  world_wf t (upd_uploads w (uploaded (up_object u) success (wo_engine w)) (us1 ++ us2) bs).
Proof.
  intros Hw E Hb Hi. pose proof Hw as [H1 H2 H3 H4 H5 H6 H7].
  assert (∀ x, x ∈ us1 ++ us2 → object_key (up_object x) ≠ object_key (up_object u)) as Hne.
  { intros x. apply upload_keys_split. by rewrite <-E. }
  destruct (H2 u) as (r & Hr & Hs & Eu & _ & _); [rewrite E; apply elem_of_app; right; left|].
  pose proof (uploaded_objects _ success _ _ Hr Hs) as Hobj.
  assert (∀ o, provider (uploaded (up_object u) success (wo_engine w)) (ob_space o) (ob_revision o)
             = provider (wo_engine w) (ob_space o) (ob_revision o)) as Hprov by done.
  split; cbn [upd_uploads wo_engine wo_uploads wo_garbage wo_blobs]; try done.
  - by apply (es_wf (tick t) (wo_engine w)), (uploaded_engine_step _ _ _ _ r).
  - intros x Hx. destruct (H2 x) as (rx & Hrx & Hsx & Ex & Hpx & Hstx).
    { rewrite E, elem_of_app, elem_of_cons. apply elem_of_app in Hx. tauto. }
    exists rx. cbn [upd_uploads wo_engine wo_blobs]. rewrite Hobj, lookup_insert_ne
      by (intros Hk; by apply (Hne x)).
    split; [done|]. split; [done|]. split; [done|]. split; [done|].
    intros Hsto. by eapply blobs_change_other; [exact Hb|by apply Hne|apply Hstx].
  - rewrite E, fmap_app, fmap_cons in H3. rewrite fmap_app.
    apply NoDup_app in H3 as (N1 & N2 & N3). apply NoDup_cons in N3 as [N3 N4].
    apply NoDup_app. split; [done|]. split; [|done]. intros k Hk1 Hk2. apply (N2 k Hk1). by right.
  - rewrite E in H4. unfold nlen in *. rewrite length_app in H4 |- *. cbn [length] in H4. lia.
  - intros g Hg. destruct (H5 g Hg) as (rg & Hrg & Hog & Eg). exists rg.
    cbn [upd_uploads wo_engine]. rewrite Hobj, lookup_insert_ne; [done|].
    intros Hk. rewrite Hk, Hrg in Hr. injection Hr as ->. by eapply over_not_uploading.
  - intros k r' Hk Hs' Hd. rewrite Hobj in Hk. apply lookup_insert_Some in Hk as [[<- <-]|[Hk1 Hk]].
    + unfold finish_upload in *. rewrite bool_decide_eq_true_2 in * by done.
      cbn [or_object] in *. destruct success.
      * specialize (Hi eq_refl). rewrite Eu in Hi. exact Hi.
      * by destruct Hs'.
    + eapply blobs_change_other; [exact Hb| |by apply (H7 k)].
      rewrite (row_object_key _ _ _ _ Hw Hk). congruence.
Qed.

(** ** Maintenance *)

Lemma due_over now_ms now r : due now_ms now r = true → over now_ms r.
Proof.
  unfold due. intros [[Hu _]%andb_true_iff Hd]%andb_true_iff.
  apply negb_true_iff, bool_decide_eq_false in Hu. apply orb_true_iff in Hd as [Hd|Hd].
  - left. by apply bool_decide_eq_true in Hd.
  - right. split; [done|]. by apply N.leb_le.
Qed.

Lemma garbage_Ok rows now os :
  garbage rows now = Ok os →
  os = or_object <$> take 32 (List.filter (due (saturating_mul now 1000) now) rows)
  ∧ saturating_mul now 1000 < 9223372036854775808.
Proof.
  unfold garbage. intros H. step H ms Hms. step H n Hn. apply Ok_inj in H as <-.
  apply integer_Ok in Hms as [-> Hms], Hn as [-> _]. done.
Qed.

Lemma filter_sublist {A} (f : A → bool) l : sublist (List.filter f l) l.
Proof.
  induction l as [|x l IH]; [constructor|]. cbn [List.filter].
  destruct (f x); by constructor.
Qed.

Lemma garbage_start t w rows os :
  world_wf t w → t ≤ u64_max → wo_garbage w = [] →
  rows ≡ₚ (map_to_list (t_objects (en_db (wo_engine w)))).*2 →
  garbage rows (t / 1000) = Ok os →
  world_wf t (upd_garbage w (wo_engine w) ((λ o, (o, false)) <$> os) (wo_blobs w)).
Proof.
  intros Hw Ht Hg Hrows (-> & _)%garbage_Ok. rewrite saturating_tick by done.
  pose proof Hw as [H1 H2 H3 H4 H5 H6 H7].
  assert (∀ r, r ∈ rows → t_objects (en_db (wo_engine w)) !! object_key (or_object r) = Some r) as Hin.
  { intros r Hr. rewrite Hrows in Hr. apply list_elem_of_fmap in Hr as ([k r'] & -> & Hk).
    apply elem_of_map_to_list in Hk. cbn [snd]. by rewrite (row_object_key _ _ _ _ Hw Hk). }
  assert (NoDup ((λ r, object_key (or_object r)) <$> rows)) as Hnd.
  { rewrite Hrows, <-list_fmap_compose.
    assert (((λ r, object_key (or_object r)) ∘ snd) <$> map_to_list (t_objects (en_db (wo_engine w)))
      = (map_to_list (t_objects (en_db (wo_engine w)))).*1) as ->; [|apply NoDup_fst_map_to_list].
    apply list_fmap_ext. intros i [k r] Hi. cbn.
    apply list_elem_of_lookup_2, elem_of_map_to_list in Hi.
    by apply (row_object_key t w). }
  split; cbn [upd_garbage wo_engine wo_uploads wo_garbage wo_blobs]; try done.
  - intros g Hin2. rewrite <-list_fmap_compose in Hin2.
    apply list_elem_of_fmap in Hin2 as (r & -> & Hr).
    assert (r ∈ List.filter (due (tick t) (t / 1000)) rows) as Hf
      by (rewrite <-(take_drop 32 (List.filter _ rows)); apply elem_of_app; by left).
    apply filter_true in Hf as [Hr2 Hd]. exists r. cbn [fst upd_garbage wo_engine].
    split; [by apply Hin|]. split; [by eapply due_over|]. by destruct r as [[] ?].
  - rewrite <-!list_fmap_compose. cbn.
    eapply sublist_NoDup; [exact Hnd|]. apply fmap_sublist.
    etrans; [apply sublist_take|apply filter_sublist].
Qed.

(** An upload's row is not over, so no blob or row that maintenance touches is an upload's. *)
Lemma upload_not_over t w u k r :
  world_wf t w → u ∈ wo_uploads w → t_objects (en_db (wo_engine w)) !! k = Some r →
  over (tick t) r → object_key (up_object u) ≠ k.
Proof.
  intros Hw Hu Hr Ho <-. destruct (ww_uploads _ _ Hw u Hu) as (r' & Hr' & Hs & _).
  assert (r' = r) as -> by congruence. by eapply over_not_uploading.
Qed.

(** Maintenance moves through its list, and the blob of its first object may change. *)
Lemma garbage_next t w o c g g' bs :
  world_wf t w → wo_garbage w = (o, c) :: g →
  g' = g ∨ g' = (o, true) :: g ∨ g' = [] →
  blobs_change (object_key o) (wo_blobs w) bs →
  world_wf t (upd_garbage w (wo_engine w) g' bs).
Proof.
  intros Hw Eg Hg' Hb. pose proof Hw as [H1 H2 H3 H4 H5 H6 H7].
  destruct (H5 (o, c)) as (r & Hr & Ho & Eo); [rewrite Eg; by left|]. cbn [fst] in *.
  split; cbn [upd_garbage wo_engine wo_uploads wo_garbage wo_blobs]; try done.
  - intros u Hu. apply (upload_stays w _ u (object_key o)); [by apply H2|done|exact Hb|].
    by eapply upload_not_over.
  - intros x Hx. assert (∃ y, y ∈ wo_garbage w ∧ y.1 = x.1) as (y & Hy & <-).
    { rewrite Eg. destruct Hg' as [->|[-> | ->]].
      - exists x. split; [by right|done].
      - apply elem_of_cons in Hx as [->|Hx]; [exists (o, c)|exists x]; split; try done;
          [by left|by right].
      - by apply not_elem_of_nil in Hx. }
    by apply H5.
  - rewrite Eg, fmap_cons in H6. destruct Hg' as [->|[-> | ->]]; [|done|constructor].
    by apply NoDup_cons in H6 as [_ ?].
  - intros k r' Hk Hs Hd. eapply blobs_change_other; [exact Hb| |by apply (H7 k)].
    rewrite (row_object_key _ _ _ _ Hw Hk). intros ->. rewrite Hr in Hk. injection Hk as <-.
    destruct Ho as [Ho|[_ Ho]]; [|lia]. rewrite Ho in Hs. by destruct Hs.
Qed.

(** The deletion of the first object's row. *)
Lemma garbage_deleted t w o c g :
  world_wf t w → wo_garbage w = (o, c) :: g →
  world_wf t (upd_garbage w (deleted o (wo_engine w)) g (wo_blobs w)).
Proof.
  intros Hw Eg. pose proof Hw as [H1 H2 H3 H4 H5 H6 H7].
  destruct (H5 (o, c)) as (r & Hr & Ho & Eo); [rewrite Eg; by left|]. cbn [fst] in *.
  destruct (deleted_engine_step (tick t) o _ _ H1 Hr Ho (over_not_uploading _ _ Ho)) as [Hstep Hobj].
  assert (∀ o, provider (deleted o (wo_engine w)) = provider (wo_engine w)) as Hprov by done.
  split; cbn [upd_garbage wo_engine wo_uploads wo_garbage wo_blobs]; try done.
  - by eapply es_wf.
  - intros u Hu. destruct (H2 u Hu) as (ru & Hru & Hsu & Eu & Hpu & Hstu). exists ru.
    cbn [upd_garbage wo_engine wo_blobs]. rewrite Hobj. split; [|done].
    rewrite lookup_delete_ne; [done|]. intros Hk. symmetry in Hk. revert Hk.
    by eapply upload_not_over.
  - intros x Hx. destruct (H5 x) as (rx & Hrx & Hox & Ex); [rewrite Eg; by right|].
    exists rx. cbn [upd_garbage wo_engine]. rewrite Hobj. split; [|done].
    rewrite lookup_delete_ne; [done|]. intros Hk. rewrite Eg, fmap_cons in H6.
    apply NoDup_cons in H6 as [H6 _]. apply H6. apply list_elem_of_fmap. by exists x.
  - rewrite Eg, fmap_cons in H6. by apply NoDup_cons in H6 as [_ ?].
  - intros k r' Hk. rewrite Hobj in Hk. apply lookup_delete_Some in Hk as [_ Hk]. by apply (H7 k).
Qed.

(** ** Restart *)

Lemma restart_wf t w aud max_spaces pin managed e :
  world_wf t w →
  start (en_db (wo_engine w)) (en_key (wo_engine w)) aud max_spaces pin managed = Ok e →
  world_wf t
    {| wo_engine := e; wo_pin := pin; wo_managed := managed; wo_verified := [];
       wo_cache := ∅; wo_leases := []; wo_uploads := []; wo_garbage := [];
       wo_blobs := wo_blobs w |}.
Proof.
  intros Hw Hs. pose proof (start_engine_step (tick t) _ _ _ _ _ _ (ww_engine _ _ Hw) Hs) as [Hwf Hobj Hkey].
  apply start_Ok in Hs as (_ & _ & _ & _ & Hdb & _).
  split; cbn [wo_engine wo_uploads wo_garbage wo_blobs]; try done.
  - by intros u Hu%not_elem_of_nil.
  - constructor.
  - by intros g Hg%not_elem_of_nil.
  - constructor.
  - intros k r' Hk Hs Hd. pose proof (objects_step_at _ _ _ k Hobj) as Hat. rewrite Hk in Hat.
    destruct (settled_step _ _ _ Hat Hs) as (r & Hr & Hso & Hsr).
    { intros r Hr Hu. rewrite Hdb in Hk.
      cbn [t_objects set_floor set_objects] in Hk. rewrite lookup_fmap, Hr in Hk.
      cbn in Hk. injection Hk as <-. rewrite interrupt_state, bool_decide_eq_true_2 in Hs by done.
      by destruct Hs. }
    apply (intact_same _ _ _ _ Hso).
    destruct (same_object_fields _ _ Hso) as (_ & _ & _ & _ & _ & Hexp). rewrite Hexp in Hd.
    eapply (intact_stays _ (wo_engine w)); [done| |exact Hr|by eapply row_at|by apply (ww_blobs _ _ Hw k)].
    intros k2 x Hk2 _. by rewrite Hdb.
Qed.

(** ** Every step *)

Lemma apply_section_Ok f v ip managed draw instant now_ms now_ms' e e' r :
  apply_section f v ip managed draw instant now_ms now_ms' e = Ok (e', r) →
  check_witness e f instant now_ms = Ok tt
  ∧ applied v ip (now_ms' / 1000) managed draw e e' r.
Proof.
  unfold apply_section. intros H. step H u Hu. destruct u.
  split; [done|]. by apply apply_with_managed_Ok.
Qed.

Lemma claim_section_Ok target f object tok action instant now_ms now_ms' e e' o :
  claim_section target f object tok action instant now_ms now_ms' e = Ok (e', o) →
  check_witness e f instant now_ms = Ok tt
  ∧ token_target e object tok action (now_ms' / 1000) = Ok target
  ∧ claim object tok action (now_ms' / 1000) e = Ok (e', o).
Proof.
  unfold claim_section. intros H. step H u Hu. step H again Ha. step H u2 Hu2. destruct u.
  apply fail_if_Ok, bool_decide_eq_negb_false in Hu2. by subst again.
Qed.

Lemma upload_claimed t w object tok now e o :
  world_wf t w → claim object tok "upload" now (wo_engine w) = Ok (e, o) →
  wrapping_mul now 1000 = tick t → nlen (wo_uploads w) < 8 →
  world_wf t (upd_uploads w e
    ({| up_object := o; up_provider := None; up_stored := false |} :: wo_uploads w) (wo_blobs w)).
Proof.
  intros Hw Hc Htick Hn. pose proof (claim_quiet _ _ _ _ _ _ _ (ww_engine _ _ Hw) Hc) as Hq.
  rewrite Htick in Hq. pose proof (quiet_world _ _ _ Hw Hq) as Hw'.
  apply claim_Ok in Hc as (row & h & r & _ & Hr & -> & _ & Hu & _ & Hdb & _).
  pose proof (row_object_key _ _ _ _ Hw Hr) as Hk.
  apply (add_upload t (upd_engine w e) {| up_object := or_object r; up_provider := None;
           up_stored := false |}); [done| |done|].
  - exists (begin_upload (saturating_add now 100) r). cbn [upd_engine wo_engine up_object].
    rewrite Hk, Hdb, bool_decide_eq_true_2 by done. cbn [t_objects set_tokens set_objects].
    rewrite lookup_insert_eq.
    split; [done|]. split; [done|]. split; [by destruct r as [[] ?]|]. done.
  - intros x Hx. cbn [up_object]. rewrite Hk. intros E.
    destruct (ww_uploads _ _ Hw x Hx) as (r' & Hr' & Hs & _). rewrite E, Hr in Hr'.
    injection Hr' as <-. by rewrite Hu in Hs.
Qed.

Lemma forward_valid expected chunks : expected < u64_max → ∀ seen,
  let r := forward expected seen chunks in
  r.2 = false → r.1.1 = seen + slen r.1.2.
Proof.
  intros He. induction chunks as [|c chunks IH]; intros seen; cbn [forward].
  - cbn. change (slen "") with 0. lia.
  - destruct (N.ltb_spec expected (saturating_add seen (slen c))) as [|Hle]; [done|].
    cbn [fst snd]. intros H. rewrite IH by done. rewrite slen_app.
    revert Hle. unfold saturating_add. lia.
Qed.

(** What a valid upload has put at its provider. *)
Lemma put_intact bs e o p chunks :
  provider e (ob_space o) (ob_revision o) = Ok p → ob_size o < u64_max →
  let r := forward (ob_size o) 0 chunks in
  upload_valid o r = true → intact (set_blob (blob_key p o) (Some r.1.2) bs) e o.
Proof.
  cbv zeta. intros Hp Ho Hv. unfold upload_valid in Hv.
  apply andb_true_iff in Hv as [[Hv1 Hv2]%andb_true_iff Hv3].
  apply negb_true_iff in Hv1. apply N.eqb_eq in Hv2. apply bool_decide_eq_true in Hv3.
  exists p, (forward (ob_size o) 0 chunks).1.2. split; [done|].
  split; [unfold set_blob; apply lookup_partial_alter_eq|]. split; [|done].
  pose proof (forward_valid (ob_size o) chunks Ho 0 Hv1) as Hl. cbv zeta in Hl. lia.
Qed.

Lemma upload_size t w u :
  world_wf t w → u ∈ wo_uploads w → ob_size (up_object u) < u64_max.
Proof.
  intros Hw Hu. destruct (ww_uploads _ _ Hw u Hu) as (r & Hr & _ & -> & _).
  pose proof (rw_size _ _ (row_at _ _ _ _ Hw Hr)) as [_ Hle].
  assert (encrypted_size MAX_ATTACHMENT_FILE_SIZE < u64_max) by done. cbn [ob_size set_state]. lia.
Qed.

(** Every step of the service keeps its invariant. *)
Lemma storage_step_wf t t1 t2 w w' :
  world_wf t w → t ≤ t1 → t1 ≤ t2 → t2 ≤ u64_max → storage_step t1 t2 w w' → world_wf t2 w'.
Proof.
  intros Hw0 H1 H2 Hmax Hstep.
  assert (world_wf t2 w) as Hw by (apply (world_wf_later t); [lia|done]).
  pose proof (ww_engine _ _ Hw) as He.
  destruct Hstep as [request v Hv|scope head_ f instant Hf|r encoded requested_at floor head_ instant res
    |v f ip managed draw instant e r Hv Hf Hm Hd Ha|target f object tok instant e o Hf Hc
    |target f object tok instant e o Hf Hn Hc|us1 us2 o p E Hp|us1 us2 o p chunks E r Hv
    |us1 us2 o p E|us1 us2 u bs E Hb|rows os Hg Hr Hos|o p g Eg Hp|o g Eg|o c g bs Eg Hb| |Hg
    |aud max_spaces pin managed e Hs].
  - by apply (world_wf_same t2 w).
  - by apply (world_wf_same t2 w).
  - destruct (fetched_engine (wo_pin w) r encoded requested_at floor head_ instant t1
      (wo_cache w) (wo_engine w)) as [E|(f & Hf)].
    + apply (world_wf_same t2 w); try done; exact E.
    + apply observe_witness_Ok in Hf as (_ & fl & rc & _ & _ & E).
      eapply (world_wf_same t2 (upd_engine w res.1.2)); [done..|].
      unfold res. rewrite E. by apply quiet_world, floor_quiet.
  - apply apply_section_Ok in Ha as [_ Ha]. by eapply quiet_world, applied_quiet.
  - apply claim_section_Ok in Hc as (_ & _ & Hc). apply quiet_world; [done|].
    rewrite <-(wrapping_tick t2) by done. by eapply claim_quiet.
  - apply claim_section_Ok in Hc as (_ & _ & Hc). eapply upload_claimed; [done|exact Hc| |done].
    by apply wrapping_tick.
  - eapply change_upload; [done|exact E|done|by left| |done]. intros p' [= <-]. done.
  - set (u := {| up_object := o; up_provider := Some p; up_stored := false |}) in E.
    assert (u ∈ wo_uploads w) as Hu by (rewrite E; apply elem_of_app; right; left).
    destruct (ww_uploads _ _ Hw u Hu) as (r0 & _ & _ & _ & Hp & _). specialize (Hp p eq_refl).
    eapply change_upload; [done|exact E|done| |by intros p' [= <-]|].
    + right. by exists p, o, (Some r.1.2).
    + intros _. apply put_intact; [done| |done]. by apply (upload_size t2 w u).
  - apply (end_upload t2 w us1 _ us2 true (wo_blobs w) Hw E); [by left|].
    intros _. destruct (ww_uploads _ _ Hw {| up_object := o; up_provider := Some p; up_stored := true |})
      as (r0 & _ & _ & _ & _ & Hi); [rewrite E; apply elem_of_app; right; left|]. by apply Hi.
  - apply (end_upload t2 w us1 u us2 false bs Hw E); [|done].
    destruct (up_provider u) as [p|]; [|by left]. destruct Hb as (b & ->). right. eauto.
  - apply (world_wf_later t1); [done|]. eapply garbage_start; [|lia|done|exact Hr|exact Hos].
    by apply (world_wf_later t).
  - eapply garbage_next; [done|exact Eg|by right; left|]. right. eauto.
  - by eapply garbage_deleted.
  - eapply garbage_next; [done|exact Eg|by left|].
    destruct Hb as [->|(p & _ & ->)]; [by left|right; eauto].
  - destruct (wo_garbage w) as [|[o c] g] eqn:Eg.
    + apply (world_wf_same t2 w); done.
    + eapply garbage_next; [done|exact Eg|by right; right|by left].
  - by apply quiet_world, prune_quiet.
  - by eapply restart_wf.
Qed.

Lemma fresh_world_wf key aud max_spaces pin managed blobs w t :
  fresh_world key aud max_spaces pin managed blobs = Ok w → world_wf t w.
Proof.
  unfold fresh_world. intros H. step H e He. apply Ok_inj in H as <-.
  pose proof (fresh_engine_wf _ _ _ _ _ _ He) as Hwf.
  apply start_Ok in He as (_ & _ & _ & _ & Hdb & _).
  split; cbn [wo_engine wo_uploads wo_garbage wo_blobs]; try done.
  - by intros u Hu%not_elem_of_nil.
  - constructor.
  - by intros g Hg%not_elem_of_nil.
  - constructor.
  - intros k r Hk. exfalso. rewrite Hdb in Hk. cbn in Hk.
    by rewrite fmap_empty, lookup_empty in Hk.
Qed.

Lemma storage_run_wf t0 w0 t w :
  storage_run t0 w0 t w → world_wf t0 w0 → t0 ≤ u64_max → t ≤ u64_max ∧ t0 ≤ t ∧ world_wf t w.
Proof.
  induction 1 as [|t w t1 t2 w' Hrun IH H1 H2 H3 Hstep]; intros Hw Ht; [done|].
  destruct (IH Hw Ht) as (Ht' & Hle & Hw'). split; [done|]. split; [lia|].
  by apply (storage_step_wf t t1 t2 w w').
Qed.

Lemma serving_wf t w : serving t w → t ≤ u64_max ∧ world_wf t w.
Proof.
  intros [key aud max_spaces pin managed blobs w0 t0 t' w' Hf Ht Hrun].
  pose proof (fresh_world_wf _ _ _ _ _ _ _ t0 Hf) as Hw.
  by destruct (storage_run_wf _ _ _ _ Hrun Hw Ht) as (? & _ & ?).
Qed.
End StorageSafety.
