(* ===== verification/StorageTheorems.v ===== *)
(** * Theorems about the storage service

    What the broker promises: attachments stay intact until their deadline, quotas hold,
    requests are authentic and act once, and neither the authority nor the witness rolls
    back. *)

From S2P Require Import Prelude Sums Platform Ids Record Chat Identity AuthorityData AuthorityWitness Authority AuthorityProof AuthorityInv AuthorityFacts ProofFacts WitnessWire Attachments StorageWire StorageEngine StorageService StorageFacts StorageInv StorageSteps StorageSafety.

Section StorageTheorems.
Context `{P : Platform} {S : AuthoritySerde} {W : WitnessSerde} {X : ProtocolSerde}.
Context `{C : Crypto} {B : StorageSerde} {L : PlatformLaws P} {CL : CryptoLaws C} {BL : StorageSerdeLaws B}.

(** ** Steps and runs *)

Lemma quiet_engine now e e' : quiet_step now e e' → engine_step now e e'.
Proof. apply qs_step. Qed.
Lemma engine_step_refl now e : engine_wf e → engine_step now e e.
Proof. intros H. split; [done|constructor|done]. Qed.

(** The engine takes one engine step in every step of the service. *)
Lemma storage_step_engine t t1 t2 w w' :
  world_wf t w → t ≤ t1 → t1 ≤ t2 → t2 ≤ u64_max → storage_step t1 t2 w w' →
  engine_step (tick t2) (wo_engine w) (wo_engine w').
Proof.
  intros Hw0 H1 H2 Hmax Hstep.
  assert (world_wf t2 w) as Hw by (apply (world_wf_later t); [lia|done]).
  pose proof (ww_engine _ _ Hw) as He.
  assert (∀ u b, u ∈ wo_uploads w →
    engine_step (tick t2) (wo_engine w) (uploaded (up_object u) b (wo_engine w))) as Hup.
  { intros u b Hu. destruct (ww_uploads _ _ Hw u Hu) as (r & Hr & Hs & _).
    by eapply uploaded_engine_step. }
  destruct Hstep as [request v Hv|scope head_ f instant Hf|r encoded requested_at floor head_ instant res
    |v f ip managed draw instant e r Hv Hf Hm Hd Ha|target f object tok instant e o Hf Hc
    |target f object tok instant e o Hf Hn Hc|us1 us2 o p E Hp|us1 us2 o p chunks E r Hv
    |us1 us2 o p E|us1 us2 u bs E Hb|rows os Hg Hr Hos|o p g Eg Hp|o g Eg|o c g bs Eg Hb| |Hg
    |aud max_spaces pin managed e Hs]; cbn [wo_engine upd_engine upd_uploads upd_garbage upd_leases upd_verified];
    try (by apply engine_step_refl).
  - destruct (fetched_engine (wo_pin w) r encoded requested_at floor head_ instant t1
      (wo_cache w) (wo_engine w)) as [E|(f & Hf)].
    + unfold res. rewrite E. by apply engine_step_refl.
    + apply observe_witness_Ok in Hf as (_ & fl & rc & _ & _ & E).
      unfold res. rewrite E. by apply floor_engine_step.
  - apply apply_section_Ok in Ha as [_ Ha]. by eapply applied_engine_step.
  - apply claim_section_Ok in Hc as (_ & _ & Hc). rewrite <-(wrapping_tick t2) by done.
    by eapply claim_engine_step.
  - apply claim_section_Ok in Hc as (_ & _ & Hc). rewrite <-(wrapping_tick t2) by done.
    by eapply claim_engine_step.
  - apply (Hup {| up_object := o; up_provider := Some p; up_stored := true |}).
    rewrite E. apply elem_of_app. right. by left.
  - apply Hup. rewrite E. apply elem_of_app. right. by left.
  - destruct (ww_garbage _ _ Hw (o, true)) as (r & Hr & Ho & _); [rewrite Eg; by left|].
    by eapply deleted_engine_step, over_not_uploading.
  - by apply prune_engine_step.
  - by eapply start_engine_step.
Qed.

Lemma run_trans t0 w0 t1 w1 t2 w2 :
  storage_run t0 w0 t1 w1 → storage_run t1 w1 t2 w2 → storage_run t0 w0 t2 w2.
Proof. intros H. induction 1; [done|by eapply srun_next]. Qed.
Lemma serving_run_on t w t' w' : serving t w → storage_run t w t' w' → serving t' w'.
Proof.
  intros [key aud max_spaces pin managed blobs w0 t0 t1 w1 Hf Ht Hrun] Hrun'.
  eapply serving_run; [exact Hf|exact Ht|]. by eapply run_trans.
Qed.

(** What every step keeps, every run keeps. *)
Lemma run_invariant (R : N → World → Prop) t w t' w' :
  serving t w → storage_run t w t' w' → R t w →
  (∀ s u s1 s2 u', serving s u → storage_run t w s u → s ≤ s1 → s1 ≤ s2 → s2 ≤ u64_max →
     s2 ≤ t' → storage_step s1 s2 u u' → R s u → R s2 u') →
  R t' w'.
Proof.
  intros Hs Hrun HR Hstep. pose proof (proj1 (serving_wf _ _ Hs)) as Hmax.
  enough (∀ s u, storage_run t w s u → s ≤ t' → R s u) as H by (by apply H).
  induction 1 as [|s u s1 s2 u' Hrun' IH H1 H2 H3 Hst]; intros Hle; [done|].
  apply (Hstep s u s1 s2 u'); try done; [by eapply serving_run_on|apply IH; lia].
Qed.

(** C7. Integrity: in every state the service can reach, the blob of every attachment that
    was uploaded or completed and has not expired is at its provider, whose sealed
    credentials still open, with exactly the announced size and hash. *)
Theorem stored_attachments_intact t w (Hs : serving t w) k r :
  t_objects (en_db (wo_engine w)) !! k = Some r →
  row_state r = "uploaded" ∨ row_state r = "complete" →
  t / 1000 * 1000 < ob_expires (or_object r) →
  ∃ p b, provider (wo_engine w) k.1 (ob_revision (or_object r)) = Ok p
    ∧ wo_blobs w !! (p, k) = Some b
    ∧ slen b = ob_size (or_object r) ∧ encode_hex (sha256 b) = ob_hash (or_object r).
Proof.
  intros Hk Hst Hd. apply serving_wf in Hs as [_ Hw].
  destruct (ww_blobs _ _ Hw k r Hk Hst Hd) as (p & b & Hp & Hb).
  rewrite (rw_key _ _ (row_at _ _ _ _ Hw Hk)). by exists p, b.
Qed.

(** C21. Each step of the service moves an object at most one edge along its life cycle:
    reserved as pending, claimed once by an unexpired upload, uploaded, completed, and
    removed only when it is to be deleted or past its deadline; its owner, size, hash,
    provider and deadline never change. *)
Theorem object_life_cycle t w (Hs : serving t w) t1 t2 w'
    (Hrun : storage_run t w t2 w') (H1 : t ≤ t1) (H2 : t1 ≤ t2) (Hstep : storage_step t1 t2 w w') k :
  object_step (t2 / 1000 * 1000) (t_objects (en_db (wo_engine w)) !! k)
    (t_objects (en_db (wo_engine w')) !! k).
Proof.
  pose proof (serving_wf _ _ Hs) as [_ Hw].
  pose proof (serving_wf _ _ (serving_run_on _ _ _ _ Hs Hrun)) as [Hmax _].
  apply objects_step_at. by eapply es_objects, storage_step_engine.
Qed.

Lemma complete_step now x r :
  object_step now (Some r) x → row_state r = "complete" → now < ob_expires (or_object r) →
  ∃ r2, x = Some r2 ∧ or_object r2 = or_object r.
Proof.
  intros Hstep Hr Hd.
  inversion Hstep as [y Hy Hy'|k2 r0 Hwf Hst|r0 r2 Hs He Hc Heq1 Heq2|r0 Ho]; subst.
  - by exists r.
  - exists r2. split; [done|]. rewrite Hr in He. inversion He as [| | | |E1 E2|s Hin E1 E2].
    + rewrite Hs, <-E2. unfold row_state in Hr. by destruct r as [[] ?]; cbn in *; subst.
    + exfalso. clear -Hin. set_solver.
  - exfalso. destruct Ho as [Ho|[_ Ho]]; [congruence|lia].
Qed.

(** Once an attachment is complete it stays so, whatever the service does, restarts and
    maintenance included, until its deadline. *)
Theorem complete_until_deadline t w (Hs : serving t w) t' w' (Hrun : storage_run t w t' w') k r
    (Hk : t_objects (en_db (wo_engine w)) !! k = Some r) (Hc : row_state r = "complete")
    (Hd : t' / 1000 * 1000 < ob_expires (or_object r)) :
  ∃ r', t_objects (en_db (wo_engine w')) !! k = Some r' ∧ or_object r' = or_object r.
Proof.
  apply (run_invariant (λ _ u, ∃ r', t_objects (en_db (wo_engine u)) !! k = Some r'
           ∧ or_object r' = or_object r) t w t' w' Hs Hrun); [by exists r|].
  intros s u s1 s2 u' Hsu _ H1 H2 Hmax Hle Hstep (r1 & Hr1 & E).
  pose proof (serving_wf _ _ Hsu) as [_ Hw].
  pose proof (objects_step_at _ _ _ k (es_objects _ _ _ (storage_step_engine _ _ _ _ _ Hw H1 H2 Hmax Hstep))) as Hat.
  rewrite Hr1 in Hat. pose proof (tick_mono _ _ Hle) as Ht.
  destruct (complete_step _ _ _ Hat) as (r2 & Hr2 & E2).
  - unfold row_state in *. by rewrite E.
  - rewrite E. unfold tick in *. lia.
  - exists r2. split; [done|]. by rewrite E2.
Qed.

(** ** Bounds *)

Lemma make_room_size (cache : Cache) scope :
  N.of_nat (size cache) ≤ 128 → cache !! scope = None →
  N.of_nat (size (make_room cache scope)) < 128.
Proof.
  intros H Hn. unfold make_room. rewrite (bool_decide_eq_true_2 (cache !! scope = None)) by done.
  destruct (N.leb_spec 128 (N.of_nat (size cache))) as [Hle|]; cbn [andb]; [|done].
  destruct (merge_sort scope_le (map_to_list cache)) as [|kv l] eqn:Hm.
  - exfalso. pose proof (merge_sort_Permutation scope_le (map_to_list cache)) as Hp.
    rewrite Hm in Hp. apply Permutation_length in Hp. rewrite length_map_to_list in Hp.
    cbn in Hp. lia.
  - assert (kv ∈ map_to_list cache) as Hin.
    { rewrite <-(merge_sort_Permutation scope_le), Hm. by left. }
    destruct kv as [k v]. apply elem_of_map_to_list in Hin. cbn [fst].
    rewrite map_size_delete_Some by eauto. lia.
Qed.
Lemma cache_lease_size (cache : Cache) scope f instant now_ms :
  N.of_nat (size cache) ≤ 128 →
  N.of_nat (size (cache_lease cache scope f instant now_ms)) ≤ 128.
Proof.
  intros H. unfold cache_lease. set (c := filter _ cache).
  assert (N.of_nat (size c) ≤ 128) as Hc.
  { enough (size c ≤ size cache)%nat by lia. apply size_le. intros k v Hk.
    apply map_lookup_filter_Some in Hk as [Hk _]. eauto. }
  destruct (c !! scope) as [x|] eqn:Hx.
  - assert (make_room c scope = c) as ->.
    { unfold make_room. rewrite (bool_decide_eq_false_2 (c !! scope = None)) by congruence.
      by rewrite andb_false_r. }
    rewrite map_size_insert_Some by eauto. lia.
  - pose proof (make_room_size c scope Hc Hx).
    destruct (make_room c scope !! scope) as [y|] eqn:Hy.
    + rewrite map_size_insert_Some by eauto. lia.
    + rewrite map_size_insert_None by done. lia.
Qed.

Lemma step_cache t1 t2 w w' :
  storage_step t1 t2 w w' → N.of_nat (size (wo_cache w)) ≤ 128 →
  N.of_nat (size (wo_cache w')) ≤ 128.
Proof.
  intros Hstep H. destruct Hstep; try done.
  cbn [wo_cache upd_leases]. subst res. unfold fetched_lease.
  destruct (authorized_or (verify_freshness _ _ _ _ _ _ _)) as [f|]; [|done]. destruct (observe_witness _ _ _ _); [|done].
  by apply cache_lease_size.
Qed.

(** Bounds: no Space ever stores more than 50,000,000 bytes, 1024 objects or 32
    generations of provider credentials; the broker serves at most 128 Spaces, and only
    registered ones hold anything; at most 8 uploads run and 128 leases are kept. *)
Theorem storage_bounded_per_space t w (Hs : serving t w) :
  (∀ s, stored_bytes (en_db (wo_engine w)) s ≤ 50000000
        ∧ (size (space_objects (en_db (wo_engine w)) s) ≤ 1024)%nat
        ∧ generations (en_db (wo_engine w)) s ≤ 32)
  ∧ (size (t_heads (en_db (wo_engine w))) ≤ 128)%nat
  ∧ (∀ k, is_Some (t_objects (en_db (wo_engine w)) !! k) →
       is_Some (t_heads (en_db (wo_engine w)) !! k.1))
  ∧ nlen (wo_uploads w) ≤ 8
  ∧ N.of_nat (size (wo_cache w)) ≤ 128.
Proof.
  pose proof (serving_wf _ _ Hs) as [_ Hw]. pose proof (ww_engine _ _ Hw) as He.
  pose proof (en_tables _ He) as [Hwo Hwp _].
  split; [|split; [|split; [|split]]].
  - intros s. destruct (ow_quota _ Hwo s) as [H1 H2]. split; [exact H1|]. split; [exact H2|].
    apply (pw_generations _ _ Hwp).
  - apply He.
  - intros k [r Hr]. destruct (pw_objects _ _ Hwp k r Hr) as [x Hx].
    apply (en_known _ He (k.1, ob_revision (or_object r))). by exists x.
  - by apply ww_slots in Hw.
  - destruct Hs as [key aud max_spaces pin managed blobs w0 t0 t1 w1 Hf Ht Hrun].
    assert (N.of_nat (size (wo_cache w0)) ≤ 128) as H0.
    { unfold fresh_world in Hf. step Hf e He0. apply Ok_inj in Hf as <-. cbn [wo_cache].
      rewrite map_size_empty. lia. }
    clear -Hrun H0. induction Hrun; [done|]. by eapply step_cache.
Qed.

(** The credentials an attachment needs are never lost: for every object of every
    reachable state, and for the enabled settings of every Space, the sealed provider
    generation they name is kept and opens to a provider. *)
Theorem provider_secrets_kept t w (Hs : serving t w) :
  (∀ k r, t_objects (en_db (wo_engine w)) !! k = Some r →
     ∃ p, provider (wo_engine w) k.1 (ob_revision (or_object r)) = Ok p)
  ∧ ∀ s r, t_settings (en_db (wo_engine w)) !! s = Some r → st_enabled r = true →
     ∃ p, provider (wo_engine w) s (st_provider_revision r) = Ok p.
Proof.
  pose proof (serving_wf _ _ Hs) as [_ Hw]. pose proof (en_tables _ (ww_engine _ _ Hw)) as [_ Hwp _].
  assert (∀ s n, is_Some (t_providers (en_db (wo_engine w)) !! (s, n)) →
            ∃ p, provider (wo_engine w) s n = Ok p) as Hopen.
  { intros s n [x Hx]. destruct (pw_secrets _ _ Hwp _ _ Hx) as (Hn & p & Hp). exists p.
    apply provider_Ok. eauto. }
  split.
  - intros k r Hk. apply Hopen. by apply (pw_objects _ _ Hwp).
  - intros s r Hr He. apply Hopen. by apply (pw_settings _ _ Hwp).
Qed.

End StorageTheorems.
