(* ===== verification/StorageFences.v ===== *)
(** * Authentic requests, fences and maintenance of the storage service

    Who a request comes from, that heads and the witness floor only move forward, that a
    command and a transfer token work once, and that maintenance drains what is over. *)

From S2P Require Import Prelude Platform Ids Record Chat Identity AuthorityData AuthorityWitness Authority AuthorityProof AuthorityInv AuthorityFacts ProofFacts WitnessWire Attachments StorageWire StorageEngine StorageService StorageFacts StorageInv StorageSteps StorageSafety StorageTheorems.

Section StorageFences.
Context `{P : Platform} {S : AuthoritySerde} {W : WitnessSerde} {X : ProtocolSerde}.
Context `{C : Crypto} {B : StorageSerde} {L : PlatformLaws P} {CL : CryptoLaws C} {BL : StorageSerdeLaws B}.

(** ** Authentic requests *)

(** A device that may send commands, and write if the command does. *)
Definition sending_member (a : Authority) (id : RecordId) (write : bool) : Prop :=
  ∃ h m device, head_config a = Ok h ∧ m ∈ sc_members h ∧ sc_chat_kind h = Some KChat
    ∧ credential a id = Ok device ∧ m_identity_id m = vc_identity device
    ∧ id ∈ m_credential_ids m ∧ has_capability m Read = true
    ∧ (write = true → has_capability m Post = true).

Lemma require_member_Ok a id write u :
  require_member a id write = Ok u →
  is_owner_managed a = true ∧ forked a = false ∧ sending_member a id write.
Proof.
  unfold require_member. intros H. step H u1 H1. step H g Hg. step H h Hh. step H u2 H2.
  step H device Hdev. apply fail_if_Ok, negb_false_iff, existsb_true in H as (m & Hm & Ha).
  apply fail_if_Ok, orb_false_iff in H1 as [H1 Hf]. apply negb_false_iff in H1.
  split; [done|]. split; [done|].
  destruct (sg_nonce g =/= display (stream a)); [done|].
  apply fail_if_Ok, bool_decide_eq_negb_false in H2.
  unfold admits_device in Ha. rewrite !andb_true_iff, orb_true_iff, contains_true in Ha.
  destruct Ha as (((Hi & Hc) & Hr) & Hw). apply bool_decide_eq_true in Hi.
  exists h, m, device. split_and!; try done. intros ->. by destruct Hw.
Qed.

Lemma verify_command_Ok a signed aud now c :
  verify_command a signed aud now = Ok c →
  decode signed = Ok c ∧ sm_audience c = aud ∧ sm_space_id c = space a ∧ sm_stream_id c = stream a
  ∧ head a = Some (sm_config_id c)
  ∧ sm_issued_at c ≤ now + 15 ∧ now < sm_expires_at c
  ∧ sm_expires_at c ≤ sm_issued_at c + operation_ttl (sm_operation c)
  ∧ require_member a (sm_credential_id c) (writes (sm_operation c)) = Ok tt
  ∧ (∃ device, credential a (sm_credential_id c) = Ok device
               ∧ verify_signature signed (vc_key device) = Ok tt)
  ∧ (owner_only (sm_operation c) = true → can_manage a (sm_credential_id c) = true)
  ∧ operation_validate (sm_operation c) = Ok tt ∧ work_ok c = Ok tt.
Proof.
  unfold verify_command. intros H. step H cmd Hcmd. step H u1 H1. step H n Hn. step H u2 H2.
  step H device Hdev. step H u3 H3. step H u4 H4. step H u5 H5. step H u6 H6.
  apply Ok_inj in H as ->. destruct u2, u3, u5, u6. apply fail_if_Ok in H1, H4.
  rewrite !orb_false_iff in H1. destruct_and! H1. ordered.
  repeat match goal with H : _ =/= _ = false |- _ => apply bool_decide_eq_negb_false in H end.
  split; [done|]. split; [done|]. split; [done|]. split; [done|]. split; [done|].
  unfold saturating_add in *. split; [lia|]. split; [lia|]. split; [lia|]. split; [done|].
  split; [eauto|]. split; [|done].
  intros Ho. rewrite Ho in H4. by apply negb_false_iff in H4.
Qed.

(** What an admitted request guarantees. *)
Record authentic (v : Verified) (signed : SignedRecord) (aud : string) (now : N) : Prop := {
  au_request : ve_request_id v = record_id signed;
  au_command : decode signed = Ok (ve_command v);
  au_audience : sm_audience (ve_command v) = aud;
  au_proof : verified_as (sm_space_id (ve_command v)) (sm_stream_id (ve_command v)) (ve_authority v);
  au_space : space (ve_authority v) = sm_space_id (ve_command v);
  au_head : head (ve_authority v) = Some (sm_config_id (ve_command v));
  au_managed : is_owner_managed (ve_authority v) = true ∧ forked (ve_authority v) = false;
  au_fresh : sm_issued_at (ve_command v) ≤ now + 15 ∧ now < sm_expires_at (ve_command v)
    ∧ sm_expires_at (ve_command v)
      ≤ sm_issued_at (ve_command v) + operation_ttl (sm_operation (ve_command v));
  au_member : sending_member (ve_authority v) (sm_credential_id (ve_command v))
                (writes (sm_operation (ve_command v)));
  au_signed : ∃ device, credential (ve_authority v) (sm_credential_id (ve_command v)) = Ok device
                ∧ verify_signature signed (vc_key device) = Ok tt;
  au_owner : owner_only (sm_operation (ve_command v)) = true →
    can_manage (ve_authority v) (sm_credential_id (ve_command v)) = true;
  au_valid : operation_validate (sm_operation (ve_command v)) = Ok tt;
  au_work : work_ok (ve_command v) = Ok tt;
}.

Lemma verify_authentic request aud now pin v :
  verify request aud now pin = Ok v →
  ∃ bytes signed, base64_decode (rq_command request) = Some bytes ∧ parse bytes = Ok signed
    ∧ authentic v signed aud now
    ∧ verify_witnessed (rq_proof request) (sm_space_id (ve_command v)) (sm_stream_id (ve_command v))
        pin = Ok (ve_authority v).
Proof.
  unfold verify. intros H. step H u1 H1. step H bytes Hb. step H signed Hs. step H c0 Hc0.
  step H cred Hcred. step H u2 H2. step H a Ha. step H c Hc. apply Ok_inj in H as <-.
  apply ok_or_Ok in Hb. apply authorized_or_Ok in Hs, Hc0, Ha, Hc.
  apply verify_command_Ok in Hc as (Hd & Haud & Hsp & Hst & Hh & Hi & He & Ht & Hm & Hsig & Ho & Hv & Hw).
  rewrite Hd in Hc0. apply Ok_inj in Hc0 as ->.
  pose proof (require_member_Ok _ _ _ _ Hm) as (Hom & Hf & Hmem).
  exists bytes, signed. split; [done|]. split; [done|]. split; [|done]. split; try done.
  unfold verify_witnessed in Ha. step Ha u Hu. cbn. by exists (rq_proof request), (Some pin).
Qed.

(** C27. An admitted request carries a current command for this broker, signed by a device of
    a reading member (posting, if it writes) under the head of an unforked owner-managed
    chat, proved against the operator's witness; only owners configure, and registering a
    Space costs its proof of work. *)
Theorem storage_request_authentic request aud now pin v
    (H : verify request aud now pin = Ok v) :
  ∃ bytes signed, base64_decode (rq_command request) = Some bytes ∧ parse bytes = Ok signed
    ∧ authentic v signed aud now
    ∧ verify_witnessed (rq_proof request) (sm_space_id (ve_command v)) (sm_stream_id (ve_command v))
        pin = Ok (ve_authority v).
Proof. by apply verify_authentic. Qed.

Definition admitted (v : Verified) : Prop :=
  ∃ request aud now pin, verify request aud now pin = Ok v.

Lemma step_admitted t1 t2 w w' :
  storage_step t1 t2 w w' → (∀ v, v ∈ wo_verified w → admitted v) →
  ∀ v, v ∈ wo_verified w' → admitted v.
Proof.
  intros Hstep Hw. destruct Hstep; try done; [|by intros v Hv%not_elem_of_nil].
  cbn [wo_verified upd_verified]. intros v2 [->|Hv2]%elem_of_cons; [|by apply Hw].
  by exists request, (en_audience (wo_engine w)), (t1 / 1000), (wo_pin w).
Qed.
Lemma serving_admitted t w : serving t w → ∀ v, v ∈ wo_verified w → admitted v.
Proof.
  intros [key aud max_spaces pin managed blobs w0 t0 t1 w1 Hf Ht Hrun].
  assert (wo_verified w0 = []) as E.
  { unfold fresh_world in Hf. step Hf e He. by apply Ok_inj in Hf as <-. }
  clear Hf. induction Hrun; [|by eapply step_admitted]. rewrite E. by intros v Hv%not_elem_of_nil.
Qed.

(** ** What a step does to the other tables *)

Lemma run_operation_rest v aud tok config ip now t t' r :
  run_operation v aud tok config ip now t = Ok (t', r) → same_rest t t'.
Proof.
  unfold run_operation. intros H.
  destruct (sm_operation (ve_command v)) eqn:Hoper.
  - by apply status_response_Ok in H as ->.
  - step H cs Hcs. apply do_configure_Ok in H as (_ & _ & _ & t2 & -> & [->|(x & ->)]); done.
  - step H cs Hcs. apply do_configure_Ok in H as (_ & _ & _ & t2 & -> & [->|(x & ->)]); done.
  - by apply do_policy_Ok in H as [_ ->].
  - by apply do_disable_Ok in H as [_ ->].
  - by apply do_reserve_Ok in H as (? & ? & ? & _ & _ & _ & _ & _ & _ & _ & -> & _).
  - by apply do_complete_Ok in H as (? & _ & _ & _ & _ & -> & _).
  - by apply do_download_Ok in H as (? & _ & _ & _ & _ & -> & _).
  - by apply do_cancel_Ok in H as (? & _ & _ & _ & _ & -> & _).
Qed.

(** The fences, receipts and floor change only by a command, by pruning, by an observed
    lease and by the first pin. *)
Inductive rest_step (t1 t2 : N) (w : World) (e' : Engine) : Prop :=
| rest_same : same_rest (en_db (wo_engine w)) (en_db e') → rest_step t1 t2 w e'
| rest_pruned :
    t_heads (en_db e') = t_heads (en_db (wo_engine w)) →
    t_receipts (en_db e') = filter (λ kv, t1 / 1000 - 60 ≤ rr_expires kv.2)
                              (t_receipts (en_db (wo_engine w))) →
    t_witness_floor (en_db e') = t_witness_floor (en_db (wo_engine w)) → rest_step t1 t2 w e'
| rest_observed f instant :
    observe_witness (wo_engine w) f instant t1 = Ok e' → rest_step t1 t2 w e'
| rest_pinned :
    t_heads (en_db e') = t_heads (en_db (wo_engine w)) →
    t_receipts (en_db e') = t_receipts (en_db (wo_engine w)) →
    (∀ f, t_witness_floor (en_db (wo_engine w)) = Some f → t_witness_floor (en_db e') = Some f) →
    rest_step t1 t2 w e'
| rest_applied v f ip managed draw instant r :
    v ∈ wo_verified w → check_witness (wo_engine w) f instant t1 = Ok tt →
    applied v ip (t2 / 1000) managed draw (wo_engine w) e' r → rest_step t1 t2 w e'.

Lemma claim_rest object tok action now e e' o :
  claim object tok action now e = Ok (e', o) → same_rest (en_db e) (en_db e').
Proof.
  intros (row & h & r & _ & _ & _ & _ & _ & _ & -> & _)%claim_Ok. by case_bool_decide.
Qed.

Lemma storage_step_rest t1 t2 w w' :
  storage_step t1 t2 w w' → rest_step t1 t2 w (wo_engine w').
Proof.
  intros Hstep. destruct Hstep as [request v Hv|scope head_ f instant Hf|r encoded requested_at floor head_ instant res
    |v f ip managed draw instant e r Hv Hf Hm Hd Ha|target f object tok instant e o Hf Hc
    |target f object tok instant e o Hf Hn Hc|us1 us2 o p E Hp|us1 us2 o p chunks E r Hv
    |us1 us2 o p E|us1 us2 u bs E Hb|rows os Hg Hr Hos|o p g Eg Hp|o g Eg|o c g bs Eg Hb| |Hg
    |aud max_spaces pin managed e Hs]; cbn [wo_engine upd_engine upd_uploads upd_garbage upd_leases upd_verified];
    try (by apply rest_same).
  - destruct (fetched_engine (wo_pin w) r encoded requested_at floor head_ instant t1
      (wo_cache w) (wo_engine w)) as [E|(f & Hf)].
    + apply rest_same. unfold res. by rewrite E.
    + eapply rest_observed. exact Hf.
  - apply apply_section_Ok in Ha as [Hc Ha]. by eapply rest_applied.
  - apply claim_section_Ok in Hc as (_ & _ & Hc). by eapply rest_same, claim_rest.
  - apply claim_section_Ok in Hc as (_ & _ & Hc). by eapply rest_same, claim_rest.
  - destruct (prune (t1 / 1000) (wo_engine w)) as [e' x] eqn:Hp. cbn [fst].
    destruct (prune_tables _ _ _ _ Hp) as [E|(ts & rs & gs & ps & E & Hrs & _)].
    + apply rest_same. by rewrite E.
    + apply rest_pruned; rewrite E; [done|exact Hrs|done].
  - apply start_Ok in Hs as (_ & _ & _ & _ & Hdb & Hfl & _).
    apply rest_pinned; [by rewrite Hdb|by rewrite Hdb|exact Hfl].
Qed.

(** ** Heads *)

(** How the fence of a Space may move: to a verified head whose proof contains it. *)
Inductive head_step (s : string) (r : HeadRow) : HeadRow → Prop :=
| head_moves v old h :
    admitted v → display (sm_space_id (ve_command v)) = s →
    hd_stream r = display (sm_stream_id (ve_command v)) →
    parse_hex 32 (hd_head r) = Some old →
    head (ve_authority v) = Some (sm_config_id (ve_command v)) →
    head_config (ve_authority v) = Ok h →
    sm_config_id (ve_command v) = old
    ∨ proves_config_at (ve_authority v) old (hd_sequence r) = true ∧ hd_sequence r < sc_sequence h →
    head_step s r {| hd_stream := hd_stream r; hd_head := display (sm_config_id (ve_command v));
                     hd_sequence := sc_sequence h |}.

Lemma fence_ok_Ok row v u :
  fence_ok row v = Ok u →
  ∃ old, parse_hex 32 (hd_head row) = Some old
    ∧ hd_stream row = display (sm_stream_id (ve_command v))
    ∧ (sm_config_id (ve_command v) = old
       ∨ sm_config_id (ve_command v) ≠ old
         ∧ proves_config_at (ve_authority v) old (hd_sequence row) = true).
Proof.
  unfold fence_ok. cbv zeta. intros H. step H old Hold. apply ok_or_Ok in Hold.
  apply fail_if_Ok, orb_false_iff in H as [H1 H2]. apply bool_decide_eq_negb_false in H1.
  exists old. split; [done|]. split; [done|]. apply andb_false_iff in H2.
  destruct (decide (sm_config_id (ve_command v) = old)) as [E|E]; [by left|right].
  split; [done|]. destruct H2 as [H2|H2]; [|by apply negb_false_iff].
  by apply bool_decide_eq_negb_false in H2.
Qed.

Lemma applied_head v ip now managed draw e e' r s row :
  admitted v → applied v ip now managed draw e e' r → t_heads (en_db e) !! s = Some row →
  ∃ row', t_heads (en_db e') !! s = Some row' ∧ (row' = row ∨ head_step s row row').
Proof.
  intros Hv [-> _|config t1 t2 t3 Hp _ Hop Hadv Hrec ->] Hrow; [by eauto|].
  apply preflight_Ok in Hp as (Hauth & _). destruct (run_operation_rest _ _ _ _ _ _ _ _ _ Hop) as (Hh & _).
  apply keep_receipt_Ok in Hrec as [_ ->]. cbn [en_db with_db set_receipts t_heads].
  apply advance_head_Ok in Hadv as [(_ & _ & ->)|(_ & h & Hhc & ->)]; [rewrite Hh; eauto|].
  cbn [set_heads t_heads]. rewrite Hh. destruct (decide (display (sm_space_id (ve_command v)) = s)) as [<-|Hne];
    [|rewrite lookup_insert_ne by done; eauto].
  rewrite lookup_insert_eq, Hrow. eexists. split; [done|]. right.
  unfold authorize in Hauth. step Hauth u1 H1. step Hauth u2 H2. rewrite Hrow in H2.
  apply fence_ok_Ok in H2 as (old & Hold & Hstream & Hor).
  pose proof Hv as (request & aud & at_ & pin & Hver).
  apply verify_authentic in Hver as (bytes & signed & _ & _ & Ha & _).
  eapply head_moves; [done|done|done|exact Hold|apply Ha|done|].
  destruct Hor as [?|[Hne Hpr]]; [by left|right]. split; [done|].
  eapply (owner_managed_newer _ _ _ old); [apply Ha|apply (au_managed _ _ _ _ Ha)|apply Ha|done|done|done].
Qed.

(** A Space's authority never rolls back: once registered its fence keeps its stream for
    good, and only ever moves to the head of a verified authority that proves the old head
    at its sequence and is newer. *)
Theorem storage_head_forward t w (Hs : serving t w) t' w' (Hrun : storage_run t w t' w') s r
    (Hr : t_heads (en_db (wo_engine w)) !! s = Some r) :
  ∃ r', t_heads (en_db (wo_engine w')) !! s = Some r' ∧ rtc (head_step s) r r'
    ∧ hd_stream r' = hd_stream r.
Proof.
  apply (run_invariant (λ _ u, ∃ r', t_heads (en_db (wo_engine u)) !! s = Some r'
    ∧ rtc (head_step s) r r' ∧ hd_stream r' = hd_stream r) t w t' w' Hs Hrun); [by exists r|].
  intros x u s1 s2 u' Hsu _ _ _ _ _ Hstep (r1 & Hr1 & Hrtc & Hst).
  pose proof (serving_admitted _ _ Hsu) as Hadm.
  assert (∀ e', t_heads (en_db e') = t_heads (en_db (wo_engine u)) →
    ∃ r', t_heads (en_db e') !! s = Some r' ∧ rtc (head_step s) r r' ∧ hd_stream r' = hd_stream r)
    as Hsame by (intros e' ->; eauto).
  destruct (storage_step_rest _ _ _ _ Hstep) as [(E & _)|E _ _|f instant Hf|E _ _|v f ip managed draw instant r0 Hv _ Ha].
  - by apply Hsame.
  - by apply Hsame.
  - apply Hsame. by apply observe_witness_Ok in Hf as (_ & fl & rc & _ & _ & ->).
  - by apply Hsame.
  - destruct (applied_head _ _ _ _ _ _ _ _ _ _ (Hadm v Hv) Ha Hr1) as (r2 & Hr2 & [->|Hm]); [eauto|].
    exists r2. split; [done|]. split; [by eapply rtc_r|]. rewrite <-Hst. by destruct Hm.
Qed.

(** ** The witness floor *)

Definition floor_le (f f' : FloorRow) : Prop :=
  fl_pin f' = fl_pin f
  ∧ (fl_sequence f < fl_sequence f'
     ∨ fl_sequence f' = fl_sequence f ∧ (fl_sequence f = 0 ∨ fl_record f' = fl_record f)).

Lemma floor_le_refl f : floor_le f f.
Proof. split; [done|right]. split; [done|by right]. Qed.
Lemma floor_le_trans f1 f2 f3 : floor_le f1 f2 → floor_le f2 f3 → floor_le f1 f3.
Proof.
  unfold floor_le. intros [E1 H1] [E2 H2]. split; [congruence|].
  destruct H1 as [H1|[H1 H1']], H2 as [H2|[H2 H2']]; [left; lia|left; lia|left; lia|right].
  split; [congruence|]. destruct H1' as [?|?]; [by left|]. destruct H2' as [?|?]; [left|right]; congruence.
Qed.

(** An accepted lease is at the floor or past it. *)
Lemma check_witness_Ok e f instant now_ms u fl :
  check_witness e f instant now_ms = Ok u → t_witness_floor (en_db e) = Some fl →
  freshness_is_valid f instant now_ms = true
  ∧ (fl_sequence fl ≠ 0 →
     fl_sequence fl ≤ po_sequence (fr_position (vf_body f))
     ∧ (po_sequence (fr_position (vf_body f)) = fl_sequence fl →
        display <$> po_record_id (fr_position (vf_body f)) = fl_record fl)).
Proof.
  unfold check_witness, witness_position. intros H Hfl. step H u1 H1. step H fl' Hpos.
  rewrite Hfl in Hpos. apply fail_if_Ok in H1, H. apply negb_false_iff in H1. split; [done|].
  intros Hne. rewrite (proj2 (N.eqb_neq _ _)) in Hpos by done.
  step Hpos txt Htext. step Hpos rc Hrc. apply Ok_inj in Hpos as <-. apply ok_or_Ok in Htext, Hrc.
  unfold behind_floor in H. cbn [po_sequence po_record_id] in H.
  apply orb_false_iff in H as [H2 H3]. ordered. split; [done|].
  intros E. rewrite E, N.eqb_refl in H3. cbn [andb] in H3.
  apply bool_decide_eq_negb_false in H3. rewrite H3, Htext. cbn. f_equal.
  by apply parse_hex_inv in Hrc as [-> _].
Qed.

Lemma floor_run t w t' w' f :
  serving t w → storage_run t w t' w' → t_witness_floor (en_db (wo_engine w)) = Some f →
  ∃ f', t_witness_floor (en_db (wo_engine w')) = Some f' ∧ floor_le f f'.
Proof.
  intros Hs Hrun Hf. apply (run_invariant (λ _ u, ∃ f', t_witness_floor (en_db (wo_engine u)) = Some f'
    ∧ floor_le f f') t w t' w' Hs Hrun); [exists f; split; [done|apply floor_le_refl]|].
  intros x u s1 s2 u' _ _ _ _ _ _ Hstep (f1 & Hf1 & Hle).
  assert (∀ e', t_witness_floor (en_db e') = t_witness_floor (en_db (wo_engine u)) →
    ∃ f', t_witness_floor (en_db e') = Some f' ∧ floor_le f f') as Hsame by (intros e' ->; eauto).
  destruct (storage_step_rest _ _ _ _ Hstep) as [(_ & _ & E)|_ _ E|fr instant Ho|_ _ Hp|v fr ip managed draw instant r0 Hv _ Ha].
  - by apply Hsame.
  - by apply Hsame.
  - apply observe_witness_Ok in Ho as (Hc & fl & rc & Hfl & Hrc & ->).
    cbn [en_db with_db set_floor t_witness_floor]. eexists. split; [done|].
    eapply floor_le_trans; [exact Hle|]. assert (f1 = fl) as -> by congruence.
    destruct (check_witness_Ok _ _ _ _ _ _ Hc Hfl) as [_ Hn].
    split; [done|]. cbn [fl_sequence fl_record].
    destruct (decide (fl_sequence fl = 0)) as [E0|E0].
    + destruct (decide (po_sequence (fr_position (vf_body fr)) = 0)); [right|left; lia].
      split; [congruence|by left].
    + destruct (Hn E0) as [Hge Heq].
      destruct (decide (po_sequence (fr_position (vf_body fr)) = fl_sequence fl)) as [E1|E1];
        [right|left; lia].
      split; [done|right]. by rewrite <-Heq, Hrc.
  - exists f1. split; [by apply Hp|done].
  - apply Hsame. destruct Ha as [-> _|config t1 t2 t3 _ _ Hop Hadv Hrec ->]; [done|].
    destruct (run_operation_rest _ _ _ _ _ _ _ _ _ Hop) as (_ & _ & <-).
    apply keep_receipt_Ok in Hrec as [_ ->].
    by apply advance_head_Ok in Hadv as [(_ & _ & ->)|(_ & h & _ & ->)].
Qed.

(** The witness position the broker has seen never goes back: across every run, under
    one pin, its sequence only grows, and at the same sequence its record stays; so every
    lease the broker accepts from then on is valid and at that position or past it. *)
Theorem witness_floor_forward t w (Hs : serving t w) t' w' (Hrun : storage_run t w t' w') f
    (Hf : t_witness_floor (en_db (wo_engine w)) = Some f) :
  (∃ f', t_witness_floor (en_db (wo_engine w')) = Some f' ∧ floor_le f f')
  ∧ ∀ lease instant now_ms, check_witness (wo_engine w') lease instant now_ms = Ok tt →
      freshness_is_valid lease instant now_ms = true
      ∧ fl_sequence f ≤ po_sequence (fr_position (vf_body lease)).
Proof.
  destruct (floor_run _ _ _ _ _ Hs Hrun Hf) as (f' & Hf' & Hle). split; [by exists f'|].
  intros lease instant now_ms Hc. destruct (check_witness_Ok _ _ _ _ _ _ Hc Hf') as [Hv Hn].
  split; [done|]. destruct Hle as [_ Hle].
  destruct (decide (fl_sequence f' = 0)) as [E|E]; [lia|]. destruct (Hn E) as [? _]. lia.
Qed.
End StorageFences.
