(* ===== verification/StorageOnce.v ===== *)
(** * Once-only commands and tokens, and maintenance

    A command acts once and answers the same afterwards, a transfer token works once, and
    maintenance removes everything that is over. *)

From S2P Require Import Prelude Sums Platform Ids Record Chat Identity AuthorityData AuthorityWitness Authority AuthorityProof AuthorityInv AuthorityFacts ProofFacts WitnessWire Attachments StorageWire StorageEngine StorageService StorageFacts StorageInv StorageSteps StorageSafety StorageTheorems StorageFences.

Section StorageOnce.
Context `{P : Platform} {S : AuthoritySerde} {W : WitnessSerde} {X : ProtocolSerde}.
Context `{C : Crypto} {B : StorageSerde} {L : PlatformLaws P} {CL : CryptoLaws C} {BL : StorageSerdeLaws B}.

(** ** Receipts *)

(** The receipt of a command: its request, and a response that replays as [r]. *)
Definition remembers (key : string) (request : RecordId) (r : Response) (row : ReceiptRow) : Prop :=
  rr_request row = display request
  ∧ ∃ saved, from_json (rr_response row) = Some saved
      ∧ with_token saved (encode_hex (hmac_sha256 key
          ("elo.now/storage-transfer/v1" +:+ nul +:+ request))) = r.

Lemma replay_Some e v r :
  replay e v = Ok (Some r) ↔
  ∃ row, t_receipts (en_db e) !! receipt_key (ve_command v) = Some row
    ∧ remembers (en_key e) (ve_request_id v) r row.
Proof.
  unfold replay, remembers, token. split.
  - destruct (t_receipts (en_db e) !! receipt_key (ve_command v)) as [row|]; [|done].
    case_bool_decide as Hr; [|done]. intros H. step H saved Hsaved. apply ok_or_Ok in Hsaved.
    apply Ok_inj, Some_inj in H as <-. exists row. split; [done|]. split; [done|]. by exists saved.
  - intros (row & -> & Hr & saved & Hs & <-). rewrite (bool_decide_eq_true_2 _ Hr), Hs. done.
Qed.

(** Transfer responses carry the token of their request. *)
Lemma run_operation_token v aud tok config ip now t t' r :
  run_operation v aud tok config ip now t = Ok (t', r) → with_token r tok = r.
Proof.
  unfold run_operation. intros H.
  assert (∀ t s t' r, status_response t s = Ok (t', r) → with_token r tok = r) as Hst.
  { intros t0 s t1 r0 H0. unfold status_response in H0. step H0 x Hx.
    by apply Ok_inj, pair_eq in H0 as [_ <-]. }
  assert (∀ cs, do_configure (display (sm_space_id (ve_command v))) cs.1 cs.2 ip now t = Ok (t', r) →
    with_token r tok = r) as Hconf.
  { intros cs H0. unfold do_configure in H0. cbv zeta in H0. step H0 u1 H1. step H0 rv H2.
    step H0 ps H3. step H0 t2 H4. by eapply Hst. }
  destruct (sm_operation (ve_command v)) eqn:Hoper.
  - by eapply Hst.
  - step H cs Hcs. by eapply Hconf.
  - step H cs Hcs. by eapply Hconf.
  - unfold do_policy in H. step H u1 H1. by eapply Hst.
  - unfold do_disable in H. step H u1 H1. by eapply Hst.
  - by apply do_reserve_Ok in H as (? & ? & ? & _ & _ & _ & _ & _ & _ & _ & _ & ->).
  - by apply do_complete_Ok in H as (? & _ & _ & _ & _ & _ & ->).
  - by apply do_download_Ok in H as (? & _ & _ & _ & _ & _ & ->).
  - by apply do_cancel_Ok in H as (? & _ & _ & _ & _ & _ & ->).
Qed.

Lemma with_token_twice r a b : with_token (with_token r a) b = with_token r b.
Proof. by destruct r. Qed.

(** A command leaves its receipt. *)
Lemma applied_receipt v ip now managed draw e e' r :
  applied v ip now managed draw e e' r →
  ∃ row, t_receipts (en_db e') !! receipt_key (ve_command v) = Some row
    ∧ remembers (en_key e') (ve_request_id v) r row.
Proof.
  intros [-> Hp|config t1 t2 t3 _ _ Hop Hadv Hrec ->].
  - apply preflight_Ok in Hp as (_ & _ & Hr). by apply replay_Some.
  - apply keep_receipt_Ok in Hrec as [_ ->]. exists (receipt_of v r now).
    cbn [en_db with_db set_receipts t_receipts]. split; [apply lookup_insert_eq|].
    split; [done|]. exists (with_token r ""). split; [apply response_round_trip|].
    rewrite with_token_twice. by eapply run_operation_token.
Qed.

(** Receipts stay until a minute after their command expired. *)
Lemma receipt_stays t1 t2 w w' k row :
  storage_step t1 t2 w w' → t1 ≤ t2 → t_receipts (en_db (wo_engine w)) !! k = Some row →
  t_receipts (en_db (wo_engine w')) !! k = Some row ∨ rr_expires row < t2 / 1000.
Proof.
  intros Hstep H12 Hk.
  destruct (storage_step_rest _ _ _ _ Hstep) as [(_ & E & _)|_ E _|fr instant Ho|_ E _|v fr ip managed draw instant r0 Hv _ Ha].
  - left. by rewrite E.
  - rewrite E. destruct (N.le_gt_cases (t1 / 1000 - 60) (rr_expires row)) as [Hle|Hgt].
    + left. by apply map_lookup_filter_Some.
    + right. pose proof (N.Div0.div_le_mono t1 t2 1000 H12). lia.
  - left. by apply observe_witness_Ok in Ho as (_ & fl & rc & _ & _ & ->).
  - left. by rewrite E.
  - left. destruct Ha as [-> _|config ta tb tc _ _ Hop Hadv Hrec ->]; [done|].
    destruct (run_operation_rest _ _ _ _ _ _ _ _ _ Hop) as (_ & Er & _).
    apply keep_receipt_Ok in Hrec as [Hn ->]. cbn [en_db with_db set_receipts t_receipts].
    assert (t_receipts tb = t_receipts (en_db (wo_engine w))) as Eb.
    { rewrite <-Er. by apply advance_head_Ok in Hadv as [(_ & _ & ->)|(_ & h & _ & ->)]. }
    rewrite Eb in Hn |- *. rewrite lookup_insert_ne; [done|]. intros <-. congruence.
Qed.

Lemma run_key t w t' w' :
  serving t w → storage_run t w t' w' → en_key (wo_engine w') = en_key (wo_engine w).
Proof.
  intros Hs Hrun.
  apply (run_invariant (λ _ u, en_key (wo_engine u) = en_key (wo_engine w)) t w t' w' Hs Hrun); [done|].
  intros s u s1 s2 u' Hsu _ H1 H2 Hmax _ Hstep <-. pose proof (serving_wf _ _ Hsu) as [_ Hw].
  by eapply es_key, storage_step_engine.
Qed.

(** The receipt of a command, until the command has expired. *)
Definition remembered (key : string) (v : Verified) (r : Response) (t : N) (w : World) : Prop :=
  (∃ row, t_receipts (en_db (wo_engine w)) !! receipt_key (ve_command v) = Some row
          ∧ remembers key (ve_request_id v) r row
          ∧ rr_expires row = sm_expires_at (ve_command v))
  ∨ sm_expires_at (ve_command v) < t / 1000.

Lemma remembered_run t w t' w' key v r :
  serving t w → storage_run t w t' w' → remembered key v r t w → remembered key v r t' w'.
Proof.
  intros Hs Hrun Hr. apply (run_invariant (remembered key v r) t w t' w' Hs Hrun Hr).
  intros s u s1 s2 u' _ _ H1 H2 _ _ Hstep [(row & Hrow & Hm & He)|Hx].
  - destruct (receipt_stays _ _ _ _ _ _ Hstep H2 Hrow) as [Hrow'|Hlt].
    + left. by exists row.
    + right. by rewrite He in Hlt.
  - right. pose proof (N.Div0.div_le_mono s s2 1000). lia.
Qed.

Lemma first_application v ip now managed draw e e' r :
  preflight e v ip now = Ok None → apply_with_managed v ip now managed draw e = Ok (e', r) →
  ∃ row, t_receipts (en_db e') !! receipt_key (ve_command v) = Some row
    ∧ remembers (en_key e') (ve_request_id v) r row ∧ rr_expires row = sm_expires_at (ve_command v).
Proof.
  intros Hp Ha%apply_with_managed_Ok. pose proof (applied_receipt _ _ _ _ _ _ _ _ Ha) as (row & Hrow & Hm).
  exists row. split; [done|]. split; [done|].
  destruct Ha as [-> Hp'|config t1 t2 t3 _ _ _ _ Hrec ->]; [congruence|].
  apply keep_receipt_Ok in Hrec as [_ ->]. cbn [en_db with_db set_receipts t_receipts] in Hrow.
  rewrite lookup_insert_eq in Hrow. by injection Hrow as <-.
Qed.

(** C16. A command acts once: after its first application, applying it again, at any later
    time and across restarts, pruning and any number of other commands, changes nothing and
    answers the same response, transfer token included, or is refused. *)
Theorem storage_command_once t w e1 v ip managed draw r
    (Hs : serving t (upd_engine w e1))
    (Hfirst : preflight (wo_engine w) v ip (t / 1000) = Ok None)
    (Ha : apply_with_managed v ip (t / 1000) managed draw (wo_engine w) = Ok (e1, r))
    t' w' (Hrun : storage_run t (upd_engine w e1) t' w') v' ip' managed' draw' now e' r'
    (Hsame : ve_command v' = ve_command v) (Hid : ve_request_id v' = ve_request_id v)
    (Hnow : t' / 1000 ≤ now)
    (Hagain : apply_with_managed v' ip' now managed' draw' (wo_engine w') = Ok (e', r')) :
  e' = wo_engine w' ∧ r' = r.
Proof.
  assert (remembered (en_key e1) v r t (upd_engine w e1)) as H0.
  { left. cbn [wo_engine upd_engine]. by eapply first_application. }
  pose proof (run_key _ _ _ _ Hs Hrun) as Hkey. cbn [wo_engine upd_engine] in Hkey.
  pose proof (remembered_run _ _ _ _ _ _ _ Hs Hrun H0) as Hrem.
  apply apply_with_managed_Ok in Hagain.
  assert (∀ x, preflight (wo_engine w') v' ip' now = Ok x → x = Some r) as Hpre.
  { intros x Hp. apply preflight_Ok in Hp as (Hauth & _ & Hx).
    destruct Hrem as [(row & Hrow & Hm & _)|Hexp].
    - assert (replay (wo_engine w') v' = Ok (Some r)) as Hrep.
      { apply replay_Some. exists row. by rewrite Hsame, Hid, Hkey. }
      destruct x as [y|]; [congruence|]. destruct Hx as [Hx _]. congruence.
    - exfalso. unfold authorize in Hauth. step Hauth u Hu. apply fail_if_Ok in Hu. ordered.
      rewrite Hsame in Hu. lia. }
  destruct Hagain as [-> Hp|config t1 t2 t3 Hp _ _ _ _ _]; apply Hpre in Hp; [|done].
  split; [done|]. congruence.
Qed.

(** ** Transfer tokens *)

Lemma token_target_Ok e object tok action now x :
  token_target e object tok action now = Ok x ↔
  well_formed_token tok = true ∧ ∃ row h sp st hd,
    live_token (en_db e) (display object) tok action now = Ok (row, h)
    ∧ parse_hex 32 (tk_space row) = Some sp ∧ parse_hex 16 (hd_stream h) = Some st
    ∧ parse_hex 32 (tk_head row) = Some hd ∧ x = (sp, st, hd).
Proof.
  unfold token_target. split.
  - intros H. step H u Hu. step H th Hth. destruct th as [row h]. step H sp Hsp. step H st Hst.
    step H hx Hhd. apply Ok_inj in H as <-. apply fail_if_Ok, negb_false_iff in Hu.
    apply ok_or_Ok in Hsp, Hst, Hhd. split; [done|]. by exists row, h, sp, st, hx.
  - intros (Hw & row & h & sp & st & hd & Hl & Hsp & Hst & Hhd & ->). rewrite Hw. cbn [negb fail_if mbind result_bind].
    rewrite Hl. cbn [mbind result_bind fst snd]. rewrite Hsp. cbn [ok_or mbind result_bind].
    rewrite Hst. cbn [ok_or mbind result_bind]. by rewrite Hhd.
Qed.

(** A transfer token works once, for the object and action it was issued for, before its
    deadline and only while the Space's head is the one it was issued under; an upload's
    object must be pending and a download's complete, and not expired; afterwards the token
    is gone and no claim with it succeeds. *)
Theorem transfer_token_once object tok action now e e' o
    (H : claim object tok action now e = Ok (e', o)) :
  (∃ row h, t_tokens (en_db e) !! hash tok = Some row
     ∧ tk_object row = display object ∧ tk_action row = action ∧ now < tk_expires row
     ∧ t_heads (en_db e) !! tk_space row = Some h ∧ hd_head h = tk_head row
     ∧ read_object (en_db e) (tk_space row) (display object) = Ok o)
  ∧ wrapping_mul now 1000 < ob_expires o
  ∧ (action = "upload" → ob_state o = "pending")
  ∧ (action = "download" → ob_state o = "complete")
  ∧ (∀ object' action' now', is_ok (claim object' tok action' now' e') = false).
Proof.
  apply claim_Ok in H as (row & h & r & Hl & Hr & -> & He & Hu & Hd & Hdb & _).
  pose proof Hl as (_ & Htok & Hh & Hhead & Hobj & Hact & Hexp)%live_token_Ok.
  split; [|split; [done|split; [exact Hu|split; [exact Hd|]]]].
  - exists row, h. split_and!; try done. apply read_object_Ok. exists r.
    split; [|done]. unfold token_key in Hr. by rewrite Hobj in Hr.
  - intros object' action' now'.
    destruct (claim object' tok action' now' e') as [[e2 o2]|] eqn:Hc; [|done]. exfalso.
    apply claim_Ok in Hc as (row2 & h2 & r2 & Hl2 & _).
    apply live_token_Ok in Hl2 as (_ & Htok2 & _). rewrite Hdb in Htok2.
    cbn [t_tokens set_tokens] in Htok2. by rewrite lookup_delete_eq in Htok2.
Qed.

(** ** Maintenance *)

(** Objects that are over at [now] seconds, by what the table says of them: no upload of
    them is open and the grace period of the last one has passed, and they were given up or
    their deadline, in milliseconds, has been reached. *)
Definition overdue (now : N) (r : ObjectRow) : Prop :=
  ob_state (or_object r) ≠ "uploading"
  ∧ or_busy_until r ≤ now
  ∧ (ob_state (or_object r) = "deleting" ∨ ob_expires (or_object r) ≤ now * 1000).

(** Rows that maintenance lists at [now] seconds. *)
Definition due_at (now : N) (r : ObjectRow) : bool := due (now * 1000) now r.

Lemma due_at_later now now' r : now ≤ now' → due_at now r = true → due_at now' r = true.
Proof.
  unfold due_at, due. rewrite !andb_true_iff, !orb_true_iff, !N.leb_le. intros Hle ((? & ?) & Hd).
  split; [split; [done|lia]|]. destruct Hd as [?|?]; [by left|right; lia].
Qed.

Lemma due_overdue now r : due_at now r = true ↔ overdue now r.
Proof.
  unfold due_at, due, overdue, row_state.
  rewrite !andb_true_iff, orb_true_iff, negb_true_iff, !N.leb_le, bool_decide_eq_false,
    bool_decide_eq_true. tauto.
Qed.
Lemma not_due_overdue now r : due_at now r = false ↔ ¬ overdue now r.
Proof. by rewrite <-due_overdue, not_true_iff_false. Qed.

(** The objects after a round: without the rows it listed. *)
Definition without (os : list Object) (m : Objects) : Objects :=
  filter (λ kv, kv.1 ∉ object_key <$> os) m.

Lemma without_cons (o : Object) (os : list Object) (m : Objects) : without (o :: os) m = without os (delete (object_key o) m).
Proof.
  apply map_eq. intros k. apply option_eq. intros r. unfold without.
  rewrite !map_lookup_filter_Some. cbn [fst]. rewrite fmap_cons, not_elem_of_cons, lookup_delete_Some.
  naive_solver.
Qed.

Lemma maintained os : ∀ e,
  engine_wf e →
  (∀ o, o ∈ os → ∃ r, t_objects (en_db e) !! object_key o = Some r ∧ or_object r = o
                      ∧ row_state r ≠ "uploading" ∧ ∃ now, over now r) →
  NoDup (object_key <$> os) →
  let e' := fold_left (maintain_object (λ _, true)) os e in
  engine_wf e' ∧ t_objects (en_db e') = without os (t_objects (en_db e)).
Proof.
  induction os as [|o os IH]; intros e Hwf Hos Hnd; cbn [fold_left].
  - split; [done|]. unfold without. rewrite map_filter_id; [done|].
    intros k r _. cbn. apply not_elem_of_nil.
  - destruct (Hos o) as (r & Hr & Eo & Hu & now & Ho); [by left|].
    pose proof (en_tables _ Hwf) as [Hwo Hwp _].
    assert (is_ok (provider e (ob_space o) (ob_revision o)) = true) as Hp.
    { destruct (pw_objects _ _ Hwp _ _ Hr) as [x Hx]. destruct (pw_secrets _ _ Hwp _ _ Hx) as (Hn & p & Hop).
      apply is_ok_true. exists p. apply provider_Ok. cbn [fst snd object_key] in *.
      rewrite Eo in *. eauto. }
    assert (maintain_object (λ _, true) e o = deleted o e) as Hm
      by (unfold maintain_object; by rewrite Hp).
    rewrite Hm.
    destruct (deleted_engine_step now o e r Hwf Hr Ho Hu) as [Hstep Hobj].
    rewrite fmap_cons in Hnd. apply NoDup_cons in Hnd as [Hno Hnd].
    assert (∀ o', o' ∈ os → object_key o ≠ object_key o') as Hne.
    { intros o' Ho' E. apply Hno. rewrite E. apply list_elem_of_fmap. by exists o'. }
    destruct (IH (deleted o e)) as [IH1 IH2]; [by eapply es_wf| |done|].
    + intros o' Ho'. destruct (Hos o') as (r' & Hr' & H'); [by right|]. exists r'.
      split; [|done]. rewrite Hobj. rewrite lookup_delete_ne; [done|by apply Hne].
    + split; [done|]. rewrite IH2, without_cons. f_equal. exact Hobj.
Qed.

Lemma without_size os : ∀ m : Objects,
  NoDup (object_key <$> os) → (∀ o, o ∈ os → is_Some (m !! object_key o)) →
  (size (without os m) + length os = size m)%nat.
Proof.
  induction os as [|o os IH]; intros m Hnd Hos.
  - unfold without. rewrite map_filter_id; [cbn; lia|]. intros k r _. cbn. apply not_elem_of_nil.
  - rewrite fmap_cons in Hnd. apply NoDup_cons in Hnd as [Hno Hnd].
    pose proof (Hos o ltac:(by left)) as Ho. rewrite without_cons. cbn [length].
    specialize (IH (delete (object_key o) m) Hnd). rewrite map_size_delete_Some in IH by done.
    assert (size m ≠ 0)%nat by (intros E%map_size_empty_inv; subst m; by destruct Ho).
    rewrite Nat.add_succ_r, IH; [lia|]. intros o' Ho'. rewrite lookup_delete_ne.
    + apply Hos. by right.
    + intros E. apply Hno. rewrite E. apply list_elem_of_fmap. by exists o'.
Qed.

Lemma prune_objects now e : t_objects (en_db (prune now e).1) = t_objects (en_db e).
Proof.
  destruct (prune now e) as [e' x] eqn:Hp. cbn [fst].
  by destruct (prune_tables _ _ _ _ Hp) as [->|(ts & rs & gs & ps & -> & _)].
Qed.

(** One round deletes everything that is due, or 32 objects. *)
Lemma maintain_round rows now e :
  engine_wf e → now * 1000 < 9223372036854775808 →
  rows ≡ₚ (map_to_list (t_objects (en_db e))).*2 →
  let e' := maintain rows (λ _, true) now e in
  engine_wf e'
  ∧ (∀ k r, t_objects (en_db e') !! k = Some r → t_objects (en_db e) !! k = Some r)
  ∧ (∀ k r, t_objects (en_db e) !! k = Some r → due_at now r = false →
       t_objects (en_db e') !! k = Some r)
  ∧ ((∀ k r, t_objects (en_db e') !! k = Some r → due_at now r = false)
     ∨ (size (t_objects (en_db e')) + 32 ≤ size (t_objects (en_db e)))%nat).
Proof.
  intros Hwf Hnow Hrows e'.
  assert (saturating_mul now 1000 = now * 1000) as Hms.
  { unfold saturating_mul. assert (9223372036854775808 < u64_max) by done. lia. }
  pose proof (ow_rows _ (tw_objects _ _ (en_tables _ Hwf))) as Hwfr.
  assert (∀ k r, t_objects (en_db e) !! k = Some r → object_key (or_object r) = k) as Hkey.
  { intros k r Hk. by rewrite (rw_key _ _ (Hwfr k r Hk)). }
  set (fs := List.filter (due_at now) rows).
  assert (∀ r, r ∈ fs → t_objects (en_db e) !! object_key (or_object r) = Some r ∧ due_at now r = true) as Hfs.
  { intros r [Hr Hd]%filter_true. split; [|done]. rewrite Hrows in Hr.
    apply list_elem_of_fmap in Hr as ([k r'] & -> & Hk). apply elem_of_map_to_list in Hk.
    cbn [snd]. by rewrite (Hkey k r' Hk). }
  assert (NoDup ((λ r, object_key (or_object r)) <$> fs)) as Hnd.
  { eapply sublist_NoDup; [|apply fmap_sublist, filter_sublist].
    rewrite Hrows, <-list_fmap_compose.
    assert (((λ r, object_key (or_object r)) ∘ snd) <$> map_to_list (t_objects (en_db e))
      = (map_to_list (t_objects (en_db e))).*1) as ->; [|apply NoDup_fst_map_to_list].
    apply list_fmap_ext. intros i [k r] Hi. cbn.
    apply list_elem_of_lookup_2, elem_of_map_to_list in Hi. by apply Hkey. }
  set (os := or_object <$> take 32 fs).
  assert (garbage rows now = Ok os) as Hg.
  { unfold garbage. rewrite Hms, (proj2 (integer_Ok (now * 1000) (now * 1000))) by done.
    cbn [mbind result_bind]. by rewrite (proj2 (integer_Ok now now)) by (split; [done|lia]). }
  assert (∀ o, o ∈ os → ∃ r, r ∈ fs ∧ o = or_object r) as Hos.
  { intros o Ho. apply list_elem_of_fmap in Ho as (r & -> & Hr). exists r. split; [|done].
    rewrite <-(take_drop 32 fs). apply elem_of_app. by left. }
  assert (NoDup (object_key <$> os)) as Hnd2.
  { unfold os. rewrite <-list_fmap_compose. eapply sublist_NoDup; [exact Hnd|].
    apply fmap_sublist, sublist_take. }
  destruct (maintained os e Hwf) as [Hwf' Hobj]; [|done|].
  { intros o Ho. destruct (Hos o Ho) as (r & Hr & ->). destruct (Hfs r Hr) as [Hk Hd]. exists r.
    split; [done|]. split; [done|]. pose proof (due_over _ _ _ Hd) as Hov.
    split; [by eapply over_not_uploading|by eexists]. }
  assert (e' = (prune now (fold_left (maintain_object (λ _, true)) os e)).1) as He'
    by (unfold e', maintain; by rewrite Hg).
  assert (t_objects (en_db e') = without os (t_objects (en_db e))) as Ho'
    by (by rewrite He', prune_objects).
  split; [rewrite He'; by apply (es_wf 0 (fold_left (maintain_object (λ _, true)) os e)), prune_engine_step|].
  rewrite Ho'. split; [by intros k r [? _]%map_lookup_filter_Some|]. split.
  { intros k r Hk Hd. apply map_lookup_filter_Some. split; [done|]. cbn [fst].
    intros (o & -> & Ho)%list_elem_of_fmap. destruct (Hos o Ho) as (r' & Hr' & ->).
    destruct (Hfs r' Hr') as [Hk' Hd']. congruence. }
  destruct (Nat.le_gt_cases (length fs) 32) as [Hle|Hgt].
  - left. intros k r [Hk Hno]%map_lookup_filter_Some. cbn [fst] in Hno.
    apply not_true_iff_false. intros Hd. apply Hno. unfold os.
    rewrite take_ge by done. rewrite <-list_fmap_compose. apply list_elem_of_fmap.
    exists r. split; [symmetry; by apply Hkey|]. apply filter_true. split; [|done].
    rewrite Hrows. apply list_elem_of_fmap. exists (k, r). split; [done|]. by apply elem_of_map_to_list.
  - right. rewrite <-(without_size os (t_objects (en_db e)) Hnd2).
    + unfold os. rewrite length_fmap, length_take. lia.
    + intros o Ho. destruct (Hos o Ho) as (r & Hr & ->). exists r. by apply Hfs.
Qed.

(** Rounds of maintenance between [now] and [last], with a provider that deletes what it is
    asked. *)
Inductive drains (now last : N) : nat → Engine → Engine → Prop :=
| drains_O e : drains now last 0 e e
| drains_S n e now' rows e' :
    now ≤ now' ≤ last → now' * 1000 < 9223372036854775808 →
    rows ≡ₚ (map_to_list (t_objects (en_db e))).*2 →
    drains now last n (maintain rows (λ _, true) now' e) e' →
    drains now last (Datatypes.S n) e e'.

(** Rounds can always be run. *)
Lemma drains_exist now n : now * 1000 < 9223372036854775808 → ∀ e, ∃ e', drains now now n e e'.
Proof.
  intros Hlt. induction n as [|n IH]; intros e; [exists e; constructor|].
  destruct (IH (maintain (map_to_list (t_objects (en_db e))).*2 (λ _, true) now e)) as [e' He'].
  exists e'. by eapply drains_S.
Qed.

Lemma drains_later now last last' n : last ≤ last' → ∀ e e',
  drains now last n e e' → drains now last' n e e'.
Proof. intros Hle e e'. induction 1; [constructor|]. eapply drains_S; [|done..]. lia. Qed.

(** The rows that rounds leave were there, and rows that were not due by the last stay. *)
Lemma drains_rows now last n : ∀ e e',
  drains now last n e e' → engine_wf e →
  engine_wf e'
  ∧ (∀ k r, t_objects (en_db e') !! k = Some r → t_objects (en_db e) !! k = Some r)
  ∧ (∀ k r, t_objects (en_db e) !! k = Some r → due_at last r = false →
       t_objects (en_db e') !! k = Some r).
Proof.
  induction n as [|n IH]; intros e e' Hd Hwf; inversion Hd as [|n' e0 now' rows e1 Hle Hlt Hrows Hrest]; subst;
    [done|].
  destruct (maintain_round rows now' e Hwf Hlt Hrows) as (Hwf' & Hsub & Hkeep & _).
  destruct (IH _ _ Hrest Hwf') as (Hwf2 & Hsub2 & Hkeep2). split; [done|]. split.
  - intros k r Hk. by apply Hsub, Hsub2.
  - intros k r Hk Hdue. apply Hkeep2; [|done]. apply Hkeep; [done|]. apply not_true_iff_false.
    intros Hd2%(due_at_later now' last); [|lia]. congruence.
Qed.

Lemma drains_all now last n : ∀ e e',
  drains now last n e e' → engine_wf e → (size (t_objects (en_db e)) ≤ 32 * n)%nat →
  ∀ k r, t_objects (en_db e') !! k = Some r → due_at now r = false.
Proof.
  induction n as [|n IH]; intros e e' Hd Hwf Hsz k r Hk.
  - inversion Hd; subst. assert (size (t_objects (en_db e')) = 0)%nat as E by lia.
    apply map_size_empty_inv in E. by rewrite E, lookup_empty in Hk.
  - inversion Hd as [|n' e0 now' rows e1 Hle Hlt Hrows Hrest]; subst.
    destruct (maintain_round rows now' e Hwf Hlt Hrows) as (Hwf' & Hsub & _ & [Hnone|Hless]).
    + destruct (drains_rows _ _ _ _ _ Hrest Hwf') as (_ & Hsub2 & _).
      apply not_true_iff_false. intros Hd2%(due_at_later now now'); [|lia].
      rewrite (Hnone k r (Hsub2 k r Hk)) in Hd2. done.
    + eapply (IH _ _ Hrest Hwf'); [lia|exact Hk].
Qed.

(** Objects of at most [n] each in the Spaces of a set. *)
Lemma objects_total (spaces : gset string) (n : nat) : ∀ m : Objects,
  (∀ k, is_Some (m !! k) → k.1 ∈ spaces) → (∀ s, size (objects_in m s) ≤ n)%nat →
  (size m ≤ n * size spaces)%nat.
Proof.
  induction spaces as [|s spaces Hs IH] using set_ind_L; intros m Hdom Hn.
  - assert (m = ∅) as ->; [|rewrite map_size_empty; lia].
    apply map_empty. intros k. apply eq_None_not_Some. intros Hk. apply Hdom in Hk. set_solver.
  - rewrite size_union, size_singleton by set_solver.
    rewrite <-(map_filter_union_complement (in_space s) m).
    rewrite map_size_disj_union by apply map_disjoint_filter_complement.
    specialize (Hn s) as Hns. unfold objects_in in Hns.
    assert (size (filter (λ v, ¬ in_space s v) m) ≤ n * size spaces)%nat; [|lia].
    apply IH.
    + intros k [r Hk]. apply map_lookup_filter_Some in Hk as [Hk Hne]. unfold in_space in Hne.
      cbn [fst] in Hne. pose proof (Hdom k ltac:(eauto)). set_solver.
    + intros s'. etrans; [|apply (Hn s')]. apply size_le. intros k r Hk.
      apply map_lookup_filter_Some in Hk as [Hk Hs']. apply map_lookup_filter_Some in Hk as [Hk _].
      exists r. by apply map_lookup_filter_Some.
Qed.

(** C36. Maintenance drains, and takes nothing else: from every reachable state, 4096 rounds
    against a provider that deletes what it is asked, run between [now] and [last] in any order
    the database lists the rows in, remove every object that was over at [now] (given up or
    at its deadline, no upload open and the last one's grace period passed), keep as it is every
    object that is not over by [last], and add or change none. *)
Theorem maintenance_drains t w (Hs : serving t w) now last e'
    (Hd : drains now last 4096 (wo_engine w) e') :
  (∀ k r, t_objects (en_db (wo_engine w)) !! k = Some r → overdue now r →
     t_objects (en_db e') !! k = None)
  ∧ (∀ k r, t_objects (en_db (wo_engine w)) !! k = Some r → ¬ overdue last r →
     t_objects (en_db e') !! k = Some r)
  ∧ (∀ k r, t_objects (en_db e') !! k = Some r → t_objects (en_db (wo_engine w)) !! k = Some r).
Proof.
  pose proof (serving_wf _ _ Hs) as [_ Hw]. pose proof (ww_engine _ _ Hw) as He.
  pose proof (en_tables _ He) as [Hwo Hwp _].
  assert (size (t_objects (en_db (wo_engine w))) ≤ 1024 * 128)%nat as Hsz.
  { etrans; [apply (objects_total (dom (t_heads (en_db (wo_engine w)))) 1024)|].
    - intros k [r Hr]. apply elem_of_dom. destruct (pw_objects _ _ Hwp k r Hr) as [x Hx].
      apply (en_known _ He (k.1, ob_revision (or_object r))). by exists x.
    - intros s. apply (ow_quota _ Hwo s).
    - rewrite size_dom. apply Nat.mul_le_mono_l. apply He. }
  destruct (drains_rows _ _ _ _ _ Hd He) as (_ & Hsub & Hkeep). split; [|split; [|exact Hsub]].
  - intros k r Hk Ho%due_overdue. apply eq_None_not_Some. intros [r' Hk'].
    pose proof (Hsub k r' Hk') as Hk2. assert (r' = r) as -> by congruence.
    rewrite (drains_all now last 4096 _ _ Hd He) with (k := k) in Ho; [done|lia|exact Hk'].
  - intros k r Hk Hn. apply Hkeep; [done|]. by apply not_due_overdue.
Qed.
End StorageOnce.
