(* ===== verification/StorageWorld.v ===== *)
(** * A concrete storage broker

    The Space of [World] stores an attachment: its owner configures a provider, the guest
    reserves an object, uploads and completes it. Every step is evaluated through the
    definitions of the broker. *)

From S2P Require Import Prelude Platform Ids Toy Record Chat Identity AuthorityData AuthorityWitness Authority AuthorityProof World WitnessWire Attachments StorageWire StorageEngine StorageService StorageFacts StorageInv StorageSteps StorageSafety StorageTheorems StorageFences StorageOnce.

(** ** Serialised values: the bits of their encoding *)

Fixpoint bits (p : positive) : string :=
  match p with
  | xH => ""
  | xO p => String (byte_of 48) (bits p)
  | xI p => String (byte_of 49) (bits p)
  end.
Fixpoint from_bits (s : string) : positive :=
  match s with
  | "" => xH
  | String c s => if byte_val c =? 49 then xI (from_bits s) else xO (from_bits s)
  end.
Lemma from_bits_bits p : from_bits (bits p) = p.
Proof.
  induction p as [p IH|p IH|]; cbn [bits from_bits].
  - change (byte_val (byte_of 49) =? 49) with true. by rewrite IH.
  - change (byte_val (byte_of 48) =? 49) with false. by rewrite IH.
  - done.
Qed.

Definition status_tuple (s : StorageStatus) :=
  (ss_configured s, ss_enabled s, ss_provider s, ss_revision s,
   (ss_used_bytes s, ss_max_space_bytes s, ss_max_file_bytes s, ss_retention_hours s)).
#[export] Instance StorageStatus_eq_dec : EqDecision StorageStatus.
Proof. solve_decision. Defined.
#[export] Instance StorageStatus_countable : Countable StorageStatus.
Proof.
  refine (inj_countable' status_tuple
    (λ x, match x with (a, b, c, d, (e, f, g, h)) =>
       {| ss_configured := a; ss_enabled := b; ss_provider := c; ss_revision := d;
          ss_used_bytes := e; ss_max_space_bytes := f; ss_max_file_bytes := g;
          ss_retention_hours := h |} end) _).
  by intros [].
Defined.
#[export] Instance Response_eq_dec : EqDecision Response.
Proof. solve_decision. Defined.
#[export] Instance Response_countable : Countable Response.
Proof.
  refine (inj_countable' (λ r, match r with
      | RStatus s => inl (inl s) | RTransfer a b c d e => inl (inr (a, b, c, (d, e)))
      | RComplete a => inr (inl a) | RCancelled a => inr (inr a) end)
    (λ x, match x with
      | inl (inl s) => RStatus s | inl (inr (a, b, c, (d, e))) => RTransfer a b c d e
      | inr (inl a) => RComplete a | inr (inr a) => RCancelled a end) _).
  by intros [].
Defined.

Definition bits_json {T} `{Countable T} : JsonText T :=
  {| to_json x := bits (encode x); from_json s := countable.decode (from_bits s) |}.

Module Broker.
#[local] Existing Instances Toy.platform Toy.platform_laws.
Import World.

Definition space_id : SpaceId := record_id genesis4.
Definition audience : string := "https://storage".
Definition key : string := Toy.pad 32 "key".
Definition bucket : ProviderConfig := S3Compatible "https://s3" "eu" "b" "a" "s".
Definition photo : string := Toy.pad 16 "photo".
Definition content : string := "encrypted".
Definition content_hash : string := encode_hex (sha256 content).
Definition ip : IpAddr := V4 203 0 113 7.

(** ** Commands *)

Definition command (nonce : string) (cred : RecordId) (ttl : N) (work : string) (o : Operation)
    : Command :=
  {| sm_v := 1; sm_kind := "storage.command"; sm_audience := audience; sm_space_id := space_id;
     sm_stream_id := stream_id; sm_config_id := record_id config4b; sm_credential_id := cred;
     sm_nonce := display (Toy.pad 16 nonce); sm_work := work; sm_issued_at := 100;
     sm_expires_at := 100 + ttl; sm_operation := o |}.
(** Zero bytes, so that the proof of work is solved by any nonce. *)
#[export] Instance command_serde : Serde Command :=
  Toy.table (λ _, Toy.nuls 40)
    [("{1sa}", command "a" (vc_id owner_device) 180 "0000000000000000" (Configure 0 bucket 1));
     ("{1sb}", command "b" (vc_id guest) 60 "" (Reserve photo 9 content_hash));
     ("{1sc}", command "c" (vc_id guest) 60 "" (Complete photo))].
#[export] Instance storage_serde : StorageSerde := {|
  serde_storage_command := command_serde; json_provider := bits_json;
  json_storage_response := bits_json |}.
#[export] Instance storage_serde_laws : StorageSerdeLaws storage_serde.
Proof. split; intros x; cbn; by rewrite from_bits_bits, decode_encode. Qed.

(** ** The witness *)

Definition lease_body : Freshness :=
  {| fr_v := 1; fr_kind := "witness.freshness"; fr_audience := wp_url pin;
     fr_nonce := nonce32 "f"; fr_space_id := space_id; fr_stream_id := stream_id;
     fr_authority_head := record_id config4b;
     fr_position := {| po_sequence := 5; po_record_id := Some (rid "{1re}" witness_key) |};
     fr_issued_at_ms := 100000; fr_expires_at_ms := 130000; fr_witness_key_generation := 1 |}.
#[export] Instance protocol_serde : ProtocolSerde := {|
  serde_command := Toy.table (λ _, "!") []; serde_receipt := Toy.table (λ _, "!") [];
  serde_noop := Toy.table (λ _, "!") [];
  serde_freshness := Toy.table (λ _, "{1fr}") [("{1fr}", lease_body)];
  serde_ticket := Toy.table (λ _, "!") [];
  json_response := {| to_json _ := "response"; from_json _ := None |};
  json_proof := {| to_json _ := "proof"; from_json _ := None |};
  json_pin := {| to_json p := wp_url p; from_json _ := Some pin |} |}.

Definition scope : Scope := (space_id, stream_id).
Definition head_request : HeadRequest :=
  {| hr_space_id := space_id; hr_stream_id := stream_id; hr_nonce := nonce32 "f" |}.

(** ** The service, step by step *)

Definition no_engine : Engine :=
  {| en_db := no_tables; en_key := ""; en_audience := ""; en_max_spaces := 0 |}.
Definition no_world : World :=
  {| wo_engine := no_engine; wo_pin := pin; wo_managed := None; wo_verified := [];
     wo_cache := ∅; wo_leases := []; wo_uploads := []; wo_garbage := []; wo_blobs := ∅ |}.
Definition no_call_proof : CallAuthorityProof :=
  {| pf_v := 0; pf_checkpoint := None; pf_genesis := ""; pf_credentials := []; pf_configs := [] |}.
Definition proof : CallAuthorityProof := from_ok no_call_proof (call_proof joined).
Definition request (text k : string) : Request :=
  {| rq_command := sr_bytes (rec text k); rq_proof := proof |}.
Definition configure_request : Request := request "{1sa}" device_key.
Definition reserve_request : Request := request "{1sb}" guest_device.
Definition complete_request : Request := request "{1sc}" guest_device.
Definition no_verified : Verified :=
  {| ve_command := command "" "" 0 "" Status; ve_authority := no_authority; ve_request_id := "" |}.
Definition verified_of (r : Request) : Verified := from_ok no_verified (verify r audience 101 pin).
Definition configure : Verified := verified_of configure_request.
Definition reserve : Verified := verified_of reserve_request.
Definition complete : Verified := verified_of complete_request.

Definition clock : N := 101500.
Definition draw : option string := Some (Toy.pad 24 "nonce").
Definition world0 : World :=
  from_ok no_world (fresh_world key audience 4 pin None ∅).
Definition fetched (w : World) :=
  fetched_lease pin head_request (sr_bytes (rec "{1fr}" witness_key)) 0 None (record_id config4b) 0
    clock (wo_cache w) (wo_engine w).
Definition no_lease : VerifiedFreshness := {| vf_body := lease_body; vf_requested_at := 0 |}.
Definition lease : VerifiedFreshness := from_ok no_lease (fetched world0).2.
Definition with_lease (w : World) : World :=
  upd_leases w (fetched w).1.2 (fetched w).1.1
    (add_lease (fetched w).2 scope (record_id config4b) (wo_leases w)).
Definition no_answer : Response := RCancelled "".
Definition answer (w : World) (v : Verified) : Engine * Response :=
  from_ok (no_engine, no_answer) (apply_section lease v ip None draw 0 clock clock (wo_engine w)).
Definition commanded (w : World) (v : Verified) : World := upd_engine w (answer w v).1.

Definition world1 : World := upd_verified (upd_verified (upd_verified world0 configure) reserve) complete.
Definition world2 : World := with_lease world1.
Definition world3 : World := commanded world2 configure.
Definition world4 : World := commanded world3 reserve.
Definition upload_token : string := token (wo_engine world4) (ve_request_id reserve).
Definition target : SpaceId * StreamId * RecordId := (scope, record_id config4b).
Definition no_object : Object :=
  {| ob_space := ""; ob_object := ""; ob_revision := 0; ob_creator := ""; ob_size := 0;
     ob_hash := ""; ob_expires := 0; ob_state := "" |}.
Definition claimed : Engine * Object :=
  from_ok (no_engine, no_object) (claim_section target lease photo upload_token "upload" 0 clock clock
    (wo_engine world4)).
Definition upload (o : Object) (p : option ProviderConfig) (stored : bool) : Upload :=
  {| up_object := o; up_provider := p; up_stored := stored |}.
(** The only upload of the service: claimed, opened, stored and recorded. *)
Definition claim_upload (w : World) (e : Engine) (o : Object) : World :=
  upd_uploads w e (upload o None false :: wo_uploads w) (wo_blobs w).
Definition open_upload (w : World) (o : Object) (p : ProviderConfig) : World :=
  upd_uploads w (wo_engine w) ([] ++ upload o (Some p) false :: []) (wo_blobs w).
Definition put_upload (w : World) (o : Object) (p : ProviderConfig) (b : string) : World :=
  upd_uploads w (wo_engine w) ([] ++ upload o (Some p) true :: [])
    (set_blob (blob_key p o) (Some b) (wo_blobs w)).
Definition end_upload (w : World) (o : Object) : World :=
  upd_uploads w (uploaded o true (wo_engine w)) ([] ++ []) (wo_blobs w).
Definition world5 : World := claim_upload world4 claimed.1 claimed.2.
Definition world6 : World := open_upload world5 claimed.2 bucket.
Definition world7 : World := put_upload world6 claimed.2 bucket content.
Definition world8 : World := end_upload world7 claimed.2.
Definition world9 : World := commanded world8 complete.
Definition world10 : World := upd_engine world9 (prune 101 (wo_engine world9)).1.
Definition photo_key : string * string := (display space_id, display photo).

(** ** The run *)

Lemma world0_fresh : fresh_world key audience 4 pin None ∅ = Ok world0.
Proof. apply from_ok_Ok. vm_compute. reflexivity. Qed.
Lemma go t0 w0 w w' :
  storage_run t0 w0 clock w → storage_step clock clock w w' → storage_run t0 w0 clock w'.
Proof. intros H Hs. by eapply srun_next. Qed.
Lemma verified_Ok r : is_ok (verify r audience 101 pin) = true →
  verify r audience 101 pin = Ok (verified_of r).
Proof. apply from_ok_Ok. Qed.
Lemma configure_Ok : verify configure_request audience 101 pin = Ok configure.
Proof. apply verified_Ok. vm_compute. reflexivity. Qed.
Lemma reserve_Ok : verify reserve_request audience 101 pin = Ok reserve.
Proof. apply verified_Ok. vm_compute. reflexivity. Qed.
Lemma complete_Ok : verify complete_request audience 101 pin = Ok complete.
Proof. apply verified_Ok. vm_compute. reflexivity. Qed.

Lemma broker_run1 : storage_run clock world0 clock world1.
Proof.
  unfold world1.
  eapply go; [eapply go; [eapply go; [constructor|]|]|].
  - apply (storage_receive clock clock world0 configure_request). exact configure_Ok.
  - apply (storage_receive clock clock (upd_verified world0 configure) reserve_request).
    exact reserve_Ok.
  - apply (storage_receive clock clock (upd_verified (upd_verified world0 configure) reserve)
      complete_request). exact complete_Ok.
Qed.
Lemma broker_run2 : storage_run clock world0 clock world2.
Proof. eapply go; [exact broker_run1|]. apply (storage_fetched clock clock world1 head_request). Qed.

Lemma fetched_Ok : (fetched world0).2 = Ok lease.
Proof. apply from_ok_Ok. vm_compute. reflexivity. Qed.
Lemma world2_leases : wo_leases world2 = [(target, lease)].
Proof.
  unfold world2, with_lease. cbn [wo_leases upd_leases].
  change (fetched world1) with (fetched world0). rewrite fetched_Ok. reflexivity.
Qed.
Lemma configure_scope : command_scope configure = target.
Proof. vm_compute. reflexivity. Qed.
Lemma reserve_scope : command_scope reserve = target.
Proof. vm_compute. reflexivity. Qed.
Lemma complete_scope : command_scope complete = target.
Proof. vm_compute. reflexivity. Qed.

(** A command of the run: it was received, has the lease and needs no managed storage. *)
Definition ready (w : World) : Prop :=
  wo_verified w = [complete; reserve; configure] ∧ wo_leases w = [(target, lease)]
  ∧ wo_managed w = None.
Lemma ready2 : ready world2.
Proof. split; [reflexivity|]. split; [exact world2_leases|reflexivity]. Qed.
Lemma ready_engine w e : ready w → ready (upd_engine w e).
Proof. done. Qed.
Lemma ready_uploads w e us bs : ready w → ready (upd_uploads w e us bs).
Proof. done. Qed.

Lemma answer_Ok w v :
  is_ok (apply_section lease v ip None draw 0 clock clock (wo_engine w)) = true →
  apply_section lease v ip None draw 0 clock clock (wo_engine w)
  = Ok ((answer w v).1, (answer w v).2).
Proof.
  intros Ho. rewrite (from_ok_Ok (no_engine, no_answer) _ Ho). unfold answer.
  by destruct (from_ok _ _).
Qed.
Lemma commanded_step w v :
  ready w → v ∈ [complete; reserve; configure] → command_scope v = target →
  managed_for None v = Ok None →
  is_ok (apply_section lease v ip None draw 0 clock clock (wo_engine w)) = true →
  storage_step clock clock w (commanded w v).
Proof.
  intros (Hv & Hl & Hm) Hin Hsc Hman Ho.
  eapply (storage_apply clock clock w v lease ip None draw 0 _ (answer w v).2).
  - by rewrite Hv.
  - rewrite Hl, Hsc. by left.
  - by rewrite Hm.
  - intros d Hd. apply Some_inj in Hd as <-. reflexivity.
  - by apply answer_Ok.
Qed.

Lemma broker_run3 : storage_run clock world0 clock world3.
Proof.
  eapply go; [exact broker_run2|].
  apply (commanded_step world2 configure ready2); [right; right; left|exact configure_scope|..];
    vm_compute; reflexivity.
Qed.
Lemma ready3 : ready world3.
Proof. apply ready_engine, ready2. Qed.
Lemma step4 : storage_step clock clock world3 world4.
Proof.
  apply (commanded_step world3 reserve ready3); [right; left|exact reserve_scope|..];
    vm_compute; reflexivity.
Qed.
Lemma broker_run4 : storage_run clock world0 clock world4.
Proof. eapply go; [exact broker_run3|exact step4]. Qed.
Lemma ready4 : ready world4.
Proof. apply ready_engine, ready3. Qed.
Lemma world4_leases : wo_leases world4 = [(target, lease)].
Proof. apply ready4. Qed.
Lemma claimed_Ok : claim_section target lease photo upload_token "upload" 0 clock clock
    (wo_engine world4) = Ok (claimed.1, claimed.2).
Proof.
  rewrite (from_ok_Ok (no_engine, no_object) (claim_section target lease photo upload_token
    "upload" 0 clock clock (wo_engine world4))) by (vm_compute; reflexivity).
  unfold claimed. by destruct (from_ok _ _).
Qed.
Lemma claim_step w e o tok :
  wo_leases w = [(target, lease)] → wo_uploads w = [] →
  claim_section target lease photo tok "upload" 0 clock clock (wo_engine w) = Ok (e, o) →
  storage_step clock clock w (claim_upload w e o).
Proof.
  intros Hl Hu Hc. eapply (storage_upload clock clock w target lease photo tok 0 e o); [| |exact Hc].
  - rewrite Hl. by left.
  - by rewrite Hu.
Qed.
Lemma open_step w o p :
  wo_uploads w = [upload o None false] → provider (wo_engine w) (ob_space o) (ob_revision o) = Ok p →
  storage_step clock clock w (open_upload w o p).
Proof. intros Hu Hp. by apply (storage_open clock clock w [] [] o p). Qed.
Lemma put_step w o p chunks b :
  wo_uploads w = [upload o (Some p) false] → upload_valid o (forward (ob_size o) 0 chunks) = true →
  (forward (ob_size o) 0 chunks).1.2 = b →
  storage_step clock clock w (put_upload w o p b).
Proof. intros Hu Hp <-. by apply (storage_put clock clock w [] [] o p chunks). Qed.
Lemma end_step w o p :
  wo_uploads w = [upload o (Some p) true] → storage_step clock clock w (end_upload w o).
Proof. intros Hu. by apply (storage_uploaded clock clock w [] [] o p). Qed.

Lemma uploads4 : wo_uploads world4 = [].
Proof. vm_compute. reflexivity. Qed.
Lemma uploads5 : wo_uploads world5 = [upload claimed.2 None false].
Proof. unfold world5, claim_upload. cbn [wo_uploads upd_uploads]. by rewrite uploads4. Qed.
Lemma uploads_open w o p : wo_uploads (open_upload w o p) = [upload o (Some p) false].
Proof. done. Qed.
Lemma uploads_put w o p b : wo_uploads (put_upload w o p b) = [upload o (Some p) true].
Proof. done. Qed.
Lemma broker_run5 : storage_run clock world0 clock world5.
Proof.
  eapply go; [exact broker_run4|]. exact (claim_step _ _ _ _ world4_leases uploads4 claimed_Ok).
Qed.
Lemma provider5 :
  provider (wo_engine world5) (ob_space claimed.2) (ob_revision claimed.2) = Ok bucket.
Proof. vm_compute. reflexivity. Qed.
Lemma broker_run6 : storage_run clock world0 clock world6.
Proof. eapply go; [exact broker_run5|]. exact (open_step _ _ _ uploads5 provider5). Qed.
Lemma valid6 : upload_valid claimed.2 (forward (ob_size claimed.2) 0 ["encry"; "pted"]) = true.
Proof. vm_compute. reflexivity. Qed.
Lemma body6 : (forward (ob_size claimed.2) 0 ["encry"; "pted"]).1.2 = content.
Proof. vm_compute. reflexivity. Qed.
Lemma broker_run7 : storage_run clock world0 clock world7.
Proof. eapply go; [exact broker_run6|]. exact (put_step _ _ _ _ _ (uploads_open _ _ _) valid6 body6). Qed.
Lemma broker_run8 : storage_run clock world0 clock world8.
Proof. eapply go; [exact broker_run7|]. exact (end_step _ _ _ (uploads_put _ _ _ _)). Qed.
Lemma ready8 : ready world8.
Proof.
  unfold world8, end_upload, world7, put_upload, world6, open_upload, world5, claim_upload.
  do 4 apply ready_uploads. exact ready4.
Qed.
Lemma step9 : storage_step clock clock world8 world9.
Proof.
  apply (commanded_step world8 complete ready8); [left|exact complete_scope|..];
    vm_compute; reflexivity.
Qed.
Lemma broker_run9 : storage_run clock world0 clock world9.
Proof. eapply go; [exact broker_run8|exact step9]. Qed.
Lemma step10 : storage_step clock clock world9 world10.
Proof. apply (storage_prune clock clock world9). reflexivity. Qed.

Lemma serving_at w : storage_run clock world0 clock w → serving clock w.
Proof. intros H. by apply (serving_run _ _ _ _ _ _ world0 clock clock w world0_fresh). Qed.
Lemma one_step w w' : storage_step clock clock w w' → storage_run clock w clock w'.
Proof. intros H. eapply srun_next; [constructor|done..|exact H]. Qed.

Definition present {A} (o : option A) : bool := match o with Some _ => true | None => false end.
Lemma default_Some {A} (d : A) o : present o = true → o = Some (default d o).
Proof. by destruct o. Qed.
Definition no_row : ObjectRow := {| or_object := no_object; or_busy_until := 0 |}.
Definition photo_row : ObjectRow := default no_row (t_objects (en_db (wo_engine world9)) !! photo_key).
Lemma photo_complete :
  t_objects (en_db (wo_engine world9)) !! photo_key = Some photo_row ∧ row_state photo_row = "complete".
Proof. split; [apply default_Some|]; vm_compute; reflexivity. Qed.
Definition no_head : HeadRow := {| hd_stream := ""; hd_head := ""; hd_sequence := 0 |}.
Definition head_row : HeadRow :=
  default no_head (t_heads (en_db (wo_engine world3)) !! display space_id).
Lemma registered : t_heads (en_db (wo_engine world3)) !! display space_id = Some head_row.
Proof. apply default_Some. vm_compute. reflexivity. Qed.
Definition no_floor : FloorRow := {| fl_pin := ""; fl_sequence := 0; fl_record := None |}.
Definition floor : FloorRow := default no_floor (t_witness_floor (en_db (wo_engine world3))).
Lemma seen : t_witness_floor (en_db (wo_engine world3)) = Some floor.
Proof. apply default_Some. vm_compute. reflexivity. Qed.

End Broker.

(** * Witnesses of the storage broker

    Each theorem of the broker that has hypotheses, applied on the run of [StorageWorld]. *)


#[local] Existing Instances Toy.platform Toy.platform_laws.
Import World Broker.

Lemma stored_attachments_intact_witness :
  ∃ p b, provider (wo_engine world9) photo_key.1 (ob_revision (or_object photo_row)) = Ok p
    ∧ wo_blobs world9 !! (p, photo_key) = Some b
    ∧ slen b = ob_size (or_object photo_row)
    ∧ encode_hex (sha256 b) = ob_hash (or_object photo_row).
Proof.
  apply (stored_attachments_intact clock world9 (serving_at _ broker_run9) photo_key photo_row).
  - exact (proj1 photo_complete).
  - right. exact (proj2 photo_complete).
  - vm_compute. reflexivity.
Defined.

Lemma object_life_cycle_witness :
  object_step (clock / 1000 * 1000) (t_objects (en_db (wo_engine world8)) !! photo_key)
    (t_objects (en_db (wo_engine world9)) !! photo_key).
Proof.
  apply (object_life_cycle clock world8 (serving_at _ broker_run8) clock clock world9
           (one_step _ _ step9) (N.le_refl _) (N.le_refl _) step9).
Defined.

Lemma complete_until_deadline_witness :
  ∃ r', t_objects (en_db (wo_engine world10)) !! photo_key = Some r' ∧ or_object r' = or_object photo_row.
Proof.
  apply (complete_until_deadline clock world9 (serving_at _ broker_run9) clock world10
           (one_step _ _ step10) photo_key photo_row (proj1 photo_complete) (proj2 photo_complete)).
  vm_compute. reflexivity.
Defined.

Lemma storage_bounded_per_space_witness :
  stored_bytes (en_db (wo_engine world9)) (display space_id) ≤ 50000000.
Proof.
  apply (storage_bounded_per_space clock world9 (serving_at _ broker_run9)).
Defined.

Lemma provider_secrets_kept_witness :
  ∃ p, provider (wo_engine world9) photo_key.1 (ob_revision (or_object photo_row)) = Ok p.
Proof.
  apply (proj1 (provider_secrets_kept clock world9 (serving_at _ broker_run9)) photo_key photo_row).
  exact (proj1 photo_complete).
Defined.

Lemma storage_request_authentic_witness :
  ∃ bytes signed, base64_decode (rq_command configure_request) = Some bytes ∧ parse bytes = Ok signed
    ∧ authentic configure signed audience 101
    ∧ verify_witnessed (rq_proof configure_request) (sm_space_id (ve_command configure))
        (sm_stream_id (ve_command configure)) pin = Ok (ve_authority configure).
Proof. exact (storage_request_authentic _ _ _ _ _ configure_Ok). Defined.

Lemma storage_head_forward_witness :
  ∃ r', t_heads (en_db (wo_engine world4)) !! display space_id = Some r'
    ∧ rtc (head_step (display space_id)) head_row r' ∧ hd_stream r' = hd_stream head_row.
Proof.
  exact (storage_head_forward clock world3 (serving_at _ broker_run3) clock world4
           (one_step _ _ step4) _ _ registered).
Defined.

Lemma witness_floor_forward_witness :
  ∃ f', t_witness_floor (en_db (wo_engine world4)) = Some f' ∧ floor_le floor f'.
Proof.
  exact (proj1 (witness_floor_forward clock world3 (serving_at _ broker_run3) clock world4
           (one_step _ _ step4) floor seen)).
Defined.

(** The owner's command, sent again after a reservation. *)
Definition again : Engine * Response :=
  from_ok (no_engine, no_answer) (apply_with_managed configure ip 105 None None (wo_engine world4)).
Lemma again_Ok :
  apply_with_managed configure ip 105 None None (wo_engine world4) = Ok (again.1, again.2).
Proof.
  rewrite (from_ok_Ok (no_engine, no_answer)
    (apply_with_managed configure ip 105 None None (wo_engine world4)))
    by (vm_compute; reflexivity).
  unfold again. by destruct (from_ok _ _).
Qed.
Lemma apply_of_section f v managed n i t t' e r :
  apply_section f v ip managed n i t t' e = Ok r → apply_with_managed v ip (t' / 1000) managed n e = Ok r.
Proof. unfold apply_section. by destruct (check_witness _ _ _ _). Qed.
Lemma claim_of_section tg f o tok a i t t' e r :
  claim_section tg f o tok a i t t' e = Ok r → claim o tok a (t' / 1000) e = Ok r.
Proof.
  unfold claim_section. destruct (check_witness _ _ _ _); [|done].
  destruct (token_target _ _ _ _ _); [|done]. cbn [mbind result_bind].
  by destruct (fail_if _ _).
Qed.
Lemma first_Ok : apply_with_managed configure ip (clock / 1000) None draw (wo_engine world2)
  = Ok ((answer world2 configure).1, (answer world2 configure).2).
Proof. exact (apply_of_section _ _ _ _ _ _ _ _ _ (answer_Ok world2 configure ltac:(vm_compute; reflexivity))). Qed.
Lemma first_new : preflight (wo_engine world2) configure ip (clock / 1000) = Ok None.
Proof. vm_compute. reflexivity. Qed.
Lemma storage_command_once_witness :
  again.1 = wo_engine world4 ∧ again.2 = (answer world2 configure).2.
Proof.
  exact (storage_command_once clock world2 _ configure ip None draw _ (serving_at _ broker_run3) first_new
           first_Ok clock world4 (one_step _ _ step4) configure ip None None 105 _ _ eq_refl eq_refl
           ltac:(vm_compute; discriminate) again_Ok).
Defined.

(** The guest's upload token, spent. *)
Lemma spent_Ok :
  claim photo upload_token "upload" (clock / 1000) (wo_engine world4) = Ok (claimed.1, claimed.2).
Proof. exact (claim_of_section _ _ _ _ _ _ _ _ _ _ claimed_Ok). Qed.
Lemma transfer_token_once_witness :
  is_ok (claim photo upload_token "upload" 101 claimed.1) = false.
Proof.
  exact (proj2 (proj2 (proj2 (proj2 (transfer_token_once photo upload_token "upload" (clock / 1000)
    (wo_engine world4) claimed.1 claimed.2 spent_Ok)))) photo "upload" 101).
Defined.

(** The photo stays before its deadline, and goes at it. *)
Lemma maintenance_drains_witness :
  (∃ e', drains 101 3700 4096 (wo_engine world9) e' ∧ t_objects (en_db e') !! photo_key = Some photo_row)
  ∧ (∃ e', drains 3701 3701 4096 (wo_engine world9) e' ∧ t_objects (en_db e') !! photo_key = None).
Proof.
  split.
  - destruct (drains_exist 101 4096 ltac:(reflexivity) (wo_engine world9)) as [e' He].
    assert (drains 101 3700 4096 (wo_engine world9) e') as He' by (by eapply drains_later, He).
    exists e'. split; [exact He'|].
    apply (proj1 (proj2 (maintenance_drains clock world9 (serving_at _ broker_run9) 101 3700 e' He'))
             photo_key photo_row (proj1 photo_complete)).
    intros (_ & _ & [H|H]); revert H; vm_compute; [discriminate|by intros H; apply H].
  - destruct (drains_exist 3701 4096 ltac:(reflexivity) (wo_engine world9)) as [e' He].
    exists e'. split; [exact He|].
    apply (proj1 (maintenance_drains clock world9 (serving_at _ broker_run9) 3701 3701 e' He)
             photo_key photo_row (proj1 photo_complete)).
    vm_compute. split; [discriminate|]. split; [discriminate|]. right. discriminate.
Defined.
