(* ===== verification/WakeWire.v ===== *)
(** * Requests of the wake relay

    What reaches the push relay: wakes with the proof of their sender
    (crates/elo-core/src/app/push_sender.rs), the account bindings of routes and the account
    deletion requests (crates/elo-core/src/app/account_deletion.rs), and the JSON bodies of
    crates/elo-wake/src/relay.rs and relay/ringing.rs. *)

From S2P Require Import Prelude Platform Ids Record Chat Identity.

(** The unpadded URL-safe alphabet of the base64 crate. *)
Class UrlBase64 := {
  url_base64_encode : string → string;
  url_base64_decode : string → option string;
}.

(** ** Shared checks *)

(** [hex]: that many bytes in lower-case hexadecimal. *)
Definition hex_text (value : string) (bytes : N) : bool :=
  (slen value =? bytes * 2) && forallb lower_hex (String.list_ascii_of_string value).

(** [Action], [Request] and [Command] of account_deletion.rs *)
Inductive Action := Inspect | Submit.
#[global] Instance Action_eq_dec : EqDecision Action.
Proof. solve_decision. Defined.
Record AccountRequest := { aq_record : string; aq_credential : string }.
Record AccountCommand := {
  ac_v : N; ac_kind : string; ac_endpoint : string; ac_nonce : string; ac_issued : N;
  ac_action : Action; ac_confirmed : bool;
}.
Definition REQUEST_LIMIT : N := 16 * 1024.
Definition WAKE_PATH : string := "/wake/v1/account-deletion".

Inductive AccountStatus := Ready | Blocked | Pending | Completed.
Record OwnedSpace := { os_name : string; os_other_members : bool }.
Record AccountReceipt := { ar_endpoint : string; ar_id : string }.
Record Outcome := {
  oc_status : AccountStatus; oc_owned_spaces : list OwnedSpace; oc_request_id : option string;
  oc_requested_at : option N; oc_completed_at : option N; oc_receipts : list AccountReceipt;
}.

(** [Proof] of push_sender.rs *)
Record SenderProof := {
  sp_v : N; sp_kind : string; sp_route : string; sp_event : string; sp_scope : string;
  sp_target_hash : string; sp_category : string; sp_delivery_expires : option N;
  sp_expires : N;
}.
Record Sender := { se_identity : IdentityId; se_credential : RecordId }.

(** A wake; [sender] is whatever JSON the request carries there. *)
Record Wake := {
  wk_event : string; wk_scope : string; wk_target : string; wk_category : string;
  wk_expires : option N; wk_sender : option value;
}.

Record ScopeRule := {
  sr_scope : string; sr_enabled : bool; sr_alert_once : bool; sr_senders : list string;
  sr_allow_unknown : bool;
}.
(** The revision is signed in JSON and in the database. *)
Record Policy := {
  po_revision : Z; po_introductions : bool; po_scopes : list ScopeRule;
  po_authenticated_senders : bool; po_blocked_senders : list string;
  po_notify_key : option string;
}.
Record Registration := { rg_token : string; rg_notify_key : string; rg_binding : AccountRequest }.
Record ReadReceipt := { rd_scope : string; rd_event : string }.
Record BindingRequest := { br_provider : string; br_token : option string; br_sandbox : bool }.
Record RingRequest := { rn_wake : Wake; rn_call_id : string; rn_invitation_id : string }.

Class WakeSerde := {
  serde_sender_proof :: Serde SenderProof;
  serde_account_command :: Serde AccountCommand;
  json_policy :: JsonText Policy;
}.

Section WakeWire.
Context `{P : Platform} {U : UrlBase64} {SD : Serde DeviceCredential} {WS : WakeSerde}.

(** ** app.rs *)

Definition field (v : value) (k : string) : result string string :=
  ok_or (value_as_str (value_index v k)) "missing text field".
Definition root_key (s : string) : result string string :=
  bytes ← map_err (hex 32 s) "record";
  ok_or (vk_from_bytes bytes) "signature".
Definition decode_record (s : string) : result string SignedRecord :=
  bytes ← ok_or (base64_decode s) "base64";
  map_err (parse bytes) "record".

(** ** Sender proofs *)

Definition sender_tag (route : string) (who : IdentityId) : string :=
  encode_hex (sha256 ("elo.now/wake-sender/v1" +:+ nul +:+ route +:+ who)).
Definition credential_tag (route : string) (cred : RecordId) : string :=
  encode_hex (sha256 ("elo.now/wake-credential/v1" +:+ nul +:+ route +:+ cred)).

(** The categories that may be proved, and those that are delivered at once or not at all. *)
Definition sender_category (c : string) : bool :=
  contains ["message"; "invitation"; "membership"; "session_start"; "call_ring"] c.
Definition timed_category (c : string) : bool := contains ["session_start"; "call_ring"] c.
(** [expires.is_none_or(|e| e <= time || e > time + 60)] *)
Definition not_soon (expires : option N) (time : N) : bool :=
  match expires with
  | Some e => (e <=? time) || (saturating_add time 60 <? e)
  | None => true
  end.

(** A credential whose own root is its anchor. *)
Definition self_certified (bytes : string) : result string VerifiedCredential :=
  raw ← map_err (parse bytes) "record";
  root ← field (sr_body raw) "root_public_key" ≫= root_key;
  map_err (Identity.verify bytes root) "record".

Definition proof_part (auth : value) (name : string) : result string string :=
  encoded ← field auth name;
  _ ← fail_if (4096 <? slen encoded) "Invalid notification sender.";
  ok_or (url_base64_decode encoded) "base64".

Definition verify_sender (route : string) (w : Wake) (time : N) : result string Sender :=
  let auth := default VNull (wk_sender w) in
  credential_bytes ← proof_part auth "credential";
  credential ← self_certified credential_bytes;
  proof ← proof_part auth "proof";
  signed ← map_err (parse proof) "record";
  _ ← map_err (verify_signature signed (vc_key credential)) "signature";
  body ← map_err (decode (T := SenderProof) signed) "record";
  _ ← fail_if (negb (sp_v body =? 1)
               || (sp_kind body =/= "notification.sender")
               || (sp_route body =/= route)
               || (sp_event body =/= wk_event w)
               || (sp_scope body =/= wk_scope w)
               || (sp_category body =/= wk_category w)
               || negb (sender_category (sp_category body))
               || (sp_delivery_expires body =/= wk_expires w)
               || (timed_category (sp_category body) && not_soon (sp_delivery_expires body) time)
               || (negb (timed_category (sp_category body))
                   && bool_decide (is_Some (sp_delivery_expires body)))
               || (sp_target_hash body =/= encode_hex (sha256 (wk_target w)))
               || (sp_expires body <? time)
               || (saturating_add time 120 <? sp_expires body)) "Invalid notification sender.";
  mret {| se_identity := vc_identity credential; se_credential := vc_id credential |}.

(** [sign]: the sender's half; [time] is the clock in seconds. *)
Definition sender_proof (route : string) (w : Wake) (time : N) : SenderProof :=
  {| sp_v := 1; sp_kind := "notification.sender"; sp_route := route; sp_event := wk_event w;
     sp_scope := wk_scope w; sp_category := wk_category w; sp_delivery_expires := wk_expires w;
     sp_target_hash := encode_hex (sha256 (wk_target w)); sp_expires := time + 120 |}.
Definition sign_sender (own : VerifiedCredential) (key route : string) (w : Wake) (time : N)
    : result string Wake :=
  signed ← map_err (sign (to_vec (sender_proof route w time)) key) "record";
  mret {| wk_event := wk_event w; wk_scope := wk_scope w; wk_target := wk_target w;
          wk_category := wk_category w; wk_expires := wk_expires w;
          wk_sender := Some (VObject
            [("credential", VString (url_base64_encode (sr_bytes (vc_record own))));
             ("proof", VString (url_base64_encode (sr_bytes signed)))]) |}.

(** ** Account bindings and deletion *)

(** What both requests begin with. *)
Definition account_request (request : AccountRequest) (too_large : string)
    : result string (VerifiedCredential * SignedRecord) :=
  _ ← fail_if (REQUEST_LIMIT <? slen (aq_record request) + slen (aq_credential request)) too_large;
  raw ← decode_record (aq_credential request);
  credential ← self_certified (sr_bytes raw);
  signed ← decode_record (aq_record request);
  _ ← map_err (verify_signature signed (vc_key credential)) "signature";
  mret (credential, signed).

Definition verify_route_binding (request : AccountRequest) (endpoint route token : string)
    (current : N) : result string VerifiedCredential :=
  cs ← account_request request "Invalid route binding.";
  let body := sr_body cs.2 in
  let issued := value_as_u64 (value_index body "issued") in
  _ ← fail_if ((value_as_u64 (value_index body "v") =/= Some 1)
               || negb (value_eq_str (value_index body "kind") "account.route")
               || negb (value_eq_str (value_index body "endpoint") endpoint)
               || negb (value_eq_str (value_index body "route") route)
               || negb (value_eq_str (value_index body "token")
                          (display (object_of_ciphertext token)))
               || match issued with Some i => 120000 <? abs_diff current i | None => true end)
        "Invalid route binding.";
  mret cs.1.

Definition verify_deletion (request : AccountRequest) (expected_endpoint : string) (current : N)
    : result string (AccountCommand * VerifiedCredential) :=
  cs ← account_request request "Account deletion request is too large.";
  command ← map_err (decode (T := AccountCommand) cs.2) "record";
  _ ← fail_if (bool_decide (is_Some (authorizing_device cs.1)))
        "Delete this account from your original device.";
  _ ← map_err (hex 16 (ac_nonce command)) "record";
  _ ← fail_if (negb (ac_v command =? 1)
               || (ac_kind command =/= "account.deletion")
               || (ac_endpoint command =/= expected_endpoint)
               || (120000 <? abs_diff current (ac_issued command))
               || (ac_confirmed command =/= (ac_action command === Submit)))
        "Invalid or expired account deletion request.";
  mret (command, cs.1).

End WakeWire.
