(* ===== verification/WakeRelay.v ===== *)
(** * The wake relay's database (crates/elo-wake/src/relay.rs, relay/ringing.rs)

    Routes to devices, the recipients' policies, the ledger of events and the delivery queue.
    Every closure a handler runs on the database worker is one definition from database to
    database; what precedes it in the handler is a definition of its own. Times are seconds
    of the system clock. *)

From S2P Require Import Prelude Sums Platform Ids Record Chat Identity WakeWire.

(** The [StatusCode]s of refusals. *)
Inductive Status :=
| BAD_REQUEST | UNAUTHORIZED | FORBIDDEN | NOT_FOUND | CONFLICT | GONE | TOO_MANY_REQUESTS
| INTERNAL_SERVER_ERROR | BAD_GATEWAY | SERVICE_UNAVAILABLE.
#[global] Instance Status_eq_dec : EqDecision Status.
Proof. solve_decision. Defined.

(** ** Tables

    Every table but [erased_accounts] and [event_totals] has the route as the first part of
    its key and is deleted with it, so a route carries its rows. *)

Record RouteRow := {
  ro_owner : string; ro_notify : string; ro_token : string; ro_challenge : string;
  ro_active : bool; ro_expires : N; ro_next_send : N;
}.
Record Version := { pv_revision : Z; pv_introductions : bool; pv_digest : string }.
(** [policy_versions], [sender_policy], [blocked_senders], [scopes], [repeat_alerts],
    [scope_senders] and [open_scopes] *)
Record Rules := {
  ru_version : option Version; ru_authenticated : option bool; ru_blocked : gset string;
  ru_scopes : gmap string bool; ru_repeat : gset string; ru_senders : gset (string * string);
  ru_open : gset string;
}.
Record Item := {
  it_event : string; it_target : string; it_next : N; it_expires : N; it_failures : N;
  it_sender : option string; it_credential : option string; it_category : string;
}.
(** [incoming_bindings] *)
Record Binding := { bd_provider : string; bd_token : string; bd_expires : N; bd_next_send : N }.

Record Route := {
  rt_row : RouteRow;
  rt_account : option string;
  rt_rules : Rules;
  rt_events : gmap string N;
  rt_count : option Z;
  rt_attention : gmap string string;
  rt_queue : gmap string Item;
  rt_untrusted : option N;
  rt_binding : option Binding;
}.
Record Db := {
  db_routes : gmap string Route;
  db_erased : gmap string (string * N);
  db_event_total : Z;
}.
Definition no_rules : Rules :=
  {| ru_version := None; ru_authenticated := None; ru_blocked := ∅; ru_scopes := ∅;
     ru_repeat := ∅; ru_senders := ∅; ru_open := ∅ |}.
Definition no_routes : Db := {| db_routes := ∅; db_erased := ∅; db_event_total := 0 |}.

Definition with_row (r : Route) (x : RouteRow) : Route :=
  {| rt_row := x; rt_account := rt_account r; rt_rules := rt_rules r; rt_events := rt_events r;
     rt_count := rt_count r; rt_attention := rt_attention r; rt_queue := rt_queue r;
     rt_untrusted := rt_untrusted r; rt_binding := rt_binding r |}.
Definition with_rules (r : Route) (x : Rules) : Route :=
  {| rt_row := rt_row r; rt_account := rt_account r; rt_rules := x; rt_events := rt_events r;
     rt_count := rt_count r; rt_attention := rt_attention r; rt_queue := rt_queue r;
     rt_untrusted := rt_untrusted r; rt_binding := rt_binding r |}.
Definition with_events (r : Route) (x : gmap string N) (n : option Z) : Route :=
  {| rt_row := rt_row r; rt_account := rt_account r; rt_rules := rt_rules r; rt_events := x;
     rt_count := n; rt_attention := rt_attention r; rt_queue := rt_queue r;
     rt_untrusted := rt_untrusted r; rt_binding := rt_binding r |}.
Definition with_attention (r : Route) (x : gmap string string) : Route :=
  {| rt_row := rt_row r; rt_account := rt_account r; rt_rules := rt_rules r;
     rt_events := rt_events r; rt_count := rt_count r; rt_attention := x; rt_queue := rt_queue r;
     rt_untrusted := rt_untrusted r; rt_binding := rt_binding r |}.
Definition with_queue (r : Route) (x : gmap string Item) : Route :=
  {| rt_row := rt_row r; rt_account := rt_account r; rt_rules := rt_rules r;
     rt_events := rt_events r; rt_count := rt_count r; rt_attention := rt_attention r;
     rt_queue := x; rt_untrusted := rt_untrusted r; rt_binding := rt_binding r |}.
Definition with_untrusted (r : Route) (x : option N) : Route :=
  {| rt_row := rt_row r; rt_account := rt_account r; rt_rules := rt_rules r;
     rt_events := rt_events r; rt_count := rt_count r; rt_attention := rt_attention r;
     rt_queue := rt_queue r; rt_untrusted := x; rt_binding := rt_binding r |}.
Definition with_binding (r : Route) (x : option Binding) : Route :=
  {| rt_row := rt_row r; rt_account := rt_account r; rt_rules := rt_rules r;
     rt_events := rt_events r; rt_count := rt_count r; rt_attention := rt_attention r;
     rt_queue := rt_queue r; rt_untrusted := rt_untrusted r; rt_binding := x |}.
Definition row_until (o : RouteRow) (expires next_send : N) (active : bool) : RouteRow :=
  {| ro_owner := ro_owner o; ro_notify := ro_notify o; ro_token := ro_token o;
     ro_challenge := ro_challenge o; ro_active := active; ro_expires := expires;
     ro_next_send := next_send |}.
Definition row_notify (o : RouteRow) (notify : string) : RouteRow :=
  {| ro_owner := ro_owner o; ro_notify := notify; ro_token := ro_token o;
     ro_challenge := ro_challenge o; ro_active := ro_active o; ro_expires := ro_expires o;
     ro_next_send := ro_next_send o |}.

(** ** Statements, with the triggers that count the events *)

Definition events_in (m : gmap string Route) : N :=
  sum_over (λ _ r, N.of_nat (size (rt_events r))) m.
(** The total after the rows of [m] became those of [m']: one decrement per removed event. *)
Definition fewer_events (total : Z) (m m' : gmap string Route) : Z :=
  (total - (Z.of_N (events_in m) - Z.of_N (events_in m')))%Z.

(** [DELETE FROM routes WHERE ..], with the rows that depend on them *)
Definition drop_routes (p : string → Route → bool) (db : Db) : Db :=
  let m := delete_all p (db_routes db) in
  {| db_routes := m; db_erased := db_erased db;
     db_event_total := fewer_events (db_event_total db) (db_routes db) m |}.

(** [DELETE FROM events WHERE ..] *)
Definition purge_route (p : string → N → bool) (r : Route) : Route :=
  let events := delete_all p (rt_events r) in
  with_events r events
    ((λ n, (n - (Z.of_nat (size (rt_events r)) - Z.of_nat (size events)))%Z) <$> rt_count r).
Definition purge_events (p : string → Route → string → N → bool) (db : Db) : Db :=
  let m := update_all (λ k r, purge_route (p k r) r) (db_routes db) in
  {| db_routes := m; db_erased := db_erased db;
     db_event_total := fewer_events (db_event_total db) (db_routes db) m |}.

(** [UPDATE] of the rows of one route, or of all of them, the events apart. *)
Definition upd_route (id : string) (f : Route → Route) (db : Db) : Db :=
  {| db_routes := alter f id (db_routes db); db_erased := db_erased db;
     db_event_total := db_event_total db |}.
Definition upd_routes (f : string → Route → Route) (db : Db) : Db :=
  {| db_routes := update_all f (db_routes db); db_erased := db_erased db;
     db_event_total := db_event_total db |}.

(** [INSERT INTO events], and whether it inserted a row *)
Definition count_event (n : option Z) : option Z := Some (match n with Some n => n + 1 | None => 1 end)%Z.
Definition add_event (id event : string) (expires : N) (db : Db) : Db * bool :=
  match db_routes db !! id with
  | Some r =>
      match rt_events r !! event with
      | Some _ => (db, false)
      | None =>
          ({| db_routes := <[id := with_events r (<[event := expires]> (rt_events r))
                                    (count_event (rt_count r))]> (db_routes db);
              db_erased := db_erased db; db_event_total := (db_event_total db + 1)%Z |}, true)
      end
  | None => (db, false)
  end.

(** [INSERT INTO routes] and [INSERT INTO route_accounts] *)
Definition new_route (row : RouteRow) (account : string) : Route :=
  {| rt_row := row; rt_account := Some account; rt_rules := no_rules; rt_events := ∅;
     rt_count := None; rt_attention := ∅; rt_queue := ∅; rt_untrusted := None;
     rt_binding := None |}.
Definition insert_route (id : string) (row : RouteRow) (account : string) (db : Db) : Db :=
  {| db_routes := <[id := new_route row account]> (db_routes db);
     db_erased := db_erased db; db_event_total := db_event_total db |}.
Definition insert_erased (who request : string) (completed : N) (db : Db) : Db :=
  {| db_routes := db_routes db; db_erased := <[who := (request, completed)]> (db_erased db);
     db_event_total := db_event_total db |}.

(** [DELETE FROM routes WHERE expires<=?] and [DELETE FROM events WHERE expires<=?] *)
Definition drop_expired (time : N) (db : Db) : Db :=
  drop_routes (λ _ r, ro_expires (rt_row r) <=? time) db.
Definition purge_expired (time : N) (db : Db) : Db := purge_events (λ _ _ _ x, x <=? time) db.

(** What [Relay::open] does to an existing database: the totals are counted again. *)
Definition recount (r : Route) : Route :=
  with_events r (rt_events r)
    (if Nat.eqb (size (rt_events r)) 0 then None else Some (Z.of_nat (size (rt_events r)))).
Definition open (db : Db) : Db :=
  {| db_routes := recount <$> db_routes db; db_erased := db_erased db;
     db_event_total := Z.of_N (events_in (db_routes db)) |}.

(** ** Requests *)

Definition strip_prefix (p s : string) : option string :=
  if stake (String.length p) s === p then Some (sdrop (String.length p) s) else None.
Definition auth (header : option string) : result Status string :=
  key ← ok_or (header ≫= strip_prefix "Bearer ") UNAUTHORIZED;
  _ ← fail_if (negb (hex_text key 32)) UNAUTHORIZED;
  mret key.

Section WakeRelay.
Context `{P : Platform} {U : UrlBase64} {SD : Serde DeviceCredential} {WS : WakeSerde}.

Definition hash (s : string) : string := sha256 s.
Definition matches (expected key : string) : bool := expected === hash key.
(** [secret]: [draw] is what [getrandom] filled, if it did. *)
Definition secret (draw : option string) : result Status string :=
  encode_hex <$> ok_or draw INTERNAL_SERVER_ERROR.

(** A section that leaves the database alone when it fails. *)
Definition commit {A} (r : result Status (Db * A)) (db : Db) : Db * result Status A :=
  match r with Ok (db', a) => (db', Ok a) | Err e => (db, Err e) end.

(** *** Account deletion *)

Definition sent_by (tag : string) (it : Item) : bool := it_sender it === Some tag.
Definition erase_sender (who : IdentityId) (id : string) (r : Route) : Route :=
  let tag := sender_tag id who in
  let mine := filter (λ kv, sent_by tag kv.2 = true) (rt_queue r) in
  let r := with_attention r (filter (λ kv, mine !! kv.1 = None) (rt_attention r)) in
  with_queue r (filter (λ kv, sent_by tag kv.2 = false) (rt_queue r)).
Definition event_of_sender (who : IdentityId) (id : string) (r : Route) (event : string) (x : N)
    : bool :=
  existsb (λ it, sent_by (sender_tag id who) it && (it_event it === event))
    (map_to_list (rt_queue r)).*2.

Definition outcome (completed : option (string * N)) : Outcome :=
  match completed with
  | Some (id, time) =>
      {| oc_status := Completed; oc_owned_spaces := []; oc_request_id := Some id;
         oc_requested_at := Some time; oc_completed_at := Some time; oc_receipts := [] |}
  | None =>
      {| oc_status := Ready; oc_owned_spaces := []; oc_request_id := None;
         oc_requested_at := None; oc_completed_at := None; oc_receipts := [] |}
  end.

(** [time] is in milliseconds. *)
Definition erase_section (who : IdentityId) (action : Action) (draw : option string) (time : N)
    (db : Db) : Db * result Status Outcome :=
  match db_erased db !! display who with
  | Some previous => (db, Ok (outcome (Some previous)))
  | None =>
      match action with
      | Inspect => (db, Ok (outcome None))
      | Submit =>
          match secret draw with
          | Err e => (db, Err e)
          | Ok id =>
              let db := insert_erased (display who) id time db in
              let db := drop_routes (λ _ r, rt_account r === Some (display who)) db in
              let db := purge_events (event_of_sender who) db in
              (upd_routes (erase_sender who) db, Ok (outcome (Some (id, time))))
          end
      end
  end.
Definition erase_request (endpoint : string) (request : AccountRequest) (time : N)
    : result Status (AccountCommand * VerifiedCredential) :=
  map_err (verify_deletion request (endpoint +:+ WAKE_PATH) time) BAD_REQUEST.

(** *** Registration *)

Definition token_byte (c : Ascii.ascii) : bool :=
  let n := byte_val c in
  in_range 48 57 n || in_range 65 90 n || in_range 97 122 n || contains [45; 95; 58; 46] n.
Definition register_request (endpoint id : string) (header : option string)
    (input : Registration) (time : N) : result Status (IdentityId * string) :=
  credential ← map_err (verify_route_binding (rg_binding input) endpoint id (rg_token input)
                          (time * 1000)) BAD_REQUEST;
  owner ← auth header;
  _ ← fail_if (negb (hex_text id 16)
               || negb (hex_text (rg_notify_key input) 32)
               || (slen (rg_token input) <? 16)
               || (4096 <? slen (rg_token input))
               || negb (forallb token_byte (String.list_ascii_of_string (rg_token input))))
        BAD_REQUEST;
  mret (vc_identity credential, owner).

Definition pending_routes (m : gmap string Route) : N :=
  count_over (λ _ r, negb (ro_active (rt_row r))) m.
Definition routes_of_token (token : string) (m : gmap string Route) : N :=
  count_over (λ _ r, ro_token (rt_row r) === token) m.
Definition routes_of_account (who : string) (m : gmap string Route) : N :=
  count_over (λ _ r, rt_account r === Some who) m.

Definition renew_route (time : N) (r : Route) : Route :=
  let o := rt_row r in with_row r (row_until o (time + 30 * 86400) (ro_next_send o) (ro_active o)).
Definition delay_route (time : N) (r : Route) : Route :=
  let o := rt_row r in with_row r (row_until o (ro_expires o) (time + 10) (ro_active o)).

(** The challenge to send, if the route is not already active. *)
Definition register_section (id : string) (who : IdentityId) (owner : string)
    (input : Registration) (draw : option string) (time : N) (db : Db)
    : Db * result Status (option string) :=
  match db_erased db !! display who with
  | Some _ => (db, Err GONE)
  | None =>
      let db := drop_expired time db in
      match db_routes db !! id with
      | Some saved =>
          let o := rt_row saved in
          if rt_account saved =/= Some (display who) then (db, Err FORBIDDEN)
          else if negb (matches (ro_owner o) owner) || negb (matches (ro_notify o) (rg_notify_key input))
                  || (ro_token o =/= rg_token input) then (db, Err FORBIDDEN)
          else if ro_active o then (upd_route id (renew_route time) db, Ok None)
          else if time <? ro_next_send o then (db, Err TOO_MANY_REQUESTS)
          else (upd_route id (delay_route time) db, Ok (Some (ro_challenge o)))
      | None =>
          let m := db_routes db in
          if (10000 <=? N.of_nat (size m)) || (64 <=? pending_routes m)
             || (16 <=? routes_of_account (display who) m)
             || (8 <=? routes_of_token (rg_token input) m) then (db, Err TOO_MANY_REQUESTS)
          else
            match secret draw with
            | Err e => (db, Err e)
            | Ok challenge =>
                (insert_route id
                   {| ro_owner := hash owner; ro_notify := hash (rg_notify_key input);
                      ro_token := rg_token input; ro_challenge := challenge; ro_active := false;
                      ro_expires := time + 600; ro_next_send := time + 10 |} (display who) db,
                 Ok (Some challenge))
            end
      end
  end.

(** The challenge could not be sent. *)
Definition register_failed (id challenge : string) (db : Db) : Db :=
  drop_routes (λ k r, (k === id) && (ro_challenge (rt_row r) === challenge)
                      && negb (ro_active (rt_row r))) db.

Definition activate (time : N) (r : Route) : Route :=
  with_row r (row_until (rt_row r) (time + 30 * 86400) 0 true).
Definition confirm_section (id owner challenge : string) (time : N) (db : Db)
    : Db * result Status unit :=
  commit (saved ← ok_or (db_routes db !! id) NOT_FOUND;
          let o := rt_row saved in
          _ ← fail_if (negb (matches (ro_owner o) owner)
                       || (ro_expires o <=? time)
                       || negb (hex_text challenge 32)
                       || (ro_challenge o =/= challenge)) FORBIDDEN;
          mret (upd_route id (activate time) db, tt)) db.

Definition remove_section (id owner : string) (db : Db) : Db * result Status unit :=
  match db_routes db !! id with
  | None => (db, Ok tt)
  | Some saved =>
      if negb (matches (ro_owner (rt_row saved)) owner) then (db, Err FORBIDDEN)
      else (drop_routes (λ k _, k === id) db, Ok tt)
  end.

(** The guard of every request of a route's owner. *)
Definition owner_ok (saved : Route) (owner : string) (time : N) : bool :=
  matches (ro_owner (rt_row saved)) owner && ro_active (rt_row saved)
  && negb (ro_expires (rt_row saved) <=? time).

End WakeRelay.
