(* ===== verification/WakeDelivery.v ===== *)
(** * Policies, wakes and their delivery (crates/elo-wake/src/relay.rs, relay/ringing.rs)

    What a recipient allows, how an authenticated sender's wake is admitted to the queue, what
    the delivery worker selects and hands to the push provider, and incoming calls. *)

From S2P Require Import Prelude Sums Platform Ids Record Chat Identity WakeWire WakeRelay.

(** What the provider is given (fcm.rs). *)
Inductive Notice :=
| NoticeRing (registration call_id invitation_id target : string) (expires : N)
    (voip apns_sandbox : bool)
| NoticeChallenge (registration challenge : string)
| NoticeWake (registration scope event category target : string) (quiet : bool)
    (expires : option N).
(** [fcm::Error], as far as the relay tells them apart. *)
Inductive SendError := Unregistered | NotSent.

(** ** What the rules allow *)

Definition version_introductions (u : Rules) : bool :=
  match ru_version u with Some v => pv_introductions v | None => false end.
Definition scope_open (u : Rules) (scope : string) : bool := bool_decide (scope ∈ ru_open u).
Definition scope_sender (u : Rules) (scope : string) (cred : option string) : bool :=
  match cred with Some c => bool_decide ((scope, c) ∈ ru_senders u) | None => false end.
Definition is_blocked (u : Rules) (tag : option string) : bool :=
  match tag with Some t => bool_decide (t ∈ ru_blocked u) | None => false end.
Definition no_scope (u : Rules) (scope : string) : bool := bool_decide (ru_scopes u !! scope = None).

(** ** Policies *)

Definition policy_valid (p : Policy) : bool :=
  negb ((po_revision p <? 1)%Z
        || negb (po_authenticated_senders p)
        || (4096 <? nlen (po_scopes p))
        || (4096 <? nlen (po_blocked_senders p))
        || existsb (λ s, negb (hex_text s 32)) (po_blocked_senders p)
        || (negb (po_blocked_senders p === []) && negb (po_authenticated_senders p))
        || existsb (λ s, negb (hex_text (sr_scope s) 32)) (po_scopes p)
        || match po_notify_key p with Some key => negb (hex_text key 32) | None => false end
        || (8192 <? foldr N.add 0 ((λ s, nlen (sr_senders s)) <$> po_scopes p))
        || existsb (λ s, existsb (λ c, negb (hex_text c 32)) (sr_senders s)) (po_scopes p))
  && negb (any_repeat (sr_scope <$> po_scopes p)).

(** The rows one scope of a policy adds, and the attention it clears. *)
Definition add_scope (s : ScopeRule) (u : Rules) : Rules :=
  {| ru_version := ru_version u; ru_authenticated := ru_authenticated u;
     ru_blocked := ru_blocked u;
     ru_scopes := <[sr_scope s := sr_enabled s]> (ru_scopes u);
     ru_repeat := if sr_alert_once s then ru_repeat u else {[sr_scope s]} ∪ ru_repeat u;
     ru_senders := list_to_set ((λ c, (sr_scope s, c)) <$> sr_senders s) ∪ ru_senders u;
     ru_open := if sr_allow_unknown s then {[sr_scope s]} ∪ ru_open u else ru_open u |}.
Definition clear_attention (scopes : list ScopeRule) (m : gmap string string) : gmap string string :=
  foldl (λ m s, if sr_alert_once s then m else delete (sr_scope s) m) m scopes.

(** Old scopes stay known, disabled unless the policy names them. *)
Definition new_rules (p : Policy) (digest : string) (u : Rules) : Rules :=
  let base := {| ru_version := Some {| pv_revision := po_revision p;
                                       pv_introductions := po_introductions p;
                                       pv_digest := digest |};
                 ru_authenticated := Some (po_authenticated_senders p);
                 ru_blocked := list_to_set (po_blocked_senders p);
                 ru_scopes := (λ _, false) <$> ru_scopes u;
                 ru_repeat := ∅; ru_senders := ∅; ru_open := ∅ |} in
  foldl (λ u s, add_scope s u) base (po_scopes p).

(** The queued work a new policy deletes: unsigned or blocked senders, scopes it mutes or does
    not know, and credentials it does not name. *)
Definition drops_sender (p : Policy) (u : Rules) (it : Item) : bool :=
  ((it_sender it === None) && po_authenticated_senders p) || is_blocked u (it_sender it).
Definition drops_scope (u : Rules) (scope : string) : bool :=
  match ru_scopes u !! scope with
  | Some enabled => negb enabled
  | None => negb (version_introductions u)
  end.
Definition drops_credential (u : Rules) (scope : string) (it : Item) : bool :=
  (it_credential it === None)
  || (negb (no_scope u scope) && negb (scope_open u scope)
      && negb (scope_sender u scope (it_credential it))).

Section WakeDelivery.
Context `{P : Platform} {U : UrlBase64} {SD : Serde DeviceCredential} {WS : WakeSerde}.

Definition apply_policy (p : Policy) (digest : string) (r : Route) : Route :=
  let u := new_rules p digest (rt_rules r) in
  let o := match po_notify_key p with
           | Some key => row_notify (rt_row r) (hash key)
           | None => rt_row r
           end in
  let queue := delete_all (λ scope it, drops_sender p u it || drops_scope u scope
                                       || drops_credential u scope it) (rt_queue r) in
  with_queue (with_attention (with_rules (with_row r o) u)
                (clear_attention (po_scopes p) (rt_attention r))) queue.

Definition policy_section (id owner : string) (p : Policy) (time : N) (db : Db)
    : Db * result Status unit :=
  commit (saved ← ok_or (db_routes db !! id) NOT_FOUND;
          _ ← fail_if (negb (owner_ok saved owner time)) FORBIDDEN;
          let version := ru_version (rt_rules saved) in
          let revision := match version with Some v => pv_revision v | None => 0%Z end in
          _ ← fail_if (po_revision p <? revision)%Z CONFLICT;
          let digest := hash (to_json p) in
          if (po_revision p =? revision)%Z then
            previous ← ok_or version INTERNAL_SERVER_ERROR;
            _ ← fail_if (pv_digest previous =/= digest) CONFLICT;
            mret (db, tt)
          else mret (upd_route id (apply_policy p digest) db, tt)) db.

(** ** The ledger of events *)

Definition event_count_of (r : Route) : Z := default 0%Z (rt_count r).
Definition identity_count (m : gmap string Route) (who : option string) : Z :=
  match who with
  | Some who =>
      map_fold (λ _ r n, ((if rt_account r === Some who then event_count_of r else 0) + n)%Z) 0%Z m
  | None => 0%Z
  end.
Definition event_capacity (db : Db) (id : string) : bool :=
  let count := match db_routes db !! id with Some r => event_count_of r | None => 0%Z end in
  let who := db_routes db !! id ≫= rt_account in
  (count <? 4096)%Z && (identity_count (db_routes db) who <? 8192)%Z
  && ((count <? 64)%Z || (db_event_total db <? 250000)%Z).

Definition read_valid (events : list ReadReceipt) : bool :=
  negb ((events === [] : bool) || (32 <? nlen events)
        || existsb (λ r, negb (hex_text (rd_scope r) 32) || negb (hex_text (rd_event r) 32)) events).
(** [DELETE .. WHERE route=? AND scope=? AND event=?], of the attention and of the queue. *)
Definition forget_attention (scope event : string) (r : Route) : Route :=
  if rt_attention r !! scope === Some event
  then with_attention r (delete scope (rt_attention r)) else r.
Definition forget_item (scope event : string) (r : Route) : Route :=
  if (it_event <$> rt_queue r !! scope) === Some event
  then with_queue r (delete scope (rt_queue r)) else r.
Definition read_one (id : string) (time : N) (db : Db) (x : ReadReceipt) : Db :=
  let db := if event_capacity db id then (add_event id (rd_event x) (time + 86400) db).1 else db in
  upd_route id (λ r, forget_item (rd_scope x) (rd_event x) (forget_attention (rd_scope x) (rd_event x) r)) db.
Definition read_section (id owner : string) (events : list ReadReceipt) (time : N) (db : Db)
    : Db * result Status unit :=
  commit (saved ← ok_or (db_routes db !! id) NOT_FOUND;
          _ ← fail_if (negb (owner_ok saved owner time)) FORBIDDEN;
          mret (foldl (read_one id time) (purge_expired time db) events, tt)) db.

(** ** Wakes *)

Definition wake_valid (w : Wake) (time : N) : bool :=
  contains ["message"; "invitation"; "membership"; "session_start"] (wk_category w)
  && hex_text (wk_event w) 32 && hex_text (wk_scope w) 32
  && in_range 64 2048 (slen (wk_target w))
  && bool_decide (is_Some (url_base64_decode (wk_target w)))
  && (if wk_category w === "session_start" then
        match wk_expires w with Some x => (time <? x) && (x <=? time + 60) | None => false end
      else wk_expires w === None).

(** The sender's admission under the rules: refused in silence, or admitted as a sender the
    rules name for the scope, or as another. *)
Definition admits (u : Rules) (w : Wake) (tag cred : string) : option bool :=
  let enabled := ru_scopes u !! wk_scope w in
  let authorized := scope_sender u (wk_scope w) (Some cred) in
  if negb (default false (ru_authenticated u)) || is_blocked u (Some tag) then None
  else if (enabled === Some false) || ((enabled === None) && negb (version_introductions u)) then None
  else if (wk_category w === "session_start") && ((enabled =/= Some true) || negb authorized) then None
  else if (enabled =/= None) && negb authorized && negb (scope_open u (wk_scope w)) then None
  else Some authorized.
(** Another sender waits for a named one's pending wake, and for the route's budget. *)
Definition untrusted_waits (r : Route) (scope : string) (time : N) : bool :=
  match rt_queue r !! scope with
  | Some it => scope_sender (rt_rules r) scope (it_credential it)
  | None => false
  end || (time <? default 0 (rt_untrusted r)).

Definition untrusted_item (u : Rules) (scope : string) (it : Item) : bool :=
  negb (scope_sender u scope (it_credential it)).
Definition spend_budget (time : N) (r : Route) : Route :=
  with_untrusted (with_queue r (delete_all (untrusted_item (rt_rules r)) (rt_queue r)))
    (Some (time + 300)).
Definition wake_item (w : Wake) (tag cred : string) (time : N) (old : option Item) : Item :=
  {| it_event := wk_event w; it_target := wk_target w;
     it_next := match old with Some it => it_next it | None => time + 2 end;
     it_expires := default (time + 86400) (wk_expires w);
     it_failures := match old with Some it => it_failures it | None => 0 end;
     it_sender := Some tag; it_credential := Some cred; it_category := wk_category w |}.
Definition enqueue (w : Wake) (tag cred : string) (time : N) (r : Route) : Route :=
  with_queue r (<[wk_scope w := wake_item w tag cred time (rt_queue r !! wk_scope w)]> (rt_queue r)).

(** The end of [wake], in one transaction. *)
Definition wake_commit (id : string) (w : Wake) (tag cred : string) (authorized : bool)
    (time : N) (db : Db) : result Status Db :=
  let db' := purge_expired time db in
  _ ← fail_if (negb (event_capacity db' id)) TOO_MANY_REQUESTS;
  let added := add_event id (wk_event w) (time + 86400) db' in
  if negb added.2 then mret db
  else
    let db' := if authorized then added.1 else upd_route id (spend_budget time) added.1 in
    mret (upd_route id (enqueue w tag cred time) db').

Definition wake_section (id key : string) (w : Wake) (time : N) (db : Db)
    : Db * result Status unit :=
  commit (saved ← ok_or (db_routes db !! id) NOT_FOUND;
          let o := rt_row saved in
          _ ← fail_if (negb (ro_active o) || (ro_expires o <=? time)
                       || negb (matches (ro_notify o) key)) FORBIDDEN;
          sender ← match wk_sender w with
                   | Some _ => Some <$> map_err (verify_sender id w time) FORBIDDEN
                   | None => Ok None
                   end;
          match sender with
          | None => mret (db, tt)
          | Some s =>
              let tag := sender_tag id (se_identity s) in
              let cred := credential_tag id (se_credential s) in
              if bool_decide (is_Some (db_erased db !! display (se_identity s))) then mret (db, tt)
              else
                match admits (rt_rules saved) w tag cred with
                | None => mret (db, tt)
                | Some authorized =>
                    if negb authorized && untrusted_waits saved (wk_scope w) time then mret (db, tt)
                    else if bool_decide (is_Some (rt_events saved !! wk_event w)) then mret (db, tt)
                    else
                      _ ← fail_if (64 <=? N.of_nat (size (rt_queue saved))) TOO_MANY_REQUESTS;
                      db' ← wake_commit id w tag cred authorized time db;
                      mret (db', tt)
                end
          end) db.

(** ** Delivery *)

(** What the worker keeps of the selected row. *)
Record Delivery := {
  dl_route : string; dl_scope : string; dl_event : string; dl_target : string;
  dl_token : string; dl_failures : N; dl_category : string; dl_expires : N; dl_time : N;
}.

(** The condition of the query; [time] bounds both the item's and the route's next attempt. *)
Definition rules_deliver (u : Rules) (scope : string) (it : Item) : bool :=
  bool_decide (is_Some (ru_version u))
  && negb (is_blocked u (it_sender it))
  && negb ((it_sender it === None) && default false (ru_authenticated u))
  && match ru_scopes u !! scope with
     | Some enabled => enabled
     | None => version_introductions u
     end
  && bool_decide (is_Some (it_credential it))
  && (no_scope u scope || scope_open u scope || scope_sender u scope (it_credential it)).
Definition deliverable (time : N) (r : Route) (scope : string) (it : Item) : bool :=
  ro_active (rt_row r) && rules_deliver (rt_rules r) scope it
  && (it_next it <=? time) && (ro_next_send (rt_row r) <=? time).

Definition QueueRow : Type := string * Route * (string * Item).
Definition route_rows (id : string) (r : Route) : list QueueRow := (λ kv, (id, r, kv)) <$> map_to_list (rt_queue r).
Definition queue_rows (db : Db) : list QueueRow :=
  map_to_list (db_routes db) ≫= λ kr, route_rows kr.1 kr.2.
Definition row_due (time : N) (x : QueueRow) : bool := deliverable time x.1.2 x.2.1 x.2.2.
(** [ORDER BY q.next,q.route] *)
Definition row_before (x y : QueueRow) : bool :=
  (it_next x.2.2 <? it_next y.2.2)
  || ((it_next x.2.2 =? it_next y.2.2) && bytes_ltb x.1.1 y.1.1).
Fixpoint first_row (best : QueueRow) (rows : list QueueRow) : QueueRow :=
  match rows with
  | [] => best
  | x :: rows => first_row (if row_before x best then x else best) rows
  end.
Definition delivery_of (time : N) (x : QueueRow) : Delivery :=
  let it := x.2.2 in
  {| dl_route := x.1.1; dl_scope := x.2.1; dl_event := it_event it; dl_target := it_target it;
     dl_token := ro_token (rt_row x.1.2); dl_failures := it_failures it;
     dl_category := it_category it; dl_expires := it_expires it; dl_time := time |}.

(** The first statement of [deliver_due]; [order] is the order SQLite scans the queue in. *)
Definition drop_stale_items (time : N) (db : Db) : Db :=
  upd_routes (λ _ r, with_queue r (delete_all (λ _ it, it_expires it <=? time) (rt_queue r)))
    (drop_expired time db).
Definition select (time : N) (order : list QueueRow → list QueueRow) (db : Db)
    : Db * option Delivery :=
  let db := drop_stale_items time db in
  (db, match List.filter (row_due time) (order (queue_rows db)) with
       | [] => None
       | x :: rows => Some (delivery_of time (first_row x rows))
       end).

(** The second: whether the alert stays silent. *)
Definition is_quiet (d : Delivery) (db : Db) : bool :=
  match db_routes db !! dl_route d with
  | Some r =>
      let u := rt_rules r in
      negb match rt_queue r !! dl_scope d with
           | Some it => scope_sender u (dl_scope d) (it_credential it)
           | None => false
           end
      || negb (ru_scopes u !! dl_scope d === Some true)
      || (bool_decide (is_Some (rt_attention r !! dl_scope d))
          && negb (bool_decide (dl_scope d ∈ ru_repeat u)))
  | None => true
  end.
Definition wake_notice (d : Delivery) (quiet : bool) : Notice :=
  NoticeWake (dl_route d) (dl_scope d) (dl_event d) (dl_category d) (dl_target d) quiet
    (if dl_category d === "session_start" then Some (dl_expires d) else None).

(** The third, by what the provider answered. *)
Definition backoff (failures : N) : N := N.min (5 * 2 ^ N.min failures 6) 300.
Definition retry_item (d : Delivery) (it : Item) : Item :=
  if it_event it === dl_event d then
    {| it_event := it_event it; it_target := it_target it;
       it_next := dl_time d + backoff (dl_failures d); it_expires := it_expires it;
       it_failures := it_failures it + 1; it_sender := it_sender it;
       it_credential := it_credential it; it_category := it_category it |}
  else it.
Definition delivered (d : Delivery) (r : Route) : Route :=
  let r := with_attention r (<[dl_scope d := dl_event d]> (rt_attention r)) in
  let r := forget_item (dl_scope d) (dl_event d) r in
  let o := rt_row r in with_row r (row_until o (ro_expires o) (dl_time d + 5) (ro_active o)).
Definition finish (d : Delivery) (answer : result SendError unit) (db : Db)
    : Db * result Status bool :=
  match answer with
  | Ok _ =>
      match db_routes db !! dl_route d with
      | Some _ => (upd_route (dl_route d) (delivered d) db, Ok true)
      | None => (db, Err INTERNAL_SERVER_ERROR)
      end
  | Err Unregistered => (drop_routes (λ k _, k === dl_route d) db, Ok true)
  | Err NotSent =>
      (upd_route (dl_route d)
         (λ r, with_queue r (alter (retry_item d) (dl_scope d) (rt_queue r))) db, Ok true)
  end.

(** ** Incoming calls (ringing.rs) *)

Definition hex_byte (c : Ascii.ascii) : bool := lower_hex c.
Definition bind_valid (id : string) (b : BindingRequest) : bool :=
  hex_text id 16
  && contains ["fcm"; "apns"] (br_provider b)
  && negb ((br_provider b === "apns")
           && match br_token b with
              | Some token => (slen token <? 32) || (256 <? slen token)
                  || negb (forallb hex_byte (String.list_ascii_of_string token))
              | None => true
              end)
  && negb ((br_provider b === "fcm") && (bool_decide (is_Some (br_token b)) || br_sandbox b)).
Definition bind_route (b : BindingRequest) (time : N) (r : Route) : Route :=
  let provider := if (br_provider b === "apns") && br_sandbox b then "apns_sandbox"
                  else br_provider b in
  with_binding r (Some {| bd_provider := provider;
                          bd_token := default (ro_token (rt_row r)) (br_token b);
                          bd_expires := time + 86400;
                          bd_next_send := match rt_binding r with
                                          | Some old => bd_next_send old
                                          | None => 0
                                          end |}).
Definition bind_section (id owner : string) (b : BindingRequest) (time : N) (db : Db)
    : Db * result Status unit :=
  commit (saved ← ok_or (db_routes db !! id) NOT_FOUND;
          _ ← fail_if (negb (owner_ok saved owner time)) FORBIDDEN;
          mret (upd_route id (bind_route b time) db, tt)) db.
Definition unbind_section (id owner : string) (db : Db) : Db * result Status unit :=
  match db_routes db !! id with
  | None => (db, Ok tt)
  | Some saved =>
      if negb (matches (ro_owner (rt_row saved)) owner) then (db, Err FORBIDDEN)
      else (upd_route id (λ r, with_binding r None) db, Ok tt)
  end.

Definition ring_valid (id : string) (input : RingRequest) (time : N) : bool :=
  let w := rn_wake input in
  hex_text id 16 && hex_text (rn_call_id input) 16 && hex_text (rn_invitation_id input) 16
  && (wk_category w === "call_ring") && hex_text (wk_event w) 32 && hex_text (wk_scope w) 32
  && in_range 64 2048 (slen (wk_target w))
  && bool_decide (is_Some (url_base64_decode (wk_target w)))
  && match wk_expires w with Some x => (time <? x) && (x <=? time + 60) | None => false end.

(** Only a named sender of an enabled scope may ring. *)
Definition rules_ring (u : Rules) (scope tag cred : string) : bool :=
  (ru_scopes u !! scope === Some true) && scope_sender u scope (Some cred)
  && (ru_authenticated u === Some true) && negb (is_blocked u (Some tag)).
Definition set_ring_next (time : N) (r : Route) : Route :=
  with_binding r ((λ b, {| bd_provider := bd_provider b; bd_token := bd_token b;
                           bd_expires := bd_expires b; bd_next_send := time + 2 |})
                    <$> rt_binding r).
(** [ring] up to the provider: the event is in the ledger before the phone rings. *)
Definition ring_section (id key : string) (w : Wake) (s : Sender) (time : N) (db : Db)
    : Db * result Status (option (string * string)) :=
  match db_routes db !! id with
  | None => (db, Err NOT_FOUND)
  | Some saved =>
      let o := rt_row saved in
      if negb (ro_active o) || (ro_expires o <=? time) || negb (matches (ro_notify o) key)
      then (db, Err FORBIDDEN)
      else if negb (rules_ring (rt_rules saved) (wk_scope w) (sender_tag id (se_identity s))
                      (credential_tag id (se_credential s)))
              || bool_decide (is_Some (db_erased db !! display (se_identity s)))
      then (db, Ok None)
      else
        match rt_binding saved with
        | None => (db, Ok None)
        | Some b =>
            if bd_expires b <=? time then (db, Ok None)
            else
              let db := purge_expired time db in
              if bool_decide (is_Some (db_routes db !! id ≫= λ r, rt_events r !! wk_event w))
              then (db, Ok None)
              else if (time <? bd_next_send b) || negb (event_capacity db id)
              then (db, Err TOO_MANY_REQUESTS)
              else
                let db := (add_event id (wk_event w) (default 0 (wk_expires w) + 120) db).1 in
                (upd_route id (set_ring_next time) db, Ok (Some (bd_provider b, bd_token b)))
        end
  end.
Definition ring_notice (id : string) (input : RingRequest) (provider : string) : Notice :=
  NoticeRing id (rn_call_id input) (rn_invitation_id input) (wk_target (rn_wake input))
    (default 0 (wk_expires (rn_wake input))) (contains ["apns"; "apns_sandbox"] provider)
    (provider === "apns_sandbox").
(** The provider refused, failed or timed out. *)
Definition ring_failed (id event : string) (invalid_token : bool) (db : Db) : Db :=
  let db := purge_events (λ k _ e _, (k === id) && (e === event)) db in
  if invalid_token then upd_route id (λ r, with_binding r None) db else db.

End WakeDelivery.

(** * The wake relay as it runs (crates/elo-wake/src/relay.rs, relay/database.rs)

    One step is one closure on the database worker, or one use of the push provider; between
    two of them anything else may happen that the delivery gate does not exclude. A closure
    works with the time its handler read before, which may be older than the clock. *)


(** What the holder of the delivery gate is doing across steps: a selected row, with its
    silence decided, handed over; a ring about to be handed over, or handed over. [until] is
    when the ring's event leaves the ledger. *)
Inductive Gate :=
| GateFree
| GateSelected (d : Delivery)
| GateHushed (d : Delivery) (quiet : bool)
| GateSent (d : Delivery)
| GateCalling (n : Notice) (id event : string) (until : N)
| GateCalled (id event : string) (until : N).

Record World := {
  ww_db : Db;
  ww_gate : Gate;
  (** The challenges being sent to the devices of new routes. *)
  ww_pending : list (string * string);
}.
Definition with_db (w : World) (db : Db) : World :=
  {| ww_db := db; ww_gate := ww_gate w; ww_pending := ww_pending w |}.
Definition with_gate (w : World) (db : Db) (g : Gate) : World :=
  {| ww_db := db; ww_gate := g; ww_pending := ww_pending w |}.
Definition with_pending (w : World) (db : Db) (l : list (string * string)) : World :=
  {| ww_db := db; ww_gate := ww_gate w; ww_pending := l |}.

(** The permits of [registrations]. *)
Definition REGISTRATIONS : N := 4.

Section WakeService.
Context `{P : Platform} {U : UrlBase64} {SD : Serde DeviceCredential} {WS : WakeSerde}.

(** *** What a handler leaves for its next step *)

Definition after_register (w : World) (id : string) (who : IdentityId) (owner : string)
    (input : Registration) (draw : option string) (time : N) : World :=
  let r := register_section id who owner input draw time (ww_db w) in
  with_pending w r.1 (match r.2 with
                      | Ok (Some challenge) => (id, challenge) :: ww_pending w
                      | _ => ww_pending w
                      end).
Definition after_select (w : World) (time : N) (order : list QueueRow → list QueueRow) : World :=
  let r := select time order (ww_db w) in
  with_gate w r.1 (match r.2 with Some d => GateSelected d | None => GateFree end).
Definition after_ring (w : World) (id key : string) (input : RingRequest) (s : Sender) (time : N)
    : World :=
  let r := ring_section id key (rn_wake input) s time (ww_db w) in
  with_gate w r.1
    (match r.2 with
     | Ok (Some pt) =>
         GateCalling (ring_notice id input pt.1) id (wk_event (rn_wake input))
           (default 0 (wk_expires (rn_wake input)) + 120)
     | _ => GateFree
     end).

(** [endpoint] is the relay's own. The label is what the provider is given. *)
Inductive relay_step (endpoint : string) (t : N) (w : World) : option Notice → World → Prop :=
| relay_erase request command credential draw time :
    ww_gate w = GateFree → time ≤ t →
    erase_request endpoint request (time * 1000) = Ok (command, credential) →
    relay_step endpoint t w None
      (with_db w (erase_section (vc_identity credential) (ac_action command) draw (time * 1000)
                    (ww_db w)).1)
| relay_register id header input draw before time who owner :
    nlen (ww_pending w) < REGISTRATIONS → before ≤ t → time ≤ t →
    register_request endpoint id header input before = Ok (who, owner) →
    relay_step endpoint t w None (after_register w id who owner input draw time)
| relay_challenged id challenge l1 l2 :
    ww_pending w = l1 ++ (id, challenge) :: l2 →
    relay_step endpoint t w (Some (NoticeChallenge id challenge)) (with_pending w (ww_db w) (l1 ++ l2))
| relay_unchallenged id challenge l1 l2 :
    ww_pending w = l1 ++ (id, challenge) :: l2 →
    relay_step endpoint t w (Some (NoticeChallenge id challenge))
      (with_pending w (register_failed id challenge (ww_db w)) (l1 ++ l2))
| relay_unregistered id challenge l1 l2 :
    ww_pending w = l1 ++ (id, challenge) :: l2 →
    relay_step endpoint t w None (with_pending w (ww_db w) (l1 ++ l2))
| relay_confirm id header owner challenge time :
    auth header = Ok owner → time ≤ t →
    relay_step endpoint t w None (with_db w (confirm_section id owner challenge time (ww_db w)).1)
| relay_remove id header owner :
    ww_gate w = GateFree → auth header = Ok owner →
    relay_step endpoint t w None (with_db w (remove_section id owner (ww_db w)).1)
| relay_policy id header owner p time :
    ww_gate w = GateFree → auth header = Ok owner → policy_valid p = true → time ≤ t →
    relay_step endpoint t w None (with_db w (policy_section id owner p time (ww_db w)).1)
| relay_read id header owner events time :
    ww_gate w = GateFree → auth header = Ok owner → read_valid events = true → time ≤ t →
    relay_step endpoint t w None (with_db w (read_section id owner events time (ww_db w)).1)
| relay_wake id header key wk time :
    auth header = Ok key → wake_valid wk time = true → time ≤ t →
    relay_step endpoint t w None (with_db w (wake_section id key wk time (ww_db w)).1)
| relay_select time order :
    ww_gate w = GateFree → time ≤ t → (∀ l, order l ≡ₚ l) →
    relay_step endpoint t w None (after_select w time order)
| relay_hush d :
    ww_gate w = GateSelected d →
    relay_step endpoint t w None (with_gate w (ww_db w) (GateHushed d (is_quiet d (ww_db w))))
| relay_send d quiet :
    ww_gate w = GateHushed d quiet →
    relay_step endpoint t w (Some (wake_notice d quiet)) (with_gate w (ww_db w) (GateSent d))
| relay_finish d answer :
    ww_gate w = GateSent d →
    relay_step endpoint t w None (with_gate w (finish d answer (ww_db w)).1 GateFree)
| relay_bind id header owner b time :
    ww_gate w = GateFree → auth header = Ok owner → bind_valid id b = true → time ≤ t →
    relay_step endpoint t w None (with_db w (bind_section id owner b time (ww_db w)).1)
| relay_unbind id header owner :
    ww_gate w = GateFree → auth header = Ok owner →
    relay_step endpoint t w None (with_db w (unbind_section id owner (ww_db w)).1)
| relay_ring id header key input s time :
    ww_gate w = GateFree → auth header = Ok key → time ≤ t → ring_valid id input time = true →
    verify_sender id (rn_wake input) time = Ok s →
    relay_step endpoint t w None (after_ring w id key input s time)
| relay_call n id event until :
    ww_gate w = GateCalling n id event until →
    relay_step endpoint t w (Some n) (with_gate w (ww_db w) (GateCalled id event until))
| relay_called id event until :
    ww_gate w = GateCalled id event until →
    relay_step endpoint t w None (with_gate w (ww_db w) GateFree)
(** The provider refused, failed or took more than eight seconds. *)
| relay_ring_failed id event until invalid_token :
    ww_gate w = GateCalled id event until →
    relay_step endpoint t w None (with_gate w (ring_failed id event invalid_token (ww_db w)) GateFree)
(** The worker's queue was full, or the request was abandoned. *)
| relay_lost : relay_step endpoint t w None (with_gate w (ww_db w) GateFree)
| relay_restart :
    relay_step endpoint t w None
      {| ww_db := open (ww_db w); ww_gate := GateFree; ww_pending := [] |}.

Inductive relay_run (endpoint : string) (t0 : N) (w0 : World) : N → World → Prop :=
| rrun_start : relay_run endpoint t0 w0 t0 w0
| rrun_next t w t' n w' :
    relay_run endpoint t0 w0 t w → t ≤ t' → relay_step endpoint t' w n w' →
    relay_run endpoint t0 w0 t' w'.

Definition fresh_relay : World :=
  {| ww_db := open no_routes; ww_gate := GateFree; ww_pending := [] |}.
Definition relaying (endpoint : string) (t : N) (w : World) : Prop :=
  ∃ t0, relay_run endpoint t0 fresh_relay t w.

End WakeService.
