(* ===== verification/WakeFacts.v ===== *)
(** * The relay's limits

    The counters the triggers keep are the numbers of events, and no section of a handler
    takes the database past its limits. *)

From S2P Require Import Prelude Sums Platform Ids Record Chat Identity WakeWire WakeRelay WakeDelivery.

(** ** The invariant *)

Definition event_size (r : Route) : N := N.of_nat (size (rt_events r)).
Definition queue_size (r : Route) : N := N.of_nat (size (rt_queue r)).
(** The events of a route beyond those reserved for it. *)
Definition excess (r : Route) : N := event_size r - 64.
Definition account_events (who : string) (m : gmap string Route) : N :=
  sum_over (λ _ r, if rt_account r === Some who then event_size r else 0) m.

Record within_limits (m : gmap string Route) : Prop := {
  wl_routes : N.of_nat (size m) ≤ 10000;
  wl_pending : pending_routes m ≤ 64;
  wl_account who : routes_of_account who m ≤ 16;
  wl_token token : routes_of_token token m ≤ 8;
  wl_events id r : m !! id = Some r → event_size r ≤ 4096 ∧ queue_size r ≤ 64;
  wl_account_events who : account_events who m ≤ 8192;
  wl_shared : sum_over (λ _ r, excess r) m ≤ 250000;
}.
Record counted (db : Db) : Prop := {
  ct_route id r : db_routes db !! id = Some r → event_count_of r = Z.of_N (event_size r);
  ct_total : db_event_total db = Z.of_N (events_in (db_routes db));
}.
Definition db_ok (db : Db) : Prop := within_limits (db_routes db) ∧ counted db.

(** ** Statements that add nothing *)

(** A row that a statement leaves no larger than it was. *)
Record smaller (r r' : Route) : Prop := {
  sm_account : rt_account r' = rt_account r;
  sm_token : ro_token (rt_row r') = ro_token (rt_row r);
  sm_active : ro_active (rt_row r) = true → ro_active (rt_row r') = true;
  sm_events : event_size r' ≤ event_size r;
  sm_queue : queue_size r' ≤ queue_size r;
}.
Definition shrinks (m m' : gmap string Route) : Prop :=
  ∀ id r', m' !! id = Some r' → ∃ r, m !! id = Some r ∧ smaller r r'.

Lemma shrinks_sum f m m' :
  shrinks m m' → (∀ id r r', smaller r r' → f id r' ≤ f id r) → sum_over f m' ≤ sum_over f m.
Proof.
  intros Hs Hf. apply sum_over_le. intros id r' Hr'. destruct (Hs id r' Hr') as (r & Hr & Hsm).
  exists r. split; [done|]. by apply Hf.
Qed.

Lemma shrinks_limits m m' : shrinks m m' → within_limits m → within_limits m'.
Proof.
  intros Hs [H1 H2 H3 H4 H5 H6 H7]. split.
  - enough (size m' ≤ size m)%nat by lia. apply size_le. intros id r' Hr'.
    destruct (Hs id r' Hr') as (r & Hr & _). by exists r.
  - etrans; [|exact H2]. apply (shrinks_sum _ m m' Hs). intros _ r r' [_ _ Ha _ _].
    destruct (ro_active (rt_row r)), (ro_active (rt_row r')); cbn; lia.
  - intros who. etrans; [|exact (H3 who)]. apply (shrinks_sum _ m m' Hs).
    intros _ r r' [-> _ _ _ _]. done.
  - intros token. etrans; [|exact (H4 token)]. apply (shrinks_sum _ m m' Hs).
    intros _ r r' [_ -> _ _ _]. done.
  - intros id r' Hr'. destruct (Hs id r' Hr') as (r & Hr & [_ _ _ He Hq]).
    destruct (H5 id r Hr). lia.
  - intros who. etrans; [|exact (H6 who)]. apply (shrinks_sum _ m m' Hs).
    intros _ r r' [-> _ _ He _]. destruct (rt_account r === Some who); lia.
  - etrans; [|exact H7]. apply (shrinks_sum _ m m' Hs). intros _ r r' [_ _ _ He _].
    unfold excess. lia.
Qed.

Lemma smaller_refl r : smaller r r.
Proof. by split. Qed.
Lemma shrinks_refl m : shrinks m m.
Proof. intros id r Hr. exists r. split; [done|apply smaller_refl]. Qed.
Lemma shrinks_delete p m : shrinks m (delete_all p m).
Proof. intros id r [Hr _]%delete_all_Some. exists r. split; [done|apply smaller_refl]. Qed.
Lemma shrinks_update u m : (∀ id r, smaller r (u id r)) → shrinks m (update_all u m).
Proof. intros Hu id r' (r & Hr & <-)%update_all_Some. by exists r. Qed.
Lemma shrinks_alter f id m :
  (∀ r, m !! id = Some r → smaller r (f r)) → shrinks m (alter f id m).
Proof.
  intros Hf j r'. destruct (decide (j = id)) as [->|Hj].
  - rewrite lookup_alter_eq. intros (r & Hr & ->)%fmap_Some. exists r. auto.
  - rewrite lookup_alter_ne by done. intros Hr. exists r'. split; [done|apply smaller_refl].
Qed.

(** The same row but for its events and what their number does not show. *)
Definition same_count (r r' : Route) : Prop :=
  rt_events r' = rt_events r ∧ rt_count r' = rt_count r.

Lemma counted_alter f id db :
  (∀ r, db_routes db !! id = Some r → same_count r (f r)) → counted db → counted (upd_route id f db).
Proof.
  intros Hf [H1 H2]. split; cbn.
  - intros j r. destruct (decide (j = id)) as [->|Hj].
    + rewrite lookup_alter_eq. intros (r0 & Hr & ->)%fmap_Some.
      unfold event_count_of, event_size. destruct (Hf r0 Hr) as [-> ->]. by apply (H1 id).
    + rewrite lookup_alter_ne by done. apply H1.
  - rewrite H2. f_equal. destruct (db_routes db !! id) as [r|] eqn:Hr.
    + rewrite (alter_Some _ _ _ r) by done. destruct (Hf r eq_refl) as [He _].
      pose proof (sum_over_replace (λ _ r, N.of_nat (size (rt_events r))) _ id r (f r) Hr) as Hs.
      cbn beta in Hs. rewrite He in Hs. unfold events_in. lia.
    + by rewrite alter_None.
Qed.

Lemma counted_update u db :
  (∀ id r, same_count r (u id r)) → counted db → counted (upd_routes u db).
Proof.
  intros Hu [H1 H2]. split; cbn.
  - intros j r (r0 & Hr & <-)%update_all_Some. unfold event_count_of, event_size.
    destruct (Hu j r0) as [-> ->]. by apply (H1 j).
  - rewrite H2. unfold events_in. rewrite sum_over_update_all. f_equal. apply sum_over_ext.
    intros k r _. by destruct (Hu k r) as [-> _].
Qed.

Lemma counted_drop p db : counted db → counted (drop_routes p db).
Proof.
  intros [H1 H2]. split; cbn; [|unfold fewer_events; lia].
  intros id r [Hr _]%delete_all_Some. by apply (H1 id).
Qed.

Lemma purge_route_count p r :
  event_count_of r = Z.of_N (event_size r) →
  event_count_of (purge_route p r) = Z.of_N (event_size (purge_route p r)).
Proof.
  unfold event_count_of, event_size, purge_route. cbn. pose proof (size_delete_all p (rt_events r)).
  destruct (rt_count r); cbn; lia.
Qed.
Lemma counted_purge p db : counted db → counted (purge_events p db).
Proof.
  intros [H1 H2]. split; cbn; [|unfold fewer_events; lia].
  intros id r (r0 & Hr & <-)%update_all_Some. apply purge_route_count. by apply (H1 id).
Qed.

Lemma ok_drop p db : db_ok db → db_ok (drop_routes p db).
Proof.
  intros [Hl Hc]. split; [|by apply counted_drop].
  by apply (shrinks_limits _ _ (shrinks_delete p (db_routes db))).
Qed.
Lemma ok_purge p db : db_ok db → db_ok (purge_events p db).
Proof.
  intros [Hl Hc]. split; [|by apply counted_purge]. eapply shrinks_limits; [|exact Hl].
  apply shrinks_update. intros id r. split; cbn; try done.
  unfold event_size, purge_route. cbn. pose proof (size_delete_all (p id r) (rt_events r)). lia.
Qed.
Lemma ok_alter id f db :
  (∀ r, db_routes db !! id = Some r → smaller r (f r) ∧ same_count r (f r)) →
  db_ok db → db_ok (upd_route id f db).
Proof.
  intros Hf [Hl Hc]. split.
  - eapply shrinks_limits; [|exact Hl]. apply shrinks_alter. intros r Hr. by apply Hf.
  - apply counted_alter; [|done]. intros r Hr. by apply Hf.
Qed.
Lemma ok_update u db :
  (∀ id r, smaller r (u id r) ∧ same_count r (u id r)) → db_ok db → db_ok (upd_routes u db).
Proof.
  intros Hf [Hl Hc]. split.
  - eapply shrinks_limits; [|exact Hl]. apply shrinks_update. intros id r. apply Hf.
  - apply counted_update; [|done]. intros id r. apply Hf.
Qed.
Lemma ok_erased who request completed db : db_ok db → db_ok (insert_erased who request completed db).
Proof. intros [Hl [H1 H2]]. split; [exact Hl|]. by split. Qed.
Lemma ok_open db : within_limits (db_routes db) → db_ok (open db).
Proof.
  intros Hl. split.
  - eapply shrinks_limits; [|exact Hl]. intros id r'. cbn. rewrite lookup_fmap.
    intros (r & Hr & ->)%fmap_Some. exists r. split; [done|]. by split.
  - split; cbn.
    + intros id r. rewrite lookup_fmap. intros (r0 & Hr & ->)%fmap_Some.
      unfold event_count_of, event_size. cbn.
      destruct (Nat.eqb_spec (size (rt_events r0)) 0); cbn; lia.
    + f_equal. unfold events_in. symmetry.
      assert (recount <$> db_routes db = update_all (λ _, recount) (db_routes db)) as ->.
      { apply map_eq. intros k. by rewrite lookup_fmap, lookup_update_all. }
      by rewrite sum_over_update_all.
Qed.

(** ** Statements that add a row *)

Lemma identity_count_sum m who :
  (∀ id r, m !! id = Some r → event_count_of r = Z.of_N (event_size r)) →
  identity_count m (Some who) = Z.of_N (account_events who m).
Proof.
  unfold identity_count, account_events. induction m as [|k r m Hk IH] using map_ind; intros Hc.
  - by rewrite map_fold_empty, sum_over_empty.
  - rewrite map_fold_insert_L, sum_over_insert, IH; [|..].
    + rewrite (Hc k r) by apply lookup_insert_eq. destruct (rt_account r === Some who); lia.
    + intros j x Hj. apply (Hc j). rewrite lookup_insert_ne; congruence.
    + done.
    + intros j1 j2 x y z. lia.
    + done.
Qed.

Lemma event_capacity_true db id r :
  counted db → db_routes db !! id = Some r → event_capacity db id = true →
  event_size r < 4096
  ∧ (∀ who, rt_account r = Some who → account_events who (db_routes db) < 8192)
  ∧ (event_size r < 64 ∨ events_in (db_routes db) < 250000).
Proof.
  intros [H1 H2] Hr. unfold event_capacity. rewrite Hr. cbn [mbind option_bind].
  rewrite !andb_true_iff, orb_true_iff, !Z.ltb_lt, (H1 id r Hr), H2. intros [[Ha Hb] Hc].
  split; [lia|]. split; [|lia]. intros who Hw. rewrite Hw, identity_count_sum in Hb by done. lia.
Qed.

Lemma add_event_ok id event x db :
  db_ok db → event_capacity db id = true → db_ok (add_event id event x db).1.
Proof.
  intros [Hl Hc] Hcap. unfold add_event. destruct (db_routes db !! id) as [r|] eqn:Hr; [|done].
  destruct (rt_events r !! event) as [y|] eqn:He; [done|].
  destruct (event_capacity_true db id r Hc Hr Hcap) as (Hs & Hw & Hsh).
  set (r' := with_events r _ _).
  assert (Hsize : event_size r' = event_size r + 1).
  { unfold event_size, r'. cbn. rewrite map_size_insert_None by done. lia. }
  pose proof (λ f, sum_over_replace f (db_routes db) id r r' Hr) as Hsum.
  destruct Hl as [L1 L2 L3 L4 L5 L6 L7], Hc as [H1 H2].
  split; [split|split]; cbn.
  - rewrite map_size_insert_Some by eauto. done.
  - unfold pending_routes, count_over in *. specialize (Hsum (λ _ r, if negb (ro_active (rt_row r)) then 1 else 0)).
    cbn in Hsum. lia.
  - intros who. unfold routes_of_account, count_over in *. specialize (L3 who).
    specialize (Hsum (λ _ r, if rt_account r === Some who then 1 else 0)). cbn in Hsum. lia.
  - intros token. unfold routes_of_token, count_over in *. specialize (L4 token).
    specialize (Hsum (λ _ r, if ro_token (rt_row r) === token then 1 else 0)). cbn in Hsum. lia.
  - intros j r0. destruct (decide (j = id)) as [->|Hj].
    + rewrite lookup_insert_eq. intros [= <-]. destruct (L5 id r Hr).
      split; [lia|]. done.
    + rewrite lookup_insert_ne by done. apply L5.
  - intros who. unfold account_events in *. specialize (L6 who). specialize (Hw who).
    specialize (Hsum (λ _ r, if rt_account r === Some who then event_size r else 0)).
    cbn beta in Hsum. change (rt_account r') with (rt_account r) in Hsum.
    destruct (bool_decide_reflect (rt_account r = Some who)) as [Ha|Ha]; [|lia].
    specialize (Hw Ha). lia.
  - specialize (Hsum (λ _ r, excess r)). cbn beta in Hsum. unfold excess in *.
    destruct Hsh as [Hsh|Hsh]; [lia|].
    assert (sum_over (λ _ r, event_size r - 64) (db_routes db) ≤ events_in (db_routes db)).
    { apply sum_over_le. intros k v Hv. exists v. split; [done|]. unfold event_size. lia. }
    lia.
  - intros j r0. destruct (decide (j = id)) as [->|Hj].
    + rewrite lookup_insert_eq. intros [= <-]. rewrite Hsize. specialize (H1 id r Hr).
      unfold event_count_of in *. cbn. destruct (rt_count r); cbn in *; lia.
    + rewrite lookup_insert_ne by done. apply H1.
  - rewrite H2. unfold events_in in *. specialize (Hsum (λ _ r, event_size r)). cbn beta in Hsum.
    unfold event_size in *. lia.
Qed.

Lemma insert_route_ok id row who db :
  db_ok db → db_routes db !! id = None → ro_active row = false →
  N.of_nat (size (db_routes db)) < 10000 → pending_routes (db_routes db) < 64 →
  routes_of_account who (db_routes db) < 16 → routes_of_token (ro_token row) (db_routes db) < 8 →
  db_ok (insert_route id row who db).
Proof.
  intros [[L1 L2 L3 L4 L5 L6 L7] [H1 H2]] Hid Ha Hn Hp Hw Ht. unfold insert_route.
  set (r' := new_route row who).
  assert (Hsize : event_size r' = 0) by (unfold event_size, r'; cbn; by rewrite map_size_empty).
  split; [split|split]; cbn.
  - rewrite map_size_insert_None by done. lia.
  - unfold pending_routes, count_over in *. rewrite sum_over_insert by done. cbn. rewrite Ha. cbn. lia.
  - intros x. unfold routes_of_account, count_over in *. rewrite sum_over_insert by done. cbn.
    specialize (L3 x). destruct (bool_decide_reflect (Some who = Some x)) as [[= ->]|_]; lia.
  - intros x. unfold routes_of_token, count_over in *. rewrite sum_over_insert by done. cbn.
    specialize (L4 x). destruct (bool_decide_reflect (ro_token row = x)) as [Hx|_]; [rewrite Hx in Ht|]; lia.
  - intros j r0. destruct (decide (j = id)) as [->|Hj].
    + rewrite lookup_insert_eq. intros [= <-]. rewrite Hsize. unfold queue_size, r'. cbn.
      rewrite map_size_empty. lia.
    + rewrite lookup_insert_ne by done. apply L5.
  - intros x. unfold account_events in *. rewrite sum_over_insert, Hsize by done. specialize (L6 x).
    cbn. destruct (Some who === Some x); lia.
  - rewrite sum_over_insert by done. unfold excess at 1. rewrite Hsize. lia.
  - intros j r0. destruct (decide (j = id)) as [->|Hj].
    + rewrite lookup_insert_eq. intros [= <-]. by rewrite Hsize.
    + rewrite lookup_insert_ne by done. apply H1.
  - rewrite H2. unfold events_in. rewrite sum_over_insert by done. f_equal.
Qed.

(** A row added to a queue that has room for it. *)
Lemma enqueue_ok id f db :
  db_ok db →
  (∀ r, db_routes db !! id = Some r →
     smaller r (with_queue (f r) (rt_queue r)) ∧ same_count r (f r) ∧ queue_size (f r) ≤ 64) →
  db_ok (upd_route id f db).
Proof.
  intros [Hl Hc] Hf. split; [|apply counted_alter; [|done]; intros r Hr; by apply Hf].
  assert (Hm : within_limits (alter (λ r, with_queue (f r) (rt_queue r)) id (db_routes db))).
  { eapply shrinks_limits; [|exact Hl]. apply shrinks_alter. intros r Hr. by apply Hf. }
  destruct (db_routes db !! id) as [r|] eqn:Hr; cbn; [|by rewrite alter_None].
  rewrite (alter_Some _ _ _ r) in Hm by done. rewrite (alter_Some _ _ _ r) by done.
  destruct (Hf r eq_refl) as (_ & _ & Hq).
  set (m := db_routes db) in *. set (r0 := with_queue (f r) (rt_queue r)) in *.
  assert (He : ∀ g : string → Route → N, g id (f r) = g id r0 →
                 sum_over g (<[id := f r]> m) = sum_over g (<[id := r0]> m)).
  { intros g Hg. pose proof (sum_over_replace g m id r (f r) Hr).
    pose proof (sum_over_replace g m id r r0 Hr). lia. }
  destruct Hm as [L1 L2 L3 L4 L5 L6 L7]. split.
  - rewrite map_size_insert_Some in * by eauto. done.
  - unfold pending_routes, count_over in *. by rewrite He.
  - intros who. specialize (L3 who). unfold routes_of_account, count_over in *. by rewrite He.
  - intros token. specialize (L4 token). unfold routes_of_token, count_over in *. by rewrite He.
  - intros j x. destruct (decide (j = id)) as [->|Hj].
    + rewrite lookup_insert_eq. intros [= <-]. split; [|done].
      destruct (L5 id r0 (lookup_insert_eq _ _ _)) as [Hev _]. exact Hev.
    + rewrite lookup_insert_ne by done. intros Hx. apply (L5 j). by rewrite lookup_insert_ne.
  - intros who. specialize (L6 who). unfold account_events in *. by rewrite He.
  - by rewrite He.
Qed.

(** * Every section keeps the relay within its limits *)


(** A statement that adds nothing, by its fields. *)
Lemma calm r r' :
  rt_account r' = rt_account r → ro_token (rt_row r') = ro_token (rt_row r) →
  (ro_active (rt_row r) = true → ro_active (rt_row r') = true) →
  rt_events r' = rt_events r → rt_count r' = rt_count r →
  (size (rt_queue r') ≤ size (rt_queue r))%nat → smaller r r' ∧ same_count r r'.
Proof.
  intros H1 H2 H3 H4 H5 H6. split; [|by split]. split; [done..| |].
  - unfold event_size. by rewrite H4.
  - unfold queue_size. lia.
Qed.
Ltac unsized := apply calm; cbn; first [reflexivity|done|lia].

Section WakeSections.
Context `{P : Platform} {U : UrlBase64} {SD : Serde DeviceCredential} {WS : WakeSerde}.

Lemma commit_ok {A} (r : result Status (Db * A)) db :
  db_ok db → (∀ db' a, r = Ok (db', a) → db_ok db') → db_ok (commit r db).1.
Proof. intros H Hr. destruct r as [[db' a]|e]; cbn; [by eapply Hr|done]. Qed.

Lemma shorter_queue r q :
  (size q ≤ size (rt_queue r))%nat → smaller r (with_queue r q) ∧ same_count r (with_queue r q).
Proof. intros Hq. by apply calm. Qed.

Lemma delete_queue p r :
  smaller r (with_queue r (delete_all p (rt_queue r)))
  ∧ same_count r (with_queue r (delete_all p (rt_queue r))).
Proof. apply shorter_queue, size_delete_all. Qed.

Lemma smaller_trans r1 r2 r3 : smaller r1 r2 → smaller r2 r3 → smaller r1 r3.
Proof. intros [] []. split; [congruence|congruence|auto|lia|lia]. Qed.
Lemma same_count_trans r1 r2 r3 : same_count r1 r2 → same_count r2 r3 → same_count r1 r3.
Proof. intros [] []. split; congruence. Qed.

Lemma erase_section_ok who action draw time db :
  db_ok db → db_ok (erase_section who action draw time db).1.
Proof.
  intros H. unfold erase_section. destruct (db_erased db !! display who); [done|].
  destruct action; [done|]. destruct (secret draw); [|done]. cbn.
  apply ok_update; [|by apply ok_purge, ok_drop, ok_erased]. intros id r.
  apply calm; try done. apply size_le. intros k v [Hk _]%map_lookup_filter_Some. by exists v.
Qed.

Lemma register_section_ok id who owner input draw time db :
  db_ok db → db_ok (register_section id who owner input draw time db).1.
Proof.
  intros H. unfold register_section. destruct (db_erased db !! display who); [done|].
  assert (Hd := ok_drop (λ _ r, ro_expires (rt_row r) <=? time) db H).
  fold (drop_expired time db) in Hd. set (d := drop_expired time db) in *.
  destruct (db_routes d !! id) as [saved|] eqn:Hid.
  - repeat match goal with |- context [if ?b then _ else _] => destruct b; [done || (apply ok_alter; [|done])|] end;
      try (apply ok_alter; [|done]); intros r _; unsized.
  - destruct (_ || _) eqn:Hlim; [done|]. rewrite !orb_false_iff, !N.leb_gt in Hlim.
    destruct Hlim as [[[H1 H2] H3] H4]. destruct (secret draw); [|done].
    by apply insert_route_ok.
Qed.

Lemma confirm_section_ok id owner challenge time db :
  db_ok db → db_ok (confirm_section id owner challenge time db).1.
Proof.
  intros H. apply commit_ok; [done|]. intros db' [] Hr. step Hr saved Hs. step Hr u Hu.
  injection Hr as <-. apply ok_alter; [|done]. intros r _. unsized.
Qed.
Lemma remove_section_ok id owner db : db_ok db → db_ok (remove_section id owner db).1.
Proof.
  intros H. unfold remove_section. destruct (db_routes db !! id); [|done].
  destruct (negb _); [done|]. by apply ok_drop.
Qed.
Lemma policy_section_ok id owner p time db : db_ok db → db_ok (policy_section id owner p time db).1.
Proof.
  intros H. apply commit_ok; [done|]. intros db' [] Hr. step Hr saved Hs. step Hr u Hu. step Hr u2 Hu2.
  destruct (po_revision p =? _)%Z.
  - step Hr prev Hp. step Hr u3 Hu3. by injection Hr as <-.
  - injection Hr as <-. apply ok_alter; [|done]. intros r _. unfold apply_policy.
    destruct (po_notify_key p); (apply calm; try done); apply size_delete_all.
Qed.

Lemma forget_item_small scope event r :
  smaller r (forget_item scope event r) ∧ same_count r (forget_item scope event r).
Proof.
  unfold forget_item. case_bool_decide; [|split; [apply smaller_refl|done]].
  apply shorter_queue. apply size_le. intros k v [_ Hk]%lookup_delete_Some. by exists v.
Qed.
Lemma forget_attention_small scope event r :
  smaller r (forget_attention scope event r) ∧ same_count r (forget_attention scope event r).
Proof. unfold forget_attention. case_bool_decide; [unsized|split; [apply smaller_refl|done]]. Qed.

Lemma read_one_ok id time db x : db_ok db → db_ok (read_one id time db x).
Proof.
  intros H. unfold read_one. apply ok_alter.
  - intros r _. destruct (forget_attention_small (rd_scope x) (rd_event x) r) as [A1 A2].
    destruct (forget_item_small (rd_scope x) (rd_event x)
                (forget_attention (rd_scope x) (rd_event x) r)) as [B1 B2].
    split; [by eapply smaller_trans|by eapply same_count_trans].
  - destruct (event_capacity db id) eqn:Hc; [by apply add_event_ok|done].
Qed.
Lemma read_section_ok id owner events time db :
  db_ok db → db_ok (read_section id owner events time db).1.
Proof.
  intros H. apply commit_ok; [done|]. intros db' [] Hr. step Hr saved Hs. step Hr u Hu.
  injection Hr as <-. assert (Hp : db_ok (purge_expired time db)) by (by apply ok_purge).
  generalize dependent (purge_expired time db). clear. induction events as [|x l IH]; intros d Hd; [done|].
  cbn. by apply IH, read_one_ok.
Qed.

(** The admission of a wake grows only the queue of its own route, which has room. *)
Lemma add_event_queue id event x db j r :
  db_routes (add_event id event x db).1 !! j = Some r →
  ∃ r0, db_routes db !! j = Some r0 ∧ rt_queue r = rt_queue r0 ∧ rt_rules r = rt_rules r0.
Proof.
  unfold add_event. destruct (db_routes db !! id) as [r0|] eqn:Hr; [|by eauto].
  destruct (rt_events r0 !! event); [by eauto|]. cbn. destruct (decide (j = id)) as [->|Hj].
  - rewrite lookup_insert_eq. intros [= <-]. eauto.
  - rewrite lookup_insert_ne by done. eauto.
Qed.
Lemma wake_commit_ok id w tag cred authorized time db saved db' :
  db_ok db → db_routes db !! id = Some saved → N.of_nat (size (rt_queue saved)) < 64 →
  wake_commit id w tag cred authorized time db = Ok db' → db_ok db'.
Proof.
  intros H Hid Hq Hw. unfold wake_commit in Hw. step Hw u Hu.
  destruct (event_capacity _ id) eqn:Hcap; [|discriminate Hu]. clear u Hu.
  destruct (negb _) eqn:Hadd; [by injection Hw as <-|]. injection Hw as <-.
  assert (Hp : db_ok (purge_expired time db)) by (by apply ok_purge).
  assert (Ha := add_event_ok id (wk_event w) (time + 86400) _ Hp Hcap).
  assert (Hqs : ∀ r, db_routes (add_event id (wk_event w) (time + 86400) (purge_expired time db)).1 !! id
                  = Some r → queue_size r < 64).
  { intros r (r0 & Hr0 & Heq & _)%add_event_queue. cbn in Hr0.
    apply update_all_Some in Hr0 as (r1 & Hr1 & <-). rewrite Hid in Hr1. injection Hr1 as <-.
    unfold queue_size. by rewrite Heq. }
  set (d := (add_event id (wk_event w) (time + 86400) (purge_expired time db)).1) in *.
  clearbody d.
  assert (db_ok (if authorized then d else upd_route id (spend_budget time) d)
    ∧ ∀ r, db_routes (if authorized then d else upd_route id (spend_budget time) d) !! id = Some r →
        queue_size r < 64) as [Hd Hqd].
  { destruct authorized; [done|]. split.
    - apply ok_alter; [|done]. intros r _. unfold spend_budget.
      destruct (delete_queue (untrusted_item (rt_rules r)) r) as [A B]. split.
      + eapply smaller_trans; [exact A|]. by split.
      + eapply same_count_trans; [exact B|]. by split.
    - cbn. intros r. rewrite lookup_alter_eq. intros (r0 & Hr0 & ->)%fmap_Some.
      specialize (Hqs r0 Hr0). unfold queue_size in *. cbn.
      pose proof (size_delete_all (untrusted_item (rt_rules r0)) (rt_queue r0)). lia. }
  apply enqueue_ok; [done|]. intros r Hr. specialize (Hqd r Hr). split; [by split|]. split; [by split|].
  unfold queue_size in *. cbn.
  destruct (rt_queue r !! wk_scope w) eqn:Hk.
  - rewrite map_size_insert_Some by eauto. lia.
  - rewrite map_size_insert_None by done. lia.
Qed.
Lemma wake_section_ok id key w time db : db_ok db → db_ok (wake_section id key w time db).1.
Proof.
  intros H. apply commit_ok; [done|]. intros db' [] Hr. step Hr saved Hs. step Hr u Hu. step Hr sender Hv.
  apply ok_or_Ok in Hs. destruct sender as [s|]; [|by injection Hr as <-]. cbv zeta in Hr.
  destruct (bool_decide (is_Some (db_erased db !! display (se_identity s)))); [by injection Hr as <-|].
  destruct (admits (rt_rules saved) w (sender_tag id (se_identity s))
    (credential_tag id (se_credential s))) as [au|]; cbn in Hr; [|by injection Hr as <-].
  destruct (negb au && untrusted_waits saved (wk_scope w) time); cbn in Hr; [by injection Hr as <-|].
  destruct (bool_decide (is_Some (rt_events saved !! wk_event w))); [by injection Hr as <-|].
  step Hr u2 Hu2. step Hr db2 Hc. injection Hr as <-.
  apply fail_if_Ok in Hu2. rewrite N.leb_gt in Hu2. by eapply wake_commit_ok.
Qed.

Lemma select_ok time order db : db_ok db → db_ok (select time order db).1.
Proof.
  intros H. cbn. unfold drop_stale_items. apply ok_update; [|by apply ok_drop].
  intros _ r. apply delete_queue.
Qed.
Lemma finish_ok d answer db : db_ok db → db_ok (finish d answer db).1.
Proof.
  intros H. destruct answer as [[]|[]]; cbn.
  - destruct (db_routes db !! dl_route d) as [r0|]; [|done]. apply ok_alter; [|done]. intros r _.
    unfold delivered. set (r1 := with_attention r _).
    destruct (forget_item_small (dl_scope d) (dl_event d) r1) as [[A1 A2 A3 A4 A5] [B1 B2]].
    split; [split|split]; cbn; [exact A1|exact A2|exact A3|exact A4|exact A5|exact B1|exact B2].
  - by apply ok_drop.
  - apply ok_alter; [|done]. intros r _. apply shorter_queue. apply size_le. intros k v.
    destruct (decide (k = dl_scope d)) as [->|Hk].
    + rewrite lookup_alter_eq. intros (v0 & Hv & _)%fmap_Some. by exists v0.
    + rewrite lookup_alter_ne by done. by exists v.
Qed.
Lemma bind_section_ok id owner b time db : db_ok db → db_ok (bind_section id owner b time db).1.
Proof.
  intros H. apply commit_ok; [done|]. intros db' [] Hr. step Hr saved Hs. step Hr u Hu.
  injection Hr as <-. apply ok_alter; [|done]. intros r _. unsized.
Qed.
Lemma unbind_section_ok id owner db : db_ok db → db_ok (unbind_section id owner db).1.
Proof.
  intros H. unfold unbind_section. destruct (db_routes db !! id) as [r0|]; [|done].
  destruct (negb _); [done|]. apply ok_alter; [|done]. intros r _. unsized.
Qed.
Lemma ring_section_ok id key w s time db : db_ok db → db_ok (ring_section id key w s time db).1.
Proof.
  intros H. unfold ring_section. destruct (db_routes db !! id) as [saved|]; [|done].
  destruct (_ || negb (matches _ _)); [done|]. destruct (_ || bool_decide _); [done|].
  destruct (rt_binding saved) as [b|]; [|done]. destruct (bd_expires b <=? time); [done|].
  assert (Hp : db_ok (purge_expired time db)) by (by apply ok_purge).
  case_bool_decide; [done|]. destruct (_ || negb (event_capacity _ _)) eqn:Hcap; [done|].
  cbn [fst]. apply ok_alter; [intros r _; unsized|].
  apply add_event_ok; [done|]. apply orb_false_iff in Hcap as [_ Hcap]. by apply negb_false_iff.
Qed.
Lemma ring_failed_ok id event invalid_token db : db_ok db → db_ok (ring_failed id event invalid_token db).
Proof.
  intros H. unfold ring_failed.
  assert (Hp : db_ok (purge_events (λ k _ e _, (k === id) && (e === event)) db)) by (by apply ok_purge).
  destruct invalid_token; [|done]. apply ok_alter; [|done]. intros r _. unsized.
Qed.

Lemma relay_step_ok endpoint t w n w' :
  relay_step endpoint t w n w' → db_ok (ww_db w) → db_ok (ww_db w').
Proof.
  intros Hs H. destruct Hs; cbn;
    auto using erase_section_ok, register_section_ok, confirm_section_ok, remove_section_ok,
      policy_section_ok, read_section_ok, wake_section_ok, finish_ok, bind_section_ok,
      unbind_section_ok, ring_section_ok, ring_failed_ok.
  - by apply ok_drop.
  - exact (select_ok time order (ww_db w) H).
  - apply ok_open, H.
Qed.

Lemma fresh_relay_ok : db_ok (ww_db fresh_relay).
Proof.
  apply ok_open. split; intros; cbn in *; unfold pending_routes, routes_of_account, routes_of_token,
    account_events, count_over; rewrite ?sum_over_empty, ?map_size_empty; try lia.
  by rewrite lookup_empty in *.
Qed.
Lemma relaying_ok endpoint t w : relaying endpoint t w → db_ok (ww_db w).
Proof.
  intros [t0 Hrun]. induction Hrun as [|t w t' n w' _ IH _ Hs]; [apply fresh_relay_ok|].
  by eapply relay_step_ok.
Qed.

End WakeSections.
