(* ===== verification/WakeChanges.v ===== *)
(** * What one step of the relay may do to a route

    Every step drops routes, inserts one that has just been registered, or takes the others
    through the changes listed here. *)

From S2P Require Import Prelude Sums Platform Ids Record Chat Identity WakeWire WakeRelay WakeDelivery.

Section WakeChanges.
Context `{P : Platform} {U : UrlBase64} {SD : Serde DeviceCredential} {WS : WakeSerde}.

Definition rules_revision (u : Rules) : Z :=
  match ru_version u with Some v => pv_revision v | None => 0%Z end.

(** A wake that is admitted: who sent it, under which rules, and what it leaves. *)
Record admission (t : N) (E : gmap string (string * N)) (id : string) (r : Route) (w : Wake)
    (s : Sender) (authorized : bool) (time : N) : Prop := {
  ad_time : time ≤ t;
  ad_valid : wake_valid w time = true;
  ad_sender : verify_sender id w time = Ok s;
  ad_erased : E !! display (se_identity s) = None;
  ad_rules : admits (rt_rules r) w (sender_tag id (se_identity s))
               (credential_tag id (se_credential s)) = Some authorized;
  ad_budget : authorized = false → untrusted_waits r (wk_scope w) time = false;
  ad_new : rt_events r !! wk_event w = None;
}.
Definition admitted (id : string) (r : Route) (w : Wake) (s : Sender) (authorized : bool) (time : N)
    : Route :=
  let r1 := with_events r (<[wk_event w := time + 86400]> (rt_events r)) (count_event (rt_count r)) in
  enqueue w (sender_tag id (se_identity s)) (credential_tag id (se_credential s)) time
    (if authorized then r1 else spend_budget time r1).

Inductive change (t : N) (g : Gate) (E : gmap string (string * N)) (id : string) (r : Route)
    : Route → Prop :=
| change_row o :
    ro_token o = ro_token (rt_row r) → ro_active o = ro_active (rt_row r) →
    ro_owner o = ro_owner (rt_row r) → ro_challenge o = ro_challenge (rt_row r) →
    change t g E id r (with_row r o)
| change_active owner challenge time :
    matches (ro_owner (rt_row r)) owner = true → ro_challenge (rt_row r) = challenge →
    time ≤ t → time < ro_expires (rt_row r) →
    change t g E id r (activate time r)
| change_expire time : time ≤ t → change t g E id r (purge_route (λ _ x, x <=? time) r)
| change_attention x : change t g E id r (with_attention r x)
| change_binding x : change t g E id r (with_binding r x)
| change_unqueue p : change t g E id r (with_queue r (delete_all p (rt_queue r)))
| change_retry d scope :
    change t g E id r (with_queue r (alter (retry_item d) scope (rt_queue r)))
| change_erase who :
    g = GateFree →
    change t g E id r (erase_sender who id (purge_route (event_of_sender who id r) r))
| change_event event x :
    rt_events r !! event = None →
    change t g E id r (with_events r (<[event := x]> (rt_events r)) (count_event (rt_count r)))
| change_forget event until :
    g = GateCalled id event until →
    change t g E id r (purge_route (λ e _, e === event) r)
| change_policy p owner time :
    g = GateFree → policy_valid p = true → owner_ok r owner time = true → time ≤ t →
    (rules_revision (rt_rules r) < po_revision p)%Z →
    change t g E id r (apply_policy p (hash (to_json p)) r)
| change_wake w s authorized time :
    admission t E id r w s authorized time →
    change t g E id r (admitted id r w s authorized time)
| change_recount : change t g E id r (recount r).

Definition changes (t : N) (g : Gate) (E : gmap string (string * N)) (id : string) : Route → Route → Prop :=
  rtc (change t g E id).
Definition moves (t : N) (g : Gate) (E : gmap string (string * N)) (m m' : gmap string Route) : Prop :=
  ∀ id r', m' !! id = Some r' → ∃ r, m !! id = Some r ∧ changes t g E id r r'.

Lemma moves_refl t g E m : moves t g E m m.
Proof. intros id r Hr. exists r. split; [done|apply rtc_refl]. Qed.
Lemma moves_trans t g E m1 m2 m3 : moves t g E m1 m2 → moves t g E m2 m3 → moves t g E m1 m3.
Proof.
  intros H1 H2 id r3 H3. destruct (H2 id r3 H3) as (r2 & Hr2 & Hc2).
  destruct (H1 id r2 Hr2) as (r1 & Hr1 & Hc1). exists r1. split; [done|]. by etrans.
Qed.
Lemma moves_delete t g E p m : moves t g E m (delete_all p m).
Proof. intros id r [Hr _]%delete_all_Some. exists r. split; [done|apply rtc_refl]. Qed.
Lemma moves_update t g E u m :
  (∀ id r, m !! id = Some r → changes t g E id r (u id r)) → moves t g E m (update_all u m).
Proof. intros Hu id r' (r & Hr & <-)%update_all_Some. exists r. auto. Qed.
Lemma moves_alter t g E f id m :
  (∀ r, m !! id = Some r → changes t g E id r (f r)) → moves t g E m (alter f id m).
Proof.
  intros Hf j r'. destruct (decide (j = id)) as [->|Hj].
  - rewrite lookup_alter_eq. intros (r & Hr & ->)%fmap_Some. exists r. auto.
  - rewrite lookup_alter_ne by done. intros Hr. exists r'. split; [done|apply rtc_refl].
Qed.
Lemma moves_expired t g E time db :
  time ≤ t → moves t g E (db_routes db) (db_routes (purge_expired time db)).
Proof. intros Ht. apply moves_update. intros id r _. by apply rtc_once, change_expire. Qed.
Lemma moves_event t g E id event x db :
  moves t g E (db_routes db) (db_routes (add_event id event x db).1).
Proof.
  unfold add_event. destruct (db_routes db !! id) as [r|] eqn:Hr; [|apply moves_refl].
  destruct (rt_events r !! event) eqn:He; [apply moves_refl|]. cbn.
  rewrite <-(alter_Some (λ r, with_events r (<[event := x]> (rt_events r))
    (count_event (rt_count r))) _ _ r) by done.
  apply moves_alter. intros r0 Hr0. rewrite Hr in Hr0. injection Hr0 as <-.
  by apply rtc_once, change_event.
Qed.
Lemma forget_item_changes t g E id scope event r :
  changes t g E id r (forget_item scope event r).
Proof.
  unfold forget_item. case_bool_decide; [|apply rtc_refl].
  assert (delete scope (rt_queue r) = delete_all (λ k _, k === scope) (rt_queue r)) as ->;
    [|apply rtc_once, change_unqueue].
  apply map_eq. intros k. apply option_eq. intros v. rewrite lookup_delete_Some, delete_all_Some.
  rewrite bool_decide_eq_false. naive_solver.
Qed.
Lemma moves_forgotten t g E id scope event m :
  moves t g E m (alter (λ r, forget_item scope event (forget_attention scope event r)) id m).
Proof.
  apply moves_alter. intros r _. transitivity (forget_attention scope event r).
  - unfold forget_attention. case_bool_decide; [apply rtc_once, change_attention|apply rtc_refl].
  - apply forget_item_changes.
Qed.

(** *** The sections *)

Lemma commit_moves {A} t g E (r : result Status (Db * A)) db :
  (∀ db' a, r = Ok (db', a) → moves t g E (db_routes db) (db_routes db')) →
  moves t g E (db_routes db) (db_routes (commit r db).1).
Proof. intros Hr. destruct r as [[db' a]|e]; cbn; [by eapply Hr|apply moves_refl]. Qed.

Lemma erase_moves t E who action draw time db :
  moves t GateFree E (db_routes db) (db_routes (erase_section who action draw time db).1).
Proof.
  unfold erase_section. destruct (db_erased db !! display who); [apply moves_refl|].
  destruct action; [apply moves_refl|]. destruct (secret draw); [|apply moves_refl]. cbn.
  eapply moves_trans; [apply (moves_delete _ _ _ (λ _ r, rt_account r === Some (display who)))|].
  intros id r' (r1 & Hr1 & <-)%update_all_Some. apply update_all_Some in Hr1 as (r & Hr & <-).
  exists r. split; [done|]. by apply rtc_once, change_erase.
Qed.

(** A route that has just been registered, by the account its binding names. *)
Definition registered (endpoint : string) (t : N) (E : gmap string (string * N)) (id : string)
    (r : Route) : Prop :=
  ∃ header input before who owner row,
    register_request endpoint id header input before = Ok (who, owner)
    ∧ before ≤ t ∧ E !! display who = None ∧ ro_token row = rg_token input
    ∧ ro_owner row = hash owner ∧ ro_active row = false ∧ r = new_route row (display who).

Lemma register_moves endpoint t g id header input before who owner draw time db j r' :
  register_request endpoint id header input before = Ok (who, owner) → before ≤ t →
  db_routes (register_section id who owner input draw time db).1 !! j = Some r' →
  (∃ r, db_routes db !! j = Some r ∧ changes t g (db_erased db) j r r')
  ∨ (j = id ∧ registered endpoint t (db_erased db) id r').
Proof.
  intros Hreq Hb. unfold register_section.
  destruct (db_erased db !! display who) as [x|] eqn:He.
  { intros Hr. left. exists r'. split; [done|apply rtc_refl]. }
  assert (Hd : moves t g (db_erased db) (db_routes db) (db_routes (drop_expired time db)))
    by apply moves_delete.
  set (d := drop_expired time db) in *.
  assert (Hrow : ∀ f : Route → RouteRow,
    (∀ r, ro_token (f r) = ro_token (rt_row r) ∧ ro_active (f r) = ro_active (rt_row r)
       ∧ ro_owner (f r) = ro_owner (rt_row r) ∧ ro_challenge (f r) = ro_challenge (rt_row r)) →
    moves t g (db_erased db) (db_routes db) (alter (λ r, with_row r (f r)) id (db_routes d))).
  { intros f Hf. eapply moves_trans; [exact Hd|]. apply moves_alter. intros r _.
    apply rtc_once. destruct (Hf r) as (H1 & H2 & H3 & H4). by apply change_row. }
  destruct (db_routes d !! id) as [saved|] eqn:Hid.
  - intros Hr. left. revert Hr.
    destruct (_ =/= _); [apply Hd|]. destruct (_ || _); [apply Hd|].
    destruct (ro_active _).
    { by apply (Hrow (λ r, rt_row (renew_route time r))). }
    destruct (_ <? _); [apply Hd|]. by apply (Hrow (λ r, rt_row (delay_route time r))).
  - destruct (_ || _); [intros Hr; left; by apply Hd|].
    destruct (secret draw) as [challenge|]; [|intros Hr; left; by apply Hd]. cbn.
    destruct (decide (j = id)) as [->|Hj].
    + rewrite lookup_insert_eq. intros [= <-]. right. split; [done|].
      exists header, input, before, who, owner. eexists.
      split_and!; [exact Hreq|exact Hb|exact He|..|reflexivity]; reflexivity.
    + rewrite lookup_insert_ne by done. intros Hr. left. by apply Hd.
Qed.

Lemma confirm_moves t g E id owner challenge time db :
  time ≤ t → moves t g E (db_routes db) (db_routes (confirm_section id owner challenge time db).1).
Proof.
  intros Ht. apply commit_moves. intros db' [] Hr. step Hr saved Hs. step Hr u Hu. injection Hr as <-.
  apply ok_or_Ok in Hs. apply fail_if_Ok in Hu. rewrite !orb_false_iff in Hu.
  destruct Hu as [[[H1 H2] _] H4]. apply bool_decide_eq_negb_false in H4.
  apply moves_alter. intros r Hr. rewrite Hs in Hr. injection Hr as <-.
  apply rtc_once. eapply (change_active _ _ _ _ _ owner challenge); [by apply negb_false_iff|done|done|].
  by apply N.leb_gt.
Qed.
Lemma remove_moves t g E id owner db :
  moves t g E (db_routes db) (db_routes (remove_section id owner db).1).
Proof.
  unfold remove_section. destruct (db_routes db !! id); [|apply moves_refl].
  destruct (negb _); [apply moves_refl|apply moves_delete].
Qed.
Lemma policy_moves t E id owner p time db :
  policy_valid p = true → time ≤ t →
  moves t GateFree E (db_routes db) (db_routes (policy_section id owner p time db).1).
Proof.
  intros Hp Ht. apply commit_moves. intros db' [] Hr. step Hr saved Hs. step Hr u Hu. step Hr u2 Hu2.
  apply ok_or_Ok in Hs. apply fail_if_Ok in Hu. apply negb_false_iff in Hu.
  apply fail_if_Ok in Hu2. apply Z.ltb_ge in Hu2.
  destruct (Z.eqb_spec (po_revision p) (rules_revision (rt_rules saved))) as [Heq|Hne].
  - unfold rules_revision in Heq. rewrite (proj2 (Z.eqb_eq _ _) Heq) in Hr.
    step Hr prev Hpr. step Hr u3 Hu3. injection Hr as <-. apply moves_refl.
  - unfold rules_revision in Hne. rewrite (proj2 (Z.eqb_neq _ _) Hne) in Hr.
    injection Hr as <-. apply moves_alter. intros r Hr. rewrite Hs in Hr. injection Hr as <-.
    apply rtc_once. eapply (change_policy _ _ _ _ _ p owner time); try done.
    unfold rules_revision. lia.
Qed.
Lemma read_moves t g E id owner events time db :
  time ≤ t → moves t g E (db_routes db) (db_routes (read_section id owner events time db).1).
Proof.
  intros Ht. apply commit_moves. intros db' [] Hr. step Hr saved Hs. step Hr u Hu. injection Hr as <-.
  eapply moves_trans; [by apply (moves_expired _ _ _ time)|].
  generalize (purge_expired time db). induction events as [|x l IH]; intros d; [apply moves_refl|].
  cbn. eapply moves_trans; [|apply IH]. unfold read_one. cbn.
  eapply moves_trans; [|apply moves_forgotten].
  destruct (event_capacity d id); [apply moves_event|apply moves_refl].
Qed.
Lemma select_moves t g E time order db :
  moves t g E (db_routes db) (db_routes (select time order db).1).
Proof.
  eapply moves_trans; [apply (moves_delete _ _ _ (λ _ r, ro_expires (rt_row r) <=? time))|].
  apply moves_update. intros id r _. apply rtc_once, change_unqueue.
Qed.
Lemma finish_moves t g E d answer db :
  moves t g E (db_routes db) (db_routes (finish d answer db).1).
Proof.
  destruct answer as [[]|[]]; cbn.
  - destruct (db_routes db !! dl_route d); [|apply moves_refl]. cbn. apply moves_alter. intros r0 Hr0.
    unfold delivered. set (r1 := with_attention r0 _).
    transitivity r1; [apply rtc_once, change_attention|].
    transitivity (forget_item (dl_scope d) (dl_event d) r1); [apply forget_item_changes|].
    apply rtc_once. by apply change_row.
  - apply moves_delete.
  - apply moves_alter. intros r _. apply rtc_once, change_retry.
Qed.
Lemma bind_moves t g E id owner b time db :
  moves t g E (db_routes db) (db_routes (bind_section id owner b time db).1).
Proof.
  apply commit_moves. intros db' [] Hr. step Hr saved Hs. step Hr u Hu. injection Hr as <-.
  apply moves_alter. intros r _. apply rtc_once, change_binding.
Qed.
Lemma unbind_moves t g E id owner db :
  moves t g E (db_routes db) (db_routes (unbind_section id owner db).1).
Proof.
  unfold unbind_section. destruct (db_routes db !! id) as [r0|]; [|apply moves_refl].
  destruct (negb _); [apply moves_refl|]. apply moves_alter. intros r _. apply rtc_once, change_binding.
Qed.
Lemma ring_moves t g E id key w s time db :
  time ≤ t → moves t g E (db_routes db) (db_routes (ring_section id key w s time db).1).
Proof.
  intros Ht. unfold ring_section. destruct (db_routes db !! id) as [saved|]; [|apply moves_refl].
  destruct (_ || negb (matches _ _)); [apply moves_refl|].
  destruct (_ || bool_decide _); [apply moves_refl|].
  destruct (rt_binding saved) as [b|]; [|apply moves_refl].
  destruct (bd_expires b <=? time); [apply moves_refl|].
  assert (Hp := moves_expired t g E time db Ht).
  case_bool_decide; [done|]. destruct (_ || negb (event_capacity _ _)); [done|]. cbn [fst].
  eapply moves_trans; [exact Hp|]. eapply moves_trans; [apply moves_event|].
  apply moves_alter. intros r _. apply rtc_once, change_binding.
Qed.
Lemma ring_failed_moves t E id event until invalid_token db :
  moves t (GateCalled id event until) E (db_routes db) (db_routes (ring_failed id event invalid_token db)).
Proof.
  unfold ring_failed.
  assert (Hp : moves t (GateCalled id event until) E (db_routes db)
    (db_routes (purge_events (λ k _ e _, (k === id) && (e === event)) db))).
  { apply moves_update. intros k r _. destruct (decide (k = id)) as [->|Hk].
    - rewrite bool_decide_eq_true_2 by done. apply rtc_once. by apply (change_forget _ _ _ _ _ event until).
    - rewrite bool_decide_eq_false_2 by done. cbn [andb].
      assert (purge_route (λ _ _, false) r = r) as ->; [|apply rtc_refl].
      unfold purge_route. assert (delete_all (λ _ _, false) (rt_events r) = rt_events r) as ->.
      { apply map_eq. intros e. apply option_eq. intros v. rewrite delete_all_Some. naive_solver. }
      destruct r as [? ? ? ? [n|] ? ? ? ?]; cbn; [|done]. unfold with_events. cbn. do 2 f_equal. lia. }
  destruct invalid_token; [|done]. eapply moves_trans; [exact Hp|].
  apply moves_alter. intros r _. apply rtc_once, change_binding.
Qed.

Lemma register_failed_moves t g E id challenge db :
  moves t g E (db_routes db) (db_routes (register_failed id challenge db)).
Proof. apply moves_delete. Qed.
Lemma open_moves t g E db : moves t g E (db_routes db) (db_routes (open db)).
Proof.
  intros id r'. cbn. rewrite lookup_fmap. intros (r & Hr & ->)%fmap_Some. exists r.
  split; [done|]. by apply rtc_once, change_recount.
Qed.

Lemma purged_event p r event :
  rt_events r !! event = None → rt_events (purge_route p r) !! event = None.
Proof.
  intros He. apply eq_None_not_Some. intros [x [Hx _]%delete_all_Some]. congruence.
Qed.

(** What the transaction of a wake leaves: purged routes, and the admitted one. *)
Lemma wake_commit_moves id w tag cred authorized time db db' :
  wake_commit id w tag cred authorized time db = Ok db' →
  db' = db
  ∨ ∃ r, db_routes db !! id = Some r ∧
      let p := purge_route (λ _ x, x <=? time) r in
      let r1 := with_events p (<[wk_event w := time + 86400]> (rt_events p)) (count_event (rt_count p)) in
      rt_events p !! wk_event w = None ∧
      db_routes db' = <[id := enqueue w tag cred time (if authorized then r1 else spend_budget time r1)]>
                        (db_routes (purge_expired time db)).
Proof.
  intros H. unfold wake_commit in H. step H u Hu. unfold add_event in H.
  cbn [db_routes purge_expired purge_events] in H. rewrite lookup_update_all in H.
  destruct (db_routes db !! id) as [r|] eqn:Hr; cbn [fmap option_fmap option_map] in H;
    [|cbn in H; injection H as <-; by left].
  destruct (rt_events (purge_route _ r) !! wk_event w) eqn:He; [cbn in H; injection H as <-; by left|].
  right. exists r. split; [done|]. cbn zeta. split; [done|]. cbn [negb snd fst] in H.
  set (r1 := with_events _ _ _) in *. destruct authorized; injection H as <-; cbn.
  - by rewrite (alter_Some _ _ _ r1), insert_insert_eq by apply lookup_insert_eq.
  - rewrite (alter_Some (spend_budget time) _ _ r1), insert_insert_eq by apply lookup_insert_eq.
    by rewrite (alter_Some _ _ _ (spend_budget time r1)), insert_insert_eq by apply lookup_insert_eq.
Qed.

(** A wake either leaves the database alone or is admitted, after expired events are purged. *)
Lemma wake_outcome id key w time db :
  wake_valid w time = true →
  (wake_section id key w time db).1 = db
  ∨ ∃ r s authorized, db_routes db !! id = Some r
      ∧ (wake_section id key w time db).2 = Ok tt
      ∧ admission time (db_erased db) id (purge_route (λ _ x, x <=? time) r) w s authorized time
      ∧ db_routes (wake_section id key w time db).1
        = <[id := admitted id (purge_route (λ _ x, x <=? time) r) w s authorized time]>
            (db_routes (purge_expired time db)).
Proof.
  intros Hv. destruct (wake_section id key w time db) as [d' res] eqn:Heq. unfold wake_section in Heq.
  cbn [fst snd]. destruct (_ ≫= _) as [[db' []]|] eqn:H in Heq; cbn in Heq;
    injection Heq as <- <-; [|by left].
  step H r Hr. step H u Hu. step H sender Hs.
  apply ok_or_Ok in Hr. destruct sender as [s|]; [|injection H as <-; by left].
  destruct (bool_decide (is_Some (db_erased db !! _))) eqn:He; [injection H as <-; by left|].
  cbv zeta in H.
  destruct (admits (rt_rules r) _ _ _) as [authorized|] eqn:Ha; [|injection H as <-; by left].
  destruct (_ && untrusted_waits r _ _) eqn:Hb; [injection H as <-; by left|].
  destruct (bool_decide (is_Some (rt_events r !! _))) eqn:Hev; [injection H as <-; by left|].
  step H u2 Hu2. step H db2 Hc. injection H as <-.
  apply wake_commit_moves in Hc as [->|(r0 & Hr0 & Hnew & Hdb)]; [by left|].
  rewrite Hr in Hr0. injection Hr0 as <-. right. exists r, s, authorized. split_and!; try done.
  destruct (wk_sender w); [|done].
  destruct (verify_sender id w time) as [s0|] eqn:Hvs; [|done]. injection Hs as ->.
  split; try done.
  - apply bool_decide_eq_false in He. by apply eq_None_not_Some.
  - intros ->. exact Hb.
Qed.

Lemma wake_moves t g id key w time db :
  wake_valid w time = true → time ≤ t →
  moves t g (db_erased db) (db_routes db) (db_routes (wake_section id key w time db).1).
Proof.
  intros Hv Ht.
  destruct (wake_outcome id key w time db Hv) as [->|(r & s & au & Hr & _ & Had & ->)]; [apply moves_refl|].
  intros j r' Hj. destruct (decide (j = id)) as [->|Hne].
  - rewrite lookup_insert_eq in Hj. injection Hj as <-. exists r. split; [done|].
    transitivity (purge_route (λ _ x, x <=? time) r); [by apply rtc_once, change_expire|].
    apply rtc_once, change_wake. destruct Had. by split; try lia.
  - rewrite lookup_insert_ne in Hj by done. by apply (moves_expired t g _ time).
Qed.

(** *** One step *)

Lemma step_changes endpoint t w n w' :
  relay_step endpoint t w n w' → ∀ id r', db_routes (ww_db w') !! id = Some r' →
  (∃ r, db_routes (ww_db w) !! id = Some r
        ∧ changes t (ww_gate w) (db_erased (ww_db w)) id r r')
  ∨ registered endpoint t (db_erased (ww_db w)) id r'.
Proof.
  intros Hs id r' Hr'.
  assert (Hm : moves t (ww_gate w) (db_erased (ww_db w)) (db_routes (ww_db w)) (db_routes (ww_db w'))
               ∨ registered endpoint t (db_erased (ww_db w)) id r'
               ∨ ∃ r, db_routes (ww_db w) !! id = Some r
                      ∧ changes t (ww_gate w) (db_erased (ww_db w)) id r r').
  { destruct Hs; cbn in *; try (rewrite H); try (left; apply moves_refl).
    - left. apply erase_moves.
    - eapply register_moves in Hr'; [|done..]. destruct Hr' as [?|[-> ?]]; eauto.
    - left. apply register_failed_moves.
    - left. by apply confirm_moves.
    - left. apply remove_moves.
    - left. by apply policy_moves.
    - left. by apply read_moves.
    - left. by apply wake_moves.
    - left. apply (select_moves t _ _ time order).
    - left. apply finish_moves.
    - left. apply bind_moves.
    - left. apply unbind_moves.
    - left. by apply ring_moves.
    - left. by apply ring_failed_moves.
    - left. apply open_moves. }
  destruct Hm as [Hm|[?|?]]; eauto.
Qed.

End WakeChanges.

(** * What holds of every route and of the delivery gate

    Consequences of the changes a step may make: the rules move forward under their owner's
    revisions, every queued wake was proved by a sender that has not been erased, and what the
    holder of the gate is about to hand over is still allowed. *)


Section WakeSafety.
Context `{P : Platform} {U : UrlBase64} {SD : Serde DeviceCredential} {WS : WakeSerde}.

(** Any property of a route that every change keeps. *)
Lemma changes_ind t g E id (Q : Route → Prop) r r' :
  (∀ r1 r2, Q r1 → change t g E id r1 r2 → Q r2) → changes t g E id r r' → Q r → Q r'.
Proof. intros HQ Hc. induction Hc as [|r1 r2 r3 H1 _ IH]; [done|]. intros Hr. eapply IH, HQ; done. Qed.

(** ** Fields *)

Lemma forgotten_same scope event r :
  rt_account (forget_item scope event r) = rt_account r
  ∧ rt_rules (forget_item scope event r) = rt_rules r
  ∧ rt_events (forget_item scope event r) = rt_events r.
Proof. unfold forget_item. by case_bool_decide. Qed.

Lemma change_account t g E id r r' : change t g E id r r' → rt_account r' = rt_account r.
Proof. intros []; try done. unfold admitted. by destruct authorized. Qed.
Lemma changes_account t g E id r r' : changes t g E id r r' → rt_account r' = rt_account r.
Proof.
  intros Hc. apply (changes_ind t g E id (λ x, rt_account x = rt_account r) r r'); [|done..].
  intros r1 r2 H1 H2. by rewrite (change_account _ _ _ _ _ _ H2).
Qed.

Lemma change_rules t g E id r r' :
  change t g E id r r' → g ≠ GateFree → rt_rules r' = rt_rules r.
Proof. intros [] Hg; try done. unfold admitted. by destruct authorized. Qed.
Lemma changes_rules t g E id r r' :
  changes t g E id r r' → g ≠ GateFree → rt_rules r' = rt_rules r.
Proof.
  intros Hc Hg. apply (changes_ind t g E id (λ x, rt_rules x = rt_rules r) r r'); [|done..].
  intros r1 r2 H1 H2. by rewrite (change_rules _ _ _ _ _ _ H2).
Qed.

(** *** Revisions *)

Lemma add_scopes_version l u :
  ru_version (foldl (λ u s, add_scope s u) u l) = ru_version u.
Proof. revert u. induction l as [|s l IH]; intros u; [done|]. cbn. by rewrite IH. Qed.
Lemma apply_policy_revision p digest r :
  rules_revision (rt_rules (apply_policy p digest r)) = po_revision p.
Proof. unfold rules_revision. cbn. unfold new_rules. by rewrite add_scopes_version. Qed.

(** The same rules, or those of a later revision. *)
Definition forward (u u' : Rules) : Prop := u' = u ∨ (rules_revision u < rules_revision u')%Z.
Lemma forward_trans u1 u2 u3 : forward u1 u2 → forward u2 u3 → forward u1 u3.
Proof. intros [->|H1] [->|H2]; unfold forward; auto; right; lia. Qed.
Lemma change_forward t g E id r r' : change t g E id r r' → forward (rt_rules r) (rt_rules r').
Proof.
  intros []; try (by left).
  - right. by rewrite apply_policy_revision.
  - left. unfold admitted. by destruct authorized.
Qed.
Lemma changes_forward t g E id r r' : changes t g E id r r' → forward (rt_rules r) (rt_rules r').
Proof.
  intros Hc. apply (changes_ind t g E id (λ x, forward (rt_rules r) (rt_rules x)) r r');
    [|done|by left]. intros r1 r2 H1 H2. eapply forward_trans; [done|]. by eapply change_forward.
Qed.

(** *** The budget of unnamed senders *)

Definition budget (r : Route) : N := default 0 (rt_untrusted r).
Lemma untrusted_waits_false r scope time : untrusted_waits r scope time = false → budget r ≤ time.
Proof. unfold untrusted_waits. intros [_ H]%orb_false_iff. by apply N.ltb_ge. Qed.
Lemma change_budget t g E id r r' : change t g E id r r' → budget r ≤ budget r'.
Proof.
  intros []; try done. unfold admitted. destruct authorized; [done|].
  destruct (untrusted_waits r (wk_scope w) time) eqn:Hw.
  - by rewrite (ad_budget _ _ _ _ _ _ _ _ H eq_refl) in Hw.
  - apply untrusted_waits_false in Hw. unfold budget at 2. cbn. lia.
Qed.
Lemma changes_budget t g E id r r' : changes t g E id r r' → budget r ≤ budget r'.
Proof.
  intros Hc. apply (changes_ind t g E id (λ x, budget r ≤ budget x) r r'); [|done..].
  intros r1 r2 H1 H2%change_budget. lia.
Qed.

(** ** Where queued wakes come from *)

(** The wake of a queue row, and the sender who proved it and still has an account. *)
Record item_origin (t : N) (E : gmap string (string * N)) (id scope : string) (it : Item)
    (w : Wake) (s : Sender) (time : N) : Prop := {
  io_time : time ≤ t;
  io_valid : wake_valid w time = true;
  io_sender : verify_sender id w time = Ok s;
  io_erased : E !! display (se_identity s) = None;
  io_scope : wk_scope w = scope;
  io_event : wk_event w = it_event it;
  io_target : wk_target w = it_target it;
  io_category : wk_category w = it_category it;
  io_tag : it_sender it = Some (sender_tag id (se_identity s));
  io_credential : it_credential it = Some (credential_tag id (se_credential s));
  io_expires : it_expires it = default (time + 86400) (wk_expires w);
}.
Definition originates t E id scope it : Prop := ∃ w s time, item_origin t E id scope it w s time.
Definition queue_origins t E (id : string) (r : Route) : Prop :=
  ∀ scope it, rt_queue r !! scope = Some it → originates t E id scope it.

Lemma originates_later t t' E id scope it :
  t ≤ t' → originates t E id scope it → originates t' E id scope it.
Proof. intros Ht (w & s & time & []). exists w, s, time. split; try done. lia. Qed.

Lemma admitted_queue id r w s authorized time scope it :
  rt_queue (admitted id r w s authorized time) !! scope = Some it →
  (rt_queue r !! scope = Some it ∧ scope ≠ wk_scope w)
  ∨ (scope = wk_scope w ∧ ∃ old,
       it = wake_item w (sender_tag id (se_identity s)) (credential_tag id (se_credential s)) time old).
Proof.
  unfold admitted, enqueue. set (r1 := if authorized then _ else _). cbn [rt_queue with_queue].
  destruct (decide (scope = wk_scope w)) as [->|Hs].
  - rewrite lookup_insert_eq. intros [= <-]. right. split; [done|]. by eexists.
  - rewrite lookup_insert_ne by done. unfold r1. destruct authorized; [by left|]. cbn.
    intros [Hk _]%delete_all_Some. by left.
Qed.

Lemma change_origins t g E id r r' :
  change t g E id r r' → queue_origins t E id r → queue_origins t E id r'.
Proof.
  intros Hc Hr. destruct Hc as [| | | | | | | | | | | w s au time Had|]; try done;
    intros k v Hk; cbn in Hk.
  - apply delete_all_Some in Hk as [Hk _]. by apply Hr.
  - destruct (decide (k = scope)) as [->|Hne].
    + rewrite lookup_alter_eq in Hk. apply fmap_Some in Hk as (v0 & Hv0 & ->).
      destruct (Hr _ _ Hv0) as (w & s & time & []). exists w, s, time.
      unfold retry_item. case_bool_decide; by split.
    + rewrite lookup_alter_ne in Hk by done. by apply Hr.
  - apply map_lookup_filter_Some in Hk as [Hk _]. by apply Hr.
  - apply delete_all_Some in Hk as [Hk _]. by apply Hr.
  - apply admitted_queue in Hk as [[Hk _]|[-> [old ->]]]; [by apply Hr|].
    destruct Had. exists w, s, time. by split.
Qed.
Lemma changes_origins t g E id r r' :
  changes t g E id r r' → queue_origins t E id r → queue_origins t E id r'.
Proof. intros Hc. apply (changes_ind t g E id (queue_origins t E id)); [|done]. eauto using change_origins. Qed.

(** ** Erased accounts *)

Lemma commit_erased {A} (r : result Status (Db * A)) db :
  (∀ db' a, r = Ok (db', a) → db_erased db' = db_erased db) →
  db_erased (commit r db).1 = db_erased db.
Proof. intros Hr. destruct r as [[db' a]|e]; cbn; [by eapply Hr|done]. Qed.
Lemma add_event_erased id event x db : db_erased (add_event id event x db).1 = db_erased db.
Proof. unfold add_event. destruct (_ !! id) as [r|]; [|done]. by destruct (rt_events r !! event). Qed.

Lemma read_erased id time events db :
  db_erased (foldl (read_one id time) db events) = db_erased db.
Proof.
  revert db. induction events as [|x l IH]; intros d; [done|]. cbn. rewrite IH. unfold read_one. cbn.
  destruct (event_capacity d id); [apply add_event_erased|done].
Qed.
Lemma wake_commit_erased id w tag cred au time db db' :
  wake_commit id w tag cred au time db = Ok db' → db_erased db' = db_erased db.
Proof.
  intros H. unfold wake_commit in H. step H u Hu. cbv zeta in H. destruct (negb _.2); [by injection H as <-|].
  injection H as <-. cbn. destruct au; cbn; by rewrite add_event_erased.
Qed.
Lemma register_erased id who owner input draw time db :
  db_erased (register_section id who owner input draw time db).1 = db_erased db.
Proof.
  unfold register_section. destruct (db_erased db !! _); [done|].
  destruct (db_routes (drop_expired time db) !! id); repeat case_match; done.
Qed.
Lemma wake_erased id key w time db : db_erased (wake_section id key w time db).1 = db_erased db.
Proof.
  apply commit_erased. intros db' [] H. step H r Hr. step H u Hu. step H sender Hs.
  destruct sender as [s|]; [|by injection H as <-]. cbv zeta in H.
  destruct (bool_decide (is_Some (db_erased db !! _))); [by injection H as <-|].
  destruct (admits (rt_rules r) _ _ _) as [au|]; [|by injection H as <-].
  destruct (_ && _); [by injection H as <-|]. destruct (bool_decide _); [by injection H as <-|].
  step H u2 Hu2. step H db2 Hc. injection H as <-. by apply wake_commit_erased in Hc.
Qed.
Lemma ring_erased id key w s time db : db_erased (ring_section id key w s time db).1 = db_erased db.
Proof.
  unfold ring_section. repeat case_match; try done. cbn. by rewrite add_event_erased.
Qed.

(** What deleting an account leaves of a route. *)
Definition forgotten (who : IdentityId) (id : string) (r : Route) : Prop :=
  rt_account r ≠ Some (display who)
  ∧ ∀ scope it, rt_queue r !! scope = Some it → it_sender it ≠ Some (sender_tag id who).
Definition erases (w w' : World) : Prop :=
  ∃ who x, ww_gate w = GateFree ∧ db_erased (ww_db w) !! display who = None
    ∧ db_erased (ww_db w') = <[display who := x]> (db_erased (ww_db w))
    ∧ ∀ id r', db_routes (ww_db w') !! id = Some r' → forgotten who id r'.

Lemma erase_section_forgets who action draw time db :
  let db' := (erase_section who action draw time db).1 in
  db' = db
  ∨ db_erased db !! display who = None
    ∧ (∃ x, db_erased db' = <[display who := x]> (db_erased db))
    ∧ ∀ id r', db_routes db' !! id = Some r' → forgotten who id r'.
Proof.
  cbn zeta. unfold erase_section. destruct (db_erased db !! display who) eqn:He; [by left|].
  destruct action; [by left|]. destruct (secret draw) as [x|]; [|by left]. right. cbn.
  split; [done|]. split; [by eexists|].
  intros id r' (r1 & Hr1 & <-)%update_all_Some. apply update_all_Some in Hr1 as (r & Hr & <-).
  apply delete_all_Some in Hr as [_ Ha]. apply bool_decide_eq_false in Ha. split; [exact Ha|].
  cbn. intros scope it [_ Ht]%map_lookup_filter_Some. cbn in Ht. unfold sent_by in Ht.
  by apply bool_decide_eq_false in Ht.
Qed.

Lemma step_erased endpoint t w n w' :
  relay_step endpoint t w n w' → db_erased (ww_db w') = db_erased (ww_db w) ∨ erases w w'.
Proof.
  intros Hs. destruct Hs; cbn; try (by left).
  - destruct (erase_section_forgets (vc_identity credential) (ac_action command) draw (time * 1000)
                (ww_db w)) as [->|(He & [x Hx] & Hf)]; [by left|].
    right. by exists (vc_identity credential), x.
  - left. apply register_erased.
  - left. apply commit_erased. intros db' [] Hr. step Hr saved Hsv. step Hr u Hu. by injection Hr as <-.
  - left. unfold remove_section. by repeat case_match.
  - left. apply commit_erased. intros db' [] Hr. step Hr saved Hsv. step Hr u Hu. step Hr u2 Hu2.
    destruct (_ =? _)%Z; [step Hr pv Hpv; step Hr u3 Hu3|]; by injection Hr as <-.
  - left. apply commit_erased. intros db' [] Hr. step Hr saved Hsv. step Hr u Hu. injection Hr as <-.
    by rewrite read_erased.
  - left. apply wake_erased.
  - left. destruct answer as [[]|[]]; cbn; by repeat case_match.
  - left. apply commit_erased. intros db' [] Hr. step Hr saved Hsv. step Hr u Hu. by injection Hr as <-.
  - left. unfold unbind_section. by repeat case_match.
  - left. apply ring_erased.
  - left. unfold ring_failed. by case_match.
Qed.

End WakeSafety.
