(* ===== verification/WakeInv.v ===== *)
(** * The invariant of the relay as it runs

    Besides its limits: where queued wakes come from, that no route belongs to an erased
    account, and that what the holder of the delivery gate carries is still allowed. *)

From S2P Require Import Prelude Sums Platform Ids Record Chat Identity WakeWire WakeRelay WakeDelivery WakeFacts WakeChanges.

(** ** The row the worker selects *)

Lemma bytes_ltb_false a b : bytes_ltb a b = false ↔ String.le b a.
Proof.
  rewrite <-not_true_iff_false, bytes_ltb_lt. split.
  - intros H. destruct (decide (b = a)) as [->|Hne]; [done|].
    destruct (total String.le a b) as [Hab|Hba]; [|done]. exfalso. apply H. by split.
  - intros Hba [Hab Hne]. apply Hne. by apply (anti_symm String.le).
Qed.

Lemma row_before_false x y :
  row_before x y = false ↔
  it_next y.2.2 < it_next x.2.2 ∨ it_next y.2.2 = it_next x.2.2 ∧ String.le y.1.1 x.1.1.
Proof.
  unfold row_before. rewrite orb_false_iff, andb_false_iff, N.ltb_ge, N.eqb_neq, bytes_ltb_false.
  destruct (decide (it_next x.2.2 = it_next y.2.2)); [|split; [intros [? [?|?]]|]; lia].
  split; [intros [_ [?|?]]|]; [lia| |intros [?|[_ ?]]; [lia|]]; auto with lia.
Qed.
Lemma row_before_asym x y : row_before x y = true → row_before y x = false.
Proof.
  rewrite row_before_false. unfold row_before.
  rewrite orb_true_iff, andb_true_iff, N.ltb_lt, N.eqb_eq, bytes_ltb_lt. naive_solver.
Qed.
Lemma not_before_trans x y z :
  row_before y x = false → row_before z y = false → row_before z x = false.
Proof.
  rewrite !row_before_false. intros [?|[? ?]] [?|[? ?]]; [left; lia..|]. right.
  split; [lia|]. by etrans.
Qed.

Lemma first_row_spec best rows :
  let r := first_row best rows in
  r ∈ best :: rows ∧ ∀ y, y ∈ best :: rows → row_before y r = false.
Proof.
  cbn zeta. revert best. induction rows as [|x rows IH]; intros best; cbn [first_row].
  - split; [by left|]. intros y ->%list_elem_of_singleton.
    destruct (row_before best best) eqn:H; [|done]. by rewrite (row_before_asym _ _ H) in H.
  - set (b := if row_before x best then x else best). destruct (IH b) as [H1 H2].
    assert (row_before best b = false ∧ row_before x b = false ∧ (b = x ∨ b = best)) as (Hb1 & Hb2 & Hb).
    { unfold b. destruct (row_before x best) eqn:Hx; (split; [|split; [|auto]]);
        try (by apply row_before_asym); try done;
        match goal with |- ?e = _ => destruct e eqn:Hs; [|done] end;
        by rewrite (row_before_asym _ _ Hs) in Hs. }
    split.
    + apply elem_of_cons in H1 as [->|H1]; [destruct Hb as [->| ->]; set_solver|set_solver].
    + intros y Hy. assert (Hr : row_before b (first_row b rows) = false) by (apply H2; by left).
      apply elem_of_cons in Hy as [->|Hy]; [by eapply not_before_trans|].
      apply elem_of_cons in Hy as [->|Hy]; [by eapply not_before_trans|].
      apply H2. by right.
Qed.

Lemma elem_of_queue_rows db id r scope it :
  (id, r, (scope, it)) ∈ queue_rows db ↔ db_routes db !! id = Some r ∧ rt_queue r !! scope = Some it.
Proof.
  unfold queue_rows, route_rows. rewrite list_elem_of_bind. split.
  - intros ([id2 r2] & Hin & Hkr). cbn in Hin. apply list_elem_of_fmap in Hin as ([s2 i2] & [= -> -> -> ->] & Hsi).
    apply elem_of_map_to_list in Hkr, Hsi. done.
  - intros [Hr Hit]. exists (id, r). split; [|by apply elem_of_map_to_list].
    apply list_elem_of_fmap. exists (scope, it). split; [done|]. by apply elem_of_map_to_list.
Qed.

Section WakeInv.
Context `{P : Platform} {U : UrlBase64} {SD : Serde DeviceCredential} {WS : WakeSerde}.

Lemma stale_rows time db id r :
  db_routes (drop_stale_items time db) !! id = Some r → ∀ scope it, rt_queue r !! scope = Some it →
  time < it_expires it.
Proof.
  cbn. intros (r0 & _ & <-)%update_all_Some scope it. cbn. intros [_ Hx]%delete_all_Some.
  by apply N.leb_gt.
Qed.

Lemma due_rows time order db x :
  (∀ l, order l ≡ₚ l) →
  In x (List.filter (row_due time) (order (queue_rows db))) ↔ x ∈ queue_rows db ∧ row_due time x = true.
Proof. intros Ho. rewrite filter_In, <-list_elem_of_In, Ho. done. Qed.

Lemma select_spec time order db :
  (∀ l, order l ≡ₚ l) →
  match (select time order db).2 with
  | None => ∀ x, x ∈ queue_rows (drop_stale_items time db) → row_due time x = false
  | Some d => ∃ x, x ∈ queue_rows (drop_stale_items time db) ∧ row_due time x = true
      ∧ d = delivery_of time x
      ∧ ∀ y, y ∈ queue_rows (drop_stale_items time db) → row_due time y = true → row_before y x = false
  end.
Proof.
  intros Ho. cbn [select snd]. set (d := drop_stale_items time db).
  pose proof (due_rows time order d) as Hin.
  destruct (List.filter (row_due time) (order (queue_rows d))) as [|x rows].
  - intros x Hx. destruct (row_due time x) eqn:Hd; [|done]. destruct (proj2 (Hin x Ho) (conj Hx Hd)).
  - destruct (first_row_spec x rows) as [H1 H2]. exists (first_row x rows).
    apply list_elem_of_In, Hin in H1 as [H1 H3]; [|done]. split_and!; [done..|].
    intros y Hy Hd. apply H2, list_elem_of_In, Hin; done.
Qed.

(** ** What the gate carries *)

Definition still_allowed (db : Db) (id : string) (ok : Rules → bool) : Prop :=
  ∀ r, db_routes db !! id = Some r → rt_rules r = no_rules ∨ ok (rt_rules r) = true.

(** The selected wake: proved by its sender, before its deadline, and allowed by the rules. *)
Definition wake_allowed (t : N) (db : Db) (d : Delivery) : Prop :=
  ∃ it w s time, item_origin t (db_erased db) (dl_route d) (dl_scope d) it w s time
    ∧ it_event it = dl_event d ∧ it_target it = dl_target d ∧ it_category it = dl_category d
    ∧ it_expires it = dl_expires d ∧ dl_time d < dl_expires d
    ∧ still_allowed db (dl_route d) (λ u, rules_deliver u (dl_scope d) it).
Definition call_allowed (t : N) (db : Db) (n : Notice) (id event : string) (until : N) : Prop :=
  ∃ input s time provider,
    n = ring_notice id input provider ∧ event = wk_event (rn_wake input)
    ∧ until = default 0 (wk_expires (rn_wake input)) + 120
    ∧ time ≤ t ∧ ring_valid id input time = true
    ∧ verify_sender id (rn_wake input) time = Ok s
    ∧ db_erased db !! display (se_identity s) = None
    ∧ still_allowed db id (λ u, rules_ring u (wk_scope (rn_wake input))
        (sender_tag id (se_identity s)) (credential_tag id (se_credential s))).
Definition gate_ok (t : N) (w : World) : Prop :=
  match ww_gate w with
  | GateSelected d | GateHushed d _ => wake_allowed t (ww_db w) d
  | GateCalling n id event until => call_allowed t (ww_db w) n id event until
  | _ => True
  end.

Record relay_inv (t : N) (w : World) : Prop := {
  ri_limits : db_ok (ww_db w);
  ri_pending : nlen (ww_pending w) ≤ REGISTRATIONS;
  ri_origins id r :
    db_routes (ww_db w) !! id = Some r → queue_origins t (db_erased (ww_db w)) id r;
  ri_accounts who x : db_erased (ww_db w) !! display who = Some x → ∀ id r,
    db_routes (ww_db w) !! id = Some r → rt_account r ≠ Some (display who);
  ri_gate : gate_ok t w;
}.

(** *** Each part is kept *)

Lemma still_step endpoint t w n w' id ok :
  relay_step endpoint t w n w' → ww_gate w ≠ GateFree →
  still_allowed (ww_db w) id ok → still_allowed (ww_db w') id ok.
Proof.
  intros Hs Hg Ha r' Hr'. destruct (step_changes _ _ _ _ _ Hs id r' Hr') as [(r & Hr & Hc)|Hn].
  - rewrite (changes_rules _ _ _ _ _ _ Hc Hg). by apply Ha.
  - destruct Hn as (? & ? & ? & ? & ? & ? & _ & _ & _ & _ & _ & _ & ->). by left.
Qed.
Lemma busy_erased endpoint t w n w' :
  relay_step endpoint t w n w' → ww_gate w ≠ GateFree → db_erased (ww_db w') = db_erased (ww_db w).
Proof. intros [?|(who & x & Hg & _)]%step_erased Hn; [done|contradiction]. Qed.

Lemma wake_allowed_step endpoint t t' w n w' d :
  relay_step endpoint t' w n w' → t ≤ t' → ww_gate w ≠ GateFree →
  wake_allowed t (ww_db w) d → wake_allowed t' (ww_db w') d.
Proof.
  intros Hs Ht Hg (it & wk & s & time & Ho & H1 & H2 & H3 & H4 & H5 & Ha).
  exists it, wk, s, time. rewrite (busy_erased _ _ _ _ _ Hs Hg). split_and!; try done.
  - destruct Ho. split; try done. lia.
  - by eapply still_step.
Qed.
Lemma call_allowed_step endpoint t t' w n w' c id event until :
  relay_step endpoint t' w n w' → t ≤ t' → ww_gate w ≠ GateFree →
  call_allowed t (ww_db w) c id event until → call_allowed t' (ww_db w') c id event until.
Proof.
  intros Hs Ht Hg (input & s & time & pr & H1 & H2 & H3 & H4 & H5 & H6 & H7 & Ha).
  exists input, s, time, pr. rewrite (busy_erased _ _ _ _ _ Hs Hg). split_and!; try done.
  - lia.
  - by eapply still_step.
Qed.
Lemma gate_kept endpoint t t' w n w' :
  relay_step endpoint t' w n w' → t ≤ t' → ww_gate w' = ww_gate w → gate_ok t w → gate_ok t' w'.
Proof.
  intros Hs Ht Hg H. unfold gate_ok in *. rewrite Hg. destruct (ww_gate w) eqn:He; try done.
  - eapply wake_allowed_step; eauto. by rewrite He.
  - eapply wake_allowed_step; eauto. by rewrite He.
  - eapply call_allowed_step; eauto. by rewrite He.
Qed.

Lemma selected_allowed t time order db d :
  (∀ l, order l ≡ₚ l) → (select time order db).2 = Some d →
  (∀ id r, db_routes db !! id = Some r → queue_origins t (db_erased db) id r) →
  wake_allowed t (select time order db).1 d.
Proof.
  intros Ho Hd Hor. pose proof (select_spec time order db Ho) as Hsp. rewrite Hd in Hsp.
  destruct Hsp as ([[id r] [scope it]] & Hx & Hdue & -> & _).
  apply elem_of_queue_rows in Hx as [Hr Hit].
  assert (Hexp := stale_rows _ _ _ _ Hr _ _ Hit). pose proof Hr as Hr2. cbn in Hr2.
  apply update_all_Some in Hr2 as (r0 & Hr0 & <-). apply delete_all_Some in Hr0 as [Hr0 _].
  cbn in Hit. apply delete_all_Some in Hit as [Hit _].
  destruct (Hor id r0 Hr0 scope it Hit) as (wk & s & tm & Hi).
  exists it, wk, s, tm. split_and!; try done. intros r' Hr'.
  assert (db_routes (drop_stale_items time db) !! id = Some r') as Hr2 by exact Hr'.
  rewrite Hr in Hr2. injection Hr2 as <-. right. unfold row_due, deliverable in Hdue. cbn in Hdue.
  rewrite !andb_true_iff in Hdue. naive_solver.
Qed.
(** A ring that reaches the provider. *)
Lemma ring_granted id key w s time db pt :
  (ring_section id key w s time db).2 = Ok (Some pt) →
  ∃ saved, db_routes db !! id = Some saved
    ∧ rules_ring (rt_rules saved) (wk_scope w) (sender_tag id (se_identity s))
        (credential_tag id (se_credential s)) = true
    ∧ db_erased db !! display (se_identity s) = None
    ∧ rt_events (purge_route (λ _ x, x <=? time) saved) !! wk_event w = None
    ∧ (ring_section id key w s time db).1
      = upd_route id (set_ring_next time)
          (add_event id (wk_event w) (default 0 (wk_expires w) + 120) (purge_expired time db)).1.
Proof.
  unfold ring_section. destruct (db_routes db !! id) as [saved|] eqn:Hid; [|done].
  destruct (_ || negb (matches _ _)); [done|].
  destruct (_ || bool_decide _) eqn:Hok; [done|].
  destruct (rt_binding saved); [|done]. destruct (_ <=? time); [done|].
  destruct (bool_decide (is_Some (_ ≫= _))) eqn:Hev; [done|].
  destruct (_ || negb _); [done|]. intros _. exists saved.
  apply orb_false_iff in Hok as [Hok He]. apply negb_false_iff in Hok.
  apply bool_decide_eq_false in He, Hev. split_and!; try done; [by apply eq_None_not_Some|].
  apply eq_None_not_Some. intros Hx. apply Hev. cbn. by rewrite lookup_update_all, Hid.
Qed.
Lemma ring_allowed t id key input s time db pt provider :
  time ≤ t → ring_valid id input time = true → verify_sender id (rn_wake input) time = Ok s →
  (ring_section id key (rn_wake input) s time db).2 = Ok (Some pt) →
  call_allowed t (ring_section id key (rn_wake input) s time db).1 (ring_notice id input provider)
    id (wk_event (rn_wake input)) (default 0 (wk_expires (rn_wake input)) + 120).
Proof.
  intros Ht Hv Hs (saved & Hid & Hok & He & Hev & Hdb)%ring_granted. rewrite Hdb.
  exists input, s, time, provider. cbn [db_erased upd_route]. rewrite add_event_erased.
  split_and!; try done. intros r Hr. right.
  cbn in Hr. rewrite lookup_alter_eq in Hr. apply fmap_Some in Hr as (r1 & Hr1 & ->).
  apply add_event_queue in Hr1 as (r2 & Hr2 & _ & Hu). cbn in Hr2.
  apply update_all_Some in Hr2 as (r3 & Hr3 & <-). rewrite Hid in Hr3. injection Hr3 as <-.
  cbn in *. by rewrite Hu.
Qed.

Lemma gate_step endpoint t t' w n w' :
  relay_step endpoint t' w n w' → t ≤ t' → relay_inv t w → gate_ok t' w'.
Proof.
  intros Hs Ht [_ _ Ho _ Hg]. pose proof (gate_kept _ _ _ _ _ _ Hs Ht) as Hk.
  inversion Hs; subst; try (by apply Hk); try done.
  - unfold gate_ok, after_select, after_ring. cbn [ww_gate with_gate].
    destruct (select time order (ww_db w)).2 as [d|] eqn:Hd; [|done].
    apply (selected_allowed _ _ order); [done..|]. intros id r0 Hr0 scope it Hit.
    eapply originates_later; [exact Ht|]. by eapply Ho.
  - unfold gate_ok in *. rewrite H in Hg. cbn. eapply (wake_allowed_step _ _ _ w _ _ _ Hs); try done.
    by rewrite H.
  - unfold gate_ok, after_select, after_ring. cbn [ww_gate with_gate].
    destruct (ring_section id key (rn_wake input) s time (ww_db w)).2 as [[pt|]|] eqn:Hr; [|done..].
    by eapply ring_allowed.
Qed.

Lemma origins_step endpoint t t' w n w' :
  relay_step endpoint t' w n w' → t ≤ t' →
  (∀ id r, db_routes (ww_db w) !! id = Some r → queue_origins t (db_erased (ww_db w)) id r) →
  ∀ id r, db_routes (ww_db w') !! id = Some r → queue_origins t' (db_erased (ww_db w')) id r.
Proof.
  intros Hs Ht Ho id r' Hr'.
  assert (H : queue_origins t' (db_erased (ww_db w)) id r').
  { destruct (step_changes _ _ _ _ _ Hs id r' Hr') as [(r & Hr & Hc)|Hn].
    - eapply changes_origins; [exact Hc|]. intros scope it Hit.
      eapply originates_later; [exact Ht|]. by eapply Ho.
    - destruct Hn as (? & ? & ? & ? & ? & ? & _ & _ & _ & _ & _ & _ & ->).
      intros scope it. cbn. by rewrite lookup_empty. }
  destruct (step_erased _ _ _ _ _ Hs) as [->|(who & x & _ & _ & -> & Hf)]; [done|].
  intros scope it Hit. destruct (H scope it Hit) as (wk & s & tm & []). exists wk, s, tm.
  split; try done. rewrite lookup_insert_ne; [done|]. intros Heq%display_inj.
  destruct (Hf id r' Hr') as [_ Hq]. apply (Hq scope it Hit). by rewrite Heq.
Qed.

Lemma accounts_step endpoint t w n w' :
  relay_step endpoint t w n w' →
  (∀ who x, db_erased (ww_db w) !! display who = Some x → ∀ id r,
     db_routes (ww_db w) !! id = Some r → rt_account r ≠ Some (display who)) →
  ∀ who x, db_erased (ww_db w') !! display who = Some x → ∀ id r,
     db_routes (ww_db w') !! id = Some r → rt_account r ≠ Some (display who).
Proof.
  intros Hs Ha who x He id r' Hr'.
  assert (H : ∀ y, db_erased (ww_db w) !! display who = Some y → rt_account r' ≠ Some (display who)).
  { intros y Hy. destruct (step_changes _ _ _ _ _ Hs id r' Hr') as [(r & Hr & Hc)|Hn].
    - rewrite (changes_account _ _ _ _ _ _ Hc). by eapply Ha.
    - destruct Hn as (? & ? & ? & who2 & ? & ? & _ & _ & Hnone & _ & _ & _ & ->). cbn. congruence. }
  destruct (step_erased _ _ _ _ _ Hs) as [Heq|(who2 & x2 & _ & _ & Heq & Hf)]; rewrite Heq in He; [by eapply H|].
  destruct (decide (display who = display who2)) as [Hd|Hd].
  - rewrite Hd. apply (Hf id r' Hr').
  - rewrite lookup_insert_ne in He by done. by eapply H.
Qed.

Lemma pending_step endpoint t w n w' :
  relay_step endpoint t w n w' → nlen (ww_pending w) ≤ REGISTRATIONS → nlen (ww_pending w') ≤ REGISTRATIONS.
Proof.
  intros Hs Hp. destruct Hs; cbn; try done; try (rewrite H in Hp; unfold nlen in *;
    rewrite ?length_app in *; cbn in *; lia).
  unfold after_register. cbn [ww_pending with_pending]. destruct (register_section _ _ _ _ _ _ _).2 as [[c|]|]; [|done..].
  unfold nlen in *. cbn. lia.
Qed.

Lemma relay_inv_step endpoint t t' w n w' :
  relay_step endpoint t' w n w' → t ≤ t' → relay_inv t w → relay_inv t' w'.
Proof.
  intros Hs Ht Hi. pose proof (gate_step _ _ _ _ _ _ Hs Ht Hi) as Hg. destruct Hi as [H1 H2 H3 H4 _].
  split; [|by eapply pending_step|by eapply origins_step|by eapply accounts_step|done].
  by eapply relay_step_ok.
Qed.
Lemma relay_run_inv endpoint t0 w0 t w :
  relay_run endpoint t0 w0 t w → relay_inv t0 w0 → relay_inv t w.
Proof. intros Hr H0. induction Hr; [done|]. eapply relay_inv_step; eauto. Qed.
Lemma relaying_inv endpoint t w : relaying endpoint t w → relay_inv t w.
Proof.
  intros [t0 Hr]. eapply relay_run_inv; [exact Hr|]. by split.
Qed.

(** What the provider is given. *)
Lemma provider_given endpoint t w n w' :
  relay_step endpoint t w (Some n) w' →
  (∃ d quiet, ww_gate w = GateHushed d quiet ∧ n = wake_notice d quiet)
  ∨ (∃ id event until, ww_gate w = GateCalling n id event until)
  ∨ ∃ id challenge, n = NoticeChallenge id challenge.
Proof. intros Hs. inversion Hs; subst; eauto 7. Qed.

End WakeInv.

(** * Routes that keep their policy

    What holds of a route as long as it is not dropped and registered again, and of the rules
    and the queue of every route. *)


(** ** Rules and what they leave queued *)

(** Without a version there are no rules. *)
Definition versioned (u : Rules) : Prop := ru_version u = None → u = no_rules.
Definition queue_allowed (r : Route) : Prop :=
  versioned (rt_rules r)
  ∧ ∀ scope it, rt_queue r !! scope = Some it → rules_deliver (rt_rules r) scope it = true.

Lemma drops_deliver p u scope it :
  is_Some (ru_version u) → ru_authenticated u = Some (po_authenticated_senders p) →
  drops_sender p u it || drops_scope u scope || drops_credential u scope it
  = negb (rules_deliver u scope it).
Proof.
  intros Hv Ha. unfold drops_sender, drops_scope, drops_credential, rules_deliver.
  rewrite (bool_decide_eq_true_2 (is_Some (ru_version u))) by done. rewrite Ha. cbn [default andb].
  destruct (is_blocked u (it_sender it)), (it_sender it === None), (po_authenticated_senders p),
    (ru_scopes u !! scope) as [[]|], (no_scope u scope), (scope_open u scope),
    (version_introductions u); destruct (it_credential it) as [c|]; try done;
    by destruct (scope_sender u scope (Some c)).
Qed.

Lemma new_rules_authenticated p digest u :
  ru_authenticated (new_rules p digest u) = Some (po_authenticated_senders p).
Proof.
  unfold new_rules. set (b := Build_Rules _ _ _ _ _ _ _).
  assert (ru_authenticated b = Some (po_authenticated_senders p)) as Hb by done. clearbody b. revert b Hb.
  induction (po_scopes p) as [|s l IH]; intros b Hb; [done|]. by apply IH.
Qed.
Lemma new_rules_version p digest u :
  ru_version (new_rules p digest u)
  = Some {| pv_revision := po_revision p; pv_introductions := po_introductions p; pv_digest := digest |}.
Proof. unfold new_rules. by rewrite add_scopes_version. Qed.

Section WakeKept.
Context `{P : Platform} {U : UrlBase64} {SD : Serde DeviceCredential} {WS : WakeSerde}.

(** The queue a new policy leaves is what the new rules deliver. *)
Lemma policy_queue p digest r scope it :
  rt_queue (apply_policy p digest r) !! scope = Some it ↔
  rt_queue r !! scope = Some it ∧ rules_deliver (new_rules p digest (rt_rules r)) scope it = true.
Proof.
  unfold apply_policy. cbn zeta. cbn [rt_queue with_queue]. rewrite delete_all_Some.
  rewrite drops_deliver, negb_false_iff; [done| |apply new_rules_authenticated].
  rewrite new_rules_version. by eexists.
Qed.

(** What is admitted is deliverable. *)
Lemma admits_deliver u w tag cred au it :
  versioned u → admits u w tag cred = Some au → it_sender it = Some tag → it_credential it = Some cred →
  rules_deliver u (wk_scope w) it = true.
Proof.
  intros Hv Ha Ht Hc. unfold admits in Ha. unfold rules_deliver. rewrite Ht, Hc.
  destruct (negb _ || is_blocked u (Some tag)) eqn:H1; [done|].
  apply orb_false_iff in H1 as [H1 Hb]. rewrite Hb.
  assert (Hver : is_Some (ru_version u)).
  { destruct (ru_version u) eqn:E; [by eexists|]. rewrite (Hv E) in H1. done. }
  rewrite !bool_decide_eq_true_2 by (done || by eexists).
  rewrite bool_decide_eq_false_2 by done. unfold no_scope. cbn.
  destruct (ru_scopes u !! wk_scope w) as [[]|]; cbn in Ha |- *.
  - destruct (_ && _) in Ha; [done|].
    destruct (scope_open u (wk_scope w)); [done|]. cbn in Ha |- *.
    by destruct (bool_decide (_ ∈ ru_senders u)).
  - done.
  - by destruct (version_introductions u).
Qed.

Lemma retry_deliver u scope d it : rules_deliver u scope (retry_item d it) = rules_deliver u scope it.
Proof. unfold retry_item. by case_bool_decide. Qed.

Lemma change_allowed t g E id r r' : change t g E id r r' → queue_allowed r → queue_allowed r'.
Proof.
  intros Hc [Hv Hq]. destruct Hc as [| | | | | | | | | |p owner time _ _ _ _ _|w s au time Had|];
    try done; split; try done; cbn.
  - intros k v [Hk _]%delete_all_Some. by apply Hq.
  - intros k v. destruct (decide (k = scope)) as [->|Hne].
    + rewrite lookup_alter_eq. intros (v0 & Hv0 & ->)%fmap_Some. rewrite retry_deliver. by apply Hq.
    + rewrite lookup_alter_ne by done. apply Hq.
  - intros k v [Hk _]%map_lookup_filter_Some. by apply Hq.
  - unfold versioned. by rewrite new_rules_version.
  - intros k v Hk. by apply (policy_queue p _ r k v) in Hk as [_ ?].
  - by destruct au.
  - intros k v [[Hk _]|[-> [old ->]]]%admitted_queue.
    + destruct au; by apply Hq.
    + assert (rules_deliver (rt_rules r) (wk_scope w)
        (wake_item w (sender_tag id (se_identity s)) (credential_tag id (se_credential s)) time old) = true)
        by (destruct Had; by eapply admits_deliver).
      by destruct au.
Qed.

Lemma allowed_step endpoint t w n w' :
  relay_step endpoint t w n w' →
  (∀ id r, db_routes (ww_db w) !! id = Some r → queue_allowed r) →
  ∀ id r, db_routes (ww_db w') !! id = Some r → queue_allowed r.
Proof.
  intros Hs Ha id r' Hr'. destruct (step_changes _ _ _ _ _ Hs id r' Hr') as [(r & Hr & Hc)|Hn].
  - eapply changes_ind; [|exact Hc|by eapply Ha]. eauto using change_allowed.
  - destruct Hn as (? & ? & ? & ? & ? & ? & _ & _ & _ & _ & _ & _ & ->). split; [done|].
    intros k v. cbn. by rewrite lookup_empty.
Qed.
Lemma relaying_allowed endpoint t w id r :
  relaying endpoint t w → db_routes (ww_db w) !! id = Some r → queue_allowed r.
Proof.
  intros [t0 Hrun]. revert id r. induction Hrun as [|t w t' n w' _ IH _ Hs]; [|by eapply allowed_step].
  intros id r. cbn. rewrite fmap_empty. by rewrite lookup_empty.
Qed.

(** ** Runs that keep a route *)

(** The route has a policy, so it is not one that has just been registered. *)
Definition keeps (id : string) (w : World) (r : Route) : Prop :=
  db_routes (ww_db w) !! id = Some r ∧ ru_version (rt_rules r) ≠ None.
Inductive kept_run (endpoint id : string) (t0 : N) (w0 : World) : N → World → Prop :=
| kept_start r : keeps id w0 r → kept_run endpoint id t0 w0 t0 w0
| kept_next t w t' n w' r :
    kept_run endpoint id t0 w0 t w → t ≤ t' → relay_step endpoint t' w n w' → keeps id w' r →
    kept_run endpoint id t0 w0 t' w'.

Lemma kept_time endpoint id t0 w0 t w : kept_run endpoint id t0 w0 t w → t0 ≤ t.
Proof. induction 1; lia. Qed.

Lemma kept_relaying endpoint id t0 w0 t w :
  relaying endpoint t0 w0 → kept_run endpoint id t0 w0 t w → relaying endpoint t w.
Proof.
  intros Hr Hrun. induction Hrun as [|t w t' n w' r _ IH Ht Hs _]; [done|].
  destruct IH as [t1 H1]. exists t1. by eapply rrun_next.
Qed.

Lemma kept_step endpoint id t w n w' r' :
  relay_step endpoint t w n w' → keeps id w' r' →
  ∃ r, db_routes (ww_db w) !! id = Some r
     ∧ changes t (ww_gate w) (db_erased (ww_db w)) id r r'.
Proof.
  intros Hs [Hr' Hv]. destruct (step_changes _ _ _ _ _ Hs id r' Hr') as [H|Hn]; [done|].
  destruct Hn as (? & ? & ? & ? & ? & ? & _ & _ & _ & _ & _ & _ & ->). done.
Qed.

(** A relation to the route at the start that every change keeps. *)
Lemma kept_relation (Q : Route → Route → Prop) endpoint id t0 w0 t w r0 r :
  (∀ x, Q x x) → (∀ x y z, Q x y → Q y z → Q x z) →
  (∀ t g E x y, changes t g E id x y → Q x y) →
  kept_run endpoint id t0 w0 t w → db_routes (ww_db w0) !! id = Some r0 →
  db_routes (ww_db w) !! id = Some r → Q r0 r.
Proof.
  intros Hrefl Htr Hch Hrun H0. revert r.
  induction Hrun as [r1 _|t w t' n w' r1 _ IH _ Hs Hk]; intros r Hr; [by simplify_eq|].
  destruct Hk as [Hk1 Hk2]. rewrite Hr in Hk1. injection Hk1 as <-.
  destruct (kept_step _ _ _ _ _ _ _ Hs (conj Hr Hk2)) as (x & Hx & Hc).
  eapply Htr; [by apply IH|]. by eapply Hch.
Qed.

(** ** Events in the ledger *)

(** The gate has nothing to do with the event. *)
Definition gate_clear (id event : string) (g : Gate) : Prop :=
  match g with
  | GateFree => True
  | GateSelected d | GateHushed d _ | GateSent d => dl_route d = id → dl_event d ≠ event
  | GateCalling _ id' e _ | GateCalled id' e _ => id' = id → e ≠ event
  end.
Definition spent (id event : string) (x : N) (r : Route) : Prop :=
  rt_events r !! event = Some x
  ∧ ∀ scope it, rt_queue r !! scope = Some it → it_event it ≠ event.

Lemma event_of_sender_false who id r event x :
  (∀ scope it, rt_queue r !! scope = Some it → it_event it ≠ event) →
  event_of_sender who id r event x = false.
Proof.
  intros Hq. unfold event_of_sender. destruct (existsb _ _) eqn:H; [|done].
  apply existsb_exists in H as (it & Hin & Hb). apply andb_true_iff in Hb as [_ Hb].
  apply bool_decide_eq_true in Hb. apply list_elem_of_In, list_elem_of_fmap in Hin as ([k v] & -> & Hkv).
  apply elem_of_map_to_list in Hkv. by destruct (Hq k v Hkv).
Qed.

Lemma change_spent t g E id r r' event x :
  change t g E id r r' → t < x → gate_clear id event g → spent id event x r → spent id event x r'.
Proof.
  intros Hc Ht Hg [He Hq]. destruct Hc as [| |time Htm| | | | |who|e y Hnew|e u Hgc| |w s au time Had|];
    try done; (split; cbn; [try exact He|try exact Hq]).
  - apply delete_all_Some. split; [done|]. apply N.leb_gt. lia.
  - intros k v [Hk _]%delete_all_Some. by eapply Hq.
  - intros k v. destruct (decide (k = scope)) as [->|Hne].
    + rewrite lookup_alter_eq. intros (v0 & Hv0 & ->)%fmap_Some. unfold retry_item.
      case_bool_decide; cbn; by apply (Hq scope).
    + rewrite lookup_alter_ne by done. apply Hq.
  - apply delete_all_Some. split; [done|]. by apply event_of_sender_false.
  - intros k v [Hk _]%map_lookup_filter_Some. by eapply Hq.
  - rewrite lookup_insert_ne; [done|]. congruence.
  - apply delete_all_Some. split; [done|]. apply bool_decide_eq_false. intros <-.
    rewrite Hgc in Hg. by apply Hg.
  - intros k v [Hk _]%delete_all_Some. by eapply Hq.
  - assert (wk_event w ≠ event) by (intros <-; rewrite (ad_new _ _ _ _ _ _ _ _ Had) in He; done).
    unfold admitted. destruct au; cbn; by rewrite lookup_insert_ne.
  - intros k v [[Hk _]|[-> [old ->]]]%admitted_queue; [by eapply Hq|]. cbn. intros <-.
    by rewrite (ad_new _ _ _ _ _ _ _ _ Had) in He.
Qed.

Lemma spent_gate endpoint t w n w' id event x r :
  relay_step endpoint t w n w' → t < x → gate_clear id event (ww_gate w) →
  db_routes (ww_db w) !! id = Some r → spent id event x r → gate_clear id event (ww_gate w').
Proof.
  intros Hs Ht Hg Hr [He Hq]. destruct Hs; try exact I; try (by rewrite H in Hg);
    cbn [ww_gate with_db with_gate with_pending]; try exact Hg.
  - unfold after_select, after_ring. cbn [ww_gate with_gate]. destruct (select time order (ww_db w)).2 as [d|] eqn:Hd; [|done].
    pose proof (select_spec time order (ww_db w) H1) as Hsp. rewrite Hd in Hsp.
    destruct Hsp as ([[id2 r2] [scope it]] & Hx & _ & -> & _). cbn. intros ->.
    apply elem_of_queue_rows in Hx as [Hr2 Hit]. cbn in Hr2.
    apply update_all_Some in Hr2 as (r3 & Hr3 & <-). apply delete_all_Some in Hr3 as [Hr3 _].
    cbn in Hit. apply delete_all_Some in Hit as [Hit _]. rewrite Hr in Hr3. injection Hr3 as <-.
    by eapply Hq.
  - unfold after_select, after_ring. cbn [ww_gate with_gate]. destruct (ring_section id0 key (rn_wake input) s time (ww_db w)).2 as [[pt|]|] eqn:Hrs; [|done..].
    cbn. intros -> <-. apply ring_granted in Hrs as (saved & Hsv & _ & _ & Hev & _).
    rewrite Hr in Hsv. injection Hsv as <-. revert Hev. apply not_eq_None_Some. exists x.
    apply delete_all_Some. split; [done|]. apply N.leb_gt. lia.
Qed.

(** An event of the ledger that is not queued stays so, until the ledger forgets it. *)
Lemma kept_spent endpoint id event x t0 w0 t w :
  kept_run endpoint id t0 w0 t w → t < x → gate_clear id event (ww_gate w0) →
  (∃ r, db_routes (ww_db w0) !! id = Some r ∧ spent id event x r) →
  gate_clear id event (ww_gate w) ∧ ∃ r, db_routes (ww_db w) !! id = Some r ∧ spent id event x r.
Proof.
  intros Hrun Hx Hg H0. induction Hrun as [|t w t' n w' r' _ IH Ht Hs Hk]; [done|].
  destruct IH as [Hg' (r & Hr & Hsp)]; [lia|].
  split; [by eapply spent_gate|]. destruct (kept_step _ _ _ _ _ _ _ Hs Hk) as (r1 & Hr1 & Hc).
  rewrite Hr in Hr1. injection Hr1 as <-. exists r'. split; [apply Hk|].
  eapply (changes_ind _ _ _ _ (spent id event x)); [|exact Hc|done]. intros a b Ha Hb.
  by eapply change_spent.
Qed.

End WakeKept.
