(* ===== verification/WakeTheorems.v ===== *)
(** * Theorems about the wake relay

    Of the relay as it runs ([relaying]): its limits, what it hands to the push provider, what
    an erased account leaves, and what a route keeps. *)

From S2P Require Import Prelude Sums Platform Ids Record Chat Identity WakeWire WakeRelay WakeDelivery WakeFacts WakeChanges WakeInv.

Section WakeTheorems.
Context `{P : Platform} {U : UrlBase64} {SD : Serde DeviceCredential} {WS : WakeSerde}.

(** However the requests interleave, the relay holds at most 10000 routes (64 of them
    unconfirmed, 16 of one account, 8 of one device token), 4096 events and 64 queued wakes of
    one route, 8192 events of one account and 890000 events in all; at most four challenges are
    on their way, and the counters the limits are checked against are the numbers of rows. *)
Theorem relay_limits endpoint t w :
  relaying endpoint t w →
  let db := ww_db w in
  N.of_nat (size (db_routes db)) ≤ 10000
  ∧ pending_routes (db_routes db) ≤ 64
  ∧ (∀ who, routes_of_account who (db_routes db) ≤ 16 ∧ account_events who (db_routes db) ≤ 8192)
  ∧ (∀ token, routes_of_token token (db_routes db) ≤ 8)
  ∧ (∀ id r, db_routes db !! id = Some r →
       N.of_nat (size (rt_events r)) ≤ 4096 ∧ N.of_nat (size (rt_queue r)) ≤ 64
       ∧ event_count_of r = Z.of_nat (size (rt_events r)))
  ∧ events_in (db_routes db) ≤ 890000 ∧ db_event_total db = Z.of_N (events_in (db_routes db))
  ∧ nlen (ww_pending w) ≤ 4.
Proof.
  intros H%relaying_inv. destruct H as [[[L1 L2 L3 L4 L5 L6 L7] [C1 C2]] Hp _ _ _]. cbn zeta.
  split_and!; try done.
  - intros id r Hr. destruct (L5 id r Hr). specialize (C1 id r Hr). unfold event_size, queue_size in *.
    split_and!; lia.
  - assert (events_in (db_routes (ww_db w))
            ≤ sum_over (λ _ r, excess r) (db_routes (ww_db w)) + sum_over (λ _ _, 64) (db_routes (ww_db w))).
    { rewrite <-sum_over_plus. apply sum_over_le. intros k v Hk. exists v. split; [done|].
      unfold excess, event_size. lia. }
    pose proof (sum_over_bound (λ _ _, 64) (db_routes (ww_db w)) 64 ltac:(done)). lia.
Qed.

(** C9. A wake handed to the push provider was proved, for this route and with this event, scope,
    target and category, by a credential of a sender whose account has not been erased; its
    deadline had not passed when it was selected, and the rules the route has now, if it was
    not registered anew in the meantime, still allow that sender and credential. *)
Theorem wake_notice_allowed endpoint t t' w w' id scope event category target quiet deadline :
  relaying endpoint t w → t ≤ t' →
  relay_step endpoint t' w (Some (NoticeWake id scope event category target quiet deadline)) w' →
  ∃ wk s time it selected,
    wake_valid wk time = true ∧ verify_sender id wk time = Ok s ∧ time ≤ t'
    ∧ wk_scope wk = scope ∧ wk_event wk = event ∧ wk_target wk = target ∧ wk_category wk = category
    ∧ db_erased (ww_db w) !! display (se_identity s) = None
    ∧ selected < default (time + 86400) (wk_expires wk)
    ∧ it_sender it = Some (sender_tag id (se_identity s))
    ∧ it_credential it = Some (credential_tag id (se_credential s))
    ∧ ∀ r, db_routes (ww_db w) !! id = Some r →
        rt_rules r = no_rules ∨ rules_deliver (rt_rules r) scope it = true.
Proof.
  intros Hr%relaying_inv Ht Hs. destruct Hr as [_ _ _ _ Hg]. unfold gate_ok in Hg.
  destruct (provider_given _ _ _ _ _ Hs) as [(d & q & He & Hn)|[(i & e & u & He)|(i & c & [=])]];
    rewrite He in Hg; [|by destruct Hg as (? & ? & ? & ? & ? & _)].
  destruct Hg as (it & wk & s & time & Ho & H1 & H2 & H3 & H4 & H5 & Ha).
  injection Hn as -> -> -> -> -> _ _. destruct Ho. exists wk, s, time, it, (dl_time d).
  split_and!; try done; try congruence; try lia.
Qed.

(** A call handed to the push provider was proved by a sender whose account has not been
    erased, for this route and target, less than a minute before its deadline; the rules the
    route has now name that sender's credential for an enabled scope and do not block it. *)
Theorem ring_notice_allowed endpoint t t' w w' id call invitation target deadline voip sandbox :
  relaying endpoint t w → t ≤ t' →
  relay_step endpoint t' w (Some (NoticeRing id call invitation target deadline voip sandbox)) w' →
  ∃ input s time,
    ring_valid id input time = true ∧ verify_sender id (rn_wake input) time = Ok s ∧ time ≤ t'
    ∧ rn_call_id input = call ∧ rn_invitation_id input = invitation
    ∧ wk_target (rn_wake input) = target ∧ wk_expires (rn_wake input) = Some deadline
    ∧ time < deadline ≤ time + 60
    ∧ db_erased (ww_db w) !! display (se_identity s) = None
    ∧ ∀ r, db_routes (ww_db w) !! id = Some r → rt_rules r = no_rules
        ∨ rules_ring (rt_rules r) (wk_scope (rn_wake input)) (sender_tag id (se_identity s))
            (credential_tag id (se_credential s)) = true.
Proof.
  intros Hr%relaying_inv Ht Hs. destruct Hr as [_ _ _ _ Hg]. unfold gate_ok in Hg.
  destruct (provider_given _ _ _ _ _ Hs) as [(d & q & He & [=])|[(i & e & u & He)|(i & c & [=])]].
  rewrite He in Hg. destruct Hg as (input & s & time & pr & Hn & _ & _ & H1 & H2 & H3 & H4 & Ha).
  unfold ring_notice in Hn. injection Hn as -> -> -> -> Hd _ _.
  pose proof H2 as Hv. unfold ring_valid in Hv. rewrite !andb_true_iff in Hv. destruct Hv as [_ Hx].
  exists input, s, time. destruct (wk_expires (rn_wake input)) as [x|]; [|done]. cbn in Hd. subst.
  rewrite andb_true_iff, N.ltb_lt, N.leb_le in Hx. split_and!; try done; lia.
Qed.

(** C15. While a route keeps its policy, an event its ledger holds until [x] and that is queued no
    more, because it was delivered or read, is not handed to the push provider again before
    [x]: no retried request, restart or interleaving brings it back, and no call rings for it. *)
Theorem event_delivered_once endpoint id event x t0 w0 r0 t w t' n w' :
  relaying endpoint t0 w0 → db_routes (ww_db w0) !! id = Some r0 → rt_events r0 !! event = Some x →
  (∀ scope it, rt_queue r0 !! scope = Some it → it_event it ≠ event) → ww_gate w0 = GateFree →
  kept_run endpoint id t0 w0 t w → t ≤ t' → t' < x → relay_step endpoint t' w n w' →
  (∀ scope category target quiet deadline,
     n ≠ Some (NoticeWake id scope event category target quiet deadline))
  ∧ ∀ ring until, ww_gate w' ≠ GateCalling ring id event until.
Proof.
  intros Hrel Hr0 He Hq Hg Hrun Ht Hx Hs.
  destruct (kept_spent _ _ event x _ _ _ _ Hrun) as [Hgc (r & Hr & Hsp)].
  { lia. } { by rewrite Hg. } { by exists r0. }
  assert (Hg2 := spent_gate _ _ _ _ _ _ _ _ _ Hs Hx Hgc Hr Hsp). split.
  - intros scope category target quiet deadline ->.
    destruct (provider_given _ _ _ _ _ Hs) as [(d & q & Hd & Hn)|[(i & e & u & Hd)|(i & c & [=])]].
    + rewrite Hd in Hgc. injection Hn as -> _ -> _ _ _ _. by apply Hgc.
    + pose proof (ri_gate _ _ (relaying_inv _ _ _ (kept_relaying _ _ _ _ _ _ Hrel Hrun))) as Hi.
      unfold gate_ok in Hi. rewrite Hd in Hi. by destruct Hi as (? & ? & ? & ? & Hn & _).
  - intros ring until Heq. rewrite Heq in Hg2. by apply Hg2.
Qed.

(** C22. An account's deletion is final: it stays deleted with the same request, no route is bound
    to it, every wake still queued was proved by another sender, and registering a route for it
    is refused with nothing changed. *)
Theorem erased_stays_erased endpoint t0 w0 t w who x :
  relaying endpoint t0 w0 → db_erased (ww_db w0) !! display who = Some x →
  relay_run endpoint t0 w0 t w →
  db_erased (ww_db w) !! display who = Some x
  ∧ (∀ id r, db_routes (ww_db w) !! id = Some r →
       rt_account r ≠ Some (display who)
       ∧ ∀ scope it, rt_queue r !! scope = Some it → ∃ wk s time,
           verify_sender id wk time = Ok s ∧ wk_scope wk = scope ∧ wk_event wk = it_event it
           ∧ se_identity s ≠ who)
  ∧ ∀ id owner input draw time,
      register_section id who owner input draw time (ww_db w) = (ww_db w, Err GONE).
Proof.
  intros Hrel Hx Hrun.
  assert (Hkeep : db_erased (ww_db w) !! display who = Some x).
  { clear Hrel. induction Hrun as [|t w t' n w' _ IH _ Hs]; [done|].
    destruct (step_erased _ _ _ _ _ Hs) as [->|(who2 & y & _ & Hnone & -> & _)]; [done|].
    rewrite lookup_insert_ne; [done|]. congruence. }
  assert (Hi : relay_inv t w) by (eapply relay_run_inv; [done|by eapply relaying_inv]).
  destruct Hi as [_ _ Ho Ha _]. split; [done|]. split.
  - intros id r Hr. split; [by eapply Ha|]. intros scope it Hit.
    destruct (Ho id r Hr scope it Hit) as (wk & s & time & []). exists wk, s, time.
    split_and!; try done. intros Heq. congruence.
  - intros. unfold register_section. by rewrite Hkeep.
Qed.

(** Everything queued is what the present rules of its route allow, so the conditions of the
    delivery query never hold a row back, and a new policy leaves exactly the rows it allows. *)
Theorem queue_always_allowed endpoint t w id r :
  relaying endpoint t w → db_routes (ww_db w) !! id = Some r →
  (∀ scope it, rt_queue r !! scope = Some it →
     rules_deliver (rt_rules r) scope it = true
     ∧ ∀ time, deliverable time r scope it
         = ro_active (rt_row r) && (it_next it <=? time) && (ro_next_send (rt_row r) <=? time))
  ∧ ∀ p digest scope it,
      rt_queue (apply_policy p digest r) !! scope = Some it ↔
      rt_queue r !! scope = Some it ∧ rules_deliver (new_rules p digest (rt_rules r)) scope it = true.
Proof.
  intros Hrel Hr. split; [|intros; apply policy_queue].
  destruct (relaying_allowed _ _ _ _ _ Hrel Hr) as [_ Hq]. intros scope it Hit.
  assert (Hd := Hq scope it Hit). split; [done|]. intros time. unfold deliverable. rewrite Hd.
  by rewrite andb_true_r.
Qed.

(** After a sender the rules do not name has been admitted to a route, no other such sender
    is for five minutes, as long as the route keeps its policy: its wake changes nothing. *)
Theorem untrusted_budget endpoint id key1 wk1 s1 time1 db0 r1 t0 w0 t w r key2 wk2 s2 time2 :
  wake_valid wk1 time1 = true → verify_sender id wk1 time1 = Ok s1 →
  db_routes db0 !! id = Some r1 →
  admits (rt_rules r1) wk1 (sender_tag id (se_identity s1)) (credential_tag id (se_credential s1))
    = Some false →
  ww_db w0 = (wake_section id key1 wk1 time1 db0).1 → ww_db w0 ≠ db0 →
  kept_run endpoint id t0 w0 t w → db_routes (ww_db w) !! id = Some r →
  wake_valid wk2 time2 = true → verify_sender id wk2 time2 = Ok s2 →
  admits (rt_rules r) wk2 (sender_tag id (se_identity s2)) (credential_tag id (se_credential s2))
    = Some false →
  time2 < time1 + 300 →
  (wake_section id key2 wk2 time2 (ww_db w)).1 = ww_db w.
Proof.
  intros Hv1 Hs1 Hr1 Ha1 Hdb Hne Hrun Hr Hv2 Hs2 Ha2 Hlt.
  destruct (wake_outcome id key1 wk1 time1 db0 Hv1) as [Heq|(r1' & s & au & Hr1' & _ & Had & Hm)];
    [congruence|].
  rewrite Hr1 in Hr1'. injection Hr1' as <-. rewrite <-Hdb in Hm.
  assert (Hau : au = false).
  { pose proof (ad_rules _ _ _ _ _ _ _ _ Had) as Hru. pose proof (ad_sender _ _ _ _ _ _ _ _ Had) as Hse.
    rewrite Hs1 in Hse. injection Hse as <-. cbn in Hru. congruence. }
  subst au.
  assert (Hb : budget (admitted id (purge_route (λ _ x, x <=? time1) r1) wk1 s false time1) ≤ budget r).
  { eapply (kept_relation (λ a b, budget a ≤ budget b)); [..|exact Hrun| |exact Hr];
      [done|intros; lia|intros; by eapply changes_budget|]. rewrite Hm. apply lookup_insert_eq. }
  assert (Hb2 : time1 + 300 ≤ budget r) by (etrans; [|exact Hb]; done).
  destruct (wake_outcome id key2 wk2 time2 (ww_db w) Hv2) as [Heq|(r2 & s' & au & Hr2 & _ & Had2 & _)];
    [done|].
  rewrite Hr in Hr2. injection Hr2 as <-. exfalso.
  pose proof (ad_sender _ _ _ _ _ _ _ _ Had2) as Hse. rewrite Hs2 in Hse. injection Hse as <-.
  pose proof (ad_rules _ _ _ _ _ _ _ _ Had2) as Hru. cbn in Hru. rewrite Ha2 in Hru. injection Hru as <-.
  pose proof (ad_budget _ _ _ _ _ _ _ _ Had2 eq_refl) as Hw. apply untrusted_waits_false in Hw.
  change (budget (purge_route _ r)) with (budget r) in Hw. lia.
Qed.

(** A route that keeps its policy never goes back to an older one: its rules are the same, or
    those of a later revision, whatever requests are replayed. *)
Theorem recipient_policy_forward endpoint id t0 w0 t w r0 r :
  kept_run endpoint id t0 w0 t w →
  db_routes (ww_db w0) !! id = Some r0 → db_routes (ww_db w) !! id = Some r →
  rt_rules r = rt_rules r0 ∨ (rules_revision (rt_rules r0) < rules_revision (rt_rules r))%Z.
Proof.
  intros Hrun H0 Hr.
  refine (kept_relation (λ a b, forward (rt_rules a) (rt_rules b)) _ _ _ _ _ _ _ _ _ _ _ Hrun H0 Hr).
  - by left.
  - intros a b c. apply forward_trans.
  - intros. by eapply changes_forward.
Qed.

(** Whatever order the database scans the queue in, the worker is given no row exactly when
    none is due, and otherwise one that is due and that no due row precedes by time and route. *)
Theorem select_first_due time order db :
  (∀ l, order l ≡ₚ l) →
  let db' := (select time order db).1 in
  let due id r scope it :=
    db_routes db' !! id = Some r ∧ rt_queue r !! scope = Some it ∧ deliverable time r scope it = true in
  match (select time order db).2 with
  | None => ∀ id r scope it, ¬ due id r scope it
  | Some d => ∃ id r scope it, due id r scope it ∧ d = delivery_of time (id, r, (scope, it))
      ∧ time < dl_expires d
      ∧ ∀ id' r' scope' it', due id' r' scope' it' →
          it_next it < it_next it' ∨ it_next it = it_next it' ∧ String.le id id'
  end.
Proof.
  intros Ho. cbn zeta. pose proof (select_spec time order db Ho) as Hsp.
  change (select time order db).1 with (drop_stale_items time db).
  destruct (select time order db).2 as [d|].
  - destruct Hsp as ([[id r] [scope it]] & Hx & Hd & -> & Hmin). apply elem_of_queue_rows in Hx as [Hr Hit].
    exists id, r, scope, it. split; [done|]. split; [done|]. split; [by eapply stale_rows|].
    intros id' r' scope' it' (Hr' & Hit' & Hd').
    assert (Hin : (id', r', (scope', it')) ∈ queue_rows (drop_stale_items time db))
      by by apply elem_of_queue_rows.
    specialize (Hmin _ Hin Hd'). by apply row_before_false in Hmin.
  - intros id r scope it (Hr & Hit & Hd).
    assert (Hin : (id, r, (scope, it)) ∈ queue_rows (drop_stale_items time db))
      by by apply elem_of_queue_rows.
    apply Hsp in Hin. unfold row_due in Hin. cbn in Hin. congruence.
Qed.

End WakeTheorems.
