(* ===== verification/WakeWorld.v ===== *)
(** * A concrete relay

    A device registers a route and sets its policy; a sender the policy names and one it does
    not wake it, a call rings, and the named sender deletes its account. Every step is evaluated
    through the definitions of the relay, over a variant of the concrete platform. *)

From S2P Require Import Prelude Sums Platform Ids Toy Record Chat Identity WakeWire WakeRelay WakeDelivery WakeFacts WakeChanges WakeInv WakeTheorems.

Module Relay.

(** ** The platform, with account bindings among the documents *)

Definition platform_of (documents : string → json) : Platform := {|
  sha256 := Toy.digest;
  ed25519_valid k := bool_decide (String.length k = 32%nat);
  ed25519_weak k := false;
  ed25519_verifying_key k := k;
  ed25519_sign k m := Toy.pad 64 k;
  ed25519_verify_strict k m s := bool_decide (s = Toy.pad 64 k);
  base64_encode s := s;
  base64_decode s := Some s;
  json_from_slice s := Some (documents s);
  age_recipient_parse s := Some s;
  url_parse s := None;
|}.
#[local] Instance plain_platform : Platform := platform_of Toy.document.

Definition route_id : string := "000102030405060708090a0b0c0d0e0f".
Definition endpoint : string := "https://push".
Definition token : string := "device-token-0123456789".
Definition issued : N := 100000.
Definition binding_document (s : string) : json :=
  JMap [("v", JU64 1); ("kind", JStr "account.route"); ("endpoint", JStr endpoint);
        ("route", JStr route_id); ("token", JStr (display (object_of_ciphertext token)));
        ("issued", JU64 issued); ("tag", JStr s)].
Definition document (s : string) : json :=
  if s === "{1b}" then binding_document s else Toy.document s.
Definition relay_platform : Platform := platform_of document.
End Relay.

Module RelayRun.
Import Relay.
#[local] Existing Instance relay_platform.

#[export] Instance plain_base64 : UrlBase64 :=
  {| url_base64_encode s := s; url_base64_decode s := Some s |}.

(** ** Accounts *)

Definition rec (text key : string) : SignedRecord :=
  {| sr_bytes := frame text (Toy.pad 64 key);
     sr_body := default VNull (strict (document text)) |}.
Definition phone_key : string := Toy.pad 32 "phone".
Definition friend_key : string := Toy.pad 32 "friend".
Definition stranger_key : string := Toy.pad 32 "stranger".
Definition credential_body (root key : string) : DeviceCredential :=
  {| dc_v := 1; dc_kind := "device.credential"; dc_nonce := display (Toy.pad 16 "n");
     dc_identity_id := identity_of_root_key root; dc_root_public_key := display root;
     dc_signing_public_key := display key; dc_age_recipient := "age";
     dc_authorizing_device := None |}.
(** The recipient, a friend of its, and another device of the recipient that the policy does
    not name. *)
#[export] Instance credentials_serde : Serde DeviceCredential :=
  Toy.table (λ _, "!")
    [("{1c}", credential_body Toy.root_key phone_key);
     ("{1g}", credential_body Toy.guest_key friend_key);
     ("{3d}", credential_body Toy.root_key stranger_key)].
Definition no_credential : VerifiedCredential :=
  {| vc_record := rec "{}" ""; vc_body := credential_body "" ""; vc_key := ""; delegation_depth := 0 |}.
Definition credential_of (text root : string) : VerifiedCredential :=
  from_ok no_credential (Identity.verify (sr_bytes (rec text root)) root).
Definition phone : VerifiedCredential := credential_of "{1c}" Toy.root_key.
Definition friend : VerifiedCredential := credential_of "{1g}" Toy.guest_key.
Definition stranger : VerifiedCredential := credential_of "{3d}" Toy.root_key.

(** ** Requests *)

Definition hex64 (c : string) : string := String.concat "" (replicate 64 c).
Definition scope : string := hex64 "5".
Definition event : string := hex64 "e".
Definition greeting : string := hex64 "a".
Definition second_greeting : string := hex64 "b".
Definition call_event : string := hex64 "c".
Definition target : string := hex64 "t".
Definition owner_secret : string := hex64 "0".
Definition notify_key : string := hex64 "1".
Definition proof_of (wk : Wake) : SenderProof := sender_proof route_id wk 110.
Definition plain_wake (event category : string) (expires : option N) : Wake :=
  {| wk_event := event; wk_scope := scope; wk_target := target; wk_category := category;
     wk_expires := expires; wk_sender := None |}.
Definition sent (c key text : string) (wk : Wake) : Wake :=
  {| wk_event := wk_event wk; wk_scope := wk_scope wk; wk_target := wk_target wk;
     wk_category := wk_category wk; wk_expires := wk_expires wk;
     wk_sender := Some (VObject [("credential", VString c);
                                 ("proof", VString (sr_bytes (rec text key)))]) |}.
Definition deletion : AccountCommand :=
  {| ac_v := 1; ac_kind := "account.deletion"; ac_endpoint := endpoint +:+ WAKE_PATH;
     ac_nonce := display (Toy.pad 16 "nonce"); ac_issued := 120000; ac_action := Submit;
     ac_confirmed := true |}.
#[export] Instance wake_serde : WakeSerde := {|
  serde_sender_proof := Toy.table (λ _, "!")
    [("{1p}", proof_of (plain_wake event "message" None));
     ("{1q}", proof_of (plain_wake greeting "message" None));
     ("{1r}", proof_of (plain_wake second_greeting "message" None));
     ("{1s}", proof_of (plain_wake call_event "call_ring" (Some 160)))];
  serde_account_command := Toy.table (λ _, "!") [("{1x}", deletion)];
  json_policy := {| to_json p := be_bytes 8 (Z.to_N (po_revision p)); from_json _ := None |};
|}.

Definition registration : Registration :=
  {| rg_token := token; rg_notify_key := notify_key;
     rg_binding := {| aq_record := sr_bytes (rec "{1b}" phone_key);
                      aq_credential := sr_bytes (rec "{1c}" Toy.root_key) |} |}.
Definition header (key : string) : option string := Some ("Bearer " +:+ key).
Definition draw : option string := Some (Toy.pad 32 "random").
Definition challenge : string := encode_hex (Toy.pad 32 "random").
Definition who : IdentityId := vc_identity phone.
Definition policy (revision : Z) : Policy :=
  {| po_revision := revision; po_introductions := false;
     po_scopes := [{| sr_scope := scope; sr_enabled := true; sr_alert_once := true;
                      sr_senders := [credential_tag route_id (vc_id friend)];
                      sr_allow_unknown := true |}];
     po_authenticated_senders := true; po_blocked_senders := []; po_notify_key := None |}.

(** The friend's wake, two of the stranger, and the friend's call. *)
Definition friend_cred : string := sr_bytes (rec "{1g}" Toy.guest_key).
Definition stranger_cred : string := sr_bytes (rec "{3d}" Toy.root_key).
Definition friendly : Wake := sent friend_cred friend_key "{1p}" (plain_wake event "message" None).
Definition strange : Wake := sent stranger_cred stranger_key "{1q}" (plain_wake greeting "message" None).
Definition strange2 : Wake :=
  sent stranger_cred stranger_key "{1r}" (plain_wake second_greeting "message" None).
Definition calling : RingRequest :=
  {| rn_wake := sent friend_cred friend_key "{1s}" (plain_wake call_event "call_ring" (Some 160));
     rn_call_id := route_id; rn_invitation_id := route_id |}.
Definition binding : BindingRequest :=
  {| br_provider := "fcm"; br_token := None; br_sandbox := false |}.
Definition goodbye : AccountRequest :=
  {| aq_record := sr_bytes (rec "{1x}" friend_key); aq_credential := friend_cred |}.
Definition no_sender : Sender := {| se_identity := ""; se_credential := "" |}.
Definition sender_of (wk : Wake) : Sender := from_ok no_sender (verify_sender route_id wk 110).

Example registration_Ok :
  register_request endpoint route_id (header owner_secret) registration 100 = Ok (who, owner_secret).
Proof. vm_compute. reflexivity. Qed.
Example friendly_Ok : is_ok (verify_sender route_id friendly 110) = true.
Proof. vm_compute. reflexivity. Qed.
Example strange_Ok : is_ok (verify_sender route_id strange 110) = true.
Proof. vm_compute. reflexivity. Qed.
Example calling_Ok : is_ok (verify_sender route_id (rn_wake calling) 110) = true.
Proof. vm_compute. reflexivity. Qed.
Example goodbye_Ok : is_ok (erase_request endpoint goodbye 120000) = true.
Proof. vm_compute. reflexivity. Qed.

(** ** The relay, step by step *)

Definition world0 : World := fresh_relay.
(** 100: the phone registers, gets its challenge and confirms. *)
Definition world1 : World := after_register world0 route_id who owner_secret registration draw 100.
Definition world2 : World := with_pending world1 (ww_db world1) [].
Definition world3 : World :=
  with_db world2 (confirm_section route_id owner_secret challenge 101 (ww_db world2)).1.
(** 105: its policy and where calls ring. *)
Definition world4 : World :=
  with_db world3 (policy_section route_id owner_secret (policy 1) 105 (ww_db world3)).1.
Definition world5 : World :=
  with_db world4 (bind_section route_id owner_secret binding 106 (ww_db world4)).1.
(** 110: a stranger greets, and the worker selects the greeting. *)
Definition world6 : World :=
  with_db world5 (wake_section route_id notify_key strange 110 (ww_db world5)).1.
Definition world7 : World := after_select world6 113 (λ l, l).
(** Before the worker looks whether to stay quiet, the friend's message takes its place. *)
Definition world8 : World :=
  with_db world7 (wake_section route_id notify_key friendly 113 (ww_db world7)).1.
Definition no_delivery : Delivery :=
  {| dl_route := ""; dl_scope := ""; dl_event := ""; dl_target := ""; dl_token := "";
     dl_failures := 0; dl_category := ""; dl_expires := 0; dl_time := 0 |}.
Definition picked : Delivery := default no_delivery (select 113 (λ l, l) (ww_db world6)).2.
Definition world9 : World :=
  with_gate world8 (ww_db world8) (GateHushed picked (is_quiet picked (ww_db world8))).
Definition world10 : World := with_gate world9 (ww_db world9) (GateSent picked).
Definition world11 : World := with_gate world10 (finish picked (Ok tt) (ww_db world10)).1 GateFree.
(** 118: the friend calls. *)
Definition ring : Notice := ring_notice route_id calling "fcm".
Definition world12 : World :=
  after_ring world11 route_id notify_key calling (sender_of (rn_wake calling)) 118.
Definition world13 : World := with_gate world12 (ww_db world12) (GateCalled route_id call_event 280).
Definition world14 : World := with_gate world13 (ww_db world13) GateFree.
(** 119: a new policy; 120: the friend deletes its account; the relay restarts. *)
Definition world15 : World :=
  with_db world14 (policy_section route_id owner_secret (policy 2) 119 (ww_db world14)).1.
Definition world16 : World :=
  with_db world15 (erase_section (vc_identity friend) Submit draw (120 * 1000) (ww_db world15)).1.
Definition world17 : World :=
  {| ww_db := open (ww_db world16); ww_gate := GateFree; ww_pending := [] |}.

#[export] Instance Sender_eq_dec : EqDecision Sender.
Proof. solve_decision. Defined.
Definition header_owner : option string := header owner_secret.
Lemma sender_Ok wk time :
  is_ok (verify_sender route_id wk time) = true →
  bool_decide (from_ok no_sender (verify_sender route_id wk time) = sender_of wk) = true →
  verify_sender route_id wk time = Ok (sender_of wk).
Proof. intros H Hs%bool_decide_eq_true. rewrite <-Hs. by destruct (verify_sender route_id wk time). Qed.

Ltac evaluate := solve [vm_compute; reflexivity | vm_compute; discriminate].
Lemma wake_step1 : relay_step endpoint 100 world0 None world1.
Proof.
  unfold world1. apply (relay_register endpoint 100 world0 route_id (header owner_secret) registration draw 100 100);
    [evaluate|evaluate|evaluate|exact registration_Ok].
Qed.
Lemma wake_step2 : relay_step endpoint 100 world1 (Some (NoticeChallenge route_id challenge)) world2.
Proof. unfold world2. apply (relay_challenged endpoint 100 world1 route_id challenge [] []). evaluate. Qed.
Lemma wake_step3 : relay_step endpoint 101 world2 None world3.
Proof. unfold world3. apply (relay_confirm endpoint 101 world2 route_id header_owner); evaluate. Qed.
Lemma wake_step4 : relay_step endpoint 105 world3 None world4.
Proof. unfold world4. apply (relay_policy endpoint 105 world3 route_id header_owner); evaluate. Qed.
Lemma wake_step5 : relay_step endpoint 106 world4 None world5.
Proof. unfold world5. apply (relay_bind endpoint 106 world4 route_id header_owner); evaluate. Qed.
Lemma wake_step6 : relay_step endpoint 110 world5 None world6.
Proof. unfold world6. apply (relay_wake endpoint 110 world5 route_id (header notify_key)); evaluate. Qed.
Lemma wake_step7 : relay_step endpoint 113 world6 None world7.
Proof. unfold world7. apply (relay_select endpoint 113 world6 113 (λ l, l)); [evaluate|evaluate|done]. Qed.
Lemma wake_step8 : relay_step endpoint 113 world7 None world8.
Proof. unfold world8. apply (relay_wake endpoint 113 world7 route_id (header notify_key)); evaluate. Qed.
Lemma gate8 : ww_gate world8 = GateSelected picked.
Proof. evaluate. Qed.
Lemma wake_step9 : relay_step endpoint 113 world8 None world9.
Proof. exact (relay_hush endpoint 113 world8 picked gate8). Qed.
Lemma wake_step10 :
  relay_step endpoint 114 world9
    (Some (NoticeWake route_id scope greeting "message" target false None)) world10.
Proof.
  assert (Hq : is_quiet picked (ww_db world8) = false) by evaluate.
  assert (NoticeWake route_id scope greeting "message" target false None = wake_notice picked false) as ->
    by evaluate.
  apply (relay_send endpoint 114 world9 picked false). unfold world9. by rewrite Hq.
Qed.
Lemma wake_step11 : relay_step endpoint 115 world10 None world11.
Proof. exact (relay_finish endpoint 115 world10 picked (Ok tt) eq_refl). Qed.
Lemma calling_verified : verify_sender route_id (rn_wake calling) 118 = Ok (sender_of (rn_wake calling)).
Proof. apply sender_Ok; evaluate. Qed.
Lemma wake_step12 : relay_step endpoint 118 world11 None world12.
Proof.
  unfold world12. apply (relay_ring endpoint 118 world11 route_id (header notify_key));
    [evaluate..|exact calling_verified].
Qed.
Lemma gate12 : ww_gate world12 = GateCalling ring route_id call_event 280.
Proof. evaluate. Qed.
Lemma wake_step13 : relay_step endpoint 118 world12 (Some ring) world13.
Proof. exact (relay_call endpoint 118 world12 ring route_id call_event 280 gate12). Qed.
Lemma wake_step14 : relay_step endpoint 119 world13 None world14.
Proof. exact (relay_called endpoint 119 world13 route_id call_event 280 eq_refl). Qed.
Lemma wake_step15 : relay_step endpoint 119 world14 None world15.
Proof. unfold world15. apply (relay_policy endpoint 119 world14 route_id header_owner); evaluate. Qed.
Definition farewell := from_ok (deletion, no_credential) (erase_request endpoint goodbye (120 * 1000)).
Lemma goodbye_request :
  erase_request endpoint goodbye (120 * 1000) = Ok (deletion, farewell.2)
  ∧ vc_identity farewell.2 = vc_identity friend.
Proof. split; evaluate. Qed.
Lemma wake_step16 : relay_step endpoint 120 world15 None world16.
Proof.
  unfold world16. rewrite <-(proj2 goodbye_request).
  apply (relay_erase endpoint 120 world15 goodbye deletion farewell.2 draw 120);
    [evaluate|evaluate|exact (proj1 goodbye_request)].
Qed.
Lemma wake_step17 : relay_step endpoint 121 world16 None world17.
Proof. unfold world17. apply relay_restart. Qed.

(** ** Runs *)

Lemma wake_run0 : relay_run endpoint 100 world0 100 world0.
Proof. apply rrun_start. Qed.
Lemma wake_run1 : relay_run endpoint 100 world0 100 world1.
Proof. refine (rrun_next _ _ _ _ _ _ _ _ wake_run0 _ wake_step1). lia. Qed.
Lemma wake_run2 : relay_run endpoint 100 world0 100 world2.
Proof. refine (rrun_next _ _ _ _ _ _ _ _ wake_run1 _ wake_step2). lia. Qed.
Lemma wake_run3 : relay_run endpoint 100 world0 101 world3.
Proof. refine (rrun_next _ _ _ _ _ _ _ _ wake_run2 _ wake_step3). lia. Qed.
Lemma wake_run4 : relay_run endpoint 100 world0 105 world4.
Proof. refine (rrun_next _ _ _ _ _ _ _ _ wake_run3 _ wake_step4). lia. Qed.
Lemma wake_run5 : relay_run endpoint 100 world0 106 world5.
Proof. refine (rrun_next _ _ _ _ _ _ _ _ wake_run4 _ wake_step5). lia. Qed.
Lemma wake_run6 : relay_run endpoint 100 world0 110 world6.
Proof. refine (rrun_next _ _ _ _ _ _ _ _ wake_run5 _ wake_step6). lia. Qed.
Lemma wake_run7 : relay_run endpoint 100 world0 113 world7.
Proof. refine (rrun_next _ _ _ _ _ _ _ _ wake_run6 _ wake_step7). lia. Qed.
Lemma wake_run8 : relay_run endpoint 100 world0 113 world8.
Proof. refine (rrun_next _ _ _ _ _ _ _ _ wake_run7 _ wake_step8). lia. Qed.
Lemma wake_run9 : relay_run endpoint 100 world0 113 world9.
Proof. refine (rrun_next _ _ _ _ _ _ _ _ wake_run8 _ wake_step9). lia. Qed.
Lemma wake_run10 : relay_run endpoint 100 world0 114 world10.
Proof. refine (rrun_next _ _ _ _ _ _ _ _ wake_run9 _ wake_step10). lia. Qed.
Lemma wake_run11 : relay_run endpoint 100 world0 115 world11.
Proof. refine (rrun_next _ _ _ _ _ _ _ _ wake_run10 _ wake_step11). lia. Qed.
Lemma wake_run12 : relay_run endpoint 100 world0 118 world12.
Proof. refine (rrun_next _ _ _ _ _ _ _ _ wake_run11 _ wake_step12). lia. Qed.
Lemma wake_run13 : relay_run endpoint 100 world0 118 world13.
Proof. refine (rrun_next _ _ _ _ _ _ _ _ wake_run12 _ wake_step13). lia. Qed.
Lemma wake_run14 : relay_run endpoint 100 world0 119 world14.
Proof. refine (rrun_next _ _ _ _ _ _ _ _ wake_run13 _ wake_step14). lia. Qed.
Lemma wake_run15 : relay_run endpoint 100 world0 119 world15.
Proof. refine (rrun_next _ _ _ _ _ _ _ _ wake_run14 _ wake_step15). lia. Qed.
Lemma wake_run16 : relay_run endpoint 100 world0 120 world16.
Proof. refine (rrun_next _ _ _ _ _ _ _ _ wake_run15 _ wake_step16). lia. Qed.
Lemma wake_run17 : relay_run endpoint 100 world0 121 world17.
Proof. refine (rrun_next _ _ _ _ _ _ _ _ wake_run16 _ wake_step17). lia. Qed.
Lemma relaying_at t w : relay_run endpoint 100 world0 t w → relaying endpoint t w.
Proof. intros H. by exists 100. Qed.

(** The phone's route, and that it keeps its policy. *)
Definition no_row : RouteRow :=
  {| ro_owner := ""; ro_notify := ""; ro_token := ""; ro_challenge := ""; ro_active := false;
     ro_expires := 0; ro_next_send := 0 |}.
Definition route_of (w : World) : Route :=
  default (new_route no_row "") (db_routes (ww_db w) !! route_id).
Lemma keeps_of w :
  match db_routes (ww_db w) !! route_id with
  | Some r => bool_decide (is_Some (ru_version (rt_rules r)))
  | None => false
  end = true →
  keeps route_id w (route_of w).
Proof.
  unfold keeps, route_of. destruct (db_routes (ww_db w) !! route_id) as [r|]; [|done].
  intros [v Hv]%bool_decide_eq_true. cbn. split; [done|]. congruence.
Qed.
Ltac keep prev step w := refine (kept_next _ _ _ _ _ _ _ _ _ _ prev _ step (keeps_of w _)); [lia|evaluate].
Lemma kept4 : kept_run endpoint route_id 105 world4 105 world4.
Proof. apply (kept_start _ _ _ _ (route_of world4)), keeps_of. evaluate. Qed.
Lemma kept6 : kept_run endpoint route_id 110 world6 110 world6.
Proof. apply (kept_start _ _ _ _ (route_of world6)), keeps_of. evaluate. Qed.
Lemma kept11 : kept_run endpoint route_id 115 world11 115 world11.
Proof. apply (kept_start _ _ _ _ (route_of world11)), keeps_of. evaluate. Qed.
Lemma kept4_5 : kept_run endpoint route_id 105 world4 106 world5.
Proof. keep kept4 wake_step5 world5. Qed.
Lemma kept4_6 : kept_run endpoint route_id 105 world4 110 world6.
Proof. keep kept4_5 wake_step6 world6. Qed.
Lemma kept4_7 : kept_run endpoint route_id 105 world4 113 world7.
Proof. keep kept4_6 wake_step7 world7. Qed.
Lemma kept4_8 : kept_run endpoint route_id 105 world4 113 world8.
Proof. keep kept4_7 wake_step8 world8. Qed.
Lemma kept4_9 : kept_run endpoint route_id 105 world4 113 world9.
Proof. keep kept4_8 wake_step9 world9. Qed.
Lemma kept4_10 : kept_run endpoint route_id 105 world4 114 world10.
Proof. keep kept4_9 wake_step10 world10. Qed.
Lemma kept4_11 : kept_run endpoint route_id 105 world4 115 world11.
Proof. keep kept4_10 wake_step11 world11. Qed.
Lemma kept4_12 : kept_run endpoint route_id 105 world4 118 world12.
Proof. keep kept4_11 wake_step12 world12. Qed.
Lemma kept4_13 : kept_run endpoint route_id 105 world4 118 world13.
Proof. keep kept4_12 wake_step13 world13. Qed.
Lemma kept4_14 : kept_run endpoint route_id 105 world4 119 world14.
Proof. keep kept4_13 wake_step14 world14. Qed.
Lemma kept4_15 : kept_run endpoint route_id 105 world4 119 world15.
Proof. keep kept4_14 wake_step15 world15. Qed.
Lemma kept4_16 : kept_run endpoint route_id 105 world4 120 world16.
Proof. keep kept4_15 wake_step16 world16. Qed.
Lemma kept6_7 : kept_run endpoint route_id 110 world6 113 world7.
Proof. keep kept6 wake_step7 world7. Qed.
Lemma kept6_8 : kept_run endpoint route_id 110 world6 113 world8.
Proof. keep kept6_7 wake_step8 world8. Qed.
Lemma kept6_9 : kept_run endpoint route_id 110 world6 113 world9.
Proof. keep kept6_8 wake_step9 world9. Qed.
Lemma kept6_10 : kept_run endpoint route_id 110 world6 114 world10.
Proof. keep kept6_9 wake_step10 world10. Qed.
Lemma kept6_11 : kept_run endpoint route_id 110 world6 115 world11.
Proof. keep kept6_10 wake_step11 world11. Qed.
Lemma kept11_12 : kept_run endpoint route_id 115 world11 118 world12.
Proof. keep kept11 wake_step12 world12. Qed.

End RelayRun.

(** * Witnesses of the wake relay

    Each theorem of the relay that has hypotheses, applied on the run of [WakeWorld], and an
    order of its steps in which an unnamed sender's notification is not quiet. *)


#[local] Existing Instance Relay.relay_platform.
Import Relay RelayRun.

Lemma relay_limits_witness : events_in (db_routes (ww_db world16)) ≤ 890000.
Proof.
  pose proof (relay_limits endpoint 120 world16 (relaying_at _ _ wake_run16)) as H. cbv zeta in H.
  destruct H as (_ & _ & _ & _ & _ & H & _). exact H.
Defined.

Lemma wake_notice_allowed_witness :
  ∃ wk s time, verify_sender route_id wk time = Ok s ∧ wk_event wk = greeting.
Proof.
  destruct (wake_notice_allowed endpoint 113 114 world9 world10 route_id scope greeting "message"
              target false None (relaying_at _ _ wake_run9) ltac:(lia) wake_step10)
    as (wk & s & time & it & sel & _ & Hs & _ & _ & He & _).
  exists wk, s, time. split; [exact Hs|exact He].
Defined.

Lemma ring_notice_allowed_witness :
  ∃ input s time, verify_sender route_id (rn_wake input) time = Ok s ∧ time < 160.
Proof.
  destruct (ring_notice_allowed endpoint 118 118 world12 world13 route_id route_id route_id target
              160 false false (relaying_at _ _ wake_run12) ltac:(lia) wake_step13)
    as (input & s & time & _ & Hs & _ & _ & _ & _ & _ & [Ht _] & _).
  exists input, s, time. split; [exact Hs|exact Ht].
Defined.

Lemma route_kept n w : keeps route_id w n → db_routes (ww_db w) !! route_id = Some n.
Proof. by intros [? _]. Qed.
Lemma no_item (e : string) (m : gmap string Item) :
  forallb (λ kv, negb (it_event kv.2 === e)) (map_to_list m) = true →
  ∀ k it, m !! k = Some it → it_event it ≠ e.
Proof.
  intros H k it Hk. rewrite forallb_forall in H. specialize (H (k, it)).
  rewrite <-list_elem_of_In, elem_of_map_to_list in H. specialize (H Hk).
  by apply negb_true_iff, bool_decide_eq_false in H.
Qed.

(** The greeting that was delivered is in the ledger for a day. *)
Lemma event_delivered_once_witness :
  ¬ ∃ category quiet, Some ring = Some (NoticeWake route_id scope greeting category target quiet None).
Proof.
  intros (category & quiet & Hn). revert Hn.
  refine (proj1 (event_delivered_once endpoint route_id greeting 86510 115 world11 (route_of world11)
            118 world12 118 (Some ring) world13 (relaying_at _ _ wake_run11) _ _ _ _ kept11_12 _ _ wake_step13)
            scope category target quiet None).
  - apply route_kept, keeps_of. evaluate.
  - evaluate.
  - apply no_item. evaluate.
  - evaluate.
  - lia.
  - lia.
Defined.

Lemma erased_stays_erased_witness :
  ∃ x, db_erased (ww_db world17) !! display (vc_identity friend) = Some x.
Proof.
  exists (challenge, 120000).
  apply (erased_stays_erased endpoint 120 world16 121 world17 (vc_identity friend) (challenge, 120000)
           (relaying_at _ _ wake_run16)).
  - evaluate.
  - refine (rrun_next _ _ _ _ _ _ _ _ (rrun_start _ _ _) _ wake_step17). lia.
Defined.

Lemma keeps8 : keeps route_id world8 (route_of world8).
Proof. apply keeps_of. evaluate. Qed.
Lemma queue_always_allowed_witness :
  ∃ it, rt_queue (route_of world8) !! scope = Some it
    ∧ rules_deliver (rt_rules (route_of world8)) scope it = true.
Proof.
  assert (Hi : is_Some (rt_queue (route_of world8) !! scope)).
  { apply not_eq_None_Some. evaluate. }
  destruct Hi as [it Hit]. exists it. split; [exact Hit|].
  destruct (queue_always_allowed endpoint 113 world8 route_id (route_of world8)
              (relaying_at _ _ wake_run8) (route_kept _ _ keeps8)) as [H _].
  exact (proj1 (H scope it Hit)).
Defined.

Lemma greeted : ww_db world6 = (wake_section route_id notify_key strange 110 (ww_db world5)).1.
Proof. unfold world6. cbn [ww_db with_db]. reflexivity. Qed.

(** Eight seconds after the stranger's greeting, its second one changes nothing. *)
Lemma untrusted_budget_witness :
  (wake_section route_id notify_key strange2 118 (ww_db world11)).1 = ww_db world11.
Proof.
  refine (untrusted_budget endpoint route_id notify_key strange (sender_of strange) 110 (ww_db world5)
            (route_of world5) 110 world6 115 world11 (route_of world11) notify_key strange2
            (sender_of strange2) 118 _ _ _ _ greeted _ kept6_11 _ _ _ _ _).
  - evaluate.
  - apply sender_Ok; evaluate.
  - apply route_kept, keeps_of. evaluate.
  - evaluate.
  - intros H. apply (f_equal db_event_total) in H. revert H. evaluate.
  - apply route_kept, keeps_of. evaluate.
  - evaluate.
  - apply sender_Ok; evaluate.
  - evaluate.
  - lia.
Defined.

Lemma recipient_policy_forward_witness :
  rt_rules (route_of world16) = rt_rules (route_of world4)
  ∨ (rules_revision (rt_rules (route_of world4)) < rules_revision (rt_rules (route_of world16)))%Z.
Proof.
  apply (recipient_policy_forward endpoint route_id 105 world4 120 world16 _ _ kept4_16);
    apply route_kept, keeps_of; evaluate.
Defined.

Lemma select_first_due_witness :
  ∃ d, (select 113 (λ l, l) (ww_db world6)).2 = Some d ∧ 113 < dl_expires d.
Proof.
  pose proof (select_first_due 113 (λ l, l) (ww_db world6) (λ l, reflexivity l)) as H.
  assert (Hs : (select 113 (λ l, l) (ww_db world6)).2 = Some picked) by evaluate.
  cbv zeta in H. rewrite Hs in H. destruct H as (id & r & sc & it & _ & _ & Hx & _).
  exists picked. split; [exact Hs|exact Hx].
Defined.

(** ** An unnamed sender that alerts

    The worker reads the row to deliver and, in a second statement, whether to stay quiet,
    which it decides from the row the queue holds then. *)
Example replaced_row_alerts :
  dl_event picked = greeting
  ∧ scope_sender (rt_rules (route_of world9)) scope
      (Some (credential_tag route_id (se_credential (sender_of strange)))) = false
  ∧ relaying endpoint 113 world9
  ∧ relay_step endpoint 114 world9
      (Some (NoticeWake route_id scope greeting "message" target false None)) world10.
Proof. split_and!; [evaluate|evaluate|exact (relaying_at _ _ wake_run9)|exact wake_step10]. Qed.
