(* ===== verification/Revocations.v ===== *)
(** * The registry of retired devices (crates/elo-core/src/identity/revocations.rs)

    A directory of signed revocations that every Space of a host shares, and the index of how
    many devices each profile has retired lately. *)

From S2P Require Import Prelude Sums Platform Ids Record Chat Identity.

Definition MAX_REVOKED_DEVICES : N := 65536.
Definition MAX_REVOCATIONS_PER_HOUR : N := 16.
Definition MAX_REVOCATIONS_PER_DAY : N := 32.

(** ** The quota index *)

Record Budget := { bu_identities : gmap IdentityId (gmap RecordId N); bu_total : N }.
Definition no_budget : Budget := {| bu_identities := ∅; bu_total := 0 |}.

Definition retired_within (span current : N) (entries : gmap RecordId N) : N :=
  count_over (λ _ at_, current - at_ <? span) entries.
Definition require_budget (b : Budget) (who : IdentityId) (current : N) : result string unit :=
  match bu_identities b !! who with
  | None => Ok tt
  | Some entries =>
      fail_if ((MAX_REVOCATIONS_PER_HOUR <=? retired_within 3600 current entries)
               || (MAX_REVOCATIONS_PER_DAY <=? retired_within 86400 current entries))
        "Too many device changes for this profile. Try linking a device later."
  end.
Definition budget_record (b : Budget) (who : IdentityId) (id : RecordId) (at_ : N) : Budget :=
  let entries := default ∅ (bu_identities b !! who) in
  {| bu_identities := <[who := <[id := at_]> entries]> (bu_identities b);
     bu_total := if bool_decide (is_Some (entries !! id)) then bu_total b else bu_total b + 1 |}.

(** ** The directory: file names, with their bytes and modification time in seconds *)

Record Registry := { rg_files : gmap string (string * N); rg_budget : Budget }.
Definition record_file (id : RecordId) : string := display id +:+ ".record".

(** [file.extension() == Some("record")]: the text after the last dot, in a name that has
    something before it. *)
Definition is_record_file (name : string) : bool :=
  let n := String.length name in
  (7 <? N.of_nat n) && (sdrop (n - 7) name === ".record").

Section Revocations.
Context `{P : Platform} {SD : Serde DeviceCredential} {SR : Serde DeviceRevocation}.

(** [get] *)
Definition get (r : Registry) (id : RecordId) : result string (option SignedRecord) :=
  match rg_files r !! record_file id with
  | None => Ok None
  | Some (bytes, _) =>
      record ← map_err (parse bytes) "record";
      c ← map_err (revocation_verify record) "record";
      _ ← fail_if (vc_id c =/= id) "Invalid device revocation.";
      mret (Some record)
  end.

(** [insert]: the file is written once. [written] is whether [write_private] succeeded. *)
Definition insert (r : Registry) (record : SignedRecord) (current : N) (written : bool)
    : Registry * result string unit :=
  match map_err (revocation_verify record) "record" with
  | Err e => (r, Err e)
  | Ok c =>
      match get r (vc_id c) with
      | Err e => (r, Err e)
      | Ok (Some _) => (r, Ok tt)
      | Ok None =>
          if MAX_REVOKED_DEVICES <=? bu_total (rg_budget r)
          then (r, Err "Device revocation registry is full.")
          else if negb written then (r, Err "write")
          else ({| rg_files := <[record_file (vc_id c) := (sr_bytes record, current)]> (rg_files r);
                   rg_budget := budget_record (rg_budget r) (vc_identity c) (vc_id c) current |},
                Ok tt)
      end
  end.

(** One entry of [open]'s scan. *)
Definition open_entry (b : Budget) (e : string * (string * N)) : result string Budget :=
  if negb (is_record_file e.1) then Ok b
  else
    _ ← fail_if (MAX_REVOKED_DEVICES <=? bu_total b) "Device revocation registry is full.";
    record ← map_err (parse e.2.1) "record";
    c ← map_err (revocation_verify record) "record";
    _ ← fail_if (e.1 =/= record_file (vc_id c)) "Invalid device revocation path.";
    mret (budget_record b (vc_identity c) (vc_id c) e.2.2).

(** [open]: [order] is the order [read_dir] lists the directory in. *)
Definition open (files : gmap string (string * N)) (order : list (string * (string * N)))
    : result string Registry :=
  b ← try_fold open_entry no_budget order;
  mret {| rg_files := files; rg_budget := b |}.

Definition require_enrollment_budget (r : Registry) (who : IdentityId) (current : N)
    : result string unit :=
  require_budget (rg_budget r) who current.

(** [ReplicaStore::require_active_device] (replica.rs) *)
Definition require_active_device (r : Registry) (id : RecordId) : result string unit :=
  found ← map_err (get r id) "storage";
  fail_if (bool_decide (is_Some found)) "unauthorized".

End Revocations.
