(* ===== verification/HostedRoles.v ===== *)
(** * Administration roles of a hosted Space (crates/elo-core/src/public_space/roles.rs)

    The primary owner, the owners and the historical requests that still wait. Requests are
    JSON bodies signed by a device. *)

From S2P Require Import Prelude Platform Ids Record.

(** ** JSON bodies (public_space.rs) *)

(** [v == b] for a Boolean, and [v.as_bool()]. *)
Definition value_eq_bool (v : value) (b : bool) : bool :=
  match v with VBool c => Bool.eqb c b | _ => false end.
Definition value_as_bool (v : value) : option bool :=
  match v with VBool b => Some b | _ => None end.
(** [v == n] for an integer literal. *)
Definition value_eq_u64 (v : value) (n : N) : bool :=
  match v with VNumber m => m =? n | _ => false end.
(** [v == json!(id)] for an optional identifier. *)
Definition value_eq_id (v : value) (id : option string) : bool :=
  match id with
  | Some id => value_eq_str v (display id)
  | None => match v with VNull => true | _ => false end
  end.
Definition field (v : value) (key : string) : result string string :=
  ok_or (value_as_str (value_index v key)) "Missing request field.".
(** [text.parse()] of a 32-byte identifier. *)
Definition parse_id (s : string) : result string string := ok_or (parse_hex 32 s) "identifier".

(** ** Roles *)

Record RoleMember := { rm_identity : IdentityId; rm_name : string; rm_role : string }.
Record Change := {
  ch_id : string; ch_kind : string; ch_target : IdentityId; ch_target_name : string;
  ch_requester : IdentityId; ch_requester_name : string; ch_created_at : N;
  ch_primary : IdentityId;
}.
Record Roles := {
  ro_primary : IdentityId;
  ro_contact_email : option string;
  ro_owners : gset IdentityId;
  ro_revision : N;
  ro_pending : gmap string Change;
}.
Definition with_roles (r : Roles) (owners : gset IdentityId) (pending : gmap string Change) : Roles :=
  {| ro_primary := ro_primary r; ro_contact_email := ro_contact_email r; ro_owners := owners;
     ro_revision := ro_revision r; ro_pending := pending |}.
Definition with_revision (r : Roles) (n : N) : Roles :=
  {| ro_primary := ro_primary r; ro_contact_email := ro_contact_email r; ro_owners := ro_owners r;
     ro_revision := n; ro_pending := ro_pending r |}.
Definition with_email (r : Roles) (email : option string) : Roles :=
  {| ro_primary := ro_primary r; ro_contact_email := email; ro_owners := ro_owners r;
     ro_revision := ro_revision r; ro_pending := ro_pending r |}.

Definition bootstrap (owners : list IdentityId) : result string Roles :=
  primary ← ok_or (hd_error owners) "Space needs a primary owner.";
  mret {| ro_primary := primary; ro_contact_email := None; ro_owners := list_to_set owners;
          ro_revision := 0; ro_pending := ∅ |}.
Definition is_owner (r : Roles) (who : IdentityId) : bool := bool_decide (who ∈ ro_owners r).
Definition role (r : Roles) (who : IdentityId) : string :=
  if who === ro_primary r then "primary_owner" else if is_owner r who then "owner" else "member".

Definition is_removal (kind : string) : bool := contains ["remove_owner"; "remove_member"] kind.
Definition can_decide (r : Roles) (actor : IdentityId) (c : Change) : bool :=
  (actor === ch_target c) || (is_removal (ch_kind c) && (actor === ro_primary r)).
Definition requests_for (r : Roles) (actor : IdentityId) : list Change :=
  List.filter (can_decide r actor) (btree_values (ro_pending r)).

(** What [changed] keeps of the waiting requests. *)
Definition still_pending (r : Roles) (c : Change) : bool :=
  (ch_primary c === ro_primary r) && is_owner r (ch_requester c)
  && (ch_target c =/= ro_primary r)
  && ((ch_kind c =/= "remove_owner") || is_owner r (ch_target c)).
Definition changed (r : Roles) : result string Roles :=
  n ← ok_or (checked_add (ro_revision r) 1) "Space role revision limit reached.";
  let r := with_revision r n in
  mret (with_roles r (ro_owners r) (filter (λ kv, still_pending r kv.2 = true) (ro_pending r))).

Definition require_change_authority (r : Roles) (actor target : IdentityId) (kind : string)
    : result string unit :=
  _ ← fail_if (kind === "transfer_primary") "Primary ownership cannot be transferred.";
  _ ← fail_if (is_removal kind && (target === ro_primary r)) "The primary owner cannot be removed.";
  fail_if ((contains ["make_owner"; "remove_owner"] kind
            || ((kind === "remove_member") && is_owner r target))
           && (actor =/= ro_primary r)) "Only the primary owner can change Space owners.".

Definition retire_member (r : Roles) (who : IdentityId) : result string Roles :=
  _ ← fail_if (who === ro_primary r) "The primary owner cannot be removed.";
  mret (with_roles r (ro_owners r ∖ {[who]})
          (filter (λ kv, (ch_target kv.2 =/= who) && (ch_requester kv.2 =/= who) = true)
             (ro_pending r))).

(** The answer: its status and the identity it removes from the Space. *)
Record RoleAnswer := { ra_status : string; ra_removed_identity : option IdentityId }.

Definition is_member (members : list RoleMember) (who : IdentityId) : bool :=
  existsb (λ m, rm_identity m === who) members.
Definition remove_owner (r : Roles) (who : IdentityId) : Roles :=
  with_roles r (ro_owners r ∖ {[who]}) (ro_pending r).
Definition add_owner (r : Roles) (who : IdentityId) : Roles :=
  with_roles r ({[who]} ∪ ro_owners r) (ro_pending r).
Definition forget_request (r : Roles) (id : string) : Roles :=
  with_roles r (ro_owners r) (delete id (ro_pending r)).

Definition decision (approve : bool) (c : Change) : RoleAnswer :=
  {| ra_status := if approve then "applied" else "declined";
     ra_removed_identity :=
       if approve && (ch_kind c === "remove_member") then Some (ch_target c) else None |}.

(** [role_decide] *)
Definition decide_change (r : Roles) (actor : IdentityId) (body : value)
    (members : list RoleMember) : result string (Roles * RoleAnswer) :=
  id ← field body "request_id";
  c ← ok_or (ro_pending r !! id) "This role request has already been handled.";
  approve ← ok_or (value_as_bool (value_index body "approve")) "Choose a decision.";
  _ ← fail_if (negb (can_decide r actor c) && negb ((actor === ch_requester c) && negb approve))
        "You cannot confirm this role change.";
  r' ← (if approve then
          _ ← fail_if ((ch_primary c =/= ro_primary r) || negb (is_owner r actor))
                "You cannot confirm this role change.";
          _ ← require_change_authority r actor (ch_target c) (ch_kind c);
          _ ← fail_if (negb (is_member members (ch_target c)))
                "This person is no longer a Space member.";
          if is_removal (ch_kind c) then Ok (remove_owner r (ch_target c))
          else Err "Invalid role change."
        else Ok r);
  r' ← changed (forget_request r' id);
  mret (r', decision approve c).

(** [role_change] *)
Definition change_role (r : Roles) (actor : IdentityId) (body : value)
    (members : list RoleMember) : result string (Roles * RoleAnswer) :=
  _ ← fail_if (negb (is_owner r actor)) "Only a Space owner can change roles.";
  text ← field body "target";
  target ← parse_id text;
  _ ← fail_if (negb (is_member members target)) "Choose a current Space member.";
  kind ← field body "kind";
  _ ← require_change_authority r actor target kind;
  if kind === "make_owner" then
    _ ← fail_if (is_owner r target) "This person is already an owner.";
    r' ← changed (add_owner r target);
    mret (r', {| ra_status := "applied"; ra_removed_identity := None |})
  else if is_removal kind then
    _ ← fail_if ((kind === "remove_owner") && negb (is_owner r target)) "This person is not an owner.";
    r' ← changed (remove_owner r target);
    mret (r', {| ra_status := "applied";
                 ra_removed_identity := if kind === "remove_member" then Some target else None |})
  else Err "Choose a valid role change.".

Definition apply_with_id (r : Roles) (actor : IdentityId) (action : string) (body : value)
    (members : list RoleMember) : result string (Roles * RoleAnswer) :=
  _ ← fail_if (value_as_u64 (value_index body "revision") =/= Some (ro_revision r))
        "Space roles have changed. Refresh and try again.";
  _ ← fail_if (negb (is_member members actor)) "Only a Space member can change roles.";
  if action === "role_decide" then decide_change r actor body members
  else change_role r actor body members.
