(* ===== verification/HostedState.v ===== *)
(** * The state of a hosted Space (crates/elo-core/src/public_space.rs)

    What the hosting service stores for one Space, the requests it is sent and the answers it
    gives, and the functions that only look at that state. *)

From S2P Require Import Prelude Sums Platform Ids Record Chat Identity AuthorityData AuthorityWitness Authority AuthorityProof WakeWire Attachments HostedRoles.

Definition LIMIT : N := 8 * 1024 * 1024.
Definition STATE_LIMIT : N := 32 * 1024 * 1024.
Abbreviation AttachmentId := string (only parsing).
Abbreviation AttachmentObjectId := string (only parsing).

(** ** Addresses and requests (app/space_service.rs, app/invitations/team.rs) *)

(** message_retention.rs *)
Inductive MessageRetention := Hours6 | Hours12 | Hours24 | Hours48 | NoExpiry.
#[global] Instance MessageRetention_eq_dec : EqDecision MessageRetention.
Proof. solve_decision. Defined.

Record TeamScope := {
  ts_space : SpaceId; ts_stream : StreamId; ts_root : string; ts_controller : RecordId;
}.
#[global] Instance TeamScope_eq_dec : EqDecision TeamScope.
Proof. solve_decision. Defined.
Record SpaceAddress := {
  sa_url : string; sa_scope : TeamScope; sa_lifetime : MessageRetention;
  sa_service_credential : option string;
}.
#[global] Instance SpaceAddress_eq_dec : EqDecision SpaceAddress.
Proof. solve_decision. Defined.
Record SpaceInvitation := { si_v : N; si_address : SpaceAddress; si_token : string }.
Definition PREFIX : string := "elo://space/v1#".

(** sync.rs [PeerDescriptor] *)
Record PeerDescriptor := {
  pd_url : string; pd_signing_public_key : string; pd_mailbox_id : string;
  pd_read_token : option string; pd_write_token : option string;
}.
Record ServiceConfig := {
  cfg_name : string; cfg_address : SpaceAddress; cfg_owners : list IdentityId;
  cfg_contact_email : option string; cfg_peer : PeerDescriptor;
}.
Record Request := {
  hq_nonce : string; hq_invitation : option string; hq_record : option string;
  hq_credential : option string;
}.
Record EnrollmentRequest := { en_v : N; en_contact : string; en_proof : string }.

(** ** What the service stores *)

Record AdminEvidence := { ev_record : string; ev_credential : string }.
#[global] Instance AdminEvidence_eq_dec : EqDecision AdminEvidence.
Proof. solve_decision. Defined.

Record Command := {
  hc_v : N; hc_kind : string; hc_space : SpaceId; hc_nonce : string; hc_issued : N;
  hc_action : string; hc_body : value;
}.
Record Offer := {
  of_authorization : option AdminEvidence; of_token : string; of_issued_at : N;
  of_expires_at : N; of_require_approval : bool; of_revoked : bool;
}.
Record Applicant := {
  ap_authorization : option AdminEvidence; ap_identity : IdentityId; ap_name : string;
  ap_status : string; ap_invitation : string; ap_note : string;
  ap_request : EnrollmentRequest; ap_requested_at : N;
}.
(** public_space/calls.rs [PublishedHead] *)
Record PublishedHead := {
  ph_head : RecordId; ph_sequence : N; ph_recovery : option RecordId;
  ph_credentials : list RecordId;
}.
(** public_space/attachments.rs *)
Inductive HostedAttachmentState :=
| Reserved | Uploaded | Available | DeletingExpired | DeletingDeleted | Expired | Deleted | Missing.
#[global] Instance HostedAttachmentState_eq_dec : EqDecision HostedAttachmentState.
Proof. solve_decision. Defined.
Record HostedAttachment := {
  ha_object_id : AttachmentObjectId; ha_issuer : IdentityId; ha_plaintext_size : N;
  ha_encrypted_size : N; ha_ciphertext_sha256 : string; ha_created_at_ms : N;
  ha_expires_at_ms : option N; ha_reservation_expires_at_ms : N;
  ha_state : HostedAttachmentState; ha_message_id : option RecordId; ha_terminal_at_ms : N;
}.
Record AttachmentAccess := {
  aa_attachment : AttachmentId; aa_kind : string; aa_credential : option RecordId;
  aa_expires_at_ms : N;
}.
(** attachments/model.rs [AttachmentAvailability] *)
Inductive AttachmentAvailability := AvAvailable | AvExpired | AvDeleted | AvMissing.
#[global] Instance AttachmentAvailability_eq_dec : EqDecision AttachmentAvailability.
Proof. solve_decision. Defined.
(** public_space/witnessed_relay.rs [Pending], and the packet it keeps. *)
Record DurableAdmissionRequest := {
  da_request_id : RecordId; da_name : string; da_address : SpaceAddress;
  da_credential : string; da_request : WitnessJoinRequestEvidence; da_expires_at_ms : N;
}.
#[global] Instance DurableAdmissionRequest_eq_dec : EqDecision DurableAdmissionRequest.
Proof. solve_decision. Defined.
Record Pending := {
  pn_packet : DurableAdmissionRequest; pn_approval : option string; pn_declined : bool;
}.

(** ** Answers: the JSON objects of the source, one constructor per shape *)

(** The waiting part of [authority_status]. *)
Record PendingEnrollment := {
  pe_credential : string; pe_request : EnrollmentRequest;
  pe_authorization : option AdminEvidence; pe_invitation_authorization : option AdminEvidence;
}.
Record AuthorityStatus := {
  as_proof : CallAuthorityProof; as_head : option RecordId; as_pending : list PendingEnrollment;
  as_revoked : gset RecordId; as_removed : list IdentityId; as_owner_identities : list IdentityId;
  as_journal : list AdminEvidence; as_committed_journal : list AdminEvidence;
  as_revocation_proofs : list string; as_creation : option AdminEvidence;
  as_account_deletions : list AdminEvidence;
}.
(** The packet of an approved device: the proof and the contacts, [None] when unchanged. *)
Record Joined := {
  jn_name : string; jn_epoch : N; jn_owner : bool; jn_owner_sync_needed : bool; jn_role : string;
  jn_roles_revision : N; jn_role_requests : list Change; jn_contact_email : option string;
  jn_lifetime : MessageRetention; jn_peer : PeerDescriptor; jn_general_head : option RecordId;
  jn_enrollment : option (CallAuthorityProof * list value);
}.
Record Management := {
  mg_offers : list (string * Offer * string);
  mg_requests : list (string * IdentityId * string * string);
  mg_witness_requests : list (RecordId * value * DurableAdmissionRequest);
  mg_members : list RoleMember; mg_roles_revision : N; mg_primary_owner : IdentityId;
  mg_contact_email : option string; mg_attachments : option (AttachmentPolicy * N * N);
}.
Inductive AttachmentReply :=
| AtUsage (policy : AttachmentPolicy) (used reserved : N)
| AtReserved (id : AttachmentId) (object : AttachmentObjectId) (token : string) (created : N)
    (expires : option N)
| AtStatus (status : string)
| AtDownload (token : string)
| AtStates (states : gmap string AttachmentAvailability)
| AtPolicy (policy : AttachmentPolicy)
| AtPreview (files bytes before_ms days : N)
| AtScheduled (files bytes : N).
(** Storage management is a call on the replica; the answer is the replica's. *)
Inductive ReplicaCall := SpaceStorage (latest : N) | PruneMessages (before : N).
Inductive Reply :=
| RpError (error : string)
| RpEmpty
| RpPreview (name : string) (expires_at : N) (require_approval : bool) (lifetime : MessageRetention)
| RpAuthority (status : AuthorityStatus)
| RpHead (head : option RecordId)
| RpChecked (head : RecordId) (checked_at : N)
| RpNotes (proof : option CallAuthorityProof) (general_head : option RecordId)
| RpDevices (devices : list (RecordId * string))
| RpRevoked (device : RecordId)
| RpContact (email : option string)
| RpReplica (call : ReplicaCall)
| RpRemoved (name : string) (epoch : N)
| RpWaiting (name status : string) (pending_reason : option string) (epoch : N)
| RpApproved (j : Joined) (chat_heads : option (list (result string (RecordId * N))))
| RpManage (m : Management)
| RpInvited (id link : string) (expires_at : N)
| RpRole (answer : RoleAnswer)
| RpAttachment (answer : AttachmentReply)
| RpWitnessRequest (id : RecordId) (status : string)
| RpWitnessPending (request : DurableAdmissionRequest) (approval : option string) (status : string).

(** ** The state *)

Record ServiceState := {
  st_creation : option AdminEvidence;
  st_journal : list AdminEvidence;
  st_committed_journal : list AdminEvidence;
  st_revocation_proofs : gmap RecordId string;
  st_account_deletions : gmap IdentityId AdminEvidence;
  st_proof : CallAuthorityProof;
  st_revoked : gset RecordId;
  st_claimed : bool;
  st_offers : gmap string Offer;
  st_applicants : gmap string Applicant;
  st_replies : gmap string (N * string * Reply);
  st_roles : option Roles;
  st_removals : gmap IdentityId N;
  st_removal_heads : gmap IdentityId RecordId;
  st_erased_accounts : gset IdentityId;
  st_attachment_policy : AttachmentPolicy;
  st_attachments : gmap AttachmentId HostedAttachment;
  st_attachment_access : gmap string AttachmentAccess;
  st_call_heads : gmap string PublishedHead;
  st_notes : gmap IdentityId CallAuthorityProof;
  st_witness_requests : gmap RecordId Pending;
}.
Definition eta_state (s : ServiceState) : ServiceState :=
  Build_ServiceState (st_creation s) (st_journal s) (st_committed_journal s)
    (st_revocation_proofs s) (st_account_deletions s) (st_proof s) (st_revoked s) (st_claimed s)
    (st_offers s) (st_applicants s) (st_replies s) (st_roles s) (st_removals s)
    (st_removal_heads s) (st_erased_accounts s) (st_attachment_policy s) (st_attachments s)
    (st_attachment_access s) (st_call_heads s) (st_notes s) (st_witness_requests s).
Definition with_journal (s : ServiceState) (v : list AdminEvidence) : ServiceState :=
  ltac:(set_field eta_state st_journal s v).
Definition with_committed_journal (s : ServiceState) (v : list AdminEvidence) : ServiceState :=
  ltac:(set_field eta_state st_committed_journal s v).
Definition with_revocation_proofs (s : ServiceState) (v : gmap RecordId string) : ServiceState :=
  ltac:(set_field eta_state st_revocation_proofs s v).
Definition with_account_deletions (s : ServiceState) (v : gmap IdentityId AdminEvidence) : ServiceState :=
  ltac:(set_field eta_state st_account_deletions s v).
Definition with_proof (s : ServiceState) (v : CallAuthorityProof) : ServiceState :=
  ltac:(set_field eta_state st_proof s v).
Definition with_revoked (s : ServiceState) (v : gset RecordId) : ServiceState :=
  ltac:(set_field eta_state st_revoked s v).
Definition with_claimed (s : ServiceState) (v : bool) : ServiceState :=
  ltac:(set_field eta_state st_claimed s v).
Definition with_offers (s : ServiceState) (v : gmap string Offer) : ServiceState :=
  ltac:(set_field eta_state st_offers s v).
Definition with_applicants (s : ServiceState) (v : gmap string Applicant) : ServiceState :=
  ltac:(set_field eta_state st_applicants s v).
Definition with_replies (s : ServiceState) (v : gmap string (N * string * Reply)) : ServiceState :=
  ltac:(set_field eta_state st_replies s v).
Definition with_roles (s : ServiceState) (v : option Roles) : ServiceState :=
  ltac:(set_field eta_state st_roles s v).
Definition with_removals (s : ServiceState) (v : gmap IdentityId N) : ServiceState :=
  ltac:(set_field eta_state st_removals s v).
Definition with_removal_heads (s : ServiceState) (v : gmap IdentityId RecordId) : ServiceState :=
  ltac:(set_field eta_state st_removal_heads s v).
Definition with_erased_accounts (s : ServiceState) (v : gset IdentityId) : ServiceState :=
  ltac:(set_field eta_state st_erased_accounts s v).
Definition with_attachment_policy (s : ServiceState) (v : AttachmentPolicy) : ServiceState :=
  ltac:(set_field eta_state st_attachment_policy s v).
Definition with_attachments (s : ServiceState) (v : gmap AttachmentId HostedAttachment) : ServiceState :=
  ltac:(set_field eta_state st_attachments s v).
Definition with_attachment_access (s : ServiceState) (v : gmap string AttachmentAccess) : ServiceState :=
  ltac:(set_field eta_state st_attachment_access s v).
Definition with_call_heads (s : ServiceState) (v : gmap string PublishedHead) : ServiceState :=
  ltac:(set_field eta_state st_call_heads s v).
Definition with_notes (s : ServiceState) (v : gmap IdentityId CallAuthorityProof) : ServiceState :=
  ltac:(set_field eta_state st_notes s v).
Definition with_witness_requests (s : ServiceState) (v : gmap RecordId Pending) : ServiceState :=
  ltac:(set_field eta_state st_witness_requests s v).

(** One applicant changed in place. *)
Definition eta_applicant (a : Applicant) : Applicant :=
  Build_Applicant (ap_authorization a) (ap_identity a) (ap_name a) (ap_status a)
    (ap_invitation a) (ap_note a) (ap_request a) (ap_requested_at a).
Definition set_status (a : Applicant) (v : string) : Applicant :=
  ltac:(set_field eta_applicant ap_status a v).
Definition set_note (a : Applicant) (v : string) : Applicant :=
  ltac:(set_field eta_applicant ap_note a v).
Definition set_request (a : Applicant) (v : EnrollmentRequest) : Applicant :=
  ltac:(set_field eta_applicant ap_request a v).
Definition set_authorization (a : Applicant) (v : option AdminEvidence) : Applicant :=
  ltac:(set_field eta_applicant ap_authorization a v).
Definition revoke_offer (o : Offer) : Offer :=
  {| of_authorization := of_authorization o; of_token := of_token o;
     of_issued_at := of_issued_at o; of_expires_at := of_expires_at o;
     of_require_approval := of_require_approval o; of_revoked := true |}.

(** ** Functions of the state alone *)

Definition approved (a : Applicant) : bool := ap_status a === "approved".
Definition waiting (a : Applicant) : bool := contains ["pending"; "eligible"] (ap_status a).
(** [applicants.values().any(|a| a.identity == identity && a.status == ..)] *)
Definition has_applicant (st : ServiceState) (who : IdentityId) (statuses : list string) : bool :=
  existsb (λ a, (ap_identity a === who) && contains statuses (ap_status a))
    (btree_values (st_applicants st)).
Definition is_removed (st : ServiceState) (who : IdentityId) : bool :=
  bool_decide (is_Some (st_removals st !! who)).
Definition is_revoked (st : ServiceState) (id : RecordId) : bool := bool_decide (id ∈ st_revoked st).
Definition is_erased (st : ServiceState) (who : IdentityId) : bool :=
  bool_decide (who ∈ st_erased_accounts st).
Definition removal_blocks (st : ServiceState) (who : IdentityId) : bool :=
  is_removed st who && negb (has_applicant st who ["approved"]).
Definition epoch_of (st : ServiceState) (who : IdentityId) : N := default 0 (st_removals st !! who).
Definition in_journal (st : ServiceState) (record : string) : bool :=
  existsb (λ e, ev_record e === record) (st_journal st).

Definition reservation_is_unused (st : ServiceState) (now : N) : bool :=
  negb (st_claimed st) && (N.of_nat (size (st_applicants st)) =? 0)
  && (N.of_nat (size (st_removals st)) =? 0) && (N.of_nat (size (st_erased_accounts st)) =? 0)
  && (N.of_nat (size (st_attachments st)) =? 0)
  && forallb (λ o, of_expires_at o <=? now) (btree_values (st_offers st)).

Definition offer_open (current : N) (o : Offer) : bool :=
  negb (of_revoked o) && (current <? of_expires_at o).
(** What [prune_applicants] keeps of the waiting requests. *)
Definition request_fresh (st : ServiceState) (current : N) (a : Applicant) : bool :=
  negb (waiting a)
  || ((saturating_sub current (ap_requested_at a) <? 7 * 86400000)
      && ((ap_invitation a === "")
          || match st_offers st !! ap_invitation a with
             | Some o => offer_open current o
             | None => false
             end)).
Definition prune_applicants (st : ServiceState) (current : N) : ServiceState :=
  let kept := delete_all (λ _ a, negb (request_fresh st current a)) (st_applicants st) in
  with_applicants st
    (if MAX_CHAT_CREDENTIALS <=? N.of_nat (size kept)
     then delete_all (λ _ a, contains ["declined"; "removed"] (ap_status a)) kept
     else kept).

Definition require_applicant_capacity (st : ServiceState) (who : IdentityId) (invitation : string)
    (pending : bool) : result string unit :=
  if pending then
    fail_if ((256 <=? count_over (λ _ a, waiting a) (st_applicants st))
             || (32 <=? count_over (λ _ a, waiting a && (ap_invitation a === invitation))
                          (st_applicants st))
             || (4 <=? count_over (λ _ a, waiting a && (ap_identity a === who)) (st_applicants st)))
      "Space request limit reached."
  else
    fail_if (MAX_CHAT_CREDENTIALS <=? count_over (λ _ a, approved a) (st_applicants st))
      "Space member limit reached.".
