(* ===== verification/HostedAccess.v ===== *)
(** * The hosting service of a Space (crates/elo-core/src/public_space.rs)

    The service itself: its verified General authority, the state file, the checks on what it is
    sent, and who it lets in. Its handlers are written in a monad that keeps the service when a
    request fails. *)

From S2P Require Import Prelude Sums Platform Ids Record Chat Identity AuthorityData AuthorityWitness Authority AuthorityProof CallWire WakeWire Attachments HostedRoles Revocations HostedState.

(** flate2's [ZlibDecoder], read up to a number of bytes, and reqwest's [Url::set_path] followed
    by [as_str]. *)
Class HostedPlatform := {
  zlib_decode : string → N → option string;
  url_set_path : string → string → option string;
}.
Class HostedSerde := {
  serde_space_command :: Serde Command;
  serde_enrollment :: Serde EnrollmentRequest;
  serde_call_proof :: Serde CallAuthorityProof;
  serde_durable :: Serde DurableAdmissionRequest;
  serde_invitation :: Serde SpaceInvitation;
  serde_account :: Serde AccountCommand;
  serde_revocation :: Serde DeviceRevocation;
  state_to_vec : ServiceState → string;
  value_to_vec : value → string;
}.

(** ** Text *)

(** One scalar value in UTF-8. *)
Definition encode_char (c : N) : string :=
  if c <? 128 then String (byte_of c) ""
  else if c <? 2048 then
    String (byte_of (192 + c / 64)) (String (byte_of (128 + c mod 64)) "")
  else if c <? 65536 then
    String (byte_of (224 + c / 4096))
      (String (byte_of (128 + c / 64 mod 64)) (String (byte_of (128 + c mod 64)) ""))
  else
    String (byte_of (240 + c / 262144))
      (String (byte_of (128 + c / 4096 mod 64))
        (String (byte_of (128 + c / 64 mod 64)) (String (byte_of (128 + c mod 64)) ""))).
(** [s.trim()] *)
Definition trim_text (s : string) : string := concat_strings (encode_char <$> trim (chars s)).

Definition prefix_of (p s : string) : option string :=
  if stake (String.length p) s === p then Some (sdrop (String.length p) s) else None.
Definition suffix_of (p s : string) : option string :=
  let n := (String.length s - String.length p)%nat in
  if (sdrop n s === p) && (slen p <=? slen s) then Some (stake n s) else None.
Definition object_len (v : value) : option N :=
  match v with VObject l => Some (nlen l) | _ => None end.

Definition alphanumeric (c : Ascii.ascii) : bool :=
  in_range 48 57 (byte_val c) || in_range 65 90 (byte_val c) || in_range 97 122 (byte_val c).
Definition dot : Ascii.ascii := byte_of 46.
Definition hyphen : Ascii.ascii := byte_of 45.
Fixpoint split_at (c : Ascii.ascii) (l : list Ascii.ascii)
    : list Ascii.ascii * option (list Ascii.ascii) :=
  match l with
  | [] => ([], None)
  | x :: l => if x === c then ([], Some l) else let (a, b) := split_at c l in (x :: a, b)
  end.
Fixpoint split_all (c : Ascii.ascii) (l : list Ascii.ascii) : list (list Ascii.ascii) :=
  match l with
  | [] => [[]]
  | x :: l =>
      if x === c then [] :: split_all c l
      else match split_all c l with [] => [[x]] | w :: ws => (x :: w) :: ws end
  end.
Definition local_byte (b : Ascii.ascii) : bool :=
  alphanumeric b || contains (String.list_ascii_of_string ".!#$%&'*+-/=?^_`{|}~") b.
Definition email_label (l : list Ascii.ascii) : bool :=
  (l =/= []) && (nlen l <=? 63) && (hd_error l =/= Some hyphen) && (last l =/= Some hyphen)
  && forallb (λ b, alphanumeric b || (b === hyphen)) l.
Definition email_local (l : list Ascii.ascii) : bool :=
  (l =/= []) && (nlen l <=? 64) && (hd_error l =/= Some dot) && (last l =/= Some dot)
  && negb (existsb (λ p, (p.1 === dot) && (p.2 === dot)) (windows2 l)) && forallb local_byte l.
(** [validate_contact_email] (app/space_service.rs) *)
Definition validate_contact_email (v : string) : result string unit :=
  let bytes := String.list_ascii_of_string v in
  let valid :=
    (slen v <=? 254) && forallb (λ b, byte_val b <? 128) bytes
    && match split_at (byte_of 64) bytes with
       | (local, Some domain) =>
           email_local local && contains domain dot && forallb email_label (split_all dot domain)
       | (_, None) => false
       end in
  fail_if (negb valid) "Enter a valid contact email address.".

Definition note_error : string := "Enter a note of up to 500 characters.".
Definition join_note (body : value) : result string string :=
  note ← match value_get body "note" with
         | None => Ok ""
         | Some (VString s) => Ok (trim_text s)
         | Some _ => Err note_error
         end;
  _ ← fail_if ((500 <? nlen (chars note))
               || existsb (λ c, is_control c && (c =/= 10) && (c =/= 9)) (chars note)) note_error;
  mret note.

(** ** Records *)

Section Decoding.
Context `{P : Platform} {SA : AuthoritySerde} {W : WitnessSerde} {U : UrlBase64}
  {HP : HostedPlatform} {HS : HostedSerde}.

Definition decode_record (encoded : string) : result string SignedRecord :=
  bytes ← ok_or (base64_decode encoded) "base64";
  map_err (parse bytes) "record".
Definition verify_credential (encoded : string) : result string VerifiedCredential :=
  signed ← decode_record encoded;
  s ← HostedRoles.field (sr_body signed) "root_public_key";
  raw ← map_err (hex 32 s) "record";
  root ← ok_or (vk_from_bytes raw) "signature";
  map_err (Identity.verify (sr_bytes signed) root) "credential".
Definition verify_general_authority (proof : CallAuthorityProof) (trusted : option WitnessPin)
    : result string Authority :=
  g ← decode_record (pf_genesis proof);
  encoded ← ok_or (last (pf_configs proof)) "Missing General configuration.";
  c ← decode_record encoded;
  s ← HostedRoles.field (sr_body c) "stream_id";
  st ← ok_or (parse_hex 16 s) "identifier";
  map_err (match trusted with
           | Some pin => verify_witnessed proof (record_id g) st pin
           | None => proof_verify proof (record_id g) st
           end) "authority".

Definition decode_contact (link : string) : result string value :=
  encoded ← ok_or (prefix_of "elo://exchange/v1#" link) "Invalid enrollment contact.";
  _ ← fail_if (LIMIT * 2 <? slen encoded) "Enrollment contact is too large.";
  bytes ← ok_or (url_base64_decode encoded) "base64";
  plain ← ok_or (zlib_decode bytes (LIMIT + 1)) "zlib";
  v ← map_err (strict_json plain (LIMIT + 72)) "record";
  _ ← fail_if (negb (value_eq_str (value_index v "kind") "Contact")
               || (object_len v =/= Some 3)) "Invalid enrollment contact.";
  mret v.

Definition request_identity (r : Request) : result string (option IdentityId) :=
  match hq_record r with
  | None => Ok None
  | Some record =>
      encoded ← ok_or (hq_credential r) "Missing credential.";
      c ← verify_credential encoded;
      signed ← decode_record record;
      _ ← map_err (verify_signature signed (vc_key c)) "signature";
      mret (Some (vc_identity c))
  end.

(** *** Addresses (app/space_service.rs) *)

Definition service_signer (a : SpaceAddress) : result string (option VerifiedCredential) :=
  transpose ((λ encoded,
    _ ← fail_if (8192 <? slen encoded) "Invalid Space service credential.";
    verify_credential encoded) <$> sa_service_credential a).
Definition service_path (path action : string) : bool :=
  (path === "/team/v1/" +:+ action)
  || match prefix_of "/spaces/" path ≫= suffix_of ("/team/v1/" +:+ action) with
     | Some id => is_ok (hex 32 id)
     | None => false
     end.
Definition address_validate (a : SpaceAddress) (allow_loopback : bool) : result string unit :=
  u ← ok_or (url_parse (sa_url a)) "url";
  let shape := negb (bool_decide (is_Some (url_host u)))
               || (url_username u =/= "")
               || bool_decide (is_Some (url_password u))
               || bool_decide (is_Some (url_query u))
               || bool_decide (is_Some (url_fragment u))
               || negb (service_path (url_path u) "spaces")
               || negb ((url_scheme u === "https")
                        || (allow_loopback && url_loopback u && (url_scheme u === "http"))) in
  _ ← fail_if shape "Invalid Space address.";
  raw ← map_err (hex 32 (ts_root (sa_scope a))) "record";
  root ← ok_or (vk_from_bytes raw) "signature";
  _ ← fail_if (ed25519_weak root) "Invalid Space address.";
  _ ← service_signer a;
  mret tt.

(** [SpaceInvitation::link] *)
Definition invitation_link (a : SpaceAddress) (token : string) : string :=
  PREFIX +:+ url_base64_encode (to_vec {| si_v := 1; si_address := a; si_token := token |}).

(** The last decision the journal holds on a device. *)
Fixpoint declined_in (credential : string) (l : list AdminEvidence) : result string bool :=
  match l with
  | [] => Ok false
  | e :: l =>
      signed ← decode_record (ev_record e);
      let body := sr_body signed in
      if value_eq_str (value_index body "kind") "space.command"
         && value_eq_str (value_index body "action") "decide"
         && value_eq_str (value_index (value_index body "body") "id") credential
      then Ok (value_eq_bool (value_index (value_index body "body") "approve") false)
      else declined_in credential l
  end.
Definition device_was_declined (st : ServiceState) (credential : string) : result string bool :=
  declined_in credential (rev (st_journal st)).

End Decoding.

(** ** The service *)

Record Service := {
  sv_credential : VerifiedCredential;
  sv_authority : Authority;
  sv_allow_loopback : bool;
  sv_trusted_witness : option WitnessPin;
  (** What the state file holds. *)
  sv_stored : ServiceState;
  (** The registry of retired devices, shared by the Spaces of the host. *)
  sv_registry : Registry;
}.
Definition eta_service (s : Service) : Service :=
  Build_Service (sv_credential s) (sv_authority s) (sv_allow_loopback s) (sv_trusted_witness s)
    (sv_stored s) (sv_registry s).
Definition with_authority (s : Service) (v : Authority) : Service :=
  ltac:(set_field eta_service sv_authority s v).
Definition with_stored (s : Service) (v : ServiceState) : Service :=
  ltac:(set_field eta_service sv_stored s v).
Definition with_registry (s : Service) (v : Registry) : Service :=
  ltac:(set_field eta_service sv_registry s v).

(** Which writes of the state file and of a revocation succeed. *)
Class Disk := { disk_state : ServiceState → bool; disk_revocation : SignedRecord → bool }.

(** A handler on [&mut self]: the service it leaves, and its result. *)
Definition M (A : Type) : Type := Service → Service * result string A.
#[global] Instance M_ret : MRet M := λ A a sv, (sv, Ok a).
#[global] Instance M_bind : MBind M := λ A B f m sv,
  match m sv with
  | (sv, Ok a) => f a sv
  | (sv, Err e) => (sv, Err e)
  end.
Definition lift {A} (r : result string A) : M A := λ sv, (sv, r).
Definition self : M Service := λ sv, (sv, Ok sv).
Definition put_authority (a : Authority) : M unit := λ sv, (with_authority sv a, Ok tt).

Section Access.
Context `{P : Platform} {SA : AuthoritySerde} {W : WitnessSerde} {U : UrlBase64}
  {HP : HostedPlatform} {HS : HostedSerde}.

Definition transport_credential (sv : Service) : string :=
  base64_encode (sr_bytes (vc_record (sv_credential sv))).

Definition primary_matches (a : Authority) (st : ServiceState) : bool :=
  match st_roles st with
  | None => false
  | Some r => (to_option (primary_owner_identity a) === Some (ro_primary r))
              && is_owner r (ro_primary r)
  end.
Definition service_state (sv : Service) : result string ServiceState :=
  _ ← fail_if (STATE_LIMIT <? slen (state_to_vec (sv_stored sv))) "Space state is too large.";
  _ ← fail_if (negb (primary_matches (sv_authority sv) (sv_stored sv)))
        "Space primary owner does not match its signed creation.";
  mret (sv_stored sv).
Definition save_service_state {D : Disk} (st : ServiceState) : M unit := λ sv,
  if STATE_LIMIT <? slen (state_to_vec st) then (sv, Err "Space state is too large.")
  else if disk_state st then (with_stored sv st, Ok tt)
  else (sv, Err "write").

Definition team_scope (sv : Service) : result string TeamScope :=
  g ← map_err (decode (T := SpaceGenesis) (genesis (sv_authority sv))) "record";
  owner ← ok_or (find_first (λ o, ow_identity_id o === sg_issuer_identity g) (sg_owners g))
            "Missing General owner.";
  mret {| ts_space := space (sv_authority sv); ts_stream := stream (sv_authority sv);
          ts_root := ow_root_public_key owner;
          ts_controller := sg_controller_credential_id g |}.

(** *** Who is admitted *)

Definition general_member (a : Authority) (id : RecordId) : option IdentityId :=
  to_option (require_member a id).
Definition device_admitted (sv : Service) (id : RecordId) : bool :=
  match general_member (sv_authority sv) id with
  | None => false
  | Some who =>
      match service_state sv with
      | Ok st => negb (is_revoked st id) && negb (is_erased st who) && negb (removal_blocks st who)
      | Err _ => false
      end
  end.
(** [key.parse().ok().is_some_and(|id| self.device_admitted(id))] *)
Definition key_admitted (sv : Service) (key : string) : bool :=
  match parse_hex 32 key with Some id => device_admitted sv id | None => false end.
Definition has_identity (c : StreamConfig) (who : IdentityId) : bool :=
  existsb (λ m, m_identity_id m === who) (sc_members c).
Definition has_device (c : StreamConfig) (who : IdentityId) (id : RecordId) : bool :=
  existsb (λ m, (m_identity_id m === who) && contains (m_credential_ids m) id) (sc_members c).
Definition member_admitted (sv : Service) (who : IdentityId) : bool :=
  match head_config (sv_authority sv) with
  | Ok h => has_identity h who
            && match service_state sv with
               | Ok st => negb (is_erased st who) && negb (removal_blocks st who)
               | Err _ => false
               end
  | Err _ => false
  end.
Definition let_in (st : ServiceState) (m : Member) : bool :=
  negb (is_erased st (m_identity_id m)) && negb (removal_blocks st (m_identity_id m)).
Definition space_access_devices (sv : Service) : result string (list RecordId) :=
  st ← service_state sv;
  h ← map_err (head_config (sv_authority sv)) "authority";
  mret (List.filter (λ id, negb (is_revoked st id))
          (mjoin (m_credential_ids <$> List.filter (let_in st) (sc_members h)))).
Definition space_access_members (sv : Service) : result string (list IdentityId) :=
  st ← service_state sv;
  h ← map_err (head_config (sv_authority sv)) "authority";
  mret (sorted_set ((m_identity_id <$> List.filter (let_in st) (sc_members h))
                    ++ (ap_identity <$> List.filter (λ a, approved a
                                                          && member_admitted sv (ap_identity a))
                                          (btree_values (st_applicants st))))).
(** A device and its profile both have access. *)
Definition has_access (sv : Service) (c : VerifiedCredential) : result string bool :=
  devices ← space_access_devices sv;
  if negb (contains devices (vc_id c)) then Ok false
  else members ← space_access_members sv; Ok (contains members (vc_identity c)).

Definition space_call_device_allowed (sv : Service) (who : IdentityId) (id : RecordId)
    (conversation : CallScope) (h : RecordId) : result string bool :=
  members ← space_access_members sv;
  if negb (contains members who) then Ok false else
  devices ← space_access_devices sv;
  if negb (contains devices id) then Ok false
  else if general_member (sv_authority sv) id =/= Some who then Ok false
  else if (space (sv_authority sv) === cs_space_id conversation)
          && (stream (sv_authority sv) === cs_stream_id conversation)
  then Ok (head (sv_authority sv) === Some h)
  else
    st ← service_state sv;
    Ok match st_call_heads st !! (display (cs_space_id conversation) +:+ ":"
                                  +:+ display (cs_stream_id conversation)) with
       | Some published => ph_head published === h
       | None => false
       end.

Definition space_reservation_is_unused (sv : Service) (now : N) : result string bool :=
  st ← service_state sv; mret (reservation_is_unused st now).
Definition space_service_statistics (sv : Service) : result string (N * N) :=
  st ← service_state sv;
  mret (nlen (sorted_set (ap_identity <$> List.filter approved (btree_values (st_applicants st)))),
        count_over (λ _ a, ap_status a === "pending") (st_applicants st)).
Definition space_role_members (sv : Service) (st : ServiceState) : result string (list RoleMember) :=
  r ← ok_or (st_roles st) "Space roles unavailable.";
  let admitted := List.filter (λ a, member_admitted sv (ap_identity a))
                    (btree_values (st_applicants st)) in
  (** [or_insert]: the first applicant of a profile names it. *)
  let named : gmap IdentityId RoleMember :=
    foldl (λ m a, if bool_decide (is_Some (m !! ap_identity a)) then m
                  else <[ap_identity a := {| rm_identity := ap_identity a; rm_name := ap_name a;
                                             rm_role := role r (ap_identity a) |}]> m)
      ∅ admitted in
  mret (btree_values named).

(** [require_active_device] when the Space is hosted next to a replica. *)
Definition require_active (replica : bool) (sv : Service) (id : RecordId) : result string unit :=
  if replica then require_active_device (sv_registry sv) id else Ok tt.
(** [seconds] is the clock in seconds. *)
Definition require_enrollment (replica : bool) (sv : Service) (who : IdentityId) (seconds : N)
    : result string unit :=
  if replica then require_enrollment_budget (sv_registry sv) who seconds else Ok tt.

(** The device, its profile and the name of an enrollment request. [time] is in milliseconds. *)
Definition space_applicant (sv : Service) (r : EnrollmentRequest) (time : N)
    : result string (IdentityId * RecordId * string) :=
  packet ← decode_contact (en_contact r);
  encoded ← HostedRoles.field packet "credential";
  c ← verify_credential encoded;
  text ← HostedRoles.field packet "card";
  signed ← decode_record text;
  card ← map_err (verify_contact signed c time) "contact";
  proof ← decode_record (en_proof r);
  _ ← map_err (verify_signature proof (vc_key c)) "signature";
  scope ← team_scope sv;
  let body := sr_body proof in
  _ ← fail_if (negb (en_v r =? 1)
               || negb (value_eq_u64 (value_index body "v") 1)
               || negb (value_eq_str (value_index body "kind") "team.join")
               || negb (value_eq_str (value_index body "space") (display (ts_space scope)))
               || negb (value_eq_str (value_index body "stream") (display (ts_stream scope)))
               || negb (value_eq_str (value_index body "controller") (display (ts_controller scope)))
               || negb (value_eq_str (value_index body "contact") (display (record_id signed)))
               || (object_len body =/= Some 6)) "This request belongs to another Space.";
  mret (vc_identity c, vc_id c, ct_name card).
Definition read_enrollment (body : value) : result string EnrollmentRequest :=
  ok_or (from_value (T := EnrollmentRequest) (value_index body "enrollment")) "json".
(** The request must be the signer's own. *)
Definition own_applicant (sv : Service) (r : EnrollmentRequest) (c : VerifiedCredential)
    (time : N) (error : string) : result string string :=
  '(who, device, name) ← space_applicant sv r time;
  _ ← fail_if ((who =/= vc_identity c) || (device =/= vc_id c)) error;
  mret name.

End Access.
