(* ===== verification/HostedFiles.v ===== *)
(** * Attachments of a hosted Space (crates/elo-core/src/public_space/attachments.rs)

    Reservations, uploads, downloads and cleanup of the encrypted files a Space keeps. The
    bytes are in a provider's store; here are the rows that track them and the tokens that open
    them. *)

From S2P Require Import Prelude Sums Platform Ids Record Chat Identity AuthorityData AuthorityWitness Authority AuthorityProof WakeWire Attachments HostedRoles Revocations HostedState HostedAccess.

Definition RESERVATION_TTL_MS : N := 15 * 60 * 1000.
Definition ACCESS_TTL_MS : N := 5 * 60 * 1000.
Definition UNLINKED_UPLOAD_TTL_MS : N := 24 * 60 * 60 * 1000.
Definition MAX_ATTACHMENT_ENTRIES : N := 4096.
Definition MAX_PENDING_UPLOADS_PER_IDENTITY : N := 16.

Definition eta_attachment (a : HostedAttachment) : HostedAttachment :=
  Build_HostedAttachment (ha_object_id a) (ha_issuer a) (ha_plaintext_size a)
    (ha_encrypted_size a) (ha_ciphertext_sha256 a) (ha_created_at_ms a) (ha_expires_at_ms a)
    (ha_reservation_expires_at_ms a) (ha_state a) (ha_message_id a) (ha_terminal_at_ms a).
Definition in_state (a : HostedAttachment) (v : HostedAttachmentState) : HostedAttachment :=
  ltac:(set_field eta_attachment ha_state a v).
Definition linked_to (a : HostedAttachment) (v : option RecordId) : HostedAttachment :=
  ltac:(set_field eta_attachment ha_message_id a v).
Definition ended_at (a : HostedAttachment) (v : N) : HostedAttachment :=
  ltac:(set_field eta_attachment ha_terminal_at_ms a v).

Definition availability (a : HostedAttachment) (current : N) : option AttachmentAvailability :=
  match ha_state a with
  | Available =>
      Some match ha_expires_at_ms a with
           | Some expires => if expires <=? current then AvExpired else AvAvailable
           | None => AvAvailable
           end
  | Expired | DeletingExpired => Some AvExpired
  | Deleted | DeletingDeleted => Some AvDeleted
  | Missing => Some AvMissing
  | Reserved | Uploaded => None
  end.
Definition counts_as_used (a : HostedAttachment) : bool :=
  contains [Available; DeletingExpired; DeletingDeleted] (ha_state a).
Definition counts_as_reserved (a : HostedAttachment) : bool :=
  contains [Reserved; Uploaded] (ha_state a).
Definition is_terminal (a : HostedAttachment) : bool :=
  contains [Deleted; Expired; Missing] (ha_state a).
Definition used_bytes (st : ServiceState) : N :=
  sum_over (λ _ a, if counts_as_used a then ha_encrypted_size a else 0) (st_attachments st).
Definition reserved_bytes (st : ServiceState) : N :=
  sum_over (λ _ a, if counts_as_reserved a then ha_encrypted_size a else 0) (st_attachments st).
Definition bytes_in_state (st : ServiceState) : N * N := (used_bytes st, reserved_bytes st).

Definition require_upload_capacity (st : ServiceState) (who : IdentityId) : result string unit :=
  _ ← fail_if (MAX_ATTACHMENT_ENTRIES <=? N.of_nat (size (st_attachments st)))
        "Attachment file limit reached. Remove old files.";
  fail_if (MAX_PENDING_UPLOADS_PER_IDENTITY
           <=? count_over (λ _ a, (ha_issuer a === who) && counts_as_reserved a)
                 (st_attachments st))
    "Too many pending attachments. Finish or cancel an upload.".

Definition with_attachment (st : ServiceState) (id : AttachmentId) (a : HostedAttachment)
    : ServiceState := with_attachments st (<[id := a]> (st_attachments st)).
Definition drop_access (st : ServiceState) (id : AttachmentId) : ServiceState :=
  with_attachment_access st
    (delete_all (λ _ x, aa_attachment x === id) (st_attachment_access st)).
Definition attachment_id (body : value) : result string AttachmentId :=
  s ← HostedRoles.field body "attachment_id"; ok_or (parse_hex 16 s) "identifier".

(** Storage a new file would use, if it fits. *)
Definition fits (st : ServiceState) (encrypted : N) : bool :=
  match checked_add (used_bytes st) (reserved_bytes st) ≫= (λ n, checked_add n encrypted) with
  | Some n => n <=? MAX_SPACE_ATTACHMENT_STORAGE
  | None => false
  end.
Definition policy_retention (p : AttachmentPolicy) (r : AttachmentRetention) : AttachmentPolicy :=
  {| at_enabled := at_enabled p; at_max_file_bytes := at_max_file_bytes p;
     at_max_space_bytes := at_max_space_bytes p; at_retention := r |}.
Definition policy_enabled (p : AttachmentPolicy) (b : bool) : AttachmentPolicy :=
  {| at_enabled := b; at_max_file_bytes := at_max_file_bytes p;
     at_max_space_bytes := at_max_space_bytes p; at_retention := at_retention p |}.

(** Files a cleanup would remove, and their bytes. *)
Definition old_available (before_ms : N) (a : HostedAttachment) : bool :=
  (ha_state a === Available) && (ha_created_at_ms a <=? before_ms).
Definition old_files (before_ms : N) (st : ServiceState) : N :=
  count_over (λ _ a, old_available before_ms a) (st_attachments st).
Definition old_bytes (before_ms : N) (st : ServiceState) : N :=
  sum_over (λ _ a, if old_available before_ms a then ha_encrypted_size a else 0) (st_attachments st).

Section Files.
Context `{P : Platform} {SA : AuthoritySerde} {W : WitnessSerde} {U : UrlBase64}
  {HP : HostedPlatform} {HS : HostedSerde}.

Definition token_hash (token : string) : string :=
  encode_hex (sha256 (("elo.now/attachment-access/v1" +:+ nul) +:+ token)).

Definition attachment_member_capability (sv : Service) (c : VerifiedCredential)
    (cap : Capability) : bool :=
  match space_access_members sv with
  | Ok members =>
      contains members (vc_identity c)
      && match head_config (sv_authority sv) with
         | Ok h =>
             match find_first (λ m, (m_identity_id m === vc_identity c)
                                    && contains (m_credential_ids m) (vc_id c)) (sc_members h) with
             | Some m => has_capability m cap
             | None => false
             end
         | Err _ => false
         end
  | Err _ => false
  end.

(** *** Reservations *)

Definition new_attachment (st : ServiceState) (object : AttachmentObjectId) (who : IdentityId)
    (plain encrypted : N) (checksum : string) (current : N) : HostedAttachment :=
  {| ha_object_id := object; ha_issuer := who; ha_plaintext_size := plain;
     ha_encrypted_size := encrypted; ha_ciphertext_sha256 := checksum;
     ha_created_at_ms := current;
     ha_expires_at_ms := policy_expires_at (st_attachment_policy st) current;
     ha_reservation_expires_at_ms := current + RESERVATION_TTL_MS; ha_state := Reserved;
     ha_message_id := None; ha_terminal_at_ms := 0 |}.
Definition grant (st : ServiceState) (token : string) (id : AttachmentId) (kind : string)
    (c : VerifiedCredential) (expires : N) : ServiceState :=
  with_attachment_access st
    (<[token_hash token := {| aa_attachment := id; aa_kind := kind;
                              aa_credential := Some (vc_id c); aa_expires_at_ms := expires |}]>
       (st_attachment_access st)).

(** The state with the new reservation, and the answer. [draw] is the random token. A missing
    size reads as [u64::MAX], which is over the limit whatever the encrypted size wraps to. *)
Definition reserve (st : ServiceState) (c : VerifiedCredential) (body : value) (current : N)
    (draw : option string) : result string (ServiceState * AttachmentReply) :=
  _ ← policy_validate (st_attachment_policy st);
  _ ← fail_if (negb (at_enabled (st_attachment_policy st)))
        "Attachments are disabled for this Space.";
  id ← attachment_id body;
  text ← HostedRoles.field body "object_id";
  object ← ok_or (parse_hex 16 text) "identifier";
  let plain := default u64_max (value_as_u64 (value_index body "plaintext_size")) in
  let encrypted := default u64_max (value_as_u64 (value_index body "encrypted_size")) in
  checksum ← map_err (HostedRoles.field body "ciphertext_sha256") "Invalid attachment checksum.";
  _ ← map_err (hex 32 checksum) "Invalid attachment checksum.";
  _ ← fail_if ((MAX_ATTACHMENT_FILE_SIZE <? plain) || (encrypted =/= encrypted_size plain))
        "Attachment files cannot exceed 5 MB.";
  _ ← fail_if (bool_decide (is_Some (st_attachments st !! id))
               || existsb (λ a, ha_object_id a === object) (btree_values (st_attachments st)))
        "Attachment identifiers must be unique.";
  _ ← require_upload_capacity st (vc_identity c);
  _ ← fail_if (negb (fits st encrypted)) "Attachment storage is full.";
  token ← map_err (random_hex draw) "random";
  let a := new_attachment st object (vc_identity c) plain encrypted checksum current in
  mret (grant (with_attachment st id a) token id "upload" c (current + RESERVATION_TTL_MS),
        AtReserved id object token current (ha_expires_at_ms a)).

(** *** The issuer's commands *)

(** [None] is the answer that leaves the state alone. *)
Definition cancel (st : ServiceState) (c : VerifiedCredential) (body : value)
    : result string (option ServiceState) :=
  id ← attachment_id body;
  match st_attachments st !! id with
  | None => mret None
  | Some a =>
      _ ← fail_if ((ha_issuer a =/= vc_identity c) || bool_decide (is_Some (ha_message_id a)))
            "A sent attachment cannot be cancelled.";
      let st := if is_terminal a then st else with_attachment st id (in_state a DeletingDeleted) in
      mret (Some (drop_access st id))
  end.
Definition commit (st : ServiceState) (c : VerifiedCredential) (body : value)
    : result string ServiceState :=
  id ← attachment_id body;
  a ← ok_or (st_attachments st !! id) "Attachment upload reservation was not found.";
  _ ← fail_if ((ha_issuer a =/= vc_identity c) || negb (contains [Uploaded; Available] (ha_state a)))
        "Attachment upload is incomplete.";
  mret (with_attachment st id (in_state a Available)).
Definition link (st : ServiceState) (c : VerifiedCredential) (body : value)
    : result string ServiceState :=
  id ← attachment_id body;
  text ← HostedRoles.field body "message_id";
  message ← parse_id text;
  a ← ok_or (st_attachments st !! id) "Attachment was not found.";
  _ ← fail_if ((ha_issuer a =/= vc_identity c) || (ha_state a =/= Available))
        "Attachment is not available.";
  mret (with_attachment st id (linked_to a (Some message))).

(** *** Reading *)

Definition status_word (v : AttachmentAvailability) : string :=
  match v with
  | AvAvailable => "available" | AvExpired => "expired" | AvDeleted => "deleted"
  | AvMissing => "missing"
  end.
Definition download (st : ServiceState) (c : VerifiedCredential) (body : value) (current : N)
    (draw : option string) : result string (option ServiceState * AttachmentReply) :=
  id ← attachment_id body;
  match st_attachments st !! id with
  | None => mret (None, AtStatus "missing")
  | Some a =>
      match availability a current with
      | None => mret (None, AtStatus "missing")
      | Some AvAvailable =>
          token ← map_err (random_hex draw) "random";
          let expires := N.min (default (current + ACCESS_TTL_MS) (ha_expires_at_ms a))
                           (current + ACCESS_TTL_MS) in
          mret (Some (grant st token id "download" c expires), AtDownload token)
      | Some v => mret (None, AtStatus (status_word v))
      end
  end.
Definition state_of (st : ServiceState) (current : N) (id : AttachmentId)
    : AttachmentAvailability :=
  default AvMissing (st_attachments st !! id ≫= (λ a, availability a current)).
Definition status (st : ServiceState) (body : value) (current : N)
    : result string AttachmentReply :=
  ids ← match value_index body "attachment_ids" with
        | VArray ids => if nlen ids <=? 64 then Ok ids else Err "Request up to 64 attachment states."
        | _ => Err "Request up to 64 attachment states."
        end;
  states ← try_fold (λ m v,
    text ← ok_or (value_as_str v) "Invalid attachment ID.";
    id ← ok_or (parse_hex 16 text) "Invalid attachment ID.";
    mret (<[text := state_of st current id]> m)) (∅ : gmap string AttachmentAvailability) ids;
  mret (AtStates states).

(** *** The owner's commands *)

Definition set_retention (st : ServiceState) (body : value) : result string ServiceState :=
  hours ← ok_or (value_as_u64 (value_index body "hours")) "attachment_retention_invalid";
  _ ← fail_if (negb (retention_choice hours)) "attachment_retention_invalid";
  mret (with_attachment_policy st (policy_retention (st_attachment_policy st) (Hours hours))).
Definition days_of (body : value) : option N :=
  n ← value_as_u64 (value_index body "days"); if in_range 1 36500 n then Some n else None.
Definition cleanup_preview (st : ServiceState) (body : value) (current : N)
    : result string AttachmentReply :=
  days ← ok_or (days_of body) "Enter a whole number of days between 1 and 36500.";
  let before := saturating_sub current (days * 86400000) in
  mret (AtPreview (old_files before st) (old_bytes before st) before days).
Definition schedule_cleanup (before_ms : N) (st : ServiceState) : ServiceState :=
  with_attachments st
    (update_all (λ _ a, if old_available before_ms a then in_state a DeletingDeleted else a)
       (st_attachments st)).
Definition cleanup (st : ServiceState) (body : value) (current : N)
    : result string (ServiceState * AttachmentReply) :=
  before ← ok_or (n ← value_as_u64 (value_index body "before_ms");
                  if n <=? current then Some n else None) "Confirm attachment cleanup first.";
  _ ← fail_if (negb (value_eq_bool (value_index body "confirmed") true))
        "Confirm attachment cleanup first.";
  mret (schedule_cleanup before st, AtScheduled (old_files before st) (old_bytes before st)).

(** *** [attachment_space_command] *)

Definition is_attachment_action (action : string) : bool :=
  bool_decide (is_Some (prefix_of "attachment_" action)).

Definition saving {D : Disk} (r : result string (ServiceState * AttachmentReply))
    : M (ServiceState * Reply) :=
  '(st, reply) ← lift r;
  _ ← save_service_state st;
  mret (st, RpAttachment reply).

Definition attachment_space_command {D : Disk} (st : ServiceState) (c : VerifiedCredential)
    (owner : bool) (command : Command) (current : N) (draw : option string)
    : option (M (ServiceState * Reply)) :=
  let action := hc_action command in
  let body := hc_body command in
  let read sv := attachment_member_capability sv c Read in
  let post sv := attachment_member_capability sv c Post in
  let allowed (b : Service → bool) (m : M (ServiceState * Reply)) : M (ServiceState * Reply) :=
    sv ← self;
    if b sv then m
    else lift (Err "You do not have permission to manage these attachments.") in
  if negb (is_attachment_action action) then None
  else Some (
    if action === "attachment_settings" then
      allowed read (mret (st, RpAttachment (AtUsage (st_attachment_policy st) (used_bytes st)
                                              (reserved_bytes st))))
    else if action === "attachment_reserve" then
      allowed post (saving (reserve st c body current draw))
    else if action === "attachment_cancel" then
      allowed post (
        r ← lift (cancel st c body);
        match r with
        | None => mret (st, RpAttachment (AtStatus "cancelled"))
        | Some st => saving (Ok (st, AtStatus "cancelled"))
        end)
    else if action === "attachment_commit" then
      allowed post (saving ((λ st, (st, AtStatus "available")) <$> commit st c body))
    else if action === "attachment_link" then
      allowed post (saving ((λ st, (st, AtStatus "linked")) <$> link st c body))
    else if action === "attachment_download" then
      allowed read (
        '(st', reply) ← lift (download st c body current draw);
        match st' with
        | None => mret (st, RpAttachment reply)
        | Some st => saving (Ok (st, reply))
        end)
    else if action === "attachment_status" then
      allowed read (reply ← lift (status st body current); mret (st, RpAttachment reply))
    else if action === "attachment_retention" then
      allowed (λ _, owner)
        (saving ((λ st, (st, AtPolicy (st_attachment_policy st))) <$> set_retention st body))
    else if action === "attachment_cleanup_preview" then
      allowed (λ _, owner) (reply ← lift (cleanup_preview st body current);
                            mret (st, RpAttachment reply))
    else if action === "attachment_cleanup" then
      allowed (λ _, owner) (saving (cleanup st body current))
    else lift (Err "You do not have permission to manage these attachments.")).

(** ** The host's side of transfers and cleanup *)

Record AttachmentTransferGrant := {
  tg_credential : option RecordId; tg_attachment_id : AttachmentId;
  tg_object_id : AttachmentObjectId; tg_encrypted_size : N; tg_ciphertext_sha256 : string;
}.
Definition transfer_grant (access : AttachmentAccess) (a : HostedAttachment)
    : AttachmentTransferGrant :=
  {| tg_credential := aa_credential access; tg_attachment_id := aa_attachment access;
     tg_object_id := ha_object_id a; tg_encrypted_size := ha_encrypted_size a;
     tg_ciphertext_sha256 := ha_ciphertext_sha256 a |}.
Definition find_access (st : ServiceState) (token kind : string) (current : N)
    : option AttachmentAccess :=
  a ← st_attachment_access st !! token_hash token;
  if (aa_kind a === kind) && (current <=? aa_expires_at_ms a) then Some a else None.
Definition access_admitted (sv : Service) (access : AttachmentAccess) : bool :=
  match aa_credential access with
  | Some id =>
      match space_access_devices sv with Ok devices => contains devices id | Err _ => false end
  | None => false
  end.

Definition attachment_upload_grant (sv : Service) (token : string) (current : N)
    : result string AttachmentTransferGrant :=
  st ← service_state sv;
  access ← ok_or (find_access st token "upload" current)
             "Attachment upload authorization expired.";
  _ ← fail_if (negb (access_admitted sv access))
        "This device is no longer admitted to the Space.";
  a ← ok_or (st_attachments st !! aa_attachment access) "Attachment upload was not found.";
  _ ← fail_if (ha_state a =/= Reserved) "Attachment upload is no longer pending.";
  mret (transfer_grant access a).
Definition attachment_download_grant (sv : Service) (token : string) (current : N)
    : result string AttachmentTransferGrant :=
  st ← service_state sv;
  access ← ok_or (find_access st token "download" current)
             "Attachment download authorization expired.";
  _ ← fail_if (negb (access_admitted sv access))
        "This device is no longer admitted to the Space.";
  a ← ok_or (st_attachments st !! aa_attachment access) "Attachment was not found.";
  _ ← fail_if (availability a current =/= Some AvAvailable) "Attachment is no longer available.";
  mret (transfer_grant access a).

Definition uploaded (st : ServiceState) (token : string) (current : N)
    : result string ServiceState :=
  access ← ok_or (find_access st token "upload" current)
             "Attachment upload authorization expired.";
  a ← ok_or (st_attachments st !! aa_attachment access) "Attachment upload was not found.";
  _ ← fail_if (ha_state a =/= Reserved) "Attachment upload is no longer pending.";
  mret (with_attachment
          (with_attachment_access st (delete (token_hash token) (st_attachment_access st)))
          (aa_attachment access) (in_state a Uploaded)).

(** What a cleanup pass makes of one file. *)
Definition age (current : N) (a : HostedAttachment) : HostedAttachment :=
  if (ha_state a === Reserved) && (ha_reservation_expires_at_ms a <? current)
  then in_state a DeletingDeleted
  else if (ha_state a === Uploaded) && (ha_reservation_expires_at_ms a <? current)
  then in_state a DeletingDeleted
  else if (ha_state a === Available)
          && match ha_expires_at_ms a with Some e => e <=? current | None => false end
  then in_state a DeletingExpired
  else if (ha_state a === Available) && bool_decide (ha_message_id a = None)
          && (saturating_add (ha_created_at_ms a) UNLINKED_UPLOAD_TTL_MS <=? current)
  then in_state a DeletingDeleted
  else a.
Definition ended_before (p q : AttachmentId * N) : Prop :=
  p.2 < q.2 ∨ (p.2 = q.2 ∧ String.le p.1 q.1).
#[global] Instance ended_before_dec : RelDecision ended_before.
Proof. intros p q. unfold ended_before. apply _. Defined.
(** The rows of finished files that are forgotten: all but the last 512, and the old ones. *)
Definition forgotten (st : ServiceState) (current : N) : list AttachmentId :=
  let terminal := merge_sort ended_before
    ((λ p, (p.1, ha_terminal_at_ms p.2)) <$>
       List.filter (λ p, is_terminal p.2) (btree_list (st_attachments st))) in
  let excess := saturating_sub (nlen terminal) 512 in
  (λ p, p.2.1) <$>
    List.filter (λ p, (N.of_nat p.1 <? excess)
                      || (30 * 86400 * 1000 <? saturating_sub current p.2.2))
      (imap pair terminal).
Definition to_delete (st : ServiceState) : list (AttachmentId * AttachmentObjectId) :=
  (λ p, (p.1, ha_object_id p.2)) <$>
    List.filter (λ p, contains [DeletingExpired; DeletingDeleted] (ha_state p.2))
      (btree_list (st_attachments st)).
Definition cleanup_pass (st : ServiceState) (current : N) : ServiceState :=
  let remove := forgotten st current in
  let st := with_attachment_access st
    (delete_all (λ _ x, aa_expires_at_ms x <? current) (st_attachment_access st)) in
  let st := with_attachments st (update_all (λ _ a, age current a) (st_attachments st)) in
  foldl (λ st id, drop_access (with_attachments st (delete id (st_attachments st))) id) st remove.

Definition finish_cleanup (st : ServiceState) (id : AttachmentId) (time : N)
    : result string ServiceState :=
  a ← ok_or (st_attachments st !! id) "Attachment was not found.";
  v ← match ha_state a with
      | DeletingExpired => Ok Expired
      | DeletingDeleted => Ok Deleted
      | _ => Err "Attachment cleanup was not pending."
      end;
  mret (with_attachment st id (in_state (ended_at a time) v)).
Definition mark_missing (st : ServiceState) (id : AttachmentId) (time : N)
    : result string ServiceState :=
  a ← ok_or (st_attachments st !! id) "Attachment was not found.";
  mret (with_attachment st id (ended_at (in_state a Missing) time)).

(** A change of the stored state by the host. *)
Definition host_change {D : Disk} {A} (f : ServiceState → result string (ServiceState * A)) : M A :=
  sv ← self;
  st ← lift (service_state sv);
  '(st, a) ← lift (f st);
  _ ← save_service_state st;
  mret a.
Definition attachment_upload_complete {D : Disk} (token : string) (current : N) : M unit :=
  host_change (λ st, st ← uploaded st token current; mret (st, tt)).
Definition attachment_cleanup_targets {D : Disk} (current : N) (limit : nat)
    : M (list (AttachmentId * AttachmentObjectId)) :=
  host_change (λ st, let st := cleanup_pass st current in mret (st, take limit (to_delete st))).
Definition attachment_cleanup_complete {D : Disk} (id : AttachmentId) (time : N) : M unit :=
  host_change (λ st, st ← finish_cleanup st id time; mret (st, tt)).
Definition attachment_mark_missing {D : Disk} (id : AttachmentId) (time : N) : M unit :=
  host_change (λ st, st ← mark_missing st id time; mret (st, tt)).
Definition set_attachment_storage_available {D : Disk} (available : bool) : M unit :=
  sv ← self;
  st ← lift (service_state sv);
  if negb (Bool.eqb (at_enabled (st_attachment_policy st)) available) then
    save_service_state (with_attachment_policy st (policy_enabled (st_attachment_policy st) available))
  else mret tt.

(** [attachment_all_targets], [attachment_storage_usage] and the objects of
    [attachment_backup_inventory]. *)
Definition attachment_all_targets (sv : Service)
    : result string (list (AttachmentId * AttachmentObjectId)) :=
  st ← service_state sv;
  mret ((λ p, (p.1, ha_object_id p.2)) <$>
          List.filter (λ p, negb (contains [Expired; Deleted] (ha_state p.2)))
            (btree_list (st_attachments st))).
Definition attachment_storage_usage (sv : Service) : result string (N * N * N) :=
  st ← service_state sv;
  mret (used_bytes st, reserved_bytes st, count_over (λ _ a, counts_as_used a) (st_attachments st)).
Definition backup_objects (sv : Service) : result string (list (AttachmentObjectId * N * string)) :=
  st ← service_state sv;
  mret ((λ a, (ha_object_id a, ha_encrypted_size a, ha_ciphertext_sha256 a)) <$>
          List.filter (λ a, contains [Uploaded; Available] (ha_state a))
            (btree_values (st_attachments st))).

End Files.
