(* ===== verification/HostedCalls.v ===== *)
(** * Conversations of a hosted Space (crates/elo-core/src/public_space/calls.rs,
    public_space/notes.rs, notes.rs)

    The heads of the chats that may use the Space, each replaced only by a proved successor, and
    the one private Notes chat a profile may register. *)

From S2P Require Import Prelude Sums Platform Ids Record Chat Identity AuthorityData AuthorityWitness Authority AuthorityProof CallWire WakeWire Attachments HostedRoles Revocations HostedState HostedAccess.

(** notes.rs *)
Definition MAX_PROOF : N := 512 * 1024.

Section HostedCalls.
Context `{P : Platform} {SA : AuthoritySerde} {W : WitnessSerde} {U : UrlBase64}
  {HP : HostedPlatform} {HS : HostedSerde}.

(** ** Chat heads *)

Definition head_key (sp : SpaceId) (st : StreamId) : string := display sp +:+ ":" +:+ display st.
Definition head_credentials (c : StreamConfig) : list RecordId :=
  mjoin (m_credential_ids <$> sc_members c).
Definition stale_head : string := "Chat permissions have changed. Sync before trying again.".

(** What a head may be replaced by, and who may register a first one. *)
Definition head_accepted (st : ServiceState) (c : VerifiedCredential) (key : string)
    (a : Authority) (h : RecordId) (sequence : N) : result string unit :=
  match st_call_heads st !! key with
  | Some previous =>
      _ ← fail_if (negb (proves_recovery_ancestor a (ph_recovery previous))) stale_head;
      fail_if ((ph_head previous =/= h)
               && ((sequence <=? ph_sequence previous)
                   || negb (proves_config_at a (ph_head previous) (ph_sequence previous))))
        stale_head
  | None =>
      _ ← fail_if (negb (sequence =? 1) || ((vc_id <$> controller a) =/= Some (vc_id c)))
            "This chat has no registered call permissions.";
      fail_if (4096 <=? N.of_nat (size (st_call_heads st))) "Space call permission limit reached."
  end.

(** [record_space_call_head], given the scope and the proof the body names. *)
Definition record_head (sv : Service) (st : ServiceState) (c : VerifiedCredential)
    (sp : SpaceId) (stream_ : StreamId) (proof : result string CallAuthorityProof)
    : result string (ServiceState * RecordId) :=
  _ ← fail_if ((sp === space (sv_authority sv)) && (stream_ === stream (sv_authority sv)))
        "General permissions are managed by the Space.";
  proof ← proof;
  a ← map_err (proof_verify proof sp stream_) "authority";
  h ← ok_or (head a) "Chat permissions unavailable.";
  config ← map_err (head_config a) "authority";
  _ ← head_accepted st c (head_key sp stream_) a h (sc_sequence config);
  let published := {| ph_head := h; ph_sequence := sc_sequence config;
                      ph_recovery := recovery_id a; ph_credentials := head_credentials config |} in
  mret (with_call_heads st (<[head_key sp stream_ := published]> (st_call_heads st)), h).
Definition may_publish_head (sv : Service) (st : ServiceState) (c : VerifiedCredential)
    : result string unit :=
  fail_if ((general_member (sv_authority sv) (vc_id c) =/= Some (vc_identity c))
           || negb (has_applicant st (vc_identity c) ["approved"]))
    "This device cannot publish chat permissions.".
Definition body_scope (body : value) : result string (SpaceId * StreamId) :=
  text ← HostedRoles.field body "space";
  sp ← parse_id text;
  text ← HostedRoles.field body "stream";
  st ← ok_or (parse_hex 16 text) "identifier";
  mret (sp, st).
Definition body_proof (body : value) : result string CallAuthorityProof :=
  ok_or (from_value (T := CallAuthorityProof) (value_index body "proof")) "json".
Definition record_space_call_head (sv : Service) (st : ServiceState) (c : VerifiedCredential)
    (body : value) : result string (ServiceState * RecordId) :=
  _ ← may_publish_head sv st c;
  '(sp, stream_) ← body_scope body;
  record_head sv st c sp stream_ (body_proof body).

(** notes.rs [stream] *)
Definition notes_stream (hosting : SpaceId) (general : StreamId) (who : IdentityId) : StreamId :=
  stake 16 (sha256 (("elo.now/notes/v1" +:+ nul) +:+ hosting +:+ general +:+ who)).
Definition own_notes_stream (a : Authority) (who : IdentityId) : StreamId :=
  notes_stream (space a) (stream a) who.

Definition publish_space_call_head {D : Disk} (st : ServiceState) (c : VerifiedCredential)
    (body : value) : M (ServiceState * Reply) :=
  sv ← self;
  _ ← lift (fail_if (value_eq_str (value_index body "stream")
                       (display (own_notes_stream (sv_authority sv) (vc_identity c))))
              "Notes permissions require the Notes registry.");
  '(st, h) ← lift (record_space_call_head sv st c body);
  _ ← save_service_state st;
  mret (st, RpHead (Some h)).

Definition current_head (sv : Service) (st : ServiceState) (sp : SpaceId) (stream_ : StreamId)
    : result string (RecordId * list RecordId) :=
  if (space (sv_authority sv) === sp) && (stream (sv_authority sv) === stream_) then
    h ← ok_or (head (sv_authority sv)) "Chat permissions unavailable.";
    config ← map_err (head_config (sv_authority sv)) "authority";
    mret (h, head_credentials config)
  else
    published ← ok_or (st_call_heads st !! head_key sp stream_)
                  "Chat permissions need to be refreshed.";
    mret (ph_head published, ph_credentials published).
Definition check_space_chat_head (sv : Service) (st : ServiceState) (c : VerifiedCredential)
    (body : value) (time : N) : result string (RecordId * N) :=
  _ ← fail_if (is_erased st (vc_identity c)) "This account was deleted from this service.";
  _ ← map_err (require_member (sv_authority sv) (vc_id c)) "authority";
  admitted ← has_access sv c;
  _ ← fail_if (negb admitted) "This device is no longer admitted to the Space.";
  '(sp, stream_) ← body_scope body;
  text ← HostedRoles.field body "head";
  expected ← parse_id text;
  '(h, credentials) ← current_head sv st sp stream_;
  _ ← fail_if ((h =/= expected) || negb (contains credentials (vc_id c)))
        "Chat permissions need to be refreshed.";
  current ← space_access_devices sv;
  _ ← fail_if (existsb (λ id, negb (contains current id)) credentials)
        "Chat devices have changed. The chat owner needs to update access.";
  mret (h, time).

(** ** Notes *)

(** Every configuration holds its owner alone. *)
Definition notes_config_ok (a : Authority) (who : IdentityId) (encoded : string)
    : result string unit :=
  r ← decode_record encoded;
  c ← map_err (config a (record_id r)) "authority";
  fail_if ((sc_chat_kind c =/= Some KDirect)
           || negb (nlen (sc_members c) =? 1)
           || negb (forallb (λ m, (m_identity_id m === who) && (m_identity_type m === "HUMAN"))
                      (sc_members c))) "Notes cannot contain other people.".
Definition verify_notes_scope (proof : CallAuthorityProof) (general : Authority)
    (who : IdentityId) : result string Authority :=
  _ ← fail_if (negb (pf_v proof =? 1)
               || bool_decide (is_Some (pf_checkpoint proof))
               || (256 <? nlen (pf_configs proof))
               || (MAX_PROOF <? slen (to_vec proof))) "Invalid Notes authority.";
  g ← decode_record (pf_genesis proof);
  body ← map_err (decode (T := SpaceGenesis) g) "record";
  _ ← fail_if (negb (sg_v body =? 3)
               || negb (nlen (sg_owners body) =? 1)
               || negb (forallb (λ o, ow_identity_id o === who) (sg_owners body)))
        "Notes must belong only to this profile.";
  a ← map_err (proof_verify proof (record_id g) (own_notes_stream general who)) "authority";
  _ ← try_fold (λ _ encoded, notes_config_ok a who encoded) tt (pf_configs proof);
  mret a.
Definition verify_notes (proof : CallAuthorityProof) (general : Authority) (who : IdentityId)
    : result string Authority :=
  a ← verify_notes_scope proof general who;
  h ← map_err (head_config general) "authority";
  member ← ok_or (find_first (λ m, m_identity_id m === who) (sc_members h))
             "This profile is no longer in the Space.";
  config ← map_err (head_config a) "authority";
  first ← ok_or (hd_error (sc_members config)) "members";
  _ ← fail_if (existsb (λ id, negb (contains (m_credential_ids member) id))
                 (m_credential_ids first))
        "Notes devices have changed. Open Notes on its original device to update access.";
  mret a.

(** How a new proof relates to the registered one: [None] keeps the registered proof. *)
Definition notes_update (general : Authority) (who : IdentityId) (next : Authority)
    (stored : option CallAuthorityProof) (expected : value) (registered : N)
    : result string bool :=
  match stored with
  | Some previous =>
      g ← decode_record (pf_genesis previous);
      prior ← map_err (proof_verify previous (record_id g) (own_notes_stream general who))
                "authority";
      if (space next =/= space prior) || (head next === head prior) then Ok false
      else
        h ← ok_or (head prior) "Missing Notes head.";
        config ← map_err (head_config prior) "authority";
        _ ← fail_if (negb (value_eq_id expected (head prior))
                     || negb (proves_config_at next h (sc_sequence config))
                     || negb (proves_recovery_ancestor next (recovery_id prior)))
              "Notes have changed. Refresh and try again.";
        Ok true
  | None =>
      config ← map_err (head_config next) "authority";
      _ ← fail_if (match expected with VNull => false | _ => true end
                   || negb (sc_sequence config =? 1)
                   || (1000 <=? registered)) "Notes cannot be registered.";
      Ok true
  end.
Definition present_proof (body : value) : option value :=
  v ← value_get body "proof"; match v with VNull => None | _ => Some v end.

Definition notes_command {D : Disk} (st : ServiceState) (c : VerifiedCredential) (body : value)
    : M (ServiceState * Reply) :=
  sv ← self;
  let general := sv_authority sv in
  let who := vc_identity c in
  let refresh := "General permissions have changed. Refresh and try again." in
  _ ← lift (fail_if (negb (value_eq_id (value_index body "general_head") (head general))
                     || is_revoked st (vc_id c) || is_erased st who) refresh);
  member ← lift (map_err (require_member general (vc_id c)) "authority");
  _ ← lift (fail_if (member =/= who) refresh);
  match present_proof body with
  | None => mret (st, RpNotes (st_notes st !! who) (head general))
  | Some v =>
      _ ← lift (fail_if (MAX_PROOF <? slen (value_to_vec v)) "Notes authority is too large.");
      proof ← lift (ok_or (from_value (T := CallAuthorityProof) v) "json");
      next ← lift (verify_notes proof general who);
      _ ← lift (fail_if ((vc_id <$> controller next) =/= Some (vc_id c))
                  "Only the Notes controller can update its devices.");
      let stored := st_notes st !! who in
      changed ← lift (notes_update general who next stored (value_index body "expected_head")
                        (N.of_nat (size (st_notes st))));
      if negb changed then mret (st, RpNotes stored (head general))
      else
        '(st, _) ← lift (_ ← may_publish_head sv st c;
                         record_head sv st c (space next) (stream next) (Ok proof));
        let st := with_notes st (<[who := proof]> (st_notes st)) in
        _ ← save_service_state st;
        mret (st, RpNotes (Some proof) (head general))
  end.

End HostedCalls.
