(* ===== verification/HostedAdmission.v ===== *)
(** * Administration of a hosted Space (crates/elo-core/src/public_space.rs,
    owner_admission.rs)

    The journal of signed intents and its commitment, the publication of a new General
    configuration, the retirement of devices and of accounts. *)

From S2P Require Import Prelude Sums Platform Ids Record Chat Identity AuthorityData AuthorityWitness Authority AuthorityProof CallWire WakeWire Attachments HostedRoles Revocations HostedState HostedAccess HostedFiles.

(** owner_admission.rs *)
Definition MAX_JOURNAL : N := 4096.
Definition MAX_CONTACT : N := 1024 * 1024.
(** account_deletion.rs *)
Definition DELETION_PATH : string := "/accounts/v1/deletion".

Definition history_full : string := "Space administration history limit reached.".
Definition changed_error : string := "General permissions have changed. Refresh and try again.".

Section Evidence.
Context `{P : Platform} {SA : AuthoritySerde} {W : WitnessSerde} {U : UrlBase64}
  {HP : HostedPlatform} {HS : HostedSerde}.

(** ** Evidence (owner_admission.rs) *)

Definition signed_text (encoded : string) : result string SignedRecord :=
  _ ← fail_if (MAX_CONTACT * 2 <? slen encoded) "Admission proof is too large.";
  bytes ← ok_or (base64_decode encoded) "base64";
  map_err (parse bytes) "record".
Definition credential_text (encoded : string) : result string VerifiedCredential :=
  record ← signed_text encoded;
  s ← HostedRoles.field (sr_body record) "root_public_key";
  raw ← map_err (hex 32 s) "record";
  root ← ok_or (vk_from_bytes raw) "signature";
  map_err (Identity.verify (sr_bytes record) root) "credential".
Definition is_revocation (r : SignedRecord) : bool :=
  value_eq_str (value_index (sr_body r) "kind") "device.revoked".
(** An intent with its signer; of a revocation, the device it revokes. *)
Definition evidence (e : AdminEvidence) : result string (SignedRecord * VerifiedCredential) :=
  c ← credential_text (ev_credential e);
  record ← signed_text (ev_record e);
  _ ← (if is_revocation record then
         target ← map_err (revocation_verify record) "record";
         fail_if (vc_id target =/= vc_id c) "Device revocation evidence changed its target."
       else map_err (verify_signature record (vc_key c)) "signature");
  mret (record, c).

Definition commitment_step (s : gset RecordId * string) (e : AdminEvidence)
    : result string (gset RecordId * string) :=
  '(record, c) ← evidence e;
  _ ← fail_if (bool_decide (record_id record ∈ s.1)) "Duplicate Space administration intent.";
  mret ({[record_id record]} ∪ s.1, s.2 +:+ record_id record +:+ vc_id c).
Definition journal_commitment (journal : list AdminEvidence) : result string (option RecordId) :=
  _ ← fail_if (MAX_JOURNAL <? nlen journal) "Space administration history is too large.";
  if journal === [] then Ok None
  else
    s ← try_fold commitment_step (∅, "") journal;
    mret (Some (sha256 (("elo.owner-general.admin-journal/v1" +:+ nul)
                        +:+ be_bytes 8 (nlen journal) +:+ s.2))).

(** ** The journal of the service *)

Definition evidence_of (record : SignedRecord) (c : VerifiedCredential) : AdminEvidence :=
  {| ev_record := base64_encode (sr_bytes record);
     ev_credential := base64_encode (sr_bytes (vc_record c)) |}.
Definition push_journal (st : ServiceState) (e : AdminEvidence) : ServiceState :=
  with_journal st (st_journal st ++ [e]).
(** An intent is stored once, and never beyond the limit. *)
Definition append_intent (st : ServiceState) (e : AdminEvidence) : result string ServiceState :=
  if in_journal st (ev_record e) then Ok st
  else
    _ ← fail_if (4096 <=? nlen (st_journal st)) history_full;
    Ok (push_journal st e).

(** ** [authority_status] *)

Definition key_revoked (st : ServiceState) (key : string) : bool :=
  match parse_hex 32 key with Some id => is_revoked st id | None => false end.
Definition pending_enrollments (st : ServiceState) : list PendingEnrollment :=
  (λ p, {| pe_credential := p.1; pe_request := ap_request p.2;
           pe_authorization := ap_authorization p.2;
           pe_invitation_authorization :=
             st_offers st !! ap_invitation p.2 ≫= of_authorization |}) <$>
    List.filter (λ p, (ap_status p.2 === "eligible") && negb (key_revoked st p.1)
                      && negb (is_erased st (ap_identity p.2))) (btree_list (st_applicants st)).
Definition removed_members (st : ServiceState) : list IdentityId :=
  List.filter (λ who, negb (has_applicant st who ["eligible"; "approved"]))
    (btree_list (st_removals st)).*1.
Definition authority_status (replica : bool) (sv : Service) (st : ServiceState)
    (c : VerifiedCredential) : result string AuthorityStatus :=
  let a := sv_authority sv in
  _ ← fail_if (negb (can_manage a (vc_id c)) || is_revoked st (vc_id c)
               || is_erased st (vc_identity c))
        "Only a current owner device can update General.";
  _ ← require_active replica sv (vc_id c);
  r ← ok_or (st_roles st) "Space roles unavailable.";
  h ← map_err (head_config a) "authority";
  mret {| as_proof := st_proof st; as_head := head a; as_pending := pending_enrollments st;
          as_revoked := st_revoked st; as_removed := removed_members st;
          as_owner_identities :=
            m_identity_id <$> List.filter (λ m, is_owner r (m_identity_id m)) (sc_members h);
          as_journal := st_journal st; as_committed_journal := st_committed_journal st;
          as_revocation_proofs := (btree_list (st_revocation_proofs st)).*2;
          as_creation := st_creation st;
          as_account_deletions := (btree_list (st_account_deletions st)).*2 |}.

(** ** [publish_authority] *)

(** The next authority comes with its full ancestry and commits the journal. *)
Definition next_authority (sv : Service) (st : ServiceState) (body : value)
    : result string (CallAuthorityProof * Authority) :=
  let previous := sv_authority sv in
  _ ← fail_if (negb (value_eq_id (value_index body "expected_head") (head previous))) changed_error;
  proof ← ok_or (from_value (T := CallAuthorityProof) (value_index body "proof")) "json";
  _ ← fail_if (bool_decide (is_Some (pf_checkpoint proof))
               || (pf_genesis proof =/= pf_genesis (st_proof st)))
        "General authority proof does not extend this Space.";
  next ← map_err (proof_verify proof (space previous) (stream previous)) "authority";
  h ← map_err (head_config next) "authority";
  commitment ← journal_commitment (st_journal st);
  _ ← fail_if (ca_request_record_id (sc_action h) =/= commitment) changed_error;
  mret (proof, next).

(** It is the current head, or its immediate successor. *)
Definition extends_head (previous next : Authority) : result string unit :=
  prior ← map_err (head_config previous) "authority";
  h ← map_err (head_config next) "authority";
  id ← ok_or (head previous) "Missing General head.";
  _ ← fail_if (negb (is_owner_managed next)
               || negb (proves_config_at next id (sc_sequence prior))
               || negb (proves_recovery_ancestor next (recovery_id previous))
               || (sc_sequence h <? sc_sequence prior))
        "General authority proof does not extend its current head.";
  fail_if ((head next =/= head previous)
           && ((sc_previous_config_id h =/= head previous)
               || negb (sc_sequence h =? saturating_add (sc_sequence prior) 1)))
    "General permissions must extend the current head by one update.".

(** Nobody leaves without a recorded revocation, removal or erasure. *)
Definition member_kept (st : ServiceState) (h : StreamConfig) (m : Member) : bool :=
  is_erased st (m_identity_id m) || removal_blocks st (m_identity_id m)
  || forallb (λ id, is_revoked st id || has_device h (m_identity_id m) id) (m_credential_ids m).
Definition members_kept (st : ServiceState) (prior h : StreamConfig) : result string unit :=
  fail_if (negb (forallb (member_kept st h) (sc_members prior)))
    "Removing a General member requires a signed removal intent.".

Definition expected_capabilities (owner : bool) : list Capability :=
  if owner then [Read; Post; ShareHistory; Manage] else [Read; Post].

(** A device is there already, is linked by one that is, or answers an approved request. *)
Definition device_allowed (replica : bool) (sv : Service) (st : ServiceState)
    (prior : StreamConfig) (next : Authority) (m : Member) (seconds : N) (id : RecordId)
    : result string unit :=
  _ ← fail_if (is_revoked st id) "A revoked device cannot remain in General.";
  _ ← require_active replica sv id;
  let existing := has_device prior (m_identity_id m) id in
  _ ← (if existing then Ok tt else require_enrollment replica sv (m_identity_id m) seconds);
  candidate ← map_err (credential next id) "authority";
  let companion :=
    match authorizing_device candidate with
    | Some parent => negb (is_revoked st parent)
                     && has_device prior (m_identity_id m) parent
                     && is_ok (require_active replica sv parent)
    | None => false
    end in
  _ ← fail_if (negb existing && bool_decide (is_Some (authorizing_device candidate))
               && negb companion) "The authorizing device is no longer in this Space.";
  fail_if (negb existing && negb companion
           && negb match st_applicants st !! display id with
                   | Some a => (ap_identity a === m_identity_id m)
                               && (ap_status a === "eligible")
                   | None => false
                   end) "Approve the signed enrollment request before adding this device.".
Definition member_allowed (replica : bool) (sv : Service) (st : ServiceState) (r : Roles)
    (prior : StreamConfig) (next : Authority) (seconds : N) (m : Member) : result string unit :=
  _ ← fail_if (m_capabilities m =/= expected_capabilities (is_owner r (m_identity_id m)))
        "General permissions must match the approved Space roles.";
  _ ← fail_if (is_erased st (m_identity_id m)
               || (is_removed st (m_identity_id m)
                   && negb (has_applicant st (m_identity_id m) ["eligible"; "approved"])))
        "A removed member cannot remain in General.";
  try_fold (λ _ id, device_allowed replica sv st prior next m seconds id) tt (m_credential_ids m).
Definition owner_devices_of (r : Roles) (h : StreamConfig) : list RecordId :=
  sorted_set (mjoin (m_credential_ids <$>
    List.filter (λ m, is_owner r (m_identity_id m)) (sc_members h))).

(** The checks of a publication: its proof and the authority it proves. *)
Definition check_publication (replica : bool) (sv : Service) (st : ServiceState)
    (c : VerifiedCredential) (body : value) (seconds : N)
    : result string (CallAuthorityProof * Authority) :=
  _ ← fail_if (bool_decide (is_Some (sv_trusted_witness sv)))
        "Witnessed General requires an independently verified update.";
  _ ← authority_status replica sv st c;
  '(proof, next) ← next_authority sv st body;
  _ ← extends_head (sv_authority sv) next;
  prior ← map_err (head_config (sv_authority sv)) "authority";
  h ← map_err (head_config next) "authority";
  r ← ok_or (st_roles st) "Space roles unavailable.";
  _ ← fail_if (managers h =/= ro_owners r) "General owners must match the approved Space roles.";
  _ ← members_kept st prior h;
  _ ← try_fold (λ _ m, member_allowed replica sv st r prior next seconds m) tt (sc_members h);
  _ ← fail_if (sc_owner_credential_ids h =/= owner_devices_of r h)
        "General owners must match the approved Space roles.";
  mret (proof, next).
Definition approve_enrolled (next : Authority) (key : string) (a : Applicant) : Applicant :=
  if match parse_hex 32 key with
     | Some id => general_member next id === Some (ap_identity a)
     | None => false
     end && (ap_status a === "eligible")
  then set_status a "approved" else a.
(** The state of a published authority. *)
Definition published_state (st : ServiceState) (proof : CallAuthorityProof) (next : Authority)
    : ServiceState :=
  let st := with_committed_journal (with_proof st proof) (st_journal st) in
  let st := with_applicants st (update_all (approve_enrolled next) (st_applicants st)) in
  with_replies st ∅.
Definition publish_authority {D : Disk} (replica : bool) (st : ServiceState)
    (c : VerifiedCredential) (body : value) (seconds : N) : M (ServiceState * Reply) :=
  sv ← self;
  '(proof, next) ← lift (check_publication replica sv st c body seconds);
  let st := published_state st proof next in
  _ ← save_service_state st;
  _ ← put_authority next;
  mret (st, RpHead (head next)).

(** ** Retired devices *)

Definition revocation_step (sv : Service) (st : ServiceState) (id : RecordId)
    : result string ServiceState :=
  found ← Revocations.get (sv_registry sv) id;
  match found with
  | None => Ok st
  | Some proof =>
      let st := with_revoked st ({[id]} ∪ st_revoked st) in
      let encoded := base64_encode (sr_bytes proof) in
      st ← (if in_journal st encoded then Ok st
            else
              _ ← fail_if (4096 <=? nlen (st_journal st)) history_full;
              target ← map_err (revocation_verify proof) "record";
              Ok (push_journal st {| ev_record := encoded;
                                     ev_credential := base64_encode (sr_bytes (vc_record target)) |}));
      mret (with_revocation_proofs st (<[id := encoded]> (st_revocation_proofs st)))
  end.
Definition apply_device_revocations {D : Disk} (st : ServiceState) : M ServiceState :=
  sv ← self;
  h ← lift (map_err (head_config (sv_authority sv)) "authority");
  st ← lift (try_fold (revocation_step sv) st (mjoin (m_credential_ids <$> sc_members h)));
  let st := with_attachment_access st
    (delete_all (λ _ x, match aa_credential x with
                        | Some id => is_revoked st id
                        | None => false
                        end) (st_attachment_access st)) in
  _ ← save_service_state st;
  mret st.

Definition space_device_list (sv : Service) (c : VerifiedCredential)
    : result string (list (RecordId * string)) :=
  let a := sv_authority sv in
  _ ← map_err (require_member a (vc_id c)) "authority";
  h ← map_err (head_config a) "authority";
  m ← ok_or (find_first (λ m, m_identity_id m === vc_identity c) (sc_members h))
        "Join this Space first.";
  active ← space_access_devices sv;
  try_map (λ id, c ← map_err (credential a id) "authority";
                 mret (id, base64_encode (sr_bytes (vc_record c))))
    (List.filter (contains active) (m_credential_ids m)).

(** [seconds] is the clock when the registry writes. *)
Definition space_revoke_device {D : Disk} (replica : bool) (st : ServiceState)
    (c : VerifiedCredential) (body : value) (seconds : N) : M (ServiceState * Reply) :=
  sv ← self;
  let a := sv_authority sv in
  _ ← lift (fail_if (negb replica) "Device management requires a hosted Space.");
  _ ← lift (map_err (require_member a (vc_id c)) "authority");
  _ ← lift (require_active replica sv (vc_id c));
  text ← lift (HostedRoles.field body "proof");
  proof ← lift (decode_record text);
  target ← lift (map_err (verify_request proof c) "record");
  _ ← lift (fail_if ((vc_identity target =/= vc_identity c) || (vc_id target === vc_id c))
              "Choose another device belonging to this profile.");
  h ← lift (map_err (head_config a) "authority");
  _ ← lift (fail_if (negb (has_device h (vc_identity target) (vc_id target)))
              "Choose a device currently admitted to this Space.");
  _ ← lift (fail_if (negb (is_revoked st (vc_id target)) && (4096 <=? nlen (st_journal st)))
              history_full);
  _ ← (λ sv, let r := Revocations.insert (sv_registry sv) proof seconds (disk_revocation proof) in
             (with_registry sv r.1, r.2));
  st ← apply_device_revocations st;
  mret (st, RpRevoked (vc_id target)).

(** ** Deleted accounts *)

Record Membership := {
  ms_primary : bool; ms_other_members : bool; ms_known : bool; ms_primary_identity : IdentityId;
  ms_contact_email : option string;
}.
Definition account_membership (sv : Service) (who : IdentityId) : result string Membership :=
  st ← service_state sv;
  primary ← map_err (primary_owner_identity (sv_authority sv)) "authority";
  let members := ap_identity <$> List.filter approved (btree_values (st_applicants st)) in
  mret {| ms_primary := primary === who;
          ms_other_members := existsb (λ id, id =/= who) members;
          ms_known := (primary === who)
                      || existsb (λ a, ap_identity a === who) (btree_values (st_applicants st))
                      || is_removed st who;
          ms_primary_identity := primary;
          ms_contact_email := st_roles st ≫= ro_contact_email |}.

(** The signed request of an account to be deleted everywhere on this host. *)
Definition deletion_request (cfg : ServiceConfig) (who : IdentityId) (e : AdminEvidence)
    : result string VerifiedCredential :=
  signed ← decode_record (ev_record e);
  c ← verify_credential (ev_credential e);
  _ ← map_err (verify_signature signed (vc_key c)) "signature";
  command ← map_err (decode (T := AccountCommand) signed) "record";
  _ ← map_err (hex 16 (ac_nonce command)) "record";
  endpoint ← ok_or (url_set_path (sa_url (cfg_address cfg)) DELETION_PATH) "url";
  _ ← fail_if (negb (ac_v command =? 1)
               || (ac_kind command =/= "account.deletion")
               || (ac_action command =/= Submit)
               || negb (ac_confirmed command)
               || (ac_endpoint command =/= endpoint)
               || (vc_identity c =/= who)) "Invalid account deletion proof.";
  mret c.
(** The state, and whether the request goes into the journal. *)
Definition account_deletion_intent (sv : Service) (cfg : ServiceConfig) (who : IdentityId)
    (e : option AdminEvidence) : result string (ServiceState * bool) :=
  ms ← account_membership sv who;
  _ ← fail_if (ms_primary ms) "Delete your Spaces before deleting your account.";
  st ← service_state sv;
  h ← map_err (head_config (sv_authority sv)) "authority";
  _ ← fail_if (match st_roles st with Some r => is_owner r who | None => false end
               || existsb (λ m, (m_identity_id m === who) && has_capability m Manage)
                    (sc_members h))
        "Ask the primary owner to remove your owner role before deleting your account.";
  e ← ok_or e "Missing signed account deletion request.";
  c ← deletion_request cfg who e;
  let open_ := negb (removal_blocks st who) && negb (is_erased st who) in
  let enrolled := has_device h who (vc_id c) && negb (is_revoked st (vc_id c)) && open_ in
  let current_member := has_identity h who && open_ in
  _ ← fail_if (current_member && negb enrolled)
        "Delete this account from a device admitted to this Space.";
  let append := enrolled && negb (in_journal st (ev_record e)) in
  _ ← fail_if (append && (4096 <=? nlen (st_journal st))) history_full;
  mret (st, append).
Definition next_epoch (st : ServiceState) (who : IdentityId) : result string ServiceState :=
  n ← ok_or (checked_add (epoch_of st who) 1) "Membership revision limit reached.";
  mret (with_removals st (<[who := n]> (st_removals st))).
Definition erased_state (st : ServiceState) (append : bool) (who : IdentityId) (e : AdminEvidence)
    : result string ServiceState :=
  let st := if append then push_journal st e else st in
  let st := with_account_deletions st (<[who := e]> (st_account_deletions st)) in
  st ← (if is_erased st who then Ok st
        else next_epoch (with_erased_accounts st ({[who]} ∪ st_erased_accounts st)) who);
  let st := with_applicants st (delete_all (λ _ a, ap_identity a === who) (st_applicants st)) in
  let st := with_notes st (delete who (st_notes st)) in
  roles ← transpose ((λ r, retire_member r who) <$> st_roles st);
  mret (with_replies (with_roles st roles) ∅).
Definition erase_service_account {D : Disk} (cfg : ServiceConfig) (who : IdentityId)
    (e : option AdminEvidence) : M unit :=
  sv ← self;
  '(st, append) ← lift (account_deletion_intent sv cfg who e);
  e ← lift (ok_or e "Missing signed account deletion request.");
  st ← lift (erased_state st append who e);
  save_service_state st.

(** ** Deleting the Space *)

Definition confirms_deletion (sv : Service) (cfg : ServiceConfig) (r : Roles) (q : Request)
    (command : Command) (c : VerifiedCredential) (time : N) : result string bool :=
  let body := hc_body command in
  let valid :=
    bool_decide (hq_invitation q = None) && (hc_v command =? 1)
    && (hc_kind command === "space.command")
    && (hc_space command === ts_space (sa_scope (cfg_address cfg)))
    && (hc_nonce command === hq_nonce q)
    && (abs_diff time (hc_issued command) <=? 120000)
    && (ro_primary r === vc_identity c) && can_manage (sv_authority sv) (vc_id c) in
  if negb valid then Ok false
  else
    devices ← space_access_devices sv;
    Ok (contains devices (vc_id c)
        && (value_as_u64 (value_index body "revision") === Some (ro_revision r))
        && value_eq_bool (value_index body "confirmed") true
        && value_eq_str (value_index body "name") (cfg_name cfg)).
(** The space the receipt names; [None] when the request asks for something else. *)
Definition authorize_space_deletion (sv : Service) (cfg : ServiceConfig) (q : Request) (time : N)
    : result string (option SpaceId) :=
  match hq_record q with
  | None => Ok None
  | Some encoded =>
      signed ← decode_record encoded;
      command ← map_err (decode (T := Command) signed) "record";
      if hc_action command =/= "delete" then Ok None
      else
        text ← ok_or (hq_credential q) "Missing device proof.";
        c ← verify_credential text;
        _ ← map_err (verify_signature signed (vc_key c)) "signature";
        st ← service_state sv;
        r ← ok_or (st_roles st) "Space roles unavailable.";
        confirmed ← confirms_deletion sv cfg r q command c time;
        _ ← fail_if (negb confirmed) "Only the primary owner can confirm deleting this Space.";
        scope ← team_scope sv;
        _ ← fail_if (scope =/= sa_scope (cfg_address cfg)) "Space scope mismatch.";
        mret (Some (ts_space scope))
  end.

(** ** Creation *)

(** transport.json *)
Record TransportSigner := { tr_seed : string; tr_credential : string }.
Definition no_state (proof : CallAuthorityProof) (r : Roles) (creation : option AdminEvidence)
    : ServiceState :=
  {| st_creation := creation; st_journal := []; st_committed_journal := [];
     st_revocation_proofs := ∅; st_account_deletions := ∅; st_proof := proof; st_revoked := ∅;
     st_claimed := false; st_offers := ∅; st_applicants := ∅; st_replies := ∅;
     st_roles := Some r; st_removals := ∅; st_removal_heads := ∅; st_erased_accounts := ∅;
     st_attachment_policy := default_policy; st_attachments := ∅; st_attachment_access := ∅;
     st_call_heads := ∅; st_notes := ∅; st_witness_requests := ∅ |}.
(** [open_with_witness], on what the two files hold. *)
Definition open_with_witness (signer : TransportSigner) (st : ServiceState) (registry : Registry)
    (allow_loopback : bool) (trusted : option WitnessPin) : result string Service :=
  seed ← map_err (hex 32 (tr_seed signer)) "record";
  c ← verify_credential (tr_credential signer);
  _ ← fail_if (vc_key c =/= ed25519_verifying_key seed) "Invalid transport signing key.";
  _ ← fail_if (STATE_LIMIT <? slen (state_to_vec st)) "Space state is too large.";
  a ← verify_general_authority (st_proof st) trusted;
  _ ← fail_if (negb (primary_matches a st))
        "Space primary owner does not match its signed creation.";
  h ← map_err (head_config a) "authority";
  _ ← fail_if (negb (is_owner_managed a)
               || existsb (λ m, contains (m_credential_ids m) (vc_id c)) (sc_members h))
        "General must be controlled by its owners.";
  mret {| sv_credential := c; sv_authority := a; sv_allow_loopback := allow_loopback;
          sv_trusted_witness := trusted; sv_stored := st; sv_registry := registry |}.
(** [create_with_witness]; [signer] is the transport signer it generates. *)
Definition create_with_witness (signer : TransportSigner) (registry : Registry)
    (proof : CallAuthorityProof) (owners : list IdentityId) (contact_email : option string)
    (allow_loopback : bool) (creation : option AdminEvidence) (trusted : option WitnessPin)
    : result string Service :=
  a ← verify_general_authority proof trusted;
  primary ← map_err (primary_owner_identity a) "authority";
  _ ← fail_if (hd_error owners =/= Some primary)
        "Space primary owner does not match its signed creation.";
  r ← bootstrap owners;
  open_with_witness signer (no_state proof (with_email r contact_email) creation) registry
    allow_loopback trusted.

(** [bootstrap_space_invitation]: the link of the invitation the creation promised. *)
Definition bootstrap_space_invitation {D : Disk} (address : SpaceAddress) (require_approval : bool)
    (current : N) (draw : option string) : M string :=
  sv ← self;
  _ ← lift (fail_if (bool_decide (is_Some (sv_trusted_witness sv)))
              "Witnessed invitations are created by their owners.");
  _ ← lift (address_validate address (sv_allow_loopback sv));
  scope ← lift (team_scope sv);
  _ ← lift (fail_if (scope =/= sa_scope address) "Space scope mismatch.");
  st ← lift (service_state sv);
  let st := prune_applicants st current in
  let st := with_offers st (delete_all (λ _ o, negb (offer_open current o)) (st_offers st)) in
  _ ← lift (fail_if (128 <=? N.of_nat (size (st_offers st)))
              "Revoke an unused invitation first.");
  e ← lift (ok_or (st_creation st) "Missing signed Space creation request.");
  creation ← lift (decode_record (ev_record e));
  id ← lift (HostedRoles.field (sr_body creation) "request_id");
  issued ← lift (ok_or (value_as_u64 (value_index (sr_body creation) "issued"))
                   "Invalid Space creation request.");
  _ ← lift (fail_if
        (negb (Bool.eqb (default true (value_as_bool (value_index (sr_body creation)
                                                        "require_approval"))) require_approval))
        "Space invitation policy mismatch.");
  match st_offers st !! id with
  | Some o => mret (invitation_link address (of_token o))
  | None =>
      token ← lift (map_err (random_hex draw) "random");
      expires ← lift (ok_or (checked_add issued 86400000) "Invalid invitation expiry.");
      _ ← save_service_state (with_offers st
        (<[id := {| of_authorization := st_creation st; of_token := token; of_issued_at := issued;
                    of_expires_at := expires; of_require_approval := require_approval;
                    of_revoked := false |}]> (st_offers st)));
      mret (invitation_link address token)
  end.

End Evidence.
