(* ===== verification/HostedService.v ===== *)
(** * Requests to a hosted Space (crates/elo-core/src/public_space.rs)

    The commands of members and owners, and the handler that authenticates a request, replays
    the answer of a repeated one and saves what a command changed. *)

From S2P Require Import Prelude Sums Platform Ids Record Chat Identity AuthorityData AuthorityWitness Authority AuthorityProof CallWire WakeWire Attachments HostedRoles Revocations HostedState HostedAccess HostedFiles HostedCalls HostedAdmission.

(** app/space_service.rs *)
Definition LIFETIMES : list N := [60; 600; 1800; 3600; 86400; 100 * 365 * 86400].

Section HostedService.
Context `{P : Platform} {SA : AuthoritySerde} {W : WitnessSerde} {U : UrlBase64}
  {HP : HostedPlatform} {HS : HostedSerde} {D : Disk}.

(** ** [space_join_reply] *)

Definition contacts (sv : Service) (st : ServiceState) : result string (list value) :=
  try_map (λ p, decode_contact (en_contact (ap_request p.2)))
    (List.filter (λ p, key_admitted sv p.1 && negb (key_revoked st p.1))
       (btree_list (st_applicants st))).
Definition is_unchanged (sv : Service) (known : option value) (epoch : N) : bool :=
  match known with
  | None => false
  | Some body => value_eq_id (value_index body "known_general_head") (head (sv_authority sv))
                 && (value_as_u64 (value_index body "membership_epoch") === Some epoch)
  end.
(** Only a hint: an owner's device verifies the journal before it publishes. *)
Definition owner_sync_needed (sv : Service) (st : ServiceState) (r : Roles) (who : IdentityId)
    (key : string) : bool :=
  bool_decide (sv_trusted_witness sv = None) && is_owner r who
  && match parse_hex 32 key with Some id => can_manage (sv_authority sv) id | None => false end
  && (existsb (λ a, ap_status a === "eligible") (btree_values (st_applicants st))
      || negb (nlen (st_journal st) =? nlen (st_committed_journal st))).
Definition space_join_reply (sv : Service) (cfg : ServiceConfig) (st : ServiceState)
    (key : string) (known : option value) : result string Reply :=
  a ← ok_or (st_applicants st !! key) "Request not found.";
  let epoch := epoch_of st (ap_identity a) in
  if negb (key_admitted sv key) || contains ["removed"; "declined"] (ap_status a) then
    let eligible := ap_status a === "eligible" in
    let word := if eligible then "pending" else ap_status a in
    Ok (RpWaiting (cfg_name cfg) word
          (if word === "pending" then Some (if eligible then "owner_sync" else "approval") else None)
          epoch)
  else
    packet ← (if is_unchanged sv known epoch then Ok None
              else cs ← contacts sv st; Ok (Some (st_proof st, cs)));
    r ← ok_or (st_roles st) "Space roles unavailable.";
    Ok (RpApproved
      {| jn_name := cfg_name cfg; jn_epoch := epoch; jn_owner := is_owner r (ap_identity a);
         jn_owner_sync_needed := owner_sync_needed sv st r (ap_identity a) key;
         jn_role := role r (ap_identity a); jn_roles_revision := ro_revision r;
         jn_role_requests := requests_for r (ap_identity a);
         jn_contact_email := ro_contact_email r; jn_lifetime := sa_lifetime (cfg_address cfg);
         jn_peer := cfg_peer cfg; jn_general_head := head (sv_authority sv);
         jn_enrollment := packet |} None).

(** ** Joining *)

Definition with_applicant (st : ServiceState) (key : string) (a : Applicant) : ServiceState :=
  with_applicants st (<[key := a]> (st_applicants st)).
Definition new_applicant (who : IdentityId) (name st_word invitation note : string)
    (r : EnrollmentRequest) (current : N) : Applicant :=
  {| ap_authorization := None; ap_identity := who; ap_name := name; ap_status := st_word;
     ap_invitation := invitation; ap_note := note; ap_request := r; ap_requested_at := current |}.
Definition open_offer (st : ServiceState) (token : string) (current : N)
    : option (string * Offer) :=
  find_first (λ p, (of_token p.2 === token) && offer_open current p.2) (btree_list (st_offers st)).
(** Whether an owner has to decide before the device may be added. *)
Definition needs_decision (st : ServiceState) (who : IdentityId) (declined owner : bool) (o : Offer)
    : bool := is_removed st who || declined || (of_require_approval o && negb owner).
(** A new request, or a new one after a refusal or removal. *)
Definition may_request (st : ServiceState) (key : string) : bool :=
  match st_applicants st !! key with
  | None => true
  | Some a => contains ["removed"; "declined"] (ap_status a)
  end.
Definition refresh_request (note : string) (r : EnrollmentRequest) (a : Applicant) : Applicant :=
  set_request (if ap_status a === "pending" then set_note a note else a) r.

Definition join {replica : bool} (cfg : ServiceConfig) (st : ServiceState)
    (c : VerifiedCredential) (owner : bool) (body : value) (time : N)
    : M (ServiceState * Reply) :=
  sv ← self;
  note ← lift (join_note body);
  token ← lift (HostedRoles.field body "token");
  let st := prune_applicants st time in
  '(offer_id, offer) ← lift (ok_or (open_offer st token time)
                               "This Space invitation has expired or was revoked.");
  request ← lift (read_enrollment body);
  name ← lift (own_applicant sv request c time "This join request belongs to another profile.");
  let who := vc_identity c in
  let admitted := device_admitted sv (vc_id c) in
  _ ← lift (if admitted then Ok tt else require_enrollment replica sv who (time / 1000));
  let key := display (vc_id c) in
  declined ← lift (device_was_declined st key);
  if may_request st key then
    _ ← lift (require_applicant_capacity st who offer_id (negb admitted));
    let decision := needs_decision st who declined owner offer in
    let word := if admitted then "approved" else if decision then "pending" else "eligible" in
    let st := with_applicant (with_claimed st true) key
      (new_applicant who name word offer_id (if decision then note else "") request time) in
    _ ← save_service_state st;
    sv ← self;
    reply ← lift (space_join_reply sv cfg st key None);
    mret (st, reply)
  else
    let st := with_applicants st (alter (refresh_request note request) key (st_applicants st)) in
    reply ← lift (space_join_reply sv cfg st key None);
    mret (st, reply).

(** ** Status *)

Definition chat_heads_of (body : value) : result string (option (list value)) :=
  match value_get body "chat_heads" with
  | None => Ok None
  | Some (VArray heads) => if nlen heads <=? 64 then Ok (Some heads) else Err "Space request rejected."
  | Some _ => Err "Space request rejected."
  end.
(** A device recovered from the root has nothing to show but its request. *)
Definition surface (sv : Service) (c : VerifiedCredential) (r : EnrollmentRequest) (a : Applicant)
    : Applicant :=
  let a := set_request a r in
  if (ap_status a === "eligible") && bool_decide (ap_authorization a = None)
     && (ap_invitation a === "") && bool_decide (authorizing_device c = None)
     && negb (device_admitted sv (vc_id c))
  then set_status a "pending" else a.
(** The entry of a device, made for a member that had none. *)
Definition status_entry (sv : Service) (st : ServiceState) (c : VerifiedCredential)
    (r : EnrollmentRequest) (name : string) (time : N) : result string (ServiceState * bool) :=
  let key := display (vc_id c) in
  let who := vc_identity c in
  match st_applicants st !! key with
  | Some a => Ok (with_applicant st key (surface sv c r a), true)
  | None =>
      h ← map_err (head_config (sv_authority sv)) "authority";
      _ ← fail_if (negb (has_applicant st who ["approved"] || has_device h who (vc_id c)))
            "Join this Space using an invitation first.";
      let admitted := device_admitted sv (vc_id c) in
      _ ← require_applicant_capacity st who "" (negb admitted);
      declined ← (if admitted then Ok false else device_was_declined st key);
      let word :=
        if admitted then "approved"
        else if declined || bool_decide (authorizing_device c = None) then "pending"
        else "eligible" in
      Ok (with_applicant st key (new_applicant who name word "" "" r time), false)
  end.
Definition with_heads (sv : Service) (st : ServiceState) (c : VerifiedCredential) (time : N)
    (heads : option (list value)) (r : Reply) : Reply :=
  match r, heads with
  | RpApproved j _, Some heads =>
      RpApproved j (Some ((λ body, check_space_chat_head sv st c body time) <$> heads))
  | _, _ => r
  end.
Definition status (cfg : ServiceConfig) (st : ServiceState) (c : VerifiedCredential)
    (body : value) (time : N) : M (ServiceState * Reply) :=
  sv ← self;
  heads ← lift (chat_heads_of body);
  request ← lift (read_enrollment body);
  name ← lift (own_applicant sv request c time "This request belongs to another profile.");
  let key := display (vc_id c) in
  let who := vc_identity c in
  if is_removed st who && bool_decide (st_applicants st !! key = None)
     && negb (has_applicant st who ["approved"])
  then mret (st, RpRemoved (cfg_name cfg) (epoch_of st who))
  else
    '(st, known) ← lift (status_entry sv st c request name time);
    reply ← lift (space_join_reply sv cfg st key (if known : bool then Some body else None));
    mret (st, with_heads sv st c time heads reply).

(** ** The owners' commands *)

Definition manage (sv : Service) (cfg : ServiceConfig) (st : ServiceState) (r : Roles)
    : result string Reply :=
  members ← space_role_members sv st;
  mret (RpManage
    {| mg_offers := (λ p, (p.1, p.2, invitation_link (cfg_address cfg) (of_token p.2))) <$>
                      btree_list (st_offers st);
       mg_requests := (λ p, (p.1, ap_identity p.2, ap_name p.2, ap_note p.2)) <$>
                        List.filter (λ p, ap_status p.2 === "pending")
                          (btree_list (st_applicants st));
       mg_witness_requests := []; mg_members := members; mg_roles_revision := ro_revision r;
       mg_primary_owner := ro_primary r; mg_contact_email := ro_contact_email r;
       mg_attachments := Some (st_attachment_policy st, used_bytes st, reserved_bytes st) |}).

Definition drop_closed_offers (st : ServiceState) (current : N) : ServiceState :=
  if 128 <=? N.of_nat (size (st_offers st))
  then with_offers st (delete_all (λ _ o, negb (offer_open current o)) (st_offers st))
  else st.
Definition invited (st : ServiceState) (e : AdminEvidence) (body : value) (time : N)
    : result string (ServiceState * (string * string * N)) :=
  seconds ← ok_or (n ← value_as_u64 (value_index body "lifetime");
                   if contains LIFETIMES n then Some n else None)
              "Choose an invitation lifetime.";
  approval ← ok_or (value_as_bool (value_index body "require_approval"))
               "Choose whether approval is required.";
  let st := drop_closed_offers st time in
  _ ← fail_if (128 <=? N.of_nat (size (st_offers st))) "Revoke an unused invitation first.";
  token ← HostedRoles.field body "token";
  _ ← map_err (hex 32 token) "record";
  id ← HostedRoles.field body "id";
  _ ← map_err (hex 16 id) "record";
  _ ← fail_if (bool_decide (is_Some (st_offers st !! id))
               || existsb (λ o, of_token o === token) (btree_values (st_offers st)))
        "Invitation identifiers must be unique.";
  expires ← ok_or (checked_add time (seconds * 1000)) "Invalid expiry.";
  let o := {| of_authorization := Some e; of_token := token; of_issued_at := time;
              of_expires_at := expires; of_require_approval := approval; of_revoked := false |} in
  mret (with_offers st (<[id := o]> (st_offers st)), (id, token, expires)).
Definition revoked_offer (st : ServiceState) (body : value) (time : N)
    : result string ServiceState :=
  id ← HostedRoles.field body "id";
  o ← ok_or (st_offers st !! id) "Invitation not found.";
  mret (prune_applicants (with_offers st (<[id := revoke_offer o]> (st_offers st))) time).

(** A refusal of this device signed at the present head. *)
Definition refused_at (h : RecordId) (id : string) (e : AdminEvidence) : result string bool :=
  previous ← decode_record (ev_record e);
  let body := sr_body previous in
  let inner := value_index body "body" in
  mret (value_eq_str (value_index body "kind") "space.command"
        && value_eq_str (value_index body "action") "decide"
        && value_eq_str (value_index inner "id") id
        && value_eq_bool (value_index inner "approve") false
        && value_eq_str (value_index inner "authority_head") (display h)).
Definition approval_allowed (sv : Service) (st : ServiceState) (who : IdentityId) (body : value)
    : result string unit :=
  id ← HostedRoles.field body "id";
  a ← ok_or (st_applicants st !! id) "Request not found.";
  h ← ok_or (head (sv_authority sv)) "General unavailable.";
  denied ← try_fold (λ denied e, b ← refused_at h id e; mret (denied || b))
             (st_removal_heads st !! ap_identity a === Some h) (st_journal st);
  _ ← fail_if denied changed_error;
  require_applicant_capacity st who "" false.
Definition decided (sv : Service) (st : ServiceState) (who : IdentityId) (e : AdminEvidence)
    (body : value) : result string ServiceState :=
  _ ← (if value_eq_bool (value_index body "approve") true then approval_allowed sv st who body
       else Ok tt);
  id ← HostedRoles.field body "id";
  a ← ok_or (st_applicants st !! id) "Request not found.";
  _ ← fail_if (ap_status a =/= "pending") "This request has already been handled.";
  approve ← ok_or (value_as_bool (value_index body "approve")) "Choose a decision.";
  mret (with_applicant st id
          (set_authorization
             (set_note (set_status a (if approve : bool then "eligible" else "declined")) "")
             (Some e))).

(** *** Roles *)

Definition remove_applicants (st : ServiceState) (who : IdentityId) : ServiceState :=
  with_applicants st
    (update_all (λ _ a, if ap_identity a === who then set_note (set_status a "removed") "" else a)
       (st_applicants st)).
(** What the removal of a member leaves. *)
Definition removed_state (sv : Service) (st : ServiceState) (who : IdentityId)
    : result string ServiceState :=
  st ← next_epoch st who;
  h ← ok_or (head (sv_authority sv)) "General unavailable.";
  let st := with_removal_heads st (<[who := h]> (st_removal_heads st)) in
  let st := remove_applicants st who in
  r ← ok_or (st_roles st) "Space roles unavailable.";
  r ← retire_member r who;
  mret (with_roles st (Some r)).
Definition changed_state (sv : Service) (st : ServiceState) (r : Roles) (answer : RoleAnswer)
    : result string ServiceState :=
  let st := with_roles st (Some r) in
  match ra_removed_identity answer with
  | None => Ok st
  | Some target => removed_state sv st target
  end.
Definition change_roles (st : ServiceState) (c : VerifiedCredential) (action : string)
    (body : value) : M (ServiceState * Reply) :=
  sv ← self;
  members ← lift (space_role_members sv st);
  r ← lift (ok_or (st_roles st) "Space roles unavailable.");
  '(r, answer) ← lift (apply_with_id r (vc_identity c) action body members);
  st ← lift (changed_state sv st r answer);
  _ ← match ra_removed_identity answer with
      | Some _ => save_service_state st
      | None => mret tt
      end;
  let st := with_replies st ∅ in
  _ ← save_service_state st;
  mret (st, RpRole answer).

Definition update_contact (st : ServiceState) (r : Roles) (body : value) : M (ServiceState * Reply) :=
  _ ← lift (fail_if (value_as_u64 (value_index body "revision") =/= Some (ro_revision r))
              "Space roles have changed. Refresh and try again.");
  text ← lift (HostedRoles.field body "contact_email");
  let email := trim_text text in
  _ ← lift (validate_contact_email email);
  let st := with_replies (with_roles st (Some (with_email r (Some email)))) ∅ in
  _ ← save_service_state st;
  mret (st, RpContact (Some email)).

Definition manage_storage (replica : bool) (action : string) (body : value) (time : N)
    : result string ReplicaCall :=
  _ ← fail_if (negb replica) "Storage management is not available on this server.";
  days ← ok_or (days_of body) "Enter a whole number of days between 1 and 36500.";
  let latest := saturating_sub time (days * 86400000) in
  if action === "storage_prune" then
    before ← ok_or (n ← value_as_u64 (value_index body "before_ms");
                    if n <=? latest then Some n else None)
               "Refresh the storage preview before clearing messages.";
    _ ← fail_if (negb (value_eq_bool (value_index body "confirmed") true))
          "Confirm server message cleanup first.";
    Ok (PruneMessages before)
  else Ok (SpaceStorage latest).

(** ** [space_command] *)

Definition names_head (action : string) : bool :=
  contains ["invite"; "revoke"; "decide"; "role_change"; "role_decide"; "device_revoke"] action.
(** The actions open to a device that is not admitted. *)
Definition open_to_all (action : string) : bool :=
  contains ["join"; "status"; "authority"; "authority_publish"] action.
Definition admitted_command (sv : Service) (st : ServiceState) (c : VerifiedCredential)
    (command : Command) : result string unit :=
  _ ← fail_if (names_head (hc_action command)
               && negb (value_eq_id (value_index (hc_body command) "authority_head")
                          (head (sv_authority sv)))) changed_error;
  _ ← fail_if (is_erased st (vc_identity c)) "This account was deleted from this service.";
  if open_to_all (hc_action command) then Ok tt
  else
    admitted ← has_access sv c;
    fail_if (negb admitted) "This device is no longer admitted to the Space.".

Definition space_action {replica : bool} (cfg : ServiceConfig) (st : ServiceState)
    (c : VerifiedCredential) (owner : bool) (command : Command) (e : AdminEvidence) (time : N)
    : M (ServiceState * Reply) :=
  sv ← self;
  r ← lift (ok_or (st_roles st) "Space roles unavailable.");
  let action := hc_action command in
  let body := hc_body command in
  let reply (x : result string Reply) : M (ServiceState * Reply) := x ← lift x; mret (st, x) in
  if action === "authority" then reply (RpAuthority <$> authority_status replica sv st c)
  else if action === "authority_publish" then publish_authority replica st c body (time / 1000)
  else if action === "device_list" then reply (RpDevices <$> space_device_list sv c)
  else if action === "device_revoke" then space_revoke_device replica st c body (time / 1000)
  else if action === "chat_head_check" then
    reply ((λ p, RpChecked p.1 p.2) <$> check_space_chat_head sv st c body time)
  else if action === "call_head_publish" then publish_space_call_head st c body
  else if action === "notes" then notes_command st c body
  else if (action === "contact") && has_applicant st (vc_identity c) ["approved"] then
    reply (Ok (RpContact (ro_contact_email r)))
  else if (action === "contact_update") && (ro_primary r === vc_identity c) then
    update_contact st r body
  else if contains ["storage"; "storage_prune"] action && owner then
    reply (RpReplica <$> manage_storage replica action body time)
  else if action === "join" then join (replica := replica) cfg st c owner body time
  else if action === "status" then status cfg st c body time
  else if (action === "manage") && owner then reply (manage sv cfg st r)
  else if (action === "invite") && owner then
    '(st, (id, token, expires)) ← lift (invited st e body time);
    _ ← save_service_state st;
    mret (st, RpInvited id (invitation_link (cfg_address cfg) token) expires)
  else if (action === "revoke") && owner then
    st ← lift (revoked_offer st body time); _ ← save_service_state st; mret (st, RpEmpty)
  else if (action === "decide") && owner then
    st ← lift (decided sv st (vc_identity c) e body); _ ← save_service_state st; mret (st, RpEmpty)
  else if contains ["role_change"; "role_decide"] action then change_roles st c action body
  else lift (Err "Only the Space owner can manage invitations.").

Definition space_command {replica : bool} (cfg : ServiceConfig) (st : ServiceState)
    (c : VerifiedCredential) (command : Command) (e : AdminEvidence) (time : N)
    (draw : option string) : M (ServiceState * Reply) :=
  sv ← self;
  _ ← lift (admitted_command sv st c command);
  r ← lift (ok_or (st_roles st) "Space roles unavailable.");
  let owner := can_manage (sv_authority sv) (vc_id c) && is_owner r (vc_identity c) in
  match attachment_space_command st c owner command time draw with
  | Some m => m
  | None => space_action (replica := replica) cfg st c owner command e time
  end.

(** ** [serve_space_inner] *)

Definition cacheable (action : string) : bool :=
  negb (contains ["join"; "status"; "manage"; "storage"; "chat_head_check"; "device_list"] action).
Definition journaled (action : string) : bool :=
  contains ["invite"; "revoke"; "decide"; "role_change"; "role_decide"] action.
Definition reply_prefix (c : VerifiedCredential) : string := display (vc_id c) +:+ ":".
Definition replies_of (st : ServiceState) (c : VerifiedCredential) : N :=
  count_over (λ key _, bool_decide (is_Some (prefix_of (reply_prefix c) key))) (st_replies st).

(** The service runs for the configured Space. *)
Definition configured (sv : Service) (cfg : ServiceConfig) (nonce : string)
    : result string TeamScope :=
  _ ← map_err (hex 16 nonce) "record";
  _ ← address_validate (cfg_address cfg) (sv_allow_loopback sv);
  scope ← team_scope sv;
  _ ← fail_if ((scope =/= sa_scope (cfg_address cfg))
               || (sa_service_credential (cfg_address cfg) =/= Some (transport_credential sv)))
        "Space service configuration mismatch.";
  mret scope.
(** Roles are there in every state that reads back; the source sets them otherwise. *)
Definition ensure_roles (cfg : ServiceConfig) (st : ServiceState) : M ServiceState :=
  match st_roles st with
  | Some _ => mret st
  | None =>
      r ← lift (bootstrap (cfg_owners cfg));
      r ← lift match cfg_contact_email cfg with
               | Some email => _ ← validate_contact_email email; Ok (with_email r (Some email))
               | None => Ok r
               end;
      let st := with_roles st (Some r) in
      _ ← save_service_state st;
      mret st
  end.
Definition preview (cfg : ServiceConfig) (st : ServiceState) (token : string) (current : N) : Reply :=
  match open_offer st token current with
  | Some (_, o) => RpPreview (cfg_name cfg) (of_expires_at o) (of_require_approval o)
                     (sa_lifetime (cfg_address cfg))
  | None => RpError "This Space invitation has expired or was revoked."
  end.
(** A linked device needs its parent in the Space until it is enrolled itself. *)
Definition authorizer_admitted (replica : bool) (sv : Service) (c : VerifiedCredential)
    : result string unit :=
  match authorizing_device c with
  | None => Ok tt
  | Some parent =>
      h ← map_err (head_config (sv_authority sv)) "authority";
      if has_device h (vc_identity c) (vc_id c) then Ok tt
      else
        _ ← require_active replica sv parent;
        fail_if (negb (has_device h (vc_identity c) parent))
          "The authorizing device is no longer in this Space."
  end.
(** The signer and its signed command. *)
Definition authenticate (replica : bool) (sv : Service) (scope : TeamScope) (q : Request)
    (current : N) : result string (VerifiedCredential * SignedRecord * Command) :=
  text ← ok_or (hq_credential q) "Missing device proof.";
  c ← verify_credential text;
  _ ← require_active replica sv (vc_id c);
  _ ← authorizer_admitted replica sv c;
  encoded ← ok_or (hq_record q) "Missing signature.";
  signed ← decode_record encoded;
  _ ← map_err (verify_signature signed (vc_key c)) "signature";
  command ← map_err (decode (T := Command) signed) "record";
  _ ← fail_if (negb (hc_v command =? 1)
               || (hc_kind command =/= "space.command")
               || (hc_space command =/= ts_space scope)
               || (hc_nonce command =/= hq_nonce q)
               || (120000 <? abs_diff current (hc_issued command)))
        "Invalid or expired Space request.";
  mret (c, signed, command).

(** What a command that answered is recorded as. *)
Definition recorded (st : ServiceState) (key : string) (current : N) (signed : SignedRecord)
    (action : string) (reply : Reply) : ServiceState :=
  let st := if cacheable action
            then with_replies st (<[key := (current, display (record_id signed), reply)]>
                                    (st_replies st))
            else st in
  with_claimed st true.
(** A command that answers is saved. One that fails answers its error, and the intent it
    appended is dropped with the rest of the state. *)
Definition settle (record : ServiceState → Reply → ServiceState) (m : M (ServiceState * Reply))
    : M Reply := λ sv,
  match m sv with
  | (sv, Ok (st, reply)) => (_ ← save_service_state (record st reply); mret reply) sv
  | (sv, Err error) => (sv, Ok (RpError error))
  end.
Definition run_command {replica : bool} (cfg : ServiceConfig) (st : ServiceState)
    (c : VerifiedCredential) (signed : SignedRecord) (command : Command) (key : string)
    (current time : N) (draw : option string) : M Reply :=
  let action := hc_action command in
  _ ← lift (fail_if (cacheable action
                     && ((8192 <=? N.of_nat (size (st_replies st))) || (256 <=? replies_of st c)))
              "Space is busy. Try again.");
  let e := evidence_of signed c in
  st ← lift (if journaled action then append_intent st e else Ok st);
  settle (λ st reply, recorded st key current signed action reply)
    (space_command (replica := replica) cfg st c command e time draw).
Definition answer_command {replica : bool} (cfg : ServiceConfig) (st : ServiceState)
    (c : VerifiedCredential) (signed : SignedRecord) (command : Command) (nonce : string)
    (current time : N) (draw : option string) : M Reply :=
  sv ← self;
  let key := reply_prefix c +:+ nonce in
  let st := with_replies st
    (delete_all (λ _ x, 120000 <? saturating_sub current x.1.1) (st_replies st)) in
  _ ← lift (fail_if match st_replies st !! key with
                    | Some (_, record, _) => record =/= display (record_id signed)
                    | None => false
                    end "A Space request nonce cannot be reused.");
  if hc_action command === "chat_head_check" then
    match check_space_chat_head sv st c (hc_body command) time with
    | Ok (h, at_) => mret (RpChecked h at_)
    | Err error => mret (RpError error)
    end
  else
    match (if cacheable (hc_action command) then st_replies st !! key else None) with
    | Some (_, _, reply) => mret reply
    | None => run_command (replica := replica) cfg st c signed command key current time draw
    end.

(** The answer, and the recipient it is sealed to. [current] is the clock of the request and
    [time] the clock its command reads later. *)
Definition serve_space_inner (replica : bool) (cfg : ServiceConfig) (q : Request)
    (current time : N) (draw : option string) : M (option string * Reply) :=
  sv ← self;
  scope ← lift (configured sv cfg (hq_nonce q));
  st ← lift (service_state sv);
  st ← (if replica then apply_device_revocations st else mret st);
  let st := prune_applicants st current in
  st ← ensure_roles cfg st;
  match hq_invitation q with
  | Some token =>
      _ ← lift (fail_if (bool_decide (is_Some (hq_record q)) || bool_decide (is_Some (hq_credential q)))
                  "Invalid Space request.");
      mret (None, preview cfg st token current)
  | None =>
      sv ← self;
      '(c, signed, command) ← lift (authenticate replica sv scope q current);
      reply ← answer_command (replica := replica) cfg st c signed command (hq_nonce q)
                current time draw;
      mret (Some (vc_recipient c), reply)
  end.
(** [serve_space] and [serve_hosted_space] *)
Definition serve_space (replica : bool) (cfg : ServiceConfig) (q : Request) (current time : N)
    (draw : option string) : M (option string * Reply) :=
  sv ← self;
  _ ← lift (fail_if (bool_decide (is_Some (sv_trusted_witness sv)))
              "An independent witness lease is required.");
  serve_space_inner replica cfg q current time draw.

End HostedService.
