(* ===== verification/HostedWitness.v ===== *)
(** * Hosted Spaces with a witness (crates/elo-core/src/public_space/witnessed.rs,
    public_space/witnessed_relay.rs)

    A witnessed Space takes its membership from the witness alone: the host synchronises a
    proof under a fresh lease, and relays the requests and approvals of new devices. *)

From S2P Require Import Prelude Sums Platform Ids Record Chat Identity AuthorityData AuthorityWitness Authority AuthorityProof WitnessWire CallWire WakeWire Attachments HostedRoles Revocations HostedState HostedAccess HostedFiles HostedCalls HostedAdmission HostedService.

Section HostedWitness.
Context `{P : Platform} {SA : AuthoritySerde} {W : WitnessSerde} {U : UrlBase64}
  {HP : HostedPlatform} {HS : HostedSerde} {D : Disk}.

Definition no_ancestry : string := "Missing witnessed ancestry.".

(** ** Requests *)

Definition verify_witnessed_request (sv : Service) (q : Request) (time : N)
    : result string (VerifiedCredential * Command) :=
  _ ← fail_if (bool_decide (sv_trusted_witness sv = None) || bool_decide (is_Some (hq_invitation q)))
        "Witnessed Space authentication is required.";
  _ ← map_err (hex 16 (hq_nonce q)) "record";
  text ← ok_or (hq_credential q) "Missing device proof.";
  c ← verify_credential text;
  encoded ← ok_or (hq_record q) "Missing signature.";
  signed ← decode_record encoded;
  _ ← map_err (verify_signature signed (vc_key c)) "signature";
  command ← map_err (decode (T := Command) signed) "record";
  _ ← fail_if (negb (hc_v command =? 1)
               || (hc_kind command =/= "space.command")
               || (hc_space command =/= space (sv_authority sv))
               || (hc_nonce command =/= hq_nonce q)
               || (120000 <? abs_diff time (hc_issued command)))
        "Invalid or expired Space request.";
  st ← service_state sv;
  _ ← fail_if (is_revoked st (vc_id c) || is_erased st (vc_identity c))
        "This device is no longer admitted to the Space.";
  mret (c, command).

(** *** The relayed packets (witnessed_relay.rs) *)

(** [cfg] is the configured Space, where the caller checks it. *)
Definition relay_packet (sv : Service) (packet : DurableAdmissionRequest)
    (cfg : option ServiceConfig) (now : N) : result string VerifiedCredential :=
  _ ← fail_if (32 * 1024 <? slen (to_vec packet)) "Admission request is too large.";
  candidate ← verify_credential (da_credential packet);
  body ← map_err (verify_witness_join_request (sv_authority sv) (da_request packet) candidate now)
           "authority";
  scope ← team_scope sv;
  device ← decode_record (jr_device_request (da_request packet));
  _ ← fail_if ((da_request_id packet =/= record_id device)
               || negb (da_expires_at_ms packet =? wj_expires_at_ms body)
               || negb (valid_display_name (da_name packet))
               || (sa_scope (da_address packet) =/= scope)) "Invalid admission request.";
  _ ← address_validate (da_address packet) (sv_allow_loopback sv);
  _ ← fail_if match cfg with
              | Some cfg => (da_address packet =/= cfg_address cfg)
                            || (da_name packet =/= cfg_name cfg)
              | None => false
              end "Admission request belongs to another Space.";
  mret candidate.
Definition body_packet (body : value) : result string DurableAdmissionRequest :=
  ok_or (from_value (T := DurableAdmissionRequest) (value_index body "request")) "json".
Definition body_request_id (body : value) : result string RecordId :=
  text ← HostedRoles.field body "request_id"; parse_id text.
Definition same_device (a b : VerifiedCredential) : bool :=
  sr_bytes (vc_record a) === sr_bytes (vc_record b).
Definition unavailable : string := "Admission request is unavailable.".
Definition other_device : string := "Admission request belongs to another device.".
(** Whether the request is a candidate's, who is no member yet. *)
Definition relay_candidate (sv : Service) (command : Command) (c : VerifiedCredential) (time : N)
    : result string bool :=
  let pending := hc_action command === "witness_pending" in
  if negb (contains ["witness_request"; "witness_pending"] (hc_action command)) then Ok false
  else
    packet ← (if pending then
                id ← body_request_id (hc_body command);
                st ← service_state sv;
                p ← ok_or (st_witness_requests st !! id) unavailable;
                Ok (pn_packet p)
              else body_packet (hc_body command));
    candidate ← relay_packet sv packet None time;
    if same_device candidate c then Ok true
    else if pending && can_manage (sv_authority sv) (vc_id c) then Ok false
    else Err other_device.

(** *** [witnessed_request_authority] *)

Definition needs_witness (action : string) : bool :=
  contains ["join"; "invite"; "revoke"; "decide"; "role_change"; "role_decide"; "authority";
            "authority_publish"] action.
(** The proof a synchronisation brings extends the authority in hand. *)
Definition synchronised_authority (sv : Service) (c : VerifiedCredential) (body : value) (time : N)
    : result string Authority :=
  let previous := sv_authority sv in
  proof ← ok_or (from_value (T := CallAuthorityProof) (value_index body "proof")) "json";
  _ ← fail_if (bool_decide (is_Some (pf_checkpoint proof)))
        "A complete witnessed authority proof is required.";
  pin ← ok_or (sv_trusted_witness sv) "Missing witness pin.";
  next ← map_err (verify_witnessed proof (space previous) (stream previous) pin) "authority";
  id ← ok_or (head previous) "Missing General head.";
  prior ← map_err (head_config previous) "authority";
  _ ← fail_if ((sr_bytes (genesis next) =/= sr_bytes (genesis previous))
               || negb (proves_config_at next id (sc_sequence prior))
               || negb (proves_recovery_ancestor next (recovery_id previous)))
        "Witnessed General does not extend the stored authority.";
  request ← read_enrollment body;
  _ ← own_applicant sv request c time "This request belongs to another profile.";
  mret next.
Definition witnessed_request_authority (sv : Service) (q : Request) (time : N)
    : result string Authority :=
  '(c, command) ← verify_witnessed_request sv q time;
  next ← (if hc_action command === "witness_sync"
          then synchronised_authority sv c (hc_body command) time
          else
            _ ← fail_if (needs_witness (hc_action command))
                  "This operation requires the independent witness.";
            Ok (sv_authority sv));
  candidate ← relay_candidate sv command c time;
  if candidate : bool then Ok next
  else
    who ← map_err (require_member next (vc_id c)) "authority";
    known ← map_err (credential next (vc_id c)) "authority";
    _ ← fail_if ((who =/= vc_identity c) || negb (same_device known c))
          "This exact device is not admitted by the witness.";
    Ok next.

(** ** Relayed requests and approvals *)

Definition with_pending (st : ServiceState) (id : RecordId) (p : Pending) : ServiceState :=
  with_witness_requests st (<[id := p]> (st_witness_requests st)).
Definition pending_word (p : Pending) (word : string) : string :=
  if pn_declined p then "declined" else word.
Definition relay_request (sv : Service) (cfg : ServiceConfig) (st : ServiceState)
    (c : VerifiedCredential) (body : value) (now : N) : result string (ServiceState * Reply) :=
  packet ← body_packet body;
  candidate ← relay_packet sv packet (Some cfg) now;
  _ ← fail_if (negb (same_device candidate c)) other_device;
  let id := da_request_id packet in
  match st_witness_requests st !! id with
  | Some previous =>
      _ ← fail_if (pn_packet previous =/= packet)
            "Admission request conflicts with stored evidence.";
      mret (st, RpWitnessRequest id (pending_word previous "pending"))
  | None =>
      let all := st_witness_requests st in
      _ ← fail_if ((128 <=? N.of_nat (size all))
                   || (4 <=? count_over (λ _ p, da_credential (pn_packet p) === da_credential packet)
                               all)
                   || (32 <=? count_over (λ _ p, jr_policy (da_request (pn_packet p))
                                                 === jr_policy (da_request packet)) all))
            "Space request limit reached.";
      mret (with_pending st id {| pn_packet := packet; pn_approval := None; pn_declined := false |},
            RpWitnessRequest id "pending")
  end.
Definition relay_pending (sv : Service) (cfg : ServiceConfig) (st : ServiceState)
    (c : VerifiedCredential) (body : value) (now : N) : result string Reply :=
  id ← body_request_id body;
  p ← ok_or (st_witness_requests st !! id) unavailable;
  candidate ← relay_packet sv (pn_packet p) (Some cfg) now;
  _ ← fail_if (negb (same_device candidate c) && negb (can_manage (sv_authority sv) (vc_id c)))
        other_device;
  mret (RpWitnessPending (pn_packet p) (pn_approval p) (pending_word p "pending")).

(** The approval the owner signed, for the request that waits. *)
Definition relayed_approval (sv : Service) (c : VerifiedCredential) (id : RecordId) (p : Pending)
    (encoded : string) (now : N) : result string Pending :=
  let a := sv_authority sv in
  _ ← fail_if (16 * 1024 <? slen encoded) "Invalid approval.";
  signed ← decode_record encoded;
  body ← map_err (decode (T := WitnessApprovalV2) signed) "record";
  _ ← map_err (hex 16 (w2_nonce body)) "record";
  _ ← fail_if (negb (w2_v body =? 2)
               || (w2_kind body =/= "witness.approval")
               || (w2_space_id body =/= space a)
               || (w2_stream_id body =/= stream a)
               || (w2_request_id body =/= id)
               || (w2_issuer_credential_id body =/= vc_id c)
               || (da_expires_at_ms (pn_packet p) <? w2_expires_at_ms body)
               || (w2_expires_at_ms body <=? now)) "Invalid approval.";
  _ ← map_err (verify_signature signed (vc_key c)) "signature";
  match pn_approval p with
  | Some previous =>
      old ← decode_record previous;
      _ ← fail_if (sr_bytes old =/= sr_bytes signed) "An approval already exists.";
      mret p
  | None =>
      _ ← fail_if (Some (w2_authority_head body) =/= head a) changed_error;
      mret {| pn_packet := pn_packet p; pn_approval := Some encoded;
              pn_declined := pn_declined p |}
  end.
Definition relay_decision (sv : Service) (cfg : ServiceConfig) (st : ServiceState)
    (c : VerifiedCredential) (action : string) (body : value) (now : N)
    : result string (ServiceState * Reply) :=
  _ ← fail_if (negb (can_manage (sv_authority sv) (vc_id c))) "Owner permission is required.";
  id ← body_request_id body;
  p ← ok_or (st_witness_requests st !! id) unavailable;
  _ ← relay_packet sv (pn_packet p) (Some cfg) now;
  p ← (if action === "witness_decline" then
         _ ← fail_if (bool_decide (is_Some (pn_approval p)))
               "An issued approval cannot be withdrawn by the relay.";
         Ok {| pn_packet := pn_packet p; pn_approval := pn_approval p; pn_declined := true |}
       else
         _ ← fail_if (pn_declined p) "This request was declined.";
         encoded ← HostedRoles.field body "approval";
         relayed_approval sv c id p encoded now);
  mret (with_pending st id p, RpWitnessRequest id (pending_word p "approved")).
Definition relay_manage (sv : Service) (st : ServiceState) (c : VerifiedCredential)
    : result string Reply :=
  _ ← fail_if (negb (can_manage (sv_authority sv) (vc_id c))) "Owner permission is required.";
  requests ← try_map (λ p,
      contact ← decode_record (jr_contact (da_request (pn_packet p.2)));
      mret (p.1, value_index (sr_body contact) "name", pn_packet p.2))
    (List.filter (λ p, negb (pn_declined p.2) && bool_decide (pn_approval p.2 = None))
       (btree_list (st_witness_requests st)));
  r ← ok_or (st_roles st) "Space roles unavailable.";
  members ← space_role_members sv st;
  mret (RpManage
    {| mg_offers := []; mg_requests := []; mg_witness_requests := requests; mg_members := members;
       mg_roles_revision := ro_revision r; mg_primary_owner := ro_primary r;
       mg_contact_email := ro_contact_email r; mg_attachments := None |}).

Definition is_relay_action (action : string) : bool :=
  contains ["witness_request"; "witness_pending"; "witness_approve"; "witness_decline"; "manage"]
    action.
Definition drop_expired_requests (st : ServiceState) (now : N) : ServiceState :=
  with_witness_requests st
    (delete_all (λ _ p, da_expires_at_ms (pn_packet p) <=? now) (st_witness_requests st)).
Definition relay_result (sv : Service) (cfg : ServiceConfig) (st : ServiceState)
    (c : VerifiedCredential) (command : Command) (now : N) : result string (ServiceState * Reply) :=
  let action := hc_action command in
  let body := hc_body command in
  if action === "witness_request" then relay_request sv cfg st c body now
  else if action === "witness_pending" then
    reply ← relay_pending sv cfg st c body now; mret (st, reply)
  else if action === "manage" then reply ← relay_manage sv st c; mret (st, reply)
  else relay_decision sv cfg st c action body now.
(** [witnessed_relay_command]: [None] is any other action. *)
Definition witnessed_relay_command (cfg : ServiceConfig) (c : VerifiedCredential)
    (command : Command) (now : N) : M (option Reply) :=
  if negb (is_relay_action (hc_action command)) then mret None
  else
    sv ← self;
    st ← lift (service_state sv);
    '(st, reply) ← lift (relay_result sv cfg (drop_expired_requests st now) c command now);
    _ ← save_service_state st;
    mret (Some reply).

(** ** Synchronisation *)

(** The configurations from the head back to the one in hand, newest first. *)
Fixpoint until (old : option RecordId) (path : list (RecordId * StreamConfig))
    : result string (list (RecordId * StreamConfig)) :=
  match path with
  | [] => Err no_ancestry
  | p :: path => if Some p.1 === old then Ok [] else rest ← until old path; Ok (p :: rest)
  end.
Definition transitions (old next : Authority) : result string (list (RecordId * StreamConfig)) :=
  path ← map_err (ancestry_from next (head next)) "authority";
  until (head old) path.
(** One configuration's removals. *)
Definition transition_removals (next : Authority) (st : ServiceState)
    (t : RecordId * StreamConfig) : result string ServiceState :=
  parent ← ok_or (sc_previous_config_id t.2) no_ancestry;
  prior ← map_err (config next parent) "authority";
  try_fold (λ st m,
    if has_identity t.2 (m_identity_id m) then Ok st
    else
      st ← next_epoch st (m_identity_id m);
      mret (with_removal_heads st (<[m_identity_id m := t.1]> (st_removal_heads st))))
    st (sc_members prior).
(** Nobody deleted, and no retired device, comes back. *)
Definition restorable (sv : Service) (st : ServiceState) (m : Member) : result string unit :=
  _ ← fail_if (is_erased st (m_identity_id m))
        "Deleted accounts cannot be restored to this Space.";
  try_fold (λ _ id,
    _ ← require_active true sv id;
    fail_if (is_revoked st id) "Revoked devices cannot be restored to this Space.")
    tt (m_credential_ids m).
Definition witnessed_applicant (next : Authority) (key : string) (a : Applicant) : Applicant :=
  set_note (set_status a
    (if match parse_hex 32 key with
        | Some id => general_member next id === Some (ap_identity a)
        | None => false
        end then "approved" else "removed")) "".
Definition witnessed_roles (cfg : ServiceConfig) (st : ServiceState) (next : Authority)
    : result string Roles :=
  h ← map_err (head_config next) "authority";
  let owners := m_identity_id <$> List.filter (λ m, has_capability m Manage) (sc_members h) in
  primary ← map_err (primary_owner_identity next) "authority";
  _ ← fail_if match st_roles st with Some r => ro_primary r =/= primary | None => false end
        "Space primary owner does not match its signed creation.";
  index ← ok_or (fst <$> list_find (λ id, id = primary) owners)
            "The primary owner cannot be removed.";
  (** [owners.swap(0, index)] *)
  let owners := <[0%nat := primary]> (<[index := default primary (hd_error owners)]> owners) in
  r ← bootstrap owners;
  let email := match st_roles st ≫= ro_contact_email with
               | Some email => Some email
               | None => cfg_contact_email cfg
               end in
  mret (with_revision (with_email r email) (sc_sequence h)).
Definition lease_covers (pin : WitnessPin) (next : Authority) (f : VerifiedFreshness)
    (instant time : N) : bool :=
  let lease := vf_body f in
  freshness_is_valid f instant time && (fr_audience lease === wp_url pin)
  && (fr_witness_key_generation lease =? wp_key_generation pin)
  && (fr_space_id lease === space next) && (fr_stream_id lease === stream next)
  && (Some (fr_authority_head lease) === head next).

(** What a synchronisation makes of the state, and the key of the device it approves. *)
Definition synchronised_state (sv : Service) (cfg : ServiceConfig) (st : ServiceState)
    (next : Authority) (body : value) (time : N) : result string (ServiceState * string) :=
  h ← map_err (head_config next) "authority";
  _ ← try_fold (λ _ m, restorable sv st m) tt (sc_members h);
  path ← transitions (sv_authority sv) next;
  st ← try_fold (transition_removals next) st (rev path);
  let st := with_applicants st (update_all (witnessed_applicant next) (st_applicants st)) in
  r ← witnessed_roles cfg st next;
  let st := with_roles st (Some r) in
  request ← read_enrollment body;
  '(who, device, name) ← space_applicant sv request time;
  let key := display device in
  _ ← (if bool_decide (is_Some (st_applicants st !! key)) then Ok tt
       else require_applicant_capacity st who "" false);
  let st := with_applicant st key (new_applicant who name "approved" "" "" request time) in
  proof ← map_err (call_proof next) "authority";
  mret (with_replies (with_offers (with_claimed (with_proof st proof) true) ∅) ∅, key).
Definition refresh_error : string := "Witnessed General needs to be refreshed.".
Definition synchronise (cfg : ServiceConfig) (q : Request) (c : VerifiedCredential)
    (next : Authority) (body : value) (f : VerifiedFreshness) (instant time : N)
    : M (option string * Reply) :=
  sv ← self;
  _ ← lift (configured sv cfg (hq_nonce q));
  st ← lift (service_state sv);
  st ← apply_device_revocations st;
  '(st, key) ← lift (synchronised_state sv cfg st next body time);
  _ ← lift (fail_if (negb (freshness_is_valid f instant time)) refresh_error);
  _ ← save_service_state st;
  _ ← put_authority next;
  sv ← self;
  reply ← lift (space_join_reply sv cfg st key None);
  mret (Some (vc_recipient c), reply).

(** [time] is the clock of the request and its lease, [later] the clock when the state is
    written; [instant] and [instant'] are the monotonic clock at the same moments. *)
Definition serve_hosted_witnessed_space (cfg : ServiceConfig) (q : Request) (f : VerifiedFreshness)
    (instant time instant' later : N) (draw : option string) : M (option string * Reply) :=
  sv ← self;
  next ← lift (witnessed_request_authority sv q time);
  pin ← lift (ok_or (sv_trusted_witness sv) "Missing witness pin.");
  _ ← lift (fail_if (negb (lease_covers pin next f instant time)) refresh_error);
  '(c, command) ← lift (verify_witnessed_request sv q time);
  _ ← lift (require_active true sv (vc_id c));
  relayed ← witnessed_relay_command cfg c command time;
  match relayed with
  | Some reply => mret (Some (vc_recipient c), reply)
  | None =>
      if hc_action command =/= "witness_sync"
      then serve_space_inner true cfg q time later draw
      else synchronise cfg q c next (hc_body command) f instant' later
  end.

(** [witnessed_authority] *)
Definition witnessed_authority (sv : Service) : result string (option Authority) :=
  match sv_trusted_witness sv with
  | None => Ok None
  | Some pin =>
      _ ← fail_if (forked (sv_authority sv) || (witness_pin (sv_authority sv) =/= Some pin))
            "Witnessed General is unavailable.";
      Ok (Some (sv_authority sv))
  end.

End HostedWitness.
