(* ===== verification/SpaceCreation.v ===== *)
(** * Creating a hosted Space (crates/elo-core/src/app/space_host.rs)

    The signed creation command, its proof of work and the owner-managed General it brings. *)

From S2P Require Import Prelude Platform Ids Record Chat Identity AuthorityData AuthorityWitness Authority AuthorityProof WitnessWire CallWire WakeWire Attachments HostedRoles Revocations HostedState HostedAccess.

Definition CREATE_LIMIT : N := 64 * 1024.
Definition CREATE_WORK_BITS : N := 20.

Record CreateRequest := { cr_record : string; cr_credential : string; cr_work : N }.
Record CreateCommand := {
  cx_v : N; cx_kind : string; cx_host : string; cx_request_id : string; cx_issued : N;
  cx_name : string; cx_contact_email : string; cx_lifetime : MessageRetention;
  cx_require_approval : bool; cx_authority : option CallAuthorityProof;
}.

Section Creation.
Context `{P : Platform} {SA : AuthoritySerde} {W : WitnessSerde} {X : ProtocolSerde}
  {U : UrlBase64} {HP : HostedPlatform} {HS : HostedSerde} {SC : Serde CreateCommand}.

(** ** Proof of work *)

Definition work_prefix (r : CreateRequest) : string :=
  ("elo.space.create.work.v1" +:+ nul) +:+ sha256 (cr_record r) +:+ sha256 (cr_credential r).
Definition leading_zeros (n : N) : N := 32 - N.size n.
Definition valid_work (prefix : string) (nonce : N) : bool :=
  CREATE_WORK_BITS <=? leading_zeros (from_be (stake 4 (sha256 (prefix +:+ be_bytes 8 nonce)))).
Definition verify_work (r : CreateRequest) : result string unit :=
  fail_if ((CREATE_LIMIT <? slen (cr_record r) + slen (cr_credential r))
           || negb (valid_work (work_prefix r) (cr_work r))) "Invalid Space creation proof.".
(** The search of [solve_work] over that many nonces from one on. *)
Fixpoint solve_from (fuel : nat) (prefix : string) (nonce : N) : option N :=
  match fuel with
  | O => None
  | Datatypes.S fuel =>
      if valid_work prefix nonce then Some nonce else solve_from fuel prefix (nonce + 1)
  end.
Definition solve_work (r : CreateRequest) : result string CreateRequest :=
  nonce ← ok_or (solve_from (N.to_nat (64 * 2 ^ CREATE_WORK_BITS)) (work_prefix r) 0)
            "Space creation proof timed out.";
  mret {| cr_record := cr_record r; cr_credential := cr_credential r; cr_work := nonce |}.

(** ** The owner's authority *)

(** [(v, authority.is_some())] is [(1, false)] or [(2, true)]. *)
Definition version_ok (c : CreateCommand) : bool :=
  ((cx_v c =? 1) && bool_decide (cx_authority c = None))
  || ((cx_v c =? 2) && bool_decide (is_Some (cx_authority c))).
Definition is_creator (c : VerifiedCredential) (o : Owner) : bool :=
  (ow_identity_id o === vc_identity c) && value_eq_str (vc_root_value c) (ow_root_public_key o).
Definition verify_creation_authority_with_witness (command : CreateCommand)
    (c : VerifiedCredential) (witness : option WitnessPin) : result string (option Authority) :=
  _ ← match witness with Some pin => map_err (pin_validate pin) "pin" | None => Ok tt end;
  _ ← fail_if (negb (version_ok command)) "Invalid Space creation authority version.";
  match cx_authority command with
  | None =>
      _ ← fail_if (bool_decide (is_Some witness))
            "Witnessed Space creation requires an updated app.";
      Ok None
  | Some proof =>
      g ← decode_record (pf_genesis proof);
      st ← map_err (hex 16 (cx_request_id command)) "record";
      let sp := record_id g in
      a ← map_err (match witness with
                   | Some pin => verify_witnessed proof sp st pin
                   | None => proof_verify proof sp st
                   end) "authority";
      body ← map_err (decode (T := SpaceGenesis) (genesis a)) "record";
      h ← map_err (head_config a) "authority";
      _ ← fail_if (negb (is_owner_managed a)
                   || (sg_nonce body =/= cx_request_id command)
                   || (sg_issuer_identity body =/= vc_identity c)
                   || negb (nlen (sg_owners body) =? 1)
                   || negb (forallb (is_creator c) (sg_owners body))
                   || ((vc_id <$> initial_controller a) =/= Some (vc_id c))
                   || negb (sc_sequence h =? 1)
                   || (sc_controller_credential_id h =/= vc_id c)
                   || negb (nlen (sc_members h) =? 1)
                   || negb (forallb (λ m, (m_identity_id m === vc_identity c)
                                          && (m_credential_ids m === [vc_id c])) (sc_members h)))
            "Space creation authority does not match its owner and request.";
      Ok (Some a)
  end.
Definition verify_creation_authority (command : CreateCommand) (c : VerifiedCredential)
    : result string (option Authority) := verify_creation_authority_with_witness command c None.

Definition verify_create_with_witness (r : CreateRequest) (expected_host : string) (current : N)
    (witness : option WitnessPin) : result string (CreateCommand * VerifiedCredential) :=
  _ ← verify_work r;
  _ ← fail_if (CREATE_LIMIT <? slen (cr_record r) + slen (cr_credential r))
        "Space request is too large.";
  c ← verify_credential (cr_credential r);
  signed ← decode_record (cr_record r);
  _ ← map_err (verify_signature signed (vc_key c)) "signature";
  command ← map_err (decode (T := CreateCommand) signed) "record";
  _ ← map_err (hex 16 (cx_request_id command)) "record";
  _ ← fail_if (negb (version_ok command)
               || (cx_kind command =/= "space.create")
               || (cx_host command =/= expected_host)
               || (120000 <? abs_diff current (cx_issued command))
               || negb (valid_display_name (cx_name command)))
        "Invalid or expired Space creation request.";
  _ ← validate_contact_email (cx_contact_email command);
  _ ← verify_creation_authority_with_witness command c witness;
  mret (command, c).
Definition verify_create (r : CreateRequest) (expected_host : string) (current : N)
    : result string (CreateCommand * VerifiedCredential) :=
  verify_create_with_witness r expected_host current None.

(** ** The host's answer *)

Definition controller_matches (a : Authority) (scope : TeamScope) : bool :=
  match initial_controller a with
  | Some c => (ts_controller scope === vc_id c) && value_eq_str (vc_root_value c) (ts_root scope)
  | None => false
  end.
Definition verify_created_address (address : SpaceAddress) (a : Authority) : result string unit :=
  let scope := sa_scope address in
  _ ← fail_if ((ts_space scope =/= space a) || (ts_stream scope =/= stream a)
               || negb (controller_matches a scope))
        "Space hosting response changed General authority.";
  signer ← service_signer address;
  service ← ok_or signer "Space hosting response omitted its service credential.";
  h ← map_err (head_config a) "authority";
  fail_if (existsb (λ m, contains (m_credential_ids m) (vc_id service)) (sc_members h))
    "The Space hosting service cannot be a General participant.".

(** [ObjectId::of_ciphertext] of [elo.host.v1:identity:stream] *)
Definition reservation_id (who : IdentityId) (st : StreamId) : string :=
  display (object_of_ciphertext ("elo.host.v1:" +:+ display who +:+ ":" +:+ display st)).
Definition verify_registration_ticket_target (encoded host : string) (a : Authority)
    (c : VerifiedCredential) (pin : WitnessPin) (now_ms : N) : result string unit :=
  '(ticket, _) ← map_err (ticket_parse encoded) "ticket";
  fail_if ((rt_host ticket =/= host)
           || (rt_space_id ticket =/= space a)
           || (rt_stream_id ticket =/= stream a)
           || (Some (rt_authority_head ticket) =/= head a)
           || (rt_creator_identity ticket =/= vc_identity c)
           || (rt_credential_id ticket =/= vc_id c)
           || (rt_audience ticket =/= wp_url pin)
           || (rt_witness_public_key ticket =/= wp_public_key pin)
           || negb (rt_witness_key_generation ticket =? wp_key_generation pin)
           || (rt_reservation_id ticket =/= reservation_id (vc_identity c) (stream a))
           || (saturating_add now_ms 5000 <? rt_issued_at_ms ticket)
           || (rt_expires_at_ms ticket <=? now_ms)) "Unexpected hosting registration ticket.".

End Creation.
