(* ===== verification/OwnerAdmission.v ===== *)
(** * What an owner's device believes of its host (crates/elo-core/src/owner_admission.rs)

    The owner replays the signed intents the host presents, from the creation of the Space and
    the history its own General head commits, and admits only what they authorise. *)

From S2P Require Import Prelude Sums Platform Ids Record Chat Identity AuthorityData AuthorityWitness Authority AuthorityProof WitnessWire CallWire WakeWire Attachments HostedRoles Revocations HostedState HostedAccess HostedFiles HostedAdmission HostedService SpaceCreation.

(** [Pending], [Invitation] and the answer *)
Record PendingItem := {
  pi_credential : RecordId; pi_request : EnrollmentRequest;
  pi_authorization : option AdminEvidence; pi_invitation_authorization : option AdminEvidence;
}.
Record Invitation := {
  iv_evidence : RecordId; iv_expires : N; iv_approval : bool; iv_revoked : bool;
}.
Record ValidatedEnrollment := { ve_credential : VerifiedCredential; ve_request : EnrollmentRequest }.
Record ValidatedOwnerPolicy := {
  vp_pending : list ValidatedEnrollment; vp_owner_identities : gset IdentityId;
  vp_removed : gset IdentityId; vp_revoked : gset RecordId; vp_commitment : option RecordId;
}.

(** The last decision on a device: its position, answer, head and record. *)
Record Decision := { dn_index : N; dn_approved : bool; dn_head : RecordId; dn_record : RecordId }.
Record Replay := {
  rp_roles : Roles;
  rp_invitations : gmap string Invitation;
  rp_approvals : gmap RecordId Decision;
  rp_denied : gset (RecordId * RecordId);
  rp_removals : gmap IdentityId (N * option RecordId);
  rp_revoked : gset RecordId;
}.
Definition eta_replay (s : Replay) : Replay :=
  Build_Replay (rp_roles s) (rp_invitations s) (rp_approvals s) (rp_denied s) (rp_removals s)
    (rp_revoked s).
Definition replay_roles (s : Replay) (v : Roles) : Replay := ltac:(set_field eta_replay rp_roles s v).
Definition replay_invitations (s : Replay) (v : gmap string Invitation) : Replay :=
  ltac:(set_field eta_replay rp_invitations s v).
Definition replay_approvals (s : Replay) (v : gmap RecordId Decision) : Replay :=
  ltac:(set_field eta_replay rp_approvals s v).
Definition replay_denied (s : Replay) (v : gset (RecordId * RecordId)) : Replay :=
  ltac:(set_field eta_replay rp_denied s v).
Definition replay_removals (s : Replay) (v : gmap IdentityId (N * option RecordId)) : Replay :=
  ltac:(set_field eta_replay rp_removals s v).
Definition replay_revoked (s : Replay) (v : gset RecordId) : Replay :=
  ltac:(set_field eta_replay rp_revoked s v).

Definition stale_intent : string :=
  "Space administration intent has a stale or unauthorized device.".
Definition bad_deletion : string := "Invalid signed account deletion intent.".
Definition not_admitted : string := "Only an admitted device can be revoked from this Space.".

Section OwnerAdmission.
Context `{P : Platform} {SA : AuthoritySerde} {W : WitnessSerde} {X : ProtocolSerde}
  {U : UrlBase64} {HP : HostedPlatform} {HS : HostedSerde} {SC : Serde CreateCommand}
  {SE : Serde AdminEvidence} {SJ : Serde (list AdminEvidence)} {SI : Serde PendingItem}.

(** ** The owner's own history of General *)

Definition in_config (c : StreamConfig) (id : RecordId) : bool :=
  existsb (λ m, contains (m_credential_ids m) id) (sc_members c).
Definition enrolled_at (a : Authority) (h id : RecordId) : result string bool :=
  c ← map_err (config a h) "authority"; Ok (in_config c id).
Fixpoint enrolled_from (fuel : nat) (a : Authority) (id : RecordId) (cursor : option RecordId)
    : result string bool :=
  match cursor with
  | None => Ok false
  | Some h =>
      match fuel with
      | O => Err "authority"
      | Datatypes.S fuel =>
          c ← map_err (config a h) "authority";
          if in_config c id then Ok true else enrolled_from fuel a id (sc_previous_config_id c)
      end
  end.
Definition enrolled_ever (a : Authority) (id : RecordId) : result string bool :=
  enrolled_from (walk_fuel a) a id (head a).
Fixpoint removed_from (fuel : nat) (a : Authority) (h id : RecordId) (later_absent : bool)
    (cursor : option RecordId) : result string bool :=
  match cursor with
  | None => Err "Admission intent references an unknown configuration."
  | Some next =>
      match fuel with
      | O => Err "authority"
      | Datatypes.S fuel =>
          c ← map_err (config a next) "authority";
          let present := in_config c id in
          if present && later_absent then Ok true
          else if next === h then Ok false
          else removed_from fuel a h id (later_absent || negb present) (sc_previous_config_id c)
      end
  end.
(** Whether the device was in a configuration since that head, and is absent from a later one. *)
Definition removed_since (a : Authority) (h id : RecordId) : result string bool :=
  removed_from (walk_fuel a) a h id false (head a).
(** Intents of the committed history are judged by what was ever enrolled. *)
Definition was_enrolled (a : Authority) (h id : RecordId) (committed : bool) : result string bool :=
  if committed then enrolled_ever a id else enrolled_at a h id.

(** [enrollment] *)
Definition admission_contact (link : string) : result string value :=
  encoded ← ok_or (prefix_of "elo://exchange/v1#" link) "Invalid admission contact.";
  _ ← fail_if (MAX_CONTACT * 2 <? slen encoded) "Admission contact is too large.";
  bytes ← ok_or (url_base64_decode encoded) "base64";
  plain ← ok_or (zlib_decode bytes (MAX_CONTACT + 1)) "zlib";
  v ← map_err (strict_json plain MAX_CONTACT) "record";
  _ ← fail_if (negb (value_eq_str (value_index v "kind") "Contact")
               || (object_len v =/= Some 3)) "Invalid admission contact.";
  mret v.
Definition enrollment (a : Authority) (item : PendingItem) (current : N)
    : result string VerifiedCredential :=
  packet ← admission_contact (en_contact (pi_request item));
  text ← HostedRoles.field packet "credential";
  c ← credential_text text;
  text ← HostedRoles.field packet "card";
  card ← signed_text text;
  _ ← map_err (verify_contact card c current) "contact";
  proof ← signed_text (en_proof (pi_request item));
  _ ← map_err (verify_signature proof (vc_key c)) "signature";
  initial ← ok_or (initial_controller a) "controller";
  let body := sr_body proof in
  _ ← fail_if ((pi_credential item =/= vc_id c)
               || negb (en_v (pi_request item) =? 1)
               || negb (value_eq_u64 (value_index body "v") 1)
               || negb (value_eq_str (value_index body "kind") "team.join")
               || negb (value_eq_str (value_index body "space") (display (space a)))
               || negb (value_eq_str (value_index body "stream") (display (stream a)))
               || negb (value_eq_str (value_index body "controller") (display (vc_id initial)))
               || negb (value_eq_str (value_index body "contact") (display (record_id card)))
               || (object_len body =/= Some 6))
        "Admission request belongs to another device or Space.";
  mret c.

Definition check_committed_owners (a : Authority) (r : Roles) : result string unit :=
  h ← map_err (head_config a) "authority";
  fail_if (managers h =/= ro_owners r)
    "Committed Space roles do not match the signed General configuration.".

(** ** One intent *)

Definition member_names (c : StreamConfig) (r : Roles) : list RoleMember :=
  (λ m, {| rm_identity := m_identity_id m; rm_name := display (m_identity_id m);
           rm_role := role r (m_identity_id m) |}) <$> sc_members c.
Definition replay_role (a : Authority) (s : Replay) (index : N) (h : RecordId) (command : Command)
    (signer : VerifiedCredential) : result string Replay :=
  c ← map_err (config a h) "authority";
  '(r, answer) ← apply_with_id (rp_roles s) (vc_identity signer) (hc_action command)
                   (hc_body command) (member_names c (rp_roles s));
  let s := replay_roles s r in
  match ra_removed_identity answer with
  | None => Ok s
  | Some who =>
      let s := replay_removals s (<[who := (index, Some h)]> (rp_removals s)) in
      r ← retire_member (rp_roles s) who;
      Ok (replay_roles s r)
  end.
Definition replay_revocation (a : Authority) (h : RecordId) (s : Replay) (committed : bool)
    (record : SignedRecord) (target : VerifiedCredential) : result string Replay :=
  enrolled ← was_enrolled a h (vc_id target) committed;
  _ ← fail_if (negb enrolled) not_admitted;
  _ ← match value_as_str (value_index (sr_body record) "authorizing_device") with
      | None => Ok tt
      | Some encoded =>
          authorizer ← credential_text encoded;
          admitted ← was_enrolled a h (vc_id authorizer) committed;
          fail_if (negb admitted || bool_decide (vc_id authorizer ∈ rp_revoked s))
            "A retired device cannot authorize a new revocation."
      end;
  Ok (replay_revoked s ({[vc_id target]} ∪ rp_revoked s)).
Definition replay_deletion (a : Authority) (h : RecordId) (host : string) (s : Replay) (index : N)
    (committed : bool) (record : SignedRecord) (signer : VerifiedCredential)
    : result string Replay :=
  command ← map_err (decode (T := AccountCommand) record) "record";
  endpoint ← ok_or (url_set_path host DELETION_PATH) "url";
  _ ← map_err (hex 16 (ac_nonce command)) "record";
  _ ← fail_if (negb (ac_v command =? 1) || (ac_action command =/= Submit)
               || negb (ac_confirmed command) || (ac_endpoint command =/= endpoint)) bad_deletion;
  enrolled ← was_enrolled a h (vc_id signer) committed;
  _ ← fail_if (negb enrolled || bool_decide (vc_id signer ∈ rp_revoked s)
               || is_owner (rp_roles s) (vc_identity signer)) bad_deletion;
  let s := replay_removals s (<[vc_identity signer := (index, None)]> (rp_removals s)) in
  r ← retire_member (rp_roles s) (vc_identity signer);
  Ok (replay_roles s r).

Definition replay_invite (s : Replay) (command : Command) (record : SignedRecord)
    : result string Replay :=
  let body := hc_body command in
  id ← HostedRoles.field body "id";
  _ ← map_err (hex 16 id) "record";
  token ← HostedRoles.field body "token";
  _ ← map_err (hex 32 token) "record";
  lifetime ← ok_or (n ← value_as_u64 (value_index body "lifetime");
                    if contains LIFETIMES n then Some n else None)
               "Invalid signed invitation lifetime.";
  approval ← ok_or (value_as_bool (value_index body "require_approval"))
               "Missing signed invitation policy.";
  _ ← fail_if (bool_decide (is_Some (rp_invitations s !! id)))
        "A signed invitation cannot be replaced.";
  Ok (replay_invitations s
        (<[id := {| iv_evidence := record_id record;
                    iv_expires := saturating_add (hc_issued command) (N.min (lifetime * 1000) u64_max);
                    iv_approval := approval; iv_revoked := false |}]> (rp_invitations s))).
Definition replay_revoke_invitation (s : Replay) (command : Command) : result string Replay :=
  id ← HostedRoles.field (hc_body command) "id";
  i ← ok_or (rp_invitations s !! id) "Unknown signed invitation.";
  Ok (replay_invitations s
        (<[id := {| iv_evidence := iv_evidence i; iv_expires := iv_expires i;
                    iv_approval := iv_approval i; iv_revoked := true |}]> (rp_invitations s))).
(** A refusal counts at its head wherever the host puts it. *)
Definition replay_decision (s : Replay) (index : N) (h : RecordId) (command : Command)
    (record : SignedRecord) : result string Replay :=
  text ← HostedRoles.field (hc_body command) "id";
  id ← parse_id text;
  approve ← ok_or (value_as_bool (value_index (hc_body command) "approve"))
              "Missing signed admission decision.";
  let s := if approve : bool then s else replay_denied s ({[(id, h)]} ∪ rp_denied s) in
  Ok (replay_approvals s
        (<[id := {| dn_index := index; dn_approved := approve; dn_head := h;
                    dn_record := record_id record |}]> (rp_approvals s))).
Definition replay_device_revoke (a : Authority) (h : RecordId) (s : Replay) (command : Command)
    (signer : VerifiedCredential) : result string Replay :=
  text ← HostedRoles.field (hc_body command) "proof";
  proof ← signed_text text;
  target ← map_err (verify_request proof signer) "record";
  enrolled ← enrolled_at a h (vc_id target);
  _ ← fail_if (negb enrolled) not_admitted;
  Ok (replay_revoked s ({[vc_id target]} ∪ rp_revoked s)).

(** The head an intent was signed at, when its signer could sign it there. *)
Definition intent_head (a : Authority) (h : RecordId) (s : Replay) (committed : bool)
    (command : Command) (signer : VerifiedCredential) : result string RecordId :=
  text ← HostedRoles.field (hc_body command) "authority_head";
  at_ ← parse_id text;
  _ ← map_err (hex 16 (hc_nonce command)) "record";
  _ ← fail_if (negb (hc_v command =? 1)
               || (hc_kind command =/= "space.command")
               || (hc_space command =/= space a)
               || negb (proves_config_ancestor a at_)
               || (negb committed && (at_ =/= h))) stale_intent;
  enrolled ← enrolled_at a at_ (vc_id signer);
  _ ← fail_if (negb enrolled || bool_decide (vc_id signer ∈ rp_revoked s)) stale_intent;
  mret at_.
Definition replay_command (a : Authority) (h : RecordId) (s : Replay) (index : N)
    (committed : bool) (record : SignedRecord) (signer : VerifiedCredential)
    : result string Replay :=
  command ← map_err (decode (T := Command) record) "record";
  at_ ← intent_head a h s committed command signer;
  c ← map_err (config a at_) "authority";
  let owner := contains (sc_owner_credential_ids c) (vc_id signer)
               && is_owner (rp_roles s) (vc_identity signer) in
  let action := hc_action command in
  if (action === "invite") && owner then replay_invite s command record
  else if (action === "revoke") && owner then replay_revoke_invitation s command
  else if (action === "decide") && owner then replay_decision s index at_ command record
  else if (action === "role_change") && owner then replay_role a s index at_ command signer
  else if action === "role_decide" then replay_role a s index at_ command signer
  else if action === "device_revoke" then replay_device_revoke a at_ s command signer
  else Err "Unsupported or unauthorized Space administration intent.".

Definition is_deletion (r : SignedRecord) : bool :=
  value_eq_str (value_index (sr_body r) "kind") "account.deletion".
(** One entry of the journal; [boundary] is the length of the committed history. *)
Definition replay_entry (a : Authority) (h : RecordId) (host : string) (boundary : N)
    (s : Replay) (p : nat * AdminEvidence) : result string Replay :=
  let index := N.of_nat p.1 in
  let committed := index <? boundary in
  _ ← (if index =? boundary then check_committed_owners a (rp_roles s) else Ok tt);
  '(record, signer) ← evidence p.2;
  if is_revocation record then replay_revocation a h s committed record signer
  else if is_deletion record then replay_deletion a h host s index committed record signer
  else replay_command a h s index committed record signer.

(** ** [verify_owner_policy] *)

Definition initial_replay (primary : IdentityId) (creation : SignedRecord)
    (command : CreateCommand) : result string Replay :=
  r ← bootstrap [primary];
  mret {| rp_roles := r;
          rp_invitations :=
            {[ cx_request_id command :=
                 {| iv_evidence := record_id creation;
                    iv_expires := saturating_add (cx_issued command) 86400000;
                    iv_approval := cx_require_approval command; iv_revoked := false |} ]};
          rp_approvals := ∅; rp_denied := ∅; rp_removals := ∅; rp_revoked := ∅ |}.

(** An approval that has taken effect outlives the removal it answered. *)
Definition settled_approval (a : Authority) (h : RecordId) (s : Replay) (id : RecordId)
    (d : Decision) : result string bool :=
  if negb (dn_approved d) || bool_decide ((id, dn_head d) ∈ rp_denied s)
     || bool_decide (id ∈ rp_revoked s) then Ok false
  else
    enrolled ← enrolled_at a h id;
    if negb enrolled then Ok false
    else removed ← removed_since a (dn_head d) id; Ok (negb removed).
(** The approval came after the removal, at another head. *)
Definition answers_removal (d : Decision) (r : N * option RecordId) : bool :=
  (r.1 <? dn_index d) && match r.2 with Some h => h =/= dn_head d | None => false end.
Definition settle_approval (a : Authority) (h : RecordId) (s : Replay) (p : RecordId * Decision)
    : result string Replay :=
  settled ← settled_approval a h s p.1 p.2;
  if negb settled then Ok s
  else
    c ← map_err (credential a p.1) "authority";
    match rp_removals s !! vc_identity c with
    | Some r => if answers_removal p.2 r
                then Ok (replay_removals s (delete (vc_identity c) (rp_removals s))) else Ok s
    | None => Ok s
    end.

(** *** The devices that wait *)

Definition explicitly_approved (a : Authority) (s : Replay) (item : PendingItem)
    (c : VerifiedCredential) : result string bool :=
  match rp_approvals s !! vc_id c, pi_authorization item with
  | Some d, Some proof =>
      if negb (dn_approved d) then Ok false
      else if negb match evidence proof with
                   | Ok (record, _) => record_id record === dn_record d
                   | Err _ => false
                   end then Ok false
      else if bool_decide ((vc_id c, dn_head d) ∈ rp_denied s) then Ok false
      else if negb match rp_removals s !! vc_identity c with
                   | None => true
                   | Some r => answers_removal d r
                   end then Ok false
      else removed ← removed_since a (dn_head d) (vc_id c); Ok (negb removed)
  | _, _ => Ok false
  end.
Definition explicitly_denied (s : Replay) (id : RecordId) : bool :=
  match rp_approvals s !! id with
  | Some d => negb (dn_approved d) || bool_decide ((id, dn_head d) ∈ rp_denied s)
  | None => false
  end.
Definition is_companion (a : Authority) (s : Replay) (c : VerifiedCredential) : bool :=
  match authorizing_device c with
  | None => false
  | Some parent =>
      negb (bool_decide (parent ∈ rp_revoked s))
      && match head_config a with
         | Ok h => has_device h (vc_identity c) parent
         | Err _ => false
         end
  end.
Definition open_invitation (s : Replay) (item : PendingItem) (current : N) : bool :=
  match pi_invitation_authorization item with
  | None => false
  | Some proof =>
      match evidence proof with
      | Err _ => false
      | Ok (record, _) =>
          existsb (λ i, (iv_evidence i === record_id record) && negb (iv_approval i)
                        && negb (iv_revoked i) && (current <? iv_expires i))
            (btree_values (rp_invitations s))
      end
  end.
(** What the loop keeps of one waiting device: the ids seen, the removals left, the admitted. *)
Definition Waiting : Type := gset RecordId * Replay * list ValidatedEnrollment.
Definition admit_candidate (a : Authority) (h : RecordId) (current : N) (item : PendingItem)
    (w : Waiting) (c : VerifiedCredential) : result string Waiting :=
  let '(seen, s, eligible) := w in
  if bool_decide (vc_id c ∈ rp_revoked s) then Ok w
  else
    approved ← explicitly_approved a s item c;
    currently ← enrolled_at a h (vc_id c);
    if explicitly_denied s (vc_id c) && negb currently then Ok w
    else
      previously ← enrolled_ever a (vc_id c);
      if negb currently && negb approved
         && negb (bool_decide (rp_removals s !! vc_identity c = None) && negb previously
                  && (is_companion a s c || open_invitation s item current))
      then Ok w
      else
        let s := if approved : bool
                 then replay_removals s (delete (vc_identity c) (rp_removals s)) else s in
        Ok (seen, s, eligible ++ [{| ve_credential := c; ve_request := pi_request item |}]).
Definition consider (a : Authority) (h : RecordId) (current : N) (w : Waiting) (raw : value)
    : result string Waiting :=
  match from_value (T := PendingItem) raw with
  | None => Ok w
  | Some item =>
      let '(seen, s, eligible) := w in
      if bool_decide (pi_credential item ∈ seen) then Ok w
      else
        let w : Waiting := ({[pi_credential item]} ∪ seen, s, eligible) in
        match enrollment a item current with
        | Err _ => Ok w
        | Ok c => admit_candidate a h current item w c
        end
  end.

(** The committed history, and the journal that extends it. *)
Definition presented_journal (a : Authority) (status : value)
    : result string (list AdminEvidence * list AdminEvidence) :=
  committed ← ok_or (from_value (T := list AdminEvidence) (value_index status "committed_journal"))
                "json";
  journal ← ok_or (from_value (T := list AdminEvidence) (value_index status "journal")) "json";
  let omitted := "Space administration history was omitted or changed." in
  _ ← fail_if (nlen journal <? nlen committed) omitted;
  c ← journal_commitment committed;
  h ← map_err (head_config a) "authority";
  _ ← fail_if (c =/= ca_request_record_id (sc_action h)) omitted;
  prefix ← journal_commitment (take (length committed) journal);
  _ ← fail_if (prefix =/= c) omitted;
  mret (committed, journal).
(** The creation the Space began with, and its creator. *)
Definition presented_creation (a : Authority) (status : value)
    : result string (SignedRecord * VerifiedCredential * CreateCommand) :=
  creation ← ok_or (from_value (T := AdminEvidence) (value_index status "creation")) "json";
  '(record, creator) ← evidence creation;
  command ← map_err (decode (T := CreateCommand) record) "record";
  _ ← fail_if (cx_kind command =/= "space.create") "Invalid Space creation intent.";
  found ← verify_creation_authority command creator;
  initial ← ok_or found "Missing owner creation intent.";
  _ ← fail_if ((sr_bytes (genesis initial) =/= sr_bytes (genesis a))
               || (stream initial =/= stream a))
        "Space creation intent belongs to another General.";
  mret (record, creator, command).
(** The journal replayed, with the approvals that took effect. *)
Definition replay_journal (a : Authority) (h : RecordId) (host : string)
    (committed journal : list AdminEvidence) (s : Replay) : result string Replay :=
  s ← try_fold (replay_entry a h host (nlen committed)) s (imap pair journal);
  _ ← (if nlen committed <? nlen journal then Ok tt
       else check_committed_owners a (rp_roles s));
  try_fold (settle_approval a h) s (btree_list (rp_approvals s)).
Definition verify_owner_policy (a : Authority) (status : value) (current : N)
    : result string ValidatedOwnerPolicy :=
  _ ← fail_if (negb (is_owner_managed a) || forked a) "Owner-managed General is unavailable.";
  h ← ok_or (head a) "Missing General configuration.";
  _ ← fail_if (negb (value_eq_str (value_index status "head") (display h)))
        "General changed while verifying admission.";
  '(creation, creator, command) ← presented_creation a status;
  '(committed, journal) ← presented_journal a status;
  commitment ← journal_commitment journal;
  primary ← map_err (primary_owner_identity a) "authority";
  _ ← fail_if (primary =/= vc_identity creator)
        "Space primary owner does not match its signed creation.";
  s ← initial_replay primary creation command;
  s ← replay_journal a h (cx_host command) committed journal s;
  raws ← match value_index status "pending" with
         | VArray l => Ok l
         | _ => Err "Missing pending admission list."
         end;
  _ ← fail_if (MAX_CHAT_CREDENTIALS <? nlen raws) "Too many pending admissions.";
  '(_, s, eligible) ← try_fold (consider a h current) (∅, s, []) raws;
  mret {| vp_pending := eligible; vp_owner_identities := ro_owners (rp_roles s);
          vp_removed := dom (rp_removals s); vp_revoked := rp_revoked s;
          vp_commitment := commitment |}.

End OwnerAdmission.
