(* ===== verification/HostGate.v ===== *)
(** * The witness a host relies on (crates/elo-team/src/hosting/freshness.rs)

    Short-lived leases of a witnessed Space's head, the floor under them that outlives the
    process, and what a lease authorises. *)

From S2P Require Import Prelude Platform Ids Record AuthorityData AuthorityWitness Authority WitnessWire StorageService.

(** How a write of a private file ends. A write that reports a failure may still have
    replaced the file. *)
Inductive Write := Written | Lost | Landed.

Record GateFloor := { gf_v : N; gf_pin : WitnessPin; gf_position : option Position }.
#[global] Instance GateFloor_eq_dec : EqDecision GateFloor.
Proof. solve_decision. Defined.
(** [WitnessGate] with its [State]; [gt_file] is what floor.json holds. *)
Record Gate := {
  gt_pin : WitnessPin; gt_floor : GateFloor; gt_cache : gmap (SpaceId * StreamId) VerifiedFreshness;
  gt_unavailable : bool; gt_file : GateFloor;
}.
(** A request to the witness under way: what it asks, and the floor when it was sent. *)
Record Lookup := {
  lk_request : HeadRequest; lk_head : RecordId; lk_floor : option Position; lk_requested_at : N;
}.

Definition gate_mismatch : string := "Hosting witness authority mismatch.".
Definition not_current : string := "Hosting witness authority is no longer current.".
Definition not_persisted : string := "Hosting witness floor could not be persisted.".
Definition lease_stale : string := "Hosting witness lease is stale or conflicts with its floor.".

Section HostGate.
Context `{P : Platform} {SA : AuthoritySerde} {W : WitnessSerde} {X : ProtocolSerde}.

Definition floor_valid (pin : WitnessPin) (f : GateFloor) : bool :=
  (gf_v f =? 1) && (gf_pin f === pin)
  && match gf_position f with
     | Some p => negb (po_sequence p =? 0) && bool_decide (is_Some (po_record_id p))
     | None => true
     end.
(** [open]: [file] is floor.json, [initialized] whether floor.lock was there before. *)
Definition gate_open (pin : WitnessPin) (file : option GateFloor) (initialized : bool) (w : Write)
    : result string Gate :=
  _ ← map_err (pin_validate pin) "pin";
  f ← match file with
      | Some f =>
          _ ← fail_if (negb (floor_valid pin f)) "Hosting witness pin or floor mismatch.";
          Ok f
      | None =>
          _ ← fail_if initialized "Missing hosting witness floor.";
          match w with
          | Written => Ok {| gf_v := 1; gf_pin := pin; gf_position := None |}
          | _ => Err "write"
          end
      end;
  mret {| gt_pin := pin; gt_floor := f; gt_cache := ∅; gt_unavailable := false; gt_file := f |}.

(** ** What a lease must be *)

Definition check_floor (floor : GateFloor) (f : VerifiedFreshness) (instant now : N)
    : result string unit :=
  fail_if (negb (freshness_is_valid f instant now)
           || (fr_audience (vf_body f) =/= wp_url (gf_pin floor))
           || negb (fr_witness_key_generation (vf_body f) =? wp_key_generation (gf_pin floor))
           || behind_floor (vf_body f) (gf_position floor)) lease_stale.
Definition check_authority (g : Gate) (a : Authority) : result string unit :=
  fail_if (forked a || (witness_pin a =/= Some (gt_pin g))) gate_mismatch.
Definition lease_names (a : Authority) (f : VerifiedFreshness) : bool :=
  (fr_space_id (vf_body f) === space a) && (fr_stream_id (vf_body f) === stream a)
  && (Some (fr_authority_head (vf_body f)) === head a).
(** [check], before an action is committed. *)
Definition gate_check (g : Gate) (a : Authority) (f : VerifiedFreshness) (instant now : N)
    : result string unit :=
  _ ← check_authority g a;
  _ ← fail_if (negb (lease_names a f)) not_current;
  _ ← fail_if (gt_unavailable g) not_persisted;
  check_floor (gt_floor g) f instant now.

(** ** Asking for one *)

(** What [require] answers from the cache, and otherwise the request it sends. *)
Definition require_begin (g : Gate) (a : Authority) (draw : option string) (instant now : N)
    : result string (VerifiedFreshness + Lookup) :=
  _ ← check_authority g a;
  h ← ok_or (head a) "Missing authority head.";
  _ ← fail_if (gt_unavailable g) not_persisted;
  let cached := f ← gt_cache g !! (space a, stream a);
                if (fr_authority_head (vf_body f) === h)
                   && is_ok (check_floor (gt_floor g) f instant now) then Some f else None in
  match cached with
  | Some f => Ok (inl f)
  | None =>
      nonce ← map_err (random_hex draw) "random";
      Ok (inr {| lk_request := {| hr_space_id := space a; hr_stream_id := stream a;
                                  hr_nonce := nonce |};
                 lk_head := h; lk_floor := gf_position (gt_floor g);
                 lk_requested_at := instant |})
  end.

Definition with_floor (g : Gate) (f : GateFloor) : Gate :=
  {| gt_pin := gt_pin g; gt_floor := f; gt_cache := gt_cache g;
     gt_unavailable := gt_unavailable g; gt_file := f |}.
(** A position that could not be stored: nothing is authorised until the process restarts. *)
Definition failed_gate (g : Gate) (file : GateFloor) : Gate :=
  {| gt_pin := gt_pin g; gt_floor := gt_floor g; gt_cache := ∅; gt_unavailable := true;
     gt_file := file |}.
Definition with_cache (g : Gate) (c : gmap (SpaceId * StreamId) VerifiedFreshness) : Gate :=
  {| gt_pin := gt_pin g; gt_floor := gt_floor g; gt_cache := c;
     gt_unavailable := gt_unavailable g; gt_file := gt_file g |}.
Definition store_floor (g : Gate) (next : GateFloor) (w : Write) : Gate * result string unit :=
  if gf_position (gt_floor g) === gf_position next then (g, Ok tt)
  else match w with
       | Written => (with_floor g next, Ok tt)
       | Lost => (failed_gate g (gt_file g), Err "write")
       | Landed => (failed_gate g next, Err "write")
       end.
(** [observe] *)
Definition observe (g : Gate) (f : VerifiedFreshness) (instant now : N) (w : Write)
    : Gate * result string unit :=
  if gt_unavailable g then (g, Err not_persisted)
  else match check_floor (gt_floor g) f instant now with
       | Err e => (g, Err e)
       | Ok _ =>
           let next := {| gf_v := 1; gf_pin := gt_pin g;
                          gf_position := Some (fr_position (vf_body f)) |} in
           match store_floor g next w with
           | (g, Err e) => (g, Err e)
           | (g, Ok _) =>
               let scope := (fr_space_id (vf_body f), fr_stream_id (vf_body f)) in
               (with_cache g (cache_lease (gt_cache g) scope f instant now), Ok tt)
           end
       end.
(** What [require_head] does with the witness's answer. The clocks are read when the answer is
    verified and again when it is observed. *)
Definition require_end (g : Gate) (l : Lookup) (encoded : string) (instant now instant' now' : N)
    (w : Write) : Gate * result string VerifiedFreshness :=
  match map_err (verify_freshness (gt_pin g) (lk_request l) encoded (lk_requested_at l) instant now
                   (lk_floor l)) "freshness" with
  | Err e => (g, Err e)
  | Ok f =>
      match observe g f instant' now' w with
      | (g, Err e) => (g, Err e)
      | (g, Ok _) =>
          (g, if fr_authority_head (vf_body f) === lk_head l then Ok f else Err not_current)
      end
  end.

(** ** Requests in flight, and restarts *)

Record GateWorld := {
  gw_gate : Gate; gw_lookups : list Lookup; gw_leases : list VerifiedFreshness;
}.
(** [gw_leases] are all leases a caller of [require] was ever given. *)
Inductive gate_step : GateWorld → GateWorld → Prop :=
| gate_cached g ls fs a draw instant now f :
    require_begin g a draw instant now = Ok (inl f) →
    gate_step {| gw_gate := g; gw_lookups := ls; gw_leases := fs |}
      {| gw_gate := g; gw_lookups := ls; gw_leases := f :: fs |}
| gate_asked g ls fs a draw instant now l :
    require_begin g a draw instant now = Ok (inr l) →
    gate_step {| gw_gate := g; gw_lookups := ls; gw_leases := fs |}
      {| gw_gate := g; gw_lookups := l :: ls; gw_leases := fs |}
| gate_answered g ls fs l encoded instant now instant' now' w :
    l ∈ ls →
    gate_step {| gw_gate := g; gw_lookups := ls; gw_leases := fs |}
      (let r := require_end g l encoded instant now instant' now' w in
       {| gw_gate := r.1; gw_lookups := ls;
          gw_leases := match r.2 with Ok f => f :: fs | Err _ => fs end |})
| gate_reopened g ls fs g' :
    gate_open (gt_pin g) (Some (gt_file g)) true Written = Ok g' →
    gate_step {| gw_gate := g; gw_lookups := ls; gw_leases := fs |}
      {| gw_gate := g'; gw_lookups := []; gw_leases := fs |}.
Definition gate_run : GateWorld → GateWorld → Prop := rtc gate_step.
Definition opened (g : Gate) : GateWorld := {| gw_gate := g; gw_lookups := []; gw_leases := [] |}.

(** ** What stays true of the floor *)

Definition position_le (p q : option Position) : Prop :=
  match p, q with
  | None, _ => True
  | Some _, None => False
  | Some p, Some q => po_sequence p < po_sequence q ∨ p = q
  end.
#[local] Arguments position_le : simpl never.
#[local] Instance position_le_pre : PreOrder position_le.
Proof.
  split.
  - intros [p|]; [by right|done].
  - unfold position_le. intros [p|] [q|] [r|]; try done. intros [H| ->]; [|done]. intros [H'|Hq]; [left; lia|subst r; by left].
Qed.
Lemma behind_floor_le b floor :
  behind_floor b floor = false ↔ position_le floor (Some (fr_position b)).
Proof.
  destruct floor as [p|]; [|done]. unfold behind_floor, position_le.
  destruct p as [s r], (fr_position b) as [s' r']. cbn [po_sequence po_record_id].
  rewrite orb_false_iff, N.ltb_ge, andb_false_iff, N.eqb_neq. split.
  - intros [Hle [Hne|He]]; [left; lia|]. apply bool_decide_eq_negb_false in He. subst r'.
    destruct (N.eq_dec s s') as [->|?]; [by right|left; lia].
  - intros [H|E]; [split; [lia|left; lia]|injection E as <- <-]. split; [lia|]. right. by case_bool_decide.
Qed.

(** Everything a caller has, the cache and the requests in flight are at or below the floor in
    memory, and that is at or below the stored one. *)
Record gate_ok (w : GateWorld) : Prop := {
  ok_pin : gf_pin (gt_floor (gw_gate w)) = gt_pin (gw_gate w);
  ok_stored : position_le (gf_position (gt_floor (gw_gate w))) (gf_position (gt_file (gw_gate w)));
  ok_synced : gt_unavailable (gw_gate w) = false →
    gf_position (gt_file (gw_gate w)) = gf_position (gt_floor (gw_gate w));
  ok_leases f : f ∈ gw_leases w →
    position_le (Some (fr_position (vf_body f))) (gf_position (gt_floor (gw_gate w)));
  ok_cache k f : gt_cache (gw_gate w) !! k = Some f →
    position_le (Some (fr_position (vf_body f))) (gf_position (gt_floor (gw_gate w)));
}.
Lemma check_floor_Ok floor f instant now u :
  check_floor floor f instant now = Ok u →
  freshness_is_valid f instant now = true
  ∧ position_le (gf_position floor) (Some (fr_position (vf_body f))).
Proof.
  unfold check_floor. intros H. apply fail_if_Ok in H. repeat (apply orb_false_iff in H as [H ?]).
  apply negb_false_iff in H. by rewrite <-behind_floor_le.
Qed.
Lemma cache_lease_lookup cache scope f instant now k f' :
  cache_lease cache scope f instant now !! k = Some f' → f' = f ∨ cache !! k = Some f'.
Proof.
  unfold cache_lease, make_room. rewrite lookup_insert_Some. intros [[_ ->]|[_ H]]; [by left|right].
  assert (∀ m, filter (λ kv, freshness_is_valid kv.2 instant now = true) cache = m →
    m !! k = Some f' → cache !! k = Some f') as Hf
    by (intros m <- Hp; by apply map_lookup_filter_Some in Hp as [? _]).
  destruct (_ && _); [|by eapply Hf].
  destruct (merge_sort _ _) as [|kv l]; [by eapply Hf|].
  apply lookup_delete_Some in H as [_ H]. by eapply Hf.
Qed.

(** What [observe] makes of a gate that agrees with itself. *)
Lemma observe_gate_ok g ls fs f instant now w g' r :
  gate_ok {| gw_gate := g; gw_lookups := ls; gw_leases := fs |} →
  observe g f instant now w = (g', r) →
  gate_ok {| gw_gate := g'; gw_lookups := ls; gw_leases := fs |}
  ∧ position_le (gf_position (gt_file g)) (gf_position (gt_file g'))
  ∧ gt_pin g' = gt_pin g
  ∧ (r = Ok tt → gf_position (gt_floor g') = Some (fr_position (vf_body f))).
Proof.
  intros [Hpin Hst Hsy Hls Hca] H. cbn in *. unfold observe in H.
  destruct (gt_unavailable g) eqn:Hun; [injection H as <- <-; by repeat split; cbn; rewrite ?Hun|].
  destruct (check_floor _ _ _ _) as [u|e] eqn:Hc; [|injection H as <- <-; by repeat split; cbn; rewrite ?Hun].
  specialize (Hsy eq_refl). apply check_floor_Ok in Hc as [_ Hle]. unfold store_floor in H. cbn [gf_position] in H.
  case_bool_decide as Heq.
  - injection H as <- <-. repeat split; cbn; try done.
    intros k f' Hk. apply cache_lease_lookup in Hk as [->|Hk]; [by rewrite Heq|by eapply Hca].
  - destruct w; injection H as <- <-; repeat split; cbn; try done.
    + intros f' Hf'. etrans; [by apply Hls|done].
    + intros k f' Hk. apply cache_lease_lookup in Hk as [->|Hk]; [done|]. etrans; [by eapply Hca|done].
    + by rewrite Hsy.
    + by rewrite Hsy.
Qed.

Lemma require_begin_cached g a draw instant now f :
  require_begin g a draw instant now = Ok (inl f) → ∃ k, gt_cache g !! k = Some f.
Proof.
  unfold require_begin. intros H. step H u1 H1. step H h Hh. step H u2 H2.
  destruct (gt_cache g !! (space a, stream a)) as [f'|] eqn:Hc; cbn [mbind option_bind] in H.
  - destruct (_ && _); [injection H as <-; by eexists|]. step H n Hn. done.
  - step H n Hn. done.
Qed.

(** One step keeps the gate in order, and moves neither floor back. *)
Lemma gate_step_ok w w' :
  gate_step w w' → gate_ok w →
  gate_ok w'
  ∧ position_le (gf_position (gt_file (gw_gate w))) (gf_position (gt_file (gw_gate w')))
  ∧ gt_pin (gw_gate w') = gt_pin (gw_gate w)
  ∧ gw_leases w ⊆ gw_leases w'.
Proof.
  destruct 1 as [g ls fs a draw instant now f Hf|g ls fs a draw instant now l Hl
                |g ls fs l encoded instant now instant' now' w Hin|g ls fs g' Hg]; intros Hok.
  - destruct (require_begin_cached _ _ _ _ _ _ Hf) as [k Hk]. destruct Hok as [Hpin Hst Hsy Hls Hca].
    cbn in *. repeat split; cbn; try done; [|set_solver].
    intros f' [->|Hf']%elem_of_cons; [by eapply Hca|by apply Hls].
  - destruct Hok. by repeat split.
  - cbn zeta. unfold require_end.
    destruct (map_err _ _) as [f|e]; [|destruct Hok; by repeat split].
    destruct (observe g f instant' now' w) as [g' r] eqn:Ho.
    destruct (observe_gate_ok g ls fs f instant' now' w g' r Hok Ho) as (Hok' & Hle & Hp & Hf).
    destruct r as [[]|e]; [|by split_and!].
    case_bool_decide; cbn [fst snd]; [|by split_and!].
    destruct Hok' as [Hpin Hst Hsy Hls Hca]. cbn in *. repeat split; cbn; try done; [|set_solver].
    intros f' [->|Hf']%elem_of_cons; [by rewrite Hf|by apply Hls].
  - unfold gate_open in Hg. step Hg u1 H1. step Hg fl Hfl. step Hfl u2 H2. injection Hfl as <-.
    injection Hg as <-. apply fail_if_Ok, negb_false_iff in H2. unfold floor_valid in H2.
    apply andb_true_iff in H2 as [H2 _]. apply andb_true_iff in H2 as [_ H2].
    apply bool_decide_eq_true in H2. destruct Hok as [Hpin Hst Hsy Hls Hca]. cbn in *.
    repeat split; cbn; try done. intros f Hf. etrans; [by apply Hls|done].
Qed.
Lemma gate_run_ok w w' :
  gate_run w w' → gate_ok w →
  gate_ok w'
  ∧ position_le (gf_position (gt_file (gw_gate w))) (gf_position (gt_file (gw_gate w')))
  ∧ gt_pin (gw_gate w') = gt_pin (gw_gate w)
  ∧ gw_leases w ⊆ gw_leases w'.
Proof.
  induction 1 as [w|w w1 w2 Hs _ IH]; intros Hok; [by split_and!|].
  destruct (gate_step_ok _ _ Hs Hok) as (Hok1 & H1 & H2 & H3).
  destruct (IH Hok1) as (Hok2 & H4 & H5 & H6). split_and!; [done|by etrans|congruence|by etrans].
Qed.
Lemma opened_ok pin file initialized w g :
  gate_open pin file initialized w = Ok g → gate_ok (opened g) ∧ gt_pin g = pin.
Proof.
  unfold gate_open. intros H. step H u Hu. step H f Hf. injection H as <-. split; [|done].
  destruct file as [f'|].
  - step Hf u2 H2. injection Hf as <-. apply fail_if_Ok, negb_false_iff in H2. unfold floor_valid in H2.
    apply andb_true_iff in H2 as [H2 _]. apply andb_true_iff in H2 as [_ H2].
    apply bool_decide_eq_true in H2. repeat split; cbn; try done. by intros f Hf%elem_of_nil.
  - step Hf u2 H2. destruct w; [|done..]. injection Hf as <-. repeat split; cbn; try done.
    by intros f Hf%elem_of_nil.
Qed.

(** C14. A host trusts its witness only forwards: a lease that authorises an action is valid at
    that moment, signed under the pinned witness for the head the authority has, and not behind
    any lease the gate ever handed out, whatever requests crossed, whichever writes of the floor
    failed and wherever the process restarted; and what floor.json holds never goes back. *)
Theorem accepted_lease_current pin file initialized wr g w w' f1 a f2 instant now :
  gate_open pin file initialized wr = Ok g →
  gate_run (opened g) w → f1 ∈ gw_leases w → gate_run w w' →
  gate_check (gw_gate w') a f2 instant now = Ok tt →
  forked a = false ∧ witness_pin a = Some pin
  ∧ fr_space_id (vf_body f2) = space a ∧ fr_stream_id (vf_body f2) = stream a
  ∧ Some (fr_authority_head (vf_body f2)) = head a
  ∧ freshness_is_valid f2 instant now = true
  ∧ behind_floor (vf_body f2) (Some (fr_position (vf_body f1))) = false
  ∧ position_le (gf_position (gt_file (gw_gate w))) (gf_position (gt_file (gw_gate w'))).
Proof.
  intros Hopen Hr1 Hin Hr2 Hc. apply opened_ok in Hopen as [Hok Hpin].
  destruct (gate_run_ok _ _ Hr1 Hok) as (Hok1 & _ & Hp1 & _).
  destruct (gate_run_ok _ _ Hr2 Hok1) as (Hok2 & Hle & Hp2 & Hsub).
  unfold gate_check, check_authority in Hc. step Hc u1 H1. step Hc u2 H2. step Hc u3 H3.
  apply fail_if_Ok in H1, H2. apply orb_false_iff in H1 as [Hf Hw]. apply bool_decide_eq_negb_false in Hw.
  apply negb_false_iff in H2. unfold lease_names in H2. apply andb_true_iff in H2 as [H2 Hh].
  apply andb_true_iff in H2 as [Hs Ht]. apply bool_decide_eq_true in Hs, Ht, Hh.
  apply check_floor_Ok in Hc as [Hv Hle2]. split_and!; try done.
  - rewrite Hw, Hp2, Hp1. cbn. by rewrite Hpin.
  - apply behind_floor_le. etrans; [|exact Hle2]. apply (ok_leases _ Hok2). by apply Hsub.
Qed.

(** A gate that could not store a newer position hands out and accepts nothing until the
    process restarts. *)
Theorem failed_gate_closed g a draw f instant now l encoded instant' now' w :
  gt_unavailable g = true →
  is_ok (require_begin g a draw instant now) = false
  ∧ is_ok (gate_check g a f instant now) = false
  ∧ is_ok (require_end g l encoded instant now instant' now' w).2 = false
  ∧ (require_end g l encoded instant now instant' now' w).1 = g.
Proof.
  intros Hu. split_and!; unfold require_begin, gate_check, require_end, observe; rewrite ?Hu.
  - destruct (check_authority _ _); [cbn|done]. by destruct (head a).
  - destruct (check_authority _ _); [cbn|done]. by destruct (fail_if _ _).
  - by destruct (map_err _ _).
  - by destruct (map_err _ _).
Qed.

End HostGate.
