(* ===== verification/Hosting.v ===== *)
(** * The service that hosts Spaces (crates/elo-team/src/hosting.rs)

    Reservations of new Spaces under the operator's limits, tickets for the witness, the Spaces
    that are open, their deletion, and the erasure of accounts. Directories and files are maps;
    every write and every call on something outside may fail. *)

From S2P Require Import Prelude Sums Platform Ids Record Chat Identity AuthorityData AuthorityWitness Authority AuthorityProof WitnessWire WakeWire CallWire Attachments StorageWire HostedRoles Revocations HostedState HostedAccess HostedFiles HostedAdmission HostedService HostedWitness SpaceCreation HostGate.

(** ** Configuration and files *)

Record HostConfig := {
  hn_public_url : string; hn_max_spaces_per_identity : N; hn_max_spaces : N;
  hn_max_space_creations_per_day : N; hn_allowed_message_retentions : list MessageRetention;
  hn_allowed_creators : option (list IdentityId); hn_registration_signing_key : option string;
  hn_attachment_storage : bool; hn_witness : option WitnessPin; hn_allow_loopback : bool;
}.
#[local] Instance CallAuthorityProof_eq_dec : EqDecision CallAuthorityProof.
Proof. solve_decision. Defined.
Record CreationBudget := { cb_day : N; cb_count : N; cb_networks : gmap string N }.
Definition no_creations (day : N) : CreationBudget :=
  {| cb_day := day; cb_count := 0; cb_networks := ∅ |}.

(** replica.rs [MailboxDescriptor] *)
Record MailboxDescriptor := { mb_id : string; mb_read_token : string; mb_write_token : string }.
Record Reservation := {
  re_creator : option IdentityId; re_request_id : string; re_name : string;
  re_contact_email : option string; re_lifetime : MessageRetention; re_require_approval : bool;
  re_mailbox : MailboxDescriptor; re_password : string; re_authority : option CallAuthorityProof;
  re_creation_evidence : option AdminEvidence; re_invitation : option string;
  re_invitation_issued : N; re_reserved_at : N; re_creation_network : option string;
  re_reclaim_if_unclaimed : bool; re_ticket_issued : bool;
}.
Definition eta_reservation (r : Reservation) : Reservation :=
  Build_Reservation (re_creator r) (re_request_id r) (re_name r) (re_contact_email r)
    (re_lifetime r) (re_require_approval r) (re_mailbox r) (re_password r) (re_authority r)
    (re_creation_evidence r) (re_invitation r) (re_invitation_issued r) (re_reserved_at r)
    (re_creation_network r) (re_reclaim_if_unclaimed r) (re_ticket_issued r).
Definition with_invitation (r : Reservation) (v : option string) : Reservation :=
  ltac:(set_field eta_reservation re_invitation r v).
Definition issued_at (r : Reservation) (v : N) : Reservation :=
  ltac:(set_field eta_reservation re_invitation_issued r v).
Definition reclaimable (r : Reservation) (v : bool) : Reservation :=
  ltac:(set_field eta_reservation re_reclaim_if_unclaimed r v).
Definition with_ticket (r : Reservation) (v : bool) : Reservation :=
  ltac:(set_field eta_reservation re_ticket_issued r v).
Definition with_creator (r : Reservation) (v : option IdentityId) : Reservation :=
  ltac:(set_field eta_reservation re_creator r v).
Definition with_request (r : Reservation) (v : string) : Reservation :=
  ltac:(set_field eta_reservation re_request_id r v).
Definition with_contact (r : Reservation) (v : option string) : Reservation :=
  ltac:(set_field eta_reservation re_contact_email r v).

(** What [finish_deletion] needs after the Space is gone. The signed receipt names the Space and
    the time. *)
Record DeletedSpace := {
  dl_receipt : SpaceId * N; dl_mailbox : string; dl_objects : list AttachmentObjectId;
  dl_completed : bool;
}.
(** account_deletion.rs *)
Record Job := {
  jb_proof : option AdminEvidence; jb_identity : IdentityId; jb_id : string;
  jb_requested_at : N; jb_completed_at : option N; jb_spaces : list string;
}.

(** A file that is absent, that does not parse, or that holds a value. *)
Inductive File (A : Type) := NoFile | BadFile | Holds (a : A).
#[global] Arguments NoFile {A}.
#[global] Arguments BadFile {A}.
#[global] Arguments Holds {A}.
Definition exists_file {A} (f : File A) : bool := match f with NoFile => false | _ => true end.
Definition read_file {A} (f : File A) : result string A :=
  match f with Holds a => Ok a | _ => Err "read" end.

(** One directory of spaces/: reservation.json, config.json, the files of the public service,
    and the key of its replica. *)
Record SpaceDir := {
  sd_reservation : File Reservation; sd_config : File ServiceConfig;
  sd_service : option (TransportSigner * ServiceState); sd_replica : option string;
}.
Definition eta_dir (d : SpaceDir) : SpaceDir :=
  Build_SpaceDir (sd_reservation d) (sd_config d) (sd_service d) (sd_replica d).
Definition dir_reservation (d : SpaceDir) (v : File Reservation) : SpaceDir :=
  ltac:(set_field eta_dir sd_reservation d v).
Definition dir_config (d : SpaceDir) (v : File ServiceConfig) : SpaceDir :=
  ltac:(set_field eta_dir sd_config d v).
Definition dir_service (d : SpaceDir) (v : option (TransportSigner * ServiceState)) : SpaceDir :=
  ltac:(set_field eta_dir sd_service d v).
Definition dir_replica (d : SpaceDir) (v : option string) : SpaceDir :=
  ltac:(set_field eta_dir sd_replica d v).

(** ** The host *)

(** An open Space. [hs_client] is taken when the Space is closed. *)
Record HostedSpace := {
  hs_config : ServiceConfig; hs_mailbox : string; hs_serving : bool; hs_client : option Service;
}.
Record Host := {
  ht_config : HostConfig;
  ht_budget : File CreationBudget;
  ht_registrations : File N;
  ht_dirs : gmap string SpaceDir;
  ht_deleted : gmap string DeletedSpace;
  ht_jobs : gmap IdentityId Job;
  ht_receipts : gmap string bool;
  ht_registry : Registry;
  (** memory *)
  ht_spaces : gmap string HostedSpace;
  ht_allocations : gmap string (option IdentityId);
  ht_witness : option Gate;
}.
Definition eta_host (h : Host) : Host :=
  Build_Host (ht_config h) (ht_budget h) (ht_registrations h) (ht_dirs h) (ht_deleted h)
    (ht_jobs h) (ht_receipts h) (ht_registry h) (ht_spaces h) (ht_allocations h) (ht_witness h).
Definition with_budget (h : Host) (v : File CreationBudget) : Host :=
  ltac:(set_field eta_host ht_budget h v).
Definition with_registrations (h : Host) (v : File N) : Host :=
  ltac:(set_field eta_host ht_registrations h v).
Definition with_dirs (h : Host) (v : gmap string SpaceDir) : Host :=
  ltac:(set_field eta_host ht_dirs h v).
Definition with_deleted (h : Host) (v : gmap string DeletedSpace) : Host :=
  ltac:(set_field eta_host ht_deleted h v).
Definition with_jobs (h : Host) (v : gmap IdentityId Job) : Host :=
  ltac:(set_field eta_host ht_jobs h v).
Definition with_receipts (h : Host) (v : gmap string bool) : Host :=
  ltac:(set_field eta_host ht_receipts h v).
Definition host_registry (h : Host) (v : Registry) : Host :=
  ltac:(set_field eta_host ht_registry h v).
Definition with_spaces (h : Host) (v : gmap string HostedSpace) : Host :=
  ltac:(set_field eta_host ht_spaces h v).
Definition with_allocations (h : Host) (v : gmap string (option IdentityId)) : Host :=
  ltac:(set_field eta_host ht_allocations h v).
Definition with_gate (h : Host) (v : option Gate) : Host :=
  ltac:(set_field eta_host ht_witness h v).

(** What can fail from outside: writes, and calls on replicas and on the attachment provider. *)
Inductive Effect :=
| SaveBudget | SaveRegistrations | StageReservation (id : string) | SyncSpaces
| SaveReservation (id : string) | SaveConfig (id : string) | CreateService (id : string)
| RemoveSpace (id : string) | RemoveBackup (id : string) | SaveMarker (id : string)
| CloseMarker (id : string)
| SaveJob (who : IdentityId) | SaveReceipt (id : string).
Class Outside := {
  (** how a write ends *)
  effect : Effect → Write;
  (** whether a call on a replica, the provider or a service's storage succeeds *)
  replica_call : string → string → bool;
  provider_call : string → bool;
  (** whether a lock is free *)
  lock_free : string → bool;
}.

(** A handler: the host it leaves, and its result. *)
Definition HM (E A : Type) : Type := Host → Host * result E A.
#[global] Instance HM_ret E : MRet (HM E) := λ A a h, (h, Ok a).
#[global] Instance HM_bind E : MBind (HM E) := λ A B f m h,
  match m h with
  | (h, Ok a) => f a h
  | (h, Err e) => (h, Err e)
  end.
Definition lifth {E A} (r : result E A) : HM E A := λ h, (h, r).
Definition the_host {E} : HM E Host := λ h, (h, Ok h).
Definition modify {E} (f : Host → Host) : HM E unit := λ h, (f h, Ok tt).
Definition with_error {E F A} (e : E → F) (m : HM E A) : HM F A := λ h,
  let '(h, r) := m h in (h, match r with Ok a => Ok a | Err x => Err (e x) end).
(** [save], and the removal of a directory: a failure may have happened after the change. *)
Definition save (w : Write) (f : Host → Host) : HM string unit := λ h,
  match w with
  | Written => (f h, Ok tt)
  | Lost => (h, Err "write")
  | Landed => (f h, Err "write")
  end.
Definition on_dir (id : string) (f : SpaceDir → SpaceDir) (h : Host) : Host :=
  with_dirs h (alter f id (ht_dirs h)).
(** Each of a list in turn, until one fails. *)
Fixpoint for_each {E A} (f : A → HM E unit) (l : list A) : HM E unit :=
  match l with [] => mret tt | x :: l => _ ← f x; for_each f l end.

Abbreviation Lease := (option (Authority * VerifiedFreshness)) (only parsing).

(** HTTP statuses *)
Abbreviation StatusCode := N (only parsing).
Definition BAD_REQUEST : StatusCode := 400.
Definition FORBIDDEN : StatusCode := 403.
Definition NOT_FOUND : StatusCode := 404.
Definition GONE : StatusCode := 410.
Definition UPGRADE_REQUIRED : StatusCode := 426.
Definition TOO_MANY_REQUESTS : StatusCode := 429.
Definition SERVICE_UNAVAILABLE : StatusCode := 503.

Definition capacity_reached : string := "Hosting capacity reached.".
Definition retention_refused : string :=
  "This hosting service does not allow the selected message retention policy.".
Definition creator_refused : string :=
  "This profile is not allowed to create Spaces on this hosting service.".
Definition request_changed : string := "Creation request cannot be changed.".
Definition space_deleted : string := "This Space was deleted.".
Definition update_required : string := "Owner-managed Space creation requires an updated app.".

(** ** Where a request comes from *)

(** [creation_network]: [peer] is the socket's address, [header] the text of x-real-ip and what
    it parses to. Only the local proxy may name another address. *)
Definition creation_prefix (ip : IpAddr) : string :=
  match ip with
  | V4 a b c d => v4_text a b c d
  | V6 s0 s1 s2 s3 _ _ _ _ =>
      match to_ipv4_mapped ip with
      | Some ip => ip_text ip
      | None => encode_hex (concat_strings (be_bytes 2 <$> [s0; s1; s2; s3]))
      end
  end.
Definition creation_source (peer forwarded : option IpAddr) : IpAddr :=
  let local := match peer with Some ip => is_loopback ip | None => false end in
  match (if local then forwarded else None), peer with
  | Some ip, _ => ip
  | None, Some ip => ip
  | None, None => V4 127 0 0 1
  end.

Section Hosting.
Context `{P : Platform} {SA : AuthoritySerde} {W : WitnessSerde} {X : ProtocolSerde}
  {U : UrlBase64} {HP : HostedPlatform} {HS : HostedSerde} {SC : Serde CreateCommand}
  {WS : WakeSerde}.
Context `{OU : Outside} {D : Disk}.

Definition creation_network (peer forwarded : option IpAddr) : string :=
  encode_hex (sha256 (creation_prefix (creation_source peer forwarded))).
Definition reservation_key (creator : IdentityId) (request_id : string) : string :=
  display (object_of_ciphertext ("elo.host.v1:" +:+ display creator +:+ ":" +:+ request_id)).

(** ** Who may create a Space *)

Definition require_owner_managed_creation (command : CreateCommand) : result string unit :=
  fail_if (negb (cx_v command =? 2) || bool_decide (cx_authority command = None)) update_required.
Definition creator_allowed (c : HostConfig) (who : IdentityId) : bool :=
  match hn_allowed_creators c with Some ids => contains ids who | None => true end.
(** No device of the chain may be retired. *)
Fixpoint chain_active (fuel : nat) (rg : Registry) (record : SignedRecord)
    : result StatusCode unit :=
  match fuel with
  | O => Err BAD_REQUEST
  | Datatypes.S fuel =>
      found ← map_err (Revocations.get rg (record_id record)) SERVICE_UNAVAILABLE;
      _ ← fail_if (bool_decide (is_Some found)) FORBIDDEN;
      body ← map_err (decode (T := DeviceCredential) record) BAD_REQUEST;
      match dc_authorizing_device body with
      | None => Ok tt
      | Some parent =>
          bytes ← ok_or (base64_decode parent) BAD_REQUEST;
          _ ← fail_if (MAX_CREDENTIAL_BYTES <? slen bytes) BAD_REQUEST;
          record ← map_err (parse bytes) BAD_REQUEST;
          chain_active fuel rg record
      end
  end.
Definition require_creation_device (h : Host) (c : VerifiedCredential) : result StatusCode unit :=
  _ ← fail_if (negb (creator_allowed (ht_config h) (vc_identity c))) FORBIDDEN;
  chain_active (Datatypes.S MAX_COMPANION_DEPTH) (ht_registry h) (vc_record c).

(** ** Reservations *)

(** Active reservations from one network, of the files that can be read. *)
Definition from_network (network : string) (d : SpaceDir) : bool :=
  match sd_reservation d with
  | Holds r => re_creation_network r === Some network
  | _ => false
  end.
Definition network_reservations (h : Host) (network : string) : N :=
  count_over (λ _ d, from_network network d) (ht_dirs h).
Definition owned_by (who : IdentityId) (h : Host) : N :=
  count_over (λ _ o, o === Some who) (ht_allocations h).
Definition read_budget (f : File CreationBudget) : result string CreationBudget :=
  match f with NoFile => Ok (no_creations 0) | BadFile => Err "json" | Holds b => Ok b end.
(** The budget of [day] with one more creation. *)
Definition spend_creation (b : CreationBudget) (day limit : N) (network : option string)
    : result string CreationBudget :=
  let b := if cb_day b =? day then b else no_creations day in
  _ ← fail_if (limit <=? cb_count b) capacity_reached;
  networks ← match network with
             | None => Ok (cb_networks b)
             | Some n =>
                 let count := default 0 (cb_networks b !! n) in
                 _ ← fail_if (4 <=? count) capacity_reached;
                 Ok (<[n := count + 1]> (cb_networks b))
             end;
  mret {| cb_day := cb_day b; cb_count := cb_count b + 1; cb_networks := networks |}.
(** The limits a new reservation is under. *)
Definition within_capacity (h : Host) (who : IdentityId) (network : option string)
    : result string unit :=
  _ ← fail_if (hn_max_spaces (ht_config h) <=? N.of_nat (size (ht_allocations h))) capacity_reached;
  _ ← fail_if (hn_max_spaces_per_identity (ht_config h) <=? owned_by who h) capacity_reached;
  match network with
  | Some n => fail_if (8 <=? network_reservations h n) capacity_reached
  | None => Ok tt
  end.
Definition new_reservation (command : CreateCommand) (creator : IdentityId)
    (network : option string) (evidence : option AdminEvidence) (mailbox : MailboxDescriptor)
    (password : string) (time : N) : Reservation :=
  {| re_creator := Some creator; re_request_id := cx_request_id command;
     re_name := cx_name command; re_contact_email := Some (cx_contact_email command);
     re_lifetime := cx_lifetime command; re_require_approval := cx_require_approval command;
     re_mailbox := mailbox;
     re_password := if bool_decide (is_Some (cx_authority command)) then "" else password;
     re_authority := cx_authority command; re_creation_evidence := evidence;
     re_invitation := None; re_invitation_issued := 0; re_reserved_at := time;
     re_creation_network := network; re_reclaim_if_unclaimed := true;
     re_ticket_issued := false |}.
Definition no_files : SpaceDir :=
  {| sd_reservation := NoFile; sd_config := NoFile; sd_service := None; sd_replica := None |}.
Definition reserve_new (command : CreateCommand) (creator : IdentityId) (network : option string)
    (evidence : option AdminEvidence) (mailbox : MailboxDescriptor) (password : string)
    (time later : N) (id : string) : HM string Reservation :=
  h ← the_host;
  _ ← lifth (fail_if (negb (contains (hn_allowed_message_retentions (ht_config h))
                              (cx_lifetime command))) retention_refused);
  _ ← lifth (within_capacity h creator network);
  b ← lifth (read_budget (ht_budget h));
  b ← lifth (spend_creation b (time / 86400000) (hn_max_space_creations_per_day (ht_config h))
               network);
  _ ← save (effect SaveBudget) (λ h, with_budget h (Holds b));
  let r := new_reservation command creator network evidence mailbox password later in
  _ ← lifth (fail_if (bool_decide (is_Some (ht_dirs h !! id))) "rename");
  _ ← lifth (fail_if match effect (StageReservation id) with Written => false | _ => true end "rename");
  _ ← modify (λ h, with_dirs h (<[id := dir_reservation no_files (Holds r)]> (ht_dirs h)));
  _ ← modify (λ h, with_allocations h (<[id := Some creator]> (ht_allocations h)));
  _ ← save (effect SyncSpaces) (λ h, h);
  mret r.
(** What a retry may not change. *)
Definition same_request (r : Reservation) (command : CreateCommand) (creator : IdentityId) : bool :=
  (re_creator r === Some creator) && (re_request_id r === cx_request_id command)
  && (re_name r === cx_name command) && (re_contact_email r === Some (cx_contact_email command))
  && (re_lifetime r === cx_lifetime command)
  && Bool.eqb (re_require_approval r) (cx_require_approval command)
  && (re_authority r === cx_authority command).
(** [time] is the clock the day is taken from, [later] the one the reservation is dated with. *)
Definition reserve_creation (command : CreateCommand) (creator : IdentityId)
    (network : option string) (evidence : option AdminEvidence) (mailbox : MailboxDescriptor)
    (password : string) (time later : N) : HM string (string * Reservation) :=
  h ← the_host;
  _ ← lifth (require_owner_managed_creation command);
  _ ← lifth (fail_if (negb (creator_allowed (ht_config h) creator)) creator_refused);
  let id := reservation_key creator (cx_request_id command) in
  _ ← lifth (fail_if (bool_decide (is_Some (ht_deleted h !! id))) space_deleted);
  let file := match ht_dirs h !! id with Some d => sd_reservation d | None => NoFile end in
  r ← (if exists_file file then lifth (read_file file)
       else reserve_new command creator network evidence mailbox password time later id);
  _ ← lifth (fail_if (negb (same_request r command creator)) request_changed);
  mret (id, r).

(** ** Tickets for the witness (hosting/registration.rs) *)

(** Before the counter exists, everything reserved or deleted counts. *)
Definition registration_budget (h : Host) : result string N :=
  match ht_registrations h with
  | Holds n => Ok n
  | BadFile => Err "json"
  | NoFile => Ok (saturating_add (N.of_nat (size (ht_allocations h)))
                    (N.of_nat (size (ht_deleted h))))
  end.
Definition ticket_issued (h : Host) (id : string) : result string bool :=
  match ht_dirs h !! id with
  | Some d => match sd_reservation d with
              | NoFile => Ok false
              | f => r ← read_file f; Ok (re_ticket_issued r)
              end
  | None => Ok false
  end.
Definition prepare_status (e : string) : StatusCode :=
  if e === capacity_reached then TOO_MANY_REQUESTS
  else if (e === request_changed) || (e === retention_refused) then BAD_REQUEST
  else if e === space_deleted then GONE
  else SERVICE_UNAVAILABLE.
Definition create_endpoint (c : HostConfig) : string := hn_public_url c +:+ "/spaces/v1/create".
Definition registration_ticket (pin : WitnessPin) (expected : string) (a : Authority)
    (c : VerifiedCredential) (now : N) (id : string) : result StatusCode RegistrationTicket :=
  h ← ok_or (head a) BAD_REQUEST;
  mret {| rt_v := 1; rt_kind := "witness.registration_ticket"; rt_audience := wp_url pin;
          rt_witness_public_key := wp_public_key pin;
          rt_witness_key_generation := wp_key_generation pin; rt_host := expected;
          rt_space_id := space a; rt_stream_id := stream a; rt_authority_head := h;
          rt_creator_identity := vc_identity c; rt_credential_id := vc_id c;
          rt_issued_at_ms := now;
          rt_expires_at_ms := saturating_add now MAX_TICKET_LIFETIME_MS;
          rt_reservation_id := id |}.
(** The reservation is counted, then marked. *)
Definition count_registration (issued : N) (id : string) (r : Reservation) : HM StatusCode unit :=
  if re_ticket_issued r then mret tt
  else
    _ ← with_error (λ _, SERVICE_UNAVAILABLE)
          (save (effect SaveRegistrations)
             (λ h, with_registrations h (Holds (saturating_add issued 1))));
    with_error (λ _, SERVICE_UNAVAILABLE)
      (save (effect (SaveReservation id))
         (on_dir id (λ d, dir_reservation d (Holds (with_ticket r true))))).
Definition account_requested (h : Host) (who : IdentityId) : bool :=
  bool_decide (is_Some (ht_jobs h !! who)).

Definition prepare (request : CreateRequest) (peer forwarded : option IpAddr)
    (mailbox : MailboxDescriptor) (password : string) (now time later : N)
    : HM StatusCode (string * SignedRecord) :=
  h ← the_host;
  _ ← lifth (fail_if (negb (lock_free "accounts")) SERVICE_UNAVAILABLE);
  _ ← lifth (fail_if (negb (lock_free "creation")) TOO_MANY_REQUESTS);
  key ← lifth (ok_or (hn_registration_signing_key (ht_config h)) SERVICE_UNAVAILABLE);
  pin ← lifth (ok_or (hn_witness (ht_config h)) NOT_FOUND);
  let expected := create_endpoint (ht_config h) in
  '(command, c) ← lifth (map_err (verify_create_with_witness request expected now (Some pin))
                           BAD_REQUEST);
  _ ← lifth (map_err (require_owner_managed_creation command) UPGRADE_REQUIRED);
  _ ← lifth (require_creation_device h c);
  _ ← lifth (fail_if (account_requested h (vc_identity c)) GONE);
  found ← lifth (map_err (verify_creation_authority_with_witness command c (Some pin)) BAD_REQUEST);
  a ← lifth (ok_or found BAD_REQUEST);
  issued ← lifth (map_err (registration_budget h) SERVICE_UNAVAILABLE);
  again ← lifth (map_err (ticket_issued h (reservation_key (vc_identity c) (cx_request_id command)))
                   SERVICE_UNAVAILABLE);
  _ ← lifth (fail_if (negb again && (N.min (hn_max_spaces (ht_config h)) 128 <=? issued))
               TOO_MANY_REQUESTS);
  '(id, r) ← with_error prepare_status
    (reserve_creation command (vc_identity c) (Some (creation_network peer forwarded))
       (Some {| ev_record := cr_record request; ev_credential := cr_credential request |})
       mailbox password time later);
  _ ← count_registration issued id r;
  ticket ← lifth (registration_ticket pin expected a c now id);
  signed ← lifth (map_err (ticket_sign ticket key) SERVICE_UNAVAILABLE);
  mret (id, signed).

(** ** The services of open Spaces *)

Definition serving_with (sp : HostedSpace) (serving : bool) (client : option Service) : HostedSpace :=
  {| hs_config := hs_config sp; hs_mailbox := hs_mailbox sp; hs_serving := serving;
     hs_client := client |}.
(** What a service stored is in the files of its directory. *)
Definition stored_in (sv : Service) (d : SpaceDir) : SpaceDir :=
  dir_service d ((λ p, (p.1, sv_stored sv)) <$> sd_service d).
(** A call on a service that is not open yet, and on the client of an open Space. *)
Definition on_service {A} (id : string) (sv : Service) (m : M A) : HM string (Service * A) := λ h,
  let '(sv', r) := m (with_registry sv (ht_registry h)) in
  let h := host_registry (on_dir id (stored_in sv') h) (sv_registry sv') in
  (h, match r with Ok a => Ok (sv', a) | Err e => Err e end).
Definition find_space (h : Host) (id : string) : result string HostedSpace :=
  ok_or (ht_spaces h !! id) "Space unavailable.".
Definition find_client (h : Host) (id : string) : result string (HostedSpace * Service) :=
  sp ← find_space h id;
  sv ← ok_or (hs_client sp) "Space unavailable.";
  mret (sp, with_registry sv (ht_registry h)).
Definition put_space (id : string) (sp : HostedSpace) (h : Host) : Host :=
  with_spaces h (<[id := sp]> (ht_spaces h)).
Definition on_client {A} (id : string) (m : M A) : HM string A := λ h,
  match find_client h id with
  | Err e => (h, Err e)
  | Ok (sp, sv) =>
      let '(sv', r) := m sv in
      let h := put_space id (serving_with sp (hs_serving sp) (Some sv')) h in
      (host_registry (on_dir id (stored_in sv') h) (sv_registry sv'), r)
  end.
Definition on_replica (call id error : string) : HM string unit :=
  lifth (fail_if (negb (replica_call call id)) error).
(** [set_space_members], [set_admitted_devices] *)
Definition share_access (id : string) (sv : Service) : HM string unit :=
  _ ← lifth (space_access_members sv);
  _ ← on_replica "set_space_members" id "replica";
  _ ← lifth (space_access_devices sv);
  on_replica "set_admitted_devices" id "replica".

Definition space_url (c : HostConfig) (id : string) : string :=
  hn_public_url c +:+ "/spaces/" +:+ id +:+ "/team/v1/spaces".
Definition replica_url (c : HostConfig) (id : string) : string :=
  hn_public_url c +:+ "/spaces/" +:+ id +:+ "/replica/".
(** The replica of a directory; its key is generated once. *)
Definition open_replica (id draw : string) : HM string string :=
  h ← the_host;
  _ ← on_replica "open" id "replica";
  match ht_dirs h !! id ≫= sd_replica with
  | Some key => mret key
  | None => _ ← modify (on_dir id (λ d, dir_replica d (Some draw))); mret draw
  end.
Definition open_public (id : string) (cfg : ServiceConfig) (r : Reservation) : HM string Service :=
  h ← the_host;
  _ ← lifth (fail_if (bool_decide (re_authority r = None)) "Legacy profile.");
  _ ← lifth (fail_if (re_password r =/= "") "Public-only Space contains an unexpected profile.");
  '(signer, st) ← lifth (ok_or (ht_dirs h !! id ≫= sd_service) "read");
  sv ← lifth (open_with_witness signer st (ht_registry h) (hn_allow_loopback (ht_config h))
                (hn_witness (ht_config h)));
  _ ← lifth (fail_if (sa_service_credential (cfg_address cfg) =/= Some (transport_credential sv))
               "Hosted Space transport signer mismatch.");
  mret sv.
(** [open_ready]; [draw] is the key of a replica that does not exist yet. *)
Definition open_ready (id : string) (r : Reservation) (prepared : option Service) (draw : string)
    : HM string HostedSpace :=
  h ← the_host;
  cfg ← lifth (d ← ok_or (ht_dirs h !! id) "read"; read_file (sd_config d));
  _ ← lifth (address_validate (cfg_address cfg) (hn_allow_loopback (ht_config h)));
  _ ← lifth (fail_if ((cfg_name cfg =/= re_name r)
                      || (sa_lifetime (cfg_address cfg) =/= re_lifetime r)
                      || (sa_url (cfg_address cfg) =/= space_url (ht_config h) id)
                      || (pd_mailbox_id (cfg_peer cfg) =/= mb_id (re_mailbox r)))
               "Hosted Space configuration mismatch.");
  key ← open_replica id draw;
  _ ← on_replica "require_content_ownership" id "replica";
  _ ← lifth (fail_if ((pd_url (cfg_peer cfg) =/= replica_url (ht_config h) id)
                      || (pd_signing_public_key (cfg_peer cfg) =/= encode_hex key))
               "Hosted Space Replica identity mismatch.");
  _ ← on_replica "reserve_mailbox" id "replica";
  sv ← match prepared with Some sv => mret sv | None => open_public id cfg r end;
  '(sv, _) ← on_service id sv
               (set_attachment_storage_available (hn_attachment_storage (ht_config h)));
  scope ← lifth (team_scope sv);
  _ ← lifth (fail_if (scope =/= sa_scope (cfg_address cfg)) "Hosted Space profile mismatch.");
  _ ← share_access id sv;
  mret {| hs_config := cfg; hs_mailbox := mb_id (re_mailbox r); hs_serving := true;
          hs_client := Some sv |}.

(** ** Creating a Space *)

(** What creation draws at random. *)
Record Draws := {
  dw_mailbox : MailboxDescriptor; dw_password : string; dw_replica : string;
  dw_signer : TransportSigner; dw_token : option string;
}.
(** The successive readings of the wall clock, and of both clocks when a lease is checked. *)
Record Clocks := { ck_now : nat → N; ck_lease : nat → N * N }.

Definition check_freshness (fr : Lease) (at_ : N * N) : HM string unit :=
  h ← the_host;
  lifth match ht_witness h, fr with
        | Some g, Some (a, f) => gate_check g a f at_.1 at_.2
        | None, None => Ok tt
        | _, _ => Err "Missing hosting creation witness lease."
        end.
Definition lease_of_command (h : Host) (command : CreateCommand) (fr : Lease) : result string unit :=
  match fr with
  | None => Ok tt
  | Some (a, _) =>
      proof ← ok_or (cx_authority command) "Missing creation authority.";
      pin ← ok_or (hn_witness (ht_config h)) "Missing hosting witness pin.";
      requested ← map_err (verify_witnessed proof (space a) (stream a) pin) "authority";
      fail_if (head requested =/= head a) "Creation witness lease belongs to another authority."
  end.
Definition space_config (c : HostConfig) (id : string) (r : Reservation) (creator : IdentityId)
    (key : string) (sv : Service) : result string ServiceConfig :=
  scope ← team_scope sv;
  mret {| cfg_name := re_name r;
          cfg_address := {| sa_url := space_url c id; sa_scope := scope;
                            sa_lifetime := re_lifetime r;
                            sa_service_credential := Some (transport_credential sv) |};
          cfg_owners := [creator]; cfg_contact_email := re_contact_email r;
          cfg_peer := {| pd_url := replica_url c id; pd_signing_public_key := encode_hex key;
                         pd_mailbox_id := mb_id (re_mailbox r);
                         pd_read_token := Some (mb_read_token (re_mailbox r));
                         pd_write_token := Some (mb_write_token (re_mailbox r)) |} |}.
(** The service and the configuration of a reservation that has none. *)
Definition prepare_space (id : string) (r : Reservation) (creator : IdentityId) (fr : Lease)
    (draws : Draws) (clocks : Clocks) : HM string Service :=
  h ← the_host;
  key ← open_replica id (dw_replica draws);
  _ ← on_replica "reserve_mailbox" id "replica";
  proof ← lifth (ok_or (re_authority r) "Legacy profile.");
  _ ← modify (on_dir id (λ d, dir_service d None));
  sv ← lifth (create_with_witness (dw_signer draws) (ht_registry h) proof [creator]
                (re_contact_email r) (hn_allow_loopback (ht_config h)) (re_creation_evidence r)
                (hn_witness (ht_config h)));
  _ ← save (effect (CreateService id))
        (on_dir id (λ d, dir_service d (Some (dw_signer draws, sv_stored sv))));
  cfg ← lifth (space_config (ht_config h) id r creator key sv);
  _ ← check_freshness fr (ck_lease clocks 1);
  _ ← save (effect (SaveConfig id)) (on_dir id (λ d, dir_config d (Holds cfg)));
  mret sv.
Definition ensure_open (id : string) (r : Reservation) (creator : IdentityId) (fr : Lease)
    (draws : Draws) (clocks : Clocks) : HM string unit :=
  h ← the_host;
  if bool_decide (is_Some (ht_spaces h !! id)) then mret tt
  else
    let configured := match ht_dirs h !! id with Some d => exists_file (sd_config d)
                                             | None => false end in
    prepared ← (if configured then mret None
                else sv ← prepare_space id r creator fr draws clocks; mret (Some sv));
    sp ← open_ready id r prepared (dw_replica draws);
    _ ← check_freshness fr (ck_lease clocks 2);
    modify (put_space id sp).
(** The invitation of a Space without a witness, renewed before it expires. *)
Definition ensure_invitation (id : string) (r : Reservation) (fr : Lease) (draws : Draws)
    (clocks : Clocks) : HM string Reservation :=
  if bool_decide (is_Some fr)
     || (bool_decide (is_Some (re_invitation r))
         && (saturating_sub (ck_now clocks 2) (re_invitation_issued r) <=? 23 * 3600000))
  then mret r
  else
    h ← the_host;
    sp ← lifth (find_space h id);
    _ ← check_freshness fr (ck_lease clocks 3);
    link ← on_client id (bootstrap_space_invitation (cfg_address (hs_config sp))
                           (re_require_approval r) (ck_now clocks 3) (dw_token draws));
    let r := issued_at (with_invitation r (Some link)) (ck_now clocks 4) in
    _ ← check_freshness fr (ck_lease clocks 4);
    _ ← save (effect (SaveReservation id)) (on_dir id (λ d, dir_reservation d (Holds r)));
    mret r.
Definition provision (command : CreateCommand) (creator : IdentityId) (network : option string)
    (evidence : option AdminEvidence) (fr : Lease) (draws : Draws) (clocks : Clocks)
    : HM string (string * Reservation) :=
  h ← the_host;
  _ ← lifth (require_owner_managed_creation command);
  _ ← lifth (fail_if (negb (creator_allowed (ht_config h) creator)) creator_refused);
  _ ← lifth (lease_of_command h command fr);
  _ ← check_freshness fr (ck_lease clocks 0);
  '(id, r) ← reserve_creation command creator network evidence (dw_mailbox draws)
               (dw_password draws) (ck_now clocks 0) (ck_now clocks 1);
  _ ← ensure_open id r creator fr draws clocks;
  r ← ensure_invitation id r fr draws clocks;
  _ ← check_freshness fr (ck_lease clocks 5);
  mret (id, r).

Definition create_status (e : string) : StatusCode :=
  if e === capacity_reached then TOO_MANY_REQUESTS
  else if e === retention_refused then BAD_REQUEST
  else SERVICE_UNAVAILABLE.
(** What the host answers a creation with: the address, or the invitation. *)
Inductive Created := CreatedAt (address : SpaceAddress) | CreatedInvitation (link : string).
(** [create]; [lease] is what [WitnessGate::require] gave for the creation's authority. *)
Definition create (request : CreateRequest) (peer forwarded : option IpAddr)
    (lease : option VerifiedFreshness) (now : N) (draws : Draws) (clocks : Clocks)
    : HM StatusCode Created :=
  h ← the_host;
  _ ← lifth (fail_if (negb (lock_free "accounts")) SERVICE_UNAVAILABLE);
  '(command, c) ← lifth (map_err (verify_create_with_witness request
                           (create_endpoint (ht_config h)) now (hn_witness (ht_config h)))
                           BAD_REQUEST);
  _ ← lifth (map_err (require_owner_managed_creation command) UPGRADE_REQUIRED);
  _ ← lifth (require_creation_device h c);
  _ ← lifth (fail_if (account_requested h (vc_identity c)) GONE);
  fr ← lifth match ht_witness h with
             | None => Ok None
             | Some g =>
                 found ← map_err (verify_creation_authority_with_witness command c
                                    (hn_witness (ht_config h))) FORBIDDEN;
                 a ← ok_or found FORBIDDEN;
                 f ← ok_or lease SERVICE_UNAVAILABLE;
                 Ok (Some (a, f))
             end;
  _ ← lifth (fail_if (negb (lock_free "creation")) SERVICE_UNAVAILABLE);
  _ ← with_error (λ _, SERVICE_UNAVAILABLE)
        (if bool_decide (is_Some fr) then check_freshness fr (ck_lease clocks 6) else mret tt);
  '(id, r) ← with_error create_status
    (provision command (vc_identity c) (Some (creation_network peer forwarded))
       (Some {| ev_record := cr_record request; ev_credential := cr_credential request |})
       fr draws clocks);
  _ ← with_error (λ _, SERVICE_UNAVAILABLE)
        (if bool_decide (is_Some fr) then check_freshness fr (ck_lease clocks 7) else mret tt);
  h ← the_host;
  if bool_decide (is_Some fr) then
    sp ← lifth (map_err (find_space h id) SERVICE_UNAVAILABLE);
    mret (CreatedAt (cfg_address (hs_config sp)))
  else
    link ← lifth (ok_or (re_invitation r) SERVICE_UNAVAILABLE);
    mret (CreatedInvitation link).

End Hosting.
