(* ===== verification/HostingSpaces.v ===== *)
(** * Open Spaces and accounts of a host (crates/elo-team/src/hosting.rs, hosting/lifecycle.rs,
    hosting/account_deletion.rs)

    Requests to a hosted Space, its deletion, reservations that expire, what a restart opens, and
    the erasure of accounts from every Space of the host. *)

From S2P Require Import Prelude Sums Platform Ids Record Chat Identity AuthorityData AuthorityWitness Authority AuthorityProof WitnessWire WakeWire CallWire Attachments StorageWire HostedRoles Revocations HostedState HostedAccess HostedFiles HostedAdmission HostedService HostedWitness SpaceCreation HostGate Hosting.

#[local] Instance AccountStatus_eq_dec : EqDecision AccountStatus.
Proof. solve_decision. Defined.

Section HostingSpaces.
Context `{P : Platform} {SA : AuthoritySerde} {W : WitnessSerde} {X : ProtocolSerde}
  {U : UrlBase64} {HP : HostedPlatform} {HS : HostedSerde} {SC : Serde CreateCommand}
  {WS : WakeSerde}.
Context `{OU : Outside} {D : Disk}.

(** ** Deleting a Space *)

Definition mark_deleted (id : string) (d : DeletedSpace) (h : Host) : Host :=
  with_deleted h (<[id := d]> (ht_deleted h)).
Definition with_objects (d : DeletedSpace) (l : list AttachmentObjectId) : DeletedSpace :=
  {| dl_receipt := dl_receipt d; dl_mailbox := dl_mailbox d; dl_objects := l;
     dl_completed := dl_completed d |}.
Definition completed_deletion (d : DeletedSpace) : DeletedSpace :=
  {| dl_receipt := dl_receipt d; dl_mailbox := dl_mailbox d; dl_objects := [];
     dl_completed := true |}.
Definition add_objects (l new : list AttachmentObjectId) : list AttachmentObjectId :=
  foldl (λ l x, if contains l x then l else l ++ [x]) l new.
(** The list of objects is complete and stored before any of them is deleted. *)
Definition deletion_inventory (id : string) (d : DeletedSpace) : HM string DeletedSpace :=
  h ← the_host;
  match ht_spaces h !! id with
  | Some sp =>
      _ ← modify (put_space id (serving_with sp false (hs_client sp)));
      targets ← lifth match hs_client sp with
                      | Some sv => attachment_all_targets sv
                      | None => Ok []
                      end;
      let d := with_objects d (add_objects (dl_objects d) targets.*2) in
      _ ← save (effect (SaveMarker id)) (mark_deleted id d);
      mret d
  | None =>
      _ ← lifth (fail_if match ht_dirs h !! id with
                         | Some dir => exists_file (sd_config dir)
                         | None => false
                         end "Deleted Space must be repaired before cleanup can finish.");
      mret d
  end.
Definition delete_objects (id : string) (d : DeletedSpace) : HM string unit :=
  h ← the_host;
  if hn_attachment_storage (ht_config h) then
    _ ← for_each (λ object, lifth (fail_if (negb (provider_call object)) "storage")) (dl_objects d);
    lifth (fail_if (negb (provider_call id)) "storage")
  else mret tt.
(** The open Space is closed and its mailbox deleted, or the mailbox of one that did not open. *)
Definition close_deleted (id : string) : HM string unit :=
  h ← the_host;
  match ht_spaces h !! id with
  | Some sp =>
      _ ← modify (λ h, with_spaces h (delete id (ht_spaces h)));
      _ ← (if bool_decide (is_Some (hs_client sp)) then on_replica "close" id "close" else mret tt);
      on_replica "delete_mailbox_tree" id "replica"
  | None =>
      if bool_decide (is_Some (ht_dirs h !! id ≫= sd_replica)) then
        _ ← on_replica "open" id "replica"; on_replica "delete_mailbox_tree" id "replica"
      else mret tt
  end.
Definition remove_dir (id : string) : HM string unit :=
  save (effect (RemoveSpace id)) (λ h, with_dirs h (delete id (ht_dirs h))).
Definition release (id : string) : HM string unit :=
  modify (λ h, with_allocations h (delete id (ht_allocations h))).
Definition finish_deletion (id : string) : HM string (SpaceId * N) :=
  h ← the_host;
  d ← lifth (ok_or (ht_deleted h !! id) "read");
  d ← (if dl_completed d then mret d
       else d ← deletion_inventory id d; _ ← delete_objects id d; mret d);
  _ ← close_deleted id;
  h ← the_host;
  _ ← (if bool_decide (is_Some (ht_dirs h !! id)) then remove_dir id else mret tt);
  _ ← release id;
  _ ← save (effect (RemoveBackup id)) (λ h, h);
  _ ← (if dl_completed d then mret tt
       else save (effect (CloseMarker id)) (mark_deleted id (completed_deletion d)));
  mret (dl_receipt d).
(** [retry_deletions]: a failure is retried in the next round. *)
Definition attempt (m : HM string unit) : HM string unit := λ h, ((m h).1, Ok tt).
Definition retry_deletions (order : list string) : HM string unit :=
  for_each (λ id,
    h ← the_host;
    if bool_decide (is_Some (parse_hex 32 id))
       && match ht_deleted h !! id with Some d => negb (dl_completed d) | None => false end
    then attempt (_ ← finish_deletion id; mret tt) else mret tt) order.

(** ** Reservations that nobody claimed (hosting/lifecycle.rs) *)

(** Nobody can have been promised anything about such a reservation. *)
Definition expired (r : Reservation) (configured : bool) (now : N) : bool :=
  negb (re_ticket_issued r
        || ((bool_decide (is_Some (re_invitation r)) || configured
             || negb (re_invitation_issued r =? 0)) && negb (re_reclaim_if_unclaimed r))
        || (re_reserved_at r =? 0)
        || (saturating_sub now (re_reserved_at r) <? 86400000)).
Definition unused (sv : Service) (now : N) : bool :=
  match space_reservation_is_unused sv now with Ok b => b | Err _ => false end.
Definition expire_open (id : string) (sp : HostedSpace) (sv : Service) (r : Reservation) (now : N)
    : HM string unit :=
  if negb (unused sv now) then
    if re_reclaim_if_unclaimed r
       && match space_reservation_is_unused sv u64_max with Ok false => true | _ => false end
    then save (effect (SaveReservation id))
           (on_dir id (λ d, dir_reservation d (Holds (reclaimable r false))))
    else mret tt
  else
    _ ← modify (put_space id (serving_with sp false None));
    _ ← on_replica "close" id "close";
    _ ← modify (λ h, with_spaces h (delete id (ht_spaces h)));
    _ ← remove_dir id;
    release id.
Definition expire_reservation (now : N) (id : string) : HM string unit :=
  h ← the_host;
  match ht_dirs h !! id, parse_hex 32 id with
  | Some d, Some _ =>
      if bool_decide (is_Some (ht_deleted h !! id)) then mret tt
      else match sd_reservation d with
           | Holds r =>
               let configured := exists_file (sd_config d) in
               if negb (expired r configured now) then mret tt
               else match ht_spaces h !! id with
                    | Some sp =>
                        if negb (lock_free id) then mret tt
                        else match hs_client sp with
                             | None => mret tt
                             | Some sv => expire_open id sp sv r now
                             end
                    | None =>
                        if bool_decide (is_Some (re_invitation r))
                           || negb (re_invitation_issued r =? 0) || configured then mret tt
                        else _ ← remove_dir id; release id
                    end
           | _ => mret tt
           end
  | _, _ => mret tt
  end.
(** [order] is the order in which the directory is listed. *)
Definition expire_reservations_at (now : N) (order : list string) : HM string unit :=
  if lock_free "creation" then for_each (expire_reservation now) order else mret tt.

(** *** Opening what is there *)

Definition load_reserved (id : string) (d : SpaceDir) (deleting : bool) (draw : string)
    : HM string unit :=
  r ← lifth (read_file (sd_reservation d));
  _ ← lifth (fail_if match re_creator r with
                     | Some who => reservation_key who (re_request_id r) =/= id
                     | None => false
                     end "Hosting reservation mismatch.");
  _ ← modify (λ h, with_allocations h (<[id := re_creator r]> (ht_allocations h)));
  if exists_file (sd_config d) then
    sp ← open_ready id r None draw;
    modify (put_space id (if deleting then serving_with sp false (hs_client sp) else sp))
  else mret tt.
Definition load_space (id draw : string) : HM string unit :=
  h ← the_host;
  _ ← lifth (fail_if (bool_decide (parse_hex 32 id = None)) "identifier");
  d ← lifth (ok_or (ht_dirs h !! id) "read");
  match ht_deleted h !! id with
  | Some x =>
      if dl_completed x then _ ← finish_deletion id; mret tt
      else if exists_file (sd_config d) then load_reserved id d true draw
      else mret tt
  | None => load_reserved id d false draw
  end.
(** [load_spaces]: a directory that cannot be opened still takes its place. *)
Definition load_spaces (order : list string) (draws : string → string) : HM string unit :=
  for_each (λ id,
    _ ← modify (λ h, with_allocations h (<[id := None]> (ht_allocations h)));
    attempt (load_space id (draws id))) order.

(** ** Requests to a Space *)

Definition pending_job (space : string) (j : Job) : bool :=
  bool_decide (jb_completed_at j = None) && contains (jb_spaces j) space.
Definition account_scope_pending (h : Host) (space : string) : bool :=
  existsb (pending_job space) (btree_values (ht_jobs h)).
(** The device that signs may not be retired, however its Space sees it. *)
Definition sender_active (h : Host) (q : Request) : result StatusCode unit :=
  match hq_credential q with
  | None => Ok tt
  | Some encoded =>
      bytes ← ok_or (base64_decode encoded) BAD_REQUEST;
      record ← map_err (parse bytes) BAD_REQUEST;
      found ← map_err (Revocations.get (ht_registry h) (record_id record)) SERVICE_UNAVAILABLE;
      fail_if (bool_decide (is_Some found)) FORBIDDEN
  end.
(** The authority of a witnessed request, and the lease that covers it. *)
Definition command_lease (h : Host) (sv : Service) (q : Request)
    (lease : option VerifiedFreshness) (now : N) (at_ : N * N) : result StatusCode Lease :=
  found ← map_err (witnessed_authority sv) FORBIDDEN;
  match found with
  | None => Ok None
  | Some _ =>
      a ← map_err (witnessed_request_authority sv q now) FORBIDDEN;
      g ← ok_or (ht_witness h) FORBIDDEN;
      f ← ok_or lease SERVICE_UNAVAILABLE;
      _ ← map_err (gate_check g a f at_.1 at_.2) SERVICE_UNAVAILABLE;
      Ok (Some (a, f))
  end.
Inductive CommandReply :=
| Receipt (receipt : SpaceId * N)
| Answer (recipient : option string) (reply : Reply).
(** The deletion is recorded before it is acknowledged; the client is gone after that. *)
Definition accept_deletion (id : string) (sp : HostedSpace) (sv : Service) (receipt : SpaceId * N)
    : HM StatusCode CommandReply :=
  targets ← lifth (map_err (attachment_all_targets sv) SERVICE_UNAVAILABLE);
  _ ← with_error (λ _, SERVICE_UNAVAILABLE)
        (save (effect (SaveMarker id))
           (mark_deleted id {| dl_receipt := receipt; dl_mailbox := hs_mailbox sp;
                               dl_objects := targets.*2; dl_completed := false |}));
  _ ← modify (put_space id (serving_with sp false None));
  _ ← lifth (fail_if (negb (replica_call "close" id)) SERVICE_UNAVAILABLE);
  mret (Receipt receipt).
Definition serve_command (id : string) (cfg : ServiceConfig) (q : Request) (fr : Lease)
    (draws : Draws) (clocks : Clocks) : HM StatusCode CommandReply :=
  _ ← (if bool_decide (is_Some fr)
       then with_error (λ _, SERVICE_UNAVAILABLE) (check_freshness fr (ck_lease clocks 1))
       else mret tt);
  answer ← (λ h,
    let '(h, r) := on_client id
      match fr with
      | Some (_, f) =>
          serve_hosted_witnessed_space cfg q f (ck_lease clocks 2).1 (ck_now clocks 1)
            (ck_lease clocks 3).1 (ck_now clocks 2) (dw_token draws)
      | None => serve_space true cfg q (ck_now clocks 1) (ck_now clocks 2) (dw_token draws)
      end h in (h, Ok r));
  h ← the_host;
  client ← lifth (map_err (find_client h id) SERVICE_UNAVAILABLE);
  _ ← with_error (λ _, SERVICE_UNAVAILABLE) (share_access id client.2);
  '(recipient, reply) ← lifth (map_err answer BAD_REQUEST);
  mret (Answer recipient reply).
Definition command (id : string) (q : Request) (lease : option VerifiedFreshness) (draws : Draws)
    (clocks : Clocks) : HM StatusCode CommandReply :=
  h ← the_host;
  _ ← lifth (fail_if (negb (lock_free "accounts")) SERVICE_UNAVAILABLE);
  _ ← lifth (fail_if (bool_decide (parse_hex 32 id = None)) NOT_FOUND);
  who ← lifth (map_err (request_identity q) BAD_REQUEST);
  _ ← lifth (fail_if match who with Some who => account_requested h who | None => false end GONE);
  _ ← lifth (fail_if (account_scope_pending h id) SERVICE_UNAVAILABLE);
  match ht_deleted h !! id with
  | Some d => mret (Receipt (dl_receipt d))
  | None =>
      sp ← lifth (ok_or (ht_spaces h !! id) NOT_FOUND);
      _ ← lifth (fail_if (negb (lock_free id)) TOO_MANY_REQUESTS);
      _ ← lifth (fail_if (negb (hs_serving sp)) GONE);
      sv ← lifth (ok_or (hs_client sp) GONE);
      let sv := with_registry sv (ht_registry h) in
      _ ← lifth (sender_active h q);
      fr ← lifth (command_lease h sv q lease (ck_now clocks 0) (ck_lease clocks 0));
      deletion ← lifth (map_err (authorize_space_deletion sv (hs_config sp) q (ck_now clocks 3))
                          BAD_REQUEST);
      match deletion with
      | Some space => accept_deletion id sp sv (space, ck_now clocks 4)
      | None => serve_command id (hs_config sp) q fr draws clocks
      end
  end.

(** ** Erasing an account (hosting/account_deletion.rs) *)

(** What [outcome] says of a job. *)
Definition job_outcome (j : Job) : Outcome :=
  {| oc_status := if bool_decide (is_Some (jb_completed_at j)) then Completed else WakeWire.Pending;
     oc_owned_spaces := []; oc_request_id := Some (jb_id j);
     oc_requested_at := Some (jb_requested_at j); oc_completed_at := jb_completed_at j;
     oc_receipts := [] |}.
Definition save_account_receipt (j : Job) : HM string unit :=
  h ← the_host;
  _ ← lifth (fail_if (negb (is_ok (hex 16 (jb_id j)))) "receipt");
  let value := bool_decide (is_Some (jb_completed_at j)) in
  if ht_receipts h !! jb_id j === Some value then mret tt
  else save (effect (SaveReceipt (jb_id j)))
         (λ h, with_receipts h (<[jb_id j := value]> (ht_receipts h))).
(** Whether a Space that is open keeps something of an account. *)
Definition account_affected (h : Host) (who : IdentityId) (id : string) : result string bool :=
  '(sp, sv) ← find_client h id;
  d ← ok_or (ht_dirs h !! id) "read";
  r ← read_file (sd_reservation d);
  ms ← account_membership sv who;
  Ok (ms_known ms || (re_creator r === Some who) || replica_call "has_account_content" id).
Fixpoint filter_ok {A} (f : A → result string bool) (l : list A) : result string (list A) :=
  match l with
  | [] => Ok []
  | x :: l => b ← f x; rest ← filter_ok f l; Ok (if b : bool then x :: rest else rest)
  end.
Definition open_ids (h : Host) : list string := (btree_list (ht_spaces h)).*1.
Definition account_scopes (h : Host) (who : IdentityId) : result string (list string) :=
  filter_ok (account_affected h who) (open_ids h).
(** The Spaces whose primary owner the account is; each must be able to forget it. *)
Fixpoint owned_spaces (h : Host) (who : IdentityId) (ids : list string)
    : result string (list OwnedSpace) :=
  match ids with
  | [] => Ok []
  | id :: ids =>
      '(sp, sv) ← find_client h id;
      ms ← account_membership sv who;
      _ ← fail_if (negb (replica_call "supports_account_erasure" id))
            "This service contains legacy data that cannot yet be erased automatically.";
      rest ← owned_spaces h who ids;
      Ok (if ms_primary ms
          then {| os_name := cfg_name (hs_config sp); os_other_members := ms_other_members ms |}
               :: rest
          else rest)
  end.
Definition account_inspect (h : Host) (who : IdentityId) : result string Outcome :=
  match ht_jobs h !! who with
  | Some j =>
      _ ← fail_if (jb_identity j =/= who) "Invalid account deletion record.";
      Ok (job_outcome j)
  | None =>
      ids ← account_scopes h who;
      owned ← owned_spaces h who ids;
      Ok {| oc_status := if bool_decide (owned = []) then Ready else Blocked;
            oc_owned_spaces := owned; oc_request_id := None; oc_requested_at := None;
            oc_completed_at := None; oc_receipts := [] |}
  end.

(** [erase_unprovisioned_account_reservations] (hosting/registration.rs) *)
Definition erase_reservation (who : IdentityId) (id : string) : HM string unit :=
  h ← the_host;
  match ht_dirs h !! id, parse_hex 32 id with
  | Some d, Some _ =>
      if bool_decide (is_Some (ht_spaces h !! id)) || exists_file (sd_config d) then mret tt
      else
        r ← lifth (read_file (sd_reservation d));
        if re_creator r =/= Some who then mret tt
        else
          _ ← lifth (fail_if (re_ticket_issued r && negb (exists_file (ht_registrations h)))
                       "Hosting registration accounting is unavailable.");
          _ ← remove_dir id;
          release id
  | _, _ => mret tt
  end.
Definition erase_unprovisioned (who : IdentityId) (order : list string) : HM string unit :=
  _ ← lifth (fail_if (negb (lock_free "creation")) "Hosting creation is busy.");
  _ ← for_each (erase_reservation who) order;
  save (effect SyncSpaces) (λ h, h).

(** *** A round over the jobs *)

Definition erasable (h : Host) (who : IdentityId) (id : string) : result string unit :=
  '(sp, sv) ← find_client h id;
  ms ← account_membership sv who;
  fail_if (ms_primary ms || negb (replica_call "supports_account_erasure" id))
    "Account erasure prerequisites changed.".
(** The creator is forgotten in the reservation and the configuration. *)
Definition forget_creator (id : string) (who : IdentityId) : HM string unit :=
  h ← the_host;
  d ← lifth (ok_or (ht_dirs h !! id) "read");
  r ← lifth (read_file (sd_reservation d));
  if re_creator r =/= Some who then mret tt
  else
    '(sp, sv) ← lifth (find_client h id);
    ms ← lifth (account_membership sv who);
    let r := with_contact (reclaimable (with_invitation (with_request (with_creator r None) "") None)
                             false) (ms_contact_email ms) in
    _ ← save (effect (SaveReservation id)) (on_dir id (λ d, dir_reservation d (Holds r)));
    let c := hs_config sp in
    let cfg := {| cfg_name := cfg_name c; cfg_address := cfg_address c;
                  cfg_owners := [ms_primary_identity ms];
                  cfg_contact_email := ms_contact_email ms; cfg_peer := cfg_peer c |} in
    save (effect (SaveConfig id)) (on_dir id (λ d, dir_config d (Holds cfg))).
Definition erase_from_space (j : Job) (id : string) : HM string unit :=
  h ← the_host;
  sp ← lifth (find_space h id);
  _ ← on_client id (erase_service_account (hs_config sp) (jb_identity j) (jb_proof j));
  _ ← on_replica "erase_account_content" id "replica";
  h ← the_host;
  client ← lifth (find_client h id);
  _ ← share_access id client.2;
  _ ← forget_creator id (jb_identity j);
  save (effect (RemoveBackup id)) (λ h, h).
(** Only Spaces that are open; all are checked before any is changed. *)
Definition job_scopes (h : Host) (j : Job) : list string :=
  List.filter (λ id, contains (jb_spaces j) id) (open_ids h).
Definition erase_account (j : Job) : HM string unit :=
  h ← the_host;
  _ ← for_each (λ id, lifth (erasable h (jb_identity j) id)) (job_scopes h j);
  for_each (erase_from_space j) (job_scopes h j).
Definition finished_job (j : Job) (time : N) : Job :=
  {| jb_proof := jb_proof j; jb_identity := jb_identity j; jb_id := jb_id j;
     jb_requested_at := jb_requested_at j; jb_completed_at := Some time; jb_spaces := [] |}.
Definition store_job (j : Job) (h : Host) : Host :=
  with_jobs h (<[jb_identity j := j]> (ht_jobs h)).
Definition process_job (time : N) (who : IdentityId) : HM string unit :=
  h ← the_host;
  match ht_jobs h !! who with
  | None => mret tt
  | Some j =>
      _ ← lifth (fail_if (jb_identity j =/= who) "Invalid account deletion path.");
      if bool_decide (is_Some (jb_completed_at j)) then save_account_receipt j
      else λ h, match erase_account j h with
                | (h, Err _) => (h, Ok tt)
                | (h, Ok _) =>
                    (let j := finished_job j time in
                     _ ← save (effect (SaveJob who)) (store_job j);
                     save_account_receipt j) h
                end
  end.
Definition process_account_deletions (time : N) (order : list IdentityId) : HM string unit :=
  if lock_free "accounts" then for_each (process_job time) order else mret tt.

(** *** Requests *)

(** [status]: a receipt only says whether the erasure is over. *)
Definition receipt_status (h : Host) (receipt : string) : result StatusCode bool :=
  _ ← map_err (hex 16 receipt) BAD_REQUEST;
  ok_or (ht_receipts h !! receipt) NOT_FOUND.
Definition deletable (h : Host) (who : IdentityId) (e : AdminEvidence) (id : string)
    : result StatusCode unit :=
  '(sp, sv) ← map_err (find_client h id) SERVICE_UNAVAILABLE;
  _ ← map_err (account_deletion_intent sv (hs_config sp) who (Some e)) FORBIDDEN;
  Ok tt.
(** A job for the Spaces the account is in now. An account that is in none leaves no job. *)
Definition submit_deletion (who : IdentityId) (e : AdminEvidence) (order : list string)
    (draw : option string) (time : N) : HM StatusCode Outcome :=
  _ ← with_error (λ _, SERVICE_UNAVAILABLE) (erase_unprovisioned who order);
  h ← the_host;
  ids ← lifth (map_err (account_scopes h who) SERVICE_UNAVAILABLE);
  _ ← for_each (λ id, lifth (deletable h who e id)) ids;
  receipt ← lifth (map_err (random_hex draw) SERVICE_UNAVAILABLE);
  let j := {| jb_proof := Some e; jb_identity := who; jb_id := receipt; jb_requested_at := time;
              jb_completed_at := if bool_decide (ids = []) then Some time else None;
              jb_spaces := ids |} in
  _ ← (if bool_decide (ids = []) then mret tt
       else with_error (λ _, SERVICE_UNAVAILABLE) (save (effect (SaveJob who)) (store_job j)));
  mret (job_outcome j).
(** [request]; [endpoint] is [protocol::endpoint] of the public URL. *)
Definition account_request (endpoint : string) (request : AccountRequest) (order : list string)
    (draw : option string) (now time : N) : HM StatusCode Outcome :=
  h ← the_host;
  '(command, c) ← lifth (map_err (verify_deletion request endpoint now) BAD_REQUEST);
  found ← lifth (map_err (Revocations.get (ht_registry h) (vc_id c)) SERVICE_UNAVAILABLE);
  _ ← lifth (fail_if (bool_decide (is_Some found)) FORBIDDEN);
  _ ← lifth (fail_if (negb (lock_free "accounts")) SERVICE_UNAVAILABLE);
  let who := vc_identity c in
  outcome ← lifth (map_err (account_inspect h who) SERVICE_UNAVAILABLE);
  outcome ← (if (ac_action command === Submit) && bool_decide (oc_status outcome = Ready)
             then submit_deletion who {| ev_record := aq_record request;
                                         ev_credential := aq_credential request |} order draw time
             else mret outcome);
  _ ← (if bool_decide (oc_status outcome = WakeWire.Pending) then
         h ← the_host;
         j ← lifth (ok_or (ht_jobs h !! who) SERVICE_UNAVAILABLE);
         with_error (λ _, SERVICE_UNAVAILABLE) (save_account_receipt j)
       else mret tt);
  mret outcome.
End HostingSpaces.

(** ** Everything a host goes through *)

Section HostingRuns.
Context `{P : Platform} {SA : AuthoritySerde} {W : WitnessSerde} {X : ProtocolSerde}
  {U : UrlBase64} {HP : HostedPlatform} {HS : HostedSerde} {SC : Serde CreateCommand}
  {WS : WakeSerde}.

(** A process that starts: what was in memory is gone, the gate reads its floor again, and the
    directories are opened in the order they are listed. *)
Definition stopped (h : Host) : Host := with_allocations (with_spaces h ∅) ∅.
Definition reopen `{OU : Outside} `{D : Disk} (h : Host) (g : option Gate) (order : list string)
    (draws : string → string) : Host :=
  (load_spaces order draws (with_gate (stopped h) g)).1.
Definition gate_reopens (g g' : option Gate) : Prop :=
  match g with
  | None => g' = None
  | Some g => ∃ g1, gate_open (gt_pin g) (Some (gt_file g)) true Written = Ok g1 ∧ g' = Some g1
  end.

(** The host with the clock when it last looked at the day, every reservation it made (day,
    network and directory), and the reservations it signed tickets for. *)
Record HostLife := {
  hw_host : Host; hw_clock : N; hw_reserved : list (N * option string * string);
  hw_tickets : list string;
}.
Definition new_dirs (h h' : Host) : list string := elements (dom (ht_dirs h') ∖ dom (ht_dirs h)).
Definition reserved_network (h : Host) (id : string) : option string :=
  match ht_dirs h !! id with
  | Some d => match sd_reservation d with Holds r => re_creation_network r | _ => None end
  | None => None
  end.
(** After a handler that reserves, at [time]. *)
Definition after_reserve (w : HostLife) (time : N) (h : Host) (tickets : list string) : HostLife :=
  {| hw_host := h; hw_clock := time;
     hw_reserved := ((λ id, (time / 86400000, reserved_network h id, id))
                       <$> new_dirs (hw_host w) h) ++ hw_reserved w;
     hw_tickets := tickets ++ hw_tickets w |}.
Definition after (w : HostLife) (h : Host) : HostLife :=
  {| hw_host := h; hw_clock := hw_clock w; hw_reserved := hw_reserved w;
     hw_tickets := hw_tickets w |}.
Definition ticket_of {E A} (r : result E (string * A)) : list string :=
  match r with Ok (id, _) => [id] | Err _ => [] end.

(** Every handler runs under the locks of the code: creation, reservation cleanup and tickets
    exclude each other, and the erasure of accounts excludes commands and creations. The clock
    that dates a reservation does not go back. *)
Inductive hosting_step (w : HostLife) : HostLife → Prop :=
| step_create (OU : Outside) (D : Disk) request peer forwarded lease now draws clocks :
    hw_clock w ≤ ck_now clocks 0 →
    hosting_step w (after_reserve w (ck_now clocks 0)
      (create request peer forwarded lease now draws clocks (hw_host w)).1 [])
| step_prepare (OU : Outside) request peer forwarded mailbox password now time later :
    hw_clock w ≤ time →
    hosting_step w
      (let r := prepare request peer forwarded mailbox password now time later (hw_host w) in
       after_reserve w time r.1 (ticket_of r.2))
| step_command (OU : Outside) (D : Disk) id q lease draws clocks :
    hosting_step w (after w (command id q lease draws clocks (hw_host w)).1)
| step_finish (OU : Outside) id : hosting_step w (after w (finish_deletion id (hw_host w)).1)
| step_expire (OU : Outside) now order :
    hosting_step w (after w (expire_reservations_at now order (hw_host w)).1)
| step_account (OU : Outside) endpoint request order draw now time :
    hosting_step w (after w (account_request endpoint request order draw now time (hw_host w)).1)
| step_jobs (OU : Outside) (D : Disk) time order :
    hosting_step w (after w (process_account_deletions time order (hw_host w)).1)
| step_uploaded (D : Disk) id token current :
    hosting_step w (after w (on_client id (attachment_upload_complete token current) (hw_host w)).1)
| step_targets (D : Disk) id current limit :
    hosting_step w (after w (on_client id (attachment_cleanup_targets current limit) (hw_host w)).1)
| step_cleaned (D : Disk) id i time :
    hosting_step w (after w (on_client id (attachment_cleanup_complete i time) (hw_host w)).1)
| step_missing (D : Disk) id i time :
    hosting_step w (after w (on_client id (attachment_mark_missing i time) (hw_host w)).1)
| step_gate g l encoded instant now instant' now' wr :
    ht_witness (hw_host w) = Some g →
    hosting_step w (after w (with_gate (hw_host w)
      (Some (require_end g l encoded instant now instant' now' wr).1)))
| step_restart (OU : Outside) (D : Disk) g' order draws :
    gate_reopens (ht_witness (hw_host w)) g' →
    order ≡ₚ elements (dom (ht_dirs (hw_host w))) →
    hosting_step w (after w (reopen (hw_host w) g' order draws)).
Definition hosting_run : HostLife → HostLife → Prop := rtc hosting_step.

End HostingRuns.
