(* ===== verification/HostedChanges.v ===== *)
(** * What may happen to a hosted Space

    The abstract specification of the hosting service: one step for every way its authority
    and its state change, with what the code has checked before. [HostedTracks] proves that
    every handler only takes such steps. *)

From S2P Require Import Prelude Sums Platform Ids Record Chat Identity AuthorityData AuthorityWitness Authority AuthorityProof WitnessWire CallWire Attachments WakeWire Revocations HostedRoles HostedState HostedAccess HostedFiles HostedCalls HostedAdmission HostedService HostedWitness.

Section HostedChanges.
Context `{P : Platform} {SA : AuthoritySerde} {W : WitnessSerde} {U : UrlBase64}
  {HP : HostedPlatform} {HS : HostedSerde}.

(** A command signed by a credential. *)
Record Signed (c : VerifiedCredential) (signed : SignedRecord) (command : Command) : Prop := {
  au_credential : ∃ text, verify_credential text = Ok c;
  au_record : ∃ text, decode_record text = Ok signed;
  au_signature : verify_signature signed (vc_key c) = Ok tt;
  au_command : decode (T := Command) signed = Ok command;
  au_kind : hc_kind command = "space.command";
}.
(** Its intent is in the journal, unless its action is not journaled. *)
Definition recorded_intent (st : ServiceState) (c : VerifiedCredential) (signed : SignedRecord)
    (command : Command) : Prop :=
  journaled (hc_action command) = true → in_journal st (ev_record (evidence_of signed c)) = true.
Record OwnerCommand (a : Authority) (st : ServiceState) (c : VerifiedCredential)
    (signed : SignedRecord) (command : Command) : Prop := {
  oc_signed : Signed c signed command;
  oc_recorded : recorded_intent st c signed command;
  oc_manage : can_manage a (vc_id c) = true;
  oc_owner : ∃ r, st_roles st = Some r ∧ is_owner r (vc_identity c) = true;
}.

(** One row of the attachments, its tokens or its policy changed. *)
Inductive file_change : ServiceState → ServiceState → Prop :=
| file_reserve st c body t draw st' reply :
    is_erased st (vc_identity c) = false →
    reserve st c body t draw = Ok (st', reply) → file_change st st'
| file_cancel st c body st' : cancel st c body = Ok (Some st') → file_change st st'
| file_commit st c body st' : commit st c body = Ok st' → file_change st st'
| file_link st c body st' : link st c body = Ok st' → file_change st st'
| file_download st c body t draw st' reply :
    download st c body t draw = Ok (Some st', reply) → file_change st st'
| file_retention st body st' : set_retention st body = Ok st' → file_change st st'
| file_cleanup st body t st' reply : cleanup st body t = Ok (st', reply) → file_change st st'
| file_uploaded st token t st' : uploaded st token t = Ok st' → file_change st st'
| file_pass st t : file_change st (cleanup_pass st t)
| file_finish st id t st' : finish_cleanup st id t = Ok st' → file_change st st'
| file_missing st id t st' : mark_missing st id t = Ok st' → file_change st st'
| file_enabled st b :
    file_change st (with_attachment_policy st (policy_enabled (st_attachment_policy st) b))
| file_tokens st (p : string → AttachmentAccess → bool) :
    file_change st (with_attachment_access st (delete_all p (st_attachment_access st))).

(** Why a device that is not in General yet may be added without a decision; [t] is the clock
    its command reads. *)
Inductive admissible (sv : Service) (st : ServiceState) (c : VerifiedCredential)
    (command : Command) (t : N) (invitation : string) : string → Prop :=
| admissible_present :
    device_admitted sv (vc_id c) = true → admissible sv st c command t invitation "approved"
| admissible_decision : admissible sv st c command t invitation "pending"
(** The open invitation it names, which needs no decision, or an owner's own device. *)
| admissible_invited o declined :
    HostedRoles.field (hc_body command) "token" = Ok (of_token o) →
    st_offers st !! invitation = Some o → offer_open t o = true →
    device_was_declined st (display (vc_id c)) = Ok declined →
    needs_decision st (vc_identity c) declined
      (can_manage (sv_authority sv) (vc_id c)
       && match st_roles st with Some r => is_owner r (vc_identity c) | None => false end) o = false →
    admissible sv st c command t invitation "eligible"
(** A device linked to a member. *)
| admissible_linked h :
    invitation = "" → head_config (sv_authority sv) = Ok h →
    is_Some (authorizing_device c) → device_was_declined st (display (vc_id c)) = Ok false →
    has_applicant st (vc_identity c) ["approved"] = true ∨ has_device h (vc_identity c) (vc_id c) = true →
    admissible sv st c command t invitation "eligible".

(** A request may be refreshed, or brought before the owners. *)
Definition refreshes (a b : Applicant) : Prop :=
  ap_identity b = ap_identity a ∧ ap_authorization b = ap_authorization a
  ∧ ap_invitation b = ap_invitation a
  ∧ (ap_status b = ap_status a ∨ ap_status a = "eligible" ∧ ap_status b = "pending").

(** One change, while the host answers the command [x], or none. *)
Inductive change (trusted : option WitnessPin) (x : option Command) :
    Authority * ServiceState → Authority * ServiceState → Prop :=
| change_revocation sv st h id st' :
    head_config (sv_authority sv) = Ok h → id ∈ head_credentials h →
    revocation_step sv st id = Ok st' →
    change trusted x (sv_authority sv, st) (sv_authority sv, st')
| change_file a st st' : file_change st st' → change trusted x (a, st) (a, st')
| change_prune a st t : change trusted x (a, st) (a, prune_applicants st t)
| change_intent a st c signed command st' :
    x = Some command → journaled (hc_action command) = true →
    Signed c signed command → append_intent st (evidence_of signed c) = Ok st' →
    change trusted x (a, st) (a, st')
| change_forget a st (p : string → N * string * Reply → bool) :
    change trusted x (a, st) (a, with_replies st (delete_all p (st_replies st)))
| change_forget_all a st : change trusted x (a, st) (a, with_replies st ∅)
| change_claimed a st : change trusted x (a, st) (a, with_claimed st true)
| change_email a st c signed command r email :
    x = Some command → hc_action command = "contact_update" →
    Signed c signed command → st_roles st = Some r → ro_primary r = vc_identity c →
    validate_contact_email email = Ok tt →
    change trusted x (a, st) (a, with_roles st (Some (with_email r (Some email))))
| change_invited a st c signed command t st' y :
    x = Some command → hc_action command = "invite" → OwnerCommand a st c signed command →
    invited st (evidence_of signed c) (hc_body command) t = Ok (st', y) →
    change trusted x (a, st) (a, st')
| change_revoke_offer a st c signed command t st' :
    x = Some command → hc_action command = "revoke" → OwnerCommand a st c signed command →
    revoked_offer st (hc_body command) t = Ok st' →
    change trusted x (a, st) (a, st')
| change_close_offers a st t :
    x = None →
    change trusted x (a, st) (a, with_offers st (delete_all (λ _ o, negb (offer_open t o)) (st_offers st)))
(** The invitation of the creation. *)
| change_creation_offer a st id o :
    x = None → N.of_nat (size (st_offers st)) < 128 → of_authorization o = st_creation st →
    of_revoked o = false →
    change trusted x (a, st) (a, with_offers st (<[id := o]> (st_offers st)))
| change_request sv st c signed command name word invitation note r t :
    x = Some command → hc_action command = "join" ∨ hc_action command = "status" →
    Signed c signed command → is_erased st (vc_identity c) = false →
    may_request st (display (vc_id c)) = true →
    require_applicant_capacity st (vc_identity c) invitation (negb (device_admitted sv (vc_id c)))
      = Ok tt →
    admissible sv st c command t invitation word →
    change trusted x (sv_authority sv, st)
      (sv_authority sv, with_applicant st (display (vc_id c))
                          (new_applicant (vc_identity c) name word invitation note r t))
| change_refresh a st key b b' :
    st_applicants st !! key = Some b → refreshes b b' →
    change trusted x (a, st) (a, with_applicant st key b')
| change_decided sv st c signed command st' :
    x = Some command → hc_action command = "decide" → OwnerCommand (sv_authority sv) st c signed command →
    decided sv st (vc_identity c) (evidence_of signed c) (hc_body command) = Ok st' →
    change trusted x (sv_authority sv, st) (sv_authority sv, st')
| change_role sv st c signed command members r r' answer st' :
    x = Some command → hc_action command = "role_change" ∨ hc_action command = "role_decide" →
    Signed c signed command → recorded_intent st c signed command →
    space_role_members sv st = Ok members → st_roles st = Some r →
    apply_with_id r (vc_identity c) (hc_action command) (hc_body command) members
      = Ok (r', answer) →
    changed_state sv st r' answer = Ok st' →
    change trusted x (sv_authority sv, st) (sv_authority sv, st')
| change_publish replica sv st c signed command seconds proof next :
    x = Some command → hc_action command = "authority_publish" →
    trusted = None → Signed c signed command → is_erased st (vc_identity c) = false →
    check_publication replica sv st c (hc_body command) seconds = Ok (proof, next) →
    change trusted x (sv_authority sv, st) (next, published_state st proof next)
| change_erase sv cfg who e st append st' :
    x = None → account_deletion_intent sv cfg who (Some e) = Ok (st, append) →
    erased_state st append who e = Ok st' →
    change trusted x (sv_authority sv, st) (sv_authority sv, st')
| change_head sv st c sp stream_ proof st' h :
    is_erased st (vc_identity c) = false →
    may_publish_head sv st c = Ok tt →
    record_head sv st c sp stream_ proof = Ok (st', h) →
    change trusted x (sv_authority sv, st) (sv_authority sv, st')
| change_notes a st who proof stored expected next :
    is_erased st who = false →
    stored = st_notes st !! who →
    verify_notes proof a who = Ok next →
    notes_update a who next stored expected (N.of_nat (size (st_notes st))) = Ok true →
    change trusted x (a, st) (a, with_notes st (<[who := proof]> (st_notes st)))
| change_sync sv0 sv cfg st c command pin f instant time later next st' key :
    x = Some command → hc_action command = "witness_sync" → trusted = Some pin →
    sv_trusted_witness sv0 = Some pin → sv_authority sv0 = sv_authority sv →
    is_erased st (vc_identity c) = false →
    general_member next (vc_id c) = Some (vc_identity c) →
    synchronised_authority sv0 c (hc_body command) time = Ok next →
    lease_covers pin next f instant time = true →
    synchronised_state sv cfg st next (hc_body command) later = Ok (st', key) →
    change trusted x (sv_authority sv, st) (next, st')
| change_relay sv cfg st c command now st' reply :
    relay_result sv cfg st c command now = Ok (st', reply) →
    change trusted x (sv_authority sv, st) (sv_authority sv, st')
| change_expire_requests a st now : change trusted x (a, st) (a, drop_expired_requests st now).

Definition changes (trusted : option WitnessPin) (x : option Command) := rtc (change trusted x).

(** A request is more: its answer may be kept, for as long as its nonce is. *)
Inductive host_change (trusted : option WitnessPin) :
    Authority * ServiceState → Authority * ServiceState → Prop :=
| host_does y w w' : change trusted y w w' → host_change trusted w w'
| host_replies a st c nonce x :
    N.of_nat (size (st_replies st)) < 8192 → replies_of st c < 256 →
    host_change trusted (a, st)
      (a, with_replies st (<[reply_prefix c +:+ nonce := x]> (st_replies st))).
Definition host_changes (trusted : option WitnessPin) := rtc (host_change trusted).

End HostedChanges.

(** * Which parts of a hosted Space a change touches

    The state each function of a change returns, written over the state it was given. *)


Section HostedFrames.
Context `{P : Platform} {SA : AuthoritySerde} {W : WitnessSerde} {U : UrlBase64}
  {HP : HostedPlatform} {HS : HostedSerde}.

(** Only the files differ. *)
Definition with_files (st : ServiceState) (p : AttachmentPolicy)
    (m : gmap AttachmentId HostedAttachment) (t : gmap string AttachmentAccess) : ServiceState :=
  with_attachment_policy (with_attachments (with_attachment_access st t) m) p.
Definition same_but_files (st st' : ServiceState) : Prop :=
  st' = with_files st (st_attachment_policy st') (st_attachments st') (st_attachment_access st').

Ltac same_files := unfold same_but_files; match goal with
  | |- ?x = with_files ?st _ _ _ => destruct st; reflexivity
  end.
Lemma cleanup_pass_frame st t : same_but_files st (cleanup_pass st t).
Proof.
  unfold cleanup_pass. generalize (forgotten st t). intros l.
  set (st1 := with_attachments _ _).
  assert (same_but_files st st1) as H1 by same_files. clearbody st1. revert st1 H1.
  induction l as [|id l IH]; intros st1 H1; [done|]. cbn [foldl]. apply IH.
  unfold same_but_files in H1. rewrite H1. same_files.
Qed.
Lemma file_change_frame st st' : file_change st st' → same_but_files st st'.
Proof.
  destruct 1 as [??????? _ H|???? H|???? H|???? H|??????? H|??? H|????? H|???? H|?? |???? H|???? H|??|??].
  - unfold reserve in H. inv_ok. simplify_eq. same_files.
  - unfold cancel in H. step H i Hi. destruct (st_attachments st !! i) as [a|]; [|done]. inv_ok. simplify_eq.
    destruct (is_terminal a); same_files.
  - unfold commit in H. inv_ok. same_files.
  - unfold link in H. inv_ok. same_files.
  - unfold download in H. step H i Hi. destruct (st_attachments st !! i) as [a|]; [|done].
    destruct (availability a _) as [[]|]; try done. inv_ok. simplify_eq. same_files.
  - unfold set_retention in H. inv_ok. same_files.
  - unfold cleanup in H. inv_ok. simplify_eq. same_files.
  - unfold uploaded in H. inv_ok. same_files.
  - apply cleanup_pass_frame.
  - unfold finish_cleanup in H. inv_ok. same_files.
  - unfold mark_missing in H. inv_ok. same_files.
  - same_files.
  - same_files.
Qed.

Lemma file_change_state st st' :
  file_change st st' → ∃ p m t, st' = with_files st p m t.
Proof. intros H%file_change_frame. eauto. Qed.

Lemma append_intent_frame st e st' :
  append_intent st e = Ok st' →
  in_journal st' (ev_record e) = true
  ∧ (st' = st ∨ in_journal st (ev_record e) = false ∧ nlen (st_journal st) < 4096 ∧ st' = push_journal st e).
Proof.
  unfold append_intent. destruct (in_journal st (ev_record e)) eqn:Hi.
  - intros [= <-]. split; [done|by left].
  - intros H. inv_ok. ordered. split; [|by right].
    unfold in_journal. cbn. rewrite existsb_app. cbn. rewrite bool_decide_eq_true_2 by done.
    by rewrite orb_true_r.
Qed.

Lemma invited_frame st e body t st' x :
  invited st e body t = Ok (st', x) →
  ∃ id o, st' = with_offers st (<[id := o]> (st_offers (drop_closed_offers st t)))
          ∧ st_offers (drop_closed_offers st t) !! id = None
          ∧ N.of_nat (size (st_offers (drop_closed_offers st t))) < 128
          ∧ of_authorization o = Some e ∧ of_revoked o = false.
Proof.
  unfold invited. intros H. inv_ok. simplify_eq. ordered.
  match goal with |- context [<[?i := ?o]> _] => exists i, o end.
  split; [|split; [|split; [done|split; reflexivity]]].
  - unfold drop_closed_offers. destruct (128 <=? _); [|done]. by destruct st.
  - by apply eq_None_not_Some.
Qed.

Lemma revoked_offer_frame st body t st' :
  revoked_offer st body t = Ok st' →
  ∃ id o, st_offers st !! id = Some o
          ∧ st' = prune_applicants (with_offers st (<[id := revoke_offer o]> (st_offers st))) t.
Proof. unfold revoked_offer. intros H. inv_ok. eauto. Qed.

Lemma decided_frame sv st who e body st' :
  decided sv st who e body = Ok st' →
  ∃ id a approve,
    st_applicants st !! id = Some a ∧ ap_status a = "pending"
    ∧ value_as_bool (value_index body "approve") = Some approve
    ∧ HostedRoles.field body "id" = Ok id
    ∧ (approve = true → approval_allowed sv st who body = Ok tt)
    ∧ st' = with_applicant st id
        (set_authorization (set_note (set_status a (if approve then "eligible" else "declined")) "")
           (Some e)).
Proof.
  unfold decided. intros H. step H u Hu. inv_ok. eexists _, _, _.
  repeat (split; [done|]). split; [|done]. intros ->.
  match goal with H : value_as_bool ?v = Some true |- _ => destruct v; try done end.
  cbn in *. simplify_eq. by destruct u.
Qed.

Lemma next_epoch_frame st who st' :
  next_epoch st who = Ok st' →
  st' = with_removals st (<[who := epoch_of st who + 1]> (st_removals st)).
Proof. unfold next_epoch. intros H. inv_ok. apply checked_add_Some in Hx as [-> _]. done. Qed.

Lemma retire_member_frame r who r' :
  retire_member r who = Ok r' →
  who ≠ ro_primary r ∧ ro_primary r' = ro_primary r ∧ ro_revision r' = ro_revision r
  ∧ ro_contact_email r' = ro_contact_email r ∧ ro_owners r' = ro_owners r ∖ {[who]}.
Proof. unfold retire_member. intros H. inv_ok. done. Qed.

Lemma changed_state_frame sv st r answer st' :
  changed_state sv st r answer = Ok st' →
  match ra_removed_identity answer with
  | None => st' = with_roles st (Some r)
  | Some who => ∃ h r', head (sv_authority sv) = Some h ∧ retire_member r who = Ok r'
      ∧ st' = with_roles (remove_applicants (with_removal_heads
                (with_removals st (<[who := epoch_of st who + 1]> (st_removals st)))
                (<[who := h]> (st_removal_heads st))) who) (Some r')
  end.
Proof.
  unfold changed_state. destruct (ra_removed_identity answer) as [who|]; [|by intros [= <-]].
  unfold removed_state. intros H. step H st1 H1. apply next_epoch_frame in H1 as ->.
  step H h Hh. apply ok_or_Ok in Hh. step H r1 Hr1. apply ok_or_Ok in Hr1.
  step H r2 Hr2. injection H as <-. cbn in Hr1. injection Hr1 as <-. exists h, r2.
  split; [done|]. split; [done|]. by destruct st.
Qed.

(** The journal, the deleted accounts and what belonged to one. *)
Lemma erased_state_frame st append who e st' :
  erased_state st append who e = Ok st' →
  ∃ roles,
    transpose ((λ r, retire_member r who) <$> st_roles st) = Ok roles
    ∧ st' = with_replies (with_roles (with_notes (with_applicants (with_removals
              (with_erased_accounts (with_account_deletions
                 (with_journal st (if append then st_journal st ++ [e] else st_journal st))
                 (<[who := e]> (st_account_deletions st))) ({[who]} ∪ st_erased_accounts st))
              (if is_erased st who then st_removals st
               else <[who := epoch_of st who + 1]> (st_removals st)))
              (delete_all (λ _ a, ap_identity a === who) (st_applicants st)))
              (delete who (st_notes st))) roles) ∅.
Proof.
  unfold erased_state. intros H. step H st1 H1. step H roles Hroles. injection H as <-.
  exists roles. cbv zeta in H1.
  destruct (is_erased (with_account_deletions _ _) who) eqn:Hx in H1.
  all: assert (is_erased st who = is_erased (with_account_deletions
    (if append then push_journal st e else st)
    (<[who := e]> (st_account_deletions (if append then push_journal st e else st)))) who) as He
    by (by destruct append).
  all: rewrite Hx in He; rewrite He.
  - injection H1 as <-. split; [by destruct append|].
    assert ({[who]} ∪ st_erased_accounts st = st_erased_accounts st) as ->.
    { apply bool_decide_eq_true in He. set_solver. }
    destruct append; by destruct st.
  - apply next_epoch_frame in H1 as ->. split; [by destruct append|].
    destruct append; by destruct st.
Qed.

Lemma record_head_frame sv st c sp stream_ proof st' h :
  record_head sv st c sp stream_ proof = Ok (st', h) →
  ∃ x, st' = with_call_heads st (<[head_key sp stream_ := x]> (st_call_heads st)).
Proof. unfold record_head. intros H. inv_ok. simplify_eq. eauto. Qed.

Lemma relay_result_frame sv cfg st c command now st' reply :
  relay_result sv cfg st c command now = Ok (st', reply) →
  ∃ m, st' = with_witness_requests st m.
Proof.
  assert (∃ m, st = with_witness_requests st m) as Hsame
    by (exists (st_witness_requests st); by destruct st).
  unfold relay_result. intros H. repeat case_bool_decide.
  - unfold relay_request in H. step H packet Hp. step H candidate Hc. step H u Hu.
    destruct (st_witness_requests st !! da_request_id packet); inv_ok; simplify_eq; [done|]. by eexists.
  - by inv_ok; simplify_eq.
  - by inv_ok; simplify_eq.
  - unfold relay_decision in H. step H u Hu. step H i Hi. step H p Hp. step H u2 Hu2.
    step H p2 Hp2. injection H as <- _. by eexists.
Qed.

(** A retired device is recorded, with its proof in the journal. *)
Lemma revocation_step_frame sv st id st' :
  revocation_step sv st id = Ok st' →
  st' = st
  ∨ ∃ proof j, Revocations.get (sv_registry sv) id = Ok (Some proof)
      ∧ st' = with_revocation_proofs (with_journal (with_revoked st ({[id]} ∪ st_revoked st)) j)
                (<[id := base64_encode (sr_bytes proof)]> (st_revocation_proofs st))
      ∧ (j = st_journal st ∧ in_journal st (base64_encode (sr_bytes proof)) = true
         ∨ ∃ target, j = st_journal st
                        ++ [{| ev_record := base64_encode (sr_bytes proof);
                               ev_credential := base64_encode (sr_bytes (vc_record target)) |}]
             ∧ revocation_verify proof = Ok target ∧ nlen (st_journal st) < 4096
             ∧ in_journal st (base64_encode (sr_bytes proof)) = false).
Proof.
  unfold revocation_step. intros H. step H found Hf. destruct found as [proof|]; [|by injection H; left].
  right. exists proof. step H st1 H1. injection H as <-.
  change (in_journal (with_revoked st _) ?x) with (in_journal st x) in H1.
  destruct (in_journal st (base64_encode (sr_bytes proof))) eqn:Hj.
  - injection H1 as <-. exists (st_journal st). split; [done|]. split; [by destruct st|]. by left.
  - step H1 u Hu. ordered. step H1 target Ht. injection H1 as <-.
    eexists (st_journal st ++ [_]). split; [done|]. split; [destruct st; reflexivity|]. right. exists target.
    split; [done|]. inv_ok. ordered. done.
Qed.

Lemma try_fold_keeps {S A} (R : S → S → Prop) (f : S → A → result string S) l s s' :
  Reflexive R → Transitive R → (∀ s x s', x ∈ l → f s x = Ok s' → R s s') →
  try_fold f s l = Ok s' → R s s'.
Proof.
  intros Hr Ht Hf. apply (try_fold_inv (R s)); [|done].
  intros s1 x s2 Hx H1 H2. etrans; [done|]. by eapply Hf.
Qed.
Definition only_removals (st st' : ServiceState) : Prop :=
  (∃ m n, st' = with_removal_heads (with_removals st m) n)
  ∧ ∀ who, epoch_of st who ≤ epoch_of st' who.
#[local] Instance only_removals_reflexive : Reflexive only_removals.
Proof.
  intros st. split; [|done]. exists (st_removals st), (st_removal_heads st). by destruct st.
Qed.
#[local] Instance only_removals_transitive : Transitive only_removals.
Proof.
  intros a b c [(m & n & ->) H1] [(m2 & n2 & ->) H2]. split; [by exists m2, n2|].
  intros who. etrans; [apply H1|apply H2].
Qed.
Lemma next_epoch_grows st who other :
  epoch_of st other
    ≤ epoch_of (with_removals st (<[who := epoch_of st who + 1]> (st_removals st))) other.
Proof.
  unfold epoch_of. cbn. destruct (decide (other = who)) as [->|].
  - rewrite lookup_insert_eq. cbn. lia.
  - by rewrite lookup_insert_ne.
Qed.
Lemma transition_removals_frame next st t st' :
  transition_removals next st t = Ok st' → only_removals st st'.
Proof.
  unfold transition_removals. intros H. step H parent Hp. step H prior Hc. revert H.
  apply try_fold_keeps; [apply _..|]. intros s m s' _ H. destruct (has_identity _ _).
  - by injection H as <-.
  - step H s1 H1. injection H as <-. apply next_epoch_frame in H1 as ->.
    split; [by eexists _, _|]. apply next_epoch_grows.
Qed.

Lemma swap_front {A} (l : list A) k x y :
  l !! k = Some x → hd_error l = Some y →
  hd_error (<[0%nat := x]> (<[k := y]> l)) = Some x ∧ <[0%nat := x]> (<[k := y]> l) ≡ₚ l.
Proof.
  destruct l as [|z l]; [done|]. intros Hk [= ->]. destruct k as [|k].
  - by injection Hk as ->.
  - split; [done|]. change (x :: <[k := y]> l ≡ₚ y :: l). change (l !! k = Some x) in Hk.
    rewrite insert_take_drop by (by apply lookup_lt_Some in Hk).
    trans (y :: take k l ++ x :: drop (S k) l); [|by rewrite take_drop_middle].
    rewrite <-!Permutation_middle. apply Permutation_swap.
Qed.
Lemma witnessed_roles_frame cfg st next r :
  witnessed_roles cfg st next = Ok r →
  primary_owner_identity next = Ok (ro_primary r)
  ∧ (∀ old, st_roles st = Some old → ro_primary old = ro_primary r)
  ∧ is_owner r (ro_primary r) = true ∧ ro_pending r = ∅
  ∧ ∃ h, head_config next = Ok h ∧ ro_revision r = sc_sequence h ∧ ro_owners r = managers h.
Proof.
  unfold witnessed_roles. intros H. step H h Hh. step H primary Hp. step H u Hu.
  step H index Hi. step H r0 Hr. injection H as <-. apply fail_if_Ok in Hu. inv_ok.
  destruct (list_find _ _) as [[k w]|] eqn:Hf; [|done]. injection Hi as ->.
  apply list_find_Some in Hf as (Hk & -> & _).
  set (owners := m_identity_id <$> _) in *.
  destruct owners as [|y l] eqn:Ho; [done|]. change (default primary (hd_error (y :: l))) with y in Hr.
  destruct (swap_front (y :: l) index primary y Hk eq_refl) as [Hhd Hperm].
  unfold bootstrap in Hr. rewrite Hhd in Hr. injection Hr as <-. cbn.
  split; [done|]. split.
  { intros old Hold. rewrite Hold in Hu. by apply negb_false_iff, bool_decide_eq_true in Hu. }
  split; [|split; [done|]].
  - apply bool_decide_eq_true. cbn. apply elem_of_list_to_set. rewrite Hperm.
    apply list_elem_of_lookup. eauto.
  - exists h. split; [done|]. split; [done|]. unfold managers. fold owners. rewrite Ho.
    by rewrite Hperm.
Qed.

Lemma synchronised_state_frame sv cfg st next body time st' key :
  synchronised_state sv cfg st next body time = Ok (st', key) →
  ∃ h st1 r proof who name request,
    head_config next = Ok h
    ∧ try_fold (λ _ m, restorable sv st m) tt (sc_members h) = Ok tt
    ∧ only_removals st st1
    ∧ witnessed_roles cfg st next = Ok r ∧ call_proof next = Ok proof
    ∧ read_enrollment body = Ok request
    ∧ (∃ device, space_applicant sv request time = Ok (who, device, name) ∧ key = display device)
    ∧ st' = with_replies (with_offers (with_claimed (with_proof (with_roles (with_applicants st1
              (<[key := new_applicant who name "approved" "" "" request time]>
                 (update_all (witnessed_applicant next) (st_applicants st)))) (Some r)) proof)
              true) ∅) ∅.
Proof.
  unfold synchronised_state. intros H. step H h Hh. step H u Hu. step H path Hp. step H st1 Hst1.
  step H r Hr. step H request Hq. step H p Happ. destruct p as [[who device] name].
  step H u2 Hu2. step H proof Hpr. injection H as <- <-.
  assert (only_removals st st1) as Hst.
  { revert Hst1. apply try_fold_keeps; [apply _..|]. intros ????. apply transition_removals_frame. }
  destruct Hst as [(m & n & ->) He]. destruct u. exists h. eexists _, r, proof, who, name, request.
  inv_ok. split; [done|]. split; [done|]. split; [by split; [by eexists _, _|]|].
  repeat (split; [done|]). split; [eauto|]. done.
Qed.

End HostedFrames.

(** Every change of the context as an equation on the state it leaves. *)
Ltac frames := repeat match goal with
  | H : revocation_step _ _ _ = Ok _ |- _ =>
      let E := fresh "Hrevoked" in
      apply revocation_step_frame in H as [->|(? & ? & ? & -> & E)]
  | H : file_change _ _ |- _ => apply file_change_state in H as (? & ? & ? & ->)
  | H : append_intent _ _ = Ok _ |- _ =>
      apply append_intent_frame in H as [_ [->|(? & ? & ->)]]
  | H : invited _ _ _ _ = Ok _ |- _ =>
      apply invited_frame in H as (? & ? & -> & ? & ? & ? & ?)
  | H : revoked_offer _ _ _ = Ok _ |- _ => apply revoked_offer_frame in H as (? & ? & ? & ->)
  | H : decided _ _ _ _ _ = Ok _ |- _ =>
      apply decided_frame in H as (? & ? & ? & ? & ? & ? & ? & ? & ->)
  | H : changed_state _ _ _ ?answer = Ok _ |- _ =>
      apply changed_state_frame in H; destruct (ra_removed_identity answer) eqn:?;
      [destruct H as (? & ? & ? & ? & ->)|subst]
  | H : erased_state _ _ _ _ = Ok _ |- _ => apply erased_state_frame in H as (? & ? & ->)
  | H : record_head _ _ _ _ _ _ = Ok _ |- _ => apply record_head_frame in H as [? ->]
  | H : synchronised_state _ _ _ _ _ _ = Ok _ |- _ =>
      apply synchronised_state_frame in H
        as (? & ? & ? & ? & ? & ? & ? & ? & ? & [(? & ? & ->) ?] & ? & ? & ? & (? & ? & ->) & ->)
  | H : relay_result _ _ _ _ _ _ = Ok _ |- _ => apply relay_result_frame in H as [? ->]
  end.
