(* ===== verification/HostedTracks.v ===== *)
(** * The handlers of a hosted Space take the steps of its specification

    A weakest-precondition calculus for the handler monad, and the refinement: whatever a
    request, a host or a restart does to the service is a sequence of [change]s. *)

From S2P Require Import Prelude Sums Platform Ids Record Chat Identity AuthorityData AuthorityWitness Authority AuthorityProof WitnessWire CallWire Attachments WakeWire Revocations HostedRoles HostedState HostedAccess HostedFiles HostedCalls HostedAdmission HostedService HostedWitness HostedChanges.

(** ** Weakest preconditions *)

Definition wp {A} (m : M A) (sv : Service) (Q : Service → result string A → Prop) : Prop :=
  Q (m sv).1 (m sv).2.

Lemma wp_ret {A} (a : A) sv Q : Q sv (Ok a) → wp (mret a) sv Q.
Proof. done. Qed.
Lemma wp_bind {A B} (m : M A) (f : A → M B) sv (Q : Service → result string B → Prop) :
  wp m sv (λ sv' r, match r with Ok a => wp (f a) sv' Q | Err e => Q sv' (Err e) end) →
  wp (m ≫= f) sv Q.
Proof. unfold wp, mbind, M_bind. destruct (m sv) as [sv' [a|e]]; done. Qed.
Lemma wp_lift {A} (r : result string A) sv (Q : Service → result string A → Prop) :
  Q sv r → wp (lift r) sv Q.
Proof. done. Qed.
Lemma wp_lift_bind {A B} (r : result string A) (f : A → M B) sv
    (Q : Service → result string B → Prop) :
  (∀ e, Q sv (Err e)) → (∀ a, r = Ok a → wp (f a) sv Q) → wp (lift r ≫= f) sv Q.
Proof. intros He Ha. apply wp_bind, wp_lift. destruct r; [by apply Ha|apply He]. Qed.
Lemma wp_self_bind {B} (f : Service → M B) sv (Q : Service → result string B → Prop) :
  wp (f sv) sv Q → wp (self ≫= f) sv Q.
Proof. done. Qed.
Lemma wp_mono {A} (m : M A) sv (Q R : Service → result string A → Prop) :
  wp m sv Q → (∀ sv' r, Q sv' r → R sv' r) → wp m sv R.
Proof. intros H HQ. by apply HQ. Qed.

Section HostedTracks.
Context `{P : Platform} {SA : AuthoritySerde} {W : WitnessSerde} {U : UrlBase64}
  {HP : HostedPlatform} {HS : HostedSerde}.

(** ** Reached states *)

Section Reached.
(** Nothing is saved before the first save: the file holds [base]. *)
Context (trusted : option WitnessPin) (asked : option Command) (w0 : Authority * ServiceState)
  (base : ServiceState).

Definition reached (sv : Service) (st : ServiceState) : Prop :=
  changes trusted asked w0 (sv_authority sv, st).
(** The service is one of those the specification allows. *)
Definition tracked (sv : Service) : Prop :=
  sv_trusted_witness sv = trusted
  ∧ (reached sv (sv_stored sv) ∨ sv_authority sv = w0.1 ∧ sv_stored sv = base).
Definition outcome {B} (sv : Service) (r : result string (ServiceState * B)) : Prop :=
  tracked sv ∧ ∀ st b, r = Ok (st, b) → reached sv st.

Lemma reached_step sv st st' :
  reached sv st → change trusted asked (sv_authority sv, st) (sv_authority sv, st') → reached sv st'.
Proof. intros H Hc. by eapply rtc_r. Qed.

Lemma wp_save {D : Disk} {B} st (f : unit → M B) sv Q :
  tracked sv → reached sv st →
  (∀ e, Q sv (Err e)) →
  (∀ sv', tracked sv' → sv_authority sv' = sv_authority sv → sv_registry sv' = sv_registry sv →
          sv_stored sv' = st → wp (f tt) sv' Q) →
  wp (save_service_state st ≫= f) sv Q.
Proof.
  intros Ht Hst He Hk. apply wp_bind. unfold wp at 1, save_service_state.
  destruct (STATE_LIMIT <? _); [by apply He|]. destruct (disk_state st); [|by apply He].
  apply Hk; [|done..]. destruct Ht. split; [done|by left].
Qed.

Lemma outcome_Err {B} sv e : tracked sv → outcome (B := B) sv (Err e).
Proof. by split. Qed.
Lemma outcome_Ok {B} sv st (b : B) : tracked sv → reached sv st → outcome sv (Ok (st, b)).
Proof. split; [done|]. by intros ?? [= <- <-]. Qed.

(** What every handler guarantees. *)
Definition answers {B} (m : M (ServiceState * B)) (sv : Service) : Prop :=
  wp m sv (outcome (B := B)).

Lemma answers_lift_bind {A B} (r : result string A) (f : A → M (ServiceState * B)) sv :
  tracked sv → (∀ a, r = Ok a → answers (f a) sv) → answers (lift r ≫= f) sv.
Proof. intros Ht Ha. apply wp_lift_bind; [|done]. intros e. by apply outcome_Err. Qed.
Lemma answers_save {D : Disk} {B} st (f : unit → M (ServiceState * B)) sv :
  tracked sv → reached sv st →
  (∀ sv', tracked sv' → sv_authority sv' = sv_authority sv → sv_registry sv' = sv_registry sv →
          sv_stored sv' = st → answers (f tt) sv') →
  answers (save_service_state st ≫= f) sv.
Proof. intros Ht Hst Hk. apply wp_save; [done..| |done]. intros e. by apply outcome_Err. Qed.
Lemma answers_ret {B} sv st (b : B) : tracked sv → reached sv st → answers (mret (st, b)) sv.
Proof. apply outcome_Ok. Qed.
Lemma answers_lift_ret {B} (r : result string B) sv st :
  tracked sv → reached sv st → answers (x ← lift r; mret (st, x)) sv.
Proof. intros Ht Hst. apply answers_lift_bind; [done|]. intros x _. by apply answers_ret. Qed.
Lemma reached_same sv sv' st :
  sv_authority sv' = sv_authority sv → reached sv st → reached sv' st.
Proof. unfold reached. by intros ->. Qed.

(** *** Attachments *)

Lemma reached_file sv st st' : reached sv st → file_change st st' → reached sv st'.
Proof. intros H Hf. by eapply reached_step, change_file. Qed.
Lemma saving_answers {D : Disk} r st sv :
  tracked sv → reached sv st → (∀ st' reply, r = Ok (st', reply) → file_change st st') →
  answers (saving r) sv.
Proof.
  intros Ht Hst Hr. apply answers_lift_bind; [done|]. intros [st' reply] Heq.
  apply Hr in Heq. pose proof (reached_file _ _ _ Hst Heq) as Hst'.
  apply answers_save; [done..|]. intros sv' Ht' Ha _ _. apply answers_ret; [done|].
  by eapply reached_same.
Qed.
Lemma allowed_answers {B} (b : Service → bool) (m : M (ServiceState * B)) e sv :
  tracked sv → answers m sv → answers (sv ← self; if b sv then m else lift (Err e)) sv.
Proof. intros Ht Hm. apply wp_self_bind. destruct (b sv); [done|]. by apply outcome_Err. Qed.

Lemma attachment_answers {D : Disk} st c owner command t draw m sv :
  is_erased st (vc_identity c) = false →
  attachment_space_command st c owner command t draw = Some m →
  tracked sv → reached sv st → answers m sv.
Proof.
  intros He Hm Ht Hst. unfold attachment_space_command in Hm.
  destruct (negb _); [done|]. injection Hm as <-.
  repeat match goal with |- answers (if ?b then _ else _) _ => destruct b end;
    [..|by apply outcome_Err]; apply allowed_answers; try done.
  - by apply answers_ret.
  - apply (saving_answers _ st); [done..|]. intros. by eapply file_reserve.
  - apply answers_lift_bind; [done|]. intros [st'|] Hc; [|by apply answers_ret].
    apply (saving_answers _ st); [done..|]. intros ?? [= <- <-]. by eapply file_cancel.
  - apply (saving_answers _ st); [done..|]. intros ??. rewrite fmap_Ok. intros (? & ? & [= <- <-]).
    by eapply file_commit.
  - apply (saving_answers _ st); [done..|]. intros ??. rewrite fmap_Ok. intros (? & ? & [= <- <-]).
    by eapply file_link.
  - apply answers_lift_bind; [done|]. intros [[st'|] reply] Hc; [|by apply answers_ret].
    apply (saving_answers _ st); [done..|]. intros ?? [= <- <-]. by eapply file_download.
  - apply answers_lift_bind; [done|]. intros. by apply answers_ret.
  - apply (saving_answers _ st); [done..|]. intros ??. rewrite fmap_Ok. intros (? & ? & [= <- <-]).
    by eapply file_retention.
  - apply answers_lift_bind; [done|]. intros. by apply answers_ret.
  - apply (saving_answers _ st); [done..|]. intros. by eapply file_cleanup.
Qed.

(** *** Conversations *)

Lemma publish_head_answers {D : Disk} st c body sv :
  is_erased st (vc_identity c) = false →
  tracked sv → reached sv st → answers (publish_space_call_head st c body) sv.
Proof.
  intros He Ht Hst. apply wp_self_bind. apply answers_lift_bind; [done|]. intros _ _.
  apply answers_lift_bind; [done|]. intros [st' h] Hr. unfold record_space_call_head in Hr.
  step Hr u Hm. step Hr p Hp. destruct p as [sp stream_], u.
  assert (reached sv st') as Hst' by (eapply reached_step; [done|by eapply change_head]).
  apply answers_save; [done..|]. intros sv' Ht' Ha _ _. apply answers_ret; [done|].
  by eapply reached_same.
Qed.

Lemma notes_answers {D : Disk} st c body sv :
  tracked sv → reached sv st → answers (notes_command st c body) sv.
Proof.
  intros Ht Hst. apply wp_self_bind. apply answers_lift_bind; [done|]. intros u Hu.
  apply fail_if_Ok in Hu. apply orb_false_iff in Hu as [Hu He].
  apply answers_lift_bind; [done|]. intros who Hw. apply answers_lift_bind; [done|]. intros _ _.
  destruct (present_proof body) as [v|]; [|by apply answers_ret].
  apply answers_lift_bind; [done|]. intros _ _. apply answers_lift_bind; [done|]. intros proof Hp.
  apply answers_lift_bind; [done|]. intros next Hn. apply answers_lift_bind; [done|]. intros _ _.
  apply answers_lift_bind; [done|]. intros [] Hc; [|by apply answers_ret].
  apply answers_lift_bind; [done|]. intros [st' h] Hr. step Hr u2 Hm. destruct u2.
  assert (reached sv st') as Hst' by (eapply reached_step; [done|by eapply change_head]).
  assert (st_notes st' = st_notes st ∧ is_erased st' (vc_identity c) = false) as [Hnotes He'].
  { unfold record_head in Hr. inv_ok. simplify_eq. by split. }
  assert (reached sv (with_notes st' (<[vc_identity c := proof]> (st_notes st')))) as Hst2.
  { eapply reached_step; [done|]. eapply change_notes; [done|reflexivity|done|].
    by rewrite Hnotes. }
  apply answers_save; [done|done|]. intros sv' Ht' Ha _ _. apply answers_ret; [done|].
  by eapply reached_same.
Qed.

(** *** Administration *)

Lemma publish_answers {D : Disk} replica st c signed command seconds sv :
  asked = Some command → hc_action command = "authority_publish" →
  Signed c signed command → is_erased st (vc_identity c) = false →
  tracked sv → reached sv st →
  answers (publish_authority replica st c (hc_body command) seconds) sv.
Proof.
  intros Hasked Hact Hs He Ht Hst. apply wp_self_bind. apply answers_lift_bind; [done|].
  intros [proof next] Hp.
  assert (trusted = None) as Hnone.
  { unfold check_publication in Hp. step Hp u Hu. apply fail_if_Ok, bool_decide_eq_false in Hu.
    destruct Ht as [<- _]. destruct (sv_trusted_witness sv); [|done]. by destruct Hu. }
  assert (changes trusted asked w0 (next, published_state st proof next)) as Hc.
  { eapply rtc_r; [exact Hst|]. by eapply change_publish. }
  unfold answers, wp, mbind, M_bind, save_service_state, put_authority.
  destruct (STATE_LIMIT <? _); [by apply outcome_Err|]. destruct (disk_state _); [|by apply outcome_Err].
  apply outcome_Ok; [|done]. split; [apply Ht|by left].
Qed.

Lemma revocation_step_keeps sv st id st' :
  revocation_step sv st id = Ok st' →
  st_roles st' = st_roles st ∧ st_erased_accounts st' = st_erased_accounts st.
Proof.
  unfold revocation_step. intros H. step H found Hf. destruct found as [proof|].
  - step H st1 H1. injection H as <-. destruct (in_journal _ _).
    + injection H1 as <-. done.
    + inv_ok. done.
  - by injection H as <-.
Qed.

Definition revoked_outcome (sv : Service) (st : ServiceState) (sv' : Service)
    (r : result string ServiceState) : Prop :=
  tracked sv' ∧ sv_authority sv' = sv_authority sv
  ∧ ∀ st', r = Ok st' → reached sv' st' ∧ st_roles st' = st_roles st
                       ∧ st_erased_accounts st' = st_erased_accounts st.
Lemma revocations_tracked {D : Disk} st sv :
  tracked sv → reached sv st →
  wp (apply_device_revocations st) sv (revoked_outcome sv st).
Proof.
  intros Ht Hst. apply wp_self_bind. apply wp_lift_bind; [done|]. intros h Hh.
  apply wp_lift_bind; [done|]. intros st1 H1.
  assert (reached sv st1 ∧ st_roles st1 = st_roles st
          ∧ st_erased_accounts st1 = st_erased_accounts st) as (Hr1 & Hro & Her).
  { revert H1. apply (try_fold_inv (λ s, reached sv s ∧ st_roles s = st_roles st
      ∧ st_erased_accounts s = st_erased_accounts st)); [|done].
    intros s id s' Hid (Hs & Hro & Her) Hstep.
    destruct (revocation_step_keeps _ _ _ _ Hstep) as [Hk Hk2]. split; [|split; congruence]. eapply reached_step; [done|].
    eapply change_revocation; [|done..]. by inv_ok. }
  assert (reached sv (with_attachment_access st1 (delete_all
    (λ _ x, match aa_credential x with Some id => is_revoked st1 id | None => false end)
    (st_attachment_access st1)))) as Hr2.
  { eapply reached_file; [done|]. apply file_tokens. }
  apply wp_save; [done|done| |].
  - done.
  - intros sv' Ht' Ha Hg Hd. split; [done|]. split; [done|]. intros st' [= <-].
    split; [by eapply reached_same|]. by split.
Qed.

End Reached.

End HostedTracks.

(** * The requests of a hosted Space take the steps of its specification

    Every command, and with them [serve_space] and [serve_hosted_witnessed_space]. *)


Section HostedServes.
Context `{P : Platform} {SA : AuthoritySerde} {W : WitnessSerde} {U : UrlBase64}
  {HP : HostedPlatform} {HS : HostedSerde} {D : Disk}.
Context (trusted : option WitnessPin) (asked : option Command) (w0 : Authority * ServiceState)
  (base : ServiceState).
Notation tracked := (tracked trusted asked w0 base).
Notation reached := (reached trusted asked w0).
Notation answers := (answers trusted asked w0 base).

(** A change that leaves the authority alone. *)
Lemma reached_by sv st st' :
  reached sv st → change trusted asked (sv_authority sv, st) (sv_authority sv, st') → reached sv st'.
Proof. apply reached_step. Qed.
(** A saved state is the answer's state. *)
Lemma saved_answer {B} st (b : B) sv :
  tracked sv → reached sv st → answers (_ ← save_service_state st; mret (st, b)) sv.
Proof.
  intros Ht Hst. apply answers_save; [done..|]. intros sv' Ht' Ha _ _. apply answers_ret; [done|].
  by eapply reached_same.
Qed.

Lemma device_revoke_answers replica st c body seconds sv :
  tracked sv → reached sv st → answers (space_revoke_device replica st c body seconds) sv.
Proof.
  intros Ht Hst. apply wp_self_bind. do 10 (apply answers_lift_bind; [done|]; intros ? _).
  apply wp_bind. unfold wp at 1. cbv beta zeta.
  match goal with |- context [Revocations.insert ?a ?b ?c ?d] =>
    destruct (Revocations.insert a b c d) as [rg r] end. cbn [fst snd].
  assert (tracked (with_registry sv rg)) as Ht' by apply Ht.
  destruct r as [u|e]; [|by apply outcome_Err].
  apply wp_bind. eapply wp_mono; [by eapply revocations_tracked|].
  intros sv' [st'|e] (Ht2 & Ha & Hr); [|by apply outcome_Err].
  destruct (Hr st' eq_refl) as (Hr' & _). by apply answers_ret.
Qed.

Lemma may_request_false st key :
  may_request st key = false → ∃ x, st_applicants st !! key = Some x.
Proof. unfold may_request. destruct (st_applicants st !! key); [eauto|done]. Qed.
Lemma refresh_request_refreshes note r a : refreshes a (refresh_request note r a).
Proof.
  unfold refresh_request. destruct (ap_status a === "pending"); repeat split; by left.
Qed.
Lemma surface_refreshes sv c r a : refreshes a (surface sv c r a).
Proof.
  unfold surface. cbv zeta. match goal with |- refreshes _ (if ?b then _ else _) => destruct b eqn:Hb end;
    repeat split; [right|by left].
  split; [|done]. repeat (apply andb_true_iff in Hb as [Hb _]). by apply bool_decide_eq_true in Hb.
Qed.

(** ** Joining *)

Definition owner_of (sv : Service) (st : ServiceState) (c : VerifiedCredential) : bool :=
  can_manage (sv_authority sv) (vc_id c)
  && match st_roles st with Some r => is_owner r (vc_identity c) | None => false end.

Lemma open_offer_Some st token t id o :
  open_offer st token t = Some (id, o) →
  st_offers st !! id = Some o ∧ offer_open t o = true ∧ of_token o = token.
Proof.
  intros H. apply find_first_Some in H as [Hin Hp]. apply btree_list_elem in Hin. by inv_ok.
Qed.

Lemma join_admissible sv st c command declined owner token t id o :
  HostedRoles.field (hc_body command) "token" = Ok token →
  open_offer st token t = Some (id, o) → owner = owner_of sv st c →
  device_was_declined st (display (vc_id c)) = Ok declined →
  admissible sv st c command t id
    (if device_admitted sv (vc_id c) then "approved"
     else if needs_decision st (vc_identity c) declined owner o then "pending" else "eligible").
Proof.
  intros Htok (Ho & Hopen & <-)%open_offer_Some -> Hd.
  destruct (device_admitted sv (vc_id c)) eqn:Ha; [by apply admissible_present|].
  destruct (needs_decision _ _ _ _ _) eqn:Hn; [apply admissible_decision|].
  by eapply admissible_invited.
Qed.

Lemma join_answers replica cfg st c signed command owner t sv :
  asked = Some command → hc_action command = "join" →
  Signed c signed command → is_erased st (vc_identity c) = false → owner = owner_of sv st c →
  tracked sv → reached sv st →
  answers (join (replica := replica) cfg st c owner (hc_body command) t) sv.
Proof.
  intros Hasked Hact Hs He Hown Ht Hst. apply wp_self_bind.
  apply answers_lift_bind; [done|]. intros note _.
  apply answers_lift_bind; [done|]. intros token Htok.
  apply answers_lift_bind; [done|]. intros [id o] Ho. apply ok_or_Ok in Ho.
  do 3 (apply answers_lift_bind; [done|]; intros ? _).
  apply answers_lift_bind; [done|]. intros declined Hd.
  assert (reached sv (prune_applicants st t)) as Hp by (eapply reached_by; [done|apply change_prune]).
  destruct (may_request _ _) eqn:Hm.
  - apply answers_lift_bind; [done|]. intros [] Hcap.
    cbv zeta. match goal with |- HostedTracks.answers _ _ _ _ (save_service_state ?x ≫= _) _ =>
      assert (reached sv x) as Hx end.
    { eapply reached_by; [eapply reached_by; [exact Hp|apply change_claimed]|].
      eapply change_request; [done|by left|done|done|done|done|].
      exact (join_admissible sv (with_claimed (prune_applicants st t) true) c command declined owner
               token t id o Htok Ho Hown Hd). }
    apply answers_save; [done..|]. intros sv' Ht' Ha _ _. apply wp_self_bind.
    apply answers_lift_ret; [done|]. by eapply reached_same.
  - apply may_request_false in Hm as [x Hx]. apply answers_lift_ret; [done|].
    rewrite (alter_Some _ _ _ x) by done.
    eapply reached_by; [done|]. eapply change_refresh; [done|apply refresh_request_refreshes].
Qed.

(** ** Status *)

Lemma status_entry_reached sv st c signed command r name t st' known :
  asked = Some command → hc_action command = "status" →
  Signed c signed command → is_erased st (vc_identity c) = false →
  reached sv st → status_entry sv st c r name t = Ok (st', known) → reached sv st'.
Proof.
  intros Hasked Hact Hs He Hst H. unfold status_entry in H. destruct (st_applicants st !! _) as [a|] eqn:Ha.
  - injection H as <- _. eapply reached_by; [done|].
    eapply change_refresh; [done|apply surface_refreshes].
  - step H h Hh. step H u Hu. step H u2 Hcap. step H declined Hd. injection H as <- _.
    apply fail_if_Ok, negb_false_iff in Hu. inv_ok_step.
    eapply reached_by; [done|]. destruct u2.
    eapply change_request; [done|by right|done|done| |done|].
    + unfold may_request. by rewrite Ha.
    + destruct (device_admitted sv (vc_id c)) eqn:Had; [by apply admissible_present|].
      destruct (declined || _) eqn:Hdec; [apply admissible_decision|].
      apply orb_false_iff in Hdec as [-> Hdec]. apply bool_decide_eq_false in Hdec.
      eapply admissible_linked; [done|done| |done|].
      * destruct (authorizing_device c); [eauto|done].
      * by apply orb_true_iff in Hu.
Qed.
Lemma status_answers cfg st c signed command body t sv :
  asked = Some command → hc_action command = "status" →
  Signed c signed command → is_erased st (vc_identity c) = false →
  tracked sv → reached sv st → answers (status cfg st c body t) sv.
Proof.
  intros Hasked Hact Hs He Ht Hst. apply wp_self_bind. do 3 (apply answers_lift_bind; [done|]; intros ? _).
  cbv zeta. match goal with |- answers (if ?b then _ else _) _ => destruct b end;
    [by apply answers_ret|].
  apply answers_lift_bind; [done|]. intros [st' known] Hentry.
  apply answers_lift_bind; [done|]. intros reply _. apply answers_ret; [done|].
  by eapply status_entry_reached.
Qed.

(** ** The owners' commands *)

Lemma owner_command sv st c signed command :
  Signed c signed command → recorded_intent st c signed command → owner_of sv st c = true →
  OwnerCommand (sv_authority sv) st c signed command.
Proof.
  intros Hs Hr [Hm Ho]%andb_true_iff. split; [done..|]. destruct (st_roles st); [eauto|done].
Qed.

Lemma roles_answers st c signed command sv :
  asked = Some command →
  hc_action command = "role_change" ∨ hc_action command = "role_decide" →
  Signed c signed command → recorded_intent st c signed command →
  tracked sv → reached sv st →
  answers (change_roles st c (hc_action command) (hc_body command)) sv.
Proof.
  intros Hasked Hact Hs Hj Ht Hst. apply wp_self_bind.
  apply answers_lift_bind; [done|]. intros members Hm.
  apply answers_lift_bind; [done|]. intros r Hr. apply ok_or_Ok in Hr.
  apply answers_lift_bind; [done|]. intros [r' answer] Ha.
  apply answers_lift_bind; [done|]. intros st' Hst'.
  assert (reached sv st') as Hre by (eapply reached_by; [done|by eapply change_role]).
  assert (∀ sv', tracked sv' → sv_authority sv' = sv_authority sv →
    answers (_ ← save_service_state (with_replies st' ∅); mret (with_replies st' ∅, RpRole answer)) sv')
    as Hend.
  { intros sv' Ht' Heq. apply saved_answer; [done|].
    eapply reached_by; [by eapply reached_same|apply change_forget_all]. }
  destruct (ra_removed_identity answer).
  - apply answers_save; [done..|]. intros sv' Ht' Heq _ _. by apply Hend.
  - by apply Hend.
Qed.

Lemma contact_answers st c signed command r sv :
  asked = Some command → hc_action command = "contact_update" →
  Signed c signed command → st_roles st = Some r → ro_primary r = vc_identity c →
  tracked sv → reached sv st → answers (update_contact st r (hc_body command)) sv.
Proof.
  intros Hasked Hact Hs Hr Hp Ht Hst. do 2 (apply answers_lift_bind; [done|]; intros ? _).
  apply answers_lift_bind; [done|]. intros [] Hv. apply saved_answer; [done|].
  eapply reached_by; [|apply change_forget_all]. eapply reached_by; [done|]. by eapply change_email.
Qed.

Ltac next_action := match goal with
  | |- HostedTracks.answers _ _ _ _ (if ?b then _ else _) _ => let H := fresh "Hc" in destruct b eqn:H
  end.

Lemma action_answers replica cfg st c signed command t sv :
  asked = Some command →
  Signed c signed command → recorded_intent st c signed command →
  is_erased st (vc_identity c) = false →
  tracked sv → reached sv st →
  answers (space_action (replica := replica) cfg st c (owner_of sv st c) command
             (evidence_of signed c) t) sv.
Proof.
  intros Hasked Hs Hj He Ht Hst. apply wp_self_bind. apply answers_lift_bind; [done|]. intros r Hr.
  apply ok_or_Ok in Hr. cbv zeta.
  next_action; [by apply answers_lift_ret|].
  next_action; [apply bool_decide_eq_true in Hc0; by eapply publish_answers|].
  next_action; [by apply answers_lift_ret|].
  next_action; [by apply device_revoke_answers|].
  next_action; [by apply answers_lift_ret|].
  next_action; [by apply publish_head_answers|].
  next_action; [by apply notes_answers|].
  next_action; [by apply answers_lift_ret|].
  next_action.
  { apply andb_true_iff in Hc7 as [Ha%bool_decide_eq_true Hp%bool_decide_eq_true].
    by eapply contact_answers. }
  next_action; [by apply answers_lift_ret|].
  next_action; [apply bool_decide_eq_true in Hc9; by eapply join_answers|].
  next_action; [apply bool_decide_eq_true in Hc10; by eapply status_answers|].
  next_action; [by apply answers_lift_ret|].
  next_action.
  { apply andb_true_iff in Hc12 as [Ha%bool_decide_eq_true Ho].
    apply answers_lift_bind; [done|]. intros [st' [[id token] expires]] Hi.
    apply saved_answer; [done|]. eapply reached_by; [done|].
    eapply change_invited; [done|done|by apply owner_command|done]. }
  next_action.
  { apply andb_true_iff in Hc13 as [Ha%bool_decide_eq_true Ho].
    apply answers_lift_bind; [done|]. intros st' Hi. apply saved_answer; [done|].
    eapply reached_by; [done|]. eapply change_revoke_offer; [done|done|by apply owner_command|done]. }
  next_action.
  { apply andb_true_iff in Hc14 as [Ha%bool_decide_eq_true Ho].
    apply answers_lift_bind; [done|]. intros st' Hi. apply saved_answer; [done|].
    eapply reached_by; [done|]. eapply change_decided; [done|done|by apply owner_command|done]. }
  next_action; [|by apply outcome_Err].
  apply contains_true in Hc15. apply (roles_answers st c signed command); [done| |done..].
  set_solver.
Qed.

Lemma command_answers replica cfg st c signed command t draw sv :
  asked = Some command →
  Signed c signed command → recorded_intent st c signed command →
  tracked sv → reached sv st →
  answers (space_command (replica := replica) cfg st c command (evidence_of signed c) t draw) sv.
Proof.
  intros Hasked Hs Hj Ht Hst. apply wp_self_bind. apply answers_lift_bind; [done|]. intros u Hu.
  unfold admitted_command in Hu. step Hu u1 Hu1. step Hu u2 He. apply fail_if_Ok in He.
  apply answers_lift_bind; [done|]. intros r Hr. apply ok_or_Ok in Hr.
  assert (can_manage (sv_authority sv) (vc_id c) && is_owner r (vc_identity c) = owner_of sv st c)
    as -> by (unfold owner_of; by rewrite Hr).
  cbv zeta. destruct (attachment_space_command _ _ _ _ _ _) eqn:Ha.
  - by eapply attachment_answers.
  - by apply action_answers.
Qed.

End HostedServes.
