(* ===== verification/HostedRuns.v ===== *)
(** * The life of a hosted Space

    What the host runs on a Space: requests, transfers, deletions and restarts. Each is a run
    of the steps of [HostedChanges]. *)

From S2P Require Import Prelude Sums Platform Ids Record Chat Identity AuthorityData AuthorityWitness Authority AuthorityProof WitnessWire CallWire WakeWire Attachments HostedRoles Revocations HostedState HostedAccess HostedFiles HostedCalls HostedAdmission HostedService HostedWitness HostedChanges HostedTracks.

Section HostedRuns.
Context `{P : Platform} {SA : AuthoritySerde} {W : WitnessSerde} {U : UrlBase64}
  {HP : HostedPlatform} {HS : HostedSerde} {D : Disk}.

(** ** The replies a command leaves *)

Lemma change_replies trusted x w w' : change trusted x w w' → st_replies w'.2 ⊆ st_replies w.2.
Proof.
  assert (∀ m : gmap string (N * string * Reply), ∅ ⊆ m) as Hempty
    by (intros; apply map_empty_subseteq).
  destruct 1; frames; cbn [snd]; try done; try apply Hempty.
  apply map_filter_subseteq.
Qed.
Lemma changes_replies trusted x w w' : changes trusted x w w' → st_replies w'.2 ⊆ st_replies w.2.
Proof. induction 1; [done|]. etrans; [done|]. by eapply change_replies. Qed.

Lemma replies_of_subseteq st st' c :
  st_replies st' ⊆ st_replies st → replies_of st' c ≤ replies_of st c.
Proof.
  intros H. apply sum_over_le. intros k v Hk. exists v. split; [|done]. by eapply lookup_weaken.
Qed.

(** ** Requests *)

Section Served.
Context (trusted : option WitnessPin) (w0 : Authority * ServiceState).

(** A state the host may have reached from [w0], and a service that stores one. *)
Definition at_state (sv : Service) (st : ServiceState) : Prop :=
  host_changes trusted w0 (sv_authority sv, st).
Definition served (sv : Service) : Prop :=
  sv_trusted_witness sv = trusted ∧ at_state sv (sv_stored sv).
(** Whatever a call answers, the service stores a reached state. *)
Definition serves {A} (m : M A) (sv : Service) : Prop := wp m sv (λ sv' _, served sv').

Lemma changes_host x w w' : changes trusted x w w' → host_changes trusted w w'.
Proof. apply rtc_subrel. intros ??. apply host_does. Qed.
Lemma at_change x sv st st' :
  at_state sv st → change trusted x (sv_authority sv, st) (sv_authority sv, st') → at_state sv st'.
Proof. intros H Hc. eapply rtc_r; [done|]. by eapply host_does. Qed.
Lemma tracked_served x sv0 st sv :
  served sv0 → at_state sv0 st → tracked trusted x (sv_authority sv0, st) (sv_stored sv0) sv →
  served sv.
Proof.
  intros [Ht Hs] Hst [Ht' [Hr|[Ha Hb]]]; (split; [done|]); unfold at_state.
  - etrans; [exact Hst|]. by eapply changes_host.
  - rewrite Hb. cbn in Ha. by rewrite Ha.
Qed.
Lemma served_tracked x sv : served sv → tracked trusted x (sv_authority sv, sv_stored sv) (sv_stored sv) sv.
Proof. intros [Ht _]. split; [done|]. by right. Qed.

Lemma serves_lift_bind {A B} (r : result string A) (f : A → M B) sv :
  served sv → (∀ a, r = Ok a → serves (f a) sv) → serves (lift r ≫= f) sv.
Proof. intros Hs Hf. by apply wp_lift_bind. Qed.
Lemma serves_ret {A} (x : A) sv : served sv → serves (mret x) sv.
Proof. done. Qed.
Lemma serves_save {B} st (f : unit → M B) sv :
  served sv → at_state sv st →
  (∀ sv', served sv' → sv_authority sv' = sv_authority sv → sv_registry sv' = sv_registry sv →
          sv_trusted_witness sv' = sv_trusted_witness sv → sv_stored sv' = st → serves (f tt) sv') →
  serves (save_service_state st ≫= f) sv.
Proof.
  intros Hs Hst Hk. apply wp_bind. unfold wp at 1, save_service_state.
  destruct (STATE_LIMIT <? _); [done|]. destruct (disk_state st); [|done].
  apply Hk; [|done..]. by split; [apply Hs|].
Qed.

Lemma recorded_at sv st c nonce current signed action reply :
  at_state sv st →
  (cacheable action = true → N.of_nat (size (st_replies st)) < 8192 ∧ replies_of st c < 256) →
  at_state sv (recorded st (reply_prefix c +:+ nonce) current signed action reply).
Proof.
  intros Hst Hroom. unfold recorded. destruct (cacheable action).
  - eapply (at_change None); [|apply change_claimed]. eapply rtc_r; [exact Hst|].
    destruct (Hroom eq_refl). by apply host_replies.
  - eapply (at_change None); [done|apply change_claimed].
Qed.

Lemma run_command_serves replica cfg st c signed command nonce current time draw sv :
  Signed c signed command → served sv → at_state sv st →
  serves (run_command (replica := replica) cfg st c signed command (reply_prefix c +:+ nonce)
            current time draw) sv.
Proof.
  intros Hs Hsv Hst. unfold run_command. cbv zeta. apply serves_lift_bind; [done|].
  intros u Hroom. apply fail_if_Ok in Hroom. apply serves_lift_bind; [done|]. intros st1 Hst1.
  assert (at_state sv st1 ∧ st_replies st1 = st_replies st
          ∧ recorded_intent st1 c signed command) as (Hat & Hrep & Hint).
  { unfold recorded_intent. destruct (journaled (hc_action command)) eqn:Hjour.
    - pose proof (append_intent_frame _ _ _ Hst1) as [Hin Hfr]. split; [|split; [|done]].
      + eapply (at_change (Some command)); [done|]. by eapply change_intent.
      + destruct Hfr as [->|(_ & _ & ->)]; done.
    - injection Hst1 as <-. done. }
  pose proof (command_answers trusted (Some command) (sv_authority sv, st1) (sv_stored sv) replica cfg st1 c signed
    command time draw sv eq_refl Hs Hint) as Hcmd.
  specialize (Hcmd ltac:(split; [apply Hsv|by right]) (rtc_refl _ _)).
  unfold serves, wp, settle. unfold HostedTracks.answers, wp in Hcmd.
  destruct (space_command _ _ _ _ _ _ _ sv) as [sv' [[st2 reply]|e]]; cbn [fst snd] in *.
  - destruct Hcmd as [Htr Hok]. specialize (Hok st2 reply eq_refl).
    pose proof (tracked_served _ sv st1 sv' Hsv Hat Htr) as Hsv'.
    assert (at_state sv' st2) as Hat2.
    { unfold at_state. etrans; [exact Hat|]. by eapply changes_host. }
    apply (serves_save _ (λ _, mret reply)); [done| |done]. apply recorded_at; [done|].
    intros Hcache. rewrite Hcache in Hroom. cbn in Hroom. apply orb_false_iff in Hroom as [H1 H2].
    apply N.leb_gt in H1, H2. apply changes_replies in Hok. cbn in Hok. rewrite Hrep in Hok.
    split.
    + eapply N.le_lt_trans; [|exact H1]. apply N2Z.inj_le. rewrite !nat_N_Z. apply inj_le.
      by apply map_subseteq_size.
    + eapply N.le_lt_trans; [|exact H2]. by apply replies_of_subseteq.
  - destruct Hcmd as [Htr _]. by eapply tracked_served.
Qed.

Lemma answer_command_serves replica cfg st c signed command nonce current time draw sv :
  Signed c signed command → served sv → at_state sv st →
  serves (answer_command (replica := replica) cfg st c signed command nonce current time draw) sv.
Proof.
  intros Hs Hsv Hst. apply wp_self_bind. cbv zeta. apply serves_lift_bind; [done|]. intros _ _.
  match goal with |- serves (if _ then match check_space_chat_head _ ?x _ _ _ with _ => _ end else _) _ =>
    assert (at_state sv x) as Hx by (eapply (at_change None); [done|apply change_forget]) end.
  destruct (_ === _); [by destruct (check_space_chat_head _ _ _ _ _) as [[]|]|].
  destruct (if cacheable _ then _ else _) as [[[] reply]|]; [done|].
  by apply run_command_serves.
Qed.

Lemma authenticate_Signed replica sv scope q current c signed command :
  authenticate replica sv scope q current = Ok (c, signed, command) → Signed c signed command.
Proof.
  unfold authenticate. intros H. step H tx Ht. step H c0 Hc. step H u Hu. step H u2 Hu2.
  inv_ok. injection H as -> -> ->.
  match goal with H : verify_signature _ _ = Ok ?v |- _ => destruct v end. split; eauto.
Qed.

Lemma apply_revocations_serves {B} st (f : ServiceState → M B) sv :
  served sv → at_state sv st →
  (∀ sv' st', served sv' → at_state sv' st' → sv_authority sv' = sv_authority sv →
              st_roles st' = st_roles st → st_erased_accounts st' = st_erased_accounts st →
              serves (f st') sv') →
  serves (apply_device_revocations st ≫= f) sv.
Proof.
  intros Hsv Hst Hk. apply wp_bind.
  eapply wp_mono; [apply (revocations_tracked trusted None (sv_authority sv, st) (sv_stored sv))|].
  - split; [apply Hsv|by right].
  - apply rtc_refl.
  - intros sv' r (Htr & Ha & Hr). pose proof (tracked_served _ _ _ _ Hsv Hst Htr) as Hsv'.
    destruct r as [st'|]; [|done]. destruct (Hr st' eq_refl) as (Hre & Hro & Her). apply Hk; [done| |done..].
    unfold at_state. etrans; [exact Hst|]. by eapply changes_host.
Qed.
Lemma service_state_at sv st : served sv → service_state sv = Ok st → at_state sv st.
Proof. intros [_ H]. unfold service_state. intros Hst. by inv_ok. Qed.
Lemma ensure_roles_serves {B} cfg st (f : ServiceState → M B) sv :
  is_Some (st_roles st) → serves (f st) sv → serves (ensure_roles cfg st ≫= f) sv.
Proof. intros [r Hr]. unfold ensure_roles. by rewrite Hr. Qed.

Lemma service_state_roles sv st :
  service_state sv = Ok st → ∃ r, st_roles st = Some r
    ∧ primary_owner_identity (sv_authority sv) = Ok (ro_primary r) ∧ is_owner r (ro_primary r) = true.
Proof.
  unfold service_state. intros H. step H u Hu. step H u2 Hp. injection H as <-.
  apply fail_if_Ok, negb_false_iff in Hp. unfold primary_matches in Hp.
  destruct (st_roles (sv_stored sv)) as [r|]; [|done]. apply andb_true_iff in Hp as [Hp Ho].
  apply bool_decide_eq_true in Hp. exists r. split; [done|]. split; [|done].
  destruct (primary_owner_identity _); [by injection Hp as ->|done].
Qed.
(** What follows the revocations and the pruning. *)
Lemma answer_serves replica cfg scope q st current time draw sv :
  served sv → at_state sv st →
  serves (match hq_invitation q with
    | Some token =>
        _ ← lift (fail_if (bool_decide (is_Some (hq_record q)) || bool_decide (is_Some (hq_credential q)))
                    "Invalid Space request.");
        mret (None, preview cfg st token current)
    | None =>
        sv ← self;
        '(c, signed, command) ← lift (authenticate replica sv scope q current);
        reply ← answer_command (replica := replica) cfg st c signed command (hq_nonce q)
                  current time draw;
        mret (Some (vc_recipient c), reply)
    end) sv.
Proof.
  intros Hsv Hat. destruct (hq_invitation q); [by apply serves_lift_bind|].
  apply wp_self_bind. apply serves_lift_bind; [done|]. intros [[c signed] command] Hau.
  apply authenticate_Signed in Hau. apply wp_bind.
  eapply wp_mono; [by apply (answer_command_serves replica cfg st c signed command)|].
  by intros sv2 [reply|].
Qed.
Lemma serve_space_inner_serves replica cfg q current time draw sv :
  served sv → serves (serve_space_inner replica cfg q current time draw) sv.
Proof.
  intros Hsv. apply wp_self_bind. apply serves_lift_bind; [done|]. intros scope _.
  apply serves_lift_bind; [done|]. intros st Hst.
  pose proof (service_state_at _ _ Hsv Hst) as Hat.
  destruct (service_state_roles _ _ Hst) as (r & Hr & _). clear Hst.
  assert (∀ sv' st', served sv' → at_state sv' st' → st_roles st' = Some r →
            at_state sv' (prune_applicants st' current)) as Hp
    by (intros; eapply (at_change None); [done|apply change_prune]).
  destruct replica.
  - apply apply_revocations_serves; [done..|]. intros sv' st' Hsv' Hat' _ Hr' _. cbv zeta.
    rewrite Hr in Hr'. apply ensure_roles_serves; [by exists r|]. apply answer_serves; auto.
  - cbv zeta. apply ensure_roles_serves; [by exists r|]. apply answer_serves; auto.
Qed.
Lemma serve_space_serves replica cfg q current time draw sv :
  served sv → serves (serve_space replica cfg q current time draw) sv.
Proof.
  intros Hsv. apply wp_self_bind. apply serves_lift_bind; [done|]. intros _ _.
  by apply serve_space_inner_serves.
Qed.

(** *** With a witness *)

Lemma relay_serves cfg c command now sv :
  served sv → serves (witnessed_relay_command cfg c command now) sv.
Proof.
  intros Hsv. unfold witnessed_relay_command. destruct (is_relay_action _); cbn [negb]; [|done].
  apply wp_self_bind. apply serves_lift_bind; [done|]. intros st Hst.
  apply serves_lift_bind; [done|]. intros [st' reply] Hrel. apply serves_save; [done| |done].
  eapply (at_change None); [eapply (at_change None); [by eapply service_state_at|apply change_expire_requests]|].
  by eapply change_relay.
Qed.
Lemma relay_None cfg c command now sv sv' :
  witnessed_relay_command cfg c command now sv = (sv', Ok None) → sv' = sv.
Proof.
  unfold witnessed_relay_command. destruct (is_relay_action _); cbn [negb]; [|by intros [= <-]].
  unfold mbind, M_bind, self, lift. destruct (service_state sv) as [st|]; [|done].
  destruct (relay_result _ _ _ _ _ _) as [[st' reply]|]; [|done].
  unfold save_service_state. destruct (STATE_LIMIT <? _); [done|]. by destruct (disk_state st').
Qed.

Lemma verify_witnessed_request_kept sv q time c command :
  verify_witnessed_request sv q time = Ok (c, command) →
  is_erased (sv_stored sv) (vc_identity c) = false ∧ is_revoked (sv_stored sv) (vc_id c) = false.
Proof.
  unfold verify_witnessed_request, service_state. intros H. inv_ok. simplify_eq. done.
Qed.
Lemma synchronise_serves cfg q c command pin next f instant time instant' later sv :
  hc_action command = "witness_sync" → trusted = Some pin → served sv → is_erased (sv_stored sv) (vc_identity c) = false →
  general_member next (vc_id c) = Some (vc_identity c) →
  synchronised_authority sv c (hc_body command) time = Ok next →
  lease_covers pin next f instant time = true →
  serves (synchronise cfg q c next (hc_body command) f instant' later) sv.
Proof.
  intros Hact Hpin Hsv He Hmem Hsync Hlease. apply wp_self_bind. apply serves_lift_bind; [done|]. intros _ _.
  apply serves_lift_bind; [done|]. intros st Hst.
  apply apply_revocations_serves; [done|by apply service_state_at|].
  intros sv1 st1 Hsv1 Hat1 Ha _ Her. apply serves_lift_bind; [done|]. intros [st2 key] Hst2.
  apply serves_lift_bind; [done|]. intros _ _.
  assert (host_changes trusted w0 (next, st2)) as Hnew.
  { eapply rtc_r; [exact Hat1|]. apply (host_does _ (Some command)).
    assert (sv_stored sv = st) as Hst' by (unfold service_state in Hst; by inv_ok).
    rewrite Ha. eapply (change_sync _ _ sv sv); [done|exact Hact|exact Hpin| |done| |exact Hmem|exact Hsync|exact Hlease|exact Hst2].
    - rewrite <-Hpin. apply Hsv.
    - unfold is_erased in *. by rewrite Her, <-Hst'. }
  apply wp_bind. unfold wp at 1, save_service_state.
  destruct (STATE_LIMIT <? _); [done|]. destruct (disk_state st2); [|done]. cbn [fst snd].
  apply wp_bind. unfold wp at 1, put_authority. cbn [fst snd]. apply wp_self_bind.
  assert (served (with_authority (with_stored sv1 st2) next)) as Hend
    by (split; [apply Hsv1|exact Hnew]).
  by apply serves_lift_bind.
Qed.
Lemma witnessed_serves cfg q f instant time instant' later draw sv :
  served sv → serves (serve_hosted_witnessed_space cfg q f instant time instant' later draw) sv.
Proof.
  intros Hsv. apply wp_self_bind. apply serves_lift_bind; [done|]. intros next Hnext.
  apply serves_lift_bind; [done|]. intros pin Hpin. apply ok_or_Ok in Hpin.
  apply serves_lift_bind; [done|]. intros u Hlease. apply fail_if_Ok, negb_false_iff in Hlease.
  apply serves_lift_bind; [done|]. intros [c command] Hreq.
  apply serves_lift_bind; [done|]. intros _ _.
  apply wp_bind. unfold wp at 1.
  pose proof (relay_serves cfg c command time sv Hsv) as Hrel. unfold serves, wp in Hrel.
  destruct (witnessed_relay_command cfg c command time sv) as [sv1 [[reply|]|]] eqn:Hcmd; [done| |done].
  apply relay_None in Hcmd as ->. cbn [fst snd].
  destruct (hc_action command =/= "witness_sync") eqn:Hact; [by apply serve_space_inner_serves|].
  apply negb_false_iff, bool_decide_eq_true in Hact.
  unfold witnessed_request_authority in Hnext. rewrite Hreq in Hnext. cbn in Hnext.
  rewrite Hact in Hnext. cbn in Hnext. step Hnext a Ha. step Hnext cand Hcand.
  destruct cand.
  { unfold relay_candidate in Hcand. by rewrite Hact in Hcand. }
  step Hnext who Hw. step Hnext known Hk. step Hnext u2 Hu2. injection Hnext as ->.
  apply fail_if_Ok, orb_false_iff in Hu2 as [Hwho _]. apply negb_false_iff, bool_decide_eq_true in Hwho as ->.
  eapply synchronise_serves; [exact Hact| |done| | |exact Ha|exact Hlease].
  - rewrite <-Hpin. symmetry. apply Hsv.
  - by eapply verify_witnessed_request_kept.
  - unfold general_member. by destruct (require_member next (vc_id c)) as [?|]; [injection Hw as ->|].
Qed.

(** ** The host *)

Lemma host_change_serves {A} (f : ServiceState → result string (ServiceState * A)) sv :
  (∀ st st' x, f st = Ok (st', x) → file_change st st') → served sv →
  serves (HostedFiles.host_change f) sv.
Proof.
  intros Hf Hsv. apply wp_self_bind. apply serves_lift_bind; [done|]. intros st Hst.
  apply serves_lift_bind; [done|]. intros [st' x] Hx. apply serves_save; [done| |done].
  eapply (at_change None); [by eapply service_state_at|]. eapply change_file. by eapply Hf.
Qed.
Lemma serves_saved st sv : served sv → at_state sv st → serves (save_service_state st) sv.
Proof.
  intros Hs Hst. unfold serves, wp, save_service_state. destruct (STATE_LIMIT <? _); [done|].
  destruct (disk_state st); [|done]. by split; [apply Hs|].
Qed.
Lemma available_serves b sv : served sv → serves (set_attachment_storage_available b) sv.
Proof.
  intros Hsv. apply wp_self_bind. apply serves_lift_bind; [done|]. intros st Hst.
  destruct (negb _); [|done]. apply serves_saved; [done|].
  eapply (at_change None); [by eapply service_state_at|]. apply change_file, file_enabled.
Qed.
Lemma erase_serves cfg who e sv : served sv → serves (erase_service_account cfg who e) sv.
Proof.
  intros Hsv. apply wp_self_bind. apply serves_lift_bind; [done|]. intros [st append] Hi.
  apply serves_lift_bind; [done|]. intros e' He. apply ok_or_Ok in He as ->.
  apply serves_lift_bind; [done|]. intros st' Hst'.
  assert (at_state sv st) as Hat.
  { apply service_state_at; [done|]. unfold account_deletion_intent in Hi. inv_ok. by simplify_eq. }
  apply serves_saved; [done|]. eapply (at_change None); [done|]. by eapply change_erase.
Qed.
Lemma bootstrap_serves address require current draw sv :
  served sv → serves (bootstrap_space_invitation address require current draw) sv.
Proof.
  intros Hsv. apply wp_self_bind. apply serves_lift_bind; [done|]. intros _ _.
  apply serves_lift_bind; [done|]. intros _ _. apply serves_lift_bind; [done|]. intros scope _.
  apply serves_lift_bind; [done|]. intros _ _. apply serves_lift_bind; [done|]. intros st Hst.
  cbv zeta. apply serves_lift_bind; [done|]. intros u Hroom.
  do 5 (apply serves_lift_bind; [done|]; intros ? ?).
  destruct (st_offers _ !! _); [done|]. do 2 (apply serves_lift_bind; [done|]; intros ? ?).
  apply serves_save; [done| |done]. apply fail_if_Ok, N.leb_gt in Hroom.
  eapply (at_change None); [|by apply change_creation_offer].
  eapply (at_change None); [eapply (at_change None); [by eapply service_state_at|apply change_prune]|].
  by apply change_close_offers.
Qed.

End Served.

(** What the host does with a Space; the registry is shared with its other Spaces. *)
Inductive host_step : Service → Service → Prop :=
| step_serve replica cfg q current time draw sv :
    host_step sv (serve_space replica cfg q current time draw sv).1
| step_witnessed cfg q f instant time instant' later draw sv :
    host_step sv (serve_hosted_witnessed_space cfg q f instant time instant' later draw sv).1
| step_erase cfg who e sv : host_step sv (erase_service_account cfg who e sv).1
| step_bootstrap address require current draw sv :
    host_step sv (bootstrap_space_invitation address require current draw sv).1
| step_uploaded token current sv : host_step sv (attachment_upload_complete token current sv).1
| step_targets current limit sv : host_step sv (attachment_cleanup_targets current limit sv).1
| step_complete i time sv : host_step sv (attachment_cleanup_complete i time sv).1
| step_missing i time sv : host_step sv (attachment_mark_missing i time sv).1
| step_available b sv : host_step sv (set_attachment_storage_available b sv).1
| step_registry rg sv : host_step sv (with_registry sv rg)
| step_restart signer loopback sv sv' :
    open_with_witness signer (sv_stored sv) (sv_registry sv) loopback (sv_trusted_witness sv) = Ok sv' →
    host_step sv sv'.

(** What a Space goes through: its changes, and restarts that read its proof again. *)
Inductive space_step (trusted : option WitnessPin) :
    Authority * ServiceState → Authority * ServiceState → Prop :=
| space_change w w' : host_change trusted w w' → space_step trusted w w'
| space_reopened a a' st :
    verify_general_authority (st_proof st) trusted = Ok a' → primary_matches a' st = true →
    space_step trusted (a, st) (a', st).
Definition space_run (trusted : option WitnessPin) := rtc (space_step trusted).
Definition world (sv : Service) : Authority * ServiceState := (sv_authority sv, sv_stored sv).

Lemma serves_run {A} (m : M A) sv :
  (served (sv_trusted_witness sv) (world sv) sv → serves (sv_trusted_witness sv) (world sv) m sv) →
  sv_trusted_witness (m sv).1 = sv_trusted_witness sv
  ∧ space_run (sv_trusted_witness sv) (world sv) (world (m sv).1).
Proof.
  intros H. destruct H as [Ht Hr]; [by split; [|apply rtc_refl]|]. split; [done|].
  eapply rtc_subrel; [|exact Hr]. intros ??. apply space_change.
Qed.

Lemma host_step_refines sv sv' :
  host_step sv sv' →
  sv_trusted_witness sv' = sv_trusted_witness sv
  ∧ space_run (sv_trusted_witness sv) (world sv) (world sv').
Proof.
  destruct 1.
  - apply serves_run, serve_space_serves.
  - apply serves_run, witnessed_serves.
  - apply serves_run, erase_serves.
  - apply serves_run, bootstrap_serves.
  - apply serves_run. apply host_change_serves. intros st st' x Hx. step Hx st1 H1. injection Hx as <- _. by eapply file_uploaded.
  - apply serves_run, host_change_serves. intros st st' x [= <- <-]. apply file_pass.
  - apply serves_run, host_change_serves. intros st st' x Hx. step Hx st1 H1. injection Hx as <- _. by eapply file_finish.
  - apply serves_run, host_change_serves. intros st st' x Hx. step Hx st1 H1. injection Hx as <- _. by eapply file_missing.
  - apply serves_run, available_serves.
  - split; [done|apply rtc_refl].
  - unfold open_with_witness in H. inv_ok. split; [done|].
    apply rtc_once. by apply space_reopened.
Qed.


(** Any number of steps, in any order. *)
Definition host_run : Service → Service → Prop := rtc host_step.
Lemma host_run_space sv sv' :
  host_run sv sv' →
  sv_trusted_witness sv' = sv_trusted_witness sv
  ∧ space_run (sv_trusted_witness sv) (world sv) (world sv').
Proof.
  induction 1 as [sv|sv sv1 sv2 Hs _ [Ht IH]]; [by split; [|apply rtc_refl]|].
  apply host_step_refines in Hs as [Ht1 Hr1]. rewrite Ht1 in Ht, IH. split; [done|]. by etrans.
Qed.

(** C2. The hosting service implements its specification: whatever requests it serves, answers
    or refuses, whichever of its writes fail, and wherever it restarts, its General and its
    stored state go through changes of [HostedChanges.host_change] and restarts that prove the
    stored General again, and its pinned witness stays. *)
Theorem host_refines sv sv' :
  host_run sv sv' →
  sv_trusted_witness sv' = sv_trusted_witness sv
  ∧ rtc (space_step (sv_trusted_witness sv)) (sv_authority sv, sv_stored sv)
      (sv_authority sv', sv_stored sv').
Proof. apply host_run_space. Qed.

End HostedRuns.

(** * What a request runs

    The handlers read from the request they are handed: what they do before they run its
    command, and what of the service that command decides. *)

Section HostedAnswers.
Context `{P : Platform} {SA : AuthoritySerde} {W : WitnessSerde} {U : UrlBase64}
  {HP : HostedPlatform} {HS : HostedSerde} {D : Disk}.

Lemma service_state_stored sv st : service_state sv = Ok st → st = sv_stored sv.
Proof. unfold service_state. intros H. inv_ok. done. Qed.
Lemma try_fold_all {A} (f : A → result string unit) l x :
  try_fold (λ _ x, f x) tt l = Ok tt → x ∈ l → f x = Ok tt.
Proof.
  intros H Hx. induction l as [|y l IH]; [by apply elem_of_nil in Hx|]. cbn in H. step H u Hu. destruct u.
  apply elem_of_cons in Hx as [->|Hx]; [done|]. by apply IH.
Qed.

(** ** Requests *)

(** The request [q], read at [clock], is the command that [c] signed for this Space. *)
Record asked_for (a : Authority) (q : Request) (clock : N) (c : VerifiedCredential)
    (signed : SignedRecord) (command : Command) : Prop := {
  af_credential : ∃ txt, hq_credential q = Some txt ∧ verify_credential txt = Ok c;
  af_record : ∃ txt, hq_record q = Some txt ∧ decode_record txt = Ok signed;
  af_signature : verify_signature signed (vc_key c) = Ok tt;
  af_command : decode (T := Command) signed = Ok command;
  af_version : hc_v command = 1;
  af_kind : hc_kind command = "space.command";
  af_space : hc_space command = space a;
  af_nonce : hc_nonce command = hq_nonce q;
  af_fresh : abs_diff clock (hc_issued command) ≤ 120000;
}.
Lemma asked_Signed a q clock c signed command : asked_for a q clock c signed command → Signed c signed command.
Proof. intros [(txt & _ & ?) (txt2 & _ & ?) ???????]. split; eauto. Qed.
Lemma asked_same a q t c signed command a' t' c' signed' command' :
  asked_for a q t c signed command → asked_for a' q t' c' signed' command' →
  c' = c ∧ signed' = signed ∧ command' = command.
Proof.
  intros [(x & Hx & Hc) (y & Hy & Hs) _ Hd _ _ _ _ _] [(x' & Hx' & Hc') (y' & Hy' & Hs') _ Hd' _ _ _ _ _].
  assert (x' = x) as -> by congruence. assert (y' = y) as -> by congruence.
  assert (c' = c) as -> by congruence. assert (signed' = signed) as -> by congruence.
  repeat split; congruence.
Qed.
(** A linked device is in General already, or the device that authorizes it is. *)
Definition parent_present (a : Authority) (c : VerifiedCredential) : Prop :=
  ∀ parent, authorizing_device c = Some parent →
  ∃ h, head_config a = Ok h ∧ (has_device h (vc_identity c) (vc_id c) = true
                                ∨ has_device h (vc_identity c) parent = true).

Lemma header_checks (a b c d e : bool) :
  a || b || c || d || e = false → a = false ∧ b = false ∧ c = false ∧ d = false ∧ e = false.
Proof. by destruct a, b, c, d, e. Qed.
Lemma authenticate_asked replica sv scp q current c signed command :
  team_scope sv = Ok scp → authenticate replica sv scp q current = Ok (c, signed, command) →
  asked_for (sv_authority sv) q current c signed command ∧ parent_present (sv_authority sv) c.
Proof.
  unfold authenticate. intros Hscope H. step H txt Htxt. step H c0 Hc. step H u1 Hu1. step H u2 Hlink.
  step H txt2 Htxt2. step H s0 Hs. step H u3 Hver. step H command0 Hcmd. step H u4 Hu4.
  injection H as -> -> ->. destruct u3. apply ok_or_Ok in Htxt, Htxt2. apply map_err_Ok in Hver, Hcmd.
  apply fail_if_Ok, header_checks in Hu4 as (Hv & Hk & Hsp & Hn & Ht).
  apply negb_false_iff in Hv, Hk, Hsp, Hn. apply N.eqb_eq in Hv. apply bool_decide_eq_true in Hk, Hsp, Hn.
  apply N.ltb_ge in Ht. unfold team_scope in Hscope. step Hscope g Hg. step Hscope o Ho.
  injection Hscope as <-. split; [split; eauto|]. intros parent Hp. unfold authorizer_admitted in Hlink.
  rewrite Hp in Hlink. step Hlink h Hh. apply map_err_Ok in Hh. exists h. split; [done|].
  destruct (has_device h _ (vc_id c)); [by left|right]. step Hlink u5 Hu5.
  by apply fail_if_Ok, negb_false_iff in Hlink.
Qed.
Lemma witnessed_asked sv q t c command :
  verify_witnessed_request sv q t = Ok (c, command) →
  ∃ signed, asked_for (sv_authority sv) q t c signed command.
Proof.
  unfold verify_witnessed_request. intros H. step H u0 Hu0. step H u1 Hu1. step H txt Htxt. step H c0 Hc.
  step H txt2 Htxt2. step H signed Hs. step H u3 Hver. step H command0 Hcmd. step H u4 Hu4.
  step H st Hst. step H u5 Hu5. injection H as -> ->. destruct u3. apply ok_or_Ok in Htxt, Htxt2.
  apply map_err_Ok in Hver, Hcmd. apply fail_if_Ok, header_checks in Hu4 as (Hv & Hk & Hsp & Hn & Ht).
  apply negb_false_iff in Hv, Hk, Hsp, Hn. apply N.eqb_eq in Hv. apply bool_decide_eq_true in Hk, Hsp, Hn.
  apply N.ltb_ge in Ht. exists signed. split; eauto.
Qed.

(** ** Before the command *)

(** What the host may have done to the stored state when it runs the command: recorded retired
    devices and the intent, dropped old requests and answers. *)
Record prepared (st0 st : ServiceState) : Prop := {
  pp_roles : st_roles st = st_roles st0;
  pp_offers : st_offers st = st_offers st0;
  pp_removals : st_removals st = st_removals st0;
  pp_removal_heads : st_removal_heads st = st_removal_heads st0;
  pp_erased : st_erased_accounts st = st_erased_accounts st0;
  pp_proof : st_proof st = st_proof st0;
  pp_committed : st_committed_journal st = st_committed_journal st0;
  pp_journal : st_journal st0 `prefix_of` st_journal st;
  pp_revoked : st_revoked st0 ⊆ st_revoked st;
  pp_applicants : st_applicants st ⊆ st_applicants st0;
}.
#[export] Instance prepared_reflexive : Reflexive prepared.
Proof. split; done. Qed.
#[export] Instance prepared_transitive : Transitive prepared.
Proof. intros a b c [] []. split; try congruence; by etrans. Qed.

Lemma prepared_prune st t : prepared st (prune_applicants st t).
Proof.
  split; try done. apply map_subseteq_spec. intros key b. unfold prune_applicants. cbn.
  destruct (_ <=? _); [intros [H _]%delete_all_Some|intros H]; by apply delete_all_Some in H as [].
Qed.
Lemma prepared_replies st m : prepared st (with_replies st m).
Proof. split; done. Qed.
Lemma prepared_files st p m t : prepared st (with_files st p m t).
Proof. split; done. Qed.
Lemma prepared_intent st e st' : append_intent st e = Ok st' → prepared st st'.
Proof.
  intros [_ [->|(_ & _ & ->)]]%append_intent_frame; [done|]. split; try done. cbn. by apply prefix_app_r.
Qed.
Lemma prepared_revocation sv st id st' : revocation_step sv st id = Ok st' → prepared st st'.
Proof.
  intros [->|(proof & j & _ & -> & Hj)]%revocation_step_frame; [done|]. split; try done; cbn; [|set_solver].
  destruct Hj as [[-> _]|(target & -> & _)]; [done|by apply prefix_app_r].
Qed.

(** The service that runs it: the General is in hand, and what it stores is prepared. *)
Record held (sv sv1 : Service) : Prop := {
  hd_authority : sv_authority sv1 = sv_authority sv;
  hd_witness : sv_trusted_witness sv1 = sv_trusted_witness sv;
  hd_stored : prepared (sv_stored sv) (sv_stored sv1);
}.
Lemma held_refl sv : held sv sv.
Proof. split; done. Qed.

Lemma revocations_held sv st sv1 r :
  prepared (sv_stored sv) st → apply_device_revocations st sv = (sv1, r) →
  held sv sv1 ∧ ∀ st', r = Ok st' → prepared (sv_stored sv) st'.
Proof.
  intros Hst. unfold apply_device_revocations, mbind, M_bind, self, lift.
  destruct (map_err _ _) as [h|]; [|by intros [= <- <-]; split; [apply held_refl|]].
  destruct (try_fold _ _ _) as [st1|] eqn:Hf; [|by intros [= <- <-]; split; [apply held_refl|]].
  assert (prepared (sv_stored sv) st1) as H1.
  { etrans; [exact Hst|]. revert Hf. apply try_fold_keeps; [apply _..|]. intros ????. apply prepared_revocation. }
  assert (∀ m, prepared (sv_stored sv) (with_attachment_access st1 m)) as H2.
  { intros m. etrans; [exact H1|]. split; done. }
  unfold save_service_state. destruct (STATE_LIMIT <? _); [by intros [= <- <-]; split; [apply held_refl|]|].
  destruct (disk_state _); intros [= <- <-]; [|by split; [apply held_refl|]].
  split; [|by intros st' [= <-]]. split; try done. apply H2.
Qed.

(** ** What a handler leaves *)

Section Leaves.
(** Of the General in hand and the state, answers and the mark of a claimed Space aside. *)
Context (I : Authority * ServiceState → Prop).
Hypothesis keeps_replies : ∀ a st m, I (a, st) → I (a, with_replies st m).
Hypothesis keeps_claimed : ∀ a st, I (a, st) → I (a, with_claimed st true).

(** It holds of what the service stores and of the state the handler answers with. *)
Definition leaves {B} (m : M (ServiceState * B)) (sv : Service) : Prop :=
  wp m sv (λ sv' r, I (world sv') ∧ ∀ st b, r = Ok (st, b) → I (sv_authority sv', st)).

Lemma leaves_lift_bind {A B} (r : result string A) (f : A → M (ServiceState * B)) sv :
  I (world sv) → (∀ a, r = Ok a → leaves (f a) sv) → leaves (lift r ≫= f) sv.
Proof. intros Hi Hf. apply wp_lift_bind; [|done]. by split. Qed.
Lemma leaves_ret {B} sv st (b : B) : I (world sv) → I (sv_authority sv, st) → leaves (mret (st, b)) sv.
Proof. intros ??. split; [done|]. by intros ?? [= <- <-]. Qed.
Lemma leaves_save {B} st (f : unit → M (ServiceState * B)) sv :
  I (world sv) → I (sv_authority sv, st) →
  (∀ sv', sv_authority sv' = sv_authority sv → sv_stored sv' = st → leaves (f tt) sv') →
  leaves (save_service_state st ≫= f) sv.
Proof.
  intros Hi Hst Hf. apply wp_bind. unfold wp at 1, save_service_state.
  destruct (STATE_LIMIT <? _); [by split|]. destruct (disk_state st); [|by split]. by apply Hf.
Qed.
Lemma saved_world {B} st (b : B) sv :
  I (world sv) → I (sv_authority sv, st) → I (world ((_ ← save_service_state st; mret b) sv).1).
Proof.
  intros Hi Hst. unfold mbind, M_bind, save_service_state.
  destruct (STATE_LIMIT <? _); [done|]. by destruct (disk_state st).
Qed.

Lemma run_command_leaves replica cfg st c signed command key current time draw sv :
  I (world sv) →
  (∀ st1, prepared st st1 → recorded_intent st1 c signed command →
     leaves (space_command (replica := replica) cfg st1 c command (evidence_of signed c) time draw) sv) →
  I (world (run_command (replica := replica) cfg st c signed command key current time draw sv).1).
Proof.
  intros Hi Hc. unfold run_command. cbv zeta.
  match goal with |- I (world (?m sv).1) => assert (wp m sv (λ sv' _, I (world sv'))) as H; [|exact H] end.
  apply wp_lift_bind; [done|]. intros _ _. apply wp_lift_bind; [done|]. intros st1 Hst1.
  assert (prepared st st1 ∧ recorded_intent st1 c signed command) as [Hp Hr].
  { unfold recorded_intent. destruct (journaled _); [|injection Hst1 as <-; by split].
    split; [by eapply prepared_intent|]. intros _. by apply append_intent_frame in Hst1 as [? _]. }
  specialize (Hc st1 Hp Hr). unfold leaves, wp in Hc. unfold wp, settle.
  destruct (space_command _ _ _ _ _ _ _ sv) as [sv2 [[st2 reply]|e]]; cbn [fst snd] in *; destruct Hc as [Hw Hok]; [|done].
  apply saved_world; [done|]. unfold recorded. specialize (Hok st2 reply eq_refl).
  destruct (cacheable _); auto.
Qed.

Lemma answer_command_leaves replica cfg st0 st c signed command nonce current time draw sv :
  I (world sv) → prepared st0 st →
  (∀ st1, prepared st0 st1 → recorded_intent st1 c signed command →
     leaves (space_command (replica := replica) cfg st1 c command (evidence_of signed c) time draw) sv) →
  I (world (answer_command (replica := replica) cfg st c signed command nonce current time draw sv).1).
Proof.
  intros Hi Hp Hc. unfold answer_command.
  match goal with |- I (world (?m sv).1) => assert (wp m sv (λ sv' _, I (world sv'))) as H; [|exact H] end.
  apply wp_self_bind. cbv zeta. apply wp_lift_bind; [done|]. intros _ _.
  destruct (_ === "chat_head_check"); [by destruct (check_space_chat_head _ _ _ _ _) as [[]|]|].
  destruct (if cacheable _ then _ else _) as [[[] reply]|]; [done|].
  apply run_command_leaves; [done|]. intros st1 Hst1. apply Hc. etrans; [exact Hp|].
  etrans; [apply prepared_replies|exact Hst1].
Qed.

(** A request leaves what its preparation and its command leave. *)
Lemma inner_leaves replica cfg q current time draw sv :
  (∀ st, prepared (sv_stored sv) st → I (sv_authority sv, st)) →
  (∀ sv1 st c signed command,
     held sv sv1 → prepared (sv_stored sv) st → asked_for (sv_authority sv) q current c signed command →
     parent_present (sv_authority sv) c → recorded_intent st c signed command →
     leaves (space_command (replica := replica) cfg st c command (evidence_of signed c) time draw) sv1) →
  I (world (serve_space_inner replica cfg q current time draw sv).1).
Proof.
  intros Hi Hc. unfold serve_space_inner.
  match goal with |- I (world (?m sv).1) => assert (wp m sv (λ sv' _, I (world sv'))) as H; [|exact H] end.
  apply wp_self_bind. apply wp_lift_bind; [intros _; by apply Hi|]. intros scp Hscp.
  assert (team_scope sv = Ok scp) as Hscope by (unfold configured in Hscp; by inv_ok).
  apply wp_lift_bind; [intros _; by apply Hi|]. intros st Hst.
  destruct (service_state_roles _ _ Hst) as (r & Hr & _). apply service_state_stored in Hst as ->.
  assert (∀ sv1 st1, held sv sv1 → prepared (sv_stored sv) st1 →
    wp (let st2 := prune_applicants st1 current in
      st3 ← ensure_roles cfg st2;
      match hq_invitation q with
      | Some token =>
          _ ← lift (fail_if (bool_decide (is_Some (hq_record q)) || bool_decide (is_Some (hq_credential q)))
                      "Invalid Space request.");
          mret (None, preview cfg st3 token current)
      | None =>
          sv3 ← self;
          '(c, signed, command) ← lift (authenticate replica sv3 scp q current);
          reply ← answer_command (replica := replica) cfg st3 c signed command (hq_nonce q)
                    current time draw;
          mret (Some (vc_recipient c), reply)
      end) sv1 (λ sv' _, I (world sv'))) as Hrest.
  { intros sv1 st1 [Ha Ht Hp1] Hst1. cbv zeta.
    assert (prepared (sv_stored sv) (prune_applicants st1 current)) as Hp2
      by (etrans; [exact Hst1|apply prepared_prune]).
    assert (I (world sv1)) as Hw by (unfold world; rewrite Ha; by apply Hi).
    unfold ensure_roles. rewrite (pp_roles _ _ Hp2), Hr. apply wp_bind, wp_ret.
    destruct (hq_invitation q); [by apply wp_lift_bind|]. apply wp_self_bind.
    apply wp_lift_bind; [done|]. intros [[c signed] command] Hau.
    apply (authenticate_asked replica sv1 scp) in Hau; [rewrite Ha in Hau|unfold team_scope in *; by rewrite Ha].
    destruct Hau as [Hask Hlink]. apply wp_bind. unfold wp at 1.
    assert (I (world (answer_command (replica := replica) cfg (prune_applicants st1 current) c signed
              command (hq_nonce q) current time draw sv1).1)) as Hend.
    { apply (answer_command_leaves _ _ (sv_stored sv)); [done|exact Hp2|]. intros st2 Hst2 Hrec.
      by eapply Hc. }
    destruct (answer_command _ _ _ _ _ _ _ _ _ sv1) as [sv2 [reply|e]]; exact Hend. }
  destruct replica.
  - apply wp_bind. unfold wp at 1. destruct (apply_device_revocations (sv_stored sv) sv) as [sv1 r1] eqn:Hrev.
    destruct (revocations_held _ _ _ _ (reflexivity _) Hrev) as [Hheld Hok]. destruct r1 as [st1|]; cbn [fst snd].
    + apply Hrest; [exact Hheld|]. by apply Hok.
    + unfold world. rewrite (hd_authority _ _ Hheld). apply Hi. apply Hheld.
  - apply (Hrest sv (sv_stored sv)); [apply held_refl|done].
Qed.

(** A command that takes the steps of the specification. *)
Lemma command_leaves replica cfg st c signed command time draw sv a q clock :
  asked_for a q clock c signed command → recorded_intent st c signed command →
  I (world sv) →
  (∀ w, changes (sv_trusted_witness sv) (Some command) (sv_authority sv, st) w → I w) →
  leaves (space_command (replica := replica) cfg st c command (evidence_of signed c) time draw) sv.
Proof.
  intros Hask Hrec Hi Hw.
  pose proof (command_answers (sv_trusted_witness sv) (Some command) (sv_authority sv, st) (sv_stored sv)
    replica cfg st c signed command time draw sv eq_refl (asked_Signed _ _ _ _ _ _ Hask) Hrec) as H.
  specialize (H ltac:(split; [done|by right]) (rtc_refl _ _)).
  unfold leaves, wp. unfold HostedTracks.answers, wp in H.
  destruct (space_command _ _ _ _ _ _ _ sv) as [sv2 r]. cbn [fst snd] in *. destruct H as [[_ Ht] Hok].
  split; [|by intros st2 b ->; apply Hw, (Hok st2 b)].
  destruct Ht as [Ht|[Ha Hs]]; [by apply Hw|]. unfold world in *. cbn in Ha. by rewrite Ha, Hs.
Qed.
End Leaves.


(** The actions the theorems below follow to their handler. *)
Lemma special_leaves I replica cfg st c command e time draw sv
    (k : Service → bool → M (ServiceState * Reply)) :
  I (world sv) → is_attachment_action (hc_action command) = false →
  (∀ owner, space_action (replica := replica) cfg st c owner command e time
            = (sv ← self; r ← lift (ok_or (st_roles st) "Space roles unavailable."); k sv owner)) →
  (is_erased st (vc_identity c) = false → leaves I (k sv (owner_of sv st c)) sv) →
  leaves I (space_command (replica := replica) cfg st c command e time draw) sv.
Proof.
  intros Hi Hatt Heq Hk. unfold space_command. apply wp_self_bind. apply leaves_lift_bind; [done|].
  intros u Hu. unfold admitted_command in Hu. step Hu u1 Hu1. step Hu u2 He. apply fail_if_Ok in He.
  apply leaves_lift_bind; [done|]. intros r Hr. apply ok_or_Ok in Hr. cbv zeta.
  unfold attachment_space_command. rewrite Hatt, Heq. cbn [negb].
  assert (can_manage (sv_authority sv) (vc_id c) && is_owner r (vc_identity c) = owner_of sv st c)
    as -> by (unfold owner_of; by rewrite Hr).
  apply wp_self_bind. apply leaves_lift_bind; [done|]. intros _ _. by apply Hk.
Qed.

(** ** Synchronisations *)

(** The General [next] that the body brings for [a], proved under the pinned witness, and the
    lease that covers it when the request is checked and again when the state is written. *)
Record synchronised (pin : WitnessPin) (a : Authority) (st : ServiceState) (c : VerifiedCredential)
    (body : value) (f : VerifiedFreshness) (instant time instant' later : N)
    (proof : CallAuthorityProof) (next : Authority) (h : StreamConfig) : Prop := {
  sy_carried : from_value (T := CallAuthorityProof) (value_index body "proof") = Some proof;
  sy_complete : pf_checkpoint proof = None;
  sy_verified : verify_witnessed proof (space a) (stream a) pin = Ok next;
  sy_genesis : sr_bytes (genesis next) = sr_bytes (genesis a);
  sy_proves : ∃ id prior, head a = Some id ∧ head_config a = Ok prior
    ∧ proves_config_at next id (sc_sequence prior) = true;
  sy_recovery : proves_recovery_ancestor next (recovery_id a) = true;
  sy_member : general_member next (vc_id c) = Some (vc_identity c);
  sy_fresh : freshness_is_valid f instant time = true ∧ freshness_is_valid f instant' later = true;
  sy_lease : fr_audience (vf_body f) = wp_url pin
    ∧ fr_witness_key_generation (vf_body f) = wp_key_generation pin
    ∧ fr_space_id (vf_body f) = space next ∧ fr_stream_id (vf_body f) = stream next
    ∧ Some (fr_authority_head (vf_body f)) = head next;
  sy_head : head_config next = Ok h;
  sy_restored : ∀ m, m ∈ sc_members h →
    is_erased st (m_identity_id m) = false
    ∧ ∀ id, id ∈ m_credential_ids m → is_revoked st id = false;
}.

Lemma lease_covers_all pin next f instant time :
  lease_covers pin next f instant time = true →
  freshness_is_valid f instant time = true
  ∧ fr_audience (vf_body f) = wp_url pin
  ∧ fr_witness_key_generation (vf_body f) = wp_key_generation pin
  ∧ fr_space_id (vf_body f) = space next ∧ fr_stream_id (vf_body f) = stream next
  ∧ Some (fr_authority_head (vf_body f)) = head next.
Proof.
  unfold lease_covers. intros H.
  repeat match goal with H : _ && _ = true |- _ => apply andb_true_iff in H as [H ?] end.
  repeat match goal with H : (_ === _) = true |- _ => apply bool_decide_eq_true in H end.
  match goal with H : (_ =? _) = true |- _ => apply N.eqb_eq in H end. done.
Qed.
Lemma restorable_kept sv st m :
  restorable sv st m = Ok tt →
  is_erased st (m_identity_id m) = false ∧ ∀ id, id ∈ m_credential_ids m → is_revoked st id = false.
Proof.
  unfold restorable. intros H. step H u Hu. apply fail_if_Ok in Hu. split; [done|]. intros id Hid.
  apply (try_fold_all _ _ id) in H; [|done]. step H u2 Hu2. by apply fail_if_Ok in H.
Qed.
Lemma prepared_revoked st0 st id : prepared st0 st → is_revoked st id = false → is_revoked st0 id = false.
Proof. intros Hp. unfold is_revoked. rewrite !bool_decide_eq_false. intros Hn Hi. by apply Hn, (pp_revoked _ _ Hp). Qed.
Lemma prepared_erased st0 st who : prepared st0 st → is_erased st who = is_erased st0 who.
Proof. intros Hp. unfold is_erased. by rewrite (pp_erased _ _ Hp). Qed.

Lemma synchronised_sound pin sv sv1 cfg st0 st c body f instant time instant' later next st' key :
  sv_trusted_witness sv = Some pin → synchronised_authority sv c body time = Ok next →
  general_member next (vc_id c) = Some (vc_identity c) →
  lease_covers pin next f instant time = true → freshness_is_valid f instant' later = true →
  prepared st0 st → synchronised_state sv1 cfg st next body later = Ok (st', key) →
  ∃ proof h, synchronised pin (sv_authority sv) st0 c body f instant time instant' later proof next h.
Proof.
  intros Hpin Hs Hm Hl Hf Hp Hst. unfold synchronised_state in Hst. step Hst h Hh. step Hst u Hu.
  apply map_err_Ok in Hh. unfold synchronised_authority in Hs. step Hs proof Hcar. step Hs u1 Hcomp.
  step Hs pin' Hpin'. step Hs next' Hver. step Hs id0 Hid. step Hs prior Hprior. step Hs u2 Hext.
  step Hs request Hreq. step Hs name Hown. injection Hs as ->. exists proof, h.
  rewrite Hpin in Hpin'. injection Hpin' as <-. apply ok_or_Ok in Hcar, Hid.
  apply map_err_Ok in Hver, Hprior. apply fail_if_Ok in Hcomp, Hext.
  apply orb_false_iff in Hext as [[H1%negb_false_iff H2%negb_false_iff]%orb_false_iff H3%negb_false_iff].
  apply bool_decide_eq_true in H1. apply lease_covers_all in Hl as (Hfr & Hl).
  apply bool_decide_eq_false, eq_None_not_Some in Hcomp. split; try done.
  - by exists id0, prior.
  - intros m Hmem. destruct u. apply (try_fold_all _ _ m) in Hu; [|done].
    apply restorable_kept in Hu as [He Hr]. rewrite <-(prepared_erased _ _ _ Hp). split; [done|].
    intros i Hi. eapply prepared_revoked; [done|]. by apply Hr.
Qed.

(** Whether a request may reach the commands of a witnessed Space. *)
Lemma authority_unwitnessed sv q time next c command :
  witnessed_request_authority sv q time = Ok next → verify_witnessed_request sv q time = Ok (c, command) →
  if hc_action command === "witness_sync"
  then synchronised_authority sv c (hc_body command) time = Ok next
       ∧ general_member next (vc_id c) = Some (vc_identity c)
  else needs_witness (hc_action command) = false ∧ next = sv_authority sv.
Proof.
  unfold witnessed_request_authority. intros H Hreq. rewrite Hreq in H. cbn in H. step H a Ha. step H cand Hcand.
  destruct (hc_action command === "witness_sync") eqn:Hact.
  - apply bool_decide_eq_true in Hact. destruct cand; [unfold relay_candidate in Hcand; by rewrite Hact in Hcand|].
    step H who Hw. step H known Hk. step H u2 Hu2. injection H as ->. split; [done|].
    apply fail_if_Ok, orb_false_iff in Hu2 as [Hwho _]. apply negb_false_iff, bool_decide_eq_true in Hwho as ->.
    unfold general_member. by destruct (require_member next (vc_id c)) as [?|]; [injection Hw as ->|].
  - step Ha u Hu. injection Ha as <-. apply fail_if_Ok in Hu. split; [done|].
    destruct cand; [by injection H|]. step H who Hw. step H known Hk. step H u2 Hu2. by injection H.
Qed.

Lemma relay_command_world cfg c command now sv sv1 x :
  witnessed_relay_command cfg c command now sv = (sv1, x) →
  sv_authority sv1 = sv_authority sv ∧ (x = Ok None → sv1 = sv)
  ∧ ∃ m, sv_stored sv1 = with_witness_requests (sv_stored sv) m.
Proof.
  assert (∃ m, sv_stored sv = with_witness_requests (sv_stored sv) m) as Hsame
    by (exists (st_witness_requests (sv_stored sv)); by destruct (sv_stored sv)).
  unfold witnessed_relay_command. destruct (is_relay_action _); cbn [negb]; [|by intros [= <- <-]].
  unfold mbind, M_bind, self, lift.
  destruct (service_state sv) as [st|] eqn:Hst; [|by intros [= <- <-]].
  apply service_state_stored in Hst as ->.
  destruct (relay_result _ _ _ _ _ _) as [[st' reply]|] eqn:Hrel; [|by intros [= <- <-]].
  apply relay_result_frame in Hrel as [m ->].
  unfold save_service_state. destruct (STATE_LIMIT <? _); [by intros [= <- <-]|].
  destruct (disk_state _); intros [= <- <-]; [|done]. split; [done|]. split; [done|].
  exists m. by destruct (sv_stored sv).
Qed.

Section Witnessed.
Context (I : Authority * ServiceState → Prop).
Hypothesis keeps_replies : ∀ a st m, I (a, st) → I (a, with_replies st m).
Hypothesis keeps_claimed : ∀ a st, I (a, st) → I (a, with_claimed st true).

Lemma synchronise_leaves cfg q c next body f instant' later sv :
  (∀ st, prepared (sv_stored sv) st → I (sv_authority sv, st)) →
  (∀ st st' key, prepared (sv_stored sv) st →
     synchronised_state sv cfg st next body later = Ok (st', key) →
     freshness_is_valid f instant' later = true → I (next, st')) →
  I (world (synchronise cfg q c next body f instant' later sv).1).
Proof.
  intros Hi Hs. unfold synchronise.
  match goal with |- I (world (?m sv).1) => assert (wp m sv (λ sv' _, I (world sv'))) as H; [|exact H] end.
  apply wp_self_bind. apply wp_lift_bind; [intros _; by apply Hi|]. intros _ _.
  apply wp_lift_bind; [intros _; by apply Hi|]. intros st Hst. apply service_state_stored in Hst as ->.
  apply wp_bind. unfold wp at 1. destruct (apply_device_revocations (sv_stored sv) sv) as [sv1 r1] eqn:Hrev.
  destruct (revocations_held _ _ _ _ (reflexivity _) Hrev) as [Hheld Hok].
  assert (I (world sv1)) as Hw by (unfold world; rewrite (hd_authority _ _ Hheld); apply Hi, Hheld).
  destruct r1 as [st1|]; cbn [fst snd]; [|done]. specialize (Hok st1 eq_refl).
  apply wp_lift_bind; [done|]. intros [st' key] Hst'. apply wp_lift_bind; [done|].
  intros u Hu. apply fail_if_Ok, negb_false_iff in Hu. specialize (Hs st1 st' key Hok Hst' Hu).
  apply wp_bind. unfold wp at 1, save_service_state. destruct (STATE_LIMIT <? _); [done|].
  destruct (disk_state _); [|done]. cbn [fst snd]. apply wp_bind. unfold wp at 1, put_authority. cbn [fst snd].
  apply wp_self_bind. by apply wp_lift_bind.
Qed.

Lemma witnessed_leaves cfg q f instant time instant' later draw sv :
  (∀ st, prepared (sv_stored sv) st → I (sv_authority sv, st)) →
  (∀ m, I (sv_authority sv, with_witness_requests (sv_stored sv) m)) →
  (∀ sv1 st c signed command,
     needs_witness (hc_action command) = false → hc_action command ≠ "witness_sync" →
     held sv sv1 → prepared (sv_stored sv) st → asked_for (sv_authority sv) q time c signed command →
     parent_present (sv_authority sv) c → recorded_intent st c signed command →
     leaves I (space_command (replica := true) cfg st c command (evidence_of signed c) later draw) sv1) →
  (∀ st st' key pin c signed command proof next h,
     sv_trusted_witness sv = Some pin → prepared (sv_stored sv) st →
     asked_for (sv_authority sv) q time c signed command → hc_action command = "witness_sync" →
     synchronised_authority sv c (hc_body command) time = Ok next →
     synchronised pin (sv_authority sv) (sv_stored sv) c (hc_body command) f instant time instant' later
       proof next h →
     synchronised_state sv cfg st next (hc_body command) later = Ok (st', key) → I (next, st')) →
  I (world (serve_hosted_witnessed_space cfg q f instant time instant' later draw sv).1).
Proof.
  intros Hi Hrel Hcmd Hsync. unfold serve_hosted_witnessed_space.
  match goal with |- I (world (?m sv).1) => assert (wp m sv (λ sv' _, I (world sv'))) as H; [|exact H] end.
  assert (I (world sv)) as Hw by (by apply Hi).
  apply wp_self_bind. apply wp_lift_bind; [done|]. intros next Hnext.
  apply wp_lift_bind; [done|]. intros pin Hpin. apply ok_or_Ok in Hpin.
  apply wp_lift_bind; [done|]. intros u Hlease. apply fail_if_Ok, negb_false_iff in Hlease.
  apply wp_lift_bind; [done|]. intros [c command] Hreq. apply wp_lift_bind; [done|]. intros _ _.
  apply wp_bind. unfold wp at 1.
  destruct (witnessed_relay_command cfg c command time sv) as [sv1 x] eqn:Hrelay.
  apply relay_command_world in Hrelay as (Ha & Hnone & m & Hm).
  assert (I (world sv1)) as Hw1 by (unfold world; rewrite Ha, Hm; apply Hrel).
  destruct x as [[reply|]|]; cbn [fst snd]; [done| |done]. rewrite (Hnone eq_refl). clear Hnone Hw1 Hm Ha.
  apply (authority_unwitnessed sv q time next c command) in Hnext; [|exact Hreq].
  apply witnessed_asked in Hreq as [signed Hask].
  destruct (hc_action command === "witness_sync") eqn:Hact; cbn [negb].
  - destruct Hnext as [Hsa Hmem]. apply bool_decide_eq_true in Hact. unfold wp.
    apply synchronise_leaves; [exact Hi|]. intros st st' key Hp Hst' Hfresh.
    destruct (synchronised_sound pin sv sv cfg (sv_stored sv) st c (hc_body command) f instant time instant'
      later next st' key Hpin Hsa Hmem Hlease Hfresh Hp Hst') as (proof & h & Hs).
    by eapply Hsync.
  - destruct Hnext as [Hneeds ->]. apply bool_decide_eq_false in Hact. unfold wp.
    apply inner_leaves; [done|done|exact Hi|]. intros sv2 st c2 signed2 command2 Hheld Hp Hask2 Hpar Hrec.
    destruct (asked_same _ _ _ _ _ _ _ _ _ _ _ Hask Hask2) as (-> & -> & ->). by apply Hcmd.
Qed.
End Witnessed.

End HostedAnswers.
