(* ===== verification/HostedInv.v ===== *)
(** * What stays true of a hosted Space

    Roles, the journal, the limits and deleted accounts, over every step of [HostedChanges] and
    every restart. *)

From S2P Require Import Prelude Sums Platform Ids Record Chat Identity AuthorityData AuthorityWitness Authority AuthorityProof WitnessWire CallWire Attachments WakeWire Revocations HostedRoles HostedState HostedAccess HostedFiles HostedCalls HostedAdmission HostedService HostedWitness HostedChanges HostedTracks HostedRuns.

(** ** Roles (public_space/roles.rs) *)

Lemma changed_frame r r' :
  changed r = Ok r' →
  ro_revision r' = ro_revision r + 1 ∧ ro_primary r' = ro_primary r ∧ ro_owners r' = ro_owners r
  ∧ ro_contact_email r' = ro_contact_email r.
Proof.
  unfold changed. intros H. step H n Hn. injection H as <-. apply ok_or_Ok in Hn.
  apply checked_add_Some in Hn as [-> _]. done.
Qed.

(** A command to take [who]'s ownership or membership away, or to approve a request for it. *)
Inductive removal_order (action : string) (body : value) (who : IdentityId) : Prop :=
| removal_changed kind t :
    action ≠ "role_decide" → field body "kind" = Ok kind → is_removal kind = true →
    field body "target" = Ok t → parse_id t = Ok who → removal_order action body who
| removal_decided :
    action = "role_decide" → value_as_bool (value_index body "approve") = Some true →
    removal_order action body who.

(** A change raises the revision by one; the primary owner alone makes an owner, with a
    [role_change], and alone takes one away, never himself. *)
Record role_step (r : Roles) (actor : IdentityId) (action : string) (body : value)
    (r' : Roles) (answer : RoleAnswer) : Prop := {
  rs_revision : ro_revision r' = ro_revision r + 1;
  rs_primary : ro_primary r' = ro_primary r;
  rs_gained : ∀ who, is_owner r' who = true → is_owner r who = true
    ∨ actor = ro_primary r ∧ action ≠ "role_decide" ∧ field body "kind" = Ok "make_owner"
      ∧ ∃ t, field body "target" = Ok t ∧ parse_id t = Ok who;
  rs_lost : ∀ who, is_owner r who = true → is_owner r' who = false →
    actor = ro_primary r ∧ who ≠ ro_primary r ∧ removal_order action body who;
  rs_removed : ∀ who, ra_removed_identity answer = Some who →
    who ≠ ro_primary r ∧ is_owner r' who = false;
}.

Lemma is_owner_true r who : is_owner r who = true ↔ who ∈ ro_owners r.
Proof. apply bool_decide_eq_true. Qed.
Lemma is_owner_false r who : is_owner r who = false ↔ who ∉ ro_owners r.
Proof. apply bool_decide_eq_false. Qed.
Hint Rewrite is_owner_true is_owner_false : owners.
Ltac owners := autorewrite with owners in *.

Lemma removal_step r actor action body who kind r' answer :
  is_removal kind = true → require_change_authority r actor who kind = Ok tt →
  removal_order action body who →
  ro_revision r' = ro_revision r + 1 → ro_primary r' = ro_primary r →
  ro_owners r' = ro_owners (remove_owner r who) →
  (∀ x, ra_removed_identity answer = Some x → x = who) →
  role_step r actor action body r' answer.
Proof.
  unfold require_change_authority. intros Hk H Hord Hrev Hp Ho Ha. step H u Hu. step H u2 Hu2.
  apply fail_if_Ok in Hu2, H. rewrite Hk in Hu2. cbn in Hu2. apply bool_decide_eq_false in Hu2.
  cbn in Ho. split; [done|done|intros x|intros x|intros x ->%Ha]; owners; rewrite Ho; [set_solver| |set_solver].
  intros Hx Hn. destruct (decide (x = who)) as [->|Hne]; [split; [|by split]|destruct Hn; apply elem_of_difference; split; [done|by apply not_elem_of_singleton]].
  apply andb_false_iff in H as [H|H]; [|by apply negb_false_iff, bool_decide_eq_true in H].
  apply orb_false_iff in H as [H1 H2]. apply contains_true in Hk. apply contains_false in H1.
  assert (kind = "remove_member") as -> by set_solver. cbn in H2.
  apply bool_decide_eq_false in H2. done.
Qed.

Lemma decide_change_step r actor body members r' answer :
  decide_change r actor body members = Ok (r', answer) →
  role_step r actor "role_decide" body r' answer.
Proof.
  unfold decide_change. intros H. step H i Hi. step H c Hc. step H approve Happ. step H u3 Hu3.
  step H r1 Hr1. step H r2 Hr2. injection H as <- <-. apply changed_frame in Hr2 as (Hrev & Hp & Ho & _).
  destruct approve; cbn [decision andb].
  - step Hr1 u4 Hu4. step Hr1 u5 Hu5. step Hr1 u6 Hu6. destruct (is_removal (ch_kind c)) eqn:Hk; [|done].
    injection Hr1 as <-. destruct u5. apply ok_or_Ok in Happ.
    eapply removal_step; [done|done|by apply removal_decided|done..|].
    intros x. unfold decision. cbn [ra_removed_identity andb]. destruct (_ === "remove_member"); [by intros [= ->]|done].
  - injection Hr1 as <-. cbn in *. split; [done|done|intros x|intros x|done]; owners; rewrite Ho; [by left|done].
Qed.

Lemma change_role_step r actor action body members r' answer :
  action ≠ "role_decide" → HostedRoles.change_role r actor body members = Ok (r', answer) →
  role_step r actor action body r' answer.
Proof.
  unfold HostedRoles.change_role. intros Hact H. step H u3 Hu3. step H tx Ht. step H target Htg.
  step H u4 Hu4. step H kind Hk. step H u5 Hu5. destruct (kind === "make_owner") eqn:Hmk.
  - step H u6 Hu6. step H r1 Hr1. injection H as <- <-.
    apply changed_frame in Hr1 as (Hrev & Hp & Ho & _). cbn in *. apply bool_decide_eq_true in Hmk as ->.
    unfold require_change_authority in Hu5. step Hu5 u7 Hu7. step Hu5 u8 Hu8.
    apply fail_if_Ok in Hu5. cbn in Hu5. apply negb_false_iff, bool_decide_eq_true in Hu5 as ->.
    split; [done|done|intros x|intros x|done]; owners; rewrite Ho; [|set_solver].
    intros [->%elem_of_singleton|?]%elem_of_union; [|by left]. right. eauto 10.
  - destruct (is_removal kind) eqn:Hr; [|done]. step H u6 Hu6. step H r1 Hr1. injection H as <- <-.
    apply changed_frame in Hr1 as (Hrev & Hp & Ho & _). destruct u5.
    eapply removal_step; [done|done|by eapply removal_changed|done..|].
    intros x. unfold decision. cbn [ra_removed_identity andb]. destruct (_ === "remove_member"); [by intros [= ->]|done].
Qed.

Lemma apply_with_id_step r actor action body members r' answer :
  apply_with_id r actor action body members = Ok (r', answer) →
  role_step r actor action body r' answer.
Proof.
  unfold apply_with_id. intros H. step H u Hu. step H u2 Hu2. destruct (action === "role_decide") eqn:Ha.
  - apply bool_decide_eq_true in Ha as ->. by eapply decide_change_step.
  - apply bool_decide_eq_false in Ha. by eapply change_role_step.
Qed.

Section HostedInv.
Context `{P : Platform} {SA : AuthoritySerde} {W : WitnessSerde} {U : UrlBase64}
  {HP : HostedPlatform} {HS : HostedSerde} {D : Disk}.

(** ** What is only ever added *)
Record grows (st st' : ServiceState) : Prop := {
  gr_journal : st_journal st `prefix_of` st_journal st';
  gr_erased : st_erased_accounts st ⊆ st_erased_accounts st';
  gr_revoked : st_revoked st ⊆ st_revoked st';
  gr_epoch : ∀ who, epoch_of st who ≤ epoch_of st' who;
  gr_creation : st_creation st' = st_creation st;
}.
#[local] Instance grows_reflexive : Reflexive grows.
Proof. split; done. Qed.
#[local] Instance grows_transitive : Transitive grows.
Proof.
  intros a b c [] []. split; [by etrans|by etrans|by etrans| |congruence].
  intros who. etrans; [apply gr_epoch0|apply gr_epoch1].
Qed.

Lemma erase_append sv cfg who e st append :
  account_deletion_intent sv cfg who e = Ok (st, append) →
  (append = true → ∃ x, e = Some x ∧ in_journal st (ev_record x) = false ∧ nlen (st_journal st) < 4096)
  ∧ (∀ r, st_roles st = Some r → is_owner r who = false).
Proof.
  unfold account_deletion_intent. intros H. step H ms Hms. step H u Hu. step H st1 Hst.
  step H h Hh. step H u2 Hu2. step H x Hx. step H c Hc. step H u3 Hu3. step H u4 Hu4.
  injection H as -> <-. apply ok_or_Ok in Hx. apply fail_if_Ok in Hu2, Hu4.
  split.
  - intros Ha. rewrite Ha in Hu4. cbn in Hu4. ordered. exists x.
    apply andb_true_iff in Ha as [_ Ha%negb_true_iff]. done.
  - intros r Hr. rewrite Hr in Hu2. by apply orb_false_iff in Hu2 as [].
Qed.

Lemma change_grows trusted cmd w w' : change trusted cmd w w' → grows w.2 w'.2.
Proof.
  intros Hc.
  destruct Hc; frames; cbn [snd] in *; try (split; done).
  - split; try done; cbn; [|set_solver].
    destruct Hrevoked as [[-> _]|(? & -> & _)]; [done|by apply prefix_app_r].
  - split; try done. cbn. by apply prefix_app_r.
  - split; try done. apply next_epoch_grows.
  - split; try done; cbn; [destruct append; [by apply prefix_app_r|done]|set_solver|].
    intros other. destruct (is_erased st who); [done|]. exact (next_epoch_grows st who other).
Qed.

(** The journal holds each record once and at most 4096 of them; what was published is its
    beginning. *)
Record journal_ok (st : ServiceState) : Prop := {
  jo_room : nlen (st_journal st) ≤ 4096;
  jo_once : NoDup (ev_record <$> st_journal st);
  jo_committed : st_committed_journal st `prefix_of` st_journal st;
}.
Lemma journal_push st st' e :
  journal_ok st → in_journal st (ev_record e) = false → nlen (st_journal st) < 4096 →
  st_journal st' = st_journal st ++ [e] → st_committed_journal st' = st_committed_journal st →
  journal_ok st'.
Proof.
  intros [Hn Ho Hc] Hi Hlt Hj Hcj. split; rewrite ?Hj, ?Hcj; [|rewrite fmap_app; apply NoDup_app|].
  - unfold nlen in *. rewrite length_app. cbn. lia.
  - split; [done|]. split; [|apply NoDup_singleton]. intros x (y & -> & Hy)%list_elem_of_fmap Hx.
    apply list_elem_of_singleton in Hx. unfold in_journal in Hi.
    rewrite <-not_true_iff_false, existsb_exists in Hi. apply Hi. exists y.
    apply list_elem_of_In in Hy. split; [done|]. by apply bool_decide_eq_true.
  - by apply prefix_app_r.
Qed.
Lemma change_journal_ok trusted cmd w w' : journal_ok w.2 → change trusted cmd w w' → journal_ok w'.2.
Proof.
  intros Hok Hc. destruct Hc; frames; cbn [snd] in *; try (destruct Hok; split; done).
  - destruct Hrevoked as [[-> _]|(target & -> & _ & Hn & Hi)]; [by destruct Hok; split|].
    by (eapply (journal_push st); [done| | |reflexivity|reflexivity]).
  - by (eapply (journal_push st); [done| | |reflexivity|reflexivity]).
  - match goal with H : account_deletion_intent _ _ _ _ = Ok _ |- _ =>
      apply erase_append in H as [Ha _] end. destruct append; [|by destruct Hok; split].
    destruct (Ha eq_refl) as (x1 & [= <-] & Hi & Hn). by (eapply (journal_push st); [done| | |reflexivity|reflexivity]).
Qed.

(** ** From a change to a run *)
Lemma run_keeps trusted (R : ServiceState → ServiceState → Prop) `{!Reflexive R, !Transitive R} :
  (∀ cmd w w', change trusted cmd w w' → R w.2 w'.2) →
  (∀ st m, R st (with_replies st m)) →
  ∀ w w', space_run trusted w w' → R w.2 w'.2.
Proof.
  intros Hc Hr w w'. induction 1 as [w|w w1 w2 Hs _ IH]; [done|]. etrans; [|done].
  destruct Hs as [w w' []|]; [by eapply Hc|apply Hr|done].
Qed.
Lemma run_inv trusted (I : ServiceState → Prop) :
  (∀ cmd w w', I w.2 → change trusted cmd w w' → I w'.2) →
  (∀ st m, I st → I (with_replies st m)) →
  ∀ w w', space_run trusted w w' → I w.2 → I w'.2.
Proof.
  intros Hc Hr w w'. induction 1 as [w|w w1 w2 Hs _ IH]; [done|]. intros HI. apply IH.
  destruct Hs as [w w' []|]; [by eapply Hc|by apply Hr|done].
Qed.

Lemma run_grows trusted w w' : space_run trusted w w' → grows w.2 w'.2.
Proof. apply run_keeps; [apply _..|intros cmd ??; apply change_grows|done]. Qed.

(** C24. The journal of a hosted Space is append-only: after any run of the host it is the old
    journal followed by more records, no record twice, at most 4096 of them, and what an owner
    last published is its beginning; so are the deleted accounts, the retired devices and each
    member's removal epoch never taken back, and the creation stays. *)
Theorem journal_append_only sv sv' :
  journal_ok (sv_stored sv) → host_run sv sv' →
  grows (sv_stored sv) (sv_stored sv') ∧ journal_ok (sv_stored sv').
Proof.
  intros Hok [_ Hr]%host_run_space. split; [by apply run_grows in Hr|].
  change (journal_ok (world sv').2). revert Hr Hok. apply run_inv.
  - intros cmd w w'. apply change_journal_ok.
  - intros st m []. by split.
Qed.

(** ** The owners *)

(** The roles are there, under one primary owner who stays an owner. *)
Definition roles_ok (primary : IdentityId) (st : ServiceState) : Prop :=
  ∃ r, st_roles st = Some r ∧ ro_primary r = primary ∧ is_owner r primary = true.
Definition owns (st : ServiceState) (who : IdentityId) : bool :=
  match st_roles st with Some r => is_owner r who | None => false end.

(** A request the primary owner has signed, kept in the journal. *)
Definition ordered_by (primary : IdentityId) (st : ServiceState) (command : Command) : Prop :=
  ∃ c signed, Signed c signed command ∧ vc_identity c = primary
    ∧ in_journal st (ev_record (evidence_of signed c)) = true.
(** The same, to make [who] an owner. *)
Definition promoted (primary : IdentityId) (st : ServiceState) (who : IdentityId) : Prop :=
  ∃ command t, ordered_by primary st command ∧ hc_action command = "role_change"
    ∧ field (hc_body command) "kind" = Ok "make_owner"
    ∧ field (hc_body command) "target" = Ok t ∧ parse_id t = Ok who.
(** The same, to take [who]'s ownership away. *)
Definition demoted (primary : IdentityId) (st : ServiceState) (who : IdentityId) : Prop :=
  ∃ command, ordered_by primary st command
    ∧ (hc_action command = "role_change" ∨ hc_action command = "role_decide")
    ∧ removal_order (hc_action command) (hc_body command) who.

(** Who becomes an owner was promoted by the primary owner, who stops being one was demoted. *)
Record owners_follow (primary : IdentityId) (st st' : ServiceState) : Prop := {
  of_gained : ∀ who, owns st' who = true → owns st who = true ∨ promoted primary st' who;
  of_lost : ∀ who, owns st who = true → owns st' who = false →
    who ≠ primary ∧ demoted primary st' who;
}.

Lemma in_journal_grows st st' x :
  grows st st' → in_journal st x = true → in_journal st' x = true.
Proof.
  intros [[l Hl] _ _ _ _]. unfold in_journal. rewrite Hl, existsb_app. by intros ->.
Qed.
Lemma ordered_grows primary st st' command :
  grows st st' → ordered_by primary st command → ordered_by primary st' command.
Proof. intros Hg (c & signed & ? & ? & ?). exists c, signed. eauto using in_journal_grows. Qed.
Lemma promoted_grows primary st st' who :
  grows st st' → promoted primary st who → promoted primary st' who.
Proof.
  intros Hg (command & t & ? & ?). exists command, t. eauto using ordered_grows.
Qed.
Lemma demoted_grows primary st st' who :
  grows st st' → demoted primary st who → demoted primary st' who.
Proof. intros Hg (command & ? & ?). exists command. eauto using ordered_grows. Qed.

(** The primary owner stays. Without a witness the owners follow his commands. *)
Definition owners_kept (trusted : option WitnessPin) (primary : IdentityId)
    (st st' : ServiceState) : Prop :=
  roles_ok primary st →
  grows st st' ∧ roles_ok primary st' ∧ (trusted = None → owners_follow primary st st').
Lemma owners_same trusted primary st st' :
  grows st st' → st_roles st' = st_roles st → owners_kept trusted primary st st'.
Proof.
  intros Hg Hr (r & H1 & H2 & H3). split; [done|]. split; [by exists r; rewrite Hr|]. intros _.
  split; unfold owns; rewrite Hr; [by left|]. by intros who ->.
Qed.
#[local] Instance owners_kept_reflexive trusted primary : Reflexive (owners_kept trusted primary).
Proof. intros st. by apply owners_same. Qed.
#[local] Instance owners_kept_transitive trusted primary : Transitive (owners_kept trusted primary).
Proof.
  intros a b c H1 H2 Ha. destruct (H1 Ha) as (Hab & Hb & F1). destruct (H2 Hb) as (Hbc & Hc & F2).
  split; [by etrans|]. split; [done|]. intros Ht. destruct (F1 Ht) as [G1 L1], (F2 Ht) as [G2 L2].
  split.
  - intros who [Hw|?]%G2; [|by right]. apply G1 in Hw as [?|?]; [by left|].
    right. by eapply promoted_grows.
  - intros who Hw Hn. destruct (owns b who) eqn:Hb2; [by apply L2|].
    destruct (L1 who Hw Hb2) as [Hp Hd]. split; [done|]. by eapply demoted_grows.
Qed.

Lemma changed_owners primary trusted sv st c signed command members r r' answer st' :
  hc_action command = "role_change" ∨ hc_action command = "role_decide" →
  Signed c signed command → recorded_intent st c signed command → st_roles st = Some r →
  apply_with_id r (vc_identity c) (hc_action command) (hc_body command) members = Ok (r', answer) →
  changed_state sv st r' answer = Ok st' → grows st st' →
  owners_kept trusted primary st st'.
Proof.
  intros Hact Hs Hrec Hr Happ Hch Hg (r0 & Hr0 & <- & Ho). rewrite Hr in Hr0. injection Hr0 as <-.
  apply apply_with_id_step in Happ as [_ Hp Hga Hlo Hrm].
  assert (∃ r2, st_roles st' = Some r2 ∧ ro_primary r2 = ro_primary r
          ∧ ∀ who, is_owner r2 who = is_owner r' who) as (r2 & Hr2 & Hp2 & Ho2).
  { apply changed_state_frame in Hch. destruct (ra_removed_identity answer) as [x|] eqn:Hx; [|subst; by eauto].
    destruct Hch as (h & r2 & _ & Hret & ->). apply retire_member_frame in Hret as (_ & Hp2 & _ & _ & Ho2).
    exists r2. split; [done|]. split; [congruence|]. intros who. destruct (Hrm x eq_refl) as [_ Hx2].
    apply is_owner_false in Hx2. apply bool_decide_ext. rewrite Ho2, elem_of_difference, elem_of_singleton.
    split; [by intros []|]. intros ?. split; [done|]. by intros ->. }
  assert (ordered_by (ro_primary r) st' command ∨ vc_identity c ≠ ro_primary r) as Hord.
  { destruct (decide (vc_identity c = ro_primary r)) as [He|]; [left|by right].
    exists c, signed. split; [done|]. split; [done|]. eapply in_journal_grows; [done|]. apply Hrec.
    by destruct Hact as [-> | ->]. }
  split; [done|]. split; [|intros _; split; unfold owns; rewrite Hr, Hr2].
  - exists r2. split; [done|]. split; [done|]. rewrite Ho2. destruct (is_owner r' _) eqn:Hn; [done|].
    by destruct (Hlo _ Ho Hn) as (_ & Hne & _).
  - intros who. rewrite Ho2. intros [?|(Hc & Hnd & Hk & t & Ht & Hw)]%Hga; [by left|].
    right. destruct Hord as [Hord|]; [|done]. exists command, t. destruct Hact; [|done]. done.
  - intros who Hw. rewrite Ho2. intros Hn. destruct (Hlo who Hw Hn) as (Hc & Hne & Hrem).
    split; [done|]. destruct Hord as [Hord|]; [|done]. by exists command.
Qed.

Lemma owners_equal trusted primary st st' :
  grows st st' →
  (∀ r, st_roles st = Some r → is_owner r primary = true → ∃ r', st_roles st' = Some r'
     ∧ ro_primary r' = ro_primary r ∧ ∀ who, is_owner r' who = is_owner r who) →
  owners_kept trusted primary st st'.
Proof.
  intros Hg H (r & H1 & H2 & H3). destruct (H r H1 H3) as (r' & Hr & Hp & Ho). split; [done|]. split.
  - exists r'. rewrite Hp, Ho. done.
  - intros _. split; unfold owns; intros who; rewrite Hr, H1, Ho; [by left|]. by intros ->.
Qed.
Lemma retire_other r who r' :
  retire_member r who = Ok r' → is_owner r who = false →
  ro_primary r' = ro_primary r ∧ ∀ other, is_owner r' other = is_owner r other.
Proof.
  intros (_ & Hp & _ & _ & Ho)%retire_member_frame Hn. split; [done|]. intros other.
  apply bool_decide_ext. rewrite Ho, elem_of_difference, elem_of_singleton.
  apply is_owner_false in Hn. split; [by intros []|]. intros ?. split; [done|]. by intros ->.
Qed.

Lemma change_owners trusted primary cmd w w' :
  change trusted cmd w w' → owners_kept trusted primary w.2 w'.2.
Proof.
  intros Hc. pose proof (change_grows _ _ _ _ Hc) as Hg. destruct Hc.
  16: by eapply changed_owners.
  all: frames; cbn [snd] in *; try (by apply owners_same).
  - apply owners_equal; [done|]. intros r1 Hr1 _.
    match goal with H : st_roles st = Some r |- _ => rewrite H in Hr1 end.
    injection Hr1 as <-. by eexists.
  - apply owners_equal; [done|]. intros r Hr _. rewrite Hr in *.
    match goal with H : account_deletion_intent _ _ _ _ = Ok _, H2 : transpose _ = Ok _ |- _ =>
      apply erase_append in H as [_ Hn]; cbn in H2;
      destruct (retire_member r who) as [r'|] eqn:Hret; [injection H2 as <-|done] end.
    exists r'. split; [done|]. apply (retire_other r who); [done|]. by apply Hn.
  - intros (r & Hr & <- & Ho).
    match goal with H : witnessed_roles _ _ _ = Ok _ |- _ =>
      apply witnessed_roles_frame in H as (_ & Hp & Hown & _ & hd & Hhd & _ & Hm) end.
    apply Hp in Hr as Hpr. split; [done|].
    split; [eexists; split; [reflexivity|by rewrite Hpr]|congruence].
Qed.
Lemma run_owners trusted primary w w' :
  space_run trusted w w' → owners_kept trusted primary w.2 w'.2.
Proof.
  apply run_keeps; [apply _..|intros ???; apply change_owners|by intros; apply owners_same; [split|]].
Qed.

End HostedInv.

(** * What a hosted Space never keeps

    Deleted accounts stay out, the tables stay bounded, and the heads of chats and the stored
    files only move forward, over every step of [HostedRuns.host_step]. *)


Section HostedLimits.
Context `{P : Platform} {SA : AuthoritySerde} {W : WitnessSerde} {U : UrlBase64}
  {HP : HostedPlatform} {HS : HostedSerde} {D : Disk}.

(** ** Deleted accounts *)

Definition nobody (m : gmap string Applicant) (who : IdentityId) : Prop :=
  ∀ key a, m !! key = Some a → ap_identity a ≠ who.
Definition erased_out (st : ServiceState) : Prop :=
  ∀ who, is_erased st who = true → nobody (st_applicants st) who ∧ st_notes st !! who = None.

Lemma nobody_update (u : string → Applicant → Applicant) m who :
  (∀ k a, ap_identity (u k a) = ap_identity a) → nobody m who → nobody (update_all u m) who.
Proof. intros Hu H key a (b & Hb & <-)%update_all_Some. rewrite Hu. by eapply H. Qed.
Lemma nobody_insert (m : gmap string Applicant) k x who :
  nobody m who → ap_identity x ≠ who → nobody (<[k := x]> m) who.
Proof. intros H Hx key a [[_ <-]|[_ ?]]%lookup_insert_Some; [done|by eapply H]. Qed.
Lemma nobody_delete (p : string → Applicant → bool) m who : nobody m who → nobody (delete_all p m) who.
Proof. intros H key a [? _]%delete_all_Some. by eapply H. Qed.

Lemma erased_applicants st st' :
  erased_out st → st_erased_accounts st' = st_erased_accounts st → st_notes st' = st_notes st →
  (∀ who, is_erased st who = true → nobody (st_applicants st) who → nobody (st_applicants st') who) →
  erased_out st'.
Proof.
  intros Hok He Hn Ha who. unfold is_erased. rewrite He, Hn. intros Hw.
  destruct (Hok who Hw) as [??]. auto.
Qed.
Lemma erased_prune st t : erased_out st → erased_out (prune_applicants st t).
Proof.
  intros H. apply (erased_applicants st); [done..|]. intros who _ Hn. unfold prune_applicants. cbn.
  destruct (_ <=? _); auto using nobody_delete.
Qed.
Lemma erased_insert st key x :
  erased_out st → is_erased st (ap_identity x) = false → erased_out (with_applicant st key x).
Proof.
  intros H Hx. apply (erased_applicants st); [done..|]. intros who Hw Hn. apply nobody_insert; [done|].
  intros <-. congruence.
Qed.
Lemma erased_present st key x : erased_out st → st_applicants st !! key = Some x →
  is_erased st (ap_identity x) = false.
Proof.
  intros H Hx. destruct (is_erased st (ap_identity x)) eqn:He; [|done].
  by destruct (proj1 (H _ He) _ _ Hx).
Qed.

Lemma erased_erase st st' who :
  erased_out st → st_erased_accounts st' = {[who]} ∪ st_erased_accounts st →
  st_applicants st' = delete_all (λ _ a, ap_identity a === who) (st_applicants st) →
  st_notes st' = delete who (st_notes st) → erased_out st'.
Proof.
  intros Hok He Ha Hn other Ho. apply bool_decide_eq_true in Ho. rewrite He in Ho. rewrite Ha, Hn.
  destruct (decide (other = who)) as [->|Hne].
  - split; [|apply lookup_delete_eq]. by intros key b [_ ?%bool_decide_eq_false]%delete_all_Some.
  - rewrite lookup_delete_ne by done. assert (is_erased st other = true) as [H1 H2]%Hok
      by (apply bool_decide_eq_true; set_solver). split; [by apply nobody_delete|done].
Qed.

(** Who an enrollment request is for does not depend on the clock. *)
Lemma space_applicant_same sv sv' r t t' x y :
  space_applicant sv r t = Ok x → space_applicant sv' r t' = Ok y → x.1 = y.1.
Proof.
  unfold space_applicant. intros H H'. step H p Hp. step H' p' Hp'. rewrite Hp in Hp'.
  injection Hp' as <-. step H en He. step H' en' He'. rewrite He in He'. injection He' as <-.
  step H c Hc. step H' c' Hc'. rewrite Hc in Hc'. injection Hc' as <-. inv_ok. done.
Qed.
Lemma synchronised_own sv c body t next r :
  synchronised_authority sv c body t = Ok next → read_enrollment body = Ok r →
  ∃ name, space_applicant sv r t = Ok (vc_identity c, vc_id c, name).
Proof.
  unfold synchronised_authority. intros H Hr. inv_ok.
  match goal with H : read_enrollment body = Ok _, H2 : own_applicant _ _ _ _ _ = Ok _ |- _ =>
    rewrite Hr in H; injection H as <-; unfold own_applicant in H2;
    apply bind_Ok in H2 as ([[who d] nm] & Ha & H2) end.
  step Hx7 u Hu. apply fail_if_Ok, orb_false_iff in Hu as [H1 H2]. exists nm. rewrite Ha.
  apply negb_false_iff, bool_decide_eq_true in H1 as ->.
  by apply negb_false_iff, bool_decide_eq_true in H2 as ->.
Qed.

Lemma change_erased_out trusted cmd w w' : erased_out w.2 → change trusted cmd w w' → erased_out w'.2.
Proof.
  intros Hok Hc. destruct Hc; frames; cbn [snd] in *; try done.
  - by apply erased_prune.
  - by apply erased_prune.
  - by apply erased_insert.
  - apply erased_insert; [done|]. destruct H0 as [-> _]. by eapply erased_present.
  - apply erased_insert; [done|]. match goal with H : st_applicants st !! _ = Some ?y |- _ => exact (erased_present st _ y Hok H) end.
  - apply (erased_applicants st); [done..|]. intros who _. apply nobody_update. intros k b.
    by destruct (ap_identity b === s).
  - apply (erased_applicants st); [done..|]. intros who _. apply nobody_update. intros k b.
    unfold approve_enrolled. by destruct (_ && _).
  - by apply (erased_erase st _ who).
  - intros other Ho. destruct (Hok other Ho) as [H5 H6]. split; [done|]. cbn.
    rewrite lookup_insert_ne; [done|]. intros <-. change (is_erased st who = true) in Ho. congruence.
  - apply (erased_applicants st); [done..|]. intros other Ho Hn. cbn. apply nobody_insert.
    + by apply nobody_update.
    + match goal with H : synchronised_authority _ _ _ _ = Ok _, H2 : read_enrollment _ = Ok _,
        H3 : space_applicant _ _ _ = Ok _ |- _ =>
        destruct (synchronised_own _ _ _ _ _ _ H H2) as [nm Hown];
        pose proof (space_applicant_same _ _ _ _ _ _ _ H3 Hown) as E end.
      cbn in E |- *. injection E as -> _. intros <-. congruence.
Qed.

(** A deleted account has no access, whatever General says. *)
Lemma erased_no_access sv who :
  is_erased (sv_stored sv) who = true →
  member_admitted sv who = false
  ∧ (∀ l, space_access_members sv = Ok l → who ∉ l)
  ∧ (∀ id, general_member (sv_authority sv) id = Some who → device_admitted sv id = false).
Proof.
  intros He. assert (member_admitted sv who = false) as Hm.
  { unfold member_admitted. destruct (head_config _) as [h|]; [|done].
    destruct (service_state sv) as [st|] eqn:Hst; [|by rewrite andb_false_r].
    apply service_state_stored in Hst as ->. by rewrite He, andb_false_r. }
  split; [done|]. split.
  - intros l H. unfold space_access_members in H. step H st Hst. step H h Hh. injection H as <-.
    apply service_state_stored in Hst as ->. intros [Hw|Hw]%sorted_set_elem%elem_of_app;
      apply list_elem_of_fmap in Hw as (x & -> & Hx); apply list_elem_of_In, filter_In in Hx as [_ Hx].
    + unfold let_in in Hx. by rewrite He in Hx.
    + by rewrite Hm, andb_false_r in Hx.
  - intros id Hid. unfold device_admitted. rewrite Hid.
    destruct (service_state sv) as [st|] eqn:Hst; [|done].
    apply service_state_stored in Hst as ->. by rewrite He, andb_false_r.
Qed.

(** C17. An account deleted from a hosted Space stays out of it through every later step: no
    request and no Notes are kept for it, it is in no list of members with access, and none of
    its devices is admitted, whatever the Space's configuration still says. *)
Theorem deleted_account_stays_out sv0 sv who :
  erased_out (sv_stored sv0) → is_erased (sv_stored sv0) who = true → host_run sv0 sv →
  erased_out (sv_stored sv) ∧ is_erased (sv_stored sv) who = true
  ∧ nobody (st_applicants (sv_stored sv)) who ∧ st_notes (sv_stored sv) !! who = None
  ∧ member_admitted sv who = false ∧ (∀ l, space_access_members sv = Ok l → who ∉ l)
  ∧ (∀ id, general_member (sv_authority sv) id = Some who → device_admitted sv id = false).
Proof.
  intros Hok He [_ Hr]%host_run_space. assert (erased_out (sv_stored sv)) as Hout.
  { change (erased_out (world sv).2). revert Hr Hok. apply run_inv; [intros cmd w w'; apply change_erased_out|done]. }
  assert (is_erased (sv_stored sv) who = true) as He2.
  { apply run_grows in Hr as [_ Hg _ _ _]. apply bool_decide_eq_true in He.
    apply bool_decide_eq_true. by apply Hg. }
  destruct (Hout who He2) as [Hn Hnn]. split; [done|]. split; [done|]. split; [done|]. split; [done|].
  by apply erased_no_access.
Qed.

(** ** Limits *)

(** The bytes a file counts for. *)
Definition counted (a : HostedAttachment) : N :=
  if counts_as_used a || counts_as_reserved a then ha_encrypted_size a else 0.
Definition stored_bytes (st : ServiceState) : N := sum_over (λ _ a, counted a) (st_attachments st).
Lemma counts_by_state a :
  counts_as_used a = match ha_state a with Available | DeletingExpired | DeletingDeleted => true | _ => false end
  ∧ counts_as_reserved a = match ha_state a with Reserved | Uploaded => true | _ => false end
  ∧ is_terminal a = match ha_state a with Deleted | Expired | Missing => true | _ => false end.
Proof. unfold counts_as_used, counts_as_reserved, is_terminal. by destruct (ha_state a). Qed.
Ltac by_state a := unfold counted; destruct (counts_by_state a) as (-> & -> & ?).
Lemma stored_bytes_split st : used_bytes st + reserved_bytes st = stored_bytes st.
Proof.
  unfold used_bytes, reserved_bytes, stored_bytes. rewrite <-sum_over_plus. apply sum_over_ext.
  intros _ a _. by_state a. destruct (ha_state a); cbn; lia.
Qed.

Definition msize `{Countable K} {V} (m : gmap K V) : N := N.of_nat (size m).
Record within_limits (st : ServiceState) : Prop := {
  wl_offers : msize (st_offers st) ≤ 128;
  wl_replies : msize (st_replies st) ≤ 8192;
  wl_heads : msize (st_call_heads st) ≤ 4096;
  wl_notes : msize (st_notes st) ≤ 1000;
  wl_requests : msize (st_witness_requests st) ≤ 128;
  wl_files : msize (st_attachments st) ≤ MAX_ATTACHMENT_ENTRIES;
  wl_bytes : used_bytes st + reserved_bytes st ≤ MAX_SPACE_ATTACHMENT_STORAGE;
}.

Lemma msize_insert `{Countable K} {V} (m : gmap K V) k v n :
  msize m ≤ n → (m !! k = None → msize m < n) → msize (<[k := v]> m) ≤ n.
Proof.
  unfold msize. intros Hm Hn. destruct (m !! k) eqn:Hk.
  - rewrite map_size_insert_Some by eauto. done.
  - rewrite map_size_insert_None by done. specialize (Hn eq_refl). lia.
Qed.
Lemma msize_delete `{Countable K} {V} (p : K → V → bool) (m : gmap K V) n :
  msize m ≤ n → msize (delete_all p m) ≤ n.
Proof. unfold msize. pose proof (size_delete_all p m). lia. Qed.
Lemma msize_empty `{Countable K} {V} n : msize (∅ : gmap K V) ≤ n.
Proof. unfold msize. rewrite map_size_empty. lia. Qed.

(** What may happen to a stored file. *)
Definition moves (s s' : HostedAttachmentState) : bool :=
  match s, s' with
  | Reserved, (Reserved | Uploaded | DeletingDeleted | Missing)
  | Uploaded, (Uploaded | Available | DeletingDeleted | Missing)
  | Available, (Available | DeletingExpired | DeletingDeleted | Missing)
  | DeletingExpired, (DeletingExpired | Expired | DeletingDeleted | Missing)
  | DeletingDeleted, (DeletingDeleted | Deleted | Missing)
  | Expired, (Expired | Missing) | Deleted, (Deleted | Missing) | Missing, Missing => true
  | _, _ => false
  end.
Record row_next (a b : HostedAttachment) : Prop := {
  rn_object : ha_object_id b = ha_object_id a;
  rn_issuer : ha_issuer b = ha_issuer a;
  rn_plain : ha_plaintext_size b = ha_plaintext_size a;
  rn_encrypted : ha_encrypted_size b = ha_encrypted_size a;
  rn_checksum : ha_ciphertext_sha256 b = ha_ciphertext_sha256 a;
  rn_created : ha_created_at_ms b = ha_created_at_ms a;
  rn_expires : ha_expires_at_ms b = ha_expires_at_ms a;
  rn_moves : moves (ha_state a) (ha_state b) = true;
  rn_message : ha_message_id b = ha_message_id a ∨ ha_state a = Available;
}.
#[local] Instance row_next_reflexive : Reflexive row_next.
Proof. intros a. split; try done; [|by left]. by destruct (ha_state a). Qed.
Lemma row_counted a b : row_next a b → counted b ≤ counted a.
Proof.
  intros [_ _ _ Hs _ _ _ Hm _]. by_state a. by_state b. rewrite Hs.
  destruct (ha_state a), (ha_state b); try done; cbn; lia.
Qed.

(** Every file was there, and moved. *)
Definition files_next (m m' : gmap AttachmentId HostedAttachment) : Prop :=
  ∀ id b, m' !! id = Some b → ∃ a, m !! id = Some a ∧ row_next a b.
#[local] Instance files_next_reflexive : Reflexive files_next.
Proof. intros m id b Hb. by exists b. Qed.
Lemma next_size m m' : files_next m m' → msize m' ≤ msize m.
Proof.
  intros H. unfold msize. enough (size m' ≤ size m)%nat by lia. apply size_le.
  intros id b Hb. destruct (H id b Hb) as (a & Ha & _). by exists a.
Qed.
Lemma next_bytes m m' :
  files_next m m' → sum_over (λ _ a, counted a) m' ≤ sum_over (λ _ a, counted a) m.
Proof.
  intros H. apply sum_over_le. intros id b Hb. destruct (H id b Hb) as (a & Ha & Hn).
  exists a. split; [done|]. by apply row_counted.
Qed.
Lemma next_set m id a b : m !! id = Some a → row_next a b → files_next m (<[id := b]> m).
Proof. intros Ha Hn j c [[<- <-]|[_ Hc]]%lookup_insert_Some; [by exists a|by exists c]. Qed.
Lemma next_delete m m' id : files_next m m' → files_next m (delete id m').
Proof. intros H j b [_ Hb]%lookup_delete_Some. by apply H. Qed.
Lemma next_update u m : (∀ id a, row_next a (u id a)) → files_next m (update_all u m).
Proof. intros Hu id b (a & Ha & <-)%update_all_Some. by exists a. Qed.

Lemma state_next a s : moves (ha_state a) s = true → row_next a (in_state a s).
Proof. intros H. split; try done. by left. Qed.
Lemma age_next t a : row_next a (age t a).
Proof.
  unfold age. repeat match goal with |- context [if ?b then _ else _] => destruct b eqn:Hs; [
    apply state_next; repeat apply andb_true_iff in Hs as [Hs _]; apply bool_decide_eq_true in Hs;
    by rewrite Hs|clear Hs] end. reflexivity.
Qed.
Lemma old_next before a : row_next a (if old_available before a then in_state a DeletingDeleted else a).
Proof.
  destruct (old_available before a) eqn:H; [|reflexivity]. unfold old_available in H.
  apply andb_true_iff in H as [Hs _]. apply bool_decide_eq_true in Hs. apply state_next. by rewrite Hs.
Qed.


(** A file change moves files, or reserves room for a new one. *)
Record reserved_new (st st' : ServiceState) : Prop := {
  rv_row : ∃ id a, st_attachments st !! id = None ∧ st_attachments st' = <[id := a]> (st_attachments st)
    ∧ ha_state a = Reserved ∧ ha_message_id a = None ∧ ha_plaintext_size a ≤ MAX_ATTACHMENT_FILE_SIZE
    ∧ ha_encrypted_size a = encrypted_size (ha_plaintext_size a)
    ∧ is_erased st (ha_issuer a) = false
    ∧ (∀ j b, st_attachments st !! j = Some b → ha_object_id b ≠ ha_object_id a)
    ∧ used_bytes st + reserved_bytes st + ha_encrypted_size a ≤ MAX_SPACE_ATTACHMENT_STORAGE;
  rv_room : msize (st_attachments st) < MAX_ATTACHMENT_ENTRIES;
}.
Lemma bind_checked a b c m :
  match checked_add a b ≫= (λ n, checked_add n c) with Some n => n <=? m | None => false end = true →
  a + b + c ≤ m.
Proof.
  destruct (checked_add a b) as [n|] eqn:Hn; [|done]. cbn. apply checked_add_Some in Hn as [-> _].
  destruct (checked_add (a + b) c) as [k|] eqn:Hk; [|done]. apply checked_add_Some in Hk as [-> _].
  apply N.leb_le.
Qed.
Ltac in_states := match goal with
  | H : contains _ (ha_state ?a) = true |- _ => apply contains_true in H; destruct (ha_state a); set_solver
  | H : ha_state ?a = _ |- _ => by rewrite H
  end.
Lemma pass_next st t : files_next (st_attachments st) (st_attachments (cleanup_pass st t)).
Proof.
  unfold cleanup_pass. generalize (forgotten st t). intros l. set (st1 := with_attachments _ _).
  assert (files_next (st_attachments st) (st_attachments st1)) as H1
    by (apply next_update; intros _; apply age_next).
  clearbody st1. revert st1 H1. induction l as [|id l IH]; intros st1 H1; [done|]. cbn [foldl]. apply IH.
  by apply next_delete.
Qed.
Lemma reserve_new st c body t draw st' reply :
  is_erased st (vc_identity c) = false → reserve st c body t draw = Ok (st', reply) → reserved_new st st'.
Proof.
  unfold reserve. intros He H. inv_ok. injection H as <- _. ordered.
  unfold require_upload_capacity in *. unfold fits in *. inv_ok. ordered.
  match goal with H : ¬ is_Some _, H2 : existsb _ _ = false, H3 : context [checked_add] |- _ =>
    apply eq_None_not_Some in H; rename H into Hid; rename H2 into Hobject; rename H3 into Hfits end.
  apply bind_checked in Hfits. split; [|done]. do 2 eexists. split; [exact Hid|]. split; [reflexivity|].
  cbn. repeat (split; [done|]). split; [|lia].
  intros j b Hb Heq. rewrite <-not_true_iff_false, existsb_exists in Hobject. apply Hobject.
  exists b. split; [|by apply bool_decide_eq_true]. apply list_elem_of_In, btree_values_elem. eauto.
Qed.

Lemma file_change_next st st' :
  file_change st st' → files_next (st_attachments st) (st_attachments st') ∨ reserved_new st st'.
Proof.
  destruct 1 as [??????? He H|???? H|???? H|???? H|??????? H|??? H|????? H|???? H|?? t|???? H|???? H|??|??].
  - right. by eapply reserve_new.
  - left. unfold cancel in H. step H i Hi. destruct (st_attachments st !! i) as [a|] eqn:Ha; [|done].
    inv_ok. simplify_eq.
    destruct (is_terminal a) eqn:Ht; [reflexivity|]. eapply next_set; [done|]. apply state_next.
    destruct (counts_by_state a) as (_ & _ & Ht2). rewrite Ht in Ht2. by destruct (ha_state a).
  - left. unfold commit in H. inv_ok. eapply next_set; [done|]. apply state_next. by in_states.
  - left. unfold link in H. inv_ok. eapply next_set; [done|]. split; try done; [|by right].
    by destruct (ha_state _).
  - left. unfold download in H. step H i Hi. destruct (st_attachments st !! i) as [a|]; [|done].
    destruct (availability a _) as [[]|]; try done. inv_ok. simplify_eq. reflexivity.
  - left. unfold set_retention in H. inv_ok. reflexivity.
  - left. unfold cleanup in H. inv_ok. simplify_eq. apply next_update. intros _. apply old_next.
  - left. unfold uploaded in H. inv_ok. eapply next_set; [done|]. apply state_next. by in_states.
  - left. apply pass_next.
  - left. unfold finish_cleanup in H. inv_ok. eapply next_set; [done|]. split; try done; [|by left].
    cbn. by destruct (ha_state _); simplify_eq.
  - left. unfold mark_missing in H. inv_ok. eapply next_set; [done|]. split; try done; [|by left].
    cbn. by destruct (ha_state _).
  - left. reflexivity.
  - left. reflexivity.
Qed.

Lemma file_change_limits st st' : within_limits st → file_change st st' → within_limits st'.
Proof.
  intros [H1 H2 H3 H4 H5 H6 H7] Hf. pose proof (file_change_next _ _ Hf) as Hn. frames.
  rewrite stored_bytes_split in H7. split; try done; rewrite ?stored_bytes_split; destruct Hn as [Hn|[Hr Hroom]].
  - apply next_size in Hn. cbn in *. lia.
  - destruct Hr as (id & b & Hid & -> & _). by apply msize_insert.
  - apply next_bytes in Hn. unfold stored_bytes in *. cbn in *. lia.
  - destruct Hr as (id & b & Hid & Hb & _ & _ & _ & _ & _ & _ & Hfit).
    unfold stored_bytes in *. rewrite Hb, sum_over_insert by done. rewrite stored_bytes_split in Hfit.
    unfold stored_bytes in Hfit. unfold counted at 1. destruct (_ || _); lia.
Qed.

Lemma record_head_room sv st c sp stream_ proof st' h :
  record_head sv st c sp stream_ proof = Ok (st', h) →
  msize (st_call_heads st) ≤ 4096 → msize (st_call_heads st') ≤ 4096.
Proof.
  unfold record_head. intros H Hn. inv_ok. simplify_eq. apply msize_insert; [done|]. intros Hk.
  match goal with H : head_accepted _ _ _ _ _ _ = Ok _ |- _ =>
    unfold head_accepted in H; rewrite Hk in H end.
  inv_ok. ordered. done.
Qed.
Lemma relay_room sv cfg st c command now st' reply :
  relay_result sv cfg st c command now = Ok (st', reply) →
  msize (st_witness_requests st) ≤ 128 → msize (st_witness_requests st') ≤ 128.
Proof.
  unfold relay_result. intros H Hn. repeat case_bool_decide.
  - unfold relay_request in H. step H packet Hp. step H candidate Hc. step H u Hu.
    destruct (st_witness_requests st !! da_request_id packet); inv_ok; simplify_eq; [done|].
    ordered. by apply msize_insert.
  - by inv_ok; simplify_eq.
  - by inv_ok; simplify_eq.
  - unfold relay_decision in H. step H u Hu. step H i Hi. step H p Hp. step H u2 Hu2.
    step H p2 Hp2. injection H as <- _. apply ok_or_Ok in Hp. apply msize_insert; [done|].
    congruence.
Qed.
Lemma notes_room general who next stored expected n :
  notes_update general who next stored expected n = Ok true → stored = None → n < 1000.
Proof. unfold notes_update. intros H ->. inv_ok. by ordered. Qed.

Lemma change_limits trusted cmd w w' : within_limits w.2 → change trusted cmd w w' → within_limits w'.2.
Proof.
  intros Hok Hc. destruct Hc; try (by eapply file_change_limits).
  all: try match goal with
    | H : record_head _ _ _ _ _ _ = Ok _ |- _ => pose proof (record_head_room _ _ _ _ _ _ _ _ H)
    | H : relay_result _ _ _ _ _ _ = Ok _ |- _ => pose proof (relay_room _ _ _ _ _ _ _ _ H)
    end.
  all: frames; cbn [snd] in *; destruct Hok; split; try done; cbn; eauto using msize_delete, msize_empty.
  - apply msize_insert; [|done]. unfold drop_closed_offers. destruct (_ <=? _); [by apply msize_delete|done].
  - apply msize_insert; [done|]. congruence.
  - by apply msize_insert.
  - unfold msize in *. enough (size (delete who (st_notes st)) ≤ size (st_notes st))%nat by lia.
    apply size_le. intros k v [_ Hk]%lookup_delete_Some. by exists v.
  - apply msize_insert; [done|]. intros Hk. subst stored. by eapply notes_room.
Qed.

(** C28. A hosted Space stays within its limits through any run of its host: 128 invitations, 8192
    remembered answers, 4096 chat heads, 1000 Notes chats, 128 relayed admission requests and
    4096 files, and the files that are kept or on their way never exceed the Space's quota. *)
Theorem hosted_space_bounded sv sv' :
  within_limits (sv_stored sv) → host_run sv sv' → within_limits (sv_stored sv').
Proof.
  intros Hok [_ Hr]%host_run_space. change (within_limits (world sv').2).
  change (within_limits (world sv).2) in Hok. revert Hok.
  induction Hr as [w|w w1 w2 Hs _ IH]; [done|]. intros Hok. apply IH.
  destruct Hs as [w w' [? ? ? Hc|a st c nonce x Hall _]|]; [by eapply change_limits| |done].
  destruct Hok. split; try done. cbn in *. by apply msize_insert.
Qed.

(** Whatever happens to a hosted Space, a stored file only moves forward: it keeps its
    object, issuer, sizes, hash and dates, its state follows one edge of its life cycle, and a
    message is linked to it only while it is available; a new file is a reservation by an
    account that is not deleted, of at most the allowed size, under an unused object, within
    the quota. *)
Theorem hosted_file_life_cycle trusted cmd w w' id b :
  change trusted cmd w w' → st_attachments w'.2 !! id = Some b →
  (∃ a, st_attachments w.2 !! id = Some a ∧ row_next a b)
  ∨ st_attachments w.2 !! id = None ∧ ha_state b = Reserved ∧ ha_message_id b = None
    ∧ ha_plaintext_size b ≤ MAX_ATTACHMENT_FILE_SIZE
    ∧ ha_encrypted_size b = encrypted_size (ha_plaintext_size b)
    ∧ is_erased w.2 (ha_issuer b) = false
    ∧ (∀ j a, st_attachments w.2 !! j = Some a → ha_object_id a ≠ ha_object_id b)
    ∧ used_bytes w.2 + reserved_bytes w.2 + ha_encrypted_size b ≤ MAX_SPACE_ATTACHMENT_STORAGE.
Proof.
  intros Hc Hb. destruct Hc; [|destruct (file_change_next _ _ H) as [Hn|[Hr _]]|..].
  2: by left; apply Hn.
  2: { destruct Hr as (i & x & Hi & Hx & Hrest). cbn in *. rewrite Hx in Hb.
       apply lookup_insert_Some in Hb as [[<- <-]|[_ Hb]]; [by right|left]. by exists b. }
  all: left; frames; cbn in *; by exists b.
Qed.

End HostedLimits.

(** * What a step of the host has checked

    What each command that publishes, admits or changes owners has checked, read from the
    request the step was handed. *)


Section HostedAuthority.
Context `{P : Platform} {SA : AuthoritySerde} {W : WitnessSerde} {U : UrlBase64}
  {HP : HostedPlatform} {HS : HostedSerde} {D : Disk}.

(** ** Publications *)

(** Why a device may be in a published configuration. *)
Definition device_reason (st : ServiceState) (prior : StreamConfig) (next : Authority)
    (who : IdentityId) (id : RecordId) : Prop :=
  has_device prior who id = true
  ∨ (∃ c parent, credential next id = Ok c ∧ authorizing_device c = Some parent
       ∧ is_revoked st parent = false ∧ has_device prior who parent = true)
  ∨ ∃ x, st_applicants st !! display id = Some x ∧ ap_identity x = who ∧ ap_status x = "eligible".
(** [body] is what the command of [c] publishes over the General [a], on the state [st]. *)
Record published_by (a : Authority) (st : ServiceState) (c : VerifiedCredential) (body : value)
    (proof : CallAuthorityProof) (next : Authority) (prior h : StreamConfig) (r : Roles) : Prop := {
  pb_expected : value_eq_id (value_index body "expected_head") (head a) = true;
  pb_carried : from_value (T := CallAuthorityProof) (value_index body "proof") = Some proof;
  pb_complete : pf_checkpoint proof = None ∧ pf_genesis proof = pf_genesis (st_proof st);
  pb_verified : proof_verify proof (space a) (stream a) = Ok next;
  pb_prior : head_config a = Ok prior;
  pb_head : head_config next = Ok h;
  pb_roles : st_roles st = Some r;
  pb_signer : can_manage a (vc_id c) = true ∧ is_revoked st (vc_id c) = false
    ∧ is_erased st (vc_identity c) = false;
  pb_one : head next = head a
    ∨ sc_previous_config_id h = head a ∧ sc_sequence h = saturating_add (sc_sequence prior) 1;
  pb_proves : ∃ id, head a = Some id ∧ proves_config_at next id (sc_sequence prior) = true;
  pb_recovery : proves_recovery_ancestor next (recovery_id a) = true;
  pb_managed : is_owner_managed next = true;
  pb_owners : managers h = ro_owners r;
  pb_journal : ∃ digest, journal_commitment (st_journal st) = Ok digest
    ∧ ca_request_record_id (sc_action h) = digest;
  pb_members : ∀ m, m ∈ sc_members h →
    m_capabilities m = expected_capabilities (is_owner r (m_identity_id m))
    ∧ is_erased st (m_identity_id m) = false
    ∧ (is_removed st (m_identity_id m) = true →
       has_applicant st (m_identity_id m) ["eligible"; "approved"] = true)
    ∧ ∀ id, id ∈ m_credential_ids m →
        is_revoked st id = false ∧ device_reason st prior next (m_identity_id m) id;
  pb_kept : ∀ m id, m ∈ sc_members prior → id ∈ m_credential_ids m →
    has_device h (m_identity_id m) id = true ∨ is_revoked st id = true
    ∨ is_erased st (m_identity_id m) = true ∨ removal_blocks st (m_identity_id m) = true;
}.

Lemma device_allowed_reason replica sv st prior next m seconds id :
  device_allowed replica sv st prior next m seconds id = Ok tt →
  is_revoked st id = false ∧ device_reason st prior next (m_identity_id m) id.
Proof.
  unfold device_allowed. intros H. step H u1 H1. step H u2 H2. step H u3 H3. step H c Hc. step H u4 H4.
  apply fail_if_Ok in H1, H. split; [done|].
  destruct (has_device prior (m_identity_id m) id) eqn:Hd; [by left|]. right.
  apply map_err_Ok in Hc. cbn [negb andb] in H. apply andb_false_iff in H as [H|H]; apply negb_false_iff in H.
  - left. destruct (authorizing_device c) as [parent|] eqn:Hp; [|done].
    apply andb_true_iff in H as [[Hr Hd2]%andb_true_iff _].
    exists c, parent. rewrite negb_true_iff in *. done.
  - right. destruct (st_applicants st !! display id) as [x|]; [|done]. exists x.
    by apply andb_true_iff in H as [->%bool_decide_eq_true ->%bool_decide_eq_true].
Qed.

Lemma extends_head_one previous next prior h :
  extends_head previous next = Ok tt → head_config previous = Ok prior → head_config next = Ok h →
  is_owner_managed next = true
  ∧ (∃ id, head previous = Some id ∧ proves_config_at next id (sc_sequence prior) = true)
  ∧ proves_recovery_ancestor next (recovery_id previous) = true
  ∧ (head next = head previous
     ∨ sc_previous_config_id h = head previous ∧ sc_sequence h = saturating_add (sc_sequence prior) 1).
Proof.
  unfold extends_head. intros H Hprior Hh. rewrite Hprior, Hh in H. cbn in H.
  step H id0 Hid. step H u Hu. apply ok_or_Ok in Hid.
  apply fail_if_Ok in Hu, H. apply orb_false_iff in Hu as [[[Hm%negb_false_iff Hp%negb_false_iff]%orb_false_iff
    Hr%negb_false_iff]%orb_false_iff _]. split; [done|]. split; [by exists id0|]. split; [done|].
  destruct (decide (head next = head previous)) as [|Hne]; [by left|right].
  apply andb_false_iff in H as [H|H]; [by apply negb_false_iff, bool_decide_eq_true in H|].
  apply orb_false_iff in H as [H1%negb_false_iff H2%negb_false_iff].
  apply bool_decide_eq_true in H1. by apply N.eqb_eq in H2.
Qed.

Lemma check_publication_sound replica sv st c body seconds proof next :
  check_publication replica sv st c body seconds = Ok (proof, next) →
  sv_trusted_witness sv = None
  ∧ ∃ prior h r, published_by (sv_authority sv) st c body proof next prior h r.
Proof.
  unfold check_publication. intros H. step H u1 H1. step H reply Hs. step H p Hp. destruct p as [proof' next'].
  step H u2 H2. step H prior Hprior. step H h Hh. step H r Hr. step H u3 H3. step H u4 H4.
  step H u5 H5. step H u6 H6. injection H as -> ->. destruct u5, u2.
  apply fail_if_Ok, bool_decide_eq_false, eq_None_not_Some in H1. split; [done|]. exists prior, h, r.
  apply map_err_Ok in Hprior, Hh. apply ok_or_Ok in Hr.
  destruct (extends_head_one _ _ _ _ H2 Hprior Hh) as (Hman & Hproves & Hrec & Hone).
  unfold authority_status in Hs. unfold next_authority in Hp. unfold members_kept in H4.
  step Hp u7 Hexp. step Hp proof' Hcar. step Hp u8 Hcomp. step Hp next' Hver. step Hp h' Hh'.
  step Hp dig Hdig. step Hp u9 Hcom. injection Hp as -> ->. apply map_err_Ok in Hver, Hh'.
  rewrite Hh in Hh'. injection Hh' as <-. apply fail_if_Ok in H3, H4, Hexp, Hcomp, Hcom.
  apply negb_false_iff in H3, H4, Hexp, Hcom. apply bool_decide_eq_true in H3, Hcom.
  apply orb_false_iff in Hcomp as [Hc1 Hc2%negb_false_iff]. apply bool_decide_eq_true in Hc2.
  apply bool_decide_eq_false, eq_None_not_Some in Hc1. apply ok_or_Ok in Hcar.
  split; try done.
  - step Hs u0 Hsig. apply fail_if_Ok in Hsig. apply orb_false_iff in Hsig as [[Hm%negb_false_iff Hrv]%orb_false_iff He]. done.
  - eauto.
  - intros m Hm. apply (try_fold_all _ _ _ H5) in Hm. unfold member_allowed in Hm. step Hm v1 Hv1.
    step Hm v2 Hv2. apply fail_if_Ok in Hv1, Hv2. apply negb_false_iff, bool_decide_eq_true in Hv1.
    apply orb_false_iff in Hv2 as [Hv2 Hv3]. split; [done|]. split; [done|]. split.
    + intros Hrm. rewrite Hrm in Hv3. by apply negb_false_iff in Hv3.
    + intros id Hid. eapply device_allowed_reason. by eapply (try_fold_all _ _ _ Hm).
  - intros m id Hm Hid. rewrite forallb_forall in H4. specialize (H4 m (proj1 (list_elem_of_In _ _) Hm)).
    unfold member_kept in H4. apply orb_true_iff in H4 as [H4|H4]; [apply orb_true_iff in H4; naive_solver|].
    rewrite forallb_forall in H4. specialize (H4 id (proj1 (list_elem_of_In _ _) Hid)).
    apply orb_true_iff in H4. naive_solver.
Qed.

Lemma publish_leaves I replica st c body seconds sv :
  I (world sv) →
  (∀ proof next prior h r,
     sv_trusted_witness sv = None → published_by (sv_authority sv) st c body proof next prior h r →
     I (next, published_state st proof next)) →
  leaves I (publish_authority replica st c body seconds) sv.
Proof.
  intros Hi Hp. apply wp_self_bind. apply leaves_lift_bind; [done|]. intros [proof next] Hck.
  apply check_publication_sound in Hck as (Ht & prior & h & r & Hpub).
  specialize (Hp proof next prior h r Ht Hpub).
  unfold leaves, wp, mbind, M_bind, save_service_state, put_authority.
  destruct (STATE_LIMIT <? _); [by split|]. destruct (disk_state _); [|by split].
  split; [done|]. by intros ?? [= <- <-].
Qed.

(** ** The other steps *)

(** A step that changes neither the General, nor who owns the Space, and lets nobody in. *)
Record quiet (sv sv' : Service) : Prop := {
  qt_authority : sv_authority sv' = sv_authority sv;
  qt_proof : st_proof (sv_stored sv') = st_proof (sv_stored sv);
  qt_committed : st_committed_journal (sv_stored sv') = st_committed_journal (sv_stored sv);
  qt_owners : ∀ who, owns (sv_stored sv') who = owns (sv_stored sv) who;
  qt_applicants : st_applicants (sv_stored sv') ⊆ st_applicants (sv_stored sv);
}.
Lemma quiet_step_refl sv : quiet sv sv.
Proof. by split. Qed.
Lemma quiet_saved sv st :
  (st_proof st = st_proof (sv_stored sv) ∧ st_committed_journal st = st_committed_journal (sv_stored sv)
   ∧ (∀ who, owns st who = owns (sv_stored sv) who) ∧ st_applicants st ⊆ st_applicants (sv_stored sv)) →
  quiet sv (save_service_state st sv).1.
Proof.
  intros (? & ? & ? & ?). unfold save_service_state. destruct (STATE_LIMIT <? _); [apply quiet_step_refl|].
  destruct (disk_state st); [by split|apply quiet_step_refl].
Qed.
Lemma quiet_then {A B} (m : M A) (f : A → M B) sv :
  quiet sv (m sv).1 → (∀ a sv', f a sv' = (sv', (f a sv').2)) → quiet sv ((m ≫= f) sv).1.
Proof. intros Hq Hf. unfold mbind, M_bind. destruct (m sv) as [sv' [a|e]]; [by rewrite Hf|done]. Qed.
Lemma host_change_quiet {A} (f : ServiceState → result string (ServiceState * A)) sv :
  (∀ st st' x, f st = Ok (st', x) → file_change st st') → quiet sv (HostedFiles.host_change f sv).1.
Proof.
  intros Hf. unfold HostedFiles.host_change.
  match goal with |- quiet _ (?m sv).1 => assert (wp m sv (λ sv' _, quiet sv sv')) as H; [|exact H] end.
  apply wp_self_bind. apply wp_lift_bind; [intros; apply quiet_step_refl|]. intros st Hst.
  apply service_state_stored in Hst as ->. apply wp_lift_bind; [intros; apply quiet_step_refl|].
  intros [st' x] Hx. unfold wp. apply quiet_then; [|done]. apply quiet_saved. apply Hf in Hx. by frames.
Qed.
Lemma erase_quiet cfg who e sv : quiet sv (erase_service_account cfg who e sv).1.
Proof.
  unfold erase_service_account.
  match goal with |- quiet _ (?m sv).1 => assert (wp m sv (λ sv' _, quiet sv sv')) as H; [|exact H] end.
  apply wp_self_bind. apply wp_lift_bind; [intros; apply quiet_step_refl|]. intros [st append] Hi.
  apply wp_lift_bind; [intros; apply quiet_step_refl|]. intros e' _.
  apply wp_lift_bind; [intros; apply quiet_step_refl|]. intros st' Hst'. unfold wp. apply quiet_saved.
  assert (st = sv_stored sv) as ->.
  { unfold account_deletion_intent in Hi. inv_ok. simplify_eq. by apply service_state_stored. }
  apply erase_append in Hi as [_ Hn]. apply erased_state_frame in Hst' as (roles & Hroles & ->). cbn.
  split; [by destruct append|]. split; [by destruct append|]. split; [|apply map_filter_subseteq].
  intros other. unfold owns. cbn. destruct (st_roles (sv_stored sv)) as [r|]; [|by injection Hroles as <-].
  cbn in Hroles. destruct (retire_member r who) as [r'|] eqn:Hret; [|done]. injection Hroles as <-.
  by apply (retire_other r who r' Hret (Hn r eq_refl)).
Qed.
Lemma bootstrap_quiet address require current draw sv :
  quiet sv (bootstrap_space_invitation address require current draw sv).1.
Proof.
  unfold bootstrap_space_invitation.
  match goal with |- quiet _ (?m sv).1 => assert (wp m sv (λ sv' _, quiet sv sv')) as H; [|exact H] end.
  apply wp_self_bind. do 4 (apply wp_lift_bind; [intros; apply quiet_step_refl|]; intros ? _).
  apply wp_lift_bind; [intros; apply quiet_step_refl|]. intros st Hst. apply service_state_stored in Hst as ->. cbv zeta.
  do 6 (apply wp_lift_bind; [intros; apply quiet_step_refl|]; intros ? _).
  destruct (st_offers _ !! _); [apply quiet_step_refl|]. do 2 (apply wp_lift_bind; [intros; apply quiet_step_refl|]; intros ? _).
  unfold wp. apply quiet_then; [|done]. apply quiet_saved. cbn. split; [done|]. split; [done|]. split; [done|].
  exact (pp_applicants _ _ (prepared_prune (sv_stored sv) current)).
Qed.

(** The host answers [q], with or without a witness; [clock] and [later] are its two clocks. *)
Inductive answered (sv sv' : Service) (q : Request) (clock later : N) : Prop :=
| answered_plain replica cfg draw :
    sv_trusted_witness sv = None →
    sv' = (serve_space replica cfg q clock later draw sv).1 → answered sv sv' q clock later
| answered_witnessed pin cfg f instant instant' draw :
    sv_trusted_witness sv = Some pin →
    sv' = (serve_hosted_witnessed_space cfg q f instant clock instant' later draw sv).1 →
    answered sv sv' q clock later.

Lemma serve_space_inner_eq replica cfg q current time draw sv :
  sv_trusted_witness sv = None →
  (serve_space replica cfg q current time draw sv).1 = (serve_space_inner replica cfg q current time draw sv).1.
Proof. intros H. unfold serve_space, mbind, M_bind, self, lift, fail_if. by rewrite H. Qed.
Lemma serve_space_pinned replica cfg q current time draw sv :
  is_Some (sv_trusted_witness sv) → (serve_space replica cfg q current time draw sv).1 = sv.
Proof.
  intros H. unfold serve_space, mbind, M_bind, self, lift, fail_if. by rewrite bool_decide_eq_true_2.
Qed.
Lemma witnessed_unpinned cfg q f instant time instant' later draw sv :
  sv_trusted_witness sv = None →
  (serve_hosted_witnessed_space cfg q f instant time instant' later draw sv).1 = sv.
Proof.
  intros H. unfold serve_hosted_witnessed_space, mbind, M_bind, self, lift.
  destruct (witnessed_request_authority _ _ _); [|done]. cbn. by rewrite H.
Qed.

(** What a step of the host is: a quiet one, an answer or a restart. *)
Inductive step_kind (sv sv' : Service) : Prop :=
| kind_quiet : quiet sv sv' → step_kind sv sv'
| kind_plain replica cfg q current time draw :
    sv_trusted_witness sv = None →
    sv' = (serve_space replica cfg q current time draw sv).1 → step_kind sv sv'
| kind_witnessed pin cfg q f instant time instant' later draw :
    sv_trusted_witness sv = Some pin →
    sv' = (serve_hosted_witnessed_space cfg q f instant time instant' later draw sv).1 → step_kind sv sv'
| kind_reopened :
    verify_general_authority (st_proof (sv_stored sv)) (sv_trusted_witness sv) = Ok (sv_authority sv') →
    sv_stored sv' = sv_stored sv → sv_trusted_witness sv' = sv_trusted_witness sv → step_kind sv sv'.
Lemma host_step_kind sv sv' : host_step sv sv' → step_kind sv sv'.
Proof.
  destruct 1.
  - destruct (sv_trusted_witness sv) as [pin|] eqn:Ht; [|by eapply kind_plain].
    rewrite serve_space_pinned by (rewrite Ht; eauto). apply kind_quiet, quiet_step_refl.
  - destruct (sv_trusted_witness sv) as [pin|] eqn:Ht; [by eapply kind_witnessed|].
    rewrite witnessed_unpinned by done. apply kind_quiet, quiet_step_refl.
  - apply kind_quiet, erase_quiet.
  - apply kind_quiet, bootstrap_quiet.
  - apply kind_quiet, host_change_quiet. intros st st' x Hx. step Hx st1 H1. injection Hx as <- _. by eapply file_uploaded.
  - apply kind_quiet, host_change_quiet. intros st st' x [= <- <-]. apply file_pass.
  - apply kind_quiet, host_change_quiet. intros st st' x Hx. step Hx st1 H1. injection Hx as <- _. by eapply file_finish.
  - apply kind_quiet, host_change_quiet. intros st st' x Hx. step Hx st1 H1. injection Hx as <- _. by eapply file_missing.
  - apply kind_quiet. unfold set_attachment_storage_available.
    match goal with |- quiet _ (?m sv).1 => assert (wp m sv (λ sv' _, quiet sv sv')) as H; [|exact H] end.
    apply wp_self_bind. apply wp_lift_bind; [intros; apply quiet_step_refl|]. intros st Hst.
    apply service_state_stored in Hst as ->. destruct (negb _); [|apply quiet_step_refl]. unfold wp. by apply quiet_saved.
  - by apply kind_quiet.
  - unfold open_with_witness in H. inv_ok. by apply kind_reopened.
Qed.


(** ** Any change of General *)

Definition same_general (a : Authority) (st : ServiceState) (w : Authority * ServiceState) : Prop :=
  w.1 = a ∧ st_proof w.2 = st_proof st ∧ st_committed_journal w.2 = st_committed_journal st.
Lemma changes_general trusted command a st0 st w :
  hc_action command ≠ "authority_publish" → trusted = None ∨ hc_action command ≠ "witness_sync" →
  prepared st0 st → changes trusted (Some command) (a, st) w → same_general a st0 w.
Proof.
  intros H1 H2 Hp Hw. assert (same_general a st0 (a, st)) as H0 by (destruct Hp; by split).
  revert H0. induction Hw as [w|w w1 w2 Hc _ IH]; [done|]. intros (Ha & Hpr & Hcm). apply IH.
  destruct Hc; try (destruct H2; congruence); frames; by split.
Qed.
Lemma prepared_general a st0 st : prepared st0 st → same_general a st0 (a, st).
Proof. intros []. by split. Qed.

(** The request publishes the General of [w]: an owner's device has signed it. *)
Definition publication (sv : Service) (q : Request) (clock : N) (w : Authority * ServiceState) : Prop :=
  ∃ c signed command st proof prior h r,
    asked_for (sv_authority sv) q clock c signed command ∧ hc_action command = "authority_publish"
    ∧ prepared (sv_stored sv) st
    ∧ published_by (sv_authority sv) st c (hc_body command) proof w.1 prior h r
    ∧ st_proof w.2 = proof ∧ st_committed_journal w.2 = st_journal st.
(** The request brings the General of [w]: the witness has signed it. *)
Definition synchronisation (pin : WitnessPin) (sv : Service) (q : Request) (f : VerifiedFreshness)
    (instant time instant' later : N) (w : Authority * ServiceState) : Prop :=
  ∃ c signed command proof h,
    asked_for (sv_authority sv) q time c signed command ∧ hc_action command = "witness_sync"
    ∧ synchronised pin (sv_authority sv) (sv_stored sv) c (hc_body command) f instant time instant' later
        proof w.1 h
    ∧ call_proof w.1 = Ok (st_proof w.2).

(** What one step of the host does to the General it holds, the proof of it that it stores and
    the journal that its owners have published. *)
Inductive general_step (sv sv' : Service) : Prop :=
| general_kept : same_general (sv_authority sv) (sv_stored sv) (world sv') → general_step sv sv'
| general_published replica cfg q current time draw :
    sv_trusted_witness sv = None → sv' = (serve_space replica cfg q current time draw sv).1 →
    publication sv q current (world sv') → general_step sv sv'
| general_synchronised pin cfg q f instant time instant' later draw :
    sv_trusted_witness sv = Some pin →
    sv' = (serve_hosted_witnessed_space cfg q f instant time instant' later draw sv).1 →
    synchronisation pin sv q f instant time instant' later (world sv') → general_step sv sv'
(** The host starts again, and proves the General from the proof it stores. *)
| general_reopened :
    verify_general_authority (st_proof (sv_stored sv)) (sv_trusted_witness sv) = Ok (sv_authority sv') →
    sv_stored sv' = sv_stored sv → general_step sv sv'.

Lemma publish_action replica cfg st c owner command e time :
  hc_action command = "authority_publish" →
  space_action (replica := replica) cfg st c owner command e time
  = (sv ← self; r ← lift (ok_or (st_roles st) "Space roles unavailable.");
     publish_authority replica st c (hc_body command) (time / 1000)).
Proof. intros H. unfold space_action. by rewrite H. Qed.

Lemma plain_general replica cfg q current time draw sv (w := world (serve_space replica cfg q current time draw sv).1) :
  sv_trusted_witness sv = None →
  same_general (sv_authority sv) (sv_stored sv) w ∨ publication sv q current w.
Proof.
  intros Hnone. subst w. rewrite serve_space_inner_eq by done.
  set (I := λ w, same_general (sv_authority sv) (sv_stored sv) w ∨ publication sv q current w).
  change (I (world (serve_space_inner replica cfg q current time draw sv).1)). apply inner_leaves; [done|done| |].
  { intros st Hp. left. by apply prepared_general. }
  intros sv1 st c signed command [Ha Ht Hp1] Hp Hask Hpar Hrec.
  assert (I (world sv1)) as Hw by (left; unfold world; rewrite Ha; by apply prepared_general).
  destruct (decide (hc_action command = "authority_publish")) as [Hact|Hact].
  - eapply (special_leaves I _ _ _ _ _ _ _ _ _ (λ _ _, publish_authority replica st c (hc_body command) (time / 1000)));
      [done|by rewrite Hact|intros; by apply publish_action|]. intros _. apply publish_leaves; [done|].
    intros proof next prior h r _ Hpub. rewrite Ha in Hpub. right.
    by exists c, signed, command, st, proof, prior, h, r.
  - apply (command_leaves I _ _ _ _ _ _ _ _ _ _ _ _ Hask Hrec Hw). intros w Hch. rewrite Ha in Hch. left.
    eapply changes_general; [done| |done|done]. left. by rewrite Ht.
Qed.
Lemma witnessed_general pin cfg q f instant time instant' later draw sv
    (w := world (serve_hosted_witnessed_space cfg q f instant time instant' later draw sv).1) :
  sv_trusted_witness sv = Some pin →
  same_general (sv_authority sv) (sv_stored sv) w ∨ synchronisation pin sv q f instant time instant' later w.
Proof.
  intros Hpin. subst w.
  set (I := λ w, same_general (sv_authority sv) (sv_stored sv) w
                 ∨ synchronisation pin sv q f instant time instant' later w).
  change (I (world (serve_hosted_witnessed_space cfg q f instant time instant' later draw sv).1)).
  apply witnessed_leaves; [done|done| | | |].
  - intros st Hp. left. by apply prepared_general.
  - intros m. by left.
  - intros sv1 st c signed command Hneeds Hsync [Ha Ht Hp1] Hp Hask Hpar Hrec.
    apply (command_leaves I _ _ _ _ _ _ _ _ _ _ _ _ Hask Hrec).
    + left. unfold world. rewrite Ha. by apply prepared_general.
    + intros w Hch. rewrite Ha in Hch. left. eapply changes_general; [|by right|done|done].
      intros H. by rewrite H in Hneeds.
  - intros st st' key pin2 c signed command proof next h Hpin2 Hp Hask Hact _ Hs Hst.
    rewrite Hpin in Hpin2. injection Hpin2 as <-. right. exists c, signed, command, proof, h.
    repeat (split; [done|]). by frames.
Qed.

(** C5. The General a host holds, the proof it stores of it and the journal its owners have
    published change in one step only these ways. Without a witness the request of that very
    step, fresh and signed for this Space by a device that may manage it, publishes the proof in
    its body: it verifies, and its head is the old one or its direct successor, commits the
    journal, is managed by exactly the recorded owners, holds only devices that were there
    before, are linked by one that was or have an approved request, none retired and none of a
    deleted account, and leaves nobody out without a recorded removal. With a witness the
    request brings a proof that verifies under the pinned witness and extends the stored General
    from the same genesis, and the lease handed in with it is valid and names exactly its head.
    A restart takes the General that the stored proof proves. *)
Theorem general_changes_authorized sv sv' : host_step sv sv' → general_step sv sv'.
Proof.
  intros [Hq|replica cfg q current time draw Hnone ->|pin cfg q f instant time instant' later draw Hpin ->
    |Hv Hs _]%host_step_kind.
  - apply general_kept. by destruct Hq.
  - destruct (plain_general replica cfg q current time draw sv Hnone); [by apply general_kept|].
    by eapply general_published.
  - destruct (witnessed_general pin cfg q f instant time instant' later draw sv Hpin); [by apply general_kept|].
    by eapply general_synchronised.
  - by apply general_reopened.
Qed.


(** ** Approvals *)

(** The device a request is kept under is in General. *)
Definition in_general (a : Authority) (key : string) : Prop :=
  ∃ id, (parse_hex 32 key = Some id ∨ key = display id) ∧ is_Some (general_member a id).
Definition owner_device (sv : Service) (c : VerifiedCredential) : Prop :=
  can_manage (sv_authority sv) (vc_id c) = true ∧ owns (sv_stored sv) (vc_identity c) = true.
(** Why the request [q] may grant [who] the request kept under [key], when it leaves [w]. *)
Inductive grants (sv : Service) (q : Request) (clock later : N) (w : Authority * ServiceState)
    (key : string) (who : IdentityId) : Prop :=
| grants_decided c signed command a :
    asked_for (sv_authority sv) q clock c signed command → hc_action command = "decide" →
    owner_device sv c → in_journal w.2 (ev_record (evidence_of signed c)) = true →
    field (hc_body command) "id" = Ok key →
    value_as_bool (value_index (hc_body command) "approve") = Some true →
    st_applicants (sv_stored sv) !! key = Some a → ap_status a = "pending" → ap_identity a = who →
    grants sv q clock later w key who
| grants_invited c signed command st id o :
    asked_for (sv_authority sv) q clock c signed command → hc_action command = "join" →
    key = display (vc_id c) → who = vc_identity c →
    field (hc_body command) "token" = Ok (of_token o) →
    st_offers (sv_stored sv) !! id = Some o → offer_open later o = true →
    (of_require_approval o = true → owner_device sv c) →
    is_removed (sv_stored sv) who = false →
    prepared (sv_stored sv) st → device_was_declined st key = Ok false →
    grants sv q clock later w key who
| grants_linked c signed command st h parent :
    asked_for (sv_authority sv) q clock c signed command → hc_action command = "status" →
    key = display (vc_id c) → who = vc_identity c →
    authorizing_device c = Some parent → head_config (sv_authority sv) = Ok h →
    has_device h who (vc_id c) = true ∨ has_device h who parent = true →
    has_applicant (sv_stored sv) who ["approved"] = true ∨ has_device h who (vc_id c) = true →
    prepared (sv_stored sv) st → device_was_declined st key = Ok false →
    grants sv q clock later w key who.

(** Requests keep their word, or lose it. *)
Definition words (st st' : ServiceState) : Prop :=
  ∀ key b, st_applicants st' !! key = Some b →
  (∃ x, st_applicants st !! key = Some x ∧ ap_status x = ap_status b ∧ ap_identity x = ap_identity b)
  ∨ ap_status b ≠ "approved" ∧ ap_status b ≠ "eligible".
#[local] Instance words_reflexive : Reflexive words.
Proof. intros st key b Hb. left. eauto. Qed.
#[local] Instance words_transitive : Transitive words.
Proof.
  intros s1 s2 s3 H1 H2 key b [(x & Hx & Hs & Hi)|?]%H2; [|by right]. apply H1 in Hx as [(y & ? & ? & ?)|[? ?]].
  - left. exists y. repeat split; congruence.
  - right. by rewrite <-Hs.
Qed.
Lemma words_subset st st' : st_applicants st' ⊆ st_applicants st → words st st'.
Proof. intros H key b Hb. left. exists b. split; [|done]. by eapply lookup_weaken. Qed.
Lemma words_refresh st key b b' :
  st_applicants st !! key = Some b → refreshes b b' → words st (with_applicant st key b').
Proof.
  intros Hb (Hi & _ & _ & Hs) k x Hx. cbn in Hx. apply lookup_insert_Some in Hx as [[<- <-]|[_ Hx]]; [|by left; eauto].
  destruct Hs as [Hs|[_ Hs]]; [left; by exists b|right; by rewrite Hs].
Qed.
Lemma words_update st (u : string → Applicant → Applicant) :
  (∀ k a, ap_identity (u k a) = ap_identity a
          ∧ (ap_status (u k a) = ap_status a ∨ ap_status (u k a) = "removed")) →
  words st (with_applicants st (update_all u (st_applicants st))).
Proof.
  intros Hu key b (x & Hx & <-)%update_all_Some. destruct (Hu key x) as [Hi [Hs|Hs]]; [left; by exists x|right; by rewrite Hs].
Qed.

(** The commands that may let somebody in. *)
Definition admits (command : Command) : bool :=
  contains ["join"; "status"; "decide"; "authority_publish"] (hc_action command).
Lemma changes_words trusted command w w' :
  admits command = false → trusted = None ∨ hc_action command ≠ "witness_sync" →
  changes trusted (Some command) w w' → words w.2 w'.2.
Proof.
  intros Hact Hsync. induction 1 as [w|w w1 w2 Hc _ IH]; [done|]. etrans; [|exact IH]. clear IH.
  apply contains_false in Hact.
  destruct Hc; try (simplify_eq; set_solver); try (destruct Hsync; congruence); frames; cbn [snd];
    try (by apply words_subset).
  - apply words_subset, prepared_prune.
  - apply words_subset. exact (pp_applicants _ _ (prepared_prune (with_offers st _) t)).
  - by eapply words_refresh.
  - apply (words_update st). intros k b. destruct (ap_identity b === _); split; auto.
Qed.


(** A request that leaves [w] keeps its word, or has a reason for a new one. *)
Definition word_kept (sv : Service) (q : Request) (clock later : N) (w : Authority * ServiceState)
    (key : string) (b : Applicant) : Prop :=
  ∀ word, ap_status b = word → word = "approved" ∨ word = "eligible" →
  (∃ x, st_applicants (sv_stored sv) !! key = Some x ∧ ap_status x = word ∧ ap_identity x = ap_identity b)
  ∨ word = "approved" ∧ in_general w.1 key
  ∨ word = "eligible" ∧ grants sv q clock later w key (ap_identity b).

Section Words.
Context (sv : Service) (q : Request) (clock later : N).
Definition words_kept (w : Authority * ServiceState) : Prop :=
  ∀ key b, st_applicants w.2 !! key = Some b → word_kept sv q clock later w key b.

Lemma words_words w : words (sv_stored sv) w.2 → words_kept w.
Proof.
  intros Hw key b Hb. apply Hw in Hb as [(x & Hx & Hs & Hi)|[H1 H2]].
  - intros word <- _. left. by exists x.
  - by intros word <- [].
Qed.
Lemma words_prepared a st : prepared (sv_stored sv) st → words_kept (a, st).
Proof. intros Hp. apply words_words, words_subset, Hp. Qed.
Lemma words_with a st key b :
  words (sv_stored sv) st → word_kept sv q clock later (a, with_applicant st key b) key b →
  words_kept (a, with_applicant st key b).
Proof.
  intros Hw Hb k x Hx. cbn in Hx. apply lookup_insert_Some in Hx as [[<- <-]|[_ Hx]]; [done|].
  apply Hw in Hx as [(y & Hy & Hs & Hi)|[H1 H2]].
  - intros word <- _. left. by exists y.
  - by intros word <- [].
Qed.

Lemma words_kept_same a st st' :
  st_applicants st' = st_applicants st → st_journal st' = st_journal st →
  words_kept (a, st) → words_kept (a, st').
Proof.
  intros Ha Hj Hw key b Hb word Hs Hword. cbn in Hb. rewrite Ha in Hb.
  destruct (Hw key b Hb word Hs Hword) as [?|[?|[He Hg]]]; [by left|by right; left|].
  right. right. split; [done|]. destruct Hg; [eapply grants_decided|eapply grants_invited|eapply grants_linked];
    try done. unfold in_journal in *. cbn in *. by rewrite Hj.
Qed.

Lemma device_in_general sv1 a id :
  sv_authority sv1 = a → device_admitted sv1 id = true → in_general a (display id).
Proof.
  intros <- H. exists id. split; [by right|]. unfold device_admitted in H.
  by destruct (general_member _ _).
Qed.
Lemma owner_of_device sv1 st c :
  sv_authority sv1 = sv_authority sv → prepared (sv_stored sv) st → owner_of sv1 st c = true → owner_device sv c.
Proof.
  intros Ha Hp [H1 H2]%andb_true_iff. rewrite Ha in H1. split; [done|]. unfold owns.
  by rewrite <-(pp_roles _ _ Hp).
Qed.

Lemma join_leaves replica cfg st c signed command sv1 :
  sv_authority sv1 = sv_authority sv → prepared (sv_stored sv) (sv_stored sv1) →
  asked_for (sv_authority sv) q clock c signed command → hc_action command = "join" →
  prepared (sv_stored sv) st →
  leaves words_kept (join (replica := replica) cfg st c (owner_of sv1 st c) (hc_body command) later) sv1.
Proof.
  intros Ha Hp1 Hask Hact Hp. assert (words_kept (world sv1)) as Hw by by apply words_prepared.
  apply wp_self_bind. apply leaves_lift_bind; [done|]. intros note _.
  apply leaves_lift_bind; [done|]. intros token Htok. apply leaves_lift_bind; [done|]. intros [id o] Ho.
  apply ok_or_Ok, open_offer_Some in Ho as (Ho & Hopen & <-).
  do 3 (apply leaves_lift_bind; [done|]; intros ? _). apply leaves_lift_bind; [done|]. intros declined Hd.
  assert (prepared (sv_stored sv) (prune_applicants st later)) as Hp2 by (etrans; [exact Hp|apply prepared_prune]).
  destruct (may_request _ _) eqn:Hm.
  - apply leaves_lift_bind; [done|]. intros _ _. cbv zeta.
    match goal with |- leaves _ (save_service_state ?x ≫= _) _ => assert (words_kept (sv_authority sv1, x)) as Hx end.
    { rewrite Ha. apply words_with; [apply words_subset, Hp2|]. intros word. cbn. intros <- Hword. right.
      destruct (device_admitted sv1 (vc_id c)) eqn:Hadm; [left; split; [done|by eapply device_in_general]|right].
      destruct (needs_decision _ _ _ _ _) eqn:Hn; [by destruct Hword|]. split; [done|].
      unfold needs_decision in Hn. apply orb_false_iff in Hn as [[Hrem ->]%orb_false_iff Hreq].
      eapply (grants_invited _ _ _ _ _ _ _ _ _ _ _ _ o); [exact Hask|exact Hact|done|done|exact Htok| |exact Hopen| | |exact Hp2|exact Hd].
      - rewrite <-(pp_offers _ _ Hp2). exact Ho.
      - intros Hr. rewrite Hr in Hreq. by eapply owner_of_device, negb_false_iff.
      - unfold is_removed in *. by rewrite <-(pp_removals _ _ Hp2). }
    apply leaves_save; [done|exact Hx|]. intros sv2 Ha2 Hs2. apply wp_self_bind.
    assert (words_kept (world sv2)) as Hw2 by (unfold world; by rewrite Ha2, Hs2).
    apply leaves_lift_bind; [done|]. intros reply _. apply leaves_ret; [done|]. by rewrite Ha2.
  - apply may_request_false in Hm as [x Hx]. apply leaves_lift_bind; [done|]. intros reply _.
    apply leaves_ret; [done|]. apply words_words. etrans; [apply words_subset, Hp2|].
    rewrite (alter_Some _ _ _ x) by done. eapply words_refresh; [done|apply refresh_request_refreshes].
Qed.


Lemma has_applicant_prepared st0 st who l :
  prepared st0 st → has_applicant st who l = true → has_applicant st0 who l = true.
Proof.
  unfold has_applicant. intros Hp (a & (key & Ha)%list_elem_of_In%btree_values_elem & Hb)%existsb_exists.
  apply existsb_exists. exists a. split; [|done]. apply list_elem_of_In, btree_values_elem. exists key.
  eapply lookup_weaken; [done|apply Hp].
Qed.
Lemma status_leaves cfg st c signed command sv1 :
  sv_authority sv1 = sv_authority sv → prepared (sv_stored sv) (sv_stored sv1) →
  asked_for (sv_authority sv) q clock c signed command → hc_action command = "status" →
  parent_present (sv_authority sv) c → prepared (sv_stored sv) st →
  leaves words_kept (status cfg st c (hc_body command) later) sv1.
Proof.
  intros Ha Hp1 Hask Hact Hpar Hp. assert (words_kept (world sv1)) as Hw by by apply words_prepared.
  apply wp_self_bind. do 3 (apply leaves_lift_bind; [done|]; intros ? _). cbv zeta.
  match goal with |- leaves _ (if ?b then _ else _) _ => destruct b end;
    [by apply leaves_ret; [|apply words_prepared]|].
  apply leaves_lift_bind; [done|]. intros [st' known] Hentry. apply leaves_lift_bind; [done|]. intros reply _.
  apply leaves_ret; [done|]. unfold status_entry in Hentry. destruct (st_applicants st !! _) as [x|] eqn:Hx.
  - injection Hentry as <- _. apply words_words. etrans; [apply words_subset, Hp|].
    eapply words_refresh; [done|apply surface_refreshes].
  - step Hentry h Hh. step Hentry u Hu. step Hentry u2 Hcap. step Hentry declined Hd. injection Hentry as <- _.
    apply map_err_Ok in Hh. apply fail_if_Ok, negb_false_iff in Hu. rewrite Ha in Hh |- *.
    apply words_with; [apply words_subset, Hp|]. intros word. cbn. intros <- Hword. right.
    destruct (device_admitted sv1 (vc_id c)) eqn:Hadm; [left; split; [done|by eapply device_in_general]|right].
    destruct (declined || _) eqn:Hdec; [by destruct Hword|]. split; [done|].
    apply orb_false_iff in Hdec as [-> Hdec]. apply bool_decide_eq_false in Hdec.
    destruct (authorizing_device c) as [parent|] eqn:Hparent; [|done].
    destruct (Hpar parent Hparent) as (h' & Hh' & Hdev). rewrite Hh in Hh'. injection Hh' as <-.
    eapply (grants_linked _ _ _ _ _ _ _ c signed command st h parent); try done.
    apply orb_true_iff in Hu as [Hu|Hu]; [left; by eapply has_applicant_prepared|by right].
Qed.

Lemma decide_leaves st c signed command sv1 :
  sv_authority sv1 = sv_authority sv → prepared (sv_stored sv) (sv_stored sv1) →
  asked_for (sv_authority sv) q clock c signed command → hc_action command = "decide" →
  recorded_intent st c signed command → prepared (sv_stored sv) st →
  leaves words_kept
    (if owner_of sv1 st c
     then st ← lift (decided sv1 st (vc_identity c) (evidence_of signed c) (hc_body command));
          _ ← save_service_state st; mret (st, RpEmpty)
     else lift (Err "Only the Space owner can manage invitations.")) sv1.
Proof.
  intros Ha Hp1 Hask Hact Hrec Hp. assert (words_kept (world sv1)) as Hw by by apply words_prepared.
  destruct (owner_of sv1 st c) eqn:Hown; [|by split].
  apply leaves_lift_bind; [done|]. intros st' Hst'.
  apply decided_frame in Hst' as (id & x & approve & Hx & Hpend & Happ & Hid & _ & ->).
  assert (words_kept (sv_authority sv1, with_applicant st id
    (set_authorization (set_note (set_status x (if approve then "eligible" else "declined")) "")
      (Some (evidence_of signed c))))) as Hst.
  { apply words_with; [apply words_subset, Hp|]. intros word. cbn. intros <- Hword. destruct approve; [|by destruct Hword].
    right. right. split; [done|]. eapply (grants_decided _ _ _ _ _ _ _ c signed command x); try done.
    - by eapply owner_of_device.
    - apply Hrec. by rewrite Hact.
    - eapply lookup_weaken; [done|apply Hp]. }
  apply leaves_save; [done..|]. intros sv2 Ha2 Hs2. apply leaves_ret; [|by rewrite Ha2].
  unfold world. by rewrite Ha2, Hs2.
Qed.

Lemma published_words st proof next :
  prepared (sv_stored sv) st → words_kept (next, published_state st proof next).
Proof.
  intros Hp key b Hb. cbn in Hb. apply update_all_Some in Hb as (x & Hx & <-). unfold approve_enrolled.
  destruct (match parse_hex 32 key with Some _ => _ | None => _ end) eqn:Hg; cbn [andb];
    [destruct (ap_status x === "eligible")|].
  - intros word <- _. right. left. split; [done|]. destruct (parse_hex 32 key) as [id|] eqn:Hk; [|done].
    exists id. split; [by left|]. apply bool_decide_eq_true in Hg. cbn. by rewrite Hg.
  - intros word <- _. left. exists x. split; [eapply lookup_weaken; [done|apply Hp]|done].
  - intros word <- _. left. exists x. split; [eapply lookup_weaken; [done|apply Hp]|done].
Qed.

Lemma synchronised_words sv1 cfg st c body next st' name' :
  synchronised_authority sv c body clock = Ok next → general_member next (vc_id c) = Some (vc_identity c) →
  synchronised_state sv1 cfg st next body later = Ok (st', name') → words_kept (next, st').
Proof.
  intros Hs Hm Hst key b Hb. frames.
  match goal with H2 : read_enrollment _ = Ok _, H3 : space_applicant _ _ _ = Ok _ |- _ =>
    destruct (synchronised_own _ _ _ _ _ _ Hs H2) as [nm Hown];
    pose proof (space_applicant_same _ _ _ _ _ _ _ H3 Hown) as E end.
  cbn in E, Hb. injection E as -> ->. intros word <- Hw. right. left.
  apply lookup_insert_Some in Hb as [[<- <-]|[_ Hb]].
  - split; [done|]. exists (vc_id c). split; [by right|]. cbn. by rewrite Hm.
  - apply update_all_Some in Hb as (x9 & _ & <-). unfold witnessed_applicant in *. cbn in *.
    destruct (parse_hex 32 key) as [id|] eqn:Hk; [|by destruct Hw].
    destruct (general_member next id === Some (ap_identity x9)) eqn:Hg; [|by destruct Hw].
    split; [done|]. exists id. split; [by left|]. apply bool_decide_eq_true in Hg. cbn. by rewrite Hg.
Qed.
End Words.


Lemma join_action replica cfg st c owner command e time :
  hc_action command = "join" →
  space_action (replica := replica) cfg st c owner command e time
  = (sv ← self; r ← lift (ok_or (st_roles st) "Space roles unavailable.");
     join (replica := replica) cfg st c owner (hc_body command) time).
Proof. intros H. unfold space_action. by rewrite H. Qed.
Lemma status_action replica cfg st c owner command e time :
  hc_action command = "status" →
  space_action (replica := replica) cfg st c owner command e time
  = (sv ← self; r ← lift (ok_or (st_roles st) "Space roles unavailable.");
     status cfg st c (hc_body command) time).
Proof. intros H. unfold space_action. by rewrite H. Qed.
Lemma decide_action replica cfg st c owner command e time :
  hc_action command = "decide" →
  space_action (replica := replica) cfg st c owner command e time
  = (sv ← self; r ← lift (ok_or (st_roles st) "Space roles unavailable.");
     if owner
     then st ← lift (decided sv st (vc_identity c) e (hc_body command));
          _ ← save_service_state st; mret (st, RpEmpty)
     else lift (Err "Only the Space owner can manage invitations.")).
Proof. intros H. unfold space_action. by rewrite H. Qed.


(** Every command a request may run keeps words, or has the reasons. *)
Lemma command_words replica cfg q clock later draw sv sv1 st c signed command :
  sv_trusted_witness sv = None ∨ hc_action command ≠ "witness_sync" →
  held sv sv1 → prepared (sv_stored sv) st → asked_for (sv_authority sv) q clock c signed command →
  parent_present (sv_authority sv) c → recorded_intent st c signed command →
  leaves (words_kept sv q clock later)
    (space_command (replica := replica) cfg st c command (evidence_of signed c) later draw) sv1.
Proof.
  intros Hsync [Ha Ht Hp1] Hp Hask Hpar Hrec.
  assert (words_kept sv q clock later (world sv1)) as Hw by by apply words_prepared.
  destruct (decide (hc_action command = "join")) as [Hj|Hj].
  { eapply (special_leaves _ _ _ _ _ _ _ _ _ _ (λ _ owner, join (replica := replica) cfg st c owner (hc_body command) later));
      [done|by rewrite Hj|intros; by apply join_action|]. intros _. by eapply join_leaves. }
  destruct (decide (hc_action command = "status")) as [Hs|Hs].
  { eapply (special_leaves _ _ _ _ _ _ _ _ _ _ (λ _ _, status cfg st c (hc_body command) later));
      [done|by rewrite Hs|intros; by apply status_action|]. intros _. by eapply status_leaves. }
  destruct (decide (hc_action command = "decide")) as [Hd|Hd].
  { eapply special_leaves; [done|by rewrite Hd|intros; by apply decide_action|]. intros _. by eapply decide_leaves. }
  destruct (decide (hc_action command = "authority_publish")) as [Hu|Hu].
  { eapply (special_leaves _ _ _ _ _ _ _ _ _ _ (λ _ _, publish_authority replica st c (hc_body command) (later / 1000)));
      [done|by rewrite Hu|intros; by apply publish_action|]. intros _. apply publish_leaves; [done|].
    intros. by apply published_words. }
  apply (command_leaves _ _ _ _ _ _ _ _ _ _ _ _ _ Hask Hrec Hw). intros w Hch.
  apply words_words. etrans; [by apply words_subset, Hp|]. rewrite Ht in Hch.
  apply (changes_words _ _ _ _) in Hch; [done| |done]. apply contains_false. set_solver.
Qed.

(** Why a request has its word after a step: it had it, the word lets nobody in, its device is in
    General, or the request the host answered grants it. *)
Inductive entry_reason (sv sv' : Service) (key : string) (b : Applicant) : Prop :=
| entry_kept x :
    st_applicants (sv_stored sv) !! key = Some x → ap_status x = ap_status b →
    ap_identity x = ap_identity b → entry_reason sv sv' key b
| entry_out : ap_status b ≠ "approved" → ap_status b ≠ "eligible" → entry_reason sv sv' key b
| entry_approved :
    ap_status b = "approved" → in_general (sv_authority sv') key → entry_reason sv sv' key b
| entry_granted q clock later :
    ap_status b = "eligible" → answered sv sv' q clock later →
    grants sv q clock later (world sv') key (ap_identity b) → entry_reason sv sv' key b.
Lemma answered_entry sv sv' q clock later key b :
  words_kept sv q clock later (world sv') → answered sv sv' q clock later →
  st_applicants (sv_stored sv') !! key = Some b → entry_reason sv sv' key b.
Proof.
  intros Hw Hans Hb. specialize (Hw key b Hb _ eq_refl).
  destruct (decide (ap_status b = "approved")) as [Ha|Ha].
  { destruct (Hw (or_introl Ha)) as [(x & Hx & Hs & Hi)|[[_ Hg]|[He _]]]; [by eapply entry_kept|by apply entry_approved|congruence]. }
  destruct (decide (ap_status b = "eligible")) as [He|He]; [|by apply entry_out].
  destruct (Hw (or_intror He)) as [(x & Hx & Hs & Hi)|[[? _]|[_ Hg]]]; [by eapply entry_kept|done|by eapply entry_granted].
Qed.

(** C8. Nobody is let into a hosted Space by its server alone. When a step of the host leaves a
    request approved that was not, its device is in the General the host then holds; when it
    leaves one granted that was not, the request answered in that step, fresh and signed for
    this Space, is one of these: an owner device's decision on that very request, which the
    journal now holds; a join of that very device with the token of a stored invitation that is
    open at that moment and asks for no approval, or by an owner's device, for an account that
    was not removed and a device that was not refused; or the first report of a device linked to
    one that is in General, for an account with access. *)
Theorem admission_needs_grant sv sv' key b :
  host_step sv sv' → st_applicants (sv_stored sv') !! key = Some b → entry_reason sv sv' key b.
Proof.
  intros [Hq|replica cfg q current time draw Hnone Heq
    |pin cfg q f instant time instant' later draw Hpin Heq|_ Hs _]%host_step_kind Hb.
  - apply (entry_kept _ _ _ _ b); [|done..]. eapply lookup_weaken; [done|apply Hq].
  - apply (answered_entry sv sv' q current time); [|by eapply answered_plain|done].
    subst sv'. rewrite serve_space_inner_eq by done.
    apply inner_leaves; [by intros ???; apply words_kept_same|by intros ??; apply words_kept_same
      |intros; by apply words_prepared|]. intros. apply command_words; auto.
  - apply (answered_entry sv sv' q time later); [|by eapply answered_witnessed|done]. subst sv'.
    apply witnessed_leaves; [by intros ???; apply words_kept_same|by intros ??; apply words_kept_same
      |intros; by apply words_prepared|by intros; apply words_words, words_subset| |].
    + intros. apply command_words; auto.
    + intros st st' name' pin2 c signed command proof next h _ _ _ _ Hsa Hs Hst.
      eapply synchronised_words; [done|apply Hs|done].
  - rewrite Hs in Hb. by apply (entry_kept _ _ _ _ b).
Qed.


(** ** The owners of a hosted Space *)

Definition same_owners (st st' : ServiceState) : Prop := ∀ who, owns st' who = owns st who.
Lemma same_owners_roles st st' : st_roles st' = st_roles st → same_owners st st'.
Proof. intros H who. unfold owns. by rewrite H. Qed.
#[local] Instance same_owners_reflexive : Reflexive same_owners.
Proof. done. Qed.
#[local] Instance same_owners_transitive : Transitive same_owners.
Proof. intros a b c H1 H2 who. by rewrite H2. Qed.

Lemma changes_owners trusted command w w' :
  needs_witness (hc_action command) = false → hc_action command ≠ "witness_sync" →
  changes trusted (Some command) w w' → same_owners w.2 w'.2.
Proof.
  intros Hneeds Hsync. induction 1 as [w|w w1 w2 Hc _ IH]; [done|]. etrans; [|exact IH]. clear IH.
  apply contains_false in Hneeds.
  destruct Hc; try (simplify_eq; set_solver); frames; cbn [snd]; try (by apply same_owners_roles).
  intros who. unfold owns. cbn. match goal with H : st_roles st = Some r |- _ => by rewrite H end.
Qed.

(** The request synchronises the Space, and its owners are the managers of the General it
    brings. *)
Definition owners_synchronised (pin : WitnessPin) (sv : Service) (q : Request) (f : VerifiedFreshness)
    (instant time instant' later : N) (w : Authority * ServiceState) : Prop :=
  synchronisation pin sv q f instant time instant' later w
  ∧ ∃ h, head_config w.1 = Ok h ∧ ∀ who, owns w.2 who = true ↔ who ∈ managers h.

Lemma witnessed_owners pin cfg q f instant time instant' later draw sv
    (w := world (serve_hosted_witnessed_space cfg q f instant time instant' later draw sv).1) :
  sv_trusted_witness sv = Some pin →
  same_owners (sv_stored sv) w.2 ∨ owners_synchronised pin sv q f instant time instant' later w.
Proof.
  intros Hpin. subst w.
  set (I := λ w : Authority * ServiceState, same_owners (sv_stored sv) w.2
                 ∨ owners_synchronised pin sv q f instant time instant' later w).
  change (I (world (serve_hosted_witnessed_space cfg q f instant time instant' later draw sv).1)).
  apply witnessed_leaves; [done|done| | | |].
  - intros st Hp. left. apply same_owners_roles, Hp.
  - intros m. by left.
  - intros sv1 st c signed command Hneeds Hsync [Ha Ht Hp1] Hp Hask Hpar Hrec.
    apply (command_leaves I _ _ _ _ _ _ _ _ _ _ _ _ Hask Hrec).
    + left. apply same_owners_roles, Hp1.
    + intros w Hch. left. apply changes_owners in Hch; [|done..]. etrans; [|exact Hch].
      apply same_owners_roles, Hp.
  - intros st st' key pin2 c signed command proof next h Hpin2 Hp Hask Hact _ Hs Hst.
    rewrite Hpin in Hpin2. injection Hpin2 as <-. right. split.
    + exists c, signed, command, proof, h. repeat (split; [done|]). by frames.
    + frames. match goal with H : witnessed_roles _ _ _ = Ok _ |- _ =>
        apply witnessed_roles_frame in H as (_ & _ & _ & _ & hd0 & Hhd & _ & Hm) end.
      exists hd0. split; [done|]. intros who. rewrite <-Hm. apply is_owner_true.
Qed.

(** The last request of a run that synchronised the Space; nobody's ownership changed since. *)
Definition last_synchronised (pin : WitnessPin) (sv sv' : Service) : Prop :=
  ∃ sv1 sv2 cfg q f instant time instant' later draw,
    host_run sv sv1 ∧ sv2 = (serve_hosted_witnessed_space cfg q f instant time instant' later draw sv1).1
    ∧ owners_synchronised pin sv1 q f instant time instant' later (world sv2)
    ∧ host_run sv2 sv' ∧ same_owners (sv_stored sv2) (sv_stored sv').

Lemma step_owners pin sv sv' :
  sv_trusted_witness sv = Some pin → host_step sv sv' →
  same_owners (sv_stored sv) (sv_stored sv')
  ∨ ∃ cfg q f instant time instant' later draw,
      sv' = (serve_hosted_witnessed_space cfg q f instant time instant' later draw sv).1
      ∧ owners_synchronised pin sv q f instant time instant' later (world sv').
Proof.
  intros Hpin [Hq|replica cfg q current time draw Hnone _|pin2 cfg q f instant time instant' later draw _ ->
    |_ Hs _]%host_step_kind.
  - left. exact (qt_owners _ _ Hq).
  - congruence.
  - destruct (witnessed_owners pin cfg q f instant time instant' later draw sv Hpin); [by left|right].
    by exists cfg, q, f, instant, time, instant', later, draw.
  - left. by rewrite Hs.
Qed.
Lemma run_owners_witnessed pin sv sv' :
  sv_trusted_witness sv = Some pin → host_run sv sv' →
  same_owners (sv_stored sv) (sv_stored sv') ∨ last_synchronised pin sv sv'.
Proof.
  intros Hpin Hr. revert Hpin. induction Hr as [sv|sv sv1 sv' Hs Hr IH]; [by left|]. intros Hpin.
  pose proof (proj1 (host_step_refines _ _ Hs)) as Ht. rewrite <-Ht in Hpin.
  destruct (IH Hpin) as [Hsame|(sv2 & sv3 & cfg & q & f & i & t & i' & l & d & H1 & H2)].
  - rewrite Ht in Hpin. destruct (step_owners pin sv sv1 Hpin Hs) as [H|(cfg & q & f & i & t & i' & l & d & H1 & H2)].
    + left. by etrans.
    + right. by exists sv, sv1, cfg, q, f, i, t, i', l, d.
  - right. exists sv2, sv3, cfg, q, f, i, t, i', l, d. split; [|done]. by eapply rtc_l.
Qed.

(** C3. Whatever a Space's host does, its primary owner never changes and stays an owner. At a
    Space without a witness, everyone who becomes an owner was made one by a request that the
    primary owner signed and that the journal still holds, and who stops being an owner is not
    the primary owner and was demoted or removed by such a request. At a witnessed Space the
    host's own commands never change the owners: they are those of the start, or exactly the
    managers of the General that the last synchronising request of the run brought, proved
    under the pinned witness and covered by the lease it came with. *)
Theorem owners_by_primary_only primary sv sv' :
  roles_ok primary (sv_stored sv) → host_run sv sv' →
  roles_ok primary (sv_stored sv')
  ∧ match sv_trusted_witness sv with
    | None => owners_follow primary (sv_stored sv) (sv_stored sv')
    | Some pin => same_owners (sv_stored sv) (sv_stored sv') ∨ last_synchronised pin sv sv'
    end.
Proof.
  intros Hok Hr. pose proof (host_run_space _ _ Hr) as [_ Hs].
  destruct (run_owners _ primary _ _ Hs Hok) as (_ & Hok' & Hf). split; [exact Hok'|].
  destruct (sv_trusted_witness sv) as [pin|] eqn:Hpin; [|by apply Hf]. by apply run_owners_witnessed.
Qed.

End HostedAuthority.
