(* ===== verification/HostingFacts.v ===== *)
(** * What a host may do to what it hosts

    The changes a host makes to its directories, counters and open Spaces, each with what was
    checked before, and the proof that every handler of [Hosting] and [HostingSpaces] makes only
    such changes. *)

From S2P Require Import Prelude Sums Platform Ids Record Chat Identity AuthorityData AuthorityWitness Authority AuthorityProof WitnessWire WakeWire CallWire Attachments StorageWire HostedRoles Revocations HostedState HostedAccess HostedFiles HostedAdmission HostedService HostedWitness HostedChanges HostedTracks HostedRuns SpaceCreation HostGate Hosting HostingSpaces.

Section HostingFacts.
Context `{P : Platform} {SA : AuthoritySerde} {W : WitnessSerde} {X : ProtocolSerde}
  {U : UrlBase64} {HP : HostedPlatform} {HS : HostedSerde} {SC : Serde CreateCommand}
  {WS : WakeSerde}.

(** ** Changes *)

(** A reservation written again: its ticket and network stay, its creator may be forgotten. *)
Definition rewrites (r r' : Reservation) : Prop :=
  re_ticket_issued r' = re_ticket_issued r ∧ re_creation_network r' = re_creation_network r
  ∧ (re_creator r' = re_creator r ∨ re_creator r' = None).
Definition configured (h : Host) (id : string) : bool :=
  match ht_dirs h !! id with Some d => exists_file (sd_config d) | None => false end.
Definition service_in (d : SpaceDir) : option ServiceState := snd <$> sd_service d.
(** The service of an open or opening Space went through steps of its own. *)
Definition served_to (sv sv' : Service) : Prop := ∃ (D : Disk), host_run sv sv'.

(** What a section may do: reserve at a time, answer a command to a Space, anything else, or
    open directories after a restart. *)
Inductive Kind := Reserving (time : N) | Commanding | Running | Loading (ids : gset string).
Definition opens (t : Kind) : bool := match t with Loading _ => true | _ => false end.
Definition removes (t : Kind) : bool := match t with Reserving _ => false | _ => true end.
Inductive host_changed (t : Kind) (h : Host) : Host → Prop :=
| h_spend time b b' network :
    t = Reserving time → read_budget (ht_budget h) = Ok b →
    spend_creation b (time / 86400000) (hn_max_space_creations_per_day (ht_config h)) network = Ok b' →
    host_changed t h (with_budget h (Holds b'))
| h_reserve time b b' network who r id :
    t = Reserving time → read_budget (ht_budget h) = Ok b → within_capacity h who network = Ok tt →
    spend_creation b (time / 86400000) (hn_max_space_creations_per_day (ht_config h)) network = Ok b' →
    ht_deleted h !! id = None → ht_dirs h !! id = None →
    re_creator r = Some who → re_creation_network r = network → re_ticket_issued r = false →
    id = reservation_key who (re_request_id r) →
    host_changed t h
      (with_allocations
         (with_dirs (with_budget h (Holds b')) (<[id := dir_reservation no_files (Holds r)]> (ht_dirs h)))
         (<[id := Some who]> (ht_allocations h)))
| h_count n :
    match ht_registrations h with Holds m => n = m | _ => True end →
    n < N.min (hn_max_spaces (ht_config h)) 128 →
    host_changed t h (with_registrations h (Holds (n + 1)))
| h_ticket n id d r :
    match ht_registrations h with Holds m => n = m | _ => True end →
    n < N.min (hn_max_spaces (ht_config h)) 128 →
    ht_dirs h !! id = Some d → sd_reservation d = Holds r →
    host_changed t h (on_dir id (λ d, dir_reservation d (Holds (with_ticket r true)))
                        (with_registrations h (Holds (n + 1))))
| h_reservation id d r r' :
    ht_dirs h !! id = Some d → sd_reservation d = Holds r → rewrites r r' →
    host_changed t h (on_dir id (λ d, dir_reservation d (Holds r')) h)
| h_replica id key : host_changed t h (on_dir id (λ d, dir_replica d key) h)
| h_prepare id service :
    configured h id = false → host_changed t h (on_dir id (λ d, dir_service d service) h)
| h_config id cfg : host_changed t h (on_dir id (λ d, dir_config d (Holds cfg)) h)
| h_opening id d sv sv' :
    ht_dirs h !! id = Some d → service_in d = Some (sv_stored sv) → served_to sv sv' →
    host_changed t h (host_registry (on_dir id (stored_in sv') h) (sv_registry sv'))
| h_open id d sp sv :
    ht_dirs h !! id = Some d → service_in d = Some (sv_stored sv) → configured h id = true →
    hs_client sp = Some sv → host_changed t h (put_space id sp h)
| h_served id sp sv sv' :
    ht_spaces h !! id = Some sp → hs_client sp = Some sv → served_to sv sv' →
    host_changed t h (host_registry (on_dir id (stored_in sv')
                        (put_space id (serving_with sp (hs_serving sp) (Some sv')) h)) (sv_registry sv'))
| h_close id sp client :
    ht_spaces h !! id = Some sp → client = hs_client sp ∨ client = None →
    host_changed t h (put_space id (serving_with sp false client) h)
| h_drop id : host_changed t h (with_spaces h (delete id (ht_spaces h)))
| h_delete id d sp sv q time receipt :
    t = Commanding → ht_deleted h !! id = None → find_client h id = Ok (sp, sv) → hs_serving sp = true →
    authorize_space_deletion sv (hs_config sp) q time = Ok (Some receipt) →
    (dl_receipt d).1 = receipt → host_changed t h (mark_deleted id d h)
| h_marker id d d' :
    ht_deleted h !! id = Some d → dl_receipt d' = dl_receipt d → host_changed t h (mark_deleted id d' h)
| h_expire_open id d sp sv r now :
    removes t = true → ht_spaces h !! id = Some sp → hs_client sp = Some sv → unused sv now = true →
    ht_dirs h !! id = Some d → sd_reservation d = Holds r → expired r (configured h id) now = true →
    host_changed t h
      (with_dirs (with_spaces h (delete id (ht_spaces h))) (delete id (ht_dirs h)))
| h_expire id d r now :
    removes t = true → ht_dirs h !! id = Some d → configured h id = false →
    sd_reservation d = Holds r → expired r false now = true → re_invitation r = None →
    host_changed t h (with_dirs h (delete id (ht_dirs h)))
| h_forget id d r who :
    removes t = true → ht_dirs h !! id = Some d → configured h id = false → sd_reservation d = Holds r →
    re_creator r = Some who → host_changed t h (with_dirs h (delete id (ht_dirs h)))
| h_remove id d :
    removes t = true → ht_deleted h !! id = Some d → host_changed t h (with_dirs h (delete id (ht_dirs h)))
| h_release id :
    ht_dirs h !! id = None →
    host_changed t h (with_allocations h (delete id (ht_allocations h)))
| h_allocate id who :
    match t with Loading ids => id ∈ ids | _ => False end →
    host_changed t h (with_allocations h (<[id := who]> (ht_allocations h)))
| h_job j : host_changed t h (store_job j h)
| h_receipt id b : host_changed t h (with_receipts h (<[id := b]> (ht_receipts h)))
| h_gate g : host_changed t h (with_gate h g).
Definition host_changes (t : Kind) := rtc (host_changed t).
Lemma changes_trans t h1 h2 h3 :
  host_changes t h1 h2 → host_changes t h2 h3 → host_changes t h1 h3.
Proof. unfold host_changes. intros H. by etrans. Qed.

(** A handler makes only such changes; [Q] is what holds when it succeeds. *)
Definition goes {E A} (t : Kind) (m : HM E A) (h : Host) (Q : Host → A → Prop) : Prop :=
  host_changes t h (m h).1 ∧ ∀ a, (m h).2 = Ok a → Q (m h).1 a.

Section Goes.
Context (t : Kind).

Lemma goes_bind {E A B} (m : HM E A) (f : A → HM E B) h R Q :
  goes t m h R → (∀ h' a, R h' a → goes t (f a) h' Q) → goes t (m ≫= f) h Q.
Proof.
  intros [Hc Hr] Hf. unfold goes, mbind, HM_bind. destruct (m h) as [h' [a|e]]; cbn in *; [|by split].
  destruct (Hf h' a (Hr a eq_refl)) as [Hc' Hq]. split; [by eapply changes_trans|done].
Qed.
Lemma goes_ret {E A} (a : A) h (Q : Host → A → Prop) : Q h a → goes t (mret a : HM E A) h Q.
Proof. intros HQ. split; [apply rtc_refl|]. by intros a' [= <-]. Qed.
Lemma goes_lift {E A} (r : result E A) h (Q : Host → A → Prop) :
  (∀ a, r = Ok a → Q h a) → goes t (lifth r) h Q.
Proof. intros HQ. split; [apply rtc_refl|]. exact HQ. Qed.
Lemma goes_lift_bind {E A B} (r : result E A) (f : A → HM E B) h Q :
  (∀ a, r = Ok a → goes t (f a) h Q) → goes t (lifth r ≫= f) h Q.
Proof.
  intros H. eapply goes_bind; [apply (goes_lift r h (λ h0 a, h0 = h ∧ r = Ok a)); done|].
  intros h' a [-> Ha]. by apply H.
Qed.
Lemma goes_host_bind {E B} (f : Host → HM E B) h Q :
  goes t (f h) h Q → goes t (the_host ≫= f) h Q.
Proof. done. Qed.
Lemma goes_modify_bind {E B} (g : Host → Host) (f : unit → HM E B) h Q :
  host_changes t h (g h) → goes t (f tt) (g h) Q → goes t (modify g ≫= f) h Q.
Proof.
  intros Hc Hf. eapply (goes_bind (modify g) f h (λ h' _, h' = g h)); [by split|]. by intros h' [] ->.
Qed.
Lemma goes_modify {E} (g : Host → Host) h (Q : Host → unit → Prop) :
  host_changes t h (g h) → Q (g h) tt → goes t (modify g : HM E unit) h Q.
Proof. intros Hc HQ. split; [done|]. by intros [] _. Qed.
Lemma goes_save w (g : Host → Host) h (Q : Host → unit → Prop) :
  host_changes t h (g h) → Q (g h) tt → goes t (save w g) h Q.
Proof. intros Hc HQ. unfold goes, save. destruct w; cbn; split; try done; try apply rtc_refl. by intros []. Qed.
Lemma goes_save_bind {B} w (g : Host → Host) (f : unit → HM string B) h Q :
  host_changes t h (g h) → goes t (f tt) (g h) Q → goes t (save w g ≫= f) h Q.
Proof. intros Hc Hf. eapply goes_bind; [by apply (goes_save w g h (λ h' _, h' = g h))|]. by intros ? [] ->. Qed.
Lemma goes_mono {E A} (m : HM E A) h (Q R : Host → A → Prop) :
  goes t m h Q → (∀ h' a, Q h' a → R h' a) → goes t m h R.
Proof. intros [Hc HQ] HR. split; [done|]. intros a Ha. by apply HR, HQ. Qed.
Lemma goes_error {E F A} (e : E → F) (m : HM E A) h Q : goes t m h Q → goes t (with_error e m) h Q.
Proof.
  intros [Hc HQ]. unfold goes, with_error. destruct (m h) as [h' [a|x]]; cbn in *; split; try done.
  intros a' [= <-]. by apply HQ.
Qed.
Lemma goes_attempt (m : HM string unit) h Q (R : Host → unit → Prop) :
  goes t m h Q → (∀ h', host_changes t h h' → R h' tt) → goes t (attempt m) h R.
Proof. intros [Hc _] HR. split; [done|]. intros [] _. by apply HR. Qed.
Lemma goes_for_each {E A} (f : A → HM E unit) (l : list A) h (I : Host → Prop) :
  I h → (∀ x h', x ∈ l → I h' → goes t (f x) h' (λ h'' _, I h'')) →
  goes t (for_each f l) h (λ h' _, I h').
Proof.
  revert h. induction l as [|x l IH]; intros h Hh Hf; [by apply goes_ret|].
  cbn [for_each]. eapply goes_bind; [apply Hf; [by left|done]|].
  intros h' [] Hh'. apply IH; [done|]. intros y h'' Hy. apply Hf. by right.
Qed.

End Goes.

(** ** Reservations *)

(** What a handler knows of a reservation it has made or found. *)
Record reserved (h : Host) (id : string) (r : Reservation) (h' : Host) : Prop := {
  rv_dir : ∃ d, ht_dirs h' !! id = Some d ∧ sd_reservation d = Holds r;
  rv_config : ht_config h' = ht_config h;
  rv_registrations : ht_registrations h' = ht_registrations h;
  rv_deleted : ht_deleted h' !! id = None;
}.
Lemma reserve_new_goes {OU : Outside} command creator network e mb pw time later id h :
  ht_deleted h !! id = None → id = reservation_key creator (cx_request_id command) →
  goes (Reserving time) (reserve_new command creator network e mb pw time later id) h
    (λ h' r, reserved h id r h' ∧ re_ticket_issued r = false).
Proof.
  intros Hdel Hid. unfold reserve_new. apply goes_host_bind. apply goes_lift_bind. intros u1 _.
  apply goes_lift_bind. intros [] Hcap. apply goes_lift_bind. intros b Hb.
  apply goes_lift_bind. intros b' Hb'. cbv zeta.
  assert (host_changes (Reserving time) h (with_budget h (Holds b'))) as Hspend
    by (apply rtc_once; by eapply h_spend).
  assert (ht_dirs h !! id = None → host_changes (Reserving time) h
    (with_allocations (with_dirs (with_budget h (Holds b'))
       (<[id := dir_reservation no_files (Holds (new_reservation command creator network e mb pw later))]>
          (ht_dirs h))) (<[id := Some creator]> (ht_allocations h)))) as Hreserve.
  { intros Hdir. apply rtc_once. by eapply h_reserve. }
  unfold goes, save, modify, lifth, mbind, HM_bind, mret, HM_ret, fail_if.
  destruct (effect SaveBudget); [|split; [apply rtc_refl|done]|by split].
  cbn [ht_dirs with_budget]. case_bool_decide as Hdir; [by split|].
  destruct (effect (StageReservation id)); [|by split..].
  assert (ht_dirs h !! id = None) as Hnone by (by apply eq_None_not_Some).
  specialize (Hreserve Hnone).
  destruct (effect SyncSpaces); cbn [fst snd]; (split; [exact Hreserve|]); [|done..].
  intros r [= <-]. split; [|done]. split; cbn; try done. eexists. split; [apply lookup_insert_eq|done].
Qed.
Lemma reserve_creation_goes {OU : Outside} command creator network e mb pw time later h :
  goes (Reserving time) (reserve_creation command creator network e mb pw time later) h
    (λ h' x, reserved h x.1 x.2 h' ∧ x.1 = reservation_key creator (cx_request_id command)
             ∧ same_request x.2 command creator = true
             ∧ (ticket_issued h x.1 = Ok (re_ticket_issued x.2))).
Proof.
  unfold reserve_creation. apply goes_host_bind. apply goes_lift_bind. intros u1 _.
  apply goes_lift_bind. intros u2 _. cbv zeta. apply goes_lift_bind. intros u3 Hdel.
  apply fail_if_Ok, bool_decide_eq_false, eq_None_not_Some in Hdel.
  set (id := reservation_key _ _) in *.
  eapply goes_bind with (R := λ h' r, reserved h id r h' ∧ ticket_issued h id = Ok (re_ticket_issued r)).
  - unfold ticket_issued. destruct (ht_dirs h !! id) as [d|] eqn:Hd; cbn.
    + destruct (sd_reservation d) as [| |r] eqn:Hr; cbn.
      * eapply goes_mono; [by apply reserve_new_goes|]. by intros h' r [? ->].
      * by apply goes_lift.
      * apply goes_lift. intros a [= <-]. split; [|done]. split; try done. by eexists.
    + eapply goes_mono; [by apply reserve_new_goes|]. by intros h' r [? ->].
  - intros h' r [Hres Ht]. apply goes_lift_bind. intros u4 Hsame. apply fail_if_Ok, negb_false_iff in Hsame.
    by apply goes_ret.
Qed.

(** ** Tickets *)

Definition marked (h : Host) (id : string) : Prop :=
  ∃ d r, ht_dirs h !! id = Some d ∧ sd_reservation d = Holds r ∧ re_ticket_issued r = true.
Lemma count_registration_goes {OU : Outside} t n id r h0 h :
  reserved h0 id r h → registration_budget h0 = Ok n →
  (re_ticket_issued r = false → n < N.min (hn_max_spaces (ht_config h0)) 128) →
  goes t (count_registration n id r) h (λ h' _, marked h' id).
Proof.
  intros [(d & Hd & Hr) Hcfg Hreg _] Hn Hlim. unfold count_registration.
  destruct (re_ticket_issued r) eqn:Hi; [apply goes_ret; by exists d, r|].
  specialize (Hlim eq_refl). rewrite <-Hcfg in Hlim.
  assert (match ht_registrations h with Holds m => n = m | _ => True end) as Hm.
  { rewrite Hreg. unfold registration_budget in Hn. destruct (ht_registrations h0); try done. congruence. }
  assert (saturating_add n 1 = n + 1) as Hadd by (unfold saturating_add, u64_max; lia).
  rewrite Hadd. assert (host_changes t h (with_registrations h (Holds (n + 1)))) as Hcount
    by (apply rtc_once; by eapply h_count).
  assert (host_changes t h (on_dir id (λ d, dir_reservation d (Holds (with_ticket r true)))
            (with_registrations h (Holds (n + 1))))) as Hticket
    by (apply rtc_once; by eapply h_ticket).
  unfold goes, with_error, save, mbind, HM_bind.
  destruct (effect SaveRegistrations); [|split; [apply rtc_refl|done]|by split].
  destruct (effect (SaveReservation id)); cbn [fst snd]; (split; [done|]); [|done..].
  intros [] _. exists (dir_reservation d (Holds (with_ticket r true))), (with_ticket r true).
  split_and!; [|done..]. cbn. by rewrite lookup_alter_eq, Hd.
Qed.
Lemma prepare_goes {OU : Outside} request peer forwarded mb pw now time later h :
  goes (Reserving time) (prepare request peer forwarded mb pw now time later) h
    (λ h' x, marked h' x.1).
Proof.
  unfold prepare. apply goes_host_bind. do 4 (apply goes_lift_bind; intros ? _). cbv zeta.
  apply goes_lift_bind. intros [command c] _. do 5 (apply goes_lift_bind; intros ? _).
  apply goes_lift_bind. intros issued Hiss. apply goes_lift_bind. intros again Hagain.
  apply goes_lift_bind. intros u Hlim. apply fail_if_Ok in Hlim.
  eapply goes_bind; [apply goes_error, reserve_creation_goes|]. intros h' [id r]; cbn.
  intros (Hres & Hid & _ & Hti).
  assert (registration_budget h = Ok issued) as Hb by (by destruct (registration_budget h); inversion Hiss).
  assert (ticket_issued h id = Ok again) as Ha by (rewrite Hid; by destruct (ticket_issued h _); inversion Hagain).
  eapply goes_bind; [eapply count_registration_goes; [exact Hres|exact Hb|]|].
  - intros Hf. rewrite Hti in Ha. injection Ha as <-. rewrite Hf in Hlim. cbn in Hlim. by ordered.
  - intros h2 [] Hmk. do 2 (apply goes_lift_bind; intros ? _). by apply goes_ret.
Qed.

(** ** Opening a Space *)

(** The directory of a reservation, and what its files hold. *)
Definition resv (h : Host) (id : string) (r : Reservation) : Prop :=
  ∃ d, ht_dirs h !! id = Some d ∧ sd_reservation d = Holds r.
Definition stores (h : Host) (id : string) (r : Reservation) (sv : Service) : Prop :=
  ∃ d, ht_dirs h !! id = Some d ∧ sd_reservation d = Holds r ∧ service_in d = Some (sv_stored sv).
Lemma configured_dir h id d :
  ht_dirs h !! id = Some d → configured h id = exists_file (sd_config d).
Proof. unfold configured. by intros ->. Qed.

Lemma on_replica_bind {OU : Outside} {B} t call id error (f : unit → HM string B) h Q :
  goes t (f tt) h Q → goes t (on_replica call id error ≫= f) h Q.
Proof. intros H. apply goes_lift_bind. by intros [] _. Qed.
Lemma share_access_goes {OU : Outside} t id sv h :
  goes t (share_access id sv) h (λ h' _, h' = h).
Proof.
  unfold share_access. apply goes_lift_bind. intros ? _. apply on_replica_bind.
  apply goes_lift_bind. intros ? _. by apply goes_lift.
Qed.
Lemma check_freshness_bind {B} t fr at_ (f : unit → HM string B) h Q :
  goes t (f tt) h Q → goes t (check_freshness fr at_ ≫= f) h Q.
Proof.
  intros H. eapply (goes_bind _ _ _ _ (λ h' _, h' = h)); [|by intros h' [] ->].
  apply goes_host_bind. by apply goes_lift.
Qed.
Lemma open_replica_goes {OU : Outside} t id draw h r sv c :
  stores h id r sv → configured h id = c →
  goes t (open_replica id draw) h (λ h' _, stores h' id r sv ∧ configured h' id = c).
Proof.
  intros (d & Hd & Hr & Hs) Hc. unfold open_replica. apply goes_host_bind, on_replica_bind.
  destruct (_ ≫= _); [apply goes_ret; split; [by exists d|done]|].
  apply goes_modify_bind; [apply rtc_once, h_replica|]. apply goes_ret.
  rewrite (configured_dir _ _ _ Hd) in Hc. unfold stores, configured. cbn.
  rewrite lookup_alter_eq, Hd. cbn. split; [by eexists|done].
Qed.

(** A call on a service that is not open yet. *)
Lemma on_service_goes {A} {D : Disk} t id r sv (m : M A) h c :
  stores h id r sv → configured h id = c → (∀ sv0, host_step sv0 (m sv0).1) →
  goes t (on_service id sv m) h (λ h' x, stores h' id r x.1 ∧ configured h' id = c).
Proof.
  intros (d & Hd & Hr & Hs) Hc Hm. unfold on_service, goes.
  specialize (Hm (with_registry sv (ht_registry h))).
  destruct (m _) as [sv' res] eqn:Em. cbn [fst] in Hm.
  assert (served_to sv sv') as Hto.
  { exists D. eapply rtc_l; [apply step_registry|]. apply rtc_once. exact Hm. }
  cbn [fst snd]. split; [apply rtc_once; by eapply h_opening|].
  rewrite (configured_dir _ _ _ Hd) in Hc. intros [sv1 a] Ha. destruct res; [|done].
  injection Ha as <- <-. unfold stores, configured. cbn. rewrite lookup_alter_eq, Hd. cbn.
  split; [|done]. eexists. split; [done|]. split; [done|]. unfold service_in in *. cbn.
  by destruct (sd_service d).
Qed.
Lemma open_public_goes t id cfg r h :
  resv h id r → goes t (open_public id cfg r) h (λ h' sv, h' = h ∧ stores h id r sv).
Proof.
  intros (d & Hd & Hr). unfold open_public. apply goes_host_bind. do 2 (apply goes_lift_bind; intros ? _).
  apply goes_lift_bind. intros [signer st] Hst. apply goes_lift_bind. intros sv Hsv.
  apply goes_lift_bind. intros ? _. apply goes_ret. split; [done|]. exists d. split_and!; [done..|].
  rewrite Hd in Hst. cbn in Hst. apply ok_or_Ok in Hst. unfold service_in. rewrite Hst. cbn.
  unfold open_with_witness in Hsv. by inv_ok.
Qed.
Lemma open_ready_goes t {OU : Outside} {D : Disk} id r prepared draw h :
  resv h id r → configured h id = true →
  match prepared with Some sv => stores h id r sv | None => True end →
  goes t (open_ready id r prepared draw) h
    (λ h' sp, ∃ sv, hs_client sp = Some sv ∧ stores h' id r sv ∧ configured h' id = true).
Proof.
  intros Hresv Hc Hprep. unfold open_ready. apply goes_host_bind.
  do 3 (apply goes_lift_bind; intros ? _).
  (* the replica, with or without a prepared service *)
  eapply goes_bind with (R := λ h' _, resv h' id r ∧ configured h' id = true
    ∧ match prepared with Some sv => stores h' id r sv | None => True end).
  { destruct prepared as [sv|].
    - eapply goes_mono; [by eapply open_replica_goes|]. intros h' _ [Hs Hc']. split_and!; try done.
      destruct Hs as (d & ? & ? & ?). by exists d.
    - destruct Hresv as (d & Hd & Hr). unfold open_replica. apply goes_host_bind, on_replica_bind.
      destruct (_ ≫= _); [apply goes_ret; split_and!; [by exists d|done..]|].
      apply goes_modify_bind; [apply rtc_once, h_replica|]. apply goes_ret.
      rewrite (configured_dir _ _ _ Hd) in Hc. unfold resv, configured. cbn.
      rewrite lookup_alter_eq, Hd. cbn. split_and!; [by eexists|done..]. }
  intros h1 key (Hresv1 & Hc1 & Hprep1). apply on_replica_bind. apply goes_lift_bind. intros ? _.
  apply on_replica_bind.
  eapply goes_bind with (R := λ h' sv, stores h' id r sv ∧ configured h' id = true).
  { destruct prepared as [sv|]; [by apply goes_ret|].
    eapply goes_mono; [by apply open_public_goes|]. by intros h' sv [-> ?]. }
  intros h2 sv [Hs2 Hc2].
  eapply goes_bind; [eapply on_service_goes; [exact Hs2|exact Hc2|intros; apply step_available]|].
  intros h3 [sv3 []] [Hs3 Hc3]; cbn in Hs3, Hc3 |- *. do 2 (apply goes_lift_bind; intros ? _).
  eapply goes_bind; [apply share_access_goes|]. intros ? [] ->. apply goes_ret. by exists sv3.
Qed.

(** *** Provisioning *)

Lemma prepare_space_goes t {OU : Outside} id r creator fr draws clocks h :
  resv h id r → configured h id = false →
  goes t (prepare_space id r creator fr draws clocks) h
    (λ h' sv, stores h' id r sv ∧ configured h' id = true).
Proof.
  intros (d & Hd & Hr) Hc. unfold prepare_space. apply goes_host_bind.
  eapply goes_bind with (R := λ h' _, resv h' id r ∧ configured h' id = false).
  { unfold open_replica. apply goes_host_bind, on_replica_bind.
    destruct (_ ≫= _); [apply goes_ret; split; [by exists d|done]|].
    apply goes_modify_bind; [apply rtc_once, h_replica|]. apply goes_ret.
    rewrite (configured_dir _ _ _ Hd) in Hc. unfold resv, configured. cbn.
    rewrite lookup_alter_eq, Hd. cbn. split; [by eexists|done]. }
  clear d Hd Hr Hc. intros h1 key [(d & Hd & Hr) Hc]. apply on_replica_bind.
  apply goes_lift_bind. intros proof _.
  apply goes_modify_bind; [by apply rtc_once, h_prepare|].
  apply goes_lift_bind. intros sv _. rewrite (configured_dir _ _ _ Hd) in Hc.
  apply goes_save_bind; [apply rtc_once, h_prepare; unfold configured; cbn; by rewrite lookup_alter_eq, Hd|].
  apply goes_lift_bind. intros cfg _. apply check_freshness_bind.
  apply goes_save_bind; [apply rtc_once, h_config|]. apply goes_ret.
  unfold stores, configured. cbn. rewrite !lookup_alter_eq, Hd. cbn. split; [by eexists|done].
Qed.
Lemma ensure_open_goes t {OU : Outside} {D : Disk} id r creator fr draws clocks h :
  resv h id r → goes t (ensure_open id r creator fr draws clocks) h (λ h' _, resv h' id r).
Proof.
  intros Hresv. unfold ensure_open. apply goes_host_bind. case_bool_decide; [by apply goes_ret|].
  cbv zeta. fold (configured h id).
  eapply goes_bind with (R := λ h' prepared, resv h' id r ∧ configured h' id = true
    ∧ match prepared with Some sv => stores h' id r sv | None => True end).
  { destruct (configured h id) eqn:Hc; [by apply goes_ret|].
    eapply goes_bind; [by apply prepare_space_goes|]. intros h' sv [Hs Hc']. apply goes_ret.
    split_and!; try done. destruct Hs as (d & ? & ? & ?). by exists d. }
  intros h1 prepared (Hresv1 & Hc1 & Hp1).
  eapply goes_bind; [by apply open_ready_goes|].
  intros h2 sp (sv & Hcl & (d & Hd & Hr & Hs) & Hc2). apply check_freshness_bind.
  apply goes_modify; [apply rtc_once; by eapply h_open|]. by exists d.
Qed.

(** A call on the client of an open Space. *)
Lemma on_client_goes {A} {D : Disk} t id (m : M A) h :
  (∀ sv0, host_step sv0 (m sv0).1) →
  goes t (on_client id m) h (λ h' _, ∀ r, resv h id r → resv h' id r).
Proof.
  intros Hm. unfold on_client, goes.
  destruct (find_client h id) as [[sp sv]|e] eqn:Hf; [|by split; [apply rtc_refl|]].
  unfold find_client in Hf. step Hf sp' Hsp. step Hf sv0 Hcl. injection Hf as -> <-.
  unfold find_space in Hsp. apply ok_or_Ok in Hsp, Hcl.
  specialize (Hm (with_registry sv0 (ht_registry h))). destruct (m _) as [sv' res]. cbn [fst] in Hm.
  assert (served_to sv0 sv') as Hto.
  { exists D. eapply rtc_l; [apply step_registry|]. apply rtc_once. exact Hm. }
  cbn [fst snd]. split; [apply rtc_once; by eapply h_served|].
  intros a _ r (d & Hd & Hr). unfold resv. cbn. rewrite lookup_alter_eq, Hd. cbn. by eexists.
Qed.
Lemma ensure_invitation_goes t {OU : Outside} {D : Disk} id r fr draws clocks h :
  resv h id r → goes t (ensure_invitation id r fr draws clocks) h (λ _ _, True).
Proof.
  intros Hresv. unfold ensure_invitation. destruct (_ || _); [by apply goes_ret|].
  apply goes_host_bind. apply goes_lift_bind. intros sp _. apply check_freshness_bind.
  eapply goes_bind; [apply (on_client_goes (D := D)); intros; apply step_bootstrap|]. cbv zeta.
  intros h1 link Hk. destruct (Hk r Hresv) as (d & Hd & Hr). apply check_freshness_bind.
  apply goes_save_bind; [|by apply goes_ret]. apply rtc_once. eapply h_reservation; [done|done|].
  split_and!; [done..|by left].
Qed.
Lemma provision_goes {OU : Outside} {D : Disk} command creator network e fr draws clocks h :
  goes (Reserving (ck_now clocks 0)) (provision command creator network e fr draws clocks) h
    (λ _ _, True).
Proof.
  unfold provision. apply goes_host_bind. do 3 (apply goes_lift_bind; intros ? _).
  apply check_freshness_bind. eapply goes_bind; [apply reserve_creation_goes|].
  intros h1 [id r] ([Hd _ _ _] & _); cbn in Hd.
  eapply goes_bind; [by apply ensure_open_goes|]. intros h2 [] Hr.
  eapply goes_bind; [by apply ensure_invitation_goes|]. intros h3 r' _.
  apply check_freshness_bind. by apply goes_ret.
Qed.
Lemma create_goes {OU : Outside} {D : Disk} request peer forwarded lease now draws clocks h :
  goes (Reserving (ck_now clocks 0)) (create request peer forwarded lease now draws clocks) h
    (λ _ _, True).
Proof.
  unfold create. apply goes_host_bind. apply goes_lift_bind. intros ? _. apply goes_lift_bind. intros [command c] _.
  do 3 (apply goes_lift_bind; intros ? _). apply goes_lift_bind. intros fr _. apply goes_lift_bind. intros ? _.
  eapply goes_bind with (R := λ h' _, h' = h).
  { apply goes_error. destruct (bool_decide _); [|by apply goes_ret].
    apply goes_host_bind. by apply goes_lift. }
  intros h0 [] ->. eapply goes_bind; [apply goes_error, provision_goes|]. intros h1 [id r] _.
  eapply goes_bind with (R := λ h' _, h' = h1).
  { apply goes_error. destruct (bool_decide _); [|by apply goes_ret].
    apply goes_host_bind. by apply goes_lift. }
  intros h2 [] ->. apply goes_host_bind.
  destruct (bool_decide _); (apply goes_lift_bind; intros ? _; by apply goes_ret).
Qed.

(** ** Deleting and expiring *)

Section Closing.
Context {OU : Outside} (t : Kind) (Hremoves : removes t = true).

Lemma release_goes id h (Q : Host → unit → Prop) :
  ht_dirs h !! id = None →
  Q (with_allocations h (delete id (ht_allocations h))) tt → goes t (release id) h Q.
Proof. intros Hd HQ. apply goes_modify; [by apply rtc_once, h_release|done]. Qed.
Lemma finish_deletion_goes id h :
  goes t (finish_deletion id) h (λ _ _, True).
Proof.
  unfold finish_deletion. apply goes_host_bind. apply goes_lift_bind. intros d Hd. apply ok_or_Ok in Hd.
  eapply goes_bind with (R := λ h' d', ∃ d0, ht_deleted h' !! id = Some d0 ∧ dl_receipt d' = dl_receipt d0).
  { destruct (dl_completed d); [apply goes_ret; by exists d|].
    eapply goes_bind with (R := λ h' d', ∃ d0, ht_deleted h' !! id = Some d0 ∧ dl_receipt d' = dl_receipt d0).
    - unfold deletion_inventory. apply goes_host_bind. destruct (ht_spaces h !! id) as [sp|] eqn:Hsp.
      + apply goes_modify_bind; [apply rtc_once; eapply h_close; [done|by left]|].
        apply goes_lift_bind. intros targets _. cbv zeta.
        apply goes_save_bind; [by apply rtc_once; eapply h_marker|].
        apply goes_ret. cbn. rewrite lookup_insert_eq. by eexists.
      + apply goes_lift_bind. intros ? _. apply goes_ret. by exists d.
    - intros h' d' (d0 & Hd0 & Hrc).
      eapply goes_bind with (R := λ h2 _, h2 = h'); [|intros h2 [] ->; apply goes_ret; by exists d0].
      unfold delete_objects. apply goes_host_bind. destruct (hn_attachment_storage _); [|by apply goes_ret].
      eapply goes_bind; [apply (goes_for_each t _ _ h' (λ h2, h2 = h')); [done|]|].
      + intros x h2 _ ->. by apply goes_lift.
      + intros h2 [] ->. by apply goes_lift. }
  intros h1 d1 (d0 & Hd0 & Hrc).
  eapply goes_bind with (R := λ h' _, ht_deleted h' = ht_deleted h1).
  { unfold close_deleted. apply goes_host_bind. destruct (ht_spaces h1 !! id) as [sp|] eqn:Hsp.
    - apply goes_modify_bind; [apply rtc_once, h_drop|].
      eapply goes_bind with (R := λ h' _, ht_deleted h' = ht_deleted h1).
      + destruct (bool_decide _); [by apply goes_lift|by apply goes_ret].
      + intros h2 [] <-. by apply goes_lift.
    - destruct (bool_decide _); [|by apply goes_ret]. apply on_replica_bind. by apply goes_lift. }
  intros h2 [] E2. apply goes_host_bind. rewrite <-E2 in Hd0.
  eapply goes_bind with (R := λ h' _, ht_deleted h' = ht_deleted h2 ∧ ht_dirs h' !! id = None).
  { case_bool_decide as Hdir.
    - apply goes_save; [apply rtc_once; by eapply h_remove|]. cbn. by rewrite lookup_delete_eq.
    - apply goes_ret. split; [done|]. by apply eq_None_not_Some. }
  intros h3 [] [E3 Hnone]. rewrite <-E3 in Hd0.
  eapply goes_bind with (R := λ h' _, ht_deleted h' = ht_deleted h3); [by apply release_goes|].
  intros h4 [] E4. rewrite <-E4 in Hd0.
  apply goes_save_bind; [apply rtc_refl|].
  eapply goes_bind with (R := λ _ _, True); [|intros; by apply goes_ret].
  destruct (dl_completed d1); [by apply goes_ret|].
  apply goes_save; [apply rtc_once; by eapply h_marker|done].
Qed.

Lemma expire_open_goes id d sp sv r now h :
  ht_spaces h !! id = Some sp → hs_client sp = Some sv → ht_dirs h !! id = Some d →
  sd_reservation d = Holds r → expired r (configured h id) now = true →
  goes t (expire_open id sp sv r now) h (λ _ _, True).
Proof.
  intros Hsp Hcl Hd Hr Hex. unfold expire_open. destruct (unused sv now) eqn:Hu; cbn [negb].
  - unfold goes, modify, on_replica, lifth, fail_if, remove_dir, release, save, modify, mbind, HM_bind, mret, HM_ret.
    assert (host_changes t h (put_space id (serving_with sp false None) h)) as H1
      by (apply rtc_once; eapply h_close; [done|by right]).
    destruct (negb (replica_call "close" id)); [by split|].
    assert (with_spaces (put_space id (serving_with sp false None) h)
              (delete id (ht_spaces (put_space id (serving_with sp false None) h)))
            = with_spaces h (delete id (ht_spaces h))) as ->.
    { unfold put_space. cbn. by rewrite delete_insert_eq. }
    assert (host_changes t h (with_spaces h (delete id (ht_spaces h)))) as H2
      by (apply rtc_once, h_drop).
    assert (host_changes t h
      (with_dirs (with_spaces h (delete id (ht_spaces h))) (delete id (ht_dirs h)))) as H3
      by (apply rtc_once; by eapply h_expire_open).
    destruct (effect (RemoveSpace id)); cbn [fst snd]; (split; [|done]); [|exact H2|exact H3].
    eapply rtc_r; [exact H3|]. apply h_release. cbn. apply lookup_delete_eq.
  - destruct (_ && _); [|by apply goes_ret]. apply goes_save; [|done]. apply rtc_once.
    eapply h_reservation; [done|done|]. split_and!; [done..|by left].
Qed.
Lemma expire_goes now order h :
  goes t (expire_reservations_at now order) h (λ _ _, True).
Proof.
  unfold expire_reservations_at. destruct (lock_free _); [|by apply goes_ret].
  eapply goes_mono; [apply (goes_for_each t _ _ h (λ _, True)); [done|]|done].
  clear h. intros id h _ _. unfold expire_reservation. apply goes_host_bind.
  destruct (ht_dirs h !! id) as [d|] eqn:Hd; [|by apply goes_ret].
  destruct (parse_hex 32 id); [|by apply goes_ret]. case_bool_decide; [by apply goes_ret|].
  destruct (sd_reservation d) as [| |r] eqn:Hr; [by apply goes_ret..|]. cbv zeta.
  destruct (expired r _ now) eqn:Hex; cbn [negb]; [|by apply goes_ret].
  destruct (ht_spaces h !! id) as [sp|] eqn:Hsp.
  - destruct (lock_free id); cbn [negb]; [|by apply goes_ret].
    destruct (hs_client sp) as [sv|] eqn:Hcl; [|by apply goes_ret].
    eapply expire_open_goes; try done. by rewrite (configured_dir _ _ _ Hd).
  - destruct (_ || _) eqn:Hor; [by apply goes_ret|].
    apply orb_false_iff in Hor as [Hor Hc]. apply orb_false_iff in Hor as [Hi _].
    apply bool_decide_eq_false, eq_None_not_Some in Hi. rewrite Hc in Hex.
    unfold remove_dir. apply goes_save_bind.
    + apply rtc_once. eapply h_expire; try done. by rewrite (configured_dir _ _ _ Hd).
    + apply release_goes; [|done]. cbn. apply lookup_delete_eq.
Qed.
End Closing.

(** ** Restarting *)

Lemma load_reserved_goes {OU : Outside} {D : Disk} ids id d deleting draw h :
  ht_dirs h !! id = Some d → id ∈ ids →
  goes (Loading ids) (load_reserved id d deleting draw) h (λ _ _, True).
Proof.
  intros Hd Hin. unfold load_reserved. apply goes_lift_bind. intros r Hr. apply goes_lift_bind. intros ? _.
  apply goes_modify_bind; [by apply rtc_once, h_allocate|].
  destruct (exists_file (sd_config d)) eqn:Hc; [|by apply goes_ret].
  assert (sd_reservation d = Holds r) as Hh by (destruct (sd_reservation d); inversion Hr; done).
  eapply goes_bind; [apply open_ready_goes; [by exists d| |done]|].
  { unfold configured. cbn. by rewrite Hd. }
  intros h2 sp (sv & Hcl & (d2 & Hd2 & Hr2 & Hs2) & Hc2). apply goes_modify; [|done].
  apply rtc_once. eapply h_open; try done. by destruct deleting.
Qed.
Lemma load_space_goes {OU : Outside} {D : Disk} ids id draw h :
  id ∈ ids → goes (Loading ids) (load_space id draw) h (λ _ _, True).
Proof.
  intros Hin. unfold load_space. apply goes_host_bind. apply goes_lift_bind. intros ? _.
  apply goes_lift_bind. intros d Hd. apply ok_or_Ok in Hd.
  destruct (ht_deleted h !! id) as [x|]; [|by apply load_reserved_goes].
  destruct (dl_completed x).
  - eapply goes_bind; [by apply finish_deletion_goes|]. intros; by apply goes_ret.
  - destruct (exists_file _); [by apply load_reserved_goes|by apply goes_ret].
Qed.
Lemma load_spaces_goes {OU : Outside} {D : Disk} ids order draws h :
  (∀ id, id ∈ order → id ∈ ids) → goes (Loading ids) (load_spaces order draws) h (λ _ _, True).
Proof.
  intros Hids. unfold load_spaces.
  eapply goes_mono; [apply (goes_for_each _ _ _ h (λ _, True)); [done|]|done].
  intros id h' Hin _. apply goes_modify_bind; [by apply rtc_once, h_allocate; cbn; apply Hids|].
  eapply goes_attempt; [by apply load_space_goes, Hids|done].
Qed.

(** ** Requests and accounts *)

Lemma accept_deletion_goes {OU : Outside} id sp sv q time receipt h :
  ht_deleted h !! id = None → find_client h id = Ok (sp, sv) → hs_serving sp = true →
  authorize_space_deletion sv (hs_config sp) q time = Ok (Some receipt.1) →
  goes Commanding (accept_deletion id sp sv receipt) h (λ _ _, True).
Proof.
  intros Hdel Hf Hsv Hau. unfold accept_deletion. apply goes_lift_bind. intros targets _.
  eapply goes_bind; [apply goes_error, (goes_save _ _ _ _ (λ h' _, ht_spaces h' = ht_spaces h));
                     [apply rtc_once; by eapply h_delete|done]|].
  intros h' [] Hsp. apply goes_modify_bind.
  { apply rtc_once. eapply h_close; [|by right]. rewrite Hsp. unfold find_client, find_space in Hf.
    step Hf sp' Hsp'. step Hf sv' Hsv'. injection Hf as -> <-. by apply ok_or_Ok in Hsp'. }
  apply goes_lift_bind. intros ? _. by apply goes_ret.
Qed.
Lemma serve_command_goes {OU : Outside} {D : Disk} t id cfg q fr draws clocks h :
  goes t (serve_command id cfg q fr draws clocks) h (λ _ _, True).
Proof.
  unfold serve_command.
  eapply goes_bind with (R := λ h' _, h' = h).
  { destruct (bool_decide _); [|by apply goes_ret]. apply goes_error. apply goes_host_bind. by apply goes_lift. }
  intros h' [] ->.
  eapply goes_bind with (R := λ _ _, True).
  { set (m := match fr with Some _ => _ | None => _ end).
    assert (goes t (on_client id m) h (λ _ _, True)) as [Hm _].
    { eapply goes_mono; [apply (on_client_goes (D := D))|done]. intros sv0. unfold m.
      destruct fr as [[a f]|]; [apply step_witnessed|apply step_serve]. }
    unfold goes. destruct (on_client id m h) as [h1 r]. by split. }
  intros h1 answer _. apply goes_host_bind. apply goes_lift_bind. intros client _.
  eapply goes_bind; [apply goes_error, share_access_goes|]. intros h2 [] _.
  apply goes_lift_bind. intros [recipient reply] _. by apply goes_ret.
Qed.
Lemma command_goes {OU : Outside} {D : Disk} id q lease draws clocks h :
  goes Commanding (command id q lease draws clocks) h (λ _ _, True).
Proof.
  unfold command. apply goes_host_bind. do 5 (apply goes_lift_bind; intros ? _).
  destruct (ht_deleted h !! id) as [d|] eqn:Hdel; [by apply goes_ret|].
  apply goes_lift_bind. intros sp Hsp. apply goes_lift_bind. intros ? _.
  apply goes_lift_bind. intros ? Hserv. apply fail_if_Ok, negb_false_iff in Hserv.
  apply goes_lift_bind. intros sv Hsv. cbv zeta. apply goes_lift_bind. intros ? _.
  apply goes_lift_bind. intros fr _. apply goes_lift_bind. intros [receipt|] Hau; [|apply serve_command_goes].
  apply ok_or_Ok in Hsp, Hsv.
  eapply accept_deletion_goes; try done.
  - unfold find_client, find_space. by rewrite Hsp; cbn; rewrite Hsv.
  - cbn. destruct (authorize_space_deletion _ _ _ _) eqn:E; cbn in Hau; [|done]. injection Hau as ->. exact E.
Qed.

Lemma erase_unprovisioned_goes {OU : Outside} who order h :
  goes Running (erase_unprovisioned who order) h (λ _ _, True).
Proof.
  unfold erase_unprovisioned. apply goes_lift_bind. intros ? _.
  eapply goes_bind; [apply (goes_for_each _ _ _ h (λ _, True)); [done|]|].
  - intros id h' _ _. unfold erase_reservation. apply goes_host_bind.
    destruct (ht_dirs h' !! id) as [d|] eqn:Hd; [|by apply goes_ret].
    destruct (parse_hex 32 id); [|by apply goes_ret].
    destruct (_ || _) eqn:Hor; [by apply goes_ret|]. apply orb_false_iff in Hor as [_ Hc].
    apply goes_lift_bind. intros r Hr. case_bool_decide as Hcr; cbn [negb]; [|by apply goes_ret].
    apply goes_lift_bind. intros ? _. unfold remove_dir.
    assert (sd_reservation d = Holds r) as Hh by (destruct (sd_reservation d); inversion Hr; done).
    apply goes_save_bind.
    + apply rtc_once. eapply h_forget; try done. by rewrite (configured_dir _ _ _ Hd).
    + apply release_goes; [|done]. cbn. apply lookup_delete_eq.
  - intros h' [] _. apply goes_save; [apply rtc_refl|done].
Qed.
Lemma save_account_receipt_goes {OU : Outside} t j h :
  goes t (save_account_receipt j) h (λ _ _, True).
Proof.
  unfold save_account_receipt. apply goes_host_bind. apply goes_lift_bind. intros ? _. cbv zeta.
  destruct (bool_decide _); [by apply goes_ret|]. apply goes_save; [apply rtc_once, h_receipt|done].
Qed.
Lemma account_request_goes {OU : Outside} endpoint request order draw now time h :
  goes Running (account_request endpoint request order draw now time) h (λ _ _, True).
Proof.
  unfold account_request. apply goes_host_bind. apply goes_lift_bind. intros [command c] _.
  do 4 (apply goes_lift_bind; intros ? _). cbv zeta.
  eapply goes_bind with (R := λ _ _, True).
  { destruct (_ && _); [|by apply goes_ret]. unfold submit_deletion.
    eapply goes_bind; [apply goes_error, erase_unprovisioned_goes|]. intros h1 [] _.
    apply goes_host_bind. apply goes_lift_bind. intros ids _.
    eapply goes_bind; [apply (goes_for_each _ _ _ h1 (λ _, True)); [done|]|].
    - intros x h' _ _. by apply goes_lift.
    - intros h2 [] _. apply goes_lift_bind. intros receipt _. cbv zeta.
      eapply goes_bind with (R := λ _ _, True); [|intros; by apply goes_ret].
      destruct (bool_decide _); [by apply goes_ret|]. apply goes_error, goes_save; [|done].
      apply rtc_once, h_job. }
  intros h1 outcome _. eapply goes_bind with (R := λ _ _, True); [|intros; by apply goes_ret].
  destruct (bool_decide _); [|by apply goes_ret]. apply goes_host_bind. apply goes_lift_bind.
  intros j _. apply goes_error, save_account_receipt_goes.
Qed.

Lemma forget_creator_goes {OU : Outside} t id who h :
  goes t (forget_creator id who) h (λ _ _, True).
Proof.
  unfold forget_creator. apply goes_host_bind. apply goes_lift_bind. intros d Hd. apply ok_or_Ok in Hd.
  apply goes_lift_bind. intros r Hr. destruct (_ =/= _); [by apply goes_ret|].
  apply goes_lift_bind. intros [sp sv] _. apply goes_lift_bind. intros ms _. cbv zeta.
  assert (sd_reservation d = Holds r) as Hh by (destruct (sd_reservation d); inversion Hr; done).
  apply goes_save_bind.
  - apply rtc_once. eapply h_reservation; try done. split_and!; try done. by right.
  - apply goes_save; [apply rtc_once, h_config|done].
Qed.
Lemma erase_from_space_goes {OU : Outside} {D : Disk} t j id h :
  goes t (erase_from_space j id) h (λ _ _, True).
Proof.
  unfold erase_from_space. apply goes_host_bind. apply goes_lift_bind. intros sp _.
  eapply goes_bind; [apply (on_client_goes (D := D)); intros; apply step_erase|]. intros h1 [] _.
  apply on_replica_bind. apply goes_host_bind. apply goes_lift_bind. intros client _.
  eapply goes_bind; [apply share_access_goes|]. intros h2 [] _.
  eapply goes_bind; [apply forget_creator_goes|]. intros h3 [] _. apply goes_save; [apply rtc_refl|done].
Qed.
Lemma process_goes {OU : Outside} {D : Disk} time order h :
  goes Running (process_account_deletions time order) h (λ _ _, True).
Proof.
  unfold process_account_deletions. destruct (lock_free _); [|by apply goes_ret].
  eapply goes_mono; [apply (goes_for_each _ _ _ h (λ _, True)); [done|]|done].
  clear h. intros who h _ _. unfold process_job. apply goes_host_bind.
  destruct (ht_jobs h !! who) as [j|]; [|by apply goes_ret]. apply goes_lift_bind. intros ? _.
  destruct (bool_decide _); [apply save_account_receipt_goes|].
  assert (goes Running (erase_account j) h (λ _ _, True)) as [He _].
  { unfold erase_account. apply goes_host_bind.
    eapply goes_bind; [apply (goes_for_each _ _ _ h (λ h', h' = h)); [done|]|].
    - intros x h' _ ->. by apply goes_lift.
    - intros h' [] ->. eapply goes_mono; [apply (goes_for_each _ _ _ h (λ _, True)); [done|]|done].
      intros x h' _ _. apply erase_from_space_goes. }
  unfold goes. destruct (erase_account j h) as [h1 [[]|e]]; cbn [fst] in He; [|by split].
  assert (goes Running ((let j := finished_job j time in
     _ ← save (effect (SaveJob who)) (store_job j); save_account_receipt j)) h1 (λ _ _, True)) as [H1 H2].
  { cbv zeta. apply goes_save_bind; [apply rtc_once, h_job|apply save_account_receipt_goes]. }
  split; [by eapply changes_trans|done].
Qed.

(** ** Every step *)

(** Every directory has its place in the index, or is still to be listed. *)
Definition covered_but (l : list string) (h : Host) : Prop :=
  ∀ id, is_Some (ht_dirs h !! id) → is_Some (ht_allocations h !! id) ∨ id ∈ l.
Definition covered (h : Host) : Prop := covered_but [] h.

Lemma covered_changed l t h h' : host_changed t h h' → covered_but l h → covered_but l h'.
Proof.
  intros H Hc i Hi. destruct H; try (by apply Hc);
    try (by apply Hc; cbn in Hi; apply lookup_alter_is_Some in Hi);
    try (by apply Hc; cbn in Hi; destruct Hi as [d' [_ Hd']%lookup_delete_Some]; exists d').
  - cbn in *. destruct (decide (id = i)) as [->|Hne].
    + left. rewrite lookup_insert_eq. by eexists.
    + rewrite lookup_insert_ne in Hi by done. rewrite lookup_insert_ne by done. by apply Hc.
  - cbn in *. assert (id ≠ i) by (intros ->; destruct Hi; congruence).
    rewrite lookup_delete_ne by done. by apply Hc.
  - cbn in *. destruct (decide (id = i)) as [->|Hne].
    + left. rewrite lookup_insert_eq. by eexists.
    + rewrite lookup_insert_ne by done. by apply Hc.
Qed.
Lemma covered_changes l t h h' : host_changes t h h' → covered_but l h → covered_but l h'.
Proof. induction 1; [done|]. intros. eauto using covered_changed. Qed.
Lemma load_spaces_covers {OU : Outside} {D : Disk} order draws h :
  covered_but order h → covered (load_spaces order draws h).1.
Proof.
  unfold load_spaces. revert h. induction order as [|id order IH]; intros h Hc; [done|].
  cbn [for_each]. unfold mbind at 1, HM_bind at 1. unfold mbind at 1, HM_bind at 1, modify, attempt.
  apply IH. destruct (load_space_goes {[id]} id (draws id)
    (with_allocations h (<[id := None]> (ht_allocations h)))) as [Hl _]; [set_solver|].
  eapply covered_changes; [exact Hl|]. intros i Hi. cbn in *. destruct (decide (id = i)) as [->|Hne].
  - left. rewrite lookup_insert_eq. by eexists.
  - rewrite lookup_insert_ne by done. destruct (Hc i Hi) as [?|[->|?]%elem_of_cons]; [by left|done|by right].
Qed.

(** What a step does to the host: changes of its section, or a restart and the changes of
    opening what is there. *)
Inductive host_section (h : Host) : Kind → Host → Prop :=
| section_changes t h' : opens t = false → host_changes t h h' → host_section h t h'
| section_restart ids g h' :
    (∀ id, id ∈ ids ↔ is_Some (ht_dirs h !! id)) → covered h' →
    host_changes (Loading ids) (with_gate (stopped h) g) h' → host_section h (Loading ids) h'.

(** Answering one command, whatever the outside world and the clocks. *)
Definition commanded (w w' : HostLife) : Prop :=
  ∃ (OU : Outside) (D : Disk) id q lease draws clocks,
    w' = after w (command id q lease draws clocks (hw_host w)).1.
Lemma hosting_step_section w w' :
  hosting_step w w' →
  hw_clock w ≤ hw_clock w'
  ∧ ∃ t, (t = Commanding → commanded w w') ∧ host_section (hw_host w) t (hw_host w')
    ∧ match t with
      | Reserving time =>
          hw_clock w' = time
          ∧ hw_reserved w' = ((λ id, (time / 86400000, reserved_network (hw_host w') id, id))
                                <$> new_dirs (hw_host w) (hw_host w')) ++ hw_reserved w
          ∧ (hw_tickets w' = hw_tickets w
             ∨ ∃ id, hw_tickets w' = id :: hw_tickets w ∧ marked (hw_host w') id)
      | _ => hw_reserved w' = hw_reserved w ∧ hw_tickets w' = hw_tickets w
      end.
Proof.
  destruct 1; cbn [hw_clock hw_host hw_reserved hw_tickets after after_reserve]; (split; [done|]).
  - eexists (Reserving _). split; [done|]. split; [apply section_changes; [done|apply create_goes]|]. split_and!; [done..|by left].
  - eexists (Reserving _).
    destruct (prepare_goes request peer forwarded mailbox password now time later (hw_host w)) as [Hc Hq].
    split; [done|]. split; [by apply section_changes|]. cbv zeta.
    split_and!; [done..|]. destruct (prepare _ _ _ _ _ _ _ _ _) as [h' [[id s]|e]]; [right|by left].
    exists id. split; [done|]. by apply (Hq (id, s)).
  - exists Commanding. split; [intros _; repeat eexists|].
    split; [apply section_changes; [done|apply command_goes]|done].
  - exists Running. split; [done|]. split; [apply section_changes; [done|by apply finish_deletion_goes]|done].
  - exists Running. split; [done|]. split; [apply section_changes; [done|by apply expire_goes]|done].
  - exists Running. split; [done|]. split; [apply section_changes; [done|apply account_request_goes]|done].
  - exists Running. split; [done|]. split; [apply section_changes; [done|apply process_goes]|done].
  - exists Running. split; [done|]. split; [|done]. apply section_changes; [done|]. apply (on_client_goes (D := D)).
    intros. apply HostedRuns.step_uploaded.
  - exists Running. split; [done|]. split; [|done]. apply section_changes; [done|]. apply (on_client_goes (D := D)).
    intros. apply HostedRuns.step_targets.
  - exists Running. split; [done|]. split; [|done]. apply section_changes; [done|]. apply (on_client_goes (D := D)).
    intros. apply HostedRuns.step_complete.
  - exists Running. split; [done|]. split; [|done]. apply section_changes; [done|]. apply (on_client_goes (D := D)).
    intros. apply HostedRuns.step_missing.
  - exists Running. split; [done|]. split; [|done]. apply section_changes; [done|]. apply rtc_once, h_gate.
  - exists (Loading (dom (ht_dirs (hw_host w)))). split; [done|]. split; [|done].
    eapply section_restart; [intros; apply elem_of_dom| |].
    + apply load_spaces_covers. intros id Hid. right. rewrite H0, elem_of_elements. by apply elem_of_dom.
    + apply load_spaces_goes. intros id Hid. rewrite H0 in Hid. by apply elem_of_elements in Hid.
Qed.

End HostingFacts.
