(* ===== verification/HostingLimits.v ===== *)
(** * What a host keeps to

    The operator's limits on new Spaces, the tickets a host signs for the witness, and the
    Spaces it may not remove or bring back, over every step and restart of
    [HostingSpaces.hosting_step]. *)

From S2P Require Import Prelude Sums Platform Ids Record Chat Identity AuthorityData AuthorityWitness Authority AuthorityProof WitnessWire WakeWire CallWire Attachments StorageWire HostedRoles Revocations HostedState HostedAccess HostedFiles HostedAdmission HostedService HostedWitness HostedChanges HostedTracks HostedRuns SpaceCreation HostGate Hosting HostingSpaces HostingFacts.

Section HostingLimits.
Context `{P : Platform} {SA : AuthoritySerde} {W : WitnessSerde} {X : ProtocolSerde}
  {U : UrlBase64} {HP : HostedPlatform} {HS : HostedSerde} {SC : Serde CreateCommand}
  {WS : WakeSerde}.

(** ** Properties of every step *)

(** A property of hosts that every change keeps, whatever the section, and that survives the
    loss of what is in memory. *)
Lemma section_keeps (I : Host → Prop) h t h' :
  (∀ t h h', host_changed t h h' → I h → I h') →
  (∀ h g, I h → I (with_gate (stopped h) g)) →
  host_section h t h' → I h → I h'.
Proof.
  intros Hc Hs H Hh.
  assert (∀ t h h', host_changes t h h' → I h → I h') as Hcs.
  { intros t0 h0 h1 H0. induction H0; [done|]. intros. by eauto. }
  destruct H as [t h' _ Hch|ids g h' _ _ Hch]; eapply Hcs; try done. by apply Hs.
Qed.
Lemma hosting_run_keeps (I : Host → Prop) w w' :
  (∀ t h h', host_changed t h h' → I h → I h') →
  (∀ h g, I h → I (with_gate (stopped h) g)) →
  hosting_run w w' → I (hw_host w) → I (hw_host w').
Proof.
  intros Hc Hs Hr. induction Hr as [w|w w1 w2 Hst _ IH]; [done|]. intros HI. apply IH.
  apply hosting_step_section in Hst as [_ (t & _ & Hsec & _)]. by eapply section_keeps.
Qed.

Lemma config_changed t h h' : host_changed t h h' → ht_config h' = ht_config h.
Proof. by destruct 1. Qed.
Lemma config_section h t h' : host_section h t h' → ht_config h' = ht_config h.
Proof.
  intros H. apply (section_keeps (λ x, ht_config x = ht_config h) h t h'); [|done|done|done].
  intros t0 h0 h1 Hc Hh. by rewrite (config_changed _ _ _ Hc).
Qed.

(** ** Deleted Spaces *)

Lemma receipt_kept t h h' id receipt :
  host_changed t h h' →
  (∃ d, ht_deleted h !! id = Some d ∧ dl_receipt d = receipt) →
  ∃ d, ht_deleted h' !! id = Some d ∧ dl_receipt d = receipt.
Proof.
  intros H (d & Hd & Hr). destruct H; try (by exists d).
  - assert (id0 ≠ id) by congruence. cbn. rewrite lookup_insert_ne by done. by exists d.
  - cbn. destruct (decide (id0 = id)) as [->|Hne].
    + rewrite lookup_insert_eq. eexists. split; [done|]. congruence.
    + rewrite lookup_insert_ne by done. by exists d.
Qed.

(** C26. A deleted Space stays deleted: once its deletion is recorded, and through any run of the
    host, its restarts included, every request to it is answered with the same receipt or
    refused, changes nothing, and its directory is never reserved again. *)
Theorem deleted_space_gone w w' id d :
  hosting_run w w' → ht_deleted (hw_host w) !! id = Some d →
  (∃ d', ht_deleted (hw_host w') !! id = Some d' ∧ dl_receipt d' = dl_receipt d)
  ∧ (∀ (OU : Outside) (D : Disk) q lease draws clocks,
       (command id q lease draws clocks (hw_host w')).1 = hw_host w'
       ∧ ∀ reply, (command id q lease draws clocks (hw_host w')).2 = Ok reply →
                  reply = Receipt (dl_receipt d))
  ∧ (∀ (OU : Outside) c creator network e mb pw time later,
       reservation_key creator (cx_request_id c) = id →
       (reserve_creation c creator network e mb pw time later (hw_host w')).1 = hw_host w'
       ∧ is_ok (reserve_creation c creator network e mb pw time later (hw_host w')).2 = false).
Proof.
  intros Hr Hd.
  assert (∃ d', ht_deleted (hw_host w') !! id = Some d' ∧ dl_receipt d' = dl_receipt d) as (d' & Hd' & Hre).
  { apply (hosting_run_keeps (λ h, ∃ d', ht_deleted h !! id = Some d' ∧ dl_receipt d' = dl_receipt d) w);
      [|done|done|by exists d]. intros t h h' H. by apply (receipt_kept t). }
  split; [by exists d'|]. split.
  - intros OU D q lease draws clocks. unfold command, the_host, lifth, mbind, HM_bind, mret, HM_ret.
    do 5 (match goal with |- context [match ?x with Ok _ => _ | Err _ => _ end] => destruct x; [|done] end).
    rewrite Hd'. split; [done|]. intros reply [= <-]. by rewrite Hre.
  - intros OU c creator network e mb pw time later Hid.
    unfold reserve_creation, the_host, lifth, mbind, HM_bind.
    do 2 (match goal with |- context [match ?x with Ok _ => _ | Err _ => _ end] => destruct x; [|done] end).
    rewrite Hid, Hd'. done.
Qed.


(** What confirms deleting a Space: the record of the request itself, read as the command
    [command] of the device [c] that the request names, and everything the command and the
    device must be at that moment. *)
Record confirms (sv : Service) (cfg : ServiceConfig) (q : Request) (time : N)
    (signed : SignedRecord) (command : Command) (c : VerifiedCredential) : Prop := {
  cf_record : ∃ encoded, hq_record q = Some encoded ∧ decode_record encoded = Ok signed;
  cf_command : decode signed = Ok command;
  cf_device : ∃ text, hq_credential q = Some text ∧ verify_credential text = Ok c;
  cf_signed : verify_signature signed (vc_key c) = Ok tt;
  cf_kind : hc_v command = 1 ∧ hc_kind command = "space.command" ∧ hc_action command = "delete"
    ∧ hq_invitation q = None;
  cf_space : hc_space command = ts_space (sa_scope (cfg_address cfg));
  cf_nonce : hc_nonce command = hq_nonce q;
  cf_time : hc_issued command ≤ time + 120000 ∧ time ≤ hc_issued command + 120000;
  cf_primary : ∃ r, st_roles (sv_stored sv) = Some r ∧ ro_primary r = vc_identity c
    ∧ value_as_u64 (value_index (hc_body command) "revision") = Some (ro_revision r);
  cf_manages : forked (sv_authority sv) = false
    ∧ ∃ hd, head_config (sv_authority sv) = Ok hd
        ∧ if is_owner_managed (sv_authority sv) then vc_id c ∈ sc_owner_credential_ids hd
          else sc_controller_credential_id hd = vc_id c;
  cf_admitted : is_revoked (sv_stored sv) (vc_id c) = false
    ∧ ∃ hd m, head_config (sv_authority sv) = Ok hd ∧ m ∈ sc_members hd
        ∧ vc_id c ∈ m_credential_ids m ∧ is_erased (sv_stored sv) (m_identity_id m) = false
        ∧ removal_blocks (sv_stored sv) (m_identity_id m) = false;
  cf_named : value_eq_str (value_index (hc_body command) "name") (cfg_name cfg) = true
    ∧ value_eq_bool (value_index (hc_body command) "confirmed") true = true;
}.

Lemma manages_owner a id :
  can_manage a id = true →
  forked a = false ∧ ∃ hd, head_config a = Ok hd
    ∧ if is_owner_managed a then id ∈ sc_owner_credential_ids hd
      else sc_controller_credential_id hd = id.
Proof.
  unfold can_manage. intros [Hf%negb_true_iff H]%andb_true_iff. split; [done|].
  destruct (head_config a) as [hd|]; [|done]. exists hd. split; [done|].
  destruct (is_owner_managed a); [by apply contains_true|by apply bool_decide_eq_true in H].
Qed.
Lemma service_state_Ok sv st : service_state sv = Ok st → st = sv_stored sv.
Proof. unfold service_state. intros H. step H u1 H1. step H u2 H2. by injection H. Qed.
Lemma access_devices_member sv devices id :
  space_access_devices sv = Ok devices → contains devices id = true →
  is_revoked (sv_stored sv) id = false
  ∧ ∃ hd m, head_config (sv_authority sv) = Ok hd ∧ m ∈ sc_members hd
      ∧ id ∈ m_credential_ids m ∧ is_erased (sv_stored sv) (m_identity_id m) = false
      ∧ removal_blocks (sv_stored sv) (m_identity_id m) = false.
Proof.
  unfold space_access_devices. intros H Hin%contains_true. step H st Hst. step H hd0 Hhd.
  injection H as <-. apply service_state_Ok in Hst as ->. apply map_err_Ok in Hhd.
  apply filter_true in Hin as [Hin Hr%negb_true_iff]. split; [done|].
  apply elem_of_mjoin_fmap in Hin as (m & [Hm Hl]%filter_true & Hid).
  unfold let_in in Hl. apply andb_true_iff in Hl as [He%negb_true_iff Hb%negb_true_iff].
  by exists hd0, m.
Qed.

Lemma authorize_space_deletion_inv sv cfg q time sp :
  authorize_space_deletion sv cfg q time = Ok (Some sp) →
  sp = ts_space (sa_scope (cfg_address cfg))
  ∧ ∃ signed command c, confirms sv cfg q time signed command c.
Proof.
  unfold authorize_space_deletion. destruct (hq_record q) as [encoded|] eqn:Hq; [|done]. intros H.
  step H signed H1. step H cmd H2. destruct (hc_action cmd === "delete") eqn:Hact; cbn [negb] in H; [|done].
  apply bool_decide_eq_true in Hact. step H txt H3. step H c H4. step H u H5. step H st H6. step H r H7.
  step H b H8. step H u2 H9. apply fail_if_Ok, negb_false_iff in H9. subst b.
  step H scp H10. step H u3 H11. injection H as <-. apply fail_if_Ok, bool_decide_eq_negb_false in H11 as ->.
  unfold confirms_deletion in H8.
  destruct (negb _) eqn:Hv in H8; [done|]. apply negb_false_iff in Hv.
  step H8 devices Hdev. injection H8 as H8. repeat (apply andb_true_iff in H8 as [H8 ?]).
  repeat (apply andb_true_iff in Hv as [Hv ?]). destruct u.
  repeat match goal with H : bool_decide _ = true |- _ => apply bool_decide_eq_true in H
                       | H : (_ =? _) = true |- _ => apply N.eqb_eq in H
                       | H : (_ <=? _) = true |- _ => apply N.leb_le in H end.
  apply ok_or_Ok in H7, H3. apply map_err_Ok in H2, H5. apply service_state_Ok in H6 as ->.
  split; [done|]. exists signed, cmd, c. split; try done.
  - by exists encoded.
  - by exists txt.
  - match goal with H : abs_diff _ _ ≤ _ |- _ => unfold abs_diff in H; lia end.
  - by exists r.
  - by apply manages_owner.
  - by eapply access_devices_member.
Qed.

(** The device that signs has not been retired anywhere on the host. *)
Definition device_active (h : Host) (q : Request) : Prop :=
  ∀ text, hq_credential q = Some text →
    ∃ bytes record, base64_decode text = Some bytes ∧ parse bytes = Ok record
      ∧ Revocations.get (ht_registry h) (record_id record) = Ok None.
Lemma sender_active_device h q : sender_active h q = Ok tt → device_active h q.
Proof.
  unfold sender_active. intros H text Ht. rewrite Ht in H. step H bytes Hb. step H record Hr.
  step H found Hf. apply fail_if_Ok, bool_decide_eq_false, eq_None_not_Some in H. subst found.
  apply ok_or_Ok in Hb. apply map_err_Ok in Hr, Hf. eauto.
Qed.

Lemma deletion_quiet t h h' id :
  t ≠ Commanding → host_changes t h h' → ht_deleted h !! id = None → ht_deleted h' !! id = None.
Proof.
  intros Ht. induction 1 as [|h1 h2 h3 Hc _ IH]; [done|]. intros Hn. apply IH. clear IH.
  destruct Hc; try done. cbn. destruct (decide (id0 = id)) as [->|Hne]; [congruence|].
  by rewrite lookup_insert_ne.
Qed.
Lemma section_quiet t h h' id :
  t ≠ Commanding → host_section h t h' → ht_deleted h !! id = None → ht_deleted h' !! id = None.
Proof.
  intros Ht H Hn. destruct H as [t h' _ Hc|ids g h' _ _ Hc]; (eapply deletion_quiet; [done|exact Hc|done]).
Qed.

(** The step that records a deletion answers a command. *)
Lemma run_deletes w w' id d :
  hosting_run w w' → ht_deleted (hw_host w) !! id = None → ht_deleted (hw_host w') !! id = Some d →
  ∃ w1 w2 d1, hosting_run w w1 ∧ commanded w1 w2 ∧ hosting_run w2 w'
    ∧ ht_deleted (hw_host w1) !! id = None ∧ ht_deleted (hw_host w2) !! id = Some d1
    ∧ dl_receipt d1 = dl_receipt d.
Proof.
  induction 1 as [w|w w2 w' Hst Hr IH]; [congruence|]. intros Hn Hd.
  destruct (ht_deleted (hw_host w2) !! id) as [d1|] eqn:H2.
  - exists w, w2, d1. destruct (hosting_step_section _ _ Hst) as [_ (t & Hcmd & Hsec & _)].
    split; [apply rtc_refl|]. split; [|split; [done|split; [done|split; [done|]]]].
    + destruct t; [|by apply Hcmd|..];
        (eapply section_quiet in Hsec; [|done|exact Hn]; congruence).
    + destruct (hosting_run_keeps (λ h, ∃ d', ht_deleted h !! id = Some d' ∧ dl_receipt d' = dl_receipt d1) w2 w')
        as (d' & Hd' & Hre); [intros t0 h h' H; by apply (receipt_kept t0)|done|done|by exists d1|congruence].
  - destruct (IH eq_refl Hd) as (w3 & w4 & d1 & H3 & H4). exists w3, w4, d1. split; [|done].
    by eapply rtc_l.
Qed.

(** What answering a command records, for its own Space only. *)
Lemma command_deletes {OU : Outside} {D : Disk} i q lease draws clocks h id d :
  ht_deleted h !! id = None →
  ht_deleted (command i q lease draws clocks h).1 !! id = Some d →
  i = id ∧ ∃ sp sv receipt, ht_spaces h !! id = Some sp ∧ hs_client sp = Some sv
    ∧ hs_serving sp = true ∧ device_active h q
    ∧ authorize_space_deletion (with_registry sv (ht_registry h)) (hs_config sp) q (ck_now clocks 3)
      = Ok (Some receipt)
    ∧ dl_receipt d = (receipt, ck_now clocks 4).
Proof.
  intros Hn Hd. unfold command in Hd. revert Hd.
  unfold mbind at 1, HM_bind at 1, the_host at 1. cbv beta iota.
  assert (∀ {A B} (r : result StatusCode A) (f : A → HM StatusCode B),
    ht_deleted ((lifth r ≫= f) h).1 !! id = Some d → ∃ x, r = Ok x ∧ ht_deleted (f x h).1 !! id = Some d) as Hl.
  { intros A B [x|x] f Hx; [by exists x|]. change (ht_deleted h !! id = Some d) in Hx. congruence. }
  do 5 (intros (? & ? & Hd)%Hl; revert Hd).
  destruct (ht_deleted h !! i) as [d0|] eqn:Hi; [intros Hd; change (ht_deleted h !! id = Some d) in Hd; congruence|].
  intros (sp & Hsp & (? & _ & (? & Hserv & (sv & Hsv & Hd)%Hl)%Hl)%Hl)%Hl. cbv zeta in Hd.
  apply Hl in Hd as (u & Hact & (fr & _ & (o & Ho & Hd)%Hl)%Hl).
  apply ok_or_Ok in Hsp, Hsv. apply fail_if_Ok, negb_false_iff in Hserv. apply map_err_Ok in Ho.
  destruct o as [receipt|].
  - destruct u. apply sender_active_device in Hact. unfold accept_deletion in Hd.
    apply Hl in Hd as (targets & _ & Hd).
    set (d0 := {| dl_receipt := (receipt, ck_now clocks 4); dl_mailbox := hs_mailbox sp;
                  dl_objects := targets.*2; dl_completed := false |}) in Hd.
    assert (ht_deleted (mark_deleted i d0 h) !! id = Some d) as Hm.
    { revert Hd. unfold with_error, save, mbind, HM_bind. destruct (effect _); intros Hx;
        [|change (ht_deleted h !! id = Some d) in Hx; congruence|exact Hx].
      unfold modify, lifth in Hx.
      match type of Hx with context [match ?x with Ok _ => _ | Err _ => _ end] => destruct x end; exact Hx. }
    cbn in Hm. apply lookup_insert_Some in Hm as [[<- <-]|[_ Hm]]; [|congruence].
    split; [done|]. by exists sp, sv, receipt.
  - exfalso. destruct (serve_command_goes Running i (hs_config sp) q fr draws clocks h) as [Hc _].
    pose proof (deletion_quiet Running _ _ id ltac:(discriminate) Hc Hn). congruence.
Qed.

(** C10. A Space is deleted only by its primary owner, on his own command: a deletion that a host
    records while it runs was recorded by the step that answered one command of the run, to
    that Space, which was open and serving then; the receipt names the Space and the step's
    time. The request's own record was a command to delete this Space, with the request's
    nonce, issued within two minutes, signed by the device the request names; the device
    belonged to the primary owner, managed General's head, was admitted to the Space and retired
    nowhere on the host; and the command named the Space, its roles' revision, and confirmed. *)
Theorem deletion_confirmed w w' id d :
  hosting_run w w' → ht_deleted (hw_host w) !! id = None → ht_deleted (hw_host w') !! id = Some d →
  ∃ w1 (OU : Outside) (D : Disk) q lease draws clocks sp sv signed cmd c,
    hosting_run w w1
    ∧ hosting_run (after w1 (command id q lease draws clocks (hw_host w1)).1) w'
    ∧ ht_deleted (hw_host w1) !! id = None
    ∧ ht_spaces (hw_host w1) !! id = Some sp ∧ hs_client sp = Some sv ∧ hs_serving sp = true
    ∧ dl_receipt d = (ts_space (sa_scope (cfg_address (hs_config sp))), ck_now clocks 4)
    ∧ device_active (hw_host w1) q
    ∧ confirms sv (hs_config sp) q (ck_now clocks 3) signed cmd c.
Proof.
  intros Hr Hn Hd.
  destruct (run_deletes _ _ _ _ Hr Hn Hd) as (w1 & w2 & d1 & H1 & Hcmd & H2 & Hn1 & Hd1 & Hre).
  destruct Hcmd as (OU & D & i & q & lease & draws & clocks & ->).
  destruct (command_deletes _ _ _ _ _ _ _ _ Hn1 Hd1) as (-> & sp & sv & receipt & Hsp & Hsv & Hserv & Hact & Hau & Hrc).
  destruct (authorize_space_deletion_inv _ _ _ _ _ Hau) as [-> (signed & cmd & c & Hcf)].
  exists w1, OU, D, q, lease, draws, clocks, sp, sv, signed, cmd, c. split_and!; try done; [congruence|].
  by destruct Hcf.
Qed.

(** ** Spaces somebody uses *)

Lemma change_claimed trusted cmd w w' :
  change trusted cmd w w' → st_claimed w.2 = true → st_claimed w'.2 = true.
Proof. by destruct 1; frames; cbn [snd]. Qed.
Lemma served_claimed sv sv' :
  served_to sv sv' → st_claimed (sv_stored sv) = true → st_claimed (sv_stored sv') = true.
Proof.
  intros [D Hr] Hc. destruct (host_run_space _ _ Hr) as [_ Hs].
  assert (∀ x y, space_run (sv_trusted_witness sv) x y → st_claimed x.2 = true → st_claimed y.2 = true) as H.
  { induction 1 as [x|x y z Hst _ IH]; [done|]. intros Hx. apply IH. destruct Hst as [u v Hch|]; [|done].
    destruct Hch; [by eapply change_claimed|done..]. }
  by apply (H _ _ Hs).
Qed.

(** A configured Space whose service has answered somebody. *)
Definition claimed_dir (d : SpaceDir) : bool :=
  exists_file (sd_config d) && match service_in d with Some st => st_claimed st | None => false end.
Definition claimed_at (id : string) (h : Host) : Prop :=
  ∃ d, ht_dirs h !! id = Some d ∧ claimed_dir d = true.
(** It is in the files, and in memory wherever the Space is open. *)
Definition in_use (id : string) (h : Host) : Prop :=
  claimed_at id h
  ∧ ∀ sp sv, ht_spaces h !! id = Some sp → hs_client sp = Some sv → st_claimed (sv_stored sv) = true.

Lemma claimed_on_dir id id' f h :
  claimed_at id h → (∀ d, claimed_dir d = true → claimed_dir (f d) = true) →
  claimed_at id (on_dir id' f h).
Proof.
  intros (d & Hd & Hc) Hf. unfold claimed_at, on_dir. cbn. destruct (decide (id' = id)) as [->|Hne].
  - rewrite lookup_alter_eq, Hd. cbn. eauto.
  - rewrite lookup_alter_ne by done. by exists d.
Qed.
Lemma claimed_stored sv d :
  claimed_dir d = true → st_claimed (sv_stored sv) = true → claimed_dir (stored_in sv d) = true.
Proof.
  unfold claimed_dir, service_in, stored_in. cbn. intros H Hs. apply andb_true_iff in H as [-> H]. cbn.
  by destruct (sd_service d).
Qed.
Lemma claimed_lookup id h d :
  claimed_at id h → ht_dirs h !! id = Some d → claimed_dir d = true.
Proof. intros (d' & Hd' & Hc) Hd. congruence. Qed.
Lemma claimed_service id h d sv :
  claimed_at id h → ht_dirs h !! id = Some d → service_in d = Some (sv_stored sv) →
  st_claimed (sv_stored sv) = true.
Proof.
  intros Hc Hd Hs. pose proof (claimed_lookup _ _ _ Hc Hd) as H. unfold claimed_dir in H.
  rewrite Hs in H. by apply andb_true_iff in H as [_ ->].
Qed.
Lemma unused_unclaimed sv now : unused sv now = true → st_claimed (sv_stored sv) = false.
Proof.
  unfold unused, space_reservation_is_unused. destruct (service_state sv) as [st|] eqn:Hst; [|done].
  unfold service_state in Hst. step Hst u H1. step Hst u2 H2. injection Hst as <-. cbn.
  unfold reservation_is_unused. intros H. repeat (apply andb_true_iff in H as [H _]). by apply negb_true_iff.
Qed.

(** Such a Space is in use until its deletion is recorded. *)
Lemma in_use_kept t h h' id :
  host_changed t h h' → in_use id h → in_use id h' ∨ is_Some (ht_deleted h !! id).
Proof.
  intros H [Hcl Hsp]. pose proof Hcl as (d0 & Hd0 & Hc0).
  assert (configured h id = true) as Hcfg.
  { rewrite (configured_dir _ _ _ Hd0). unfold claimed_dir in Hc0. by apply andb_true_iff in Hc0 as [-> _]. }
  destruct H; try (left; by split).
  - (* reserve *) left. split; [|done]. exists d0. cbn. by rewrite lookup_insert_ne by congruence.
  - (* ticket *) left. split; [|done].
    by apply (claimed_on_dir id id0 _ (with_registrations h (Holds (n + 1)))).
  - (* reservation *) left. split; [|done]. by apply claimed_on_dir.
  - (* replica *) left. split; [|done]. by apply claimed_on_dir.
  - (* prepare *) left. split; [|done]. exists d0. cbn. rewrite lookup_alter_ne by congruence. done.
  - (* config *) left. split; [|done]. apply claimed_on_dir; [done|]. intros d. unfold claimed_dir, service_in.
    cbn. intros Hd. by apply andb_true_iff in Hd as [_ ->].
  - (* opening *) left. split; [|done]. destruct (decide (id0 = id)) as [->|Hne].
    + apply (claimed_on_dir id id _ h Hcl). intros d' Hd'. apply claimed_stored; [done|].
      eapply served_claimed; [eassumption|]. by apply (claimed_service id h d sv).
    + exists d0. cbn. by rewrite lookup_alter_ne.
  - (* open *) left. split; [done|]. intros sp' sv' Hsp' Hcl'. cbn in Hsp'.
    destruct (decide (id0 = id)) as [->|Hne].
    + rewrite lookup_insert_eq in Hsp'. injection Hsp' as <-. assert (sv' = sv) as -> by congruence.
      by apply (claimed_service id h d sv).
    + rewrite lookup_insert_ne in Hsp' by done. by eapply Hsp.
  - (* served *) left. destruct (decide (id0 = id)) as [->|Hne].
    + assert (st_claimed (sv_stored sv') = true) as Hs' by (eapply served_claimed; [done|]; by eapply Hsp).
      split; [apply (claimed_on_dir id id _ (put_space id _ h)); [done|]; intros; by apply claimed_stored|].
      intros sp' sv0 Hsp' Hcl'. cbn in Hsp'. rewrite lookup_insert_eq in Hsp'. injection Hsp' as <-.
      cbn in Hcl'. congruence.
    + split; [exists d0; cbn; by rewrite lookup_alter_ne|]. intros sp' sv0 Hsp' Hcl'. cbn in Hsp'.
      rewrite lookup_insert_ne in Hsp' by done. by eapply Hsp.
  - (* close *) left. split; [done|]. intros sp' sv0 Hsp' Hcl'. cbn in Hsp'.
    destruct (decide (id0 = id)) as [->|Hne].
    + rewrite lookup_insert_eq in Hsp'. injection Hsp' as <-. cbn in Hcl'.
      destruct H0 as [->| ->]; [by eapply Hsp|done].
    + rewrite lookup_insert_ne in Hsp' by done. by eapply Hsp.
  - (* drop *) left. split; [done|]. intros sp' sv0 Hsp'. cbn in Hsp'.
    apply lookup_delete_Some in Hsp' as [_ Hsp']. by apply Hsp.
  - (* expire, open *) destruct (decide (id0 = id)) as [->|Hne].
    + exfalso. pose proof (Hsp _ _ ltac:(eassumption) ltac:(eassumption)) as Ht.
      match goal with H : unused _ _ = true |- _ => apply unused_unclaimed in H; congruence end.
    + left. split; [exists d0; cbn; by rewrite lookup_delete_ne|]. intros sp' sv0 Hsp'. cbn in Hsp'.
      apply lookup_delete_Some in Hsp' as [_ Hsp']. by apply Hsp.
  - (* expire *) left. assert (id0 ≠ id) by congruence. split; [|done]. exists d0. cbn.
    by rewrite lookup_delete_ne.
  - (* forget *) left. assert (id0 ≠ id) by congruence. split; [|done]. exists d0. cbn.
    by rewrite lookup_delete_ne.
  - (* remove *) destruct (decide (id0 = id)) as [->|Hne]; [by right; eexists|left].
    split; [|done]. exists d0. cbn. by rewrite lookup_delete_ne.
Qed.

(** C6. A Space somebody uses is never reclaimed: once a service has answered a member, its
    directory with its configuration and its state stays, through every expiry of reservations,
    every deletion of other Spaces and of accounts, every failed write and every restart, until
    the deletion of this Space is recorded. *)
Theorem claimed_space_kept w w' id :
  in_use id (hw_host w) → hosting_run w w' → ht_deleted (hw_host w') !! id = None →
  in_use id (hw_host w').
Proof.
  intros Huse Hr Hnone.
  assert (in_use id (hw_host w') ∨ ∃ d, ht_deleted (hw_host w') !! id = Some d) as [Hu|[d Hd]];
    [|done|congruence].
  apply (hosting_run_keeps (λ h, in_use id h ∨ ∃ d, ht_deleted h !! id = Some d) w); [| |done|by left].
  - intros t h0 h1 H [Hu|Hd].
    + destruct (in_use_kept _ _ _ _ H Hu) as [?|[d Hd]]; [by left|right].
      destruct (receipt_kept _ _ _ id (dl_receipt d) H) as (d' & ? & _); [by exists d|by exists d'].
    + right. destruct Hd as [d Hd].
      destruct (receipt_kept _ _ _ id (dl_receipt d) H) as (d' & ? & _); [by exists d|by exists d'].
  - intros h0 g [[Hc _]|Hd]; [left|by right]. split; [done|]. intros sp sv Hsp. cbn in Hsp. by rewrite lookup_empty in Hsp.
Qed.

(** ** What becomes of a directory *)

Definition network_of (d : SpaceDir) : option string :=
  match sd_reservation d with Holds r => re_creation_network r | _ => None end.
Lemma on_dir_Some id f h i d' :
  ht_dirs (on_dir id f h) !! i = Some d' →
  ∃ d, ht_dirs h !! i = Some d ∧ (d' = d ∨ i = id ∧ d' = f d).
Proof.
  unfold on_dir. cbn. destruct (decide (i = id)) as [->|Hne].
  - rewrite lookup_alter_eq. intros (d & Hd & ->)%fmap_Some. exists d. auto.
  - rewrite lookup_alter_ne by done. eauto.
Qed.
(** Every directory was there with the same network, unless it is the one just reserved. *)
Lemma dirs_changed t h h' :
  host_changed t h h' →
  ∀ i d', ht_dirs h' !! i = Some d' →
  (∃ d, ht_dirs h !! i = Some d ∧ network_of d' = network_of d)
  ∨ ht_dirs h !! i = None ∧ ∃ time b b' who r, t = Reserving time
    ∧ read_budget (ht_budget h) = Ok b
    ∧ spend_creation b (time / 86400000) (hn_max_space_creations_per_day (ht_config h))
        (network_of d') = Ok b'
    ∧ within_capacity h who (network_of d') = Ok tt
    ∧ sd_reservation d' = Holds r ∧ re_ticket_issued r = false
    ∧ ht_budget h' = Holds b' ∧ ht_dirs h' = <[i := d']> (ht_dirs h)
    ∧ ht_allocations h' = <[i := Some who]> (ht_allocations h).
Proof.
  intros H i d' Hd'. destruct H; try (left; by exists d');
    try (left; apply on_dir_Some in Hd' as (d1 & Hd1 & [->|[-> ->]]); by exists d1);
    try (left; cbn in Hd'; apply lookup_delete_Some in Hd' as [_ Hd']; by exists d').
  - cbn in Hd'. apply lookup_insert_Some in Hd' as [[<- <-]|[Hne Hd']]; [right|left; by exists d'].
    cbn [network_of sd_reservation dir_reservation eta_dir]. split; [done|].
    eexists time, b, b', who, r. subst network. by split_and!.
  - left. apply (on_dir_Some _ _ (with_registrations h _)) in Hd' as (d1 & Hd1 & [->|[-> ->]]); [by exists d1|].
    exists d1. split; [done|]. cbn in Hd1. unfold network_of. cbn.
    assert (d1 = d) as -> by congruence. by rewrite H2.
  - left. apply on_dir_Some in Hd' as (d1 & Hd1 & [->|[-> ->]]); [by exists d1|].
    exists d1. split; [done|]. assert (d1 = d) as -> by congruence. unfold network_of. cbn.
    rewrite H0. by destruct H1 as (_ & -> & _).
Qed.

(** *** Tickets *)

(** Every Space that has a ticket, or may get one again, is counted on disk. *)
Definition counted (h : Host) (tickets : list string) : Prop :=
  (tickets = [] ∧ ∀ i, ¬ marked h i)
  ∨ ∃ n, ht_registrations h = Holds n ∧ n ≤ N.min (hn_max_spaces (ht_config h)) 128
      ∧ ∀ Y : gset string, (∀ i, i ∈ Y → i ∈ tickets ∨ marked h i) → N.of_nat (size Y) ≤ n.

Lemma marks_changed t h h' :
  host_changed t h h' →
  (ht_registrations h' = ht_registrations h ∧ ∀ i, marked h' i → marked h i)
  ∨ ∃ n id, match ht_registrations h with Holds m => n = m | _ => True end
      ∧ n < N.min (hn_max_spaces (ht_config h)) 128
      ∧ ht_registrations h' = Holds (n + 1) ∧ ∀ i, marked h' i → i = id ∨ marked h i.
Proof.
  intros H.
  assert (∀ f id, (∀ d, sd_reservation (f d) = sd_reservation d) → ∀ i, marked (on_dir id f h) i → marked h i) as Hkeep.
  { intros f id Hf i (d' & r & Hd' & Hr & Hm). apply on_dir_Some in Hd' as (d & Hd & [->|[-> ->]]).
    - by exists d, r.
    - exists d, r. by rewrite <-Hf. }
  assert (∀ id i, marked (with_dirs h (delete id (ht_dirs h))) i → marked h i) as Hdel.
  { intros id i (d & r & Hd & Hr & Hm). cbn in Hd. apply lookup_delete_Some in Hd as [_ Hd]. by exists d, r. }
  destruct H; try (left; by split);
    try (left; split; [done|]; by apply Hkeep); try (left; split; [done|]; by apply Hdel).
  - left. split; [done|]. intros i (d' & r' & Hd' & Hr & Hm). cbn in Hd'.
    apply lookup_insert_Some in Hd' as [[<- <-]|[_ Hd']]; [|by exists d', r']. cbn in Hr. congruence.
  - right. exists n, "". split_and!; try done. intros i Hi. by right.
  - right. exists n, id. split_and!; try done. intros i (d' & r' & Hd' & Hr & Hm).
    apply (on_dir_Some _ _ (with_registrations h _)) in Hd' as (d1 & Hd1 & [->|[-> ->]]); [right|by left].
    by exists d1, r'.
  - left. split; [done|]. intros i (d' & r0 & Hd' & Hr & Hm).
    apply on_dir_Some in Hd' as (d1 & Hd1 & [->|[-> ->]]); [by exists d1, r0|].
    cbn in Hr. injection Hr as <-. exists d, r. split_and!; [congruence|done|]. by destruct H1 as (<- & _).
Qed.

Lemma counted_changed t h h' l : host_changed t h h' → counted h l → counted h' l.
Proof.
  intros H Hc. pose proof (config_changed _ _ _ H) as Hcfg. unfold counted. rewrite Hcfg.
  destruct (marks_changed _ _ _ H) as [[Hreg Hm]|(n & id & Hn & Hlt & Hreg & Hm)].
  - rewrite Hreg. destruct Hc as [[-> Hno]|(n & Hn & Hle & HY)].
    + left. split; [done|]. intros i Hi. by eapply Hno, Hm.
    + right. exists n. split_and!; [done..|]. intros Y Hin. apply HY. intros i Hi.
      destruct (Hin i Hi); [by left|right; by apply Hm].
  - right. exists (n + 1). split_and!; [done|lia|]. intros Y Hin.
    assert (N.of_nat (size (Y ∖ {[id]})) ≤ n) as Hsz.
    { destruct Hc as [[-> Hno]|(m & Hm1 & _ & HY)].
      - assert (Y ∖ {[id]} = ∅) as ->; [|rewrite size_empty; lia]. apply set_eq. intros i.
        rewrite elem_of_difference, elem_of_singleton. split; [|by intros ?%elem_of_empty]. intros [Hi Hne].
        destruct (Hin i Hi) as [Hi'|Hi']; [by apply elem_of_nil in Hi'|].
        destruct (Hm i Hi'); [done|]. by exfalso; eapply Hno.
      - rewrite Hm1 in Hn. subst m. apply HY. intros i [Hi Hne]%elem_of_difference.
        destruct (Hin i Hi) as [?|Hi']; [by left|right]. destruct (Hm i Hi') as [->|?]; [|done].
        by rewrite elem_of_singleton in Hne. }
    assert (size Y ≤ size (Y ∖ {[id]}) + 1)%nat; [|lia].
    rewrite <-(size_singleton (C := gset string) id), Nat.add_comm, <-size_union_alt.
    apply subseteq_size. set_solver.
Qed.

(** C18. A host signs no more tickets than it may: whatever it reserves, expires, forgets with
    an account or deletes, whichever writes fail and wherever it restarts, the tickets it ever
    signed for the witness are for at most as many reservations as the operator allows, and
    never more than 128; and each of them is counted in a file before it is signed. *)
Theorem registration_tickets_counted h clock w :
  (∀ i, ¬ marked h i) →
  hosting_run {| hw_host := h; hw_clock := clock; hw_reserved := []; hw_tickets := [] |} w →
  N.of_nat (size (list_to_set (hw_tickets w) : gset string)) ≤ N.min (hn_max_spaces (ht_config h)) 128
  ∧ (hw_tickets w ≠ [] → ∃ n, ht_registrations (hw_host w) = Holds n
       ∧ N.of_nat (size (list_to_set (hw_tickets w) : gset string)) ≤ n).
Proof.
  intros Hno Hr.
  assert (counted (hw_host w) (hw_tickets w) ∧ ht_config (hw_host w) = ht_config h) as [Hc Hcfg].
  { assert (∀ w1 w2, hosting_run w1 w2 → counted (hw_host w1) (hw_tickets w1) →
      counted (hw_host w2) (hw_tickets w2) ∧ ht_config (hw_host w2) = ht_config (hw_host w1)) as Hrun.
    2: { apply (Hrun _ _ Hr). by left. }
    induction 1 as [w1|w1 w2 w3 Hs _ IH]; [done|]. intros Hc.
    destruct (hosting_step_section _ _ Hs) as [_ (t & _ & Hsec & Ht)].
    pose proof (config_section _ _ _ Hsec) as Hcf.
    assert (counted (hw_host w2) (hw_tickets w1)) as Hc2.
    { eapply (section_keeps (λ x, counted x (hw_tickets w1))); [|done|done|done].
      intros t0 h0 h1. apply counted_changed. }
    assert (counted (hw_host w2) (hw_tickets w2)) as Hc3.
    { assert (hw_tickets w2 = hw_tickets w1 ∨ ∃ i, hw_tickets w2 = i :: hw_tickets w1 ∧ marked (hw_host w2) i)
        as [->|(i & -> & Hi)] by (destruct t; [by destruct Ht as (_ & _ & ?)|left; by destruct Ht..]); [done|].
      destruct Hc2 as [[_ Hn]|(n & Hn & Hle & HY)]; [by exfalso; eapply Hn|].
      right. exists n. split_and!; [done..|]. intros Y Hin. apply HY. intros j Hj.
      destruct (Hin j Hj) as [[->|?]%elem_of_cons|?]; [by right|by left|by right]. }
    destruct (IH Hc3) as [? ->]. by split. }
  rewrite <-Hcfg. destruct Hc as [[-> _]|(n & Hn & Hle & HY)].
  - cbn. rewrite size_empty. split; [lia|done].
  - specialize (HY (list_to_set (hw_tickets w))). split.
    + etrans; [apply HY|done]. intros i Hi%elem_of_list_to_set. by left.
    + intros _. exists n. split; [done|]. apply HY. intros i Hi%elem_of_list_to_set. by left.
Qed.

(** *** The operator's limits *)

Abbreviation Entries := (list (N * option string * string)) (only parsing).
(** How many reservations of a day, and of those from one network. *)
Definition of_day (day : N) (l : Entries) : N :=
  nlen (List.filter (λ e, e.1.1 =? day) l).
Definition of_network (day : N) (network : string) (l : Entries) : N :=
  nlen (List.filter (λ e, (e.1.1 =? day) && (e.1.2 === Some network)) l).
Definition within_day (limit : N) (l : Entries) : Prop :=
  ∀ day, of_day day l ≤ limit ∧ ∀ n, of_network day n l ≤ 4.
(** The budget on disk knows of every reservation of the last day. *)
Definition budgeted (h : Host) (l : Entries) (today : N) : Prop :=
  within_day (hn_max_space_creations_per_day (ht_config h)) l
  ∧ (∀ e, e ∈ l → e.1.1 ≤ today)
  ∧ ((∀ e, e ∈ l → e.1.1 ≠ today)
     ∨ ∃ b, ht_budget h = Holds b ∧ cb_day b = today ∧ of_day today l ≤ cb_count b
         ∧ ∀ n, of_network today n l ≤ default 0 (cb_networks b !! n)).

Lemma none_of_day day l : (∀ e, e ∈ l → e.1.1 ≠ day) → of_day day l = 0 ∧ ∀ n, of_network day n l = 0.
Proof.
  induction l as [|e l IH]; intros H; [done|].
  assert (e.1.1 ≠ day) as Hne by (apply H; by left).
  destruct IH as [H1 H2]; [intros e' He'; apply H; by right|].
  unfold of_day, of_network in *. cbn. apply N.eqb_neq in Hne as ->. cbn. by split.
Qed.
Lemma of_day_cons e day l :
  of_day day (e :: l) = (if e.1.1 =? day then 1 else 0) + of_day day l.
Proof. unfold of_day, nlen. cbn. destruct (_ =? _); cbn [length]; lia. Qed.
Lemma of_network_cons e day n l :
  of_network day n (e :: l)
  = (if (e.1.1 =? day) && (e.1.2 === Some n) then 1 else 0) + of_network day n l.
Proof. unfold of_network, nlen. cbn. destruct (_ && _); cbn [length]; lia. Qed.

Lemma budgeted_later h l d d' : d ≤ d' → budgeted h l d → budgeted h l d'.
Proof.
  intros Hle (Hw & Hd & Hb). split_and!; [done|intros e He; specialize (Hd e He); lia|].
  destruct (decide (d = d')) as [->|Hne]; [done|]. left. intros e He. specialize (Hd e He). lia.
Qed.
Lemma spend_creation_Ok b day limit network b' :
  spend_creation b day limit network = Ok b' →
  ∃ b0, (b0 = b ∧ cb_day b = day ∨ b0 = no_creations day ∧ cb_day b ≠ day)
    ∧ cb_day b' = day ∧ cb_count b0 < limit ∧ cb_count b' = cb_count b0 + 1
    ∧ ∀ n, match network with
           | Some m => if m === n then default 0 (cb_networks b0 !! n) < 4
                         ∧ default 0 (cb_networks b' !! n) = default 0 (cb_networks b0 !! n) + 1
                       else cb_networks b' !! n = cb_networks b0 !! n
           | None => cb_networks b' !! n = cb_networks b0 !! n
           end.
Proof.
  unfold spend_creation. intros H. exists (if cb_day b =? day then b else no_creations day).
  step H u H1. step H nets H2. injection H as <-. cbn [cb_day cb_count cb_networks].
  apply fail_if_Ok in H1. ordered. split_and!.
  - destruct (cb_day b =? day) eqn:E; [apply N.eqb_eq in E; by left|apply N.eqb_neq in E; by right].
  - destruct (cb_day b =? day) eqn:E; [by apply N.eqb_eq in E|done].
  - done.
  - done.
  - intros n. destruct network as [m|]; [|by injection H2 as <-]. step H2 u3 H3. injection H2 as <-.
    apply fail_if_Ok in H3. ordered. case_bool_decide as Hmn; [subst m|by rewrite lookup_insert_ne].
    by rewrite lookup_insert_eq.
Qed.
(** One more reservation, counted in the budget that is saved with it. *)
Lemma budgeted_spend h h' l day b b' network id (more : bool) :
  read_budget (ht_budget h) = Ok b →
  spend_creation b day (hn_max_space_creations_per_day (ht_config h)) network = Ok b' →
  ht_config h' = ht_config h → ht_budget h' = Holds b' → budgeted h l day →
  budgeted h' (if more then (day, network, id) :: l else l) day.
Proof.
  intros Hb Hsp Hcfg Hb' (Hw & Hd & Hin).
  destruct (spend_creation_Ok _ _ _ _ _ Hsp) as (b0 & Hb0 & Hday & Hlim & Hcount & Hnets).
  assert (of_day day l ≤ cb_count b0 ∧ ∀ n, of_network day n l ≤ default 0 (cb_networks b0 !! n)) as [Hc Hn].
  { destruct Hin as [Hno|(b1 & Hb1 & Hd1 & Hc1 & Hn1)].
    - destruct (none_of_day _ _ Hno) as [-> H0]. split; [lia|]. intros n. rewrite H0. lia.
    - rewrite Hb1 in Hb. injection Hb as <-. by destruct Hb0 as [[-> _]|[_ ?]]. }
  assert (∀ n, of_network day n ((day, network, id) :: l) ≤ 4
    ∧ of_network day n ((day, network, id) :: l) ≤ default 0 (cb_networks b' !! n)
    ∧ of_network day n l ≤ default 0 (cb_networks b' !! n)) as Hnet.
  { intros n. rewrite of_network_cons. cbn. rewrite N.eqb_refl. cbn [andb].
    specialize (Hn n). specialize (Hnets n). destruct (Hw day) as [_ H4]. specialize (H4 n).
    destruct network as [m|].
    - case_bool_decide as E.
      + subst m. rewrite bool_decide_eq_true_2 by done. destruct Hnets as [? ->]. lia.
      + rewrite bool_decide_eq_false_2 by congruence. rewrite Hnets. lia.
    - rewrite bool_decide_eq_false_2 by done. rewrite Hnets. lia. }
  unfold budgeted. rewrite Hcfg. destruct more.
  - split_and!.
    + intros d. destruct (Hw d) as [Hw1 Hw2]. destruct (decide (d = day)) as [->|Hne].
      * split; [rewrite of_day_cons; cbn; rewrite N.eqb_refl; lia|]. intros n. apply Hnet.
      * split; [rewrite of_day_cons|intros n; rewrite of_network_cons]; cbn;
          rewrite (proj2 (N.eqb_neq _ _)) by congruence; cbn; [lia|apply Hw2].
    + intros e [->|He]%elem_of_cons; [done|by apply Hd].
    + right. exists b'. split_and!; [done..| |intros n; apply Hnet].
      rewrite of_day_cons. cbn. rewrite N.eqb_refl. lia.
  - split_and!; [done..|]. right. exists b'. split_and!; [done..|lia|intros n; apply Hnet].
Qed.

(** The same directories, for the same networks. *)
Definition same_dirs (h h' : Host) : Prop :=
  (∀ i d, ht_dirs h !! i = Some d → ∃ d', ht_dirs h' !! i = Some d' ∧ network_of d' = network_of d)
  ∧ ∀ i, ht_dirs h !! i = None → ht_dirs h' !! i = None.
Lemma same_dirs_refl h : same_dirs h h.
Proof. split; [|done]. intros i d Hd. by exists d. Qed.
Lemma same_on_dir id f h :
  (∀ d, ht_dirs h !! id = Some d → network_of (f d) = network_of d) → same_dirs h (on_dir id f h).
Proof.
  intros Hf. unfold on_dir. split; intros i; cbn; destruct (decide (id = i)) as [->|Hne].
  - intros d Hd. rewrite lookup_alter_eq, Hd. cbn. eexists. split; [done|]. by apply Hf.
  - intros d Hd. rewrite lookup_alter_ne by done. by exists d.
  - intros Hd. by rewrite lookup_alter_eq, Hd.
  - intros Hd. by rewrite lookup_alter_ne.
Qed.
Lemma reserving_changed time h h' :
  host_changed (Reserving time) h h' →
  (ht_budget h' = ht_budget h ∧ same_dirs h h')
  ∨ (∃ b b' network, read_budget (ht_budget h) = Ok b
      ∧ spend_creation b (time / 86400000) (hn_max_space_creations_per_day (ht_config h)) network = Ok b'
      ∧ ht_budget h' = Holds b'
      ∧ (same_dirs h h' ∨ ∃ id d, ht_dirs h !! id = None ∧ network_of d = network
           ∧ ht_dirs h' = <[id := d]> (ht_dirs h))).
Proof.
  intros H. remember (Reserving time) as t eqn:Et.
  destruct H; subst t; try (left; split; [done|]; exact (same_dirs_refl h)); try done;
    try (left; split; [done|]; by apply same_on_dir).
  - simplify_eq. right. exists b, b', network. split_and!; [done..|left]. exact (same_dirs_refl h).
  - simplify_eq. right. exists b, b', (re_creation_network r). split_and!; [done..|right].
    by eexists _, (dir_reservation no_files (Holds r)).
  - left. split; [done|]. apply (same_on_dir id _ (with_registrations h (Holds (n + 1)))).
    intros d' Hd'. cbn in Hd'. assert (d' = d) as -> by congruence. unfold network_of. cbn. by rewrite H2.
  - left. split; [done|]. apply same_on_dir. intros d' Hd'. assert (d' = d) as -> by congruence.
    unfold network_of. cbn. rewrite H0. by destruct H1 as (_ & -> & _).
  - left. split; [done|].
    exact (same_on_dir id (stored_in sv') (put_space id (serving_with sp (hs_serving sp) (Some sv')) h)
             (λ _ _, eq_refl)).
Qed.

(** What is reserved in a section is in a list that the budget covers. *)
Lemma reserving_changes time h h' l :
  host_changes (Reserving time) h h' → budgeted h l (time / 86400000) →
  ∃ L, budgeted h' (((λ p, (time / 86400000, p.1, p.2)) <$> L) ++ l) (time / 86400000)
    ∧ (∀ i d, ht_dirs h !! i = Some d → ∃ d', ht_dirs h' !! i = Some d' ∧ network_of d' = network_of d)
    ∧ ∀ i d', ht_dirs h' !! i = Some d' → ht_dirs h !! i = None → (network_of d', i) ∈ L.
Proof.
  intros H. revert l. induction H as [h|h h1 h2 Hs _ IH]; intros l Hb.
  { exists []. split_and!; [done|intros i d Hd; by exists d|congruence]. }
  pose proof (config_changed _ _ _ Hs) as Hcfg.
  destruct (reserving_changed _ _ _ Hs) as [[Hbud [Hf Hn]]|(b & b' & network & Hr & Hsp & Hb' & Hd)].
  - assert (budgeted h1 l (time / 86400000)) as Hb1 by (unfold budgeted; by rewrite Hbud, Hcfg).
    destruct (IH l Hb1) as (L & HL & Hk & HN). exists L. split_and!; [done| |].
    + intros i d Hi. destruct (Hf i d Hi) as (d1 & Hd1 & <-). by apply Hk.
    + intros i d' Hi Hnone. apply HN; [done|]. by apply Hn.
  - destruct Hd as [[Hf Hn]|(id & d & Hid & Hnet & Hins)].
    + assert (budgeted h1 l (time / 86400000)) as Hb1 by (by eapply (budgeted_spend h h1 l _ b b' network "" false)).
      destruct (IH l Hb1) as (L & HL & Hk & HN). exists L. split_and!; [done| |].
      * intros i d Hi. destruct (Hf i d Hi) as (d1 & Hd1 & <-). by apply Hk.
      * intros i d' Hi Hnone. apply HN; [done|]. by apply Hn.
    + assert (budgeted h1 ((time / 86400000, network, id) :: l) (time / 86400000)) as Hb1
        by (by eapply (budgeted_spend h h1 l _ b b' network id true)).
      destruct (IH _ Hb1) as (L & HL & Hk & HN). exists (L ++ [(network, id)]). split_and!.
      * by rewrite fmap_app, <-app_assoc.
      * intros i d0 Hi. apply Hk. rewrite Hins. by rewrite lookup_insert_ne by congruence.
      * intros i d' Hi Hnone. apply elem_of_app. destruct (decide (id = i)) as [->|Hne].
        -- right. destruct (Hk i d) as (d1 & Hd1 & Hn1); [by rewrite Hins, lookup_insert_eq|].
           assert (d1 = d') as -> by congruence. rewrite Hn1, Hnet. by left.
        -- left. apply HN; [done|]. by rewrite Hins, lookup_insert_ne.
Qed.

(** A list with fewer entries of each kind. *)
Lemma of_day_sub day l l' : l ⊆+ l' → of_day day l ≤ of_day day l'.
Proof.
  induction 1 as [|e l l' _ IH|e e' l|e l l' _ IH|l1 l2 l3 _ IH1 _ IH2]; rewrite ?of_day_cons; lia.
Qed.
Lemma of_network_sub day n l l' : l ⊆+ l' → of_network day n l ≤ of_network day n l'.
Proof.
  induction 1 as [|e l l' _ IH|e e' l|e l l' _ IH|l1 l2 l3 _ IH1 _ IH2]; rewrite ?of_network_cons; lia.
Qed.
Lemma budgeted_sub h l l' today : l ⊆+ l' → budgeted h l' today → budgeted h l today.
Proof.
  intros Hl (Hw & Hd & Hb). split_and!.
  - intros day. destruct (Hw day) as [H1 H2]. split; [by etrans; [apply of_day_sub|]|].
    intros n. by etrans; [apply of_network_sub|].
  - intros e He. apply Hd. by eapply elem_of_submseteq.
  - destruct Hb as [Hno|(b & Hb & Hday & Hc & Hn)].
    + left. intros e He. apply Hno. by eapply elem_of_submseteq.
    + right. exists b. split_and!; [done..|by etrans; [apply of_day_sub|]|].
      intros n. by etrans; [apply of_network_sub|].
Qed.

(** *** Capacity *)

Lemma from_network_of n d : from_network n d = (network_of d === Some n).
Proof. unfold from_network, network_of. by destruct (sd_reservation d). Qed.
Lemma network_changed t h h' n :
  host_changed t h h' →
  network_reservations h' n ≤ network_reservations h n ∨ network_reservations h' n ≤ 8.
Proof.
  intros H. unfold network_reservations, count_over.
  assert (∀ d d', network_of d' = network_of d → from_network n d' = from_network n d) as Heq.
  { intros d d' E. by rewrite !from_network_of, E. }
  destruct (decide (map_Forall (λ i _, is_Some (ht_dirs h !! i)) (ht_dirs h'))) as [Hall|Hnot].
  - left. apply sum_over_le. intros i d' Hd'. destruct (Hall i d' Hd') as [d Hd].
    destruct (dirs_changed _ _ _ H i d' Hd') as [(d1 & Hd1 & Hn)|[Hno _]]; [|congruence].
    exists d1. split; [done|]. by rewrite (Heq _ _ Hn).
  - apply map_not_Forall in Hnot as (i & d' & Hd' & Hno); [|apply _].
    destruct (dirs_changed _ _ _ H i d' Hd')
      as [(d1 & Hd1 & _)|(Hnone & time & b & b' & who & r & _ & _ & _ & Hcap & Hr & _ & _ & Hins & _)].
    { exfalso. apply Hno. by exists d1. }
    rewrite Hins, sum_over_insert by done. destruct (from_network n d') eqn:Hf; [right|left; lia].
    unfold within_capacity in Hcap. step Hcap u1 H1. step Hcap u2 H2.
    assert (network_of d' = Some n) as E by (rewrite from_network_of in Hf; by apply bool_decide_eq_true in Hf).
    rewrite E in Hcap. apply fail_if_Ok in Hcap. unfold network_reservations, count_over in Hcap. ordered. lia.
Qed.
Lemma allocations_changed t h h' M :
  host_changed t h h' → opens t = false → hn_max_spaces (ht_config h) ≤ M →
  N.of_nat (size (ht_allocations h)) ≤ M → N.of_nat (size (ht_allocations h')) ≤ M.
Proof.
  intros H Ht HM Hs. destruct H; try done.
  - cbn. unfold within_capacity in H1. step H1 u1 Hc. apply fail_if_Ok in Hc. ordered.
    assert (size (<[id := Some who]> (ht_allocations h)) ≤ S (size (ht_allocations h)))%nat; [|lia].
    rewrite map_size_insert. destruct (ht_allocations h !! id); unfold Datatypes.id; lia.
  - cbn. etrans; [|exact Hs]. apply N2Z.inj_le. rewrite !nat_N_Z. apply inj_le. apply size_le.
    intros k v Hk. apply lookup_delete_Some in Hk as [_ Hk]. by exists v.
  - by destruct t.
Qed.
Lemma loading_allocations ids h h' :
  host_changed (Loading ids) h h' →
  (∀ i, is_Some (ht_allocations h !! i) → i ∈ ids) → ∀ i, is_Some (ht_allocations h' !! i) → i ∈ ids.
Proof.
  intros H Hin i Hi. remember (Loading ids) as t eqn:Et. destruct H; subst t; try done; try (by apply Hin).
  - apply Hin. cbn in Hi. destruct Hi as [v [_ Hv]%lookup_delete_Some]. by exists v.
  - cbn in Hi. destruct Hi as [v [[<- _]|[_ Hv]]%lookup_insert_Some]; [done|]. apply Hin. by exists v.
Qed.
Lemma budget_changed t h h' :
  host_changed t h h' → (∀ time, t ≠ Reserving time) → ht_budget h' = ht_budget h.
Proof. intros H Ht. destruct H; try done; by exfalso; eapply Ht. Qed.

Record within (M : N) (K : string → N) (w : HostLife) : Prop := {
  wn_budget : budgeted (hw_host w) (hw_reserved w) (hw_clock w / 86400000);
  wn_covered : covered (hw_host w);
  wn_capacity : N.of_nat (size (ht_allocations (hw_host w))) ≤ M;
  wn_network n : network_reservations (hw_host w) n ≤ K n;
}.
Lemma changes_network t h h' K :
  host_changes t h h' → (∀ n, 8 ≤ K n) →
  (∀ n, network_reservations h n ≤ K n) → ∀ n, network_reservations h' n ≤ K n.
Proof.
  induction 1 as [h|h h1 h2 Hs _ IH]; [done|]. intros HK Hn. apply IH; [done|]. intros n.
  destruct (network_changed _ _ _ n Hs) as [H1|H1]; [specialize (Hn n); lia|specialize (HK n); lia].
Qed.
Lemma changes_capacity t h h' M :
  host_changes t h h' → opens t = false → hn_max_spaces (ht_config h) ≤ M →
  N.of_nat (size (ht_allocations h)) ≤ M → N.of_nat (size (ht_allocations h')) ≤ M.
Proof.
  induction 1 as [h|h h1 h2 Hs _ IH]; [done|]. intros Ht HM Hsz.
  apply IH; [done|by rewrite (config_changed _ _ _ Hs)|]. by eapply allocations_changed.
Qed.
Lemma loading_changes ids h h' :
  host_changes (Loading ids) h h' →
  (∀ i, is_Some (ht_allocations h !! i) → i ∈ ids) → ∀ i, is_Some (ht_allocations h' !! i) → i ∈ ids.
Proof. induction 1 as [h|h h1 h2 Hs _ IH]; [done|]. intros Hin. by apply IH, (loading_allocations ids h). Qed.
Lemma budget_of_changes t h h' :
  host_changes t h h' → (∀ time, t ≠ Reserving time) → ht_budget h' = ht_budget h.
Proof.
  induction 1 as [h|h h1 h2 Hs _ IH]; [done|]. intros Ht. rewrite IH by done. by eapply budget_changed.
Qed.
Lemma new_entries_sub time h h' (L : list (option string * string)) :
  (∀ i d', ht_dirs h' !! i = Some d' → ht_dirs h !! i = None → (network_of d', i) ∈ L) →
  ((λ id, (time / 86400000, reserved_network h' id, id)) <$> new_dirs h h')
  ⊆+ ((λ p, (time / 86400000, p.1, p.2)) <$> L).
Proof.
  intros HL. apply NoDup_submseteq.
  - apply NoDup_fmap_2; [|apply NoDup_elements]. by intros i j [= _ ?].
  - intros e (i & -> & Hi)%list_elem_of_fmap. unfold new_dirs in Hi.
    apply elem_of_elements, elem_of_difference in Hi as [Hi Hno]. apply elem_of_dom in Hi as [d' Hd'].
    apply not_elem_of_dom in Hno. apply list_elem_of_fmap. exists (network_of d', i). split.
    + unfold reserved_network. by rewrite Hd'.
    + by apply HL.
Qed.

Lemma within_step M K w w' :
  hosting_step w w' → hn_max_spaces (ht_config (hw_host w)) ≤ M → (∀ n, 8 ≤ K n) →
  within M K w → within M K w'.
Proof.
  intros Hstep HM HK [Hb Hc Hsz Hn].
  destruct (hosting_step_section _ _ Hstep) as [Hclock (t & _ & Hsec & Ht)].
  pose proof (config_section _ _ _ Hsec) as Hcfg.
  assert (hw_clock w / 86400000 ≤ hw_clock w' / 86400000) as Hday by (by apply N.Div0.div_le_mono).
  assert (∀ t0, (∀ time, t0 ≠ Reserving time) → ht_budget (hw_host w') = ht_budget (hw_host w) →
    hw_reserved w' = hw_reserved w →
    budgeted (hw_host w') (hw_reserved w') (hw_clock w' / 86400000)) as Hquiet.
  { intros _ _ Hbud ->. apply (budgeted_later _ _ _ _ Hday). unfold budgeted. by rewrite Hbud, Hcfg. }
  remember (hw_host w') as h1 eqn:Eh. destruct Hsec as [t h1 Hopens Hch|ids g h1 Hids Hcov Hch].
  - assert (covered h1 ∧ N.of_nat (size (ht_allocations h1)) ≤ M
      ∧ ∀ n, network_reservations h1 n ≤ K n) as (H1 & H2 & H3).
    { split_and!; [by eapply covered_changes|by eapply changes_capacity|by eapply changes_network]. }
    split; rewrite <-?Eh; try done. destruct t as [time| | |ids]; [|destruct Ht as [Hres _]..|done].
    + destruct Ht as (Hck & Hres & _). rewrite Hck in Hday.
      pose proof (budgeted_later _ _ _ _ Hday Hb) as Hb1.
      destruct (reserving_changes _ _ _ _ Hch Hb1) as (L & HL & _ & HN).
      rewrite Hck, Hres. eapply budgeted_sub; [|exact HL].
      apply submseteq_app; [by apply new_entries_sub|done].
    + apply (Hquiet Commanding); [done| |done]. by eapply budget_of_changes.
    + apply (Hquiet Running); [done| |done]. by eapply budget_of_changes.
  - split; rewrite <-?Eh; try done.
    + apply (Hquiet Running); [done| |by destruct Ht]. by rewrite (budget_of_changes _ _ _ Hch).
    + assert (∀ i, is_Some (ht_allocations h1 !! i) → is_Some (ht_allocations (hw_host w) !! i)) as Hsub.
      { intros i Hi. destruct (Hc i) as [?|?%elem_of_nil]; [|done|done]. apply Hids.
        eapply (loading_changes ids _ _ Hch); [|done]. cbn. intros j [v Hv]. by rewrite lookup_empty in Hv. }
      etrans; [|exact Hsz]. apply N2Z.inj_le. rewrite !nat_N_Z. apply inj_le, size_le.
      intros i v Hv. apply Hsub. by exists v.
    + intros n. by eapply (changes_network _ _ _ K Hch).
Qed.

(** C23. The operator's limits hold whatever is asked, restarted or fails: no more Spaces are
    reserved in a day than the operator allows, nor more than four from one network; there are
    never more directories than the operator allows, or than there were at first, and never
    more than eight active reservations of one network that had not more at first. *)
Theorem hosting_within_limits h clock w :
  covered h →
  hosting_run {| hw_host := h; hw_clock := clock; hw_reserved := []; hw_tickets := [] |} w →
  (∀ day, of_day day (hw_reserved w) ≤ hn_max_space_creations_per_day (ht_config h)
          ∧ ∀ n, of_network day n (hw_reserved w) ≤ 4)
  ∧ N.of_nat (size (ht_dirs (hw_host w)))
    ≤ N.max (hn_max_spaces (ht_config h)) (N.of_nat (size (ht_allocations h)))
  ∧ ∀ n, network_reservations (hw_host w) n ≤ N.max 8 (network_reservations h n).
Proof.
  intros Hcov Hr.
  set (M := N.max (hn_max_spaces (ht_config h)) (N.of_nat (size (ht_allocations h)))).
  set (K := λ n, N.max 8 (network_reservations h n)).
  assert (∀ w1 w2, hosting_run w1 w2 → hn_max_spaces (ht_config (hw_host w1)) ≤ M → within M K w1 →
    within M K w2 ∧ ht_config (hw_host w2) = ht_config (hw_host w1)) as Hrun.
  { induction 1 as [w1|w1 w2 w3 Hs _ IH]; [done|]. intros HM Hw.
    destruct (hosting_step_section _ _ Hs) as [_ (t & _ & Hsec & _)].
    pose proof (config_section _ _ _ Hsec) as Hcf. rewrite <-Hcf in HM.
    destruct (IH HM) as [? ->]; [|by split]. eapply within_step; try done; [by rewrite <-Hcf|].
    intros n. unfold K. lia. }
  destruct (Hrun _ _ Hr) as [[(Hw & _) Hc Hsz Hn] Hcfg].
  - cbn. unfold M. lia.
  - split; cbn [hw_host hw_reserved hw_clock]; [|done|unfold M; lia|intros n; unfold K; lia].
    split_and!; [|by intros e ?%elem_of_nil|left; by intros e ?%elem_of_nil].
    intros day. split; [|intros n]; unfold of_day, of_network, nlen; cbn; lia.
  - rewrite Hcfg in Hw. split_and!; [done| |done].
    etrans; [|exact Hsz]. apply N2Z.inj_le. rewrite !nat_N_Z. apply inj_le.
    rewrite <-!size_dom. apply subseteq_size. intros i Hi%elem_of_dom. apply elem_of_dom.
    by destruct (Hc i Hi) as [?|?%elem_of_nil].
Qed.
(** ** What a completed erasure has done *)

Lemma handler_bind_Ok {E A B} (m : HM E A) (f : A → HM E B) h h' b :
  (m ≫= f) h = (h', Ok b) → ∃ h1 a, m h = (h1, Ok a) ∧ f a h1 = (h', Ok b).
Proof. unfold mbind, HM_bind. destruct (m h) as [h1 [a|e]]; [by exists h1, a|done]. Qed.
Lemma handler_lift_Ok {E A B} (r : result E A) (f : A → HM E B) h h' b :
  (lifth r ≫= f) h = (h', Ok b) → ∃ a, r = Ok a ∧ f a h = (h', Ok b).
Proof. intros (h1 & a & [= <- ->] & H)%handler_bind_Ok. by exists a. Qed.
Lemma save_Ok w g h h' a : save w g h = (h', Ok a) → h' = g h.
Proof. unfold save. by destruct w; intros [= <- ?]. Qed.
(** The last call on each of a list decides what holds of it. *)
Lemma for_each_Ok {A E} `{EqDecision A} (f : A → HM E unit) (post : A → Host → Prop) l h h' a :
  (∀ x y h h' a, f x h = (h', Ok a) → x = y ∨ post y h → post y h') →
  for_each f l h = (h', Ok a) → ∀ y, y ∈ l ∨ post y h → post y h'.
Proof.
  intros Hf. revert h. induction l as [|x l IH]; intros h H y Hy.
  - injection H as <- _. by destruct Hy as [?%elem_of_nil|].
  - cbn [for_each] in H. apply handler_bind_Ok in H as (h1 & u & Hx & H). eapply IH; [exact H|].
    destruct Hy as [[->|?]%elem_of_cons|Hy]; [right|by left|right]; eapply Hf; eauto.
Qed.

(** The open Space has erased the account, and the host does not remember it as its creator. *)
Definition forgotten (who : IdentityId) (id : string) (h : Host) : Prop :=
  (∃ sp sv, ht_spaces h !! id = Some sp ∧ hs_client sp = Some sv
     ∧ is_erased (sv_stored sv) who = true)
  ∧ ∃ d r, ht_dirs h !! id = Some d ∧ sd_reservation d = Holds r ∧ re_creator r ≠ Some who.

Lemma erase_service_Ok {D : Disk} cfg who e sv sv' :
  erase_service_account cfg who e sv = (sv', Ok tt) → is_erased (sv_stored sv') who = true.
Proof.
  unfold erase_service_account, self, lift, mbind, M_bind.
  destruct (account_deletion_intent _ _ _ _) as [[st b]|]; [|done].
  destruct (ok_or e _) as [e'|]; [|done]. destruct (erased_state st b who e') as [st'|] eqn:Hs; [|done].
  apply erased_state_frame in Hs as (roles & _ & ->). unfold save_service_state.
  destruct (_ <? _); [done|]. destruct (disk_state _); [|done]. intros [= <-]. cbn.
  apply bool_decide_eq_true_2. set_solver.
Qed.
Lemma on_client_Ok {A} {D : Disk} id (m : M A) h h' a :
  on_client id m h = (h', Ok a) →
  ∃ sp sv sv', m sv = (sv', Ok a) ∧ ht_spaces h' = <[id := serving_with sp (hs_serving sp) (Some sv')]> (ht_spaces h)
    ∧ ht_dirs h' = alter (stored_in sv') id (ht_dirs h).
Proof.
  unfold on_client. destruct (find_client h id) as [[sp sv]|]; [|done].
  destruct (m sv) as [sv' r] eqn:Hm. intros [= <- ->]. by exists sp, sv, sv'.
Qed.
Lemma forget_creator_Ok {OU : Outside} id who h h' a :
  forget_creator id who h = (h', Ok a) →
  ht_spaces h' = ht_spaces h
  ∧ (∀ i, i ≠ id → ht_dirs h' !! i = ht_dirs h !! i)
  ∧ ∃ d r, ht_dirs h' !! id = Some d ∧ sd_reservation d = Holds r ∧ re_creator r ≠ Some who.
Proof.
  unfold forget_creator. intros (h1 & h2 & [= <- <-] & H)%handler_bind_Ok.
  apply handler_lift_Ok in H as (d & Hd & H). apply ok_or_Ok in Hd. apply handler_lift_Ok in H as (r & Hr & H).
  assert (sd_reservation d = Holds r) as Hh by (destruct (sd_reservation d); by inversion Hr).
  case_bool_decide as Hc; cbn [negb] in H.
  2: { injection H as <- _. split_and!; [done..|]. by exists d, r. }
  apply handler_lift_Ok in H as ([sp sv] & _ & H). apply handler_lift_Ok in H as (ms & _ & H). cbv zeta in H.
  apply handler_bind_Ok in H as (h2 & u & ->%save_Ok & ->%save_Ok). split_and!; [done| |].
  - intros i Hi. cbn. by rewrite !lookup_alter_ne.
  - cbn. rewrite !lookup_alter_eq, Hd. cbn. by eexists _, _.
Qed.
Lemma erase_from_space_Ok {OU : Outside} {D : Disk} j id i h h' a :
  erase_from_space j id h = (h', Ok a) →
  id = i ∨ forgotten (jb_identity j) i h → forgotten (jb_identity j) i h'.
Proof.
  unfold erase_from_space. intros (h0 & h1 & [= <- <-] & H)%handler_bind_Ok Hi.
  apply handler_lift_Ok in H as (sp0 & _ & H). apply handler_bind_Ok in H as (h1 & u1 & Hc & H).
  apply on_client_Ok in Hc as (sp & sv & sv' & He & Hsp & Hd). destruct u1. apply erase_service_Ok in He.
  unfold on_replica in H. apply handler_lift_Ok in H as (u2 & _ & H).
  apply handler_bind_Ok in H as (h2 & h3 & [= <- <-] & H). apply handler_lift_Ok in H as (cl & _ & H).
  apply handler_bind_Ok in H as (h2 & u3 & Hs & H).
  assert (h2 = h1) as ->.
  { unfold share_access, on_replica in Hs. do 3 (apply handler_lift_Ok in Hs as (? & _ & Hs)). by injection Hs as <-. }
  apply handler_bind_Ok in H as (h2 & u4 & (Hsp2 & Hoth & Hcr)%forget_creator_Ok & ->%save_Ok).
  unfold forgotten. rewrite Hsp2, Hsp. destruct (decide (id = i)) as [->|Hne].
  - split; [|done]. rewrite lookup_insert_eq. by eexists _, sv'.
  - destruct Hi as [?|Hi]; [done|]. rewrite Hoth by done. rewrite Hd, lookup_alter_ne by done.
    by rewrite lookup_insert_ne.
Qed.

(** A handler that leaves the jobs alone. *)
Definition spares {E A} (m : HM E A) : Prop := ∀ h, ht_jobs (m h).1 = ht_jobs h.
Lemma spares_bind {E A B} (m : HM E A) (f : A → HM E B) :
  spares m → (∀ a, spares (f a)) → spares (m ≫= f).
Proof.
  intros Hm Hf h. unfold mbind, HM_bind. specialize (Hm h). destruct (m h) as [h1 [a|e]]; [|done].
  cbn in Hm. by rewrite Hf.
Qed.
Lemma spares_lift {E A} (r : result E A) : spares (lifth r).
Proof. done. Qed.
Lemma spares_host_bind {E B} (f : Host → HM E B) : (∀ h, spares (f h)) → spares (the_host ≫= f).
Proof. intros Hf h. apply (Hf h). Qed.
Lemma spares_save w g : (∀ h, ht_jobs (g h) = ht_jobs h) → spares (save w g).
Proof. intros Hg h. unfold save. by destruct w; cbn. Qed.
Lemma spares_client {A} {D : Disk} id (m : M A) : spares (on_client id m).
Proof.
  intros h. unfold on_client. destruct (find_client h id) as [[sp sv]|]; [|done]. by destruct (m sv).
Qed.
Lemma spares_each {E A} (f : A → HM E unit) l : (∀ x, spares (f x)) → spares (for_each f l).
Proof. intros Hf. induction l as [|x l IH]; [done|]. cbn [for_each]. by apply spares_bind. Qed.
Lemma spares_forget {OU : Outside} id who : spares (forget_creator id who).
Proof.
  unfold forget_creator. apply spares_host_bind. intros h.
  do 2 (apply spares_bind; [apply spares_lift|]; intros ?). destruct (_ =/= _); [done|].
  apply spares_bind; [apply spares_lift|]. intros [sp sv]. apply spares_bind; [apply spares_lift|]. intros ms.
  cbv zeta. apply spares_bind; [by apply spares_save|]. intros _. by apply spares_save.
Qed.
Lemma spares_erase {OU : Outside} {D : Disk} j : spares (erase_account j).
Proof.
  unfold erase_account. apply spares_host_bind. intros h. apply spares_bind; [by apply spares_each|].
  intros _. apply spares_each. intros id. unfold erase_from_space. apply spares_host_bind. intros h1.
  apply spares_bind; [apply spares_lift|]. intros sp. apply spares_bind; [apply spares_client|]. intros _.
  apply spares_bind; [apply spares_lift|]. intros _. apply spares_host_bind. intros h2.
  apply spares_bind; [apply spares_lift|]. intros client. apply spares_bind.
  { unfold share_access, on_replica. do 3 (apply spares_bind; [apply spares_lift|]; intros _). apply spares_lift. }
  intros _. apply spares_bind; [apply spares_forget|]. intros _. by apply spares_save.
Qed.

Lemma open_ids_elem h id : id ∈ open_ids h ↔ is_Some (ht_spaces h !! id).
Proof.
  unfold open_ids. rewrite list_elem_of_fmap. split.
  - intros ([k sp] & -> & H%btree_list_elem). by exists sp.
  - intros [sp H]. exists (id, sp). by rewrite btree_list_elem.
Qed.

Lemma process_pending {OU : Outside} {D : Disk} time who h j :
  ht_jobs h !! who = Some j → jb_completed_at j = None →
  process_job time who h =
    if jb_identity j =/= who then (h, Err "Invalid account deletion path.")
    else match erase_account j h with
         | (h, Err _) => (h, Ok tt)
         | (h, Ok _) =>
             (_ ← save (effect (SaveJob who)) (store_job (finished_job j time));
              save_account_receipt (finished_job j time)) h
         end.
Proof.
  intros Hj Hpend. unfold process_job.
  change ((the_host ≫= ?f) h) with (f h h). cbv beta. rewrite Hj.
  unfold fail_if. destruct (_ =/= _); [done|]. change ((lifth (Ok tt) ≫= ?f) h) with (f tt h). cbv beta.
  rewrite bool_decide_eq_false_2; [done|]. rewrite Hpend. by intros [? ?].
Qed.

(** C29. An account's erasure is reported complete only when it is done where the host can see:
    a job stays as it is, to be retried, or is completed once every Space it names that is open
    has erased the account and the host no longer remembers it as a creator. *)
Theorem account_job_completes {OU : Outside} {D : Disk} time who h j :
  ht_jobs h !! who = Some j → jb_completed_at j = None →
  let h' := (process_job time who h).1 in
  ht_jobs h' !! who = Some j
  ∨ ht_jobs h' !! who = Some (finished_job j time)
    ∧ ∀ id, id ∈ jb_spaces j → is_Some (ht_spaces h !! id) → forgotten who id h'.
Proof.
  intros Hj Hpend. cbv zeta. rewrite (process_pending _ _ _ j) by done.
  case_bool_decide as Hid; cbn [negb]; [|by left].
  destruct (erase_account j h) as [h1 [[]|e]] eqn:He;
    pose proof (spares_erase (D := D) j h) as Hjobs; rewrite He in Hjobs; cbn [fst] in Hjobs.
  2: { left. cbn. by rewrite Hjobs. }
  assert (∀ id, id ∈ jb_spaces j → is_Some (ht_spaces h !! id) → forgotten who id h1) as Hdone.
  { intros id Hin Hopen. unfold erase_account in He. apply handler_bind_Ok in He as (h0 & h2 & [= <- <-] & He).
    apply handler_bind_Ok in He as (h2 & u & Hcheck & He).
    apply (for_each_Ok _ (forgotten who) _ _ _ _ ltac:(intros; subst who; by eapply erase_from_space_Ok) He).
    left. unfold job_scopes. apply list_elem_of_In, filter_In. split.
    - by apply list_elem_of_In, open_ids_elem.
    - by apply bool_decide_eq_true_2. }
  unfold mbind, HM_bind, save.
  destruct (effect (SaveJob who)); [right|by left; cbn; rewrite Hjobs|right].
  - assert (∀ x, ht_jobs (save_account_receipt (finished_job j time) x).1 = ht_jobs x
      ∧ ht_spaces (save_account_receipt (finished_job j time) x).1 = ht_spaces x
      ∧ ht_dirs (save_account_receipt (finished_job j time) x).1 = ht_dirs x) as Hrec.
    { intros x. unfold save_account_receipt, mbind, HM_bind, the_host, lifth, save, mret, HM_ret.
      destruct (fail_if _ _); [|done]. case_match; [done|]. by destruct (effect _). }
    unfold forgotten. destruct (Hrec (store_job (finished_job j time) h1)) as (-> & -> & ->).
    split; [|done]. cbn. by rewrite Hid, lookup_insert_eq.
  - split; [|done]. cbn. by rewrite Hid, lookup_insert_eq.
Qed.

(** A Space that did not open is passed over: the job that names it completes, and the receipt
    says so, while everything in its directory stays. *)
Lemma unopened_space_passed_over {OU : Outside} {D : Disk} time who h j :
  ht_jobs h !! who = Some j → jb_completed_at j = None → jb_identity j = who →
  is_ok (hex 16 (jb_id j)) = true → (∀ e, effect e = Written) →
  (∀ id, id ∈ jb_spaces j → ht_spaces h !! id = None) →
  let h' := (process_job time who h).1 in
  ht_dirs h' = ht_dirs h ∧ ht_jobs h' !! who = Some (finished_job j time)
  ∧ ht_receipts h' !! jb_id j = Some true.
Proof.
  intros Hj Hpend Hid Hhex Hw Hno. cbv zeta. rewrite (process_pending _ _ _ j) by done.
  rewrite Hid, bool_decide_eq_true_2 by done. cbn [negb].
  assert (job_scopes h j = []) as Hsc.
  { unfold job_scopes. destruct (List.filter _ _) as [|id l] eqn:Hf; [done|]. exfalso.
    assert (id ∈ id :: l) as Hin by left. rewrite <-Hf in Hin.
    apply list_elem_of_In, filter_In in Hin as [Ho%list_elem_of_In%open_ids_elem Hc].
    apply bool_decide_eq_true_1 in Hc. specialize (Hno id Hc). destruct Ho. congruence. }
  assert (erase_account j h = (h, Ok tt)) as -> by (unfold erase_account, mbind, HM_bind, the_host; by rewrite Hsc).
  unfold save_account_receipt, mbind, HM_bind, save, the_host, lifth, mret, HM_ret. rewrite !Hw.
  cbn [finished_job jb_id jb_completed_at]. rewrite Hhex. cbn [negb fail_if].
  case_bool_decide as Hr; cbn [fst]; cbn; rewrite Hid, lookup_insert_eq; split_and!; try done.
  by rewrite lookup_insert_eq.
Qed.

End HostingLimits.
