(* ===== verification/OwnerFacts.v ===== *)
(** * What an owner's device admits

    The devices [OwnerAdmission.verify_owner_policy] lets an owner add are those that the
    signed history entitles. What the history says is defined entry by entry of the journal,
    without the state the verifier replays: who decided what on which device, which invitations
    it opened and closed, which devices it revoked and which identities it removed, and what an
    entry needs to be lawful. *)

From S2P Require Import Prelude Sums Platform Ids Record Chat Identity AuthorityData AuthorityWitness Authority AuthorityProof WitnessWire CallWire WakeWire Attachments HostedRoles Revocations HostedState HostedAccess HostedFiles HostedAdmission HostedService SpaceCreation OwnerAdmission.

(** ** The last event of a key *)

Section Last.
Context {K V : Type} `{!EqDecision K}.

(** Event [n] is about [k], says [v], and no later one is about [k]. *)
Definition last_in (l : list (option (K * V))) (n : nat) (k : K) (v : V) : Prop :=
  l !! n = Some (Some (k, v)) ∧ ∀ m w, (n < m)%nat → l !! m ≠ Some (Some (k, w)).
(** [get] knows the last event of each key. *)
Definition recorded (get : K → option (nat * V)) (l : list (option (K * V))) : Prop :=
  ∀ k, match get k with
       | Some (n, v) => last_in l n k v
       | None => ∀ m w, l !! m ≠ Some (Some (k, w))
       end.

Lemma recorded_nil get : (∀ k, get k = None) → recorded get [].
Proof. intros H k. rewrite H. intros m w. by rewrite lookup_nil. Qed.

Lemma recorded_snoc get get' l x :
  recorded get l →
  (∀ k, get' k = match x with
                 | Some (k', v) => if decide (k' = k) then Some (length l, v) else get k
                 | None => get k
                 end) →
  recorded get' (l ++ [x]).
Proof.
  intros H Hg k. rewrite Hg. specialize (H k).
  assert (∀ m w, (l ++ [x]) !! m = Some (Some (k, w)) →
    l !! m = Some (Some (k, w)) ∨ (m = length l ∧ x = Some (k, w))) as Hl.
  { intros m w [Hm|[Hm1 Hm2]]%lookup_app_Some; [by left|]. right.
    apply list_lookup_singleton_Some in Hm2 as [Hm2 ->]. split; [lia|done]. }
  assert (x = None ∨ (∃ k' v, x = Some (k', v) ∧ k' ≠ k) ∨ ∃ v, x = Some (k, v)) as [->|[(k' & v & -> & Hne)|[v ->]]].
  { destruct x as [[k' v]|]; [|by left]. destruct (decide (k' = k)) as [->|]; eauto 6. }
  2: rewrite decide_False by done.
  3: rewrite decide_True by done.
  1,2: destruct (get k) as [[n w]|]; [destruct H as [H1 H2]; split; [by apply lookup_app_l_Some|]|];
    intros m u; [intros Hlt|]; intros [Hm|[_ Hm]]%Hl; try done; try (by eapply H2); try (by eapply H); congruence.
  split; [by rewrite lookup_app_r, Nat.sub_diag by lia|].
  intros m w Hlt [Hm|[-> _]]%Hl; [apply lookup_lt_Some in Hm|]; lia.
Qed.
End Last.

Section OwnerFacts.
Context `{P : Platform} {SA : AuthoritySerde} {W : WitnessSerde} {X : ProtocolSerde}
  {U : UrlBase64} {HP : HostedPlatform} {HS : HostedSerde} {SC : Serde CreateCommand}
  {SE : Serde AdminEvidence} {SJ : Serde (list AdminEvidence)} {SI : Serde PendingItem}.

(** ** What an entry of the journal says *)

Definition of_kind (kind : string) (r : SignedRecord) : bool :=
  value_eq_str (value_index (sr_body r) "kind") kind.
Definition text_of (v : value) (key : string) : option string := value_as_str (value_index v key).
Definition id_of (v : value) (key : string) : option string := text_of v key ≫= parse_hex 32.
Definition head_of (c : Command) : option RecordId := id_of (hc_body c) "authority_head".

(** The command of an entry that is neither a revocation nor an account deletion. *)
Definition said (e : AdminEvidence) : option (SignedRecord * VerifiedCredential * Command) :=
  p ← to_option (evidence e);
  if of_kind "device.revoked" p.1 || of_kind "account.deletion" p.1 then None
  else command ← to_option (decode (T := Command) p.1); Some (p, command).
(** The command, if it is this one. *)
Definition said_to (action : string) (e : AdminEvidence)
    : option (SignedRecord * VerifiedCredential * Command) :=
  x ← said e; if hc_action x.2 === action then Some x else None.

(** A decision on a device: its answer, the head it was taken at and its record. *)
Record Verdict := { vd_approve : bool; vd_head : RecordId; vd_record : RecordId }.
Definition verdict_of (e : AdminEvidence) : option (RecordId * Verdict) :=
  x ← said_to "decide" e;
  device ← id_of (hc_body x.2) "id";
  approve ← value_as_bool (value_index (hc_body x.2) "approve");
  at_ ← head_of x.2;
  Some (device, {| vd_approve := approve; vd_head := at_; vd_record := record_id x.1.1 |}).

(** An invitation: its id, its record, when it ends, whether it asks for a decision. *)
Record Opening := { op_id : string; op_record : RecordId; op_until : N; op_approval : bool }.
Definition opening_of (e : AdminEvidence) : option Opening :=
  x ← said_to "invite" e;
  id ← text_of (hc_body x.2) "id";
  lifetime ← value_as_u64 (value_index (hc_body x.2) "lifetime");
  approval ← value_as_bool (value_index (hc_body x.2) "require_approval");
  Some {| op_id := id; op_record := record_id x.1.1;
          op_until := saturating_add (hc_issued x.2) (N.min (lifetime * 1000) u64_max);
          op_approval := approval |}.
Definition closing_of (e : AdminEvidence) : option string :=
  x ← said_to "revoke" e; text_of (hc_body x.2) "id".
(** The invitation of the creation lasts a day. *)
Definition first_opening (creation : SignedRecord) (command : CreateCommand) : Opening :=
  {| op_id := cx_request_id command; op_record := record_id creation;
     op_until := saturating_add (cx_issued command) 86400000;
     op_approval := cx_require_approval command |}.

(** The device an entry revokes: by itself, or by the proof a member forwards. *)
Definition revoked_of (e : AdminEvidence) : option RecordId :=
  p ← to_option (evidence e);
  if of_kind "device.revoked" p.1 then Some (vc_id p.2)
  else
    x ← said_to "device_revoke" e;
    text ← text_of (hc_body x.2) "proof";
    proof ← to_option (signed_text text);
    target ← to_option (verify_request proof x.1.2);
    Some (vc_id target).

(** What an entry does to the roles, and the identity it removes, with the head a member was
    removed at. *)
Definition role_effect (a : Authority) (r : Roles) (e : AdminEvidence)
    : result string (Roles * option (IdentityId * option RecordId)) :=
  p ← evidence e;
  if of_kind "device.revoked" p.1 then Ok (r, None)
  else if of_kind "account.deletion" p.1 then
    r' ← retire_member r (vc_identity p.2); Ok (r', Some (vc_identity p.2, None))
  else
    command ← map_err (decode (T := Command) p.1) "record";
    if contains ["role_change"; "role_decide"] (hc_action command) then
      at_ ← ok_or (head_of command) "head";
      c ← map_err (config a at_) "authority";
      x ← apply_with_id r (vc_identity p.2) (hc_action command) (hc_body command)
            (member_names c r);
      match ra_removed_identity x.2 with
      | None => Ok (x.1, None)
      | Some who => r' ← retire_member x.1 who; Ok (r', Some (who, Some at_))
      end
    else Ok (r, None).
(** The roles after a journal, and what each of its entries removes. *)
Definition roles_after (a : Authority) (r : Roles) (journal : list AdminEvidence)
    : result string Roles :=
  try_fold (λ r e, fst <$> role_effect a r e) r journal.
Fixpoint removals (a : Authority) (r : Roles) (journal : list AdminEvidence)
    : list (option (IdentityId * option RecordId)) :=
  match journal with
  | [] => []
  | e :: journal =>
      match role_effect a r e with
      | Ok (r', m) => m :: removals a r' journal
      | Err _ => []
      end
  end.

(** ** The owner's own history of General *)

(** The configuration has the device. *)
Definition holds (c : StreamConfig) (id : RecordId) : Prop :=
  ∃ m, m ∈ sc_members c ∧ id ∈ m_credential_ids m.
Definition member_at (a : Authority) (h id : RecordId) : Prop :=
  ∃ c, config a h = Ok c ∧ holds c id.
(** [n] is [cursor] or one of its predecessors. *)
Inductive behind (a : Authority) : option RecordId → RecordId → Prop :=
| behind_here n : behind a (Some n) n
| behind_next h c n :
    config a h = Ok c → behind a (sc_previous_config_id c) n → behind a (Some h) n.
(** The configurations from [cursor] back to [h], newest first. *)
Inductive back_to (a : Authority) (h : RecordId) : option RecordId → list StreamConfig → Prop :=
| back_here c : config a h = Ok c → back_to a h (Some h) [c]
| back_next n c l :
    n ≠ h → config a n = Ok c → back_to a h (sc_previous_config_id c) l →
    back_to a h (Some n) (c :: l).
(** The device was not taken out of General after it was there, since [h]. *)
Definition stayed (a : Authority) (h id : RecordId) : Prop :=
  ∃ l, back_to a h (head a) l
    ∧ ∀ i j newer older, (i ≤ j)%nat → l !! i = Some newer → l !! j = Some older →
        holds older id → holds newer id.

Lemma in_config_holds c id : in_config c id = true ↔ holds c id.
Proof.
  unfold in_config, holds. rewrite existsb_true. split; intros (m & Hm & Hin); exists m;
    (split; [done|]); by apply contains_true.
Qed.
Lemma enrolled_member a h id b : enrolled_at a h id = Ok b → (b = true ↔ member_at a h id).
Proof.
  unfold enrolled_at, member_at. intros H. step H c Hc. apply map_err_Ok in Hc. injection H as <-.
  rewrite in_config_holds. split; [by eauto|]. intros (c' & Hc' & Hin). congruence.
Qed.
Lemma enrolled_Ok a h id : enrolled_at a h id = Ok true → member_at a h id.
Proof. intros H. by apply (enrolled_member _ _ _ _ H). Qed.

Lemma enrolled_from_spec fuel a id : ∀ cursor b,
  enrolled_from fuel a id cursor = Ok b →
  if b then ∃ n, behind a cursor n ∧ member_at a n id
  else ∀ n, behind a cursor n → ¬ member_at a n id.
Proof.
  induction fuel as [|fuel IH]; intros cursor b H; (destruct cursor as [h|];
    [|by injection H as <-; intros n Hn; inversion Hn]); [done|].
  cbn in H. step H c Hc. apply map_err_Ok in Hc. destruct (in_config c id) eqn:Hin.
  - injection H as <-. exists h. split; [constructor|]. exists c. split; [done|]. by apply in_config_holds.
  - apply IH in H. destruct b.
    + destruct H as (n & Hn & Hm). exists n. split; [by eapply behind_next|done].
    + intros n Hn. inversion Hn as [n'|h' c' n' Hc' Hn']; subst.
      * intros (c2 & Hc2 & Hh). rewrite Hc in Hc2. injection Hc2 as <-. apply in_config_holds in Hh. congruence.
      * rewrite Hc in Hc'. injection Hc' as <-. by apply H.
Qed.

Lemma removed_from_spec fuel a h id : ∀ absent cursor,
  removed_from fuel a h id absent cursor = Ok false →
  ∃ l, back_to a h cursor l ∧ (absent = true → ∀ c, c ∈ l → ¬ holds c id)
    ∧ ∀ i j newer older, (i ≤ j)%nat → l !! i = Some newer → l !! j = Some older →
        holds older id → holds newer id.
Proof.
  induction fuel as [|fuel IH]; intros absent cursor H; (destruct cursor as [n|]; [|done]); [done|].
  cbn in H. step H c Hc. apply map_err_Ok in Hc. cbv zeta in H.
  destruct (in_config c id && absent) eqn:Hb; [done|].
  assert (absent = true → ¬ holds c id) as Habs.
  { intros -> Hh. apply in_config_holds in Hh. by rewrite Hh in Hb. }
  destruct (bool_decide_reflect (n = h)) as [->|Hne].
  - exists [c]. split; [by constructor|]. split; [by intros ? x ->%list_elem_of_singleton; auto|].
    intros i j newer older _ [_ ->]%list_lookup_singleton_Some [_ ->]%list_lookup_singleton_Some. done.
  - apply IH in H as (l & Hl & Hno & Hmono). exists (c :: l).
    assert (¬ holds c id → ∀ x, x ∈ l → ¬ holds x id) as Hno2.
    { intros Hn. apply Hno. destruct (in_config c id) eqn:Hi; [by apply in_config_holds in Hi|].
      by destruct absent. }
    split; [by eapply back_next|]. split.
    + intros Ha x [->|Hx]%elem_of_cons; [by auto|]. apply Hno2; [by auto|done].
    + intros [|i] [|j] newer older Hij Hi Ho; [cbn in *; congruence| |lia|by eapply (Hmono i j); [lia|..]].
      cbn in Hi. injection Hi as <-. cbn in Ho. intros Hh. destruct (in_config c id) eqn:Hin;
        [by apply in_config_holds|].
      exfalso. eapply Hno2; [|by eapply list_elem_of_lookup_2|done]. intros Hc2%in_config_holds. congruence.
Qed.
Lemma not_removed_stayed a h id : removed_since a h id = Ok false → stayed a h id.
Proof. intros (l & Hl & _ & Hm)%removed_from_spec. by exists l. Qed.

(** ** What makes an entry lawful *)

Section Lawful.
Variables (a : Authority) (h : RecordId) (host : string).
(** Whether the entry is in the committed history; the devices revoked and the owners, before
    the entry. *)
Variables (committed : bool) (revoked : RecordId → Prop) (owner : IdentityId → Prop).

(** The device is in General, or was once when the entry is committed. *)
Definition known (id : RecordId) : Prop :=
  if committed then ∃ n, behind a (head a) n ∧ member_at a n id else member_at a h id.
Record lawful_revocation (record : SignedRecord) (target : VerifiedCredential) : Prop := {
  lr_verified : ∃ c, revocation_verify record = Ok c ∧ vc_id c = vc_id target;
  lr_known : known (vc_id target);
  lr_authorizer : ∀ text, text_of (sr_body record) "authorizing_device" = Some text →
    ∃ c, credential_text text = Ok c ∧ known (vc_id c) ∧ ¬ revoked (vc_id c);
}.
Record lawful_deletion (record : SignedRecord) (signer : VerifiedCredential) : Prop := {
  ld_signed : verify_signature record (vc_key signer) = Ok tt;
  ld_confirmed : ∃ command, decode (T := AccountCommand) record = Ok command
    ∧ ac_action command = Submit ∧ ac_confirmed command = true
    ∧ url_set_path host DELETION_PATH = Some (ac_endpoint command);
  ld_known : known (vc_id signer);
  ld_active : ¬ revoked (vc_id signer);
  ld_member : ¬ owner (vc_identity signer);
}.
(** Only owners invite, close invitations, decide and start a change of roles: a device that
    owns the configuration the command names, of an identity that is an owner then. *)
Definition owner_actions : list string := ["invite"; "revoke"; "decide"; "role_change"].
Record lawful_command (record : SignedRecord) (signer : VerifiedCredential) (command : Command)
    : Prop := {
  lc_decoded : decode (T := Command) record = Ok command;
  lc_signed : verify_signature record (vc_key signer) = Ok tt;
  lc_kind : hc_v command = 1 ∧ hc_kind command = "space.command" ∧ hc_space command = space a;
  lc_action : hc_action command ∈ owner_actions ++ ["role_decide"; "device_revoke"];
  lc_active : ¬ revoked (vc_id signer);
  lc_head : ∃ at_ c, head_of command = Some at_ ∧ config a at_ = Ok c
    ∧ proves_config_ancestor a at_ = true ∧ (committed = false → at_ = h)
    ∧ holds c (vc_id signer)
    ∧ (hc_action command ∈ owner_actions →
         vc_id signer ∈ sc_owner_credential_ids c ∧ owner (vc_identity signer));
}.
Definition lawful (e : AdminEvidence) : Prop :=
  ∃ record signer, credential_text (ev_credential e) = Ok signer
    ∧ signed_text (ev_record e) = Ok record
    ∧ if of_kind "device.revoked" record then lawful_revocation record signer
      else if of_kind "account.deletion" record then lawful_deletion record signer
      else ∃ command, lawful_command record signer command.
End Lawful.

Lemma lawful_iff a h host committed (revoked revoked' : RecordId → Prop)
    (owner owner' : IdentityId → Prop) e :
  (∀ x, revoked x ↔ revoked' x) → (∀ x, owner x ↔ owner' x) →
  lawful a h host committed revoked owner e → lawful a h host committed revoked' owner' e.
Proof.
  intros Hr Ho (record & signer & Hc & Hs & H). exists record, signer. split; [done|]. split; [done|].
  destruct (of_kind "device.revoked" record); [|destruct (of_kind "account.deletion" record)].
  - destruct H as [H1 H2 H3]. split; [done|done|]. intros text Ht.
    destruct (H3 text Ht) as (c & ? & ? & Hn). exists c. by rewrite <-Hr.
  - destruct H as [H1 H2 H3 H4 H5]. split; [done|done|done|by rewrite <-Hr|by rewrite <-Ho].
  - destruct H as (command & [H1 H2 H3 H4 H5 H6]). exists command. split; [done|done|done|done|by rewrite <-Hr|].
    destruct H6 as (at_ & c & ? & ? & ? & ? & ? & Hw). exists at_, c. split_and!; try done.
    intros Ha. destruct (Hw Ha). split; [done|]. by rewrite <-Ho.
Qed.

(** ** One entry replayed *)

Lemma field_text v key t : field v key = Ok t ↔ text_of v key = Some t.
Proof. apply ok_or_Ok. Qed.
Lemma parse_id_hex t id : parse_id t = Ok id ↔ parse_hex 32 t = Some id.
Proof. apply ok_or_Ok. Qed.
Lemma field_id v key t id : field v key = Ok t → parse_id t = Ok id → id_of v key = Some id.
Proof. unfold id_of. intros ->%field_text H%parse_id_hex. exact H. Qed.

Lemma said_eq e record signer command :
  evidence e = Ok (record, signer) → of_kind "device.revoked" record = false →
  of_kind "account.deletion" record = false → decode record = Ok command →
  said e = Some (record, signer, command).
Proof. unfold said. intros -> H1 H2 H3. cbn. rewrite H1, H2. cbn. by rewrite H3. Qed.
Lemma said_none e record signer :
  evidence e = Ok (record, signer) →
  of_kind "device.revoked" record || of_kind "account.deletion" record = true → said e = None.
Proof. unfold said. intros -> H. cbn. by rewrite H. Qed.
Lemma said_to_eq e x action :
  said e = Some x → said_to action e = if hc_action x.2 === action then Some x else None.
Proof. unfold said_to. by intros ->. Qed.
Lemma said_to_none e action : said e = None → said_to action e = None.
Proof. unfold said_to. by intros ->. Qed.

(** What replaying the entry at [index] does. *)
Record effects (a : Authority) (index : N) (s : Replay) (e : AdminEvidence) (s' : Replay)
    : Prop := {
  ef_decision : rp_approvals s' = match verdict_of e with
    | Some (id, v) => <[id := {| dn_index := index; dn_approved := vd_approve v;
                                 dn_head := vd_head v; dn_record := vd_record v |}]> (rp_approvals s)
    | None => rp_approvals s
    end;
  ef_denied : rp_denied s' = match verdict_of e with
    | Some (id, v) => if vd_approve v then rp_denied s else {[ (id, vd_head v) ]} ∪ rp_denied s
    | None => rp_denied s
    end;
  ef_revoked : rp_revoked s' = match revoked_of e with
    | Some id => {[ id ]} ∪ rp_revoked s
    | None => rp_revoked s
    end;
  ef_invitations : match opening_of e, closing_of e with
    | Some o, None => rp_invitations s !! op_id o = None
        ∧ rp_invitations s' = <[op_id o := {| iv_evidence := op_record o; iv_expires := op_until o;
                                 iv_approval := op_approval o; iv_revoked := false |}]> (rp_invitations s)
    | None, Some id => ∃ i, rp_invitations s !! id = Some i
        ∧ rp_invitations s' = <[id := {| iv_evidence := iv_evidence i; iv_expires := iv_expires i;
                                 iv_approval := iv_approval i; iv_revoked := true |}]> (rp_invitations s)
    | None, None => rp_invitations s' = rp_invitations s
    | Some _, Some _ => False
    end;
  ef_roles : ∃ m, role_effect a (rp_roles s) e = Ok (rp_roles s', m)
    ∧ rp_removals s' = match m with
                       | Some (who, at_) => <[who := (index, at_)]> (rp_removals s)
                       | None => rp_removals s
                       end;
}.

(** An entry that commands something else has no effect of a kind. *)
Lemma other_verdict e x action :
  said e = Some x → hc_action x.2 = action → action ≠ "decide" → verdict_of e = None.
Proof.
  intros Hs <- Hne. unfold verdict_of. rewrite (said_to_eq _ _ _ Hs).
  by rewrite bool_decide_eq_false_2.
Qed.
Lemma other_opening e x action :
  said e = Some x → hc_action x.2 = action → action ≠ "invite" → opening_of e = None.
Proof.
  intros Hs <- Hne. unfold opening_of. rewrite (said_to_eq _ _ _ Hs).
  by rewrite bool_decide_eq_false_2.
Qed.
Lemma other_closing e x action :
  said e = Some x → hc_action x.2 = action → action ≠ "revoke" → closing_of e = None.
Proof.
  intros Hs <- Hne. unfold closing_of. rewrite (said_to_eq _ _ _ Hs).
  by rewrite bool_decide_eq_false_2.
Qed.
Lemma said_evidence e record signer command :
  said e = Some (record, signer, command) →
  evidence e = Ok (record, signer) ∧ of_kind "device.revoked" record = false
  ∧ of_kind "account.deletion" record = false ∧ decode record = Ok command.
Proof.
  unfold said. intros ([r c] & Hev & H)%bind_Some. apply to_option_Some in Hev. cbn in H.
  destruct (_ || _) eqn:Hk; [done|]. apply orb_false_iff in Hk as [? ?].
  apply bind_Some in H as (cm & Hd & [= <- <- <-]). apply to_option_Some in Hd. done.
Qed.
Lemma other_revoked e x action :
  said e = Some x → hc_action x.2 = action → action ≠ "device_revoke" → revoked_of e = None.
Proof.
  intros Hs <- Hne. unfold revoked_of. destruct x as [[record signer] command].
  destruct (said_evidence _ _ _ _ Hs) as (-> & Hk & _ & _). cbn. rewrite Hk.
  rewrite (said_to_eq _ _ _ Hs). by rewrite bool_decide_eq_false_2.
Qed.
Lemma other_roles a r e x action :
  said e = Some x → hc_action x.2 = action → action ∉ ["role_change"; "role_decide"] →
  role_effect a r e = Ok (r, None).
Proof.
  intros Hs <- Hne. unfold role_effect. destruct x as [[record signer] command].
  destruct (said_evidence _ _ _ _ Hs) as (-> & Hk1 & Hk2 & Hd). cbn. rewrite Hk1, Hk2, Hd. cbn.
  by rewrite (proj2 (contains_false _ _)).
Qed.

Lemma was_enrolled_known a h id committed :
  was_enrolled a h id committed = Ok true → known a h committed id.
Proof.
  unfold was_enrolled, known. destruct committed; [|apply enrolled_Ok].
  intros H. by apply (enrolled_from_spec _ _ _ _ true H).
Qed.

Lemma evidence_signed e record signer :
  evidence e = Ok (record, signer) →
  credential_text (ev_credential e) = Ok signer ∧ signed_text (ev_record e) = Ok record
  ∧ if of_kind "device.revoked" record
    then ∃ c, revocation_verify record = Ok c ∧ vc_id c = vc_id signer
    else verify_signature record (vc_key signer) = Ok tt.
Proof.
  unfold evidence. intros H. step H c Hc. step H r Hr. step H u Hu. injection H as <- <-.
  split; [done|]. split; [done|]. change (is_revocation r) with (of_kind "device.revoked" r) in Hu.
  destruct (of_kind _ _); [|by destruct u; apply map_err_Ok in Hu]. step Hu t Ht.
  apply map_err_Ok in Ht. exists t. split; [done|]. by apply fail_if_Ok, bool_decide_eq_negb_false in Hu.
Qed.

Lemma revocation_effects a h s index committed record target e s' :
  evidence e = Ok (record, target) → of_kind "device.revoked" record = true →
  replay_revocation a h s committed record target = Ok s' → effects a index s e s'.
Proof.
  intros He Hk H. unfold replay_revocation in H. step H b Hb. step H u1 H1. step H u2 H2.
  injection H as <-. assert (said e = None) as Hs by (eapply said_none; [done|by rewrite Hk]).
  split; unfold verdict_of, opening_of, closing_of, revoked_of, role_effect;
    rewrite ?(said_to_none _ _ Hs), ?He; cbn; rewrite ?Hk; try done. by eexists.
Qed.
Lemma revocation_lawful a h s committed record target s' :
  replay_revocation a h s committed record target = Ok s' →
  (∃ c, revocation_verify record = Ok c ∧ vc_id c = vc_id target) →
  lawful_revocation a h committed (λ x, x ∈ rp_revoked s) record target.
Proof.
  intros H Hv. unfold replay_revocation in H. step H b Hb. step H u1 H1. step H u2 H2.
  apply fail_if_Ok, negb_false_iff in H1. subst b. split; [done|by apply was_enrolled_known|].
  intros text Ht. unfold text_of in Ht. rewrite Ht in H2. step H2 c Hc. step H2 b Hb2.
  apply fail_if_Ok, orb_false_iff in H2 as [H2%negb_false_iff H3%bool_decide_eq_false]. subst b.
  exists c. split; [done|]. split; [by apply was_enrolled_known|done].
Qed.

Lemma deletion_effects a h host s index committed record signer e s' :
  evidence e = Ok (record, signer) → of_kind "device.revoked" record = false →
  of_kind "account.deletion" record = true →
  replay_deletion a h host s index committed record signer = Ok s' → effects a index s e s'.
Proof.
  intros He Hk1 Hk2 H. unfold replay_deletion in H. step H cm Hcm. step H ep Hep. step H n Hn.
  step H u1 H1. step H b Hb. step H u2 H2. cbv zeta in H. step H r Hr. injection H as <-.
  assert (said e = None) as Hs by (eapply said_none; [done|by rewrite Hk1, Hk2]).
  split; unfold verdict_of, opening_of, closing_of, revoked_of, role_effect;
    rewrite ?(said_to_none _ _ Hs), ?He; cbn; rewrite ?Hk1, ?Hk2; try done.
  cbn in Hr. rewrite Hr. by eexists.
Qed.
Lemma deletion_lawful a h host s index committed record signer s' :
  replay_deletion a h host s index committed record signer = Ok s' →
  verify_signature record (vc_key signer) = Ok tt →
  lawful_deletion a h host committed (λ x, x ∈ rp_revoked s) (λ w, w ∈ ro_owners (rp_roles s))
    record signer.
Proof.
  intros H Hv. unfold replay_deletion in H. step H cm Hcm. step H ep Hep. step H n Hn.
  step H u1 H1. step H b Hb. step H u2 H2. clear H. unfold is_owner in H2. inv_ok.
  split; [done| |by apply was_enrolled_known|done|done]. by exists cm.
Qed.

(** A command of an owner's device, or another of a member's. *)
Lemma intent_head_lawful a h s committed record command signer at_ c :
  decode record = Ok command → verify_signature record (vc_key signer) = Ok tt →
  intent_head a h s committed command signer = Ok at_ → config a at_ = Ok c →
  hc_action command ∈ owner_actions ++ ["role_decide"; "device_revoke"] →
  (hc_action command ∈ owner_actions →
     contains (sc_owner_credential_ids c) (vc_id signer) && is_owner (rp_roles s) (vc_identity signer) = true) →
  head_of command = Some at_
  ∧ lawful_command a h committed (λ x, x ∈ rp_revoked s) (λ w, w ∈ ro_owners (rp_roles s))
      record signer command.
Proof.
  intros Hd Hv H Hc Hact Hown. unfold intent_head in H. step H txt Ht. step H id0 Hid. step H n Hn.
  step H u1 H1. step H b Hb. step H u2 H2. injection H as ->.
  assert (head_of command = Some at_) as Hh by (by eapply field_id). split; [done|].
  inv_ok. split; try done; [split; [by apply N.eqb_eq|done]|]. exists at_, c. split_and!; try done.
  - match goal with Hx : negb committed && _ = false |- _ => rename Hx into Hat end.
    intros ->. by apply bool_decide_eq_negb_false in Hat.
  - apply in_config_holds. unfold enrolled_at in Hb. rewrite Hc in Hb. by injection Hb.
  - intros Hin. specialize (Hown Hin). apply andb_true_iff in Hown as [Hc1%contains_true Hc2].
    split; [done|]. by apply bool_decide_eq_true in Hc2.
Qed.

Section Command.
Variables (a : Authority) (h : RecordId) (s : Replay) (index : N) (e : AdminEvidence).
Variables (record : SignedRecord) (signer : VerifiedCredential) (command : Command).
Hypothesis Hsaid : said e = Some (record, signer, command).

Ltac others Hact :=
  rewrite ?(other_verdict _ _ _ Hsaid Hact), ?(other_opening _ _ _ Hsaid Hact),
    ?(other_closing _ _ _ Hsaid Hact), ?(other_revoked _ _ _ Hsaid Hact) by done.
Ltac same_roles Hact :=
  exists None; split; [apply (other_roles _ _ _ _ _ Hsaid Hact); by apply contains_false|done].

Lemma invite_effects s' :
  hc_action command = "invite" → replay_invite s command record = Ok s' → effects a index s e s'.
Proof.
  intros Hact H. unfold replay_invite in H. cbv zeta in H. step H id0 Hid. step H n1 H1.
  step H tok Htok. step H n2 H2. step H lifetime Hlife. step H approval Happ. step H u Hu.
  injection H as <-. apply field_text in Hid. apply ok_or_Ok in Hlife, Happ.
  apply bind_Some in Hlife as (n & Hn & Hlife). destruct (contains _ _); [|done]. injection Hlife as ->.
  apply fail_if_Ok, bool_decide_eq_false, eq_None_not_Some in Hu.
  assert (opening_of e = Some {| op_id := id0; op_record := record_id record;
    op_until := saturating_add (hc_issued command) (N.min (lifetime * 1000) u64_max);
    op_approval := approval |}) as Ho.
  { unfold opening_of. rewrite (said_to_eq _ _ _ Hsaid). cbn [snd fst].
    rewrite bool_decide_eq_true_2 by done. cbn. rewrite Hid. cbn. rewrite Hn. cbn. by rewrite Happ. }
  split; [by others Hact..| |same_roles Hact].
  rewrite Ho. others Hact. done.
Qed.
Lemma revoke_effects s' :
  hc_action command = "revoke" → replay_revoke_invitation s command = Ok s' → effects a index s e s'.
Proof.
  intros Hact H. unfold replay_revoke_invitation in H. step H id0 Hid. step H i Hi. injection H as <-.
  apply field_text in Hid. apply ok_or_Ok in Hi.
  assert (closing_of e = Some id0) as Ho.
  { unfold closing_of. rewrite (said_to_eq _ _ _ Hsaid). cbn [snd fst].
    by rewrite bool_decide_eq_true_2. }
  split; [by others Hact..| |same_roles Hact].
  rewrite Ho. others Hact. by exists i.
Qed.
Lemma decision_effects at_ s' :
  hc_action command = "decide" → head_of command = Some at_ →
  replay_decision s index at_ command record = Ok s' → effects a index s e s'.
Proof.
  intros Hact Hh H. unfold replay_decision in H. step H txt Ht. step H id0 Hid. step H approve Happ.
  injection H as <-. apply ok_or_Ok in Happ.
  assert (verdict_of e = Some (id0, {| vd_approve := approve; vd_head := at_;
    vd_record := record_id record |})) as Ho.
  { unfold verdict_of. rewrite (said_to_eq _ _ _ Hsaid). cbn [snd fst].
    rewrite bool_decide_eq_true_2 by done. cbn. rewrite (field_id _ _ _ _ Ht Hid). cbn.
    rewrite Happ. cbn. by rewrite Hh. }
  split; rewrite ?Ho; others Hact; [by destruct approve..|].
  destruct approve; same_roles Hact.
Qed.
Lemma device_revoke_effects at_ s' :
  hc_action command = "device_revoke" →
  replay_device_revoke a at_ s command signer = Ok s' → effects a index s e s'.
Proof.
  intros Hact H. unfold replay_device_revoke in H. step H txt Ht. step H proof Hp.
  step H target Htg. step H b Hb. step H u Hu. injection H as <-.
  apply field_text in Ht. apply map_err_Ok in Htg.
  assert (revoked_of e = Some (vc_id target)) as Ho.
  { unfold revoked_of. destruct (said_evidence _ _ _ _ Hsaid) as (-> & Hk & _ & _). cbn. rewrite Hk.
    rewrite (said_to_eq _ _ _ Hsaid). cbn [snd fst]. rewrite bool_decide_eq_true_2 by done. cbn.
    rewrite Ht. cbn. rewrite Hp. cbn. by rewrite Htg. }
  split; rewrite ?Ho; others Hact; [done..|same_roles Hact].
Qed.
Lemma role_effects at_ s' :
  hc_action command ∈ ["role_change"; "role_decide"] → head_of command = Some at_ →
  replay_role a s index at_ command signer = Ok s' → effects a index s e s'.
Proof.
  intros Hin Hh H. unfold replay_role in H. step H c Hc. step H p Hp. destruct p as [r answer].
  apply map_err_Ok in Hc. cbv zeta in H. destruct (said_evidence _ _ _ _ Hsaid) as (Hev & Hk1 & Hk2 & Hd).
  assert (role_effect a (rp_roles s) e = match ra_removed_identity answer with
      | None => Ok (r, None)
      | Some who => r' ← retire_member r who; Ok (r', Some (who, Some at_))
      end) as He.
  { unfold role_effect. rewrite Hev. cbn. rewrite Hk1, Hk2, Hd. cbn.
    rewrite (proj2 (contains_true _ _) Hin), Hh. cbn. rewrite Hc. cbn. by rewrite Hp. }
  assert (hc_action command = "role_change" ∨ hc_action command = "role_decide") as Hor
    by (apply elem_of_cons in Hin as [?|?%list_elem_of_singleton]; auto).
  split.
  1-4: rewrite ?(other_verdict _ _ _ Hsaid eq_refl), ?(other_opening _ _ _ Hsaid eq_refl),
    ?(other_closing _ _ _ Hsaid eq_refl), ?(other_revoked _ _ _ Hsaid eq_refl)
    by (cbn; destruct Hor as [Ha|Ha]; by rewrite Ha);
    destruct (ra_removed_identity answer); [step H r2 Hr2|]; by injection H as <-.
  rewrite He. destruct (ra_removed_identity answer) as [who|].
  - step H r2 Hr2. cbn in Hr2. rewrite Hr2. injection H as <-. cbn. by eexists.
  - injection H as <-. by exists None.
Qed.
End Command.

Lemma replay_command_effects a h s index committed e record signer s' :
  evidence e = Ok (record, signer) → of_kind "device.revoked" record = false →
  of_kind "account.deletion" record = false →
  verify_signature record (vc_key signer) = Ok tt →
  replay_command a h s index committed record signer = Ok s' →
  effects a index s e s'
  ∧ ∃ command, lawful_command a h committed (λ x, x ∈ rp_revoked s) (λ w, w ∈ ro_owners (rp_roles s))
                 record signer command.
Proof.
  intros He Hk1 Hk2 Hv H. unfold replay_command in H. step H command Hcmd. step H at_ Hat.
  step H c Hc. cbv zeta in H. apply map_err_Ok in Hcmd, Hc.
  pose proof (said_eq _ _ _ _ He Hk1 Hk2 Hcmd) as Hsaid.
  set (owner := contains _ _ && is_owner _ _) in H.
  assert (hc_action command ∈ owner_actions ++ ["role_decide"; "device_revoke"] →
    (hc_action command ∈ owner_actions → owner = true) →
    head_of command = Some at_ ∧ ∃ command, lawful_command a h committed (λ x, x ∈ rp_revoked s)
      (λ w, w ∈ ro_owners (rp_roles s)) record signer command) as Hl.
  { intros H1 H2. destruct (intent_head_lawful _ _ _ _ _ _ _ _ _ Hcmd Hv Hat Hc H1 H2). eauto. }
  assert (∀ x, hc_action command = x → x ∈ owner_actions ++ ["role_decide"; "device_revoke"] →
    x ∉ owner_actions ∨ owner = true →
    head_of command = Some at_ ∧ ∃ command, lawful_command a h committed (λ x, x ∈ rp_revoked s)
      (λ w, w ∈ ro_owners (rp_roles s)) record signer command) as Hx.
  { intros x Ex H1 H2. apply Hl; rewrite Ex; [done|]. intros Hin. by destruct H2. }
  clear Hl. unfold owner_actions in Hx.
  repeat match type of H with (if ?b then _ else _) = _ => destruct b eqn:? end; try done;
    repeat match goal with Hb : _ && _ = true |- _ => apply andb_true_iff in Hb as [Hb ?] end;
    match goal with Hb : (hc_action _ === _) = true |- _ => apply bool_decide_eq_true in Hb; rename Hb into Ha end;
    (destruct (Hx _ Ha) as [Hh Hlaw];
      [apply list_elem_of_In; cbn; tauto
      |first [by right|left; intros Hin%list_elem_of_In; cbn in Hin; intuition discriminate]|];
     split; [|exact Hlaw]).
  - by eapply invite_effects.
  - by eapply revoke_effects.
  - by eapply decision_effects.
  - eapply role_effects; [done| |done..]. rewrite Ha. left.
  - eapply role_effects; [done| |done..]. rewrite Ha. right. left.
  - by eapply device_revoke_effects.
Qed.

Lemma replay_entry_effects a h host boundary s n e s' :
  replay_entry a h host boundary s (n, e) = Ok s' →
  effects a (N.of_nat n) s e s'
  ∧ lawful a h host (N.of_nat n <? boundary) (λ x, x ∈ rp_revoked s)
      (λ w, w ∈ ro_owners (rp_roles s)) e
  ∧ (N.of_nat n = boundary → check_committed_owners a (rp_roles s) = Ok tt).
Proof.
  unfold replay_entry. intros H. cbn [fst snd] in H. cbv zeta in H. step H u Hu. step H p Hp.
  destruct p as [record signer]. destruct (evidence_signed _ _ _ Hp) as (Hc & Hr & Hs).
  change (is_revocation record) with (of_kind "device.revoked" record) in H.
  change (is_deletion record) with (of_kind "account.deletion" record) in H.
  split; [|split].
  3: { intros Hn. rewrite (proj2 (N.eqb_eq _ _) Hn) in Hu. by destruct u. }
  - destruct (of_kind "device.revoked" record) eqn:Hk1; [by eapply revocation_effects|].
    destruct (of_kind "account.deletion" record) eqn:Hk2; [by eapply deletion_effects|].
    by eapply replay_command_effects.
  - exists record, signer. split; [done|]. split; [done|].
    destruct (of_kind "device.revoked" record) eqn:Hk1; [by eapply revocation_lawful|].
    destruct (of_kind "account.deletion" record) eqn:Hk2; [by eapply deletion_lawful|].
    by eapply replay_command_effects.
Qed.

(** ** The whole journal replayed *)

Section Journal.
Variables (a : Authority) (h : RecordId) (host : string) (first : Opening) (r0 : Roles).
Variable boundary : N.

(** An entry of the journal revokes the device. *)
Definition revoked_in (journal : list AdminEvidence) (id : RecordId) : Prop :=
  ∃ e, e ∈ journal ∧ revoked_of e = Some id.
(** A decision of the journal refuses the device at that head. *)
Definition refused_in (journal : list AdminEvidence) (id at_ : RecordId) : Prop :=
  ∃ e v, e ∈ journal ∧ verdict_of e = Some (id, v) ∧ vd_approve v = false ∧ vd_head v = at_.
(** The invitation is the first or one of the journal's, and the journal closes it or not. *)
Definition opened_in (journal : list AdminEvidence) (o : Opening) : Prop :=
  o = first ∨ ∃ e, e ∈ journal ∧ opening_of e = Some o.
Definition closed_in (journal : list AdminEvidence) (id : string) : Prop :=
  ∃ e, e ∈ journal ∧ closing_of e = Some id.
Definition owner_after (journal : list AdminEvidence) (who : IdentityId) : Prop :=
  ∃ r, roles_after a r0 journal = Ok r ∧ who ∈ ro_owners r.
(** Every entry of the journal is lawful where it stands. *)
Definition lawful_journal (journal : list AdminEvidence) : Prop :=
  ∀ n e, journal !! n = Some e →
    lawful a h host (N.of_nat n <? boundary) (revoked_in (take n journal))
      (owner_after (take n journal)) e.

Definition decision_get (s : Replay) (id : RecordId) : option (nat * Verdict) :=
  (λ d, (N.to_nat (dn_index d), {| vd_approve := dn_approved d; vd_head := dn_head d;
                                   vd_record := dn_record d |})) <$> rp_approvals s !! id.
Definition removal_get (s : Replay) (who : IdentityId) : option (nat * option RecordId) :=
  (λ x, (N.to_nat x.1, x.2)) <$> rp_removals s !! who.

(** The replayed state knows what the journal says. *)
Record replayed (journal : list AdminEvidence) (s : Replay) : Prop := {
  re_roles : roles_after a r0 journal = Ok (rp_roles s);
  re_revoked : ∀ id, id ∈ rp_revoked s ↔ revoked_in journal id;
  re_denied : ∀ id at_, (id, at_) ∈ rp_denied s ↔ refused_in journal id at_;
  re_decisions : recorded (decision_get s) (verdict_of <$> journal);
  re_removals : recorded (removal_get s) (removals a r0 journal);
  re_length : length (removals a r0 journal) = length journal;
  re_invitations : ∀ id i, rp_invitations s !! id = Some i → ∃ o, opened_in journal o
    ∧ op_id o = id ∧ iv_evidence i = op_record o ∧ iv_expires i = op_until o
    ∧ iv_approval i = op_approval o ∧ (iv_revoked i = false → ¬ closed_in journal id);
  re_closed : ∀ id, closed_in journal id → is_Some (rp_invitations s !! id);
  re_lawful : lawful_journal journal;
  re_boundary : (N.to_nat boundary < length journal)%nat →
    ∃ r, roles_after a r0 (take (N.to_nat boundary) journal) = Ok r
      ∧ check_committed_owners a r = Ok tt;
}.

Lemma in_snoc {A} (Q : A → Prop) (l : list A) x :
  (∃ e, e ∈ l ++ [x] ∧ Q e) ↔ (∃ e, e ∈ l ∧ Q e) ∨ Q x.
Proof.
  split.
  - intros (e & [He| ->%list_elem_of_singleton]%elem_of_app & HQ); [left|right]; eauto.
  - intros [(e & He & HQ)|HQ]; [exists e|exists x]; (split; [|done]); apply elem_of_app; [by left|].
    right. by apply list_elem_of_singleton.
Qed.
Lemma revoked_snoc l e id : revoked_in (l ++ [e]) id ↔ revoked_in l id ∨ revoked_of e = Some id.
Proof. apply (in_snoc (λ e, revoked_of e = Some id)). Qed.
Lemma closed_snoc l e id : closed_in (l ++ [e]) id ↔ closed_in l id ∨ closing_of e = Some id.
Proof. apply (in_snoc (λ e, closing_of e = Some id)). Qed.
Lemma refused_snoc l e id at_ :
  refused_in (l ++ [e]) id at_ ↔
  refused_in l id at_ ∨ ∃ v, verdict_of e = Some (id, v) ∧ vd_approve v = false ∧ vd_head v = at_.
Proof.
  unfold refused_in. setoid_rewrite elem_of_app. setoid_rewrite list_elem_of_singleton.
  split.
  - intros (x & v & [Hx| ->] & Hv); [left; by exists x, v|right; by exists v].
  - intros [(x & v & Hx & Hv)|(v & Hv)]; [exists x, v|exists e, v]; (split; [|done]); [by left|by right].
Qed.

Lemma roles_after_snoc l e r r' m :
  roles_after a r0 l = Ok r → role_effect a r e = Ok (r', m) → roles_after a r0 (l ++ [e]) = Ok r'.
Proof. unfold roles_after. rewrite try_fold_app. intros -> H. cbn. by rewrite H. Qed.
Lemma removals_snoc l e m : ∀ r r1 r', roles_after a r l = Ok r1 →
  role_effect a r1 e = Ok (r', m) → removals a r (l ++ [e]) = removals a r l ++ [m].
Proof.
  induction l as [|x l IH]; intros r r1 r' Hr He; cbn in *.
  - injection Hr as ->. by rewrite He.
  - step Hr r2 Hr2. apply fmap_Ok in Hr2 as ([r3 m2] & Hx & Heq). cbn in Heq. subst r2. rewrite Hx. cbn. f_equal.
    by eapply IH.
Qed.
Lemma opened_snoc l e o : opened_in l o → opened_in (l ++ [e]) o.
Proof. intros [->|(x & Hx & Ho)]; [by left|]. right. exists x. split; [|done]. apply elem_of_app. by left. Qed.

Lemma decisions_step l s e s' n :
  n = length l → effects a (N.of_nat n) s e s' →
  recorded (decision_get s) (verdict_of <$> l) →
  recorded (decision_get s') (verdict_of <$> (l ++ [e])).
Proof.
  intros -> He H. rewrite fmap_app. cbn [fmap list_fmap]. eapply recorded_snoc; [exact H|].
  intros k. unfold decision_get. rewrite (ef_decision _ _ _ _ _ He).
  destruct (verdict_of e) as [[id v]|]; [|done]. rewrite length_fmap. case_decide as Hk.
  - subst id. rewrite lookup_insert_eq. cbn. rewrite Nat2N.id. by destruct v.
  - by rewrite lookup_insert_ne.
Qed.

Lemma removals_step l s e s' n :
  n = length l → effects a (N.of_nat n) s e s' → replayed l s →
  recorded (removal_get s') (removals a r0 (l ++ [e]))
  ∧ length (removals a r0 (l ++ [e])) = length (l ++ [e])
  ∧ roles_after a r0 (l ++ [e]) = Ok (rp_roles s').
Proof.
  intros -> He H. destruct (ef_roles _ _ _ _ _ He) as (m & Hm & Hr).
  pose proof (re_roles _ _ H) as Hroles.
  rewrite (removals_snoc _ _ _ _ _ _ Hroles Hm), !length_app, (re_length _ _ H). cbn [length].
  split; [|split; [done|by eapply roles_after_snoc]].
  eapply recorded_snoc; [exact (re_removals _ _ H)|]. intros k. unfold removal_get. rewrite Hr.
  rewrite (re_length _ _ H). destruct m as [[who at_]|]; [|done]. case_decide as Hk.
  - subst who. rewrite lookup_insert_eq. cbn. by rewrite Nat2N.id.
  - by rewrite lookup_insert_ne.
Qed.

Lemma invitations_step l s e s' n :
  effects a n s e s' → replayed l s →
  (∀ id i, rp_invitations s' !! id = Some i → ∃ o, opened_in (l ++ [e]) o
    ∧ op_id o = id ∧ iv_evidence i = op_record o ∧ iv_expires i = op_until o
    ∧ iv_approval i = op_approval o ∧ (iv_revoked i = false → ¬ closed_in (l ++ [e]) id))
  ∧ (∀ id, closed_in (l ++ [e]) id → is_Some (rp_invitations s' !! id)).
Proof.
  intros He H. pose proof (re_invitations _ _ H) as Hi. pose proof (re_closed _ _ H) as Hc.
  pose proof (ef_invitations _ _ _ _ _ He) as Hef.
  assert (∀ id i, closing_of e ≠ Some id → rp_invitations s !! id = Some i →
    ∃ o, opened_in (l ++ [e]) o ∧ op_id o = id ∧ iv_evidence i = op_record o
      ∧ iv_expires i = op_until o ∧ iv_approval i = op_approval o
      ∧ (iv_revoked i = false → ¬ closed_in (l ++ [e]) id)) as Hold.
  { intros id i Hn Hid. destruct (Hi id i Hid) as (o & Ho & ? & ? & ? & ? & Hcl). exists o.
    split; [by apply opened_snoc|]. split_and!; try done. intros Hrev [?|?]%closed_snoc; [by apply Hcl|done]. }
  destruct (opening_of e) as [o|] eqn:Ho; destruct (closing_of e) as [id0|] eqn:Hcl; try done.
  - destruct Hef as [Hnone Hs]. split; intros id; rewrite Hs.
    + intros i [[<- <-]|[Hne Hid]]%lookup_insert_Some; [|by apply Hold].
      exists o. split; [right; exists e; split; [apply elem_of_app; right; left|done]|].
      split_and!; try done. intros _ [Hin|?]%closed_snoc; [|congruence].
      apply Hc in Hin. rewrite Hnone in Hin. by destruct Hin.
    + intros [Hin|?]%closed_snoc; [|congruence]. apply Hc in Hin. apply lookup_insert_is_Some.
      destruct (decide (op_id o = id)); auto.
  - destruct Hef as (i0 & Hi0 & Hs). split; intros id; rewrite Hs.
    + intros i [[<- <-]|[Hne Hid]]%lookup_insert_Some; [|apply Hold; [congruence|done]].
      destruct (Hi id0 i0 Hi0) as (o & ? & ? & ? & ? & ? & _). exists o.
      split; [by apply opened_snoc|]. by split_and!.
    + intros Hin%closed_snoc. apply lookup_insert_is_Some. destruct (decide (id0 = id)); [by left|].
      right. split; [done|]. destruct Hin as [?|?]; [by apply Hc|congruence].
  - split; intros id; rewrite Hef; [intros i; by apply Hold|].
    intros [Hin|?]%closed_snoc; [by apply Hc|congruence].
Qed.

Lemma replayed_step l s e s' :
  replay_entry a h host boundary s (length l, e) = Ok s' → replayed l s → replayed (l ++ [e]) s'.
Proof.
  intros Hent H. apply replay_entry_effects in Hent as (He & Hlaw & Hbound).
  destruct (removals_step _ _ _ _ _ eq_refl He H) as (Hrem & Hlen & Hroles).
  destruct (invitations_step _ _ _ _ _ He H) as [Hinv Hcl]. split; try done.
  - intros id. rewrite (ef_revoked _ _ _ _ _ He), revoked_snoc, <-(re_revoked _ _ H).
    destruct (revoked_of e); set_solver.
  - intros id at_. rewrite (ef_denied _ _ _ _ _ He), refused_snoc, <-(re_denied _ _ H).
    destruct (verdict_of e) as [[id' v]|]; [|naive_solver].
    destruct (vd_approve v) eqn:Hv; [naive_solver congruence|].
    rewrite elem_of_union, elem_of_singleton. naive_solver congruence.
  - by eapply decisions_step; [|done|apply H].
  - intros n x [Hn|[Hn1 Hn2]]%lookup_app_Some.
    + rewrite take_app_le by (apply lookup_lt_Some in Hn; lia). by apply (re_lawful _ _ H).
    + apply list_lookup_singleton_Some in Hn2 as [Hn2 <-]. assert (n = length l) as -> by lia.
      rewrite take_app_length. eapply lawful_iff; [..|exact Hlaw].
      * intros id. apply (re_revoked _ _ H).
      * intros who. unfold owner_after. rewrite (re_roles _ _ H). naive_solver.
  - rewrite length_app. cbn [length]. intros Hlt.
    destruct (decide (N.to_nat boundary = length l)) as [Heq|Hne].
    + rewrite Heq, take_app_length. exists (rp_roles s). split; [apply H|]. apply Hbound. lia.
    + rewrite take_app_le by lia. apply (re_boundary _ _ H). lia.
Qed.

Lemma replayed_journal journal : ∀ s s',
  try_fold (replay_entry a h host boundary) s (imap pair journal) = Ok s' →
  replayed [] s → replayed journal s'.
Proof.
  induction journal as [|e journal IH] using rev_ind; intros s s' H Hs; [by injection H as <-|].
  rewrite imap_app, try_fold_app in H. step H s1 H1. cbn in H. step H s2 H2. injection H as <-.
  rewrite Nat.add_0_r in H2. eapply replayed_step; [exact H2|]. by eapply IH.
Qed.
End Journal.

(** ** Why a device may be added *)

Section Entitled.
Variables (a : Authority) (h : RecordId) (hd : StreamConfig) (current : N) (host : string).
Variables (first : Opening) (r0 : Roles) (boundary : N) (journal : list AdminEvidence).

(** The request is the device's own: its contact card and its request to join this General, both
    signed by it. *)
Record asks (item : PendingItem) (c : VerifiedCredential) : Prop := {
  ak_device : pi_credential item = vc_id c;
  ak_contact : ∃ packet text card_text card contact,
    admission_contact (en_contact (pi_request item)) = Ok packet
    ∧ text_of packet "credential" = Some text ∧ credential_text text = Ok c
    ∧ text_of packet "card" = Some card_text ∧ signed_text card_text = Ok card
    ∧ verify_contact card c current = Ok contact
    ∧ ∃ proof initial, signed_text (en_proof (pi_request item)) = Ok proof
        ∧ verify_signature proof (vc_key c) = Ok tt
        ∧ initial_controller a = Some initial
        ∧ value_eq_str (value_index (sr_body proof) "kind") "team.join" = true
        ∧ value_eq_str (value_index (sr_body proof) "space") (display (space a)) = true
        ∧ value_eq_str (value_index (sr_body proof) "stream") (display (stream a)) = true
        ∧ value_eq_str (value_index (sr_body proof) "controller") (display (vc_id initial)) = true
        ∧ value_eq_str (value_index (sr_body proof) "contact") (display (record_id card)) = true;
}.

(** The journal's last decision on the device is a yes, which no refusal at the same head
    contradicts, and which no removal from General has used up. *)
Definition approving (id : RecordId) (n : nat) (v : Verdict) : Prop :=
  last_in (verdict_of <$> journal) n id v ∧ vd_approve v = true
  ∧ ¬ refused_in journal id (vd_head v) ∧ stayed a (vd_head v) id.
(** A device of the person: one the authority knows, or one that asks. *)
Definition device_of (id : RecordId) (who : IdentityId) : Prop :=
  (∃ c, credentials a !! id = Some c ∧ vc_identity c = who)
  ∨ (∃ item c, asks item c ∧ vc_id c = id ∧ vc_identity c = who).
(** A device of the removed person was approved after the removal, at another head than it;
    deleting an account has no head and stays. *)
Definition readmitted (who : IdentityId) (n : nat) (at_ : option RecordId) : Prop :=
  ∃ id i v at', device_of id who ∧ approving id i v ∧ (n < i)%nat ∧ at_ = Some at'
    ∧ at' ≠ vd_head v.
(** The journal's last removal of the person, if there is one, is answered. *)
Definition clear (who : IdentityId) : Prop :=
  ∀ n at_, last_in (removals a r0 journal) n who at_ → readmitted who n at_.
(** The device was never in General, is not refused, and its person is not removed. *)
Definition newcomer (c : VerifiedCredential) : Prop :=
  (∀ n, behind a (head a) n → ¬ member_at a n (vc_id c))
  ∧ (∀ n v, last_in (verdict_of <$> journal) n (vc_id c) v →
       vd_approve v = true ∧ ¬ refused_in journal (vc_id c) (vd_head v))
  ∧ clear (vc_identity c).
Inductive entitled (item : PendingItem) (c : VerifiedCredential) : Prop :=
| entitled_member : member_at a h (vc_id c) → entitled item c
| entitled_approved n v proof record signer :
    approving (vc_id c) n v → clear (vc_identity c) →
    pi_authorization item = Some proof → evidence proof = Ok (record, signer) →
    record_id record = vd_record v → entitled item c
| entitled_linked parent m :
    newcomer c → authorizing_device c = Some parent → ¬ revoked_in journal parent →
    m ∈ sc_members hd → m_identity_id m = vc_identity c → parent ∈ m_credential_ids m →
    entitled item c
| entitled_invited o proof record signer :
    newcomer c → pi_invitation_authorization item = Some proof →
    evidence proof = Ok (record, signer) → opened_in first journal o →
    op_record o = record_id record → op_approval o = false → current < op_until o →
    ¬ closed_in journal (op_id o) → entitled item c.
Record admitted (v : ValidatedEnrollment) : Prop := {
  ad_request : ∃ item, asks item (ve_credential v) ∧ pi_request item = ve_request v
    ∧ entitled item (ve_credential v);
  ad_active : ¬ revoked_in journal (vc_id (ve_credential v));
}.

(** *** The removals that are left *)

Variable s : Replay.
Hypothesis Hs : replayed a h host first r0 boundary journal s.
Hypothesis Hhd : head_config a = Ok hd.

Definition kept (m : gmap IdentityId (N * option RecordId)) : Prop :=
  (∀ who x, m !! who = Some x → rp_removals s !! who = Some x)
  ∧ ∀ who x, rp_removals s !! who = Some x → m !! who = None → readmitted who (N.to_nat x.1) x.2.

Lemma last_in_get {K V} `{!EqDecision K} (get : K → option (nat * V)) l n k v :
  recorded get l → last_in l n k v → get k = Some (n, v).
Proof.
  intros Hr [H1 H2]. specialize (Hr k). destruct (get k) as [[n' v']|]; [|by destruct (Hr n v)].
  destruct Hr as [H3 H4]. destruct (lt_eq_lt_dec n n') as [[Hlt|<-]|Hlt].
  - by destruct (H2 n' v' Hlt).
  - rewrite H1 in H3. by injection H3 as ->.
  - by destruct (H4 n v Hlt).
Qed.

Lemma kept_clear m who : kept m → m !! who = None → clear who.
Proof.
  intros [_ Hk] Hm n at_ Hl. apply (last_in_get _ _ _ _ _ (re_removals _ _ _ _ _ _ _ _ Hs)) in Hl.
  unfold removal_get in Hl. apply fmap_Some in Hl as (x & Hx & [= -> ->]). by apply Hk.
Qed.
Lemma kept_delete m who :
  kept m → (∀ x, m !! who = Some x → readmitted who (N.to_nat x.1) x.2) → kept (delete who m).
Proof.
  intros [H1 H2] Hw. split.
  - intros k x [_ Hk]%lookup_delete_Some. by apply H1.
  - intros k x Hk [<-|Hn]%lookup_delete_None; [|by apply H2].
    destruct (m !! who) as [y|] eqn:Hm; [|by apply H2]. pose proof (H1 _ _ Hm) as Hy.
    assert (x = y) as -> by congruence. by apply Hw.
Qed.

Lemma decision_approving id d :
  rp_approvals s !! id = Some d → dn_approved d = true → (id, dn_head d) ∉ rp_denied s →
  removed_since a (dn_head d) id = Ok false →
  approving id (N.to_nat (dn_index d))
    {| vd_approve := dn_approved d; vd_head := dn_head d; vd_record := dn_record d |}.
Proof.
  intros Hd Ha Hn Hr. pose proof (re_decisions _ _ _ _ _ _ _ _ Hs id) as H.
  unfold decision_get in H. rewrite Hd in H. split; [exact H|]. split; [done|]. split.
  - intros Href. apply Hn. by apply (re_denied _ _ _ _ _ _ _ _ Hs).
  - by apply not_removed_stayed.
Qed.
Lemma answers_readmitted id who d r :
  device_of id who → answers_removal d r = true →
  approving id (N.to_nat (dn_index d))
    {| vd_approve := dn_approved d; vd_head := dn_head d; vd_record := dn_record d |} →
  readmitted who (N.to_nat r.1) r.2.
Proof.
  intros Hdev Ha Happ. unfold answers_removal in Ha. apply andb_true_iff in Ha as [Hlt%N.ltb_lt Hh].
  destruct r.2 as [at'|]; [|done]. apply negb_true_iff, bool_decide_eq_false in Hh.
  eexists id, _, _, at'. split_and!; try done. lia.
Qed.

Lemma settle_kept m p s' :
  rp_approvals s !! p.1 = Some p.2 → kept m →
  settle_approval a h (replay_removals s m) p = Ok s' →
  ∃ m', s' = replay_removals s m' ∧ kept m'.
Proof.
  intros Hp Hk H. unfold settle_approval in H. step H settled Hset. destruct settled; cbn in H;
    [|injection H as <-; by exists m].
  unfold settled_approval in Hset. cbn in Hset. destruct (_ || _) eqn:Hb; [done|].
  apply orb_false_iff in Hb as [[Ha%negb_false_iff Hn%bool_decide_eq_false]%orb_false_iff _].
  step Hset b Hen. destruct b; [|done]. cbn in Hset. step Hset removed Hr. injection Hset as Hset.
  apply negb_true_iff in Hset. subst removed. step H c Hc. apply map_err_Ok, ok_or_Ok in Hc.
  pose proof (decision_approving _ _ Hp Ha Hn Hr) as Happ.
  cbn in H. destruct (m !! vc_identity c) as [r|] eqn:Hm; [|injection H as <-; by exists m].
  destruct (answers_removal p.2 r) eqn:Hans; [|injection H as <-; by exists m].
  injection H as <-. eexists. split; [reflexivity|]. apply kept_delete; [done|].
  intros x Hx. rewrite Hm in Hx. injection Hx as <-.
  eapply answers_readmitted; [left; by exists c|done|done].
Qed.
Lemma settled_kept s' :
  try_fold (settle_approval a h) s (btree_list (rp_approvals s)) = Ok s' →
  ∃ m, s' = replay_removals s m ∧ kept m.
Proof.
  apply (try_fold_inv (λ s', ∃ m, s' = replay_removals s m ∧ kept m)).
  - intros s2 p s3 Hp (m & -> & Hk) H. eapply settle_kept; [|done|done]. apply btree_list_elem.
    by destruct p.
  - exists (rp_removals s). split; [by destruct s|]. split; [done|]. intros who x H1 H2. congruence.
Qed.

(** *** The devices that wait *)

Lemma enrollment_asks item c : enrollment a item current = Ok c → asks item c.
Proof.
  unfold enrollment. intros H. step H packet Hpk. step H t1 Ht1. step H c' Hc. step H t2 Ht2.
  step H card Hcard. step H contact Hcon. step H proof Hpr. step H u Hu. step H initial Hin.
  cbv zeta in H. step H u2 H2. injection H as ->. destruct u. apply map_err_Ok in Hu, Hcon.
  apply ok_or_Ok in Hin. inv_ok. split; [done|].
  exists packet, t1, t2, card, contact. apply field_text in Ht1, Ht2. split_and!; try done.
  exists proof, initial. by split_and!.
Qed.

Lemma invited_open m item :
  open_invitation (replay_removals s m) item current = true →
  ∃ o proof record signer, pi_invitation_authorization item = Some proof
    ∧ evidence proof = Ok (record, signer) ∧ opened_in first journal o
    ∧ op_record o = record_id record ∧ op_approval o = false ∧ current < op_until o
    ∧ ¬ closed_in journal (op_id o).
Proof.
  unfold open_invitation. destruct (pi_invitation_authorization item) as [proof|]; [|done].
  destruct (evidence proof) as [[record signer]|] eqn:He; [|done]. cbn.
  intros (i & (k & Hk)%btree_values_elem & Hi)%existsb_true.
  repeat (apply andb_true_iff in Hi as [Hi ?]). apply bool_decide_eq_true in Hi.
  repeat match goal with H : negb _ = true |- _ => apply negb_true_iff in H
                       | H : (_ <? _) = true |- _ => apply N.ltb_lt in H end.
  destruct (re_invitations _ _ _ _ _ _ _ _ Hs k i Hk) as (o & Ho & Hid & Hrec & Hexp & Happ & Hcl).
  exists o, proof, record, signer. split_and!; try done; [congruence..|].
  rewrite Hid. by apply Hcl.
Qed.

Lemma linked_companion m c :
  is_companion a (replay_removals s m) c = true →
  ∃ parent x, authorizing_device c = Some parent ∧ ¬ revoked_in journal parent
    ∧ x ∈ sc_members hd ∧ m_identity_id x = vc_identity c ∧ parent ∈ m_credential_ids x.
Proof.
  unfold is_companion. destruct (authorizing_device c) as [parent|]; [|done]. cbn. rewrite Hhd.
  intros [Hr Hd]%andb_true_iff. apply negb_true_iff, bool_decide_eq_false in Hr.
  apply existsb_true in Hd as (x & Hx & [H1 H2]%andb_true_iff). exists parent, x.
  split; [done|]. split; [by rewrite <-(re_revoked _ _ _ _ _ _ _ _ Hs)|].
  apply bool_decide_eq_true in H1. apply contains_true in H2. done.
Qed.

Lemma approved_entitled m item c :
  kept m → asks item c → explicitly_approved a (replay_removals s m) item c = Ok true →
  entitled item c ∧ kept (delete (vc_identity c) m).
Proof.
  intros Hk Hask H. unfold explicitly_approved in H. cbn in H.
  destruct (rp_approvals s !! vc_id c) as [d|] eqn:Hd; [|done].
  destruct (pi_authorization item) as [proof|] eqn:Hp; [|done].
  destruct (dn_approved d) eqn:Ha; [|done]. cbn in H.
  destruct (evidence proof) as [[record signer]|] eqn:He; [|done]. cbn in H.
  destruct (bool_decide_reflect (record_id record = dn_record d)) as [Hrec|]; [|done]. cbn in H.
  destruct (bool_decide ((vc_id c, dn_head d) ∈ rp_denied s)) eqn:Hden; [done|].
  apply bool_decide_eq_false in Hden. destruct (negb _) eqn:Hrm; [done|]. apply negb_false_iff in Hrm.
  step H removed Hr. injection H as H. apply negb_true_iff in H. subst removed.
  pose proof (decision_approving _ _ Hd Ha Hden Hr) as Happ.
  assert (∀ r, m !! vc_identity c = Some r → readmitted (vc_identity c) (N.to_nat r.1) r.2) as Hre.
  { intros r Hm. rewrite Hm in Hrm. eapply answers_readmitted; [|exact Hrm|exact Happ].
    right. by exists item, c. }
  split; [|by apply kept_delete]. eapply entitled_approved; [exact Happ| |done..].
  destruct (m !! vc_identity c) as [r|] eqn:Hm; [|by eapply kept_clear].
  intros n at_ Hl. apply (last_in_get _ _ _ _ _ (re_removals _ _ _ _ _ _ _ _ Hs)) in Hl.
  unfold removal_get in Hl. apply fmap_Some in Hl as (x & Hx & [= -> ->]).
  rewrite (proj1 Hk _ _ Hm) in Hx. injection Hx as <-. by apply Hre.
Qed.

Lemma fresh_entitled m item c :
  kept m → explicitly_denied (replay_removals s m) (vc_id c) = false →
  enrolled_ever a (vc_id c) = Ok false → m !! vc_identity c = None →
  is_companion a (replay_removals s m) c || open_invitation (replay_removals s m) item current = true →
  entitled item c.
Proof.
  intros Hk Hden Hever Hm Hwhy. assert (newcomer c) as Hnew.
  { split; [by apply (enrolled_from_spec _ _ _ _ false Hever)|]. split; [|by eapply kept_clear].
    intros n v Hl. apply (last_in_get _ _ _ _ _ (re_decisions _ _ _ _ _ _ _ _ Hs)) in Hl.
    unfold decision_get in Hl. apply fmap_Some in Hl as (d & Hd & [= -> ->]). cbn.
    unfold explicitly_denied in Hden. cbn in Hden. rewrite Hd in Hden.
    apply orb_false_iff in Hden as [H1%negb_false_iff H2%bool_decide_eq_false]. split; [done|].
    by rewrite <-(re_denied _ _ _ _ _ _ _ _ Hs). }
  apply orb_true_iff in Hwhy as [Hc|Ho].
  - apply linked_companion in Hc as (parent & x & ? & ? & ? & ? & ?). by eapply entitled_linked.
  - apply invited_open in Ho as (o & proof & record & signer & ? & ? & ? & ? & ? & ? & ?).
    by eapply entitled_invited.
Qed.

Record waiting_ok (w : Waiting) : Prop := {
  wk_same : ∃ m, w.1.2 = replay_removals s m ∧ kept m;
  wk_seen : ∀ v, v ∈ w.2 → vc_id (ve_credential v) ∈ w.1.1;
  wk_once : NoDup ((vc_id ∘ ve_credential) <$> w.2);
  wk_admitted : ∀ v, v ∈ w.2 → admitted v;
}.

Lemma waiting_add seen m eligible item c m' :
  waiting_ok (seen, replay_removals s m, eligible) → pi_credential item ∉ seen →
  asks item c → entitled item c → vc_id c ∉ rp_revoked s → kept m' →
  waiting_ok ({[pi_credential item]} ∪ seen, replay_removals s m',
              eligible ++ [{| ve_credential := c; ve_request := pi_request item |}]).
Proof.
  intros [_ Hseen Honce Had] Hnew Hask Hent Hrev Hk. pose proof (ak_device _ _ Hask) as Hid.
  cbn [fst snd] in *. split; cbn [fst snd].
  - by exists m'.
  - intros v [Hv| ->%list_elem_of_singleton]%elem_of_app; [apply Hseen in Hv; set_solver|].
    cbn. set_solver.
  - rewrite fmap_app. apply NoDup_app. split; [done|]. split; [|apply NoDup_singleton].
    intros x (v & -> & Hv)%list_elem_of_fmap Hx%list_elem_of_singleton. apply Hnew. rewrite Hid.
    cbn in Hx. rewrite <-Hx. by apply Hseen.
  - intros v [Hv| ->%list_elem_of_singleton]%elem_of_app; [by apply Had|]. split; cbn.
    + by exists item.
    + by rewrite <-(re_revoked _ _ _ _ _ _ _ _ Hs).
Qed.

Lemma consider_ok w raw w' :
  consider a h current w raw = Ok w' → waiting_ok w → waiting_ok w'.
Proof.
  unfold consider. intros H Hok. destruct (from_value raw) as [item|]; [|by injection H as <-].
  destruct w as [[seen s2] eligible]. destruct (wk_same _ Hok) as (m & Hm & Hk). cbn in Hm. subst s2.
  destruct (bool_decide (pi_credential item ∈ seen)) eqn:Hseen; [by injection H as <-|].
  apply bool_decide_eq_false in Hseen.
  assert (waiting_ok ({[pi_credential item]} ∪ seen, replay_removals s m, eligible)) as Hok2.
  { destruct Hok as [H1 H2 H3 H4]. split; try done. intros v Hv. cbn in *. set_solver. }
  destruct (enrollment a item current) as [c|] eqn:Hen; [|by injection H as <-].
  apply enrollment_asks in Hen. unfold admit_candidate in H.
  destruct (bool_decide (vc_id c ∈ rp_revoked _)) eqn:Hrev; [by injection H as <-|].
  apply bool_decide_eq_false in Hrev. step H appr Happ. step H currently Hcur.
  destruct (explicitly_denied _ (vc_id c) && negb currently) eqn:Hden; [by injection H as <-|].
  step H prev Hprev.
  destruct (negb currently && negb appr && negb _) eqn:Hwhy; [by injection H as <-|].
  injection H as <-. clear Hok2. cbn in Hrev. destruct appr.
  - destruct (approved_entitled _ _ _ Hk Hen Happ) as [Hent Hk2]. by eapply (waiting_add _ m).
  - eapply (waiting_add _ m); try done. destruct currently; [by apply entitled_member, enrolled_Ok|].
    cbn in Hwhy. apply negb_false_iff in Hwhy. rewrite andb_true_r in Hden.
    apply andb_true_iff in Hwhy as [[Hm Hp%negb_true_iff]%andb_true_iff Ho]. subst prev.
    apply bool_decide_eq_true in Hm. by eapply fresh_entitled.
Qed.
End Entitled.

Lemma bootstrap_replayed a h host creation creator command boundary s :
  initial_replay (vc_identity creator) creation command = Ok s →
  ∃ r0, bootstrap [vc_identity creator] = Ok r0
    ∧ replayed a h host (first_opening creation command) r0 boundary [] s.
Proof.
  unfold initial_replay. intros H. step H r0 Hr0. injection H as <-. exists r0. split; [done|].
  split; cbn; try done.
  - intros id. split; [set_solver|]. by intros (e & ?%not_elem_of_nil & _).
  - intros id at_. split; [set_solver|]. by intros (e & v & ?%not_elem_of_nil & _).
  - apply recorded_nil. intros k. unfold decision_get. cbn. by rewrite lookup_empty.
  - apply recorded_nil. intros k. unfold removal_get. cbn. by rewrite lookup_empty.
  - intros id i [<- <-]%lookup_singleton_Some. eexists. split; [by left|]. split_and!; try done.
    by intros _ (e & ?%not_elem_of_nil & _).
  - by intros id (e & ?%not_elem_of_nil & _).
  - lia.
Qed.

(** C11. Whatever the host presents, an owner's device admits only entitled devices. The Space's
    creation names this General and its creator is General's primary owner; the journal begins
    with the history that General's head commits; every entry is lawful where it stands: signed
    by a device that was in General at the head it names and not revoked before, and of an
    owner then if it invites, closes an invitation, decides or starts a change of roles. The
    owners found are the creator's with every change of roles applied, at the end of the
    committed history those of General, and the devices found revoked are those the journal
    revokes. No device is admitted twice or is revoked; each asked by itself and is in General
    already; or the journal's last decision on it is a yes that no refusal at its head and no
    removal since contradicts; or it was never in General, is not refused, its person not
    removed, and is linked by a current device or brings an invitation that the creation or
    an owner opened without asking for decisions and nobody closed, within its time. *)
Theorem owner_admits_entitled a status current vp :
  verify_owner_policy a status current = Ok vp →
  ∃ h hd committed journal e creation creator command initial r0 r,
    head a = Some h ∧ head_config a = Ok hd
    ∧ from_value (value_index status "creation") = Some e
    ∧ evidence e = Ok (creation, creator)
    ∧ (of_kind "device.revoked" creation = false →
       verify_signature creation (vc_key creator) = Ok tt)
    ∧ decode creation = Ok command ∧ cx_kind command = "space.create"
    ∧ verify_creation_authority command creator = Ok (Some initial)
    ∧ sr_bytes (genesis initial) = sr_bytes (genesis a) ∧ stream initial = stream a
    ∧ primary_owner_identity a = Ok (vc_identity creator)
    ∧ from_value (value_index status "journal") = Some journal
    ∧ (length committed ≤ length journal)%nat
    ∧ journal_commitment committed = Ok (ca_request_record_id (sc_action hd))
    ∧ journal_commitment (take (length committed) journal) = Ok (ca_request_record_id (sc_action hd))
    ∧ journal_commitment journal = Ok (vp_commitment vp)
    ∧ lawful_journal a h (cx_host command) r0 (nlen committed) journal
    ∧ bootstrap [vc_identity creator] = Ok r0 ∧ roles_after a r0 journal = Ok r
    ∧ vp_owner_identities vp = ro_owners r
    ∧ (∃ rc, roles_after a r0 (take (length committed) journal) = Ok rc ∧ ro_owners rc = managers hd)
    ∧ (∀ id, id ∈ vp_revoked vp ↔ revoked_in journal id)
    ∧ (∀ who, who ∉ vp_removed vp → clear a current r0 journal who)
    ∧ NoDup ((vc_id ∘ ve_credential) <$> vp_pending vp)
    ∧ ∀ v, v ∈ vp_pending vp →
        admitted a h hd current (first_opening creation command) r0 journal v.
Proof.
  unfold verify_owner_policy. intros H. step H u1 H1. step H h Hh. step H u2 H2. step H p Hp.
  destruct p as [[creation creator] command]. step H q Hq. destruct q as [committed journal].
  step H commitment Hcom. step H primary Hprim. step H u3 H3. step H s0 Hs0. step H s Hs.
  step H raws Hraws. step H u4 H4. step H w Hw. destruct w as [[seen s'] eligible]. injection H as <-.
  apply ok_or_Ok in Hh. apply map_err_Ok in Hprim. apply fail_if_Ok, bool_decide_eq_negb_false in H3 as ->.
  unfold presented_creation in Hp. step Hp e He. step Hp pe Hev. destruct pe as [record c2].
  step Hp cm Hcm. step Hp u5 H5. step Hp found Hf. step Hp initial Hini. step Hp u6 H6.
  injection Hp as -> -> ->. apply ok_or_Ok in He, Hini. subst found. apply map_err_Ok in Hcm.
  apply fail_if_Ok, bool_decide_eq_negb_false in H5.
  apply fail_if_Ok, orb_false_iff in H6 as [H6%bool_decide_eq_negb_false H7%bool_decide_eq_negb_false].
  unfold presented_journal in Hq. step Hq com Hcommitted. step Hq jo Hjournal. cbv zeta in Hq.
  step Hq u8 H8. step Hq cc Hcc. step Hq hd0 Hhd. step Hq u9 H9. step Hq pre Hpre. step Hq u10 H10.
  injection Hq as -> ->. apply ok_or_Ok in Hjournal. apply map_err_Ok in Hhd.
  apply fail_if_Ok, N.ltb_ge in H8. apply fail_if_Ok, bool_decide_eq_negb_false in H9 as ->.
  apply fail_if_Ok, bool_decide_eq_negb_false in H10 as ->.
  destruct (bootstrap_replayed a h (cx_host command) _ _ _ (nlen committed) _ Hs0) as (r0 & Hr0 & Hnil).
  unfold replay_journal in Hs. step Hs s1 Hs1. step Hs u11 H11.
  pose proof (replayed_journal _ _ _ _ _ _ _ _ _ Hs1 Hnil) as Hrep.
  destruct (settled_kept _ _ current _ _ _ _ _ _ Hrep _ Hs) as (m & -> & Hk).
  assert (waiting_ok a h hd0 current (first_opening creation command) r0 journal s1
    (seen, s', eligible)) as [[m' [Hm Hk']] _ Honce Had].
  { revert Hw. apply try_fold_inv; [intros w raw w' _ Hok Hc; by eapply consider_ok|].
    split; cbn; [by exists m|set_solver|apply NoDup_nil_2|set_solver]. }
  cbn in Hm. subst s'. exists h, hd0, committed, journal, e, creation, creator, command, initial, r0.
  exists (rp_roles s1). split_and!; try done.
  - intros Hkind. apply evidence_signed in Hev as (_ & _ & Hv). by rewrite Hkind in Hv.
  - unfold nlen in H8. lia.
  - apply Hrep.
  - apply Hrep.
  - unfold nlen in *. destruct (N.ltb_spec (N.of_nat (length committed)) (N.of_nat (length journal))) as [Hlt|Hge].
    + destruct (re_boundary _ _ _ _ _ _ _ _ Hrep) as (rc & Hrc & Hchk); [unfold nlen; lia|].
      unfold nlen in Hrc. rewrite Nat2N.id in Hrc. exists rc. split; [done|].
      unfold check_committed_owners in Hchk. step Hchk hd2 Hhd2. apply map_err_Ok in Hhd2.
      apply fail_if_Ok, bool_decide_eq_negb_false in Hchk. congruence.
    + exists (rp_roles s1). rewrite take_ge by lia. split; [apply Hrep|].
      unfold check_committed_owners in H11. step H11 hd2 Hhd2. apply map_err_Ok in Hhd2.
      apply fail_if_Ok, bool_decide_eq_negb_false in H11. congruence.
  - apply (re_revoked _ _ _ _ _ _ _ _ Hrep).
  - intros who Hw2. cbn in Hw2. apply not_elem_of_dom in Hw2. by eapply kept_clear.
Qed.

End OwnerFacts.
