(* ===== verification/HostedWorld.v ===== *)
(** * A concrete hosted Space

    The Space of [World] on a host, without a witness: its owner makes the guest an owner, and
    the states around that on which the theorems about hosted Spaces are shown to apply. *)

From S2P Require Import Prelude Sums Platform Ids Toy Record Chat Identity AuthorityData AuthorityWitness Authority AuthorityProof World WitnessWire CallWire Attachments WakeWire Revocations HostedRoles HostedState HostedAccess HostedFiles HostedCalls HostedAdmission HostedService HostedWitness SpaceCreation OwnerAdmission HostedChanges HostedTracks HostedRuns HostedInv OwnerFacts.

Module Hosted.
Import World.
#[local] Existing Instances Toy.platform Toy.platform_laws.

#[export] Instance plain_base64 : UrlBase64 :=
  {| url_base64_encode s := s; url_base64_decode s := Some s |}.
#[export] Instance hosted_platform : HostedPlatform :=
  {| zlib_decode s _ := Some s; url_set_path _ _ := None |}.

(** ** The owner's request: make the guest an owner *)

Definition space_id : SpaceId := record_id genesis4.
Definition issued : N := 1000.
Definition promotion : Command :=
  {| hc_v := 1; hc_kind := "space.command"; hc_space := space_id; hc_nonce := nonce16;
     hc_issued := issued; hc_action := "role_change";
     hc_body := VObject [("revision", VNumber 0); ("target", VString (display guest_id));
                         ("kind", VString "make_owner");
                         ("authority_head", VString (display (record_id config4b)))] |}.
Definition decision : Command :=
  {| hc_v := 1; hc_kind := "space.command"; hc_space := space_id; hc_nonce := nonce16;
     hc_issued := issued; hc_action := "decide";
     hc_body := VObject [("id", VString (display (vc_id second))); ("approve", VBool true);
                         ("authority_head", VString (display (record_id config4b)))] |}.
(** The Space as it was created, published again. *)
Definition first_proof : CallAuthorityProof :=
  {| pf_v := 1; pf_genesis := sr_bytes genesis2; pf_credentials := [sr_bytes (rec "{1c}" Toy.root_key)];
     pf_configs := [sr_bytes config2]; pf_checkpoint := None |}.
Definition publication : Command :=
  {| hc_v := 1; hc_kind := "space.command"; hc_space := record_id genesis2; hc_nonce := nonce16;
     hc_issued := issued; hc_action := "authority_publish";
     hc_body := VObject [("expected_head", VString (display (record_id config2)));
                         ("proof", VObject [("tag", VString "{1o}")])] |}.
#[export] Instance hosted_serde : HostedSerde := {|
  serde_space_command := Toy.table (λ _, "{}") [("{1z}", promotion); ("{1y}", decision); ("{1x}", publication)];
  serde_enrollment := Toy.table (λ _, "{}") [];
  serde_call_proof := Toy.table (λ _, "{}") [("{1o}", first_proof)];
  serde_durable := Toy.table (λ _, "{}") [];
  serde_invitation := Toy.table (λ _, "{}") [];
  serde_account := Toy.table (λ _, "{}") [];
  serde_revocation := Toy.table (λ _, "{}") [];
  state_to_vec _ := ""; value_to_vec _ := "" |}.
#[export] Instance every_write : Disk := {| disk_state _ := true; disk_revocation _ := true |}.

(** ** The host *)

Definition scope (id : SpaceId) : TeamScope :=
  {| ts_space := id; ts_stream := World.stream_id; ts_root := display Toy.root_key;
     ts_controller := vc_id owner_device |}.
Definition address (id : SpaceId) : SpaceAddress :=
  {| sa_url := "https://space"; sa_scope := scope id; sa_lifetime := Hours24;
     sa_service_credential := Some (base64_encode (sr_bytes (vc_record second))) |}.
Definition peer : PeerDescriptor :=
  {| pd_url := "https://space"; pd_signing_public_key := ""; pd_mailbox_id := "";
     pd_read_token := None; pd_write_token := None |}.
Definition config_of (id : SpaceId) : ServiceConfig :=
  {| cfg_name := "Space"; cfg_address := address id; cfg_owners := [owner_id];
     cfg_contact_email := None; cfg_peer := peer |}.
Definition config : ServiceConfig := config_of space_id.
Definition enrolled : EnrollmentRequest := {| en_v := 1; en_contact := ""; en_proof := "" |}.
Definition state : ServiceState := {|
  st_creation := None; st_journal := []; st_committed_journal := []; st_revocation_proofs := ∅;
  st_account_deletions := ∅; st_proof := exported; st_revoked := ∅; st_claimed := true;
  st_offers := ∅;
  st_applicants := <[display (vc_id owner_device) := new_applicant owner_id "Owner" "approved" "" "" enrolled 1]>
    {[display (vc_id guest) := new_applicant guest_id "Guest" "approved" "" "" enrolled 2]};
  st_replies := ∅;
  st_roles := Some {| ro_primary := owner_id; ro_contact_email := None; ro_owners := {[owner_id]};
                      ro_revision := 0; ro_pending := ∅ |};
  st_removals := ∅; st_removal_heads := ∅; st_erased_accounts := {[Toy.pad 32 "left"]};
  st_attachment_policy := default_policy; st_attachments := ∅; st_attachment_access := ∅;
  st_call_heads := ∅; st_notes := ∅; st_witness_requests := ∅ |}.
Definition service : Service :=
  {| sv_credential := second; sv_authority := joined; sv_allow_loopback := false;
     sv_trusted_witness := None; sv_stored := state;
     sv_registry := {| rg_files := ∅; rg_budget := no_budget |} |}.

Definition signed : SignedRecord := rec "{1z}" device_key.
Definition request_of (record : SignedRecord) : Request :=
  {| hq_nonce := nonce16; hq_invitation := None; hq_record := Some (sr_bytes record);
     hq_credential := Some (sr_bytes (rec "{1c}" Toy.root_key)) |}.
Definition request : Request := request_of signed.
Definition served : Service * result string (option string * Reply) :=
  serve_space false config request issued issued None service.


(** ** Other states of the Space *)

(** The owner decides on the guest's second device. *)
Definition decision_signed : SignedRecord := rec "{1y}" device_key.
Definition waiting_guest : Applicant := new_applicant guest_id "Guest" "pending" "" "" enrolled 3.
Definition waiting : Service :=
  with_stored service (with_applicant state (display (vc_id second)) waiting_guest).
Definition decided : Service :=
  (serve_space false config (request_of decision_signed) issued issued None waiting).1.

(** A file the owner has uploaded. *)
Definition file_id : AttachmentId := Toy.pad 16 "file".
Definition upload : HostedAttachment := {|
  ha_object_id := Toy.pad 16 "object"; ha_issuer := owner_id; ha_plaintext_size := 10;
  ha_encrypted_size := encrypted_size 10; ha_ciphertext_sha256 := ""; ha_created_at_ms := 1;
  ha_expires_at_ms := None; ha_reservation_expires_at_ms := 2; ha_state := Uploaded;
  ha_message_id := None; ha_terminal_at_ms := 0 |}.
Definition uploaded_state : ServiceState := with_attachment state file_id upload.
Definition commit_body : value := VObject [("attachment_id", VString (display file_id))].
Definition committed_state : ServiceState :=
  from_ok state (commit uploaded_state owner_device commit_body).

(** A Space its owners manage; an owner publishes its General again, with the credentials that
    the stored proof does not carry. *)
Definition first_state : ServiceState :=
  with_proof state {| pf_v := 1; pf_genesis := sr_bytes genesis2; pf_credentials := [];
                      pf_configs := [sr_bytes config2]; pf_checkpoint := None |}.
Definition before : Service := with_stored (with_authority service created) first_state.
Definition publication_request : Request := request_of (rec "{1x}" device_key).
Definition published : Service :=
  (serve_space false (config_of (record_id genesis2)) publication_request issued issued None before).1.

End Hosted.

Module HostedExamples.
Import World Hosted.
#[local] Existing Instances Toy.platform Toy.platform_laws.

Lemma served_run : host_run service served.1.
Proof. unfold served. apply rtc_once, step_serve. Qed.
Lemma guest_promoted : owns (sv_stored served.1) guest_id = true.
Proof. vm_compute. reflexivity. Qed.

Lemma host_refines_witness :
  host_run service served.1 ∧ owns (sv_stored served.1) guest_id = true
  ∧ space_run None (joined, state) (sv_authority served.1, sv_stored served.1).
Proof.
  split; [exact served_run|]. split; [exact guest_promoted|].
  exact (proj2 (host_refines _ _ served_run)).
Defined.

Lemma state_journal_ok : journal_ok state.
Proof. split; [vm_compute; discriminate|apply NoDup_nil_2|done]. Qed.
Lemma journal_append_only_witness :
  journal_ok state ∧ length (st_journal (sv_stored served.1)) = 1%nat
  ∧ grows state (sv_stored served.1) ∧ journal_ok (sv_stored served.1).
Proof.
  split; [exact state_journal_ok|]. split; [vm_compute; reflexivity|].
  exact (journal_append_only service served.1 state_journal_ok served_run).
Defined.

Lemma state_roles_ok : roles_ok owner_id state.
Proof. eexists. split; [reflexivity|]. split; [reflexivity|]. vm_compute. reflexivity. Qed.
Lemma owners_by_primary_only_witness :
  roles_ok owner_id state ∧ owns state guest_id = false ∧ owns (sv_stored served.1) guest_id = true
  ∧ roles_ok owner_id (sv_stored served.1)
  ∧ owners_follow owner_id state (sv_stored served.1).
Proof.
  split; [exact state_roles_ok|]. split; [vm_compute; reflexivity|]. split; [exact guest_promoted|].
  exact (owners_by_primary_only owner_id service served.1 state_roles_ok served_run).
Defined.

Definition left_id : IdentityId := Toy.pad 32 "left".
Lemma state_erased_out : erased_out state.
Proof.
  intros who Hw%bool_decide_eq_true. change (who ∈ ({[left_id]} : gset IdentityId)) in Hw.
  apply elem_of_singleton in Hw as ->. split; [|reflexivity].
  intros key a Ha. cbn in Ha. apply lookup_insert_Some in Ha as [[_ <-]|[_ Ha]]; [|
    apply lookup_singleton_Some in Ha as [_ <-]]; cbn; vm_compute; discriminate.
Qed.
Lemma deleted_account_stays_out_witness :
  is_erased state left_id = true ∧ member_admitted served.1 left_id = false
  ∧ nobody (st_applicants (sv_stored served.1)) left_id.
Proof.
  assert (is_erased state left_id = true) as He by (vm_compute; reflexivity).
  destruct (deleted_account_stays_out service served.1 left_id state_erased_out He served_run)
    as (_ & _ & Hn & _ & Hm & _). split; [exact He|]. split; [exact Hm|exact Hn].
Defined.

Lemma state_within_limits : within_limits state.
Proof. split; vm_compute; discriminate. Qed.
Lemma hosted_space_bounded_witness :
  msize (st_replies (sv_stored served.1)) = 1 ∧ within_limits (sv_stored served.1).
Proof.
  split; [vm_compute; reflexivity|].
  exact (hosted_space_bounded service served.1 state_within_limits served_run).
Defined.

Lemma file_committed :
  change None None (joined, uploaded_state) (joined, committed_state).
Proof.
  apply change_file. apply (file_commit _ owner_device commit_body). vm_compute. reflexivity.
Qed.
Lemma hosted_file_life_cycle_witness :
  ∃ b, st_attachments committed_state !! file_id = Some b ∧ ha_state b = Available
    ∧ ∃ a, st_attachments uploaded_state !! file_id = Some a ∧ row_next a b.
Proof.
  assert (H : st_attachments committed_state !! file_id = Some (in_state upload Available))
    by (vm_compute; reflexivity).
  exists (in_state upload Available). split; [exact H|]. split; [reflexivity|].
  destruct (hosted_file_life_cycle None None _ _ file_id _ file_committed H) as [Hn|(Hn & _)]; [exact Hn|].
  vm_compute in Hn. discriminate Hn.
Defined.

Lemma general_changes_authorized_witness :
  st_proof (sv_stored published) = first_proof ∧ ∃ q clock, HostedInv.publication before q clock (world published).
Proof.
  assert (H : st_proof (sv_stored published) = first_proof) by (vm_compute; reflexivity).
  split; [exact H|].
  destruct (general_changes_authorized before published (step_serve _ _ _ _ _ _ _))
    as [(_ & Hp & _)|replica cfg q current time draw _ Heq Hp|pin cfg q f i t i' l d Hpin _ _|_ Hs].
  - change (st_proof (sv_stored published) = st_proof first_state) in Hp. rewrite H in Hp. discriminate Hp.
  - exists q, current. exact Hp.
  - discriminate Hpin.
  - rewrite Hs in H. discriminate H.
Defined.

Lemma guest_waits :
  st_applicants (sv_stored waiting) !! display (vc_id second) = Some waiting_guest.
Proof. vm_compute. reflexivity. Qed.
Definition granted_guest : Applicant :=
  set_authorization (new_applicant guest_id "Guest" "eligible" "" "" enrolled 3)
    (Some (evidence_of decision_signed owner_device)).
Lemma admission_needs_grant_witness :
  st_applicants (sv_stored decided) !! display (vc_id second) = Some granted_guest
  ∧ ∃ q clock later, answered waiting decided q clock later
      ∧ grants waiting q clock later (world decided) (display (vc_id second)) guest_id.
Proof.
  assert (H : st_applicants (sv_stored decided) !! display (vc_id second) = Some granted_guest)
    by (vm_compute; reflexivity).
  split; [exact H|].
  destruct (admission_needs_grant waiting decided _ _ (step_serve _ _ _ _ _ _ _) H)
    as [x Hx Hs _|_ He|Ha _|q clock later _ Hans Hg].
  - rewrite guest_waits in Hx. injection Hx as <-. discriminate Hs.
  - destruct He. reflexivity.
  - discriminate Ha.
  - exists q, clock, later. split; [exact Hans|exact Hg].
Defined.

End HostedExamples.

(** ** What the owner's device admits *)

Module Owners.
Import World Hosted.
#[local] Existing Instances Toy.platform Toy.platform_laws.

(** The guest's contact and request are documents of their own. *)
Definition contact_text : string := "{C}".
Definition join_text : string := "{J}".
Definition card : SignedRecord := rec "{1t}" guest_device.
Definition contact_document : json :=
  JMap [("kind", JStr "Contact"); ("credential", JStr (sr_bytes (rec "{1g}" Toy.guest_key)));
        ("card", JStr (sr_bytes card))].
Definition join_document : json :=
  JMap [("v", JU64 1); ("kind", JStr "team.join"); ("space", JStr (display (record_id genesis2)));
        ("stream", JStr (display World.stream_id)); ("controller", JStr (display (vc_id owner_device)));
        ("contact", JStr (display (record_id card)))].
Definition documents (s : string) : json :=
  if s === contact_text then contact_document else if s === join_text then join_document
  else Toy.document s.
#[export] Instance owners_platform : Platform := {|
  sha256 := Toy.digest;
  ed25519_valid k := bool_decide (String.length k = 32%nat);
  ed25519_weak k := false;
  ed25519_verifying_key k := k;
  ed25519_sign k m := Toy.pad 64 k;
  ed25519_verify_strict k m s := bool_decide (s = Toy.pad 64 k);
  base64_encode s := s;
  base64_decode s := Some s;
  json_from_slice s := Some (documents s);
  age_recipient_parse s := Some s;
  url_parse s := None;
|}.

Definition creation : CreateCommand :=
  {| cx_v := 2; cx_kind := "space.create"; cx_host := "https://space";
     cx_request_id := display World.stream_id; cx_issued := 100; cx_name := "Space";
     cx_contact_email := "owner@example.org"; cx_lifetime := Hours24;
     cx_require_approval := false; cx_authority := Some first_proof |}.
Definition creation_evidence : AdminEvidence :=
  {| ev_record := sr_bytes (rec "{1v}" device_key);
     ev_credential := sr_bytes (rec "{1c}" Toy.root_key) |}.
Definition guest_request : EnrollmentRequest :=
  {| en_v := 1; en_contact := "elo://exchange/v1#" +:+ contact_text;
     en_proof := frame join_text (Toy.pad 64 guest_device) |}.
Definition guest_item : PendingItem :=
  {| pi_credential := vc_id guest; pi_request := guest_request; pi_authorization := None;
     pi_invitation_authorization := Some creation_evidence |}.
#[export] Instance creation_serde : Serde CreateCommand := Toy.table (λ _, "{}") [("{1v}", creation)].
#[export] Instance evidence_serde : Serde AdminEvidence :=
  Toy.table (λ _, "{}") [("creation", creation_evidence)].
#[export] Instance journal_serde : Serde (list AdminEvidence) := Toy.table (λ _, "{}") [("none", [])].
#[export] Instance item_serde : Serde PendingItem := Toy.table (λ _, "{}") [("guest", guest_item)].

Definition tagged (s : string) : value := VObject [("tag", VString s)].
(** What the host presents: the creation, an empty journal and the guest who waits. *)
Definition status : value :=
  VObject [("head", VString (display (record_id config2))); ("creation", tagged "creation");
           ("committed_journal", tagged "none"); ("journal", tagged "none");
           ("pending", VArray [tagged "guest"; tagged "guest"])].
Definition policy : result string ValidatedOwnerPolicy := verify_owner_policy created status 500.

Definition nothing : ValidatedOwnerPolicy :=
  {| vp_pending := []; vp_owner_identities := ∅; vp_removed := ∅; vp_revoked := ∅; vp_commitment := None |}.
Definition admitted_guest : ValidatedEnrollment := {| ve_credential := guest; ve_request := guest_request |}.

Lemma owner_admits_entitled_witness :
  ∃ vp, verify_owner_policy created status 500 = Ok vp ∧ vp_pending vp = [admitted_guest]
    ∧ ∃ h hd r0 first journal, head created = Some h
        ∧ admitted created h hd 500 first r0 journal admitted_guest.
Proof.
  set (vp := from_ok nothing policy).
  assert (H : verify_owner_policy created status 500 = Ok vp) by (vm_compute; reflexivity).
  assert (Hp : vp_pending vp = [admitted_guest]) by (vm_compute; reflexivity).
  exists vp. split; [exact H|]. split; [exact Hp|].
  destruct (owner_admits_entitled created status 500 vp H)
    as (h & hd & committed & journal & e & cr & creator & command & initial & r0 & r & Hh & Hall).
  repeat match type of Hall with _ ∧ _ => destruct Hall as [_ Hall] end.
  exists h, hd, r0, (first_opening cr command), journal. split; [exact Hh|].
  apply Hall. rewrite Hp. by apply list_elem_of_singleton.
Defined.

End Owners.
