(* ===== verification/HostingWorld.v ===== *)
(** * A concrete host

    A host with one open Space, the Space of [HostedWorld], whose owner deletes it; an empty host
    with a witness that reserves a Space and signs its ticket; and a gate with its leases. *)

From S2P Require Import Prelude Sums Platform Ids Toy Record Chat Identity AuthorityData AuthorityWitness Authority AuthorityProof World WitnessWire CallWire Attachments StorageWire WakeWire Revocations HostedRoles HostedState HostedAccess HostedFiles HostedAdmission HostedService HostedWitness SpaceCreation OwnerAdmission HostGate Hosting HostingSpaces HostedChanges HostedTracks HostedRuns HostedInv HostingFacts HostingLimits OwnerFacts HostedWorld.

Module Host.
Import World.
#[export] Existing Instances Hosted.plain_base64 Hosted.every_write.
#[export] Instance hosted_platform : HostedPlatform :=
  {| zlib_decode s _ := Some s; url_set_path u p := Some (u +:+ p) |}.

(** The work of a creation is done by any nonce. *)
Definition digest (b : string) : string :=
  if stake 24 b === "elo.space.create.work.v1" then Toy.nuls 32 else Toy.digest b.
#[export] Instance host_platform : Platform := {|
  sha256 := digest;
  ed25519_valid k := bool_decide (String.length k = 32%nat);
  ed25519_weak k := false;
  ed25519_verifying_key k := k;
  ed25519_sign k m := Toy.pad 64 k;
  ed25519_verify_strict k m s := bool_decide (s = Toy.pad 64 k);
  base64_encode s := s;
  base64_decode s := Some s;
  json_from_slice s := Some (Toy.document s);
  age_recipient_parse s := Some s;
  url_parse s := Some {| url_scheme := "https"; url_host := Some s; url_username := "";
                         url_password := None; url_query := None; url_fragment := None;
                         url_path := if s === "https://space" then "/team/v1/spaces"
                                     else "/spaces/v1/create"; url_loopback := false |};
|}.

(** ** Documents *)

Definition stored_proof : CallAuthorityProof :=
  {| pf_v := 1; pf_genesis := sr_bytes genesis4; pf_credentials := [sr_bytes (rec "{1c}" Toy.root_key)];
     pf_configs := [sr_bytes config4]; pf_checkpoint := None |}.
Definition creation : CreateCommand :=
  {| cx_v := 2; cx_kind := "space.create"; cx_host := "https://host/spaces/v1/create";
     cx_request_id := display World.stream_id; cx_issued := 100; cx_name := "Space";
     cx_contact_email := "owner@example.org"; cx_lifetime := Hours24;
     cx_require_approval := false; cx_authority := Some stored_proof |}.
#[export] Instance creation_serde : Serde CreateCommand := Toy.table (λ _, "{}") [("{1v}", creation)].
Definition lease_body : Freshness :=
  {| fr_v := 1; fr_kind := "witness.freshness"; fr_audience := wp_url pin;
     fr_nonce := nonce32 "f"; fr_space_id := record_id genesis4; fr_stream_id := World.stream_id;
     fr_authority_head := record_id config4b;
     fr_position := {| po_sequence := 5; po_record_id := Some (rid "{1re}" witness_key) |};
     fr_issued_at_ms := 100000; fr_expires_at_ms := 130000; fr_witness_key_generation := 1 |}.
#[export] Instance protocol_serde : ProtocolSerde := {|
  serde_command := Toy.table (λ _, "!") []; serde_receipt := Toy.table (λ _, "!") [];
  serde_noop := Toy.table (λ _, "!") [];
  serde_freshness := Toy.table (λ _, "{1fr}") [("{1fr}", lease_body)];
  serde_ticket := Toy.table (λ _, "{1ti}") [];
  json_response := {| to_json _ := "response"; from_json _ := None |};
  json_proof := {| to_json _ := "proof"; from_json _ := None |};
  json_pin := {| to_json p := wp_url p; from_json _ := Some pin |} |}.
#[export] Instance wake_serde : WakeSerde := {|
  serde_sender_proof := Toy.table (λ _, "!") []; serde_account_command := Toy.table (λ _, "!") [];
  json_policy := {| to_json _ := "policy"; from_json _ := None |} |}.
Definition deletion : Command :=
  {| hc_v := 1; hc_kind := "space.command"; hc_space := Hosted.space_id; hc_nonce := nonce16;
     hc_issued := 1000; hc_action := "delete";
     hc_body := VObject [("revision", VNumber 0); ("name", VString "Space"); ("confirmed", VBool true)] |}.
Definition farewell : AccountCommand :=
  {| ac_v := 1; ac_kind := "account.deletion"; ac_endpoint := "https://space" +:+ DELETION_PATH;
     ac_nonce := nonce16; ac_issued := 1000; ac_action := Submit; ac_confirmed := true |}.
#[export] Instance hosted_serde : HostedSerde := {|
  serde_space_command := Toy.table (λ _, "{}") [("{1z}", deletion)];
  serde_enrollment := Toy.table (λ _, "{}") [];
  serde_call_proof := Toy.table (λ _, "{}") [];
  serde_durable := Toy.table (λ _, "{}") [];
  serde_invitation := Toy.table (λ _, "{}") [];
  serde_account := Toy.table (λ _, "{}") [("{1j}", farewell)];
  serde_revocation := Toy.table (λ _, "{}") [];
  state_to_vec _ := ""; value_to_vec _ := "" |}.
#[export] Instance working : Outside :=
  {| effect _ := Written; replica_call _ _ := true; provider_call _ := true; lock_free _ := true |}.

(** ** An empty host with a witness *)

Definition host_config : HostConfig := {|
  hn_public_url := "https://host"; hn_max_spaces_per_identity := 2; hn_max_spaces := 4;
  hn_max_space_creations_per_day := 3; hn_allowed_message_retentions := [Hours24];
  hn_allowed_creators := None; hn_registration_signing_key := Some (Toy.pad 32 "ticket");
  hn_attachment_storage := false; hn_witness := Some pin; hn_allow_loopback := false |}.
Definition gate0 : Gate := {|
  gt_pin := pin; gt_floor := {| gf_v := 1; gf_pin := pin; gf_position := None |}; gt_cache := ∅;
  gt_unavailable := false; gt_file := {| gf_v := 1; gf_pin := pin; gf_position := None |} |}.
Definition empty_host : Host := {|
  ht_config := host_config; ht_budget := NoFile; ht_registrations := NoFile; ht_dirs := ∅;
  ht_deleted := ∅; ht_jobs := ∅; ht_receipts := ∅;
  ht_registry := {| rg_files := ∅; rg_budget := no_budget |}; ht_spaces := ∅; ht_allocations := ∅;
  ht_witness := Some gate0 |}.
Definition creation_request : CreateRequest :=
  {| cr_record := sr_bytes (rec "{1v}" device_key); cr_credential := sr_bytes (rec "{1c}" Toy.root_key);
     cr_work := 0 |}.
Definition mailbox : MailboxDescriptor :=
  {| mb_id := "mailbox"; mb_read_token := ""; mb_write_token := "" |}.
Definition start : HostLife :=
  {| hw_host := empty_host; hw_clock := 0; hw_reserved := []; hw_tickets := [] |}.
Definition prepared :=
  prepare creation_request None None mailbox "" 100 100 100 empty_host.
Definition ticketed : HostLife := after_reserve start 100 prepared.1 (ticket_of prepared.2).

(** ** A host with an open Space *)

Definition space_dir : string := reservation_key owner_id (display World.stream_id).
Definition reservation : Reservation := {|
  re_creator := Some owner_id; re_request_id := display World.stream_id; re_name := "Space";
  re_contact_email := None; re_lifetime := Hours24; re_require_approval := false;
  re_mailbox := mailbox; re_password := ""; re_authority := Some stored_proof;
  re_creation_evidence := None; re_invitation := None; re_invitation_issued := 0;
  re_reserved_at := 1; re_creation_network := None; re_reclaim_if_unclaimed := true;
  re_ticket_issued := false |}.
Definition service : Service := Hosted.service.
Definition space : HostedSpace := {|
  hs_config := Hosted.config; hs_mailbox := "mailbox"; hs_serving := true; hs_client := Some service |}.
Definition signer : TransportSigner := {| tr_seed := ""; tr_credential := sr_bytes (vc_record second) |}.
Definition open_host : Host := {|
  ht_config := host_config; ht_budget := NoFile; ht_registrations := NoFile;
  ht_dirs := {[space_dir := {| sd_reservation := Holds reservation; sd_config := Holds Hosted.config;
                               sd_service := Some (signer, sv_stored service);
                               sd_replica := Some "key" |}]};
  ht_deleted := ∅; ht_jobs := ∅; ht_receipts := ∅;
  ht_registry := {| rg_files := ∅; rg_budget := no_budget |};
  ht_spaces := {[space_dir := space]}; ht_allocations := {[space_dir := Some owner_id]};
  ht_witness := Some gate0 |}.
Definition deletion_request : HostedState.Request :=
  {| hq_nonce := nonce16; hq_invitation := None; hq_record := Some (sr_bytes (rec "{1z}" device_key));
     hq_credential := Some (sr_bytes (rec "{1c}" Toy.root_key)) |}.
Definition draws : Draws :=
  {| dw_mailbox := mailbox; dw_password := ""; dw_replica := "key"; dw_signer := signer; dw_token := None |}.
Definition clocks : Clocks := {| ck_now _ := 1000; ck_lease _ := (0, 1000) |}.
Definition used : HostLife := {| hw_host := open_host; hw_clock := 0; hw_reserved := []; hw_tickets := [] |}.
Definition deleting :=
  command space_dir deletion_request None draws clocks (hw_host used).
Definition job : Job := {|
  jb_proof := Some {| ev_record := sr_bytes (rec "{1j}" guest_device);
                      ev_credential := sr_bytes (rec "{1g}" Toy.guest_key) |};
  jb_identity := guest_id; jb_id := nonce16; jb_requested_at := 1000; jb_completed_at := None;
  jb_spaces := [space_dir] |}.
Definition erased : Hosting.Host * result string unit :=
  process_job 2000 guest_id (store_job job open_host).

(** ** A lease of the Space's head *)

Definition no_lookup : Lookup :=
  {| lk_request := {| hr_space_id := ""; hr_stream_id := ""; hr_nonce := "" |}; lk_head := "";
     lk_floor := None; lk_requested_at := 0 |}.
Definition lookup : Lookup :=
  match require_begin gate0 joined (Some (Toy.pad 32 "f")) 0 101500 with
  | Ok (inr l) => l
  | _ => no_lookup
  end.
Definition lease : VerifiedFreshness := {| vf_body := lease_body; vf_requested_at := 0 |}.
Definition answered :=
  require_end gate0 lookup (sr_bytes (rec "{1fr}" witness_key)) 0 101500 0 101500 Written.
Definition asked : GateWorld := {| gw_gate := gate0; gw_lookups := [lookup]; gw_leases := [] |}.
Definition leased : GateWorld := {| gw_gate := answered.1; gw_lookups := [lookup];
     gw_leases := match answered.2 with Ok f => [f] | Err _ => [] end |}.
(** The host after its owner deleted the Space, and when that is finished. *)
Definition deleted : HostLife := after used deleting.1.
Definition finished : HostLife := after deleted (finish_deletion space_dir (hw_host deleted)).1.
Definition expiring : HostLife :=
  after used (expire_reservations_at 1000000000 [space_dir] (hw_host used)).1.
End Host.

Module HostExamples.
Import World Host.

Lemma leased_run : gate_run (HostGate.opened gate0) leased.
Proof.
  eapply rtc_l; [eapply (gate_asked gate0 [] [] joined (Some (Toy.pad 32 "f")) 0 101500 lookup);
                 vm_compute; reflexivity|].
  apply rtc_once. by apply (gate_answered gate0 [lookup] [] lookup (sr_bytes (rec "{1fr}" witness_key))
                              0 101500 0 101500 Written), list_elem_of_singleton.
Qed.
Lemma lease_given : lease ∈ gw_leases leased.
Proof. assert (gw_leases leased = [lease]) as -> by (vm_compute; reflexivity). by left. Qed.
Lemma accepted_lease_current_witness :
  gate_open pin None false Written = Ok gate0
  ∧ gate_check (gw_gate leased) joined lease 0 101500 = Ok tt
  ∧ Some (fr_authority_head lease_body) = head joined
  ∧ freshness_is_valid lease 0 101500 = true.
Proof.
  assert (H1 : gate_open pin None false Written = Ok gate0) by (vm_compute; reflexivity).
  assert (H2 : gate_check (gw_gate leased) joined lease 0 101500 = Ok tt) by (vm_compute; reflexivity).
  destruct (accepted_lease_current pin None false Written gate0 leased leased lease joined lease 0 101500
    H1 leased_run lease_given (rtc_refl _ _) H2) as (_ & _ & _ & _ & H3 & H4 & _).
  split; [exact H1|]. split; [exact H2|]. split; [exact H3|exact H4].
Defined.

(** *** The witnessed host *)

Lemma ticketed_run : hosting_run start ticketed.
Proof.
  apply rtc_once. apply (step_prepare start working creation_request None None mailbox "" 100 100 100).
  cbn. lia.
Qed.
Lemma nothing_marked : ∀ i, ¬ marked empty_host i.
Proof. intros i (d & r & Hd & _). discriminate Hd. Qed.
Lemma registration_tickets_counted_witness :
  N.of_nat (size (list_to_set (hw_tickets ticketed) : gset string)) = 1
  ∧ ∃ n, ht_registrations (hw_host ticketed) = Holds n ∧ 1 ≤ n.
Proof.
  assert (H : N.of_nat (size (list_to_set (hw_tickets ticketed) : gset string)) = 1)
    by (vm_compute; reflexivity).
  split; [exact H|].
  destruct (registration_tickets_counted empty_host 0 ticketed nothing_marked ticketed_run) as [_ Hn].
  rewrite H in Hn. apply Hn. vm_compute. intros Hx. discriminate Hx.
Defined.
Lemma nothing_reserved : covered empty_host.
Proof. intros i [d Hd]. discriminate Hd. Qed.
Lemma hosting_within_limits_witness :
  nlen (hw_reserved ticketed) = 1 ∧ of_day 0 (hw_reserved ticketed) = 1
  ∧ of_day 0 (hw_reserved ticketed) ≤ 3
  ∧ N.of_nat (size (ht_dirs (hw_host ticketed))) = 1
  ∧ N.of_nat (size (ht_dirs (hw_host ticketed)))
      ≤ N.max (hn_max_spaces (ht_config empty_host)) (N.of_nat (size (ht_allocations empty_host))).
Proof.
  destruct (hosting_within_limits empty_host 0 ticketed nothing_reserved ticketed_run) as (H1 & H2 & _).
  split; [vm_compute; reflexivity|]. split; [vm_compute; reflexivity|]. split; [exact (proj1 (H1 0))|].
  split; [vm_compute; reflexivity|exact H2].
Defined.

(** *** The open Space *)

Lemma deleted_run : hosting_run used deleted.
Proof.
  unfold deleted, deleting. apply rtc_once.
  exact (step_command used working Hosted.every_write space_dir deletion_request None draws clocks).
Qed.
Lemma finished_run : hosting_run deleted finished.
Proof. unfold finished. apply rtc_once. exact (step_finish deleted working space_dir). Qed.
Lemma expiring_run : hosting_run used expiring.
Proof. unfold expiring. apply rtc_once. exact (step_expire used working 1000000000 [space_dir]). Qed.

Definition marker : DeletedSpace :=
  {| dl_receipt := (Hosted.space_id, 1000); dl_mailbox := "mailbox"; dl_objects := []; dl_completed := false |}.
Lemma deleted_marker : ht_deleted (hw_host deleted) !! space_dir = Some marker.
Proof. vm_compute. reflexivity. Qed.
Lemma deletion_confirmed_witness :
  ht_deleted (hw_host deleted) !! space_dir = Some marker
  ∧ ∃ w1 q sp sv signed cmd c time, hosting_run used w1
    ∧ ht_spaces (hw_host w1) !! space_dir = Some sp ∧ hs_client sp = Some sv
    ∧ confirms sv (hs_config sp) q time signed cmd c.
Proof.
  split; [exact deleted_marker|].
  destruct (deletion_confirmed used deleted space_dir marker deleted_run eq_refl deleted_marker)
    as (w1 & OU & D & q & lease & dr & cl & sp & sv & signed & cmd & c & H1 & _ & _ & H2 & H3 & _ & _ & _ & H4).
  exists w1, q, sp, sv, signed, cmd, c, (ck_now cl 3). split; [exact H1|].
  split; [exact H2|]. split; [exact H3|exact H4].
Defined.
Lemma deleted_space_gone_witness :
  ht_dirs (hw_host finished) !! space_dir = None
  ∧ (command space_dir deletion_request None draws clocks (hw_host finished)).2
    = Ok (Receipt (Hosted.space_id, 1000))
  ∧ ∃ d, ht_deleted (hw_host finished) !! space_dir = Some d ∧ dl_receipt d = dl_receipt marker.
Proof.
  destruct (deleted_space_gone deleted finished space_dir marker finished_run deleted_marker) as [H _].
  split; [vm_compute; reflexivity|]. split; [vm_compute; reflexivity|exact H].
Defined.

Lemma space_in_use : in_use space_dir open_host.
Proof.
  split.
  - eexists. split; [vm_compute; reflexivity|vm_compute; reflexivity].
  - intros sp sv Hsp Hsv. unfold open_host in Hsp. cbn [ht_spaces] in Hsp.
    apply lookup_singleton_Some in Hsp as [_ <-]. cbn in Hsv. injection Hsv as <-. vm_compute. reflexivity.
Qed.
Lemma claimed_space_kept_witness :
  in_use space_dir (hw_host used) ∧ in_use space_dir (hw_host expiring).
Proof.
  split; [exact space_in_use|].
  apply (claimed_space_kept used expiring space_dir space_in_use expiring_run). vm_compute. reflexivity.
Defined.

Lemma account_job_completes_witness :
  ht_jobs erased.1 !! guest_id = Some (finished_job job 2000) ∧ forgotten guest_id space_dir erased.1.
Proof.
  assert (H : ht_jobs erased.1 !! guest_id = Some (finished_job job 2000)) by (vm_compute; reflexivity).
  split; [exact H|].
  destruct (account_job_completes 2000 guest_id (store_job job open_host) job) as [Hj|[_ Hf]];
    [vm_compute; reflexivity|reflexivity| |].
  - exfalso. change (ht_jobs erased.1 !! guest_id = Some job) in Hj. rewrite H in Hj. discriminate Hj.
  - apply Hf; [by left|]. eexists. vm_compute. reflexivity.
Defined.

End HostExamples.
